(* ===== verification/_CoqProject ===== *)
-Q . S2P
Prelude.v
GoStrings.v
Token.v
Jid.v
BotMap.v
Node.v
Encoder.v
Decoder.v
Wire.v
Cbc.v
Crypto.v
LTHash.v
StateErr.v
Sql.v
Sessions.v
PreKeys.v
Receive.v
Presence.v
AppStateStore.v
AppState.v
AppStateProofs.v
AppStateEncode.v
AppStateWitness.v
Frame.v
Noise.v
Handshake.v
Safety.v
Bulk.v
LidMap.v
MsgSecret.v
Requests.v
Groups.v
Contacts.v
TCToken.v
Retry.v
RetryLimit.v
Messages.v
History.v
QrChannel.v
Lifecycle.v
Send.v
Devices.v
AppStateSync.v
AppStateInStep.v
AppStateSyncWitness.v
DeviceStore.v
Pairing.v
PairingProofs.v
PairingWitness.v
ReportingToken.v
Media.v
MediaFile.v
MediaProofs.v
MediaFileProofs.v
MediaRetry.v
Settings.v
Users.v
Newsletter.v
Notifications.v
Pipeline.v
Armadillo.v
SendFB.v
Builders.v
Incoming.v
ClientPayload.v
SignalStore.v
NodeText.v
ClientSetup.v
PanelSessions.v
PanelProofs.v
PanelPortal.v
PanelAdmin.v
PanelImport.v
