(* ===== verification/Prelude.v ===== *)
(** * Verification of the WhatsApp client library and its control panel

    The repository is whatsmeow-custom (a Go client for WhatsApp's multi-device
    protocol, under src/whatsmeow-custom/) and a control panel that sends
    through it (the Go files of src/). This library models their core as
    executable definitions and proves what they promise. Paths below are under
    src/whatsmeow-custom/ unless they name a file of src/ itself.

    ** How the parts fit

    Bytes come off a websocket into [FrameSocket] (Frame.v), which cuts them
    into frames; the Noise handshake (Noise.v, Handshake.v) agrees on keys over
    it, after which [NoiseSocket] opens and seals frames; their payload is the
    binary XML of Encoder.v and Decoder.v, over the token tables (Token.v) and
    identifiers (Jid.v), giving the trees of Node.v. Lifecycle.v connects,
    disconnects and reconnects that socket; QrChannel.v shows the codes for
    pairing, which Pairing.v completes, leaving a device in the table of
    DeviceStore.v. Responses are matched to requests by Requests.v. Between
    the socket and the rest is Pipeline.v: frames become stanzas, stanzas go
    through a queue to the handler of their tag, and stanzas that are sent
    become frames; Notifications.v takes the notifications apart for the
    components they concern. ClientPayload.v and ClientSetup.v are what a client
    says of itself, its transports, and waiting and logging out.

    A message that comes in is parsed and acknowledged (Receive.v), decrypted
    and stored (Messages.v, History.v) over the session store (Sessions.v) and
    the prekeys (PreKeys.v), and asked for again when that fails (Retry.v,
    RetryLimit.v); Incoming.v unwraps it and downloads the history it may
    announce; Armadillo.v does the same for Messenger's layers. A
    message that goes out (Send.v) asks for the devices of its recipients
    (Devices.v), is encrypted for each over the same store, takes along a
    privacy token (TCToken.v, History.v) and waits for its response; Builders.v
    makes the messages themselves and SendFB.v sends Messenger's. Attachments
    are transferred and sealed by Media*.v. LidMap.v is
    the table between the two kinds of user address that all of them use.
    Groups.v, Presence.v and Contacts.v are the groups, presences and calls, and
    the contacts and chat settings; Users.v, Settings.v and Newsletter.v are the
    queries about users, the privacy settings with the recipients of a status,
    and newsletters, orders and push registrations.

    Two kinds of payload have protocols of their own: app state patches
    (AppState*.v, over LTHash.v, Cbc.v and the store of AppStateStore.v) and
    messages sealed under another message's secret (MsgSecret.v).

    The panel sends through Safety.v, the safeguards in front of a send, which
    the queue worker (Bulk.v, filled by PanelImport.v), the sessions and pairing
    links of PanelSessions.v, and the tasks and rewards of PanelPortal.v use;
    PanelAdmin.v is what the administrator sees and changes.

    ** Files, source and definitions

    - Prelude.v, GoStrings.v, StateErr.v, Sql.v: outcomes of Go code (value,
      error, panic), integer widths, bytes, list lemmas; the functions of
      [strings], [strconv] and [fmt] that are used; a monad of state and
      outcomes; databases whose statements can fail and their transactions.
    - Token.v, Jid.v, BotMap.v, Node.v: binary/token/token.go; types/jid.go;
      types/botmap.go; binary/node.go and binary/attrs.go ([AttrUtility] threads
      its errors). NodeText.v: binary/xml.go, the JSON of node.go, errors.go.
    - Encoder.v, Decoder.v, Wire.v: binary/encoder.go, binary/decoder.go,
      binary/unpack.go; [Marshal], [Unmarshal] and the round trip.
    - Cbc.v, Crypto.v: util/cbcutil/cbc.go over any block permutation; the
      class [Crypto] of primitives with its laws [CryptoLaws], and the wrappers
      of util/gcmutil, util/hkdfutil and util/keys.
    - LTHash.v: appstate/lthash/lthash.go.
    - AppStateStore.v: the class [AppStateStore] with its laws, and the tables
      of store/sqlstore/store.go as an instance. AppState.v: appstate/hash.go,
      keys.go, decode.go; AppStateEncode.v: encode.go, recovery.go.
      AppStateProofs.v and AppStateWitness.v hold the theorems and their use
      at concrete inputs. AppStateSync.v: the parsing half of decode.go,
      appstate.go and the key shares of message.go; AppStateInStep.v and
      AppStateSyncWitness.v: its theorems and their use.
    - Frame.v, Noise.v, Handshake.v: socket/framesocket.go;
      socket/noisesocket.go and noisehandshake.go; handshake.go.
    - Lifecycle.v: client.go, connectionevents.go, keepalive.go. QrChannel.v:
      qrchan.go. Both as step relations of interleaving goroutines, as are
      Pipeline.v (the frames, handler queue and sending half of client.go) and
      the waiting calls of ClientSetup.v, which has the proxies of client.go,
      Logout, the fetching of key bundles and the texts of types/events, too.
      ClientPayload.v: store/clientpayload.go, update.go.
    - Requests.v: request.go, the waiters as a step relation.
    - Sessions.v: the signal tables of store/sqlstore/store.go,
      store/sessioncache.go. SignalStore.v: store/signal.go over them, with the
      sender keys. PreKeys.v: prekeys.go and its table. LidMap.v:
      store/sqlstore/lidmap.go.
    - Receive.v: the source and info of a stanza (message.go), receipt.go.
      Messages.v: decryption, buffering and answers (message.go). History.v:
      history syncs, app state key shares, cstoken.go. Incoming.v: unwrapping
      (types/events/events.go), messages of a history (client.go), unencrypted
      messages and the download loop of message.go. Armadillo.v:
      armadillomessage.go and the layers under proto/. Retry.v: retry.go and
      the table of sent messages; RetryLimit.v: its semaphore. MsgSecret.v:
      msgsecret.go and its table. Notifications.v: notification.go.
    - DeviceStore.v: the device of store/store.go and its table
      (store/sqlstore/container.go). Pairing.v: pair.go, pair-code.go and
      pair-passkey.go; PairingProofs.v and PairingWitness.v: its theorems and
      their use. ReportingToken.v: reportingtoken.go.
    - Send.v: send.go, with the waiting half of request.go. Builders.v: its
      builders of messages and ids, and those of msgsecret.go and appstate.go.
      SendFB.v: sendfb.go. Devices.v: device lists (user.go, notification.go).
      TCToken.v: tctoken.go and its table.
    - Media.v, MediaFile.v: download.go, upload.go, download-to-file.go and
      mediaconn.go over a server, files and their failures; MediaProofs.v and
      MediaFileProofs.v: their theorems. MediaRetry.v: mediaretry.go.
    - Groups.v: group.go. Presence.v: presence.go, call.go. Contacts.v: the
      contact and chat settings tables. Users.v: user.go. Settings.v:
      privacysettings.go, broadcast.go, the block list. Newsletter.v:
      newsletter.go, limits.go, business.go, push.go.
    - Safety.v: src/message_safety.go, src/account_health.go,
      src/send_telemetry.go and [settingInt] of src/main.go. Bulk.v: the queue
      of src/bulk_messaging.go; PanelImport.v: the upload, the actions and the
      table of that file, and src/sqlite_migration.go.
    - PanelSessions.v: src/main.go, the links of src/admin_routes.go,
      src/admin_logout.go, src/admin_pair_links_status.go,
      src/user_whatsapp_pairing.go; PanelProofs.v: its theorems. PanelPortal.v:
      src/user_portal.go, src/user_features.go. PanelAdmin.v: the rest of
      src/admin_routes.go, src/admin_schema.go, src/admin_telemetry.go.

    ** What the theorems show

    - Wire format: encoding then decoding gives the tree back in the normal
      form the wire keeps; the decoder ends on every input; one malformed tag
      makes it panic. A node's text does not depend on the order of attributes; its
      JSON reads back, except for nodes without content.
    - Transport: frames come out as sent unless a payload is cut (and then they
      do not); Noise sockets deliver texts in order and never reuse a nonce;
      the handshake succeeds only with a certified server key and agrees with a
      partner that follows the protocol; closing and stopping act once.
    - Connection: in every interleaving at most one websocket is open; one whose
      end the client sees can be taken up again; Disconnect holds unless a goroutine was past
      its last check (and then it does not); the QR channel is closed once; a wait
      for the connection misses no log-in's wake-up. Every stanza of a frame is handled
      once, in order, by its handler, and one that hangs does not stop the rest;
      what is sent is what the other side decodes.
    - Requests: an invariant of every interleaving: answers are for their
      request, a disconnect reaches every waiter, and the one possible panic is
      a cancelled request whose response is on its way.
    - Ciphers: CBC inverts itself; its streaming and in-place forms agree with
      the whole-slice ones.
    - App state: the LTHash is a homomorphism; the processor keeps the stored
      hash equal to the hash of the stored value MACs; verified patches carry
      all four MACs; encoded patches are accepted; recovery stores what it
      recovered; a repeated SET breaks storing. Fetching page after page and
      sending with a retry keep a collection in step with the server, and end;
      a missing key is asked for once a day.
    - Stores: the LID map's cache and the contact cache never disagree with
      their tables on a working database, and where failures make them; the
      session cache, whose records are shared with their users, refines the session
      table for those that store what they change, and not for others; migration moves everything of a
      user; uploads mark exactly the keys sent.
    - Receiving: a message is decrypted once while its hash is kept, and answered
      once, or asked for again and acknowledged; retry receipts and answers to them are capped, also in parallel, and none waits
      forever; sent messages are found again. Wrapped messages are unwrapped to
      the end; history syncs are taken one by one, and none is left.
      Notifications are acknowledged once.
    - Sending: a message reaches every device but the sender's own in the text
      meant for it; a result means an answered stanza; device lists keep a
      hash the server gave, although slices are changed in place, and no two
      users' lists share an array; the hash does not depend on the order;
      a token is issued at most once a week. A Messenger message is decoded by
      every device that got it.
    - Media: what is downloaded has the hashes the message names, to memory and
      to a file alike; what is uploaded is downloaded as it was.
    - Groups: the cached members are the set the notifications make. Users and
      settings: queries give what the server said; a status goes to nobody on
      the blacklist.
    - Message secrets: found in both addressing modes; votes round-trip; a
      short IV panics. The content of a reporting token is what its table selects
      of the message, at every level, up to the order of repeated fields; bytes
      that are no message can hang it.
    - Pairing: only an account's signature over this device's key pairs it; what
      fails leaves no JID behind, unless the device cannot be saved or not be
      deleted; by code and by passkey both sides hold the same
      secret. A saved device is loaded as it was; one saved over another is not.
    - Panel: no send around the safeguards, whatever statements fail; spacing and window bounds over any
      sequence of attempts, and how two senders exceed them; a queue round
      moves each row at most once, and marks rows failed during the cooldown;
      every attempt written down ends in one of eleven ways, ten of which are
      counted. Imports add consented rows only and end if the upload does. A user
      has one session, a pairing link sends its message at most once, balances
      are what the ledger adds up to; names are quoted safely, and an update of a
      table may bind values to the wrong columns. Copying the old database twice
      is copying it once, but for the sessions.

    ** Bounds and fuel

    The decoder runs on one unit of fuel per input byte plus one
    ([Unmarshal_terminates]); the reassembly loop on one per byte and a
    constant ([processData_terminates]); fetching app state on one per page, which is
    enough when pages advance up to a version ([FetchAppState_returns]); removing a suffix in SQL on one per
    character; cutting a list into chunks on one per element; an import on one
    per record ([import_ends]); [errors.Is] on the size of both errors
    ([fuel_enough]). Other recursion
    is structural. Machine integers are written out where they wrap: the token
    and length bytes, the 16-bit words of LTHash, the 32-bit Noise counters,
    versions of app state, retry counters, device numbers.

    ** What is abstract or left out

    Primitives of cryptography, libsignal's ciphers, protobuf and JSON codecs,
    zlib and gzip, the random source, the clock and the answers of WhatsApp are
    parameters, with laws where a theorem needs them; every law has a toy
    instance in the witnesses. SQL statements are functions on tables, whose
    failures are part of the state. Locks make the locked operations atomic;
    interleavings are explicit in Requests.v, QrChannel.v, Lifecycle.v,
    Pipeline.v, Incoming.v, ClientSetup.v and RetryLimit.v; in the panel a handler
    is one step, except where two requests for a link race.
    Strings are bytes; case and space functions act on ASCII. Messages keep the
    fields of the generated types that the code looks at.

    Not modelled, because nothing is decided there: generated protobuf code and
    its aliases (binary/proto/legacy.go); internals.go, whose methods each call
    one method of the client, and the program that writes it; store/noop.go, whose
    methods all return one error; logging, dial options and debug timings; HTML
    pages, the encoding of rows as JSON, and the listings of the panel that only
    join its tables; opening connection pools and creating tables; the argo
    decoder, which a false constant switches off. SetDisappearingTimer is left
    out because its seconds are floating point; amounts of money in the panel are
    values with any addition, in the order in which the code adds. *)

From Stdlib Require Strings.Byte.
From Stdlib Require Export ZArith Lia Ascii String.
From Stdlib Require Export Init.Byte.
From stdpp Require Export base list gmap strings.

#[global] Open Scope Z_scope.

(** ** Outcomes of Go code

    [Ok]: the function returned with a nil error; [Err]: it returned a non-nil
    error; [Panic]: a run-time panic (failed type assertion, slice index out of
    range, explicit [panic]); [NoFuel]: the model's recursion bound ran out,
    which the Go code has no counterpart of and which the development proves
    never to happen. *)
Inductive outcome (E A : Type) : Type :=
  | Ok (a : A)
  | Err (e : E)
  | Panic
  | NoFuel.
Arguments Ok {E A} a.
Arguments Err {E A} e.
Arguments Panic {E A}.
Arguments NoFuel {E A}.

#[export] Instance outcome_ret {E} : MRet (outcome E) := fun A a => Ok a.
#[export] Instance outcome_bind {E} : MBind (outcome E) :=
  fun A B k m =>
    match m with
    | Ok a => k a
    | Err e => Err e
    | Panic => Panic
    | NoFuel => NoFuel
    end.
#[export] Instance outcome_fmap {E} : FMap (outcome E) :=
  fun A B f m =>
    match m with
    | Ok a => Ok (f a)
    | Err e => Err e
    | Panic => Panic
    | NoFuel => NoFuel
    end.

(** The monad's equations, to rewrite with. *)
Lemma bind_Ok {E A B} (a : A) (k : A -> outcome E B) : (Ok a ≫= k) = k a.
Proof. reflexivity. Qed.
Lemma bind_Err {E A B} (e : E) (k : A -> outcome E B) : (Err e ≫= k) = Err e.
Proof. reflexivity. Qed.

(** A successful sequence: each of its parts succeeded. *)
Lemma bind_inv {E A B} (m : outcome E A) (k : A -> outcome E B) b :
  (m ≫= k) = Ok b -> exists a, m = Ok a /\ k a = Ok b.
Proof. destruct m; try discriminate. intros H. eauto. Qed.

Definition is_ok {E A} (m : outcome E A) : bool :=
  match m with Ok _ => true | _ => false end.

(** Change the error type: [fmt.Errorf("...: %w", err)]. *)
Definition map_err {E E' A} (f : E -> E') (m : outcome E A) : outcome E' A :=
  match m with
  | Ok a => Ok a
  | Err e => Err (f e)
  | Panic => Panic
  | NoFuel => NoFuel
  end.

(** An [option] read as a comma-ok form whose failure panics. *)
Definition or_panic {E A} (o : option A) : outcome E A :=
  match o with Some a => Ok a | None => Panic end.

(** ** Machine-width integers *)

Definition u8 (z : Z) : Z := z mod 2 ^ 8.
Definition u16 (z : Z) : Z := z mod 2 ^ 16.
Definition u32 (z : Z) : Z := z mod 2 ^ 32.
Definition u64 (z : Z) : Z := z mod 2 ^ 64.
Definition i32 (z : Z) : Z := (z + 2 ^ 31) mod 2 ^ 32 - 2 ^ 31.
Definition i64 (z : Z) : Z := (z + 2 ^ 63) mod 2 ^ 64 - 2 ^ 63.

Lemma u8_range z : 0 <= u8 z < 2 ^ 8.
Proof. by apply Z.mod_pos_bound. Qed.
Lemma u16_range z : 0 <= u16 z < 2 ^ 16.
Proof. by apply Z.mod_pos_bound. Qed.
Lemma u32_range z : 0 <= u32 z < 2 ^ 32.
Proof. by apply Z.mod_pos_bound. Qed.
Lemma u64_range z : 0 <= u64 z < 2 ^ 64.
Proof. by apply Z.mod_pos_bound. Qed.
Lemma u8_small z : 0 <= z < 2 ^ 8 -> u8 z = z.
Proof. intros. by apply Z.mod_small. Qed.
Lemma u16_small z : 0 <= z < 2 ^ 16 -> u16 z = z.
Proof. intros. by apply Z.mod_small. Qed.
Lemma u32_small z : 0 <= z < 2 ^ 32 -> u32 z = z.
Proof. intros. by apply Z.mod_small. Qed.
Lemma u64_small z : 0 <= z < 2 ^ 64 -> u64 z = z.
Proof. intros. by apply Z.mod_small. Qed.

(** ** Bytes: Go's [byte] is [Init.Byte.byte], [[]byte] is [list byte] *)

Abbreviation bytes := (list byte).

Definition b2z (b : byte) : Z := Z.of_N (Stdlib.Strings.Byte.to_N b).
Definition z2b (z : Z) : byte :=
  match Stdlib.Strings.Byte.of_N (Z.to_N (z mod 256)) with
  | Some b => b
  | None => x00
  end.

Lemma b2z_range b : 0 <= b2z b < 256.
Proof. unfold b2z. pose proof (Stdlib.Strings.Byte.to_N_bounded b). lia. Qed.

Lemma b2z_z2b z : b2z (z2b z) = z mod 256.
Proof.
  unfold b2z, z2b.
  pose proof (Z.mod_pos_bound z 256 ltac:(lia)) as Hz.
  destruct (Stdlib.Strings.Byte.of_N (Z.to_N (z mod 256))) as [b|] eqn:E.
  - apply Stdlib.Strings.Byte.to_of_N in E. rewrite E. lia.
  - apply Stdlib.Strings.Byte.of_N_None_iff in E. lia.
Qed.

Lemma b2z_inj b c : b2z b = b2z c -> b = c.
Proof.
  unfold b2z. intros H. apply N2Z.inj in H.
  pose proof (Stdlib.Strings.Byte.of_to_N b) as Hb.
  pose proof (Stdlib.Strings.Byte.of_to_N c) as Hc. congruence.
Qed.

Lemma z2b_b2z b : z2b (b2z b) = b.
Proof. apply b2z_inj. rewrite b2z_z2b. apply Z.mod_small, b2z_range. Qed.

Lemma b2z_z2b_small z : 0 <= z < 256 -> b2z (z2b z) = z.
Proof. intros. rewrite b2z_z2b. apply Z.mod_small. lia. Qed.

Create HintDb bytes.
Create Rewrite HintDb gobytes.
Create Rewrite HintDb blen.
#[export] Hint Rewrite b2z_z2b z2b_b2z : gobytes.
#[export] Hint Resolve b2z_range : bytes.

#[export] Instance byte_eq_dec : EqDecision byte := Stdlib.Strings.Byte.byte_eq_dec.
#[export] Instance byte_countable : Countable byte.
Proof.
  refine (inj_countable' b2z z2b _). apply z2b_b2z.
Defined.

(** ** Go strings: [String.string], a sequence of bytes *)

(** [[]byte(s)] and [string(b)] *)
Definition str_bytes (s : string) : bytes := String.list_byte_of_string s.
Definition bytes_str (b : bytes) : string := String.string_of_list_byte b.

Lemma bytes_str_bytes s : bytes_str (str_bytes s) = s.
Proof. apply String.string_of_list_byte_of_string. Qed.

Lemma str_bytes_str b : str_bytes (bytes_str b) = b.
Proof. apply String.list_byte_of_string_of_list_byte. Qed.

Lemma str_bytes_inj s t : str_bytes s = str_bytes t -> s = t.
Proof. intros H. rewrite <- (bytes_str_bytes s), <- (bytes_str_bytes t). by f_equal. Qed.

#[export] Hint Rewrite bytes_str_bytes str_bytes_str : gobytes.

Definition blen {A} (l : list A) : Z := Z.of_nat (length l).

Lemma blen_nonneg {A} (l : list A) : 0 <= blen l.
Proof. unfold blen. lia. Qed.

Lemma blen_app {A} (l k : list A) : blen (l ++ k) = blen l + blen k.
Proof. unfold blen. rewrite length_app. lia. Qed.

Lemma blen_cons {A} (x : A) l : blen (x :: l) = 1 + blen l.
Proof. unfold blen. simpl length. lia. Qed.

Lemma blen_nil {A} : blen (@nil A) = 0.
Proof. done. Qed.

#[export] Hint Rewrite @blen_app @blen_cons @blen_nil : blen.

(** [Ltac] for goals about lengths of byte strings. *)
Ltac blen := autorewrite with blen in *; unfold blen in *; lia.

(** Slices [l[i:]] and [l[:i]] with a [Z] index. *)
Definition zdrop {A} (i : Z) (l : list A) : list A := drop (Z.to_nat i) l.
Definition ztake {A} (i : Z) (l : list A) : list A := take (Z.to_nat i) l.
Definition zget {A} (l : list A) (i : Z) : option A :=
  if i <? 0 then None else l !! Z.to_nat i.

Lemma zget_app_r {A} (l k : list A) i :
  0 <= i -> zget (l ++ k) (blen l + i) = zget k i.
Proof.
  intros H. unfold zget, blen.
  destruct (Z.ltb_spec (Z.of_nat (length l) + i) 0); [lia|].
  destruct (Z.ltb_spec i 0); [lia|].
  rewrite lookup_app_r by lia. f_equal. lia.
Qed.

Lemma zdrop_app {A} (l k : list A) : zdrop (blen l) (l ++ k) = k.
Proof. unfold zdrop, blen. rewrite Nat2Z.id. by rewrite drop_app_length. Qed.

Lemma ztake_app {A} (l k : list A) : ztake (blen l) (l ++ k) = l.
Proof. unfold ztake, blen. rewrite Nat2Z.id. by rewrite take_app_length. Qed.

Lemma zdrop_all {A} (l : list A) : zdrop (blen l) l = [].
Proof. unfold zdrop, blen. rewrite Nat2Z.id. by apply drop_ge. Qed.

Lemma ztake_all {A} (l : list A) : ztake (blen l) l = l.
Proof. unfold ztake, blen. rewrite Nat2Z.id. by apply take_ge. Qed.

Lemma length_zdrop {A} i (l : list A) : 0 <= i <= blen l -> blen (zdrop i l) = blen l - i.
Proof. unfold zdrop, blen. rewrite length_drop. lia. Qed.

Lemma length_ztake {A} i (l : list A) : 0 <= i <= blen l -> blen (ztake i l) = i.
Proof. unfold ztake, blen. rewrite length_take. lia. Qed.

(** [binary.BigEndian.PutUint32] and [Uint32]. *)
Definition PutUint32 (z : Z) : bytes :=
  [z2b (z / 2 ^ 24); z2b (z / 2 ^ 16); z2b (z / 2 ^ 8); z2b z].

Definition BigEndian_Uint32 (b : bytes) : Z := foldl (fun acc c => acc * 256 + b2z c) 0 b.

Lemma Uint32_tail z : BigEndian_Uint32 (x00 :: tail (PutUint32 z)) = z mod 2 ^ 24.
Proof.
  unfold BigEndian_Uint32, PutUint32. cbn [tail foldl]. rewrite !b2z_z2b. change (b2z x00) with 0.
  change (2 ^ 16) with (256 * 256). change (2 ^ 8) with 256. change (2 ^ 24) with (256 * (256 * 256)).
  rewrite (Z.rem_mul_r z 256 (256 * 256)), (Z.rem_mul_r (z / 256) 256 256), <- (Z.div_div z 256 256) by lia. lia.
Qed.

Lemma Uint32_Put z : 0 <= z < 2 ^ 32 -> BigEndian_Uint32 (PutUint32 z) = z.
Proof.
  intros Hz. change (BigEndian_Uint32 (PutUint32 z)) with
    ((((0 * 256 + b2z (z2b (z / 2 ^ 24))) * 256 + b2z (z2b (z / 2 ^ 16))) * 256 + b2z (z2b (z / 2 ^ 8))) * 256 + b2z (z2b z)).
  rewrite !b2z_z2b. change (2 ^ 24) with (256 * (256 * 256)). change (2 ^ 16) with (256 * 256). change (2 ^ 8) with 256.
  rewrite <- !Z.div_div by lia.
  pose proof (Z.div_mod z 256 ltac:(lia)). pose proof (Z.div_mod (z / 256) 256 ltac:(lia)).
  pose proof (Z.div_mod (z / 256 / 256) 256 ltac:(lia)).
  assert (0 <= z / 256 / 256 / 256 < 256).
  { split; [repeat apply Z.div_pos; lia|]. do 3 (apply Z.div_lt_upper_bound; [lia|]). lia. }
  rewrite (Z.mod_small (z / 256 / 256 / 256)) by lia. lia.
Qed.

(** Checking a boolean property of every number below a bound by computation. *)
Lemma forallb_below (n : Z) (P : Z -> bool) :
  forallb P (seqZ 0 n) = true -> forall z, 0 <= z < n -> P z = true.
Proof.
  intros H z Hz. rewrite forallb_forall in H. apply H.
  apply list_elem_of_In, elem_of_seqZ. lia.
Qed.

(** Induction on a list two elements at a time. *)
Lemma list_ind2 {A} (P : list A -> Prop) :
  P [] -> (forall a, P [a]) -> (forall a b l, P l -> P (a :: b :: l)) -> forall l, P l.
Proof.
  intros H0 H1 H2. enough (forall l, P l /\ forall a, P (a :: l)) by naive_solver.
  induction l as [|b l [IH IH']]; split; auto.
Qed.
