(* ===== verification/GoStrings.v ===== *)
(** * Go's [strings] and [strconv], as far as the program uses them

    Everything here translates documented behaviour of the Go standard
    library: [strings.Split] and [strings.ContainsRune] with a one-byte
    separator, [strconv.Itoa]/[FormatInt]/[FormatUint], [strconv.Atoi],
    [ParseInt]/[ParseUint] in base 10 and [ParseBool], and the case and space
    helpers the control panel uses. *)

From Stdlib Require Import Decimal DecimalString DecimalZ DecimalFacts.
From S2P Require Import Prelude.

#[local] Open Scope string_scope.
#[local] Open Scope Z_scope.

(** ** Characters and splitting *)

Fixpoint str_contains (c : ascii) (s : string) : bool :=
  match s with
  | EmptyString => false
  | String d s' => Ascii.eqb d c || str_contains c s'
  end.

(** [strings.Split(s, sep)] for a separator of one byte: never empty. *)
Fixpoint split_on (c : ascii) (s : string) : list string :=
  match s with
  | EmptyString => [""]
  | String d s' =>
      if Ascii.eqb d c then "" :: split_on c s'
      else match split_on c s' with
           | [] => [String d ""]
           | p :: ps => String d p :: ps
           end
  end.

(** [strings.Contains(s, sub)] and [strings.HasPrefix(s, p)] *)
Fixpoint has_prefix (p s : string) : bool :=
  match p, s with
  | EmptyString, _ => true
  | String a p', String b s' => Ascii.eqb a b && has_prefix p' s'
  | _, EmptyString => false
  end.

Fixpoint str_has (sub s : string) : bool :=
  has_prefix sub s ||
  match s with EmptyString => false | String _ s' => str_has sub s' end.

Definition trim_prefix (p s : string) : string :=
  if has_prefix p s then String.substring (String.length p) (String.length s - String.length p) s
  else s.

(** [strings.ToLower] on ASCII. *)
Definition lower_ascii (a : ascii) : ascii :=
  let n := nat_of_ascii a in
  if ((65 <=? n) && (n <=? 90))%nat then ascii_of_nat (n + 32) else a.

Fixpoint to_lower (s : string) : string :=
  match s with
  | EmptyString => ""
  | String a s' => String (lower_ascii a) (to_lower s')
  end.

(** [strings.TrimSpace] on ASCII. *)
Definition is_space (a : ascii) : bool :=
  let n := nat_of_ascii a in ((n =? 32) || ((9 <=? n) && (n <=? 13)))%nat.

Fixpoint trim_left (s : string) : string :=
  match s with
  | String a s' => if is_space a then trim_left s' else s
  | EmptyString => ""
  end.

Fixpoint trim_right (s : string) : string :=
  match s with
  | EmptyString => ""
  | String a s' =>
      match trim_right s' with
      | EmptyString => if is_space a then "" else String a ""
      | t => String a t
      end
  end.

Definition trim_space (s : string) : string := trim_right (trim_left s).

(** ** Decimal numbers *)

(** [strconv.Itoa], [strconv.FormatInt(_, 10)] and [fmt]'s [%d]. *)
Definition itoa (z : Z) : string := NilZero.string_of_int (Z.to_int z).

Definition digit (a : ascii) : option Z :=
  let n := Z.of_nat (nat_of_ascii a) in
  if (48 <=? n) && (n <=? 57) then Some (n - 48) else None.

Fixpoint parse_digits (acc : Z) (s : string) : option Z :=
  match s with
  | EmptyString => Some acc
  | String a s' => d ← digit a; parse_digits (10 * acc + d) s'
  end.

Inductive num_error := ErrSyntax | ErrRange.

Definition parse_nonempty (s : string) : outcome num_error Z :=
  match s with
  | EmptyString => Err ErrSyntax
  | _ => match parse_digits 0 s with Some z => Ok z | None => Err ErrSyntax end
  end.

(** [strconv.ParseUint(s, 10, 64)] *)
Definition parse_uint (s : string) : outcome num_error Z :=
  z ← parse_nonempty s;
  if z <? 2 ^ 64 then Ok z else Err ErrRange.

(** [strconv.ParseInt(s, 10, 64)] and [strconv.Atoi(s)] on a 64-bit machine. *)
Definition parse_int (s : string) : outcome num_error Z :=
  match s with
  | String "-" s' =>
      z ← parse_nonempty s'; if z <=? 2 ^ 63 then Ok (- z) else Err ErrRange
  | String "+" s' =>
      z ← parse_nonempty s'; if z <? 2 ^ 63 then Ok z else Err ErrRange
  | _ =>
      z ← parse_nonempty s; if z <? 2 ^ 63 then Ok z else Err ErrRange
  end.

Definition atoi : string -> outcome num_error Z := parse_int.

(** [strconv.ParseBool] and [strconv.FormatBool] *)
Definition parse_bool (s : string) : outcome num_error bool :=
  if bool_decide (s ∈ ["1"; "t"; "T"; "true"; "TRUE"; "True"]) then Ok true
  else if bool_decide (s ∈ ["0"; "f"; "F"; "false"; "FALSE"; "False"]) then Ok false
  else Err ErrSyntax.

Definition format_bool (b : bool) : string := if b then "true" else "false".

(** ** Lemmas on characters and splitting *)

Lemma ascii_eqb_ne a b : a <> b -> Ascii.eqb a b = false.
Proof. intros H. by apply Ascii.eqb_neq. Qed.

Lemma str_contains_app c s t :
  str_contains c (s +:+ t) = str_contains c s || str_contains c t.
Proof. induction s as [|d s IH]; simpl; [done|]. rewrite IH. by rewrite orb_assoc. Qed.

Lemma split_on_none c s : str_contains c s = false -> split_on c s = [s].
Proof.
  induction s as [|d s IH]; simpl; [done|].
  intros [-> H]%orb_false_iff. by rewrite IH.
Qed.

(** Splitting at the first separator. *)
Lemma split_on_app c s t :
  str_contains c s = false -> split_on c (s +:+ String c t) = s :: split_on c t.
Proof.
  induction s as [|d s IH]; simpl; intros H.
  - by rewrite Ascii.eqb_refl.
  - apply orb_false_iff in H as [Hd H]. rewrite Hd. by rewrite IH.
Qed.

Lemma str_contains_mid c s t : str_contains c (s +:+ String c t) = true.
Proof. rewrite str_contains_app. simpl. rewrite Ascii.eqb_refl. by rewrite orb_true_r. Qed.

Lemma split_on_nonempty c s : split_on c s <> [].
Proof.
  destruct s as [|d s]; simpl; [done|].
  destruct (Ascii.eqb d c); [done|]. by destruct (split_on c s).
Qed.

Lemma str_app_assoc (s t u : string) : (s +:+ t) +:+ u = s +:+ (t +:+ u).
Proof. induction s as [|a s IH]; [done|]. apply (f_equal (String a)), IH. Qed.

Lemma str_app_nil_r (s : string) : s +:+ "" = s.
Proof. induction s as [|a s IH]; [done|]. apply (f_equal (String a)), IH. Qed.

(** ** Lemmas on decimal numbers *)

(** The value of a [Decimal.uint] read digit by digit. *)
Fixpoint uint_val (acc : Z) (d : uint) : Z :=
  match d with
  | Nil => acc
  | D0 d => uint_val (10 * acc + 0) d
  | D1 d => uint_val (10 * acc + 1) d
  | D2 d => uint_val (10 * acc + 2) d
  | D3 d => uint_val (10 * acc + 3) d
  | D4 d => uint_val (10 * acc + 4) d
  | D5 d => uint_val (10 * acc + 5) d
  | D6 d => uint_val (10 * acc + 6) d
  | D7 d => uint_val (10 * acc + 7) d
  | D8 d => uint_val (10 * acc + 8) d
  | D9 d => uint_val (10 * acc + 9) d
  end.

Lemma parse_digits_uint d acc :
  parse_digits acc (NilEmpty.string_of_uint d) = Some (uint_val acc d).
Proof. revert acc. induction d; intros acc; simpl; rewrite ?IHd; reflexivity. Qed.

Lemma of_uint_acc_val d p : Z.pos (Pos.of_uint_acc d p) = uint_val (Z.pos p) d.
Proof.
  revert p. induction d; intros p; cbn [Pos.of_uint_acc uint_val]; [done|..];
    rewrite IHd; f_equal; lia.
Qed.

Lemma of_uint_val d : Z.of_uint d = uint_val 0 d.
Proof.
  unfold Z.of_uint. induction d; simpl; auto;
    try (rewrite of_uint_acc_val; reflexivity).
Qed.

(** No character other than a digit appears in a printed natural number. *)
Lemma string_of_uint_no c d :
  digit c = None -> str_contains c (NilEmpty.string_of_uint d) = false.
Proof.
  intros Hc. induction d; [done|..];
    cbn [NilEmpty.string_of_uint str_contains];
    (apply orb_false_iff; split; [|done]; apply ascii_eqb_ne; intros <-; done).
Qed.

Lemma itoa_nonneg z :
  0 <= z -> exists d, itoa z = NilEmpty.string_of_uint d /\ uint_val 0 d = z /\ d <> Nil.
Proof.
  intros Hz. unfold itoa.
  pose proof (DecimalZ.of_to z) as Hot.
  destruct (Z.to_int z) as [d|d] eqn:E; simpl in *.
  - assert (d <> Nil) as Hd.
    { intros ->. destruct z as [|p|p]; try done.
      all: injection E as E; by destruct (DecimalPos.Unsigned.to_uint_nonnil p). }
    exists d. split; [by destruct d|]. split; [|done].
    rewrite <- of_uint_val. by rewrite <- Hot.
  - destruct z; simpl in E; try done; lia.
Qed.

Lemma itoa_contains c z : 0 <= z -> digit c = None -> str_contains c (itoa z) = false.
Proof. intros Hz Hc. destruct (itoa_nonneg z Hz) as (d & -> & _). by apply string_of_uint_no. Qed.

Lemma parse_nonempty_itoa z : 0 <= z -> parse_nonempty (itoa z) = Ok z.
Proof.
  intros Hz. destruct (itoa_nonneg z Hz) as (d & -> & Hv & Hd).
  unfold parse_nonempty. rewrite parse_digits_uint, Hv.
  by destruct d.
Qed.

(** Printing then parsing an integer gives it back. *)
Lemma parse_uint_itoa z : 0 <= z < 2 ^ 64 -> parse_uint (itoa z) = Ok z.
Proof.
  intros Hz. unfold parse_uint. rewrite parse_nonempty_itoa by lia. simpl.
  by rewrite (proj2 (Z.ltb_lt z (2 ^ 64))) by lia.
Qed.

Lemma parse_int_unsigned s :
  str_contains "-" s = false -> str_contains "+" s = false ->
  parse_int s = (z ← parse_nonempty s; if z <? 2 ^ 63 then Ok z else Err ErrRange).
Proof.
  destruct s as [|a s]; [done|]. simpl.
  intros [Hm _]%orb_false_iff [Hp _]%orb_false_iff.
  apply Ascii.eqb_neq in Hm, Hp.
  destruct a as [[] [] [] [] [] [] [] []]; done.
Qed.

Lemma atoi_itoa z : 0 <= z < 2 ^ 63 -> atoi (itoa z) = Ok z.
Proof.
  intros Hz. unfold atoi. rewrite parse_int_unsigned;
    [| apply itoa_contains; [lia|done].. ].
  rewrite parse_nonempty_itoa by lia. simpl.
  by rewrite (proj2 (Z.ltb_lt z (2 ^ 63))) by lia.
Qed.

(** Parsing an integer either succeeds or returns an error. *)
Lemma parse_nonempty_total s :
  match parse_nonempty s with Ok z => 0 <= z | Err _ => True | _ => False end.
Proof.
  assert (forall s acc z, 0 <= acc -> parse_digits acc s = Some z -> 0 <= z) as Hpos.
  { clear s. induction s as [|a s IH]; simpl; intros acc z Hacc; [by intros [= <-]|].
    unfold digit. case_match eqn:E; [|done]. simpl. intros H%IH; [done|]. lia. }
  destruct s as [|a s]; [done|]. unfold parse_nonempty.
  destruct (parse_digits 0 (String a s)) eqn:E; [|done]. eapply Hpos; [|done]. done.
Qed.

Lemma parse_int_total s :
  match parse_int s with Ok z => - 2 ^ 63 <= z < 2 ^ 63 | Err _ => True | _ => False end.
Proof.
  assert (forall t, match (z ← parse_nonempty t; if z <? 2 ^ 63 then Ok z else Err ErrRange)
    with Ok z => - 2 ^ 63 <= z < 2 ^ 63 | Err _ => True | _ => False end) as Hpos.
  { intros t. pose proof (parse_nonempty_total t) as H.
    destruct (parse_nonempty t) as [z| | |]; simpl; try done.
    destruct (Z.ltb_spec z (2 ^ 63)); [lia|done]. }
  unfold parse_int. destruct s as [|a s]; [done|].
  destruct a as [[] [] [] [] [] [] [] []]; try apply Hpos.
  pose proof (parse_nonempty_total s) as H.
  destruct (parse_nonempty s) as [z| | |]; simpl; try done.
  destruct (Z.leb_spec z (2 ^ 63)); [lia|done].
Qed.

(** ** encoding/base64 *)

Definition base64_alphabet : string := "ABCDEFGHIJKLMNOPQRSTUVWXYZabcdefghijklmnopqrstuvwxyz0123456789+/".

Definition base64_digit (n : Z) : string := String.substring (Z.to_nat n) 1 base64_alphabet.

(** encoding/base64, RawStdEncoding: no padding. *)
Fixpoint RawStdEncoding (b : bytes) : string :=
  match b with
  | x :: y :: z :: b =>
      let n := b2z x * 65536 + b2z y * 256 + b2z z in
      base64_digit (Z.shiftr n 18) +:+ base64_digit (Z.land (Z.shiftr n 12) 63) +:+ base64_digit (Z.land (Z.shiftr n 6) 63)
        +:+ base64_digit (Z.land n 63) +:+ RawStdEncoding b
  | [x; y] =>
      let n := b2z x * 1024 + b2z y * 4 in
      base64_digit (Z.shiftr n 12) +:+ base64_digit (Z.land (Z.shiftr n 6) 63) +:+ base64_digit (Z.land n 63)
  | [x] => let n := b2z x * 16 in base64_digit (Z.shiftr n 6) +:+ base64_digit (Z.land n 63)
  | [] => ""
  end.

(** With the padding of StdEncoding. *)
Definition StdEncoding (b : bytes) : string :=
  RawStdEncoding b +:+ match (length b mod 3)%nat with 1%nat => "==" | 2%nat => "=" | _ => "" end.
