(* ===== verification/Jid.v ===== *)
(** * types/jid.go: WhatsApp identifiers

    The [JID] record, its constructors, its classification predicates and its
    textual form; [String] and [ParseJID] are proved inverse to each other on
    the identifiers the textual form can express. *)

From S2P Require Import Prelude GoStrings.

#[local] Open Scope string_scope.
#[local] Open Scope Z_scope.

Module jid.

(** ** Known servers *)

Definition DefaultUserServer := "s.whatsapp.net".
Definition GroupServer := "g.us".
Definition LegacyUserServer := "c.us".
Definition BroadcastServer := "broadcast".
Definition HiddenUserServer := "lid".
Definition MessengerServer := "msgr".
Definition InteropServer := "interop".
Definition NewsletterServer := "newsletter".
Definition HostedServer := "hosted".
Definition HostedLIDServer := "hosted.lid".
Definition BotServer := "bot".

Definition WhatsAppDomain := 0.
Definition LIDDomain := 1.
Definition HostedDomain := 128.
Definition HostedLIDDomain := 129.

(** ** The identifier *)

Record JID := mkJID {
  User : string;
  RawAgent : Z;      (* uint8 *)
  Device : Z;        (* uint16 *)
  Integrator : Z;    (* uint16 *)
  Server : string
}.

#[export] Instance JID_eq_dec : EqDecision JID.
Proof. solve_decision. Defined.

#[export] Instance JID_countable : Countable JID.
Proof.
  refine (inj_countable' (fun j => (User j, (RawAgent j, (Device j, (Integrator j, Server j)))))
    (fun t => let '(u, (a, (d, (i, s)))) := t in mkJID u a d i s) _). by intros [].
Defined.

(** The fields hold values of their Go types. *)
Definition jid_ok (j : JID) : Prop :=
  0 <= RawAgent j < 2 ^ 8 /\ 0 <= Device j < 2 ^ 16 /\ 0 <= Integrator j < 2 ^ 16.

#[export] Instance jid_ok_dec j : Decision (jid_ok j).
Proof. unfold jid_ok. apply _. Defined.

Definition EmptyJID := mkJID "" 0 0 0 "".

Definition NewJID (user server : string) : JID := mkJID user 0 0 0 server.

Definition GroupServerJID := NewJID "" GroupServer.
Definition ServerJID := NewJID "" DefaultUserServer.
Definition BroadcastServerJID := NewJID "" BroadcastServer.
Definition StatusBroadcastJID := NewJID "status" BroadcastServer.
Definition LegacyPSAJID := NewJID "0" LegacyUserServer.
Definition PSAJID := NewJID "0" DefaultUserServer.
Definition OfficialBusinessJID := NewJID "16505361212" LegacyUserServer.
Definition MetaAIJID := NewJID "13135550002" DefaultUserServer.
Definition NewMetaAIJID := NewJID "867051314767696" BotServer.

Definition ActualAgent (j : JID) : Z :=
  if bool_decide (Server j = DefaultUserServer) then WhatsAppDomain
  else if bool_decide (Server j = HiddenUserServer) then LIDDomain
  else if bool_decide (Server j = HostedServer) then HostedDomain
  else if bool_decide (Server j = HostedLIDServer) then HostedLIDDomain
  else RawAgent j.

(** [UserInt]: the parse error is dropped; on a range error [ParseUint] returns
    the largest uint64, on a syntax error 0. *)
Definition UserInt (j : JID) : Z :=
  match parse_uint (User j) with
  | Ok n => n
  | Err ErrRange => 2 ^ 64 - 1
  | _ => 0
  end.

Definition ToNonAD (j : JID) : JID := mkJID (User j) 0 0 (Integrator j) (Server j).

Definition SignalAddressUser (j : JID) : string :=
  let agent := ActualAgent j in
  if agent =? 0 then User j else User j +:+ "_" +:+ itoa agent.

(** The Signal address is the pair (name, device id). *)
Definition SignalAddress (j : JID) : string * Z := (SignalAddressUser j, u32 (Device j)).

Definition IsBroadcastList (j : JID) : bool :=
  bool_decide (Server j = BroadcastServer) && negb (bool_decide (User j = User StatusBroadcastJID)).

Fixpoint all_digits (s : string) : bool :=
  match s with
  | EmptyString => true
  | String a s' => match digit a with Some _ => all_digits s' | None => false end
  end.

(** [^1313555\d{4}$|^131655500\d{2}$] *)
Definition botUserRegex (s : string) : bool :=
  (has_prefix "1313555" s && (String.length s =? 11)%nat && all_digits (trim_prefix "1313555" s))
  || (has_prefix "131655500" s && (String.length s =? 11)%nat
      && all_digits (trim_prefix "131655500" s)).

Definition IsBot (j : JID) : bool :=
  (bool_decide (Server j = DefaultUserServer) && botUserRegex (User j) && (Device j =? 0))
  || bool_decide (Server j = BotServer).

(** [NewADJID(user, agent, device)]: [agent] is a domain type when it is one of
    the four known ones. *)
Definition NewADJID (user : string) (agent device : Z) : JID :=
  if agent =? LIDDomain then mkJID user 0 (u16 device) 0 HiddenUserServer
  else if agent =? HostedDomain then mkJID user 0 (u16 device) 0 HostedServer
  else if agent =? HostedLIDDomain then mkJID user 0 (u16 device) 0 HostedLIDServer
  else mkJID user agent (u16 device) 0 DefaultUserServer.

(** ** Parsing *)

Inductive jid_error :=
  | ErrDots            (* "unexpected number of dots in JID" *)
  | ErrColons          (* "unexpected number of colons in JID" *)
  | ErrDevice (e : num_error).  (* "failed to parse device from JID" *)

(** [ParseJID]; an error result carries the partly filled identifier the Go
    function returns beside it, which [Node.UnmarshalJSON] goes on to use. *)
Definition ParseJID (s : string) : outcome (jid_error * JID) JID :=
  match split_on "@" s with
  | [] => Panic
  | [server] => Ok (NewJID "" server)
  | user :: server :: _ =>
      if str_contains "." user then
        match split_on "." user with
        | [user'; ad] =>
            match split_on ":" ad with
            | [a] =>
                agent ← map_err (fun e => (ErrDevice e, mkJID user' 0 0 0 server)) (atoi a);
                Ok (mkJID user' (u8 agent) 0 0 server)
            | [a; d] =>
                agent ← map_err (fun e => (ErrDevice e, mkJID user' 0 0 0 server)) (atoi a);
                device ← map_err (fun e => (ErrDevice e, mkJID user' (u8 agent) 0 0 server))
                                 (atoi d);
                Ok (mkJID user' (u8 agent) (u16 device) 0 server)
            | _ => Err (ErrColons, mkJID user' 0 0 0 server)
            end
        | _ => Err (ErrDots, mkJID user 0 0 0 server)
        end
      else if str_contains ":" user then
        match split_on ":" user with
        | [user'; d] =>
            device ← map_err (fun e => (ErrDevice e, mkJID user' 0 0 0 server)) (atoi d);
            Ok (mkJID user' 0 (u16 device) 0 server)
        | _ => Err (ErrColons, mkJID user 0 0 0 server)
        end
      else Ok (mkJID user 0 0 0 server)
  end.

(** ** Printing *)

Definition ADString (j : JID) : string :=
  User j +:+ "." +:+ itoa (RawAgent j) +:+ ":" +:+ itoa (Device j) +:+ "@" +:+ Server j.

Definition String_ (j : JID) : string :=
  if bool_decide (Server j = "") then ""
  else if 0 <? RawAgent j then
    User j +:+ "." +:+ itoa (RawAgent j) +:+ ":" +:+ itoa (Device j) +:+ "@" +:+ Server j
  else if 0 <? Device j then User j +:+ ":" +:+ itoa (Device j) +:+ "@" +:+ Server j
  else if 0 <? Z.of_nat (String.length (User j)) then User j +:+ "@" +:+ Server j
  else Server j.

Definition MarshalText (j : JID) : bytes := str_bytes (String_ j).
(** [UnmarshalText] leaves the receiver alone on an error. *)
Definition UnmarshalText (val : bytes) : outcome jid_error JID :=
  map_err fst (ParseJID (bytes_str val)).

Definition IsEmpty (j : JID) : bool := (String.length (Server j) =? 0)%nat.
Definition IsZero (j : JID) : bool := IsEmpty j.

(** ** The SQL adapters *)

(** What a database driver hands to [Scan]. *)
Inductive sql_value := SqlNull | SqlString (s : string) | SqlBytes (b : bytes) | SqlOther.

Inductive scan_error := ScanParse (e : jid_error) | ScanUnsupported.

(** [Scan] returns the new value of the receiver [j]. *)
Definition Scan (j : JID) (src : sql_value) : outcome scan_error JID :=
  match src with
  | SqlNull => Ok j
  | SqlString s => map_err (ScanParse ∘ fst) (ParseJID s)
  | SqlBytes b => map_err (ScanParse ∘ fst) (ParseJID (bytes_str b))
  | SqlOther => Err ScanUnsupported
  end.

Definition Value (j : JID) : sql_value :=
  if (String.length (Server j) =? 0)%nat then SqlNull else SqlString (String_ j).

(** ** Which identifiers the textual form can express *)

(** No separator inside the user part, no at sign in a non-empty server, no
    integrator, and a user part whenever an agent or a device is set. *)
Definition expressible (j : JID) : bool :=
  negb (str_contains "@" (User j)) && negb (str_contains "." (User j)) &&
  negb (str_contains ":" (User j)) && negb (str_contains "@" (Server j)) &&
  negb (bool_decide (Server j = "")) && (Integrator j =? 0).

(** ** Lemmas *)

Lemma contains_app_false c s t :
  str_contains c s = false -> str_contains c t = false -> str_contains c (s +:+ t) = false.
Proof. intros H1 H2. by rewrite str_contains_app, H1, H2. Qed.

Lemma contains_cons_false c a t :
  a <> c -> str_contains c t = false -> str_contains c (String a t) = false.
Proof. intros H1 H2. simpl. by rewrite ascii_eqb_ne. Qed.

Lemma split_at user server :
  str_contains "@" user = false -> str_contains "@" server = false ->
  split_on "@" (user +:+ "@" +:+ server) = [user; server].
Proof.
  intros Hu Hs. change ("@" +:+ server) with (String "@" server).
  rewrite split_on_app by done. by rewrite split_on_none.
Qed.

Create HintDb jid.
#[local] Hint Resolve contains_app_false contains_cons_false itoa_contains : jid.
#[local] Hint Extern 1 (str_contains _ "" = false) => reflexivity : jid.
#[local] Hint Extern 1 (digit _ = None) => reflexivity : jid.
#[local] Hint Extern 1 (_ <> _ :> ascii) => discriminate : jid.
#[local] Hint Extern 1 (_ <= _) => lia : jid.


Lemma parse_ad user agent device server :
  str_contains "@" user = false -> str_contains "." user = false ->
  str_contains "@" server = false ->
  0 <= agent < 2 ^ 8 -> 0 <= device < 2 ^ 16 ->
  ParseJID (user +:+ "." +:+ itoa agent +:+ ":" +:+ itoa device +:+ "@" +:+ server)
  = Ok (mkJID user agent device 0 server).
Proof.
  intros Hu Hd Hs Ha Hv. unfold ParseJID.
  replace (user +:+ "." +:+ itoa agent +:+ ":" +:+ itoa device +:+ "@" +:+ server)
    with ((user +:+ "." +:+ itoa agent +:+ ":" +:+ itoa device) +:+ "@" +:+ server)
    by (rewrite !str_app_assoc; reflexivity).
  rewrite split_at by (simpl; eauto 8 with jid). cbn match beta.
  change ("." +:+ ?t) with (String "." t). rewrite str_contains_mid.
  rewrite split_on_app by done.
  change (":" +:+ ?t) with (String ":" t).
  rewrite split_on_none by (eauto 8 with jid).
  rewrite split_on_app by (eauto 8 with jid).
  rewrite split_on_none by (eauto 8 with jid).
  rewrite !atoi_itoa by lia. simpl. by rewrite u8_small, u16_small.
Qed.

Lemma parse_device user device server :
  str_contains "@" user = false -> str_contains "." user = false ->
  str_contains ":" user = false -> str_contains "@" server = false ->
  0 <= device < 2 ^ 16 ->
  ParseJID (user +:+ ":" +:+ itoa device +:+ "@" +:+ server)
  = Ok (mkJID user 0 device 0 server).
Proof.
  intros Hu Hd Hc Hs Hv. unfold ParseJID.
  replace (user +:+ ":" +:+ itoa device +:+ "@" +:+ server)
    with ((user +:+ ":" +:+ itoa device) +:+ "@" +:+ server)
    by (rewrite !str_app_assoc; reflexivity).
  rewrite split_at by (simpl; eauto 8 with jid). cbn match beta.
  change (":" +:+ ?t) with (String ":" t).
  rewrite (contains_app_false ".") by (eauto 8 with jid).
  rewrite str_contains_mid.
  rewrite split_on_app by done.
  rewrite split_on_none by (eauto 8 with jid).
  rewrite !atoi_itoa by lia. simpl. by rewrite u16_small.
Qed.

Lemma parse_user user server :
  str_contains "@" user = false -> str_contains "." user = false ->
  str_contains ":" user = false -> str_contains "@" server = false ->
  ParseJID (user +:+ "@" +:+ server) = Ok (mkJID user 0 0 0 server).
Proof.
  intros Hu Hd Hc Hs. unfold ParseJID. rewrite split_at by done. cbn match beta.
  by rewrite Hd, Hc.
Qed.

Lemma parse_server server :
  str_contains "@" server = false -> ParseJID server = Ok (NewJID "" server).
Proof. intros Hs. unfold ParseJID. by rewrite split_on_none. Qed.

Lemma expressible_spec j :
  expressible j = true <->
  str_contains "@" (User j) = false /\ str_contains "." (User j) = false /\
  str_contains ":" (User j) = false /\ str_contains "@" (Server j) = false /\
  Server j <> "" /\ Integrator j = 0.
Proof.
  unfold expressible. rewrite !andb_true_iff, !negb_true_iff, bool_decide_eq_false, Z.eqb_eq.
  tauto.
Qed.

(** ** Properties *)

Lemma parse_expressible j :
  jid_ok j -> expressible j = true -> ParseJID (String_ j) = Ok j.
Proof.
  intros (Ha & Hd & _) (Hu1 & Hu2 & Hu3 & Hs & Hne & Hi)%expressible_spec.
  destruct j as [user agent device integ server]; simpl in *; subst integ.
  unfold String_; simpl. rewrite bool_decide_eq_false_2 by done.
  destruct (Z.ltb_spec 0 agent).
  { by apply parse_ad. }
  assert (agent = 0) as -> by lia.
  destruct (Z.ltb_spec 0 device).
  { by apply parse_device. }
  assert (device = 0) as -> by lia.
  destruct user as [|c user]; simpl.
  { by apply parse_server. }
  by apply (parse_user (String c user)).
Qed.

(** Printing an identifier and parsing the text gives the identifier back,
    for every identifier the text can express. *)
Theorem ParseJID_String j :
  jid_ok j -> expressible j = true -> ParseJID (String_ j) = Ok j.
Proof. apply parse_expressible. Qed.

Lemma ParseJID_String_witness :
  ParseJID (String_ (mkJID "15551234567" 3 12 0 DefaultUserServer))
  = Ok (mkJID "15551234567" 3 12 0 DefaultUserServer).
Proof. apply ParseJID_String; [vm_compute; intuition congruence|reflexivity]. Defined.

(** Parsing is total: on every text it returns an identifier or an error,
    and the identifier's fields hold values of their Go types; an agent or a
    device out of range is silently reduced. *)
Lemma ParseJID_total s :
  match ParseJID s with
  | Ok j => jid_ok j /\ Integrator j = 0
  | Err _ => True
  | Panic | NoFuel => False
  end.
Proof.
  assert (Hint : forall (t : string) f (k : Z -> outcome (jid_error * JID) JID),
    (forall z, match k z with Ok j => jid_ok j /\ Integrator j = 0 | Err _ => True | _ => False end) ->
    match x ← map_err f (atoi t); k x with
    | Ok j => jid_ok j /\ Integrator j = 0 | Err _ => True | _ => False end).
  { intros t f k Hk. pose proof (parse_int_total t) as Ht. unfold atoi.
    destruct (parse_int t); simpl; [apply Hk|done|done|done]. }
  assert (Hok : forall user a d server, jid_ok (mkJID user (u8 a) (u16 d) 0 server)).
  { intros. unfold jid_ok; cbn [RawAgent Device Integrator].
    pose proof (u8_range a). pose proof (u16_range d). lia. }
  unfold ParseJID. destruct (split_on "@" s) as [|user [|server rest]] eqn:E.
  - by apply split_on_nonempty in E.
  - unfold NewJID, jid_ok; simpl. lia.
  - destruct (str_contains "." user).
    + destruct (split_on "." user) as [|u [|ad [|]]]; try done.
      destruct (split_on ":" ad) as [|a [|d [|]]]; try done.
      * apply Hint. intros z; simpl. split; [apply (Hok u z 0)|done].
      * apply Hint. intros z. apply Hint. intros w; simpl. split; [apply Hok|done].
    + destruct (str_contains ":" user).
      * destruct (split_on ":" user) as [|u [|d [|]]]; try done.
        apply Hint. intros z; simpl. split; [apply (Hok u 0 z)|done].
      * split; [apply (Hok user 0 0)|done].
Qed.

Lemma ActualAgent_range j : jid_ok j -> 0 <= ActualAgent j < 256.
Proof. intros [Ha _]. unfold ActualAgent. repeat case_bool_decide; unfold WhatsAppDomain,
  LIDDomain, HostedDomain, HostedLIDDomain; lia. Qed.

End jid.
