(* ===== verification/Node.v ===== *)
(** * binary/node.go, binary/attrs.go: the element tree and the attribute reader

    [any] is the dynamic type of attribute values and contents: one constructor
    per type the encoder's type switch names, [AOther] for every other type.
    An attribute map is an association list with distinct keys; its order is
    the (unspecified) order in which a [range] over the Go map visits it. *)

From S2P Require Import Prelude GoStrings Jid.
Import jid.

#[local] Open Scope string_scope.
#[local] Open Scope list_scope.
#[local] Open Scope Z_scope.

Inductive any :=
  | ANil
  | AString (s : string)
  | AJID (j : JID)
  | AInt (z : Z)
  | AInt32 (z : Z)
  | AUint (z : Z)
  | AUint32 (z : Z)
  | AInt64 (z : Z)
  | AUint64 (z : Z)
  | ABool (b : bool)
  | ABytes (b : bytes)
  | ANodes (l : list Node)
  | AOther
with Node := mkNode (Tag : string) (Attrs : list (string * any)) (Content : any).

Abbreviation Attrs := (list (string * any)).

Definition node_tag (n : Node) : string := match n with mkNode t _ _ => t end.
Definition node_attrs (n : Node) : Attrs := match n with mkNode _ a _ => a end.
Definition node_content (n : Node) : any := match n with mkNode _ _ c => c end.

(** The zero value [Node{}]. *)
Definition node_zero : Node := mkNode "" [] ANil.

(** Induction over values and elements together. *)
Section any_node_ind.
Variables (P : any -> Prop) (Q : Node -> Prop).
Hypothesis Hleaf : forall v, match v with ANodes _ => False | _ => True end -> P v.
Hypothesis Hnodes : forall l, Forall Q l -> P (ANodes l).
Hypothesis Hnode : forall t a c, Forall (fun kv => P (snd kv)) a -> P c -> Q (mkNode t a c).

Fixpoint any_ind' (v : any) : P v :=
  match v with
  | ANodes l =>
      Hnodes l ((fix go l : Forall Q l :=
        match l with
        | [] => List.Forall_nil _
        | n :: l' => List.Forall_cons _ n l' (node_ind' n) (go l')
        end) l)
  | v => Hleaf v I
  end
with node_ind' (n : Node) : Q n :=
  match n with
  | mkNode t a c =>
      Hnode t a c
        ((fix go a : Forall (fun kv => P (snd kv)) a :=
            match a with
            | [] => List.Forall_nil _
            | kv :: a' =>
                List.Forall_cons _ kv a'
                  (match kv as kv0 return P (snd kv0) with (k, v) => any_ind' v end) (go a')
            end) a)
        (any_ind' c)
  end.
End any_node_ind.

(** ** Maps: [m[k]] and [m[k] = v] *)

Fixpoint attr_get (k : string) (m : Attrs) : option any :=
  match m with
  | [] => None
  | (k', v) :: m' => if bool_decide (k' = k) then Some v else attr_get k m'
  end.

Fixpoint attr_set (k : string) (v : any) (m : Attrs) : Attrs :=
  match m with
  | [] => [(k, v)]
  | (k', v') :: m' => if bool_decide (k' = k) then (k, v) :: m' else (k', v') :: attr_set k v m'
  end.

(** ** Children *)

Definition GetChildren (n : Node) : list Node :=
  match node_content n with ANodes l => l | _ => [] end.

Definition GetChildrenByTag (n : Node) (tag : string) : list Node :=
  filter (fun c => node_tag c = tag) (GetChildren n).

Fixpoint find_child (tag : string) (l : list Node) : option Node :=
  match l with
  | [] => None
  | c :: l' => if bool_decide (node_tag c = tag) then Some c else find_child tag l'
  end.

(** On a miss the node reached so far is returned, with [false]. *)
Fixpoint GetOptionalChildByTag (val : Node) (tags : list string) : Node * bool :=
  match tags with
  | [] => (val, true)
  | tag :: tags' =>
      match find_child tag (GetChildren val) with
      | Some child => GetOptionalChildByTag child tags'
      | None => (val, false)
      end
  end.

Definition GetChildByTag (n : Node) (tags : list string) : Node :=
  fst (GetOptionalChildByTag n tags).

(** ** The attribute reader: values come back directly, errors accumulate *)

Module attrs.

Inductive attr_error :=
  | MissingJID (key : string)
  | NotJID (key : string) (v : any)
  | Missing (key : string)
  | NotString (key : string) (v : any)
  | BadInt (key : string) (e : num_error)
  | BadUint (key : string) (e : num_error)
  | BadBool (key : string) (e : num_error).

Record AttrUtility := mkAU { au_attrs : Attrs; au_errors : list attr_error }.

Definition AttrGetter (n : Node) : AttrUtility := mkAU (node_attrs n) [].

(** [time.Time] as far as the reader builds it: the zero time or an instant
    given in nanoseconds since the epoch. *)
Inductive gotime := ZeroTime | UnixNano (ns : Z).

(** A getter threads the reader and returns the value with its comma-ok flag. *)
Definition getter (A : Type) := AttrUtility -> (A * bool) * AttrUtility.

Definition fail_with {A} (zero : A) (e : attr_error) (au : AttrUtility) :
    (A * bool) * AttrUtility :=
  ((zero, false), mkAU (au_attrs au) (au_errors au ++ [e])).

Definition GetJID (key : string) (require : bool) : getter JID := fun au =>
  match attr_get key (au_attrs au) with
  | None => if require then fail_with EmptyJID (MissingJID key) au else ((EmptyJID, false), au)
  | Some (AJID j) => ((j, true), au)
  | Some v => fail_with EmptyJID (NotJID key v) au
  end.

Definition GetString (key : string) (require : bool) : getter string := fun au =>
  match attr_get key (au_attrs au) with
  | None => if require then fail_with "" (Missing key) au else (("", false), au)
  | Some (AString s) => ((s, true), au)
  | Some v => fail_with "" (NotString key v) au
  end.

(** The common body of [GetInt64], [GetUint64] and [GetBool]: read the string,
    give up if that failed, else parse it and record a parse error. *)
Definition GetParsed {A} (parse : string -> outcome num_error A) (zero : A)
    (bad : string -> num_error -> attr_error) (key : string) (require : bool) : getter A :=
  fun au =>
  match GetString key require au with
  | ((_, false), au') => ((zero, false), au')
  | ((s, true), au') =>
      match parse s with
      | Ok v => ((v, true), au')
      | Err e => fail_with zero (bad key e) au'
      | _ => ((zero, false), au')
      end
  end.

Definition GetInt64 := GetParsed parse_int 0 BadInt.
Definition GetUint64 := GetParsed parse_uint 0 BadUint.
Definition GetBool := GetParsed parse_bool false BadBool.

Definition GetUnixTime (key : string) (require : bool) : getter gotime := fun au =>
  match GetInt64 key require au with
  | ((_, false), au') => ((ZeroTime, false), au')
  | ((z, true), au') => ((if z =? 0 then ZeroTime else UnixNano (z * 10 ^ 9), true), au')
  end.

Definition GetUnixMilli (key : string) (require : bool) : getter gotime := fun au =>
  match GetInt64 key require au with
  | ((_, false), au') => ((ZeroTime, false), au')
  | ((z, true), au') => ((if z =? 0 then ZeroTime else UnixNano (z * 10 ^ 6), true), au')
  end.

(** The one-value forms. *)
Definition value_of {A} (r : (A * bool) * AttrUtility) : A * AttrUtility := (fst (fst r), snd r).

Definition OptionalJID (key : string) (au : AttrUtility) : option JID * AttrUtility :=
  match GetJID key false au with
  | ((j, true), au') => (Some j, au')
  | ((_, false), au') => (None, au')
  end.

Definition OptionalJIDOrEmpty (key : string) (au : AttrUtility) : JID * AttrUtility :=
  match GetJID key false au with
  | ((j, true), au') => (j, au')
  | ((_, false), au') => (EmptyJID, au')
  end.

Definition JID_ (key : string) au := value_of (GetJID key true au).
Definition OptionalString (key : string) au := value_of (GetString key false au).
Definition String_ (key : string) au := value_of (GetString key true au).
Definition OptionalInt (key : string) au := value_of (GetInt64 key false au).
Definition Int (key : string) au := value_of (GetInt64 key true au).
Definition Int64 (key : string) au := value_of (GetInt64 key true au).
Definition Uint64 (key : string) au := value_of (GetUint64 key true au).
Definition OptionalBool (key : string) au := value_of (GetBool key false au).
Definition Bool (key : string) au := value_of (GetBool key true au).
Definition OptionalUnixTime (key : string) au := value_of (GetUnixTime key false au).
Definition UnixTime (key : string) au := value_of (GetUnixTime key true au).
Definition OptionalUnixMilli (key : string) au := value_of (GetUnixMilli key false au).
Definition UnixMilli (key : string) au := value_of (GetUnixMilli key true au).

Definition OK (au : AttrUtility) : bool :=
  match au_errors au with [] => true | _ => false end.

(** [Error]: nil when there are no errors, else the whole list. *)
Definition Error (au : AttrUtility) : option (list attr_error) :=
  if OK au then None else Some (au_errors au).

(** ** Reading several attributes and checking once at the end *)

Inductive read_op :=
  | RJID (key : string) (require : bool)
  | RString (key : string) (require : bool)
  | RInt64 (key : string) (require : bool)
  | RUint64 (key : string) (require : bool)
  | RBool (key : string) (require : bool)
  | RUnixTime (key : string) (require : bool)
  | RUnixMilli (key : string) (require : bool).

Definition run_read (op : read_op) (au : AttrUtility) : AttrUtility :=
  match op with
  | RJID k r => snd (GetJID k r au)
  | RString k r => snd (GetString k r au)
  | RInt64 k r => snd (GetInt64 k r au)
  | RUint64 k r => snd (GetUint64 k r au)
  | RBool k r => snd (GetBool k r au)
  | RUnixTime k r => snd (GetUnixTime k r au)
  | RUnixMilli k r => snd (GetUnixMilli k r au)
  end.

Definition run_reads (ops : list read_op) (au : AttrUtility) : AttrUtility :=
  foldl (fun au op => run_read op au) au ops.

(** The specification of a read: when the attribute is acceptable. *)
Definition parses {A} (parse : string -> outcome num_error A) (v : any) : Prop :=
  exists s a, v = AString s /\ parse s = Ok a.

Definition if_present (o : option any) (require : bool) (P : any -> Prop) : Prop :=
  match o with None => require = false | Some v => P v end.

Definition acceptable (m : Attrs) (op : read_op) : Prop :=
  match op with
  | RJID k r => if_present (attr_get k m) r (fun v => exists j, v = AJID j)
  | RString k r => if_present (attr_get k m) r (fun v => exists s, v = AString s)
  | RInt64 k r | RUnixTime k r | RUnixMilli k r =>
      if_present (attr_get k m) r (parses parse_int)
  | RUint64 k r => if_present (attr_get k m) r (parses parse_uint)
  | RBool k r => if_present (attr_get k m) r (parses parse_bool)
  end.

(** What one read does to the reader: it appends some errors, none exactly
    when [P] holds. *)
Definition appends (au au' : AttrUtility) (P : Prop) : Prop :=
  exists es, au' = mkAU (au_attrs au) (au_errors au ++ es) /\ (es = [] <-> P).

Lemma appends_none au (P : Prop) : P -> appends au au P.
Proof. exists []. rewrite app_nil_r. split; [by destruct au|tauto]. Qed.

Lemma appends_one au e (P : Prop) :
  ~ P -> appends au (mkAU (au_attrs au) (au_errors au ++ [e])) P.
Proof. exists [e]. split; [done|]. split; [done|tauto]. Qed.

Lemma GetJID_appends k r au :
  appends au (snd (GetJID k r au)) (if_present (attr_get k (au_attrs au)) r (fun v => exists j, v = AJID j)).
Proof.
  unfold GetJID, fail_with. destruct (attr_get k (au_attrs au)) as [v|]; simpl.
  - destruct v; try (apply appends_one; by intros [? ?]). apply appends_none; eauto.
  - destruct r; [by apply appends_one|by apply appends_none].
Qed.

Lemma GetString_appends k r au :
  appends au (snd (GetString k r au))
    (if_present (attr_get k (au_attrs au)) r (fun v => exists s, v = AString s)).
Proof.
  unfold GetString, fail_with. destruct (attr_get k (au_attrs au)) as [v|]; simpl.
  - destruct v; try (apply appends_one; by intros [? ?]). apply appends_none; eauto.
  - destruct r; [by apply appends_one|by apply appends_none].
Qed.

Lemma GetParsed_appends {A} parse (zero : A) bad k r au :
  (forall s, match parse s with Ok _ | Err _ => True | _ => False end) ->
  appends au (snd (GetParsed parse zero bad k r au))
    (if_present (attr_get k (au_attrs au)) r (parses parse)).
Proof.
  intros Hp. unfold GetParsed, GetString, fail_with, parses.
  destruct (attr_get k (au_attrs au)) as [v|]; simpl.
  - destruct v; try (apply appends_one; by intros (? & ? & ? & ?)).
    specialize (Hp s). destruct (parse s) eqn:E; simpl; try done.
    + apply appends_none; eauto.
    + apply appends_one. intros (s' & a & [= <-] & Hs). congruence.
  - destruct r; [by apply appends_one|by apply appends_none].
Qed.

Lemma parse_int_returns s : match parse_int s with Ok _ | Err _ => True | _ => False end.
Proof. pose proof (parse_int_total s). by destruct (parse_int s). Qed.

Lemma parse_uint_returns s : match parse_uint s with Ok _ | Err _ => True | _ => False end.
Proof.
  unfold parse_uint. pose proof (parse_nonempty_total s).
  destruct (parse_nonempty s) as [z| | |]; simpl; try done. by destruct (z <? _).
Qed.

Lemma parse_bool_returns s : match parse_bool s with Ok _ | Err _ => True | _ => False end.
Proof. unfold parse_bool. repeat case_bool_decide; exact I. Qed.

(** One read adds no error exactly when the attribute is acceptable, and never
    removes an error nor touches the attributes. *)
Lemma run_read_spec op au : appends au (run_read op au) (acceptable (au_attrs au) op).
Proof.
  destruct op as [k r|k r|k r|k r|k r|k r|k r]; simpl.
  - apply GetJID_appends.
  - apply GetString_appends.
  - apply GetParsed_appends, parse_int_returns.
  - apply GetParsed_appends, parse_uint_returns.
  - apply GetParsed_appends, parse_bool_returns.
  - pose proof (GetParsed_appends _ 0 BadInt k r au parse_int_returns) as H.
    change (GetParsed _ _ _ k r au) with (GetInt64 k r au) in H.
    unfold GetUnixTime. destruct (GetInt64 k r au) as [[? []] ?]; exact H.
  - pose proof (GetParsed_appends _ 0 BadInt k r au parse_int_returns) as H.
    change (GetParsed _ _ _ k r au) with (GetInt64 k r au) in H.
    unfold GetUnixMilli. destruct (GetInt64 k r au) as [[? []] ?]; exact H.
Qed.

(** Checking once at the end is the same as checking every read: after
    any sequence of reads on a fresh reader, [OK] holds exactly when every one
    of the attributes read was acceptable. *)
Theorem run_reads_ok n ops :
  OK (run_reads ops (AttrGetter n)) = true <-> Forall (acceptable (node_attrs n)) ops.
Proof.
  assert (Hgen : forall au, OK (run_reads ops au) = true <->
    OK au = true /\ Forall (acceptable (au_attrs au)) ops).
  { induction ops as [|op ops IH]; intros au; [by split; [|intros []]|].
    unfold run_reads in *; simpl. rewrite IH. destruct (run_read_spec op au) as (es & -> & Hes).
    unfold OK; simpl. rewrite Forall_cons, <- Hes.
    destruct (au_errors au), es; simpl; naive_solver. }
  rewrite Hgen. unfold AttrGetter; simpl. by split; [intros []|].
Qed.

End attrs.
