(* ===== verification/Encoder.v ===== *)
(** * binary/encoder.go: writing an element tree in the binary XML format

    The encoder's only state is the byte slice it appends to, so every
    operation is the bytes it appends; the only failure is a panic ([Err] is
    never produced).  [pushIntN] and the packers work on 64-bit [int]s and
    8-bit bytes with Go's conversions written out. *)

From S2P Require Import Prelude GoStrings Token Jid Node.
Import jid.

#[local] Open Scope string_scope.
#[local] Open Scope list_scope.
#[local] Open Scope Z_scope.

Module encoder.

(** The bytes an operation appends, or a panic. *)
Abbreviation enc := (outcome Empty_set bytes).

Definition then_ (a b : enc) : enc := x ← a; y ← b; mret (x ++ y).
Infix ";+" := then_ (at level 61, left associativity).

Definition pushByte (b : Z) : enc := Ok [z2b b].
Definition pushBytes (b : bytes) : enc := Ok b.

(** [pushIntN]: the loop's [i]-th byte, then the bytes of the later iterations. *)
Fixpoint pushIntN_from (value n : Z) (littleEndian : bool) (i : Z) (todo : nat) : bytes :=
  match todo with
  | O => []
  | S todo' =>
      let curShift := if littleEndian then i else n - i - 1 in
      z2b (Z.land (Z.shiftr value (curShift * 8)) 255)
        :: pushIntN_from value n littleEndian (i + 1) todo'
  end.
Definition pushIntN (value n : Z) (littleEndian : bool) : enc :=
  Ok (pushIntN_from value n littleEndian 0 (Z.to_nat n)).

Definition pushInt20 (value : Z) : enc :=
  Ok [z2b (Z.land (Z.shiftr value 16) 15); z2b (Z.land (Z.shiftr value 8) 255);
      z2b (Z.land value 255)].
Definition pushInt8 (value : Z) : enc := pushIntN value 1 false.
Definition pushInt16 (value : Z) : enc := pushIntN value 2 false.
Definition pushInt32 (value : Z) : enc := pushIntN value 4 false.
Definition pushString (value : string) : enc := Ok (str_bytes value).

Definition MaxInt32 := 2 ^ 31 - 1.

Definition writeByteLength (length : Z) : enc :=
  if length <? 256 then pushByte token.Binary8 ;+ pushInt8 length
  else if length <? Z.shiftl 1 20 then pushByte token.Binary20 ;+ pushInt20 length
  else if length <? MaxInt32 then pushByte token.Binary32 ;+ pushInt32 length
  else Panic.

(** ** Packed strings *)

Definition is_nibble_char (c : Z) : bool := ((48 <=? c) && (c <=? 57)) || (c =? 45) || (c =? 46).
Definition is_hex_char (c : Z) : bool := ((48 <=? c) && (c <=? 57)) || ((65 <=? c) && (c <=? 70)).

(** The loops of [validateNibble] and [validateHex] visit runes; the accepted
    runes are ASCII, and a byte outside ASCII always belongs to a rune that is
    not, so visiting the bytes decides the same. *)
Definition validateNibble (value : string) : bool :=
  let b := str_bytes value in
  negb (token.PackedMax <? blen b) && forallb (fun c => is_nibble_char (b2z c)) b.

Definition validateHex (value : string) : bool :=
  let b := str_bytes value in
  negb (token.PackedMax <? blen b) && forallb (fun c => is_hex_char (b2z c)) b.

Definition packNibble (value : Z) : outcome Empty_set Z :=
  if value =? 45 then Ok 10
  else if value =? 46 then Ok 11
  else if value =? 0 then Ok 15
  else if (48 <=? value) && (value <=? 57) then Ok (value - 48)
  else Panic.

Definition packHex (value : Z) : outcome Empty_set Z :=
  if (48 <=? value) && (value <=? 57) then Ok (value - 48)
  else if (65 <=? value) && (value <=? 70) then Ok (10 + value - 65)
  else if value =? 0 then Ok 15
  else Panic.

Definition packBytePair (packer : Z -> outcome Empty_set Z) (part1 part2 : Z) : outcome Empty_set Z :=
  a ← packer part1; b ← packer part2; mret (Z.lor (u8 (Z.shiftl a 4)) b).

(** The loop over byte pairs and the lone last byte of an odd length. *)
Fixpoint packPairs (packer : Z -> outcome Empty_set Z) (value : bytes) : enc :=
  match value with
  | a :: b :: rest => (p ← packBytePair packer (b2z a) (b2z b); pushByte p) ;+ packPairs packer rest
  | [a] => p ← packBytePair packer (b2z a) 0; pushByte p
  | [] => Ok []
  end.

Definition writePackedBytes (value : string) (dataType : Z) : enc :=
  let b := str_bytes value in
  if token.PackedMax <? blen b then Panic
  else
    let rounded := u8 ((blen b + 1) / 2) in
    let roundedLength := if blen b mod 2 =? 0 then rounded else Z.lor rounded 128 in
    if dataType =? token.Nibble8 then
      pushByte (u8 dataType) ;+ pushByte roundedLength ;+ packPairs packNibble b
    else if dataType =? token.Hex8 then
      pushByte (u8 dataType) ;+ pushByte roundedLength ;+ packPairs packHex b
    else Panic.

(** ** Strings, bytes and identifiers *)

Definition writeStringRaw (value : string) : enc :=
  writeByteLength (blen (str_bytes value)) ;+ pushString value.

Definition writeBytes (value : bytes) : enc := writeByteLength (blen value) ;+ pushBytes value.

Definition writeString (data : string) : enc :=
  match token.IndexOfSingleToken data with
  | Some tokenIndex => pushByte tokenIndex
  | None =>
      match token.IndexOfDoubleByteToken data with
      | Some (dictIndex, tokenIndex) =>
          pushByte (u8 (token.Dictionary0 + dictIndex)) ;+ pushByte tokenIndex
      | None =>
          if validateNibble data then writePackedBytes data token.Nibble8
          else if validateHex data then writePackedBytes data token.Hex8
          else writeStringRaw data
      end
  end.

Definition is_ad (j : JID) : bool :=
  ((bool_decide (Server j = DefaultUserServer) || bool_decide (Server j = HiddenUserServer))
   && (0 <? Device j))
  || bool_decide (Server j = HostedServer) || bool_decide (Server j = HostedLIDServer).

Definition writeJID (j : JID) : enc :=
  if is_ad j then
    pushByte token.ADJID ;+ pushByte (ActualAgent j) ;+ pushByte (u8 (Device j))
    ;+ writeString (User j)
  else if bool_decide (Server j = MessengerServer) then
    pushByte token.FBJID ;+ writeString (User j) ;+ pushInt16 (Device j) ;+ writeString (Server j)
  else if bool_decide (Server j = InteropServer) then
    pushByte token.InteropJID ;+ writeString (User j) ;+ pushInt16 (Device j)
    ;+ pushInt16 (Integrator j) ;+ writeString (Server j)
  else
    pushByte token.JIDPair
    ;+ (if (String.length (User j) =? 0)%nat then pushByte token.ListEmpty else writeString (User j))
    ;+ writeString (Server j).

Definition writeListStart (listSize : Z) : enc :=
  if listSize =? 0 then pushByte (u8 token.ListEmpty)
  else if listSize <? 256 then pushByte (u8 token.List8) ;+ pushInt8 listSize
  else pushByte (u8 token.List16) ;+ pushInt16 listSize.

(** ** Elements *)

(** [val == "" || val == nil]: the attribute is left out. *)
Definition skipped (val : any) : bool :=
  match val with ANil => true | AString s => bool_decide (s = "") | _ => false end.

Definition is_nil (val : any) : bool := match val with ANil => true | _ => false end.

Definition countAttributes (attributes : Attrs) : Z :=
  foldl (fun count kv => if skipped (snd kv) then count else count + 1) 0 attributes.

Definition tagSize := 1.

(** [write] and [writeNode]; the inner loops are those of [writeAttributes] and
    of the [[]Node] case. *)
Fixpoint write (data : any) : enc :=
  match data with
  | ANil => pushByte token.ListEmpty
  | AJID j => writeJID j
  | AString s => writeString s
  | AInt z | AInt32 z | AUint z | AUint32 z | AInt64 z | AUint64 z => writeString (itoa z)
  | ABool b => writeString (format_bool b)
  | ABytes b => writeBytes b
  | ANodes l =>
      writeListStart (blen l) ;+
      (fix write_nodes (l : list Node) : enc :=
         match l with
         | [] => Ok []
         | n :: l' => writeNode n ;+ write_nodes l'
         end) l
  | AOther => Panic
  end
with writeNode (n : Node) : enc :=
  match n with
  | mkNode tag attrs content =>
      if bool_decide (tag = "0") then pushByte token.List8 ;+ pushByte token.ListEmpty
      else
        let hasContent := if is_nil content then 0 else 1 in
        writeListStart (2 * countAttributes attrs + tagSize + hasContent)
        ;+ writeString tag
        ;+ (fix writeAttributes (attributes : Attrs) : enc :=
              match attributes with
              | [] => Ok []
              | (key, val) :: rest =>
                  if skipped val then writeAttributes rest
                  else writeString key ;+ write val ;+ writeAttributes rest
              end) attrs
        ;+ (if is_nil content then Ok [] else write content)
  end.

(** [writeAttributes] and the loop over child elements, by name. *)
Fixpoint writeAttributes (attributes : Attrs) : enc :=
  match attributes with
  | [] => Ok []
  | (key, val) :: rest =>
      if skipped val then writeAttributes rest
      else writeString key ;+ write val ;+ writeAttributes rest
  end.

Fixpoint writeNodes (l : list Node) : enc :=
  match l with
  | [] => Ok []
  | n :: l' => writeNode n ;+ writeNodes l'
  end.

(** [newEncoder] starts the buffer with a zero byte (not compressed). *)
Definition newEncoder : bytes := [z2b 0].

Definition Marshal (n : Node) : enc := pushBytes newEncoder ;+ writeNode n.

(** ** Unfolding lemmas for the nested loops *)

Lemma write_nodes_eq l : write (ANodes l) = writeListStart (blen l) ;+ writeNodes l.
Proof.
  cbn [write]. generalize (writeListStart (blen l)); intros w.
  apply (f_equal (then_ w)). induction l as [|n l IH]; [reflexivity|].
  exact (f_equal (then_ (writeNode n)) IH).
Qed.

Lemma writeNode_eq tag attrs content :
  writeNode (mkNode tag attrs content) =
  if bool_decide (tag = "0") then pushByte token.List8 ;+ pushByte token.ListEmpty
  else
    writeListStart (2 * countAttributes attrs + tagSize + (if is_nil content then 0 else 1))
    ;+ writeString tag ;+ writeAttributes attrs
    ;+ (if is_nil content then Ok [] else write content).
Proof.
  cbn [writeNode]. case_bool_decide; [reflexivity|].
  generalize (writeListStart (2 * countAttributes attrs + tagSize + (if is_nil content then 0 else 1)) ;+ writeString tag); intros w.
  apply (f_equal (fun x => then_ (then_ w x) (if is_nil content then Ok [] else write content))).
  induction attrs as [|[key val] attrs IH]; [reflexivity|].
  cbn [writeAttributes]. destruct (skipped val); [exact IH|].
  exact (f_equal (then_ (writeString key ;+ write val)) IH).
Qed.

Lemma then_ok a b x y : a = Ok x -> b = Ok y -> a ;+ b = Ok (x ++ y).
Proof. by intros -> ->. Qed.

Lemma then_inv a b z : a ;+ b = Ok z -> exists x y, a = Ok x /\ b = Ok y /\ z = x ++ y.
Proof. destruct a, b; simpl; try done. intros [= <-]. eauto. Qed.

End encoder.
