(* ===== verification/Decoder.v ===== *)
(** * binary/decoder.go, binary/unpack.go: reading the binary XML format

    The decoder is a state [binaryDecoder] (data, index) threaded through
    operations that return an error or panic.  [read] calls itself through
    lists, elements, attributes and identifiers; the helpers take that
    recursive call as their first argument [rd], and [read] is defined on a
    fuel bound.  [Unmarshal] runs it with one unit of fuel per input byte plus
    one, which [Unmarshal_fuel] proves to be always enough. *)

From S2P Require Import Prelude GoStrings Token Jid Node.
Import jid.

#[local] Open Scope string_scope.
#[local] Open Scope list_scope.
#[local] Open Scope Z_scope.

Module decoder.

Record binaryDecoder := mkDecoder { data : bytes; index : Z }.

Definition newDecoder (d : bytes) : binaryDecoder := mkDecoder d 0.

Inductive dec_error :=
  | EOF
  | ErrDoubleToken (dict i : Z)
  | ErrUnpackTag (tag : Z)
  | ErrUnpackNibble (value : Z)
  | ErrUnpackHex (value : Z)
  | ErrListSize (tag position : Z)
  | ErrInvalidToken (tag position : Z)
  | ErrInvalidJIDType
  | ErrNonStringKey (position : Z)
  | ErrInvalidNode
  | ErrLeftover (n : Z).

(** ** The decoder monad *)

Definition Dec (A : Type) := binaryDecoder -> outcome dec_error (A * binaryDecoder).

#[export] Instance dec_ret : MRet Dec := fun A a r => Ok (a, r).
#[export] Instance dec_bind : MBind Dec := fun A B k m r => '(a, r') ← m r; k a r'.

Definition fail {A} (e : dec_error) : Dec A := fun _ => Err e.
Definition panic {A} : Dec A := fun _ => Panic.
Definition out_of_fuel {A} : Dec A := fun _ => NoFuel.
Definition position : Dec Z := fun r => Ok (index r, r).

(** ** Bytes and integers *)

Definition checkEOS (length : Z) : Dec unit := fun r =>
  if blen (data r) <? index r + length then Err EOF else Ok (tt, r).

(** [r.data[i]] *)
Definition at_ (i : Z) : Dec Z := fun r =>
  match zget (data r) i with Some b => Ok (b2z b, r) | None => Panic end.

Definition advance (n : Z) : Dec unit := fun r => Ok (tt, mkDecoder (data r) (index r + n)).

Definition readByte : Dec Z :=
  _ ← checkEOS 1;
  i ← position;
  b ← at_ i;
  _ ← advance 1;
  mret b.

(** The loop of [readIntN]: [i] is the loop variable, [ret] the accumulator. *)
Fixpoint readIntN_from (n : Z) (littleEndian : bool) (i : Z) (todo : nat) (ret : Z) : Dec Z :=
  match todo with
  | O => mret ret
  | S todo' =>
      let curShift := if littleEndian then i else n - i - 1 in
      p ← position;
      b ← at_ (p + i);
      readIntN_from n littleEndian (i + 1) todo' (Z.lor ret (Z.shiftl b (curShift * 8)))
  end.

Definition readIntN (n : Z) (littleEndian : bool) : Dec Z :=
  _ ← checkEOS n;
  ret ← readIntN_from n littleEndian 0 (Z.to_nat n) 0;
  _ ← advance n;
  mret ret.

Definition readInt8 (littleEndian : bool) : Dec Z := readIntN 1 littleEndian.
Definition readInt16 (littleEndian : bool) : Dec Z := readIntN 2 littleEndian.
Definition readInt32 (littleEndian : bool) : Dec Z := readIntN 4 littleEndian.

Definition readInt20 : Dec Z :=
  _ ← checkEOS 3;
  p ← position;
  a ← at_ p;
  b ← at_ (p + 1);
  c ← at_ (p + 2);
  _ ← advance 3;
  mret (Z.shiftl (Z.land a 15) 16 + Z.shiftl b 8 + c).

(** [r.data[r.index : r.index+length]] *)
Definition slice (length : Z) : Dec bytes := fun r =>
  Ok (ztake length (zdrop (index r) (data r)), r).

Definition readRaw (length : Z) : Dec bytes :=
  _ ← checkEOS length;
  ret ← slice length;
  _ ← advance length;
  mret ret.

Definition readBytesOrString (length : Z) (asString : bool) : Dec any :=
  d ← readRaw length;
  mret (if asString then AString (bytes_str d) else ABytes d).

(** ** Packed strings *)

Definition unpackNibble (value : Z) : Dec Z :=
  if value <? 10 then mret (48 + value)
  else if value =? 10 then mret 45
  else if value =? 11 then mret 46
  else if value =? 15 then mret 0
  else fail (ErrUnpackNibble value).

Definition unpackHex (value : Z) : Dec Z :=
  if value <? 10 then mret (48 + value)
  else if value <? 16 then mret (65 + value - 10)
  else fail (ErrUnpackHex value).

Definition unpackByte (tag value : Z) : Dec Z :=
  if tag =? token.Nibble8 then unpackNibble value
  else if tag =? token.Hex8 then unpackHex value
  else fail (ErrUnpackTag tag).

(** The loop of [readPacked8]: one byte of input, two of output. *)
Fixpoint readPacked8_from (tag : Z) (todo : nat) (build : bytes) : Dec bytes :=
  match todo with
  | O => mret build
  | S todo' =>
      currByte ← readByte;
      lower ← unpackByte tag (Z.shiftr (Z.land currByte 240) 4);
      upper ← unpackByte tag (Z.land currByte 15);
      readPacked8_from tag todo' (build ++ [z2b lower; z2b upper])
  end.

Definition readPacked8 (tag : Z) : Dec string :=
  startByte ← readByte;
  ret ← readPacked8_from tag (Z.to_nat (Z.land startByte 127)) [];
  if Z.shiftr startByte 7 =? 0 then mret (bytes_str ret)
  else if blen ret =? 0 then panic    (* ret[:len(ret)-1] of an empty string *)
  else mret (bytes_str (ztake (blen ret - 1) ret)).

Definition readListSize (tag : Z) : Dec Z :=
  if tag =? token.ListEmpty then mret 0
  else if tag =? token.List8 then readInt8 false
  else if tag =? token.List16 then readInt16 false
  else p ← position; fail (ErrListSize tag p).

(** A failed type assertion [x.(string)] panics. *)
Definition as_string (x : any) : Dec string :=
  match x with AString s => mret s | _ => panic end.

Definition is_string (x : any) (s : string) : bool :=
  match x with AString t => bool_decide (t = s) | _ => false end.

Definition getDoubleToken (d i : Z) : Dec string := fun r =>
  match token.GetDoubleToken d i with
  | Ok t => Ok (t, r)
  | Err (a, b) => Err (ErrDoubleToken a b)
  | Panic => Panic
  | NoFuel => NoFuel
  end.

(** ** The operations that read sub-elements, over the recursive [read] *)

Section with_read.
Variable rd : bool -> Dec any.

Definition readJIDPair : Dec any :=
  user ← rd true;
  server ← rd true;
  match server, user with
  | ANil, _ => fail ErrInvalidJIDType
  | _, ANil => s ← as_string server; mret (AJID (NewJID "" s))
  | _, _ => u ← as_string user; s ← as_string server; mret (AJID (NewJID u s))
  end.

Definition readInteropJID : Dec any :=
  user ← rd true;
  device ← readInt16 false;
  integrator ← readInt16 false;
  server ← rd true;
  if is_string server InteropServer then
    u ← as_string user;
    mret (AJID (mkJID u 0 (u16 device) (u16 integrator) InteropServer))
  else fail ErrInvalidJIDType.

Definition readFBJID : Dec any :=
  user ← rd true;
  device ← readInt16 false;
  server ← rd true;
  if is_string server MessengerServer then
    u ← as_string user;
    s ← as_string server;
    mret (AJID (mkJID u 0 (u16 device) 0 s))
  else fail ErrInvalidJIDType.

Definition readADJID : Dec any :=
  agent ← readByte;
  device ← readByte;
  user ← rd true;
  u ← as_string user;
  mret (AJID (NewADJID u agent device)).

(** The loop of [readAttributes]: [ret] is the map filled so far. *)
Fixpoint readAttributes_from (todo : nat) (ret : Attrs) : Dec Attrs :=
  match todo with
  | O => mret ret
  | S todo' =>
      keyIfc ← rd true;
      match keyIfc with
      | AString key =>
          val ← rd true;
          readAttributes_from todo' (attr_set key val ret)
      | _ => p ← position; fail (ErrNonStringKey p)
      end
  end.

Definition readAttributes (n : Z) : Dec Attrs := readAttributes_from (Z.to_nat n) [].

Definition readNode : Dec Node :=
  size ← readInt8 false;
  listSize ← readListSize size;
  rawDesc ← rd true;
  tag ← as_string rawDesc;
  if (listSize =? 0) || bool_decide (tag = "") then fail ErrInvalidNode
  else
    attrs ← readAttributes (Z.shiftr (listSize - 1) 1);
    if listSize mod 2 =? 1 then mret (mkNode tag attrs ANil)
    else content ← rd false; mret (mkNode tag attrs content).

Fixpoint readNodes (todo : nat) : Dec (list Node) :=
  match todo with
  | O => mret []
  | S todo' => n ← readNode; ns ← readNodes todo'; mret (n :: ns)
  end.

Definition readList (tag : Z) : Dec any :=
  size ← readListSize tag;
  ns ← readNodes (Z.to_nat size);
  mret (ANodes ns).

(** The [switch] of [read] on the tag byte. *)
Definition readTag (asString : bool) (tag : Z) : Dec any :=
  if tag =? token.ListEmpty then mret ANil
  else if (tag =? token.List8) || (tag =? token.List16) then readList tag
  else if tag =? token.Binary8 then
    size ← readInt8 false; readBytesOrString size asString
  else if tag =? token.Binary20 then
    size ← readInt20; readBytesOrString size asString
  else if tag =? token.Binary32 then
    size ← readInt32 false; readBytesOrString size asString
  else if (token.Dictionary0 <=? tag) && (tag <=? token.Dictionary3) then
    i ← readInt8 false;
    t ← getDoubleToken (tag - token.Dictionary0) i;
    mret (AString t)
  else if tag =? token.FBJID then readFBJID
  else if tag =? token.InteropJID then readInteropJID
  else if tag =? token.JIDPair then readJIDPair
  else if tag =? token.ADJID then readADJID
  else if (tag =? token.Nibble8) || (tag =? token.Hex8) then
    s ← readPacked8 tag; mret (AString s)
  else
    match zget token.SingleByteTokens tag with
    | Some t => if 1 <=? tag then mret (AString t)
                else p ← position; fail (ErrInvalidToken tag p)
    | None => p ← position; fail (ErrInvalidToken tag p)
    end.

End with_read.

Fixpoint read (fuel : nat) (asString : bool) : Dec any :=
  match fuel with
  | O => out_of_fuel
  | S fuel' => tag ← readByte; readTag (read fuel') asString tag
  end.

(** [Unmarshal]; on leftover bytes the node is returned beside the error. *)
Definition Unmarshal (d : bytes) : outcome dec_error Node :=
  '(n, r) ← readNode (read (S (length d))) (newDecoder d);
  if index r =? blen (data r) then Ok n
  else Err (ErrLeftover (blen (data r) - index r)).

(** ** binary/unpack.go *)

Section unpack.
(** [zlib.NewReader] and [io.ReadAll] of Go's standard library. *)
Context {zlib_error : Type} (inflate : bytes -> outcome zlib_error bytes).

Definition Unpack (d : bytes) : outcome zlib_error bytes :=
  match d with
  | [] => Panic      (* data[0] of an empty slice *)
  | dataType :: rest =>
      if 0 <? Z.land 2 (b2z dataType) then inflate rest else Ok rest
  end.
End unpack.

(** ** Termination: the fuel [Unmarshal] gives is always enough

    [consumes f k p]: started inside the data with fewer than [f] bytes left,
    [p] does not run out of fuel, and if it succeeds it has moved forward by at
    least [k] bytes, stayed inside the data and left the data alone. *)

Definition remaining (r : binaryDecoder) : Z := blen (data r) - index r.

Definition consumes {A} (f k : Z) (p : Dec A) : Prop :=
  forall r, 0 <= index r -> 0 <= remaining r < f ->
    match p r with
    | Ok (_, r') => data r' = data r /\ index r + k <= index r' <= blen (data r)
    | NoFuel => False
    | _ => True
    end.

Lemma consumes_ret {A} f (a : A) : consumes f 0 (mret a).
Proof. intros r Hi Hr. unfold remaining in Hr. simpl. split; [done|lia]. Qed.

Lemma consumes_fail {A} f k e : consumes f k (@fail A e).
Proof. done. Qed.

Lemma consumes_panic {A} f k : consumes f k (@panic A).
Proof. done. Qed.

Lemma consumes_weaken {A} f f' k k' (p : Dec A) :
  f' <= f -> k' <= k -> consumes f k p -> consumes f' k' p.
Proof.
  intros Hf Hk Hp r Hi Hr. specialize (Hp r Hi ltac:(lia)).
  destruct (p r) as [[a r']| | |]; try done. destruct Hp; split; [done|lia].
Qed.

Lemma consumes_bind {A B} f k k' (p : Dec A) (q : A -> Dec B) :
  0 <= k -> consumes f k p -> (forall a, consumes (f - k) k' (q a)) -> consumes f (k + k') (p ≫= q).
Proof.
  intros Hk0 Hp Hq r Hi Hr. specialize (Hp r Hi Hr). unfold mbind, dec_bind.
  destruct (p r) as [[a r']| | |]; simpl; try done. destruct Hp as [Hd Hk].
  unfold remaining in *.
  specialize (Hq a r' ltac:(lia)). rewrite Hd in Hq. specialize (Hq ltac:(unfold remaining; rewrite Hd; lia)).
  destruct (q a r') as [[b r'']| | |]; try done. destruct Hq as [Hd' Hk']. split; [congruence|lia].
Qed.

(** The same, forgetting how much the first operation consumed. *)
Lemma consumes_bind0 {A B} f k (p : Dec A) (q : A -> Dec B) :
  consumes f 0 p -> (forall a, consumes f k (q a)) -> consumes f k (p ≫= q).
Proof.
  intros Hp Hq. rewrite <- (Z.add_0_l k). apply consumes_bind; [lia|done|].
  intros a. by rewrite Z.sub_0_r.
Qed.

Lemma consumes_position f : consumes f 0 position.
Proof. intros r Hi Hr. unfold remaining in Hr. simpl. split; [done|lia]. Qed.

(** Looking at the next bytes and stepping over them. *)
Lemma consumes_guarded {A} f n (g p : Dec A) :
  0 <= n -> (forall r, match g r with Ok (_, r') => r' = r | NoFuel => False | _ => True end) ->
  (forall r, p r = (_ ← checkEOS n; ret ← g; _ ← advance n; mret ret) r) ->
  consumes f n p.
Proof.
  intros Hn Hg Hp r Hi Hr. rewrite Hp. unfold mbind, dec_bind, checkEOS, remaining in *.
  destruct (Z.ltb_spec (blen (data r)) (index r + n)); [done|]. simpl.
  specialize (Hg r). destruct (g r) as [[a r']| | |]; simpl; try done. subst r'. simpl.
  split; [done|lia].
Qed.

Lemma consumes_readByte f : consumes f 1 readByte.
Proof.
  apply (consumes_guarded f 1 (i ← position; at_ i)); [lia| |]; intros r.
  - unfold mbind, dec_bind, position, at_; simpl. by destruct (zget _ _).
  - unfold readByte, mbind, dec_bind, position, at_, checkEOS. destruct (_ <? _); [done|].
    simpl. by destruct (zget _ _).
Qed.

Lemma consumes_readIntN f n e : 0 <= n -> consumes f n (readIntN n e).
Proof.
  intros Hn. eapply consumes_guarded; [done| |reflexivity]. intros r.
  generalize 0 at 1 as i. generalize 0 as acc. induction (Z.to_nat n) as [|m IH]; intros acc i; [done|].
  cbn [readIntN_from]. unfold mbind, dec_bind, position, at_ in *; simpl.
  destruct (zget (data r) (index r + i)); simpl; [|done]. apply IH.
Qed.

Lemma readInt20_spec r :
  (exists v, readInt20 r = Ok (v, mkDecoder (data r) (index r + 3)) /\ 0 <= v /\
             index r + 3 <= blen (data r)) \/
  readInt20 r = Err EOF \/ readInt20 r = Panic.
Proof.
  unfold readInt20, mbind, dec_bind, position, at_, checkEOS; simpl.
  destruct (Z.ltb_spec (blen (data r)) (index r + 3)); [by right; left|]. simpl.
  destruct (zget _ (index r)) as [a|]; simpl; [|by right; right].
  destruct (zget _ (index r + 1)) as [b|]; simpl; [|by right; right].
  destruct (zget _ (index r + 2)) as [c|]; simpl; [|by right; right].
  left. eexists. split; [reflexivity|]. split; [|lia].
  pose proof (b2z_range a). pose proof (b2z_range b). pose proof (b2z_range c).
  assert (0 <= Z.land (b2z a) 15) by (apply Z.land_nonneg; lia).
  rewrite !Z.shiftl_mul_pow2 by lia. lia.
Qed.

Lemma consumes_readInt20 f : consumes f 3 readInt20.
Proof.
  intros r Hi Hr. by destruct (readInt20_spec r) as [(v & -> & Hv & Hb)|[-> | ->]].
Qed.

Lemma be_nonneg n i todo acc r :
  0 <= acc -> match readIntN_from n false i todo acc r with Ok (v, _) => 0 <= v | _ => True end.
Proof.
  revert i acc. induction todo as [|m IH]; intros i acc Ha; [done|].
  cbn [readIntN_from]. unfold mbind, dec_bind, position, at_ in *; simpl.
  destruct (zget (data r) (index r + i)) as [b|]; simpl; [|done]. apply IH.
  apply Z.lor_nonneg. split; [done|]. apply Z.shiftl_nonneg. pose proof (b2z_range b). lia.
Qed.

Lemma consumes_readRaw f n : 0 <= n -> consumes f n (readRaw n).
Proof. intros Hn. by apply (consumes_guarded f n (slice n)). Qed.

(** A length read from the input is never negative, so [readRaw] only moves
    forward. *)
Lemma consumes_sized {A} f n (p : Dec Z) (q : Z -> Dec A) :
  0 <= n -> consumes f n p -> (forall r v r', p r = Ok (v, r') -> 0 <= v) ->
  (forall v, 0 <= v -> consumes (f - n) 0 (q v)) -> consumes f n (p ≫= q).
Proof.
  intros Hn Hp Hpos Hq r Hi Hr. specialize (Hp r Hi Hr).
  unfold mbind, dec_bind. destruct (p r) as [[v r']| | |] eqn:E; simpl; try done.
  destruct Hp as [Hd Hk]. unfold remaining in *.
  specialize (Hq v (Hpos _ _ _ E) r' ltac:(lia)). unfold remaining in Hq. rewrite Hd in Hq.
  specialize (Hq ltac:(lia)). destruct (q v r') as [[a r'']| | |]; try done.
  destruct Hq as [Hd' Hk']. split; [congruence|lia].
Qed.

Lemma readIntN_nonneg n r v r' : readIntN n false r = Ok (v, r') -> 0 <= v.
Proof.
  intros E. unfold readIntN, mbind, dec_bind, checkEOS in E. destruct (_ <? _); [done|]. simpl in E.
  pose proof (be_nonneg n 0 (Z.to_nat n) 0 r ltac:(lia)) as Hb.
  destruct (readIntN_from _ _ _ _ _ r) as [[w r'']| | |]; simpl in E; try done.
  by injection E as <- _.
Qed.

Lemma consumes_bytes f v a : 0 <= v -> consumes f 0 (readBytesOrString v a).
Proof.
  intros Hv. apply consumes_bind0; [|intros; apply consumes_ret].
  eapply consumes_weaken; [| |apply (consumes_readRaw f v)]; lia.
Qed.

Lemma consumes_le {A} f k (p : Dec A) : 0 <= k -> consumes f k p -> consumes f 0 p.
Proof. intros Hk. by apply consumes_weaken. Qed.

Create HintDb consumes.
#[local] Hint Resolve consumes_ret consumes_fail consumes_panic consumes_position : consumes.
#[local] Hint Extern 2 (consumes _ 0 readByte) =>
  apply (consumes_le _ 1); [lia|apply consumes_readByte] : consumes.
#[local] Hint Extern 2 (consumes _ 0 (readInt8 _)) =>
  apply (consumes_le _ 1); [lia|apply (consumes_readIntN _ 1); lia] : consumes.
#[local] Hint Extern 2 (consumes _ 0 (readInt16 _)) =>
  apply (consumes_le _ 2); [lia|apply (consumes_readIntN _ 2); lia] : consumes.
#[local] Hint Extern 3 (consumes _ 0 (_ ≫= _)) => apply consumes_bind0; [|intros] : consumes.
#[local] Hint Extern 4 (consumes _ 0 (if ?b then _ else _)) => destruct b : consumes.
#[local] Hint Extern 4 (consumes _ 0 (match ?x with _ => _ end)) => destruct x : consumes.
#[local] Hint Extern 5 (consumes _ 0 (as_string _)) => unfold as_string : consumes.

Lemma consumes_readPacked8 f tag : consumes f 0 (readPacked8 tag).
Proof.
  unfold readPacked8. apply consumes_bind0; [auto with consumes|intros b].
  apply consumes_bind0; [|auto with consumes].
  generalize ([] : bytes). induction (Z.to_nat _) as [|m IH]; intros build; cbn [readPacked8_from];
    [auto with consumes|].
  unfold unpackByte, unpackNibble, unpackHex. auto 20 with consumes.
Qed.

Lemma consumes_readListSize f tag : consumes f 0 (readListSize tag).
Proof. unfold readListSize. auto 10 with consumes. Qed.
#[local] Hint Resolve consumes_readPacked8 consumes_readListSize : consumes.

Section consumes_with_read.
Variables (rd : bool -> Dec any) (f : Z).
Hypothesis rd_ok : forall b, consumes f 0 (rd b).

Lemma consumes_readAttributes n : consumes f 0 (readAttributes rd n).
Proof.
  unfold readAttributes. generalize ([] : Attrs).
  induction (Z.to_nat n) as [|m IH]; intros ret; cbn [readAttributes_from];
    auto 10 using rd_ok with consumes.
Qed.

Lemma consumes_readNode : consumes f 0 (readNode rd).
Proof. unfold readNode. auto 20 using rd_ok, consumes_readAttributes with consumes. Qed.

Lemma consumes_readNodes n : consumes f 0 (readNodes rd n).
Proof.
  induction n as [|n IH]; cbn [readNodes]; auto using consumes_readNode with consumes.
Qed.

Lemma consumes_getDoubleToken d i : consumes f 0 (getDoubleToken d i).
Proof.
  intros r Hi Hr. unfold getDoubleToken, remaining in *. pose proof (token.GetDoubleToken_total d i).
  destruct (token.GetDoubleToken d i) as [|[]| |]; try done. split; [done|lia].
Qed.

Lemma consumes_readTag a tag : consumes f 0 (readTag rd a tag).
Proof.
  unfold readTag, readList, readFBJID, readInteropJID, readJIDPair, readADJID.
  assert (H8 : consumes f 0 (size ← readInt8 false; readBytesOrString size a)).
  { apply (consumes_le _ 1); [lia|]. apply consumes_sized;
      [lia|apply consumes_readIntN; lia|apply readIntN_nonneg|intros; by apply consumes_bytes]. }
  assert (H32 : consumes f 0 (size ← readInt32 false; readBytesOrString size a)).
  { apply (consumes_le _ 4); [lia|]. apply consumes_sized;
      [lia|apply consumes_readIntN; lia|apply readIntN_nonneg|intros; by apply consumes_bytes]. }
  assert (H20 : consumes f 0 (size ← readInt20; readBytesOrString size a)).
  { apply (consumes_le _ 3); [lia|]. apply consumes_sized;
      [lia|apply consumes_readInt20| |intros; by apply consumes_bytes].
    intros r v r' E. destruct (readInt20_spec r) as [(w & E' & Hw & _)|[E'|E']]; congruence. }
  repeat match goal with |- consumes _ _ (if ?b then _ else _) => destruct b end;
    auto 20 using rd_ok, consumes_readNodes, consumes_getDoubleToken with consumes.
Qed.
End consumes_with_read.

Lemma consumes_read fuel b : consumes (Z.of_nat fuel) 0 (read fuel b).
Proof.
  revert b. induction fuel as [|fuel IH]; intros b.
  { intros r Hi Hr. lia. }
  cbn [read]. apply (consumes_weaken (Z.of_nat (S fuel)) _ (1 + 0)); [lia|lia|].
  apply consumes_bind; [lia|apply consumes_readByte|]. intros tag.
  replace (Z.of_nat (S fuel) - 1) with (Z.of_nat fuel) by lia.
  by apply consumes_readTag.
Qed.

(** (C40) Decoding terminates: on every input, one level of recursion per byte
    and one more are enough, so the model's fuel bound is never reached. *)
Theorem Unmarshal_terminates d : Unmarshal d <> NoFuel.
Proof.
  unfold Unmarshal. pose proof (consumes_readNode (read (S (length d))) _ (consumes_read _)) as H.
  specialize (H (newDecoder d) ltac:(done)). unfold remaining, newDecoder, blen in H.
  cbn [data index] in H. specialize (H ltac:(lia)). unfold newDecoder.
  destruct (readNode _ _) as [[n r]| | |]; simpl; try done. by destruct (_ =? _).
Qed.

(** The decoder trusts its input: a list header of one element followed by
    an empty-list tag makes [readNode] assert that nil is a string, which
    panics instead of returning [ErrInvalidNode]. *)
Theorem Unmarshal_panics : Unmarshal [z2b token.List8; z2b 1; z2b token.ListEmpty] = Panic.
Proof. reflexivity. Qed.

End decoder.
