(* ===== verification/Wire.v ===== *)
(** * The binary XML codec as a whole: what the decoder reads of what the encoder wrote

    [reads p bs a]: the decoder operation [p], started anywhere in front of the
    bytes [bs], returns [a] and stops right behind them.  Every encoder
    operation is paired with the decoder operation that reads it back, and the
    pairs compose; at the top, [Unmarshal_Marshal] says that decoding an
    encoded element gives its wire normal form [norm_node]. *)

From coqutil Require Import Z.prove_Zeq_bitwise.
From S2P Require Import Prelude GoStrings Token Jid Node Encoder Decoder.
Import jid encoder decoder.

#[local] Open Scope string_scope.
#[local] Open Scope list_scope.
#[local] Open Scope Z_scope.

Module wire.

(** ** Reading exactly some bytes *)

Definition reads {A} (p : Dec A) (bs : bytes) (a : A) : Prop :=
  forall pre post,
    p (mkDecoder (pre ++ bs ++ post) (blen pre))
    = Ok (a, mkDecoder (pre ++ bs ++ post) (blen pre + blen bs)).

Lemma bind_step {A B} (m : Dec A) (k : A -> Dec B) r a r' :
  m r = Ok (a, r') -> (m ≫= k) r = k a r'.
Proof. unfold mbind at 1, dec_bind. by intros ->. Qed.

Lemma reads_ret {A} (a : A) : reads (mret a) [] a.
Proof. intros pre post. rewrite blen_nil, Z.add_0_r. done. Qed.

Lemma reads_bind {A B} (p : Dec A) (k : A -> Dec B) bs cs a b :
  reads p bs a -> reads (k a) cs b -> reads (p ≫= k) (bs ++ cs) b.
Proof.
  intros Hp Hk pre post. unfold mbind, dec_bind. rewrite <- app_assoc.
  rewrite (Hp pre (cs ++ post)). simpl.
  specialize (Hk (pre ++ bs) post). rewrite <- app_assoc, blen_app in Hk. rewrite Hk.
  do 2 f_equal. f_equal. rewrite blen_app. lia.
Qed.

(** The last operation reads the rest. *)
Lemma reads_bind_nil {A B} (p : Dec A) (k : A -> Dec B) bs a b :
  reads p bs a -> reads (k a) [] b -> reads (p ≫= k) bs b.
Proof. intros Hp Hk. rewrite <- (app_nil_r bs). by eapply reads_bind. Qed.

Lemma reads_then {A B} (p : Dec A) (k : A -> Dec B) bs cs ds a b :
  ds = bs ++ cs -> reads p bs a -> reads (k a) cs b -> reads (p ≫= k) ds b.
Proof. intros ->. apply reads_bind. Qed.

(** ** Primitive operations *)

Lemma checkEOS_ok n pre bs post :
  n = blen bs ->
  checkEOS n (mkDecoder (pre ++ bs ++ post) (blen pre)) = Ok (tt, mkDecoder (pre ++ bs ++ post) (blen pre)).
Proof.
  intros ->. unfold checkEOS; simpl. rewrite !blen_app. pose proof (blen_nonneg post).
  by rewrite (proj2 (Z.ltb_ge _ _)) by lia.
Qed.

Lemma at_ok pre bs post i b :
  0 <= i -> zget bs i = Some b -> at_ (blen pre + i) (mkDecoder (pre ++ bs ++ post) (blen pre))
  = Ok (b2z b, mkDecoder (pre ++ bs ++ post) (blen pre)).
Proof.
  intros Hi Hb. unfold at_; simpl. rewrite zget_app_r by done.
  unfold zget in *. destruct (Z.ltb_spec i 0); [lia|].
  by rewrite (lookup_app_l_Some _ _ _ _ Hb).
Qed.

Lemma reads_readByte b : reads readByte [b] (b2z b).
Proof.
  intros pre post. unfold readByte.
  rewrite (bind_step _ _ _ _ _ (checkEOS_ok 1 pre [b] post eq_refl)).
  rewrite (bind_step position _ _ _ _ eq_refl).
  pose proof (at_ok pre [b] post 0 b ltac:(lia) eq_refl) as H. rewrite Z.add_0_r in H.
  by rewrite (bind_step _ _ _ _ _ H).
Qed.

(** Big-endian values of one, two and four bytes. *)
Fixpoint be_from (n i : Z) (bs : bytes) (ret : Z) : Z :=
  match bs with
  | [] => ret
  | b :: bs' => be_from n (i + 1) bs' (Z.lor ret (Z.shiftl (b2z b) ((n - i - 1) * 8)))
  end.

Lemma readIntN_from_ok n pre done_ bs post ret :
  readIntN_from n false (blen done_) (length bs) ret (mkDecoder (pre ++ (done_ ++ bs) ++ post) (blen pre))
  = Ok (be_from n (blen done_) bs ret, mkDecoder (pre ++ (done_ ++ bs) ++ post) (blen pre)).
Proof.
  revert done_ ret. induction bs as [|b bs IH]; intros done_ ret; [done|].
  cbn [length readIntN_from be_from]. rewrite (bind_step position _ _ _ _ eq_refl).
  cbn [index]. rewrite (bind_step _ _ _ _ _ (at_ok pre (done_ ++ b :: bs) post (blen done_) b ltac:(apply blen_nonneg) ltac:(by rewrite <- (Z.add_0_r (blen done_)), zget_app_r))).
  rewrite (cons_middle b done_ bs), (app_assoc done_ [b] bs).
    replace (blen done_ + 1) with (blen (done_ ++ [b])) by apply blen_app. apply IH.
Qed.

Lemma reads_readIntN n bs :
  n = blen bs -> reads (readIntN n false) bs (be_from n 0 bs 0).
Proof.
  intros Hn pre post. unfold readIntN.
  rewrite (bind_step _ _ _ _ _ (checkEOS_ok n pre bs post Hn)).
  pose proof (readIntN_from_ok n pre [] bs post 0) as H. rewrite blen_nil in H. simpl app in H.
  replace (Z.to_nat n) with (length bs) by (unfold blen in Hn; lia).
  rewrite (bind_step _ _ _ _ _ H), (bind_step (advance n) _ _ _ _ eq_refl). simpl. by rewrite Hn.
Qed.

Lemma b2z_land255 z : b2z (z2b (Z.land z 255)) = Z.land z (Z.ones 8).
Proof.
  rewrite b2z_z2b. change 255 with (Z.ones 8). rewrite Z.land_ones by lia.
  apply Z.mod_small, Z.mod_pos_bound. lia.
Qed.

Lemma land_ones_small v n : 0 <= v < 2 ^ n -> 0 <= n -> Z.land v (Z.ones n) = v.
Proof. intros. rewrite Z.land_ones by lia. by apply Z.mod_small. Qed.

Lemma reads_readInt8 v bs :
  0 <= v < 2 ^ 8 -> pushInt8 v = Ok bs -> reads (readInt8 false) bs v.
Proof.
  intros Hv [= <-]. rewrite <- (land_ones_small v 8 Hv ltac:(lia)) at 2.
  replace (Z.land v (Z.ones 8)) with (be_from 1 0 [z2b (Z.land (Z.shiftr v ((1 - 0 - 1) * 8)) 255)] 0).
  - by apply reads_readIntN.
  - cbn [be_from]. rewrite b2z_land255. prove_Zeq_bitwise.
Qed.

Lemma pushInt8_eq v : 0 <= v < 2 ^ 8 -> pushInt8 v = Ok [z2b v].
Proof.
  intros Hv. rewrite <- (land_ones_small v 8 Hv ltac:(lia)) at 2.
  rewrite <- (Z.shiftr_0_r v) at 2. reflexivity.
Qed.

Lemma reads_readInt16 v bs :
  0 <= v < 2 ^ 16 -> pushInt16 v = Ok bs -> reads (readInt16 false) bs v.
Proof.
  intros Hv [= <-]. rewrite <- (land_ones_small v 16 Hv ltac:(lia)) at 3.
  match goal with |- reads _ ?l _ => replace (Z.land v (Z.ones 16)) with (be_from 2 0 l 0) end.
  - by apply reads_readIntN.
  - cbn [be_from]. rewrite !b2z_land255. prove_Zeq_bitwise.
Qed.

Lemma reads_readInt32 v bs :
  0 <= v < 2 ^ 32 -> pushInt32 v = Ok bs -> reads (readInt32 false) bs v.
Proof.
  intros Hv [= <-]. rewrite <- (land_ones_small v 32 Hv ltac:(lia)) at 5.
  match goal with |- reads _ ?l _ => replace (Z.land v (Z.ones 32)) with (be_from 4 0 l 0) end.
  - by apply reads_readIntN.
  - cbn [be_from]. rewrite !b2z_land255. prove_Zeq_bitwise.
Qed.

Lemma reads_readInt20 v bs :
  0 <= v < 2 ^ 20 -> pushInt20 v = Ok bs -> reads readInt20 bs v.
Proof.
  intros Hv [= <-] pre post. unfold readInt20. set (bs := [z2b _; z2b _; z2b _]).
  rewrite (bind_step _ _ _ _ _ (checkEOS_ok 3 pre bs post eq_refl)).
  rewrite (bind_step position _ _ _ _ eq_refl). cbn [index].
  pose proof (at_ok pre bs post 0 _ ltac:(lia) eq_refl) as H0. rewrite Z.add_0_r in H0.
  rewrite (bind_step _ _ _ _ _ H0).
  rewrite (bind_step _ _ _ _ _ (at_ok pre bs post 1 _ ltac:(lia) eq_refl)).
  rewrite (bind_step _ _ _ _ _ (at_ok pre bs post 2 _ ltac:(lia) eq_refl)).
  rewrite (bind_step (advance 3) _ _ _ _ eq_refl).
  unfold mret, dec_ret. do 2 f_equal.
  rewrite !b2z_z2b. change 255 with (Z.ones 8). change 15 with (Z.ones 4).
  rewrite !Z.land_ones, !Z.shiftl_mul_pow2, !Z.shiftr_div_pow2 by lia.
  Z.div_mod_to_equations. lia.
Qed.

Lemma reads_readRaw bs : reads (readRaw (blen bs)) bs bs.
Proof.
  intros pre post. unfold readRaw.
  rewrite (bind_step _ _ _ _ _ (checkEOS_ok (blen bs) pre bs post eq_refl)).
  rewrite (bind_step (slice (blen bs)) _ _ _ _ eq_refl). cbn [index data].
  rewrite zdrop_app, ztake_app. by rewrite (bind_step (advance _) _ _ _ _ eq_refl).
Qed.

(** ** Length headers *)

(** [read] on the bytes of [writeByteLength] followed by the payload. *)
Lemma writeByteLength_ok n : 0 <= n < MaxInt32 -> exists bs, writeByteLength n = Ok bs.
Proof.
  intros Hn. unfold writeByteLength. destruct (n <? 256); [by eexists|].
  destruct (n <? _); [by eexists|]. rewrite (proj2 (Z.ltb_lt _ _)) by lia. by eexists.
Qed.

Lemma reads_BytesOrString bs asString :
  reads (readBytesOrString (blen bs) asString) bs
        (if asString then AString (bytes_str bs) else ABytes bs).
Proof.
  unfold readBytesOrString. eapply reads_bind_nil; [apply reads_readRaw|apply reads_ret].
Qed.

(** ** Packed strings *)

Lemma pair_unpack a b :
  0 <= a < 16 -> 0 <= b < 16 ->
  let p := b2z (z2b (Z.lor (u8 (Z.shiftl a 4)) b)) in
  Z.shiftr (Z.land p 240) 4 = a /\ Z.land p 15 = b.
Proof.
  intros Ha Hb p. subst p.
  assert (Hall : forallb (fun a => forallb (fun b =>
    let p := b2z (z2b (Z.lor (u8 (Z.shiftl a 4)) b)) in
    (Z.shiftr (Z.land p 240) 4 =? a) && (Z.land p 15 =? b)) (seqZ 0 16)) (seqZ 0 16) = true)
    by (vm_compute; reflexivity).
  pose proof (forallb_below _ _ (forallb_below _ _ Hall a Ha) b Hb) as H. cbn zeta in H.
  apply andb_true_iff in H as [H1%Z.eqb_eq H2%Z.eqb_eq]. done.
Qed.

Section packed.
Variables (tag : Z) (packer : Z -> outcome Empty_set Z) (valid : Z -> bool) (pad : Z).
Hypothesis packer_ok : forall c, valid c = true ->
  exists v, packer c = Ok v /\ 0 <= v < 16 /\ forall r, unpackByte tag v r = Ok (c, r).
Hypothesis packer_pad : packer 0 = Ok 15 /\ forall r, unpackByte tag 15 r = Ok (pad, r).

Lemma packed_byte c v c' v' build :
  packer c = Ok v -> 0 <= v < 16 -> (forall r, unpackByte tag v r = Ok (c, r)) ->
  packer c' = Ok v' -> 0 <= v' < 16 -> forall o, (forall r, unpackByte tag v' r = Ok (o, r)) ->
  exists p, packBytePair packer c c' = Ok p /\ forall todo bs x,
    reads (readPacked8_from tag todo (build ++ [z2b c; z2b o])) bs x ->
    reads (readPacked8_from tag (S todo) build) (z2b p :: bs) x.
Proof.
  intros Hp Hv Hu Hp' Hv' o Hu'. exists (Z.lor (u8 (Z.shiftl v 4)) v').
  unfold packBytePair. rewrite Hp; simpl. rewrite Hp'; simpl. split; [done|].
  intros todo bs x Hx. destruct (pair_unpack v v' Hv Hv') as [E1 E2].
  eapply (reads_then _ _ [_] bs); [done|apply reads_readByte|].
  eapply (reads_then _ _ [] bs); [done| |].
  { intros pre post. rewrite E1, Hu, blen_nil, Z.add_0_r. done. }
  eapply (reads_then _ _ [] bs); [done| |exact Hx].
  intros pre post. rewrite E2, Hu', blen_nil, Z.add_0_r. done.
Qed.

Lemma packPairs_reads value : forall build,
  forallb (fun c => valid (b2z c)) value = true ->
  exists ps, packPairs packer value = Ok ps /\ blen ps = (blen value + 1) / 2 /\
    reads (readPacked8_from tag (length ps) build) ps
          (build ++ value ++ (if blen value mod 2 =? 0 then [] else [z2b pad])).
Proof.
  induction value as [|a|a b rest IH] using list_ind2; intros build Hv.
  - exists []. rewrite app_nil_r. split_and!; [done|done|apply reads_ret].
  - simpl in Hv. rewrite andb_true_r in Hv. destruct (packer_ok _ Hv) as (v & Hp & Hr & Hu).
    destruct packer_pad as [Hp0 Hu0].
    destruct (packed_byte _ v 0 15 build Hp Hr Hu Hp0 ltac:(lia) pad Hu0) as (p & Hpair & Hrd).
    exists [z2b p]. cbn [packPairs]. rewrite Hpair. split_and!; [done|done|].
    change (length [z2b p]) with 1%nat. apply Hrd. rewrite z2b_b2z. apply reads_ret.
  - simpl in Hv. apply andb_true_iff in Hv as [Ha [Hb Hv]%andb_true_iff].
    destruct (packer_ok _ Ha) as (v & Hp & Hr & Hu).
    destruct (packer_ok _ Hb) as (v' & Hp' & Hr' & Hu').
    destruct (packed_byte _ v _ v' build Hp Hr Hu Hp' Hr' _ Hu') as (p & Hpair & Hrd).
    destruct (IH (build ++ [a; b]) Hv) as (ps & Hps & Hlen & Hread).
    exists (z2b p :: ps). cbn [packPairs length]. rewrite Hpair, Hps.
    rewrite !blen_cons. replace (1 + (1 + blen rest) + 1) with (blen rest + 1 + 1 * 2) by lia.
    rewrite Z.div_add by lia. split_and!; [done|lia|].
    rewrite !z2b_b2z in Hrd. apply Hrd.
    replace (1 + (1 + blen rest)) with (blen rest + 1 * 2) by lia. rewrite Z_mod_plus_full.
    rewrite <- app_assoc in Hread. exact Hread.
Qed.

Hypothesis tag_byte : 0 <= tag < 256.

Lemma reads_packed value :
  blen value <= token.PackedMax -> forallb (fun c => valid (b2z c)) value = true ->
  exists ps, packPairs packer value = Ok ps /\
    let rounded := u8 ((blen value + 1) / 2) in
    let start := if blen value mod 2 =? 0 then rounded else Z.lor rounded 128 in
    reads (readPacked8 tag) (z2b start :: ps) (bytes_str value).
Proof.
  intros Hlen Hv. destruct (packPairs_reads value [] Hv) as (ps & Hps & Hl & Hread).
  exists ps. split; [done|]. intros rounded start.
  pose proof (blen_nonneg value). unfold token.PackedMax in Hlen.
  assert (0 <= (blen value + 1) / 2 < 65) as Hb by (Z.div_mod_to_equations; lia).
  assert (rounded = (blen value + 1) / 2) as Hrd by (subst rounded; apply u8_small; lia).
  assert (Hall : forallb (fun r =>
    (b2z (z2b r) =? r) && (Z.land r 127 =? r) && (Z.shiftr r 7 =? 0) &&
    (Z.land (b2z (z2b (Z.lor r 128))) 127 =? r) &&
    negb (Z.shiftr (b2z (z2b (Z.lor r 128))) 7 =? 0)) (seqZ 0 65) = true) by (vm_compute; reflexivity).
  pose proof (forallb_below _ _ Hall _ Hb) as H5. cbn beta in H5. rewrite <- Hrd in H5.
  rewrite !andb_true_iff, negb_true_iff, !Z.eqb_eq in H5. destruct H5 as ((((E1 & E2) & E3) & E4) & E5).
  assert (Z.to_nat rounded = length ps) as Hn by (unfold blen in *; lia).
  eapply (reads_then _ _ [_] ps); [done|apply reads_readByte|].
  subst start. destruct (blen value mod 2 =? 0) eqn:Hodd.
  - rewrite E1, E2, Hn. rewrite app_nil_r in Hread.
    eapply reads_bind_nil; [apply Hread|]. rewrite E3. apply reads_ret.
  - rewrite E4, Hn. eapply reads_bind_nil; [apply Hread|]. rewrite E5. simpl app.
    rewrite blen_app. change (blen [z2b pad]) with 1.
    rewrite (proj2 (Z.eqb_neq (blen value + 1) 0)) by lia.
    replace (blen value + 1 - 1) with (blen value) by lia. rewrite ztake_app. apply reads_ret.
Qed.
End packed.

Lemma unpack_nibble_ok c :
  is_nibble_char c = true ->
  exists v, packNibble c = Ok v /\ 0 <= v < 16 /\ forall r, unpackByte token.Nibble8 v r = Ok (c, r).
Proof.
  unfold is_nibble_char. rewrite !orb_true_iff, andb_true_iff, !Z.leb_le, !Z.eqb_eq.
  intros [[[H1 H2]| ->]| ->].
  - exists (c - 48). split_and!; [|lia|lia|].
    + unfold packNibble. rewrite !(proj2 (Z.eqb_neq _ _)) by lia.
      by rewrite !(proj2 (Z.leb_le _ _)) by lia.
    + intros r. unfold unpackByte, unpackNibble; simpl.
      rewrite (proj2 (Z.ltb_lt _ _)) by lia. unfold mret, dec_ret. do 3 f_equal. lia.
  - by exists 10.
  - by exists 11.
Qed.

Lemma unpack_hex_ok c :
  is_hex_char c = true ->
  exists v, packHex c = Ok v /\ 0 <= v < 16 /\ forall r, unpackByte token.Hex8 v r = Ok (c, r).
Proof.
  unfold is_hex_char. rewrite !orb_true_iff, !andb_true_iff, !Z.leb_le.
  intros [[H1 H2]|[H1 H2]].
  - exists (c - 48). unfold packHex. rewrite !(proj2 (Z.leb_le _ _)) by lia. split_and!; [done|lia|lia|].
    intros r. unfold unpackByte, unpackHex; simpl.
    rewrite (proj2 (Z.ltb_lt _ _)) by lia. unfold mret, dec_ret. do 3 f_equal. lia.
  - exists (10 + c - 65). unfold packHex. rewrite (proj2 (Z.leb_gt c 57)) by lia.
    rewrite andb_false_r, !(proj2 (Z.leb_le _ _)) by lia. split_and!; [done|lia|lia|].
    intros r. unfold unpackByte, unpackHex; simpl.
    rewrite (proj2 (Z.ltb_ge _ _)), (proj2 (Z.ltb_lt _ _)) by lia.
    unfold mret, dec_ret. do 3 f_equal. lia.
Qed.

(** ** The wire normal form: what a decoder sees of a value *)

(** A string the encoder writes as a token or packed, which the decoder returns
    as a string even where it was asked for bytes. *)
Definition is_compact (s : string) : bool :=
  match token.IndexOfSingleToken s, token.IndexOfDoubleByteToken s with
  | None, None => validateNibble s || validateHex s
  | _, _ => true
  end.

Definition norm_string (asString : bool) (s : string) : any :=
  if asString || is_compact s then AString s else ABytes (str_bytes s).

Definition norm_jid (j : JID) : JID :=
  if is_ad j then mkJID (User j) 0 (u8 (Device j)) 0 (Server j)
  else if bool_decide (Server j = MessengerServer) then mkJID (User j) 0 (Device j) 0 (Server j)
  else if bool_decide (Server j = InteropServer) then
    mkJID (User j) 0 (Device j) (Integrator j) (Server j)
  else mkJID (User j) 0 0 0 (Server j).

Fixpoint norm (asString : bool) (v : any) : any :=
  match v with
  | ANil => ANil
  | AString s => norm_string asString s
  | AJID j => AJID (norm_jid j)
  | AInt z | AInt32 z | AUint z | AUint32 z | AInt64 z | AUint64 z => norm_string asString (itoa z)
  | ABool b => norm_string asString (format_bool b)
  | ABytes b => if asString then AString (bytes_str b) else ABytes b
  | ANodes [] => ANil
  | ANodes l => ANodes (map norm_node l)
  | AOther => AOther
  end
with norm_node (n : Node) : Node :=
  match n with
  | mkNode tag attrs content =>
      mkNode tag
        ((fix norm_attrs (a : Attrs) : Attrs :=
            match a with
            | [] => []
            | (k, v) :: a' => if skipped v then norm_attrs a' else (k, norm true v) :: norm_attrs a'
            end) attrs)
        (norm false content)
  end.

Fixpoint norm_attrs (a : Attrs) : Attrs :=
  match a with
  | [] => []
  | (k, v) :: a' => if skipped v then norm_attrs a' else (k, norm true v) :: norm_attrs a'
  end.

(** ** What can be encoded *)

Definition str_ok (s : string) : bool := blen (str_bytes s) <? MaxInt32.

Definition jid_enc (j : JID) : bool := bool_decide (jid_ok j) && str_ok (User j) && str_ok (Server j).

Fixpoint encodable (v : any) : bool :=
  match v with
  | ANil | ABool _ => true
  | AString s => str_ok s
  | AJID j => jid_enc j
  | AInt z | AInt32 z | AUint z | AUint32 z | AInt64 z | AUint64 z => str_ok (itoa z)
  | ABytes b => blen b <? MaxInt32
  | ANodes l => (blen l <? 2 ^ 16) && forallb encodable_node l
  | AOther => false
  end
with encodable_node (n : Node) : bool :=
  match n with
  | mkNode tag attrs content =>
      negb (bool_decide (tag = "0")) && negb (bool_decide (tag = "")) && str_ok tag
      && (2 * countAttributes attrs + 2 <? 2 ^ 16)
      && bool_decide (NoDup (map fst attrs))
      && forallb (fun kv => str_ok (fst kv) && encodable (snd kv)) attrs
      && encodable content
  end.

(** ** Strings *)

Definition readsv (fuel : nat) (asString : bool) (bs : bytes) (v : any) : Prop :=
  reads (read fuel asString) bs v.

Lemma readsv_tag fuel asString b bs v :
  reads (readTag (read fuel) asString (b2z b)) bs v -> readsv (S fuel) asString (b :: bs) v.
Proof. intros H. eapply (reads_then _ _ [_] bs); [done|apply reads_readByte|done]. Qed.

Lemma readsv_z2b fuel asString t bs v :
  (0 <=? t) && (t <? 256) = true -> reads (readTag (read fuel) asString t) bs v ->
  readsv (S fuel) asString (z2b t :: bs) v.
Proof. intros Ht H. apply readsv_tag. by rewrite b2z_z2b_small by lia. Qed.

Lemma readsv_raw fuel asString b bs :
  writeBytes b = Ok bs ->
  readsv (S fuel) asString bs (if asString then AString (bytes_str b) else ABytes b).
Proof.
  unfold writeBytes. intros (h & t & Hh & [= <-] & ->)%then_inv.
  pose proof (blen_nonneg b). unfold writeByteLength in Hh.
  destruct (Z.ltb_spec (blen b) 256).
  { apply then_inv in Hh as (? & l & [= <-] & Hl & ->). apply readsv_z2b; [reflexivity|].
    eapply reads_bind; [by apply reads_readInt8|apply reads_BytesOrString]. }
  destruct (Z.ltb_spec (blen b) (Z.shiftl 1 20)) as [Hb|].
  { apply then_inv in Hh as (? & l & [= <-] & Hl & ->). apply readsv_z2b; [reflexivity|].
    eapply reads_bind; [by apply reads_readInt20|apply reads_BytesOrString]. }
  destruct (Z.ltb_spec (blen b) MaxInt32) as [Hb'|]; [|done]. unfold MaxInt32 in Hb'.
  apply then_inv in Hh as (? & l & [= <-] & Hl & ->). apply readsv_z2b; [reflexivity|].
  eapply reads_bind; [eapply reads_readInt32; [|exact Hl]; lia|apply reads_BytesOrString].
Qed.

Lemma writeBytes_ok b : blen b < MaxInt32 -> exists bs, writeBytes b = Ok bs.
Proof.
  intros Hb. destruct (writeByteLength_ok (blen b)) as [h Hh]; [pose proof (blen_nonneg b); lia|].
  exists (h ++ b). by apply then_ok.
Qed.

Lemma packed_ok tag packer valid pad value :
  (forall c, valid c = true ->
     exists v, packer c = Ok v /\ 0 <= v < 16 /\ forall r, unpackByte tag v r = Ok (c, r)) ->
  packer 0 = Ok 15 /\ (forall r, unpackByte tag 15 r = Ok (pad, r)) ->
  (tag = token.Nibble8 /\ packer = packNibble \/ tag = token.Hex8 /\ packer = packHex) ->
  negb (token.PackedMax <? blen (str_bytes value)) &&
    forallb (fun c => valid (b2z c)) (str_bytes value) = true ->
  exists bs, writePackedBytes value tag = Ok bs /\
    forall fuel asString, readsv (S fuel) asString bs (AString value).
Proof.
  intros Hok Hpad Htag [Hlen%negb_true_iff Hv]%andb_true_iff.
  assert (blen (str_bytes value) <= token.PackedMax) as Hle by (apply Z.ltb_ge in Hlen; lia).
  destruct (reads_packed tag packer valid pad Hok Hpad ltac:(by destruct Htag as [[-> _]|[-> _]])
    _ Hle Hv) as (ps & Hps & Hread).
  cbn zeta in Hread. rewrite bytes_str_bytes in Hread.
  eexists (z2b tag :: _ :: ps). split.
  - unfold writePackedBytes. rewrite Hlen. destruct Htag as [[-> ->]|[-> ->]]; simpl;
      rewrite Hps; reflexivity.
  - intros fuel asString. apply readsv_z2b; [by destruct Htag as [[-> _]|[-> _]]|].
    assert (readTag (read fuel) asString tag = (s ← readPacked8 tag; mret (AString s))) as ->
      by (by destruct Htag as [[-> _]|[-> _]]).
    eapply reads_bind_nil; [exact Hread|apply reads_ret].
Qed.

(** Every string is read back by [read], as a string when it was asked for one
    or was written compactly, else as bytes. *)
Lemma writeString_reads s :
  str_ok s = true ->
  exists bs, writeString s = Ok bs /\
    forall fuel asString, readsv (S fuel) asString bs (norm_string asString s).
Proof.
  intros Hs%Z.ltb_lt. unfold writeString, norm_string, is_compact.
  destruct (token.IndexOfSingleToken s) as [i|] eqn:E1.
  { apply token.IndexOfSingleToken_sound in E1 as (Hi & Hg & Hne). eexists; split; [done|].
    intros fuel asString. rewrite orb_true_r. unfold token.Dictionary0 in Hi.
    apply readsv_z2b; [lia|].
    unfold readTag, token.ListEmpty, token.List8, token.List16, token.Binary8, token.Binary20,
      token.Binary32, token.Dictionary0, token.FBJID, token.InteropJID, token.JIDPair,
      token.ADJID, token.Nibble8, token.Hex8.
    rewrite !(proj2 (Z.eqb_neq i _)) by lia. rewrite (proj2 (Z.leb_gt 236 i)) by lia. simpl.
    rewrite Hg, (proj2 (Z.leb_le 1 i)) by lia. apply reads_ret. }
  destruct (token.IndexOfDoubleByteToken s) as [[d i]|] eqn:E2.
  { apply token.IndexOfDoubleByteToken_sound in E2 as (Hd & Hi & Hg). eexists; split; [done|].
    intros fuel asString. rewrite orb_true_r. unfold token.Dictionary0. rewrite u8_small by lia.
    apply readsv_z2b; [lia|].
    assert (Hcase : readTag (read fuel) asString (236 + d) =
      (i ← readInt8 false; t ← getDoubleToken d i; mret (AString t))).
    { assert (d = 0 \/ d = 1 \/ d = 2 \/ d = 3) as [->|[->|[->| ->]]] by lia; reflexivity. }
    rewrite Hcase.
    eapply reads_bind_nil; [by apply (reads_readInt8 i), pushInt8_eq|].
    eapply (reads_then _ _ [] []); [done| |apply reads_ret].
    intros pre post. unfold getDoubleToken. rewrite Hg, blen_nil, Z.add_0_r. done. }
  destruct (validateNibble s) eqn:E3.
  { destruct (packed_ok token.Nibble8 packNibble is_nibble_char 0 s) as (bs & Hbs & Hr);
      auto using unpack_nibble_ok. exists bs. split; [done|].
    intros fuel asString. rewrite orb_true_r. apply Hr. }
  destruct (validateHex s) eqn:E4.
  { destruct (packed_ok token.Hex8 packHex is_hex_char 70 s) as (bs & Hbs & Hr);
      auto using unpack_hex_ok. exists bs. split; [done|].
    intros fuel asString. rewrite orb_true_r. apply Hr. }
  destruct (writeBytes_ok (str_bytes s) Hs) as [bs Hbs]. exists bs. split; [exact Hbs|].
  intros fuel asString. pose proof (readsv_raw fuel asString _ _ Hbs) as Hr.
  rewrite bytes_str_bytes in Hr. by rewrite orb_false_r.
Qed.

Lemma norm_string_true s : norm_string true s = AString s.
Proof. reflexivity. Qed.

#[local] Opaque writeString norm_string.

(** ** Values and elements *)

(** What [w] writes is read back as [v], whatever fuel covers its length. *)
Definition roundtrips (w : enc) (v : bool -> any) : Prop :=
  exists bs, w = Ok bs /\ forall f b, (length bs <= f)%nat -> readsv f b bs (v b).

Lemma readsv_nil f b v : ~ readsv f b [] v.
Proof. intros H. specialize (H [] []). by destruct f. Qed.

Lemma writeString_roundtrips s :
  str_ok s = true -> roundtrips (writeString s) (fun b => norm_string b s).
Proof.
  intros Hs. destruct (writeString_reads s Hs) as (bs & Hbs & Hr). exists bs. split; [done|].
  intros f b Hf. destruct f as [|f]; [|apply Hr].
  destruct bs; [|simpl in Hf; lia]. destruct (readsv_nil 1 b _ (Hr 0%nat b)).
Qed.

(** Running a reader of a sub-element with what is left of the fuel. *)
Lemma roundtrips_read w v :
  roundtrips w v -> exists bs, w = Ok bs /\ forall f b, (length bs <= f)%nat -> reads (read f b) bs (v b).
Proof. done. Qed.

Ltac dec_case := match goal with
  | |- reads (readTag ?rd ?b ?t) ?bs ?v =>
      let x := eval cbv beta iota delta [readTag token.ListEmpty token.List8 token.List16
        token.Binary8 token.Binary20 token.Binary32 token.Dictionary0 token.Dictionary3
        token.FBJID token.InteropJID token.JIDPair token.ADJID token.Nibble8 token.Hex8
        Z.eqb Z.leb Z.compare Pos.eqb Pos.compare Pos.compare_cont andb orb]
        in (readTag rd b t) in
      change (reads x bs v)
  end.

Lemma pushInt16_ok v : exists bs, pushInt16 v = Ok bs.
Proof. by eexists. Qed.

Lemma NewADJID_norm j :
  jid_ok j -> is_ad j = true ->
  NewADJID (User j) (ActualAgent j) (u8 (Device j)) = norm_jid j.
Proof.
  intros Hj Had. pose proof (u8_range (Device j)).
  unfold norm_jid. rewrite Had. unfold is_ad in Had. unfold NewADJID, ActualAgent.
  rewrite (u16_small (u8 (Device j))) by lia.
  destruct j as [user agent device integ server]; simpl in *.
  repeat case_bool_decide; subst; try done.
Qed.

Lemma writeJID_roundtrips j : jid_enc j = true -> roundtrips (writeJID j) (fun _ => AJID (norm_jid j)).
Proof.
  intros [[Hj%bool_decide_eq_true Hu]%andb_true_iff Hs]%andb_true_iff.
  destruct (writeString_roundtrips _ Hu) as (ub & Hub & Hur).
  destruct (writeString_roundtrips _ Hs) as (sb & Hsb & Hsr).
  pose proof (ActualAgent_range j Hj) as Hag. pose proof (u8_range (Device j)) as Hd8.
  pose proof Hj as (Ha & Hd & Hi).
  unfold writeJID. destruct (is_ad j) eqn:Had.
  { rewrite Hub. exists (z2b token.ADJID :: z2b (ActualAgent j) :: z2b (u8 (Device j)) :: ub).
    split; [reflexivity|]. intros f b Hf. destruct f as [|f]; [simpl in Hf; lia|].
    apply (readsv_z2b f b token.ADJID); [reflexivity|]. dec_case. simpl in Hf.
    eapply (reads_then _ _ [_] _); [reflexivity|apply reads_readByte|].
    eapply (reads_then _ _ [_] _); [reflexivity|apply reads_readByte|].
    rewrite !b2z_z2b_small by lia.
    eapply reads_bind_nil; [apply Hur; simpl; lia|].
    rewrite norm_string_true. unfold as_string.
    eapply (reads_then _ _ [] []); [reflexivity|apply reads_ret|].
    rewrite NewADJID_norm by assumption. apply reads_ret. }
  unfold norm_jid. rewrite Had.
  destruct (bool_decide (Server j = MessengerServer)) eqn:Hm.
  { apply bool_decide_eq_true in Hm. rewrite Hub, Hsb.
    destruct (pushInt16_ok (Device j)) as [db Hdb]. rewrite Hdb.
    exists (z2b token.FBJID :: ub ++ db ++ sb). split; [simpl; rewrite <- !app_assoc; reflexivity|].
    intros f b Hf. destruct f as [|f]; [simpl in Hf; lia|].
    apply (readsv_z2b f b token.FBJID); [reflexivity|]. dec_case. simpl in Hf. rewrite !length_app in Hf.
    eapply reads_bind; [apply Hur; lia|].
    eapply reads_bind; [apply (reads_readInt16 (Device j)); assumption|].
    eapply reads_bind_nil; [apply Hsr; lia|].
    rewrite !norm_string_true. unfold is_string. rewrite bool_decide_eq_true_2 by first [reflexivity|assumption].
    rewrite u16_small by assumption. apply reads_ret. }
  destruct (bool_decide (Server j = InteropServer)) eqn:Hin.
  { apply bool_decide_eq_true in Hin. rewrite Hub, Hsb.
    destruct (pushInt16_ok (Device j)) as [db Hdb]. rewrite Hdb.
    destruct (pushInt16_ok (Integrator j)) as [ib Hib]. rewrite Hib.
    exists (z2b token.InteropJID :: ub ++ db ++ ib ++ sb). split; [simpl; rewrite <- !app_assoc; reflexivity|].
    intros f b Hf. destruct f as [|f]; [simpl in Hf; lia|].
    apply (readsv_z2b f b token.InteropJID); [reflexivity|]. dec_case. simpl in Hf.
    rewrite !length_app in Hf.
    eapply reads_bind; [apply Hur; lia|].
    eapply reads_bind; [apply (reads_readInt16 (Device j)); assumption|].
    eapply reads_bind; [apply (reads_readInt16 (Integrator j)); assumption|].
    eapply reads_bind_nil; [apply Hsr; lia|].
    rewrite !norm_string_true. unfold is_string. rewrite bool_decide_eq_true_2 by first [reflexivity|assumption].
    rewrite !u16_small by assumption. rewrite Hin. apply reads_ret. }
  rewrite Hsb. destruct (User j) as [|c user] eqn:Hus.
  { exists (z2b token.JIDPair :: z2b token.ListEmpty :: sb). split; [reflexivity|].
    intros f b Hf. destruct f as [|[|f]]; [simpl in Hf; lia..|].
    apply (readsv_z2b (S f) b token.JIDPair); [reflexivity|]. dec_case. simpl in Hf.
    eapply (reads_then _ _ [_] _);
      [reflexivity|apply (readsv_z2b f true token.ListEmpty); [reflexivity|]; dec_case; apply reads_ret|].
    eapply reads_bind_nil; [apply Hsr; simpl; lia|].
    rewrite norm_string_true. apply reads_ret. }
  { cbn [String.length Nat.eqb]. rewrite Hub.
    exists (z2b token.JIDPair :: ub ++ sb). split; [reflexivity|].
    intros f b Hf. destruct f as [|f]; [simpl in Hf; lia|].
    apply (readsv_z2b f b token.JIDPair); [reflexivity|]. dec_case. simpl in Hf. rewrite length_app in Hf.
    eapply reads_bind; [apply Hur; lia|].
    eapply reads_bind_nil; [apply Hsr; lia|].
    rewrite !norm_string_true. apply reads_ret. }
Qed.

(** ** Attributes *)

Lemma countAttributes_norm attrs : countAttributes attrs = blen (norm_attrs attrs).
Proof.
  unfold countAttributes.
  enough (forall c, foldl (fun count kv => if skipped (snd kv) then count else count + 1) c attrs
    = c + blen (norm_attrs attrs)) by (rewrite H; lia).
  induction attrs as [|[k v] attrs IH]; intros c; cbn [foldl norm_attrs fst snd];
    [rewrite blen_nil; lia|].
  rewrite IH. destruct (skipped v); [lia|]. rewrite blen_cons. lia.
Qed.

Lemma attr_set_fresh k v m : k ∉ map fst m -> attr_set k v m = m ++ [(k, v)].
Proof.
  induction m as [|[k' v'] m IH]; cbn [attr_set map fst app]; [reflexivity|].
  intros [Hk Hm]%not_elem_of_cons. rewrite bool_decide_eq_false_2 by congruence.
  by rewrite IH.
Qed.

Definition attr_ok (kv : string * any) : Prop :=
  str_ok (fst kv) = true /\
  (skipped (snd kv) = true \/ roundtrips (write (snd kv)) (fun b => norm b (snd kv))).

Lemma then_eq a b bs1 bs2 : a = Ok bs1 -> b = Ok bs2 -> a ;+ b = Ok (bs1 ++ bs2).
Proof. apply then_ok. Qed.

Lemma writeAttributes_reads attrs : forall acc,
  Forall attr_ok attrs -> NoDup (map fst acc ++ map fst attrs) ->
  exists bs, writeAttributes attrs = Ok bs /\ forall f, (length bs <= f)%nat ->
    reads (readAttributes_from (read f) (length (norm_attrs attrs)) acc) bs (acc ++ norm_attrs attrs).
Proof.
  induction attrs as [|[k v] attrs IH]; intros acc Hok Hnd.
  { exists []. split; [reflexivity|]. intros f _. rewrite app_nil_r. apply reads_ret. }
  inversion Hok as [|? ? [Hk Hv] Hok']; subst. cbn [fst snd] in *.
  cbn [writeAttributes norm_attrs].
  assert (Hnd' : NoDup (map fst acc ++ map fst attrs)).
  { revert Hnd. cbn [map fst]. rewrite !NoDup_app. intros (H1 & H2 & H3).
    apply NoDup_cons in H3 as [_ H3]. split_and!; [exact H1| |exact H3].
    intros x Hx Hx'. apply (H2 x Hx). by right. }
  destruct (skipped v) eqn:Hs; [by apply IH|].
  destruct Hv as [Hv|Hv]; [congruence|].
  destruct (writeString_roundtrips _ Hk) as (kb & Hkb & Hkr).
  destruct Hv as (vb & Hvb & Hvr).
  assert (Hfresh : k ∉ map fst acc).
  { intros Hin. apply NoDup_app in Hnd as (_ & Hd & _). apply (Hd k Hin). by left. }
  destruct (IH (acc ++ [(k, norm true v)]) Hok') as (bs & Hbs & Hr).
  { rewrite map_app, <- app_assoc. exact Hnd. }
  exists (kb ++ vb ++ bs). split.
  { rewrite app_assoc. apply then_ok; [by apply then_ok|exact Hbs]. }
  intros f Hf. rewrite !length_app in Hf. cbn [length readAttributes_from].
  eapply reads_bind; [apply Hkr; lia|]. rewrite norm_string_true.
  eapply reads_bind; [apply Hvr; lia|]. rewrite attr_set_fresh by exact Hfresh.
  specialize (Hr f ltac:(lia)). rewrite <- app_assoc in Hr. exact Hr.
Qed.

(** ** Elements and lists of elements *)

Definition node_roundtrips (n : Node) : Prop :=
  exists bs, writeNode n = Ok bs /\ forall f, (length bs <= f)%nat ->
    reads (readNode (read f)) bs (norm_node n).

Lemma writeNodes_reads l :
  Forall node_roundtrips l ->
  exists bs, writeNodes l = Ok bs /\ forall f, (length bs <= f)%nat ->
    reads (readNodes (read f) (length l)) bs (map norm_node l).
Proof.
  induction 1 as [|n l (nb & Hnb & Hnr) _ (bs & Hbs & Hr)].
  { exists []. split; [reflexivity|]. intros f _. apply reads_ret. }
  exists (nb ++ bs). split; [by apply then_ok|]. intros f Hf. rewrite length_app in Hf.
  cbn [length readNodes map]. eapply reads_bind; [apply Hnr; lia|].
  eapply reads_bind_nil; [apply Hr; lia|apply reads_ret].
Qed.

(** The list header, as [read] and as [readNode] meet it. *)
Lemma writeListStart_ok n :
  0 < n < 2 ^ 16 ->
  exists t bs, writeListStart n = Ok (z2b t :: bs) /\ (t = token.List8 \/ t = token.List16) /\
    reads (readListSize t) bs n.
Proof.
  intros Hn. unfold writeListStart. rewrite (proj2 (Z.eqb_neq n 0)) by lia.
  destruct (Z.ltb_spec n 256).
  - exists token.List8, [z2b n]. rewrite pushInt8_eq by lia. split_and!; [reflexivity|by left|].
    apply reads_readInt8; [lia|]. apply pushInt8_eq. lia.
  - destruct (pushInt16_ok n) as [bs Hbs]. exists token.List16, bs. rewrite Hbs.
    split_and!; [reflexivity|by right|]. apply (reads_readInt16 n); [lia|exact Hbs].
Qed.

Lemma nodes_roundtrip l :
  blen l < 2 ^ 16 -> Forall node_roundtrips l ->
  roundtrips (write (ANodes l)) (fun b => norm b (ANodes l)).
Proof.
  intros Hl Hall. rewrite write_nodes_eq. destruct (writeNodes_reads l Hall) as (bs & Hbs & Hr).
  destruct l as [|n l].
  { exists [z2b token.ListEmpty]. split; [reflexivity|]. intros f b Hf.
    destruct f as [|f]; [simpl in Hf; lia|].
    apply (readsv_z2b f b token.ListEmpty); [reflexivity|]. dec_case. apply reads_ret. }
  rewrite blen_cons in Hl. pose proof (blen_nonneg l).
  destruct (writeListStart_ok (blen (n :: l))) as (t & hb & Hw & Ht & Hh); [rewrite blen_cons; lia|].
  rewrite Hw, Hbs. exists (z2b t :: hb ++ bs). split; [reflexivity|].
  intros f b Hf. destruct f as [|f]; [simpl in Hf; lia|].
  cbn [length] in Hf. rewrite length_app in Hf.
  assert (Hbody : reads (readList (read f) t) (hb ++ bs) (ANodes (map norm_node (n :: l)))).
  { unfold readList. eapply reads_bind; [exact Hh|].
    replace (Z.to_nat (blen (n :: l))) with (length (n :: l)) by (unfold blen; lia).
    eapply reads_bind_nil; [apply Hr; lia|apply reads_ret]. }
  apply (readsv_z2b f b t); [destruct Ht as [-> | ->]; reflexivity|].
  destruct Ht as [-> | ->]; dec_case; exact Hbody.
Qed.

Lemma node_roundtrip tag attrs content :
  bool_decide (tag = "0") = false -> bool_decide (tag = "") = false -> str_ok tag = true ->
  2 * countAttributes attrs + 2 < 2 ^ 16 -> NoDup (map fst attrs) -> Forall attr_ok attrs ->
  roundtrips (write content) (fun b => norm b content) ->
  node_roundtrips (mkNode tag attrs content).
Proof.
  intros H0 He Hs Hc Hnd Hattrs (cb & Hcb & Hcr).
  destruct (writeString_roundtrips _ Hs) as (tb & Htb & Htr).
  destruct (writeAttributes_reads attrs [] Hattrs Hnd) as (ab & Hab & Har).
  unfold node_roundtrips. rewrite writeNode_eq, H0, Htb, Hab.
  set (h := if is_nil content then 0 else 1).
  assert (Hh : 0 <= h <= 1) by (subst h; destruct (is_nil content); lia).
  pose proof (countAttributes_norm attrs) as Hcn. pose proof (blen_nonneg (norm_attrs attrs)).
  destruct (writeListStart_ok (2 * countAttributes attrs + tagSize + h)) as (t & hb & Hw & Ht & Hread);
    [unfold tagSize; lia|].
  rewrite Hw.
  exists (z2b t :: hb ++ tb ++ ab ++ (if is_nil content then [] else cb)). split.
  { destruct (is_nil content); [|rewrite Hcb]; simpl; rewrite <- !app_assoc; reflexivity. }
  intros f Hf. cbn [length] in Hf. rewrite !length_app in Hf. unfold readNode.
  assert (Ht256 : 0 <= t < 256) by (destruct Ht as [-> | ->]; unfold token.List8, token.List16; lia).
  eapply (reads_then _ _ [_] _);
    [reflexivity|apply (reads_readInt8 t); [exact Ht256|apply pushInt8_eq; exact Ht256]|].
  eapply reads_bind; [exact Hread|].
  eapply reads_bind; [apply Htr; lia|]. rewrite norm_string_true.
  eapply (reads_then _ _ [] _); [reflexivity|apply reads_ret|].
  rewrite He, (proj2 (Z.eqb_neq (2 * countAttributes attrs + tagSize + h) 0))
    by (unfold tagSize; lia). cbn [orb].
  assert (Hn : Z.shiftr (2 * countAttributes attrs + tagSize + h - 1) 1 = blen (norm_attrs attrs)).
  { rewrite Z.shiftr_div_pow2 by lia. change (2 ^ 1) with 2. unfold tagSize.
    Z.div_mod_to_equations. lia. }
  unfold readAttributes. rewrite Hn.
  replace (Z.to_nat (blen (norm_attrs attrs))) with (length (norm_attrs attrs)) by (unfold blen; lia).
  eapply reads_bind; [apply Har; lia|]. cbn [app].
  assert (Hmod : (2 * countAttributes attrs + tagSize + h) mod 2 = 1 - h).
  { unfold tagSize. Z.div_mod_to_equations. lia. }
  rewrite Hmod. subst h. destruct content as [| | | | | | | | | | | |]; cbn [is_nil] in *;
    [apply reads_ret|..];
    (eapply reads_bind_nil; [apply Hcr; lia|apply reads_ret]).
Qed.

Lemma encodable_roundtrips :
  (forall v, encodable v = true -> roundtrips (write v) (fun b => norm b v)) /\
  (forall n, encodable_node n = true -> node_roundtrips n).
Proof.
  assert (Hleaf : forall v, match v with ANodes _ => False | _ => True end ->
    encodable v = true -> roundtrips (write v) (fun b => norm b v)).
  { intros v Hv He. destruct v; try contradiction; cbn [write norm encodable] in *;
      try (by apply writeString_roundtrips).
    - exists [z2b token.ListEmpty]. split; [reflexivity|]. intros f b Hf.
      destruct f as [|f]; [simpl in Hf; lia|].
      apply (readsv_z2b f b token.ListEmpty); [reflexivity|]. dec_case. apply reads_ret.
    - by apply writeJID_roundtrips.
    - apply writeString_roundtrips. by destruct b.
    - apply Z.ltb_lt in He. destruct (writeBytes_ok _ He) as [bs Hbs]. exists bs.
      split; [exact Hbs|]. intros f a Hf. destruct f as [|f]; [|by apply readsv_raw].
      destruct bs; [|simpl in Hf; lia].
      destruct (readsv_nil 1 a _ (readsv_raw 0 a _ _ Hbs)).
    - discriminate. }
  assert (Hnodes : forall l, Forall (fun n => encodable_node n = true -> node_roundtrips n) l ->
    encodable (ANodes l) = true -> roundtrips (write (ANodes l)) (fun b => norm b (ANodes l))).
  { intros l Hl [Hlen%Z.ltb_lt He]%andb_true_iff. apply nodes_roundtrip; [exact Hlen|].
    rewrite forallb_forall in He. rewrite List.Forall_forall in Hl |- *.
    intros n Hn. by apply Hl, He. }
  assert (Hnode : forall t a c,
    Forall (fun kv => encodable (snd kv) = true -> roundtrips (write (snd kv)) (fun b => norm b (snd kv))) a ->
    (encodable c = true -> roundtrips (write c) (fun b => norm b c)) ->
    encodable_node (mkNode t a c) = true -> node_roundtrips (mkNode t a c)).
  { intros t a c Ha Hc He. cbn [encodable_node] in He.
    rewrite !andb_true_iff, !negb_true_iff, Z.ltb_lt, bool_decide_eq_true in He.
    destruct He as ((((((H0 & H1) & H2) & H3) & H4) & H5) & H6).
    apply node_roundtrip; auto. rewrite forallb_forall in H5.
    rewrite List.Forall_forall in Ha |- *. intros kv Hkv.
    apply H5 in Hkv as Hk. apply andb_true_iff in Hk as [Hk Hv]. split; [exact Hk|]. right.
    by apply Ha. }
  split; [exact (any_ind' _ _ Hleaf Hnodes Hnode)|exact (node_ind' _ _ Hleaf Hnodes Hnode)].
Qed.

(** ** The codec theorems *)

(** (C1) Decoding an encoded element gives its wire normal form: every element
    that respects the format's bounds is encoded without a panic, the bytes
    behind the leading zero are decoded completely, and what comes out is the
    same tree with absent attributes dropped, numbers and booleans as their
    text, and identifiers cut to what the wire carries. *)
Theorem Unmarshal_Marshal n :
  encodable_node n = true ->
  exists bs, Marshal n = Ok (z2b 0 :: bs) /\ Unmarshal bs = Ok (norm_node n).
Proof.
  intros He. destruct (proj2 encodable_roundtrips n He) as (bs & Hbs & Hr).
  exists bs. split.
  - unfold Marshal. rewrite Hbs. reflexivity.
  - unfold Unmarshal, newDecoder. specialize (Hr (S (length bs)) ltac:(lia) [] []).
    cbn [app] in Hr. rewrite app_nil_r, blen_nil in Hr. rewrite Hr.
    cbn [mbind outcome_bind index data]. by rewrite Z.add_0_l, Z.eqb_refl.
Qed.

Definition sample_node : Node :=
  mkNode "iq"
    [("id", AString "12.34-5"); ("to", AJID (mkJID "1234567" 0 3 0 DefaultUserServer));
     ("count", AInt64 42); ("gone", ANil)]
    (ANodes [mkNode "ping" [] ANil; mkNode "x-unknown" [("k", AString "ABCDEF0")] (ABytes [x01; xff])]).

Lemma Unmarshal_Marshal_witness :
  exists bs, Marshal sample_node = Ok (z2b 0 :: bs) /\ Unmarshal bs = Ok (norm_node sample_node).
Proof. apply (Unmarshal_Marshal sample_node). vm_compute. reflexivity. Defined.

Example sample_bytes :
  (match Marshal sample_node with Ok (_ :: bs) => Unmarshal bs | _ => NoFuel end)
  = Ok (norm_node sample_node).
Proof. vm_compute. reflexivity. Qed.

End wire.
