(* ===== verification/Cbc.v ===== *)
(** * util/cbcutil/cbc.go: AES in CBC mode with PKCS#7-style padding

    The AES block permutation is a parameter (Go's [crypto/aes]); the CBC
    chaining of [crypto/cipher] is modelled, with its chaining value carried
    from one [CryptBlocks] call to the next.  [Encrypt]/[Decrypt] work on whole
    slices, [EncryptStream] and [DecryptFile] on 32 KiB buffers; the theorems
    say that they agree and that decryption undoes encryption. *)

From S2P Require Import Prelude.

#[local] Open Scope Z_scope.

Module cbcutil.

Definition BlockSize := 16.

Inductive cbc_error :=
  | KeySizeError (n : Z)
  | ErrNotMultiple (n : Z)       (* "ciphertext isn't a multiple of block size" *)
  | ErrPadding (padLen n : Z)    (* "padding is greater then the length" *)
  | ErrRand
  | ErrShortRead.

(** [aes.NewCipher] accepts keys of 16, 24 or 32 bytes. *)
Definition NewCipher (key : bytes) : outcome cbc_error unit :=
  let n := blen key in
  if (n =? 16) || (n =? 24) || (n =? 32) then Ok tt else Err (KeySizeError n).

Definition xor_bytes (a b : bytes) : bytes :=
  zip_with (fun x y => z2b (Z.lxor (b2z x) (b2z y))) a b.

Section aes.
(** The block permutation under a key, and its inverse. *)
Context (aes_enc aes_dec : bytes -> bytes -> bytes).

(** ** [crypto/cipher]'s CBC mode: [n] blocks, and the chaining value after them *)

Fixpoint cbc_encrypt (key : bytes) (n : nat) (iv src : bytes) : bytes * bytes :=
  match n with
  | O => ([], iv)
  | S n' =>
      let c := aes_enc key (xor_bytes (take 16 src) iv) in
      let '(out, iv') := cbc_encrypt key n' c (drop 16 src) in
      (c ++ out, iv')
  end.

Fixpoint cbc_decrypt (key : bytes) (n : nat) (iv src : bytes) : bytes * bytes :=
  match n with
  | O => ([], iv)
  | S n' =>
      let p := xor_bytes (aes_dec key (take 16 src)) iv in
      let '(out, iv') := cbc_decrypt key n' (take 16 src) (drop 16 src) in
      (p ++ out, iv')
  end.

(** [CryptBlocks(dst, src)] panics on a partial block; [NewCBCEncrypter] and
    [NewCBCDecrypter] on an IV that is not one block. *)
Definition CryptBlocks (crypt : nat -> bytes -> bytes -> bytes * bytes) (iv src : bytes) :
    outcome cbc_error (bytes * bytes) :=
  if negb (blen src mod BlockSize =? 0) then Panic
  else Ok (crypt (Z.to_nat (blen src / BlockSize)) iv src).

Definition NewCBC (iv : bytes) : outcome cbc_error unit :=
  if negb (blen iv =? BlockSize) then Panic else Ok tt.

(** ** Whole slices *)

Definition unpad (src : bytes) : outcome cbc_error bytes :=
  match zget src (blen src - 1) with
  | None => Panic
  | Some b =>
      let padLen := b2z b in
      if blen src <? padLen then Err (ErrPadding padLen (blen src))
      else Ok (ztake (blen src - padLen) src)
  end.

Definition Decrypt (key iv ciphertext : bytes) : outcome cbc_error bytes :=
  _ ← NewCipher key;
  if (blen ciphertext =? 0) || negb (blen ciphertext mod BlockSize =? 0) then
    Err (ErrNotMultiple (blen ciphertext))
  else
    _ ← NewCBC iv;
    '(plain, _) ← CryptBlocks (cbc_decrypt key) iv ciphertext;
    unpad plain.

(** [iv = None] is a nil IV: one is drawn from [rand.Reader], whose outcome is
    [rand_iv], and put in front of the ciphertext. *)
Definition Encrypt (rand_iv : option bytes) (key : bytes) (iv : option bytes) (plaintext : bytes) :
    outcome cbc_error bytes :=
  let sizeOfLastBlock := blen plaintext mod BlockSize in
  let paddingLen := BlockSize - sizeOfLastBlock in
  let plaintextStart := ztake (blen plaintext - sizeOfLastBlock) plaintext in
  let lastBlock := zdrop (blen plaintext - sizeOfLastBlock) plaintext
                   ++ replicate (Z.to_nat paddingLen) (z2b paddingLen) in
  if negb (blen plaintextStart mod BlockSize =? 0) then Panic
  else if negb (blen lastBlock =? BlockSize) then Panic
  else
    _ ← NewCipher key;
    let encrypt_with iv :=
      _ ← NewCBC iv;
      '(c1, iv') ← CryptBlocks (cbc_encrypt key) iv plaintextStart;
      '(c2, _) ← CryptBlocks (cbc_encrypt key) iv' lastBlock;
      mret (c1 ++ c2) in
    match iv with
    | Some iv => encrypt_with iv
    | None =>
        match rand_iv with
        | None => Err ErrRand
        | Some r => c ← encrypt_with r; mret (r ++ c)
        end
    end.

(** ** Streams and files *)

Definition bufSize := 32 * 1024.

Section stream.
(** SHA-256, HMAC-SHA-256 under a key, of Go's standard library. *)
Context (sha256 : bytes -> bytes) (hmac_sha256 : bytes -> bytes -> bytes).

(** The loop of [EncryptStream]: [buf] is the buffer's length, [input] what the
    reader still holds, [iv] the chaining value, [plain] and [out] what the
    hashers and the writer have been given so far.  It returns (plain, out,
    size, padding). *)
Fixpoint encrypt_loop (fuel : nat) (bufLen : Z) (key iv input plain out : bytes) (size : Z) :
    outcome cbc_error (bytes * bytes * Z * Z) :=
  match fuel with
  | O => NoFuel
  | S fuel' =>
      let buf := ztake bufLen input in     (* io.ReadFull *)
      let n := blen buf in
      let size := size + n in
      if n <? bufLen then
        let padding := BlockSize - size mod BlockSize in
        let buf' := buf ++ replicate (Z.to_nat padding) (z2b padding) in
        '(c, _) ← CryptBlocks (cbc_encrypt key) iv buf';
        Ok (plain ++ buf, out ++ c, size, padding)
      else
        '(c, iv') ← CryptBlocks (cbc_encrypt key) iv buf;
        encrypt_loop fuel' bufLen key iv' (zdrop bufLen input) (plain ++ buf) (out ++ c) size
  end.

Definition stream_fuel (input : bytes) : nat := S (length input).

Record stream_result := mkStream {
  written : bytes;          (* everything given to the writer *)
  plain_hash : bytes;
  cipher_hash : bytes;
  plain_size : Z;
  total_size : Z
}.

Definition EncryptStream (key iv macKey plaintext : bytes) : outcome cbc_error stream_result :=
  _ ← NewCipher key;
  _ ← NewCBC iv;
  '(plain, out, size, padding) ← encrypt_loop (stream_fuel plaintext) bufSize key iv plaintext [] [] 0;
  let mac := take 10 (hmac_sha256 macKey (iv ++ out)) in
  Ok (mkStream (out ++ mac) (sha256 plain) (sha256 (out ++ mac)) size (size + (padding + 10))).

End stream.

(** The loop of [DecryptFile] over the file's contents: [input] is what has
    not been read, [out] what has been written back, [buf] the buffer's size. *)
Fixpoint decrypt_loop (fuel : nat) (key iv input out : bytes) (fileSize buf : Z) (lastByte : Z) :
    outcome cbc_error (bytes * Z) :=
  match fuel with
  | O => NoFuel
  | S fuel' =>
      if negb (blen out <? fileSize) then Ok (out, lastByte)
      else
        let buf := if fileSize <? blen out + buf then fileSize - blen out else buf in
        if blen input <? buf then Err ErrShortRead
        else
          '(p, iv') ← CryptBlocks (cbc_decrypt key) iv (ztake buf input);
          lastByte' ← or_panic (zget p (buf - 1));
          decrypt_loop fuel' key iv' (zdrop buf input) (out ++ p) fileSize buf (b2z lastByte')
  end.

(** The contents of the file after [DecryptFile]. *)
Definition DecryptFile (key iv file : bytes) : outcome cbc_error bytes :=
  _ ← NewCipher key;
  _ ← NewCBC iv;
  let fileSize := blen file in
  if negb (fileSize mod BlockSize =? 0) then Err (ErrNotMultiple fileSize)
  else
    let buf := if fileSize <? bufSize then fileSize else bufSize in
    '(out, lastByte) ← decrypt_loop (S (length file)) key iv file [] fileSize buf 0;
    if fileSize <? lastByte then Err (ErrPadding lastByte fileSize)
    else Ok (ztake (fileSize - lastByte) out).

(** ** Laws of the block permutation *)

Class AesLaws : Prop := {
  aes_enc_length key b : length (aes_enc key b) = 16%nat;
  aes_dec_length key b : length (aes_dec key b) = 16%nat;
  aes_dec_enc key b : length b = 16%nat -> aes_dec key (aes_enc key b) = b
}.

End aes.

Arguments AesLaws : clear implicits.

(** ** Chaining lemmas *)

Section laws.
Context (aes_enc aes_dec : bytes -> bytes -> bytes) {Haes : AesLaws aes_enc aes_dec}.

Lemma enc_length key b : length (aes_enc key b) = 16%nat.
Proof. by destruct Haes. Qed.
Lemma dec_length key b : length (aes_dec key b) = 16%nat.
Proof. by destruct Haes. Qed.
Lemma dec_enc key b : length b = 16%nat -> aes_dec key (aes_enc key b) = b.
Proof. destruct Haes. auto. Qed.

Lemma length_xor a b : length a = 16%nat -> length b = 16%nat -> length (xor_bytes a b) = 16%nat.
Proof. intros Ha Hb. unfold xor_bytes. rewrite length_zip_with. lia. Qed.

Lemma b2z_lxor x y : b2z (z2b (Z.lxor (b2z x) (b2z y))) = Z.lxor (b2z x) (b2z y).
Proof.
  apply b2z_z2b_small. pose proof (b2z_range x). pose proof (b2z_range y). split.
  - apply Z.lxor_nonneg. lia.
  - destruct (decide (Z.lxor (b2z x) (b2z y) = 0)) as [->|Hne]; [lia|].
    apply (Z.log2_lt_pow2 _ 8).
    + assert (0 <= Z.lxor (b2z x) (b2z y)) by (apply Z.lxor_nonneg; lia). lia.
    + eapply Z.le_lt_trans; [apply Z.log2_lxor; lia|].
      apply Z.max_lub_lt.
      * destruct (decide (b2z x = 0)) as [->|]; [simpl; lia|]. apply Z.log2_lt_pow2; lia.
      * destruct (decide (b2z y = 0)) as [->|]; [simpl; lia|]. apply Z.log2_lt_pow2; lia.
Qed.

Lemma xor_involutive a b : length a = length b -> xor_bytes (xor_bytes a b) b = a.
Proof.
  revert b. induction a as [|x a IH]; intros [|y b]; intros [=]; [done|].
  cbn [xor_bytes zip_with]. f_equal; [|by apply IH].
  rewrite b2z_lxor, Z.lxor_assoc, Z.lxor_nilpotent, Z.lxor_0_r. apply z2b_b2z.
Qed.

Lemma length_cbc_encrypt key n iv src :
  length (fst (cbc_encrypt aes_enc key n iv src)) = (16 * n)%nat.
Proof.
  revert iv src. induction n as [|n IH]; intros iv src; [done|]. cbn [cbc_encrypt].
  specialize (IH (aes_enc key (xor_bytes (take 16 src) iv)) (drop 16 src)).
  destruct (cbc_encrypt _ _ _ _ _) as [out iv']. cbn [fst] in *.
  rewrite length_app, enc_length. lia.
Qed.

Lemma length_cbc_iv key n iv src :
  length iv = 16%nat -> length (snd (cbc_encrypt aes_enc key n iv src)) = 16%nat.
Proof.
  revert iv src. induction n as [|n IH]; intros iv src Hiv; [done|]. cbn [cbc_encrypt].
  specialize (IH (aes_enc key (xor_bytes (take 16 src) iv)) (drop 16 src)).
  destruct (cbc_encrypt _ _ _ _ _) as [out iv']. apply IH. apply enc_length.
Qed.

(** Decrypting the ciphertext of [n] blocks gives the blocks back and ends on
    the same chaining value. *)
Lemma cbc_decrypt_encrypt key n : forall iv src,
  length iv = 16%nat -> length src = (16 * n)%nat ->
  cbc_decrypt aes_dec key n iv (fst (cbc_encrypt aes_enc key n iv src))
  = (src, snd (cbc_encrypt aes_enc key n iv src)).
Proof.
  induction n as [|n IH]; intros iv src Hiv Hsrc.
  { by destruct src. }
  cbn [cbc_encrypt cbc_decrypt].
  assert (H16 : length (take 16 src) = 16%nat) by (rewrite length_take; lia).
  set (c := aes_enc key (xor_bytes (take 16 src) iv)).
  assert (Hc : length c = 16%nat) by (apply enc_length).
  specialize (IH c (drop 16 src) Hc ltac:(rewrite length_drop; lia)).
  destruct (cbc_encrypt aes_enc key n c (drop 16 src)) as [out iv'] eqn:E. cbn [fst snd] in *.
  rewrite take_app_length', drop_app_length' by done. rewrite IH.
  subst c. rewrite dec_enc by (by apply length_xor).
  rewrite xor_involutive by lia. by rewrite take_drop.
Qed.

Lemma cbc_encrypt_app key n m iv a b :
  length a = (16 * n)%nat ->
  cbc_encrypt aes_enc key (n + m) iv (a ++ b) =
  (let '(c1, iv1) := cbc_encrypt aes_enc key n iv a in
   let '(c2, iv2) := cbc_encrypt aes_enc key m iv1 b in (c1 ++ c2, iv2)).
Proof.
  revert iv a. induction n as [|n IH]; intros iv a Ha.
  { destruct a; [|done]. cbn. by destruct (cbc_encrypt _ _ _ _ _). }
  cbn [cbc_encrypt Nat.add]. rewrite take_app_le, drop_app_le by lia.
  rewrite IH by (rewrite length_drop; lia).
  destruct (cbc_encrypt _ _ n _ _) as [c1 iv1], (cbc_encrypt _ _ m _ _) as [c2 iv2].
  by rewrite app_assoc.
Qed.

Lemma cbc_decrypt_app key n m iv a b :
  length a = (16 * n)%nat ->
  cbc_decrypt aes_dec key (n + m) iv (a ++ b) =
  (let '(c1, iv1) := cbc_decrypt aes_dec key n iv a in
   let '(c2, iv2) := cbc_decrypt aes_dec key m iv1 b in (c1 ++ c2, iv2)).
Proof.
  revert iv a. induction n as [|n IH]; intros iv a Ha.
  { destruct a; [|done]. cbn. by destruct (cbc_decrypt _ _ _ _ _). }
  cbn [cbc_decrypt Nat.add]. rewrite take_app_le, drop_app_le by lia.
  rewrite IH by (rewrite length_drop; lia).
  destruct (cbc_decrypt _ _ n _ _) as [c1 iv1], (cbc_decrypt _ _ m _ _) as [c2 iv2].
  by rewrite app_assoc.
Qed.

(** ** The padded plaintext and the shape of the results *)

Definition pad (p : bytes) : bytes :=
  let padding := BlockSize - blen p mod BlockSize in
  p ++ replicate (Z.to_nat padding) (z2b padding).

Definition blocks (p : bytes) : nat := Z.to_nat (blen p / BlockSize).

Lemma padding_range n : 1 <= BlockSize - n mod BlockSize <= 16.
Proof. unfold BlockSize. pose proof (Z.mod_pos_bound n 16). lia. Qed.

Lemma blen_pad p : blen (pad p) = 16 * (blen p / 16 + 1).
Proof.
  unfold pad. rewrite blen_app. unfold blen at 2. rewrite length_replicate.
  pose proof (padding_range (blen p)). rewrite Z2Nat.id by lia. unfold BlockSize.
  Z.div_mod_to_equations. lia.
Qed.

Lemma length_blocks p : blen p mod BlockSize = 0 -> length p = (16 * blocks p)%nat.
Proof.
  intros H. unfold blocks, BlockSize, blen in *. Z.div_mod_to_equations. lia.
Qed.

Lemma pad_mod p : blen (pad p) mod BlockSize = 0.
Proof. rewrite blen_pad, Z.mul_comm. apply Z_mod_mult. Qed.

Lemma CryptBlocks_ok crypt iv src :
  blen src mod BlockSize = 0 -> CryptBlocks crypt iv src = Ok (crypt (blocks src) iv src).
Proof. intros H. unfold CryptBlocks. by rewrite H. Qed.

Lemma NewCBC_ok iv : blen iv = BlockSize -> NewCBC iv = Ok tt.
Proof. intros H. unfold NewCBC. by rewrite H. Qed.

Lemma blocks_app a b : blen a mod BlockSize = 0 -> blocks (a ++ b) = (blocks a + blocks b)%nat.
Proof.
  intros H. unfold blocks. rewrite blen_app. pose proof (blen_nonneg a). pose proof (blen_nonneg b).
  unfold BlockSize in *. rewrite <- Z2Nat.inj_add by (apply Z.div_pos; lia).
  f_equal. Z.div_mod_to_equations. lia.
Qed.

(** Encrypting a prefix of whole blocks and then the rest is encrypting all. *)
Lemma encrypt_prefix key iv a b :
  blen a mod BlockSize = 0 ->
  cbc_encrypt aes_enc key (blocks (a ++ b)) iv (a ++ b) =
  (let '(c1, iv1) := cbc_encrypt aes_enc key (blocks a) iv a in
   let '(c2, iv2) := cbc_encrypt aes_enc key (blocks b) iv1 b in (c1 ++ c2, iv2)).
Proof. intros H. rewrite blocks_app by done. apply cbc_encrypt_app. by apply length_blocks. Qed.

Lemma decrypt_prefix key iv a b :
  blen a mod BlockSize = 0 ->
  cbc_decrypt aes_dec key (blocks (a ++ b)) iv (a ++ b) =
  (let '(c1, iv1) := cbc_decrypt aes_dec key (blocks a) iv a in
   let '(c2, iv2) := cbc_decrypt aes_dec key (blocks b) iv1 b in (c1 ++ c2, iv2)).
Proof. intros H. rewrite blocks_app by done. apply cbc_decrypt_app. by apply length_blocks. Qed.

Definition cipher (key iv p : bytes) : bytes := fst (cbc_encrypt aes_enc key (blocks (pad p)) iv (pad p)).

Lemma zdrop_ztake {A} (k : Z) (l : list A) : ztake k l ++ zdrop k l = l.
Proof. apply take_drop. Qed.

Lemma Encrypt_shape rnd key iv p :
  NewCipher key = Ok tt -> blen iv = BlockSize ->
  Encrypt aes_enc rnd key (Some iv) p = Ok (cipher key iv p) /\
  (forall r, blen r = BlockSize ->
     Encrypt aes_enc (Some r) key None p = Ok (r ++ cipher key r p)).
Proof.
  intros Hkey Hiv. unfold Encrypt. pose proof (blen_nonneg p).
  set (k := blen p - blen p mod BlockSize).
  assert (Hk : 0 <= k <= blen p /\ k mod BlockSize = 0).
  { subst k. unfold BlockSize. Z.div_mod_to_equations. lia. }
  assert (Hstart : blen (ztake k p) mod BlockSize = 0) by (rewrite length_ztake; tauto).
  set (padding := BlockSize - blen p mod BlockSize).
  set (last := zdrop k p ++ replicate (Z.to_nat padding) (z2b padding)).
  assert (Hall : pad p = ztake k p ++ last).
  { unfold pad, last. fold padding. by rewrite app_assoc, zdrop_ztake. }
  assert (Hlast : blen last = BlockSize).
  { pose proof (f_equal blen Hall) as Hb. rewrite blen_pad, blen_app, length_ztake in Hb by tauto.
    subst k. unfold BlockSize in *. Z.div_mod_to_equations. lia. }
  rewrite Hstart, Hlast. cbn [negb Z.eqb BlockSize Pos.eqb]. rewrite Hkey. cbn [mbind outcome_bind].
  assert (Hlm : blen last mod BlockSize = 0) by (by rewrite Hlast).
  assert (Hgo : forall v, blen v = BlockSize ->
    (_ ← NewCBC v;
     '(c1, iv') ← CryptBlocks (cbc_encrypt aes_enc key) v (ztake k p);
     '(c2, _) ← CryptBlocks (cbc_encrypt aes_enc key) iv' last; mret (c1 ++ c2))
    = Ok (cipher key v p)).
  { intros v Hv. rewrite NewCBC_ok, CryptBlocks_ok by done. cbn [mbind outcome_bind].
    unfold cipher. rewrite Hall, encrypt_prefix by done.
    destruct (cbc_encrypt aes_enc key (blocks (ztake k p)) v (ztake k p)) as [c1 iv1].
    rewrite CryptBlocks_ok by done. cbn [mbind outcome_bind].
    by destruct (cbc_encrypt aes_enc key (blocks last) iv1 last). }
  split; [by apply Hgo|]. intros r Hr. by rewrite Hgo.
Qed.

Lemma unpad_pad p : unpad (pad p) = Ok p.
Proof.
  unfold unpad. pose proof (padding_range (blen p)) as Hr.
  set (padding := BlockSize - blen p mod BlockSize) in *.
  assert (Hlen : blen (pad p) = blen p + padding).
  { unfold pad. fold padding. rewrite blen_app. unfold blen at 2. rewrite length_replicate. lia. }
  assert (Hg : zget (pad p) (blen (pad p) - 1) = Some (z2b padding)).
  { rewrite Hlen. replace (blen p + padding - 1) with (blen p + (padding - 1)) by lia.
    unfold pad. fold padding. rewrite zget_app_r by lia. unfold zget.
    destruct (Z.ltb_spec (padding - 1) 0); [lia|]. apply lookup_replicate. split; [done|lia]. }
  rewrite Hg, b2z_z2b_small by lia. pose proof (blen_nonneg p).
  rewrite Hlen, (proj2 (Z.ltb_ge (blen p + padding) padding)) by lia.
  replace (blen p + padding - padding) with (blen p) by lia.
  unfold pad. by rewrite ztake_app.
Qed.

Lemma Decrypt_cipher key iv p :
  NewCipher key = Ok tt -> blen iv = BlockSize -> Decrypt aes_dec key iv (cipher key iv p) = Ok p.
Proof.
  intros Hkey Hiv.
  assert (Hpm : length (pad p) = (16 * blocks (pad p))%nat) by apply length_blocks, pad_mod.
  assert (Hcl : blen (cipher key iv p) = blen (pad p)).
  { unfold cipher, blen at 1. rewrite length_cbc_encrypt. unfold blen. lia. }
  unfold Decrypt. rewrite Hkey, Hcl, pad_mod. cbn [mbind outcome_bind].
  rewrite (proj2 (Z.eqb_neq (blen (pad p)) 0))
    by (rewrite blen_pad; pose proof (blen_nonneg p); Z.div_mod_to_equations; lia).
  cbn [orb negb Z.eqb]. rewrite NewCBC_ok by done. cbn [mbind outcome_bind].
  rewrite CryptBlocks_ok by (by rewrite Hcl, pad_mod).
  replace (blocks (cipher key iv p)) with (blocks (pad p)) by (unfold blocks; by rewrite Hcl).
  unfold cipher. rewrite cbc_decrypt_encrypt by (done || (unfold blen, BlockSize in Hiv; lia)).
  apply unpad_pad.
Qed.

(** What [Encrypt] with a drawn IV returns can be split and decrypted. *)
Lemma Encrypt_nil_iv rnd key p c :
  Encrypt aes_enc rnd key None p = Ok c ->
  exists iv c', c = iv ++ c' /\ blen iv = BlockSize /\ Decrypt aes_dec key iv c' = Ok p.
Proof.
  intros H. assert (Hkey : NewCipher key = Ok tt).
  { unfold Encrypt in H. destruct (negb _); [done|]. destruct (negb _); [done|].
    by apply bind_inv in H as ([] & Hk & _). }
  destruct rnd as [iv|].
  2:{ unfold Encrypt in H. destruct (negb _); [done|]. destruct (negb _); [done|].
      apply bind_inv in H as (? & _ & H). done. }
  assert (Hiv : blen iv = BlockSize).
  { unfold Encrypt in H. destruct (negb _); [done|]. destruct (negb _); [done|].
    apply bind_inv in H as (? & _ & H). apply bind_inv in H as (? & H & _).
    apply bind_inv in H as (? & H & _). unfold NewCBC in H.
    destruct (Z.eqb_spec (blen iv) BlockSize); [done|done]. }
  destruct (Encrypt_shape (Some iv) key iv p Hkey Hiv) as [_ H2].
  rewrite H2 in H by done. injection H as <-.
  exists iv, (cipher key iv p). split_and!; [done|done|]. by apply Decrypt_cipher.
Qed.

(** Decryption undoes encryption: for every plaintext, valid key and
    one-block IV, [Encrypt] succeeds and [Decrypt] with the same IV returns the
    plaintext; with a nil IV the drawn IV stands in front of the ciphertext it
    was used for. *)
Theorem Decrypt_Encrypt rnd key iv p :
  NewCipher key = Ok tt -> blen iv = BlockSize ->
  exists c,
    Encrypt aes_enc rnd key (Some iv) p = Ok c /\
    Encrypt aes_enc (Some iv) key None p = Ok (iv ++ c) /\
    Decrypt aes_dec key iv c = Ok p.
Proof.
  intros Hkey Hiv. exists (cipher key iv p).
  destruct (Encrypt_shape rnd key iv p Hkey Hiv) as [H1 H2].
  split_and!; [done|by apply H2|by apply Decrypt_cipher].
Qed.

(** ** The streaming loops *)

Lemma encrypt_loop_ok bufLen key fuel : 0 < bufLen -> bufLen mod BlockSize = 0 ->
  forall iv input plain out size,
  (length input < fuel)%nat -> size mod BlockSize = 0 ->
  encrypt_loop aes_enc fuel bufLen key iv input plain out size =
  Ok (plain ++ input, out ++ cipher key iv input, size + blen input,
      BlockSize - blen input mod BlockSize).
Proof.
  intros Hb0 Hbm. induction fuel as [|fuel IH]; intros iv input plain out size Hf Hs; [lia|].
  cbn [encrypt_loop]. pose proof (blen_nonneg input).
  destruct (decide (blen input < bufLen)) as [Hlt|Hge].
  - assert (ztake bufLen input = input) as Hall by (apply take_ge; unfold blen in *; lia).
    rewrite Hall, (proj2 (Z.ltb_lt _ _)) by exact Hlt.
    assert ((size + blen input) mod BlockSize = blen input mod BlockSize) as ->.
    { rewrite Z.add_mod, Hs, Z.add_0_l, Z.mod_mod by done. done. }
    fold (pad input). rewrite CryptBlocks_ok by apply pad_mod. cbn [mbind outcome_bind].
    unfold cipher. by destruct (cbc_encrypt _ _ _ _ _).
  - assert (blen (ztake bufLen input) = bufLen) as Hb by (apply length_ztake; lia).
    rewrite Hb, (proj2 (Z.ltb_ge _ _)) by lia.
    rewrite CryptBlocks_ok by (by rewrite Hb). cbn [mbind outcome_bind].
    destruct (cbc_encrypt _ _ _ _ _) as [c iv'] eqn:Ec.
    assert (Hd : blen (zdrop bufLen input) = blen input - bufLen) by (apply length_zdrop; lia).
    assert (Hm : (blen input - bufLen) mod BlockSize = blen input mod BlockSize).
    { unfold BlockSize in *. Z.div_mod_to_equations. lia. }
    rewrite IH; [|unfold blen in *; lia|unfold BlockSize in *; Z.div_mod_to_equations; lia].
    rewrite <- !app_assoc, zdrop_ztake, Hd, Hm.
    assert (Hc : c ++ cipher key iv' (zdrop bufLen input) = cipher key iv input).
    { unfold cipher. assert (pad input = ztake bufLen input ++ pad (zdrop bufLen input)) as ->.
      { unfold pad. by rewrite app_assoc, zdrop_ztake, Hd, Hm. }
      rewrite encrypt_prefix by (by rewrite Hb). rewrite Ec.
      by destruct (cbc_encrypt _ _ _ iv' _). }
    rewrite Hc. do 2 f_equal. f_equal. lia.
Qed.

(** Streaming encryption is whole-slice encryption: [EncryptStream] writes
    exactly what [Encrypt] returns followed by the first ten bytes of the MAC of
    IV and ciphertext, and reports the hashes and sizes of plaintext and of
    everything written. *)
Theorem EncryptStream_Encrypt sha256 hmac rnd key iv macKey p c :
  blen iv = BlockSize -> Encrypt aes_enc rnd key (Some iv) p = Ok c ->
  EncryptStream aes_enc sha256 hmac key iv macKey p =
  Ok (mkStream (c ++ take 10 (hmac macKey (iv ++ c))) (sha256 p)
        (sha256 (c ++ take 10 (hmac macKey (iv ++ c)))) (blen p) (blen c + 10)).
Proof.
  intros Hiv Henc.
  assert (Hkey : NewCipher key = Ok tt).
  { unfold Encrypt in Henc. destruct (negb _); [done|]. destruct (negb _); [done|].
    unfold NewCipher in *. by destruct (_ || _). }
  destruct (Encrypt_shape rnd key iv p Hkey Hiv) as [H1 _]. rewrite H1 in Henc. injection Henc as <-.
  assert (Hcl : blen (cipher key iv p) = blen p + (BlockSize - blen p mod BlockSize)).
  { unfold cipher, blen at 1. rewrite length_cbc_encrypt.
    pose proof (length_blocks _ (pad_mod p)) as Hl. rewrite <- Hl. fold (blen (pad p)).
    rewrite blen_pad. unfold BlockSize. Z.div_mod_to_equations. lia. }
  assert (Hloop : encrypt_loop aes_enc (stream_fuel p) bufSize key iv p [] [] 0 =
    Ok (p, cipher key iv p, blen p, BlockSize - blen p mod BlockSize)).
  { apply encrypt_loop_ok; [done|done|unfold stream_fuel; lia|done]. }
  unfold EncryptStream. rewrite Hkey, bind_Ok, NewCBC_ok, bind_Ok by exact Hiv.
  rewrite Hloop, bind_Ok. do 2 f_equal. lia.
Qed.

(** ** Decrypting a file in place *)

Definition plain_of (key iv c : bytes) : bytes := fst (cbc_decrypt aes_dec key (blocks c) iv c).

Lemma length_cbc_decrypt key n : forall iv src,
  length iv = 16%nat -> length src = (16 * n)%nat ->
  length (fst (cbc_decrypt aes_dec key n iv src)) = (16 * n)%nat /\
  length (snd (cbc_decrypt aes_dec key n iv src)) = 16%nat.
Proof.
  induction n as [|n IH]; intros iv src Hiv Hsrc; [done|]. cbn [cbc_decrypt].
  destruct (IH (take 16 src) (drop 16 src)) as [H1 H2];
    [rewrite length_take; lia|rewrite length_drop; lia|].
  destruct (cbc_decrypt _ _ _ _ _) as [out iv']. cbn [fst snd] in *.
  rewrite length_app, length_xor by (apply dec_length || done). lia.
Qed.

Lemma blen_plain key iv c :
  blen iv = BlockSize -> blen c mod BlockSize = 0 -> blen (plain_of key iv c) = blen c.
Proof.
  intros Hiv Hc. pose proof (length_blocks _ Hc) as Hl.
  destruct (length_cbc_decrypt key (blocks c) iv c) as [H1 _];
    [unfold blen, BlockSize in Hiv; lia|done|].
  unfold plain_of, blen in *. lia.
Qed.

Lemma zget_last {A} (l k : list A) n :
  n = blen k - 1 -> 0 <= n -> zget (l ++ k) (blen (l ++ k) - 1) = zget k n.
Proof.
  intros -> Hn. rewrite blen_app. replace (blen l + blen k - 1) with (blen l + (blen k - 1)) by lia.
  by apply zget_app_r.
Qed.

Lemma decrypt_loop_ok key fuel : forall iv input out buf last,
  (length input < fuel)%nat -> blen iv = BlockSize -> blen input mod BlockSize = 0 ->
  0 < buf -> buf mod BlockSize = 0 ->
  exists lb, decrypt_loop aes_dec fuel key iv input out (blen out + blen input) buf last =
    Ok (out ++ plain_of key iv input, lb) /\
    (if blen input =? 0 then lb = last
     else exists b, zget (plain_of key iv input) (blen input - 1) = Some b /\ lb = b2z b).
Proof.
  induction fuel as [|fuel IH]; intros iv input out buf last Hf Hiv Him Hb0 Hbm; [lia|].
  cbn [decrypt_loop]. pose proof (blen_nonneg input).
  destruct (Z.eqb_spec (blen input) 0) as [He|He].
  { assert (input = []) as -> by (destruct input; [done|rewrite blen_cons in He; pose proof (blen_nonneg input); lia]).
    rewrite blen_nil, Z.add_0_r, Z.ltb_irrefl. exists last. by rewrite app_nil_r. }
  rewrite (proj2 (Z.ltb_lt (blen out) _)) by lia. cbn [negb].
  set (buf' := if blen out + blen input <? blen out + buf then blen out + blen input - blen out else buf).
  assert (Hb' : 0 < buf' <= blen input /\ buf' mod BlockSize = 0).
  { subst buf'. destruct (Z.ltb_spec (blen out + blen input) (blen out + buf)); [|split; [lia|done]].
    replace (blen out + blen input - blen out) with (blen input) by lia. split; [lia|done]. }
  destruct Hb' as [Hb'1 Hb'2]. clearbody buf'.
  rewrite (proj2 (Z.ltb_ge (blen input) buf')) by lia.
  set (head := ztake buf' input). set (tail := zdrop buf' input).
  assert (Hhd : blen head = buf') by (apply length_ztake; lia).
  assert (Htl : blen tail = blen input - buf') by (apply length_zdrop; lia).
  assert (Hin : input = head ++ tail) by (symmetry; apply zdrop_ztake).
  assert (Hhm : blen head mod BlockSize = 0) by (by rewrite Hhd).
  rewrite CryptBlocks_ok, bind_Ok by exact Hhm.
  pose proof (blen_plain key iv head Hiv Hhm) as Hlp.
  destruct (length_cbc_decrypt key (blocks head) iv head) as [_ Hiv'];
    [unfold blen, BlockSize in Hiv; lia|by apply length_blocks|].
  assert (Hplain : plain_of key iv input = plain_of key iv head ++
    plain_of key (snd (cbc_decrypt aes_dec key (blocks head) iv head)) tail).
  { unfold plain_of. rewrite Hin, decrypt_prefix by exact Hhm.
    destruct (cbc_decrypt aes_dec key (blocks head) iv head) as [c1 iv1]. cbn [fst snd].
    by destruct (cbc_decrypt aes_dec key (blocks tail) iv1 tail). }
  unfold plain_of in Hlp, Hplain.
  destruct (cbc_decrypt aes_dec key (blocks head) iv head) as [p iv1]. cbn [fst snd] in *.
  destruct (zget p (buf' - 1)) as [b|] eqn:Hg; cycle 1.
  { exfalso. unfold zget in Hg. destruct (Z.ltb_spec (buf' - 1) 0); [lia|].
    apply lookup_ge_None in Hg. unfold blen in *. lia. }
  cbn [or_panic]. rewrite bind_Ok.
  destruct (IH iv1 tail (out ++ p) buf' (b2z b)) as (lb & Hloop & Hlb).
  { unfold blen in *. lia. }
  { unfold blen, BlockSize. lia. }
  { rewrite Htl. unfold BlockSize in *. Z.div_mod_to_equations. lia. }
  { lia. }
  { done. }
  replace (blen out + blen input) with (blen (out ++ p) + blen tail) by (rewrite blen_app; lia).
  exists lb. split.
  { rewrite Hloop. unfold plain_of. rewrite Hplain. by rewrite app_assoc. }
  fold (plain_of key iv input) in Hplain |- *. rewrite Hplain.
  destruct (Z.eqb_spec (blen tail) 0) as [Ht|Ht].
  - exists b. split; [|done]. fold (plain_of key iv1 tail).
    assert (tail = []) as -> by (destruct tail; [done|rewrite blen_cons in Ht; pose proof (blen_nonneg tail); lia]).
    rewrite app_nil_r. replace (blen input) with buf' by (rewrite blen_nil in Htl; lia). done.
  - destruct Hlb as (b' & Hb' & ->). exists b'. split; [|done].
    pose proof (blen_nonneg tail). fold (plain_of key iv1 tail).
    rewrite <- (zget_last p (plain_of key iv1 tail)) in Hb'.
    + rewrite <- Hb'. f_equal. rewrite blen_app.
      rewrite (blen_plain key iv1 tail); [lia|unfold blen, BlockSize; lia|].
      rewrite Htl. unfold BlockSize in *. Z.div_mod_to_equations. lia.
    + rewrite (blen_plain key iv1 tail); [lia|unfold blen, BlockSize; lia|].
      rewrite Htl. unfold BlockSize in *. Z.div_mod_to_equations. lia.
    + lia.
Qed.

(** Decrypting a file in place, 32 KiB at a time, leaves what [Decrypt]
    returns for the whole contents, or fails with the same error; only on an
    empty file do they differ, which [DecryptFile] accepts and [Decrypt]
    refuses. *)
Theorem DecryptFile_Decrypt key iv file :
  blen iv = BlockSize ->
  DecryptFile aes_dec key iv file =
  match file, NewCipher key with
  | [], Ok _ => Ok []
  | _, _ => Decrypt aes_dec key iv file
  end.
Proof.
  intros Hiv. unfold DecryptFile, Decrypt.
  destruct (NewCipher key) as [[]|e| |] eqn:Hkey; [|by destruct file..].
  rewrite !bind_Ok, NewCBC_ok, bind_Ok by exact Hiv.
  destruct (Z.eqb_spec (blen file mod BlockSize) 0) as [Hm|Hm]; cbn [negb]; cycle 1.
  { destruct file; [done|]. by rewrite orb_true_r. }
  set (buf := if blen file <? bufSize then blen file else bufSize).
  destruct file as [|x file].
  { reflexivity. }
  set (f := x :: file) in *. assert (Hne : 0 < blen f) by (subst f; rewrite blen_cons; pose proof (blen_nonneg file); lia).
  rewrite (proj2 (Z.eqb_neq (blen f) 0)) by lia. cbn [orb].
  assert (Hbuf : 0 < buf /\ buf mod BlockSize = 0).
  { subst buf. destruct (_ <? _); split; done || lia. }
  clearbody buf.
  destruct (decrypt_loop_ok key (S (length f)) iv f [] buf 0) as (lb & Hloop & Hlb);
    [lia|done|done|tauto|tauto|].
  rewrite blen_nil, Z.add_0_l in Hloop. rewrite Hloop, bind_Ok.
  rewrite (proj2 (Z.eqb_neq (blen f) 0)) in Hlb by lia. destruct Hlb as (b & Hb & ->).
  rewrite CryptBlocks_ok, bind_Ok by exact Hm. pose proof (blen_plain key iv f Hiv Hm) as Hlp.
  unfold plain_of in Hb, Hlp |- *. cbn [app].
  destruct (cbc_decrypt aes_dec key (blocks f) iv f) as [p iv']. cbn [fst] in *.
  rewrite bind_Ok. unfold unpad. rewrite Hlp, Hb. reflexivity.
Qed.

End laws.

(** ** A concrete block permutation for the witnesses: adding the key's first byte *)

Definition toy_block (f : Z -> Z) (b : bytes) : bytes :=
  take 16 (map (fun x => z2b (f (b2z x))) b ++ replicate 16 x00).
Definition toy_enc (key b : bytes) : bytes := toy_block (fun x => x + 1) b.
Definition toy_dec (key b : bytes) : bytes := toy_block (fun x => x - 1) b.

#[export] Instance toy_laws : AesLaws toy_enc toy_dec.
Proof.
  assert (Hlen : forall f b, length (toy_block f b) = 16%nat).
  { intros f b. unfold toy_block. rewrite length_take, length_app, length_replicate. lia. }
  assert (Htake : forall f b, length b = 16%nat -> toy_block f b = map (fun x => z2b (f (b2z x))) b).
  { intros f b Hb. unfold toy_block. apply take_app_length'. by rewrite length_map. }
  split; intros; [apply Hlen|apply Hlen|].
  unfold toy_enc, toy_dec. rewrite Htake by apply Hlen. rewrite Htake by done.
  rewrite map_map. rewrite <- (map_id b) at 2. apply map_ext. intros x.
  apply b2z_inj. rewrite !b2z_z2b, Zminus_mod_idemp_l. pose proof (b2z_range x).
  replace (b2z x + 1 - 1) with (b2z x) by lia. by apply Z.mod_small.
Qed.

Definition toy_key : bytes := replicate 32 x05.
Definition toy_iv : bytes := replicate 16 x07.

Lemma Decrypt_Encrypt_witness :
  exists c, Encrypt toy_enc None toy_key (Some toy_iv) [x01; x02; x03] = Ok c /\
    Encrypt toy_enc (Some toy_iv) toy_key None [x01; x02; x03] = Ok (toy_iv ++ c) /\
    Decrypt toy_dec toy_key toy_iv c = Ok [x01; x02; x03].
Proof. apply (Decrypt_Encrypt toy_enc toy_dec None toy_key toy_iv); reflexivity. Defined.

Definition toy_cipher : bytes :=
  match Encrypt toy_enc None toy_key (Some toy_iv) [x01; x02; x03] with Ok c => c | _ => [] end.

Lemma EncryptStream_Encrypt_witness :
  EncryptStream toy_enc (fun b => b) (fun k b => k ++ b) toy_key toy_iv [x09] [x01; x02; x03] =
  Ok (mkStream (toy_cipher ++ take 10 ([x09] ++ toy_iv ++ toy_cipher)) [x01; x02; x03]
        (toy_cipher ++ take 10 ([x09] ++ toy_iv ++ toy_cipher)) 3 26).
Proof.
  apply (EncryptStream_Encrypt toy_enc toy_dec (fun b => b) (fun k b => k ++ b) None toy_key toy_iv
    [x09] [x01; x02; x03] toy_cipher); [reflexivity|vm_compute; reflexivity].
Defined.

Lemma DecryptFile_Decrypt_witness :
  DecryptFile toy_dec toy_key toy_iv toy_cipher = Decrypt toy_dec toy_key toy_iv toy_cipher.
Proof. apply (DecryptFile_Decrypt toy_enc toy_dec toy_key toy_iv toy_cipher). reflexivity. Defined.

End cbcutil.
