(* ===== verification/Crypto.v ===== *)
(** * Cryptographic primitives and their wrappers

    The primitives (Go's crypto packages, golang.org/x/crypto, libsignal) are
    the operations of the class [Crypto]; [CryptoLaws] states the documented
    facts the rest of the development uses. On top of them the repository's own
    wrappers: util/gcmutil/gcm.go, util/hkdfutil/hkdf.go, util/keys/keypair.go. *)

From S2P Require Import Prelude GoStrings Cbc.

#[local] Open Scope Z_scope.

(** The primitives: AES-GCM by key, nonce, text and associated data; SHA-256
    and the two HMACs; the bytes of an HKDF-SHA256 stream (secret, salt, info,
    position); X25519 with its refusal of low-order points; libsignal's
    XEdDSA signatures; AES's block permutation under a key. *)
Class Crypto := {
  gcm_seal : bytes -> bytes -> bytes -> bytes -> bytes;
  gcm_open : bytes -> bytes -> bytes -> bytes -> option bytes;
  sha256 : bytes -> bytes;
  hmac_sha256 : bytes -> bytes -> bytes;
  hmac_sha512 : bytes -> bytes -> bytes;
  hkdf_stream : bytes -> bytes -> bytes -> nat -> byte;
  x25519 : bytes -> bytes -> option bytes;
  x25519_base : bytes -> bytes;
  verify_signature : bytes -> bytes -> bytes -> bool;
  calculate_signature : bytes -> bytes -> bytes;
  aes_block_enc : bytes -> bytes -> bytes;
  aes_block_dec : bytes -> bytes -> bytes
}.

Class CryptoLaws (C : Crypto) : Prop := {
  gcm_open_seal k iv p ad : gcm_open k iv (gcm_seal k iv p ad) ad = Some p;
  length_sha256 m : length (sha256 m) = 32%nat;
  length_hmac_sha256 k m : length (hmac_sha256 k m) = 32%nat;
  length_hmac_sha512 k m : length (hmac_sha512 k m) = 64%nat;
  length_x25519_base a : length (x25519_base a) = 32%nat;
  x25519_comm a b : x25519 a (x25519_base b) = x25519 b (x25519_base a);
  aes_laws :: cbcutil.AesLaws aes_block_enc aes_block_dec
}.

Module crypto.

(** ** util/gcmutil *)

Section gcm.
Context {C : Crypto}.

Inductive gcm_error :=
  | KeySizeError (n : Z)
  | ErrOpen.

(** [Prepare(secretKey)]: an AES key has 16, 24 or 32 bytes; the AEAD built
    from it is represented by the key. *)
Definition Prepare (secretKey : bytes) : outcome gcm_error bytes :=
  let n := blen secretKey in
  if (n =? 16) || (n =? 24) || (n =? 32) then Ok secretKey else Err (KeySizeError n).

(** GCM panics on a nonce that does not have 12 bytes. *)
Definition nonce_ok (iv : bytes) : bool := blen iv =? 12.

Definition Decrypt (secretKey iv ciphertext additionalData : bytes) : outcome gcm_error bytes :=
  gcm ← Prepare secretKey;
  if negb (nonce_ok iv) then Panic
  else
    match gcm_open gcm iv ciphertext additionalData with
    | Some plaintext => Ok plaintext
    | None => Err ErrOpen
    end.

Definition Encrypt (secretKey iv plaintext additionalData : bytes) : outcome gcm_error bytes :=
  gcm ← Prepare secretKey;
  if negb (nonce_ok iv) then Panic else Ok (gcm_seal gcm iv plaintext additionalData).

Lemma Prepare_32 k : length k = 32%nat -> Prepare k = Ok k.
Proof. intros H. unfold Prepare, blen. by rewrite H. Qed.

Lemma Prepare_Ok k k' : Prepare k = Ok k' -> k' = k.
Proof. unfold Prepare. destruct (_ || _); [by intros [= <-]|done]. Qed.

Lemma Decrypt_Encrypt_gcm {L : CryptoLaws C} k iv p ad c :
  Encrypt k iv p ad = Ok c -> Decrypt k iv c ad = Ok p.
Proof.
  unfold Encrypt, Decrypt. intros H. apply bind_inv in H as (g & Hp & H).
  rewrite Hp, bind_Ok. destruct (nonce_ok iv); [|done]. injection H as <-. by rewrite gcm_open_seal.
Qed.

(** ** util/hkdfutil *)

(** An HKDF reader: the stream it reads from and the position it has reached. *)
Record hkdf_reader := mkHkdf { hkdf_at : nat -> byte; hkdf_pos : nat }.

Definition hkdf_new (key salt info : bytes) : hkdf_reader := mkHkdf (hkdf_stream key salt info) 0.

(** HKDF-SHA256 gives at most 255 blocks of 32 bytes. *)
Definition hkdf_limit : nat := 255 * 32.

(** Reading [n] bytes fails as a whole past the limit. *)
Definition hkdf_read (n : nat) (r : hkdf_reader) : option (bytes * hkdf_reader) :=
  if (hkdf_limit <? hkdf_pos r + n)%nat then None
  else Some (map (hkdf_at r) (seq (hkdf_pos r) n), mkHkdf (hkdf_at r) (hkdf_pos r + n)).

(** [SHA256(key, salt, info, length)]: its two panics are kept. *)
Definition SHA256 (key salt info : bytes) (length : Z) : outcome unit bytes :=
  match hkdf_read (Z.to_nat length) (hkdf_new key salt info) with
  | None => Panic
  | Some (data, _) => if u8 (blen data) =? length then Ok data else Panic
  end.

(** The [n] bytes a reader gives from position [p]. *)
Definition hkdf_bytes (key salt info : bytes) (p n : nat) : bytes :=
  map (hkdf_stream key salt info) (seq p n).

Lemma length_hkdf_bytes key salt info p n : length (hkdf_bytes key salt info p n) = n.
Proof. unfold hkdf_bytes. by rewrite length_map, length_seq. Qed.

Lemma hkdf_read_new n key salt info :
  (n <= hkdf_limit)%nat ->
  hkdf_read n (hkdf_new key salt info)
  = Some (hkdf_bytes key salt info 0 n, mkHkdf (hkdf_stream key salt info) n).
Proof.
  intros H. unfold hkdf_read, hkdf_new. cbn [hkdf_pos hkdf_at].
  rewrite (proj2 (Nat.ltb_ge _ _)) by lia. done.
Qed.

(** The panics of [SHA256] are unreachable: the length is one byte. *)
Lemma SHA256_ok key salt info n :
  0 <= n < 256 -> SHA256 key salt info n = Ok (hkdf_bytes key salt info 0 (Z.to_nat n)).
Proof.
  intros H. unfold SHA256. rewrite hkdf_read_new by (unfold hkdf_limit; lia).
  unfold blen. rewrite length_hkdf_bytes, Z2Nat.id, u8_small by lia. by rewrite Z.eqb_refl.
Qed.

(** ** util/keys *)

Record KeyPair := mkKP { Pub : bytes; Priv : bytes }.

Definition NewKeyPairFromPrivateKey (priv : bytes) : KeyPair := mkKP (x25519_base priv) priv.

(** [NewKeyPair] clamps 32 random bytes. *)
Definition clamp (priv : bytes) : bytes :=
  match priv with
  | b0 :: rest =>
      let rest' :=
        match last rest with
        | Some b31 =>
            removelast rest ++ [z2b (Z.lor (Z.land (b2z b31) 127) 64)]
        | None => rest
        end in
      z2b (Z.land (b2z b0) 248) :: rest'
  | [] => []
  end.

Definition NewKeyPair (random : bytes) : KeyPair := NewKeyPairFromPrivateKey (clamp random).

Definition DjbType : byte := x05.

(** [Sign] signs the key's serialization: a type byte and the public key. *)
Definition Sign (kp keyToSign : KeyPair) : bytes :=
  calculate_signature (Priv kp) (DjbType :: Pub keyToSign).

Record PreKey := mkPreKey { PreKeyPair : KeyPair; KeyID : Z; Signature : option bytes }.

Definition NewPreKey (random : bytes) (keyID : Z) : PreKey := mkPreKey (NewKeyPair random) keyID None.

Definition CreateSignedPreKey (random : bytes) (kp : KeyPair) (keyID : Z) : PreKey :=
  let newKey := NewPreKey random keyID in
  mkPreKey (PreKeyPair newKey) keyID (Some (Sign kp (PreKeyPair newKey))).

End gcm.

Arguments hkdf_reader : clear implicits.

End crypto.

(** ** A toy instance, for the concrete inputs of the witnesses *)

Definition toy_pad (n : nat) (m : bytes) : bytes := take n (m ++ replicate n x00).

Lemma length_toy_pad n m : length (toy_pad n m) = n.
Proof. unfold toy_pad. rewrite length_take, length_app, length_replicate. lia. Qed.

#[local] Instance toy_crypto : Crypto := {
  gcm_seal k iv p ad := k ++ iv ++ p;
  gcm_open k iv c ad := Some (drop (length (k ++ iv)) c);
  sha256 m := toy_pad 32 m;
  hmac_sha256 k m := toy_pad 32 (rev m ++ k);
  hmac_sha512 k m := toy_pad 64 (rev m ++ k);
  hkdf_stream key salt info i := List.nth i (salt ++ key ++ info) x2a;
  x25519 a b := Some (toy_pad 32 (zip_with (fun x y => z2b (Z.lxor (b2z x) (b2z y))) (toy_pad 32 a) b));
  x25519_base a := toy_pad 32 a;
  verify_signature pub msg sig := bool_decide (sig = toy_pad 64 (pub ++ msg));
  calculate_signature priv msg := toy_pad 64 (toy_pad 32 priv ++ msg);
  aes_block_enc := cbcutil.toy_enc;
  aes_block_dec := cbcutil.toy_dec
}.

Lemma toy_crypto_laws : CryptoLaws toy_crypto.
Proof.
  split; intros; cbn -[toy_pad].
  - by rewrite app_assoc, drop_app_length.
  - apply length_toy_pad.
  - apply length_toy_pad.
  - apply length_toy_pad.
  - apply length_toy_pad.
  - do 2 f_equal. generalize (toy_pad 32 a) (toy_pad 32 b). clear.
    intros l. induction l as [|x l IH]; intros [|y k]; [done..|].
    cbn [zip_with]. by rewrite Z.lxor_comm, IH.
  - apply cbcutil.toy_laws.
Qed.
