(* ===== verification/LTHash.v ===== *)
(** * appstate/lthash/lthash.go: the summation hash of app state

    A hash is a sequence of 16-bit little-endian words; adding an item adds the
    words of its HKDF expansion with wrap-around. The file ends with the group
    laws: operations commute, subtraction undoes addition, and the hash of a
    finite map is well defined. *)

From Stdlib Require Import Permutation.
From S2P Require Import Prelude GoStrings Crypto.

#[local] Open Scope Z_scope.

Module lthash.

Import crypto.

Section lthash.
Context {C : Crypto}.

Record LTHash := mkLTHash { HKDFInfo : bytes; HKDFSize : Z }.

Definition WAPatchIntegrity : LTHash := mkLTHash (str_bytes "WhatsApp Patch Integrity") 128.

(** [binary.LittleEndian.Uint16] and [PutUint16]. *)
Definition le16 (b0 b1 : byte) : Z := b2z b0 + 256 * b2z b1.
Definition put16 (z : Z) : byte * byte := (z2b z, z2b (Z.shiftr z 8)).

(** [performPointwiseWithOverflow]: slicing two bytes out of what is left of
    either slice panics when fewer remain. *)
Fixpoint performPointwiseWithOverflow (base input : bytes) (subtract : bool) : outcome unit bytes :=
  match base with
  | [] => Ok []
  | b0 :: b1 :: base' =>
      match input with
      | i0 :: i1 :: input' =>
          let x := le16 b0 b1 in
          let y := le16 i0 i1 in
          let result := if subtract then u16 (x - y) else u16 (x + y) in
          rest ← performPointwiseWithOverflow base' input' subtract;
          Ok (fst (put16 result) :: snd (put16 result) :: rest)
      | _ => Panic
      end
  | [_] => Panic
  end.

Fixpoint multipleOp (lth : LTHash) (base : bytes) (input : list bytes) (subtract : bool) :
    outcome unit bytes :=
  match input with
  | [] => Ok base
  | item :: input' =>
      expanded ← SHA256 item [] (HKDFInfo lth) (HKDFSize lth);
      base' ← performPointwiseWithOverflow base expanded subtract;
      multipleOp lth base' input' subtract
  end.

Definition SubtractThenAddInPlace (lth : LTHash) (base : bytes) (subtract add : list bytes) :
    outcome unit bytes :=
  base' ← multipleOp lth base subtract true;
  multipleOp lth base' add false.

Definition SubtractThenAdd (lth : LTHash) (base : bytes) (subtract add : list bytes) :
    outcome unit bytes :=
  SubtractThenAddInPlace lth base subtract add.

(** ** The group behind it *)

(** The word-wise operation as a total function. *)
Fixpoint op16 (subtract : bool) (a b : bytes) : bytes :=
  match a, b with
  | a0 :: a1 :: a', b0 :: b1 :: b' =>
      let r := if subtract then u16 (le16 a0 a1 - le16 b0 b1) else u16 (le16 a0 a1 + le16 b0 b1) in
      fst (put16 r) :: snd (put16 r) :: op16 subtract a' b'
  | _, _ => []
  end.

Lemma le16_range b0 b1 : 0 <= le16 b0 b1 < 65536.
Proof. unfold le16. pose proof (b2z_range b0). pose proof (b2z_range b1). lia. Qed.

Lemma le16_put16 z : 0 <= z < 65536 -> le16 (fst (put16 z)) (snd (put16 z)) = z.
Proof.
  intros H. unfold le16, put16. cbn [fst snd]. rewrite !b2z_z2b, Z.shiftr_div_pow2 by lia.
  change (2 ^ 8) with 256. Z.div_mod_to_equations. lia.
Qed.

Lemma put16_le16 b0 b1 : put16 (le16 b0 b1) = (b0, b1).
Proof.
  unfold put16. pose proof (b2z_range b0). pose proof (b2z_range b1). f_equal; apply b2z_inj;
    rewrite b2z_z2b, ?Z.shiftr_div_pow2 by lia; unfold le16; change (2 ^ 8) with 256;
    Z.div_mod_to_equations; lia.
Qed.

Lemma u16_bounds z : 0 <= u16 z < 65536.
Proof. unfold u16. apply Z.mod_pos_bound. lia. Qed.

Lemma op16_cons s a0 a1 a b0 b1 b :
  op16 s (a0 :: a1 :: a) (b0 :: b1 :: b) =
  let r := u16 (if s then le16 a0 a1 - le16 b0 b1 else le16 a0 a1 + le16 b0 b1) in
  fst (put16 r) :: snd (put16 r) :: op16 s a b.
Proof. by destruct s. Qed.

Lemma u16_comm (s t : bool) x y z :
  u16 (if s then u16 (if t then x - y else x + y) - z else u16 (if t then x - y else x + y) + z)
  = u16 (if t then u16 (if s then x - z else x + z) - y else u16 (if s then x - z else x + z) + y).
Proof. unfold u16. destruct s, t; Z.div_mod_to_equations; lia. Qed.

(** Operations commute whatever the lengths. *)
Lemma op16_comm s t a : forall x y, op16 s (op16 t a x) y = op16 t (op16 s a y) x.
Proof.
  induction a as [| |a0 a1 a IH] using list_ind2; intros x y; [done..|].
  destruct x as [|x0 [|x1 x]], y as [|y0 [|y1 y]]; try done.
  rewrite !op16_cons. cbv zeta. rewrite ?op16_cons. cbv zeta. rewrite IH.
  rewrite !le16_put16 by apply u16_bounds. by rewrite u16_comm.
Qed.

Lemma length_op16 s a : forall b, length b = length a -> Nat.Even (length a) -> length (op16 s a b) = length a.
Proof.
  induction a as [| |a0 a1 a IH] using list_ind2; intros b Hl He; [done|by destruct He; simpl in *; lia|].
  destruct b as [|b0 [|b1 b]]; [done..|]. rewrite op16_cons. cbn [length] in *. rewrite IH; [done|lia|].
  destruct He as [k Hk]. exists (k - 1)%nat. lia.
Qed.

(** One operation undoes the other. *)
Lemma op16_cancel s a : forall b, length b = length a -> Nat.Even (length a) ->
  op16 (negb s) (op16 s a b) b = a.
Proof.
  induction a as [| |a0 a1 a IH] using list_ind2; intros b Hl He; [done|by destruct He; simpl in *; lia|].
  destruct b as [|b0 [|b1 b]]; [done..|]. rewrite op16_cons. cbv zeta. rewrite op16_cons. cbv zeta.
  cbn [length] in *. rewrite le16_put16 by apply u16_bounds.
  rewrite IH; [|lia|destruct He as [k Hk]; exists (k - 1)%nat; lia].
  pose proof (le16_range a0 a1).
  match goal with |- fst (put16 ?z) :: _ = _ => replace z with (le16 a0 a1) end.
  - by rewrite put16_le16.
  - destruct s; cbn [negb]; unfold u16; Z.div_mod_to_equations; lia.
Qed.

Lemma performPointwise_op16 s a : forall b,
  (length a <= length b)%nat -> Nat.Even (length a) ->
  performPointwiseWithOverflow a b s = Ok (op16 s a b).
Proof.
  induction a as [| |a0 a1 a IH] using list_ind2; intros b Hl He; [done|by destruct He; simpl in *; lia|].
  destruct b as [|b0 [|b1 b]]; [cbn [length] in Hl; lia..|]. cbn [length] in *.
  cbn [performPointwiseWithOverflow op16].
  rewrite IH; [by destruct s|lia|destruct He as [k Hk]; exists (k - 1)%nat; lia].
Qed.

(** ** The integrity hash *)

(** What adds or removes one item. *)
Definition expand (item : bytes) : bytes := hkdf_bytes item [] (HKDFInfo WAPatchIntegrity) 0 128.
Definition step (subtract : bool) (h item : bytes) : bytes := op16 subtract h (expand item).

Definition is_hash (h : bytes) : Prop := length h = 128%nat.

Lemma even_128 : Nat.Even 128. Proof. by exists 64%nat. Qed.

Lemma step_is_hash s h item : is_hash h -> is_hash (step s h item).
Proof.
  unfold is_hash, step. intros H. rewrite length_op16; [done|by rewrite H; apply length_hkdf_bytes|].
  rewrite H. apply even_128.
Qed.

Lemma step_comm s t h x y : step s (step t h x) y = step t (step s h y) x.
Proof. apply op16_comm. Qed.

Lemma step_cancel s h x : is_hash h -> step (negb s) (step s h x) x = h.
Proof.
  intros H. apply op16_cancel; rewrite H; [apply length_hkdf_bytes|apply even_128].
Qed.

Lemma multipleOp_steps s items : forall h,
  is_hash h -> multipleOp WAPatchIntegrity h items s = Ok (foldl (step s) h items).
Proof.
  induction items as [|x items IH]; intros h Hh; [done|]. cbn [multipleOp foldl].
  rewrite SHA256_ok by (cbn; lia). rewrite bind_Ok.
  rewrite performPointwise_op16, bind_Ok, IH; [done|by apply step_is_hash| |].
  - rewrite Hh, length_hkdf_bytes. done.
  - rewrite Hh. apply even_128.
Qed.

Lemma foldl_is_hash s items : forall h, is_hash h -> is_hash (foldl (step s) h items).
Proof. induction items as [|x items IH]; intros h Hh; [done|]. by apply IH, step_is_hash. Qed.

Lemma SubtractThenAddInPlace_steps h subs adds :
  is_hash h ->
  SubtractThenAddInPlace WAPatchIntegrity h subs adds
  = Ok (foldl (step false) (foldl (step true) h subs) adds).
Proof.
  intros Hh. unfold SubtractThenAddInPlace. rewrite multipleOp_steps, bind_Ok by done.
  apply multipleOp_steps. by apply foldl_is_hash.
Qed.

(** A step moves past a run of steps. *)
Lemma foldl_step_comm s t items : forall h x,
  foldl (step s) (step t h x) items = step t (foldl (step s) h items) x.
Proof.
  induction items as [|y items IH]; intros h x; [done|]. cbn [foldl].
  by rewrite step_comm, IH.
Qed.

(** A series of single operations. *)
Definition sequential (h : bytes) (ops : list (bool * bytes)) : bytes :=
  foldl (fun h '(s, x) => step s h x) h ops.

Definition subtracted (ops : list (bool * bytes)) : list bytes := map snd (filter (fun o => Is_true (fst o)) ops).
Definition added (ops : list (bool * bytes)) : list bytes := map snd (filter (fun o => Is_true (negb (fst o))) ops).

Lemma sequential_split ops : forall h,
  sequential h ops = foldl (step false) (foldl (step true) h (subtracted ops)) (added ops).
Proof.
  induction ops as [|[[] x] ops IH]; intros h; [done| |];
    unfold subtracted, added, sequential in *; cbn [foldl]; rewrite IH.
  - done.
  - cbn. by rewrite foldl_step_comm.
Qed.

(** The package's promise: removing a batch of items and then adding another
    gives the hash that the same additions and removals give made one at a time
    in any order. *)
Theorem SubtractThenAdd_sequential h ops :
  is_hash h ->
  SubtractThenAdd WAPatchIntegrity h (subtracted ops) (added ops) = Ok (sequential h ops).
Proof.
  intros Hh. unfold SubtractThenAdd. by rewrite SubtractThenAddInPlace_steps, sequential_split.
Qed.

(** ** The hash of a map *)

Definition zero_hash : bytes := replicate 128 x00.

(** The hash of the values of a finite map. *)
Definition map_hash `{Countable K} (m : gmap K bytes) : bytes :=
  map_fold (fun _ v h => step false h v) zero_hash m.

Lemma map_hash_is_hash `{Countable K} (m : gmap K bytes) : is_hash (map_hash m).
Proof.
  unfold map_hash. apply (map_fold_weak_ind (fun h _ => is_hash h)); [done|].
  intros. by apply step_is_hash.
Qed.

Lemma map_hash_insert_new `{Countable K} (m : gmap K bytes) k v :
  m !! k = None -> map_hash (<[k := v]> m) = step false (map_hash m) v.
Proof.
  intros Hk. unfold map_hash.
  rewrite (map_fold_insert_L (fun _ v h => step false h v) zero_hash k v m); [done| |done].
  intros. apply step_comm.
Qed.

Lemma map_hash_delete `{Countable K} (m : gmap K bytes) k v :
  m !! k = Some v -> map_hash (delete k m) = step true (map_hash m) v.
Proof.
  intros Hk. rewrite <- (insert_delete_id m k v Hk) at 2.
  rewrite map_hash_insert_new by apply lookup_delete_eq.
  symmetry. apply (step_cancel false). apply map_hash_is_hash.
Qed.

Lemma map_hash_insert `{Countable K} (m : gmap K bytes) k v :
  map_hash (<[k := v]> m)
  = step false (match m !! k with Some w => step true (map_hash m) w | None => map_hash m end) v.
Proof.
  destruct (m !! k) as [w|] eqn:Hk.
  - rewrite <- insert_delete_eq, map_hash_insert_new by apply lookup_delete_eq.
    by rewrite (map_hash_delete _ _ _ Hk).
  - by apply map_hash_insert_new.
Qed.

End lthash.

Lemma SubtractThenAdd_sequential_witness :
  SubtractThenAdd (C := toy_crypto) WAPatchIntegrity zero_hash [[x01; x02]] [[x03]; [x04; x05]]
  = Ok (sequential (C := toy_crypto) zero_hash [(false, [x03]); (true, [x01; x02]); (false, [x04; x05])]).
Proof. apply (SubtractThenAdd_sequential (C := toy_crypto) zero_hash
  [(false, [x03]); (true, [x01; x02]); (false, [x04; x05])]). reflexivity. Defined.

End lthash.
