(* ===== verification/StateErr.v ===== *)
(** * A monad of state and outcomes

    For the components that work against a store: a computation takes the state
    and gives back a state in every case, so that what has been written before
    an error is seen after it, as in the code. *)

From S2P Require Import Prelude.

Definition stm (S E A : Type) : Type := S -> S * outcome E A.

Section stm.
Context {S E : Type}.

#[global] Instance stm_ret : MRet (stm S E) := fun A a s => (s, Ok a).
#[global] Instance stm_bind : MBind (stm S E) :=
  fun A B k m s =>
    match m s with
    | (s', Ok a) => k a s'
    | (s', Err e) => (s', Err e)
    | (s', Panic) => (s', Panic)
    | (s', NoFuel) => (s', NoFuel)
    end.

Definition throw {A} (e : E) : stm S E A := fun s => (s, Err e).
Definition panic {A} : stm S E A := fun s => (s, Panic).
Definition get_state : stm S E S := fun s => (s, Ok s).
Definition put_state (s' : S) : stm S E unit := fun _ => (s', Ok tt).

(** A computation that does not touch the state. *)
Definition lift {A} (o : outcome E A) : stm S E A := fun s => (s, o).

(** Errors wrapped on their way up. *)
Definition wrap {E' A} (f : E -> E') (m : stm S E A) : stm S E' A :=
  fun s => let '(s', o) := m s in (s', map_err f o).

Lemma stm_bind_ok {A B} (m : stm S E A) (k : A -> stm S E B) s s' a :
  m s = (s', Ok a) -> (m ≫= k) s = k a s'.
Proof. intros H. unfold mbind, stm_bind. by rewrite H. Qed.

Lemma stm_bind_inv {A B} (m : stm S E A) (k : A -> stm S E B) s s' b :
  (m ≫= k) s = (s', Ok b) -> exists s1 a, m s = (s1, Ok a) /\ k a s1 = (s', Ok b).
Proof.
  unfold mbind, stm_bind. destruct (m s) as [s1 [a|e| |]]; try discriminate. eauto.
Qed.

Lemma lift_inv {A} (o : outcome E A) s s' a : lift o s = (s', Ok a) -> s' = s /\ o = Ok a.
Proof. unfold lift. by intros [= <- ->]. Qed.

Lemma lift_ok {A} (o : outcome E A) s a : o = Ok a -> lift o s = (s, Ok a).
Proof. by intros ->. Qed.

(** A computation that leaves the state alone when it succeeds. *)
Definition reads_only {A} (m : stm S E A) : Prop := forall s s' a, m s = (s', Ok a) -> s' = s.

End stm.

Lemma wrap_inv {S E E' A} (f : E -> E') (m : stm S E A) s s' a :
  wrap f m s = (s', Ok a) -> m s = (s', Ok a).
Proof. unfold wrap. destruct (m s) as [s1 [b|e| |]]; cbn; congruence. Qed.

Lemma wrap_ok {S E E' A} (f : E -> E') (m : stm S E A) s s' a :
  m s = (s', Ok a) -> wrap f m s = (s', Ok a).
Proof. unfold wrap. by intros ->. Qed.

(** Running a successful computation from its hypotheses. *)
Ltac stm_inv H :=
  let s := fresh "s" in let a := fresh "a" in let E := fresh "E" in
  apply stm_bind_inv in H as (s & a & E & H).

(** ** Computations that move the state along a preorder *)

Definition moves {S E A} (R : S -> S -> Prop) (m : stm S E A) : Prop := forall s s' o, m s = (s', o) -> R s s'.

Section moves.
Context {S E : Type} (R : S -> S -> Prop) {HR : PreOrder R}.

Lemma moves_still {A} (m : stm S E A) : (forall s, fst (m s) = s) -> moves R m.
Proof. intros H s s' o Hm. specialize (H s). rewrite Hm in H. cbn in H. by subst. Qed.

Lemma moves_ret {A} (a : A) : moves R (mret a : stm S E A).
Proof. by apply moves_still. Qed.

Lemma moves_throw {A} e : moves R (throw e : stm S E A).
Proof. by apply moves_still. Qed.

Lemma moves_panic {A} : moves R (panic : stm S E A).
Proof. by apply moves_still. Qed.

Lemma moves_get : moves R (get_state : stm S E S).
Proof. by apply moves_still. Qed.

Lemma moves_lift {A} (o : outcome E A) : moves R (lift o).
Proof. by apply moves_still. Qed.

Lemma moves_bind {A B} (m : stm S E A) (k : A -> stm S E B) : moves R m -> (forall a, moves R (k a)) -> moves R (m ≫= k).
Proof.
  intros Hm Hk s s' o. unfold mbind, stm_bind. destruct (m s) as [s1 [a|e| |]] eqn:Em; apply Hm in Em; intros H.
  2-4: by injection H as <- <-.
  etransitivity; [exact Em|by eapply Hk].
Qed.
End moves.

Create HintDb moves.
#[export] Hint Resolve moves_ret moves_throw moves_panic moves_get moves_lift : moves.

(** Descends through binds and case distinctions to the operations in the hints. *)
Ltac moves_tac :=
  repeat match goal with
  | |- moves _ (_ ≫= _) => refine (moves_bind _ _ _ _ _); [|intros ?]
  | |- moves _ (match ?x with _ => _ end) => destruct x
  | |- moves _ _ => solve [eauto with moves typeclass_instances]
  end.

(** ** Computations that never run out of fuel *)

Definition ends {E A} (o : outcome E A) : Prop := o <> NoFuel.
Definition returns {S E A} (m : stm S E A) : Prop := forall s, ends (snd (m s)).

Section returns.
Context {S E : Type}.

Lemma ends_bind {A B} (o : outcome E A) (k : A -> outcome E B) : ends o -> (forall a, ends (k a)) -> ends (o ≫= k).
Proof. intros Ho Hk. by destruct o; [apply Hk|..]. Qed.

Lemma ends_map_err {E' A} (f : E -> E') (o : outcome E A) : ends o -> ends (map_err f o).
Proof. by destruct o. Qed.

Lemma returns_ret {A} (a : A) : returns (mret a : stm S E A).
Proof. done. Qed.
Lemma returns_throw {A} e : returns (throw e : stm S E A).
Proof. done. Qed.
Lemma returns_panic {A} : returns (panic : stm S E A).
Proof. done. Qed.
Lemma returns_get : returns (get_state : stm S E S).
Proof. done. Qed.
Lemma returns_put s : returns (put_state s : stm S E unit).
Proof. done. Qed.
Lemma returns_lift {A} (o : outcome E A) : ends o -> returns (lift o : stm S E A).
Proof. by intros H s. Qed.

Lemma returns_bind {A B} (m : stm S E A) (k : A -> stm S E B) : returns m -> (forall a, returns (k a)) -> returns (m ≫= k).
Proof.
  intros Hm Hk s. specialize (Hm s). unfold mbind, stm_bind. destruct (m s) as [s1 [a|e| |]]; cbn in *; try done. apply Hk.
Qed.
End returns.

Lemma returns_wrap {S E E' A} (f : E -> E') (m : stm S E A) : returns m -> returns (wrap f m).
Proof. intros H s. unfold wrap. specialize (H s). destruct (m s). by apply ends_map_err. Qed.

Create HintDb returns.
#[export] Hint Resolve returns_wrap returns_ret returns_throw returns_panic returns_get returns_put returns_lift ends_map_err : returns.

(** Like [moves_tac]. *)
Ltac returns_tac :=
  repeat match goal with
  | |- returns (_ ≫= _) => apply returns_bind; [|intros ?]
  | |- ends (_ ≫= _) => apply ends_bind; [|intros ?]
  | |- ends (Ok _) => discriminate
  | |- ends (Err _) => discriminate
  | |- ends Panic => discriminate
  | |- returns (match ?x with _ => _ end) => destruct x
  | |- ends (match ?x with _ => _ end) => destruct x
  | |- returns _ => solve [eauto with returns]
  | |- ends _ => solve [eauto with returns]
  end.
