(* ===== verification/Sql.v ===== *)
(** * The database under store/sqlstore: statements, transactions, patterns

    Rows of the tables a component uses are a state [rows] of a type of its own;
    what the Go objects keep in memory beside them is [mem], which a rollback
    does not touch. [faults] says which of the next statements fail; it is
    empty on a working database. The library's [DoTxn] begins, runs its body
    and commits, and rolls the rows back when any of these fails. *)

From S2P Require Import Prelude GoStrings StateErr.

#[local] Open Scope string_scope.
#[local] Open Scope list_scope.
#[local] Open Scope Z_scope.

Module sql.

Record db (T M : Type) := mkDb { rows : T; mem : M; faults : list bool }.
Arguments mkDb {T M}.
Arguments rows {T M}.
Arguments mem {T M}.
Arguments faults {T M}.

Inductive sql_error :=
  | ErrDatabase          (* the statement failed *)
  | ErrConstraint        (* a constraint of the table *)
  | ErrNoRows            (* sql.ErrNoRows *)
  | ErrInvalidLength     (* store.go's check of a column *)
  | ErrBadRow.           (* a value that does not scan *)

Notation dbm T M A := (stm (db T M) sql_error A).

Section statements.
Context {T M : Type}.

Definition set_rows (t : T) (s : db T M) : db T M := mkDb t (mem s) (faults s).
Definition set_mem (m : M) (s : db T M) : db T M := mkDb (rows s) m (faults s).
Definition set_faults (fs : list bool) (s : db T M) : db T M := mkDb (rows s) (mem s) fs.

(** Whether the next statement reaches the tables. *)
Definition statement : dbm T M unit := fun s =>
  match faults s with
  | [] => (s, Ok tt)
  | true :: fs => (set_faults fs s, Err ErrDatabase)
  | false :: fs => (set_faults fs s, Ok tt)
  end.

(** A statement that changes rows; [None]: a constraint fails. *)
Definition exec (f : T -> option T) : dbm T M unit :=
  statement ;;
  s ← get_state;
  match f (rows s) with
  | Some t => put_state (set_rows t s)
  | None => throw ErrConstraint
  end.

Definition query {A} (q : T -> A) : dbm T M A := statement ;; s ← get_state; mret (q (rows s)).

Definition DoTxn {A} (body : dbm T M A) : dbm T M A := fun s =>
  match statement s with
  | (s1, Ok _) =>
      match body s1 with
      | (s2, Ok a) =>
          match statement s2 with
          | (s3, Ok _) => (s3, Ok a)
          | (s3, Err e) => (set_rows (rows s) s3, Err e)
          | (s3, Panic) => (set_rows (rows s) s3, Panic)
          | (s3, NoFuel) => (set_rows (rows s) s3, NoFuel)
          end
      | (s2, o) => (set_rows (rows s) s2, o)
      end
  | (s1, Err e) => (s1, Err e)
  | (s1, Panic) => (s1, Panic)
  | (s1, NoFuel) => (s1, NoFuel)
  end.

Definition get_mem : dbm T M M := fun s => (s, Ok (mem s)).
Definition put_mem (m : M) : dbm T M unit := fun s => (set_mem m s, Ok tt).

(** An error the caller looks at. *)
Definition try {A} (m : dbm T M A) : dbm T M (sql_error + A) := fun s =>
  match m s with
  | (s', Ok a) => (s', Ok (inr a))
  | (s', Err e) => (s', Ok (inl e))
  | (s', Panic) => (s', Panic)
  | (s', NoFuel) => (s', NoFuel)
  end.

(** ** Working databases *)

Lemma try_ok {A} (m : dbm T M A) s s' a : m s = (s', Ok a) -> try m s = (s', Ok (inr a)).
Proof. unfold try. by intros ->. Qed.

Definition works (s : db T M) : Prop := faults s = [].

Lemma exec_works f s t : works s -> f (rows s) = Some t -> exec f s = (set_rows t s, Ok tt).
Proof.
  unfold works. destruct s as [r m fs]. cbn [faults rows]. intros -> Hf.
  unfold exec, mbind, stm_bind. cbn [statement faults get_state rows]. by rewrite Hf.
Qed.

Lemma exec_violates f s : works s -> f (rows s) = None -> exec f s = (s, Err ErrConstraint).
Proof.
  unfold works. destruct s as [r m fs]. cbn [faults rows]. intros -> Hf.
  unfold exec, mbind, stm_bind. cbn [statement faults get_state rows]. by rewrite Hf.
Qed.

Lemma query_works {A} (q : T -> A) s : works s -> query q s = (s, Ok (q (rows s))).
Proof. unfold works. destruct s as [r m fs]. cbn [faults]. by intros ->. Qed.

Lemma DoTxn_works {A} (body : dbm T M A) s s' a :
  works s -> body s = (s', Ok a) -> works s' -> DoTxn body s = (s', Ok a).
Proof.
  unfold works, DoTxn. destruct s as [r m fs], s' as [r' m' fs']. cbn [faults].
  intros -> Hb ->. cbn [statement faults]. by rewrite Hb.
Qed.

(** A statement moves nothing but the faults, and fails only by one. *)
Lemma statement_same s s' o : statement s = (s', o) ->
  rows s' = rows s /\ mem s' = mem s /\ (o = Ok tt \/ o = Err ErrDatabase).
Proof.
  unfold statement. destruct s as [r m [|[|] fs]]; cbn; intros [= <- <-]; auto.
Qed.

(** A transaction that does not succeed changes no row. *)
Lemma DoTxn_atomic {A} (body : dbm T M A) s s' o :
  DoTxn body s = (s', o) -> is_ok o = false -> rows s' = rows s.
Proof.
  unfold DoTxn. destruct (statement s) as [s1 o1] eqn:E1.
  apply statement_same in E1 as (R1 & _ & [->| ->]); [|by intros [= <- <-]].
  destruct (body s1) as [s2 [a|e| |]]; try by intros [= <- <-].
  destruct (statement s2) as [s3 o3] eqn:E3.
  apply statement_same in E3 as (R3 & _ & [->| ->]); by intros [= <- <-].
Qed.

(** Neither statements nor transactions move what is in memory, when the body does not. *)
Definition keeps_mem {A} (m : dbm T M A) : Prop := forall s s' o, m s = (s', o) -> mem s' = mem s.

Lemma keeps_mem_exec f : keeps_mem (exec f).
Proof.
  intros s s' o. unfold exec, mbind, stm_bind, get_state. destruct (statement s) as [s1 o1] eqn:E1.
  apply statement_same in E1 as (_ & Hm & [->| ->]); [|intros [= <- _]; done].
  destruct (f (rows s1)); intros [= <- _]; done.
Qed.

Lemma keeps_mem_query {A} (q : T -> A) : keeps_mem (query q).
Proof.
  intros s s' o. unfold query, mbind, stm_bind, get_state. destruct (statement s) as [s1 o1] eqn:E1.
  apply statement_same in E1 as (_ & Hm & [->| ->]); intros [= <- _]; done.
Qed.

Lemma keeps_mem_bind {A B} (m : dbm T M A) (k : A -> dbm T M B) :
  keeps_mem m -> (forall a, keeps_mem (k a)) -> keeps_mem (m ≫= k).
Proof.
  intros Hm Hk s s' o. unfold mbind, stm_bind. destruct (m s) as [s1 o1] eqn:E. specialize (Hm _ _ _ E).
  destruct o1 as [a|e| |]; [intros H; by rewrite (Hk a _ _ _ H)|intros [= <- _]; done..].
Qed.

Lemma keeps_mem_ret {A} (a : A) : keeps_mem (mret a).
Proof. by intros s s' o [= <- _]. Qed.

Lemma keeps_mem_DoTxn {A} (body : dbm T M A) : keeps_mem body -> keeps_mem (DoTxn body).
Proof.
  intros Hb s s' o. unfold DoTxn. destruct (statement s) as [s1 o1] eqn:E1.
  apply statement_same in E1 as (_ & Hm & [->| ->]); [|intros [= <- _]; done].
  destruct (body s1) as [s2 o2] eqn:E2. apply Hb in E2.
  destruct o2 as [a|e| |]; [|intros [= <- _]; cbn; congruence..].
  destruct (statement s2) as [s3 o3] eqn:E3.
  apply statement_same in E3 as (_ & Hm3 & [->| ->]); intros [= <- _]; cbn; congruence.
Qed.

End statements.

#[export] Hint Resolve keeps_mem_exec keeps_mem_query keeps_mem_ret keeps_mem_DoTxn keeps_mem_bind : sqlmem.

(** ** Rows put into a map one after the other *)

Lemma foldl_inserts {K V} `{Countable K} (l : list (K * V)) (m : gmap K V) : NoDup (map fst l) ->
  foldl (fun m r => <[fst r := snd r]> m) m l = list_to_map l ∪ m.
Proof.
  revert m. induction l as [|[k v] l IH]; intros m Hnd; cbn [foldl fst snd].
  { symmetry. apply (left_id_L ∅ (∪)). }
  cbn [map fst] in Hnd. apply NoDup_cons in Hnd as [Hk Hnd]. rewrite IH by done.
  rewrite list_to_map_cons, <- insert_union_l, insert_union_r; [done|].
  by apply not_elem_of_list_to_map_1.
Qed.

Lemma foldl_inserts_map {K V} `{Countable K} (r m : gmap K V) :
  foldl (fun m r => <[fst r := snd r]> m) m (map_to_list r) = r ∪ m.
Proof. rewrite foldl_inserts by apply NoDup_fst_map_to_list. by rewrite list_to_map_to_list. Qed.

(** ** LIKE: [%] is any text, [_] any one character; replace *)

Fixpoint like (p s : string) : bool :=
  match p with
  | EmptyString => match s with EmptyString => true | _ => false end
  | String c p' =>
      if Ascii.eqb c "%" then
        (fix any s := like p' s || match s with EmptyString => false | String _ s' => any s' end) s
      else
        match s with
        | EmptyString => false
        | String d s' => (Ascii.eqb c "_" || Ascii.eqb c d) && like p' s'
        end
  end.

(** [replace(s, from, to)]: every occurrence, from the left. *)
Fixpoint replace_from (fuel : nat) (from to s : string) : string :=
  match fuel, s with
  | O, _ | _, EmptyString => s
  | Datatypes.S fuel', String a s' =>
      if has_prefix from s then to +:+ replace_from fuel' from to (trim_prefix from s)
      else String a (replace_from fuel' from to s')
  end.

Definition replace (s from to : string) : string :=
  if String.eqb from "" then s else replace_from (String.length s) from to s.

(** No wildcard in the text. *)
Fixpoint plain (s : string) : bool :=
  match s with
  | EmptyString => true
  | String a s' => negb (Ascii.eqb a "%") && negb (Ascii.eqb a "_") && plain s'
  end.

Lemma like_any_tail s : like "%" s = true.
Proof. by induction s as [|a s IH]. Qed.

Lemma like_plain_prefix p t s : plain p = true ->
  like (p +:+ t) s = true <-> exists u, s = p +:+ u /\ like t u = true.
Proof.
  revert s. induction p as [|c p IH]; intros s Hp.
  { change ("" +:+ t) with t. split; [by exists s|]. by intros (u & -> & H). }
  cbn [plain] in Hp. apply andb_true_iff in Hp as [[Hc1 Hc2]%andb_true_iff Hp].
  apply negb_true_iff in Hc1, Hc2.
  change (String c p +:+ t) with (String c (p +:+ t)). cbn [like]. rewrite Hc1, Hc2. cbn [orb].
  split.
  - destruct s as [|d s]; [done|]. intros [->%Ascii.eqb_eq H]%andb_true_iff.
    apply (IH _ Hp) in H as (u & -> & Hu). by exists u.
  - intros (u & -> & Hu). change (String c p +:+ u) with (String c (p +:+ u)).
    cbn match. rewrite Ascii.eqb_refl. apply (IH _ Hp). by exists u.
Qed.

(** The pattern [p:%]: everything that starts with [p:]. *)
Lemma like_user p s : plain p = true -> like (p +:+ ":%") s = true <-> exists d, s = p +:+ ":" +:+ d.
Proof.
  intros Hp. rewrite like_plain_prefix by done. split.
  - intros (u & -> & H). destruct u as [|a u]; [done|].
    change (":%") with (String ":" "%") in H. cbn [like] in H.
    change (Ascii.eqb ":" "%") with false in H. change (Ascii.eqb ":" "_") with false in H. cbn [orb] in H.
    apply andb_true_iff in H as [Ha%Ascii.eqb_eq _]. subst a. by exists u.
  - intros (d & ->). exists (":" +:+ d). split; [done|].
    change (":" +:+ d) with (String ":" d). change (":%") with (String ":" "%").
    change (like (String ":" "%") (String ":" d)) with (like "%" d). apply like_any_tail.
Qed.

Lemma like_any p s : like p s = true -> like (String "%" p) s = true.
Proof.
  intros H. change (like (String "%" p) s) with
    ((fix any s := like p s || match s with EmptyString => false | String _ s' => any s' end) s).
  destruct s as [|a s]; by rewrite H.
Qed.

Lemma like_any_skip p a s : like (String "%" p) s = true -> like (String "%" p) (String a s) = true.
Proof.
  intros H. change (like p (String a s) || like (String "%" p) s = true). by rewrite H, orb_true_r.
Qed.

(** Every text matches itself as a pattern, and one [_] matches any character. *)
Lemma like_self s : like s s = true.
Proof.
  induction s as [|a s IH]; [done|]. destruct (Ascii.eqb_spec a "%") as [->|Ha].
  - by apply like_any_skip, like_any.
  - cbn [like]. rewrite (ascii_eqb_ne _ _ Ha), Ascii.eqb_refl, orb_true_r. exact IH.
Qed.

Lemma like_any_char u c v : like (u +:+ String "_" v) (u +:+ String c v) = true.
Proof.
  induction u as [|a u IH].
  - change ("" +:+ String "_" v) with (String "_" v). change ("" +:+ String c v) with (String c v).
    change (like (String "_" v) (String c v)) with (like v v). apply like_self.
  - change (String a u +:+ String "_" v) with (String a (u +:+ String "_" v)).
    change (String a u +:+ String c v) with (String a (u +:+ String c v)).
    destruct (Ascii.eqb_spec a "%") as [->|Ha]; [by apply like_any_skip, like_any|].
    cbn [like]. by rewrite (ascii_eqb_ne _ _ Ha), Ascii.eqb_refl, orb_true_r, IH.
Qed.

Lemma has_prefix_app p t : has_prefix p (p +:+ t) = true.
Proof.
  induction p as [|a p IH]; [by destruct t|]. change (String a p +:+ t) with (String a (p +:+ t)).
  cbn [has_prefix]. by rewrite Ascii.eqb_refl.
Qed.

Lemma has_prefix_inv p s : has_prefix p s = true -> exists t, s = p +:+ t.
Proof.
  revert s. induction p as [|a p IH]; intros s H; [by exists s|]. destruct s as [|b s]; [done|].
  cbn [has_prefix] in H. apply andb_true_iff in H as [->%Ascii.eqb_eq H].
  apply IH in H as [t ->]. by exists t.
Qed.

Lemma string_length_app (s t : string) : String.length (s +:+ t) = (String.length s + String.length t)%nat.
Proof. induction s as [|a s IH]; [done|]. change (String a s +:+ t) with (String a (s +:+ t)). cbn [String.length]. by rewrite IH. Qed.

Lemma substring_whole s : substring 0 (String.length s) s = s.
Proof. induction s as [|a s IH]; [done|]. cbn [String.length substring]. by rewrite IH. Qed.

Lemma substring_skip p t n : substring (String.length p) n (p +:+ t) = substring 0 n t.
Proof. induction p as [|a p IH]; [done|]. exact IH. Qed.

Lemma trim_prefix_app p t : trim_prefix p (p +:+ t) = t.
Proof.
  unfold trim_prefix. rewrite has_prefix_app, string_length_app, substring_skip.
  replace (_ + _ - _)%nat with (String.length t) by lia. apply substring_whole.
Qed.

Lemma str_app_inj (p s t : string) : p +:+ s = p +:+ t -> s = t.
Proof. induction p as [|a p IH]; [done|]. intros [= H]. by apply IH. Qed.

Lemma replace_from_none fuel from to s : str_has from s = false -> replace_from fuel from to s = s.
Proof.
  revert fuel. induction s as [|a s IH]; intros fuel H; [by destruct fuel|].
  destruct fuel as [|fuel]; [done|]. cbn [replace_from]. cbn [str_has] in H.
  apply orb_false_iff in H as [-> H]. by rewrite IH.
Qed.

(** Only the user is replaced when the rest does not contain it. *)
Lemma replace_user p q t : p <> "" -> str_has p t = false -> replace (p +:+ t) p q = q +:+ t.
Proof.
  intros Hp Ht. unfold replace. destruct (String.eqb_spec p ""); [done|].
  destruct p as [|a p]; [done|]. change (String a p +:+ t) with (String a (p +:+ t)).
  cbn [String.length replace_from].
  change (String a (p +:+ t)) with (String a p +:+ t).
  rewrite has_prefix_app, trim_prefix_app. f_equal. by apply replace_from_none.
Qed.

(** ** Statements return *)

Section returning.
Context {T M : Type}.

Lemma returns_statement : returns (statement (T := T) (M := M)).
Proof. intros s. unfold statement. by destruct (faults s) as [|[]]. Qed.

Lemma returns_query {A} (q : T -> A) : returns (query (M := M) q).
Proof. apply returns_bind; [apply returns_statement|]. intros _. by apply returns_bind. Qed.

Lemma returns_exec (f : T -> option T) : returns (exec (M := M) f).
Proof.
  apply returns_bind; [apply returns_statement|]. intros _. apply returns_bind; [done|]. intros s. by destruct (f _).
Qed.

Lemma returns_get_mem : returns (get_mem : dbm T M M).
Proof. done. Qed.
Lemma returns_put_mem m : returns (put_mem m : dbm T M unit).
Proof. done. Qed.

Lemma returns_DoTxn {A} (body : dbm T M A) : returns body -> returns (DoTxn body).
Proof.
  intros H s. unfold DoTxn, ends. pose proof (returns_statement s) as H1. destruct (statement s) as [s1 [[]|e| |]]; try done.
  specialize (H s1). destruct (body s1) as [s2 [x|e| |]]; try done.
  pose proof (returns_statement s2) as H2. by destruct (statement s2) as [s3 [[]|e| |]].
Qed.
End returning.

End sql.

#[export] Hint Resolve sql.returns_statement sql.returns_query sql.returns_exec sql.returns_get_mem sql.returns_put_mem sql.returns_DoTxn : returns.
