(* ===== verification/Sessions.v ===== *)
(** * store/sqlstore/store.go, store/signal.go, store/sessioncache.go: Signal state

    [sessions]: the tables of identity keys, sessions and sender keys, with the
    migration of a user's rows from the phone number to the LID.
    [sessioncache]: loading and storing sessions through the cache that a
    context carries, which gives out pointers to the records it holds; for clients
    that store what they change it refines loading and storing them directly. *)

From S2P Require Import Prelude GoStrings StateErr Jid Sql.

#[local] Open Scope string_scope.
#[local] Open Scope list_scope.
#[local] Open Scope Z_scope.

Module sessions.

Import jid sql.

(** The rows of one device: addresses are [user:device]. *)
Record tables := mkTables {
  identity_keys : gmap string bytes;
  session_rows : gmap string bytes;
  sender_keys : gmap (string * string) bytes     (* chat and sender *)
}.

Definition set_identity_keys m t := mkTables m (session_rows t) (sender_keys t).
Definition set_session_rows m t := mkTables (identity_keys t) m (sender_keys t).
Definition set_sender_keys m t := mkTables (identity_keys t) (session_rows t) m.

(** In memory: migratedPNSessionsCache. *)
Abbreviation signal_store := (db tables (gset string)).
Notation ss A := (stm signal_store sql_error A).

(** [DELETE ... WHERE]. *)
Definition delete_where {K V} `{Countable K} (sel : K -> bool) (m : gmap K V) : gmap K V :=
  filter (fun r => sel (fst r) = false) m.

Definition update (f : tables -> tables) : ss unit := exec (fun t => Some (f t)).

(** ** Identity keys *)

Definition PutIdentity (address : string) (key : bytes) : ss unit :=
  update (fun t => set_identity_keys (<[address := key]> (identity_keys t)) t).

Definition DeleteAllIdentities (phone : string) : ss unit :=
  update (fun t => set_identity_keys (delete_where (like (phone +:+ ":%")) (identity_keys t)) t).

(** With the query of [DeleteAllIdentities]: the address is a pattern. *)
Definition DeleteIdentity (address : string) : ss unit :=
  update (fun t => set_identity_keys (delete_where (like address) (identity_keys t)) t).

Definition IsTrustedIdentity (address : string) (key : bytes) : ss bool :=
  r ← query (fun t => identity_keys t !! address);
  match r with
  | None => mret true
  | Some existing => if blen existing =? 32 then mret (bool_decide (existing = key)) else throw ErrInvalidLength
  end.

(** ** Sessions *)

Definition GetSession (address : string) : ss (option bytes) := query (fun t => session_rows t !! address).

Definition HasSession (address : string) : ss bool := query (fun t => bool_decide (is_Some (session_rows t !! address))).

(** [WHERE their_id IN (...)]. *)
Definition rows_of (addresses : list string) (m : gmap string bytes) : list (string * bytes) :=
  map_to_list (filter (fun r => fst r ∈ addresses) m).

Definition GetManySessions (addresses : list string) : ss (gmap string (option bytes)) :=
  match addresses with
  | [] => mret ∅
  | _ =>
      rs ← query (fun t => rows_of addresses (session_rows t));
      let none := foldl (fun m a => <[a := None]> m) ∅ addresses in
      mret (foldl (fun m r => <[fst r := Some (snd r)]> m) none rs)
  end.

Definition PutSession (address : string) (session : bytes) : ss unit :=
  update (fun t => set_session_rows (<[address := session]> (session_rows t)) t).

(** The loop over a map, in some order. *)
Fixpoint put_each (l : list (string * bytes)) : ss unit :=
  match l with
  | [] => mret tt
  | (addr, sess) :: l => PutSession addr sess ;; put_each l
  end.

Definition PutManySessions (l : list (string * bytes)) : ss unit := DoTxn (put_each l).

Definition deleteAllSessions (phone : string) : ss unit :=
  update (fun t => set_session_rows (delete_where (like (phone +:+ ":%")) (session_rows t)) t).

Definition DeleteAllSessions (phone : string) : ss unit := deleteAllSessions phone.

Definition DeleteSession (address : string) : ss unit :=
  update (fun t => set_session_rows (delete address (session_rows t)) t).

(** ** Sender keys *)

Definition PutSenderKey (group user : string) (session : bytes) : ss unit :=
  update (fun t => set_sender_keys (<[(group, user) := session]> (sender_keys t)) t).

Definition GetSenderKey (group user : string) : ss (option bytes) := query (fun t => sender_keys t !! (group, user)).

Definition deleteAllSenderKeys (phone : string) : ss unit :=
  update (fun t => set_sender_keys (delete_where (fun k => like (phone +:+ ":%") (snd k)) (sender_keys t)) t).

Definition deleteAllIdentityKeys (phone : string) : ss unit :=
  update (fun t => set_identity_keys (delete_where (like (phone +:+ ":%")) (identity_keys t)) t).

(** ** Migration *)

(** [INSERT ... SELECT ... ON CONFLICT DO UPDATE]: the selected rows again,
    under another key. *)
Definition copy_rows {K V} `{Countable K} (sel : K -> bool) (ren : K -> K) (m : gmap K V) : gmap K V :=
  foldr (fun r acc => <[ren (fst r) := snd r]> acc) m (map_to_list (filter (fun r => sel (fst r) = true) m)).

Definition migrateSessions (pn lid : string) : ss unit :=
  update (fun t => set_session_rows (copy_rows (like (pn +:+ ":%")) (fun a => replace a pn lid) (session_rows t)) t).

Definition migrateIdentityKeys (pn lid : string) : ss unit :=
  update (fun t => set_identity_keys (copy_rows (like (pn +:+ ":%")) (fun a => replace a pn lid) (identity_keys t)) t).

Definition migrateSenderKeys (pn lid : string) : ss unit :=
  update (fun t => set_sender_keys (copy_rows (fun k => like (pn +:+ ":%") (snd k))
                                              (fun k => (fst k, replace (snd k) pn lid)) (sender_keys t)) t).

Definition migration (pn lid : string) : ss unit :=
  migrateSessions pn lid ;; deleteAllSessions pn ;;
  migrateIdentityKeys pn lid ;; deleteAllIdentityKeys pn ;;
  migrateSenderKeys pn lid ;; deleteAllSenderKeys pn.

(** The user is put into the cache before the transaction. *)
Definition MigratePNToLID (pn lid : JID) : ss unit :=
  let pnSignal := SignalAddressUser pn in
  let lidSignal := SignalAddressUser lid in
  migrated ← get_mem;
  if decide (pnSignal ∈ migrated) then mret tt
  else
    put_mem ({[pnSignal]} ∪ migrated);;
    DoTxn (migration pnSignal lidSignal).

(** The library's own use of the two tables: message.go. *)
Definition clearUntrustedIdentity (address : string) : ss unit := DeleteIdentity address ;; DeleteSession address.

(** ** Lemmas: rows *)

Lemma update_works f s : works s -> update f s = (set_rows (f (rows s)) s, Ok tt).
Proof. intros H. by apply exec_works. Qed.

Lemma update_bind {A} f (k : unit -> ss A) s : works s -> (update f ≫= k) s = k tt (set_rows (f (rows s)) s).
Proof. intros H. by apply stm_bind_ok, update_works. Qed.

Lemma delete_where_lookup {K V} `{Countable K} (sel : K -> bool) (m : gmap K V) k :
  delete_where sel m !! k = if sel k then None else m !! k.
Proof.
  unfold delete_where. destruct (m !! k) as [v|] eqn:E.
  - destruct (sel k) eqn:S.
    + apply map_lookup_filter_None. right. intros v' _. cbn. congruence.
    + by apply map_lookup_filter_Some.
  - rewrite (proj2 (map_lookup_filter_None _ _ _)) by (by left). by destruct (sel k).
Qed.

Lemma foldr_insert_lookup {K V} `{Countable K} (ren : K -> K) (l : list (K * V)) (m : gmap K V) k v :
  foldr (fun r acc => <[ren (fst r) := snd r]> acc) m l !! k = Some v <->
  (exists l1 a l2, l = l1 ++ (a, v) :: l2 /\ ren a = k /\ Forall (fun r => ren (fst r) <> k) l1) \/
  (Forall (fun r => ren (fst r) <> k) l /\ m !! k = Some v).
Proof.
  induction l as [|[a w] l IH]; cbn [foldr fst snd].
  { split; [right; auto|]. intros [(l1 & b & l2 & E & _)|[_ E]]; [by destruct l1|done]. }
  destruct (decide (ren a = k)) as [<-|Ha].
  - rewrite lookup_insert_eq. split.
    + intros [= ->]. left. exists [], a, l. auto.
    + intros [([|r l1] & b & l2 & E & Hb & Hl)|[Hl _]].
      * injection E. congruence.
      * injection E as <- ->. apply Forall_cons in Hl as [Hl _]. done.
      * apply Forall_cons in Hl as [Hl _]. done.
  - rewrite lookup_insert_ne by done. rewrite IH. split.
    + intros [(l1 & b & l2 & -> & Hb & Hl)|[Hl Hm]].
      * left. exists ((a, w) :: l1), b, l2. auto.
      * right. auto.
    + intros [([|r l1] & b & l2 & E & Hb & Hl)|[Hl Hm]].
      * injection E as -> -> ->. done.
      * injection E as <- ->. apply Forall_cons in Hl as [_ Hl]. left. eauto 8.
      * apply Forall_cons in Hl as [_ Hl]. auto.
Qed.

Section moved.
Context {K V : Type} `{Countable K} (sel : K -> bool) (ren : K -> K) (m : gmap K V).
Hypothesis ren_inj : forall a b, sel a = true -> is_Some (m !! a) -> sel b = true -> is_Some (m !! b) -> ren a = ren b -> a = b.
Hypothesis ren_out : forall a, sel a = true -> is_Some (m !! a) -> sel (ren a) = false.

Definition moved : gmap K V := delete_where sel (copy_rows sel ren m).

Lemma selected a v :
  (a, v) ∈ map_to_list (filter (fun r : K * V => sel (fst r) = true) m) <-> m !! a = Some v /\ sel a = true.
Proof. rewrite elem_of_map_to_list. apply map_lookup_filter_Some. Qed.

(** A selected row is found under its new key, *)
Lemma moved_to a v : sel a = true -> m !! a = Some v -> moved !! ren a = Some v.
Proof.
  intros Ha Hm. unfold moved. rewrite delete_where_lookup, ren_out by eauto.
  unfold copy_rows. apply foldr_insert_lookup. left.
  pose proof (proj2 (selected a v) (conj Hm Ha)) as Hin.
  apply list_elem_of_split in Hin as (l1 & l2 & El).
  exists l1, a, l2. split; [done|]. split; [done|].
  rewrite Forall_forall. intros [b w] Hb Er. cbn [fst] in Er.
  assert ((b, w) ∈ map_to_list (filter (fun r : K * V => sel (fst r) = true) m)) as Hin.
  { rewrite El. apply elem_of_app. by left. }
  apply selected in Hin as [Hw Hs]. assert (b = a) as -> by (apply ren_inj; eauto).
  assert (w = v) as -> by congruence.
  pose proof (NoDup_map_to_list (filter (fun r : K * V => sel (fst r) = true) m)) as Hnd.
  rewrite El in Hnd. apply NoDup_app in Hnd as (_ & Hnd & _). apply (Hnd _ Hb). by left.
Qed.

(** no longer under its old one, *)
Lemma moved_from a : sel a = true -> moved !! a = None.
Proof. intros Ha. unfold moved. by rewrite delete_where_lookup, Ha. Qed.

(** and the others are where they were. *)
Lemma moved_other k : sel k = false ->
  (forall a, sel a = true -> is_Some (m !! a) -> ren a <> k) -> moved !! k = m !! k.
Proof.
  intros Hk Hn. unfold moved. rewrite delete_where_lookup, Hk. apply option_eq. intros v.
  unfold copy_rows. rewrite foldr_insert_lookup. split.
  - intros [(l1 & a & l2 & El & Hr & _)|[_ Hm]]; [|done]. exfalso.
    assert ((a, v) ∈ map_to_list (filter (fun r : K * V => sel (fst r) = true) m)) as Hin.
    { rewrite El. apply elem_of_app. right. by left. }
    apply selected in Hin as [Hm Hs]. by apply (Hn a); eauto.
  - intros Hm. right. split; [|done]. rewrite Forall_forall. intros [b w] Hb.
    apply selected in Hb as [Hw Hs]. apply Hn; eauto.
Qed.
End moved.

(** ** Lemmas: addresses *)

Lemma colon_split p q d e : str_contains ":" p = false -> str_contains ":" q = false ->
  p +:+ ":" +:+ d = q +:+ ":" +:+ e -> p = q /\ d = e.
Proof.
  intros Hp Hq E.
  assert (split_on ":" (p +:+ ":" +:+ d) = p :: split_on ":" d) as H1 by (by apply split_on_app).
  assert (split_on ":" (q +:+ ":" +:+ e) = q :: split_on ":" e) as H2 by (by apply split_on_app).
  assert (p = q) as <- by congruence. split; [done|]. apply str_app_inj in E. by injection E.
Qed.

(** A user that can be moved: no pattern, and no colon to end it early. *)
Definition user_ok (p q : string) : bool :=
  plain p && negb (String.eqb p "") && negb (String.eqb p q) && negb (str_contains ":" p) && negb (str_contains ":" q).

Lemma user_ok_spec p q : user_ok p q = true ->
  plain p = true /\ p <> "" /\ p <> q /\ str_contains ":" p = false /\ str_contains ":" q = false.
Proof.
  unfold user_ok. rewrite !andb_true_iff, !negb_true_iff, !String.eqb_neq. tauto.
Qed.

(** The address in a key of a table. *)
Record address_in (K : Type) := {
  addr : K -> string;
  set_addr : string -> K -> K;
  addr_set a k : addr (set_addr a k) = a;
  set_set a b k : set_addr a (set_addr b k) = set_addr a k;
  set_same k : set_addr (addr k) k = k
}.
Arguments addr {K}.
Arguments set_addr {K}.

Definition whole : address_in string.
Proof. refine {| addr a := a; set_addr a _ := a |}; done. Defined.

Definition second : address_in (string * string).
Proof. refine {| addr k := snd k; set_addr a k := (fst k, a) |}; [done|done|by intros []]. Defined.

(** What a migration from [p] to [q] does to a table, in terms of addresses. *)
Record migrated {K V} `{Countable K} (l : address_in K) (p q : string) (m m' : gmap K V) : Prop := {
  mig_to k d v : addr l k = p +:+ ":" +:+ d -> m !! k = Some v -> m' !! set_addr l (q +:+ ":" +:+ d) k = Some v;
  mig_from k d : addr l k = p +:+ ":" +:+ d -> m' !! k = None;
  mig_other k :
    (forall d, addr l k <> p +:+ ":" +:+ d) ->
    (forall k' d, addr l k' = p +:+ ":" +:+ d -> is_Some (m !! k') -> set_addr l (q +:+ ":" +:+ d) k' <> k) ->
    m' !! k = m !! k
}.

(** The device parts of the user's rows do not contain the user. *)
Definition movable {K V} `{Countable K} (l : address_in K) (p : string) (m : gmap K V) : Prop :=
  forall k d, is_Some (m !! k) -> addr l k = p +:+ ":" +:+ d -> str_has p (":" +:+ d) = false.

Definition movableb {K V} `{Countable K} (l : address_in K) (p : string) (m : gmap K V) : bool :=
  forallb (fun r => negb (has_prefix p (addr l (fst r))) || negb (str_has p (trim_prefix p (addr l (fst r)))))
    (map_to_list m).

Lemma movableb_sound {K V} `{Countable K} (l : address_in K) p (m : gmap K V) : movableb l p m = true -> movable l p m.
Proof.
  unfold movableb. rewrite forallb_forall. intros Hm k d [v Hk] E.
  assert ((k, v) ∈ map_to_list m) as Hin by (by apply elem_of_map_to_list).
  apply list_elem_of_In in Hin. apply Hm in Hin. cbn [fst] in Hin.
  rewrite E, has_prefix_app, trim_prefix_app in Hin. by apply negb_true_iff in Hin.
Qed.

Lemma table_migrated {K V} `{Countable K} (l : address_in K) p q (m : gmap K V) :
  user_ok p q = true -> movable l p m ->
  migrated l p q m (moved (fun k => like (p +:+ ":%") (addr l k)) (fun k => set_addr l (replace (addr l k) p q) k) m).
Proof.
  intros (Hpl & Hne & Hpq & Hcp & Hcq)%user_ok_spec Hm.
  assert (forall k d, is_Some (m !! k) -> addr l k = p +:+ ":" +:+ d -> replace (addr l k) p q = q +:+ ":" +:+ d) as Hr.
  { intros k d Hk E. rewrite E. by apply replace_user, (Hm k). }
  assert (forall a b, like (p +:+ ":%") (addr l a) = true -> is_Some (m !! a) ->
    like (p +:+ ":%") (addr l b) = true -> is_Some (m !! b) ->
    set_addr l (replace (addr l a) p q) a = set_addr l (replace (addr l b) p q) b -> a = b) as Hinj.
  { intros a b (d & Ea)%(like_user _ _ Hpl) Ha (e & Eb)%(like_user _ _ Hpl) Hb E.
    pose proof (f_equal (addr l) E) as E'. rewrite !addr_set in E'. rewrite (Hr a d), (Hr b e) in E' by done.
    apply str_app_inj, str_app_inj in E' as ->.
    rewrite <- (set_same _ l a), <- (set_same _ l b), Ea, Eb.
    apply (f_equal (set_addr l (p +:+ ":" +:+ e))) in E. by rewrite !set_set in E. }
  assert (forall a, like (p +:+ ":%") (addr l a) = true -> is_Some (m !! a) ->
    like (p +:+ ":%") (addr l (set_addr l (replace (addr l a) p q) a)) = false) as Hout.
  { intros a (d & Ea)%(like_user _ _ Hpl) Ha. rewrite addr_set, (Hr a d) by done.
    apply not_true_is_false. intros (e & E)%(like_user _ _ Hpl). apply colon_split in E as [E _]; congruence. }
  split.
  - intros k d v Ek Hk. rewrite <- (Hr k d) by eauto.
    apply (moved_to (fun k => like (p +:+ ":%") (addr l k)) (fun k => set_addr l (replace (addr l k) p q) k)); try done.
    apply like_user; eauto.
  - intros k d Ek. apply moved_from. apply like_user; eauto.
  - intros k Hk Ho.
    apply (moved_other (fun k => like (p +:+ ":%") (addr l k)) (fun k => set_addr l (replace (addr l k) p q) k)).
    + apply not_true_is_false. intros (d & E)%(like_user _ _ Hpl). by apply (Hk d).
    + intros a (d & Ea)%(like_user _ _ Hpl) Ha E. rewrite (Hr a d) in E by done. by apply (Ho a d).
Qed.
(** ** Migration of a user *)

Lemma moved_sessions pn lid t : set_session_rows
  (delete_where (like (pn +:+ ":%")) (copy_rows (like (pn +:+ ":%")) (fun a => replace a pn lid) (session_rows t))) t =
  set_session_rows (moved (fun k => like (pn +:+ ":%") (addr whole k))
                          (fun k => set_addr whole (replace (addr whole k) pn lid) k) (session_rows t)) t.
Proof. reflexivity. Qed.

(** The tables after the transaction's statements. *)
Definition migrated_tables (p q : string) (t : tables) : tables :=
  mkTables
    (moved (fun k => like (p +:+ ":%") (addr whole k)) (fun k => set_addr whole (replace (addr whole k) p q) k) (identity_keys t))
    (moved (fun k => like (p +:+ ":%") (addr whole k)) (fun k => set_addr whole (replace (addr whole k) p q) k) (session_rows t))
    (moved (fun k => like (p +:+ ":%") (addr second k)) (fun k => set_addr second (replace (addr second k) p q) k) (sender_keys t)).

Lemma migration_works p q s : works s -> migration p q s = (set_rows (migrated_tables p q (rows s)) s, Ok tt).
Proof.
  intros H. unfold migration, migrateSessions, deleteAllSessions, migrateIdentityKeys, deleteAllIdentityKeys,
    migrateSenderKeys, deleteAllSenderKeys.
  rewrite !update_bind by done. by rewrite update_works.
Qed.

Lemma migration_keeps_mem p q : keeps_mem (migration p q).
Proof. unfold migration. repeat (apply keeps_mem_bind; [apply keeps_mem_exec|intros []]). apply keeps_mem_exec. Qed.

Lemma Migrate_first pn lid s : SignalAddressUser pn ∉ mem s ->
  MigratePNToLID pn lid s =
  DoTxn (migration (SignalAddressUser pn) (SignalAddressUser lid)) (set_mem ({[SignalAddressUser pn]} ∪ mem s) s).
Proof.
  intros Hn. unfold MigratePNToLID. rewrite (stm_bind_ok _ _ s s (mem s)) by done.
  rewrite decide_False by done. by rewrite (stm_bind_ok _ _ s (set_mem ({[SignalAddressUser pn]} ∪ mem s) s) tt).
Qed.

Lemma Migrate_again pn lid s : SignalAddressUser pn ∈ mem s -> MigratePNToLID pn lid s = (s, Ok tt).
Proof.
  intros Hn. unfold MigratePNToLID. rewrite (stm_bind_ok _ _ s s (mem s)) by done. by rewrite decide_True.
Qed.

Definition tables_movable (p : string) (t : tables) : Prop :=
  movable whole p (identity_keys t) /\ movable whole p (session_rows t) /\ movable second p (sender_keys t).

(** The first migration of a user on a working database moves every identity
    key, session and sender key of the phone number to the LID, takes them from
    the phone number and leaves every other row; from then on the migration of
    this user does nothing. *)
Theorem MigratePNToLID_moves pn lid s :
  let p := SignalAddressUser pn in let q := SignalAddressUser lid in
  works s -> p ∉ mem s -> user_ok p q = true -> tables_movable p (rows s) ->
  exists s', MigratePNToLID pn lid s = (s', Ok tt) /\
    migrated whole p q (identity_keys (rows s)) (identity_keys (rows s')) /\
    migrated whole p q (session_rows (rows s)) (session_rows (rows s')) /\
    migrated second p q (sender_keys (rows s)) (sender_keys (rows s')) /\
    forall lid', MigratePNToLID pn lid' s' = (s', Ok tt).
Proof.
  intros p q Hw Hn Hu (H1 & H2 & H3).
  exists (set_rows (migrated_tables p q (rows s)) (set_mem ({[p]} ∪ mem s) s)).
  split; [|split; [|split; [|split]]].
  - rewrite Migrate_first by done. apply DoTxn_works; [done| |done]. by rewrite migration_works.
  - by apply table_migrated.
  - by apply table_migrated.
  - by apply table_migrated.
  - intros lid'. apply Migrate_again. cbn [mem set_rows set_mem]. set_solver.
Qed.

(** A migration that fails has moved nothing and is never tried again: the
    user is taken for migrated before the transaction. *)
Theorem failed_migration_forgotten pn lid s s' o :
  SignalAddressUser pn ∉ mem s -> MigratePNToLID pn lid s = (s', o) -> is_ok o = false ->
  rows s' = rows s /\ forall lid' fs, MigratePNToLID pn lid' (set_faults fs s') = (set_faults fs s', Ok tt).
Proof.
  intros Hn H Ho. rewrite Migrate_first in H by done.
  pose proof (DoTxn_atomic _ _ _ _ H Ho) as Hr. split; [exact Hr|].
  apply (keeps_mem_DoTxn _ (migration_keeps_mem _ _)) in H.
  intros lid' fs. apply Migrate_again. change (mem (set_faults fs s')) with (mem s'). rewrite H.
  cbn [mem set_mem]. set_solver.
Qed.

(** ** Deleting an identity key *)

(** [SignalAddress.String] of libsignal. *)
Definition address_text (j : JID) : string := SignalAddressUser j +:+ ":" +:+ itoa (snd (SignalAddress j)).

Lemma DeleteIdentity_lookup a s k : works s ->
  identity_keys (rows (fst (DeleteIdentity a s))) !! k = if like a k then None else identity_keys (rows s) !! k.
Proof.
  intros Hw. unfold DeleteIdentity. rewrite update_works by done.
  cbn [fst rows set_rows identity_keys set_identity_keys]. apply delete_where_lookup.
Qed.

(** Deleting the identity key of a LID also deletes the one of any phone number
    whose digits are the LID's, one digit and a one: the address is used as a
    pattern, and the [_1] that every LID address holds matches any digit and a one. *)
Theorem DeleteIdentity_deletes_others lid pn c s :
  works s -> Server lid = HiddenUserServer -> Server pn = DefaultUserServer ->
  User pn = User lid +:+ String c "1" -> Device pn = Device lid ->
  let s' := fst (DeleteIdentity (address_text lid) s) in
  identity_keys (rows s') !! address_text lid = None /\ identity_keys (rows s') !! address_text pn = None.
Proof.
  intros Hw Hl Hp Hu Hd s'. unfold s'. rewrite !DeleteIdentity_lookup by done.
  assert (address_text lid = User lid +:+ String "_" ("1:" +:+ itoa (u32 (Device lid)))) as El.
  { unfold address_text, SignalAddress, SignalAddressUser, ActualAgent. cbn [snd].
    rewrite bool_decide_eq_false_2 by (by rewrite Hl). rewrite bool_decide_eq_true_2 by done.
    change (LIDDomain =? 0) with false. cbn match. change (itoa LIDDomain) with "1".
    rewrite !str_app_assoc. reflexivity. }
  assert (address_text pn = User lid +:+ String c ("1:" +:+ itoa (u32 (Device lid)))) as Ep.
  { unfold address_text, SignalAddress, SignalAddressUser, ActualAgent. cbn [snd].
    rewrite bool_decide_eq_true_2 by done. change (WhatsAppDomain =? 0) with true. cbn match.
    rewrite Hu, Hd, !str_app_assoc. reflexivity. }
  rewrite like_self. split; [done|]. by rewrite Ep, El, like_any_char.
Qed.
(** ** Use at concrete inputs *)

Definition pn_user : JID := mkJID "15551234567" 0 0 0 DefaultUserServer.
Definition lid_user : JID := mkJID "1000" 0 0 0 HiddenUserServer.

Definition sample_tables : tables :=
  mkTables {["15551234567:0" := [x01]; "777:0" := [x02]]}
           {["15551234567:12" := [x03]; "15551234567:0" := [x04]; "1000_1:0" := [x05]]}
           {[("g@g.us", "15551234567:0") := [x06]]}.

Definition sample_store (fs : list bool) : signal_store := mkDb sample_tables ∅ fs.

Lemma MigratePNToLID_moves_witness : exists s',
  MigratePNToLID pn_user lid_user (sample_store []) = (s', Ok tt) /\
  session_rows (rows s') = {["1000_1:12" := [x03]; "1000_1:0" := [x04]]}.
Proof.
  destruct (MigratePNToLID_moves pn_user lid_user (sample_store [])) as (s' & H & _).
  - reflexivity.
  - apply (bool_decide_unpack _). vm_compute. exact I.
  - reflexivity.
  - split; [|split]; apply movableb_sound; vm_compute; reflexivity.
  - exists s'. split; [exact H|].
    assert (session_rows (rows (fst (MigratePNToLID pn_user lid_user (sample_store [])))) =
      {["1000_1:12" := [x03]; "1000_1:0" := [x04]]}) as E by (vm_compute; reflexivity).
    rewrite H in E. exact E.
Defined.

Lemma failed_migration_forgotten_witness :
  let s' := fst (MigratePNToLID pn_user lid_user (sample_store [false; false; true])) in
  rows s' = sample_tables /\ forall lid' fs, MigratePNToLID pn_user lid' (set_faults fs s') = (set_faults fs s', Ok tt).
Proof.
  apply (failed_migration_forgotten pn_user lid_user (sample_store [false; false; true]) _
    (Err ErrDatabase)).
  - apply (bool_decide_unpack _). vm_compute. exact I.
  - vm_compute. reflexivity.
  - reflexivity.
Defined.

Definition two_identities : signal_store :=
  mkDb (mkTables {["1000_1:0" := [x01]; "100051:0" := [x02]]} ∅ ∅) ∅ [].

Lemma DeleteIdentity_deletes_others_witness :
  let other := mkJID "100051" 0 0 0 DefaultUserServer in
  is_Some (identity_keys (rows two_identities) !! address_text other) /\
  identity_keys (rows (fst (DeleteIdentity (address_text lid_user) two_identities))) !! address_text other = None.
Proof.
  split; [vm_compute; eauto|].
  apply (DeleteIdentity_deletes_others lid_user (mkJID "100051" 0 0 0 DefaultUserServer) "5" two_identities); reflexivity.
Defined.

End sessions.

Module sessioncache.

Import sql sessions.

Section cache.
(** libsignal's session records. *)
Context {R : Type} (Serialize : R -> bytes) (NewSessionFromBytes : bytes -> option R) (NewSession : R).

(** [Rec] points to a record. *)
Record sessionCacheEntry := mkEntry { Dirty : bool; Found : bool; Rec : nat }.

(** The store, the records that exist, and the cache the context carries, if any. *)
Record cached_store := mkCached { cs_store : signal_store; cs_records : list R; cs_cache : option (gmap string sessionCacheEntry) }.

Inductive cache_error := ErrStore (e : sql_error) | ErrDeserialize.

Notation cs A := (stm cached_store cache_error A).

Definition in_store {A} (m : signal_store -> signal_store * outcome sql_error A) : cs A := fun s =>
  let '(st, o) := m (cs_store s) in (mkCached st (cs_records s) (cs_cache s), map_err ErrStore o).

Definition new_record (r : R) : cs nat := fun s =>
  (mkCached (cs_store s) (cs_records s ++ [r]) (cs_cache s), Ok (length (cs_records s))).

(** Reading and changing a record in place. *)
Definition record_at (l : nat) : cs R := fun s => (s, match cs_records s !! l with Some r => Ok r | None => Panic end).
Definition change_record (l : nat) (f : R -> R) : cs unit := fun s =>
  (mkCached (cs_store s) (alter f l (cs_records s)) (cs_cache s), Ok tt).

Definition getCachedSession (s : cached_store) (a : string) : option nat :=
  c ← cs_cache s; e ← c !! a; Some (Rec e).

Definition putCachedSession (s : cached_store) (a : string) (l : nat) : option cached_store :=
  c ← cs_cache s; Some (mkCached (cs_store s) (cs_records s) (Some (<[a := mkEntry true true l]> c))).

(** What a stored session loads as. *)
Definition load_raw (raw : option bytes) : option R :=
  match raw with None => Some NewSession | Some b => NewSessionFromBytes b end.

(** The pointer in the cache, or one to a new record. *)
Definition LoadSession (a : string) : cs nat :=
  s ← get_state;
  match getCachedSession s a with
  | Some l => mret l
  | None =>
      raw ← in_store (GetSession a);
      match load_raw raw with Some r => new_record r | None => throw ErrDeserialize end
  end.

(** The cache is given the pointer, the store what is there now. *)
Definition StoreSession (a : string) (l : nat) : cs unit :=
  s ← get_state;
  match putCachedSession s a l with
  | Some s' => put_state s'
  | None => r ← record_at l; in_store (PutSession a (Serialize r))
  end.

Definition found (raw : option bytes) : bool := match raw with Some _ => true | None => false end.

(** The loop of WithCachedSessions; sessions that do not parse are left out. *)
Fixpoint wrap_sessions (l : list (string * option bytes)) (records : list R) (c : gmap string sessionCacheEntry) :
    list R * gmap string sessionCacheEntry :=
  match l with
  | [] => (records, c)
  | (a, raw) :: l =>
      match load_raw raw with
      | Some r => wrap_sessions l (records ++ [r]) (<[a := mkEntry false (found raw) (length records)]> c)
      | None => wrap_sessions l records c
      end
  end.

Definition WithCachedSessions (addresses : list string) : cs (gmap string bool) :=
  match addresses with
  | [] => mret ∅
  | _ =>
      sessions ← in_store (GetManySessions addresses);
      s ← get_state;
      let '(records, wrapped) := wrap_sessions (map_to_list sessions) (cs_records s) ∅ in
      put_state (mkCached (cs_store s) records (Some wrapped));;
      mret (Found <$> wrapped)
  end.

(** Serialized as the records are now. *)
Definition dirty_sessions (records : list R) (c : gmap string sessionCacheEntry) : gmap string bytes :=
  omap (fun e => if Dirty e then Serialize <$> records !! Rec e else None) c.

Definition PutCachedSessions : cs unit :=
  s ← get_state;
  match cs_cache s with
  | None => mret tt
  | Some c =>
      let dirty := dirty_sessions (cs_records s) c in
      (if decide (dirty = ∅) then mret tt else in_store (PutManySessions (map_to_list dirty)));;
      s ← get_state;
      put_state (mkCached (cs_store s) (cs_records s) (Some ∅))
  end.

(** ** Clients *)

(** A client holds pointers to records in variables; what it does next depends on what
    it has read in them. It changes records in place. *)
Inductive client (A : Type) :=
  | Return (a : A)
  | LoadThen (addr : string) (x : nat) (k : outcome cache_error unit -> client A)
  | ReadThen (x : nat) (k : option R -> client A)
  | ChangeThen (x : nat) (f : R -> R) (k : client A)
  | StoreThen (addr : string) (x : nat) (k : outcome cache_error unit -> client A).
Arguments Return {A}.
Arguments LoadThen {A}.
Arguments ReadThen {A}.
Arguments ChangeThen {A}.
Arguments StoreThen {A}.

Abbreviation variables := (gmap nat nat).

Fixpoint run {A} (p : client A) (vs : variables) (s : cached_store) : cached_store * A :=
  match p with
  | Return a => (s, a)
  | LoadThen a x k =>
      match LoadSession a s with
      | (s', Ok l) => run (k (Ok tt)) (<[x := l]> vs) s'
      | (s', Err e) => run (k (Err e)) (delete x vs) s'
      | (s', Panic) => run (k Panic) (delete x vs) s'
      | (s', NoFuel) => run (k NoFuel) (delete x vs) s'
      end
  | ReadThen x k => run (k (l ← vs !! x; cs_records s !! l)) vs s
  | ChangeThen x f k => run k vs (match vs !! x with Some l => fst (change_record l f s) | None => s end)
  | StoreThen a x k =>
      match vs !! x with
      | Some l => let '(s', o) := StoreSession a l s in run (k o) vs s'
      | None => run (k Panic) vs s
      end
  end.

(** What a variable holds: the session of an address, changed since it was loaded or
    stored, or not. *)
Abbreviation holding := (gmap nat (string * bool)).

(** Loading an address into a variable makes those that held that address stale. *)
Definition stale (a : string) (x : nat) (h : holding) : holding := filter (fun '(y, (b, _)) => y <> x /\ b <> a) h.

Definition clean (h : holding) : Prop := forall y b changed, h !! y = Some (b, changed) -> changed = false.

(** A client that stores what it has changed under the address it is from, before it
    loads that address again and before it ends, and that does not go on with a record
    once it has loaded the address anew. *)
Fixpoint disciplined {A} (h : holding) (p : client A) : Prop :=
  match p with
  | Return _ => clean h
  | LoadThen a x k =>
      (forall y b, h !! y = Some (b, true) -> y <> x /\ b <> a) /\
      disciplined (<[x := (a, false)]> (stale a x h)) (k (Ok tt)) /\ forall e, disciplined (stale a x h) (k (Err e))
  | ReadThen x k => is_Some (h !! x) /\ forall r, disciplined h (k r)
  | ChangeThen x f k => exists a changed, h !! x = Some (a, changed) /\ disciplined (<[x := (a, true)]> h) k
  | StoreThen a x k => exists changed, h !! x = Some (a, changed) /\ disciplined (<[x := (a, false)]> h) (k (Ok tt))
  end.

(** ** The cache refines the store *)

(** Changed and not yet stored. *)
Definition unstored (h : holding) (a : string) : Prop := exists x, h !! x = Some (a, true).

(** A variable without the cache and with it: the same contents, in records that
    belong to its address; what is not changed is what is stored. *)
Definition same_record (d s : cached_store) (vd vs : variables) (od os : list string) (x : nat) (a : string) (changed : bool) : Prop :=
  exists ld ls r, vd !! x = Some ld /\ vs !! x = Some ls /\ cs_records d !! ld = Some r /\ cs_records s !! ls = Some r /\
    od !! ld = Some a /\ os !! ls = Some a /\ (changed = false -> load_raw (session_rows (rows (cs_store d)) !! a) = Some r).

(** An entry of the cache, when its session is stored: what the store without the cache
    has. *)
Definition entry_stored (d s : cached_store) (a : string) (e : sessionCacheEntry) : Prop :=
  if Dirty e then exists r, cs_records s !! Rec e = Some r /\ session_rows (rows (cs_store d)) !! a = Some (Serialize r)
  else load_raw (session_rows (rows (cs_store d)) !! a) = cs_records s !! Rec e.

(** [od], [os]: the address of each record, without the cache and with it. *)
Record simulates (d s : cached_store) (c : gmap string sessionCacheEntry) (vd vs : variables) (od os : list string) (h : holding) : Prop := {
  sim_direct : cs_cache d = None;
  sim_cache : cs_cache s = Some c;
  sim_works : works (cs_store d) /\ works (cs_store s);
  sim_mem : mem (cs_store s) = mem (cs_store d);
  sim_identity : identity_keys (rows (cs_store s)) = identity_keys (rows (cs_store d));
  sim_sender : sender_keys (rows (cs_store s)) = sender_keys (rows (cs_store d));
  sim_owners : length od = length (cs_records d) /\ length os = length (cs_records s);
  sim_row a : match c !! a with
    | Some e => os !! Rec e = Some a /\ is_Some (cs_records s !! Rec e) /\
        (Dirty e = false -> session_rows (rows (cs_store d)) !! a = session_rows (rows (cs_store s)) !! a) /\
        (~ unstored h a -> entry_stored d s a e)
    | None => session_rows (rows (cs_store d)) !! a = session_rows (rows (cs_store s)) !! a
    end;
  sim_held x a changed : h !! x = Some (a, changed) -> same_record d s vd vs od os x a changed;
  sim_one x y a b b' : h !! x = Some (a, b) -> h !! y = Some (a, b') -> x = y
}.

Hypothesis from_bytes : forall r, NewSessionFromBytes (Serialize r) = Some r.

Lemma GetSession_works a st : works st -> GetSession a st = (st, Ok (session_rows (rows st) !! a)).
Proof. intros H. unfold GetSession. by rewrite query_works. Qed.

Definition with_records (l : list R) (s : cached_store) : cached_store := mkCached (cs_store s) l (cs_cache s).

(** Loading from the store. *)
Lemma LoadSession_store a s : getCachedSession s a = None -> works (cs_store s) -> LoadSession a s =
  match load_raw (session_rows (rows (cs_store s)) !! a) with
  | Some r => (with_records (cs_records s ++ [r]) s, Ok (length (cs_records s)))
  | None => (s, Err ErrDeserialize)
  end.
Proof.
  intros Hc Hw. unfold LoadSession, mbind, stm_bind, get_state. rewrite Hc. unfold in_store. rewrite (GetSession_works _ _ Hw).
  destruct s as [st l c]. cbn [cs_store cs_records cs_cache map_err]. by destruct (load_raw _).
Qed.

Lemma LoadSession_cached a s e c : cs_cache s = Some c -> c !! a = Some e -> LoadSession a s = (s, Ok (Rec e)).
Proof. intros Hc He. unfold LoadSession, mbind, stm_bind, get_state, getCachedSession. rewrite Hc. cbn. by rewrite He. Qed.

Lemma getCachedSession_none a s : match cs_cache s with Some c => c !! a = None | None => True end -> getCachedSession s a = None.
Proof. unfold getCachedSession. destruct (cs_cache s) as [c|]; [|done]. cbn. by intros ->. Qed.

(** A session that is stored is what the cache has. *)
Lemma entry_stored_raw d s a e : entry_stored d s a e -> is_Some (cs_records s !! Rec e) ->
  load_raw (session_rows (rows (cs_store d)) !! a) = cs_records s !! Rec e.
Proof. unfold entry_stored. destruct (Dirty e); [|done]. intros (r & Hr & ->) _. rewrite Hr. apply from_bytes. Qed.

(** *** Steps of the simulation *)

(** More records. *)
Lemma sim_more d s c vd vs od os h ld ls ad as_ : simulates d s c vd vs od os h -> length ld = length ad -> length ls = length as_ ->
  simulates (with_records (cs_records d ++ ld) d) (with_records (cs_records s ++ ls) s) c vd vs (od ++ ad) (os ++ as_) h.
Proof.
  intros [Hd Hc Hw Hm Hi Hk [Hod Hos] Hr Hh Ho] El Es. split; try done.
  - cbn. by rewrite !length_app, Hod, Hos, El, Es.
  - intros a. specialize (Hr a). destruct (c !! a) as [e|]; [|done]. destruct Hr as (H1 & [r H2] & H3 & H4). cbn [with_records cs_records cs_store].
    split; [by apply lookup_app_l_Some|]. split; [exists r; by apply lookup_app_l_Some|]. split; [done|]. intros Hu. specialize (H4 Hu).
    unfold entry_stored in *. cbn [with_records cs_records cs_store]. rewrite (lookup_app_l_Some _ _ _ _ H2). by rewrite H2 in H4.
  - intros x a b Hx. destruct (Hh x a b Hx) as (l1 & l2 & r & H1 & H2 & H3 & H4 & H5 & H6 & H7). exists l1, l2, r.
    cbn [with_records cs_records cs_store]. split_and!; try done; by apply lookup_app_l_Some.
Qed.

Definition no_change (a : string) (x : nat) (h : holding) : Prop := forall y b, h !! y = Some (b, true) -> y <> x /\ b <> a.

Lemma stale_Some a x h y b changed : stale a x h !! y = Some (b, changed) <-> h !! y = Some (b, changed) /\ y <> x /\ b <> a.
Proof. unfold stale. rewrite map_lookup_filter_Some. naive_solver. Qed.

Lemma stale_unstored a x h b : no_change a x h -> unstored (stale a x h) b <-> unstored h b.
Proof.
  intros Hn. split; intros [y Hy].
  - apply stale_Some in Hy as [Hy _]. by exists y.
  - exists y. apply stale_Some. split; [done|]. by apply Hn.
Qed.

(** Less held. *)
Lemma sim_stale d s c vd vs od os h a x : simulates d s c vd vs od os h -> no_change a x h ->
  simulates d s c (delete x vd) (delete x vs) od os (stale a x h).
Proof.
  intros [Hd Hc Hw Hm Hi Hk Hl Hr Hh Ho] Hn. split; try done.
  - intros b. specialize (Hr b). destruct (c !! b) as [e|]; [|done]. by rewrite stale_unstored.
  - intros y b changed (Hy & Hne & _)%stale_Some. destruct (Hh _ _ _ Hy) as (l1 & l2 & r & H). exists l1, l2, r.
    by rewrite !lookup_delete_ne by done.
  - intros y z b t t' [Hy _]%stale_Some [Hz _]%stale_Some. by eapply Ho.
Qed.

(** A session that has been loaded. *)
Lemma sim_loaded d s c vd vs od os h a x ld ls r : simulates d s c vd vs od os h -> no_change a x h ->
  cs_records d !! ld = Some r -> cs_records s !! ls = Some r -> od !! ld = Some a -> os !! ls = Some a ->
  load_raw (session_rows (rows (cs_store d)) !! a) = Some r ->
  simulates d s c (<[x := ld]> vd) (<[x := ls]> vs) od os (<[x := (a, false)]> (stale a x h)).
Proof.
  intros Hs Hn H1 H2 H3 H4 H5. apply (sim_stale _ _ _ _ _ _ _ _ a x) in Hs; [|done]. destruct Hs as [Hd Hc Hw Hm Hi Hk Hl Hr Hh Ho].
  assert (stale a x h !! x = None) as Hx.
  { destruct (stale a x h !! x) as [[b t]|] eqn:E; [|done]. by apply stale_Some in E as (_ & ? & _). }
  split; try done.
  - intros b. specialize (Hr b). destruct (c !! b) as [e|]; [|done]. destruct Hr as (G1 & G2 & G3 & G4). split_and!; [done..|].
    intros Hu. apply G4. intros [y Hy]. apply Hu. exists y. rewrite lookup_insert_ne; [done|]. intros <-. congruence.
  - intros y b changed. destruct (decide (x = y)) as [<-|Hne].
    + rewrite lookup_insert_eq. intros [= <- <-]. exists ld, ls, r. by rewrite !lookup_insert_eq.
    + rewrite lookup_insert_ne by done. intros Hy. destruct (Hh _ _ _ Hy) as (l1 & l2 & r' & G1 & G2 & G). exists l1, l2, r'.
      rewrite lookup_delete_ne in G1, G2 by done. by rewrite !lookup_insert_ne by done.
  - intros y z b t t'. rewrite !lookup_insert_Some. intros [[<- [= <- <-]]|[_ Hy]] [[<- [= E]]|[_ Hz]]; [done| | |by eapply Ho].
    + by apply stale_Some in Hz as (_ & _ & ?).
    + subst. by apply stale_Some in Hy as (_ & _ & ?).
Qed.

(** Changing a record that is held. *)
Lemma sim_change d s c vd vs od os h x a changed f : simulates d s c vd vs od os h -> h !! x = Some (a, changed) ->
  exists ld ls, vd !! x = Some ld /\ vs !! x = Some ls /\
    simulates (fst (change_record ld f d)) (fst (change_record ls f s)) c vd vs od os (<[x := (a, true)]> h).
Proof.
  intros [Hd Hc Hw Hm Hi Hk [Hl1 Hl2] Hr Hh Ho] Hx. destruct (Hh _ _ _ Hx) as (ld & ls & r & E1 & E2 & E3 & E4 & E5 & E6 & _).
  exists ld, ls. split; [done|]. split; [done|]. split; try done; cbn [fst change_record cs_records cs_store cs_cache].
  - by rewrite !length_alter.
  - intros b. specialize (Hr b). destruct (c !! b) as [e|]; [|done]. destruct Hr as (G1 & [r' G2] & G3 & G4). split; [done|].
    destruct (decide (a = b)) as [<-|Hab].
    + split; [destruct (decide (Rec e = ls)) as [->|]; [rewrite list_lookup_alter_eq, E4; by eexists|rewrite list_lookup_alter_ne by done; by eexists]|]. split; [done|]. intros Hu. destruct Hu. exists x. by rewrite lookup_insert_eq.
    + assert (ls <> Rec e) as Hne by congruence. rewrite list_lookup_alter_ne by done. split; [by eexists|]. split; [done|].
      intros Hu. assert (~ unstored h b) as Hu'.
      { intros [y Hy]. apply Hu. exists y. rewrite lookup_insert_ne; [done|]. intros <-. congruence. }
      specialize (G4 Hu'). unfold entry_stored in *. cbn [cs_records cs_store]. by rewrite list_lookup_alter_ne by done.
  - intros y b t. destruct (decide (x = y)) as [<-|Hne].
    + rewrite lookup_insert_eq. intros [= <- <-]. exists ld, ls, (f r). cbn [cs_records cs_store]. rewrite !list_lookup_alter_eq, E3, E4. done.
    + rewrite lookup_insert_ne by done. intros Hy. destruct (Hh _ _ _ Hy) as (l1 & l2 & r' & G1 & G2 & G3 & G4 & G5 & G6 & G7).
      assert (a <> b) as Hab by (intros <-; by apply Hne, (Ho x y a changed t)).
      exists l1, l2, r'. cbn [cs_records cs_store]. rewrite !list_lookup_alter_ne by congruence. done.
  - intros y z b t t'. rewrite !lookup_insert_Some. intros [[<- [= <- <-]]|[_ Hy]] [[<- [= ?]]|[_ Hz]]; subst; eauto.
Qed.

Lemma StoreSession_store a l r s : putCachedSession s a l = None -> works (cs_store s) -> cs_records s !! l = Some r -> StoreSession a l s =
  (mkCached (set_rows (set_session_rows (<[a := Serialize r]> (session_rows (rows (cs_store s)))) (rows (cs_store s))) (cs_store s)) (cs_records s) (cs_cache s), Ok tt).
Proof.
  intros Hc Hw Hr. unfold StoreSession, mbind, stm_bind, get_state. rewrite Hc. unfold record_at. rewrite Hr. unfold in_store, PutSession. by rewrite update_works.
Qed.

(** Storing a record that is held. *)
Lemma sim_store d s c vd vs od os h x a changed : simulates d s c vd vs od os h -> h !! x = Some (a, changed) ->
  exists ld ls d' s' c', vd !! x = Some ld /\ vs !! x = Some ls /\ StoreSession a ld d = (d', Ok tt) /\ StoreSession a ls s = (s', Ok tt) /\
    simulates d' s' c' vd vs od os (<[x := (a, false)]> h).
Proof.
  intros [Hd Hc [Hw1 Hw2] Hm Hi Hk Hl Hr Hh Ho] Hx. destruct (Hh _ _ _ Hx) as (ld & ls & r & E1 & E2 & E3 & E4 & E5 & E6 & _).
  eexists ld, ls, _, _, _. split; [done|]. split; [done|]. split; [apply StoreSession_store; [by unfold putCachedSession; rewrite Hd|done|exact E3]|].
  split; [unfold StoreSession, mbind, stm_bind, get_state, putCachedSession; rewrite Hc; reflexivity|].
  split; try done; cbn [cs_store cs_records cs_cache rows set_rows session_rows set_session_rows].
  - intros b. specialize (Hr b). destruct (decide (a = b)) as [<-|Hab].
    + rewrite lookup_insert_eq. cbn [Rec Dirty]. split; [done|]. split; [by eexists|]. split; [done|]. intros _. unfold entry_stored.
      cbn [Dirty Rec cs_records cs_store rows set_rows session_rows set_session_rows]. rewrite lookup_insert_eq. by exists r.
    + rewrite lookup_insert_ne by done. destruct (c !! b) as [e|]; [|by rewrite lookup_insert_ne].
      destruct Hr as (G1 & G2 & G3 & G4). rewrite lookup_insert_ne by done. split_and!; [done..|]. intros Hu.
      unfold entry_stored in *. cbn [cs_records cs_store rows set_rows session_rows set_session_rows]. rewrite lookup_insert_ne by done.
      apply G4. intros [y Hy]. apply Hu. exists y. rewrite lookup_insert_ne; [done|]. intros <-. congruence.
  - intros y b t. destruct (decide (x = y)) as [<-|Hne].
    + rewrite lookup_insert_eq. intros [= <- <-]. exists ld, ls, r. cbn [cs_records cs_store rows set_rows session_rows set_session_rows].
      rewrite lookup_insert_eq. split_and!; [done..|]. intros _. apply from_bytes.
    + rewrite lookup_insert_ne by done. intros Hy. destruct (Hh _ _ _ Hy) as (l1 & l2 & r' & G). exists l1, l2, r'.
      cbn [cs_records cs_store rows set_rows session_rows set_session_rows]. rewrite lookup_insert_ne; [done|].
      intros <-. by apply Hne, (Ho x y a changed t).
  - intros y z b t t'. rewrite !lookup_insert_Some. intros [[<- [= <- <-]]|[_ Hy]] [[<- [= ?]]|[_ Hz]]; subst; eauto.
Qed.

(** Loading a session nobody has changed. *)
Lemma sim_load d s c vd vs od os h x a : simulates d s c vd vs od os h -> no_change a x h ->
  (exists ld ls d' s' od' os', LoadSession a d = (d', Ok ld) /\ LoadSession a s = (s', Ok ls) /\
     simulates d' s' c (<[x := ld]> vd) (<[x := ls]> vs) od' os' (<[x := (a, false)]> (stale a x h))) \/
  (exists e, LoadSession a d = (d, Err e) /\ LoadSession a s = (s, Err e) /\
     simulates d s c (delete x vd) (delete x vs) od os (stale a x h)).
Proof.
  intros Hs Hn. pose proof Hs as [Hd Hc [Hw1 Hw2] _ _ _ [Hl1 Hl2] Hr _ _]. specialize (Hr a).
  assert (~ unstored h a) as Hu by (intros [y Hy]; by destruct (Hn _ _ Hy)).
  rewrite (LoadSession_store a d) by (done || apply getCachedSession_none; by rewrite Hd).
  destruct (c !! a) as [e|] eqn:Ee.
  - destruct Hr as (H1 & [r H2] & _ & H4). specialize (H4 Hu). rewrite (LoadSession_cached a s e c Hc Ee).
    pose proof (entry_stored_raw _ _ _ _ H4 (ex_intro _ r H2)) as Eraw. rewrite Eraw, H2. left.
    eexists _, _, _, _, (od ++ [a]), os. split; [done|]. split; [done|].
    assert (simulates (with_records (cs_records d ++ [r]) d) s c vd vs (od ++ [a]) os h) as Hs'.
    { pose proof (sim_more _ _ _ _ _ _ _ _ [r] [] [a] [] Hs eq_refl eq_refl) as Hs'. rewrite !app_nil_r in Hs'. by destruct s. }
    apply (sim_loaded _ _ _ _ _ _ _ _ a x _ _ r Hs'); try done; [|by rewrite <- Hl1, lookup_app_r, Nat.sub_diag by done|cbn [with_records cs_store]; by rewrite Eraw].
    cbn [with_records cs_records]. by rewrite lookup_app_r, Nat.sub_diag by done.
  - rewrite (LoadSession_store a s) by (done || apply getCachedSession_none; by rewrite Hc). rewrite <- Hr.
    destruct (load_raw (session_rows (rows (cs_store d)) !! a)) as [r|] eqn:Eraw; [left|right; eexists; split_and!; [done..|by apply sim_stale]].
    eexists _, _, _, _, (od ++ [a]), (os ++ [a]). split; [done|]. split; [done|].
    apply (sim_loaded _ _ _ _ _ _ _ _ a x _ _ r (sim_more _ _ _ _ _ _ _ _ [r] [r] [a] [a] Hs eq_refl eq_refl)); try done;
      cbn [with_records cs_records]; rewrite lookup_app_r by lia; by rewrite ?Hl1, ?Hl2, Nat.sub_diag.
Qed.

Lemma run_sim {A} (p : client A) : forall d s c vd vs od os h, simulates d s c vd vs od os h -> disciplined h p ->
  exists d' s' c' vd' vs' od' os' h' a, run p vd d = (d', a) /\ run p vs s = (s', a) /\ simulates d' s' c' vd' vs' od' os' h' /\ clean h'.
Proof.
  induction p as [a|a x k IH|x k IH|x f k IH|a x k IH]; intros d s c vd vs od os h Hs; cbn [disciplined run].
  - intros Hc. by exists d, s, c, vd, vs, od, os, h, a.
  - intros (Hn & Hok & Herr). destruct (sim_load _ _ _ _ _ _ _ _ x a Hs Hn) as [(ld & ls & d' & s' & od' & os' & E1 & E2 & Hs')|(e & E1 & E2 & Hs')];
      rewrite E1, E2; eapply IH; eauto.
  - intros [[[a changed] Hx] Hk]. destruct (sim_held _ _ _ _ _ _ _ _ Hs _ _ _ Hx) as (ld & ls & r & E1 & E2 & E3 & E4 & _).
    rewrite E1, E2. cbn. rewrite E3, E4. eapply IH; eauto.
  - intros (a & changed & Hx & Hk). destruct (sim_change _ _ _ _ _ _ _ _ x a changed f Hs Hx) as (ld & ls & E1 & E2 & Hs'). rewrite E1, E2. eapply IH; eauto.
  - intros (changed & Hx & Hk). destruct (sim_store _ _ _ _ _ _ _ _ x a changed Hs Hx) as (ld & ls & d' & s' & c' & E1 & E2 & E3 & E4 & Hs').
    rewrite E1, E2, E3, E4. eapply IH; eauto.
Qed.

(** *** Opening the cache *)

Lemma rows_of_map addresses m :
  rows_of addresses m = map_to_list (filter (fun r : string * bytes => fst r ∈ addresses) m).
Proof. reflexivity. Qed.

Lemma none_lookup (l : list string) (m : gmap string (option bytes)) a :
  foldl (fun m a => <[a := None]> m) m l !! a = if decide (a ∈ l) then Some None else m !! a.
Proof.
  revert m. induction l as [|b l IH]; intros m; cbn [foldl]; [done|].
  rewrite IH. destruct (decide (a ∈ l)) as [Hl|Hl].
  - by rewrite decide_True by (by right).
  - destruct (decide (b = a)) as [->|Hb].
    + rewrite lookup_insert_eq. by rewrite decide_True by (by left).
    + rewrite lookup_insert_ne by done. rewrite decide_False; [done|]. intros [->|]%elem_of_cons; done.
Qed.

Lemma foldl_some_lookup (l : list (string * bytes)) (m : gmap string (option bytes)) a : NoDup (map fst l) ->
  foldl (fun m r => <[fst r := Some (snd r)]> m) m l !! a =
  match (list_to_map l : gmap string bytes) !! a with Some b => Some (Some b) | None => m !! a end.
Proof.
  revert m. induction l as [|[k v] l IH]; intros m Hnd; cbn [foldl fst snd]; [done|].
  cbn [map fst] in Hnd. apply NoDup_cons in Hnd as [Hk Hnd]. rewrite IH by done. cbn [list_to_map foldr].
  change (foldr _ ∅ l) with (list_to_map l : gmap string bytes). cbn [fst snd].
  destruct (decide (k = a)) as [->|Hka].
  - rewrite !lookup_insert_eq. by rewrite not_elem_of_list_to_map_1.
  - by rewrite !lookup_insert_ne.
Qed.

Lemma GetManySessions_works addresses st : works st -> addresses <> [] ->
  exists m, GetManySessions addresses st = (st, Ok m) /\
    forall a, m !! a = if decide (a ∈ addresses) then Some (session_rows (rows st) !! a) else None.
Proof.
  intros H Hne. exists (foldl (fun m r => <[fst r := Some (snd r)]> m) (foldl (fun m a => <[a := None]> m) ∅ addresses)
    (rows_of addresses (session_rows (rows st)))). split.
  { unfold GetManySessions. destruct addresses as [|a l]; [done|].
    by rewrite (stm_bind_ok _ _ _ _ _ (query_works _ st H)). }
  intros a. rewrite foldl_some_lookup by apply NoDup_fst_map_to_list.
  unfold rows_of. rewrite list_to_map_to_list, none_lookup, lookup_empty.
  destruct (decide (a ∈ addresses)) as [Ha|Ha].
  - destruct (session_rows (rows st) !! a) as [b|] eqn:E.
    + by rewrite (proj2 (map_lookup_filter_Some _ _ _ _) (conj E Ha)).
    + by rewrite (proj2 (map_lookup_filter_None _ _ _) (or_introl E)).
  - rewrite (proj2 (map_lookup_filter_None _ _ _)); [done|]. by right.
Qed.

(** What the loop over the loaded sessions makes: an entry points to a new record that
    is what was loaded for its address. *)
Lemma wrap_spec l : forall records c os, length os = length records -> exists new os',
  fst (wrap_sessions l records c) = records ++ new /\ length os' = length new /\
  forall a e, snd (wrap_sessions l records c) !! a = Some e -> c !! a = Some e \/
    (Dirty e = false /\ (os ++ os') !! Rec e = Some a /\
     exists raw r, (a, raw) ∈ l /\ load_raw raw = Some r /\ (records ++ new) !! Rec e = Some r).
Proof.
  induction l as [|[a raw] l IH]; intros records c os Hos; cbn [wrap_sessions].
  { exists [], []. rewrite !app_nil_r. cbn. auto. }
  destruct (load_raw raw) as [r|] eqn:Er.
  - destruct (IH (records ++ [r]) (<[a := mkEntry false (found raw) (length records)]> c) (os ++ [a])) as (new & os' & E & El & H).
    { by rewrite !length_app, Hos. }
    exists (r :: new), (a :: os'). rewrite <- !app_assoc in E, H. cbn [app length] in *. split; [done|]. split; [by rewrite El|].
    intros b e He. destruct (H b e He) as [[[<- <-]|[_ Hb]]%lookup_insert_Some|(H1 & H2 & raw' & r' & H3 & H4 & H5)]; [right|by left|right].
    + cbn [Dirty Rec]. split; [done|]. rewrite <- Hos at 1. rewrite !lookup_app_r, Hos, !Nat.sub_diag by lia. split; [done|].
      exists raw, r. split_and!; [by left|done|done].
    + split; [done|]. split; [exact H2|]. exists raw', r'. split; [by apply elem_of_cons; right|]. split; [done|]. by rewrite <- app_assoc in H5.
  - destruct (IH records c os Hos) as (new & os' & E & El & H). exists new, os'. split; [done|]. split; [done|].
    intros b e He. destruct (H b e He) as [?|(H1 & H2 & raw' & r' & H3 & H4)]; [by left|right]. split; [done|]. split; [done|].
    exists raw', r'. split; [by apply elem_of_cons; right|done].
Qed.

Lemma WithCachedSessions_sim addresses d l : works d -> addresses <> [] ->
  exists s c ex od os, WithCachedSessions addresses (mkCached d l None) = (s, Ok ex) /\ simulates (mkCached d l None) s c ∅ ∅ od os ∅.
Proof.
  intros H Hne. destruct (GetManySessions_works addresses d H Hne) as (m & Hm & Hl).
  destruct (wrap_spec (map_to_list m) l ∅ (replicate (length l) "")) as (new & os' & E & El & Hc); [by rewrite length_replicate|].
  destruct (wrap_sessions (map_to_list m) l ∅) as [records c] eqn:Ew. cbn [fst snd] in *.
  eexists (mkCached d records (Some c)), c, _, (replicate (length l) ""), (replicate (length l) "" ++ os'). split.
  - unfold WithCachedSessions. destruct addresses; [done|].
    unfold mbind, stm_bind, in_store, get_state. cbn [cs_store cs_records cs_cache]. rewrite Hm. cbn [map_err cs_records]. by rewrite Ew.
  - split; try done; cbn [cs_store cs_records].
    + by rewrite E, !length_app, length_replicate, El.
    + intros a. destruct (c !! a) as [e|] eqn:Ea; [|done].
      destruct (Hc a e Ea) as [Hn|(H1 & H2 & raw & r & H3%elem_of_map_to_list & H4 & H5)]; [by rewrite lookup_empty in Hn|].
      rewrite E. split; [done|]. split; [by exists r|]. split; [done|]. intros _. unfold entry_stored. rewrite H1. cbn [cs_store cs_records].
      rewrite H5, <- H4. rewrite Hl in H3. destruct (decide (a ∈ addresses)); [|done]. by injection H3 as <-.
Qed.

(** *** Closing it *)

Lemma put_each_works l st : works st ->
  put_each l st = (set_rows (set_session_rows (foldl (fun m r => <[fst r := snd r]> m) (session_rows (rows st)) l) (rows st)) st, Ok tt).
Proof.
  revert st. induction l as [|[a b] l IH]; intros st H; cbn [put_each foldl fst snd].
  { destruct st as [[i ss k] m fs]. done. }
  unfold PutSession. rewrite update_bind by done. by rewrite IH.
Qed.

Lemma PutManySessions_works (m : gmap string bytes) st : works st ->
  PutManySessions (map_to_list m) st = (set_rows (set_session_rows (m ∪ session_rows (rows st)) (rows st)) st, Ok tt).
Proof.
  intros H. unfold PutManySessions. apply DoTxn_works; [done| |done].
  by rewrite put_each_works, foldl_inserts_map.
Qed.

Lemma dirty_lookup records c a : dirty_sessions records c !! a =
  match c !! a with Some e => if Dirty e then Serialize <$> records !! Rec e else None | None => None end.
Proof. unfold dirty_sessions. rewrite lookup_omap. by destruct (c !! a). Qed.

Lemma flushed d s c vd vs od os h : simulates d s c vd vs od os h -> clean h ->
  dirty_sessions (cs_records s) c ∪ session_rows (rows (cs_store s)) = session_rows (rows (cs_store d)).
Proof.
  intros Hs Hcl. apply map_eq. intros a. pose proof (sim_row _ _ _ _ _ _ _ _ Hs a) as He. rewrite lookup_union, dirty_lookup.
  destruct (c !! a) as [e|]; [|by rewrite He; destruct (session_rows (rows (cs_store s)) !! a)].
  destruct He as (_ & _ & H1 & H2). assert (~ unstored h a) as Hu by (intros [x Hx]; by apply Hcl in Hx). specialize (H2 Hu).
  unfold entry_stored in H2. destruct (Dirty e).
  - destruct H2 as (r & -> & ->). cbn. by destruct (session_rows (rows (cs_store s)) !! a).
  - rewrite (H1 eq_refl). by destruct (session_rows (rows (cs_store s)) !! a).
Qed.

Lemma PutCachedSessions_sim d s c vd vs od os h : simulates d s c vd vs od os h -> clean h ->
  PutCachedSessions s = (mkCached (cs_store d) (cs_records s) (Some ∅), Ok tt).
Proof.
  intros Hs Hcl. pose proof (flushed _ _ _ _ _ _ _ _ Hs Hcl) as Hf. destruct Hs as [_ Hc [Hwd Hw] Hm Hi Hk _ _ _ _].
  assert (set_rows (set_session_rows (session_rows (rows (cs_store d))) (rows (cs_store s))) (cs_store s) = cs_store d) as Ed.
  { destruct d as [[[i1 s1 k1] m1 f1] ? ?], s as [[[i2 s2 k2] m2 f2] ? ch]. unfold works in *. cbn in *. by subst. }
  unfold PutCachedSessions, mbind, stm_bind, get_state, put_state. rewrite Hc.
  destruct (decide (dirty_sessions (cs_records s) c = ∅)) as [E|E].
  - rewrite E in Hf. rewrite (left_id_L ∅ (∪)) in Hf. cbn. rewrite <- Hf in Ed.
    destruct (cs_store s) as [[] ? ?] eqn:Es. cbn in *. by rewrite <- Ed.
  - unfold in_store. rewrite PutManySessions_works by done. rewrite Hf, Ed. reflexivity.
Qed.


End cache.

Arguments Return {R A}.
Arguments LoadThen {R A}.
Arguments ReadThen {R A}.
Arguments ChangeThen {R A}.
Arguments StoreThen {R A}.

(** A codec that keeps the bytes, and what libsignal does for a message: load, change,
    store. *)
Definition ratchet {A} (a : string) (b : byte) (k : client (R := bytes) A) : client (R := bytes) A :=
  LoadThen a 0%nat (fun o =>
    match o with
    | Ok _ => ChangeThen 0%nat (cons b) (StoreThen a 0%nat (fun _ => k))
    | _ => k
    end).

Definition read_session (a : string) : client (R := bytes) (option bytes) :=
  LoadThen a 1%nat (fun o => match o with Ok _ => ReadThen 1%nat Return | _ => Return None end).

Definition sample_client : client (R := bytes) (option bytes) :=
  ratchet "777:0" x2a (ratchet "1000_1:0" x2b (ratchet "777:0" x2c (read_session "777:0"))).

Abbreviation through_store p := (snd (run (fun b : bytes => b) Some [] p ∅ (mkCached (sample_store []) [] None))).

Abbreviation through_cache p := (run (fun b : bytes => b) Some [] p ∅
  (fst (WithCachedSessions Some [] ["777:0"; "1000_1:0"] (mkCached (sample_store []) [] None)))).

Lemma ratchet_disciplined {A} a b (k : client (R := bytes) A) h : (forall y c, h !! y <> Some (c, true)) ->
  (forall h', (forall y c, h' !! y <> Some (c, true)) -> disciplined h' k) -> disciplined h (ratchet a b k).
Proof.
  intros Hh Hk. cbn. assert (forall y c, stale a 0 h !! y <> Some (c, true)) as Hs by (intros y c [Hy _]%stale_Some; by apply (Hh y c)).
  split; [intros y c Hy; by destruct (Hh y c)|]. split; [|by auto]. exists a, false. split; [by rewrite lookup_insert_eq|].
  exists true. split; [by rewrite lookup_insert_eq|]. apply Hk. intros y c.
  rewrite !insert_insert_eq. destruct (decide (0%nat = y)) as [<-|Hy]; [by rewrite lookup_insert_eq|by rewrite lookup_insert_ne].
Qed.

Lemma read_disciplined a h : (forall y c, h !! y <> Some (c, true)) -> disciplined h (read_session a).
Proof.
  intros Hh. cbn. assert (forall y c, stale a 1 h !! y <> Some (c, true)) as Hs by (intros y c [Hy _]%stale_Some; by apply (Hh y c)).
  split; [intros y c Hy; by destruct (Hh y c)|]. split; [split; [rewrite lookup_insert_eq; by eexists|]|]; intros _ y c [|]; try done.
  - intros Hy. destruct (decide (1%nat = y)) as [<-|Hne]; [by rewrite lookup_insert_eq in Hy|]. rewrite lookup_insert_ne in Hy by done. by destruct (Hs y c).
  - intros Hy. by destruct (Hs y c).
Qed.


(** Without the rule: a change that was not stored is read through the cache alone, one
    after storing is put back with what was stored, and a session stored in the cache
    does not exist for ContainsSession, which asks the store. *)
Definition careless : client (R := bytes) (option bytes) :=
  LoadThen "777:0" 0%nat (fun _ => ChangeThen 0%nat (cons x2a) (read_session "777:0")).

Lemma unstored_change_read : through_store careless = Some [] /\ snd (through_cache careless) = Some [x2a].
Proof. split; vm_compute; reflexivity. Qed.

Definition late : client (R := bytes) unit :=
  LoadThen "777:0" 0%nat (fun _ => StoreThen "777:0" 0%nat (fun _ => ChangeThen 0%nat (cons x2a) (Return tt))).

Lemma late_change_kept :
  session_rows (rows (cs_store (fst (run (fun b : bytes => b) Some [] late ∅ (mkCached (sample_store []) [] None))))) !! "777:0" = Some [] /\
  session_rows (rows (cs_store (fst (PutCachedSessions (fun b : bytes => b) (fst (through_cache late)))))) !! "777:0" = Some [x2a].
Proof. split; vm_compute; reflexivity. Qed.

Lemma cached_session_not_contained :
  snd (in_store (HasSession "777:0") (fst (through_cache sample_client))) = Ok false /\
  snd (in_store (HasSession "777:0") (fst (run (fun b : bytes => b) Some [] sample_client ∅ (mkCached (sample_store []) [] None)))) = Ok true.
Proof. split; vm_compute; reflexivity. Qed.

End sessioncache.
