(* ===== verification/PreKeys.v ===== *)
(** * prekeys.go and the prekey queries of store/sqlstore/store.go

    [prekeystore]: the table of one-time prekeys of a device, generated in
    order of their ids and marked when the server has them. [prekeys]: the
    nodes they travel in, the bundles read from responses and the upload. *)

From S2P Require Import Prelude GoStrings StateErr Jid Node Crypto Sql.
From stdpp Require Import sorting.

#[local] Open Scope string_scope.
#[local] Open Scope list_scope.
#[local] Open Scope Z_scope.

Module prekeystore.

Import sql crypto.

Section store.
Context {C : Crypto} (random : nat -> bytes).   (* the random source's blocks of 32 bytes *)

(** A row: the private key and whether the server has it. *)
Record row := mkRow { key : bytes; uploaded : bool }.

(** In memory: how much of the random source has been read, and the time of
    the last upload. *)
Record memory := mkMem { drawn : nat; lastPreKeyUpload : option Z }.

Definition prekey_db := db (gmap Z row) memory.
#[local] Notation pk A := (stm (db (gmap Z row) memory) sql_error A).

Definition max_id (t : gmap Z row) : option Z :=
  foldr (fun r acc => Some (match acc with Some m => Z.max (fst r) m | None => fst r end)) None (map_to_list t).

(** The table's constraints: the primary key and [key_id < 16777216]. *)
Definition insert_key (id : Z) (r : row) (t : gmap Z row) : option (gmap Z row) :=
  if (0 <=? id) && (id <? 2 ^ 24) then
    match t !! id with None => Some (<[id := r]> t) | Some _ => None end
  else None.

Definition genOnePreKey (id : Z) (markUploaded : bool) : pk PreKey :=
  m ← get_mem;
  put_mem (mkMem (Datatypes.S (drawn m)) (lastPreKeyUpload m));;
  let k := NewPreKey (random (drawn m)) id in
  exec (insert_key id (mkRow (Priv (PreKeyPair k)) markUploaded));;
  mret k.

Definition getNextPreKeyID : pk Z :=
  lastKeyID ← query max_id;
  mret (u32 (u32 (default 0 lastKeyID) + 1)).

Definition GenOnePreKey : pk PreKey :=
  nextKeyID ← getNextPreKeyID;
  genOnePreKey nextKeyID true.

(** [scanPreKey] of a row. *)
Definition scanPreKey (r : Z * row) : outcome sql_error PreKey :=
  if blen (key (snd r)) =? 32 then
    Ok (mkPreKey (NewKeyPairFromPrivateKey (key (snd r))) (fst r) None)
  else Err ErrInvalidLength.

Fixpoint scan_all (l : list (Z * row)) : outcome sql_error (list PreKey) :=
  match l with
  | [] => Ok []
  | r :: l => k ← scanPreKey r; ks ← scan_all l; Ok (k :: ks)
  end.

(** [WHERE uploaded=false ORDER BY key_id LIMIT]. *)
Definition by_id (r r' : Z * row) : Prop := fst r <= fst r'.
#[local] Instance by_id_dec r r' : Decision (by_id r r') := decide (fst r <= fst r').
Definition unuploaded (t : gmap Z row) : list (Z * row) :=
  merge_sort by_id (map_to_list (filter (fun r => uploaded (snd r) = false) t)).

Fixpoint gen_keys (n : nat) (nextKeyID : Z) : pk (list PreKey) :=
  match n with
  | O => mret []
  | Datatypes.S n =>
      k ← genOnePreKey nextKeyID false;
      ks ← gen_keys n (u32 (nextKeyID + 1));
      mret (k :: ks)
  end.

Definition GetOrGenPreKeys (count : Z) : pk (list PreKey) :=
  rs ← query (fun t => take (Z.to_nat count) (unuploaded t));
  newKeys ← lift (scan_all rs);
  let alreadyGeneratedCount := blen newKeys in
  if count >? alreadyGeneratedCount then
    nextKeyID ← getNextPreKeyID;
    more ← gen_keys (Z.to_nat (count - alreadyGeneratedCount)) nextKeyID;
    mret (newKeys ++ more)
  else mret newKeys.

Definition GetPreKey (id : Z) : pk (option PreKey) :=
  r ← query (fun t => t !! id);
  match r with
  | None => mret None
  | Some r => k ← lift (scanPreKey (id, r)); mret (Some k)
  end.

Definition RemovePreKey (id : Z) : pk unit := exec (fun t => Some (delete id t)).

Definition mark_row (upToID : Z) (id : Z) (r : row) : row :=
  if id <=? upToID then mkRow (key r) true else r.

Definition MarkPreKeysAsUploaded (upToID : Z) : pk unit :=
  exec (fun t => Some (map_imap (fun id r => Some (mark_row upToID id r)) t)).

Definition UploadedPreKeyCount : pk Z :=
  query (fun t => Z.of_nat (size (filter (fun r => uploaded (snd r) = true) t))).

(** ** The table *)

(** What the constraints and the code keep: ids and key lengths. *)
Definition table_ok (t : gmap Z row) : Prop :=
  forall id r, t !! id = Some r -> 0 <= id < 2 ^ 24 /\ blen (key r) = 32.

Definition is_uploaded (t : gmap Z row) (id : Z) : Prop := exists r, t !! id = Some r /\ uploaded r = true.

Lemma max_fold (l : list (Z * row)) :
  match foldr (fun r acc => Some (match acc with Some m => Z.max (fst r) m | None => fst r end)) None l with
  | Some m => Forall (fun r => fst r <= m) l /\ Exists (fun r => fst r = m) l
  | None => l = []
  end.
Proof.
  induction l as [|r l IH]; cbn [foldr]; [done|].
  destruct (foldr _ None l) as [m|].
  - destruct IH as [IH1 IH2]. split.
    + constructor; [lia|]. eapply Forall_impl; [exact IH1|]. cbn. lia.
    + destruct (Z.max_spec (fst r) m) as [[_ ->]|[_ ->]]; [by right|by left].
  - subst l. split; [repeat constructor; lia|by left].
Qed.

Lemma max_id_spec t :
  match max_id t with
  | Some m => (forall id, is_Some (t !! id) -> id <= m) /\ is_Some (t !! m)
  | None => t = ∅
  end.
Proof.
  unfold max_id. pose proof (max_fold (map_to_list t)) as H. destruct (foldr _ None _) as [m|].
  - destruct H as [H1 H2]. rewrite Forall_forall in H1. split.
    + intros id [r Hr]. by apply (H1 (id, r)), elem_of_map_to_list.
    + apply Exists_exists in H2 as ([id r] & Hin & <-). apply elem_of_map_to_list in Hin. eauto.
  - by apply map_to_list_empty_iff.
Qed.

(** The next id: one more than every id in the table. *)
Definition next_id (t : gmap Z row) : Z := default 0 (max_id t) + 1.

Lemma next_id_above t : table_ok t -> 1 <= next_id t <= 2 ^ 24 /\ forall id, is_Some (t !! id) -> id < next_id t.
Proof.
  intros Ht. unfold next_id. pose proof (max_id_spec t) as H. destruct (max_id t) as [m|].
  - change (default 0 (Some m)) with m. destruct H as [H1 [r Hr]]. apply Ht in Hr as [Hm _]. split; [lia|]. intros id Hid. apply H1 in Hid. lia.
  - change (default 0 None) with 0. subst t. split; [lia|]. intros id [r Hr]. by rewrite lookup_empty in Hr.
Qed.

Lemma getNextPreKeyID_works s : works s -> table_ok (rows s) ->
  getNextPreKeyID s = (s, Ok (next_id (rows s))).
Proof.
  intros Hw Ht. pose proof (next_id_above _ Ht) as [Hn _]. unfold getNextPreKeyID.
  rewrite (stm_bind_ok _ _ _ _ _ (query_works _ _ Hw)). unfold mret, stm_ret. f_equal. f_equal. unfold next_id in *.
  revert Hn. generalize (default 0 (max_id (rows s))). intros m Hm.
  rewrite (u32_small m) by lia. apply u32_small. lia.
Qed.

(** The table with [n] fresh rows from [id] on. *)
Definition fresh_row (d : nat) : row := mkRow (Priv (NewKeyPair (random d))) false.

Fixpoint add_fresh (n d : nat) (id : Z) (t : gmap Z row) : gmap Z row :=
  match n with O => t | Datatypes.S n => add_fresh n (Datatypes.S d) (id + 1) (<[id := fresh_row d]> t) end.

Fixpoint fresh_keys (n d : nat) (id : Z) : list PreKey :=
  match n with O => [] | Datatypes.S n => NewPreKey (random d) id :: fresh_keys n (Datatypes.S d) (id + 1) end.

Lemma gen_keys_works n id s : works s -> 0 <= id -> id + Z.of_nat n <= 2 ^ 24 ->
  (forall i, id <= i -> rows s !! i = None) ->
  gen_keys n id s =
  (set_rows (add_fresh n (drawn (mem s)) id (rows s))
     (set_mem (mkMem (drawn (mem s) + n) (lastPreKeyUpload (mem s))) s),
   Ok (fresh_keys n (drawn (mem s)) id)).
Proof.
  revert id s. induction n as [|n IH]; intros id s Hw Hid Hn Hf.
  { cbn [gen_keys add_fresh fresh_keys]. destruct s as [t [d l] f]. unfold set_rows, set_mem. cbn [rows mem drawn lastPreKeyUpload].
    by rewrite Nat.add_0_r. }
  cbn [gen_keys add_fresh fresh_keys].
  assert (genOnePreKey id false s =
    (set_rows (<[id := fresh_row (drawn (mem s))]> (rows s))
       (set_mem (mkMem (Datatypes.S (drawn (mem s))) (lastPreKeyUpload (mem s))) s),
     Ok (NewPreKey (random (drawn (mem s))) id))) as E.
  { unfold genOnePreKey. rewrite (stm_bind_ok _ _ s s (mem s)) by done.
    rewrite (stm_bind_ok _ _ s _ tt eq_refl).
    erewrite stm_bind_ok; [reflexivity|]. apply exec_works; [done|]. unfold insert_key. cbn [rows set_mem].
    rewrite (proj2 (Z.leb_le 0 id)), (proj2 (Z.ltb_lt id (2 ^ 24))) by lia. cbn [andb]. by rewrite Hf by lia. }
  rewrite (stm_bind_ok _ _ _ _ _ E). rewrite u32_small by lia.
  erewrite stm_bind_ok.
  2: { apply IH; [done|lia|lia|]. intros i Hi. cbn [rows set_rows]. rewrite lookup_insert_ne by lia. apply Hf. lia. }
  cbn [rows mem set_rows set_mem drawn lastPreKeyUpload faults]. unfold mret, stm_ret, set_rows, set_mem.
  cbn [rows mem faults]. by rewrite Nat.add_succ_r.
Qed.

Lemma add_fresh_lookup n d id t i : 
  add_fresh n d id t !! i =
  if decide (id <= i < id + Z.of_nat n) then Some (fresh_row (d + Z.to_nat (i - id))) else t !! i.
Proof.
  revert d id t. induction n as [|n IH]; intros d id t; cbn [add_fresh].
  { rewrite decide_False by lia. done. }
  rewrite IH. destruct (decide (i = id)) as [->|Hi].
  - rewrite decide_False by lia. rewrite decide_True by lia. rewrite lookup_insert_eq. by rewrite Z.sub_diag, Nat.add_0_r.
  - rewrite lookup_insert_ne by done. destruct (decide (id + 1 <= i < id + 1 + Z.of_nat n)).
    + rewrite decide_True by lia. do 2 f_equal. lia.
    + rewrite decide_False by lia. done.
Qed.

Lemma fresh_keys_ids n d id : map KeyID (fresh_keys n d id) = seqZ id (Z.of_nat n).
Proof.
  revert d id. induction n as [|n IH]; intros d id; [done|]. cbn [fresh_keys map].
  rewrite seqZ_cons by lia. rewrite IH. cbn. do 2 f_equal; lia.
Qed.

(** ** The unuploaded keys *)

Lemma unuploaded_elem t id r : (id, r) ∈ unuploaded t <-> t !! id = Some r /\ uploaded r = false.
Proof.
  unfold unuploaded. rewrite merge_sort_Permutation, elem_of_map_to_list. apply map_lookup_filter_Some.
Qed.

Lemma unuploaded_sorted t : StronglySorted Z.lt (map fst (unuploaded t)).
Proof.
  assert (NoDup (map fst (unuploaded t))) as Hnd.
  { unfold unuploaded. rewrite merge_sort_Permutation. apply NoDup_fst_map_to_list. }
  assert (StronglySorted by_id (unuploaded t)) as Hs.
  { apply Sorted_StronglySorted; [intros a b c; unfold by_id; lia|].
    apply Sorted_merge_sort. intros a b. unfold by_id. lia. }
  induction Hs as [|r l _ IH Hr]; cbn [map] in *; [constructor|].
  apply NoDup_cons in Hnd as [Hn Hnd]. constructor; [by apply IH|].
  apply Forall_map. rewrite Forall_forall in *. intros x Hx. pose proof (Hr x Hx) as Hle. unfold by_id in Hle.
  assert (fst r <> fst x); [|lia]. intros E. apply Hn. rewrite E. by apply list_elem_of_fmap_2.
Qed.

Lemma scan_all_works l : Forall (fun r => blen (key (snd r)) = 32) l ->
  exists ks, scan_all l = Ok ks /\ map KeyID ks = map fst l /\
    Forall2 (fun k r => Priv (PreKeyPair k) = key (snd r)) ks l.
Proof.
  induction 1 as [|r l Hr _ (ks & Hks & Hm & Hf)]; [by exists []|].
  cbn [scan_all]. unfold scanPreKey. rewrite (proj2 (Z.eqb_eq _ _) Hr). rewrite bind_Ok, Hks, bind_Ok.
  eexists. split; [reflexivity|]. cbn [map KeyID]. rewrite Hm. split; [done|]. by constructor.
Qed.

Hypothesis random_length : forall n, length (random n) = 32%nat.

Lemma length_clamp b : length (clamp b) = length b.
Proof.
  destruct b as [|b0 rest]; [done|]. cbn [clamp length]. f_equal.
  destruct (last rest) as [b31|] eqn:E; [|done]. apply last_Some in E as [l ->].
  by rewrite removelast_last, !length_app.
Qed.

Lemma fresh_length d : blen (key (fresh_row d)) = 32.
Proof. unfold blen, fresh_row. cbn [key]. unfold NewKeyPair. cbn [Priv NewKeyPairFromPrivateKey]. rewrite length_clamp, random_length. done. Qed.

Lemma fresh_keys_elem n d id k : k ∈ fresh_keys n d id ->
  id <= KeyID k < id + Z.of_nat n /\ Priv (PreKeyPair k) = key (fresh_row (d + Z.to_nat (KeyID k - id))).
Proof.
  revert d id. induction n as [|n IH]; intros d id; cbn [fresh_keys]; [by intros ?%elem_of_nil|].
  intros [->|H]%elem_of_cons.
  - cbn [KeyID NewPreKey]. split; [lia|]. by rewrite Z.sub_diag, Nat.add_0_r.
  - apply IH in H as [H1 H2]. split; [lia|]. rewrite H2. do 2 f_equal. lia.
Qed.

Lemma sorted_take {A} (R : A -> A -> Prop) n (l : list A) : StronglySorted R l -> StronglySorted R (take n l).
Proof.
  intros H. revert n. induction H as [|a l _ IH Ha]; intros [|n]; cbn [take]; try constructor; [apply IH|].
  by apply Forall_take.
Qed.

Lemma sorted_split (l : list Z) n x y : StronglySorted Z.lt l -> x ∈ take n l -> y ∈ drop n l -> x < y.
Proof.
  intros H. revert n. induction H as [|a l _ IH Ha]; intros [|n]; cbn [take drop]; try by intros ?%elem_of_nil.
  intros [->|Hx]%elem_of_cons Hy; [|by apply (IH n)].
  rewrite Forall_forall in Ha. apply Ha. rewrite <- (take_drop n l). apply elem_of_app. by right.
Qed.

Lemma sorted_app_lt (l k : list Z) : StronglySorted Z.lt l -> StronglySorted Z.lt k ->
  (forall x y, x ∈ l -> y ∈ k -> x < y) -> StronglySorted Z.lt (l ++ k).
Proof.
  intros Hl Hk H. induction Hl as [|a l _ IH Ha]; [done|]. cbn [app]. constructor.
  - apply IH. intros x y Hx. apply H. by right.
  - apply Forall_app. split; [done|]. apply Forall_forall. intros y Hy. apply H; [by left|done].
Qed.

Lemma seqZ_sorted a n : StronglySorted Z.lt (seqZ a (Z.of_nat n)).
Proof.
  revert a. induction n as [|n IH]; intros a; [constructor|]. rewrite seqZ_cons by lia. constructor.
  - replace (Z.pred (Z.of_nat (Datatypes.S n))) with (Z.of_nat n) by lia. apply IH.
  - apply Forall_forall. intros x Hx%elem_of_seqZ. lia.
Qed.

(** What comes back from the store to be uploaded. *)
Record batch (count : Z) (t t' : gmap Z row) (ks : list PreKey) : Prop := {
  b_ok : table_ok t';
  b_count : blen ks = count;
  b_sorted : StronglySorted Z.lt (map KeyID ks);
  b_stored k : k ∈ ks -> exists r, t' !! KeyID k = Some r /\ uploaded r = false /\ Priv (PreKeyPair k) = key r;
  b_smallest id r : t' !! id = Some r -> uploaded r = false -> id ∉ map KeyID ks -> forall k, k ∈ ks -> KeyID k < id;
  b_kept id r : t !! id = Some r -> t' !! id = Some r;
  b_new id r : t' !! id = Some r -> t !! id = Some r \/ id ∈ map KeyID ks
}.

Lemma take_keys_elem (t : gmap Z row) n ks k :
  map KeyID ks = map fst (take n (unuploaded t)) ->
  Forall2 (fun k r => Priv (PreKeyPair k) = key (snd r)) ks (take n (unuploaded t)) -> k ∈ ks ->
  exists r, t !! KeyID k = Some r /\ uploaded r = false /\ Priv (PreKeyPair k) = key r.
Proof.
  intros Hm Hf Hk. apply list_elem_of_lookup in Hk as [i Hi].
  destruct (Forall2_lookup_l _ _ _ _ _ Hf Hi) as ([id r] & Hr & Hp).
  assert (KeyID k = id) as Eid.
  { assert (map KeyID ks !! i = Some (KeyID k)) as H1 by (rewrite list_lookup_fmap, Hi; done).
    rewrite Hm in H1. rewrite list_lookup_fmap, Hr in H1. by injection H1. }
  assert ((id, r) ∈ unuploaded t) as [Hl Hu]%unuploaded_elem.
  { apply list_elem_of_lookup_2 in Hr. rewrite <- (take_drop n (unuploaded t)). apply elem_of_app. by left. }
  exists r. rewrite Eid. auto.
Qed.

Lemma scan_take (t : gmap Z row) n : table_ok t ->
  exists ks, scan_all (take n (unuploaded t)) = Ok ks /\ map KeyID ks = map fst (take n (unuploaded t)) /\
    Forall2 (fun k r => Priv (PreKeyPair k) = key (snd r)) ks (take n (unuploaded t)).
Proof.
  intros Ht. apply scan_all_works. apply Forall_take, Forall_forall. intros [id r] [Hr _]%unuploaded_elem.
  by apply Ht in Hr as [_ Hr].
Qed.

(** Enough keys are waiting: the smallest of them. *)
Lemma batch_waiting (t : gmap Z row) n ks : table_ok t -> (n <= length (unuploaded t))%nat ->
  map KeyID ks = map fst (take n (unuploaded t)) ->
  Forall2 (fun k r => Priv (PreKeyPair k) = key (snd r)) ks (take n (unuploaded t)) ->
  batch (Z.of_nat n) t t ks.
Proof.
  intros Ht Hn Hm Hf. pose proof (unuploaded_sorted t) as Hs. split; try done.
  - unfold blen. apply Forall2_length in Hf. rewrite Hf, length_take. lia.
  - rewrite Hm, <- firstn_map. by apply sorted_take.
  - intros k. by apply (take_keys_elem t n).
  - intros id r Hr Hu Hni k Hk. apply (sorted_split (map fst (unuploaded t)) n); [done| |].
    + rewrite firstn_map, <- Hm. by apply list_elem_of_fmap_2.
    + assert ((id, r) ∈ unuploaded t) as Hin by (by apply unuploaded_elem).
      rewrite <- (take_drop n (unuploaded t)) in Hin. apply elem_of_app in Hin as [Hin|Hin].
      * exfalso. apply Hni. rewrite Hm. apply (list_elem_of_fmap_2 fst) in Hin. exact Hin.
      * rewrite skipn_map. apply (list_elem_of_fmap_2 fst) in Hin. exact Hin.
  - auto.
Qed.

(** Too few are waiting: all of them, and fresh ones after every id. *)
Lemma batch_fresh (t : gmap Z row) n d ks :
  table_ok t -> (length (unuploaded t) <= n)%nat ->
  next_id t + Z.of_nat (n - length (unuploaded t)) <= 2 ^ 24 ->
  map KeyID ks = map fst (unuploaded t) ->
  Forall2 (fun k r => Priv (PreKeyPair k) = key (snd r)) ks (unuploaded t) ->
  let m := (n - length (unuploaded t))%nat in
  batch (Z.of_nat n) t (add_fresh m d (next_id t) t) (ks ++ fresh_keys m d (next_id t)).
Proof.
  intros Ht Hn Hroom Hm Hf m. pose proof (next_id_above t Ht) as [Hnext Habove].
  assert (forall k, k ∈ ks -> exists r, t !! KeyID k = Some r /\ uploaded r = false /\ Priv (PreKeyPair k) = key r) as Hold.
  { intros k. apply (take_keys_elem t (length (unuploaded t))); by rewrite firstn_all. }
  assert (map KeyID (ks ++ fresh_keys m d (next_id t)) = map fst (unuploaded t) ++ seqZ (next_id t) (Z.of_nat m)) as Hids.
  { by rewrite map_app, Hm, fresh_keys_ids. }
  split.
  - intros id r. rewrite add_fresh_lookup. case_decide; [|apply Ht]. intros [= <-]. split; [lia|]. apply fresh_length.
  - unfold blen. rewrite <- (length_map KeyID), Hids, length_app, length_map, length_seqZ. lia.
  - rewrite Hids. apply sorted_app_lt; [apply unuploaded_sorted|apply seqZ_sorted|].
    intros x y Hx Hy%elem_of_seqZ. apply list_elem_of_fmap in Hx as ([id r] & -> & Hx).
    apply unuploaded_elem in Hx as [Hx _]. cbn [fst]. assert (id < next_id t) by eauto. lia.
  - intros k [Hk|Hk]%elem_of_app.
    + apply Hold in Hk as (r & Hr & Hu & Hp). exists r. rewrite add_fresh_lookup, decide_False; [auto|].
      intros [H _]. assert (KeyID k < next_id t) by eauto. lia.
    + apply fresh_keys_elem in Hk as [H1 H2]. eexists. rewrite add_fresh_lookup, decide_True by lia. auto.
  - intros id r Hr Hu Hni k Hk. exfalso. apply Hni. rewrite Hids. apply elem_of_app. rewrite add_fresh_lookup in Hr.
    case_decide; [right; apply elem_of_seqZ; lia|left]. apply (list_elem_of_fmap_2 fst _ (id, r)). by apply unuploaded_elem.
  - intros id r Hr. assert (id < next_id t) by eauto. rewrite add_fresh_lookup, decide_False by lia. done.
  - intros id r Hr. rewrite Hids, elem_of_app. rewrite add_fresh_lookup in Hr.
    case_decide; [right; right; apply elem_of_seqZ; lia|by left].
Qed.

Lemma GetOrGenPreKeys_works count s :
  works s -> table_ok (rows s) -> 0 <= count -> next_id (rows s) + count <= 2 ^ 24 ->
  exists s' ks, GetOrGenPreKeys count s = (s', Ok ks) /\ works s' /\
    lastPreKeyUpload (mem s') = lastPreKeyUpload (mem s) /\ batch count (rows s) (rows s') ks.
Proof.
  intros Hw Ht Hc Hroom. set (n := Z.to_nat count). assert (count = Z.of_nat n) as Ec by lia.
  destruct (scan_take (rows s) n Ht) as (ks & Hks & Hm & Hf).
  assert (length ks = length (take n (unuploaded (rows s)))) as Hl by (by apply Forall2_length in Hf).
  unfold GetOrGenPreKeys. fold n. rewrite (stm_bind_ok _ _ _ _ _ (query_works _ _ Hw)).
  rewrite (stm_bind_ok _ _ s s ks) by (by apply lift_ok).
  destruct (Z.gtb_spec count (blen ks)) as [Hlt|Hge].
  - assert (length (unuploaded (rows s)) <= n)%nat as Hn by (unfold blen in *; rewrite Hl, length_take in *; lia).
    rewrite take_ge in Hm, Hf, Hl by done.
    assert (Z.to_nat (count - blen ks) = n - length (unuploaded (rows s)))%nat as Ed by (unfold blen; lia).
    rewrite (stm_bind_ok _ _ _ _ _ (getNextPreKeyID_works _ Hw Ht)).
    pose proof (next_id_above _ Ht) as [Hnext Habove].
    erewrite stm_bind_ok. 2: { apply gen_keys_works; [done|lia|unfold blen in *; lia|].
      intros i Hi. apply eq_None_not_Some. intros Hs%Habove. lia. }
    eexists _, _. split; [reflexivity|]. split; [done|]. split; [done|]. cbn [rows set_rows].
    rewrite Ed, Ec. apply batch_fresh; try done. lia.
  - exists s, ks. split; [done|]. split; [done|]. split; [done|]. rewrite Ec. apply batch_waiting; try done.
    unfold blen in *. rewrite Hl, length_take in *. lia.
Qed.

Lemma MarkPreKeysAsUploaded_works upTo s : works s ->
  MarkPreKeysAsUploaded upTo s = (set_rows (map_imap (fun id r => Some (mark_row upTo id r)) (rows s)) s, Ok tt).
Proof. intros Hw. by apply exec_works. Qed.

Lemma marked_lookup upTo (t : gmap Z row) id :
  map_imap (fun id r => Some (mark_row upTo id r)) t !! id = mark_row upTo id <$> t !! id.
Proof. rewrite map_lookup_imap. by destruct (t !! id). Qed.

End store.

End prekeystore.

Module prekeys.

Import jid attrs sql crypto prekeystore.

(** ** Nodes *)

Definition key_id_bytes (id : Z) : bytes := tail (PutUint32 id).

Definition preKeyToNode (k : PreKey) : Node :=
  let content := [mkNode "id" [] (ABytes (key_id_bytes (KeyID k))); mkNode "value" [] (ABytes (Pub (PreKeyPair k)))] in
  match Signature k with
  | None => mkNode "key" [] (ANodes content)
  | Some sig => mkNode "skey" [] (ANodes (content ++ [mkNode "signature" [] (ABytes sig)]))
  end.

Definition preKeysToNodes (l : list PreKey) : list Node := map preKeyToNode l.

(** A prekey read from a node: no private key. *)
Record parsedKey := mkParsed { pk_id : Z; pk_pub : bytes; pk_sig : option bytes }.

Inductive prekey_error :=
  | NoTag (tag : string)
  | BadContent (tag : string)
  | BadLength (tag : string) (n : Z)
  | ServerError (n : Node)               (* an error node in place of the keys *)
  | BadRegistration
  | BadIdentity
  | BadPreKey (e : prekey_error)
  | BadSignedPreKey (e : prekey_error).

(** A child of the given tag whose content is that many bytes. *)
Definition bytes_child (n : Node) (tag : string) (len : Z) : outcome prekey_error bytes :=
  let c := GetChildByTag n [tag] in
  if negb (String.eqb (node_tag c) tag) then Err (NoTag tag)
  else match node_content c with
       | ABytes b => if blen b =? len then Ok b else Err (BadLength tag (blen b))
       | _ => Err (BadContent tag)
       end.

Definition nodeToPreKey (n : Node) : outcome prekey_error parsedKey :=
  idBytes ← bytes_child n "id" 3;
  pub ← bytes_child n "value" 32;
  if String.eqb (node_tag n) "skey" then
    sig ← bytes_child n "signature" 64;
    Ok (mkParsed (BigEndian_Uint32 (x00 :: idBytes)) pub (Some sig))
  else Ok (mkParsed (BigEndian_Uint32 (x00 :: idBytes)) pub None).

(** libsignal's bundle: its fields as passed to NewBundle. *)
Record Bundle := mkBundle {
  RegistrationID : Z;
  DeviceID : Z;
  BundlePreKey : option (Z * bytes);
  SignedPreKeyID : Z;
  SignedPreKeyPub : bytes;
  SignedPreKeySig : bytes;
  BundleIdentity : bytes
}.

Definition content_bytes (n : Node) : option bytes := match node_content n with ABytes b => Some b | _ => None end.

Definition nodeToPreKeyBundle (deviceID : Z) (node : Node) : outcome prekey_error Bundle :=
  let '(errorNode, ok) := GetOptionalChildByTag node ["error"] in
  if ok && String.eqb (node_tag errorNode) "error" then Err (ServerError errorNode)
  else
    match content_bytes (GetChildByTag node ["registration"]) with
    | Some registrationBytes =>
        if negb (blen registrationBytes =? 4) then Err BadRegistration
        else
          let registrationID := BigEndian_Uint32 registrationBytes in
          let '(k, ok) := GetOptionalChildByTag node ["keys"] in
          let keysNode := if ok then k else node in
          match content_bytes (GetChildByTag keysNode ["identity"]) with
          | Some identityKeyRaw =>
              if negb (blen identityKeyRaw =? 32) then Err BadIdentity
              else
                let '(preKeyNode, ok) := GetOptionalChildByTag keysNode ["key"] in
                preKey ← (if ok then k ← map_err BadPreKey (nodeToPreKey preKeyNode); Ok (Some k) else Ok None);
                signedPreKey ← map_err BadSignedPreKey (nodeToPreKey (GetChildByTag keysNode ["skey"]));
                sig ← or_panic (pk_sig signedPreKey);      (* *signedPreKey.Signature *)
                Ok (mkBundle registrationID deviceID
                      (match preKey with Some k => Some (pk_id k, pk_pub k) | None => None end)
                      (pk_id signedPreKey) (pk_pub signedPreKey) sig identityKeyRaw)
          | None => Err BadIdentity
          end
    | None => Err BadRegistration
    end.

(** The response to a request for the keys of several devices. *)
Definition fetch_responses (resp : Node) : option (list (JID * outcome prekey_error Bundle)) :=
  match GetChildren resp with
  | [] => None
  | _ =>
      Some (map (fun child =>
                   let j := fst (JID_ "jid" (AttrGetter child)) in
                   (j, nodeToPreKeyBundle (u32 (Device j)) child))
                (List.filter (fun c => String.eqb (node_tag c) "user") (GetChildren (GetChildByTag resp ["list"]))))
  end.

(** ** Upload *)

Definition WantedPreKeyCount : Z := 50.
Definition MinPreKeyCount : Z := 5.

Definition getServerPreKeyCount (resp : option Node) : Z :=
  match resp with
  | None => 0
  | Some r => fst (Int "value" (AttrGetter (GetChildByTag r ["count"])))
  end.

Section upload.
Context {C : Crypto} (random : nat -> bytes).
(** The device's registration id, public identity key and signed prekey. *)
Context (registrationID : Z) (identityPub : bytes) (signedPreKey : PreKey).

Definition upload_content (ks : list PreKey) : list Node :=
  [mkNode "registration" [] (ABytes (PutUint32 registrationID));
   mkNode "type" [] (ABytes [DjbType]);
   mkNode "identity" [] (ABytes identityPub);
   mkNode "list" [] (ANodes (preKeysToNodes ks));
   preKeyToNode signedPreKey].

(** Every failure is logged and ends the upload. *)
Inductive upload_result :=
  | NotNeeded
  | GetFailed (e : sql_error)
  | SendFailed (ks : list PreKey)
  | MarkFailed (ks : list PreKey) (e : sql_error)
  | Uploaded (ks : list PreKey).

Definition tenMinutes : Z := 10 * 60 * 1000000000.

(** [now]: the clock at the two reads of it; [count]: the response to the count
    request; [send]: whether the upload request succeeds. *)
Definition uploadPreKeys (initialUpload : bool) (now now' : Z) (count : option Node) (send : list Node -> bool) :
    stm (db (gmap Z row) memory) sql_error upload_result :=
  m ← get_mem;
  let recent := match lastPreKeyUpload m with Some t => now <? t + tenMinutes | None => false end in
  if recent && (WantedPreKeyCount <=? getServerPreKeyCount count) then mret NotNeeded
  else
    let wantedCount := if initialUpload then 812 else WantedPreKeyCount in
    r ← try (GetOrGenPreKeys random wantedCount);
    match r with
    | inl e => mret (GetFailed e)
    | inr preKeys =>
        if negb (send (upload_content preKeys)) then mret (SendFailed preKeys)
        else
          match last preKeys with
          | None => panic
          | Some k =>
              r ← try (MarkPreKeysAsUploaded (KeyID k));
              match r with
              | inl e => mret (MarkFailed preKeys e)
              | inr _ =>
                  m ← get_mem;
                  put_mem (mkMem (drawn m) (Some now'));;
                  mret (Uploaded preKeys)
              end
          end
    end.

End upload.

(** ** Round trips *)

Lemma find_child_hit tag c l : node_tag c = tag -> find_child tag (c :: l) = Some c.
Proof. intros H. cbn [find_child]. by rewrite bool_decide_eq_true_2. Qed.

Lemma bytes_child_hit n l tag len b :
  GetChildren n = l -> find_child tag l = Some (mkNode tag [] (ABytes b)) -> blen b = len ->
  bytes_child n tag len = Ok b.
Proof.
  intros Hl Hf Hb. unfold bytes_child, GetChildByTag. cbn [GetOptionalChildByTag]. rewrite Hl, Hf.
  cbn [fst node_tag node_content]. rewrite String.eqb_refl. cbn [negb]. by rewrite (proj2 (Z.eqb_eq _ _) Hb).
Qed.

(** A key as the code holds it: an id of three bytes, and byte arrays of their lengths. *)
Definition key_ok (k : PreKey) : Prop :=
  0 <= KeyID k < 2 ^ 24 /\ blen (Pub (PreKeyPair k)) = 32 /\
  match Signature k with Some sig => blen sig = 64 | None => True end.

Definition public_part (k : PreKey) : parsedKey := mkParsed (KeyID k) (Pub (PreKeyPair k)) (Signature k).

Lemma nodeToPreKey_toNode k :
  blen (Pub (PreKeyPair k)) = 32 -> match Signature k with Some sig => blen sig = 64 | None => True end ->
  nodeToPreKey (preKeyToNode k) = Ok (mkParsed (KeyID k mod 2 ^ 24) (Pub (PreKeyPair k)) (Signature k)).
Proof.
  intros Hp Hs. unfold nodeToPreKey, preKeyToNode. destruct (Signature k) as [sig|].
  - erewrite (bytes_child_hit _ _ "id"); [|reflexivity..]. rewrite bind_Ok.
    erewrite (bytes_child_hit _ _ "value"); [|reflexivity|reflexivity|done]. rewrite bind_Ok. cbn [node_tag].
    change (String.eqb "skey" "skey") with true. cbn match.
    erewrite (bytes_child_hit _ _ "signature"); [|reflexivity|reflexivity|done]. rewrite bind_Ok.
    unfold key_id_bytes. by rewrite Uint32_tail.
  - erewrite (bytes_child_hit _ _ "id"); [|reflexivity..]. rewrite bind_Ok.
    erewrite (bytes_child_hit _ _ "value"); [|reflexivity|reflexivity|done]. rewrite bind_Ok. cbn [node_tag].
    change (String.eqb "key" "skey") with false. cbn match. unfold key_id_bytes. by rewrite Uint32_tail.
Qed.

Lemma nodeToPreKey_ok k : key_ok k -> nodeToPreKey (preKeyToNode k) = Ok (public_part k).
Proof.
  intros (Hi & Hp & Hs). rewrite nodeToPreKey_toNode by done. by rewrite Z.mod_small.
Qed.

(** The children of a [keys] element (a retry receipt has more of them around these). *)
Lemma bundle_of_keys device n keysNode k signed identity reg :
  key_ok k -> Signature k = None -> key_ok signed -> is_Some (Signature signed) -> blen identity = 32 -> 0 <= reg < 2 ^ 32 ->
  find_child "error" (GetChildren n) = None ->
  find_child "registration" (GetChildren n) = Some (mkNode "registration" [] (ABytes (PutUint32 reg))) ->
  GetOptionalChildByTag n ["keys"] = (keysNode, true) ->
  find_child "identity" (GetChildren keysNode) = Some (mkNode "identity" [] (ABytes identity)) ->
  find_child "key" (GetChildren keysNode) = Some (preKeyToNode k) ->
  find_child "skey" (GetChildren keysNode) = Some (preKeyToNode signed) ->
  exists sig, Signature signed = Some sig /\
  nodeToPreKeyBundle device n =
  Ok (mkBundle reg device (Some (KeyID k, Pub (PreKeyPair k))) (KeyID signed) (Pub (PreKeyPair signed)) sig identity).
Proof.
  intros Hk Hkn Hsk [sig Hsig] Hid Hr He Hreg Hkeys Hident Hkey Hskey. exists sig. split; [done|].
  unfold nodeToPreKeyBundle, GetChildByTag. cbn [GetOptionalChildByTag] in *. rewrite He, Hreg. cbn [andb fst].
  unfold content_bytes. cbn [node_content]. change (blen (PutUint32 reg) =? 4) with true. cbn [negb].
  rewrite Uint32_Put by done. destruct (find_child "keys" (GetChildren n)) as [kn|]; [|by injection Hkeys].
  injection Hkeys as ->. rewrite Hident. cbn [fst node_content].
  rewrite (proj2 (Z.eqb_eq _ _) Hid). cbn [negb]. rewrite Hkey, Hskey. cbn [fst].
  rewrite !nodeToPreKey_ok by done. cbn [map_err]. rewrite !bind_Ok. unfold public_part. cbn [pk_sig pk_id pk_pub].
  rewrite Hsig. cbn [or_panic]. rewrite bind_Ok. done.
Qed.
(** A prekey, signed or not, is read back from its node as it was: the id of
    three bytes, the public key and the signature. *)
Theorem nodeToPreKey_preKeyToNode k : key_ok k -> nodeToPreKey (preKeyToNode k) = Ok (public_part k).
Proof. apply nodeToPreKey_ok. Qed.

(** A response with an id and a value beside the identity key, and no signed
    prekey, makes the reader dereference the missing signature: a missing child
    is looked for in the element itself. *)
Theorem missing_skey_panics device n reg identity id value :
  node_tag n <> "skey" ->
  find_child "error" (GetChildren n) = None -> find_child "keys" (GetChildren n) = None ->
  find_child "key" (GetChildren n) = None -> find_child "skey" (GetChildren n) = None ->
  find_child "registration" (GetChildren n) = Some (mkNode "registration" [] (ABytes reg)) -> blen reg = 4 ->
  find_child "identity" (GetChildren n) = Some (mkNode "identity" [] (ABytes identity)) -> blen identity = 32 ->
  find_child "id" (GetChildren n) = Some (mkNode "id" [] (ABytes id)) -> blen id = 3 ->
  find_child "value" (GetChildren n) = Some (mkNode "value" [] (ABytes value)) -> blen value = 32 ->
  nodeToPreKeyBundle device n = Panic.
Proof.
  intros Ht He Hks Hk Hsk Hr Hrl Hi Hil Hid Hidl Hv Hvl.
  unfold nodeToPreKeyBundle, GetChildByTag. cbn [GetOptionalChildByTag]. rewrite He, Hr. cbn [andb fst].
  unfold content_bytes. cbn [node_content]. rewrite (proj2 (Z.eqb_eq _ _) Hrl). cbn [negb].
  rewrite Hks, Hi. cbn [fst node_content]. rewrite (proj2 (Z.eqb_eq _ _) Hil). cbn [negb].
  rewrite Hk, Hsk. rewrite bind_Ok. cbn [fst]. unfold nodeToPreKey.
  erewrite (bytes_child_hit n _ "id"); [|reflexivity|exact Hid|exact Hidl]. rewrite bind_Ok.
  erewrite (bytes_child_hit n _ "value"); [|reflexivity|exact Hv|exact Hvl]. rewrite bind_Ok.
  by rewrite (proj2 (String.eqb_neq _ _) Ht).
Qed.

(** ** Upload *)

Section upload_facts.
Context {C : Crypto} (random : nat -> bytes) (registrationID : Z) (identityPub : bytes) (signedPreKey : PreKey).
Hypothesis random_length : forall n, length (random n) = 32%nat.

Definition wanted (initialUpload : bool) : Z := if initialUpload then 812 else WantedPreKeyCount.

Lemma last_largest (l : list Z) m x : StronglySorted Z.lt l -> last l = Some m -> x ∈ l -> x <= m.
Proof.
  intros Hs Hm Hx. apply last_Some in Hm as [l' ->]. apply elem_of_app in Hx as [Hx|Hx%list_elem_of_singleton]; [|lia].
  assert (x < m); [|lia]. apply (sorted_split (l' ++ [m]) (length l')); [done| |].
  - by rewrite take_app_length.
  - rewrite drop_app_length. by left.
Qed.

Lemma batch_marked (t t' : gmap Z row) ks k count : batch count t t' ks -> last ks = Some k ->
  forall id, is_uploaded (map_imap (fun id r => Some (mark_row (KeyID k) id r)) t') id <->
             is_uploaded t id \/ id ∈ map KeyID ks.
Proof.
  intros Hb Hk id.
  assert (last (map KeyID ks) = Some (KeyID k)) as Hlast by (by rewrite fmap_last, Hk).
  unfold is_uploaded. setoid_rewrite marked_lookup. split.
  - intros (r & Hr & Hu). destruct (t' !! id) as [r'|] eqn:E; [|done]. injection Hr as <-. unfold mark_row in Hu.
    destruct (b_new _ _ _ _ Hb id r' E) as [Ht|Hin]; [|by right].
    destruct (uploaded r') eqn:E'; [left; eauto|]. right.
    destruct (Z.leb_spec id (KeyID k)) as [Hle|]; [|congruence].
    destruct (decide (id ∈ map KeyID ks)) as [|Hni]; [done|]. exfalso.
    pose proof (b_smallest _ _ _ _ Hb id r' E E' Hni k) as Hs.
    assert (k ∈ ks) as Hin by (apply last_Some in Hk as [l ->]; apply elem_of_app; right; by left).
    specialize (Hs Hin). lia.
  - intros [(r & Hr & Hu)|Hin].
    + rewrite (b_kept _ _ _ _ Hb id r Hr). eexists. split; [reflexivity|]. unfold mark_row. by case_match.
    + pose proof (last_largest _ _ id (b_sorted _ _ _ _ Hb) Hlast Hin) as Hle.
      apply list_elem_of_fmap in Hin as (k' & -> & Hin). apply (b_stored _ _ _ _ Hb) in Hin as (r & Hr & _).
      rewrite Hr. eexists. split; [reflexivity|]. unfold mark_row. by rewrite (proj2 (Z.leb_le _ _) Hle).
Qed.

(** An upload that goes through has sent as many keys as wanted, with ids in
    order and the private keys in the table, and marks exactly them. *)
Theorem upload_marks_sent initialUpload now now' count send s :
  works s -> table_ok (rows s) -> next_id (rows s) + wanted initialUpload <= 2 ^ 24 ->
  lastPreKeyUpload (mem s) = None \/ getServerPreKeyCount count < WantedPreKeyCount ->
  (forall content, send content = true) ->
  exists s' ks,
    uploadPreKeys random registrationID identityPub signedPreKey initialUpload now now' count send s = (s', Ok (Uploaded ks)) /\
    blen ks = wanted initialUpload /\ StronglySorted Z.lt (map KeyID ks) /\
    (forall k, k ∈ ks -> exists r, rows s' !! KeyID k = Some r /\ key r = Priv (PreKeyPair k)) /\
    (forall id, is_uploaded (rows s') id <-> is_uploaded (rows s) id \/ id ∈ map KeyID ks) /\
    lastPreKeyUpload (mem s') = Some now'.
Proof.
  intros Hw Ht Hroom Hneed Hsend.
  destruct (GetOrGenPreKeys_works random random_length (wanted initialUpload) s) as (s1 & ks & Hg & Hw1 & _ & Hb);
    [done|done|by destruct initialUpload|done|].
  destruct (last ks) as [k|] eqn:Ek.
  2: { apply last_None in Ek as ->. pose proof (b_count _ _ _ _ Hb) as Hc. by destruct initialUpload. }
  eexists _, ks. split; [|split; [|split; [|split; [|split]]]].
  - unfold uploadPreKeys. rewrite (stm_bind_ok _ _ s s (mem s)) by done.
    assert ((match lastPreKeyUpload (mem s) with Some t => now <? t + tenMinutes | None => false end)
      && (WantedPreKeyCount <=? getServerPreKeyCount count) = false) as ->.
    { destruct Hneed as [->|Hc]; [done|]. rewrite (proj2 (Z.leb_gt _ _)) by done. apply andb_false_r. }
    fold (wanted initialUpload). rewrite (stm_bind_ok _ _ _ _ _ (try_ok _ _ _ _ Hg)). rewrite Hsend. cbn [negb]. rewrite Ek.
    rewrite (stm_bind_ok _ _ _ _ _ (try_ok _ _ _ _ (MarkPreKeysAsUploaded_works (KeyID k) _ Hw1))). reflexivity.
  - apply Hb.
  - apply Hb.
  - intros k' Hk'. apply (b_stored _ _ _ _ Hb) in Hk' as (r & Hr & _ & Hp). cbn [rows set_rows set_mem].
    exists (mark_row (KeyID k) (KeyID k') r). rewrite marked_lookup, Hr. split; [done|].
    rewrite Hp. unfold mark_row. by case_match.
  - cbn [rows set_rows set_mem]. by apply (batch_marked _ _ _ _ (wanted initialUpload)).
  - reflexivity.
Qed.

End upload_facts.

(** ** Use at concrete inputs *)

Definition block (b : byte) : bytes := repeat b 32.

Lemma nodeToPreKey_preKeyToNode_witness :
  let k := mkPreKey (mkKP (block x07) (block x08)) 5000 (Some (repeat x09 64)) in
  nodeToPreKey (preKeyToNode k) = Ok (public_part k).
Proof. apply nodeToPreKey_preKeyToNode. vm_compute. intuition congruence. Defined.

Definition bad_response : Node :=
  mkNode "user" [] (ANodes [mkNode "registration" [] (ABytes [x00; x00; x00; x01]);
    mkNode "identity" [] (ABytes (block x01)); mkNode "id" [] (ABytes [x00; x00; x02]);
    mkNode "value" [] (ABytes (block x02))]).

Lemma missing_skey_panics_witness : nodeToPreKeyBundle 0 bad_response = Panic.
Proof.
  apply (missing_skey_panics 0 bad_response [x00; x00; x00; x01] (block x01) [x00; x00; x02] (block x02));
    first [reflexivity | discriminate].
Defined.
(** A table with one key the server has and one it has not. *)
Definition two_rows : gmap Z row := {[3 := mkRow (block x03) true; 4 := mkRow (block x04) false]}.

Lemma two_rows_ok : table_ok two_rows.
Proof.
  intros id r H. unfold two_rows in H. apply lookup_insert_Some in H as [[<- <-]|[_ H]]; [by vm_compute|].
  apply lookup_singleton_Some in H as [<- <-]. by vm_compute.
Qed.

Lemma upload_marks_sent_witness : exists s' ks,
  uploadPreKeys (C := toy_crypto) (fun _ => block x2a) 7 (block x01) (mkPreKey (mkKP (block x07) (block x08)) 1 None) false 0 5
    None (fun _ => true) (mkDb two_rows (mkMem 0 None) []) = (s', Ok (Uploaded ks)) /\
  blen ks = 50 /\ is_uploaded (rows s') 53 /\ ~ is_uploaded two_rows 53.
Proof.
  destruct (upload_marks_sent (C := toy_crypto) (fun _ => block x2a) 7 (block x01)
    (mkPreKey (mkKP (block x07) (block x08)) 1 None) (fun _ => eq_refl) false 0 5
    None (fun _ => true) (mkDb two_rows (mkMem 0 None) [])) as (s' & ks & H & Hl & _ & _ & Hu & _).
  - reflexivity.
  - apply two_rows_ok.
  - vm_compute. discriminate.
  - by left.
  - done.
  - exists s', ks. split; [exact H|]. split; [exact Hl|]. split.
    + apply Hu. right.
      assert (match snd (uploadPreKeys (C := toy_crypto) (fun _ => block x2a) 7 (block x01)
        (mkPreKey (mkKP (block x07) (block x08)) 1 None) false 0 5 None (fun _ => true) (mkDb two_rows (mkMem 0 None) []))
        with Ok (Uploaded ks) => existsb (Z.eqb 53) (map KeyID ks) | _ => false end = true) as E by (vm_compute; reflexivity).
      rewrite H in E. cbn [snd] in E. apply existsb_exists in E as (x & Hx & ->%Z.eqb_eq). by apply list_elem_of_In.
    + intros (r & Hr & _). vm_compute in Hr. discriminate Hr.
Defined.

End prekeys.
