(* ===== verification/Receive.v ===== *)
(** * message.go, receipt.go, presence.go: reading incoming stanzas

    [source]: who sent a stanza and where ([parseMessageSource]) and the
    metadata of a message ([parseMessageInfo]). [receipt]: receipts in their
    three forms, what is done with them, acknowledgements, and the receipts
    this client sends. *)

From S2P Require Import Prelude GoStrings Token Jid Node BotMap Encoder Decoder Wire.

#[local] Open Scope string_scope.
#[local] Open Scope list_scope.
#[local] Open Scope Z_scope.

Module source.

Import jid attrs.

Record BroadcastRecipient := mkRecipient { recipient_LID : JID; recipient_PN : JID }.

Definition AddressingModePN := "pn".
Definition AddressingModeLID := "lid".

Record MessageSource := mkSource {
  Chat : JID;
  Sender : JID;
  IsFromMe : bool;
  IsGroup : bool;
  AddressingMode : string;
  SenderAlt : JID;
  RecipientAlt : JID;
  BroadcastListOwner : JID;
  BroadcastRecipients : list BroadcastRecipient
}.

Definition IsIncomingBroadcast (ms : MessageSource) : bool :=
  (negb (IsFromMe ms) || negb (IsEmpty (BroadcastListOwner ms))) && IsBroadcastList (Chat ms).

Inductive source_error := ErrNotLoggedIn | ErrAttrs (l : list attr_error).

(** A [to] child of the participants of a broadcast. *)
Definition parse_recipient (child : Node) : BroadcastRecipient :=
  let '(mainJID, cag) := JID_ "jid" (AttrGetter child) in
  if bool_decide (Server mainJID = HiddenUserServer) then
    mkRecipient mainJID (fst (OptionalJIDOrEmpty "peer_recipient_pn" cag))
  else mkRecipient (fst (OptionalJIDOrEmpty "peer_recipient_lid" cag)) mainJID.

Definition parse_recipients (node : Node) : list BroadcastRecipient :=
  let '(participants, ok) := GetOptionalChildByTag node ["participants"] in
  if ok then map parse_recipient (List.filter (fun c => String.eqb (node_tag c) "to") (GetChildren participants))
  else [].

(** A hosted server stands for the one its users belong to. *)
Definition unhosted (from : JID) : JID :=
  if bool_decide (Server from = HostedServer) then
    mkJID (User from) (RawAgent from) (Device from) (Integrator from) DefaultUserServer
  else if bool_decide (Server from = HostedLIDServer) then
    mkJID (User from) (RawAgent from) (Device from) (Integrator from) HiddenUserServer
  else from.

Definition is_own (clientID clientLID : JID) (j : JID) : bool :=
  String.eqb (User j) (User clientID) || String.eqb (User j) (User clientLID).

(** The alternative address gets the sender's device. *)
Definition fix_device (s : MessageSource) : MessageSource :=
  if negb (IsEmpty (SenderAlt s)) && (Device (SenderAlt s) =? 0) then
    let a := SenderAlt s in
    mkSource (Chat s) (Sender s) (IsFromMe s) (IsGroup s) (AddressingMode s)
      (mkJID (User a) (RawAgent a) (Device (Sender s)) (Integrator a) (Server a))
      (RecipientAlt s) (BroadcastListOwner s) (BroadcastRecipients s)
  else s.

Definition source_group (clientID clientLID : JID) (node : Node) (from : JID) (mode : string)
    (requireParticipant : bool) (ag : AttrUtility) : MessageSource * AttrUtility :=
  let '(sender, ag) := if requireParticipant then JID_ "participant" ag else OptionalJIDOrEmpty "participant" ag in
  let '(alt, ag) :=
    if String.eqb mode AddressingModeLID then OptionalJIDOrEmpty "participant_pn" ag
    else OptionalJIDOrEmpty "participant_lid" ag in
  let me := is_own clientID clientLID sender in
  let '(owner, recipients, ag) :=
    if bool_decide (Server from = BroadcastServer) then
      let '(owner, ag) := OptionalJIDOrEmpty "recipient" ag in
      (owner, if me then parse_recipients node else [], ag)
    else (EmptyJID, [], ag) in
  (mkSource from sender me true mode alt EmptyJID owner recipients, ag).

Definition source_own (from : JID) (mode : string) (ag : AttrUtility) : MessageSource * AttrUtility :=
  let from := unhosted from in
  let '(recipient, ag) := OptionalJID "recipient" ag in
  let chat := match recipient with Some r => r | None => ToNonAD from end in
  let '(alt, ag) :=
    if bool_decide (Server chat = HiddenUserServer) || bool_decide (Server chat = HostedLIDServer)
    then OptionalJIDOrEmpty "peer_recipient_pn" ag else OptionalJIDOrEmpty "peer_recipient_lid" ag in
  (mkSource chat from true false mode EmptyJID alt EmptyJID [], ag).

(** The reader of the meta child takes the place of the stanza's. *)
Definition source_bot (node : Node) (from : JID) (mode : string) : MessageSource * AttrUtility :=
  let '(target, ag) := OptionalJID "target_chat_jid" (AttrGetter (GetChildByTag node ["meta"])) in
  let chat := match target with Some t => ToNonAD t | None => from end in
  (mkSource chat from false false mode EmptyJID EmptyJID EmptyJID [], ag).

Definition source_user (from : JID) (mode : string) (ag : AttrUtility) : MessageSource * AttrUtility :=
  let from := unhosted from in
  let chat := ToNonAD from in
  let '(alt, ag) :=
    if bool_decide (Server from = HiddenUserServer) || bool_decide (Server chat = HostedLIDServer)
    then OptionalJIDOrEmpty "sender_pn" ag else OptionalJIDOrEmpty "sender_lid" ag in
  (mkSource chat from false false mode alt EmptyJID EmptyJID [], ag).

(** [clientID] and [clientLID]: the account's own addresses. *)
Definition parseMessageSource (clientID clientLID : JID) (node : Node) (requireParticipant : bool) :
    outcome source_error MessageSource :=
  if IsEmpty clientID then Err ErrNotLoggedIn
  else
    let '(from, ag) := JID_ "from" (AttrGetter node) in
    let '(mode, ag) := OptionalString "addressing_mode" ag in
    let '(src, ag) :=
      if bool_decide (Server from = GroupServer) || bool_decide (Server from = BroadcastServer) then
        source_group clientID clientLID node from mode requireParticipant ag
      else if bool_decide (Server from = NewsletterServer) then
        (mkSource from from false false mode EmptyJID EmptyJID EmptyJID [], ag)
      else if is_own clientID clientLID from then source_own from mode ag
      else if IsBot from then source_bot node from mode
      else source_user from mode ag in
    match Error ag with
    | Some l => Err (ErrAttrs l)
    | None => Ok (fix_device src)
    end.

(** ** Messages *)

Record MsgBotInfo := mkBotInfo { EditType : string; EditTargetID : string; EditSenderTimestampMS : gotime }.

Record MsgMetaInfo := mkMetaInfo {
  TargetID : string;
  TargetSender : JID;
  TargetChat : JID;
  DeprecatedLIDSession : option bool;
  ThreadMessageID : string;
  ThreadMessageSenderJID : JID
}.

Definition EditTypeInner := "inner".
Definition EditTypeLast := "last".

(** The child looks for a child of its own tag and, not finding it, reads itself. *)
Definition parseMsgBotInfo (node : Node) : MsgBotInfo * option (list attr_error) :=
  let '(edit, ag) := String_ "edit" (AttrGetter (GetChildByTag node ["bot"])) in
  if String.eqb edit EditTypeInner || String.eqb edit EditTypeLast then
    let '(target, ag) := String_ "edit_target_id" ag in
    let '(ts, ag) := UnixMilli "sender_timestamp_ms" ag in
    (mkBotInfo edit target ts, Error ag)
  else (mkBotInfo edit "" ZeroTime, Error ag).

Definition parseMsgMetaInfo (node : Node) : MsgMetaInfo * option (list attr_error) :=
  let '(target, ag) := OptionalString "target_id" (AttrGetter (GetChildByTag node ["meta"])) in
  let '(sender, ag) := OptionalJIDOrEmpty "target_sender_jid" ag in
  let '(chat, ag) := OptionalJIDOrEmpty "target_chat_jid" ag in
  let '((deprecated, ok), ag) := GetBool "deprecated_lid_session" false ag in
  let '(thread, ag) := OptionalString "thread_msg_id" ag in
  let '(threadSender, ag) := OptionalJIDOrEmpty "thread_msg_sender_jid" ag in
  (mkMetaInfo target sender chat (if ok then Some deprecated else None) thread threadSender, Error ag).

Section info.
(** The verified name certificate, parsed by protobuf code; [None]: the content
    does not parse and is logged. *)
Context {V : Type} (parseVerifiedNameContent : Node -> option V).

Record MessageInfo := mkInfo {
  info_source : MessageSource;
  ID : string;
  ServerID : Z;
  Timestamp : gotime;
  PushName : string;
  Category : string;
  Type_ : string;
  Edit : string;
  Multicast : bool;
  VerifiedName : option V;
  info_bot : MsgBotInfo;
  info_meta : MsgMetaInfo;
  MediaType : string
}.

Definition no_bot : MsgBotInfo := mkBotInfo "" "" ZeroTime.
Definition no_meta : MsgMetaInfo := mkMetaInfo "" EmptyJID EmptyJID None "" EmptyJID.

(** What a child of the stanza adds. *)
Definition info_child (i : MessageInfo) (child : Node) : MessageInfo :=
  let put m v b t x := mkInfo (info_source i) (ID i) (ServerID i) (Timestamp i) (PushName i) (Category i) (Type_ i)
                              (Edit i) m v b t x in
  let tag := node_tag child in
  if String.eqb tag "multicast" then put true (VerifiedName i) (info_bot i) (info_meta i) (MediaType i)
  else if String.eqb tag "verified_name" then
    put (Multicast i) (parseVerifiedNameContent child) (info_bot i) (info_meta i) (MediaType i)
  else if String.eqb tag "bot" then
    put (Multicast i) (VerifiedName i) (fst (parseMsgBotInfo child)) (info_meta i) (MediaType i)
  else if String.eqb tag "meta" then
    put (Multicast i) (VerifiedName i) (info_bot i) (fst (parseMsgMetaInfo child)) (MediaType i)
  else if String.eqb tag "franking" || String.eqb tag "trace" then i
  else
    match fst (GetString "mediatype" false (AttrGetter child)) with
    | (mediaType, true) => put (Multicast i) (VerifiedName i) (info_bot i) (info_meta i) mediaType
    | _ => i
    end.

Definition parseMessageInfo (clientID clientLID : JID) (node : Node) : outcome source_error MessageInfo :=
  src ← parseMessageSource clientID clientLID node true;
  let '(id, ag) := String_ "id" (AttrGetter node) in
  let '(serverID, ag) := OptionalInt "server_id" ag in
  let '(t, ag) := UnixTime "t" ag in
  let '(notify, ag) := OptionalString "notify" ag in
  let '(category, ag) := OptionalString "category" ag in
  let '(ty, ag) := OptionalString "type" ag in
  let '(edit, ag) := OptionalString "edit" ag in
  match Error ag with
  | Some l => Err (ErrAttrs l)
  | None =>
      Ok (foldl info_child (mkInfo src id serverID t notify category ty edit false None no_bot no_meta "") (GetChildren node))
  end.

End info.

(** ** Who a stanza is from *)

(** What the reader cannot change: it only appends to its errors. *)
Lemma fix_device_fields s :
  Chat (fix_device s) = Chat s /\ Sender (fix_device s) = Sender s /\ IsFromMe (fix_device s) = IsFromMe s /\
  IsGroup (fix_device s) = IsGroup s /\ BroadcastRecipients (fix_device s) = BroadcastRecipients s.
Proof. unfold fix_device. by case_match. Qed.

Lemma user_unhosted j : User (unhosted j) = User j.
Proof. unfold unhosted. by repeat case_match. Qed.

Lemma is_own_unhosted a b j : is_own a b (unhosted j) = is_own a b j.
Proof. unfold is_own. by rewrite user_unhosted. Qed.

(** A stanza that parses is marked as this account's own exactly when its
    sender has the user part of one of the account's addresses; newsletters
    and bots excepted, which never are. *)
Theorem source_from_me clientID clientLID node req s :
  parseMessageSource clientID clientLID node req = Ok s ->
  Server (Sender s) <> NewsletterServer -> IsBot (Sender s) = false ->
  IsFromMe s = is_own clientID clientLID (Sender s).
Proof.
  unfold parseMessageSource. destruct (IsEmpty clientID); [done|].
  destruct (JID_ "from" (AttrGetter node)) as [from ag]. destruct (OptionalString "addressing_mode" ag) as [mode ag1].
  destruct (bool_decide (Server from = GroupServer) || bool_decide (Server from = BroadcastServer)).
  { unfold source_group. destruct (if req then _ else _) as [sender ag2].
    destruct (if String.eqb mode AddressingModeLID then _ else _) as [alt ag3].
    destruct (if bool_decide _ then _ else _) as [[owner recipients] ag4].
    destruct (Error ag4); [done|]. intros [= <-] _ _.
    by destruct (fix_device_fields (mkSource from sender (is_own clientID clientLID sender) true mode alt EmptyJID owner
      recipients)) as (_ & -> & -> & _). }
  destruct (bool_decide (Server from = NewsletterServer)) eqn:En.
  { destruct (Error ag1); [done|]. intros [= <-] Hs _. by apply bool_decide_eq_true in En. }
  destruct (is_own clientID clientLID from) eqn:Eo.
  { unfold source_own. destruct (OptionalJID "recipient" ag1) as [r ag2].
    destruct (if _ || _ then _ else _) as [alt ag3]. destruct (Error ag3); [done|]. intros [= <-] _ _.
    match goal with |- IsFromMe (fix_device ?x) = _ => destruct (fix_device_fields x) as (_ & -> & -> & _) end.
    cbn [IsFromMe Sender]. by rewrite is_own_unhosted. }
  destruct (IsBot from) eqn:Eb.
  { unfold source_bot. destruct (OptionalJID _ _) as [t ag2]. destruct (Error ag2); [done|]. intros [= <-] _ Hb.
    cbn in Hb. congruence. }
  unfold source_user. destruct (if _ || _ then _ else _) as [alt ag2]. destruct (Error ag2); [done|]. intros [= <-] _ _.
  match goal with |- IsFromMe (fix_device ?x) = _ => destruct (fix_device_fields x) as (_ & -> & -> & _) end.
  cbn [IsFromMe Sender]. by rewrite is_own_unhosted.
Qed.

End source.

Module receipt.

Import jid attrs source.

(** ** Receipts of others *)

Definition ReceiptTypeDelivered := "".
Definition ReceiptTypeSender := "sender".
Definition ReceiptTypeRetry := "retry".
Definition ReceiptTypeRead := "read".
Definition ReceiptTypeReadSelf := "read-self".
Definition ReceiptTypePlayed := "played".
Definition ReceiptTypeInactive := "inactive".
Definition ReceiptTypePeerMsg := "peer_msg".

Record Receipt := mkReceipt {
  rsource : MessageSource;
  MessageIDs : list string;
  rTimestamp : gotime;
  rType : string;
  MessageSender : JID
}.

Inductive receipt_error :=
  | ErrSource (e : source_error)
  | ElementMissing (tag : string)
  | ErrReceiptAttrs (l : list attr_error).

(** The ids of the [item] children that have one. *)
Definition item_id (item : Node) : option string :=
  match attr_get "id" (node_attrs item) with
  | Some (AString id) => if String.eqb (node_tag item) "item" then Some id else None
  | _ => None
  end.

(** A receipt, with the participant lists of a grouped one. *)
Definition parseReceipt (clientID clientLID : JID) (node : Node) :
    outcome receipt_error (Receipt * option (list Node)) :=
  src ← map_err ErrSource (parseMessageSource clientID clientLID node false);
  let '(t, ag) := UnixTime "t" (AttrGetter node) in
  let '(ty, ag) := OptionalString "type" ag in
  let '(sender, ag) := OptionalJIDOrEmpty "recipient" ag in
  if IsGroup src && IsEmpty (Sender src) then
    match GetChildrenByTag node "participants" with
    | [] => Err (ElementMissing "participants")
    | tags => Ok (mkReceipt src [] t ty sender, Some tags)
    end
  else
    let '(mainMessageID, ag) := String_ "id" ag in
    if negb (OK ag) then Err (ErrReceiptAttrs (au_errors ag))
    else
      let ids :=
        match GetChildren node with
        | [c] => if String.eqb (node_tag c) "list" then mainMessageID :: omap item_id (GetChildren c) else [mainMessageID]
        | _ => [mainMessageID]
        end in
      Ok (mkReceipt src ids t ty sender, None).

(** A user's line of a grouped receipt. *)
Definition grouped_user (partial : Receipt) (ids : list string) (child : Node) : option Receipt :=
  if negb (String.eqb (node_tag child) "user") then None
  else
    let '(t, ag) := UnixTime "t" (AttrGetter child) in
    let '(j, ag) := JID_ "jid" ag in
    let s := rsource partial in
    if OK ag then
      Some (mkReceipt (mkSource (Chat s) j (IsFromMe s) (IsGroup s) (AddressingMode s) (SenderAlt s) (RecipientAlt s)
                         (BroadcastListOwner s) (BroadcastRecipients s))
              ids t (rType partial) (MessageSender partial))
    else None.

Definition grouped_receipts (partial : Receipt) (participants : Node) : list Receipt :=
  let key := fst (String_ "key" (AttrGetter participants)) in
  omap (grouped_user partial [key]) (GetChildren participants).

(** ** Handling *)

Definition NackParsingError : Z := 487.
Definition NackUnrecognizedStanza : Z := 488.
Definition NackInvalidProtobuf : Z := 491.
Definition NackMissingMessageSecret : Z := 495.

(** What handling a receipt does, in program order: a [go] statement is put
    where it is started. *)
Inductive action :=
  | Dispatch (r : Receipt)
  | TryRetry (r : Receipt)          (* go tryHandleRetryReceipt, which acknowledges by itself *)
  | Ack (error : Z).

(** [SynchronousAck]: acknowledge at the end and only if no handler failed; else
    at once, in the background. *)
Definition maybeDeferredAck (SynchronousAck : bool) (body : list action) (cancelled : bool) : list action :=
  if SynchronousAck then body ++ (if cancelled then [] else [Ack 0]) else Ack 0 :: body.

(** [dispatchEvent] tells whether a handler failed. The last list of
    participants decides. *)
Definition handleReceipt (SynchronousAck : bool) (dispatchEvent : Receipt -> bool) (clientID clientLID : JID) (node : Node) :
    list action :=
  match parseReceipt clientID clientLID node with
  | Ok (r, Some participants) =>
      let rs := map (grouped_receipts r) participants in
      let cancelled := match last rs with Some l => existsb dispatchEvent l | None => false end in
      maybeDeferredAck SynchronousAck (map Dispatch (concat rs)) cancelled
  | Ok (r, None) =>
      if String.eqb (rType r) ReceiptTypeRetry then [TryRetry r; Dispatch r]
      else maybeDeferredAck SynchronousAck [Dispatch r] (dispatchEvent r)
  | _ => [Ack NackParsingError]
  end.

(** The value of an attribute that may be missing: a nil interface. *)
Definition attr_or_nil (k : string) (a : Attrs) : any := default ANil (attr_get k a).

Definition copy_attr (k : string) (from : Attrs) (to : Attrs) : Attrs :=
  match attr_get k from with Some v => attr_set k v to | None => to end.

Definition ack_recipient (node : Node) (v : any) : any :=
  match v with
  | AJID j =>
      if bool_decide (Server j = BotServer) && String.eqb (node_tag node) "message" then
        match botmap.BotJIDMap !! j with Some alt => AJID alt | None => v end
      else v
  | _ => v
  end.

Definition sendAck (node : Node) (error : Z) : Node :=
  let a := node_attrs node in
  let attrs := [("class", AString (node_tag node)); ("id", attr_or_nil "id" a); ("to", attr_or_nil "from" a)] in
  let attrs := copy_attr "participant" a attrs in
  let attrs := match attr_get "recipient" a with
               | Some v => attr_set "recipient" (ack_recipient node v) attrs
               | None => attrs
               end in
  let attrs := match attr_get "type" a with
               | Some v => if String.eqb (node_tag node) "message" then attrs else attr_set "type" v attrs
               | None => attrs
               end in
  let attrs := if error =? 0 then attrs else attr_set "error" (AInt error) attrs in
  mkNode "ack" attrs ANil.

(** ** Receipts of this client *)

Definition buildBaseReceipt (id : string) (node : Node) : Attrs :=
  let a := node_attrs node in
  let attrs := [("id", AString id); ("to", attr_or_nil "from" a)] in
  copy_attr "participant" a (copy_attr "recipient" a attrs).

(** [active]: sendActiveReceipts. *)
Definition sendMessageReceipt (active : Z) (isFromMe : bool) (id type_ : string) (node : Node) : Node :=
  let attrs := buildBaseReceipt id node in
  let attrs :=
    if isFromMe then
      attr_set "type" (AString (if String.eqb type_ "peer_msg" then ReceiptTypePeerMsg else ReceiptTypeSender)) attrs
    else if active =? 0 then attr_set "type" (AString ReceiptTypeInactive) attrs
    else attrs in
  mkNode "receipt" attrs ANil.

(** sendActiveReceipts: 2 when forced, 1 while available. *)
Definition SetForceActiveDeliveryReceipts (active : bool) : Z := if active then 2 else 0.

Definition compare_and_swap (old new v : Z) : Z := if v =? old then new else v.

Definition SendPresence_active (available : bool) (v : Z) : Z :=
  if available then compare_and_swap 0 1 v else compare_and_swap 1 0 v.

Inductive markread_error := NoMessageIDs.

Definition is_direct (chat : JID) : bool :=
  bool_decide (Server chat = DefaultUserServer) || bool_decide (Server chat = HiddenUserServer)
  || bool_decide (Server chat = MessengerServer).

(** [hidden]: the account's setting sends no read receipts. [timestamp] in seconds. *)
Definition MarkRead (hidden : bool) (ids : list string) (timestamp : Z) (chat sender : JID) (receiptTypeExtra : list string) :
    outcome markread_error Node :=
  match ids with
  | [] => Err NoMessageIDs
  | id :: others =>
      match (match receiptTypeExtra with [] => Some ReceiptTypeRead | [t] => Some t | _ => None end) with
      | None => Panic
      | Some receiptType =>
          let ty := if (bool_decide (Server chat = NewsletterServer) || hidden) && String.eqb receiptType ReceiptTypeRead
                    then ReceiptTypeReadSelf else receiptType in
          let attrs := [("id", AString id); ("type", AString ty); ("to", AJID chat); ("t", AInt64 timestamp)] in
          let attrs := if negb (IsEmpty sender) && negb (is_direct chat)
                       then attrs ++ [("participant", AJID (ToNonAD sender))] else attrs in
          let content :=
            match others with
            | [] => ANil
            | _ => ANodes [mkNode "list" [] (ANodes (map (fun i => mkNode "item" [("id", AString i)] ANil) others))]
            end in
          Ok (mkNode "receipt" attrs content)
      end
  end.

(** ** Grouped receipts *)

Lemma grouped_user_from_me partial ids c x : grouped_user partial ids c = Some x ->
  IsFromMe (rsource x) = IsFromMe (rsource partial).
Proof.
  unfold grouped_user. destruct (negb _); [done|]. destruct (UnixTime "t" (AttrGetter c)) as [t ag].
  destruct (JID_ "jid" ag) as [j ag']. destruct (OK ag'); [|done]. by intros [= <-].
Qed.

Lemma grouped_from_me partial p x : x ∈ grouped_receipts partial p -> IsFromMe (rsource x) = IsFromMe (rsource partial).
Proof.
  unfold grouped_receipts. intros Hx. apply list_elem_of_omap in Hx as (c & _ & Hc). by eapply grouped_user_from_me.
Qed.

Lemma OptionalJIDOrEmpty_missing k au : attr_get k (au_attrs au) = None -> OptionalJIDOrEmpty k au = (EmptyJID, au).
Proof. intros H. unfold OptionalJIDOrEmpty, GetJID. by rewrite H. Qed.

Lemma JID_attrs k au : au_attrs (snd (JID_ k au)) = au_attrs au.
Proof. unfold JID_, value_of, GetJID, fail_with. by repeat case_match. Qed.

Lemma OptionalString_attrs k au : au_attrs (snd (OptionalString k au)) = au_attrs au.
Proof. unfold OptionalString, value_of, GetString, fail_with. by repeat case_match. Qed.

(** A group stanza without a participant has the empty sender. *)
Lemma group_no_participant clientID clientLID node s :
  parseMessageSource clientID clientLID node false = Ok s -> IsGroup s = true ->
  attr_get "participant" (node_attrs node) = None ->
  IsFromMe s = is_own clientID clientLID EmptyJID.
Proof.
  intros H Hg Hp. unfold parseMessageSource in H. destruct (IsEmpty clientID); [done|].
  destruct (JID_ "from" (AttrGetter node)) as [from ag] eqn:E1.
  destruct (OptionalString "addressing_mode" ag) as [mode ag1] eqn:E2.
  assert (au_attrs ag1 = node_attrs node) as Ha.
  { pose proof (OptionalString_attrs "addressing_mode" ag) as A2. rewrite E2 in A2.
    pose proof (JID_attrs "from" (AttrGetter node)) as A1. rewrite E1 in A1. exact (eq_trans A2 A1). }
  destruct (bool_decide (Server from = GroupServer) || bool_decide (Server from = BroadcastServer)).
  { unfold source_group in H. rewrite OptionalJIDOrEmpty_missing in H by (by rewrite Ha).
    destruct (if String.eqb mode AddressingModeLID then _ else _) as [alt ag3].
    destruct (if bool_decide _ then _ else _) as [[owner recipients] ag4].
    destruct (Error ag4); [done|]. injection H as <-.
    match goal with |- IsFromMe (fix_device ?x) = _ => destruct (fix_device_fields x) as (_ & _ & -> & _) end. done. }
  exfalso. revert H. repeat match goal with
  | |- context [if ?b then _ else _] => destruct b
  | |- context [let '(_, _) := ?p in _] => destruct p eqn:?
  end; destruct (Error _); try discriminate; intros [= <-];
    match goal with H : IsGroup (fix_device ?x) = _ |- _ => destruct (fix_device_fields x) as (_ & _ & _ & Hx & _) end;
    rewrite Hx in Hg; unfold source_own, source_bot, source_user in *; cbn in Hg;
    repeat match goal with H : context [let '(_, _) := ?p in _] |- _ => destruct p end; simplify_eq; done.
Qed.

(** The lines of a grouped receipt are marked as this account's own exactly
    when the account's LID is not known, whoever they are from: the empty
    sender is compared with the empty LID. *)
Theorem grouped_receipt_from_me clientID clientLID node r tags p x :
  parseReceipt clientID clientLID node = Ok (r, Some tags) ->
  attr_get "participant" (node_attrs node) = None -> User clientID <> "" ->
  x ∈ grouped_receipts r p -> IsFromMe (rsource x) = String.eqb (User clientLID) "".
Proof.
  unfold parseReceipt. intros H Hp Hu Hx. rewrite (grouped_from_me _ _ _ Hx).
  destruct (parseMessageSource clientID clientLID node false) as [s|e| |] eqn:Es; try discriminate.
  cbn [map_err] in H. rewrite bind_Ok in H.
  destruct (UnixTime "t" (AttrGetter node)) as [t ag]. destruct (OptionalString "type" ag) as [ty ag1].
  destruct (OptionalJIDOrEmpty "recipient" ag1) as [sender ag2].
  destruct (IsGroup s && IsEmpty (Sender s)) eqn:Eg.
  - destruct (GetChildrenByTag node "participants"); [done|]. injection H as <- _. cbn [rsource].
    apply andb_true_iff in Eg as [Eg _]. rewrite (group_no_participant _ _ _ _ Es Eg Hp). unfold is_own.
    change (User EmptyJID) with "". destruct (String.eqb_spec "" (User clientID)) as [E|_]; [by rewrite <- E in Hu|].
    cbn [orb]. apply String.eqb_sym.
  - destruct (String_ "id" ag2) as [id ag3]. destruct (negb (OK ag3)); discriminate.
Qed.

(** A handler that fails on all but the last list of participants does not
    keep a grouped receipt from being acknowledged. *)
Theorem grouped_failure_acked dispatchEvent clientID clientLID node r ps p :
  parseReceipt clientID clientLID node = Ok (r, Some (ps ++ [p])) ->
  (forall x, x ∈ grouped_receipts r p -> dispatchEvent x = false) ->
  Ack 0 ∈ handleReceipt true dispatchEvent clientID clientLID node.
Proof.
  intros H Hd. unfold handleReceipt. rewrite H. unfold maybeDeferredAck.
  rewrite map_app. cbn [map]. rewrite last_snoc.
  assert (existsb dispatchEvent (grouped_receipts r p) = false) as ->.
  { apply not_true_is_false. intros (x & Hx & Hx')%existsb_exists. apply list_elem_of_In in Hx.
    rewrite Hd in Hx' by done. done. }
  apply elem_of_app. right. by left.
Qed.

(** ** A read receipt and its reader *)

Import encoder wire.

(** What reaches the reader of a receipt: the elements as the wire carries
    them, the identity attributes that the server sets aside. *)
Record relayed (n n' : Node) : Prop := {
  rel_attr k : k ∈ ["id"; "type"; "t"] -> attr_get k (node_attrs n') = attr_get k (norm_attrs (node_attrs n));
  rel_recipient : attr_get "recipient" (node_attrs n') = None;
  rel_children : GetChildren n' = GetChildren (norm_node n)
}.

Lemma item_ids others : Forall (fun i => i <> "") others ->
  omap item_id (map norm_node (map (fun i => mkNode "item" [("id", AString i)] ANil) others)) = others.
Proof.
  induction 1 as [|i l Hi _ IH]; [done|]. cbn [map]. 
  change (norm_node (mkNode "item" [("id", AString i)] ANil)) with
    (mkNode "item" (if bool_decide (i = "") then [] else [("id", AString i)]) ANil).
  rewrite bool_decide_eq_false_2 by done. cbn [omap list_omap]. unfold item_id at 1. cbn [node_attrs node_tag attr_get].
  rewrite bool_decide_eq_true_2 by done. change (String.eqb "item" "item") with true. cbn match. f_equal. exact IH.
Qed.

Lemma read_children id others ty chat ts extra :
  Forall (fun i => i <> "") others ->
  let n := mkNode "receipt" ([("id", AString id); ("type", AString ty); ("to", AJID chat); ("t", AInt64 ts)] ++ extra)
    (match others with
     | [] => ANil
     | _ => ANodes [mkNode "list" [] (ANodes (map (fun i => mkNode "item" [("id", AString i)] ANil) others))]
     end) in
  match GetChildren (norm_node n) with
  | [c] => if String.eqb (node_tag c) "list" then id :: omap item_id (GetChildren c) else [id]
  | _ => [id]
  end = id :: others.
Proof.
  intros Ho n. unfold n, GetChildren. cbn [norm_node node_content]. destruct others as [|i l]; [done|].
  cbn [norm map node_content norm_node node_tag]. change (String.eqb "list" "list") with true. cbn match.
  f_equal. exact (item_ids (i :: l) Ho).
Qed.
Lemma read_attrs id ty chat ts extra : id <> "" -> ty <> "" ->
  norm_attrs ([("id", AString id); ("type", AString ty); ("to", AJID chat); ("t", AInt64 ts)] ++ extra) =
  [("id", AString id); ("type", AString ty); ("to", AJID (norm_jid chat)); ("t", AString (itoa ts))] ++ norm_attrs extra.
Proof.
  intros Hi Ht. cbn [app norm_attrs skipped norm]. rewrite !bool_decide_eq_false_2 by done. reflexivity.
Qed.

Definition read_time (ts : Z) : gotime := if ts =? 0 then ZeroTime else UnixNano (ts * 10 ^ 9).

Lemma GetString_hit k req au s : attr_get k (au_attrs au) = Some (AString s) -> GetString k req au = ((s, true), au).
Proof. intros H. unfold GetString. by rewrite H. Qed.

Lemma UnixTime_hit k au ts : attr_get k (au_attrs au) = Some (AString (itoa ts)) -> 0 <= ts < 2 ^ 63 ->
  UnixTime k au = (read_time ts, au).
Proof.
  intros H Ht. unfold UnixTime, value_of, GetUnixTime, GetInt64, GetParsed. rewrite (GetString_hit _ _ _ _ H).
  change (parse_int (itoa ts)) with (atoi (itoa ts)). rewrite (atoi_itoa ts Ht). unfold read_time. by destruct (ts =? 0).
Qed.

(** What [MarkRead] sends is read back: over the wire the receipt carries
    the type, the time and every id, in order, whether there is one or many. *)
Theorem MarkRead_parsed clientID clientLID hidden ids ts chat sender n n' s :
  MarkRead hidden ids ts chat sender [] = Ok n -> Forall (fun i => i <> "") ids -> 0 <= ts < 2 ^ 63 ->
  relayed n n' ->
  parseMessageSource clientID clientLID n' false = Ok s -> IsGroup s && IsEmpty (Sender s) = false ->
  parseReceipt clientID clientLID n' =
  Ok (mkReceipt s ids (read_time ts)
        (if bool_decide (Server chat = NewsletterServer) || hidden then ReceiptTypeReadSelf else ReceiptTypeRead) EmptyJID, None).
Proof.
  unfold MarkRead. intros Hm Hids Hts Hrel Hs Hg. destruct ids as [|id others]; [done|].
  cbn match in Hm. change (String.eqb ReceiptTypeRead ReceiptTypeRead) with true in Hm. rewrite andb_true_r in Hm.
  set (ty := if bool_decide (Server chat = NewsletterServer) || hidden then ReceiptTypeReadSelf else ReceiptTypeRead) in *.
  assert (ty <> "") as Hty by (unfold ty; destruct (bool_decide (Server chat = NewsletterServer) || hidden); vm_compute; discriminate).
  apply Forall_cons in Hids as [Hid Hothers].
  set (extra := if negb (IsEmpty sender) && negb (is_direct chat) then [("participant", AJID (ToNonAD sender))] else []).
  assert (n = mkNode "receipt" ([("id", AString id); ("type", AString ty); ("to", AJID chat); ("t", AInt64 ts)] ++ extra)
    (match others with
     | [] => ANil
     | _ => ANodes [mkNode "list" [] (ANodes (map (fun i => mkNode "item" [("id", AString i)] ANil) others))]
     end)) as En.
  { injection Hm as <-. unfold extra. by destruct (negb (IsEmpty sender) && negb (is_direct chat)). }
  clear Hm. destruct Hrel as [Ha Hr Hc]. rewrite En in Ha, Hc.
  assert (forall k v, k ∈ ["id"; "type"; "t"] ->
    attr_get k ([("id", AString id); ("type", AString ty); ("to", AJID (norm_jid chat)); ("t", AString (itoa ts))]
      ++ norm_attrs extra) = Some v -> attr_get k (node_attrs n') = Some v) as Hget.
  { intros k v Hk Hv. rewrite Ha by done. cbn [node_attrs]. by rewrite read_attrs. }
  unfold parseReceipt. rewrite Hs. cbn [map_err]. rewrite bind_Ok.
  rewrite (UnixTime_hit "t" (AttrGetter n') ts); [|apply Hget; [set_solver|reflexivity]|done].
  unfold OptionalString, value_of. rewrite (GetString_hit "type" false (AttrGetter n') ty) by (apply Hget; [set_solver|reflexivity]).
  cbn [fst snd]. rewrite OptionalJIDOrEmpty_missing by done. rewrite Hg.
  unfold String_, value_of. rewrite (GetString_hit "id" true (AttrGetter n') id) by (apply Hget; [set_solver|reflexivity]).
  cbn [fst snd]. change (OK (AttrGetter n')) with true. cbn [negb]. do 2 f_equal. rewrite Hc. f_equal.
  by apply read_children.
Qed.

(** ** Use at concrete inputs *)

Definition me : JID := mkJID "15551234567" 0 3 0 DefaultUserServer.
Definition my_lid : JID := mkJID "1000" 0 3 0 HiddenUserServer.
Definition friend : JID := mkJID "15557654321" 0 0 0 DefaultUserServer.
Definition a_group : JID := mkJID "120363" 0 0 0 GroupServer.

Definition read_stanza : Node :=
  mkNode "receipt" [("from", AJID friend); ("id", AString "A1"); ("type", AString "read"); ("t", AString "1700000000")]
    (ANodes [mkNode "list" [] (ANodes [mkNode "item" [("id", AString "A2")] ANil])]).

Lemma source_from_me_witness : exists s,
  parseMessageSource me my_lid read_stanza false = Ok s /\ IsFromMe s = is_own me my_lid (Sender s).
Proof.
  eexists. split; [vm_compute; reflexivity|].
  eapply (source_from_me me my_lid read_stanza false); [vm_compute; reflexivity|discriminate|reflexivity].
Defined.

Lemma MarkRead_parsed_witness : exists n s,
  MarkRead false ["A1"; "A2"] 1700000000 me EmptyJID [] = Ok n /\
  parseReceipt me my_lid read_stanza = Ok (mkReceipt s ["A1"; "A2"] (UnixNano 1700000000000000000) "read" EmptyJID, None).
Proof.
  eexists _, _. split; [vm_compute; reflexivity|].
  eapply (MarkRead_parsed me my_lid false ["A1"; "A2"] 1700000000 me EmptyJID _ read_stanza).
  - vm_compute. reflexivity.
  - repeat constructor; discriminate.
  - lia.
  - split; [|reflexivity|vm_compute; reflexivity].
    intros k Hk. repeat (apply elem_of_cons in Hk as [->|Hk]; [vm_compute; reflexivity|]). by apply elem_of_nil in Hk.
  - vm_compute. reflexivity.
  - reflexivity.
Defined.

Definition grouped_stanza : Node :=
  mkNode "receipt" [("from", AJID a_group); ("type", AString "read"); ("t", AString "1700000000")]
    (ANodes [mkNode "participants" [("key", AString "A1")]
      (ANodes [mkNode "user" [("jid", AJID friend); ("t", AString "1700000001")] ANil])]).

Lemma grouped_receipt_from_me_witness : exists r tags p x,
  parseReceipt me EmptyJID grouped_stanza = Ok (r, Some tags) /\ x ∈ grouped_receipts r p /\
  Sender (rsource x) = friend /\ IsFromMe (rsource x) = true.
Proof.
  eexists _, _, (mkNode "participants" [("key", AString "A1")]
      (ANodes [mkNode "user" [("jid", AJID friend); ("t", AString "1700000001")] ANil])), _.
  split; [vm_compute; reflexivity|]. split; [vm_compute; left|]. split; [reflexivity|].
  rewrite (grouped_receipt_from_me me EmptyJID grouped_stanza _ _
    (mkNode "participants" [("key", AString "A1")]
      (ANodes [mkNode "user" [("jid", AJID friend); ("t", AString "1700000001")] ANil])) _
    ltac:(vm_compute; reflexivity) eq_refl ltac:(discriminate) ltac:(vm_compute; left)).
  reflexivity.
Defined.

Definition two_lists : Node :=
  mkNode "receipt" [("from", AJID a_group); ("type", AString "read"); ("t", AString "1700000000")]
    (ANodes [mkNode "participants" [("key", AString "A1")]
               (ANodes [mkNode "user" [("jid", AJID friend); ("t", AString "1700000001")] ANil]);
             mkNode "participants" [("key", AString "A2")] ANil]).

(** The handler fails on every receipt there is. *)
Lemma grouped_failure_acked_witness : Ack 0 ∈ handleReceipt true (fun _ => true) me my_lid two_lists.
Proof.
  eapply (grouped_failure_acked (fun _ => true) me my_lid two_lists _
    [mkNode "participants" [("key", AString "A1")] (ANodes [mkNode "user" [("jid", AJID friend); ("t", AString "1700000001")] ANil])]
    (mkNode "participants" [("key", AString "A2")] ANil)).
  - vm_compute. reflexivity.
  - intros x Hx. vm_compute in Hx. by apply elem_of_nil in Hx.
Defined.

End receipt.
