(* ===== verification/Presence.v ===== *)
(** * presence.go, call.go: presences, typing notifications and calls

    The events read from incoming stanzas and the stanzas that are sent; a
    failed attribute keeps a presence from being dispatched, while a call is
    dispatched with whatever it has. *)

From S2P Require Import Prelude GoStrings Token Jid Node Encoder Decoder Wire Receive.

#[local] Open Scope string_scope.
#[local] Open Scope list_scope.
#[local] Open Scope Z_scope.

Module presence.

Import jid attrs source.

(** ** Typing notifications *)

Definition ChatPresenceComposing := "composing".
Definition ChatPresencePaused := "paused".

Record ChatPresence := mkChatPresence { cp_source : MessageSource; State : string; Media : string }.

(** An unknown state is logged and dispatched all the same. *)
Definition handleChatState (clientID clientLID : JID) (node : Node) : option ChatPresence :=
  match parseMessageSource clientID clientLID node true with
  | Ok source =>
      match GetChildren node with
      | [child] => Some (mkChatPresence source (node_tag child) (fst (OptionalString "media" (AttrGetter child))))
      | _ => None
      end
  | _ => None
  end.

Definition SendChatPresence (jid : JID) (state media : string) : Node :=
  let attrs := if String.eqb state ChatPresenceComposing && negb (String.eqb media "") then [("media", AString media)] else [] in
  mkNode "chatstate" [("to", AJID jid)] (ANodes [mkNode state attrs ANil]).

(** ** Presence *)

Record Presence := mkPresence { From : JID; Unavailable : bool; LastSeen : gotime }.

Definition handlePresence (node : Node) : option Presence :=
  let '(from, ag) := JID_ "from" (AttrGetter node) in
  let '(presenceType, ag) := OptionalString "type" ag in
  let '(lastSeen, ag) := OptionalString "last" ag in
  let '(t, ag) :=
    if negb (String.eqb lastSeen "") && negb (String.eqb lastSeen "deny") then UnixTime "last" ag else (ZeroTime, ag) in
  if OK ag then Some (mkPresence from (String.eqb presenceType "unavailable") t) else None.

Inductive presence_error := ErrNoPushName.

(** The stanza, and sendActiveReceipts after it; [pushName]: None for Messenger. *)
Definition SendPresence (pushName : option string) (state : string) (active : Z) : outcome presence_error (Node * Z) :=
  match pushName with
  | Some "" => Err ErrNoPushName
  | _ =>
      let active := receipt.SendPresence_active (String.eqb state "available") active in
      let attrs := [("type", AString state)] in
      let attrs := match pushName with Some n => attrs ++ [("name", AString n)] | None => attrs end in
      Ok (mkNode "presence" attrs ANil, active)
  end.

Inductive subscribe_error := ErrToken | ErrNoPrivacyToken (j : JID).

(** [token]: what ensureTCToken gives. *)
Definition SubscribePresence (errorWithoutToken : bool) (token : outcome unit (option bytes)) (j : JID) :
    outcome subscribe_error Node :=
  privacyToken ← map_err (fun _ => ErrToken) token;
  let attrs := [("type", AString "subscribe"); ("to", AJID j)] in
  match privacyToken with
  | None =>
      if errorWithoutToken then Err (ErrNoPrivacyToken (ToNonAD j))
      else Ok (mkNode "presence" attrs ANil)
  | Some b => Ok (mkNode "presence" attrs (ANodes [mkNode "tctoken" [] (ABytes b)]))
  end.

(** ** Calls *)

Record BasicCallMeta := mkCallMeta {
  call_From : JID;
  call_Timestamp : gotime;
  CallCreator : JID;
  CallCreatorAlt : JID;
  CallID : string;
  GroupJID : JID
}.

Record CallRemoteMeta := mkRemote { RemotePlatform : string; RemoteVersion : string }.

Inductive call_event :=
  | CallOffer (m : BasicCallMeta) (r : CallRemoteMeta) (data : Node)
  | CallOfferNotice (m : BasicCallMeta) (media type_ : string) (data : Node)
  | CallRelayLatency (m : BasicCallMeta) (data : Node)
  | CallAccept (m : BasicCallMeta) (r : CallRemoteMeta) (data : Node)
  | CallPreAccept (m : BasicCallMeta) (r : CallRemoteMeta) (data : Node)
  | CallTransport (m : BasicCallMeta) (r : CallRemoteMeta) (data : Node)
  | CallTerminate (m : BasicCallMeta) (reason : string) (data : Node)
  | CallReject (m : BasicCallMeta) (data : Node)
  | UnknownCallEvent (node : Node).

Definition handleCallEvent (node : Node) : call_event :=
  match GetChildren node with
  | [child] =>
      let '(from, ag) := JID_ "from" (AttrGetter node) in
      let '(t, ag) := UnixTime "t" ag in
      let '(creator, cag) := JID_ "call-creator" (AttrGetter child) in
      let '(id, cag) := String_ "call-id" cag in
      let '(group, cag) := OptionalJIDOrEmpty "group-jid" cag in
      let '(alt, cag) :=
        OptionalJIDOrEmpty (if bool_decide (Server creator = HiddenUserServer) then "caller_pn" else "caller_lid") cag in
      let m := mkCallMeta from t creator alt id group in
      let '(platform, ag') := String_ "platform" ag in
      let '(version, _) := String_ "version" ag' in
      let r := mkRemote platform version in
      let tag := node_tag child in
      if String.eqb tag "offer" then CallOffer m r child
      else if String.eqb tag "offer_notice" then
        CallOfferNotice m (fst (String_ "media" cag)) (fst (String_ "type" cag)) child
      else if String.eqb tag "relaylatency" then CallRelayLatency m child
      else if String.eqb tag "accept" then CallAccept m r child
      else if String.eqb tag "preaccept" then CallPreAccept m r child
      else if String.eqb tag "transport" then CallTransport m r child
      else if String.eqb tag "terminate" then CallTerminate m (fst (String_ "reason" cag)) child
      else if String.eqb tag "reject" then CallReject m child
      else UnknownCallEvent node
  | _ => UnknownCallEvent node
  end.

(** [msgID]: GenerateMessageID. *)
Definition RejectCall (ownID callFrom : JID) (callID msgID : string) : outcome source_error Node :=
  if IsEmpty ownID then Err ErrNotLoggedIn
  else
    let ownID := ToNonAD ownID in
    let callFrom := ToNonAD callFrom in
    let rejectNode := mkNode "reject" [("call-id", AString callID); ("call-creator", AJID callFrom); ("count", AString "0")] ANil in
    Ok (mkNode "call" [("id", AString msgID); ("from", AJID ownID); ("to", AJID callFrom)] (ANodes [rejectNode])).

(** ** What is sent is what the other side reads *)

Import encoder wire.

(** A typing notification is read by the other side with the state it was
    sent with, and its medium when the user is composing. *)
Theorem chat_presence_parsed clientID clientLID j state media n' s :
  GetChildren n' = GetChildren (norm_node (SendChatPresence j state media)) ->
  parseMessageSource clientID clientLID n' true = Ok s ->
  handleChatState clientID clientLID n' =
  Some (mkChatPresence s state (if String.eqb state ChatPresenceComposing then media else "")).
Proof.
  intros Hc Hs. unfold handleChatState. rewrite Hs, Hc. unfold SendChatPresence, GetChildren.
  cbn [norm_node norm node_content map node_tag]. f_equal. f_equal.
  destruct (String.eqb state ChatPresenceComposing); [|reflexivity].
  destruct (String.eqb_spec media "") as [->|Hm]; [reflexivity|]. cbn [andb negb skipped].
  rewrite bool_decide_eq_false_2 by done. reflexivity.
Qed.

(** The rejection of a call is read by the caller's side as the rejection of
    that call: its creator, its id, and nothing else. *)
Theorem RejectCall_parsed ownID callFrom callID msgID n n' t :
  RejectCall ownID callFrom callID msgID = Ok n -> callID <> "" ->
  GetChildren n' = GetChildren (norm_node n) ->
  attr_get "from" (node_attrs n') = Some (AJID (ToNonAD ownID)) ->
  fst (UnixTime "t" (AttrGetter n')) = t ->
  exists child,
    handleCallEvent n' =
    CallReject (mkCallMeta (ToNonAD ownID) t (norm_jid (ToNonAD callFrom)) EmptyJID callID EmptyJID) child.
Proof.
  unfold RejectCall. destruct (IsEmpty ownID); [done|]. intros [= <-] Hid Hc Hf Ht. unfold handleCallEvent. rewrite Hc.
  cbn [norm_node GetChildren node_content norm map skipped]. rewrite !bool_decide_eq_false_2 by done.
  assert (JID_ "from" (AttrGetter n') = (ToNonAD ownID, AttrGetter n')) as ->.
  { unfold JID_, value_of, GetJID. cbn [AttrGetter au_attrs]. by rewrite Hf. }
  destruct (UnixTime "t" (AttrGetter n')) as [t' ag] eqn:Et. cbn [fst] in Ht. subst t'.
  set (child := mkNode "reject" _ _).
  change (JID_ "call-creator" (AttrGetter child)) with (norm_jid (ToNonAD callFrom), AttrGetter child). cbn match.
  change (String_ "call-id" (AttrGetter child)) with (callID, AttrGetter child). cbn match.
  change (OptionalJIDOrEmpty "group-jid" (AttrGetter child)) with (EmptyJID, AttrGetter child). cbn match.
  destruct (String_ "platform" ag) as [p ag1]. destruct (String_ "version" ag1) as [v ag2]. exists child.
  destruct (bool_decide (Server (norm_jid (ToNonAD callFrom)) = HiddenUserServer)); reflexivity.
Qed.

(** ** Use at concrete inputs *)

Definition typing : Node :=
  mkNode "chatstate" [("from", AJID receipt.friend)]
    (ANodes [mkNode "composing" [("media", AString "audio")] ANil]).

Lemma chat_presence_parsed_witness : exists s,
  handleChatState receipt.me receipt.my_lid typing = Some (mkChatPresence s "composing" "audio").
Proof.
  eexists. eapply (chat_presence_parsed receipt.me receipt.my_lid receipt.me "composing" "audio" typing);
    vm_compute; reflexivity.
Defined.

Definition rejection : Node :=
  mkNode "call" [("from", AJID (ToNonAD receipt.me)); ("t", AString "1700000000")]
    (ANodes [mkNode "reject" [("call-id", AString "CALL"); ("call-creator", AJID receipt.friend); ("count", AString "0")] ANil]).

Lemma RejectCall_parsed_witness : exists child,
  handleCallEvent rejection =
  CallReject (mkCallMeta (ToNonAD receipt.me) (UnixNano 1700000000000000000) receipt.friend EmptyJID "CALL" EmptyJID) child.
Proof.
  eapply (RejectCall_parsed receipt.me receipt.friend "CALL" "ID" _ rejection); try reflexivity. discriminate.
Defined.

End presence.
