(* ===== verification/AppStateStore.v ===== *)
(** * The app state part of the device store

    [AppStateStore] is the interface the app state processor is written
    against (store.AppStateStore and store.AppStateSyncKeyStore), and
    [AppStateStoreLaws] what it promises, in terms of the current value MAC of
    every index. Module [sqlstore] is store/sqlstore/store.go's implementation:
    its tables, keys and constraints as rows, its queries as functions on them.
    The tables are those of one device; a database that fails for other reasons
    than a constraint is not modelled. *)

From S2P Require Import Prelude GoStrings StateErr.

#[local] Open Scope Z_scope.

Record AppStateSyncKey := mkSyncKey { key_Data : bytes; key_Fingerprint : bytes; key_Timestamp : Z }.

(** store.AppStateMutationMAC. *)
Record AppStateMutationMAC := mkMAC { mac_Index : bytes; mac_Value : bytes }.

Inductive store_error :=
  | ErrConstraint               (* the database refuses a row *)
  | ErrInvalidLength
  | ErrInvalidVersion (name : string).

Class AppStateStore (St : Type) := {
  PutAppStateSyncKey : bytes -> AppStateSyncKey -> stm St store_error unit;
  GetAppStateSyncKey : bytes -> stm St store_error (option AppStateSyncKey);
  GetLatestAppStateSyncKeyID : stm St store_error (option bytes);
  PutAppStateVersion : string -> Z -> bytes -> stm St store_error unit;
  GetAppStateVersion : string -> stm St store_error (Z * bytes);
  DeleteAppStateVersion : string -> stm St store_error unit;
  PutAppStateMutationMACs : string -> Z -> list AppStateMutationMAC -> stm St store_error unit;
  DeleteAppStateMutationMACs : string -> list bytes -> stm St store_error unit;
  GetAppStateMutationMAC : string -> bytes -> stm St store_error (option bytes)
}.

Definition zero_hash128 : bytes := replicate 128 x00.

(** Inserting and deleting in the map of current value MACs. *)
Definition insert_macs (macs : list AppStateMutationMAC) (m : gmap bytes bytes) : gmap bytes bytes :=
  foldl (fun m mac => <[mac_Index mac := mac_Value mac]> m) m macs.
Definition delete_macs (idxs : list bytes) (m : gmap bytes bytes) : gmap bytes bytes :=
  foldl (fun m i => delete i m) m idxs.

(** What a store promises. [stored s name] is the current value MAC of every
    index of the collection, [rows_below s name v] says that all that is stored
    for it was stored at versions below [v]. *)
Class AppStateStoreLaws (St : Type) {S : AppStateStore St} := {
  stored : St -> string -> gmap bytes bytes;
  version_of : St -> string -> Z * bytes;
  rows_below : St -> string -> Z -> Prop;
  store_get_key i s s' r : GetAppStateSyncKey i s = (s', r) -> s' = s;
  store_get_latest s s' r : GetLatestAppStateSyncKeyID s = (s', r) -> s' = s;
  store_get_mac n i s s' r :
    GetAppStateMutationMAC n i s = (s', Ok r) -> s' = s /\ r = stored s n !! i;
  store_get_version n s s' r :
    GetAppStateVersion n s = (s', Ok r) -> s' = s /\ r = version_of s n;
  store_put_version n v h s s' :
    PutAppStateVersion n v h s = (s', Ok tt) ->
    stored s' = stored s /\ (forall n' w, rows_below s n' w -> rows_below s' n' w) /\
    version_of s' n = (v, h) /\ (forall n', n' <> n -> version_of s' n' = version_of s n');
  store_put_macs n v macs s s' :
    PutAppStateMutationMACs n v macs s = (s', Ok tt) -> rows_below s n v ->
    stored s' n = insert_macs macs (stored s n) /\ NoDup (map mac_Index macs) /\
    rows_below s' n (v + 1) /\ version_of s' = version_of s /\
    (forall n', n' <> n -> stored s' n' = stored s n' /\ forall w, rows_below s n' w -> rows_below s' n' w);
  store_delete_macs n idxs s s' :
    DeleteAppStateMutationMACs n idxs s = (s', Ok tt) ->
    stored s' n = delete_macs idxs (stored s n) /\ version_of s' = version_of s /\
    (forall v, rows_below s n v -> rows_below s' n v) /\
    (forall n', n' <> n -> stored s' n' = stored s n' /\ forall w, rows_below s n' w -> rows_below s' n' w);
  store_delete_version n s s' :
    DeleteAppStateVersion n s = (s', Ok tt) ->
    stored s' n = ∅ /\ (forall v, rows_below s' n v) /\ version_of s' n = (0, zero_hash128) /\
    (forall n', n' <> n -> stored s' n' = stored s n');
  rows_below_mono s n v w : v <= w -> rows_below s n v -> rows_below s n w;
  (** What is written for a collection leaves the keys as they are. *)
  keys_put_version n v h s s' i : PutAppStateVersion n v h s = (s', Ok tt) -> snd (GetAppStateSyncKey i s') = snd (GetAppStateSyncKey i s);
  keys_put_macs n v macs s s' i : PutAppStateMutationMACs n v macs s = (s', Ok tt) -> snd (GetAppStateSyncKey i s') = snd (GetAppStateSyncKey i s);
  keys_delete_macs n idxs s s' i : DeleteAppStateMutationMACs n idxs s = (s', Ok tt) -> snd (GetAppStateSyncKey i s') = snd (GetAppStateSyncKey i s)
}.

(** Every operation returns. *)
Class AppStateStoreReturns (St : Type) {S : AppStateStore St} := {
  put_key_returns i k : returns (PutAppStateSyncKey i k);
  get_key_returns i : returns (GetAppStateSyncKey i);
  get_latest_returns : returns GetLatestAppStateSyncKeyID;
  put_version_returns n v h : returns (PutAppStateVersion n v h);
  get_version_returns n : returns (GetAppStateVersion n);
  delete_version_returns n : returns (DeleteAppStateVersion n);
  put_macs_returns n v macs : returns (PutAppStateMutationMACs n v macs);
  delete_macs_returns n idxs : returns (DeleteAppStateMutationMACs n idxs);
  get_mac_returns n i : returns (GetAppStateMutationMAC n i)
}.

#[export] Hint Resolve put_key_returns get_key_returns get_latest_returns put_version_returns get_version_returns
  delete_version_returns put_macs_returns delete_macs_returns get_mac_returns : returns.

Module sqlstore.

(** ** Tables *)

Record mac_row := mkRow { row_name : string; row_version : Z; row_index : bytes; row_value : bytes }.

Record tables := mkTables {
  sync_keys : gmap bytes AppStateSyncKey;         (* primary key key_id *)
  versions : gmap string (Z * bytes);             (* primary key name *)
  macs : list mac_row                             (* primary key name, version, index_mac *)
}.

(** [INSERT ... ON CONFLICT (jid, key_id) DO UPDATE ... WHERE] the timestamp is
    newer. *)
Definition putAppStateSyncKey (id : bytes) (key : AppStateSyncKey) : stm tables store_error unit :=
  fun s =>
    let newer := match sync_keys s !! id with
                 | Some old => key_Timestamp old <? key_Timestamp key
                 | None => true
                 end in
    (mkTables (if newer then <[id := key]> (sync_keys s) else sync_keys s) (versions s) (macs s), Ok tt).

Definition getAppStateSyncKey (id : bytes) : stm tables store_error (option AppStateSyncKey) :=
  fun s => (s, Ok (sync_keys s !! id)).

(** [ORDER BY timestamp DESC LIMIT 1]. *)
Definition getLatestAppStateSyncKeyID : stm tables store_error (option bytes) :=
  fun s =>
    (s, Ok (fst <$> map_fold (fun i k best =>
        match best with
        | Some (_, t) => if t <? key_Timestamp k then Some (i, key_Timestamp k) else best
        | None => Some (i, key_Timestamp k)
        end) None (sync_keys s))).

(** The version table checks that a hash has 128 bytes. *)
Definition putAppStateVersion (name : string) (version : Z) (hash : bytes) : stm tables store_error unit :=
  fun s =>
    if blen hash =? 128 then
      (mkTables (sync_keys s) (<[name := (version, hash)]> (versions s)) (macs s), Ok tt)
    else (s, Err ErrConstraint).

Definition getAppStateVersion (name : string) : stm tables store_error (Z * bytes) :=
  fun s =>
    (s, match versions s !! name with
        | None => Ok (0, zero_hash128)
        | Some (version, hash) =>
            if negb (blen hash =? 128) then Err ErrInvalidLength
            else if version =? 0 then Err (ErrInvalidVersion name)
            else Ok (version, hash)
        end).

(** The mutation MACs go with their version row (ON DELETE CASCADE). *)
Definition deleteAppStateVersion (name : string) : stm tables store_error unit :=
  fun s =>
    (mkTables (sync_keys s) (delete name (versions s))
       (filter (fun r => row_name r <> name) (macs s)), Ok tt).

(** One row of the INSERT: foreign key, checks and primary key. *)
Definition insert_row (name : string) (version : Z) (mac : AppStateMutationMAC) (s : tables) :
    option tables :=
  if bool_decide (versions s !! name = None) then None
  else if negb (blen (mac_Index mac) =? 32) || negb (blen (mac_Value mac) =? 32) then None
  else if bool_decide (Exists (fun r => row_name r = name /\ row_version r = version
                                       /\ row_index r = mac_Index mac) (macs s)) then None
  else Some (mkTables (sync_keys s) (versions s)
               (mkRow name version (mac_Index mac) (mac_Value mac) :: macs s)).

Fixpoint insert_rows (name : string) (version : Z) (l : list AppStateMutationMAC) (s : tables) :
    option tables :=
  match l with
  | [] => Some s
  | mac :: l' => s' ← insert_row name version mac s; insert_rows name version l' s'
  end.

(** The batches are inserted in one transaction: all rows or none. *)
Definition putAppStateMutationMACs (name : string) (version : Z) (l : list AppStateMutationMAC) :
    stm tables store_error unit :=
  fun s =>
    match insert_rows name version l s with
    | Some s' => (s', Ok tt)
    | None => (s, Err ErrConstraint)
    end.

Definition deleteAppStateMutationMACs (name : string) (idxs : list bytes) : stm tables store_error unit :=
  fun s =>
    (mkTables (sync_keys s) (versions s)
       (filter (fun r => ~ (row_name r = name /\ row_index r ∈ idxs)) (macs s)), Ok tt).

(** [ORDER BY version DESC LIMIT 1] over the rows of an index. *)
Fixpoint latest (name : string) (idx : bytes) (rows : list mac_row) : option (Z * bytes) :=
  match rows with
  | [] => None
  | r :: rows' =>
      let best := latest name idx rows' in
      if bool_decide (row_name r = name /\ row_index r = idx) then
        match best with
        | Some (v, _) => if row_version r <? v then best else Some (row_version r, row_value r)
        | None => Some (row_version r, row_value r)
        end
      else best
  end.

Definition getAppStateMutationMAC (name : string) (idx : bytes) : stm tables store_error (option bytes) :=
  fun s => (s, Ok (snd <$> latest name idx (macs s))).

#[global] Instance sql_store : AppStateStore tables := {
  PutAppStateSyncKey := putAppStateSyncKey;
  GetAppStateSyncKey := getAppStateSyncKey;
  GetLatestAppStateSyncKeyID := getLatestAppStateSyncKeyID;
  PutAppStateVersion := putAppStateVersion;
  GetAppStateVersion := getAppStateVersion;
  DeleteAppStateVersion := deleteAppStateVersion;
  PutAppStateMutationMACs := putAppStateMutationMACs;
  DeleteAppStateMutationMACs := deleteAppStateMutationMACs;
  GetAppStateMutationMAC := getAppStateMutationMAC
}.

(** ** The current value MACs *)

Fixpoint view (name : string) (rows : list mac_row) : gmap bytes (Z * bytes) :=
  match rows with
  | [] => ∅
  | r :: rows' =>
      let m := view name rows' in
      if bool_decide (row_name r = name) then
        match m !! row_index r with
        | Some (v, _) =>
            if row_version r <? v then m else <[row_index r := (row_version r, row_value r)]> m
        | None => <[row_index r := (row_version r, row_value r)]> m
        end
      else m
  end.

Lemma view_lookup name idx rows : view name rows !! idx = latest name idx rows.
Proof.
  induction rows as [|r rows IH]; [apply lookup_empty|]. cbn [view latest].
  destruct (decide (row_name r = name)) as [Hn|Hn].
  2:{ rewrite !bool_decide_false; [exact IH|intros [? _]; contradiction|done]. }
  rewrite bool_decide_true by done.
  destruct (decide (row_index r = idx)) as [Hi|Hi].
  - rewrite bool_decide_true by done. rewrite Hi, IH.
    destruct (latest name idx rows) as [[v w]|]; [|by rewrite lookup_insert_eq].
    destruct (row_version r <? v); [exact IH|by rewrite lookup_insert_eq].
  - rewrite bool_decide_false by (intros [_ ?]; contradiction).
    destruct (view name rows !! row_index r) as [[v w]|].
    + destruct (row_version r <? v); [exact IH|by rewrite lookup_insert_ne].
    + by rewrite lookup_insert_ne.
Qed.

Definition stored_macs (s : tables) (name : string) : gmap bytes bytes := snd <$> view name (macs s).

Definition below (s : tables) (name : string) (v : Z) : Prop :=
  Forall (fun r => row_name r = name -> row_version r < v) (macs s).

Lemma latest_below name idx rows v w x :
  Forall (fun r => row_name r = name -> row_version r < v) rows ->
  latest name idx rows = Some (w, x) -> w < v.
Proof.
  induction 1 as [|r rows Hr _ IH]; [done|]. cbn [latest].
  case_bool_decide as Hd; [|exact IH].
  destruct Hd as [Hn _]. destruct (latest name idx rows) as [[w' x']|].
  - destruct (Z.ltb_spec (row_version r) w'); [exact IH|]. intros [= <- _]. auto.
  - intros [= <- _]. auto.
Qed.

Lemma insert_row_stored name v mac s s' :
  insert_row name v mac s = Some s' -> below s name (v + 1) ->
  stored_macs s' name = <[mac_Index mac := mac_Value mac]> (stored_macs s name) /\
  below s' name (v + 1) /\ versions s' = versions s /\
  (forall n', n' <> name ->
     stored_macs s' n' = stored_macs s n' /\ forall w, below s n' w -> below s' n' w) /\
  macs s' = mkRow name v (mac_Index mac) (mac_Value mac) :: macs s /\
  ~ Exists (fun r => row_name r = name /\ row_version r = v /\ row_index r = mac_Index mac) (macs s).
Proof.
  unfold insert_row. intros H Hb. case_bool_decide; [done|]. destruct (_ || _); [done|].
  case_bool_decide as Hex; [done|]. injection H as <-. cbn [macs versions]. split_and!; try done.
  - unfold stored_macs. cbn [macs view row_name row_index row_version row_value].
    rewrite bool_decide_true by done. rewrite view_lookup.
    destruct (latest name (mac_Index mac) (macs s)) as [[w x]|] eqn:Hl.
    + apply (latest_below _ _ _ (v + 1)) in Hl; [|exact Hb].
      rewrite (proj2 (Z.ltb_ge v w)) by lia. by rewrite fmap_insert.
    + by rewrite fmap_insert.
  - constructor; [cbn; lia|exact Hb].
  - intros n' Hn. split.
    + unfold stored_macs. cbn [macs view row_name]. by rewrite bool_decide_false by congruence.
    + intros w Hw. constructor; [cbn; congruence|exact Hw].
Qed.

Lemma insert_rows_stored name v l : forall s s',
  insert_rows name v l s = Some s' -> below s name (v + 1) ->
  stored_macs s' name = insert_macs l (stored_macs s name) /\
  below s' name (v + 1) /\ versions s' = versions s /\
  (forall n', n' <> name ->
     stored_macs s' n' = stored_macs s n' /\ forall w, below s n' w -> below s' n' w) /\
  NoDup (map mac_Index l) /\
  (forall r, r ∈ macs s -> row_name r = name -> row_version r = v -> row_index r ∉ map mac_Index l).
Proof.
  induction l as [|mac l IH]; intros s s' H Hb; cbn [insert_rows] in H.
  { injection H as <-. split_and!; try done; [constructor|]. intros. cbn. apply not_elem_of_nil. }
  destruct (insert_row name v mac s) as [s1|] eqn:H1; [|done]. cbn in H.
  destruct (insert_row_stored _ _ _ _ _ H1 Hb) as (Hs1 & Hb1 & Hv1 & Hn1 & Hm1 & Hex).
  destruct (IH _ _ H Hb1) as (Hs & Hb' & Hv & Hn & Hnd & Hr). split_and!.
  - by rewrite Hs, Hs1.
  - done.
  - by rewrite Hv, Hv1.
  - intros n' Hn'. destruct (Hn n' Hn') as [-> Hw], (Hn1 n' Hn') as [-> Hw1]. split; [done|]. auto.
  - cbn [map]. apply NoDup_cons. split; [|done].
    apply (Hr (mkRow name v (mac_Index mac) (mac_Value mac))); [|done..].
    rewrite Hm1. apply list_elem_of_here.
  - intros r Hin Hrn Hrv. cbn [map]. apply not_elem_of_cons. split.
    + intros Hri. apply Hex. apply Exists_exists. by exists r.
    + apply Hr; [|done..]. rewrite Hm1. by apply list_elem_of_further.
Qed.

Lemma insert_rows_keys name v l : forall s s', insert_rows name v l s = Some s' -> sync_keys s' = sync_keys s.
Proof.
  induction l as [|mac l IH]; intros s s' H; cbn [insert_rows] in H; [by injection H as <-|].
  destruct (insert_row name v mac s) as [s1|] eqn:H1; [|done]. cbn in H. rewrite (IH _ _ H). unfold insert_row in H1.
  case_bool_decide; [done|]. destruct (_ || _); [done|]. case_bool_decide; [done|]. by injection H1 as <-.
Qed.

Lemma latest_filter name idx name' (idxs : list bytes) rows :
  latest name idx (filter (fun r => ~ (row_name r = name' /\ row_index r ∈ idxs)) rows)
  = if bool_decide (name = name' /\ idx ∈ idxs) then None else latest name idx rows.
Proof.
  induction rows as [|r rows IH]; [by case_bool_decide|]. rewrite filter_cons.
  destruct (decide (~ (row_name r = name' /\ row_index r ∈ idxs))) as [Hd|Hd];
    cbn [latest]; rewrite IH.
  - destruct (decide (row_name r = name /\ row_index r = idx)) as [[<- <-]|Hr].
    + by rewrite (bool_decide_false (row_name r = name' /\ row_index r ∈ idxs)).
    + by rewrite (bool_decide_false (row_name r = name /\ row_index r = idx)).
  - apply dec_stable in Hd as [Hn Hi].
    destruct (decide (row_name r = name /\ row_index r = idx)) as [[<- <-]|Hr].
    + by rewrite (bool_decide_true (row_name r = name' /\ row_index r ∈ idxs)).
    + by rewrite (bool_decide_false (row_name r = name /\ row_index r = idx)).
Qed.

Lemma lookup_delete_macs idxs : forall m i,
  delete_macs idxs m !! i = if bool_decide (i ∈ idxs) then None else m !! i.
Proof.
  unfold delete_macs. induction idxs as [|j idxs IH]; intros m i; [done|]. cbn [foldl]. rewrite IH.
  case_bool_decide as H1; case_bool_decide as H2; [done| | |].
  - exfalso. apply H2. by apply list_elem_of_further.
  - apply elem_of_cons in H2 as [->|?]; [apply lookup_delete_eq|done].
  - apply not_elem_of_cons in H2 as [Hij _]. by rewrite lookup_delete_ne.
Qed.

Lemma stored_lookup s name i : stored_macs s name !! i = snd <$> latest name i (macs s).
Proof. unfold stored_macs. by rewrite lookup_fmap, view_lookup. Qed.

Lemma below_filter P `{forall r, Decision (P r)} s name w k v :
  below s name w -> below (mkTables k v (filter P (macs s))) name w.
Proof.
  unfold below. cbn [macs]. rewrite !Forall_forall. intros Hb r Hr.
  apply list_elem_of_filter in Hr as [_ Hr]. auto.
Qed.

Lemma latest_other n n' i rows : n' <> n -> latest n' i (filter (fun r => row_name r <> n) rows) = latest n' i rows.
Proof.
  intros Hn. induction rows as [|r rows IH]; [done|]. rewrite filter_cons. destruct (decide (row_name r <> n)) as [Hr|Hr].
  - cbn [latest]. by rewrite IH.
  - apply dec_stable in Hr. cbn [latest]. rewrite IH. by rewrite bool_decide_false by naive_solver.
Qed.

#[global, refine] Instance sql_store_laws : AppStateStoreLaws tables := {
  stored := stored_macs;
  version_of s name := default (0, zero_hash128) (versions s !! name);
  rows_below := below
}.
Proof.
  - intros i s s' r [= <- _]. done.
  - by intros s s' r [= <- _].
  - intros n i s s' r [= <- <-]. split; [done|]. by rewrite stored_lookup.
  - intros n s s' r [= <- H]. split; [done|]. destruct (versions s !! n) as [[v h]|]; [|by injection H as <-].
    destruct (negb _); [done|]. destruct (v =? 0); [done|]. by injection H as <-.
  - intros n v h s s'. cbn. unfold putAppStateVersion. destruct (blen h =? 128); [|done].
    intros [= <-]. split_and!; [done|done| |].
    + cbn. by rewrite lookup_insert_eq.
    + intros n' Hn. cbn. by rewrite lookup_insert_ne.
  - intros n v macs s s' H Hb. cbn in H. unfold putAppStateMutationMACs in H.
    destruct (insert_rows n v macs s) as [s1|] eqn:Hi; [|done]. injection H as <-.
    destruct (insert_rows_stored _ _ _ _ _ Hi) as (H1 & H2 & H3 & H4 & H5 & _).
    { eapply Forall_impl; [exact Hb|]. cbn. intros r Hr Hn. specialize (Hr Hn). lia. }
    split_and!; try done. by rewrite H3.
  - intros n idxs s s' [= <-]. split_and!.
    + apply map_eq. intros i. rewrite lookup_delete_macs, !stored_lookup. cbn [macs].
      rewrite latest_filter. case_bool_decide as H1; case_bool_decide as H2; naive_solver.
    + done.
    + intros v. apply below_filter.
    + intros n' Hn. split; [|intros w; apply below_filter].
      apply map_eq. intros i. rewrite !stored_lookup. cbn [macs].
      rewrite latest_filter, bool_decide_false; [done|naive_solver].
  - intros n s s' [= <-]. split_and!.
    + apply map_eq. intros i. rewrite stored_lookup, lookup_empty. cbn [macs].
      induction (macs s) as [|r rows IH]; [done|]. rewrite filter_cons.
      destruct (decide (row_name r <> n)); [|exact IH].
      cbn [latest]. by rewrite bool_decide_false by naive_solver.
    + intros v. apply Forall_forall. cbn [macs]. intros r Hr.
      apply list_elem_of_filter in Hr as [Hr _]. naive_solver.
    + cbn. by rewrite lookup_delete_eq.
    + intros n' Hn. apply map_eq. intros i. rewrite !stored_lookup. cbn [macs]. by rewrite latest_other.
  - intros s n v w Hvw Hb. eapply Forall_impl; [exact Hb|]. cbn. intros r Hr Hn. specialize (Hr Hn). lia.
  - intros n v h s s' i. cbn. unfold putAppStateVersion. destruct (blen h =? 128); [|done]. by intros [= <-].
  - intros n v macs s s' i H. cbn in *. unfold putAppStateMutationMACs in H.
    destruct (insert_rows n v macs s) as [s1|] eqn:Hi; [|done]. injection H as <-. by rewrite (insert_rows_keys _ _ _ _ _ Hi).
  - by intros n idxs s s' i [= <-].
Defined.

#[global] Instance sql_store_returns : AppStateStoreReturns tables.
Proof.
  split; intros; intros s; unfold ends; cbn; unfold getAppStateVersion, putAppStateVersion, putAppStateMutationMACs;
    repeat case_match; done.
Qed.

End sqlstore.
