(* ===== verification/AppState.v ===== *)
(** * appstate/hash.go, keys.go and decode.go: verifying and applying patches

    The processor's state is its key cache and the store; its methods are
    computations of the state monad, so that what they have written when they
    fail stays written. Protobuf and JSON decoding are the operations of
    [AppStateProto]. The file holds the definitions; AppStateProofs.v has the
    theorems. *)

From S2P Require Import Prelude GoStrings StateErr Cbc Crypto LTHash AppStateStore.

#[local] Open Scope Z_scope.

(** ** The protobuf messages, as their getters read them *)

(** A message range, and the actions the code builds or looks at; any other
    field of SyncActionValue is carried as it was received. *)
Record MessageKey := mkMessageKey { RemoteJID : string; FromMe : bool; ID : string; Participant : string }.

Record MessageRange := mkRange {
  LastMessageTimestamp : Z;
  Messages : list (MessageKey * Z)
}.

Inductive sync_action :=
  | MuteAction (muted : bool) (muteEndTimestamp : option Z)
  | PinAction (pinned : bool)
  | ArchiveChatAction (archived : bool) (range : MessageRange)
  | MarkChatAsReadAction (read : bool) (range : MessageRange)
  | LabelAssociationAction (labeled : bool)
  | LabelEditAction (name : string) (color : Z) (deleted : bool)
  | PushNameSetting (name : string)
  | StarAction (starred : bool)
  | DeleteChatAction (range : MessageRange)
  | ContactAction (firstName fullName : string)
  | ClearChatAction (range : MessageRange)
  | DeleteMessageForMeAction (deleteMedia : bool) (messageTimestamp : Z)
  | UnarchiveChatsSetting (unarchiveChats : bool)
  | UserStatusMuteAction (muted : bool)
  | NctSaltSyncAction (salt : bytes)
  | OtherAction (raw : bytes).

Record SyncActionValue := mkSAV { sav_Timestamp : option Z; sav_Action : sync_action }.

Record SyncActionData := mkSAD { sad_Index : bytes; sad_Value : SyncActionValue; sad_Version : Z }.

(** waServerSync's operations are an open enumeration. *)
Definition SET : Z := 0.
Definition REMOVE : Z := 1.

Record SyncdRecord := mkRecord { rec_Index : bytes; rec_Value : bytes; rec_KeyID : option bytes }.
Record SyncdMutation := mkMutation { mut_Operation : Z; mut_Record : SyncdRecord }.

Record SyncdPatch := mkPatch {
  p_Version : Z;
  p_Mutations : list SyncdMutation;
  p_SnapshotMAC : bytes;
  p_PatchMAC : bytes;
  p_KeyID : option bytes;
  p_External : option bytes         (* the reference to external mutations *)
}.

Record SyncdSnapshot := mkSnapshot {
  ss_Version : Z;
  ss_Records : list SyncdRecord;
  ss_Mac : bytes;
  ss_KeyID : option bytes
}.

Class AppStateProto := {
  marshal_action : SyncActionData -> option bytes;
  unmarshal_action : bytes -> option SyncActionData;
  marshal_index : list string -> bytes;               (* json.Marshal of a []string *)
  unmarshal_index : bytes -> option (list string);    (* json.Unmarshal into a []string *)
  marshal_patch : SyncdPatch -> option bytes;
  unmarshal_patch : bytes -> option SyncdPatch;
  unmarshal_snapshot : bytes -> option SyncdSnapshot;
  unmarshal_mutations : bytes -> option (list SyncdMutation)
}.

Module appstate.

Import lthash crypto.

Definition WAPatchName := string.
Definition WAPatchCriticalBlock : WAPatchName := "critical_block".
Definition WAPatchCriticalUnblockLow : WAPatchName := "critical_unblock_low".
Definition WAPatchRegularLow : WAPatchName := "regular_low".
Definition WAPatchRegularHigh : WAPatchName := "regular_high".
Definition WAPatchRegular : WAPatchName := "regular".

Record ExpandedAppStateKeys := mkKeys {
  k_Index : bytes; k_ValueEncryption : bytes; k_ValueMAC : bytes; k_SnapshotMAC : bytes; k_PatchMAC : bytes
}.

Record PatchList := mkPatchList {
  Name : WAPatchName;
  HasMorePatches : bool;
  Patches : list SyncdPatch;
  Snapshot : option SyncdSnapshot
}.

Record Mutation := mkMut {
  m_KeyID : option bytes;
  m_Operation : Z;
  m_Action : SyncActionValue;
  m_Version : Z;
  m_Index : list string;
  m_IndexMAC : bytes;
  m_ValueMAC : bytes;
  m_PatchVersion : Z
}.

Record HashState := mkHS { hs_Version : Z; hs_Hash : bytes }.

Inductive app_error :=
  | ErrStore (e : store_error)
  | ErrKeyNotFound
  | ErrMismatchingLTHash
  | ErrMismatchingPatchMAC
  | ErrMismatchingContentMAC (i : nat)
  | ErrMismatchingIndexMAC (i : nat)
  | ErrDecryptMutation (i : nat) (e : cbcutil.cbc_error)
  | ErrUnmarshalMutation (i : nat)
  | ErrUnmarshalIndex (i : nat)
  | ErrMarshalMutation
  | ErrEncryptMutation (e : cbcutil.cbc_error)
  | ErrMarshalPatch
  | ErrLTHashLength (n : Z).

Section appstate.
Context {C : Crypto} {P : AppStateProto} {St : Type} {S : AppStateStore St}.

Record Processor := mkProc { keyCache : gmap bytes ExpandedAppStateKeys; db : St }.

Definition PM (A : Type) : Type := stm Processor app_error A.

(** A store operation. *)
Definition store_op {A} (m : stm St store_error A) : PM A :=
  fun p => let '(s, o) := m (db p) in (mkProc (keyCache p) s, map_err ErrStore o).

(** ** hash.go *)

(** [value[len(value)-32:]]. *)
Definition valueMACof (value : bytes) : outcome app_error bytes :=
  if blen value <? 32 then Panic else Ok (zdrop (blen value - 32) value).

(** The loop of [updateHash]: the values added, those removed and the indexes
    removed without a previous value. *)
Fixpoint collectMACs (mutations : list SyncdMutation) (i : nat)
    (getPrevSetValueMAC : bytes -> nat -> PM (option bytes)) :
    PM (list bytes * list bytes * list bytes) :=
  match mutations with
  | [] => mret ([], [], [])
  | mutation :: rest =>
      own ← (if mut_Operation mutation =? SET then
               v ← lift (valueMACof (rec_Value (mut_Record mutation))); mret [v]
             else mret []);
      let indexMAC := rec_Index (mut_Record mutation) in
      removal ← getPrevSetValueMAC indexMAC i;
      '(added, removed, warnings) ← collectMACs rest (i + 1) getPrevSetValueMAC;
      match removal with
      | Some r => mret (own ++ added, r :: removed, warnings)
      | None =>
          mret (own ++ added, removed,
                if mut_Operation mutation =? REMOVE then indexMAC :: warnings else warnings)
      end
  end.

Definition updateHash (mutations : list SyncdMutation)
    (getPrevSetValueMAC : bytes -> nat -> PM (option bytes)) (hs : HashState) :
    PM (HashState * list bytes) :=
  '(added, removed, warnings) ← collectMACs mutations 0 getPrevSetValueMAC;
  match SubtractThenAddInPlace WAPatchIntegrity (hs_Hash hs) removed added with
  | Ok hash => mret (mkHS (hs_Version hs) hash, warnings)
  | _ => panic
  end.

(** Big endian, eight bytes. *)
Definition uint64ToBytes (val : Z) : bytes :=
  [z2b (Z.shiftr val 56); z2b (Z.shiftr val 48); z2b (Z.shiftr val 40); z2b (Z.shiftr val 32);
   z2b (Z.shiftr val 24); z2b (Z.shiftr val 16); z2b (Z.shiftr val 8); z2b val].

(** An HMAC over the concatenation of what is written to it. *)
Definition concatAndHMAC (alg : bytes -> bytes -> bytes) (key : bytes) (data : list bytes) : bytes :=
  alg key (concat data).

Definition generateSnapshotMAC (name : WAPatchName) (key : bytes) (hs : HashState) : bytes :=
  concatAndHMAC hmac_sha256 key [hs_Hash hs; uint64ToBytes (hs_Version hs); str_bytes name].

Fixpoint valueMACs (mutations : list SyncdMutation) : outcome app_error (list bytes) :=
  match mutations with
  | [] => Ok []
  | mutation :: rest =>
      v ← valueMACof (rec_Value (mut_Record mutation));
      vs ← valueMACs rest;
      Ok (v :: vs)
  end.

Definition generatePatchMAC (patch : SyncdPatch) (name : WAPatchName) (key : bytes) (version : Z) :
    outcome app_error bytes :=
  vals ← valueMACs (p_Mutations patch);
  Ok (concatAndHMAC hmac_sha256 key
        (p_SnapshotMAC patch :: vals ++ [uint64ToBytes version; str_bytes name])).

(** The first 32 bytes of an HMAC-SHA-512; the operation is one byte, plus one. *)
Definition generateContentMAC (operation : Z) (data keyID key : bytes) : bytes :=
  take 32 (concatAndHMAC hmac_sha512 key
    [[z2b (operation + 1)]; keyID; data; uint64ToBytes (u64 (blen keyID + 1))]).

(** ** keys.go *)

Definition expandAppStateKeys (keyData : bytes) : outcome app_error ExpandedAppStateKeys :=
  match SHA256 keyData [] (str_bytes "WhatsApp Mutation Keys") 160 with
  | Ok e => Ok (mkKeys (take 32 e) (take 32 (drop 32 e)) (take 32 (drop 64 e))
                  (take 32 (drop 96 e)) (take 32 (drop 128 e)))
  | _ => Panic
  end.

(** A nil key ID and an empty one have the same base64 form. *)
Definition key_bytes (keyID : option bytes) : bytes := default [] keyID.

(** [getAppStateKey]: the cache, then the store; what the store has is expanded
    and cached. (The code's cache is keyed by the base64 form of the ID.) *)
Definition getAppStateKey (keyID : option bytes) : PM ExpandedAppStateKeys :=
  p ← get_state;
  match keyCache p !! key_bytes keyID with
  | Some keys => mret keys
  | None =>
      keyData ← store_op (GetAppStateSyncKey (key_bytes keyID));
      match keyData with
      | Some key =>
          keys ← lift (expandAppStateKeys (key_Data key));
          p ← get_state;
          _ ← put_state (mkProc (<[key_bytes keyID := keys]> (keyCache p)) (db p));
          mret keys
      | None => throw ErrKeyNotFound
      end
  end.

(** [GetMissingKeyIDs]: every key ID once, in the order met; a failing lookup
    counts as not missing. *)
Fixpoint checkMissing (keyIDs : list (option bytes)) (cache : gset bytes) (p : Processor) :
    Processor * list bytes :=
  match keyIDs with
  | [] => (p, [])
  | None :: rest => checkMissing rest cache p
  | Some keyID :: rest =>
      if bool_decide (keyID ∈ cache) then checkMissing rest cache p
      else
        let '(p', o) := store_op (GetAppStateSyncKey keyID) p in
        let missing := match o with Ok None => true | _ => false end in
        let '(p'', ids) := checkMissing rest ({[keyID]} ∪ cache) p' in
        (p'', if missing then keyID :: ids else ids)
  end.

Definition GetMissingKeyIDs (pl : PatchList) (p : Processor) : Processor * list bytes :=
  checkMissing
    (match Snapshot pl with
     | Some ss => ss_KeyID ss :: map rec_KeyID (ss_Records ss)
     | None => []
     end ++ map p_KeyID (Patches pl)) ∅ p.

(** ** decode.go *)

Record patchOutput := mkOut {
  RemovedMACs : list bytes;
  AddedMACs : list AppStateMutationMAC;
  Mutations : list Mutation
}.

(** [RemoveMAC] also takes back an addition made earlier in the patch. *)
Definition RemoveMAC (indexMAC : bytes) (out : patchOutput) : patchOutput :=
  mkOut (RemovedMACs out ++ [indexMAC])
    (filter (fun mac => mac_Index mac <> indexMAC) (AddedMACs out)) (Mutations out).

Definition AddMAC (indexMAC valueMAC : bytes) (out : patchOutput) : patchOutput :=
  mkOut (RemovedMACs out) (AddedMACs out ++ [mkMAC indexMAC valueMAC]) (Mutations out).

Record decoded := mkDecoded {
  d_indexMAC : bytes; d_valueMAC : bytes; d_index : list string; d_action : SyncActionData
}.

Definition decodeMutation (mutation : SyncdMutation) (i : nat) (validateMACs : bool) : PM decoded :=
  let keyID := rec_KeyID (mut_Record mutation) in
  keys ← getAppStateKey keyID;
  let blob := rec_Value (mut_Record mutation) in
  valueMAC ← lift (valueMACof blob);
  let content := ztake (blen blob - 32) blob in
  let expectedValueMAC :=
    generateContentMAC (mut_Operation mutation) content (key_bytes keyID) (k_ValueMAC keys) in
  if validateMACs && bool_decide (expectedValueMAC <> valueMAC) then throw (ErrMismatchingContentMAC i)
  else if blen content <? 16 then panic
  else
    plaintext ← lift (map_err (ErrDecryptMutation i)
                  (cbcutil.Decrypt aes_block_dec (k_ValueEncryption keys) (ztake 16 content)
                     (zdrop 16 content)));
    match unmarshal_action plaintext with
    | None => throw (ErrUnmarshalMutation i)
    | Some syncAction =>
        let indexMAC := rec_Index (mut_Record mutation) in
        let expectedIndexMAC := concatAndHMAC hmac_sha256 (k_Index keys) [sad_Index syncAction] in
        if validateMACs && bool_decide (expectedIndexMAC <> indexMAC) then
          throw (ErrMismatchingIndexMAC i)
        else
          match unmarshal_index (sad_Index syncAction) with
          | None => throw (ErrUnmarshalIndex i)
          | Some index => mret (mkDecoded indexMAC valueMAC index syncAction)
          end
    end.

(** [indexMACToArray]. *)
Definition indexMACToArray (indexMAC : bytes) : bytes :=
  if negb (blen indexMAC =? 32) then replicate 32 x00 else indexMAC.

(** What one decoded mutation does to the output. [fakeIndexesToRemove] is
    empty in both callers. *)
Definition outputMutation (mutation : SyncdMutation) (d : decoded) (patchVersion : Z)
    (fakeIndexesToRemove : gmap bytes bytes) (out : patchOutput) : patchOutput :=
  let out :=
    if mut_Operation mutation =? REMOVE then
      let out := RemoveMAC (d_indexMAC d) out in
      match fakeIndexesToRemove !! indexMACToArray (d_indexMAC d) with
      | Some altIndexMAC => if blen (d_indexMAC d) =? 32 then RemoveMAC altIndexMAC out else out
      | None => out
      end
    else if mut_Operation mutation =? SET then AddMAC (d_indexMAC d) (d_valueMAC d) out
    else out in
  mkOut (RemovedMACs out) (AddedMACs out)
    (Mutations out ++
     [mkMut (rec_KeyID (mut_Record mutation)) (mut_Operation mutation) (sad_Value (d_action d))
        (sad_Version (d_action d)) (d_index d) (d_indexMAC d) (d_valueMAC d) patchVersion]).

Fixpoint decodeMutations (mutations : list SyncdMutation) (i : nat) (out : patchOutput)
    (validateMACs : bool) (patchVersion : Z) (fakeIndexesToRemove : gmap bytes bytes) :
    PM patchOutput :=
  match mutations with
  | [] => mret out
  | mutation :: rest =>
      d ← decodeMutation mutation i validateMACs;
      decodeMutations rest (i + 1) (outputMutation mutation d patchVersion fakeIndexesToRemove out)
        validateMACs patchVersion fakeIndexesToRemove
  end.

(** [storeMACs]: three statements, each committed on its own. *)
Definition storeMACs (name : WAPatchName) (currentState : HashState) (out : patchOutput) : PM unit :=
  _ ← store_op (PutAppStateVersion name (hs_Version currentState) (hs_Hash currentState));
  _ ← store_op (DeleteAppStateMutationMACs name (RemovedMACs out));
  store_op (PutAppStateMutationMACs name (hs_Version currentState) (AddedMACs out)).

Definition validateSnapshotMAC (name : WAPatchName) (currentState : HashState) (keyID : option bytes)
    (expectedSnapshotMAC : bytes) : PM ExpandedAppStateKeys :=
  keys ← getAppStateKey keyID;
  let snapshotMAC := generateSnapshotMAC name (k_SnapshotMAC keys) currentState in
  if bool_decide (snapshotMAC <> expectedSnapshotMAC) then throw ErrMismatchingLTHash
  else mret keys.

Definition decodeSnapshot (name : WAPatchName) (ss : SyncdSnapshot) (initialState : HashState)
    (validateMACs : bool) (newMutationsInput : list Mutation) : PM (list Mutation * HashState) :=
  let currentState := mkHS (ss_Version ss) (hs_Hash initialState) in
  let encryptedMutations := map (mkMutation SET) (ss_Records ss) in
  '(currentState, _) ← updateHash encryptedMutations (fun _ _ => mret None) currentState;
  _ ← (if validateMACs then
         _ ← validateSnapshotMAC name currentState (ss_KeyID ss) (ss_Mac ss); mret tt
       else mret tt);
  out ← decodeMutations encryptedMutations 0 (mkOut [] [] newMutationsInput) validateMACs
          (hs_Version currentState) ∅;
  _ ← storeMACs name currentState out;
  mret (Mutations out, currentState).

(** The last operation on an index among the first [i] mutations of a patch:
    [None] when there is none, [Some None] when it is not a SET. *)
Fixpoint prevInPatch (mutations : list SyncdMutation) (i : nat) (indexMAC : bytes) :
    option (outcome app_error (option bytes)) :=
  match i with
  | O => None
  | Datatypes.S i' =>
      match mutations !! i' with
      | Some mutation =>
          if bool_decide (rec_Index (mut_Record mutation) = indexMAC) then
            Some (if mut_Operation mutation =? SET then
                    v ← valueMACof (rec_Value (mut_Record mutation)); Ok (Some v)
                  else Ok None)
          else prevInPatch mutations i' indexMAC
      | None => Some Panic
      end
  end.

(** The callback of [validatePatch]. *)
Definition getPrevSetValueMAC (name : WAPatchName) (mutations : list SyncdMutation)
    (indexMAC : bytes) (maxIndex : nat) : PM (option bytes) :=
  match prevInPatch mutations maxIndex indexMAC with
  | Some o => lift o
  | None => store_op (GetAppStateMutationMAC name indexMAC)
  end.

Definition validatePatch (patchName : WAPatchName) (patch : SyncdPatch) (currentState : HashState)
    (validateMACs : bool) : PM HashState :=
  '(newState, _) ← updateHash (p_Mutations patch) (getPrevSetValueMAC patchName (p_Mutations patch))
                     (mkHS (p_Version patch) (hs_Hash currentState));
  if validateMACs then
    keys ← validateSnapshotMAC patchName newState (p_KeyID patch) (p_SnapshotMAC patch);
    patchMAC ← lift (generatePatchMAC patch patchName (k_PatchMAC keys) (p_Version patch));
    if bool_decide (patchMAC <> p_PatchMAC patch) then throw ErrMismatchingPatchMAC
    else mret newState
  else mret newState.

(** One iteration of [DecodePatches]. *)
Definition applyPatch (name : WAPatchName) (patch : SyncdPatch) (validateMACs : bool)
    (newMutations : list Mutation) (currentState : HashState) : PM (list Mutation * HashState) :=
  newState ← validatePatch name patch currentState validateMACs;
  out ← decodeMutations (p_Mutations patch) 0 (mkOut [] [] newMutations) validateMACs
          (hs_Version newState) ∅;
  _ ← storeMACs name newState out;
  mret (Mutations out, newState).

Fixpoint applyPatches (name : WAPatchName) (patches : list SyncdPatch) (validateMACs : bool)
    (newMutations : list Mutation) (currentState : HashState) : PM (list Mutation * HashState) :=
  match patches with
  | [] => mret (newMutations, currentState)
  | patch :: rest =>
      '(newMutations', newState) ← applyPatch name patch validateMACs newMutations currentState;
      applyPatches name rest validateMACs newMutations' newState
  end.

Definition DecodePatches (list_ : PatchList) (initialState : HashState) (validateMACs : bool) :
    PM (list Mutation * HashState) :=
  '(newMutations, currentState) ←
    match Snapshot list_ with
    | Some ss => decodeSnapshot (Name list_) ss initialState validateMACs []
    | None => mret ([], initialState)
    end;
  applyPatches (Name list_) (Patches list_) validateMACs newMutations currentState.

End appstate.

Arguments Processor St : clear implicits.

End appstate.
