(* ===== verification/AppStateProofs.v ===== *)
(** * Correctness of app state patches

    The hash a patch announces is checked against the hash of the stored value
    MACs: the theorems show that this hash is an invariant of the processor,
    what a verified patch guarantees, and where the invariant can be lost. *)

From S2P Require Import Prelude GoStrings StateErr Cbc Crypto LTHash AppStateStore AppState.

#[local] Open Scope Z_scope.

Module appstate_proofs.

Import lthash crypto appstate.

(** ** What a patch means *)

(** The current value MACs after one mutation, and after a list of them. *)
Definition last32 (value : bytes) : bytes := zdrop (blen value - 32) value.

Definition apply_mutation (m : gmap bytes bytes) (mutation : SyncdMutation) : gmap bytes bytes :=
  if mut_Operation mutation =? SET then
    <[rec_Index (mut_Record mutation) := last32 (rec_Value (mut_Record mutation))]> m
  else delete (rec_Index (mut_Record mutation)) m.

Definition apply_mutations (mutations : list SyncdMutation) (m : gmap bytes bytes) : gmap bytes bytes :=
  foldl apply_mutation m mutations.

Definition known_op (mutation : SyncdMutation) : Prop :=
  mut_Operation mutation = SET \/ mut_Operation mutation = REMOVE.

#[global] Instance known_op_dec mutation : Decision (known_op mutation).
Proof. unfold known_op. apply _. Defined.

Lemma valueMACof_Ok v x : valueMACof v = Ok x -> x = last32 v /\ 32 <= blen v.
Proof. unfold valueMACof. destruct (Z.ltb_spec (blen v) 32); [done|]. by intros [= <-]. Qed.

Lemma valueMACof_ok v : 32 <= blen v -> valueMACof v = Ok (last32 v).
Proof. intros H. unfold valueMACof. by rewrite (proj2 (Z.ltb_ge _ _)). Qed.

Section proofs.
Context {C : Crypto} {P : AppStateProto} {St : Type} {S : AppStateStore St} {SL : AppStateStoreLaws St}.

Lemma mkProc_eta (p : Processor St) : mkProc (keyCache p) (db p) = p.
Proof. by destruct p. Qed.

Lemma store_op_inv {A} (m : stm St store_error A) (p p' : Processor St) r :
  store_op m p = (p', Ok r) -> exists s', m (db p) = (s', Ok r) /\ p' = mkProc (keyCache p) s'.
Proof.
  unfold store_op. destruct (m (db p)) as [s' [a|e| |]]; cbn; intros [= <-]; subst; eauto; done.
Qed.

(** ** The hash update *)

(** The search through the earlier mutations of a patch, falling back on the
    store, finds the value its earlier part would leave. *)
Lemma prevInPatch_spec mutations m idx : forall i,
  (i <= length mutations)%nat ->
  match prevInPatch mutations i idx with
  | Some (Ok r) => r = apply_mutations (take i mutations) m !! idx
  | Some _ => True
  | None => m !! idx = apply_mutations (take i mutations) m !! idx
  end.
Proof.
  induction i as [|i IH]; intros Hi; [done|]. cbn [prevInPatch].
  destruct (lookup_lt_is_Some_2 mutations i) as [mut Hm]; [lia|]. rewrite Hm.
  rewrite (take_S_r _ _ _ Hm). unfold apply_mutations. rewrite foldl_app. cbn [foldl].
  fold (apply_mutations (take i mutations) m). unfold apply_mutation.
  case_bool_decide as Hidx.
  - destruct (mut_Operation mut =? SET).
    + unfold valueMACof. destruct (_ <? 32); [done|]. cbn.
      by rewrite Hidx, lookup_insert_eq.
    + by rewrite Hidx, lookup_delete_eq.
  - specialize (IH ltac:(lia)).
    assert (Hsame : forall m' : gmap bytes bytes, (if mut_Operation mut =? SET
        then <[rec_Index (mut_Record mut):=last32 (rec_Value (mut_Record mut))]> m'
        else delete (rec_Index (mut_Record mut)) m') !! idx = m' !! idx).
    { intros m'. destruct (_ =? SET); [by rewrite lookup_insert_ne|by rewrite lookup_delete_ne]. }
    by rewrite Hsame.
Qed.

Lemma getPrev_spec name mutations idx i (p p' : Processor St) r :
  (i <= length mutations)%nat ->
  getPrevSetValueMAC name mutations idx i p = (p', Ok r) ->
  p' = p /\ r = apply_mutations (take i mutations) (stored (db p) name) !! idx.
Proof.
  intros Hi H. unfold getPrevSetValueMAC in H.
  pose proof (prevInPatch_spec mutations (stored (db p) name) idx i Hi) as Hs.
  destruct (prevInPatch mutations i idx) as [o|].
  - apply lift_inv in H as [-> ->]. done.
  - apply store_op_inv in H as (s' & H & ->). apply store_get_mac in H as [-> ->].
    by rewrite mkProc_eta.
Qed.

(** One mutation's part of the hash. *)
Lemma step_apply m mutation own :
  own = (if mut_Operation mutation =? SET then [last32 (rec_Value (mut_Record mutation))] else []) ->
  foldl (step false)
    (foldl (step true) (map_hash m) (option_list (m !! rec_Index (mut_Record mutation)))) own
  = map_hash (apply_mutation m mutation).
Proof.
  intros ->. unfold apply_mutation. destruct (_ =? SET).
  - rewrite map_hash_insert. by destruct (m !! _).
  - destruct (m !! rec_Index (mut_Record mutation)) as [w|] eqn:E; cbn [option_list foldl].
    + by rewrite (map_hash_delete _ _ _ E).
    + by rewrite delete_id.
Qed.

(** Additions and removals of two runs can be regrouped. *)
Lemma steps_regroup h r1 a1 r2 a2 :
  foldl (step false) (foldl (step true) h (r1 ++ r2)) (a1 ++ a2)
  = foldl (step false) (foldl (step true) (foldl (step false) (foldl (step true) h r1) a1) r2) a2.
Proof.
  rewrite !foldl_app. f_equal. generalize (foldl (step true) h r1). clear.
  induction a1 as [|x a1 IH]; intros h; [done|]. cbn [foldl]. by rewrite <- IH, (foldl_step_comm true false).
Qed.

Lemma collectMACs_spec name mutations : forall rest pre (p p' : Processor St) added removed warnings,
  mutations = pre ++ rest ->
  collectMACs rest (length pre) (getPrevSetValueMAC name mutations) p
    = (p', Ok (added, removed, warnings)) ->
  p' = p /\
  foldl (step false) (foldl (step true) (map_hash (apply_mutations pre (stored (db p) name))) removed) added
  = map_hash (apply_mutations mutations (stored (db p) name)).
Proof.
  induction rest as [|mut rest IH]; intros pre p p' added removed warnings Hm H; cbn [collectMACs] in H.
  { injection H as <- <- <- <-. rewrite Hm, app_nil_r. done. }
  stm_inv H. stm_inv H. stm_inv H. destruct a1 as [[added' removed'] warnings'].
  assert (s = p /\ a = if mut_Operation mut =? SET then [last32 (rec_Value (mut_Record mut))] else [])
    as [-> Ha].
  { destruct (_ =? SET); [|by injection E as <- <-].
    stm_inv E. apply lift_inv in E2 as [-> Hv]. apply valueMACof_Ok in Hv as [-> _].
    by injection E as <- <-. }
  apply getPrev_spec in E0 as [-> ->]; [|rewrite Hm, length_app; cbn; lia].
  rewrite Hm, take_app_length in H. rewrite Nat.add_1_r in E1.
  destruct (IH (pre ++ [mut]) p s1 added' removed' warnings') as [-> IHh].
  { by rewrite Hm, <- app_assoc. }
  { rewrite length_app, Nat.add_1_r. exact E1. }
  assert (p' = p /\ added = a ++ added' /\
    removed = option_list (apply_mutations pre (stored (db p) name) !! rec_Index (mut_Record mut)) ++ removed')
    as (-> & -> & ->).
  { destruct (apply_mutations pre _ !! _); injection H as <- <- <- _; by rewrite ?app_nil_r. }
  split; [done|]. rewrite steps_regroup, (step_apply _ mut) by done.
  rewrite <- IHh. unfold apply_mutations. by rewrite foldl_app.
Qed.

(** The hash update is right: from the hash of the stored value MACs, a
    patch's mutations give the hash of the value MACs as the mutations leave
    them, whatever indexes they repeat, SETs and REMOVEs of the same index
    within the patch included. *)
Theorem updateHash_correct name mutations version (p p' : Processor St) hs warnings :
  updateHash mutations (getPrevSetValueMAC name mutations)
    (mkHS version (map_hash (stored (db p) name))) p = (p', Ok (hs, warnings)) ->
  p' = p /\
  hs = mkHS version (map_hash (apply_mutations mutations (stored (db p) name))).
Proof.
  intros H. unfold updateHash in H. stm_inv H. destruct a as [[added removed] w].
  apply (collectMACs_spec name mutations mutations []) in E as [-> Hh]; [|done].
  cbn [hs_Hash hs_Version] in H.
  rewrite SubtractThenAddInPlace_steps in H by apply map_hash_is_hash.
  injection H as <- <- _. split; [done|]. f_equal. exact Hh.
Qed.

(** ** The decoded output *)

(** The output collected so far, as a change to the stored value MACs. *)
Definition out_apply (out : patchOutput) (m : gmap bytes bytes) : gmap bytes bytes :=
  insert_macs (AddedMACs out) (delete_macs (RemovedMACs out) m).

Lemma insert_macs_filter i l : forall m,
  insert_macs (filter (fun mac => mac_Index mac <> i) l) (delete i m) = delete i (insert_macs l m).
Proof.
  unfold insert_macs. induction l as [|mac l IH]; intros m; [done|]. rewrite filter_cons. cbn [foldl].
  destruct (decide (mac_Index mac <> i)) as [Hi|Hi].
  - cbn [foldl]. rewrite <- delete_insert_ne by congruence. apply IH.
  - apply dec_stable in Hi. rewrite <- IH, Hi. by rewrite delete_insert_eq.
Qed.

Lemma outputMutation_apply mutation d pv out m :
  known_op mutation -> d_indexMAC d = rec_Index (mut_Record mutation) ->
  d_valueMAC d = last32 (rec_Value (mut_Record mutation)) ->
  out_apply (outputMutation mutation d pv ∅ out) m = apply_mutation (out_apply out m) mutation.
Proof.
  intros Hop Hi Hv. unfold outputMutation. rewrite lookup_empty. unfold apply_mutation.
  destruct Hop as [-> | ->]; cbn [Z.eqb SET REMOVE Pos.eqb].
  - unfold out_apply, insert_macs. cbn. by rewrite foldl_app, Hi, Hv.
  - unfold out_apply. cbn [RemovedMACs AddedMACs RemoveMAC].
    unfold delete_macs. rewrite foldl_app. cbn [foldl]. rewrite insert_macs_filter. by rewrite Hi.
Qed.

Lemma getAppStateKey_db keyID (p p' : Processor St) k :
  getAppStateKey keyID p = (p', Ok k) -> db p' = db p.
Proof.
  unfold getAppStateKey. intros H. stm_inv H. injection E as <- <-.
  destruct (keyCache p !! _); [by injection H as <-|].
  stm_inv H. apply store_op_inv in E as (s' & E & ->). apply store_get_key in E as ->.
  destruct a as [key|]; [|done]. stm_inv H. apply lift_inv in E as [-> _].
  stm_inv H. injection E as <- <-. stm_inv H. injection E as <- _. by injection H as <-.
Qed.

(** The keys that the client holds for a key ID: those it has cached, or else those
    that the data in the store expands to. *)
Definition stored_key (s : St) (id : bytes) : option ExpandedAppStateKeys :=
  match snd (GetAppStateSyncKey id s) with
  | Ok (Some key) => match expandAppStateKeys (key_Data key) with Ok keys => Some keys | _ => None end
  | _ => None
  end.

Definition key_held (p : Processor St) (keyID : option bytes) : option ExpandedAppStateKeys :=
  match keyCache p !! key_bytes keyID with Some keys => Some keys | None => stored_key (db p) (key_bytes keyID) end.

(** What is cached is what the store has. *)
Definition cache_ok (p : Processor St) : Prop := forall id keys, keyCache p !! id = Some keys -> stored_key (db p) id = Some keys.

Lemma held_stored p keyID : cache_ok p -> key_held p keyID = stored_key (db p) (key_bytes keyID).
Proof. intros Hc. unfold key_held. destruct (keyCache p !! _) eqn:E; [by rewrite (Hc _ _ E)|done]. Qed.

(** Looking up keys changes none. *)
Definition same_keys (p p' : Processor St) : Prop :=
  db p' = db p /\ (forall keyID, key_held p' keyID = key_held p keyID) /\ (cache_ok p -> cache_ok p').

#[local] Instance same_keys_preorder : PreOrder same_keys.
Proof.
  split; [by split|]. intros p1 p2 p3 (H1 & H2 & H3) (H4 & H5 & H6). split; [congruence|]. split; [|by auto].
  intros id. by rewrite H5, H2.
Qed.

Lemma getAppStateKey_held keyID (p p' : Processor St) keys :
  getAppStateKey keyID p = (p', Ok keys) -> key_held p keyID = Some keys /\ same_keys p p'.
Proof.
  unfold getAppStateKey. intros H. stm_inv H. injection E as <- <-. unfold key_held at 1.
  destruct (keyCache p !! _) as [k|] eqn:Ec; [by injection H as <- <-|].
  stm_inv H. apply store_op_inv in E as (s' & E & ->). pose proof (store_get_key _ _ _ _ E) as ->.
  destruct a as [key|]; [|done]. stm_inv H. apply lift_inv in E0 as [-> Hx].
  stm_inv H. injection E0 as <- <-. stm_inv H. injection E0 as <- _. injection H as <- <-. cbn [db keyCache].
  assert (stored_key (db p) (key_bytes keyID) = Some a) as Hs by (unfold stored_key; by rewrite E; cbn; rewrite Hx).
  split; [done|]. split; [done|]. split.
  - intros id. unfold key_held. cbn [keyCache db]. destruct (decide (key_bytes id = key_bytes keyID)) as [Hid|Hid].
    + by rewrite Hid, lookup_insert_eq, Ec.
    + by rewrite lookup_insert_ne.
  - intros Hc id k. cbn [keyCache db]. intros [[<- <-]|[_ Hk]]%lookup_insert_Some; [done|by apply Hc].
Qed.

(** What a decoded mutation is known to be: its index and value MACs are the
    blobs', and with validation both are the right MACs. *)
Definition content_of (blob : bytes) : bytes := ztake (blen blob - 32) blob.

Lemma decodeMutation_spec mutation i validate (p p' : Processor St) d :
  decodeMutation mutation i validate p = (p', Ok d) ->
  db p' = db p /\ d_indexMAC d = rec_Index (mut_Record mutation) /\
  d_valueMAC d = last32 (rec_Value (mut_Record mutation)) /\
  exists keys p1, getAppStateKey (rec_KeyID (mut_Record mutation)) p = (p1, Ok keys) /\
    (validate = true ->
       generateContentMAC (mut_Operation mutation) (content_of (rec_Value (mut_Record mutation)))
         (key_bytes (rec_KeyID (mut_Record mutation))) (k_ValueMAC keys) = d_valueMAC d /\
       hmac_sha256 (k_Index keys) (sad_Index (d_action d)) = d_indexMAC d) /\
    (exists plaintext, let content := content_of (rec_Value (mut_Record mutation)) in
       cbcutil.Decrypt aes_block_dec (k_ValueEncryption keys) (ztake 16 content) (zdrop 16 content) = Ok plaintext /\
       unmarshal_action plaintext = Some (d_action d)) /\
    unmarshal_index (sad_Index (d_action d)) = Some (d_index d) /\ same_keys p p'.
Proof.
  unfold decodeMutation. intros H. stm_inv H. pose proof (getAppStateKey_db _ _ _ _ E) as Hdb. pose proof (getAppStateKey_held _ _ _ _ E) as [_ Hsame].
  stm_inv H. apply lift_inv in E0 as [-> Hv]. apply valueMACof_Ok in Hv as [-> _].
  destruct (validate && bool_decide (generateContentMAC _ _ _ _ <> _)) eqn:Hc; [done|].
  destruct (_ <? 16); [done|]. stm_inv H. apply lift_inv in E0 as [-> Hd].
  destruct (unmarshal_action a0) as [sa|] eqn:Hua; [|done].
  destruct (validate && bool_decide (concatAndHMAC _ _ _ <> _)) eqn:Hx; [done|].
  destruct (unmarshal_index (sad_Index sa)) as [index|] eqn:Hui; [|done].
  injection H as <- <-. cbn. split_and!; [done..|]. exists a, s. split_and!; [done| | |done|done].
  2: { exists a0. split; [|done]. destruct (cbcutil.Decrypt _ _ _ _) as [x|x| |]; [by injection Hd as ->|done..]. }
  intros ->. apply andb_false_iff in Hc as [?|Hc]; [done|]. apply andb_false_iff in Hx as [?|Hx]; [done|].
  apply bool_decide_eq_false_1, dec_stable in Hc, Hx. split; [exact Hc|].
  unfold concatAndHMAC in Hx. cbn in Hx. by rewrite app_nil_r in Hx.
Qed.

Lemma decodeMutations_spec validate pv m mutations : forall i out out' (p p' : Processor St),
  decodeMutations mutations i out validate pv ∅ p = (p', Ok out') ->
  Forall known_op mutations ->
  db p' = db p /\ out_apply out' m = apply_mutations mutations (out_apply out m).
Proof.
  induction mutations as [|mut rest IH]; intros i out out' p p' H Hall; cbn [decodeMutations] in H.
  { by injection H as <- <-. }
  stm_inv H. apply decodeMutation_spec in E as (Hdb & Hi & Hv & _).
  inversion Hall as [|? ? Hop Hall']; subst.
  apply IH in H as [Hdb' ->]; [|done]. split; [by rewrite Hdb'|].
  by rewrite (outputMutation_apply mut).
Qed.

(** ** The invariant *)

(** The processor is in step with a collection: the state's hash is the hash of
    the stored value MACs, all stored at the state's version or before. *)
Definition synced (name : WAPatchName) (p : Processor St) (hs : HashState) : Prop :=
  hs_Hash hs = map_hash (stored (db p) name) /\ rows_below (db p) name (hs_Version hs + 1).

Lemma storeMACs_spec name hs out (p p' : Processor St) :
  storeMACs name hs out p = (p', Ok tt) -> rows_below (db p) name (hs_Version hs) ->
  stored (db p') name = out_apply out (stored (db p) name) /\
  rows_below (db p') name (hs_Version hs + 1) /\
  version_of (db p') name = (hs_Version hs, hs_Hash hs) /\
  NoDup (map mac_Index (AddedMACs out)) /\
  (forall n', n' <> name -> stored (db p') n' = stored (db p) n').
Proof.
  intros H Hb. unfold storeMACs in H. stm_inv H. stm_inv H. destruct a, a0.
  apply store_op_inv in E as (s1 & E & ->). apply store_op_inv in E0 as (s2 & E0 & ->).
  apply store_op_inv in H as (s3 & H & ->). cbn [db] in *.
  apply store_put_version in E as (Hs1 & Hr1 & Hv1 & _).
  apply store_delete_macs in E0 as (Hs2 & Hv2 & Hr2 & Hn2).
  apply store_put_macs in H as (Hs3 & Hnd & Hr3 & Hv3 & Hn3); [|by apply Hr2, Hr1].
  split_and!; [|done| |done|].
  - by rewrite Hs3, Hs2, Hs1.
  - by rewrite Hv3, Hv2.
  - intros n' Hn. destruct (Hn3 n' Hn) as [-> _], (Hn2 n' Hn) as [-> _]. by rewrite Hs1.
Qed.

Lemma validateSnapshotMAC_spec name hs keyID mac (p p' : Processor St) keys :
  validateSnapshotMAC name hs keyID mac p = (p', Ok keys) ->
  db p' = db p /\ generateSnapshotMAC name (k_SnapshotMAC keys) hs = mac /\
  getAppStateKey keyID p = (p', Ok keys).
Proof.
  unfold validateSnapshotMAC. intros H. stm_inv H. case_bool_decide as Hb; [done|].
  injection H as <- <-. split_and!; [by eapply getAppStateKey_db|done..].
Qed.

Lemma validatePatch_spec name patch hs validate (p p' : Processor St) hs' :
  hs_Hash hs = map_hash (stored (db p) name) ->
  validatePatch name patch hs validate p = (p', Ok hs') ->
  db p' = db p /\
  hs' = mkHS (p_Version patch) (map_hash (apply_mutations (p_Mutations patch) (stored (db p) name))).
Proof.
  intros Hh H. unfold validatePatch in H. rewrite Hh in H. stm_inv H. destruct a as [newState w].
  apply updateHash_correct in E as [-> ->]. destruct validate; [|by injection H as <- <-].
  stm_inv H. apply validateSnapshotMAC_spec in E as (Hdb & _). stm_inv H.
  apply lift_inv in E as [-> _]. case_bool_decide; [done|]. by injection H as <- <-.
Qed.

Lemma applyPatch_spec name patch validate muts hs (p p' : Processor St) muts' hs' :
  applyPatch name patch validate muts hs p = (p', Ok (muts', hs')) ->
  synced name p hs -> hs_Version hs < p_Version patch -> Forall known_op (p_Mutations patch) ->
  synced name p' hs' /\ hs_Version hs' = p_Version patch /\
  version_of (db p') name = (hs_Version hs', hs_Hash hs') /\
  stored (db p') name = apply_mutations (p_Mutations patch) (stored (db p) name) /\
  (forall n', n' <> name -> stored (db p') n' = stored (db p) n').
Proof.
  intros H [Hh Hb] Hv Hops. unfold applyPatch in H. stm_inv H.
  apply validatePatch_spec in E as [Hdb ->]; [|done]. stm_inv H.
  apply (decodeMutations_spec _ _ (stored (db p) name)) in E as [Hdb' Hout]; [|done].
  stm_inv H. destruct a0. injection H as <- _ <-. cbn [hs_Version hs_Hash] in *.
  assert (Hd : db s0 = db p) by congruence.
  apply storeMACs_spec in E as (Hs & Hb' & Hvo & _ & Hn).
  - cbn [hs_Version] in *. rewrite Hd, Hout in Hs. rewrite Hd in Hn.
    split_and!; [split; [by rewrite Hs|done]|done|done|done|done].
  - rewrite Hd. cbn [hs_Version]. eapply rows_below_mono; [|exact Hb]. lia.
Qed.

(** Versions that go up from [v]. *)
Fixpoint increasing (v : Z) (patches : list SyncdPatch) : Prop :=
  match patches with
  | [] => True
  | patch :: rest => v < p_Version patch /\ increasing (p_Version patch) rest
  end.

Lemma applyPatches_spec name validate patches : forall muts hs (p p' : Processor St) muts' hs',
  applyPatches name patches validate muts hs p = (p', Ok (muts', hs')) ->
  synced name p hs -> increasing (hs_Version hs) patches ->
  Forall (fun patch => Forall known_op (p_Mutations patch)) patches ->
  synced name p' hs' /\
  (version_of (db p) name = (hs_Version hs, hs_Hash hs) ->
   version_of (db p') name = (hs_Version hs', hs_Hash hs')) /\
  stored (db p') name = apply_mutations (concat (map p_Mutations patches)) (stored (db p) name) /\
  (forall n', n' <> name -> stored (db p') n' = stored (db p) n').
Proof.
  induction patches as [|patch rest IH]; intros muts hs p p' muts' hs' H Hs Hinc Hops;
    cbn [applyPatches] in H.
  { by injection H as <- _ <-. }
  stm_inv H. destruct a as [muts1 hs1]. destruct Hinc as [Hlt Hinc].
  inversion Hops as [|? ? Hop Hops']; subst.
  apply applyPatch_spec in E as (Hs1 & Hv1 & Hvo & Hst & Hn); [|done..].
  destruct (IH _ _ _ _ _ _ H Hs1 ltac:(by rewrite Hv1) Hops') as (H1 & H2 & H3 & H4).
  split_and!; [done|by auto| |].
  - rewrite H3, Hst. unfold apply_mutations. cbn [map concat]. by rewrite foldl_app.
  - intros n' Hn'. by rewrite H4, Hn.
Qed.

(** *** Snapshots *)

Definition snapshot_mutations (ss : SyncdSnapshot) : list SyncdMutation :=
  map (mkMutation SET) (ss_Records ss).

Definition record_mac (r : SyncdRecord) : AppStateMutationMAC :=
  mkMAC (rec_Index r) (last32 (rec_Value r)).

Lemma collectMACs_snapshot rest : forall i (p p' : Processor St) added removed warnings,
  collectMACs (map (mkMutation SET) rest) i (fun _ _ => mret None) p
    = (p', Ok (added, removed, warnings)) ->
  p' = p /\ removed = [] /\ added = map (fun r => last32 (rec_Value r)) rest.
Proof.
  induction rest as [|r rest IH]; intros i p p' added removed warnings H.
  { injection H as <- <- <- _. done. }
  cbn [map collectMACs mut_Operation mut_Record] in H. change (SET =? SET) with true in H. cbv iota in H.
  stm_inv H. stm_inv E. apply lift_inv in E0 as [-> Hv]. apply valueMACof_Ok in Hv as [-> _].
  injection E as <- <-. stm_inv H. injection E as <- <-. stm_inv H. destruct a as [[ad rm] w].
  apply IH in E as (-> & -> & ->). injection H as <- <- <- _. done.
Qed.

Lemma decodeMutations_snapshot validate pv rest : forall i out out' (p p' : Processor St),
  decodeMutations (map (mkMutation SET) rest) i out validate pv ∅ p = (p', Ok out') ->
  AddedMACs out' = AddedMACs out ++ map record_mac rest /\ RemovedMACs out' = RemovedMACs out.
Proof.
  induction rest as [|r rest IH]; intros i out out' p p' H; cbn [map decodeMutations] in H.
  { injection H as _ <-. by rewrite app_nil_r. }
  stm_inv H. apply decodeMutation_spec in E as (_ & Hi & Hv & _). apply IH in H as [-> ->].
  unfold outputMutation. rewrite lookup_empty. cbn [mut_Operation].
  change (SET =? REMOVE) with false. change (SET =? SET) with true.
  cbn [AddedMACs RemovedMACs AddMAC map]. cbn in Hi, Hv. unfold record_mac at 2. by rewrite Hi, Hv, <- app_assoc.
Qed.

(** Distinct indexes: adding every value gives the hash of the map. *)
Lemma snapshot_hash rs : forall m,
  NoDup (map rec_Index rs) -> (forall i, i ∈ map rec_Index rs -> m !! i = None) ->
  foldl (step false) (map_hash m) (map (fun r => last32 (rec_Value r)) rs)
  = map_hash (apply_mutations (map (mkMutation SET) rs) m).
Proof.
  induction rs as [|r rs IH]; intros m Hnd Hm; [done|]. cbn [map] in Hnd.
  apply NoDup_cons in Hnd as [Hr Hnd]. cbn [map foldl apply_mutations].
  rewrite <- (map_hash_insert_new m (rec_Index r)) by apply Hm, list_elem_of_here.
  unfold apply_mutations. cbn [foldl]. apply IH; [done|]. intros i Hi.
  unfold apply_mutation. cbn [mut_Operation mut_Record]. change (SET =? SET) with true. cbv iota.
  rewrite lookup_insert_ne by (intros <-; contradiction). apply Hm. by apply list_elem_of_further.
Qed.

Lemma map_hash_empty : map_hash (∅ : gmap bytes bytes) = zero_hash.
Proof. apply map_fold_empty. Qed.

Lemma decodeSnapshot_spec name ss hs validate muts (p p' : Processor St) muts' hs' :
  decodeSnapshot name ss hs validate muts p = (p', Ok (muts', hs')) ->
  hs_Hash hs = zero_hash -> stored (db p) name = ∅ -> rows_below (db p) name (ss_Version ss) ->
  synced name p' hs' /\ hs_Version hs' = ss_Version ss /\
  version_of (db p') name = (hs_Version hs', hs_Hash hs') /\
  stored (db p') name = apply_mutations (snapshot_mutations ss) ∅ /\
  (forall n', n' <> name -> stored (db p') n' = stored (db p) n').
Proof.
  intros H Hh Hst Hb. unfold decodeSnapshot in H. stm_inv H. destruct a as [st w].
  unfold updateHash in E. stm_inv E. destruct a as [[added removed] w'].
  apply collectMACs_snapshot in E0 as (-> & -> & ->). cbn [hs_Hash hs_Version] in E.
  rewrite Hh, <- map_hash_empty, SubtractThenAddInPlace_steps in E by apply map_hash_is_hash.
  injection E as <- <- <-. cbn [foldl] in H. set (st := mkHS _ _) in *.
  stm_inv H. assert (Hd1 : db s = db p).
  { destruct validate; [|by injection E as <-]. stm_inv E.
    apply validateSnapshotMAC_spec in E0 as [<- _]. by injection E as <-. }
  stm_inv H. pose proof E0 as Hmacs. apply decodeMutations_snapshot in Hmacs as [Hadd _].
  apply (decodeMutations_spec _ _ (∅ : gmap bytes bytes)) in E0 as [Hd2 Hout].
  2:{ apply Forall_forall. intros mut (r & -> & _)%list_elem_of_fmap. by left. }
  stm_inv H. destruct a1. injection H as <- _ <-.
  assert (Hd : db s0 = db p) by congruence.
  apply storeMACs_spec in E0 as (Hs & Hb' & Hvo & Hnd & Hn); [|by rewrite Hd].
  rewrite Hd, Hst, Hout in Hs. rewrite Hd in Hn.
  split_and!; [|done|done|exact Hs|done]. split; [|done].
  rewrite Hs. subst st. cbn [hs_Hash]. rewrite snapshot_hash; [done| |].
  - rewrite Hadd in Hnd. cbn in Hnd. by rewrite map_map in Hnd.
  - intros i _. apply lookup_empty.
Qed.

(** The state a patch list may be applied in: in step with the store, or, when
    it brings a snapshot, empty. The versions must go up. *)
Definition ready (list_ : PatchList) (p : Processor St) (hs : HashState) : Prop :=
  match Snapshot list_ with
  | None => synced (Name list_) p hs /\ increasing (hs_Version hs) (Patches list_)
  | Some ss =>
      stored (db p) (Name list_) = ∅ /\ hs_Hash hs = zero_hash /\
      rows_below (db p) (Name list_) (ss_Version ss) /\ increasing (ss_Version ss) (Patches list_)
  end.

(** All the mutations of a list, those of the snapshot first. *)
Definition all_mutations (list_ : PatchList) : list SyncdMutation :=
  match Snapshot list_ with Some ss => snapshot_mutations ss | None => [] end
  ++ concat (map p_Mutations (Patches list_)).

Lemma DecodePatches_spec list_ validate hs (p p' : Processor St) muts hs' :
  DecodePatches list_ hs validate p = (p', Ok (muts, hs')) ->
  ready list_ p hs -> Forall (fun patch => Forall known_op (p_Mutations patch)) (Patches list_) ->
  synced (Name list_) p' hs' /\
  (version_of (db p) (Name list_) = (hs_Version hs, hs_Hash hs) \/ is_Some (Snapshot list_) ->
   version_of (db p') (Name list_) = (hs_Version hs', hs_Hash hs')) /\
  stored (db p') (Name list_) = apply_mutations (all_mutations list_) (stored (db p) (Name list_)) /\
  (forall n', n' <> Name list_ -> stored (db p') n' = stored (db p) n').
Proof.
  unfold ready, all_mutations. intros H Hr Hops. unfold DecodePatches in H. stm_inv H.
  destruct a as [muts1 hs1]. destruct (Snapshot list_) as [ss|].
  - destruct Hr as (Hst & Hh & Hb & Hinc).
    apply decodeSnapshot_spec in E as (Hs1 & Hv1 & Hvo1 & Hst1 & Hn1); [|done..].
    apply applyPatches_spec in H as (H1 & H2 & H3 & H4); [|done|by rewrite Hv1|done].
    split_and!; [done|by auto| |].
    + rewrite H3, Hst1, Hst. unfold apply_mutations. by rewrite foldl_app.
    + intros n' Hn. by rewrite H4, Hn1.
  - injection E as <- _ <-. destruct Hr as [Hs Hinc].
    apply applyPatches_spec in H as (H1 & H2 & H3 & H4); [|done..].
    split_and!; [done| |done|done]. intros [?|[? ?]]; [auto|done].
Qed.

(** The version a list of patches leads to. *)
Definition last_version (v : Z) (patches : list SyncdPatch) : Z := foldl (fun _ patch => p_Version patch) v patches.

Definition list_version (from : Z) (pl : PatchList) : Z :=
  last_version (match Snapshot pl with Some ss => ss_Version ss | None => from end) (Patches pl).

Lemma increasing_last patches : forall v, increasing v patches ->
  v <= last_version v patches /\ (patches <> [] -> v < last_version v patches).
Proof.
  induction patches as [|patch rest IH]; intros v; [intros _; split; [done|by intros []]|].
  intros [Hv Hi]. destruct (IH _ Hi) as [H _]. unfold last_version in *. cbn [foldl]. split; [|intros _]; lia.
Qed.

Lemma applyPatches_version name validate patches : forall muts hs (p p' : Processor St) muts' hs',
  applyPatches name patches validate muts hs p = (p', Ok (muts', hs')) ->
  synced name p hs -> increasing (hs_Version hs) patches ->
  Forall (fun patch => Forall known_op (p_Mutations patch)) patches ->
  hs_Version hs' = last_version (hs_Version hs) patches.
Proof.
  induction patches as [|patch rest IH]; intros muts hs p p' muts' hs' H Hs Hinc Hops;
    cbn [applyPatches] in H.
  { by injection H as _ _ <-. }
  stm_inv H. destruct a as [muts1 hs1]. destruct Hinc as [Hlt Hinc].
  inversion Hops as [|? ? Hop Hops']; subst.
  apply applyPatch_spec in E as (Hs1 & Hv1 & _); [|done..].
  rewrite (IH _ _ _ _ _ _ H Hs1 ltac:(by rewrite Hv1) Hops'). unfold last_version. cbn [foldl]. by rewrite Hv1.
Qed.

Lemma DecodePatches_version list_ validate hs (p p' : Processor St) muts hs' :
  DecodePatches list_ hs validate p = (p', Ok (muts, hs')) ->
  ready list_ p hs -> Forall (fun patch => Forall known_op (p_Mutations patch)) (Patches list_) ->
  hs_Version hs' = list_version (hs_Version hs) list_.
Proof.
  unfold ready, DecodePatches, list_version. intros H Hr Hops. stm_inv H.
  destruct a as [muts1 hs1]. destruct (Snapshot list_) as [ss|].
  - destruct Hr as (Hst & Hh & Hb & Hinc).
    apply decodeSnapshot_spec in E as (Hs1 & Hv1 & _); [|done..].
    apply applyPatches_version in H; [|done|by rewrite Hv1|done]. by rewrite H, Hv1.
  - injection E as <- _ <-. destruct Hr as [Hs Hinc]. by eapply applyPatches_version.
Qed.

(** (C2) App state stays in step with the server's hash: decoding a snapshot
    and a list of patches with rising versions establishes and keeps the
    invariant that the state's hash is the hash of the stored value MACs; the
    store ends with exactly the value MACs the mutations leave, with the new
    version and hash recorded, and the other collections untouched. *)
Theorem DecodePatches_synced list_ validate hs (p p' : Processor St) muts hs' :
  DecodePatches list_ hs validate p = (p', Ok (muts, hs')) ->
  ready list_ p hs -> Forall (fun patch => Forall known_op (p_Mutations patch)) (Patches list_) ->
  synced (Name list_) p' hs' /\
  (version_of (db p) (Name list_) = (hs_Version hs, hs_Hash hs) \/ is_Some (Snapshot list_) ->
   version_of (db p') (Name list_) = (hs_Version hs', hs_Hash hs')) /\
  stored (db p') (Name list_) = apply_mutations (all_mutations list_) (stored (db p) (Name list_)) /\
  (forall n', n' <> Name list_ -> stored (db p') n' = stored (db p) n').
Proof. apply DecodePatches_spec. Qed.

(** ** What validation establishes *)

(** A decoded mutation that is what a blob says, under the keys that the client holds
    for the blob's key ID: the content and index MACs are right, and its index and
    action are what the content decrypts to. *)
Definition verified (p : Processor St) (mutation : SyncdMutation) (m : Mutation) : Prop :=
  let keyID := rec_KeyID (mut_Record mutation) in
  let content := content_of (rec_Value (mut_Record mutation)) in
  exists keys plaintext action,
    key_held p keyID = Some keys /\
    generateContentMAC (mut_Operation mutation) content (key_bytes keyID) (k_ValueMAC keys) = last32 (rec_Value (mut_Record mutation)) /\
    cbcutil.Decrypt aes_block_dec (k_ValueEncryption keys) (ztake 16 content) (zdrop 16 content) = Ok plaintext /\
    unmarshal_action plaintext = Some action /\
    hmac_sha256 (k_Index keys) (sad_Index action) = rec_Index (mut_Record mutation) /\
    unmarshal_index (sad_Index action) = Some (m_Index m) /\ m_Action m = sad_Value action /\
    m_Operation m = mut_Operation mutation /\ m_IndexMAC m = rec_Index (mut_Record mutation).

Lemma verified_same p p' mutation m : same_keys p p' -> verified p' mutation m -> verified p mutation m.
Proof. intros (_ & Hk & _) (keys & plaintext & action & H & Hr). exists keys, plaintext, action. by rewrite <- Hk. Qed.

Lemma decodeMutations_verified pv mutations : forall i out out' (p p' : Processor St),
  decodeMutations mutations i out true pv ∅ p = (p', Ok out') ->
  same_keys p p' /\ exists new, Mutations out' = Mutations out ++ new /\ Forall2 (verified p) mutations new.
Proof.
  induction mutations as [|mut rest IH]; intros i out out' p p' H; cbn [decodeMutations] in H.
  { injection H as <- <-. split; [done|]. exists []. by rewrite app_nil_r. }
  stm_inv H. apply decodeMutation_spec in E as (_ & Hi & Hv & keys & p1 & Hk & Hmac & (plaintext & Hd & Ha) & Hu & Hsame).
  destruct (Hmac eq_refl) as [Hc Hx]. apply IH in H as (Hsame' & new & -> & Hf). split; [by etransitivity|].
  unfold outputMutation. rewrite lookup_empty. cbn [Mutations].
  eexists (_ :: new). split.
  - rewrite <- app_assoc. cbn [app]. f_equal.
    destruct (_ =? REMOVE); [done|]. by destruct (_ =? SET).
  - apply getAppStateKey_held in Hk as [Hk _].
    constructor; [|eapply Forall2_impl; [exact Hf|]; intros ? ?; by apply verified_same]. exists keys, plaintext, (d_action a).
    cbn [m_Index m_Operation m_IndexMAC m_Action]. by rewrite <- Hv, <- Hi.
Qed.

Lemma storeMACs_cache name hs out (p p' : Processor St) : storeMACs name hs out p = (p', Ok tt) -> cache_ok p -> cache_ok p'.
Proof.
  intros H Hc. unfold storeMACs in H. stm_inv H. stm_inv H. destruct a, a0.
  apply store_op_inv in E as (s1 & E & ->). apply store_op_inv in E0 as (s2 & E0 & ->). apply store_op_inv in H as (s3 & H & ->).
  intros id keys. cbn [keyCache db] in *. intros Hk. apply Hc in Hk. unfold stored_key in *.
  by rewrite (keys_put_macs _ _ _ _ _ _ H), (keys_delete_macs _ _ _ _ _ E0), (keys_put_version _ _ _ _ _ _ E).
Qed.

(** What a patch that validates carries. *)
Lemma validatePatch_verified name patch hs (p p' : Processor St) hs' : validatePatch name patch hs true p = (p', Ok hs') ->
  same_keys p p' /\ hs_Version hs' = p_Version patch /\ exists keys, key_held p (p_KeyID patch) = Some keys /\
    generateSnapshotMAC name (k_SnapshotMAC keys) hs' = p_SnapshotMAC patch /\
    generatePatchMAC patch name (k_PatchMAC keys) (p_Version patch) = Ok (p_PatchMAC patch).
Proof.
  intros E. unfold validatePatch in E. stm_inv E. destruct a as [st w]. unfold updateHash in E0. stm_inv E0. destruct a as [[ad rm] w'].
  apply (collectMACs_spec name (p_Mutations patch) (p_Mutations patch) []) in E1 as [-> _]; [|done].
  assert (s = p /\ hs_Version st = p_Version patch) as [-> Hv].
  { cbn [hs_Hash hs_Version] in E0. destruct (SubtractThenAddInPlace _ _ _ _); [by injection E0 as <- <- _|done..]. }
  stm_inv E. stm_inv E. apply lift_inv in E2 as [-> Hp]. case_bool_decide as Hb; [done|]. injection E as <- <-.
  apply validateSnapshotMAC_spec in E1 as (_ & Hs & Hk). apply getAppStateKey_held in Hk as [Hk Hsame].
  split; [done|]. split; [done|]. eexists. split; [exact Hk|]. split; [exact Hs|]. rewrite Hp. f_equal. exact Hb.
Qed.

(** (C13) Nothing unverified is applied: a patch applied with validation carries the
    HMAC of the resulting hash, version and collection, and the HMAC of itself, under
    the keys that the client holds for the patch's key ID, those it has cached or else
    those expanded from the store; and every mutation returned is what its blob
    decrypts to, with the right content and index MACs, under the keys held for the
    blob's own key ID. A cache that holds what the store does keeps to it, and then
    those keys are the store's. *)
Theorem applyPatch_verified name patch muts hs (p p' : Processor St) muts' hs' :
  applyPatch name patch true muts hs p = (p', Ok (muts', hs')) ->
  (exists keys, key_held p (p_KeyID patch) = Some keys /\
     hmac_sha256 (k_SnapshotMAC keys)
       (hs_Hash hs' ++ uint64ToBytes (p_Version patch) ++ str_bytes name) = p_SnapshotMAC patch /\
     generatePatchMAC patch name (k_PatchMAC keys) (p_Version patch) = Ok (p_PatchMAC patch)) /\
  (exists new, muts' = muts ++ new /\ Forall2 (verified p) (p_Mutations patch) new) /\
  (cache_ok p -> cache_ok p' /\ forall keyID, key_held p keyID = stored_key (db p) (key_bytes keyID)).
Proof.
  intros H. unfold applyPatch in H. stm_inv H. stm_inv H. stm_inv H. injection H as <- <- <-. destruct a1.
  apply validatePatch_verified in E as (Hsame & Hv & keys & Hk & Hs & Hp).
  apply decodeMutations_verified in E0 as (Hsame' & new & Hm & Hf). split_and!.
  - exists keys. split_and!; [done| |done].
    rewrite <- Hs. unfold generateSnapshotMAC, concatAndHMAC. cbn [concat]. by rewrite app_nil_r, Hv.
  - exists new. split; [done|]. eapply Forall2_impl; [exact Hf|]. intros ? ?. by apply verified_same.
  - intros Hc. split; [|intros; by apply held_stored]. eapply storeMACs_cache; [exact E1|]. by apply Hsame', Hsame.
Qed.

(** A new key put under an ID in use is not seen: the cache is read first. *)
Lemma cached_first (p : Processor St) keyID keys : keyCache p !! key_bytes keyID = Some keys -> getAppStateKey keyID p = (p, Ok keys).
Proof. intros H. unfold getAppStateKey, mbind, stm_bind, get_state. by rewrite H. Qed.

End proofs.

(** ** Where the store is left behind *)

Lemma insert_rows_distinct name v l : forall s s',
  sqlstore.insert_rows name v l s = Some s' ->
  NoDup (map mac_Index l) /\
  (forall r, r ∈ sqlstore.macs s -> sqlstore.row_name r = name -> sqlstore.row_version r = v ->
     sqlstore.row_index r ∉ map mac_Index l).
Proof.
  induction l as [|mac l IH]; intros s s' H; cbn [sqlstore.insert_rows] in H.
  { split; [constructor|]. intros. apply not_elem_of_nil. }
  destruct (sqlstore.insert_row name v mac s) as [s1|] eqn:H1; [|done]. cbn in H.
  apply IH in H as [Hnd Hr]. unfold sqlstore.insert_row in H1.
  destruct (bool_decide (_ = None)); [done|]. destruct (_ || _); [done|].
  case_bool_decide as Hex; [done|]. injection H1 as <-. cbn [sqlstore.macs] in Hr. cbn [map]. split.
  - apply NoDup_cons. split; [|done].
    apply (Hr (sqlstore.mkRow name v (mac_Index mac) (mac_Value mac))); [apply list_elem_of_here|done..].
  - intros r Hin Hn Hv. apply not_elem_of_cons. split.
    + intros Hi. apply Hex, Exists_exists. by exists r.
    + apply Hr; [by apply list_elem_of_further|done..].
Qed.

(** A patch that SETs an index twice is verified but cannot be stored: with
    the SQL store [storeMACs] fails on the second row, after the new version
    and hash have been committed and the removed MACs deleted, so the store
    is left at the new version with the old value MACs. *)
Theorem storeMACs_duplicate name hs out (p : Processor sqlstore.tables) :
  blen (hs_Hash hs) = 128 -> ~ NoDup (map mac_Index (AddedMACs out)) ->
  exists p',
    storeMACs name hs out p = (p', Err (ErrStore ErrConstraint)) /\
    version_of (db p') name = (hs_Version hs, hs_Hash hs) /\
    stored (db p') name = delete_macs (RemovedMACs out) (stored (db p) name).
Proof.
  intros Hlen Hnd.
  set (s1 := sqlstore.mkTables (sqlstore.sync_keys (db p))
    (<[name := (hs_Version hs, hs_Hash hs)]> (sqlstore.versions (db p))) (sqlstore.macs (db p))).
  assert (Hput : PutAppStateVersion name (hs_Version hs) (hs_Hash hs) (db p) = (s1, Ok tt)).
  { cbn. unfold sqlstore.putAppStateVersion. by rewrite Hlen, Z.eqb_refl. }
  set (s2 := fst (sqlstore.deleteAppStateMutationMACs name (RemovedMACs out) s1)).
  assert (Hd2 : DeleteAppStateMutationMACs name (RemovedMACs out) s1 = (s2, Ok tt)) by done.
  assert (Hmacs : PutAppStateMutationMACs name (hs_Version hs) (AddedMACs out) s2 = (s2, Err ErrConstraint)).
  { unfold PutAppStateMutationMACs, sqlstore.sql_store, sqlstore.putAppStateMutationMACs.
    destruct (sqlstore.insert_rows name (hs_Version hs) (AddedMACs out) s2) as [s3|] eqn:Hi; [|done].
    exfalso. apply Hnd. by apply insert_rows_distinct in Hi as [? _]. }
  pose proof (store_put_version _ _ _ _ _ Hput) as (H1 & _ & Hvo & _).
  pose proof (store_delete_macs _ _ _ _ Hd2) as (H2 & H3 & _).
  exists (mkProc (keyCache p) s2). split_and!.
  - unfold storeMACs, mbind, stm_bind, store_op. cbv beta. rewrite Hput. cbn [map_err db keyCache].
    rewrite Hd2. cbn [map_err db keyCache]. by rewrite Hmacs.
  - cbn [db]. by rewrite H3.
  - cbn [db]. by rewrite H2, H1.
Qed.

End appstate_proofs.
