(* ===== verification/AppStateEncode.v ===== *)
(** * appstate/encode.go and recovery.go: building and sending patches

    The patch builders, [EncodePatch] and the recovery path. Times are Unix
    milliseconds (a zero time is [None]); the clock and the IVs drawn from the
    random source are arguments. *)

From S2P Require Import Prelude GoStrings Jid StateErr Cbc Crypto LTHash AppStateStore AppState AppStateProofs.

#[local] Open Scope string_scope.
#[local] Open Scope list_scope.
#[local] Open Scope Z_scope.

Module appstate_encode.

Import lthash crypto appstate jid.

Record MutationInfo := mkInfo { mi_Index : list string; mi_Version : Z; mi_Value : SyncActionValue }.

Record PatchInfo := mkPatchInfo {
  pi_Timestamp : option Z;
  pi_Type : WAPatchName;
  pi_Mutations : list MutationInfo
}.

Definition IndexMute := "mute".
Definition IndexPin := "pin_v1".
Definition IndexArchive := "archive".
Definition IndexMarkChatAsRead := "markChatAsRead".
Definition IndexLabelAssociationChat := "label_jid".
Definition IndexLabelAssociationMessage := "label_message".
Definition IndexLabelEdit := "label_edit".
Definition IndexSettingPushName := "setting_pushName".
Definition IndexStar := "star".
Definition IndexDeleteChat := "deleteChat".

(** ** Builders *)

Definition value (a : sync_action) : SyncActionValue := mkSAV None a.

Definition BuildMuteAbs (target : JID) (mute : bool) (muteEndTimestamp : option Z) : PatchInfo :=
  let muteEndTimestamp :=
    match muteEndTimestamp with
    | None => if mute then Some (-1) else None
    | Some _ => muteEndTimestamp
    end in
  mkPatchInfo None WAPatchRegularHigh
    [mkInfo [IndexMute; String_ target] 2 (value (MuteAction mute muteEndTimestamp))].

(** [BuildMute]; the clock and the duration in nanoseconds. *)
Definition BuildMute (now : Z) (target : JID) (mute : bool) (muteDuration : Z) : PatchInfo :=
  BuildMuteAbs target mute
    (if 0 <? muteDuration then Some ((now + muteDuration) / 1000000) else None).

Definition newPinMutationInfo (target : JID) (pin : bool) : MutationInfo :=
  mkInfo [IndexPin; String_ target] 5 (value (PinAction pin)).

Definition BuildPin (target : JID) (pin : bool) : PatchInfo :=
  mkPatchInfo None WAPatchRegularLow [newPinMutationInfo target pin].

(** [time.Unix]: whole seconds. *)
Definition unix_seconds (ms : Z) : Z := ms / 1000.

Definition newMessageRange (now : Z) (lastMessageTimestamp : option Z)
    (lastMessageKey : option MessageKey) : MessageRange :=
  let ts := unix_seconds (default now lastMessageTimestamp) in
  mkRange ts (match lastMessageKey with Some k => [(k, ts)] | None => [] end).

(** Archiving unpins as well. *)
Definition BuildArchive (now : Z) (target : JID) (archive : bool) (lastMessageTimestamp : option Z)
    (lastMessageKey : option MessageKey) : PatchInfo :=
  let archiveMutationInfo :=
    mkInfo [IndexArchive; String_ target] 3
      (value (ArchiveChatAction archive (newMessageRange now lastMessageTimestamp lastMessageKey))) in
  mkPatchInfo None WAPatchRegularLow
    (if archive then [archiveMutationInfo; newPinMutationInfo target false] else [archiveMutationInfo]).

Definition BuildMarkChatAsRead (now : Z) (target : JID) (read : bool)
    (lastMessageTimestamp : option Z) (lastMessageKey : option MessageKey) : PatchInfo :=
  mkPatchInfo None WAPatchRegularLow
    [mkInfo [IndexMarkChatAsRead; String_ target] 3
       (value (MarkChatAsReadAction read (newMessageRange now lastMessageTimestamp lastMessageKey)))].

Definition newLabelChatMutation (target : JID) (labelID : string) (labeled : bool) : MutationInfo :=
  mkInfo [IndexLabelAssociationChat; labelID; String_ target] 3 (value (LabelAssociationAction labeled)).

Definition BuildLabelChat (target : JID) (labelID : string) (labeled : bool) : PatchInfo :=
  mkPatchInfo None WAPatchRegular [newLabelChatMutation target labelID labeled].

Definition newLabelMessageMutation (target : JID) (labelID messageID : string) (labeled : bool) :
    MutationInfo :=
  mkInfo [IndexLabelAssociationMessage; labelID; String_ target; messageID; "0"; "0"] 3
    (value (LabelAssociationAction labeled)).

Definition BuildLabelMessage (target : JID) (labelID messageID : string) (labeled : bool) : PatchInfo :=
  mkPatchInfo None WAPatchRegular [newLabelMessageMutation target labelID messageID labeled].

Definition newLabelEditMutation (labelID labelName : string) (labelColor : Z) (deleted : bool) :
    MutationInfo :=
  mkInfo [IndexLabelEdit; labelID] 3 (value (LabelEditAction labelName labelColor deleted)).

Definition BuildLabelEdit (labelID labelName : string) (labelColor : Z) (deleted : bool) : PatchInfo :=
  mkPatchInfo None WAPatchRegular [newLabelEditMutation labelID labelName labelColor deleted].

Definition newSettingPushNameMutation (pushName : string) : MutationInfo :=
  mkInfo [IndexSettingPushName] 1 (value (PushNameSetting pushName)).

Definition BuildSettingPushName (pushName : string) : PatchInfo :=
  mkPatchInfo None WAPatchCriticalBlock [newSettingPushNameMutation pushName].

Definition newStarMutation (targetJID senderJID messageID fromMe : string) (starred : bool) :
    MutationInfo :=
  mkInfo [IndexStar; targetJID; messageID; fromMe; senderJID] 2 (value (StarAction starred)).

Definition BuildStar (target sender : JID) (messageID : string) (fromMe starred : bool) : PatchInfo :=
  let isFromMe := if fromMe then "1" else "0" in
  let senderJID := if String.eqb (User target) (User sender) then "0" else String_ sender in
  mkPatchInfo None WAPatchRegularHigh
    [newStarMutation (String_ target) senderJID messageID isFromMe starred].

Definition BuildDeleteChat (now : Z) (target : JID) (lastMessageTimestamp : option Z)
    (lastMessageKey : option MessageKey) (deleteMedia : bool) : PatchInfo :=
  mkPatchInfo None WAPatchRegularHigh
    [mkInfo [IndexDeleteChat; String_ target; if deleteMedia then "1" else "0"] 6
       (value (DeleteChatAction (newMessageRange now lastMessageTimestamp lastMessageKey)))].

Section encode.
Context {C : Crypto} {P : AppStateProto} {St : Type} {SO : AppStateStore St}.

(** ** EncodePatch *)

(** The data one mutation carries. *)
Definition action_data (timestamp : Z) (info : MutationInfo) : SyncActionData :=
  mkSAD (marshal_index (mi_Index info)) (mkSAV (Some timestamp) (sav_Action (mi_Value info)))
    (mi_Version info).

(** The body of the loop over the mutations. *)
Definition encodeMutation (keys : ExpandedAppStateKeys) (keyID : bytes) (timestamp : Z)
    (iv : option bytes) (info : MutationInfo) : outcome app_error SyncdMutation :=
  let indexBytes := marshal_index (mi_Index info) in
  match marshal_action (action_data timestamp info) with
  | None => Err ErrMarshalMutation
  | Some content =>
      encryptedContent ← map_err ErrEncryptMutation
        (cbcutil.Encrypt aes_block_enc iv (k_ValueEncryption keys) None content);
      let valueMac := generateContentMAC SET encryptedContent keyID (k_ValueMAC keys) in
      let indexMac := concatAndHMAC hmac_sha256 (k_Index keys) [indexBytes] in
      Ok (mkMutation SET (mkRecord indexMac (encryptedContent ++ valueMac) (Some keyID)))
  end.

Fixpoint encodeMutations (keys : ExpandedAppStateKeys) (keyID : bytes) (timestamp : Z)
    (ivs : nat -> option bytes) (i : nat) (infos : list MutationInfo) :
    outcome app_error (list SyncdMutation) :=
  match infos with
  | [] => Ok []
  | info :: rest =>
      mutation ← encodeMutation keys keyID timestamp (ivs i) info;
      mutations ← encodeMutations keys keyID timestamp ivs (i + 1) rest;
      Ok (mutation :: mutations)
  end.

(** The patch before it is marshalled; [ivs] are the IVs drawn. *)
Definition makePatch (now : Z) (ivs : nat -> option bytes) (keyID : bytes) (state : HashState)
    (patchInfo : PatchInfo) : PM (St := St) SyncdPatch :=
  keys ← getAppStateKey (Some keyID);
  let timestamp := default now (pi_Timestamp patchInfo) in
  mutations ← lift (encodeMutations keys keyID timestamp ivs 0 (pi_Mutations patchInfo));
  '(state, _) ← updateHash mutations
    (fun indexMAC _ => store_op (GetAppStateMutationMAC (pi_Type patchInfo) indexMAC)) state;
  let state := mkHS (u64 (hs_Version state + 1)) (hs_Hash state) in
  let syncdPatch :=
    mkPatch 0 mutations (generateSnapshotMAC (pi_Type patchInfo) (k_SnapshotMAC keys) state) []
      (Some keyID) None in
  patchMAC ← lift (generatePatchMAC syncdPatch (pi_Type patchInfo) (k_PatchMAC keys) (hs_Version state));
  mret (mkPatch 0 mutations (p_SnapshotMAC syncdPatch) patchMAC (Some keyID) None).

Definition EncodePatch (now : Z) (ivs : nat -> option bytes) (keyID : bytes) (state : HashState)
    (patchInfo : PatchInfo) : PM (St := St) bytes :=
  syncdPatch ← makePatch now ivs keyID state patchInfo;
  match marshal_patch syncdPatch with
  | Some result => mret result
  | None => throw ErrMarshalPatch
  end.

(** ** recovery.go *)

Record RecoveryRecord := mkRR {
  rr_KeyID : bytes; rr_Value : SyncActionData; rr_Mac : bytes
}.

Record SnapshotRecovery := mkRecovery {
  r_CollectionName : string;
  r_Version : Z;
  r_CollectionLthash : bytes;
  r_MutationRecords : list RecoveryRecord
}.

(** The loop of [ProcessRecovery]. *)
Fixpoint recoverRecords (version : Z) (records : list RecoveryRecord) (i : nat) :
    PM (St := St) (list AppStateMutationMAC * list Mutation) :=
  match records with
  | [] => mret ([], [])
  | r :: rest =>
      keys ← getAppStateKey (Some (rr_KeyID r));
      match unmarshal_index (sad_Index (rr_Value r)) with
      | None => throw (ErrUnmarshalIndex i)
      | Some parsedIndex =>
          let mac := mkMAC (concatAndHMAC hmac_sha256 (k_Index keys) [sad_Index (rr_Value r)]) (rr_Mac r) in
          '(macs, muts) ← recoverRecords version rest (i + 1);
          mret (mac :: macs,
                mkMut (Some (rr_KeyID r)) SET (sad_Value (rr_Value r)) (sad_Version (rr_Value r))
                  parsedIndex (mac_Index mac) (mac_Value mac) version :: muts)
      end
  end.

Definition ProcessRecovery (recovery : SnapshotRecovery) : PM (St := St) (list Mutation) :=
  if negb (blen (r_CollectionLthash recovery) =? 128) then
    throw (ErrLTHashLength (blen (r_CollectionLthash recovery)))
  else
    let name := r_CollectionName recovery in
    let version := r_Version recovery in
    '(macs, mutations) ← recoverRecords version (r_MutationRecords recovery) 0;
    _ ← store_op (DeleteAppStateVersion name);
    _ ← store_op (PutAppStateVersion name version (r_CollectionLthash recovery));
    _ ← store_op (PutAppStateMutationMACs name version macs);
    mret mutations.

(** ** A patch made here is accepted *)

Definition is_ascii (s : string) : Prop :=
  Forall (fun b => b2z b < 128) (str_bytes s).

End encode.

(** What the codecs promise: what can be marshalled is read back. (Go's JSON
    replaces invalid UTF-8, so the index law is for ASCII.) *)
Class AppStateProtoLaws (P : AppStateProto) : Prop := {
  unmarshal_marshal_action a b : marshal_action a = Some b -> unmarshal_action b = Some a;
  unmarshal_marshal_index l : Forall is_ascii l -> unmarshal_index (marshal_index l) = Some l;
  unmarshal_marshal_patch p b : marshal_patch p = Some b -> unmarshal_patch b = Some p
}.

Section accepted.
Context {C : Crypto} {P : AppStateProto} {St : Type} {SO : AppStateStore St}.
Context {CL : CryptoLaws C} {PL : AppStateProtoLaws P} {SL : AppStateStoreLaws St}.

Lemma getAppStateKey_cached keyID (p p' : Processor St) k :
  getAppStateKey keyID p = (p', Ok k) -> getAppStateKey keyID p' = (p', Ok k).
Proof.
  intros H. pose proof H as H0. unfold getAppStateKey in H. stm_inv H. injection E as <- <-.
  destruct (keyCache p !! key_bytes keyID) eqn:Hk; [injection H as <- <-; exact H0|].
  stm_inv H. destruct a as [key|]; [|done]. stm_inv H. stm_inv H. injection E1 as <- <-.
  stm_inv H. injection E1 as <- _. injection H as <- <-.
  unfold getAppStateKey, get_state. unfold mbind, stm_bind. cbn [keyCache].
  by rewrite lookup_insert_eq.
Qed.

Lemma collectMACs_ext f g rest : forall i (p : Processor St),
  (forall j mut, rest !! j = Some mut ->
     forall q, f (rec_Index (mut_Record mut)) (i + j)%nat q = g (rec_Index (mut_Record mut)) (i + j)%nat q) ->
  collectMACs rest i f p = collectMACs rest i g p.
Proof.
  induction rest as [|mut rest IH]; intros i p Hfg; [done|]. cbn [collectMACs].
  unfold mbind, stm_bind.
  set (own := if mut_Operation mut =? SET then _ else _). destruct (own p) as [q [o|e| |]]; try done.
  pose proof (Hfg 0%nat mut eq_refl q) as H0. rewrite Nat.add_0_r in H0. rewrite H0.
  destruct (g _ i q) as [q' [r|e| |]]; try done.
  rewrite (IH (i + 1)%nat q'); [done|]. intros j mut' Hj q''.
  specialize (Hfg (Datatypes.S j) mut' Hj q''). by replace (i + 1 + j)%nat with (i + Datatypes.S j)%nat by lia.
Qed.

Lemma collectMACs_state f rest : forall i (p p' : Processor St) x,
  (forall idx j q q' r, f idx j q = (q', Ok r) -> q' = q) ->
  collectMACs rest i f p = (p', Ok x) -> p' = p.
Proof.
  induction rest as [|mut rest IH]; intros i p p' x Hf H; cbn [collectMACs] in H.
  { by injection H as <- _. }
  stm_inv H. stm_inv H. stm_inv H. apply Hf in E0 as ->. apply IH in E1 as ->; [|done].
  assert (s = p) as ->.
  { destruct (_ =? SET); [|by injection E as <- _]. stm_inv E. apply lift_inv in E0 as [-> _].
    by injection E as <- _. }
  destruct a1 as [[ad rm] w], a0; injection H as <- _; done.
Qed.

(** Distinct indexes: nothing is found among the earlier mutations. *)
Lemma prevInPatch_NoDup mutations i mut : forall j,
  NoDup (map (fun m => rec_Index (mut_Record m)) mutations) ->
  mutations !! i = Some mut -> (j <= i)%nat ->
  prevInPatch mutations j (rec_Index (mut_Record mut)) = None.
Proof.
  induction j as [|j IH]; intros Hnd Hi Hj; [done|]. cbn [prevInPatch].
  destruct (lookup_lt_is_Some_2 mutations j) as [mut' Hm].
  { apply lookup_lt_Some in Hi. lia. }
  rewrite Hm, bool_decide_false; [apply IH; [done|done|lia]|]. intros Heq.
  assert (j = i); [|lia]. eapply (NoDup_lookup _ _ _ (rec_Index (mut_Record mut)) Hnd).
  - rewrite list_lookup_fmap, Hm. cbn. by rewrite Heq.
  - by rewrite list_lookup_fmap, Hi.
Qed.

Lemma blen_content_mac op data keyID key : blen (generateContentMAC op data keyID key) = 32.
Proof.
  unfold generateContentMAC, concatAndHMAC, blen. rewrite length_take, length_hmac_sha512. done.
Qed.

(** A mutation made here decodes to what it was made of. *)
Lemma encodeMutation_decodes keys keyID ts iv info mut i (p : Processor St) :
  encodeMutation keys keyID ts iv info = Ok mut -> Forall is_ascii (mi_Index info) ->
  getAppStateKey (Some keyID) p = (p, Ok keys) ->
  mut_Operation mut = SET /\ rec_KeyID (mut_Record mut) = Some keyID /\
  exists imac vmac,
    decodeMutation mut i true p = (p, Ok (mkDecoded imac vmac (mi_Index info) (action_data ts info))).
Proof.
  unfold encodeMutation. intros H Hascii Hkey.
  destruct (marshal_action (action_data ts info)) as [content|] eqn:Hm; [|done].
  apply bind_inv in H as (enc & He & H). injection H as <-. split_and!; [done|done|].
  assert (He' : cbcutil.Encrypt aes_block_enc iv (k_ValueEncryption keys) None content = Ok enc).
  { destruct (cbcutil.Encrypt _ _ _ _ _); cbn in He; congruence. }
  apply (cbcutil.Encrypt_nil_iv _ _) in He' as (iv' & c' & -> & Hiv & Hdec).
  eexists _, _. unfold decodeMutation. cbn [mut_Record rec_KeyID rec_Value mut_Operation rec_Index].
  rewrite (stm_bind_ok _ _ _ _ _ Hkey).
  set (vm := generateContentMAC SET (iv' ++ c') keyID (k_ValueMAC keys)).
  assert (Hvm : blen vm = 32) by apply blen_content_mac.
  assert (Hlen : blen ((iv' ++ c') ++ vm) - 32 = blen (iv' ++ c')) by (rewrite blen_app; lia).
  unfold valueMACof. rewrite (proj2 (Z.ltb_ge (blen ((iv' ++ c') ++ vm)) 32))
    by (rewrite blen_app; pose proof (blen_nonneg (iv' ++ c')); lia).
  rewrite Hlen, zdrop_app, ztake_app. erewrite stm_bind_ok by reflexivity. cbn [key_bytes default].
  fold vm. rewrite bool_decide_false by (intros Hne; by apply Hne). cbn [andb].
  rewrite (proj2 (Z.ltb_ge (blen (iv' ++ c')) 16))
    by (rewrite blen_app, Hiv; pose proof (blen_nonneg c'); unfold cbcutil.BlockSize; lia).
  change 16 with cbcutil.BlockSize at 1 2. rewrite <- Hiv, ztake_app, zdrop_app.
  rewrite Hdec. erewrite stm_bind_ok by reflexivity.
  rewrite (unmarshal_marshal_action _ _ Hm). cbn [action_data sad_Index].
  rewrite bool_decide_false by (intros Hne; by apply Hne).
  rewrite unmarshal_marshal_index by done. reflexivity.
Qed.

(** What the receiver of a mutation should see. *)
Definition sent_as (ts : Z) (keyID : bytes) (version : Z) (info : MutationInfo) (m : Mutation) : Prop :=
  m_Operation m = SET /\ m_Index m = mi_Index info /\ m_Version m = mi_Version info /\
  m_Action m = mkSAV (Some ts) (sav_Action (mi_Value info)) /\ m_KeyID m = Some keyID /\
  m_PatchVersion m = version.

Lemma encodeMutations_decode keys keyID ts ivs pv (p : Processor St) infos : forall i muts k out,
  encodeMutations keys keyID ts ivs i infos = Ok muts ->
  Forall (fun info => Forall is_ascii (mi_Index info)) infos ->
  getAppStateKey (Some keyID) p = (p, Ok keys) ->
  exists out' new,
    decodeMutations muts k out true pv ∅ p = (p, Ok out') /\
    Mutations out' = Mutations out ++ new /\ Forall2 (sent_as ts keyID pv) infos new.
Proof.
  induction infos as [|info rest IH]; intros i muts k out H Hall Hkey; cbn [encodeMutations] in H.
  { injection H as <-. exists out, []. by rewrite app_nil_r. }
  apply bind_inv in H as (mut & H1 & H). apply bind_inv in H as (muts' & H2 & H). injection H as <-.
  inversion Hall as [|? ? Ha Hall']; subst.
  destruct (encodeMutation_decodes _ _ _ _ _ _ k p H1 Ha Hkey) as (Hop & Hid & im & vm & Hd).
  cbn [decodeMutations]. rewrite (stm_bind_ok _ _ _ _ _ Hd).
  destruct (IH (i + 1)%nat muts' (k + 1)%nat
    (outputMutation mut (mkDecoded im vm (mi_Index info) (action_data ts info)) pv ∅ out) H2 Hall' Hkey)
    as (out' & new & Ho & Hm & Hf).
  eexists out', (_ :: new). split_and!; [exact Ho| |].
  - rewrite Hm. unfold outputMutation. rewrite Hop. change (SET =? REMOVE) with false.
    change (SET =? SET) with true. cbn [Mutations AddMAC]. rewrite <- app_assoc. reflexivity.
  - constructor; [|exact Hf]. unfold sent_as. by rewrite Hid.
Qed.

Definition with_version (v : Z) (patch : SyncdPatch) : SyncdPatch :=
  mkPatch v (p_Mutations patch) (p_SnapshotMAC patch) (p_PatchMAC patch) (p_KeyID patch) (p_External patch).

Definition patch_indexes (patch : SyncdPatch) : list bytes :=
  map (fun m => rec_Index (mut_Record m)) (p_Mutations patch).

Lemma updateHash_version f muts v w h (p p' : Processor St) hs warns :
  updateHash muts f (mkHS v h) p = (p', Ok (hs, warns)) ->
  hs_Version hs = v /\ updateHash muts f (mkHS w h) p = (p', Ok (mkHS w (hs_Hash hs), warns)).
Proof.
  unfold updateHash. intros H. stm_inv H. destruct a as [[ad rm] wa]. cbn [hs_Hash hs_Version] in *.
  rewrite (stm_bind_ok _ _ _ _ _ E).
  destruct (SubtractThenAddInPlace WAPatchIntegrity h rm ad); [|done..]. by injection H as <- <- <-.
Qed.

Lemma own_search_still name (idx : bytes) (j : nat) (q q' : Processor St) r :
  store_op (GetAppStateMutationMAC name idx) q = (q', Ok r) -> q' = q.
Proof.
  intros H. apply appstate_proofs.store_op_inv in H as (s' & H & ->).
  apply store_get_mac in H as [-> _]. apply appstate_proofs.mkProc_eta.
Qed.

Lemma updateHash_state name muts hs (p p' : Processor St) r :
  updateHash muts (fun indexMAC _ => store_op (GetAppStateMutationMAC name indexMAC)) hs p = (p', Ok r) -> p' = p.
Proof.
  unfold updateHash. intros H. stm_inv H. destruct a as [[ad rm] w].
  apply collectMACs_state in E as ->; [|intros idx j; by apply own_search_still].
  by destruct (SubtractThenAddInPlace _ _ _ _); injection H as <-.
Qed.

(** The search of [validatePatch] and that of [EncodePatch] agree on a patch
    with distinct indexes. *)
Lemma updateHash_searches name muts hs (p p' : Processor St) r :
  NoDup (map (fun m => rec_Index (mut_Record m)) muts) ->
  updateHash muts (fun indexMAC _ => store_op (GetAppStateMutationMAC name indexMAC)) hs p = (p', Ok r) ->
  p' = p /\ updateHash muts (getPrevSetValueMAC name muts) hs p = (p', Ok r).
Proof.
  intros Hnd H. pose proof (updateHash_state _ _ _ _ _ _ H) as ->. split; [done|].
  unfold updateHash in *. stm_inv H. destruct a as [[ad rm] w].
  pose proof E as E'. apply collectMACs_state in E' as ->; [|intros idx j; by apply own_search_still].
  rewrite (collectMACs_ext _ (getPrevSetValueMAC name muts)) in E.
  - by rewrite (stm_bind_ok _ _ _ _ _ E).
  - intros j mut Hj q. unfold getPrevSetValueMAC. cbn [Nat.add].
    by rewrite (prevInPatch_NoDup muts j mut j Hnd Hj).
Qed.

(** Encoding leaves the store alone. *)
Lemma EncodePatch_db now ivs keyID hs info (p p' : Processor St) b :
  EncodePatch now ivs keyID hs info p = (p', Ok b) -> db p' = db p.
Proof.
  unfold EncodePatch, makePatch. intros H. stm_inv H. stm_inv E. apply appstate_proofs.getAppStateKey_db in E0 as <-.
  stm_inv E. apply lift_inv in E0 as [-> _]. stm_inv E. apply updateHash_state in E0 as ->.
  destruct a2 as [st w]. stm_inv E. apply lift_inv in E0 as [-> _]. injection E as <- <-.
  by destruct (marshal_patch _); injection H as <-.
Qed.

(** A patch made here is accepted: whatever [EncodePatch] returns, sent
    back with the next version, unmarshals to a patch that [validatePatch]
    accepts in the same state with all MACs checked, and whose mutations decode
    to the indexes, versions and values the patch was built from, provided its
    mutations have different index MACs. *)
Theorem EncodePatch_accepted now ivs keyID hs info (p p1 : Processor St) b :
  EncodePatch now ivs keyID hs info p = (p1, Ok b) ->
  Forall (fun i => Forall is_ascii (mi_Index i)) (pi_Mutations info) ->
  exists patch,
    unmarshal_patch b = Some patch /\
    (NoDup (patch_indexes patch) ->
     exists hs' out,
       let sent := with_version (u64 (hs_Version hs + 1)) patch in
       validatePatch (pi_Type info) sent hs true p1 = (p1, Ok hs') /\
       hs_Version hs' = u64 (hs_Version hs + 1) /\
       decodeMutations (p_Mutations sent) 0 (mkOut [] [] []) true (hs_Version hs') ∅ p1 = (p1, Ok out) /\
       Forall2 (sent_as (default now (pi_Timestamp info)) keyID (hs_Version hs'))
         (pi_Mutations info) (Mutations out)).
Proof.
  intros H Hascii. unfold EncodePatch in H. stm_inv H.
  destruct (marshal_patch a) as [b'|] eqn:Hm; [|done]. injection H as <- <-.
  exists a. split; [by apply unmarshal_marshal_patch|]. intros Hnd. unfold makePatch in E.
  stm_inv E. rename a0 into keys. apply getAppStateKey_cached in E0. stm_inv E. apply lift_inv in E1 as [-> Hmuts].
  rename a0 into muts. stm_inv E. destruct a0 as [hs1 w].
  stm_inv E. apply lift_inv in E2 as [-> Hpm]. injection E as <- <-. unfold patch_indexes in Hnd.
  cbn [p_Mutations] in Hnd. apply updateHash_searches in E1 as [-> E1]; [|done].
  destruct hs as [v h]. apply (updateHash_version _ _ _ (u64 (v + 1))) in E1 as [Hv1 E1].
  cbn [hs_Version] in *. rewrite Hv1 in *.
  destruct (encodeMutations_decode keys keyID (default now (pi_Timestamp info)) ivs (u64 (v + 1)) s0
    (pi_Mutations info) 0%nat muts 0%nat (mkOut [] [] []) Hmuts Hascii E0) as (out & new & Hd & Ho & Hf).
  exists (mkHS (u64 (v + 1)) (hs_Hash hs1)), out. cbn [with_version p_Mutations hs_Version].
  split_and!; [|done|exact Hd|by rewrite Ho].
  unfold validatePatch. cbn [p_Mutations p_Version p_KeyID p_SnapshotMAC p_PatchMAC hs_Hash with_version].
  rewrite (stm_bind_ok _ _ _ _ _ E1). unfold validateSnapshotMAC.
  erewrite stm_bind_ok.
  2:{ rewrite (stm_bind_ok _ _ _ _ _ E0). rewrite bool_decide_false by (intros Hne; by apply Hne).
      reflexivity. }
  erewrite stm_bind_ok; [|apply lift_ok; exact Hpm].
  by rewrite bool_decide_false by (intros Hne; by apply Hne).
Qed.

(** ** Recovery *)

Lemma recoverRecords_spec version records : forall i (p p' : Processor St) macs muts,
  recoverRecords version records i p = (p', Ok (macs, muts)) ->
  db p' = db p /\ map mac_Value macs = map rr_Mac records /\
  Forall2 (fun mac m => m_IndexMAC m = mac_Index mac /\ m_ValueMAC m = mac_Value mac /\
                        m_Operation m = SET /\ m_PatchVersion m = version) macs muts.
Proof.
  induction records as [|r rest IH]; intros i p p' macs muts H; cbn [recoverRecords] in H.
  { injection H as <- <- <-. split_and!; [done|done|constructor]. }
  stm_inv H. apply appstate_proofs.getAppStateKey_db in E.
  destruct (unmarshal_index _) as [idx|]; [|done]. stm_inv H. destruct a0 as [macs' muts'].
  apply IH in E0 as (Hd & Hm & Hf). injection H as <- <- <-. split_and!.
  - by rewrite Hd.
  - cbn. by rewrite Hm.
  - by constructor.
Qed.

(** Recovery replaces a collection: a recovery that succeeds leaves the
    collection with exactly the recovered value MACs, under distinct indexes,
    and with the recovered version and hash; the mutations returned describe
    those MACs. *)
Theorem ProcessRecovery_stored r (p p' : Processor St) muts :
  ProcessRecovery r p = (p', Ok muts) ->
  exists macs,
    stored (db p') (r_CollectionName r) = insert_macs macs ∅ /\
    version_of (db p') (r_CollectionName r) = (r_Version r, r_CollectionLthash r) /\
    rows_below (db p') (r_CollectionName r) (r_Version r + 1) /\
    NoDup (map mac_Index macs) /\ map mac_Value macs = map rr_Mac (r_MutationRecords r) /\
    Forall2 (fun mac m => m_IndexMAC m = mac_Index mac /\ m_ValueMAC m = mac_Value mac /\
                          m_Operation m = SET /\ m_PatchVersion m = r_Version r) macs muts.
Proof.
  intros H. unfold ProcessRecovery in H. destruct (negb _); [done|].
  stm_inv H. destruct a as [macs muts']. apply recoverRecords_spec in E as (Hd & Hm & Hf).
  stm_inv H. destruct a. stm_inv H. destruct a. stm_inv H. destruct a. injection H as <- <-.
  apply appstate_proofs.store_op_inv in E as (s3 & E & ->).
  apply appstate_proofs.store_op_inv in E0 as (s4 & E0 & ->).
  apply appstate_proofs.store_op_inv in E1 as (s5 & E1 & ->). cbn [db] in *.
  apply store_delete_version in E as (H1 & H2 & _).
  apply store_put_version in E0 as (H3 & H4 & H5 & _).
  apply store_put_macs in E1 as (H6 & H7 & H8 & H9 & _); [|by apply H4, H2].
  exists macs. split_and!; [|by rewrite H9|done|done|done|done].
  by rewrite H6, H3, H1.
Qed.

End accepted.

End appstate_encode.
