(* ===== verification/AppStateWitness.v ===== *)
(** * App state: the theorems at concrete inputs

    Toy codecs that satisfy the laws of [AppStateProtoLaws], a store with one
    key, and a patch made by [EncodePatch] and applied by [DecodePatches]. *)

From S2P Require Import Prelude GoStrings Jid StateErr Cbc Crypto LTHash AppStateStore AppState.
From S2P Require Import AppStateProofs AppStateEncode.

#[local] Open Scope string_scope.
#[local] Open Scope list_scope.
#[local] Open Scope Z_scope.

Module appstate_witness.

Import lthash crypto appstate appstate_proofs appstate_encode.

(** ** A codec for lists of byte strings *)

Definition toy_item (b : bytes) : bytes := x02 :: flat_map (fun c => [x01; c]) b.
Definition toy_list (l : list bytes) : bytes := flat_map toy_item l.

Fixpoint toy_split (b : bytes) : bytes * list bytes :=
  match b with
  | x01 :: c :: b' => let '(cs, l) := toy_split b' in (c :: cs, l)
  | _ :: b' => let '(cs, l) := toy_split b' in ([], cs :: l)
  | [] => ([], [])
  end.

Definition toy_unlist (b : bytes) : list bytes := snd (toy_split b).

Lemma toy_unlist_list l : toy_unlist (toy_list l) = l.
Proof.
  unfold toy_unlist. enough (toy_split (toy_list l) = ([], l)) as -> by done.
  induction l as [|b l IH]; [done|]. cbn [toy_list flat_map]. unfold toy_item at 1.
  cbn [app toy_split]. fold (toy_list l).
  enough (forall b', toy_split (flat_map (fun c => [x01; c]) b' ++ toy_list l) = (b', l)) as -> by done.
  induction b' as [|c b' IHb]; [exact IH|]. cbn [flat_map app toy_split]. by rewrite IHb.
Qed.

#[local] Opaque toy_list toy_unlist.

(** ** The messages *)

Definition small (z : Z) : bool := (0 <=? z) && (z <? 256).

Definition toy_action (a : SyncActionData) : option bytes :=
  match a with
  | mkSAD i (mkSAV (Some t) (PinAction b)) v =>
      if small t && small v then Some (toy_list [i; [z2b t]; if b then [x01] else []; [z2b v]]) else None
  | _ => None
  end.

Definition toy_unaction (b : bytes) : option SyncActionData :=
  match toy_unlist b with
  | [i; [t]; p; [v]] =>
      Some (mkSAD i (mkSAV (Some (b2z t)) (PinAction (bool_decide (p <> [])))) (b2z v))
  | _ => None
  end.

Definition toy_mutation (m : SyncdMutation) : option (list bytes) :=
  match m with
  | mkMutation op (mkRecord i v (Some k)) => if small op then Some [[z2b op]; i; v; k] else None
  | _ => None
  end.

Fixpoint toy_mutations (l : list SyncdMutation) : option (list bytes) :=
  match l with
  | [] => Some []
  | m :: l' => a ← toy_mutation m; b ← toy_mutations l'; Some (a ++ b)
  end.

Fixpoint toy_unmutations (l : list bytes) : list SyncdMutation :=
  match l with
  | [op] :: i :: v :: k :: l' => mkMutation (b2z op) (mkRecord i v (Some k)) :: toy_unmutations l'
  | _ => []
  end.

Definition toy_patch (p : SyncdPatch) : option bytes :=
  match p with
  | mkPatch 0 muts s m (Some k) None => l ← toy_mutations muts; Some (toy_list (s :: m :: k :: l))
  | _ => None
  end.

Definition toy_unpatch (b : bytes) : option SyncdPatch :=
  match toy_unlist b with
  | s :: m :: k :: l => Some (mkPatch 0 (toy_unmutations l) s m (Some k) None)
  | _ => None
  end.

#[local] Instance toy_app : AppStateProto := {
  marshal_action := toy_action;
  unmarshal_action := toy_unaction;
  marshal_index l := toy_list (map str_bytes l);
  unmarshal_index b := Some (map bytes_str (toy_unlist b));
  marshal_patch := toy_patch;
  unmarshal_patch := toy_unpatch;
  unmarshal_snapshot b := None;
  unmarshal_mutations b := None
}.

Lemma small_byte z : small z = true -> b2z (z2b z) = z.
Proof. unfold small. intros H. apply b2z_z2b_small. lia. Qed.

Lemma toy_unmutations_mutations muts : forall l,
  toy_mutations muts = Some l -> toy_unmutations l = muts.
Proof.
  induction muts as [|[op [i v [k|]]] muts IH]; intros l H; [by injection H as <-| |done].
  cbn in H. destruct (small op) eqn:Hop; [|done]. cbn in H.
  destruct (toy_mutations muts) as [l'|]; [|done]. injection H as <-. cbn.
  by rewrite small_byte, (IH l').
Qed.

#[local] Instance toy_app_laws : AppStateProtoLaws toy_app.
Proof.
  split.
  - intros [i [[t|] []] v] b H; try done. cbn -[toy_list] in H.
    destruct (small t) eqn:Ht; [|done]. destruct (small v) eqn:Hv; [|done]. injection H as <-.
    cbn -[toy_list toy_unlist]. unfold toy_unaction. rewrite toy_unlist_list, !small_byte by done.
    by destruct pinned.
  - intros l _. cbn -[toy_list toy_unlist]. rewrite toy_unlist_list, map_map. f_equal.
    rewrite <- (map_id l) at 2. apply map_ext. apply bytes_str_bytes.
  - intros [v muts s m [k|] [e|]] b H; cbn -[toy_list] in H; try (by destruct v). destruct v; [|done..].
    destruct (toy_mutations muts) as [l|] eqn:Hl; [|done]. injection H as <-.
    cbn -[toy_list toy_unlist]. unfold toy_unpatch. rewrite toy_unlist_list.
    by rewrite (toy_unmutations_mutations _ _ Hl).
Qed.

#[local] Transparent toy_list toy_unlist.

#[local] Existing Instance toy_crypto.
#[local] Existing Instance toy_crypto_laws.

(** ** A run *)

Definition toy_tables : sqlstore.tables :=
  sqlstore.mkTables {[ [x6b] := mkSyncKey (replicate 32 x77) [] 0 ]} ∅ [].
Definition toy_proc : Processor sqlstore.tables := mkProc ∅ toy_tables.
Definition toy_state : HashState := mkHS 0 zero_hash.

Definition toy_info : PatchInfo :=
  mkPatchInfo (Some 7) WAPatchRegularLow
    [mkInfo ["pin_v1"; "1@s.whatsapp.net"] 5 (value (PinAction true));
     mkInfo ["pin_v1"; "2@s.whatsapp.net"] 5 (value (PinAction false))].

Definition toy_ivs (i : nat) : option bytes := Some (replicate 16 (z2b (Z.of_nat i))).

Definition toy_encoded : Processor sqlstore.tables * bytes :=
  match EncodePatch 9 toy_ivs [x6b] toy_state toy_info toy_proc with
  | (p, Ok b) => (p, b)
  | (p, _) => (p, [])
  end.

Lemma EncodePatch_accepted_witness :
  exists patch,
    unmarshal_patch (snd toy_encoded) = Some patch /\
    (NoDup (patch_indexes patch) ->
     exists hs' out,
       let sent := with_version (u64 (0 + 1)) patch in
       validatePatch WAPatchRegularLow sent toy_state true (fst toy_encoded)
         = (fst toy_encoded, Ok hs') /\
       hs_Version hs' = u64 (0 + 1) /\
       decodeMutations (p_Mutations sent) 0 (mkOut [] [] []) true (hs_Version hs') ∅ (fst toy_encoded)
         = (fst toy_encoded, Ok out) /\
       Forall2 (sent_as 7 [x6b] (hs_Version hs')) (pi_Mutations toy_info) (Mutations out)).
Proof.
  apply (EncodePatch_accepted 9 toy_ivs [x6b] toy_state toy_info toy_proc (fst toy_encoded) (snd toy_encoded)).
  - vm_compute. reflexivity.
  - repeat constructor.
Defined.

Definition toy_received : SyncdPatch :=
  match unmarshal_patch (snd toy_encoded) with
  | Some patch => with_version 1 patch
  | None => mkPatch 0 [] [] [] None None
  end.

Definition toy_patches : PatchList := mkPatchList WAPatchRegularLow false [toy_received] None.

Definition toy_after : Processor sqlstore.tables * (list Mutation * HashState) :=
  match DecodePatches toy_patches toy_state true toy_proc with
  | (p, Ok r) => (p, r)
  | (p, _) => (p, ([], toy_state))
  end.

Lemma DecodePatches_synced_witness :
  synced WAPatchRegularLow (fst toy_after) (snd (snd toy_after)) /\
  (version_of (db toy_proc) WAPatchRegularLow = (0, zero_hash) \/ is_Some (Snapshot toy_patches) ->
   version_of (db (fst toy_after)) WAPatchRegularLow
   = (hs_Version (snd (snd toy_after)), hs_Hash (snd (snd toy_after)))) /\
  stored (db (fst toy_after)) WAPatchRegularLow
    = apply_mutations (all_mutations toy_patches) (stored (db toy_proc) WAPatchRegularLow) /\
  (forall n', n' <> WAPatchRegularLow -> stored (db (fst toy_after)) n' = stored (db toy_proc) n').
Proof.
  apply (DecodePatches_synced toy_patches true toy_state toy_proc (fst toy_after)
    (fst (snd toy_after)) (snd (snd toy_after))).
  - vm_compute. reflexivity.
  - unfold ready, synced. cbn [Snapshot toy_patches Name Patches]. split_and!.
    + vm_compute. reflexivity.
    + exact (List.Forall_nil _).
    + unfold increasing. split; [|exact I]. vm_compute. reflexivity.
  - apply (bool_decide_unpack _). vm_compute. exact I.
Defined.

Lemma applyPatch_verified_witness :
  (exists keys, key_held toy_proc (p_KeyID toy_received) = Some keys /\
     hmac_sha256 (k_SnapshotMAC keys)
       (hs_Hash (snd (snd toy_after)) ++ uint64ToBytes (p_Version toy_received) ++ str_bytes WAPatchRegularLow)
     = p_SnapshotMAC toy_received /\
     generatePatchMAC toy_received WAPatchRegularLow (k_PatchMAC keys) (p_Version toy_received)
     = Ok (p_PatchMAC toy_received)) /\
  (exists new, fst (snd toy_after) = [] ++ new /\ Forall2 (verified toy_proc) (p_Mutations toy_received) new) /\
  (cache_ok toy_proc -> cache_ok (fst toy_after) /\ forall keyID, key_held toy_proc keyID = stored_key (db toy_proc) (key_bytes keyID)).
Proof.
  apply (applyPatch_verified WAPatchRegularLow toy_received [] toy_state toy_proc (fst toy_after)
    (fst (snd toy_after)) (snd (snd toy_after))).
  vm_compute. reflexivity.
Defined.

Lemma updateHash_correct_witness :
  toy_proc = toy_proc /\
  mkHS 3 (map_hash (apply_mutations (p_Mutations toy_received) (stored (db toy_proc) WAPatchRegularLow)))
  = mkHS 3 (map_hash (apply_mutations (p_Mutations toy_received) (stored (db toy_proc) WAPatchRegularLow))).
Proof.
  apply (updateHash_correct WAPatchRegularLow (p_Mutations toy_received) 3 toy_proc toy_proc _ []).
  vm_compute. reflexivity.
Defined.

Definition dup_out : patchOutput :=
  mkOut [] [mkMAC (replicate 32 x01) (replicate 32 x02); mkMAC (replicate 32 x01) (replicate 32 x03)] [].

Lemma storeMACs_duplicate_witness :
  exists p',
    storeMACs WAPatchRegular (mkHS 4 zero_hash) dup_out toy_proc = (p', Err (ErrStore ErrConstraint)) /\
    version_of (db p') WAPatchRegular = (4, zero_hash) /\
    stored (db p') WAPatchRegular = delete_macs [] (stored (db toy_proc) WAPatchRegular).
Proof.
  apply (storeMACs_duplicate WAPatchRegular (mkHS 4 zero_hash) dup_out toy_proc); [reflexivity|].
  cbn. intros H%NoDup_cons_1_1. apply H. by left.
Defined.

Definition toy_recovery : SnapshotRecovery :=
  mkRecovery WAPatchRegular 6 zero_hash
    [mkRR [x6b] (mkSAD (toy_list [str_bytes "mute"]) (mkSAV None (PinAction true)) 2) (replicate 32 x05)].

Definition toy_recovered : Processor sqlstore.tables * list Mutation :=
  match ProcessRecovery toy_recovery toy_proc with
  | (p, Ok r) => (p, r)
  | (p, _) => (p, [])
  end.

Lemma ProcessRecovery_stored_witness :
  exists macs,
    stored (db (fst toy_recovered)) WAPatchRegular = insert_macs macs ∅ /\
    version_of (db (fst toy_recovered)) WAPatchRegular = (6, zero_hash) /\
    rows_below (db (fst toy_recovered)) WAPatchRegular (6 + 1) /\
    NoDup (map mac_Index macs) /\ map mac_Value macs = map rr_Mac (r_MutationRecords toy_recovery) /\
    Forall2 (fun mac m => m_IndexMAC m = mac_Index mac /\ m_ValueMAC m = mac_Value mac /\
                          m_Operation m = SET /\ m_PatchVersion m = 6) macs (snd toy_recovered).
Proof.
  apply (ProcessRecovery_stored toy_recovery toy_proc (fst toy_recovered) (snd toy_recovered)).
  vm_compute. reflexivity.
Defined.

End appstate_witness.
