(* ===== verification/Frame.v ===== *)
(** * socket/framesocket.go: length-prefixed frames over a websocket

    The connection part ([Connect], [Close]) is a state machine whose visible
    effects are a list of events; [SendFrame] produces the bytes written to the
    websocket; [processData] is the incremental reassembly of incoming websocket
    messages into frames, whose loop runs on a fuel bound proved sufficient.
    Locking and the context machinery are left out: each operation runs under
    the socket's lock. *)

From S2P Require Import Prelude GoStrings Token.

#[local] Open Scope Z_scope.

Module socket.

Definition FrameMaxSize := Z.shiftl 1 24.
Definition FrameLengthSize := 3.
Definition WAMagicValue := 6.
Definition WAConnHeader : bytes := [x57; x41; z2b WAMagicValue; z2b token.DictVersion].

Inductive frame_error :=
  | ErrFrameTooLarge
  | ErrSocketClosed
  | ErrSocketAlreadyOpen
  | ErrDialFailed (status : option Z).

(** A [websocket.Conn] is an opaque handle. *)
Record FrameSocket := mkFS {
  conn : option Z;
  cancel : bool;                 (* the cancel function is not nil *)
  closed : bool;
  hasOnDisconnect : bool;
  Header : option bytes;
  incomingLength : Z;
  receivedLength : Z;
  incoming : option bytes;       (* None: nil *)
  partialHeader : option bytes
}.

Definition NewFrameSocket : FrameSocket :=
  mkFS None false false false (Some WAConnHeader) 0 0 None None.

Definition set_conn (c : option Z) (ca cl : bool) (fs : FrameSocket) : FrameSocket :=
  mkFS c ca cl (hasOnDisconnect fs) (Header fs) (incomingLength fs) (receivedLength fs)
    (incoming fs) (partialHeader fs).

Definition set_header (h : option bytes) (fs : FrameSocket) : FrameSocket :=
  mkFS (conn fs) (cancel fs) (closed fs) (hasOnDisconnect fs) h (incomingLength fs)
    (receivedLength fs) (incoming fs) (partialHeader fs).

Definition set_incoming (l r : Z) (i : option bytes) (p : option bytes) (fs : FrameSocket) :
    FrameSocket :=
  mkFS (conn fs) (cancel fs) (closed fs) (hasOnDisconnect fs) (Header fs) l r i p.

(** ** Opening and closing *)

Inductive event :=
  | EDialed (c : Z)
  | EClose (c code : Z)
  | ECloseNow (c : Z)
  | ECancel
  | EOnDisconnect (remote : bool).

Definition IsConnected (fs : FrameSocket) : bool := bool_decide (is_Some (conn fs)).

(** [Close(code)]; calling a nil cancel function would panic. *)
Definition Close (code : Z) (fs : FrameSocket) : outcome frame_error (FrameSocket * list event) :=
  match conn fs with
  | None => Ok (fs, [])
  | Some c =>
      let closing := if 0 <? code then EClose c code else ECloseNow c in
      if negb (cancel fs) then Panic
      else
        Ok (set_conn None false true fs,
            closing :: ECancel
              :: (if hasOnDisconnect fs then [EOnDisconnect (code =? 0)] else []))
  end.

(** [Connect]: [dial] is the outcome of [websocket.Dial]. *)
Definition Connect (dial : Z + option Z) (fs : FrameSocket) :
    FrameSocket * (outcome frame_error unit) * list event :=
  match conn fs with
  | Some _ => (fs, Err ErrSocketAlreadyOpen, [])
  | None =>
      match dial with
      | inr status => (set_conn None true (closed fs) fs, Err (ErrDialFailed status), [ECancel])
      | inl c => (set_conn (Some c) true (closed fs) fs, Ok tt, [EDialed c])
      end
  end.

(** ** Sending *)

(** The three length bytes. *)
Definition frame_length (n : Z) : bytes :=
  [z2b (Z.shiftr n 16); z2b (Z.shiftr n 8); z2b n].

(** [SendFrame(data)]: the bytes handed to [conn.Write]; the connection header
    goes out once. *)
Definition SendFrame (data : bytes) (fs : FrameSocket) :
    outcome frame_error (bytes * FrameSocket) :=
  match conn fs with
  | None => Err ErrSocketClosed
  | Some _ =>
      let dataLength := blen data in
      if FrameMaxSize <=? dataLength then Err ErrFrameTooLarge
      else
        let header := match Header fs with Some h => h | None => [] end in
        Ok (header ++ frame_length dataLength ++ data, set_header None fs)
  end.

(** ** Receiving *)

(** [copy(dst[off:], src)]: panics when [off] is past the end. *)
Definition copy_at (dst : bytes) (off : Z) (src : bytes) : outcome frame_error bytes :=
  if (off <? 0) || (blen dst <? off) then Panic
  else
    let n := Z.min (blen dst - off) (blen src) in
    Ok (ztake off dst ++ ztake n src ++ zdrop (off + n) dst).

(** [frameComplete] resets the reassembly state and sends the frame on. *)
Definition frameComplete (fs : FrameSocket) : FrameSocket * bytes :=
  (set_incoming 0 0 None None fs, match incoming fs with Some d => d | None => [] end).

(** One iteration of [processData]'s loop on a non-empty [msg]: the new state,
    what is left of [msg], and the frame completed, if any. *)
Definition processStep (fs : FrameSocket) (msg : bytes) :
    outcome frame_error (FrameSocket * bytes * option bytes) :=
  let '(msg, fs) :=
    match partialHeader fs with
    | Some p => (p ++ msg, set_incoming (incomingLength fs) (receivedLength fs) (incoming fs) None fs)
    | None => (msg, fs)
    end in
  match incoming fs with
  | None =>
      match msg with
      | m0 :: m1 :: m2 :: rest =>
          let length := Z.shiftl (b2z m0) 16 + Z.shiftl (b2z m1) 8 + b2z m2 in
          let received := blen msg in
          if length <=? blen rest then
            let fs := set_incoming length received (Some (ztake length rest)) None fs in
            let '(fs, frame) := frameComplete fs in
            Ok (fs, zdrop length rest, Some frame)
          else
            inc ← copy_at (replicate (Z.to_nat length) x00) 0 rest;
            Ok (set_incoming length received (Some inc) None fs, [], None)
      | _ =>
          Ok (set_incoming (incomingLength fs) (receivedLength fs) None (Some msg) fs, [], None)
      end
  | Some inc =>
      if incomingLength fs <=? receivedLength fs + blen msg then
        let k := incomingLength fs - receivedLength fs in
        if k <? 0 then Panic      (* msg[:k] *)
        else
          inc' ← copy_at inc (receivedLength fs) (ztake k msg);
          let '(fs, frame) := frameComplete (set_incoming (incomingLength fs) (receivedLength fs)
                                               (Some inc') (partialHeader fs) fs) in
          Ok (fs, zdrop k msg, Some frame)
      else
        inc' ← copy_at inc (receivedLength fs) msg;
        Ok (set_incoming (incomingLength fs) (receivedLength fs + blen msg) (Some inc')
              (partialHeader fs) fs, [], None)
  end.

Fixpoint processData_loop (fuel : nat) (fs : FrameSocket) (msg : bytes) :
    outcome frame_error (FrameSocket * list bytes) :=
  match fuel with
  | O => NoFuel
  | S fuel' =>
      match msg with
      | [] => Ok (fs, [])
      | _ =>
          '(fs', msg', frame) ← processStep fs msg;
          '(fs'', frames) ← processData_loop fuel' fs' msg';
          Ok (fs'', match frame with Some f => f :: frames | None => frames end)
      end
  end.

(** Twice the bytes at hand, and one step to leave a frame whose last byte had
    already been counted. *)
Definition process_fuel (fs : FrameSocket) (msg : bytes) : nat :=
  S (S (2 * (length msg + match partialHeader fs with Some p => length p | None => 0 end))).

Definition processData (fs : FrameSocket) (msg : bytes) :
    outcome frame_error (FrameSocket * list bytes) :=
  processData_loop (process_fuel fs msg) fs msg.

(** Several websocket messages in a row, as [readPump] hands them on. *)
Fixpoint processAll (fs : FrameSocket) (msgs : list bytes) :
    outcome frame_error (FrameSocket * list bytes) :=
  match msgs with
  | [] => Ok (fs, [])
  | m :: msgs' =>
      '(fs', frames) ← processData fs m;
      '(fs'', frames') ← processAll fs' msgs';
      Ok (fs'', frames ++ frames')
  end.

(** ** Termination *)

Definition process_measure (fs : FrameSocket) (msg : bytes) : nat :=
  (2 * (length msg + match partialHeader fs with Some p => length p | None => 0 end)
   + match incoming fs with Some _ => 1 | None => 0 end)%nat.

Lemma length_zdrop_le {A} k (l : list A) : (length (zdrop k l) <= length l)%nat.
Proof. unfold zdrop. rewrite length_drop. lia. Qed.

Lemma processStep_shrinks fs msg :
  msg <> [] ->
  match processStep fs msg with
  | Ok (fs', msg', _) => msg' = [] \/ (process_measure fs' msg' < process_measure fs msg)%nat
  | NoFuel => False
  | _ => True
  end.
Proof.
  intros Hne. unfold processStep, process_measure.
  destruct fs as [c ca cl od h il rl inc ph]; cbn [partialHeader incoming incomingLength receivedLength set_incoming].
  set (full := match ph with Some p => p ++ msg | None => msg end).
  assert (Hfull : (length full = length msg + match ph with Some p => length p | None => 0 end)%nat).
  { subst full. destruct ph; [rewrite length_app|]; lia. }
  assert (Hfne : (0 < length full)%nat) by (destruct msg; [done|]; rewrite Hfull; simpl; lia).
  rewrite <- Hfull.
  replace (match ph with
    | Some p => (p ++ msg, set_incoming il rl inc None (mkFS c ca cl od h il rl inc ph))
    | None => (msg, mkFS c ca cl od h il rl inc ph) end)
    with (full, mkFS c ca cl od h il rl inc None) by (by subst full; destruct ph).
  clearbody full. cbn [incoming incomingLength receivedLength partialHeader].
  destruct inc as [inc|].
  - destruct (_ <=? _).
    + destruct (_ <? 0); [done|]. unfold copy_at. destruct (_ || _); [done|]. cbn.
      right. pose proof (length_zdrop_le (il - rl) full). lia.
    + unfold copy_at. destruct (_ || _); [done|]. cbn. by left.
  - destruct full as [|m0 [|m1 [|m2 rest]]]; [by left..|].
    destruct (_ <=? _).
    + cbn. right. set (k := Z.shiftl (b2z m0) 16 + _ + _).
      pose proof (length_zdrop_le k rest). lia.
    + unfold copy_at. destruct (_ || _); [done|]. cbn. by left.
Qed.

Lemma processData_loop_fuel fuel : forall fs msg,
  (process_measure fs msg < fuel)%nat -> processData_loop fuel fs msg <> NoFuel.
Proof.
  induction fuel as [|fuel IH]; intros fs msg Hf; [lia|].
  cbn [processData_loop]. destruct msg as [|m msg]; [done|].
  pose proof (processStep_shrinks fs (m :: msg) ltac:(done)) as Hs.
  destruct (processStep fs (m :: msg)) as [[[fs' msg'] fr]| | |]; simpl; try done.
  assert (Hrec : processData_loop fuel fs' msg' <> NoFuel).
  { destruct Hs as [-> | Hs]; [|apply IH; lia].
    destruct fuel; [|done]. unfold process_measure in Hf. simpl in Hf. lia. }
  by destruct (processData_loop fuel fs' msg') as [[]| | |].
Qed.

(** The reassembly loop terminates on every state and every message. *)
Lemma processData_terminates fs msg : processData fs msg <> NoFuel.
Proof.
  apply processData_loop_fuel. unfold process_measure, process_fuel.
  destruct (incoming fs); lia.
Qed.

Lemma processData_loop_more fuel fuel' fs msg r :
  (fuel <= fuel')%nat -> processData_loop fuel fs msg = Ok r -> processData_loop fuel' fs msg = Ok r.
Proof.
  revert fuel' fs msg r. induction fuel as [|fuel IH]; intros fuel' fs msg r Hle H; [done|].
  destruct fuel' as [|fuel']; [lia|]. cbn [processData_loop] in *.
  destruct msg as [|m msg]; [done|].
  destruct (processStep fs (m :: msg)) as [[[fs' msg'] fr]| | |]; simpl in *; try done.
  destruct (processData_loop fuel fs' msg') as [[fs'' frs]| | |] eqn:E; simpl in *; try done.
  by rewrite (IH fuel' fs' msg' _ ltac:(lia) E).
Qed.

(** ** Whole frames *)

(** The wire form of a frame, and the state between frames with [p] (fewer than
    three bytes) of the next header already received. *)
Definition encode (d : bytes) : bytes := frame_length (blen d) ++ d.

Definition opt_bytes (p : bytes) : option bytes := match p with [] => None | _ => Some p end.
Definition idle (p : bytes) (fs : FrameSocket) : FrameSocket := set_incoming 0 0 None (opt_bytes p) fs.

Lemma idle_new : NewFrameSocket = idle [] NewFrameSocket.
Proof. reflexivity. Qed.

Lemma frame_length_value n :
  0 <= n < FrameMaxSize ->
  exists a b c, frame_length n = [a; b; c] /\
    Z.shiftl (b2z a) 16 + Z.shiftl (b2z b) 8 + b2z c = n.
Proof.
  unfold FrameMaxSize. rewrite Z.shiftl_1_l. intros Hn. unfold frame_length.
  do 3 eexists. split; [reflexivity|]. rewrite !b2z_z2b.
  rewrite !Z.shiftl_mul_pow2, !Z.shiftr_div_pow2 by lia.
  change (2 ^ 16) with 65536. change (2 ^ 8) with 256. change (2 ^ 24) with 16777216 in Hn.
  Z.div_mod_to_equations. lia.
Qed.

Lemma step_header p c fs :
  processStep (idle p fs) c = processStep (set_incoming 0 0 None None fs) (p ++ c).
Proof. by destruct p. Qed.

Lemma step_partial p c fs :
  blen (p ++ c) < 3 -> c <> [] ->
  processStep (idle p fs) c = Ok (idle (p ++ c) fs, [], None).
Proof.
  intros Hl Hc. rewrite step_header.
  destruct (p ++ c) as [|m0 [|m1 [|m2 rest]]] eqn:E; [|reflexivity|reflexivity|].
  - apply app_eq_nil in E as [_ ->]. done.
  - rewrite !blen_cons in Hl. pose proof (blen_nonneg rest). lia.
Qed.

Lemma step_frame p c d rest fs :
  blen d < FrameMaxSize -> p ++ c = encode d ++ rest ->
  processStep (idle p fs) c = Ok (idle [] fs, rest, Some d).
Proof.
  intros Hd Hc. rewrite step_header, Hc. unfold encode. pose proof (blen_nonneg d).
  destruct (frame_length_value (blen d) ltac:(lia)) as (x & y & z & -> & Hv).
  rewrite <- app_assoc. cbn [app processStep partialHeader set_incoming incoming]. rewrite Hv.
  rewrite blen_app. pose proof (blen_nonneg rest).
  rewrite (proj2 (Z.leb_le (blen d) _)) by lia. by rewrite ztake_app, zdrop_app.
Qed.

Lemma blen_encode d : blen (encode d) = 3 + blen d.
Proof. unfold encode. by rewrite blen_app. Qed.

(** One websocket message that ends between frames or inside a header. *)
Lemma processData_frames fs frames : forall fuel p c p',
  Forall (fun d => blen d < FrameMaxSize) frames ->
  (length frames + 1 < fuel)%nat -> blen p < 3 -> blen p' < 3 ->
  p ++ c = concat (map encode frames) ++ p' ->
  processData_loop fuel (idle p fs) c = Ok (idle p' fs, frames).
Proof.
  induction frames as [|d frames IH]; intros fuel p c p' Hall Hf Hp Hp' Hc.
  - destruct fuel as [|[|fuel]]; [lia..|]. simpl in Hc. cbn [processData_loop].
    destruct c as [|x c].
    { rewrite app_nil_r in Hc. by subst. }
    rewrite step_partial by (done || by rewrite Hc). rewrite bind_Ok. by rewrite Hc.
  - inversion Hall as [|? ? Hd Hall']; subst.
    destruct fuel as [|fuel]; [lia|]. cbn [map concat] in Hc. rewrite <- app_assoc in Hc.
    cbn [processData_loop]. destruct c as [|x c].
    { exfalso. apply (f_equal blen) in Hc. rewrite app_nil_r, !blen_app, blen_encode in Hc.
      pose proof (blen_nonneg d). pose proof (blen_nonneg (concat (map encode frames))).
      pose proof (blen_nonneg p'). lia. }
    rewrite (step_frame _ _ _ _ _ Hd Hc), bind_Ok.
    rewrite (IH fuel [] _ p'); [by rewrite bind_Ok|done|simpl in Hf; lia|done|done|done].
Qed.

(** How a stream of frames may be cut into websocket messages: every message
    ends between two frames or inside a three-byte header. *)
Inductive cut : bytes -> list bytes -> list bytes -> bytes -> Prop :=
  | cut_nil p : cut p [] [] p
  | cut_cons p c cs frames frames' p' p'' :
      p ++ c = concat (map encode frames) ++ p' -> blen p' < 3 ->
      cut p' cs frames' p'' -> cut p (c :: cs) (frames ++ frames') p''.

Lemma length_concat_encode frames : (3 * length frames <= length (concat (map encode frames)))%nat.
Proof.
  induction frames as [|d frames IH]; [done|]. cbn [map concat]. rewrite length_app.
  pose proof (blen_encode d) as H. unfold blen in H. simpl length. lia.
Qed.

Lemma processAll_cut fs p msgs frames p' :
  cut p msgs frames p' -> blen p < 3 -> Forall (fun d => blen d < FrameMaxSize) frames ->
  processAll (idle p fs) msgs = Ok (idle p' fs, frames).
Proof.
  induction 1 as [p|p c cs frs frs' p' p'' Hc Hp' _ IH]; intros Hp Hall; [done|].
  apply Forall_app in Hall as [Hall1 Hall2]. cbn [processAll]. unfold processData.
  rewrite (processData_frames fs frs _ p c p' Hall1); [|..].
  - rewrite bind_Ok, IH, bind_Ok by done. done.
  - unfold process_fuel. pose proof (length_concat_encode frs).
    apply (f_equal length) in Hc. rewrite !length_app in Hc.
    replace (match partialHeader (idle p fs) with Some p => length p | None => 0 end)%nat
      with (length p) by (by destruct p).
    lia.
  - done.
  - done.
  - done.
Qed.

(** Sending several frames one after the other. *)
Fixpoint sendAll (fs : FrameSocket) (ds : list bytes) : outcome frame_error (list bytes * FrameSocket) :=
  match ds with
  | [] => Ok ([], fs)
  | d :: ds' =>
      '(b, fs') ← SendFrame d fs;
      '(bs, fs'') ← sendAll fs' ds';
      Ok (b :: bs, fs'')
  end.

Lemma sendAll_encodes ds : forall fs bs fs',
  Header fs = None -> sendAll fs ds = Ok (bs, fs') ->
  bs = map encode ds /\ Forall (fun d => blen d < FrameMaxSize) ds.
Proof.
  induction ds as [|d ds IH]; intros fs bs fs' Hh H; cbn [sendAll] in H.
  { injection H as <- _. done. }
  apply bind_inv in H as ([b fs1] & H1 & H). apply bind_inv in H as ([bs1 fs2] & H2 & H).
  injection H as <- <-. unfold SendFrame in H1. destruct (conn fs); [|done].
  destruct (Z.leb_spec FrameMaxSize (blen d)); [done|]. rewrite Hh in H1. injection H1 as <- <-.
  destruct (IH (set_header None fs) _ _ eq_refl H2) as [-> Hall]. split; [done|]. by constructor.
Qed.

(** Frames survive the transport: what [SendFrame] writes for a sequence of
    frames (the connection header having gone out), cut into websocket messages
    anywhere but inside a frame's payload, is reassembled by [processData] into
    the same frames in the same order, and the receiver ends between frames. *)
Theorem frames_reassembled out out' ds sent fs msgs :
  Header out = None -> sendAll out ds = Ok (sent, out') ->
  cut [] msgs ds [] -> processAll (idle [] fs) msgs = Ok (idle [] fs, ds).
Proof.
  intros Hh Hs Hcut. destruct (sendAll_encodes _ _ _ _ Hh Hs) as [_ Hall].
  by apply processAll_cut.
Qed.

(** What the cut relation allows: the messages together are the frames' bytes. *)
Lemma cut_concat p msgs frames p' :
  cut p msgs frames p' -> p ++ concat msgs = concat (map encode frames) ++ p'.
Proof.
  induction 1 as [p|p c cs frs frs' p' p'' Hc Hp' _ IH]; [by rewrite app_nil_r|].
  cbn [concat]. rewrite app_assoc, Hc, <- app_assoc, IH, map_app, concat_app. by rewrite app_assoc.
Qed.

Lemma cut_whole ds : cut [] (map encode ds) ds [].
Proof.
  induction ds as [|d ds IH]; [constructor|]. cbn [map].
  apply (cut_cons [] (encode d) (map encode ds) [d] ds []); [|done|done].
  cbn [map concat app]. by rewrite !app_nil_r.
Qed.

Definition connected_socket : FrameSocket := mkFS (Some 1) true false true None 0 0 None None.

Lemma frames_reassembled_witness :
  processAll (idle [] NewFrameSocket) [[x00]; [x00; x02; x0a; x0b; x00; x00]; [x00]]
  = Ok (idle [] NewFrameSocket, [[x0a; x0b]; []]).
Proof.
  apply (frames_reassembled connected_socket connected_socket [[x0a; x0b]; []]
    (map encode [[x0a; x0b]; []])); [reflexivity|reflexivity|].
  apply (cut_cons [] [x00] _ [] _ [x00]); [reflexivity|reflexivity|].
  apply (cut_cons [x00] _ _ [[x0a; x0b]] [[]] [x00; x00]); [reflexivity|reflexivity|].
  apply (cut_cons [x00; x00] [x00] [] [[]] [] []); [reflexivity|reflexivity|]. constructor.
Defined.

(** ** A frame whose payload is split *)

(** A frame cut inside its payload is not reassembled: [receivedLength] has
    counted the three header bytes too, so when the rest [b2] arrives the copy
    starts three bytes late. With fewer than three bytes in [b2] the slice
    bound is negative and the read pump panics; otherwise the frame delivered
    has three zero bytes in the middle, and the last three bytes of [b2] are
    left to be taken for the next header. *)
Theorem split_payload_corrupts fs b1 b2 :
  b2 <> [] -> blen (b1 ++ b2) < FrameMaxSize ->
  exists st,
    processData (idle [] fs) (frame_length (blen (b1 ++ b2)) ++ b1) = Ok (st, []) /\
    (blen b2 < 3 -> processData st b2 = Panic) /\
    (3 <= blen b2 ->
       processStep st b2
       = Ok (idle [] fs, zdrop (blen b2 - 3) b2,
             Some (b1 ++ [x00; x00; x00] ++ ztake (blen b2 - 3) b2))).
Proof.
  intros Hb2 Hlen. set (L := blen (b1 ++ b2)) in *.
  pose proof (blen_nonneg b1). pose proof (blen_nonneg b2).
  assert (HL : L = blen b1 + blen b2) by apply blen_app.
  assert (Hb2pos : 0 < blen b2).
  { destruct b2; [done|]. rewrite blen_cons. pose proof (blen_nonneg b2). lia. }
  destruct (frame_length_value L ltac:(lia)) as (x & y & z & Hfl & Hv).
  set (inc := b1 ++ zdrop (blen b1) (replicate (Z.to_nat L) x00)).
  assert (Hrep : blen (replicate (Z.to_nat L) x00) = L).
  { unfold blen. rewrite length_replicate. lia. }
  assert (Hinc : blen inc = L).
  { subst inc. rewrite blen_app, length_zdrop by lia. lia. }
  set (st := set_incoming L (3 + blen b1) (Some inc) None fs).
  assert (Hcopy : copy_at (replicate (Z.to_nat L) x00) 0 b1 = Ok inc).
  { unfold copy_at. rewrite Hrep, (proj2 (Z.ltb_ge L 0)) by lia. cbn [orb Z.ltb Z.compare].
    replace (Z.min (L - 0) (blen b1)) with (blen b1) by lia. rewrite Z.add_0_l.
    rewrite ztake_all. reflexivity. }
  exists st. split_and!.
  - unfold processData, process_fuel. rewrite Hfl. cbn [app processData_loop].
    cbn [processStep partialHeader idle opt_bytes set_incoming incoming]. rewrite Hv.
    rewrite (proj2 (Z.leb_gt L (blen b1))) by lia. rewrite Hcopy, !bind_Ok.
    rewrite !blen_cons. replace (1 + (1 + (1 + blen b1))) with (3 + blen b1) by lia.
    reflexivity.
  - intros H3. unfold processData, process_fuel. destruct b2 as [|w b2]; [done|].
    cbn [processData_loop]. set (b2' := w :: b2) in *.
    unfold processStep; cbn [partialHeader st set_incoming incoming incomingLength receivedLength].
    rewrite (proj2 (Z.leb_le L _)) by lia. rewrite (proj2 (Z.ltb_lt (L - (3 + blen b1)) 0)) by lia.
    reflexivity.
  - intros H3.
    unfold processStep; cbn [partialHeader st set_incoming incoming incomingLength receivedLength].
    rewrite (proj2 (Z.leb_le L _)) by lia. rewrite (proj2 (Z.ltb_ge (L - (3 + blen b1)) 0)) by lia.
    replace (L - (3 + blen b1)) with (blen b2 - 3) by lia.
    unfold copy_at. rewrite Hinc, (proj2 (Z.ltb_ge (3 + blen b1) 0)), (proj2 (Z.ltb_ge L _)) by lia.
    cbn [orb]. rewrite length_ztake by lia.
    replace (Z.min (L - (3 + blen b1)) (blen b2 - 3)) with (blen b2 - 3) by lia.
    rewrite bind_Ok. cbn [frameComplete set_incoming incoming]. unfold idle. cbn [opt_bytes].
    match goal with |- Ok (_, _, Some ?x) = Ok (_, _, Some ?y) => enough (x = y) as -> by reflexivity end.
    assert (Hz : ztake (3 + blen b1) inc = b1 ++ [x00; x00; x00]).
    { subst inc. replace (3 + blen b1) with (blen (b1 ++ [x00; x00; x00])) by (rewrite blen_app; change (blen [x00; x00; x00]) with 3; lia).
      replace (zdrop (blen b1) (replicate (Z.to_nat L) x00))
        with ([x00; x00; x00] ++ replicate (Z.to_nat (blen b2 - 3)) x00).
      { rewrite app_assoc. apply ztake_app. }
      unfold zdrop. rewrite drop_replicate.
      replace (Z.to_nat L - Z.to_nat (blen b1))%nat with (3 + Z.to_nat (blen b2 - 3))%nat by lia.
      by rewrite replicate_add. }
    rewrite Hz, <- app_assoc. do 2 f_equal.
    replace (3 + blen b1 + (blen b2 - 3)) with (blen inc) by lia.
    rewrite zdrop_all.
    rewrite app_nil_r. unfold ztake. rewrite take_take. f_equal. lia.
Qed.

Lemma split_payload_corrupts_witness :
  exists st,
    processData (idle [] NewFrameSocket) (frame_length 5 ++ [x0a]) = Ok (st, []) /\
    (4 < 3 -> processData st [x0b; x0c; x0d; x0e] = Panic) /\
    (3 <= 4 ->
       processStep st [x0b; x0c; x0d; x0e]
       = Ok (idle [] NewFrameSocket, [x0c; x0d; x0e],
             Some ([x0a] ++ [x00; x00; x00] ++ [x0b]))).
Proof.
  apply (split_payload_corrupts NewFrameSocket [x0a] [x0b; x0c; x0d; x0e]); [discriminate|reflexivity].
Defined.

(** ** The connection *)

Definition conn_inv (fs : FrameSocket) : Prop := is_Some (conn fs) -> cancel fs = true.

(** Any sequence of [Close] calls on a connected socket. *)
Fixpoint closeAll (codes : list Z) (fs : FrameSocket) :
    outcome frame_error (FrameSocket * list event) :=
  match codes with
  | [] => Ok (fs, [])
  | code :: codes' =>
      '(fs', es) ← Close code fs;
      '(fs'', es') ← closeAll codes' fs';
      Ok (fs'', es ++ es')
  end.

Lemma closeAll_closed codes : forall fs, conn fs = None -> closeAll codes fs = Ok (fs, []).
Proof.
  induction codes as [|code codes IH]; intros fs H; [done|]. cbn [closeAll].
  unfold Close. rewrite H, bind_Ok, IH by done. done.
Qed.

(** A connection is torn down once: whatever the sequence of [Close] calls
    after a successful [Connect] (the read pump's own and the user's), the
    websocket is closed, the context cancelled and [OnDisconnect] run exactly
    once, by the first of them, and no call panics on the nil cancel function. *)
Theorem close_once c fs fs' code codes :
  Connect (inl c) fs = (fs', Ok tt, [EDialed c]) ->
  closeAll (code :: codes) fs' =
  Ok (set_conn None false true fs',
      (if 0 <? code then EClose c code else ECloseNow c) :: ECancel
        :: (if hasOnDisconnect fs then [EOnDisconnect (code =? 0)] else [])).
Proof.
  unfold Connect. destruct (conn fs); [done|]. intros [= <-].
  cbn [closeAll]. unfold Close at 1. cbn [conn set_conn cancel negb hasOnDisconnect].
  rewrite bind_Ok, closeAll_closed, bind_Ok, app_nil_r by done. reflexivity.
Qed.

Lemma close_once_witness :
  closeAll [0; 1000] (set_conn (Some 7) true false connected_socket) =
  Ok (set_conn None false true (set_conn (Some 7) true false connected_socket),
      [ECloseNow 7; ECancel; EOnDisconnect true]).
Proof.
  apply (close_once 7 (set_conn None false false connected_socket) _ 0 [1000]). reflexivity.
Defined.

End socket.
