(* ===== verification/Noise.v ===== *)
(** * socket/noisesocket.go, socket/noisehandshake.go and handshake.go

    The Noise XX handshake state, the client's side of the handshake with the
    server's certificate chain, and the encrypted socket that follows it. The
    protobuf codecs are the operations of the class [HandshakeProto]. *)

From S2P Require Import Prelude GoStrings Token Crypto Frame.

#[local] Open Scope Z_scope.

(** ** The handshake's protobuf messages *)

Record ServerHello := mkSH { sh_Ephemeral : option bytes; sh_Static : option bytes; sh_Payload : option bytes }.
Record ClientFinish := mkCF { cf_Static : option bytes; cf_Payload : option bytes }.

Record HandshakeMessage := mkHM {
  hm_ClientHello : option (option bytes);     (* its ephemeral key *)
  hm_ServerHello : option ServerHello;
  hm_ClientFinish : option ClientFinish
}.

Record NoiseCertificate := mkCert { Details : option bytes; cert_Signature : option bytes }.
Record CertChain := mkChain { Leaf : option NoiseCertificate; Intermediate : option NoiseCertificate }.

(** The fields of the details as their getters give them. *)
Record CertDetails := mkDetails {
  Serial : Z; IssuerSerial : Z; Key : bytes; NotBefore : Z; NotAfter : Z
}.

Class HandshakeProto := {
  marshal_handshake : HandshakeMessage -> option bytes;
  unmarshal_handshake : bytes -> option HandshakeMessage;
  unmarshal_chain : bytes -> option CertChain;
  unmarshal_details : bytes -> option CertDetails
}.

Module noise.

Import socket crypto.

Section socket.
Context {C : Crypto}.

Inductive noise_error :=
  | ErrKey (e : gcm_error)
  | ErrX25519
  | ErrDecrypt
  | ErrReadKey
  | ErrContext
  | ErrFrame (e : frame_error).

(** [generateIV]: eight zero bytes and the counter, big endian. *)
Definition generateIV (count : Z) : bytes :=
  replicate 8 x00 ++
  [z2b (Z.shiftr count 24); z2b (Z.shiftr count 16); z2b (Z.shiftr count 8); z2b count].

(** ** The handshake state *)

Record NoiseHandshake := mkNH {
  nh_hash : bytes;
  nh_salt : bytes;
  nh_key : option bytes;      (* None: the nil cipher *)
  nh_counter : Z              (* uint32 *)
}.

Definition NewNoiseHandshake : NoiseHandshake := mkNH [] [] None 0.

Definition sha256Slice (data : bytes) : bytes := sha256 data.

Definition Authenticate (data : bytes) (nh : NoiseHandshake) : NoiseHandshake :=
  mkNH (sha256Slice (nh_hash nh ++ data)) (nh_salt nh) (nh_key nh) (nh_counter nh).

Definition Start (pattern header : bytes) (nh : NoiseHandshake) : outcome noise_error NoiseHandshake :=
  let hash := if blen pattern =? 32 then pattern else sha256Slice pattern in
  match Prepare hash with
  | Ok k => Ok (Authenticate header (mkNH hash hash (Some k) (nh_counter nh)))
  | _ => Panic
  end.

Definition postIncrementCounter (nh : NoiseHandshake) : Z * NoiseHandshake :=
  let count := u32 (nh_counter nh + 1) in
  (u32 (count - 1), mkNH (nh_hash nh) (nh_salt nh) (nh_key nh) count).

Definition HsEncrypt (plaintext : bytes) (nh : NoiseHandshake) :
    outcome noise_error (bytes * NoiseHandshake) :=
  let '(count, nh) := postIncrementCounter nh in
  match nh_key nh with
  | None => Panic
  | Some k =>
      let ciphertext := gcm_seal k (generateIV count) plaintext (nh_hash nh) in
      Ok (ciphertext, Authenticate ciphertext nh)
  end.

Definition HsDecrypt (ciphertext : bytes) (nh : NoiseHandshake) :
    outcome noise_error (bytes * NoiseHandshake) :=
  let '(count, nh) := postIncrementCounter nh in
  match nh_key nh with
  | None => Panic
  | Some k =>
      match gcm_open k (generateIV count) ciphertext (nh_hash nh) with
      | Some plaintext => Ok (plaintext, Authenticate ciphertext nh)
      | None => Err ErrDecrypt
      end
  end.

Definition extractAndExpand (salt data : bytes) : outcome noise_error (bytes * bytes) :=
  match hkdf_read 32 (hkdf_new data salt []) with
  | None => Err ErrReadKey
  | Some (write, h) =>
      match hkdf_read 32 h with
      | None => Err ErrReadKey
      | Some (read, _) => Ok (write, read)
      end
  end.

Definition MixIntoKey (data : bytes) (nh : NoiseHandshake) : outcome noise_error NoiseHandshake :=
  '(write, read) ← extractAndExpand (nh_salt nh) data;
  k ← map_err ErrKey (Prepare read);
  Ok (mkNH (nh_hash nh) write (Some k) 0).

Definition MixSharedSecretIntoKey (priv pub : bytes) (nh : NoiseHandshake) :
    outcome noise_error NoiseHandshake :=
  match x25519 priv pub with
  | None => Err ErrX25519
  | Some secret => MixIntoKey secret nh
  end.

(** ** The encrypted socket *)

Record NoiseSocket := mkNS {
  ns_fs : FrameSocket;
  writeKey : bytes;
  readKey : bytes;
  writeCounter : Z;           (* uint32 *)
  readCounter : Z;            (* uint32 *)
  destroyed : bool;
  stopConsumerClosed : bool
}.

Definition set_on_disconnect (b : bool) (fs : FrameSocket) : FrameSocket :=
  mkFS (conn fs) (cancel fs) (closed fs) b (Header fs) (incomingLength fs) (receivedLength fs)
    (incoming fs) (partialHeader fs).

(** [newNoiseSocket] hooks the disconnect handler into the frame socket. *)
Definition newNoiseSocket (fs : FrameSocket) (writeKey readKey : bytes) : NoiseSocket :=
  mkNS (set_on_disconnect true fs) writeKey readKey 0 0 false false.

Definition Finish (fs : FrameSocket) (nh : NoiseHandshake) : outcome noise_error NoiseSocket :=
  '(write, read) ← extractAndExpand (nh_salt nh) [];
  writeKey ← map_err ErrKey (Prepare write);
  readKey ← map_err ErrKey (Prepare read);
  Ok (newNoiseSocket fs writeKey readKey).

(** [SendFrame]: the counter moves as soon as the text is sealed, whatever
    becomes of the frame. [cancelled] is the context's state on entry,
    [cancelledMeanwhile] whether it is done before the write is. *)
Definition NsSendFrame (cancelled cancelledMeanwhile : bool) (plaintext : bytes) (ns : NoiseSocket) :
    NoiseSocket * option bytes * outcome noise_error unit :=
  if cancelled then (ns, None, Err ErrContext)
  else
    let ciphertext := gcm_seal (writeKey ns) (generateIV (writeCounter ns)) plaintext [] in
    let with_fs fs :=
      mkNS fs (writeKey ns) (readKey ns) (u32 (writeCounter ns + 1)) (readCounter ns) (destroyed ns)
        (stopConsumerClosed ns) in
    let result e := if cancelledMeanwhile then Err ErrContext else e in
    match SendFrame ciphertext (ns_fs ns) with
    | Ok (wholeFrame, fs) => (with_fs fs, Some wholeFrame, result (Ok tt))
    | Err e => (with_fs (ns_fs ns), None, result (Err (ErrFrame e)))
    | _ => (with_fs (ns_fs ns), None, Panic)
    end.

(** [receiveEncryptedFrame]: the plaintext given to [onFrame], if the frame
    decrypts; the counter moves in either case. *)
Definition receiveEncryptedFrame (ciphertext : bytes) (ns : NoiseSocket) : NoiseSocket * option bytes :=
  (mkNS (ns_fs ns) (writeKey ns) (readKey ns) (writeCounter ns) (u32 (readCounter ns + 1))
     (destroyed ns) (stopConsumerClosed ns),
   gcm_open (readKey ns) (generateIV (readCounter ns)) ciphertext []).

(** [consumeFrames]: one value per round of its [select]. *)
Inductive select_event := SFrame (frame : bytes) | SCtxDone | SStop.

Fixpoint consumeFrames (evs : list select_event) (ns : NoiseSocket) : NoiseSocket * list bytes :=
  match evs with
  | SFrame frame :: evs' =>
      let '(ns', p) := receiveEncryptedFrame frame ns in
      let '(ns'', ps) := consumeFrames evs' ns' in
      (ns'', match p with Some p => p :: ps | None => ps end)
  | _ => (ns, [])
  end.

Definition with_ns_fs (fs : FrameSocket) (ns : NoiseSocket) : NoiseSocket :=
  mkNS fs (writeKey ns) (readKey ns) (writeCounter ns) (readCounter ns) (destroyed ns)
    (stopConsumerClosed ns).

(** [Stop(disconnect, allowOnDisconnect)]: the compare-and-swap lets one call
    through; closing the channel twice would panic. *)
Definition Stop (disconnect allowOnDisconnect : bool) (ns : NoiseSocket) :
    outcome frame_error (NoiseSocket * list event) :=
  if destroyed ns then Ok (ns, [])
  else if stopConsumerClosed ns then Panic
  else
    let fs := if allowOnDisconnect then ns_fs ns else set_on_disconnect false (ns_fs ns) in
    let ns' := mkNS fs (writeKey ns) (readKey ns) (writeCounter ns) (readCounter ns) true true in
    if disconnect then
      '(fs', es) ← Close 1000 fs;
      Ok (with_ns_fs fs' ns', es)
    else Ok (ns', []).

Definition NsIsConnected (ns : NoiseSocket) : bool := IsConnected (ns_fs ns).

(** ** Nonces *)

Lemma z2b_ext x y : x mod 256 = y mod 256 -> z2b x = z2b y.
Proof. intros H. apply b2z_inj. by rewrite !b2z_z2b. Qed.

Lemma generateIV_inj a b : generateIV a = generateIV b <-> u32 a = u32 b.
Proof.
  unfold generateIV, u32. rewrite !Z.shiftr_div_pow2 by lia. split; intros H.
  - apply app_inv_head in H. injection H as H1 H2 H3 H4.
    apply (f_equal b2z) in H1, H2, H3, H4. rewrite !b2z_z2b in *.
    Z.div_mod_to_equations. lia.
  - rewrite (z2b_ext (a / 2 ^ 24) (b / 2 ^ 24)), (z2b_ext (a / 2 ^ 16) (b / 2 ^ 16)),
      (z2b_ext (a / 2 ^ 8) (b / 2 ^ 8)), (z2b_ext a b); [done|..];
      Z.div_mod_to_equations; lia.
Qed.

(** A sequence of [SendFrame] calls, with the state of each call's context. *)
Definition send_call := (bool * bool * bytes)%type.

Fixpoint ns_run (calls : list send_call) (ns : NoiseSocket) : NoiseSocket :=
  match calls with
  | [] => ns
  | (c, m, p) :: calls' => ns_run calls' (fst (fst (NsSendFrame c m p ns)))
  end.

(** The nonces those calls seal with. *)
Fixpoint nonces (calls : list send_call) (ns : NoiseSocket) : list bytes :=
  match calls with
  | [] => []
  | (c, m, p) :: calls' =>
      (if c then [] else [generateIV (writeCounter ns)])
        ++ nonces calls' (fst (fst (NsSendFrame c m p ns)))
  end.

Lemma send_counter c m p ns :
  writeCounter (fst (fst (NsSendFrame c m p ns)))
  = if c then writeCounter ns else u32 (writeCounter ns + 1).
Proof. unfold NsSendFrame. destruct c; [done|]. by destruct (SendFrame _ _) as [[]| | |]. Qed.

Lemma nonces_seq calls : forall ns k,
  u32 (writeCounter ns) = u32 k ->
  nonces calls ns
  = map (fun i => generateIV (k + Z.of_nat i)) (seq 0 (length (nonces calls ns))).
Proof.
  induction calls as [|[[c m] p] calls IH]; intros ns k Hk; [done|]. cbn [nonces].
  pose proof (send_counter c m p ns) as Hc. destruct c.
  - cbn [app]. apply IH. by rewrite Hc.
  - cbn [app length seq map]. f_equal.
    { apply generateIV_inj. rewrite Hk. f_equal. lia. }
    rewrite (IH _ (k + 1)) at 1.
    + rewrite <- seq_shift, map_map. apply map_ext. intros i. f_equal. lia.
    + rewrite Hc. unfold u32 in *. Z.div_mod_to_equations. lia.
Qed.

(** No nonce is used twice with a session's write key, whatever mix of
    successful, failed and cancelled sends is made, as long as no more than
    2^32 texts are sealed: the 32-bit counter is advanced by every send that
    seals, even when the frame is then refused by the transport. *)
Theorem write_nonces_unique calls ns :
  Z.of_nat (length (nonces calls ns)) <= 2 ^ 32 -> NoDup (nonces calls ns).
Proof.
  intros Hlen. rewrite (nonces_seq calls ns (writeCounter ns) eq_refl).
  apply NoDup_fmap_2_strong; [|apply NoDup_ListNoDup, seq_NoDup].
  intros i j Hi Hj H%generateIV_inj. rewrite !elem_of_seq in *. unfold u32 in H.
  Z.div_mod_to_equations. lia.
Qed.

(** ** Delivery *)

Lemma map_encode_inj l : forall l', map encode l = map encode l' -> l = l'.
Proof.
  induction l as [|d l IH]; intros [|d' l'] H; try done. cbn [map] in H.
  injection H as _ _ _ H H'. f_equal; [exact H|by apply IH].
Qed.

(** Sends that all go through. *)
Fixpoint NsSendAll (ps : list bytes) (ns : NoiseSocket) : outcome noise_error (list bytes * NoiseSocket) :=
  match ps with
  | [] => Ok ([], ns)
  | p :: ps' =>
      match NsSendFrame false false p ns with
      | (ns', Some w, Ok _) =>
          '(ws, ns'') ← NsSendAll ps' ns';
          Ok (w :: ws, ns'')
      | (_, _, Err e) => Err e
      | _ => Panic
      end
  end.

Definition ciphertexts (k : bytes) (c : Z) (ps : list bytes) : list bytes :=
  imap (fun i p => gcm_seal k (generateIV (c + Z.of_nat i)) p []) ps.

Lemma NsSendAll_frames ps : forall ns ws ns' c,
  Header (ns_fs ns) = None -> u32 (writeCounter ns) = u32 c -> NsSendAll ps ns = Ok (ws, ns') ->
  ws = map encode (ciphertexts (writeKey ns) c ps) /\
  Forall (fun d => blen d < FrameMaxSize) (ciphertexts (writeKey ns) c ps) /\
  u32 (writeCounter ns') = u32 (c + Z.of_nat (length ps)).
Proof.
  induction ps as [|p ps IH]; intros ns ws ns' c Hh Hc H; cbn [NsSendAll] in H.
  { injection H as <- <-. simpl. rewrite Z.add_0_r. by repeat constructor. }
  unfold NsSendFrame in H.
  set (ct := gcm_seal (writeKey ns) (generateIV (writeCounter ns)) p []) in *.
  destruct (SendFrame ct (ns_fs ns)) as [[w fs]|e| |] eqn:Hs; [|done..].
  unfold SendFrame in Hs. destruct (conn (ns_fs ns)); [|done].
  destruct (Z.leb_spec FrameMaxSize (blen ct)); [done|]. rewrite Hh in Hs. injection Hs as <- <-.
  apply bind_inv in H as ([ws1 ns1] & H1 & H). injection H as <- <-.
  assert (Hct : ct = gcm_seal (writeKey ns) (generateIV (c + Z.of_nat 0)) p []).
  { subst ct. f_equal. apply generateIV_inj. rewrite Hc. f_equal. lia. }
  assert (Heq : ciphertexts (writeKey ns) c (p :: ps) = ct :: ciphertexts (writeKey ns) (c + 1) ps).
  { unfold ciphertexts. rewrite imap_cons, Hct. f_equal. apply imap_ext. intros i q _.
    unfold compose. do 2 f_equal. lia. }
  eapply (IH _ _ _ (c + 1)) in H1 as (-> & Hall & Hc'); [|reflexivity|].
  - rewrite Heq. cbn [map length]. split_and!; [done|by constructor|].
    rewrite Hc'. f_equal. lia.
  - cbn [writeCounter]. unfold u32 in *. Z.div_mod_to_equations. lia.
Qed.

Lemma consume_ciphertexts {L : CryptoLaws C} ps : forall ns c,
  u32 (readCounter ns) = u32 c ->
  exists ns', consumeFrames (map SFrame (ciphertexts (readKey ns) c ps)) ns = (ns', ps) /\
  u32 (readCounter ns') = u32 (c + Z.of_nat (length ps)).
Proof.
  induction ps as [|p ps IH]; intros ns c Hc.
  { exists ns. split; [done|]. simpl. by rewrite Z.add_0_r. }
  unfold ciphertexts. rewrite imap_cons. cbn [map consumeFrames receiveEncryptedFrame].
  set (ns1 := mkNS _ _ _ _ _ _ _).
  destruct (IH ns1 (c + 1)) as (ns' & H1 & H2).
  { cbn. unfold u32 in *. Z.div_mod_to_equations. lia. }
  exists ns'. split.
  - replace (imap _ ps) with (ciphertexts (readKey ns1) (c + 1) ps).
    2:{ apply imap_ext. intros i q _. unfold compose. cbn [readKey ns1]. do 2 f_equal. lia. }
    rewrite H1. replace (generateIV (c + Z.of_nat 0)) with (generateIV (readCounter ns)).
    + by rewrite gcm_open_seal.
    + apply generateIV_inj. rewrite Hc. f_equal. lia.
  - rewrite H2. f_equal. simpl length. lia.
Qed.

(** The encrypted channel delivers: texts sent through one peer's noise
    socket, sealed, framed, cut into websocket messages anywhere but inside a
    payload, reassembled by the other peer's frame socket and consumed by its
    noise socket, come out unchanged and in order when the keys match and the
    counters agree, and the counters agree again afterwards. *)
Theorem noise_delivers {L : CryptoLaws C} sender sender' receiver ps ws fs msgs frames :
  Header (ns_fs sender) = None ->
  writeKey sender = readKey receiver ->
  u32 (writeCounter sender) = u32 (readCounter receiver) ->
  NsSendAll ps sender = Ok (ws, sender') ->
  ws = map encode frames -> cut [] msgs frames [] ->
  exists receiver',
    processAll (idle [] fs) msgs = Ok (idle [] fs, frames) /\
  consumeFrames (map SFrame frames) receiver = (receiver', ps) /\
  u32 (writeCounter sender') = u32 (readCounter receiver').
Proof.
  intros Hh Hk Hc Hs Hws Hcut.
  destruct (NsSendAll_frames _ _ _ _ _ Hh eq_refl Hs) as (Hws' & Hall & Hc').
  assert (frames = ciphertexts (writeKey sender) (writeCounter sender) ps) as Hf.
  { apply map_encode_inj. by rewrite <- Hws. }
  rewrite <- Hf in Hall. rewrite Hk in Hf.
  destruct (consume_ciphertexts ps receiver (writeCounter sender)) as (r' & H1 & H2); [done|].
  exists r'. split_and!; [|by rewrite Hf|by rewrite Hc', H2].
  by apply processAll_cut.
Qed.

(** ** Stopping *)

Fixpoint stopAll (calls : list (bool * bool)) (ns : NoiseSocket) :
    outcome frame_error (NoiseSocket * list event) :=
  match calls with
  | [] => Ok (ns, [])
  | (disconnect, allow) :: calls' =>
      '(ns', es) ← Stop disconnect allow ns;
      '(ns'', es') ← stopAll calls' ns';
      Ok (ns'', es ++ es')
  end.

Lemma stopAll_destroyed calls : forall ns, destroyed ns = true -> stopAll calls ns = Ok (ns, []).
Proof.
  induction calls as [|[d a] calls IH]; intros ns H; [done|]. cbn [stopAll].
  unfold Stop. rewrite H, bind_Ok, IH by done. done.
Qed.

(** A noise socket is stopped once: of any sequence of [Stop] calls only
    the first acts; the consumer's channel is closed once (no panic), the frame
    socket is closed exactly when that first call asked for it, and the
    disconnect handler does not run when it asked for silence. *)
Theorem stop_once disconnect allow calls ns :
  destroyed ns = false -> stopConsumerClosed ns = false -> conn_inv (ns_fs ns) ->
  exists ns' es,
    stopAll ((disconnect, allow) :: calls) ns = Ok (ns', es) /\
    destroyed ns' = true /\ stopConsumerClosed ns' = true /\
    (disconnect = false -> es = [] /\ conn (ns_fs ns') = conn (ns_fs ns)) /\
    (disconnect = true -> NsIsConnected ns' = false) /\
    (allow = false -> forall r, EOnDisconnect r ∉ es).
Proof.
  intros Hd Hc Hinv. cbn [stopAll]. unfold Stop at 1. rewrite Hd, Hc.
  set (fs := if allow then ns_fs ns else set_on_disconnect false (ns_fs ns)).
  assert (Hconn : conn fs = conn (ns_fs ns)) by (subst fs; by destruct allow).
  assert (Hcan : cancel fs = cancel (ns_fs ns)) by (subst fs; by destruct allow).
  destruct disconnect.
  - unfold Close. rewrite Hconn, Hcan. destruct (conn (ns_fs ns)) as [c|] eqn:Ec.
    + rewrite Hinv by (rewrite Ec; eauto). cbn [negb]. rewrite !bind_Ok, stopAll_destroyed by done.
      rewrite bind_Ok. eexists _, _. split_and!; [done|done|done|done|done|].
      intros -> r. cbn. intros [Hr|[Hr|Hr]%elem_of_cons]%elem_of_cons; [done|done|by apply elem_of_nil in Hr].
    + rewrite !bind_Ok, stopAll_destroyed by done. rewrite bind_Ok.
      eexists _, _. split_and!; [done|done|done|done| |].
      * intros _. unfold NsIsConnected, IsConnected. cbn. by rewrite Hconn.
      * intros _ r Hr. by apply elem_of_nil in Hr.
  - rewrite bind_Ok, stopAll_destroyed by done. rewrite bind_Ok.
    eexists _, _. split_and!; [done|done|done|by cbn|done|].
    intros _ r Hr. by apply elem_of_nil in Hr.
Qed.

End socket.

(** ** Witnesses *)

Definition sample_fs : FrameSocket := set_header None connected_socket.
Definition sample_ns : NoiseSocket := mkNS sample_fs [x01] [x02] 7 0 false false.
Definition sample_peer : NoiseSocket := mkNS sample_fs [x02] [x01] 0 7 false false.
Definition sample_calls : list send_call := [(false, false, [x0a]); (true, false, []); (false, true, [x0b])].

Lemma write_nonces_unique_witness :
  NoDup (nonces (C := toy_crypto) sample_calls sample_ns).
Proof. apply write_nonces_unique. vm_compute. discriminate. Defined.

Lemma noise_delivers_witness :
  exists receiver',
    processAll (idle [] NewFrameSocket)
      (map encode (ciphertexts (C := toy_crypto) [x01] 7 [[x0a]; [x0b; x0c]]))
    = Ok (idle [] NewFrameSocket, ciphertexts (C := toy_crypto) [x01] 7 [[x0a]; [x0b; x0c]]) /\
    consumeFrames (C := toy_crypto)
      (map SFrame (ciphertexts (C := toy_crypto) [x01] 7 [[x0a]; [x0b; x0c]])) sample_peer
    = (receiver', [[x0a]; [x0b; x0c]]) /\
    u32 9 = u32 (readCounter receiver').
Proof.
  destruct (noise_delivers (L := toy_crypto_laws) sample_ns
    (mkNS sample_fs [x01] [x02] 9 0 false false) sample_peer [[x0a]; [x0b; x0c]]
    (map encode (ciphertexts (C := toy_crypto) [x01] 7 [[x0a]; [x0b; x0c]])) NewFrameSocket
    (map encode (ciphertexts (C := toy_crypto) [x01] 7 [[x0a]; [x0b; x0c]]))
    (ciphertexts (C := toy_crypto) [x01] 7 [[x0a]; [x0b; x0c]])) as (r & H1 & H2 & H3);
    [reflexivity|reflexivity|reflexivity|vm_compute; reflexivity|reflexivity| |].
  - apply cut_whole.
  - exists r. split_and!; [exact H1|exact H2|exact H3].
Defined.

Lemma stop_once_witness :
  exists ns' es,
    stopAll [(true, false); (true, true)] sample_ns = Ok (ns', es) /\
    destroyed ns' = true /\ stopConsumerClosed ns' = true /\
    (true = false -> es = [] /\ conn (ns_fs ns') = conn (ns_fs sample_ns)) /\
    (true = true -> NsIsConnected ns' = false) /\
    (false = false -> forall r, EOnDisconnect r ∉ es).
Proof. apply stop_once; [reflexivity|reflexivity|]. intros _. reflexivity. Defined.

End noise.
