(* ===== verification/Handshake.v ===== *)
(** * handshake.go: the client's Noise XX handshake and the server's certificate

    [doHandshake] is split where the code waits for the server: the hello, the
    treatment of the server's hello and the finish. [respond]/[finish] at the
    end of the file are a specification of the other side (not code of the
    repository): the mirror image of the protocol, against which the client is
    proved to agree. *)

From S2P Require Import Prelude GoStrings Token Crypto Frame Noise.

#[local] Open Scope Z_scope.

Module handshake.

Import socket crypto noise.

(** "Noise_XX_25519_AESGCM_SHA256" and four zero bytes. *)
Definition NoiseStartPattern : bytes := str_bytes "Noise_XX_25519_AESGCM_SHA256" ++ [x00; x00; x00; x00].

Definition WACertIssuerSerial := 0.

Definition WACertPubKey : bytes := map z2b
  [0x14; 0x23; 0x75; 0x57; 0x4d; 0xa; 0x58; 0x71; 0x66; 0xaa; 0xe7; 0x1e; 0xbe; 0x51; 0x64; 0x37;
   0xc4; 0xa2; 0x8b; 0x73; 0xe3; 0x69; 0x5c; 0x6c; 0xe1; 0xf7; 0xf9; 0x54; 0x5d; 0xa8; 0xee; 0x6b].

Inductive hs_error :=
  | ErrMarshal
  | ErrUnmarshal
  | ErrSend (e : frame_error)
  | ErrTimeout
  | ErrMissingParts
  | ErrNoise (e : noise_error)
  | ErrStaticLength (n : Z)
  | ErrCertUnmarshal
  | ErrCertMissingParts
  | ErrCertSignatureLength (intermediate : bool) (n : Z)
  | ErrCertSignature (intermediate : bool)
  | ErrCertDetails (intermediate : bool)
  | ErrCertSerial (intermediate : bool) (got want : Z)
  | ErrCertKeyLength (n : Z)
  | ErrCertNotYetValid (intermediate : bool)
  | ErrCertExpired (intermediate : bool)
  | ErrCertKeyMismatch.

Section handshake.
Context {C : Crypto} {P : HandshakeProto}.

(** ** The server's certificate *)

(** [checkCertValidity]; [now] in nanoseconds, the certificate's bounds in
    seconds, read as signed. *)
Definition checkCertValidity (now : Z) (intermediate : bool) (cert : CertDetails) :
    outcome hs_error unit :=
  let notBefore := i64 (NotBefore cert) * 1000000000 in
  let notAfter := i64 (NotAfter cert) * 1000000000 in
  if now <? notBefore then Err (ErrCertNotYetValid intermediate)
  else if notAfter <? now then Err (ErrCertExpired intermediate)
  else Ok tt.

Definition get_details (c : option NoiseCertificate) : option bytes := c ≫= Details.
Definition get_signature (c : option NoiseCertificate) : option bytes := c ≫= cert_Signature.

Definition verifyServerCert (now : Z) (certDecrypted staticDecrypted : bytes) :
    outcome hs_error unit :=
  match unmarshal_chain certDecrypted with
  | None => Err ErrCertUnmarshal
  | Some certChain =>
      match get_details (Intermediate certChain), get_signature (Intermediate certChain),
            get_details (Leaf certChain), get_signature (Leaf certChain) with
      | Some intermediateRaw, Some intermediateSig, Some leafRaw, Some leafSig =>
          if negb (blen intermediateSig =? 64) then
            Err (ErrCertSignatureLength true (blen intermediateSig))
          else if negb (blen leafSig =? 64) then Err (ErrCertSignatureLength false (blen leafSig))
          else if negb (verify_signature WACertPubKey intermediateRaw intermediateSig) then
            Err (ErrCertSignature true)
          else
            match unmarshal_details intermediateRaw with
            | None => Err (ErrCertDetails true)
            | Some intermediate =>
                if negb (IssuerSerial intermediate =? WACertIssuerSerial) then
                  Err (ErrCertSerial true (IssuerSerial intermediate) WACertIssuerSerial)
                else if negb (blen (Key intermediate) =? 32) then
                  Err (ErrCertKeyLength (blen (Key intermediate)))
                else if negb (verify_signature (Key intermediate) leafRaw leafSig) then
                  Err (ErrCertSignature true)
                else
                  _ ← checkCertValidity now true intermediate;
                  match unmarshal_details leafRaw with
                  | None => Err (ErrCertDetails false)
                  | Some leaf =>
                      if negb (IssuerSerial leaf =? Serial intermediate) then
                        Err (ErrCertSerial false (IssuerSerial leaf) (Serial intermediate))
                      else if negb (bool_decide (Key leaf = staticDecrypted)) then
                        Err ErrCertKeyMismatch
                      else checkCertValidity now false leaf
                  end
            end
      | _, _, _, _ => Err ErrCertMissingParts
      end
  end.

(** ** The client's side *)

Definition noise_step {A} (o : outcome noise_error A) : outcome hs_error A := map_err ErrNoise o.

Definition marshal (m : HandshakeMessage) : outcome hs_error bytes :=
  match marshal_handshake m with Some d => Ok d | None => Err ErrMarshal end.

(** The first message: the handshake state is started with the connection
    header and the client's ephemeral key is sent in the clear. *)
Definition sendHello (eph : KeyPair) (fs : FrameSocket) :
    outcome hs_error (NoiseHandshake * bytes * FrameSocket) :=
  nh ← noise_step (Start NoiseStartPattern (match Header fs with Some h => h | None => [] end)
                     NewNoiseHandshake);
  let nh := Authenticate (Pub eph) nh in
  data ← marshal (mkHM (Some (Some (Pub eph))) None None);
  '(w, fs) ← map_err ErrSend (SendFrame data fs);
  Ok (nh, w, fs).

(** The parts of the server's hello. *)
Definition getServerHello (resp : HandshakeMessage) : outcome hs_error (bytes * bytes * bytes) :=
  match hm_ServerHello resp with
  | None => Err ErrMissingParts
  | Some sh =>
      match sh_Ephemeral sh, sh_Static sh, sh_Payload sh with
      | Some e, Some s, Some p =>
          if negb (blen e =? 32) then Err ErrMissingParts else Ok (e, s, p)
      | _, _, _ => Err ErrMissingParts
      end
  end.

(** From the server's hello to the client's finish: the state, the encrypted
    static key and the encrypted payload. *)
Definition processServerHello (now : Z) (eph noiseKey : KeyPair) (clientPayload : option bytes)
    (resp : HandshakeMessage) (nh : NoiseHandshake) :
    outcome hs_error (NoiseHandshake * bytes * bytes) :=
  '(serverEphemeral, serverStaticCiphertext, certificateCiphertext) ← getServerHello resp;
  let nh := Authenticate serverEphemeral nh in
  nh ← noise_step (MixSharedSecretIntoKey (Priv eph) serverEphemeral nh);
  '(staticDecrypted, nh) ← noise_step (HsDecrypt serverStaticCiphertext nh);
  if negb (blen staticDecrypted =? 32) then Err (ErrStaticLength (blen staticDecrypted))
  else
    nh ← noise_step (MixSharedSecretIntoKey (Priv eph) staticDecrypted nh);
    '(certDecrypted, nh) ← noise_step (HsDecrypt certificateCiphertext nh);
    _ ← verifyServerCert now certDecrypted staticDecrypted;
    '(encryptedPubkey, nh) ← noise_step (HsEncrypt (Pub noiseKey) nh);
    nh ← noise_step (MixSharedSecretIntoKey (Priv noiseKey) serverEphemeral nh);
    match clientPayload with
    | None => Err ErrMarshal
    | Some clientFinishPayloadBytes =>
        '(encryptedPayload, nh) ← noise_step (HsEncrypt clientFinishPayloadBytes nh);
        Ok (nh, encryptedPubkey, encryptedPayload)
    end.

(** [doHandshake]: [resp] is the frame received, [None] when the wait times
    out; the result has the websocket messages written and the noise socket. *)
Definition doHandshake (now : Z) (eph noiseKey : KeyPair) (clientPayload resp : option bytes)
    (fs : FrameSocket) : outcome hs_error (list bytes * NoiseSocket) :=
  '(nh, w1, fs) ← sendHello eph fs;
  match resp with
  | None => Err ErrTimeout
  | Some resp =>
      match unmarshal_handshake resp with
      | None => Err ErrUnmarshal
      | Some handshakeResponse =>
          '(nh, encryptedPubkey, encryptedPayload)
            ← processServerHello now eph noiseKey clientPayload handshakeResponse nh;
          data ← marshal (mkHM None None (Some (mkCF (Some encryptedPubkey) (Some encryptedPayload))));
          '(w2, fs) ← map_err ErrSend (SendFrame data fs);
          ns ← noise_step (Finish fs nh);
          Ok ([w1; w2], ns)
      end
  end.

(** ** What the certificate check establishes *)

(** A chain that certifies [static] at time [now]. *)
Definition certified (now : Z) (cert static : bytes) : Prop :=
  exists chain iRaw iSig lRaw lSig i l,
    unmarshal_chain cert = Some chain /\
    Intermediate chain = Some (mkCert (Some iRaw) (Some iSig)) /\
    Leaf chain = Some (mkCert (Some lRaw) (Some lSig)) /\
    length iSig = 64%nat /\ length lSig = 64%nat /\
    unmarshal_details iRaw = Some i /\ unmarshal_details lRaw = Some l /\
    verify_signature WACertPubKey iRaw iSig = true /\ IssuerSerial i = WACertIssuerSerial /\
    length (Key i) = 32%nat /\
    verify_signature (Key i) lRaw lSig = true /\ IssuerSerial l = Serial i /\
    Key l = static /\
    i64 (NotBefore i) * 1000000000 <= now <= i64 (NotAfter i) * 1000000000 /\
    i64 (NotBefore l) * 1000000000 <= now <= i64 (NotAfter l) * 1000000000.

Lemma checkCertValidity_Ok now b c :
  checkCertValidity now b c = Ok tt <->
  i64 (NotBefore c) * 1000000000 <= now <= i64 (NotAfter c) * 1000000000.
Proof.
  unfold checkCertValidity. destruct (Z.ltb_spec now (i64 (NotBefore c) * 1000000000)); [split; [done|lia]|].
  destruct (Z.ltb_spec (i64 (NotAfter c) * 1000000000) now); split; (done || lia).
Qed.

Lemma blen_eqb {A} (l : list A) n : (blen l =? Z.of_nat n) = true <-> length l = n.
Proof. unfold blen. rewrite Z.eqb_eq. lia. Qed.

Ltac cert_case :=
  match goal with
  | H : (if negb ?b then Err _ else _) = Ok _ |- _ =>
      destruct b eqn:?; cbn [negb] in H; [|discriminate H]
  end.

Lemma verifyServerCert_certified now cert static :
  verifyServerCert now cert static = Ok tt <-> certified now cert static.
Proof.
  split.
  - unfold verifyServerCert. destruct (unmarshal_chain cert) as [chain|] eqn:Hch; [|done].
    destruct (Intermediate chain) as [[[iRaw|] [iSig|]]|] eqn:Hi; try done.
    destruct (Leaf chain) as [[[lRaw|] [lSig|]]|] eqn:Hl; try done.
    cbn [get_details get_signature mbind option_bind Details cert_Signature]. intros H.
    do 3 cert_case. destruct (unmarshal_details iRaw) as [i|] eqn:Hid; [|done].
    do 3 cert_case. apply bind_inv in H as ([] & Hv & H).
    destruct (unmarshal_details lRaw) as [l|] eqn:Hld; [|done]. do 2 cert_case.
    apply checkCertValidity_Ok in Hv, H.
    exists chain, iRaw, iSig, lRaw, lSig, i, l.
    split_and!; try done; try (by apply (blen_eqb _ 64)); try (by apply (blen_eqb _ 32));
      try (by apply Z.eqb_eq); try lia. by eapply bool_decide_eq_true.
  - intros (chain & iRaw & iSig & lRaw & lSig & i & l & Hch & Hi & Hl & H1 & H2 & Hid & Hld & Hs1 & His
      & Hk & Hs2 & Hls & Hkey & Hv1 & Hv2).
    unfold verifyServerCert. rewrite Hch, Hi, Hl.
    cbn [get_details get_signature mbind option_bind Details cert_Signature].
    apply (blen_eqb _ 64) in H1, H2. apply (blen_eqb _ 32) in Hk.
    change (Z.of_nat 64) with 64 in *. change (Z.of_nat 32) with 32 in *.
    rewrite H1, H2, Hs1, Hid, His, Hk, Hs2. cbn [negb]. rewrite Z.eqb_refl. cbn [negb].
    apply (checkCertValidity_Ok now true) in Hv1. apply (checkCertValidity_Ok now false) in Hv2.
    rewrite Hv1, bind_Ok, Hld, Hls, Z.eqb_refl, bool_decide_true by done. done.
Qed.

Lemma noise_step_inv {A} (o : outcome noise_error A) a : noise_step o = Ok a -> o = Ok a.
Proof. unfold noise_step. destruct o; cbn; congruence. Qed.

Ltac hs_bind H :=
  let x := fresh "x" in let E := fresh "E" in
  apply bind_inv in H as (x & E & H);
  try apply noise_step_inv in E.

(** (C18) The client finishes the handshake only with a certified server: when
    [doHandshake] succeeds, the server's static key - the one whose shared
    secret keys the rest of the handshake, certificate message included - is
    certified at that time by a chain signed by WhatsApp's root key. *)
Theorem doHandshake_certified now eph noiseKey clientPayload resp fs ws ns :
  doHandshake now eph noiseKey clientPayload (Some resp) fs = Ok (ws, ns) ->
  exists m e st ct nh1 static nh2 nh3 cert nh4,
    unmarshal_handshake resp = Some m /\ getServerHello m = Ok (e, st, ct) /\
    HsDecrypt st nh1 = Ok (static, nh2) /\
    MixSharedSecretIntoKey (Priv eph) static nh2 = Ok nh3 /\
    HsDecrypt ct nh3 = Ok (cert, nh4) /\
    certified now cert static.
Proof.
  unfold doHandshake. intros H. apply bind_inv in H as ([[nh w1] fs1] & _ & H).
  destruct (unmarshal_handshake resp) as [m|] eqn:Hm; [|done].
  apply bind_inv in H as ([[nh' s] p] & H & _). unfold processServerHello in H.
  apply bind_inv in H as ([[e st] ct] & Hg & H).
  hs_bind H. hs_bind H. destruct x0 as [static nh2].
  destruct (blen static =? 32) eqn:Hl; cbn [negb] in H; [|done].
  hs_bind H. hs_bind H. destruct x1 as [cert nh4]. apply bind_inv in H as ([] & Hv & _).
  apply verifyServerCert_certified in Hv.
  by exists m, e, st, ct, x, static, nh2, x0, cert, nh4.
Qed.

(** ** Agreement with the other side *)

(** The responder, as the Noise XX pattern has it: its hello for a client's
    ephemeral key, ... *)
Definition respond (header clientEphemeral : bytes) (eph static : KeyPair) (cert : bytes) :
    outcome noise_error (ServerHello * NoiseHandshake) :=
  nh ← Start NoiseStartPattern header NewNoiseHandshake;
  let nh := Authenticate (Pub eph) (Authenticate clientEphemeral nh) in
  nh ← MixSharedSecretIntoKey (Priv eph) clientEphemeral nh;
  '(st, nh) ← HsEncrypt (Pub static) nh;
  nh ← MixSharedSecretIntoKey (Priv static) clientEphemeral nh;
  '(ct, nh) ← HsEncrypt cert nh;
  Ok (mkSH (Some (Pub eph)) (Some st) (Some ct), nh).

(** ... and what it makes of the client's finish: the client's static key, its
    payload, and the keys it will read and write with. *)
Definition accept (eph : KeyPair) (encStatic encPayload : bytes) (nh : NoiseHandshake) :
    outcome noise_error (bytes * bytes * (bytes * bytes)) :=
  '(static, nh) ← HsDecrypt encStatic nh;
  nh ← MixSharedSecretIntoKey (Priv eph) static nh;
  '(payload, nh) ← HsDecrypt encPayload nh;
  '(read, write) ← extractAndExpand (nh_salt nh) [];
  Ok (static, payload, (read, write)).

Context {L : CryptoLaws C}.

Lemma HsDecrypt_HsEncrypt p nh c nh' :
  HsEncrypt p nh = Ok (c, nh') -> HsDecrypt c nh = Ok (p, nh').
Proof.
  unfold HsEncrypt, HsDecrypt. destruct (postIncrementCounter nh) as [count nh1].
  destruct (nh_key nh1); [|done]. intros [= <- <-]. by rewrite gcm_open_seal.
Qed.

Lemma extractAndExpand_ok salt data :
  extractAndExpand salt data = Ok (hkdf_bytes data salt [] 0 32, hkdf_bytes data salt [] 32 32).
Proof. reflexivity. Qed.

Lemma MixSharedSecretIntoKey_sym a b nh :
  MixSharedSecretIntoKey a (x25519_base b) nh = MixSharedSecretIntoKey b (x25519_base a) nh.
Proof. unfold MixSharedSecretIntoKey. by rewrite x25519_comm. Qed.

Lemma MixSharedSecretIntoKey_ok a b nh :
  is_Some (x25519 a b) ->
  exists nh', MixSharedSecretIntoKey a b nh = Ok nh' /\ is_Some (nh_key nh').
Proof.
  intros [s Hs]. unfold MixSharedSecretIntoKey, MixIntoKey. rewrite Hs, extractAndExpand_ok, bind_Ok.
  rewrite Prepare_32 by apply length_hkdf_bytes. eexists. split; [reflexivity|by eexists].
Qed.

Lemma HsEncrypt_ok p nh : is_Some (nh_key nh) -> exists c nh', HsEncrypt p nh = Ok (c, nh').
Proof.
  intros [k Hk]. unfold HsEncrypt, postIncrementCounter. cbn [nh_key]. rewrite Hk. eauto.
Qed.

Lemma HsEncrypt_key p nh c nh' : HsEncrypt p nh = Ok (c, nh') -> nh_key nh' = nh_key nh.
Proof.
  unfold HsEncrypt, postIncrementCounter. cbn [nh_key]. by destruct (nh_key nh); [intros [= _ <-]|].
Qed.

(** (C12) The handshake agrees: against a responder that follows the protocol and
    holds a certified static key, the client processes the server's hello
    without error, and from its finish the responder recovers exactly the
    client's static public key and payload; the two sides derive the same pair
    of transport keys, one's writing key being the other's reading key. *)
Theorem handshake_agreement now fs fs' e n es ss cert payload nh w1 sh nhs :
  let kp := NewKeyPairFromPrivateKey in
  sendHello (kp e) fs = Ok (nh, w1, fs') ->
  respond (match Header fs with Some h => h | None => [] end) (Pub (kp e)) (kp es) (kp ss) cert
    = Ok (sh, nhs) ->
  certified now cert (Pub (kp ss)) ->
  is_Some (x25519 n (Pub (kp es))) ->
  exists nh' s p wk rk,
    processServerHello now (kp e) (kp n) (Some payload) (mkHM None (Some sh) None) nh
      = Ok (nh', s, p) /\
    Finish fs' nh' = Ok (newNoiseSocket fs' wk rk) /\
    accept (kp es) s p nhs = Ok (Pub (kp n), payload, (wk, rk)).
Proof.
  intros kp Hhello Hresp Hcert%verifyServerCert_certified Hn.
  unfold sendHello in Hhello. unfold respond in Hresp.
  apply bind_inv in Hhello as (nh0 & H0%noise_step_inv & Hhello).
  apply bind_inv in Hhello as (d & _ & Hhello). apply bind_inv in Hhello as ([w f] & _ & Hhello).
  injection Hhello as <- <- <-. rewrite H0, bind_Ok in Hresp.
  apply bind_inv in Hresp as (nh1 & H1 & Hresp). apply bind_inv in Hresp as ([st nh2] & H2 & Hresp).
  apply bind_inv in Hresp as (nh3 & H3 & Hresp). apply bind_inv in Hresp as ([ct nh4] & H4 & Hresp).
  injection Hresp as <- <-. subst kp. unfold NewKeyPairFromPrivateKey in *. cbn [Pub Priv] in *.
  assert (Hk3 : is_Some (nh_key nh3)).
  { unfold MixSharedSecretIntoKey in H3. destruct (x25519 ss (x25519_base e)) eqn:E; [|done].
    destruct (MixSharedSecretIntoKey_ok ss (x25519_base e) nh2) as (x & Hx & Hkx); [by eexists|].
    unfold MixSharedSecretIntoKey in Hx. rewrite E in Hx. rewrite Hx in H3. by injection H3 as <-. }
  destruct (HsEncrypt_ok (x25519_base n) nh4) as (s & nh5 & H5).
  { by rewrite (HsEncrypt_key _ _ _ _ H4). }
  destruct (MixSharedSecretIntoKey_ok n (x25519_base es) nh5 Hn) as (nh6 & H6 & Hk6).
  destruct (HsEncrypt_ok payload nh6 Hk6) as (p & nh7 & H7).
  exists nh7, s, p, (hkdf_bytes [] (nh_salt nh7) [] 0 32), (hkdf_bytes [] (nh_salt nh7) [] 32 32).
  split_and!.
  - unfold processServerHello, getServerHello. cbn [hm_ServerHello sh_Ephemeral sh_Static sh_Payload Pub Priv].
    assert (forall a, blen (x25519_base a) =? 32 = true) as Hl
      by (intros a; apply (blen_eqb _ 32), length_x25519_base).
    rewrite Hl. cbn [negb]. rewrite bind_Ok. unfold noise_step.
    cbn [fst snd Pub Priv]. rewrite MixSharedSecretIntoKey_sym, H1. cbn [map_err]. rewrite bind_Ok.
    rewrite (HsDecrypt_HsEncrypt _ _ _ _ H2). cbn [map_err]. rewrite bind_Ok, Hl. cbn [negb].
    rewrite MixSharedSecretIntoKey_sym, H3. cbn [map_err]. rewrite bind_Ok.
    rewrite (HsDecrypt_HsEncrypt _ _ _ _ H4). cbn [map_err]. rewrite bind_Ok, Hcert, bind_Ok.
    rewrite H5. cbn [map_err]. rewrite bind_Ok, H6. cbn [map_err]. rewrite bind_Ok, H7.
    reflexivity.
  - unfold Finish. rewrite extractAndExpand_ok, bind_Ok.
    rewrite !Prepare_32 by apply length_hkdf_bytes. reflexivity.
  - unfold accept. rewrite (HsDecrypt_HsEncrypt _ _ _ _ H5), bind_Ok. cbn [Priv].
    rewrite MixSharedSecretIntoKey_sym, H6, bind_Ok.
    rewrite (HsDecrypt_HsEncrypt _ _ _ _ H7), bind_Ok, extractAndExpand_ok. reflexivity.
Qed.

End handshake.

(** ** Witnesses: a run with toy primitives and codecs *)

Definition toy_field (f : option bytes) : bytes :=
  match f with
  | None => [x00]
  | Some b => x01 :: flat_map (fun c => [x01; c]) b ++ [x00]
  end.

Fixpoint toy_body (b : bytes) : bytes * bytes :=
  match b with
  | x01 :: c :: b' => let '(v, rest) := toy_body b' in (c :: v, rest)
  | _ :: b' => ([], b')
  | [] => ([], [])
  end.

Definition toy_read (b : bytes) : option bytes * bytes :=
  match b with
  | x01 :: b' => let '(v, rest) := toy_body b' in (Some v, rest)
  | _ :: b' => (None, b')
  | [] => (None, [])
  end.

Fixpoint toy_reads (n : nat) (b : bytes) : list (option bytes) :=
  match n with
  | O => []
  | S n' => let '(f, rest) := toy_read b in f :: toy_reads n' rest
  end.

#[local] Instance toy_proto : HandshakeProto := {
  marshal_handshake m :=
    Some (toy_field (default None (hm_ClientHello m))
      ++ toy_field (hm_ServerHello m ≫= sh_Ephemeral) ++ toy_field (hm_ServerHello m ≫= sh_Static)
      ++ toy_field (hm_ServerHello m ≫= sh_Payload)
      ++ toy_field (hm_ClientFinish m ≫= cf_Static) ++ toy_field (hm_ClientFinish m ≫= cf_Payload));
  unmarshal_handshake b :=
    match toy_reads 6 b with
    | [h; e; s; p; cs; cp] => Some (mkHM (Some h) (Some (mkSH e s p)) (Some (mkCF cs cp)))
    | _ => None
    end;
  unmarshal_chain b :=
    match toy_reads 4 b with
    | [idt; isig; ldt; lsig] => Some (mkChain (Some (mkCert ldt lsig)) (Some (mkCert idt isig)))
    | _ => None
    end;
  unmarshal_details b :=
    match b with
    | serial :: issuer :: key => Some (mkDetails (b2z serial) (b2z issuer) key 0 100)
    | _ => None
    end
}.

#[local] Existing Instance toy_crypto.

Definition toy_kp (seed : byte) : KeyPair := NewKeyPairFromPrivateKey (replicate 32 seed).
Definition toy_cert_key : bytes := replicate 32 x44.
Definition toy_cert (static : bytes) : bytes :=
  let iRaw := x05 :: x00 :: toy_cert_key in
  let lRaw := x09 :: x05 :: static in
  toy_field (Some iRaw) ++ toy_field (Some (toy_pad 64 (WACertPubKey ++ iRaw)))
    ++ toy_field (Some lRaw) ++ toy_field (Some (toy_pad 64 (toy_cert_key ++ lRaw))).

Definition toy_socket : FrameSocket := mkFS (Some 1) true false true (Some WAConnHeader) 0 0 None None.

Definition toy_hello : ServerHello * NoiseHandshake :=
  match respond WAConnHeader (Pub (toy_kp x61)) (toy_kp x62) (toy_kp x63)
          (toy_cert (Pub (toy_kp x63))) with
  | Ok r => r
  | _ => (mkSH None None None, NewNoiseHandshake)
  end.

Definition toy_resp : bytes := default [] (marshal_handshake (mkHM None (Some (fst toy_hello)) None)).

Definition toy_run : outcome hs_error (list bytes * NoiseSocket) :=
  doHandshake 50000000000 (toy_kp x61) (toy_kp x64) (Some [x0a; x0b]) (Some toy_resp) toy_socket.

Lemma doHandshake_certified_witness :
  exists m e st ct nh1 static nh2 nh3 cert nh4,
    unmarshal_handshake toy_resp = Some m /\ getServerHello m = Ok (e, st, ct) /\
    HsDecrypt st nh1 = Ok (static, nh2) /\
    MixSharedSecretIntoKey (Priv (toy_kp x61)) static nh2 = Ok nh3 /\
    HsDecrypt ct nh3 = Ok (cert, nh4) /\
    certified 50000000000 cert static.
Proof.
  apply (doHandshake_certified 50000000000 (toy_kp x61) (toy_kp x64) (Some [x0a; x0b]) toy_resp toy_socket
    (match toy_run with Ok (ws, _) => ws | _ => [] end)
    (match toy_run with Ok (_, ns) => ns | _ => newNoiseSocket toy_socket [] [] end)).
  vm_compute. reflexivity.
Defined.

Definition toy_start : NoiseHandshake * bytes * FrameSocket :=
  match sendHello (toy_kp x61) toy_socket with
  | Ok r => r
  | _ => (NewNoiseHandshake, [], toy_socket)
  end.

Lemma handshake_agreement_witness :
  exists nh' s p wk rk,
    processServerHello 50000000000 (toy_kp x61) (toy_kp x64) (Some [x0a; x0b])
      (mkHM None (Some (fst toy_hello)) None) (fst (fst toy_start)) = Ok (nh', s, p) /\
    Finish (snd toy_start) nh' = Ok (newNoiseSocket (snd toy_start) wk rk) /\
    accept (toy_kp x62) s p (snd toy_hello) = Ok (Pub (toy_kp x64), [x0a; x0b], (wk, rk)).
Proof.
  apply (handshake_agreement (L := toy_crypto_laws) 50000000000 toy_socket (snd toy_start)
    (replicate 32 x61) (replicate 32 x64) (replicate 32 x62) (replicate 32 x63)
    (toy_cert (Pub (toy_kp x63))) [x0a; x0b] (fst (fst toy_start)) (snd (fst toy_start))
    (fst toy_hello) (snd toy_hello)).
  - vm_compute. reflexivity.
  - vm_compute. reflexivity.
  - apply verifyServerCert_certified. vm_compute. reflexivity.
  - vm_compute. eexists. reflexivity.
Defined.

End handshake.
