(* ===== verification/Safety.v ===== *)
(** * The control panel's sending safeguards

    message_safety.go, account_health.go and the settings reader of main.go:
    the per-account limiter (cooldown, hourly and daily windows), the pause
    after a rate limit, the account health gate, and [safeSendMessage], which
    puts them in front of a send. Times are nanoseconds; the clock readings,
    the administrator's settings, the answers of WhatsApp and the statements of the
    database that fail are arguments, the database rows and the in-memory maps are
    the state. Errors are their text. *)

From S2P Require Import Prelude GoStrings Jid.

#[local] Open Scope string_scope.
#[local] Open Scope list_scope.
#[local] Open Scope Z_scope.

Module safety.

Import jid.

(** ** Settings *)

(** [fmt.Sscanf(v, "%d", &n)]: leading blanks, a sign and digits; what follows
    is ignored; a number that does not fit an int64 is an error. *)
Fixpoint scan_digits (acc : option Z) (s : string) : option Z :=
  match s with
  | EmptyString => acc
  | String a s' =>
      match digit a with
      | Some d => scan_digits (Some (10 * default 0 acc + d)) s'
      | None => acc
      end
  end.

Definition in_int64 (n : Z) : option Z := if (- 2 ^ 63 <=? n) && (n <? 2 ^ 63) then Some n else None.

Definition sscanf_d (s : string) : option Z :=
  match trim_left s with
  | String "-" s' => n ← scan_digits None s'; in_int64 (- n)
  | String "+" s' => n ← scan_digits None s'; in_int64 n
  | s' => n ← scan_digits None s'; in_int64 n
  end.

(** The rows of admin_settings. *)
Definition settings := string -> option string.

Definition getAdminSetting (st : settings) (key def : string) : string := default def (st key).

Definition settingInt (st : settings) (key : string) (def min max : Z) : Z :=
  match sscanf_d (getAdminSetting st key (itoa def)) with
  | None => def
  | Some n => if n <? min then def else if max <? n then max else n
  end.

Definition safeSettingInt := settingInt.

(** ** The limiter *)

Definition millisecond := 1000000.
Definition second := 1000 * millisecond.
Definition hour := 3600 * second.
Definition day := 24 * hour.

(** A row of message_safety_state; [None] in a field is NULL. *)
Record safety_row := mkRow {
  last_sent_at : option Z;
  window_start : option Z;
  window_count : Z;
  day_start : option Z;
  day_count : Z
}.

Definition no_row : safety_row := mkRow None None 0 None 0.

(** The windows as they stand at [now]: an expired one starts again. *)
Definition current_window (now len : Z) (start : option Z) (count : Z) : Z * Z :=
  match start with
  | Some s => if len <=? now - s then (now, 0) else (s, count)
  | None => (now, 0)
  end.

Inductive safety_error :=
  | ErrDatabase
  | ErrCooldown (remaining : Z)
  | ErrHourly (max : Z)
  | ErrDaily (max : Z).

Definition safety_enabled (st : settings) : bool :=
  String.eqb (getAdminSetting st "ban_safety_enabled" "true") "true".

Definition min_interval (st : settings) : Z :=
  safeSettingInt st "safety_min_interval_ms" 15000 1000 300000 * millisecond.
Definition max_hour (st : settings) : Z := safeSettingInt st "safety_max_messages_hour" 20 1 1000.
Definition max_day (st : settings) : Z := safeSettingInt st "safety_max_messages_day" 100 1 5000.

(** [checkMessageSafety]; [row] is the account's row, if it has one. [fails]: a
    statement of its transaction does. *)
Definition checkMessageSafety (fails : bool) (st : settings) (now : Z) (row : option safety_row) :
    outcome safety_error unit :=
  if negb (safety_enabled st) then Ok tt
  else if fails then Err ErrDatabase
  else
    let r := default no_row row in
    let rem := match last_sent_at r with Some l => min_interval st - (now - l) | None => 0 end in
    if 0 <? rem then Err (ErrCooldown rem)
    else
      let '(_, hc) := current_window now hour (window_start r) (window_count r) in
      let '(_, dc) := current_window now day (day_start r) (day_count r) in
      if max_hour st <=? hc then Err (ErrHourly (max_hour st))
      else if max_day st <=? dc then Err (ErrDaily (max_day st))
      else Ok tt.

(** [recordMessageSafety]: a first row counts one; a row there is gets its
    counts in the windows as they stand, plus one. When a statement fails the
    transaction is rolled back; the caller only logs the error. *)
Definition recordMessageSafety (fails : bool) (st : settings) (now : Z) (row : option safety_row) : option safety_row :=
  if negb (safety_enabled st) || fails then row
  else
    let r := default no_row row in
    let '(ws, hc) := current_window now hour (window_start r) (window_count r) in
    let '(ds, dc) := current_window now day (day_start r) (day_count r) in
    match row with
    | None => Some (mkRow (Some now) (Some ws) 1 (Some ds) 1)
    | Some _ => Some (mkRow (Some now) (Some ws) (hc + 1) (Some ds) (dc + 1))
    end.

(** ** Errors by their text *)

Definition isRateLimitedError (err : string) : bool :=
  let s := to_lower err in
  str_has "status 429" s || str_has "429" s || str_has "rate-overlimit" s || str_has "rate limit" s.

Definition isNoLIDError (err : string) : bool :=
  let s := to_lower err in str_has "no lid found" s || str_has "lid not found" s.

Definition is463Error (err : string) : bool :=
  let s := to_lower err in str_has "server returned error 463" s || str_has "error 463" s.

Definition errorsIsContextDeadline (err : string) : bool := str_has "context deadline exceeded" (to_lower err).

(** ** The pause after a rate limit *)

(** [recipientRateLimited]: an entry whose time has passed is dropped. *)
Definition recipientRateLimited (now : Z) (userID : string) (m : gmap string Z) : bool * gmap string Z :=
  match m !! userID with
  | None => (false, m)
  | Some until => if until <? now then (false, delete userID m) else (true, m)
  end.

Definition setRecipientRateLimit (now d : Z) (userID : string) (m : gmap string Z) : gmap string Z :=
  <[userID := now + d]> m.

(** ** Account health *)

Record accountHealthState := mkHealth {
  Status : string;
  TimelockActive : bool;
  TimelockType : string;
  TimelockUntil : option Z;       (* None: the zero time *)
  CapStatus : string;
  CapTotal : Z;
  CapUsed : Z;
  CapRemaining : Z;
  CapCheckedAt : option Z;
  LastCheckedAt : option Z;
  LastError : string
}.

Definition unknown_health : accountHealthState := mkHealth "unknown" false "" None "" 0 0 0 None None "".

(** The cache of this process and its table. *)
Record health_store := mkHealths { health_cache : gmap string accountHealthState; health_rows : gmap string accountHealthState }.

(** [getAccountHealth]: the cache, else the table, whose row is then cached. An account
    that has no row, or whose row cannot be read, is unknown. *)
Definition getAccountHealth (fails : bool) (userID : string) (h : health_store) : accountHealthState * health_store :=
  match health_cache h !! userID with
  | Some s => (s, h)
  | None =>
      match health_rows h !! userID with
      | Some s => if fails then (unknown_health, h) else (s, mkHealths (<[userID := s]> (health_cache h)) (health_rows h))
      | None => (unknown_health, h)
      end
  end.

(** [setAccountHealth]: cached, and kept in the table if that works. *)
Definition setAccountHealth (fails : bool) (userID : string) (s : accountHealthState) (h : health_store) : health_store :=
  mkHealths (<[userID := s]> (health_cache h)) (if fails then health_rows h else <[userID := s]> (health_rows h)).

(** When the administrator's settings are read, and the statements on the way of a
    message that may fail. *)
Inductive moment := AtCheck | AtTyping | AtRecord | AtCleanup.

Inductive db_point :=
  | LimiterCheck | LimiterRecord
  | HealthLoad | HealthReload | HealthSave
  | TimelockLoad | TimelockSave
  | TelemetryWrite (stage : string).

Definition timelocked (now : Z) (s : accountHealthState) : bool :=
  TimelockActive s && match TimelockUntil s with None => true | Some u => now <? u end.

(** What WhatsApp reports: the timelock (active, type, end) and the cap (status,
    total, used), or an error's text. *)
Definition timelock_reply := (string + option (bool * string * option Z))%type.
Definition cap_reply := (string + option (string * Z * Z))%type.

Definition CappingStatusCapped := "CAPPED".

Definition apply_timelock (tl : timelock_reply) (s : accountHealthState) : accountHealthState :=
  match tl with
  | inr (Some (active, kind, until)) =>
      mkHealth (if active then "timelocked" else if String.eqb (Status s) "timelocked" then "healthy" else Status s)
        active kind until (CapStatus s) (CapTotal s) (CapUsed s) (CapRemaining s) (CapCheckedAt s)
        (LastCheckedAt s) (LastError s)
  | inr None => s
  | inl e =>
      mkHealth (Status s) (TimelockActive s) (TimelockType s) (TimelockUntil s) (CapStatus s) (CapTotal s)
        (CapUsed s) (CapRemaining s) (CapCheckedAt s) (LastCheckedAt s) ("timelock check: " ++ e)
  end.

Definition apply_cap (now : Z) (cap : cap_reply) (s : accountHealthState) : accountHealthState :=
  match cap with
  | inr (Some (status, total, used)) =>
      mkHealth (if String.eqb status CappingStatusCapped then "capped" else Status s)
        (TimelockActive s) (TimelockType s) (TimelockUntil s) status total used
        (Z.max 0 (total - used)) (Some now) (LastCheckedAt s) (LastError s)
  | inr None => s
  | inl e =>
      mkHealth (Status s) (TimelockActive s) (TimelockType s) (TimelockUntil s) (CapStatus s) (CapTotal s)
        (CapUsed s) (CapRemaining s) (CapCheckedAt s) (LastCheckedAt s)
        (if String.eqb (LastError s) "" then "message cap check: " ++ e else LastError s)
  end.

(** [accountHealthSnapshot]: a standing timelock, a cap check less than a
    minute old or a client that is not connected keep the state as it is; it is read
    again once it is this call's turn to ask. *)
Definition accountHealthSnapshot (fails : db_point -> bool) (now : Z) (userID : string) (connected force : bool)
    (tl : timelock_reply) (cap : cap_reply) (h : health_store) : accountHealthState * health_store :=
  let '(current, h) := getAccountHealth (fails HealthLoad) userID h in
  let fresh := match CapCheckedAt current with Some t => now - t <? 60 * second | None => false end in
  if negb force && timelocked now current then (current, h)
  else if negb force && fresh then (current, h)
  else if negb connected then (current, h)
  else
    let '(current, h) := getAccountHealth (fails HealthReload) userID h in
    if negb force && timelocked now current then (current, h)
    else
      let updated :=
        mkHealth (Status current) (TimelockActive current) (TimelockType current) (TimelockUntil current)
          (CapStatus current) (CapTotal current) (CapUsed current) (CapRemaining current)
          (CapCheckedAt current) (Some now) "" in
      let updated := apply_cap now cap (apply_timelock tl updated) in
      let updated :=
        if String.eqb (Status updated) "" then
          mkHealth "healthy" (TimelockActive updated) (TimelockType updated) (TimelockUntil updated)
            (CapStatus updated) (CapTotal updated) (CapUsed updated) (CapRemaining updated)
            (CapCheckedAt updated) (LastCheckedAt updated) (LastError updated)
        else updated in
      (updated, setAccountHealth (fails HealthSave) userID updated h).

Inductive health_error := ErrTimelock | ErrCapped.

(** The decision of [checkAccountHealthForSend] on the snapshot it took. *)
Definition checkAccountHealthForSend (now : Z) (s : accountHealthState) : outcome health_error unit :=
  if timelocked now s then Err ErrTimelock
  else if String.eqb (CapStatus s) CappingStatusCapped then Err ErrCapped
  else Ok tt.

(** [markAccountTimelock]: timelocked at once, then as WhatsApp has it. *)
Definition markAccountTimelock (fails : db_point -> bool) (now : Z) (userID err : string) (tl : timelock_reply)
    (h : health_store) : health_store :=
  let '(s, h) := getAccountHealth (fails TimelockLoad) userID h in
  let '(active, kind, until) :=
    match tl with
    | inr (Some r) => r
    | _ => (true, TimelockType s, TimelockUntil s)
    end in
  let status := if active then "timelocked" else "healthy" in
  setAccountHealth (fails TimelockSave) userID
    (mkHealth status active kind until (CapStatus s) (CapTotal s) (CapUsed s) (CapRemaining s) (CapCheckedAt s) (Some now) err) h.

(** ** Telemetry *)

Definition telemetryCountry (phone : string) : string :=
  let p := trim_prefix "+" (trim_space phone) in
  if has_prefix "91" p then "IN" else if has_prefix "55" p then "BR" else "OTHER".

(** ** Sending *)

Record telemetry_row := mkTelemetry { t_user : string; t_target : string; t_country : string; t_stage : string }.

Record panel := mkPanel {
  rows : gmap string safety_row;
  limited : gmap string Z;
  healths : health_store;
  telemetry : list telemetry_row             (* latest first *)
}.

Inductive effect :=
  | EPresence (to : JID)
  | ESend (to : JID) (text : string)
  | EDeleteChat (to : JID).

Inductive send_error :=
  | ENotConnected
  | EEmptyText
  | EInvalidRecipient (to : JID)
  | ELookupRateLimited
  | ESafety (e : safety_error)
  | EHealth (e : health_error)
  | ELookupFailed (e : string)
  | ENoLID
  | ETimelock
  | ETimeout
  | ESendFailed (e : string).

(** The row's error text and time are left out. *)
Definition recordSendTelemetry (userID target stage : string) (p : panel) : panel :=
  if String.eqb (trim_space target) "" then p
  else mkPanel (rows p) (limited p) (healths p)
         (mkTelemetry userID target (telemetryCountry target) stage :: telemetry p).

(** [resolveCachedRecipient] and [resolveRecipientWithLIDFallback]: the stored
    LID of a phone number; else what the server says, preferring the LID that
    the query has stored. [stored] is the answer of the LID store before and
    after the query. *)
Definition resolveCachedRecipient (stored : option JID) : option JID :=
  match stored with Some lid => if IsEmpty lid then None else Some lid | None => None end.

Fixpoint pick_result (pn : JID) (stored_after : option JID) (results : list (string * JID)) : option JID :=
  match results with
  | [] => None
  | (phone, jid) :: rest =>
      if negb (String.eqb phone "") && negb (String.eqb phone (User pn)) then
        pick_result pn stored_after rest
      else if String.eqb (Server jid) HiddenUserServer && negb (IsEmpty jid) then
        match resolveCachedRecipient stored_after with
        | Some lid => Some lid
        | None => Some jid
        end
      else pick_result pn stored_after rest
  end.

Definition resolveRecipientWithLIDFallback (pn : JID) (stored stored_after : option JID)
    (isOnWhatsApp : string + list (string * JID)) : outcome string (option JID) :=
  match resolveCachedRecipient stored with
  | Some lid => Ok (Some lid)
  | None =>
      match isOnWhatsApp with
      | inl e => Err e
      | inr results => Ok (pick_result pn stored_after results)
      end
  end.

(** Everything [safeSendMessage] meets on its way: clock readings and answers, what
    reading the settings gives at each moment, given what they are when it is called
    (they may change in between, and a read that fails finds none), and the statements
    that fail. *)
Record send_env := mkEnv {
  e_connected : bool;
  e_limited_at : Z; e_check_at : Z; e_health_at : Z; e_decide_at : Z; e_pause_at : Z; e_record_at : Z;
  e_timelock : timelock_reply; e_cap : cap_reply;
  e_lid : option JID; e_lid_after : option JID;
  e_on_whatsapp : string + list (string * JID);
  e_send : option string;                     (* the error of SendMessage *)
  e_timelock_after : timelock_reply;
  e_settings : moment -> settings -> settings;
  e_fails : db_point -> bool
}.

Definition set_rows r p := mkPanel r (limited p) (healths p) (telemetry p).
Definition set_limited l p := mkPanel (rows p) l (healths p) (telemetry p).
Definition set_healths h p := mkPanel (rows p) (limited p) h (telemetry p).

(** A row of telemetry, if it can be written. *)
Definition note (env : send_env) (uid target stage : string) (p : panel) : panel :=
  if e_fails env (TelemetryWrite stage) then p else recordSendTelemetry uid target stage p.

(** What a failed [SendMessage] leads to. *)
Definition send_failure (env : send_env) (uid target : string) (err : string) (p : panel) :
    panel * send_error :=
  if isRateLimitedError err then
    (note env uid target "send_rate_limited"
       (set_limited (setRecipientRateLimit (e_pause_at env) (60 * second) uid (limited p)) p),
     ELookupRateLimited)
  else if isNoLIDError err then (note env uid target "send_no_lid" p, ENoLID)
  else if is463Error err then
    (note env uid target "timelock_detected"
       (set_healths (markAccountTimelock (e_fails env) (e_pause_at env) uid err (e_timelock_after env) (healths p)) p),
     ETimelock)
  else if errorsIsContextDeadline err then (note env uid target "send_timeout" p, ETimeout)
  else (note env uid target "send_failed" p, ESendFailed err).

(** Typing is shown, and the chat deleted afterwards, only for a resolved LID. *)
Definition typing_effects (st : settings) (resolved : option JID) : list effect :=
  match resolved with
  | Some lid =>
      if String.eqb (getAdminSetting st "send_typing" "true") "true" then [EPresence lid] else []
  | None => []
  end.

Definition cleanup_effects (st : settings) (resolved : option JID) : list effect :=
  match resolved with
  | Some lid =>
      if String.eqb (getAdminSetting st "delete_chat_after_send" "true") "true" then [EDeleteChat lid]
      else []
  | None => []
  end.

(** From the gates on: resolving, typing, sending, recording, cleaning up. *)
Definition deliver (st : settings) (env : send_env) (uid : string) (target : JID) (text : string)
    (p : panel) : panel * list effect * outcome send_error unit :=
  let log stage p := note env uid (User target) stage p in
  match resolveRecipientWithLIDFallback target (e_lid env) (e_lid_after env) (e_on_whatsapp env) with
  | Err e =>
      if isRateLimitedError e then
        (log "lid_lookup_rate_limited"
           (set_limited (setRecipientRateLimit (e_pause_at env) (60 * second) uid (limited p)) p),
         [], Err ELookupRateLimited)
      else (log "lid_lookup_failed" p, [], Err (ELookupFailed e))
  | Ok resolved =>
      let p := log (match resolved with Some _ => "lid_resolved" | None => "lid_not_resolved" end) p in
      let typing := typing_effects (e_settings env AtTyping st) resolved in
      let sendTo := default target resolved in
      match e_send env with
      | Some err =>
          let '(p, e) := send_failure env uid (User target) err p in
          (p, typing ++ [ESend sendTo text], Err e)
      | None =>
          let p := log "send_success" p in
          let p :=
            set_rows (match recordMessageSafety (e_fails env LimiterRecord) (e_settings env AtRecord st) (e_record_at env) (rows p !! uid) with
                      | Some row => <[uid := row]> (rows p)
                      | None => rows p
                      end) p in
          (p, typing ++ [ESend sendTo text] ++ cleanup_effects (e_settings env AtCleanup st) resolved, Ok tt)
      end
  | _ => (p, [], Panic)
  end.

Definition safeSendMessage (st : settings) (env : send_env) (uid : string) (target : JID) (text : string)
    (p : panel) : panel * list effect * outcome send_error unit :=
  let log stage p := note env uid (User target) stage p in
  let refuse stage e p := (log stage p, [], Err e) in
  let text := trim_space text in
  if negb (e_connected env) then refuse "precheck_failed" ENotConnected p
  else if String.eqb text "" then refuse "precheck_failed" EEmptyText p
  else if negb (String.eqb (Server target) DefaultUserServer) || String.eqb (trim_space (User target)) ""
  then refuse "precheck_failed" (EInvalidRecipient target) p
  else
    let p := log "attempt" p in
    let '(pausing, lim) := recipientRateLimited (e_limited_at env) uid (limited p) in
    let p := set_limited lim p in
    if pausing then refuse "rate_limited" ELookupRateLimited p
    else
      match checkMessageSafety (e_fails env LimiterCheck) (e_settings env AtCheck st) (e_check_at env) (rows p !! uid) with
      | Err e => refuse "safety_blocked" (ESafety e) p
      | _ =>
          let '(s, hs) :=
            accountHealthSnapshot (e_fails env) (e_health_at env) uid (e_connected env) false (e_timelock env) (e_cap env)
              (healths p) in
          let p := set_healths hs p in
          match checkAccountHealthForSend (e_decide_at env) s with
          | Err e => refuse "send_paused_by_account_health" (EHealth e) p
          | _ => deliver st env uid target text p
          end
      end.

(** ** What the gates guarantee *)

Definition is_send (e : effect) : bool := match e with ESend _ _ => true | _ => false end.
Definition sends (es : list effect) : list effect := List.filter is_send es.

(** The account's gates are open: not paused, within the limits, as far as these could
    be read, or the limiter is off, and healthy, as far as that could be read. *)
Definition gates_open (st : settings) (env : send_env) (uid : string) (p : panel) : Prop :=
  fst (recipientRateLimited (e_limited_at env) uid (limited p)) = false /\
  checkMessageSafety (e_fails env LimiterCheck) (e_settings env AtCheck st) (e_check_at env) (rows p !! uid) = Ok tt /\
  checkAccountHealthForSend (e_decide_at env)
    (fst (accountHealthSnapshot (e_fails env) (e_health_at env) uid (e_connected env) false (e_timelock env) (e_cap env)
            (healths p))) = Ok tt.

Lemma rows_telemetry u t s p : rows (recordSendTelemetry u t s p) = rows p.
Proof. unfold recordSendTelemetry. by destruct (String.eqb _ _). Qed.

Lemma limited_telemetry u t s p : limited (recordSendTelemetry u t s p) = limited p.
Proof. unfold recordSendTelemetry. by destruct (String.eqb _ _). Qed.

Lemma healths_telemetry u t s p : healths (recordSendTelemetry u t s p) = healths p.
Proof. unfold recordSendTelemetry. by destruct (String.eqb _ _). Qed.

Lemma rows_note env u t s p : rows (note env u t s p) = rows p.
Proof. unfold note. destruct (e_fails _ _); [done|apply rows_telemetry]. Qed.

Lemma limited_note env u t s p : limited (note env u t s p) = limited p.
Proof. unfold note. destruct (e_fails _ _); [done|apply limited_telemetry]. Qed.

Lemma healths_note env u t s p : healths (note env u t s p) = healths p.
Proof. unfold note. destruct (e_fails _ _); [done|apply healths_telemetry]. Qed.

Lemma send_failure_rows env uid t err p : rows (fst (send_failure env uid t err p)) = rows p.
Proof.
  unfold send_failure. repeat match goal with |- context [if ?b then _ else _] => destruct b end;
    cbn [fst]; by rewrite ?rows_note.
Qed.

(** What [deliver] does with the limiter's rows and with the send. *)
Definition rows_after (st : settings) (env : send_env) (uid : string) (sent : bool) (p : panel) :
    gmap string safety_row :=
  if sent then
    match recordMessageSafety (e_fails env LimiterRecord) (e_settings env AtRecord st) (e_record_at env) (rows p !! uid) with
    | Some row => <[uid := row]> (rows p)
    | None => rows p
    end
  else rows p.

(** What the limiter's windows are when a message is recorded: the hour's count. *)
Definition window_at (env : send_env) (uid : string) (p : panel) : Z * Z :=
  let r := default no_row (rows p !! uid) in current_window (e_record_at env) hour (window_start r) (window_count r).

Lemma rows_after_counts st env uid p : safety_enabled (e_settings env AtRecord st) = true ->
  if e_fails env LimiterRecord then rows_after st env uid true p !! uid = rows p !! uid
  else exists row, rows_after st env uid true p !! uid = Some row /\ last_sent_at row = Some (e_record_at env) /\
    window_count row = snd (window_at env uid p) + 1.
Proof.
  intros Hen. unfold rows_after, recordMessageSafety, window_at. rewrite Hen. cbn [negb orb]. destruct (e_fails env LimiterRecord).
  - destruct (rows p !! uid) as [row|] eqn:E; [by rewrite lookup_insert_eq|done].
  - destruct (rows p !! uid) as [row|]; cbn [default from_option id].
    + destruct (current_window _ hour _ _) as [ws hc], (current_window _ day _ _) as [ds dc]. rewrite lookup_insert_eq. by eexists.
    + cbn [no_row window_start window_count day_start day_count current_window]. rewrite lookup_insert_eq. by eexists.
Qed.

Lemma sends_app es es' : sends (es ++ es') = sends es ++ sends es'.
Proof. apply List.filter_app. Qed.

Lemma sends_send to text es : sends (ESend to text :: es) = ESend to text :: sends es.
Proof. done. Qed.

Lemma sends_typing st r : sends (typing_effects st r) = [].
Proof. destruct r; [|done]. cbn. by destruct (String.eqb _ _). Qed.

Lemma sends_cleanup st r : sends (cleanup_effects st r) = [].
Proof. destruct r; [|done]. cbn. by destruct (String.eqb _ _). Qed.

Lemma deliver_spec st env uid target text p p' es r :
  deliver st env uid target text p = (p', es, r) ->
  (length (sends es) <= 1)%nat /\ (r = Ok tt -> length (sends es) = 1%nat) /\
  rows p' = rows_after st env uid (is_ok r) p.
Proof.
  unfold deliver, rows_after. intros H.
  destruct (resolveRecipientWithLIDFallback _ _ _ _) as [resolved|e| |].
  - cbv zeta in H. set (q := note env uid (User target) _ p) in H.
    assert (Hq : rows q = rows p) by apply rows_note.
    destruct (e_send env) as [err|].
    + destruct (send_failure _ _ _ _ _) as [q' e] eqn:Hf. injection H as <- <- <-.
      pose proof (send_failure_rows env uid (User target) err q) as Hr. rewrite Hf in Hr. cbn [fst] in Hr.
      rewrite sends_app, sends_typing, Hr, Hq. cbn. split_and!; [lia|done|done].
    + injection H as <- <- <-. cbn [set_rows rows is_ok]. rewrite !rows_note, Hq.
      rewrite sends_app, sends_typing. cbn [app]. rewrite sends_send, sends_cleanup.
      cbn. split_and!; [lia|done|done].
  - destruct (isRateLimitedError e); injection H as <- <- <-; cbn; rewrite ?rows_note;
      split_and!; (lia || done).
  - injection H as <- <- <-. cbn. split_and!; (lia || done).
  - injection H as <- <- <-. cbn. split_and!; (lia || done).
Qed.

Lemma deliver_timelock st env uid target text p p' es :
  deliver st env uid target text p = (p', es, Err ETimelock) ->
  exists t err hs, healths p' = markAccountTimelock (e_fails env) t uid err (e_timelock_after env) hs.
Proof.
  unfold deliver. intros H. destruct (resolveRecipientWithLIDFallback _ _ _ _) as [resolved|e| |]; [|by destruct (isRateLimitedError e)|done..].
  cbv zeta in H. destruct (e_send env) as [err|]; [|done].
  unfold send_failure in H. destruct (isRateLimitedError err); [done|]. destruct (isNoLIDError err); [done|].
  destruct (is463Error err); [|by destruct (errorsIsContextDeadline err)].
  injection H as <- _. rewrite healths_note. by eexists _, _, _.
Qed.

Lemma timelocked_before now now' s : now <= now' -> timelocked now' s = true -> timelocked now s = true.
Proof.
  unfold timelocked. destruct (TimelockActive s); [|done]. cbn [andb]. destruct (TimelockUntil s); [|done].
  intros. lia.
Qed.

(** Either refused before anything is sent, or delivered through open gates. *)
Lemma safeSendMessage_cases st env uid target text p p' es r :
  safeSendMessage st env uid target text p = (p', es, r) ->
  (es = [] /\ rows p' = rows p /\ is_ok r = false /\ r <> Err ETimelock) \/
  (e_connected env = true /\ trim_space text <> "" /\ Server target = DefaultUserServer /\
   gates_open st env uid p /\
   exists q, rows q = rows p /\ deliver st env uid target (trim_space text) q = (p', es, r)).
Proof.
  unfold safeSendMessage, gates_open. intros H.
  destruct (e_connected env); cbn [negb] in H; [|left; injection H as <- <- <-; by rewrite rows_note].
  destruct (String.eqb_spec (trim_space text) "") as [He|He];
    [left; injection H as <- <- <-; by rewrite rows_note|].
  destruct (String.eqb_spec (Server target) DefaultUserServer) as [Hs|Hs]; cbn [negb orb] in H;
    [|left; injection H as <- <- <-; by rewrite rows_note].
  destruct (String.eqb _ ""); [left; injection H as <- <- <-; by rewrite rows_note|].
  rewrite limited_note in H.
  destruct (recipientRateLimited (e_limited_at env) uid (limited p)) as [pausing lim].
  destruct pausing; [left; injection H as <- <- <-; rewrite rows_note; cbn; by rewrite rows_note|].
  cbn [set_limited rows healths] in H. rewrite rows_note, healths_note in H.
  destruct (checkMessageSafety (e_fails env LimiterCheck) (e_settings env AtCheck st) (e_check_at env) (rows p !! uid)) as [[]|e| |] eqn:Hc;
    [|left; injection H as <- <- <-; rewrite rows_note; cbn; by rewrite rows_note| |].
  2,3: exfalso; clear -Hc; unfold checkMessageSafety in Hc; destruct (negb _); [done|]; destruct (e_fails env LimiterCheck); [done|];
       destruct (0 <? _); [done|]; destruct (current_window _ hour _ _), (current_window _ day _ _);
       destruct (_ <=? _); [done|]; by destruct (_ <=? _).
  destruct (accountHealthSnapshot _ _ _ _ _ _ _ _) as [s hs].
  destruct (checkAccountHealthForSend (e_decide_at env) s) as [[]|e| |] eqn:Hh;
    [|left; injection H as <- <- <-; rewrite rows_note; cbn; by rewrite rows_note| |].
  2,3: exfalso; clear -Hh; unfold checkAccountHealthForSend in Hh; destruct (timelocked _ _); [done|];
       by destruct (String.eqb _ _).
  right. split_and!; try done. eexists. split; [|exact H]. cbn. by rewrite rows_note.
Qed.

(** (C28) No message goes out around the safeguards, whatever statements of the database
    fail: at most one send per call, and only when the client is connected, the text
    is not blank, the recipient is a user, no rate-limit pause is on, the limiter is
    off or could be read and allows it, and the account is neither timelocked nor
    capped as far as its health is cached or could be read. A call that succeeds has
    sent, and the limiter's row is then what recordMessageSafety makes of it at that
    time: it counts the message when the limiter is on and its statement works, and is
    left alone when that fails, which the call does not report; a call that does not
    succeed leaves it alone. *)
Theorem safeSendMessage_gated st env uid target text p :
  let '(p', es, r) := safeSendMessage st env uid target text p in
  (length (sends es) <= 1)%nat /\
  (sends es <> [] ->
     e_connected env = true /\ trim_space text <> "" /\ Server target = DefaultUserServer /\
     gates_open st env uid p) /\
  (r = Ok tt -> length (sends es) = 1%nat) /\
  rows p' = rows_after st env uid (is_ok r) p /\
  (r = Ok tt -> safety_enabled (e_settings env AtRecord st) = true ->
     if e_fails env LimiterRecord then rows p' !! uid = rows p !! uid
     else exists row, rows p' !! uid = Some row /\ last_sent_at row = Some (e_record_at env) /\
       window_count row = snd (window_at env uid p) + 1).
Proof.
  destruct (safeSendMessage st env uid target text p) as [[p' es] r] eqn:H.
  assert ((length (sends es) <= 1)%nat /\
    (sends es <> [] -> e_connected env = true /\ trim_space text <> "" /\ Server target = DefaultUserServer /\ gates_open st env uid p) /\
    (r = Ok tt -> length (sends es) = 1%nat) /\ rows p' = rows_after st env uid (is_ok r) p) as (H1 & H2 & H3 & H4).
  { apply safeSendMessage_cases in H as [(-> & Hr & Hok & _)|(Hc & Ht & Hs & Hg & q & Hq & H)].
    - unfold rows_after. rewrite Hok. split_and!; [cbn; lia|done| |done]. by intros ->.
    - apply deliver_spec in H as (H1 & H2 & H3). split_and!; [done|done|done|].
      rewrite H3. unfold rows_after. by rewrite Hq. }
  split_and!; [done..|]. intros -> Hen. rewrite H4. apply rows_after_counts; done.
Qed.

(** A 463 pauses the account: after a send that failed with WhatsApp's
    error 463, the account is timelocked unless WhatsApp itself says it is not,
    and while it is, no call for that account sends anything, whatever fails of the
    database. *)
Theorem timelock_pauses st env uid target text p p' es :
  safeSendMessage st env uid target text p = (p', es, Err ETimelock) ->
  (forall kind until, e_timelock_after env <> inr (Some (false, kind, until))) ->
  exists s, health_cache (healths p') !! uid = Some s /\ TimelockActive s = true /\
  forall st' env' target' text',
    e_health_at env' <= e_decide_at env' -> timelocked (e_decide_at env') s = true ->
    sends (snd (fst (safeSendMessage st' env' uid target' text' p'))) = [].
Proof.
  intros H Htl. apply safeSendMessage_cases in H as [(_ & _ & _ & Hn)|(_ & _ & _ & _ & q & _ & H)]; [done|].
  apply deliver_timelock in H as (t & err & hs & Eh). unfold markAccountTimelock in Eh.
  destruct (getAccountHealth _ uid hs) as [s0 h0].
  destruct (match e_timelock_after env with inr (Some r) => r | _ => _ end) as [[active kind] until] eqn:Er.
  assert (active = true) as ->.
  { destruct (e_timelock_after env) as [e|[[[[] k] u]|]]; try (by injection Er as <- _ _). by destruct (Htl k u). }
  rewrite Eh. unfold setAccountHealth. cbn [health_cache]. eexists. split; [apply lookup_insert_eq|]. split; [done|].
  set (s := mkHealth _ _ _ _ _ _ _ _ _ _ _). intros st' env' target' text' Htime Hdec.
  pose proof (timelocked_before _ _ _ Htime Hdec) as Hlock.
  destruct (safeSendMessage st' env' uid target' text' p') as [[p2 es2] r2] eqn:H2. cbn [fst snd].
  apply safeSendMessage_cases in H2 as [(-> & _)|(_ & _ & _ & (_ & _ & Hg) & _)]; [done|].
  exfalso. unfold accountHealthSnapshot, getAccountHealth in Hg. rewrite Eh in Hg. unfold setAccountHealth in Hg. cbn [health_cache] in Hg.
  rewrite lookup_insert_eq in Hg. fold s in Hg. cbn [negb andb] in Hg. rewrite Hlock in Hg. cbn [fst] in Hg.
  unfold checkAccountHealthForSend in Hg. by rewrite Hdec in Hg.
Qed.

(** A message that was sent but could not be recorded does not count: the next one is
    checked as if it had not been sent. *)
Lemma unrecorded_send_uncounted st env uid target text p p' es :
  safeSendMessage st env uid target text p = (p', es, Ok tt) -> e_fails env LimiterRecord = true ->
  rows p' = rows p /\ length (sends es) = 1%nat.
Proof.
  intros H Hf. apply safeSendMessage_cases in H as [(_ & _ & Hok & _)|(_ & _ & _ & _ & q & Hq & H)]; [done|].
  apply deliver_spec in H as (_ & H2 & H3). split; [|by apply H2]. rewrite H3, <- Hq. unfold rows_after. cbn [is_ok].
  unfold recordMessageSafety. rewrite Hf, orb_true_r. destruct (rows q !! uid) as [row|] eqn:E; [|done]. by apply insert_id.
Qed.

(** ** The limiter over time *)

(** How many of the times [log] are in [from, to). *)
Definition count_in (from to : Z) (log : list Z) : Z :=
  blen (List.filter (fun x => (from <=? x) && (x <? to)) log).

(** Attempts in order, on a database that works: each is checked, and recorded when
    allowed. *)
Fixpoint limiter_run (st : settings) (row : option safety_row) (attempts : list (Z * Z)) :
    list Z * option safety_row :=
  match attempts with
  | [] => ([], row)
  | (tc, tr) :: rest =>
      match checkMessageSafety false st tc row with
      | Ok _ =>
          let '(log, row') := limiter_run st (recordMessageSafety false st tr row) rest in
          (log ++ [tr], row')
      | _ => limiter_run st row rest
      end
  end.

(** Clock readings that do not go back. *)
Fixpoint ordered (t : Z) (attempts : list (Z * Z)) : Prop :=
  match attempts with
  | [] => True
  | (tc, tr) :: rest => t <= tc /\ tc <= tr /\ ordered tr rest
  end.

(** Latest first: each send is at least [d] after the one before. *)
Fixpoint spaced (d : Z) (log : list Z) : Prop :=
  match log with
  | x :: ((y :: _) as rest) => d <= x - y /\ spaced d rest
  | _ => True
  end.

Section window.
Context (L M : Z) (HM : 1 <= M).

Lemma count_cons from to x log :
  count_in from to (x :: log) = (if (from <=? x) && (x <? to) then 1 else 0) + count_in from to log.
Proof. unfold count_in. cbn [List.filter]. destruct (_ && _); [by rewrite blen_cons|lia]. Qed.

Lemma count_nonneg from to log : 0 <= count_in from to log.
Proof. apply blen_nonneg. Qed.

Lemma count_mono f t f' t' log : f' <= f -> t <= t' -> count_in f t log <= count_in f' t' log.
Proof.
  intros Hf Ht. induction log as [|x log IH]; [done|]. rewrite !count_cons.
  destruct (Z.leb_spec f x), (Z.ltb_spec x t), (Z.leb_spec f' x), (Z.ltb_spec x t'); cbn [andb]; lia.
Qed.

Lemma count_split f m t log : f <= m -> m <= t ->
  count_in f t log = count_in f m log + count_in m t log.
Proof.
  intros Hf Hm. induction log as [|x log IH]; [done|]. rewrite !count_cons, IH.
  destruct (Z.leb_spec f x), (Z.ltb_spec x t), (Z.ltb_spec x m), (Z.leb_spec m x); cbn [andb]; lia.
Qed.

Lemma count_empty f t log : t <= f -> count_in f t log = 0.
Proof.
  intros H. induction log as [|x log IH]; [done|]. rewrite count_cons, IH.
  destruct (Z.leb_spec f x), (Z.ltb_spec x t); cbn [andb]; lia.
Qed.

(** Nothing was sent at [n] or later. *)
Definition before (n : Z) (log : list Z) : Prop := Forall (fun x => x < n) log.

Lemma count_before f n t log : before n log -> n <= t -> count_in f t log = count_in f n log.
Proof.
  intros Hb Hn. induction Hb as [|x log Hx _ IH]; [done|]. rewrite !count_cons, IH.
  destruct (Z.leb_spec f x), (Z.ltb_spec x t), (Z.ltb_spec x n); cbn [andb]; lia.
Qed.

(** One window's start and count against the log. *)
Definition window_inv (log : list Z) (start : option Z) (c : Z) : Prop :=
  match start with
  | None => log = [] /\ c = 0
  | Some w =>
      (forall n, before n log -> count_in w n log = c) /\ c <= M /\ In w log /\
      (forall t, w - L < t -> count_in t w log <= M) /\
      (forall t, count_in t (t + L) log <= 2 * M)
  end.

Lemma window_step log start c n w' c' :
  window_inv log start c -> before n log -> current_window n L start c = (w', c') -> c' < M ->
  window_inv (n :: log) (Some w') (c' + 1).
Proof.
  intros Hinv Hb Hw Hlt. assert (Hone : (n <=? n) = true) by lia.
  assert (Hnew : w' = n -> c' = 0 -> (forall t, n - L < t -> count_in t n log <= M) ->
    (forall t, count_in t (t + L) log <= 2 * M) -> window_inv (n :: log) (Some w') (c' + 1)).
  { intros -> -> Hc Ha. cbn [window_inv]. split_and!.
    - intros m Hm. inversion Hm; subst. rewrite count_cons, Hone, (proj2 (Z.ltb_lt n m)) by done. cbn [andb].
      rewrite (count_before _ _ _ _ Hb), count_empty by lia. done.
    - lia.
    - by left.
    - intros t Ht. rewrite count_cons, (proj2 (Z.ltb_ge n n)), andb_false_r by lia. by apply Hc.
    - intros t. rewrite count_cons. specialize (Ha t). destruct (Z.leb_spec t n), (Z.ltb_spec n (t + L)); cbn [andb]; try lia.
      rewrite (count_before t n) by (done || lia). specialize (Hc t ltac:(lia)). lia. }
  destruct start as [w|]; cbn [window_inv current_window] in *.
  2:{ destruct Hinv as [-> ->]. injection Hw as <- <-. apply Hnew; [done|done| |]; intros t; unfold count_in, blen; cbn [List.filter length]; lia. }
  destruct Hinv as (Hcnt & HcM & Hin & Hc & Ha).
  assert (Hwn : w < n) by (eapply (proj1 (List.Forall_forall _ _) Hb); exact Hin).
  destruct (Z.leb_spec L (n - w)).
  - injection Hw as <- <-. apply Hnew; [done|done| |done]. intros t Ht.
    etransitivity; [apply (count_mono _ _ w n); lia|]. by rewrite Hcnt.
  - injection Hw as <- <-. split_and!.
    + intros m Hm. inversion Hm as [|? ? Hnm _]; subst. rewrite count_cons.
      rewrite (proj2 (Z.leb_le w n)), (proj2 (Z.ltb_lt n m)) by lia. cbn [andb].
      rewrite (count_before _ _ _ _ Hb), Hcnt by (done || lia). lia.
    + lia.
    + by right.
    + intros t Ht. rewrite count_cons, (proj2 (Z.ltb_ge n w)), andb_false_r by lia. by apply Hc.
    + intros t. rewrite count_cons. destruct (Z.leb_spec t n), (Z.ltb_spec n (t + L)); cbn [andb]; try apply Ha.
      rewrite (count_before t n) by (done || lia). destruct (Z.le_gt_cases t w) as [Htw|Htw].
      * rewrite (count_split t w n) by lia. rewrite Hcnt by done. specialize (Hc t ltac:(lia)). lia.
      * pose proof (count_mono t n w n log ltac:(lia) ltac:(lia)) as Hm. rewrite Hcnt in Hm by done. lia.
Qed.

Lemma window_bound log start c : window_inv log start c -> forall t, count_in t (t + L) log <= 2 * M.
Proof.
  destruct start as [w|]; [by intros (_ & _ & _ & _ & H)|].
  intros [-> _] t. unfold count_in, blen. cbn [List.filter length]. lia.
Qed.

(** The count met at a later time is no larger. *)
Lemma current_window_later n m start c : n <= m -> 0 <= c ->
  snd (current_window m L start c) <= snd (current_window n L start c).
Proof.
  intros Hnm Hc. destruct start as [w|]; cbn; [|lia].
  destruct (Z.leb_spec L (n - w)), (Z.leb_spec L (m - w)); cbn [snd]; lia.
Qed.

End window.

(** The limiter's state against what has been sent. *)
Definition limiter_inv (st : settings) (log : list Z) (row : option safety_row) : Prop :=
  let r := default no_row row in
  window_inv hour (max_hour st) log (window_start r) (window_count r) /\
  window_inv day (max_day st) log (day_start r) (day_count r) /\
  0 <= window_count r /\ 0 <= day_count r /\
  last_sent_at r = head log /\ spaced (min_interval st) log.

Lemma settingInt_range st key def min max :
  min <= def <= max -> min <= settingInt st key def min max <= max.
Proof.
  intros H. unfold settingInt. destruct (sscanf_d _) as [n|]; [|done].
  destruct (Z.ltb_spec n min); [done|]. destruct (Z.ltb_spec max n); lia.
Qed.

Lemma max_hour_pos st : 1 <= max_hour st.
Proof. apply (settingInt_range st _ 20 1 1000). lia. Qed.
Lemma max_day_pos st : 1 <= max_day st.
Proof. apply (settingInt_range st _ 100 1 5000). lia. Qed.
Lemma min_interval_pos st : 0 < min_interval st.
Proof.
  unfold min_interval, millisecond.
  pose proof (settingInt_range st "safety_min_interval_ms" 15000 1000 300000 ltac:(lia)).
  unfold safeSettingInt. lia.
Qed.

Lemma spaced_before st log n :
  spaced (min_interval st) log -> (forall x, head log = Some x -> x < n) -> before n log.
Proof.
  pose proof (min_interval_pos st). revert n. induction log as [|x [|y log] IH]; intros n Hs Hn.
  - constructor.
  - constructor; [by apply Hn|constructor].
  - destruct Hs as [Hd Hs]. constructor; [by apply Hn|]. apply IH; [done|]. intros z [= <-].
    specialize (Hn x eq_refl). lia.
Qed.

Lemma limiter_step st log row tc tr :
  limiter_inv st log row -> safety_enabled st = true -> tc <= tr ->
  checkMessageSafety false st tc row = Ok tt ->
  limiter_inv st (tr :: log) (recordMessageSafety false st tr row).
Proof.
  intros (Hh & Hd & Hch & Hcd & Hl & Hs) Hen Ht Hc. unfold checkMessageSafety in Hc.
  rewrite Hen in Hc. cbn [negb] in Hc. unfold recordMessageSafety. rewrite Hen. cbn [negb orb].
  set (r := default no_row row) in *.
  destruct (Z.ltb_spec 0 (match last_sent_at r with Some l => min_interval st - (tc - l) | None => 0 end))
    as [|Hcool]; [done|].
  pose proof (current_window_later hour tc tr (window_start r) (window_count r) Ht Hch) as Hlh.
  pose proof (current_window_later day tc tr (day_start r) (day_count r) Ht Hcd) as Hld.
  destruct (current_window tc hour _ _) as [wh hc], (current_window tc day _ _) as [wd dc].
  destruct (Z.leb_spec (max_hour st) hc); [done|]. destruct (Z.leb_spec (max_day st) dc); [done|].
  destruct (current_window tr hour (window_start r) (window_count r)) as [wh' hc'] eqn:Hwh.
  destruct (current_window tr day (day_start r) (day_count r)) as [wd' dc'] eqn:Hwd. cbn [snd] in *.
  assert (Hgap : forall x, head log = Some x -> min_interval st <= tr - x).
  { intros x Hx. rewrite Hl, Hx in Hcool. lia. }
  assert (Hb : before tr log).
  { apply (spaced_before st); [done|]. intros x Hx. specialize (Hgap x Hx).
    pose proof (min_interval_pos st). lia. }
  assert (Hhour : window_inv hour (max_hour st) (tr :: log) (Some wh') (hc' + 1)).
  { eapply window_step; [apply max_hour_pos|exact Hh|done|exact Hwh|lia]. }
  assert (Hday : window_inv day (max_day st) (tr :: log) (Some wd') (dc' + 1)).
  { eapply window_step; [apply max_day_pos|exact Hd|done|exact Hwd|lia]. }
  assert (Hnn : 0 <= hc' + 1 /\ 0 <= dc' + 1).
  { unfold current_window in Hwh, Hwd. destruct (window_start r), (day_start r);
      repeat match goal with H : (if ?b then _ else _) = _ |- _ => destruct b end;
      simplify_eq; lia. }
  assert (Hsp : spaced (min_interval st) (tr :: log)).
  { destruct log as [|x log]; [done|]. split; [by apply Hgap|done]. }
  destruct row as [row|].
  - split_and!; [exact Hhour|exact Hday|cbn; lia|cbn; lia|done|exact Hsp].
  - unfold r in Hwh, Hwd. cbn in Hwh, Hwd. injection Hwh as <- <-. injection Hwd as <- <-.
    split_and!; [exact Hhour|exact Hday|cbn; lia|cbn; lia|done|exact Hsp].
Qed.

Lemma limiter_run_inv st attempts : forall log row t,
  safety_enabled st = true -> limiter_inv st log row -> ordered t attempts ->
  let '(sent, row') := limiter_run st row attempts in limiter_inv st (sent ++ log) row'.
Proof.
  induction attempts as [|[tc tr] rest IH]; intros log row t Hen Hinv Hord; [done|].
  destruct Hord as (_ & Ht & Hord). cbn [limiter_run].
  destruct (checkMessageSafety false st tc row) as [[]|e| |] eqn:Hc; try (by apply (IH log row tr)).
  pose proof (limiter_step _ _ _ _ _ Hinv Hen Ht Hc) as Hinv'.
  specialize (IH (tr :: log) _ tr Hen Hinv' Hord).
  destruct (limiter_run st _ rest) as [sent row']. by rewrite <- app_assoc.
Qed.

(** The limiter limits: however attempts are timed, as long as each is
    checked and recorded before the next, an account's messages are at least
    the configured interval apart, and any hour has at most twice the hourly
    limit and any day twice the daily limit of them (the windows are fixed,
    not sliding, so two of them can meet inside one hour). *)
Theorem limiter_limits st attempts t :
  safety_enabled st = true -> ordered t attempts ->
  let log := fst (limiter_run st None attempts) in
  spaced (min_interval st) log /\
  (forall from, count_in from (from + hour) log <= 2 * max_hour st) /\
  (forall from, count_in from (from + day) log <= 2 * max_day st).
Proof.
  intros Hen Hord. pose proof (limiter_run_inv st attempts [] None t Hen) as H.
  destruct (limiter_run st None attempts) as [log row]. cbn [fst].
  rewrite app_nil_r in H. destruct H as (H1 & H2 & _ & _ & _ & H3); [|done|].
  - split_and!; done.
  - split_and!; [done| |].
    + eapply window_bound; [apply max_hour_pos|exact H1].
    + eapply window_bound; [apply max_day_pos|exact H2].
Qed.

(** The check is not atomic with the record: the lock is released between
    them, so two senders that both pass the check at the last free place of the
    hour both send, and the count goes past the limit. *)
Theorem two_checks_exceed st now row :
  checkMessageSafety false st now (Some row) = Ok tt -> safety_enabled st = true ->
  window_start row = Some now -> window_count row = max_hour st - 1 ->
  let row1 := recordMessageSafety false st now (Some row) in
  let row2 := recordMessageSafety false st now row1 in
  window_count <$> row2 = Some (max_hour st + 1) /\
  last_sent_at <$> row2 = last_sent_at <$> row1.
Proof.
  intros _ Hen Hw Hc. unfold recordMessageSafety. rewrite Hen. cbn [negb orb].
  change (default no_row (Some row)) with row. rewrite Hw. cbn [current_window].
  rewrite Z.sub_diag. change (hour <=? 0) with false. cbv iota.
  destruct (current_window now day (day_start row) (day_count row)) as [ds dc].
  match goal with |- context [default no_row (Some ?r)] => change (default no_row (Some r)) with r end.
  cbn [window_start window_count day_start day_count current_window].
  rewrite Z.sub_diag. change (hour <=? 0) with false. cbv iota.
  destruct (day <=? now - ds); cbn; split; (done || f_equal; lia).
Qed.

(** ** Witnesses *)

Definition no_settings : settings := fun _ => None.
Definition tight_settings : settings := fun key =>
  if String.eqb key "safety_max_messages_hour" then Some "2"
  else if String.eqb key "safety_min_interval_ms" then Some "1000" else None.

(** Three attempts around the end of a window, and one too soon. *)
Definition sample_attempts : list (Z * Z) :=
  [(0, 0); (hour - second, hour - second); (hour - 1, hour - 1); (hour, hour); (hour + second, hour + second)].

Lemma limiter_limits_witness :
  let log := fst (limiter_run tight_settings None sample_attempts) in
  spaced (min_interval tight_settings) log /\
  (forall from, count_in from (from + hour) log <= 2 * max_hour tight_settings) /\
  (forall from, count_in from (from + day) log <= 2 * max_day tight_settings).
Proof.
  apply (limiter_limits tight_settings sample_attempts 0); [reflexivity|].
  unfold sample_attempts, ordered, hour, second, millisecond. lia.
Defined.

(** The fixed windows meet: three messages within three seconds, with a limit
    of two an hour. *)
Example windows_meet :
  fst (limiter_run tight_settings None sample_attempts) = [hour + second; hour; hour - second; 0].
Proof. reflexivity. Qed.

Lemma two_checks_exceed_witness :
  let row := mkRow None (Some 0) 19 (Some 0) 19 in
  let row1 := recordMessageSafety false no_settings 0 (Some row) in
  let row2 := recordMessageSafety false no_settings 0 row1 in
  window_count <$> row2 = Some (max_hour no_settings + 1) /\
  last_sent_at <$> row2 = last_sent_at <$> row1.
Proof.
  apply (two_checks_exceed no_settings 0 (mkRow None (Some 0) 19 (Some 0) 19)); reflexivity.
Defined.

Definition sample_to : JID := NewJID "15551234567" DefaultUserServer.
Definition sample_env (err : option string) : send_env :=
  mkEnv true 0 0 0 0 0 0 (inr None) (inr None) (Some (NewJID "77" HiddenUserServer)) None (inr []) err (inl "offline")
    (fun _ st => st) (fun _ => false).
Definition empty_panel : panel := mkPanel ∅ ∅ (mkHealths ∅ ∅) [].

Definition after_463 : panel * list effect * outcome send_error unit :=
  safeSendMessage no_settings (sample_env (Some "server returned error 463")) "u" sample_to "hi" empty_panel.

Lemma timelock_pauses_witness :
  exists s, health_cache (healths (fst (fst after_463))) !! "u" = Some s /\ TimelockActive s = true /\
  forall st' env' target' text',
    e_health_at env' <= e_decide_at env' -> timelocked (e_decide_at env') s = true ->
    sends (snd (fst (safeSendMessage st' env' "u" target' text' (fst (fst after_463))))) = [].
Proof.
  apply (timelock_pauses no_settings (sample_env (Some "server returned error 463")) "u" sample_to "hi"
    empty_panel (fst (fst after_463)) (snd (fst after_463))).
  - vm_compute. reflexivity.
  - intros kind until. discriminate.
Defined.

End safety.
