(* ===== verification/Bulk.v ===== *)
(** * bulk_messaging.go: the bulk message queue

    The rows of bulk_messages that belong to the shared queue, claiming,
    marking, the queue actions of the import handler and one round of the
    worker, which sends through Safety.v's [safeSendMessage], and what the CSV
    import accepts of a record. The texts of last_error, the request parsing
    and the pages are left out. *)

From S2P Require Import Prelude GoStrings Jid Safety.

#[local] Open Scope string_scope.
#[local] Open Scope list_scope.
#[local] Open Scope Z_scope.

Module bulk.

Import jid safety.

(** ** Numbers *)

(** [strings.NewReplacer] with " ", "-", "(" and ")" going to nothing. *)
Definition is_punct (a : ascii) : bool :=
  Ascii.eqb a " " || Ascii.eqb a "-" || Ascii.eqb a "(" || Ascii.eqb a ")".

Fixpoint strip_punct (s : string) : string :=
  match s with
  | EmptyString => ""
  | String a s' => if is_punct a then strip_punct s' else String a (strip_punct s')
  end.

Fixpoint all_digit (s : string) : bool :=
  match s with
  | EmptyString => true
  | String a s' => match digit a with Some _ => all_digit s' | None => false end
  end.

Definition normalizeBulkPhone (v : string) : option string :=
  let v := trim_space (trim_prefix "'" v) in
  let v := trim_prefix "+" v in
  let v := strip_punct v in
  let n := Z.of_nat (String.length v) in
  if (n <? 7) || (15 <? n) then None
  else if all_digit v then Some v else None.

(** ** Records of an import *)

Definition bom : string := String (ascii_of_nat 239) (String (ascii_of_nat 187) (String (ascii_of_nat 191) "")).

Inductive skip_reason :=
  | MissingPhoneOrMessage | InvalidPhone | EmptyMessage | MessageTooLong | MissingConsent | ConsentNotGranted.

(** What is inserted: the number, the message and the consent. *)
Record import_row := mkImport { i_phone : string; i_message : string; i_consent : string }.

Definition import_record (phoneIdx msgIdx consIdx : nat) (rec : list string) : outcome skip_reason import_row :=
  let rec := map (fun f => trim_space (trim_prefix bom f)) rec in
  match rec !! phoneIdx, rec !! msgIdx with
  | Some rawPhone, Some rawMsg =>
      match normalizeBulkPhone rawPhone with
      | None => Err InvalidPhone
      | Some phone =>
          let msg := trim_space rawMsg in
          if String.eqb msg "" then Err EmptyMessage
          else if 10000 <? Z.of_nat (String.length msg) then Err MessageTooLong
          else
            match rec !! consIdx with
            | None => Err MissingConsent
            | Some c =>
                let cons := to_lower (trim_space c) in
                if negb (String.eqb cons "yes") && negb (String.eqb cons "true") && negb (String.eqb cons "1")
                then Err ConsentNotGranted
                else Ok (mkImport phone msg cons)
            end
      end
  | _, _ => Err MissingPhoneOrMessage
  end.

(** ** The queue *)

Inductive bulk_status := Queued | Sending | Sent | Failed | Paused | Cancelled.

#[global] Instance bulk_status_eq_dec : EqDecision bulk_status.
Proof. solve_decision. Defined.

Record bulk_row := mkBulk {
  b_id : Z;
  b_target : string;
  b_message : string;
  b_status : bulk_status;
  b_attempts : Z;
  b_sender : option string;
  b_updated : Z
}.

(** [UPDATE ... WHERE id = ...]. *)
Definition update_row (id : Z) (f : bulk_row -> bulk_row) (q : list bulk_row) : list bulk_row :=
  map (fun r => if b_id r =? id then f r else r) q.

Definition set_status (s : bulk_status) (now : Z) (r : bulk_row) : bulk_row :=
  mkBulk (b_id r) (b_target r) (b_message r) s (b_attempts r) (b_sender r) now.

(** The queued row with a target that has the smallest id. *)
Definition claimable (r : bulk_row) : bool :=
  bool_decide (b_status r = Queued) && negb (String.eqb (b_target r) "").

Fixpoint next_row (q : list bulk_row) : option bulk_row :=
  match q with
  | [] => None
  | r :: q' =>
      let best := next_row q' in
      if claimable r then
        match best with
        | Some b => if b_id b <? b_id r then best else Some r
        | None => Some r
        end
      else best
  end.

Definition claimBulkRow (now : Z) (uid : string) (q : list bulk_row) :
    option (Z * string * string) * list bulk_row :=
  match next_row q with
  | None => (None, q)
  | Some r =>
      (Some (b_id r, b_target r, b_message r),
       update_row (b_id r)
         (fun r => mkBulk (b_id r) (b_target r) (b_message r) Sending (b_attempts r + 1) (Some uid) now) q)
  end.

Definition markBulkFailed (now id : Z) : list bulk_row -> list bulk_row := update_row id (set_status Failed now).
Definition markBulkSent (now id : Z) : list bulk_row -> list bulk_row := update_row id (set_status Sent now).

(** [bulkSenderForIndex]. *)
Definition bulkSenderForIndex (ids : list string) (i : nat) : string :=
  match ids with
  | [] => ""
  | _ => nth (i mod length ids) ids ""
  end.

(** The actions of the import handler. *)
Inductive bulk_action := Pause | Resume | Cancel | RetryFailed | ClearQueue.

Definition parse_action (a : string) : option bulk_action :=
  let a := to_lower (trim_space a) in
  if String.eqb a "pause" then Some Pause
  else if String.eqb a "resume" then Some Resume
  else if String.eqb a "cancel" then Some Cancel
  else if String.eqb a "retry_failed" then Some RetryFailed
  else if String.eqb a "clear_queue" then Some ClearQueue
  else None.

Definition run_action (a : bulk_action) (now : Z) (q : list bulk_row) : list bulk_row :=
  let where_ (p : bulk_row -> bool) (f : bulk_row -> bulk_row) := map (fun r => if p r then f r else r) q in
  match a with
  | Pause => where_ (fun r => bool_decide (b_status r = Queued)) (set_status Paused now)
  | Resume => where_ (fun r => bool_decide (b_status r = Paused)) (set_status Queued now)
  | Cancel =>
      where_ (fun r => bool_decide (b_status r = Queued \/ b_status r = Paused \/ b_status r = Failed))
        (set_status Cancelled now)
  | RetryFailed =>
      where_ (fun r => bool_decide (b_status r = Failed))
        (fun r => mkBulk (b_id r) (b_target r) (b_message r) Queued 0 None now)
  | ClearQueue =>
      List.filter (fun r => bool_decide (b_status r = Sending \/ b_status r = Sent)) q
  end.

(** What the status handler puts back: rows that have been sending for a
    quarter of an hour. *)
Definition recoverStuck (now : Z) (q : list bulk_row) : list bulk_row :=
  map (fun r =>
    if bool_decide (b_status r = Sending) && (b_updated r <? now - 15 * 60 * second)
    then mkBulk (b_id r) (b_target r) (b_message r) Queued (b_attempts r) None now
    else r) q.

(** The loop of [processBulkMessagesGlobal]: [sessions] tells which accounts
    still have a client, [envs] what each send meets, [times] the database's
    clock. *)
Fixpoint process_batch (st : settings) (ids : list string) (sessions : string -> bool)
    (envs : nat -> send_env) (times : nat -> Z) (limit i : nat) (q : list bulk_row) (p : panel)
    (es : list effect) : list bulk_row * panel * list effect :=
  match limit with
  | O => (q, p, es)
  | S limit' =>
      let uid := bulkSenderForIndex ids i in
      match claimBulkRow (times i) uid q with
      | (None, q) => (q, p, es)
      | (Some (id, target, text), q) =>
          if negb (sessions uid) then
            process_batch st ids sessions envs times limit' (i + 1) (markBulkFailed (times i) id q) p es
          else
            let '(p, es', r) :=
              safeSendMessage st (envs i) uid (mkJID target 0 0 0 DefaultUserServer) text p in
            let q := match r with Ok _ => markBulkSent (times i) id q | _ => markBulkFailed (times i) id q end in
            process_batch st ids sessions envs times limit' (i + 1) q p (es ++ es')
      end
  end.

Definition processBulkMessagesGlobal (st : settings) (ids : list string) (sessions : string -> bool)
    (envs : nat -> send_env) (times : nat -> Z) (q : list bulk_row) (p : panel) :
    list bulk_row * panel * list effect :=
  if negb (String.eqb (getAdminSetting st "bulk_auto_send_enabled" "false") "true") then (q, p, [])
  else
    match ids with
    | [] => (q, p, [])
    | _ =>
        process_batch st ids sessions envs times (Z.to_nat (safeSettingInt st "bulk_batch_size" 5 1 20)) 0 q p []
    end.

(** ** Numbers: a normal form *)

Lemma digit_plain a : is_Some (digit a) ->
  is_punct a = false /\ is_space a = false /\ Ascii.eqb a "'" = false /\ Ascii.eqb a "+" = false.
Proof.
  destruct a as [[] [] [] [] [] [] [] []]; vm_compute; intros [d H]; try discriminate H; done.
Qed.

Lemma all_digit_cons a s : all_digit (String a s) = true -> is_Some (digit a) /\ all_digit s = true.
Proof. cbn. destruct (digit a) eqn:E; [|done]. intros H. split; [by eexists|done]. Qed.

Lemma strip_punct_digits s : all_digit s = true -> strip_punct s = s.
Proof.
  induction s as [|a s IH]; [done|]. intros [Ha Hs]%all_digit_cons.
  apply digit_plain in Ha as (Hp & _). cbn. rewrite Hp. by rewrite IH.
Qed.

Lemma trim_right_digits s : all_digit s = true -> trim_right s = s.
Proof.
  induction s as [|a s IH]; [done|]. intros [Ha Hs]%all_digit_cons.
  apply digit_plain in Ha as (_ & Hp & _). cbn. rewrite (IH Hs), Hp. by destruct s.
Qed.

Lemma trim_space_digits s : all_digit s = true -> trim_space s = s.
Proof.
  intros H. unfold trim_space. replace (trim_left s) with s; [by apply trim_right_digits|].
  destruct s as [|a s]; [done|]. apply all_digit_cons in H as [Ha _].
  apply digit_plain in Ha as (_ & Hp & _). cbn. by rewrite Hp.
Qed.

Lemma trim_prefix_digits c s : digit c = None -> all_digit s = true -> trim_prefix (String c "") s = s.
Proof.
  intros Hc H. unfold trim_prefix. destruct s as [|a s]; [done|].
  apply all_digit_cons in H as [[d Ha] _]. cbn.
  destruct (Ascii.eqb_spec c a) as [->|]; [congruence|done].
Qed.

Lemma normalize_digits v :
  all_digit v = true -> 7 <= Z.of_nat (String.length v) <= 15 -> normalizeBulkPhone v = Some v.
Proof.
  intros Hd Hl. unfold normalizeBulkPhone.
  rewrite (trim_prefix_digits "'" v), (trim_space_digits v), (trim_prefix_digits "+" v), (strip_punct_digits v), Hd by done.
  destruct (Z.ltb_spec (Z.of_nat (String.length v)) 7), (Z.ltb_spec 15 (Z.of_nat (String.length v))); (done || lia).
Qed.

Lemma normalize_inv v w : normalizeBulkPhone v = Some w ->
  all_digit w = true /\ 7 <= Z.of_nat (String.length w) <= 15.
Proof.
  unfold normalizeBulkPhone. set (x := strip_punct _). destruct (_ || _) eqn:E; [done|].
  destruct (all_digit x) eqn:Hd; [|done]. intros [= <-]. split; [done|]. lia.
Qed.

(** Only consented, well-formed records are queued: what the import takes
    from a CSV record is a number of 7 to 15 digits in normal form, a message
    of 1 to 10000 bytes and a consent that says yes. *)
Lemma import_record_consented pi mi ci rec row :
  import_record pi mi ci rec = Ok row ->
  all_digit (i_phone row) = true /\ 7 <= Z.of_nat (String.length (i_phone row)) <= 15 /\
  normalizeBulkPhone (i_phone row) = Some (i_phone row) /\
  1 <= Z.of_nat (String.length (i_message row)) <= 10000 /\
  i_consent row ∈ ["yes"; "true"; "1"].
Proof.
  unfold import_record. set (r := map _ rec).
  destruct (r !! pi) as [raw|]; [|done]. destruct (r !! mi) as [rawMsg|]; [|done].
  destruct (normalizeBulkPhone raw) as [phone|] eqn:Hp; [|done].
  apply normalize_inv in Hp as [Hd Hl].
  destruct (String.eqb_spec (trim_space rawMsg) "") as [|Hm]; [done|].
  destruct (Z.ltb_spec 10000 (Z.of_nat (String.length (trim_space rawMsg)))); [done|].
  destruct (r !! ci) as [c|]; [|done]. set (cons := to_lower _).
  intros H1. assert (cons ∈ ["yes"; "true"; "1"] /\ row = mkImport phone (trim_space rawMsg) cons) as [Hc ->].
  { destruct (String.eqb_spec cons "yes") as [E|_]; [|destruct (String.eqb_spec cons "true") as [E|_];
      [|destruct (String.eqb_spec cons "1") as [E|_]; [|done]]];
      injection H1 as <-; rewrite E; set_solver. }
  cbn [i_phone i_message i_consent]. split_and!; try done; try lia.
  - by apply normalize_digits.
  - destruct (trim_space rawMsg); [done|]. cbn. lia.
Qed.

Lemma import_record_consented_witness :
  let row := mkImport "15551234567" "hi" "yes" in
  all_digit (i_phone row) = true /\ 7 <= Z.of_nat (String.length (i_phone row)) <= 15 /\
  normalizeBulkPhone (i_phone row) = Some (i_phone row) /\
  1 <= Z.of_nat (String.length (i_message row)) <= 10000 /\
  i_consent row ∈ ["yes"; "true"; "1"].
Proof. apply (import_record_consented 0 1 2 ["+1 (555) 123-4567"; " hi "; "YES"]). vm_compute. reflexivity. Defined.

(** ** One step of a batch *)

Definition taken (s : bulk_status) (uid : string) (now : Z) (r : bulk_row) : bulk_row :=
  mkBulk (b_id r) (b_target r) (b_message r) s (b_attempts r + 1) (Some uid) now.

Lemma update_row_twice id f g q : (forall r, b_id (g r) = b_id r) ->
  update_row id f (update_row id g q) = update_row id (fun r => f (g r)) q.
Proof.
  intros Hg. unfold update_row. rewrite map_map. apply map_ext. intros r.
  destruct (b_id r =? id) eqn:E; rewrite ?Hg, E; done.
Qed.

Lemma update_row_other id f q : id ∉ map b_id q -> update_row id f q = q.
Proof.
  induction q as [|r q IH]; [done|]. cbn. rewrite not_elem_of_cons. intros [Hn Hq].
  destruct (Z.eqb_spec (b_id r) id); [by subst|]. f_equal. by apply IH.
Qed.

Lemma next_row_in q r : next_row q = Some r -> r ∈ q /\ claimable r = true.
Proof.
  revert r. induction q as [|x q IH]; intros r; [done|]. cbn. destruct (claimable x) eqn:Hx.
  - destruct (next_row q) as [b|]; [destruct (b_id b <? b_id x)|]; intros [= <-];
      try (split; [left|done]). destruct (IH b eq_refl). by split; [right|].
  - intros H. destruct (IH r H). by split; [right|].
Qed.

Lemma next_row_least q r x : next_row q = Some r -> x ∈ q -> claimable x = true -> b_id r <= b_id x.
Proof.
  revert r. induction q as [|y q IH]; intros r; cbn; [by intros ? ?%not_elem_of_nil|].
  intros H [->|Hx]%elem_of_cons Hc.
  - rewrite Hc in H. destruct (next_row q) as [b|]; [destruct (Z.ltb_spec (b_id b) (b_id y))|];
      injection H as <-; lia.
  - assert (exists b, next_row q = Some b) as [b Hb].
    { clear -Hx Hc. induction q as [|z q IH]; [by apply not_elem_of_nil in Hx|]. cbn.
      apply elem_of_cons in Hx as [->|Hx].
      - rewrite Hc. destruct (next_row q) as [b|]; [destruct (_ <? _)|]; by eexists.
      - destruct (IH Hx) as [b ->]. destruct (claimable z); [destruct (_ <? _)|]; by eexists. }
    specialize (IH b Hb Hx Hc). rewrite Hb in H.
    destruct (claimable y); [destruct (Z.ltb_spec (b_id b) (b_id y))|]; injection H as <-; lia.
Qed.

(** What one turn of the loop does with the row it claims. *)
Definition turn (st : settings) (uid : string) (sessions : string -> bool) (env : send_env) (now : Z)
    (r : bulk_row) (p : panel) : bulk_status * panel * list effect :=
  if negb (sessions uid) then (Failed, p, [])
  else
    let '(p', es, res) := safeSendMessage st env uid (mkJID (b_target r) 0 0 0 DefaultUserServer) (b_message r) p in
    ((match res with Ok _ => Sent | _ => Failed end), p', es).

Lemma process_batch_step st ids sessions envs times n i q p es r :
  next_row q = Some r ->
  process_batch st ids sessions envs times (Datatypes.S n) i q p es =
  (let uid := bulkSenderForIndex ids i in
   let '(s, p', es') := turn st uid sessions (envs i) (times i) r p in
   process_batch st ids sessions envs times n (i + 1) (update_row (b_id r) (taken s uid (times i)) q) p'
     (es ++ es')).
Proof.
  intros Hr. cbn [process_batch]. unfold claimBulkRow. rewrite Hr. unfold turn.
  destruct (negb (sessions _)).
  - rewrite app_nil_r. f_equal. unfold markBulkFailed. by rewrite update_row_twice.
  - destruct (safeSendMessage _ _ _ _ _ _) as [[p' es'] res].
    unfold markBulkFailed, markBulkSent. destruct res; by rewrite update_row_twice.
Qed.

Lemma turn_spec st uid sessions env now r p s p' es :
  turn st uid sessions env now r p = (s, p', es) ->
  (s = Sent /\ length (sends es) = 1%nat) \/ (s = Failed /\ (length (sends es) <= 1)%nat).
Proof.
  unfold turn. destruct (negb (sessions uid)); [intros [= <- <- <-]; right; cbn; split; [done|lia]|].
  destruct (safeSendMessage _ _ _ _ _ _) as [[p1 es1] res] eqn:H. intros [= <- <- <-].
  apply safeSendMessage_cases in H as [(-> & _ & Hok & _)|(_ & _ & _ & _ & q & _ & H)].
  - right. destruct res; [done|..]; split; (done || cbn; lia).
  - apply deliver_spec in H as (H1 & H2 & _). destruct res as [[]|e| |]; [left|right..]; split; try done.
    by apply H2.
Qed.

(** ** A batch over the queue *)

(** The rows with status [s]. *)
Definition count_status (s : bulk_status) (q : list bulk_row) : nat :=
  length (List.filter (fun r => bool_decide (b_status r = s)) q).

(** A row of the queue before and after a batch. *)
Definition moved (r r' : bulk_row) : Prop :=
  r' = r \/
  (b_status r = Queued /\ b_status r' ∈ [Sent; Failed] /\ b_attempts r' = b_attempts r + 1 /\
   b_id r' = b_id r /\ b_target r' = b_target r /\ b_message r' = b_message r).

Lemma count_status_update s id f q r :
  NoDup (map b_id q) -> r ∈ q -> b_id r = id ->
  (count_status s (update_row id f q) + (if bool_decide (b_status r = s) then 1 else 0) =
   count_status s q + (if bool_decide (b_status (f r) = s) then 1 else 0))%nat.
Proof.
  induction q as [|x q IH]; [by intros ? ?%not_elem_of_nil|].
  cbn [map]. intros [Hx Hq]%NoDup_cons [->|Hr]%elem_of_cons Hid.
  - cbn. rewrite Hid, Z.eqb_refl. fold (update_row id f q). rewrite update_row_other by congruence.
    unfold count_status. cbn [List.filter].
    destruct (bool_decide (b_status (f x) = s)), (bool_decide (b_status x = s)); cbn [length]; lia.
  - specialize (IH Hq Hr Hid). assert (b_id x <> id) as Hne.
    { intros E. apply Hx. rewrite E, <- Hid. by apply list_elem_of_fmap_2. }
    unfold count_status in *. cbn [update_row map].
    destruct (Z.eqb_spec (b_id x) id); [done|]. fold (update_row id f q). cbn [List.filter].
    destruct (bool_decide (b_status x = s)); cbn [length]; lia.
Qed.

Lemma update_row_ids id f q : (forall r, b_id (f r) = b_id r) -> map b_id (update_row id f q) = map b_id q.
Proof.
  intros Hf. unfold update_row. rewrite map_map. apply map_ext. intros r. by destruct (b_id r =? id).
Qed.

Lemma update_row_moved id s uid now q r :
  NoDup (map b_id q) -> r ∈ q -> b_id r = id -> b_status r = Queued -> s ∈ [Sent; Failed] ->
  Forall2 moved q (update_row id (taken s uid now) q).
Proof.
  intros Hq Hr Hid Hs Hin. apply Forall2_fmap_r, Forall_Forall2_diag, Forall_forall. intros x Hx. unfold compose.
  destruct (Z.eqb_spec (b_id x) id) as [E|]; [|by left]. right.
  assert (x = r) as ->.
  { apply list_elem_of_lookup in Hx as [i Hi], Hr as [j Hj].
    assert (i = j) as ->; [|congruence].
    apply (NoDup_lookup (map b_id q) i j (b_id x)); [done| |];
      rewrite (list_lookup_fmap b_id q); [by rewrite Hi|rewrite Hj; cbn; congruence]. }
  done.
Qed.

Lemma moved_trans q1 q2 q3 : Forall2 moved q1 q2 -> Forall2 moved q2 q3 -> Forall2 moved q1 q3.
Proof.
  apply Forall2_trans. intros r1 r2 r3 [->|H12] [->|H23]; [by left|by right|by right|].
  exfalso. destruct H12 as (_ & H & _), H23 as (Hq & _). rewrite Hq in H. set_solver.
Qed.

Lemma claimable_queued r : claimable r = true -> b_status r = Queued.
Proof. unfold claimable. destruct (bool_decide_reflect (b_status r = Queued)); [done|discriminate]. Qed.

(** Evaluate the comparisons of concrete statuses in the hypotheses. *)
Ltac eval_decide :=
  repeat match goal with
  | H : context [bool_decide (?a = ?b)] |- _ =>
      let v := eval vm_compute in (bool_decide (a = b)) in
      change (bool_decide (a = b)) with v in H
  end; cbv iota in *.

(** What a batch of [n] turns does, in numbers. *)
Definition batch_account (q q' : list bulk_row) (n : nat) (sent : nat) : Prop :=
  exists k, (k <= n)%nat /\
    count_status Queued q = (count_status Queued q' + k)%nat /\
    (count_status Sent q' + count_status Failed q' = count_status Sent q + count_status Failed q + k)%nat /\
    (sent <= k)%nat /\ (count_status Sent q' <= count_status Sent q + sent)%nat.

Lemma batch_inv st ids sessions envs times n : forall i q p es q' p' es',
  NoDup (map b_id q) ->
  process_batch st ids sessions envs times n i q p es = (q', p', es') ->
  exists new, es' = es ++ new /\ Forall2 moved q q' /\ batch_account q q' n (length (sends new)).
Proof.
  assert (Hrefl : forall q, Forall2 moved q q).
  { intros q. apply Forall_Forall2_diag, Forall_forall. by left. }
  induction n as [|n IH]; intros i q p es q' p' es' Hq H.
  - injection H as <- <- <-. exists []. rewrite app_nil_r. split_and!; [done|done|].
    exists 0%nat. cbn. lia.
  - destruct (next_row q) as [r|] eqn:Hr.
    + rewrite (process_batch_step _ _ _ _ _ _ _ _ _ _ _ Hr) in H. cbv zeta in H.
      destruct (turn _ _ _ _ _ _ _) as [[s p1] es1] eqn:Ht. apply turn_spec in Ht.
      apply next_row_in in Hr as [Hin Hc%claimable_queued].
      set (uid := bulkSenderForIndex ids i) in *. set (q1 := update_row _ _ q) in *.
      assert (Hs : s ∈ [Sent; Failed]) by (destruct Ht as [[-> _]|[-> _]]; set_solver).
      assert (Hcnt : forall x, _) by exact (fun x => count_status_update x (b_id r) (taken s uid (times i)) q r Hq Hin eq_refl).
      apply IH in H as (new & -> & Hmv & k & Hk & Hqu & Hsf & Hle & Hse);
        [|subst q1; by rewrite update_row_ids].
      exists (es1 ++ new). rewrite app_assoc, sends_app, length_app. split_and!; [done| |].
      * eapply moved_trans; [|exact Hmv]. eapply update_row_moved; done.
      * pose proof (Hcnt Queued) as C1. pose proof (Hcnt Sent) as C2. pose proof (Hcnt Failed) as C3.
        fold q1 in C1, C2, C3. cbn [taken b_status] in C1, C2, C3. rewrite Hc in C1, C2, C3.
        exists (Datatypes.S k). destruct Ht as [[-> He]|[-> He]]; eval_decide; lia.
    + cbn [process_batch] in H. unfold claimBulkRow in H. rewrite Hr in H. injection H as <- <- <-.
      exists []. rewrite app_nil_r. split_and!; [done|done|]. exists 0%nat. cbn. lia.
Qed.

Lemma batch_size_bound st : 0 <= safeSettingInt st "bulk_batch_size" 5 1 20 <= 20.
Proof.
  unfold safeSettingInt, settingInt. destruct (sscanf_d _) as [n|]; [|lia].
  destruct (Z.ltb_spec n 1); [lia|]. destruct (Z.ltb_spec 20 n); lia.
Qed.

(** A round of the worker loses and repeats nothing: rows that are not
    queued stay as they are; a queued row stays, or ends as sent or failed with
    one attempt more and is never left as sending; at most 20 rows leave the
    queue, at most one message is sent for each, and a row counts as sent only
    for a message that was. *)
Theorem processBulkMessagesGlobal_rows st ids sessions envs times q p :
  NoDup (map b_id q) ->
  let '(q', _, es) := processBulkMessagesGlobal st ids sessions envs times q p in
  Forall2 moved q q' /\ batch_account q q' 20 (length (sends es)).
Proof.
  intros Hq. unfold processBulkMessagesGlobal.
  assert (H0 : Forall2 moved q q /\ batch_account q q 20 (length (sends []))).
  { split; [apply Forall_Forall2_diag, Forall_forall; by left|]. exists 0%nat. cbn. lia. }
  destruct (negb _); [done|]. destruct ids as [|x ids]; [done|].
  pose proof (batch_size_bound st) as Hb.
  destruct (process_batch _ _ _ _ _ _ _ _ _ _) as [[q' p'] es] eqn:H.
  apply batch_inv in H as (new & -> & Hm & k & Hk & Hrest); [|done].
  split; [done|]. exists k. split; [lia|exact Hrest].
Qed.

(** ** The limiter inside a batch *)

Lemma turn_refused st uid sessions env now r p e :
  checkMessageSafety (e_fails env LimiterCheck) (e_settings env AtCheck st) (e_check_at env) (rows p !! uid) = Err e ->
  exists p', turn st uid sessions env now r p = (Failed, p', []) /\ rows p' = rows p.
Proof.
  intros Hc. unfold turn. destruct (negb (sessions uid)); [by eexists|].
  destruct (safeSendMessage _ _ _ _ _ _) as [[p' es] res] eqn:H.
  apply safeSendMessage_cases in H as [(-> & Hr & Hok & _)|(_ & _ & _ & (_ & Hg & _) & _)]; [|congruence].
  exists p'. split; [|done]. by destruct res.
Qed.

Lemma turn_sent_row st uid sessions env now r p p' es :
  safety_enabled (e_settings env AtRecord st) = true -> e_fails env LimiterRecord = false ->
  turn st uid sessions env now r p = (Sent, p', es) ->
  exists row, rows p' !! uid = Some row /\ last_sent_at row = Some (e_record_at env).
Proof.
  intros Hen Hf. unfold turn. destruct (negb (sessions uid)); [done|].
  destruct (safeSendMessage _ _ _ _ _ _) as [[p1 es1] res] eqn:H. intros [= Hres <- <-].
  destruct res as [u|e| |]; try done.
  apply safeSendMessage_cases in H as [(_ & _ & Hok & _)|(_ & _ & _ & _ & q & _ & H)]; [done|].
  apply deliver_spec in H as (_ & _ & Hr). rewrite Hr. unfold rows_after. cbn [is_ok].
  unfold recordMessageSafety. rewrite Hen, Hf. cbn [negb orb].
  destruct (current_window _ hour _ _) as [ws hc], (current_window _ day _ _) as [ds dc].
  destruct (rows q !! uid) as [row|]; rewrite lookup_insert_eq; by eexists.
Qed.

Lemma check_too_soon fails st now row l :
  safety_enabled st = true -> last_sent_at row = Some l -> now - l < min_interval st ->
  exists e, checkMessageSafety fails st now (Some row) = Err e.
Proof.
  intros Hen Hl Hlt. unfold checkMessageSafety. rewrite Hen. cbn [negb]. destruct fails; [by eexists|]. cbv zeta.
  change (default no_row (Some row)) with row. rewrite Hl. cbv iota.
  destruct (Z.ltb_spec 0 (min_interval st - (now - l))); [by eexists|lia].
Qed.

Lemma next_row_cons r q : claimable r = true -> Forall (fun x => b_id r < b_id x) q -> next_row (r :: q) = Some r.
Proof.
  intros Hc Hf. cbn. rewrite Hc. destruct (next_row q) as [b|] eqn:Hb; [|done].
  apply next_row_in in Hb as [Hb _]. rewrite Forall_forall in Hf. specialize (Hf b Hb).
  destruct (Z.ltb_spec (b_id b) (b_id r)); [lia|done].
Qed.

Lemma next_row_skip r q : claimable r = false -> next_row (r :: q) = next_row q.
Proof. intros H. cbn. by rewrite H. Qed.

Lemma update_row_head r f q : Forall (fun x => b_id r < b_id x) q -> update_row (b_id r) f (r :: q) = f r :: q.
Proof.
  intros Hf. cbn. rewrite Z.eqb_refl. f_equal. apply update_row_other. intros H.
  apply list_elem_of_fmap in H as (x & E & Hx). rewrite Forall_forall in Hf. specialize (Hf x Hx). lia.
Qed.

(** A batch outruns the limiter: with one account connected, the row
    claimed right after a message was sent is not put back or delayed but
    marked failed, without a send, whenever the second check comes within the
    minimum interval of the first record; the settings stay as they are and the first
    record is written. *)
Theorem burst_fails_row st uid sessions envs times r1 r2 rest p p1 es1 :
  safety_enabled st = true -> (forall k m, e_settings (envs k) m st = st) -> e_fails (envs 0%nat) LimiterRecord = false ->
  claimable r1 = true -> claimable r2 = true ->
  Forall (fun x => b_id r1 < b_id x) (r2 :: rest) -> Forall (fun x => b_id r2 < b_id x) rest ->
  turn st uid sessions (envs 0%nat) (times 0%nat) r1 p = (Sent, p1, es1) ->
  e_check_at (envs 1%nat) - e_record_at (envs 0%nat) < min_interval st ->
  exists p2,
    process_batch st [uid] sessions envs times 2 0 (r1 :: r2 :: rest) p [] =
    (taken Sent uid (times 0%nat) r1 :: taken Failed uid (times 1%nat) r2 :: rest, p2, es1).
Proof.
  intros Hen Hst Hfail H1 H2 Hf1 Hf2 Ht Hgap.
  destruct (turn_sent_row _ _ _ _ _ _ _ _ _ (eq_trans (f_equal safety_enabled (Hst 0%nat AtRecord)) Hen) Hfail Ht) as (row & Hrow & Hl).
  destruct (check_too_soon (e_fails (envs 1%nat) LimiterCheck) st (e_check_at (envs 1%nat)) row _ Hen Hl Hgap) as (e & He).
  rewrite <- Hrow, <- (Hst 1%nat AtCheck) in He.
  destruct (turn_refused st uid sessions _ (times 1%nat) r2 p1 e He) as (p2 & Ht2 & _).
  rewrite (process_batch_step _ _ _ _ _ _ _ _ _ _ r1) by (by apply next_row_cons).
  change (bulkSenderForIndex [uid] 0) with uid. cbv zeta. rewrite Ht, update_row_head by done.
  rewrite (process_batch_step _ _ _ _ _ _ _ _ _ _ r2)
    by (rewrite next_row_skip by done; by apply next_row_cons).
  change (bulkSenderForIndex [uid] (0 + 1)) with uid. cbv zeta.
  change (0 + 1)%nat with 1%nat. rewrite Ht2. cbn [process_batch]. rewrite app_nil_r.
  exists p2. f_equal. f_equal. change (update_row ?i ?f (?x :: ?l)) with ((if b_id x =? i then f x else x) :: update_row i f l).
  cbn [taken b_id]. apply Forall_cons in Hf1 as [Hlt _].
  destruct (Z.eqb_spec (b_id r1) (b_id r2)); [lia|]. by rewrite update_row_head.
Qed.

(** ** Witnesses *)

Definition auto_settings : settings := fun key =>
  if String.eqb key "bulk_auto_send_enabled" then Some "true" else None.

Definition sample_row (id : Z) (s : bulk_status) : bulk_row :=
  mkBulk id "15551234567" "hello" s 0 None 0.
Definition sample_queue : list bulk_row := [sample_row 1 Queued; sample_row 2 Paused; sample_row 3 Queued].

(** The worker's sends follow each other at once; all clocks read zero. *)
Definition quiet (n : nat) : send_env := sample_env None.

Lemma processBulkMessagesGlobal_rows_witness :
  let '(q', _, es) :=
    processBulkMessagesGlobal auto_settings ["u"] (fun _ => true) quiet (fun _ => 0) sample_queue empty_panel in
  Forall2 moved sample_queue q' /\ batch_account sample_queue q' 20 (length (sends es)).
Proof.
  apply (processBulkMessagesGlobal_rows auto_settings ["u"] (fun _ => true) quiet (fun _ => 0) sample_queue
    empty_panel).
  refine (bool_decide_unpack _ _). vm_compute. exact I.
Defined.

Example sample_round :
  map b_status (fst (fst (processBulkMessagesGlobal auto_settings ["u"] (fun _ => true) quiet (fun _ => 0)
    sample_queue empty_panel))) = [Sent; Paused; Failed].
Proof. vm_compute. reflexivity. Qed.

Definition first_turn : bulk_status * panel * list effect :=
  turn auto_settings "u" (fun _ => true) (quiet 0) 0 (sample_row 1 Queued) empty_panel.

Lemma burst_fails_row_witness :
  exists p2,
    process_batch auto_settings ["u"] (fun _ => true) quiet (fun _ => 0) 2 0
      [sample_row 1 Queued; sample_row 3 Queued] empty_panel [] =
    ([taken Sent "u" 0 (sample_row 1 Queued); taken Failed "u" 0 (sample_row 3 Queued)], p2, snd first_turn).
Proof.
  apply (burst_fails_row auto_settings "u" (fun _ => true) quiet (fun _ => 0) (sample_row 1 Queued)
    (sample_row 3 Queued) [] empty_panel (snd (fst first_turn)) (snd first_turn));
    try reflexivity.
  - repeat constructor.
  - constructor.
Defined.

End bulk.
