(* ===== verification/LidMap.v ===== *)
(** * store/sqlstore/lidmap.go: the cached map between phone numbers and LIDs

    [CachedLIDMap] keeps two in-memory maps in front of the table
    whatsmeow_lid_map (lid the primary key, pn unique). The table is a map from
    LID to phone number; every statement sent to the database, a transaction's
    begin and commit included, takes its outcome from [faults], so that a
    failure can be placed anywhere. The locks make the operations sequential. *)

From S2P Require Import Prelude GoStrings Jid StateErr.

#[local] Open Scope string_scope.
#[local] Open Scope list_scope.
#[local] Open Scope Z_scope.

Module lidmap.

Import jid.

(** store.LIDMapping. *)
Record LIDMapping := mkMapping { LID : JID; PN : JID }.

#[global] Instance LIDMapping_eq_dec : EqDecision LIDMapping.
Proof. solve_decision. Defined.

Record CachedLIDMap := mkLids {
  table : gmap string string;          (* lid to pn *)
  pnToLIDCache : gmap string string;
  lidToPNCache : gmap string string;
  cacheFilled : bool;
  faults : list bool                   (* which of the next statements fail *)
}.

Definition NewCachedLIDMap (t : gmap string string) (fs : list bool) : CachedLIDMap :=
  mkLids t ∅ ∅ false fs.

Inductive lid_error :=
  | ErrDatabase
  | ErrUnique                          (* the table's constraint on pn *)
  | ErrNonPN (j : JID)
  | ErrNonLID (j : JID)
  | ErrInvalidPut (lid pn : JID).

Notation lids A := (stm CachedLIDMap lid_error A).

Definition set_table t s := mkLids t (pnToLIDCache s) (lidToPNCache s) (cacheFilled s) (faults s).
Definition set_faults fs s := mkLids (table s) (pnToLIDCache s) (lidToPNCache s) (cacheFilled s) fs.
Definition set_caches pl lp s := mkLids (table s) pl lp (cacheFilled s) (faults s).
Definition set_filled b s := mkLids (table s) (pnToLIDCache s) (lidToPNCache s) b (faults s).

(** ** The database *)

Definition statement : lids unit := fun s =>
  match faults s with
  | [] => (s, Ok tt)
  | true :: fs => (set_faults fs s, Err ErrDatabase)
  | false :: fs => (set_faults fs s, Ok tt)
  end.

(** [db.DoTxn]: a failure of the body or of the commit takes the table back. *)
Definition DoTxn (body : lids unit) : lids unit := fun s =>
  match statement s with
  | (s1, Ok _) =>
      let rollback s' := set_table (table s1) s' in
      match body s1 with
      | (s2, Ok _) =>
          match statement s2 with
          | (s3, Ok _) => (s3, Ok tt)
          | (s3, o) => (rollback s3, o)
          end
      | (s2, o) => (rollback s2, o)
      end
  | (s1, o) => (s1, o)
  end.

(** [SELECT lid WHERE pn = ...] and [SELECT pn WHERE lid = ...]. *)
Definition lid_of_pn (t : gmap string string) (pn : string) : option string :=
  head (map fst (List.filter (fun r => String.eqb (snd r) pn) (map_to_list t))).

Definition pn_of_lid (t : gmap string string) (lid : string) : option string := t !! lid.

Definition deleteExistingLIDMapping (lid pn : string) : lids unit :=
  statement;;
  s ← get_state;
  put_state (set_table (filter (fun r => ~ (fst r <> lid /\ snd r = pn)) (table s)) s).

Definition putLIDMapping (lid pn : string) : lids unit :=
  statement;;
  s ← get_state;
  match lid_of_pn (table s) pn with
  | Some l => if String.eqb l lid then mret tt else throw ErrUnique
  | None => put_state (set_table (<[lid := pn]> (table s)) s)
  end.

(** ** Reading *)

Inductive direction := ToLID | ToPN.

Definition select (d : direction) (t : gmap string string) (user : string) : option string :=
  match d with ToLID => lid_of_pn t user | ToPN => pn_of_lid t user end.

(** The maps [sourceToTarget] and [targetToSource] of a direction. *)
Definition sourceToTarget (d : direction) (s : CachedLIDMap) : gmap string string :=
  match d with ToLID => pnToLIDCache s | ToPN => lidToPNCache s end.
Definition targetToSource (d : direction) (s : CachedLIDMap) : gmap string string :=
  match d with ToLID => lidToPNCache s | ToPN => pnToLIDCache s end.
Definition set_maps (d : direction) (st ts : gmap string string) (s : CachedLIDMap) : CachedLIDMap :=
  match d with ToLID => set_caches st ts s | ToPN => set_caches ts st s end.

Definition target_jid (source : JID) (targetServer targetUser : string) : JID :=
  if String.eqb targetUser "" then EmptyJID else mkJID targetUser 0 (Device source) 0 targetServer.

Definition getLIDMapping (source : JID) (targetServer : string) (d : direction) : lids JID :=
  s ← get_state;
  let cached := sourceToTarget d s !! User source in
  if bool_decide (is_Some cached) || cacheFilled s then
    mret (target_jid source targetServer (default "" cached))
  else
    statement;;
    s ← get_state;
    let targetUser := default "" (select d (table s) (User source)) in
    let st := <[User source := targetUser]> (sourceToTarget d s) in
    let ts := if String.eqb targetUser "" then targetToSource d s
              else <[targetUser := User source]> (targetToSource d s) in
    put_state (set_maps d st ts s);;
    mret (target_jid source targetServer targetUser).

Definition GetLIDForPN (pn : JID) : lids JID :=
  if String.eqb (Server pn) DefaultUserServer then getLIDMapping pn HiddenUserServer ToLID
  else throw (ErrNonPN pn).

Definition GetPNForLID (lid : JID) : lids JID :=
  if String.eqb (Server lid) HiddenUserServer then getLIDMapping lid DefaultUserServer ToPN
  else throw (ErrNonLID lid).

(** The cache half of [scanManyLids]. *)
Definition scan_row (r : string * string) (s : CachedLIDMap) : CachedLIDMap :=
  set_caches (<[snd r := fst r]> (pnToLIDCache s)) (<[fst r := snd r]> (lidToPNCache s)) s.

Definition scanManyLids (rows : list (string * string)) (s : CachedLIDMap) : CachedLIDMap :=
  foldl (fun s r => scan_row r s) s rows.

Definition FillCache : lids unit := fun s =>
  match statement s with
  | (s, Ok _) => (set_filled true (scanManyLids (map_to_list (table s)) s), Ok tt)
  | (s, o) => (set_filled false s, o)
  end.

(** [GetManyLIDsForPNs]: the result map is a list of entries, one per number
    asked for that has a LID. The numbers asked for are first looked up in the
    cache, then all the missing ones in one query. *)
Definition lid_jid (pn : JID) (lid : string) : JID := mkJID lid 0 (Device pn) 0 HiddenUserServer.

Definition cached_lid (s : CachedLIDMap) (pn : JID) : option string :=
  match pnToLIDCache s !! User pn with
  | Some lid => if String.eqb lid "" then None else Some lid
  | None => None
  end.

(** The whole JID with user and server replaced. *)
Definition lid_device (pn : JID) (lid : string) : JID :=
  mkJID lid (RawAgent pn) (Device pn) (Integrator pn) HiddenUserServer.

Definition GetManyLIDsForPNs (pns : list JID) : lids (list (JID * JID)) :=
  match pns with
  | [] => mret []
  | _ =>
      s ← get_state;
      let asked := List.filter (fun pn => String.eqb (Server pn) DefaultUserServer) pns in
      let hits := omap (fun pn => lid ← cached_lid s pn; Some (pn, lid_jid pn lid)) asked in
      let missing := if cacheFilled s then [] else List.filter (fun pn => negb (bool_decide (is_Some (cached_lid s pn)))) asked in
      match missing with
      | [] => mret hits
      | _ =>
          statement;;
          s ← get_state;
          let rows := List.filter (fun r => bool_decide (snd r ∈ map User missing)) (map_to_list (table s)) in
          put_state (scanManyLids rows s);;
          mret (hits ++ flat_map (fun r => omap (fun dev =>
            if String.eqb (User dev) (snd r) then Some (dev, lid_device dev (fst r)) else None) missing) rows)
      end
  end.

(** ** Writing *)

Definition valid_put (m : LIDMapping) : bool :=
  String.eqb (Server (LID m)) HiddenUserServer && String.eqb (Server (PN m)) DefaultUserServer.

(** The cache updates after both statements. *)
Definition put_caches (lid pn : string) (s : CachedLIDMap) : CachedLIDMap :=
  let oldLID := default "" (pnToLIDCache s !! pn) in
  let oldPN := default "" (lidToPNCache s !! lid) in
  let pl := <[pn := lid]> (pnToLIDCache s) in
  let lp := <[lid := pn]> (lidToPNCache s) in
  let pl := if negb (String.eqb oldPN "") && negb (String.eqb oldPN pn) && String.eqb (default "" (pl !! oldPN)) lid
            then delete oldPN pl else pl in
  let lp := if negb (String.eqb oldLID "") && negb (String.eqb oldLID lid) && String.eqb (default "" (lp !! oldLID)) pn
            then delete oldLID lp else lp in
  set_caches pl lp s.

Definition unlockedPutLIDMapping (lid pn : JID) : lids unit :=
  if negb (valid_put (mkMapping lid pn)) then throw (ErrInvalidPut lid pn)
  else
    deleteExistingLIDMapping (User lid) (User pn);;
    putLIDMapping (User lid) (User pn);;
    s ← get_state;
    put_state (put_caches (User lid) (User pn) s).

Definition is_cached (s : CachedLIDMap) (m : LIDMapping) : bool :=
  bool_decide (pnToLIDCache s !! User (PN m) = Some (User (LID m))).

Definition PutLIDMapping (lid pn : JID) : lids unit :=
  if negb (valid_put (mkMapping lid pn)) then throw (ErrInvalidPut lid pn)
  else
    s ← get_state;
    if is_cached s (mkMapping lid pn) then mret tt
    else DoTxn (unlockedPutLIDMapping lid pn).

(** [exslices.DeduplicateUnsortedOverwrite] is the parameter [dedup]. *)
Definition PutManyLIDMappings (dedup : list LIDMapping -> list LIDMapping) (mappings : list LIDMapping) : lids unit :=
  s ← get_state;
  let mappings := dedup (List.filter (fun m => valid_put m && negb (is_cached s m)) mappings) in
  match mappings with
  | [] => mret tt
  | _ => DoTxn (foldr (fun m k => unlockedPutLIDMapping (LID m) (PN m);; k) (mret tt) mappings)
  end.

(** ** The table in both directions *)

Definition flip_dir (d : direction) : direction := match d with ToLID => ToPN | ToPN => ToLID end.

(** A number has one LID; users are not empty. *)
Definition unique (t : gmap string string) : Prop :=
  forall l l' p, t !! l = Some p -> t !! l' = Some p -> l = l'.
Definition no_empty (t : gmap string string) : Prop := forall l p, t !! l = Some p -> l <> "" /\ p <> "".

Lemma lid_of_pn_In t p l : lid_of_pn t p = Some l -> t !! l = Some p.
Proof.
  unfold lid_of_pn. destruct (List.filter _ _) as [|[l' p'] rest] eqn:E; [done|].
  intros [= <-]. assert (H : In (l', p') (List.filter (fun r => String.eqb (snd r) p) (map_to_list t)))
    by (rewrite E; by left).
  apply filter_In in H as [H Hp]. cbn in Hp. apply String.eqb_eq in Hp as ->.
  apply elem_of_map_to_list. by apply list_elem_of_In.
Qed.

Lemma lid_of_pn_None t p : lid_of_pn t p = None -> forall l, t !! l <> Some p.
Proof.
  unfold lid_of_pn. destruct (List.filter _ _) as [|r rest] eqn:E; [|done]. intros _ l Hl.
  apply elem_of_map_to_list, list_elem_of_In in Hl.
  assert (H : In (l, p) (List.filter (fun r => String.eqb (snd r) p) (map_to_list t))).
  { apply filter_In. split; [done|]. by apply String.eqb_refl. }
  by rewrite E in H.
Qed.

Lemma lid_of_pn_spec t p l : unique t -> lid_of_pn t p = Some l <-> t !! l = Some p.
Proof.
  intros Hu. split; [apply lid_of_pn_In|]. intros H. destruct (lid_of_pn t p) as [l'|] eqn:E.
  - apply lid_of_pn_In in E. by rewrite (Hu _ _ _ E H).
  - by destruct (lid_of_pn_None _ _ E l).
Qed.

Lemma select_sym d t k v : unique t -> select d t k = Some v <-> select (flip_dir d) t v = Some k.
Proof. intros Hu. destruct d; cbn [select flip_dir]; unfold pn_of_lid; [|symmetry]; by apply lid_of_pn_spec. Qed.

Lemma select_no_empty d t k v : unique t -> no_empty t -> select d t k = Some v -> k <> "" /\ v <> "".
Proof.
  intros Hu Hn H. destruct d; cbn [select] in H; unfold pn_of_lid in H.
  - apply lid_of_pn_spec, Hn in H; tauto.
  - by apply Hn in H.
Qed.

(** ** Coherence of cache and table *)

Record coherent (s : CachedLIDMap) : Prop := {
  co_unique : unique (table s);
  co_no_empty : no_empty (table s);
  co_right d k v : sourceToTarget d s !! k = Some v -> v = default "" (select d (table s) k);
  co_mutual d k v : sourceToTarget d s !! k = Some v -> v <> "" -> targetToSource d s !! v = Some k;
  co_filled d k v : cacheFilled s = true -> select d (table s) k = Some v -> sourceToTarget d s !! k = Some v
}.

Lemma target_flip d s : targetToSource (flip_dir d) s = sourceToTarget d s.
Proof. by destruct d. Qed.
Lemma source_flip d s : sourceToTarget (flip_dir d) s = targetToSource d s.
Proof. by destruct d. Qed.
Lemma source_set_maps d st ts s : sourceToTarget d (set_maps d st ts s) = st.
Proof. by destruct d. Qed.
Lemma target_set_maps d st ts s : targetToSource d (set_maps d st ts s) = ts.
Proof. by destruct d. Qed.
Lemma set_maps_table d st ts s : table (set_maps d st ts s) = table s.
Proof. by destruct d. Qed.
Lemma set_maps_filled d st ts s : cacheFilled (set_maps d st ts s) = cacheFilled s.
Proof. by destruct d. Qed.

Lemma dir_cases (d d' : direction) : d' = d \/ d' = flip_dir d.
Proof. destruct d, d'; auto. Qed.

Lemma coherent_faults fs s : coherent s -> coherent (set_faults fs s).
Proof. intros [H1 H2 H3 H4 H5]. split; [exact H1|exact H2|intros []|intros []|intros []]; [apply (H3 ToLID)|apply (H3 ToPN)|apply (H4 ToLID)|apply (H4 ToPN)|apply (H5 ToLID)|apply (H5 ToPN)]. Qed.

(** Remembering a row of the table. *)
Lemma coherent_row d k v s :
  coherent s -> select d (table s) k = Some v ->
  coherent (set_maps d (<[k := v]> (sourceToTarget d s)) (<[v := k]> (targetToSource d s)) s).
Proof.
  intros [Hu Hn Hr Hm Hf] Hs. destruct (select_no_empty _ _ _ _ Hu Hn Hs) as [Hk Hv].
  pose proof (proj1 (select_sym _ _ _ _ Hu) Hs) as Hs'.
  assert (Hone : forall d' a b, select d' (table s) a = Some b -> forall a', select d' (table s) a' = Some b -> a = a').
  { intros d' a b Ha a' Ha'. apply select_sym in Ha, Ha'; [congruence|done..]. }
  split; rewrite ?set_maps_table; [done|done| | |].
  - intros d' k' v'. destruct (dir_cases d d') as [->| ->]; rewrite ?source_flip, ?target_set_maps, ?source_set_maps;
      intros [[<- <-]|[_ Hl]]%lookup_insert_Some; rewrite ?Hs, ?Hs'; try done.
    + by apply Hr.
    + apply Hr. by rewrite source_flip.
  - intros d' k' v'. destruct (dir_cases d d') as [->| ->];
      rewrite ?source_flip, ?target_flip, ?target_set_maps, ?source_set_maps;
      intros [[<- <-]|[Hne Hl]]%lookup_insert_Some Hv'; try by rewrite lookup_insert_eq.
    + pose proof (Hr _ _ _ Hl) as E. pose proof (Hm _ _ _ Hl Hv') as Hm'.
      destruct (select d (table s) k') as [w|] eqn:Ew; cbn in E; [subst w|done].
      rewrite lookup_insert_ne; [done|]. intros <-. by destruct (Hne (Hone _ _ _ Hs _ Ew)).
    + rewrite <- source_flip in Hl. pose proof (Hr _ _ _ Hl) as E. pose proof (Hm _ _ _ Hl Hv') as Hm'.
      rewrite target_flip in Hm'.
      destruct (select (flip_dir d) (table s) k') as [w|] eqn:Ew; cbn in E; [subst w|done].
      rewrite lookup_insert_ne; [done|]. intros <-. by destruct (Hne (Hone _ _ _ Hs' _ Ew)).
  - rewrite set_maps_filled. intros d' k' v' Hb Hsel. pose proof (Hf _ _ _ Hb Hsel) as H0.
    destruct (dir_cases d d') as [->| ->]; rewrite ?source_flip, ?target_set_maps, ?source_set_maps.
    + destruct (decide (k = k')) as [<-|]; [rewrite lookup_insert_eq; congruence|by rewrite lookup_insert_ne].
    + rewrite source_flip in H0.
      destruct (decide (v = k')) as [<-|]; [rewrite lookup_insert_eq; congruence|by rewrite lookup_insert_ne].
Qed.

(** Remembering that there is no row. *)
Lemma coherent_no_row d k s :
  coherent s -> select d (table s) k = None -> sourceToTarget d s !! k = None ->
  coherent (set_maps d (<[k := ""]> (sourceToTarget d s)) (targetToSource d s) s).
Proof.
  intros [Hu Hn Hr Hm Hf] Hs Hc. split; rewrite ?set_maps_table; [done|done| | |].
  - intros d' k' v'. destruct (dir_cases d d') as [->| ->]; rewrite ?source_flip, ?target_set_maps, ?source_set_maps.
    + intros [[<- <-]|[_ Hl]]%lookup_insert_Some; [by rewrite Hs|by apply Hr].
    + rewrite <- source_flip. apply Hr.
  - intros d' k' v'. destruct (dir_cases d d') as [->| ->];
      rewrite ?source_flip, ?target_flip, ?target_set_maps, ?source_set_maps.
    + intros [[<- <-]|[_ Hl]]%lookup_insert_Some; [done|by apply Hm].
    + intros Hl Hv. rewrite <- source_flip in Hl. apply Hm in Hl; [|done]. rewrite target_flip in Hl.
      rewrite lookup_insert_ne; [done|]. intros <-. congruence.
  - rewrite set_maps_filled. intros d' k' v' Hb Hsel. pose proof (Hf _ _ _ Hb Hsel) as H0.
    destruct (dir_cases d d') as [->| ->]; rewrite ?source_flip, ?target_set_maps, ?source_set_maps.
    + rewrite lookup_insert_ne; [done|]. intros <-. congruence.
    + by rewrite <- source_flip.
Qed.

(** ** Reads *)

Lemma statement_inv s s' r : statement s = (s', r) ->
  exists fs, s' = set_faults fs s /\ (r = Ok tt \/ (r = Err ErrDatabase /\ faults s <> [])).
Proof.
  unfold statement. destruct s as [t pl lp cf [|[] fs]]; intros [= <- <-]; cbn.
  - exists []. split; [done|by left].
  - exists fs. split; [done|by right].
  - exists fs. split; [done|by left].
Qed.

Lemma statement_works s : faults s = [] -> statement s = (s, Ok tt).
Proof. unfold statement. by intros ->. Qed.

Lemma getLIDMapping_spec source srv d s s' r :
  coherent s -> getLIDMapping source srv d s = (s', r) ->
  coherent s' /\ table s' = table s /\ (faults s = [] -> faults s' = []) /\
  ((r = Err ErrDatabase /\ faults s <> []) \/
   r = Ok (target_jid source srv (default "" (select d (table s) (User source))))).
Proof.
  intros Hc. unfold getLIDMapping. rewrite (stm_bind_ok _ _ s s s) by done. cbv zeta.
  destruct (sourceToTarget d s !! User source) as [v|] eqn:Hv.
  { rewrite bool_decide_true by by eexists. cbn [orb]. intros [= <- <-].
    split_and!; try done. right. cbn. by rewrite (co_right s Hc d _ _ Hv). }
  rewrite bool_decide_false by (intros [? [=]]). cbn [orb].
  destruct (cacheFilled s) eqn:Hf.
  { intros [= <- <-]. split_and!; try done. right. cbn.
    destruct (select d (table s) (User source)) as [v|] eqn:Hs; [|done].
    apply (co_filled s Hc) in Hs; [congruence|done]. }
  unfold mbind, stm_bind. destruct (statement s) as [s1 o] eqn:Hst.
  assert (Hfs : faults s = [] -> faults s1 = []).
  { intros E. rewrite statement_works in Hst by done. by injection Hst as <-. }
  apply statement_inv in Hst as (fs & -> & [->|[-> Hne]]).
  - cbn [get_state]. pose proof (coherent_faults fs _ Hc) as Hc1.
    set (s1 := set_faults fs s) in *. assert (Ht : table s1 = table s) by done.
    assert (Hv1 : sourceToTarget d s1 !! User source = None) by (by destruct d).
    intros [= <- <-]. rewrite <- Ht. split_and!.
    + destruct (select d (table s1) (User source)) as [v|] eqn:Hs.
      * destruct (select_no_empty _ _ _ _ (co_unique _ Hc1) (co_no_empty _ Hc1) Hs) as [_ Hne].
        apply String.eqb_neq in Hne. change (default "" (Some v)) with v. rewrite Hne. by apply coherent_row.
      * change (default "" None) with "". by apply coherent_no_row.
    + by rewrite set_maps_table.
    + intros E. specialize (Hfs E). by destruct d.
    + by right.
  - intros [= <- <-]. split_and!; [by apply coherent_faults|done|done|by left].
Qed.

(** ** Filling the cache *)

Lemma scan_row_maps l p s :
  scan_row (l, p) s = set_maps ToLID (<[p := l]> (sourceToTarget ToLID s)) (<[l := p]> (targetToSource ToLID s)) s.
Proof. done. Qed.

Lemma scan_table rows s : table (scanManyLids rows s) = table s.
Proof. unfold scanManyLids. revert s. induction rows as [|r rows IH]; intros s; [done|]. cbn. by rewrite IH. Qed.

Lemma scan_faults rows s : faults (scanManyLids rows s) = faults s.
Proof. unfold scanManyLids. revert s. induction rows as [|r rows IH]; intros s; [done|]. cbn. by rewrite IH. Qed.

Lemma scan_filled rows s : cacheFilled (scanManyLids rows s) = cacheFilled s.
Proof. unfold scanManyLids. revert s. induction rows as [|r rows IH]; intros s; [done|]. cbn. by rewrite IH. Qed.

Lemma scan_coherent rows s :
  coherent s -> Forall (fun r => table s !! fst r = Some (snd r)) rows ->
  coherent (scanManyLids rows s) /\
  (forall d k, is_Some (sourceToTarget d s !! k) -> is_Some (sourceToTarget d (scanManyLids rows s) !! k)) /\
  Forall (fun r => is_Some (pnToLIDCache (scanManyLids rows s) !! snd r) /\
                   is_Some (lidToPNCache (scanManyLids rows s) !! fst r)) rows.
Proof.
  unfold scanManyLids. revert s. induction rows as [|[l p] rows IH]; intros s Hc Hrows; [by split_and!|].
  apply Forall_cons in Hrows as [Hl Hrows]. cbn [fst snd] in Hl. cbn [foldl].
  assert (Hc1 : coherent (scan_row (l, p) s)).
  { rewrite scan_row_maps. apply coherent_row; [done|]. cbn [select]. by apply lid_of_pn_spec; [apply Hc|]. }
  destruct (IH (scan_row (l, p) s) Hc1 Hrows) as (H1 & H2 & H3).
  assert (Hmono : forall d k, is_Some (sourceToTarget d s !! k) ->
    is_Some (sourceToTarget d (scan_row (l, p) s) !! k)).
  { intros [] k Hk; cbn; apply lookup_insert_is_Some'; by right. }
  split_and!; [done|auto|]. constructor; [|done]. cbn [fst snd]. split.
  - apply (H2 ToLID). cbn. rewrite lookup_insert_eq. by eexists.
  - apply (H2 ToPN). cbn. rewrite lookup_insert_eq. by eexists.
Qed.

Lemma table_rows (t : gmap string string) : Forall (fun r => t !! fst r = Some (snd r)) (map_to_list t).
Proof. apply Forall_forall. intros [l p] H. by apply elem_of_map_to_list in H. Qed.

Lemma FillCache_spec s s' r :
  coherent s -> FillCache s = (s', r) ->
  coherent s' /\ table s' = table s /\ (faults s = [] -> faults s' = []) /\ (r = Ok tt -> cacheFilled s' = true).
Proof.
  intros Hc. unfold FillCache. destruct (statement s) as [s1 o] eqn:Hst.
  assert (Hfs : faults s = [] -> faults s1 = []).
  { intros E. rewrite statement_works in Hst by done. by injection Hst as <-. }
  apply statement_inv in Hst as (fs & -> & [->|[-> Hne]]).
  - intros [= <- <-]. pose proof (coherent_faults fs _ Hc) as Hc1. set (s1 := set_faults fs s) in *.
    destruct (scan_coherent (map_to_list (table s1)) s1 Hc1 (table_rows _)) as (H1 & _ & H3).
    set (s2 := scanManyLids _ s1) in *. assert (Ht : table s2 = table s1) by apply scan_table.
    split_and!; [|done|intros E; cbn; subst s2; rewrite scan_faults; by apply Hfs|done].
    destruct H1 as [Hu Hn Hr Hm _]. split; [exact Hu|exact Hn|by intros []; [apply (Hr ToLID)|apply (Hr ToPN)]|
      by intros []; [apply (Hm ToLID)|apply (Hm ToPN)]|].
    intros d k v _ Hs. change (table (set_filled true s2)) with (table s2) in Hs.
    replace (sourceToTarget d (set_filled true s2)) with (sourceToTarget d s2) by (by destruct d).
    assert (Hin : is_Some (sourceToTarget d s2 !! k)).
    { rewrite Forall_forall in H3. destruct d; cbn [select sourceToTarget] in Hs |- *; unfold pn_of_lid in Hs.
      - apply lid_of_pn_In in Hs. apply (H3 (v, k)). by apply elem_of_map_to_list; rewrite <- Ht.
      - apply (H3 (k, v)). by apply elem_of_map_to_list; rewrite <- Ht. }
    destruct Hin as [w Hw]. pose proof (Hr _ _ _ Hw) as E. rewrite Hs in E. cbn in E. congruence.
  - intros [= <- <-]. split_and!; [|done|done|done].
    destruct Hc as [Hu Hn Hr Hm _]. split; [exact Hu|exact Hn|by intros []; [apply (Hr ToLID)|apply (Hr ToPN)]|
      by intros []; [apply (Hm ToLID)|apply (Hm ToPN)]|done].
Qed.

(** ** Writes *)

(** The table after a mapping is put: the pair takes the place of whatever its
    two sides had. *)
Definition put_row (lid pn : string) (t : gmap string string) : gmap string string :=
  <[lid := pn]> (filter (fun r => ~ (fst r <> lid /\ snd r = pn)) t).

Lemma filtered_lookup lid pn (t : gmap string string) l :
  filter (fun r => ~ (fst r <> lid /\ snd r = pn)) t !! l =
  (if decide (l <> lid /\ t !! l = Some pn) then None else t !! l).
Proof.
  rewrite map_lookup_filter. destruct (t !! l) as [p|] eqn:E; cbn; [|by destruct (decide _)].
  destruct (decide (l <> lid /\ Some p = Some pn)) as [[H1 [= ->]]|H].
  - by rewrite option_guard_False by (cbn; tauto).
  - rewrite option_guard_True; [done|]. cbn. intros [H1 ->]. by apply H.
Qed.

Lemma put_row_lookup lid pn t l :
  put_row lid pn t !! l =
  (if decide (l = lid) then Some pn else if decide (t !! l = Some pn) then None else t !! l).
Proof.
  unfold put_row. destruct (decide (l = lid)) as [->|Hne]; [by rewrite lookup_insert_eq|].
  rewrite lookup_insert_ne, filtered_lookup by done.
  destruct (decide (t !! l = Some pn)) as [E|E].
  - by rewrite decide_True by done.
  - by rewrite decide_False by tauto.
Qed.

Lemma put_row_unique lid pn t : unique t -> unique (put_row lid pn t).
Proof.
  intros Hu l l' p. rewrite !put_row_lookup.
  destruct (decide (l = lid)) as [->|], (decide (l' = lid)) as [->|]; try done.
  - intros [= <-]. destruct (decide (t !! l' = Some pn)); [done|]. congruence.
  - destruct (decide (t !! l = Some pn)); [done|]. intros ? [= <-]. congruence.
  - destruct (decide (t !! l = Some pn)), (decide (t !! l' = Some pn)); try done. apply Hu.
Qed.

Lemma put_row_no_empty lid pn t : lid <> "" -> pn <> "" -> no_empty t -> no_empty (put_row lid pn t).
Proof.
  intros Hl Hp Hn l p. rewrite put_row_lookup. destruct (decide (l = lid)) as [->|]; [by intros [= <-]|].
  destruct (decide (t !! l = Some pn)); [done|]. apply Hn.
Qed.

(** The pair put, seen from a direction. *)
Definition key_of (d : direction) (lid pn : string) := match d with ToLID => pn | ToPN => lid end.
Definition val_of (d : direction) (lid pn : string) := match d with ToLID => lid | ToPN => pn end.

Lemma put_row_select d lid pn t x :
  unique t ->
  select d (put_row lid pn t) x =
  (if decide (x = key_of d lid pn) then Some (val_of d lid pn)
   else if decide (select d t x = Some (val_of d lid pn)) then None else select d t x).
Proof.
  intros Hu. destruct d; cbn [select key_of val_of]; unfold pn_of_lid; [|by rewrite put_row_lookup].
  pose proof (put_row_unique lid pn t Hu) as Hu'.
  destruct (decide (x = pn)) as [->|Hne].
  { apply lid_of_pn_spec; [done|]. rewrite put_row_lookup. by rewrite decide_True. }
  apply option_eq. intros l. rewrite lid_of_pn_spec, put_row_lookup by done.
  destruct (decide (l = lid)) as [->|Hl].
  - split; [congruence|]. destruct (decide (lid_of_pn t x = Some lid)); done.
  - destruct (decide (lid_of_pn t x = Some lid)) as [E|E].
    + apply lid_of_pn_spec in E; [|done]. split; [|done].
      destruct (decide (t !! l = Some pn)); [done|]. intros H. by destruct (Hl (Hu _ _ _ H E)).
    + rewrite lid_of_pn_spec by done. destruct (decide (t !! l = Some pn)); [|done]. split; congruence.
Qed.

(** The caches after a mapping is put, seen from a direction. *)
Lemma put_caches_source d lid pn s x :
  lid <> "" -> pn <> "" ->
  sourceToTarget d (put_caches lid pn s) !! x =
  (let k := key_of d lid pn in
   let v := val_of d lid pn in
   if decide (x = k) then Some v
   else if decide (x <> "" /\ targetToSource d s !! v = Some x /\ sourceToTarget d s !! x = Some v) then None
   else sourceToTarget d s !! x).
Proof.
  intros Hl Hp. cbv zeta.
  assert (G : forall (k v : string) (st ts : gmap string string), v <> "" ->
    (if negb (String.eqb (default "" (ts !! v)) "") && negb (String.eqb (default "" (ts !! v)) k) &&
        String.eqb (default "" (<[k := v]> st !! default "" (ts !! v))) v
     then delete (default "" (ts !! v)) (<[k := v]> st) else <[k := v]> st) !! x =
    (if decide (x = k) then Some v
     else if decide (x <> "" /\ ts !! v = Some x /\ st !! x = Some v) then None else st !! x)).
  { clear. intros k v st ts Hv. set (o := default "" (ts !! v)).
    destruct (String.eqb_spec o "") as [Eo|Eo]; cbn [negb andb].
    - destruct (decide (x = k)) as [->|]; [by rewrite lookup_insert_eq|]. rewrite lookup_insert_ne by done.
      rewrite decide_False; [done|]. intros (H1 & H2 & _). subst o. rewrite H2 in Eo. done.
    - assert (Ho : ts !! v = Some o) by (subst o; by destruct (ts !! v)).
      destruct (String.eqb_spec o k) as [->|Ek]; cbn [negb andb].
      + destruct (decide (x = k)) as [->|]; [by rewrite lookup_insert_eq|]. rewrite lookup_insert_ne by done.
        rewrite decide_False; [done|]. intros (_ & H2 & _). congruence.
      + rewrite lookup_insert_ne by done.
        destruct (String.eqb_spec (default "" (st !! o)) v) as [Ev|Ev].
        * assert (Hst : st !! o = Some v) by (destruct (st !! o); cbn in Ev; congruence).
          destruct (decide (x = o)) as [->|Hne].
          -- rewrite lookup_delete_eq, decide_False, decide_True by done. done.
          -- rewrite lookup_delete_ne by done.
             destruct (decide (x = k)) as [->|]; [by rewrite lookup_insert_eq|]. rewrite lookup_insert_ne by done.
             rewrite decide_False; [done|]. intros (_ & H2 & _). congruence.
        * destruct (decide (x = k)) as [->|]; [by rewrite lookup_insert_eq|]. rewrite lookup_insert_ne by done.
          rewrite decide_False; [done|]. intros (_ & H2 & H3). replace o with x in Ev by congruence.
          by rewrite H3 in Ev. }
  destruct d; cbn [key_of val_of]; unfold put_caches; cbn [sourceToTarget targetToSource set_caches pnToLIDCache lidToPNCache];
    by apply G.
Qed.

Lemma key_flip d lid pn : key_of (flip_dir d) lid pn = val_of d lid pn.
Proof. by destruct d. Qed.
Lemma val_flip d lid pn : val_of (flip_dir d) lid pn = key_of d lid pn.
Proof. by destruct d. Qed.

Lemma source_set_table d t s : sourceToTarget d (set_table t s) = sourceToTarget d s.
Proof. by destruct d. Qed.
Lemma target_set_table d t s : targetToSource d (set_table t s) = targetToSource d s.
Proof. by destruct d. Qed.

Lemma put_coherent lid pn s :
  lid <> "" -> pn <> "" -> coherent s ->
  coherent (put_caches lid pn (set_table (put_row lid pn (table s)) s)).
Proof.
  intros Hl Hp [Hu Hn Hr Hm Hf]. set (s1 := set_table _ s).
  assert (Ht : table (put_caches lid pn s1) = put_row lid pn (table s)) by done.
  split; rewrite ?Ht; [by apply put_row_unique|by apply put_row_no_empty| | |].
  - intros d x w. rewrite put_caches_source, put_row_select by done. cbv zeta.
    subst s1. rewrite source_set_table, target_set_table.
    destruct (decide (x = key_of d lid pn)) as [->|Hx]; [by intros [= <-]|].
    destruct (decide (_ /\ _)) as [|Hdel]; [done|]. intros Hw.
    destruct (decide (select d (table s) x = Some (val_of d lid pn))) as [E|_]; [|by apply Hr].
    exfalso. apply Hdel. destruct (select_no_empty _ _ _ _ Hu Hn E) as [Hxe Hve].
    pose proof (Hr _ _ _ Hw) as Hw'. rewrite E in Hw'. cbn in Hw'. subst w.
    split_and!; [done|by apply Hm|done].
  - intros d x w. rewrite <- source_flip, !put_caches_source by done. cbv zeta.
    rewrite key_flip, val_flip, source_flip, target_flip. subst s1. rewrite source_set_table, target_set_table.
    destruct (decide (x = key_of d lid pn)) as [->|Hx].
    { intros [= <-] _. by rewrite decide_True. }
    destruct (decide (_ /\ _)) as [|Hdel]; [done|]. intros Hw Hwe.
    pose proof (Hm _ _ _ Hw Hwe) as Hm'.
    destruct (decide (w = val_of d lid pn)) as [->|Hwv].
    + exfalso. apply Hdel. split_and!; [|done|done]. intros ->.
      pose proof (Hr _ _ _ Hw) as E. destruct (select d (table s) "") as [v|] eqn:Es; cbn in E; [|done].
      by destruct (select_no_empty _ _ _ _ Hu Hn Es).
    + rewrite decide_False; [done|]. intros (_ & _ & H3). congruence.
  - intros d x w Hb. rewrite put_row_select, put_caches_source by done. cbv zeta.
    subst s1. rewrite source_set_table, target_set_table.
    destruct (decide (x = key_of d lid pn)) as [->|Hx]; [done|].
    destruct (decide (select d (table s) x = _)) as [|Hs]; [done|]. intros Hw.
    pose proof (Hf _ _ _ Hb Hw) as Hf'. rewrite decide_False; [done|]. intros (_ & _ & H3). congruence.
Qed.

(** ** Statements that succeed *)

Lemma statement_set_table t s s1 : statement s = (s1, Ok tt) -> statement (set_table t s) = (set_table t s1, Ok tt).
Proof. unfold statement. destruct s as [? ? ? ? [|[] fs]]; intros [= <-]; done. Qed.

Lemma statement_set_caches pl lp s s1 :
  statement s = (s1, Ok tt) -> statement (set_caches pl lp s) = (set_caches pl lp s1, Ok tt).
Proof. unfold statement. destruct s as [? ? ? ? [|[] fs]]; intros [= <-]; done. Qed.

Lemma lid_statement_same s s1 o : statement s = (s1, o) ->
  table s1 = table s /\ pnToLIDCache s1 = pnToLIDCache s /\ lidToPNCache s1 = lidToPNCache s.
Proof. unfold statement. destruct s as [? ? ? ? [|[] fs]]; intros [= <-]; done. Qed.

Lemma put_caches_set_table lid pn t s : put_caches lid pn (set_table t s) = set_table t (put_caches lid pn s).
Proof. done. Qed.

Lemma unlockedPut_ok lid pn s s1 s2 :
  valid_put (mkMapping lid pn) = true -> statement s = (s1, Ok tt) -> statement s1 = (s2, Ok tt) ->
  unlockedPutLIDMapping lid pn s =
  (put_caches (User lid) (User pn) (set_table (put_row (User lid) (User pn) (table s)) s2), Ok tt).
Proof.
  intros Hv H1 H2. unfold unlockedPutLIDMapping. rewrite Hv. cbn [negb].
  destruct (lid_statement_same _ _ _ H1) as (Ht1 & _), (lid_statement_same _ _ _ H2) as (Ht2 & _).
  set (t1 := filter (fun r => ~ (fst r <> User lid /\ snd r = User pn)) (table s)).
  assert (Hd : deleteExistingLIDMapping (User lid) (User pn) s = (set_table t1 s1, Ok tt)).
  { unfold deleteExistingLIDMapping. rewrite (stm_bind_ok _ _ _ _ _ H1).
    rewrite (stm_bind_ok _ _ s1 s1 s1) by done. unfold put_state. by rewrite Ht1. }
  assert (Hp : putLIDMapping (User lid) (User pn) (set_table t1 s1) =
               (set_table (put_row (User lid) (User pn) (table s)) s2, Ok tt)).
  { unfold putLIDMapping. rewrite (stm_bind_ok _ _ _ _ _ (statement_set_table t1 _ _ H2)).
    rewrite (stm_bind_ok _ _ _ (set_table t1 s2) (set_table t1 s2)) by done. cbn [table set_table].
    destruct (lid_of_pn t1 (User pn)) as [l|] eqn:El; [|done].
    apply lid_of_pn_In in El. pose proof El as El'. subst t1. rewrite filtered_lookup in El'.
    destruct (decide _) as [|Hn]; [done|].
    assert (l = User lid) as -> by (destruct (decide (l = User lid)); [done|exfalso; apply Hn; split; congruence]).
    rewrite String.eqb_refl. unfold put_row. by rewrite insert_id. }
  rewrite (stm_bind_ok _ _ _ _ _ Hd), (stm_bind_ok _ _ _ _ _ Hp). done.
Qed.

Lemma DoTxn_ok body s s1 s2 s3 :
  statement s = (s1, Ok tt) -> body s1 = (s2, Ok tt) -> statement s2 = (s3, Ok tt) -> DoTxn body s = (s3, Ok tt).
Proof. intros H1 H2 H3. unfold DoTxn. by rewrite H1, H2, H3. Qed.

Lemma put_caches_faults lid pn s : faults (put_caches lid pn s) = faults s.
Proof. done. Qed.

Lemma put_row_same lid pn t : unique t -> t !! lid = Some pn -> put_row lid pn t = t.
Proof.
  intros Hu H. apply map_eq. intros l. rewrite put_row_lookup. destruct (decide (l = lid)) as [->|Hne]; [done|].
  destruct (decide (t !! l = Some pn)) as [E|]; [|done]. by destruct (Hne (Hu _ _ _ E H)).
Qed.

Lemma cached_in_table s m : coherent s -> User (LID m) <> "" -> is_cached s m = true ->
  table s !! User (LID m) = Some (User (PN m)).
Proof.
  intros Hc Hl Hm. unfold is_cached in Hm. apply bool_decide_eq_true in Hm.
  pose proof (co_right s Hc ToLID _ _ Hm) as E. cbn [select] in E.
  destruct (lid_of_pn (table s) (User (PN m))) as [l|] eqn:El; cbn in E; [|done].
  apply lid_of_pn_In in El. congruence.
Qed.

(** A mapping with both users. *)
Definition mapping_ok (m : LIDMapping) : Prop := User (LID m) <> "" /\ User (PN m) <> "".

Lemma unlockedPut_coherent m s :
  valid_put m = true -> mapping_ok m -> coherent s -> faults s = [] ->
  exists s', unlockedPutLIDMapping (LID m) (PN m) s = (s', Ok tt) /\ coherent s' /\ faults s' = [] /\
    table s' = put_row (User (LID m)) (User (PN m)) (table s).
Proof.
  intros Hv [Hl Hp] Hc Hf. eexists. split.
  - apply (unlockedPut_ok _ _ s s s); [by destruct m|by apply statement_works..].
  - split_and!; [by apply put_coherent|done|done].
Qed.

Lemma DoTxn_coherent body s :
  coherent s -> faults s = [] ->
  (exists s', body s = (s', Ok tt) /\ coherent s' /\ faults s' = []) ->
  exists s', DoTxn body s = (s', Ok tt) /\ body s = (s', Ok tt) /\ coherent s' /\ faults s' = [].
Proof.
  intros Hc Hf (s' & Hb & Hc' & Hf'). exists s'. split_and!; [|done|done|done].
  eapply DoTxn_ok; [by apply statement_works|exact Hb|by apply statement_works].
Qed.

(** A mapping that is put is stored: with a database that works, putting a
    pair replaces, in the table, whatever either side was paired with (cached
    pairs are there already), the caches keep agreeing with the table, and the
    pair is read back in both directions. *)
Theorem PutLIDMapping_stores lid pn s :
  coherent s -> faults s = [] -> Server lid = HiddenUserServer -> Server pn = DefaultUserServer ->
  mapping_ok (mkMapping lid pn) ->
  exists s', PutLIDMapping lid pn s = (s', Ok tt) /\ coherent s' /\
    table s' = put_row (User lid) (User pn) (table s) /\
    snd (GetLIDForPN pn s') = Ok (mkJID (User lid) 0 (Device pn) 0 HiddenUserServer) /\
    snd (GetPNForLID lid s') = Ok (mkJID (User pn) 0 (Device lid) 0 DefaultUserServer).
Proof.
  intros Hc Hf Hsl Hsp Hok. pose proof Hok as [Hl Hp]. cbn [LID PN] in Hl, Hp.
  assert (Hv : valid_put (mkMapping lid pn) = true).
  { unfold valid_put. cbn. by rewrite Hsl, Hsp. }
  assert (H : exists s', PutLIDMapping lid pn s = (s', Ok tt) /\ coherent s' /\ faults s' = [] /\
    table s' = put_row (User lid) (User pn) (table s)).
  { unfold PutLIDMapping. rewrite Hv. cbn [negb]. rewrite (stm_bind_ok _ _ s s s) by done.
    destruct (is_cached s (mkMapping lid pn)) eqn:Hcd.
    - exists s. split_and!; try done. symmetry. apply put_row_same; [apply Hc|].
      by apply (cached_in_table s (mkMapping lid pn)).
    - destruct (unlockedPut_coherent (mkMapping lid pn) s) as (s' & H1 & H2 & H3 & H4); [done..|].
      destruct (DoTxn_coherent (unlockedPutLIDMapping lid pn) s Hc Hf) as (s'' & E & Hb & Hc' & Hf'); [by eexists|].
      exists s''. cbn [LID PN] in H1, H4. replace s'' with s' in * by congruence. by split_and!. }
  destruct H as (s' & H1 & H2 & H3 & H4). exists s'. split_and!; try done.
  - unfold GetLIDForPN. rewrite Hsp, String.eqb_refl.
    destruct (getLIDMapping _ _ _ _) as [s2 r] eqn:E.
    apply getLIDMapping_spec in E as (_ & _ & _ & [[_ Hn]| ->]); [by rewrite H3 in Hn| |done].
    cbn [snd]. rewrite H4, put_row_select by apply Hc. cbn [key_of val_of]. rewrite decide_True by done.
    unfold target_jid. cbn. by apply String.eqb_neq in Hl as ->.
  - unfold GetPNForLID. rewrite Hsl, String.eqb_refl.
    destruct (getLIDMapping _ _ _ _) as [s2 r] eqn:E.
    apply getLIDMapping_spec in E as (_ & _ & _ & [[_ Hn]| ->]); [by rewrite H3 in Hn| |done].
    cbn [snd]. rewrite H4, put_row_select by apply Hc. cbn [key_of val_of]. rewrite decide_True by done.
    unfold target_jid. cbn. by apply String.eqb_neq in Hp as ->.
Qed.

(** ** Sequences of operations *)

Inductive lid_op :=
  | OpGetLID (pn : JID) | OpGetPN (lid : JID) | OpGetMany (pns : list JID) | OpFill
  | OpPut (lid pn : JID) | OpPutMany (ms : list LIDMapping).

Definition op_ok (op : lid_op) : Prop :=
  match op with
  | OpPut lid pn => mapping_ok (mkMapping lid pn)
  | OpPutMany ms => Forall mapping_ok ms
  | _ => True
  end.

Definition run_op (dedup : list LIDMapping -> list LIDMapping) (s : CachedLIDMap) (op : lid_op) : CachedLIDMap :=
  match op with
  | OpGetLID pn => fst (GetLIDForPN pn s)
  | OpGetPN lid => fst (GetPNForLID lid s)
  | OpGetMany pns => fst (GetManyLIDsForPNs pns s)
  | OpFill => fst (FillCache s)
  | OpPut lid pn => fst (PutLIDMapping lid pn s)
  | OpPutMany ms => fst (PutManyLIDMappings dedup ms s)
  end.

Lemma GetMany_coherent pns s :
  coherent s -> faults s = [] ->
  let s' := fst (GetManyLIDsForPNs pns s) in coherent s' /\ faults s' = [].
Proof.
  intros Hc Hf. unfold GetManyLIDsForPNs. destruct pns as [|pn pns]; [done|].
  rewrite (stm_bind_ok _ _ s s s) by done. cbv zeta.
  destruct (if cacheFilled s then _ else _) as [|m ms]; [done|].
  rewrite (stm_bind_ok _ _ _ _ _ (statement_works s Hf)), (stm_bind_ok _ _ s s s) by done.
  match goal with |- context [scanManyLids ?rs s] => set (rows := rs) end.
  rewrite (stm_bind_ok _ _ s (scanManyLids rows s) tt) by done.
  change (coherent (scanManyLids rows s) /\ faults (scanManyLids rows s) = []).
  rewrite scan_faults. split; [|done]. apply scan_coherent; [done|].
  subst rows. apply Forall_forall. intros r Hr. apply list_elem_of_In, filter_In in Hr as [Hr _].
  pose proof (table_rows (table s)) as H. rewrite Forall_forall in H. apply H. by apply list_elem_of_In.
Qed.

Lemma PutMany_coherent dedup ms s :
  (forall l m, m ∈ dedup l -> m ∈ l) ->
  coherent s -> faults s = [] -> Forall mapping_ok ms ->
  exists s', PutManyLIDMappings dedup ms s = (s', Ok tt) /\ coherent s' /\ faults s' = [].
Proof.
  intros Hd Hc Hf Hms. unfold PutManyLIDMappings. rewrite (stm_bind_ok _ _ s s s) by done. cbv zeta.
  set (todo := dedup _). assert (Htodo : Forall (fun m => valid_put m = true /\ mapping_ok m) todo).
  { apply Forall_forall. intros m Hm. apply Hd, list_elem_of_In, filter_In in Hm as [Hin Hb].
    apply andb_true_iff in Hb as [Hv _]. split; [done|]. rewrite Forall_forall in Hms. apply Hms.
    by apply list_elem_of_In. }
  clearbody todo. clear ms Hms.
  assert (Hbody : exists s', foldr (fun m k => unlockedPutLIDMapping (LID m) (PN m);; k) (mret tt) todo s = (s', Ok tt) /\
    coherent s' /\ faults s' = []).
  { revert s Hc Hf. induction todo as [|m todo IH]; intros s Hc Hf; [by exists s|].
    apply Forall_cons in Htodo as [[Hv Hm] Htodo]. cbn [foldr].
    destruct (unlockedPut_coherent m s Hv Hm Hc Hf) as (s1 & E & Hc1 & Hf1 & _).
    rewrite (stm_bind_ok _ _ _ _ _ E). by apply IH. }
  destruct todo; [by exists s|].
  destruct (DoTxn_coherent _ s Hc Hf Hbody) as (s' & E & _ & Hc' & Hf'). by exists s'.
Qed.

Lemma run_op_coherent dedup op s :
  (forall l m, m ∈ dedup l -> m ∈ l) ->
  coherent s -> faults s = [] -> op_ok op -> coherent (run_op dedup s op) /\ faults (run_op dedup s op) = [].
Proof.
  intros Hd Hc Hf Hop.
  assert (Hget : forall src srv d, coherent (fst (getLIDMapping src srv d s)) /\ faults (fst (getLIDMapping src srv d s)) = []).
  { intros src srv d. destruct (getLIDMapping src srv d s) as [s' r] eqn:E.
    apply getLIDMapping_spec in E as (H1 & _ & H2 & _); [|done]. split; [done|by apply H2]. }
  destruct op as [pn|lid|pns| |lid pn|ms]; cbn [run_op op_ok] in *.
  - unfold GetLIDForPN. destruct (String.eqb _ _); [apply Hget|done].
  - unfold GetPNForLID. destruct (String.eqb _ _); [apply Hget|done].
  - by apply GetMany_coherent.
  - destruct (FillCache s) as [s' r] eqn:E. apply FillCache_spec in E as (H1 & _ & H2 & _); [|done].
    split; [done|by apply H2].
  - unfold PutLIDMapping. destruct (valid_put (mkMapping lid pn)) eqn:Hv; cbn [negb]; [|done].
    rewrite (stm_bind_ok _ _ s s s) by done. destruct (is_cached s _); [done|].
    destruct (unlockedPut_coherent (mkMapping lid pn) s Hv Hop Hc Hf) as (s1 & E & H1 & H2 & _).
    destruct (DoTxn_coherent (unlockedPutLIDMapping lid pn) s Hc Hf) as (s' & E' & _ & H); [by eexists|].
    by rewrite E'.
  - destruct (PutMany_coherent dedup ms s Hd Hc Hf Hop) as (s' & E & H). by rewrite E.
Qed.

Lemma new_coherent t : unique t -> no_empty t -> coherent (NewCachedLIDMap t []).
Proof. intros Hu Hn. split; [done|done|by intros []|by intros []|done]. Qed.

(** (C22) The cache never lies: whatever sequence of reads, fills, single and
    batched puts has run against a database that works, from an empty cache,
    a lookup in either direction answers with what the table holds, present or
    absent, and never fails. *)
Theorem lid_reads_correct dedup t ops :
  (forall l m, m ∈ dedup l -> m ∈ l) ->
  unique t -> no_empty t -> Forall op_ok ops ->
  let s := foldl (run_op dedup) (NewCachedLIDMap t []) ops in
  (forall pn, Server pn = DefaultUserServer ->
     snd (GetLIDForPN pn s) = Ok (target_jid pn HiddenUserServer (default "" (lid_of_pn (table s) (User pn))))) /\
  (forall lid, Server lid = HiddenUserServer ->
     snd (GetPNForLID lid s) = Ok (target_jid lid DefaultUserServer (default "" (pn_of_lid (table s) (User lid))))).
Proof.
  intros Hd Hu Hn Hops s.
  assert (H : coherent s /\ faults s = []).
  { subst s. pose proof (new_coherent t Hu Hn) as Hc. generalize (eq_refl : faults (NewCachedLIDMap t []) = []).
    revert Hc. generalize (NewCachedLIDMap t []). clear -Hd Hops.
    induction Hops as [|op ops Hop _ IH]; intros s Hc Hf; [done|]. cbn [foldl].
    destruct (run_op_coherent dedup op s Hd Hc Hf Hop). by apply IH. }
  destruct H as [Hc Hf]. clearbody s. split; intros j Hs.
  - unfold GetLIDForPN. rewrite Hs, String.eqb_refl. destruct (getLIDMapping _ _ _ _) as [s2 r] eqn:E.
    by apply getLIDMapping_spec in E as (_ & _ & _ & [[_ ?]| ->]).
  - unfold GetPNForLID. rewrite Hs, String.eqb_refl. destruct (getLIDMapping _ _ _ _) as [s2 r] eqn:E.
    by apply getLIDMapping_spec in E as (_ & _ & _ & [[_ ?]| ->]).
Qed.

(** ** Where the cache goes wrong *)

(** A failed commit leaves the cache ahead of the table: the caches are
    updated inside the transaction and are not taken back when it is, so after
    an error the mapping is not in the table but is read as if it were, and a
    second try to put it is skipped. *)
Theorem failed_commit_stale lid pn s :
  faults s = [false; false; false; true] -> table s !! User lid <> Some (User pn) -> mapping_ok (mkMapping lid pn) ->
  Server lid = HiddenUserServer -> Server pn = DefaultUserServer ->
  is_cached s (mkMapping lid pn) = false ->
  let '(s', r) := PutLIDMapping lid pn s in
  r = Err ErrDatabase /\ table s' = table s /\
  GetLIDForPN pn s' = (s', Ok (mkJID (User lid) 0 (Device pn) 0 HiddenUserServer)) /\
  PutLIDMapping lid pn s' = (s', Ok tt).
Proof.
  intros Hf Ht [Hl Hp] Hsl Hsp Hcd. cbn [LID PN] in Hl, Hp.
  assert (Hv : valid_put (mkMapping lid pn) = true).
  { unfold valid_put. cbn. by rewrite Hsl, Hsp. }
  set (s1 := set_faults [false; false; true] s). set (s3 := set_faults [true] s).
  set (s4 := put_caches (User lid) (User pn) (set_table (put_row (User lid) (User pn) (table s)) s3)).
  assert (E0 : statement s = (s1, Ok tt)) by (unfold statement; by rewrite Hf).
  assert (E1 : unlockedPutLIDMapping lid pn s1 = (s4, Ok tt)).
  { rewrite (unlockedPut_ok lid pn s1 (set_faults [false; true] s) s3); done. }
  set (s5 := set_table (table s) (set_faults [] s4)).
  assert (E2 : DoTxn (unlockedPutLIDMapping lid pn) s = (s5, Err ErrDatabase)).
  { unfold DoTxn. rewrite E0, E1. done. }
  assert (E : PutLIDMapping lid pn s = (s5, Err ErrDatabase)).
  { unfold PutLIDMapping. rewrite Hv. cbn [negb]. rewrite (stm_bind_ok _ _ s s s) by done. by rewrite Hcd. }
  rewrite E.
  assert (Hc5 : pnToLIDCache s5 !! User pn = Some (User lid)).
  { pose proof (put_caches_source ToLID (User lid) (User pn) s3 (User pn) Hl Hp) as H.
    cbv zeta in H. cbn [key_of val_of] in H. rewrite decide_True in H by done. exact H. }
  split_and!; [done|done| |].
  - unfold GetLIDForPN. rewrite Hsp, String.eqb_refl. unfold getLIDMapping.
    rewrite (stm_bind_ok _ _ s5 s5 s5) by done. cbv zeta. cbn [sourceToTarget]. rewrite Hc5.
    rewrite bool_decide_true by by eexists. cbn [orb]. unfold target_jid.
    change (default "" (Some (User lid))) with (User lid). by apply String.eqb_neq in Hl as ->.
  - unfold PutLIDMapping. rewrite Hv. cbn [negb]. rewrite (stm_bind_ok _ _ s5 s5 s5) by done.
    unfold is_cached. cbn [LID PN]. by rewrite bool_decide_true.
Qed.

Lemma put_batch ms s :
  Forall (fun m => valid_put m = true /\ mapping_ok m) ms -> coherent s -> faults s = [] ->
  exists s', DoTxn (foldr (fun m k => unlockedPutLIDMapping (LID m) (PN m);; k) (mret tt) ms) s = (s', Ok tt) /\
    coherent s' /\ table s' = foldl (fun t m => put_row (User (LID m)) (User (PN m)) t) (table s) ms.
Proof.
  intros Hms Hc Hf.
  assert (Hb : exists s', foldr (fun m k => unlockedPutLIDMapping (LID m) (PN m);; k) (mret tt) ms s = (s', Ok tt) /\
    coherent s' /\ faults s' = [] /\ table s' = foldl (fun t m => put_row (User (LID m)) (User (PN m)) t) (table s) ms).
  { revert s Hc Hf. induction Hms as [|m ms [Hv Hm] _ IH]; intros s Hc Hf; [by exists s|]. cbn [foldr foldl].
    destruct (unlockedPut_coherent m s Hv Hm Hc Hf) as (s1 & E & Hc1 & Hf1 & Ht1).
    rewrite (stm_bind_ok _ _ _ _ _ E), <- Ht1. by apply IH. }
  destruct Hb as (s' & E & Hc' & Hf' & Ht').
  destruct (DoTxn_coherent _ s Hc Hf ltac:(by exists s')) as (s2 & E2 & E3 & H2 & _).
  exists s2. split_and!; [done|done|]. congruence.
Qed.

(** What a batch stores depends on the cache: entries that equal the cache
    as it was before the batch are dropped first, so a batch that moves a
    number away and back ends with it moved away when the old pair was cached,
    and back when it was not. *)
Theorem batch_skips_cached dedup l1 l2 pn s :
  (forall l, NoDup l -> dedup l = l) ->
  coherent s -> faults s = [] ->
  Forall (fun m => valid_put m = true /\ mapping_ok m) [mkMapping l2 pn; mkMapping l1 pn] ->
  User l1 <> User l2 -> is_cached s (mkMapping l1 pn) = true ->
  let batch := [mkMapping l2 pn; mkMapping l1 pn] in
  let s' := fst (PutManyLIDMappings dedup batch s) in
  let s'' := fst (PutManyLIDMappings dedup batch (NewCachedLIDMap (table s) [])) in
  table s' !! User l1 = None /\ table s' !! User l2 = Some (User pn) /\
  table s'' !! User l1 = Some (User pn) /\ table s'' !! User l2 = None.
Proof.
  intros Hd Hc Hf Hms Hne Hcd. cbv zeta.
  apply Forall_cons in Hms as Hms2. destruct Hms2 as [H2 Hms1]. apply Forall_cons in Hms1 as Hms1'. destruct Hms1' as [H1 _].
  assert (Hcd2 : is_cached s (mkMapping l2 pn) = false).
  { unfold is_cached in *. cbn [LID PN] in *. apply bool_decide_eq_true in Hcd. apply bool_decide_eq_false.
    rewrite Hcd. congruence. }
  assert (Hnew : forall m, is_cached (NewCachedLIDMap (table s) []) m = false).
  { intros m. unfold is_cached. apply bool_decide_eq_false. by cbn. }
  unfold PutManyLIDMappings.
  rewrite (stm_bind_ok _ _ s s s), (stm_bind_ok _ _ (NewCachedLIDMap (table s) []) (NewCachedLIDMap (table s) []) (NewCachedLIDMap (table s) [])) by done.
  cbv zeta. cbn [List.filter]. rewrite Hcd, Hcd2, !Hnew, (proj1 H1), (proj1 H2). cbn [andb negb].
  rewrite !Hd; [|apply NoDup_cons; split; [|apply NoDup_singleton]; intros [= E]%list_elem_of_singleton; congruence|apply NoDup_singleton].
  destruct (put_batch [mkMapping l2 pn] s) as (s1 & -> & _ & Ht1);
    [constructor; [exact H2|constructor]|done|done|].
  destruct (put_batch [mkMapping l2 pn; mkMapping l1 pn] (NewCachedLIDMap (table s) [])) as (s2 & -> & _ & Ht2);
    [done|apply new_coherent; apply Hc|done|].
  cbn [fst]. rewrite Ht1, Ht2. cbn [foldl LID PN]. rewrite !put_row_lookup.
  assert (Ht : table s !! User l1 = Some (User pn)).
  { apply (cached_in_table s (mkMapping l1 pn)); [done|apply H1|done]. }
  rewrite (decide_False (P := User l1 = User l2)), (decide_False (P := User l2 = User l1)) by congruence.
  rewrite !(decide_True (P := User l1 = User l1)), !(decide_True (P := User l2 = User l2)) by done.
  rewrite Ht, !(decide_True (P := Some (User pn) = Some (User pn))) by done. done.
Qed.

(** ** Witnesses *)

Definition lid_1 : JID := mkJID "100" 0 0 0 HiddenUserServer.
Definition lid_2 : JID := mkJID "200" 0 3 0 HiddenUserServer.
Definition pn_1 : JID := mkJID "15551234567" 0 2 0 DefaultUserServer.
Definition one_row : gmap string string := {["100" := "15551234567"]}.

Lemma one_row_ok : unique one_row /\ no_empty one_row.
Proof.
  split.
  - intros l l' p H H'. unfold one_row in *. apply lookup_singleton_Some in H as [<- _], H' as [<- _]. done.
  - intros l p H. unfold one_row in H. apply lookup_singleton_Some in H as [<- <-]. done.
Qed.

Lemma sample_coherent : coherent (NewCachedLIDMap one_row []).
Proof. apply new_coherent; apply one_row_ok. Qed.

Lemma PutLIDMapping_stores_witness :
  exists s', PutLIDMapping lid_2 pn_1 (NewCachedLIDMap one_row []) = (s', Ok tt) /\ coherent s' /\
    table s' = put_row (User lid_2) (User pn_1) one_row /\
    snd (GetLIDForPN pn_1 s') = Ok (mkJID (User lid_2) 0 (Device pn_1) 0 HiddenUserServer) /\
    snd (GetPNForLID lid_2 s') = Ok (mkJID (User pn_1) 0 (Device lid_2) 0 DefaultUserServer).
Proof.
  apply (PutLIDMapping_stores lid_2 pn_1 (NewCachedLIDMap one_row []));
    [apply sample_coherent|reflexivity|reflexivity|reflexivity|split; discriminate].
Defined.

Definition sample_ops : list lid_op :=
  [OpGetLID pn_1; OpPut lid_2 pn_1; OpFill; OpGetMany [pn_1; lid_1]; OpPutMany [mkMapping lid_1 pn_1]; OpGetPN lid_2].

Lemma lid_reads_correct_witness :
  let s := foldl (run_op id) (NewCachedLIDMap one_row []) sample_ops in
  (forall pn, Server pn = DefaultUserServer ->
     snd (GetLIDForPN pn s) = Ok (target_jid pn HiddenUserServer (default "" (lid_of_pn (table s) (User pn))))) /\
  (forall lid, Server lid = HiddenUserServer ->
     snd (GetPNForLID lid s) = Ok (target_jid lid DefaultUserServer (default "" (pn_of_lid (table s) (User lid))))).
Proof.
  apply (lid_reads_correct id one_row sample_ops);
    [intros l m H; exact H|apply one_row_ok|apply one_row_ok|].
  unfold sample_ops. repeat constructor; discriminate.
Defined.

Example sample_ops_table :
  map_to_list (table (foldl (run_op id) (NewCachedLIDMap one_row []) sample_ops)) = [("100", "15551234567")].
Proof. vm_compute. reflexivity. Qed.

Lemma failed_commit_stale_witness :
  let '(s', r) := PutLIDMapping lid_2 pn_1 (NewCachedLIDMap one_row [false; false; false; true]) in
  r = Err ErrDatabase /\ table s' = one_row /\
  GetLIDForPN pn_1 s' = (s', Ok (mkJID (User lid_2) 0 (Device pn_1) 0 HiddenUserServer)) /\
  PutLIDMapping lid_2 pn_1 s' = (s', Ok tt).
Proof.
  apply (failed_commit_stale lid_2 pn_1 (NewCachedLIDMap one_row [false; false; false; true]));
    [reflexivity|vm_compute; discriminate|split; discriminate|reflexivity..].
Defined.

Definition cached_state : CachedLIDMap := fst (GetLIDForPN pn_1 (NewCachedLIDMap one_row [])).

Lemma cached_coherent : coherent cached_state.
Proof.
  unfold cached_state, GetLIDForPN. rewrite String.eqb_refl.
  destruct (getLIDMapping _ _ _ _) as [s r] eqn:E. apply getLIDMapping_spec in E as [H _]; [done|].
  apply sample_coherent.
Qed.

Lemma batch_skips_cached_witness :
  let batch := [mkMapping lid_2 pn_1; mkMapping lid_1 pn_1] in
  let s' := fst (PutManyLIDMappings id batch cached_state) in
  let s'' := fst (PutManyLIDMappings id batch (NewCachedLIDMap (table cached_state) [])) in
  table s' !! User lid_1 = None /\ table s' !! User lid_2 = Some (User pn_1) /\
  table s'' !! User lid_1 = Some (User pn_1) /\ table s'' !! User lid_2 = None.
Proof.
  apply (batch_skips_cached id lid_1 lid_2 pn_1 cached_state);
    [intros l _; reflexivity|apply cached_coherent|vm_compute; reflexivity| |vm_compute; discriminate|vm_compute; reflexivity].
  repeat constructor; discriminate.
Defined.

End lidmap.
