(* ===== verification/MsgSecret.v ===== *)
(** * msgsecret.go: messages that refer to another message's secret

    Poll votes, reactions, comments and edits are sealed under a key derived
    from the secret of the message they refer to. Module [msgsecrets] is the
    table of secrets of store/sqlstore/store.go, read in either of the two
    addressing modes; module [msgsecret] is msgsecret.go, over the primitives of
    Crypto.v and abstract protobuf codecs. *)

From S2P Require Import Prelude GoStrings Jid Crypto StateErr.

#[local] Open Scope string_scope.
#[local] Open Scope list_scope.
#[local] Open Scope Z_scope.

Module msgsecrets.

Import jid.

(** whatsmeow_message_secrets, rows of one device; the key is (chat, sender, id). *)
Record secret_row := mkSecret { row_chat : string; row_sender : string; row_id : string; row_key : bytes }.

(** The table of secrets and whatsmeow_lid_map (lid to pn). *)
Record secret_store := mkStore { secrets : list secret_row; lid_map : gmap string string }.

Inductive secret_db_error := ErrNull | ErrScan (e : scan_error).

(** [replace(s, sub, '')] of SQL. *)
Fixpoint sql_remove (fuel : nat) (sub s : string) : string :=
  match fuel, s with
  | O, _ | _, EmptyString => s
  | Datatypes.S fuel', String a s' =>
      if has_prefix sub s then sql_remove fuel' sub (trim_prefix sub s)
      else String a (sql_remove fuel' sub s')
  end.

(** [s LIKE '%suffix']. *)
Fixpoint like_suffix (suffix s : string) : bool :=
  String.eqb suffix s || match s with EmptyString => false | String _ s' => like_suffix suffix s' end.

Definition lid_of (m : gmap string string) (pn : string) : option string :=
  head (map fst (List.filter (fun r => String.eqb (snd r) pn) (map_to_list m))).

(** The CASE expression: the same user in the other addressing mode. *)
Definition other_mode (m : gmap string string) (j : string) : option string :=
  if like_suffix "@lid" j then
    pn ← m !! sql_remove (String.length j) "@lid" j; Some (pn +:+ "@s.whatsapp.net")
  else if like_suffix "@s.whatsapp.net" j then
    lid ← lid_of m (sql_remove (String.length j) "@s.whatsapp.net" j); Some (lid +:+ "@lid")
  else None.

(** A parameter as the driver sends it: an empty JID is NULL. *)
Definition param (j : JID) : option string :=
  match Value (ToNonAD j) with SqlString s => Some s | _ => None end.

Definition PutMessageSecret (chat sender : JID) (id : string) (secret : bytes) :
    stm secret_store secret_db_error unit :=
  fun s =>
    match param chat, param sender with
    | Some c, Some n =>
        let same r := String.eqb (row_chat r) c && String.eqb (row_sender r) n && String.eqb (row_id r) id in
        if existsb same (secrets s) then (s, Ok tt)
        else (mkStore (secrets s ++ [mkSecret c n id secret]) (lid_map s), Ok tt)
    | _, _ => (s, Err ErrNull)
    end.

(** A failed insert takes the ones before it back. *)
Definition PutMessageSecrets (inserts : list (JID * JID * string * bytes)) : stm secret_store secret_db_error unit :=
  fun s =>
    let run := foldr (fun '(c, n, id, k) rest => PutMessageSecret c n id k ;; rest) (mret tt) inserts in
    match run s with
    | (s', Ok _) => (s', Ok tt)
    | (_, o) => (s, o)
    end.

Definition matches (m : gmap string string) (p : string) (col : string) : bool :=
  String.eqb col p || match other_mode m p with Some o => String.eqb col o | None => false end.

Definition find_secret (s : secret_store) (chat sender id : string) : option secret_row :=
  List.find (fun r => matches (lid_map s) chat (row_chat r) && String.eqb (row_id r) id &&
                      matches (lid_map s) sender (row_sender r)) (secrets s).

(** The first row found; no row is no error. *)
Definition GetMessageSecret (s : secret_store) (chat sender : JID) (id : string) :
    outcome secret_db_error (option bytes * JID) :=
  match param chat, param sender with
  | Some c, Some n =>
      match find_secret s c n id with
      | Some r =>
          j ← map_err ErrScan (Scan EmptyJID (SqlString (row_sender r)));
          Ok (Some (row_key r), j)
      | None => Ok (None, EmptyJID)
      end
  | _, _ => Ok (None, EmptyJID)
  end.

(** ** The two addressing modes *)

Lemma like_suffix_app u suf : like_suffix suf (u +:+ suf) = true.
Proof.
  induction u as [|a u IH].
  - change ("" +:+ suf) with suf. destruct suf; cbn [like_suffix]; by rewrite String.eqb_refl.
  - change (String a u +:+ suf) with (String a (u +:+ suf)). cbn [like_suffix]. by rewrite IH, orb_true_r.
Qed.

Lemma has_prefix_at_no suf u t : str_contains "@" u = false -> u <> "" ->
  has_prefix (String "@" suf) (u +:+ t) = false.
Proof.
  destruct u as [|a u]; [done|]. cbn [str_contains]. intros [H _]%orb_false_iff _.
  change (String a u +:+ t) with (String a (u +:+ t)). cbn [has_prefix]. rewrite Ascii.eqb_sym. by rewrite H.
Qed.

Lemma has_prefix_refl p : has_prefix p p = true.
Proof. induction p as [|a p IH]; [done|]. cbn [has_prefix]. by rewrite Ascii.eqb_refl. Qed.

Lemma trim_prefix_self p : trim_prefix p p = "".
Proof.
  unfold trim_prefix. rewrite has_prefix_refl, Nat.sub_diag. generalize (String.length p).
  induction p as [|a p IH]; intros n; [by destruct n|]. destruct n as [|n]; [done|]. apply IH.
Qed.

Lemma sql_remove_at fuel suf u :
  (String.length u < fuel)%nat -> str_contains "@" u = false ->
  sql_remove fuel (String "@" suf) (u +:+ String "@" suf) = u.
Proof.
  revert fuel. induction u as [|a u IH]; intros [|fuel] Hf Hu; cbn in Hf; try lia.
  - change ("" +:+ String "@" suf) with (String "@" suf). cbn [sql_remove].
    rewrite has_prefix_refl, trim_prefix_self. by destruct fuel.
  - change (String a u +:+ ?t) with (String a (u +:+ t)). cbn [sql_remove].
    assert (has_prefix (String "@" suf) (String a (u +:+ String "@" suf)) = false) as ->.
    { apply (has_prefix_at_no suf (String a u)); done. }
    f_equal. apply IH; [cbn in Hf; lia|]. cbn in Hu. by apply orb_false_iff in Hu as [_ ?].
Qed.

Fixpoint last_char (s : string) : option ascii :=
  match s with
  | EmptyString => None
  | String a s' => match last_char s' with Some b => Some b | None => Some a end
  end.

Lemma last_char_app u t : t <> "" -> last_char (u +:+ t) = last_char t.
Proof.
  intros Ht. induction u as [|a u IH]; [done|].
  change (String a u +:+ t) with (String a (u +:+ t)). cbn [last_char]. rewrite IH.
  destruct t as [|b t]; [done|]. cbn [last_char]. by destruct (last_char t).
Qed.

Lemma like_suffix_inv suf s : like_suffix suf s = true -> exists u, s = u +:+ suf.
Proof.
  induction s as [|a s IH]; cbn [like_suffix].
  - intros [H%String.eqb_eq|H]%orb_true_iff; [|done]. exists "". by rewrite H.
  - intros [H%String.eqb_eq|H]%orb_true_iff; [by exists ""; rewrite <- H|].
    destruct (IH H) as [u ->]. by exists (String a u).
Qed.

Lemma length_app_at u t : (String.length u < String.length (u +:+ String "@" t))%nat.
Proof.
  induction u as [|a u IH]; [change ("" +:+ ?x) with x; cbn [String.length]; lia|].
  change (String a u +:+ ?x) with (String a (u +:+ x)). cbn [String.length]. lia.
Qed.

Lemma other_mode_lid m u pn : str_contains "@" u = false -> m !! u = Some pn ->
  other_mode m (u +:+ "@lid") = Some (pn +:+ "@s.whatsapp.net").
Proof.
  intros Hu Hm. unfold other_mode. rewrite like_suffix_app.
  rewrite sql_remove_at by (done || apply length_app_at). by rewrite Hm.
Qed.

Lemma other_mode_pn m u lid : str_contains "@" u = false -> lid_of m u = Some lid ->
  other_mode m (u +:+ "@s.whatsapp.net") = Some (lid +:+ "@lid").
Proof.
  intros Hu Hm. unfold other_mode.
  destruct (like_suffix "@lid" (u +:+ "@s.whatsapp.net")) eqn:E.
  { exfalso. apply like_suffix_inv in E as [t Ht]. apply (f_equal last_char) in Ht.
    rewrite !last_char_app in Ht; done. }
  rewrite like_suffix_app, sql_remove_at by (done || apply length_app_at). by rewrite Hm.
Qed.

(** A user JID whose text can be read back. *)
Definition plain_user (j : JID) : Prop :=
  User j <> "" /\ str_contains "@" (User j) = false /\ str_contains "." (User j) = false /\
  str_contains ":" (User j) = false /\ Server j <> "" /\ str_contains "@" (Server j) = false /\ Integrator j = 0.

(** [j'] addresses the user of [j], in the same mode or the other one. *)
Definition same_user (m : gmap string string) (j j' : JID) : Prop :=
  (User j' = User j /\ Server j' = Server j) \/
  (Server j = DefaultUserServer /\ Server j' = HiddenUserServer /\ m !! User j' = Some (User j)) \/
  (Server j = HiddenUserServer /\ Server j' = DefaultUserServer /\ lid_of m (User j') = Some (User j)).

Lemma param_plain j : plain_user j -> param j = Some (User j +:+ "@" +:+ Server j).
Proof.
  intros (Hu & _ & _ & _ & Hs & _). unfold param, Value, ToNonAD. cbn [Server User RawAgent Device Integrator].
  destruct (Server j) as [|a srv] eqn:E; [done|]. cbn [String.length Nat.eqb].
  unfold String_. cbn [Server User RawAgent Device]. rewrite bool_decide_eq_false_2 by done.
  change (0 <? 0) with false. cbv iota. destruct (User j) as [|b u]; [done|].
  destruct (Z.ltb_spec 0 (Z.of_nat (String.length (String b u)))) as [|H]; [done|]. cbn in H. lia.
Qed.

Lemma same_user_matches m j j' :
  plain_user j' -> same_user m j j' ->
  matches m (User j' +:+ "@" +:+ Server j') (User j +:+ "@" +:+ Server j) = true.
Proof.
  intros (Hu & Ha & _) H. unfold matches. apply orb_true_iff.
  destruct H as [[-> ->]|[(-> & -> & Hm)|(-> & -> & Hm)]].
  - left. by rewrite String.eqb_refl.
  - right. change ("@" +:+ HiddenUserServer) with "@lid". rewrite (other_mode_lid _ _ _ Ha Hm).
    apply String.eqb_refl.
  - right. change ("@" +:+ DefaultUserServer) with "@s.whatsapp.net". rewrite (other_mode_pn _ _ _ Ha Hm).
    apply String.eqb_refl.
Qed.

Lemma scan_plain j : plain_user j ->
  Scan EmptyJID (SqlString (User j +:+ "@" +:+ Server j)) = Ok (ToNonAD j).
Proof.
  intros (Hu & H1 & H2 & H3 & Hs & H4 & Hi). cbn [Scan]. rewrite parse_user by done. cbn.
  unfold ToNonAD. by rewrite Hi.
Qed.

Lemma List_find_app {A} (f : A -> bool) l l' :
  List.find f (l ++ l') = match List.find f l with Some x => Some x | None => List.find f l' end.
Proof. induction l as [|a l IH]; [done|]. cbn. by destruct (f a). Qed.

(** A secret is found whichever way its chat and sender are addressed: once
    stored it is returned, with the sender it was stored under, to every query
    that names the same chat and sender by phone number or by LID, and storing
    another secret for the message changes nothing. *)
Theorem GetMessageSecret_stored s s' chat sender chat' sender' id secret secret2 :
  plain_user chat -> plain_user sender -> plain_user chat' -> plain_user sender' ->
  same_user (lid_map s) chat chat' -> same_user (lid_map s) sender sender' ->
  GetMessageSecret s chat' sender' id = Ok (None, EmptyJID) ->
  PutMessageSecret chat sender id secret s = (s', Ok tt) ->
  GetMessageSecret s' chat' sender' id = Ok (Some secret, ToNonAD sender) /\
  PutMessageSecret chat sender id secret2 s' = (s', Ok tt).
Proof.
  intros Hc Hn Hc' Hn' Hsc Hsn Hnone Hput.
  unfold GetMessageSecret, PutMessageSecret in *.
  rewrite !param_plain in * by done.
  pose proof (same_user_matches _ _ _ Hc' Hsc) as Mc. pose proof (same_user_matches _ _ _ Hn' Hsn) as Mn.
  set (c := User chat +:+ "@" +:+ Server chat) in *. set (n := User sender +:+ "@" +:+ Server sender) in *.
  set (c' := User chat' +:+ "@" +:+ Server chat') in *. set (n' := User sender' +:+ "@" +:+ Server sender') in *.
  destruct (find_secret s c' n' id) as [r|] eqn:Hf.
  { destruct (Scan EmptyJID (SqlString (row_sender r))) as [j| | |]; cbn in Hnone; discriminate. }
  destruct (existsb _ _) eqn:He.
  { exfalso. apply existsb_exists in He as (r & Hin & Hr). unfold find_secret in Hf.
    apply (List.find_none _ _ Hf r) in Hin.
    apply andb_true_iff in Hr as [[E1%String.eqb_eq E2%String.eqb_eq]%andb_true_iff E3].
    by rewrite E1, E2, E3, Mc, Mn in Hin. }
  injection Hput as <-. cbn [secrets lid_map]. unfold find_secret in *. cbn [secrets lid_map].
  rewrite List_find_app, Hf. cbn [List.find row_chat row_sender row_id row_key].
  rewrite Mc, Mn, String.eqb_refl. cbn [andb]. cbn [row_sender row_key]. subst n.
  rewrite (scan_plain sender Hn). split; [done|].
  rewrite existsb_app. cbn [existsb row_chat row_sender row_id]. rewrite !String.eqb_refl. cbn [andb orb].
  by rewrite orb_true_r.
Qed.

Definition sample_lids : gmap string string := {["77" := "15551234567"]}.

Lemma GetMessageSecret_stored_witness :
  let s := mkStore [] sample_lids in
  let chat := NewJID "123-456" GroupServer in
  let s' := fst (PutMessageSecret chat (NewJID "15551234567" DefaultUserServer) "ID" [x01] s) in
  GetMessageSecret s' chat (NewJID "77" HiddenUserServer) "ID"
    = Ok (Some [x01], ToNonAD (NewJID "15551234567" DefaultUserServer)) /\
  PutMessageSecret chat (NewJID "15551234567" DefaultUserServer) "ID" [x02] s' = (s', Ok tt).
Proof.
  apply (GetMessageSecret_stored (mkStore [] sample_lids)
    (fst (PutMessageSecret (NewJID "123-456" GroupServer) (NewJID "15551234567" DefaultUserServer) "ID" [x01]
            (mkStore [] sample_lids)))
    (NewJID "123-456" GroupServer) (NewJID "15551234567" DefaultUserServer)
    (NewJID "123-456" GroupServer) (NewJID "77" HiddenUserServer) "ID" [x01] [x02]);
    try (vm_compute; repeat split; discriminate); try (vm_compute; reflexivity).
  - left. split; reflexivity.
  - right. left. split_and!; vm_compute; reflexivity.
Defined.

End msgsecrets.

Module msgsecret.

Import jid msgsecrets crypto.

(** ** Data *)

Definition EncSecretPollVote := "Poll Vote".
Definition EncSecretReaction := "Enc Reaction".
Definition EncSecretComment := "Enc Comment".
Definition EncSecretReportToken := "Report Token".
Definition EncSecretEventResponse := "Event Response".
Definition EncSecretEventEdit := "Event Edit".
Definition EncSecretMessageEdit := "Message Edit".
Definition EncSecretPollEdit := "Poll Edit".
Definition EncSecretPollAddOption := "Poll Add Option".
Definition EncSecretBotMsg := "Bot Message".

(** The fields of types.MessageInfo and waCommon.MessageKey that are used; an
    absent field of a key reads as its zero value. *)
Record MessageInfo := mkInfo { Chat : JID; Sender : JID; IsFromMe : bool; IsGroup : bool; ID : string }.
Record MessageKey := mkKey { RemoteJID : string; FromMe : bool; KeyID : string; Participant : string }.

(** An encrypted part with the key of the message it refers to. *)
Record EncSecret := mkEnc { EncIV : bytes; EncPayload : bytes; TargetMessageKey : MessageKey }.

(** The client: its identities and its store. *)
Record client := mkClient { own_id : JID; own_lid : JID; store : secret_store }.

Inductive secret_error :=
  | ErrNotLoggedIn
  | ErrParseSender (e : jid_error)
  | ErrUnexpectedServer
  | ErrStore (e : secret_db_error)
  | ErrOriginalMessageSecretNotFound
  | ErrGCM (e : gcm_error)
  | ErrMarshal
  | ErrUnmarshal
  | ErrDerive                    (* never: the derivation only panics *)
  | ErrUnsupportedType.

(** A protobuf message's codec. *)
Record codec (M : Type) := mkCodec { pb_marshal : M -> option bytes; pb_unmarshal : bytes -> option M }.
Arguments mkCodec {M}.
Arguments pb_marshal {M}.
Arguments pb_unmarshal {M}.

Definition marshal {M} (c : codec M) (m : M) : outcome secret_error bytes :=
  match pb_marshal c m with Some b => Ok b | None => Err ErrMarshal end.
Definition unmarshal {M} (c : codec M) (b : bytes) : outcome secret_error M :=
  match pb_unmarshal c b with Some m => Ok m | None => Err ErrUnmarshal end.

Section msgsecret.
Context {C : Crypto}.

(** ** Keys *)

Definition applyBotMessageHKDF (messageSecret : bytes) : outcome unit bytes :=
  SHA256 messageSecret [] (str_bytes EncSecretBotMsg) 32.

Definition has_additional_data (t : string) : bool :=
  String.eqb t EncSecretPollVote || String.eqb t EncSecretEventResponse || String.eqb t "".

Definition generateMsgSecretKey (modificationType : string) (modificationSender : JID) (origMsgID : string)
    (origMsgSender : JID) (origMsgSecret : bytes) : outcome unit (bytes * bytes) :=
  let origMsgSenderStr := String_ (ToNonAD origMsgSender) in
  let modificationSenderStr := String_ (ToNonAD modificationSender) in
  let useCaseSecret :=
    str_bytes origMsgID ++ str_bytes origMsgSenderStr ++ str_bytes modificationSenderStr ++
    str_bytes modificationType in
  secretKey ← SHA256 origMsgSecret [] useCaseSecret 32;
  let additionalData :=
    if has_additional_data modificationType
    then str_bytes origMsgID ++ [x00] ++ str_bytes modificationSenderStr else [] in
  Ok (secretKey, additionalData).

(** The derivation's error type has no value of interest. *)
Definition derive (modificationType : string) (modificationSender : JID) (origMsgID : string)
    (origMsgSender : JID) (origMsgSecret : bytes) : outcome secret_error (bytes * bytes) :=
  map_err (fun _ => ErrDerive)
    (generateMsgSecretKey modificationType modificationSender origMsgID origMsgSender origMsgSecret).

Definition is_user_server (s : string) : bool := String.eqb s DefaultUserServer || String.eqb s HiddenUserServer.

Definition getOrigSenderFromKey (msg : MessageInfo) (key : MessageKey) : outcome secret_error JID :=
  if FromMe key then Ok (Sender msg)
  else if is_user_server (Server (Chat msg)) then
    map_err (fun e => ErrParseSender (fst e)) (ParseJID (RemoteJID key))
  else
    match ParseJID (Participant key) with
    | Ok sender => if is_user_server (Server sender) then Ok sender else Err ErrUnexpectedServer
    | Err (e, sender) => if is_user_server (Server sender) then Err (ErrParseSender e) else Err ErrUnexpectedServer
    | Panic => Panic
    | NoFuel => NoFuel
    end.

(** ** Opening and sealing *)

Definition open_with (useCase : string) (msg : MessageInfo) (id : string) (origSender : JID) (secret : bytes)
    (encrypted : EncSecret) : outcome secret_error bytes :=
  kd ← derive useCase (Sender msg) id origSender secret;
  map_err ErrGCM (Decrypt (fst kd) (EncIV encrypted) (EncPayload encrypted) (snd kd)).

Definition decryptMsgSecret (cli : client) (msg : MessageInfo) (useCase : string) (encrypted : EncSecret)
    (origMsgKey : MessageKey) : outcome secret_error bytes :=
  origSender ← getOrigSenderFromKey msg origMsgKey;
  found ← map_err ErrStore (GetMessageSecret (store cli) (Chat msg) origSender (KeyID origMsgKey));
  match found with
  | (None, _) => Err ErrOriginalMessageSecretNotFound
  | (Some baseEncKey, storedOrigSender) =>
      match open_with useCase msg (KeyID origMsgKey) origSender baseEncKey encrypted with
      | Err (ErrGCM ErrOpen) =>
          if bool_decide (origSender <> storedOrigSender) then
            open_with useCase msg (KeyID origMsgKey) storedOrigSender baseEncKey encrypted
          else Err (ErrGCM ErrOpen)
      | o => o
      end
  end.

(** [iv] is what [random.Bytes(12)] gives. *)
Definition encryptMsgSecret (cli : client) (iv : bytes) (ownID chat origSender : JID) (origMsgID : string)
    (useCase : string) (plaintext : bytes) : outcome secret_error (bytes * bytes) :=
  if IsEmpty ownID then Err ErrNotLoggedIn
  else
    found ← map_err ErrStore (GetMessageSecret (store cli) chat origSender origMsgID);
    match found with
    | (None, _) => Err ErrOriginalMessageSecretNotFound
    | (Some baseEncKey, origSender) =>
        kd ← derive useCase ownID origMsgID origSender baseEncKey;
        ciphertext ← map_err ErrGCM (Encrypt (fst kd) iv plaintext (snd kd));
        Ok (ciphertext, iv)
    end.

Definition decryptBotMessage (messageSecret : bytes) (msMsg : EncSecret) (messageID : string)
    (targetSenderJID : JID) (info : MessageInfo) : outcome secret_error bytes :=
  botKey ← map_err (fun _ => ErrDerive) (applyBotMessageHKDF messageSecret);
  open_with "" info messageID targetSenderJID botKey msMsg.

(** ** The messages *)

Section messages.
Context {Vote Reaction Message : Type}.
Context (vote_codec : codec Vote) (reaction_codec : codec Reaction) (message_codec : codec Message).

(** A received message carries at most one of the encrypted parts; the caller
    has picked it out. *)
Definition DecryptReaction (cli : client) (info : MessageInfo) (e : EncSecret) : outcome secret_error Reaction :=
  plaintext ← decryptMsgSecret cli info EncSecretReaction e (TargetMessageKey e);
  unmarshal reaction_codec plaintext.

Definition DecryptComment (cli : client) (info : MessageInfo) (e : EncSecret) : outcome secret_error Message :=
  plaintext ← decryptMsgSecret cli info EncSecretComment e (TargetMessageKey e);
  unmarshal message_codec plaintext.

Definition DecryptPollVote (cli : client) (info : MessageInfo) (e : EncSecret) : outcome secret_error Vote :=
  plaintext ← decryptMsgSecret cli info EncSecretPollVote e (TargetMessageKey e);
  unmarshal vote_codec plaintext.

Inductive SecretEncType := EVENT_EDIT | POLL_EDIT | POLL_ADD_OPTION | MESSAGE_EDIT | OTHER_TYPE.

Definition use_case_of (t : SecretEncType) : option string :=
  match t with
  | EVENT_EDIT => Some EncSecretEventEdit
  | POLL_EDIT => Some EncSecretPollEdit
  | POLL_ADD_OPTION => Some EncSecretPollEdit
  | MESSAGE_EDIT => Some EncSecretMessageEdit
  | OTHER_TYPE => None
  end.

(** The copying of the outer message's context into the edit is left out. *)
Definition DecryptSecretEncryptedMessage (cli : client) (info : MessageInfo) (t : SecretEncType) (e : EncSecret) :
    outcome secret_error Message :=
  match use_case_of t with
  | None => Err ErrUnsupportedType
  | Some useCase =>
      plaintext ← decryptMsgSecret cli info useCase e (TargetMessageKey e);
      unmarshal message_codec plaintext
  end.

Definition getKeyFromInfo (msgInfo : MessageInfo) : MessageKey :=
  mkKey (String_ (Chat msgInfo)) (IsFromMe msgInfo) (ID msgInfo)
    (if IsGroup msgInfo then String_ (Sender msgInfo) else "").

Definition HashPollOptions (optionNames : list string) : list bytes :=
  map (fun option => sha256 (str_bytes option)) optionNames.

Definition EncryptPollVote (cli : client) (iv : bytes) (pollInfo : MessageInfo) (vote : Vote) :
    outcome secret_error EncSecret :=
  plaintext ← marshal vote_codec vote;
  let ownID := if String.eqb (Server (Sender pollInfo)) DefaultUserServer then own_id cli else own_lid cli in
  ci ← encryptMsgSecret cli iv ownID (Chat pollInfo) (Sender pollInfo) (ID pollInfo) EncSecretPollVote plaintext;
  Ok (mkEnc (snd ci) (fst ci) (getKeyFromInfo pollInfo)).

Definition EncryptComment (cli : client) (iv : bytes) (rootMsgInfo : MessageInfo) (comment : Message) :
    outcome secret_error EncSecret :=
  plaintext ← marshal message_codec comment;
  ci ← encryptMsgSecret cli iv (own_lid cli) (Chat rootMsgInfo) (Sender rootMsgInfo) (ID rootMsgInfo)
         EncSecretComment plaintext;
  Ok (mkEnc (snd ci) (fst ci)
        (mkKey (String_ (Chat rootMsgInfo)) (IsFromMe rootMsgInfo) (ID rootMsgInfo)
           (String_ (ToNonAD (Sender rootMsgInfo))))).

(** [keyless] is the reaction without its key, [reactionKey] that key. *)
Definition EncryptReaction (cli : client) (iv : bytes) (rootMsgInfo : MessageInfo) (keyless : Reaction)
    (reactionKey : MessageKey) : outcome secret_error EncSecret :=
  plaintext ← marshal reaction_codec keyless;
  ci ← encryptMsgSecret cli iv (own_lid cli) (Chat rootMsgInfo) (Sender rootMsgInfo) (ID rootMsgInfo)
         EncSecretReaction plaintext;
  Ok (mkEnc (snd ci) (fst ci) reactionKey).

(** ** Correctness *)

Lemma derive_ok t m id o secret :
  exists k ad, derive t m id o secret = Ok (k, ad) /\ length k = 32%nat.
Proof.
  unfold derive, generateMsgSecretKey. rewrite SHA256_ok by lia. rewrite bind_Ok. cbn [map_err].
  eexists _, _. split; [reflexivity|]. apply length_hkdf_bytes.
Qed.

(** Devices and agents do not matter. *)
Lemma derive_nonAD t m m' id o o' secret :
  ToNonAD m = ToNonAD m' -> ToNonAD o = ToNonAD o' -> derive t m id o secret = derive t m' id o' secret.
Proof. intros Hm Ho. unfold derive, generateMsgSecretKey. by rewrite Hm, Ho. Qed.

Lemma encryptMsgSecret_ok cli iv ownID chat origSender id useCase p secret stored :
  IsEmpty ownID = false -> nonce_ok iv = true ->
  GetMessageSecret (store cli) chat origSender id = Ok (Some secret, stored) ->
  exists k ad, derive useCase ownID id stored secret = Ok (k, ad) /\ length k = 32%nat /\
    encryptMsgSecret cli iv ownID chat origSender id useCase p = Ok (gcm_seal k iv p ad, iv).
Proof.
  intros Hown Hiv Hget. destruct (derive_ok useCase ownID id stored secret) as (k & ad & Hd & Hk).
  exists k, ad. split_and!; [done|done|]. unfold encryptMsgSecret. rewrite Hown, Hget. cbn [map_err].
  rewrite bind_Ok, Hd, bind_Ok. unfold Encrypt. cbn [fst snd]. rewrite Prepare_32 by done.
  rewrite bind_Ok, Hiv. done.
Qed.

(** What [derive] gives opens what was sealed under it. *)
Lemma open_with_sealed {L : CryptoLaws C} useCase msg m id o o' secret k ad iv p key :
  derive useCase m id o secret = Ok (k, ad) -> length k = 32%nat -> nonce_ok iv = true ->
  ToNonAD (Sender msg) = ToNonAD m -> ToNonAD o' = ToNonAD o ->
  open_with useCase msg id o' secret (mkEnc iv (gcm_seal k iv p ad) key) = Ok p.
Proof.
  intros Hd Hk Hiv Hm Ho. unfold open_with. rewrite (derive_nonAD _ _ m _ _ o) by done. rewrite Hd, bind_Ok.
  unfold Decrypt. cbn [fst snd EncIV EncPayload]. rewrite Prepare_32 by done. rewrite bind_Ok, Hiv. cbn [negb].
  by rewrite gcm_open_seal.
Qed.

(** The reader finds the secret under the sender [o] the sealer used, or under
    the stored one after the sender in the key fails. *)
Definition finds_sender (cli : client) (info : MessageInfo) (useCase : string) (e : EncSecret) (id : string)
    (o : JID) (secret : bytes) : Prop :=
  exists orig stored,
    getOrigSenderFromKey info (TargetMessageKey e) = Ok orig /\
    GetMessageSecret (store cli) (Chat info) orig id = Ok (Some secret, stored) /\
    (ToNonAD orig = ToNonAD o \/
     (ToNonAD stored = ToNonAD o /\ orig <> stored /\
      open_with useCase info id orig secret e = Err (ErrGCM ErrOpen))).

Lemma decryptMsgSecret_sealed {L : CryptoLaws C} cli info useCase m id o secret k ad iv p key :
  derive useCase m id o secret = Ok (k, ad) -> length k = 32%nat -> nonce_ok iv = true ->
  ToNonAD (Sender info) = ToNonAD m -> KeyID key = id ->
  let e := mkEnc iv (gcm_seal k iv p ad) key in
  finds_sender cli info useCase e id o secret ->
  decryptMsgSecret cli info useCase e (TargetMessageKey e) = Ok p.
Proof.
  intros Hd Hk Hiv Hm Hid e (orig & stored & Horig & Hget & Hcase).
  unfold decryptMsgSecret. rewrite Horig, bind_Ok. cbn [TargetMessageKey e]. rewrite Hid, Hget. cbn [map_err].
  rewrite bind_Ok. destruct Hcase as [Ho|(Ho & Hne & Hfail)].
  - unfold e. by erewrite open_with_sealed by done.
  - rewrite Hfail, bool_decide_true by done. unfold e. by erewrite open_with_sealed by done.
Qed.

(** The identity a vote is cast under. *)
Definition voter_id (cli : client) (pollInfo : MessageInfo) : JID :=
  if String.eqb (Server (Sender pollInfo)) DefaultUserServer then own_id cli else own_lid cli.

(** A vote arrives: a logged-in voter who has the poll's secret can seal any
    vote, and whoever receives it as coming from that voter and has the same
    secret reads it, whether the poll's sender is the one the key names or the
    one the secret was stored under, in either addressing mode. *)
Theorem DecryptPollVote_Encrypt {L : CryptoLaws C} voter iv pollInfo vote b secret stored :
  pb_marshal vote_codec vote = Some b -> pb_unmarshal vote_codec b = Some vote ->
  IsEmpty (voter_id voter pollInfo) = false -> length iv = 12%nat ->
  GetMessageSecret (store voter) (Chat pollInfo) (Sender pollInfo) (ID pollInfo) = Ok (Some secret, stored) ->
  exists e, EncryptPollVote voter iv pollInfo vote = Ok e /\
    forall reader info,
      ToNonAD (Sender info) = ToNonAD (voter_id voter pollInfo) ->
      finds_sender reader info EncSecretPollVote e (ID pollInfo) stored secret ->
      DecryptPollVote reader info e = Ok vote.
Proof.
  intros Hm Hu Hid Hiv Hget.
  assert (Hn : nonce_ok iv = true) by (unfold nonce_ok, blen; by rewrite Hiv).
  destruct (encryptMsgSecret_ok voter iv (voter_id voter pollInfo) (Chat pollInfo) (Sender pollInfo) (ID pollInfo)
    EncSecretPollVote b secret stored Hid Hn Hget) as (k & ad & Hd & Hk & He).
  exists (mkEnc iv (gcm_seal k iv b ad) (getKeyFromInfo pollInfo)). split.
  - unfold EncryptPollVote, marshal. rewrite Hm, bind_Ok. fold (voter_id voter pollInfo). by rewrite He, bind_Ok.
  - intros reader info Hs Hf. unfold DecryptPollVote.
    rewrite (decryptMsgSecret_sealed reader info EncSecretPollVote _ _ _ _ _ _ _ _ _ Hd Hk Hn Hs) by done.
    rewrite bind_Ok. unfold unmarshal. by rewrite Hu.
Qed.

(** An IV of the wrong length takes the reader down: whatever the message
    claims to be, if its IV does not have 12 bytes and the secret it refers to
    is known, opening it panics in the cipher instead of returning an error. *)
Theorem wrong_nonce_panics cli info useCase e orig secret stored :
  length (EncIV e) <> 12%nat ->
  getOrigSenderFromKey info (TargetMessageKey e) = Ok orig ->
  GetMessageSecret (store cli) (Chat info) orig (KeyID (TargetMessageKey e)) = Ok (Some secret, stored) ->
  decryptMsgSecret cli info useCase e (TargetMessageKey e) = Panic.
Proof.
  intros Hiv Horig Hget. unfold decryptMsgSecret. rewrite Horig, bind_Ok, Hget. cbn [map_err].
  rewrite bind_Ok. unfold open_with.
  destruct (derive_ok useCase (Sender info) (KeyID (TargetMessageKey e)) orig secret) as (k & ad & -> & Hk).
  rewrite bind_Ok. unfold Decrypt. cbn [fst snd]. rewrite Prepare_32 by done. rewrite bind_Ok.
  assert (nonce_ok (EncIV e) = false) as -> by (unfold nonce_ok, blen; lia). done.
Qed.

End messages.

End msgsecret.

(** ** Witnesses *)

#[local] Existing Instance toy_crypto.

Definition byte_codec : codec bytes := mkCodec Some Some.
Definition group : JID := NewJID "123-456" GroupServer.
Definition creator : JID := NewJID "15551234567" DefaultUserServer.
Definition creator_lid : JID := NewJID "77" HiddenUserServer.
Definition poll_secret : bytes := replicate 32 x05.

Definition voter_client : client :=
  mkClient (NewJID "15557654321" DefaultUserServer) (NewJID "88" HiddenUserServer)
    (mkStore [mkSecret (String_ group) (String_ creator) "POLL" poll_secret] sample_lids).
Definition reader_client : client :=
  mkClient creator creator_lid (mkStore [mkSecret (String_ group) (String_ creator) "POLL" poll_secret] sample_lids).

Definition poll_info : MessageInfo := mkInfo group creator false true "POLL".
Definition vote_info : MessageInfo := mkInfo group (mkJID "15557654321" 0 4 0 DefaultUserServer) false true "VOTE".
Definition sample_iv : bytes := replicate 12 x01.

Lemma DecryptPollVote_Encrypt_witness :
  exists e, EncryptPollVote byte_codec voter_client sample_iv poll_info [x07] = Ok e /\
    forall reader info,
      ToNonAD (Sender info) = ToNonAD (voter_id voter_client poll_info) ->
      finds_sender reader info EncSecretPollVote e (ID poll_info) creator poll_secret ->
      DecryptPollVote byte_codec reader info e = Ok [x07].
Proof.
  pose proof toy_crypto_laws as L.
  apply (DecryptPollVote_Encrypt byte_codec voter_client sample_iv poll_info [x07] [x07] poll_secret creator);
    vm_compute; reflexivity.
Defined.

Example vote_read :
  match EncryptPollVote byte_codec voter_client sample_iv poll_info [x07] with
  | Ok e => DecryptPollVote byte_codec reader_client vote_info e = Ok [x07]
  | _ => False
  end.
Proof. vm_compute. reflexivity. Qed.

(** A vote with an empty IV. *)
Definition short_vote : EncSecret := mkEnc [] [x00] (getKeyFromInfo poll_info).

Lemma wrong_nonce_panics_witness :
  decryptMsgSecret reader_client vote_info EncSecretPollVote short_vote (TargetMessageKey short_vote) = Panic.
Proof.
  apply (wrong_nonce_panics reader_client vote_info EncSecretPollVote short_vote creator poll_secret creator);
    [vm_compute; discriminate|vm_compute; reflexivity..].
Defined.

End msgsecret.
