(* ===== verification/Requests.v ===== *)
(** * request.go: requests waiting for their responses

    [responseWaiters] maps a request's id to the channel its sender waits on; a
    response is taken out of the map under the lock and sent into the channel
    after it. The channels (one place each) are a store of their own, since the
    map, the sender and the receiving goroutine share them. The operations are
    executable; [step] interleaves them, with [None] for a panic: a send into
    or a close of a closed channel, or the nil node read from one. The callers'
    timeouts are steps: SendMessage's cancels the response, sendIQ's does not. *)

From S2P Require Import Prelude GoStrings Jid Node.

#[local] Open Scope string_scope.
#[local] Open Scope list_scope.
#[local] Open Scope Z_scope.

Module requests.

Import jid attrs.

(** ** Nodes *)

Definition generateRequestID (uniqueID : string) (idCounter : Z) : string * Z :=
  let n := u64 (idCounter + 1) in (uniqueID +:+ itoa n, n).

Definition xmlStreamEndNode : Node := mkNode "xmlstreamend" [] ANil.

(** The code compares pointers; no node off the wire has this tag. *)
Definition isDisconnectNode (n : Node) : bool :=
  String.eqb (node_tag n) "xmlstreamend" || String.eqb (node_tag n) "stream:error".

Definition attr_string (k : string) (n : Node) : option string :=
  match attr_get k (node_attrs n) with Some (AString s) => Some s | _ => None end.

Definition isAuthErrorDisconnect (n : Node) : bool :=
  if negb (String.eqb (node_tag n) "stream:error") then false
  else
    let code := default "" (attr_string "code" n) in
    let conflict := fst (GetOptionalChildByTag n ["conflict"]) in
    let conflictType := fst (OptionalString "type" (AttrGetter conflict)) in
    String.eqb code "401" || String.eqb conflictType "replaced" || String.eqb conflictType "device_removed".

(** The id a response is matched by. *)
Definition response_id (n : Node) : option string :=
  if String.eqb (node_tag n) "iq" || String.eqb (node_tag n) "ack" then attr_string "id" n else None.

(** ** The state *)

Record chan := mkChan { buf : option Node; closed : bool }.

Inductive status := Waiting | Answered (n : Node) | Cancelled | Abandoned.

Record state := mkState {
  waiters : gmap string nat;             (* responseWaiters *)
  chans : gmap nat chan;
  senders : gmap nat (string * status);  (* who waits on a channel, for which id *)
  flights : list (nat * Node);           (* responses taken out, not yet sent in *)
  next : nat                             (* the next channel *)
}.

Definition init : state := mkState ∅ ∅ ∅ [] 0.

(** ** The operations *)

Definition waitResponse (reqID : string) (s : state) : nat * state :=
  let ch := next s in
  (ch, mkState (<[reqID := ch]> (waiters s)) (<[ch := mkChan None false]> (chans s))
         (<[ch := (reqID, Waiting)]> (senders s)) (flights s) (Datatypes.S ch)).

(** [close]; [None] is its panic. *)
Definition close_chan (c : nat) (m : gmap nat chan) : option (gmap nat chan) :=
  match m !! c with
  | Some ch => if closed ch then None else Some (<[c := mkChan (buf ch) true]> m)
  | None => None
  end.

Definition cancelResponse (reqID : string) (c : nat) (s : state) : option state :=
  m ← close_chan c (chans s);
  Some (mkState (delete reqID (waiters s)) m (<[c := (reqID, Cancelled)]> (senders s)) (flights s) (next s)).

(** The half of [receiveResponse] under the lock. *)
Definition take_waiter (n : Node) (s : state) : option (nat * state) :=
  id ← response_id n;
  c ← waiters s !! id;
  Some (c, mkState (delete id (waiters s)) (chans s) (senders s) ((c, n) :: flights s) (next s)).

(** [waiter <- data]: the result of the send, when it does not block. *)
Inductive sent := SentOk (m : gmap nat chan) | SentPanic | SentBlocks.

Definition send_chan (c : nat) (n : Node) (m : gmap nat chan) : sent :=
  match m !! c with
  | Some (mkChan _ true) => SentPanic
  | Some (mkChan None false) => SentOk (<[c := mkChan (Some n) false]> m)
  | _ => SentBlocks
  end.

(** [select { case waiter <- node: default: close(waiter) }] *)
Definition offer (n : Node) (c : nat) (m : gmap nat chan) : option (gmap nat chan) :=
  match send_chan c n m with
  | SentOk m => Some m
  | SentPanic => None
  | SentBlocks => close_chan c m
  end.

Definition clearResponseWaiters (n : Node) (s : state) : option state :=
  m ← foldr (fun c acc => acc ≫= offer n c) (Some (chans s)) (map snd (map_to_list (waiters s)));
  Some (mkState ∅ m (senders s) (flights s) (next s)).

Definition set_status (c : nat) (id : string) (st : status) (s : state) : state :=
  mkState (waiters s) (chans s) (<[c := (id, st)]> (senders s)) (flights s) (next s).

(** A pending send is done: [fs] are the others. *)
Definition land (fs : list (nat * Node)) (m : gmap nat chan) (s : state) : state :=
  mkState (waiters s) m (senders s) fs (next s).

(** ** Interleavings *)

Inductive step : state -> option state -> Prop :=
  | step_wait s id : step s (Some (snd (waitResponse id s)))
  | step_cancel s c id :                              (* the send failed, or SendMessage gave up *)
      senders s !! c = Some (id, Waiting) -> step s (cancelResponse id c s)
  | step_abandon s c id :                             (* sendIQ gave up *)
      senders s !! c = Some (id, Waiting) -> step s (Some (set_status c id Abandoned s))
  | step_receive s n c s' : take_waiter n s = Some (c, s') -> step s (Some s')
  | step_send s f1 c n f2 m :
      flights s = f1 ++ (c, n) :: f2 -> send_chan c n (chans s) = SentOk m -> step s (Some (land (f1 ++ f2) m s))
  | step_send_panic s c n : (c, n) ∈ flights s -> send_chan c n (chans s) = SentPanic -> step s None
  | step_drop s f1 c n f2 :                           (* the context ended *)
      flights s = f1 ++ (c, n) :: f2 -> step s (Some (land (f1 ++ f2) (chans s) s))
  | step_clear s n : isDisconnectNode n = true -> step s (clearResponseWaiters n s)
  | step_take s c id ch n :
      senders s !! c = Some (id, Waiting) -> chans s !! c = Some ch -> buf ch = Some n ->
      step s (Some (set_status c id (Answered n)
        (mkState (waiters s) (<[c := mkChan None (closed ch)]> (chans s)) (senders s) (flights s) (next s))))
  | step_take_closed s c id :
      senders s !! c = Some (id, Waiting) -> chans s !! c = Some (mkChan None true) -> step s None.

Inductive reachable : state -> Prop :=
  | reach_init : reachable init
  | reach_step s s' : reachable s -> step s (Some s') -> reachable s'.

(** ** The invariant *)

(** What a sender may be handed. *)
Definition right_answer (id : string) (n : Node) : Prop :=
  isDisconnectNode n = true \/ response_id n = Some id.

Record inv (s : state) : Prop := {
  inv_fresh c : is_Some (chans s !! c) \/ is_Some (senders s !! c) -> (c < next s)%nat;
  inv_dom c : is_Some (chans s !! c) <-> is_Some (senders s !! c);
  inv_waiter id c : waiters s !! id = Some c ->
    chans s !! c = Some (mkChan None false) /\ (exists st, senders s !! c = Some (id, st)) /\
    c ∉ map fst (flights s);
  inv_flight c n : (c, n) ∈ flights s ->
    exists id st ch, senders s !! c = Some (id, st) /\ chans s !! c = Some ch /\
      buf ch = None /\ response_id n = Some id;
  inv_flights : NoDup (map fst (flights s));
  inv_buf c ch n id st : chans s !! c = Some ch -> buf ch = Some n -> senders s !! c = Some (id, st) ->
    right_answer id n;
  inv_closed c ch id st : chans s !! c = Some ch -> closed ch = true -> senders s !! c = Some (id, st) ->
    st = Cancelled;
  inv_answered c id n : senders s !! c = Some (id, Answered n) -> right_answer id n
}.

Lemma inv_init : inv init.
Proof.
  split; cbn.
  - intros c [[x Hx]|[x Hx]]; by rewrite lookup_empty in Hx.
  - intros c. rewrite !lookup_empty. split; intros [x [=]].
  - intros id c H. by rewrite lookup_empty in H.
  - by intros c n ?%not_elem_of_nil.
  - constructor.
  - intros c ch n id st H. by rewrite lookup_empty in H.
  - intros c ch id st H. by rewrite lookup_empty in H.
  - intros c id n H. by rewrite lookup_empty in H.
Qed.

Lemma flight_fst c n (l : list (nat * Node)) : (c, n) ∈ l -> c ∈ map fst l.
Proof. intros H. apply list_elem_of_fmap. by exists (c, n). Qed.

(** A channel in flight or with a place taken is not registered. *)
Lemma waiter_inj s id id' c : inv s -> waiters s !! id = Some c -> waiters s !! id' = Some c -> id = id'.
Proof.
  intros Hi H H'. apply (inv_waiter s Hi) in H as (_ & (st & E) & _), H' as (_ & (st' & E') & _). congruence.
Qed.

Lemma inv_wait s id : inv s -> inv (snd (waitResponse id s)).
Proof.
  intros Hi. set (ch := next s).
  assert (Hc : chans s !! ch = None).
  { apply eq_None_not_Some. intros H. assert (ch < next s)%nat by (apply (inv_fresh s Hi); by left). lia. }
  assert (Hs : senders s !! ch = None).
  { apply eq_None_not_Some. intros H. assert (ch < next s)%nat by (apply (inv_fresh s Hi); by right). lia. }
  assert (Hold : forall c x, chans s !! c = Some x -> c <> ch) by congruence.
  split; cbn [waitResponse snd waiters chans senders flights next]; fold ch.
  - intros c. destruct (decide (c = ch)) as [->|]; [lia|]. rewrite !lookup_insert_ne by done.
    intros H. apply (inv_fresh s Hi) in H. lia.
  - intros c. destruct (decide (c = ch)) as [->|]; [rewrite !lookup_insert_eq; split; by eexists|].
    rewrite !lookup_insert_ne by done. apply (inv_dom s Hi).
  - intros id' c [[<- <-]|[Hne H]]%lookup_insert_Some.
    + rewrite !lookup_insert_eq. split_and!; [done|by eexists|]. intros Hin.
      apply list_elem_of_fmap in Hin as ([c n] & E0 & Hin). apply (inv_flight s Hi) in Hin as (? & ? & ? & E & _).
      cbn in E0. rewrite <- E0 in E. congruence.
    + apply (inv_waiter s Hi) in H as (H1 & H2 & H3). rewrite !lookup_insert_ne by (apply not_eq_sym; eauto). done.
  - intros c n H. apply (inv_flight s Hi) in H as (i & st & x & H1 & H2 & H3 & H4).
    rewrite !lookup_insert_ne by (apply not_eq_sym; eauto). by exists i, st, x.
  - apply (inv_flights s Hi).
  - intros c x n i st [[<- <-]|[Hne H]]%lookup_insert_Some Hb; [done|]. rewrite lookup_insert_ne by done.
    by eapply (inv_buf s Hi).
  - intros c x i st [[<- <-]|[Hne H]]%lookup_insert_Some Hb; [done|]. rewrite lookup_insert_ne by done.
    by eapply (inv_closed s Hi).
  - intros c i n [[<- [=]]|[Hne H]]%lookup_insert_Some. by eapply (inv_answered s Hi).
Qed.

(** Changing the status of a sender that waits. *)
Lemma inv_status s c id st :
  inv s -> senders s !! c = Some (id, Waiting) -> (forall n, st = Answered n -> right_answer id n) ->
  inv (set_status c id st s).
Proof.
  intros Hi Hs Hst. split; cbn [set_status waiters chans senders flights next].
  - intros c' H. apply (inv_fresh s Hi). destruct H as [H|H]; [by left|right].
    destruct (decide (c' = c)) as [->|]; [by rewrite Hs|by rewrite lookup_insert_ne in H].
  - intros c'. rewrite (inv_dom s Hi). destruct (decide (c' = c)) as [->|]; [|by rewrite lookup_insert_ne].
    rewrite lookup_insert_eq, Hs. split; by eexists.
  - intros i c' H. apply (inv_waiter s Hi) in H as (H1 & (st' & H2) & H3). split_and!; [done| |done].
    destruct (decide (c' = c)) as [->|]; [rewrite lookup_insert_eq|rewrite lookup_insert_ne by done; by eexists].
    rewrite Hs in H2. injection H2 as <- <-. by eexists.
  - intros c' n H. apply (inv_flight s Hi) in H as (i & st' & x & H1 & H2 & H3 & H4).
    destruct (decide (c' = c)) as [->|]; [|rewrite lookup_insert_ne by done; by exists i, st', x].
    rewrite lookup_insert_eq. rewrite Hs in H1. injection H1 as <- <-. by exists id, st, x.
  - apply (inv_flights s Hi).
  - intros c' x n i st' H Hb [[<- [= <- <-]]|[Hne H']]%lookup_insert_Some; by eapply (inv_buf s Hi).
  - intros c' x i st' H Hb [[<- [= <- <-]]|[Hne H']]%lookup_insert_Some; [|by eapply (inv_closed s Hi)].
    by pose proof (inv_closed s Hi _ _ _ _ H Hb Hs).
  - intros c' i n [[<- [= <- ->]]|[Hne H']]%lookup_insert_Some; [by apply Hst|by eapply (inv_answered s Hi)].
Qed.

Lemma inv_cancel s s' c id :
  inv s -> senders s !! c = Some (id, Waiting) -> cancelResponse id c s = Some s' -> inv s'.
Proof.
  intros Hi Hs. unfold cancelResponse, close_chan.
  destruct (chans s !! c) as [ch|] eqn:Hc; cbn; [|done]. destruct (closed ch); [done|]. cbn. intros [= <-].
  pose proof (inv_status s c id Cancelled Hi Hs ltac:(done)) as Hi2.
  set (s2 := set_status c id Cancelled s) in *.
  assert (Hs2 : senders s2 !! c = Some (id, Cancelled)) by (cbn; by rewrite lookup_insert_eq).
  split; cbn [waiters chans senders flights next];
    try change (<[c := (id, Cancelled)]> (senders s)) with (senders s2).
  - intros c' H. apply (inv_fresh s2 Hi2). destruct H as [H|H]; [left|by right].
    cbn. destruct (decide (c' = c)) as [->|]; [by rewrite Hc|by rewrite lookup_insert_ne in H].
  - intros c'. rewrite <- (inv_dom s2 Hi2). cbn. destruct (decide (c' = c)) as [->|]; [|by rewrite lookup_insert_ne].
    rewrite lookup_insert_eq, Hc. split; by eexists.
  - intros i c' [Hne H]%lookup_delete_Some. pose proof (inv_waiter s2 Hi2 _ _ H) as (H1 & (st & H2) & H3).
    assert (c' <> c) as Hcc by (intros ->; congruence). rewrite lookup_insert_ne by done.
    split_and!; [done|by exists st|done].
  - intros c' n H. pose proof (inv_flight s2 Hi2 _ _ H) as (i & st' & x & H1 & H2 & H3 & H4).
    destruct (decide (c' = c)) as [->|]; [|rewrite lookup_insert_ne by done; by exists i, st', x].
    rewrite lookup_insert_eq. exists i, st', (mkChan (buf ch) true). cbn in H2. split_and!; try done. cbn. congruence.
  - apply (inv_flights s2 Hi2).
  - intros c' x n i st' [[<- <-]|[Hne H]]%lookup_insert_Some Hb H'; [|by eapply (inv_buf s2 Hi2)].
    by eapply (inv_buf s2 Hi2 c ch).
  - intros c' x i st' [[<- <-]|[Hne H]]%lookup_insert_Some Hb H'; [|by eapply (inv_closed s2 Hi2)].
    congruence.
  - apply (inv_answered s2 Hi2).
Qed.

Lemma inv_receive s s' n c : inv s -> take_waiter n s = Some (c, s') -> inv s'.
Proof.
  intros Hi. unfold take_waiter. destruct (response_id n) as [id|] eqn:Hid; cbn; [|done].
  destruct (waiters s !! id) as [c'|] eqn:Hw; cbn; [|done]. intros [= -> <-].
  pose proof (inv_waiter s Hi _ _ Hw) as (Hc & (st & Hs) & Hf).
  split; cbn [waiters chans senders flights next].
  - apply (inv_fresh s Hi).
  - apply (inv_dom s Hi).
  - intros i c' [Hne H]%lookup_delete_Some. pose proof (inv_waiter s Hi _ _ H) as (H1 & H2 & H3).
    split_and!; [done|done|]. cbn. apply not_elem_of_cons. split; [|done]. intros ->.
    apply Hne. by eapply waiter_inj.
  - intros c' n' [[= -> ->]|H]%elem_of_cons; [by exists id, st, (mkChan None false)|by apply (inv_flight s Hi)].
  - cbn. constructor; [done|apply (inv_flights s Hi)].
  - apply (inv_buf s Hi).
  - apply (inv_closed s Hi).
  - apply (inv_answered s Hi).
Qed.

Lemma flights_split s f1 c n f2 : flights s = f1 ++ (c, n) :: f2 -> NoDup (map fst (flights s)) ->
  NoDup (map fst (f1 ++ f2)) /\ c ∉ map fst (f1 ++ f2) /\ (c, n) ∈ flights s /\
  (forall x, x ∈ f1 ++ f2 -> x ∈ flights s).
Proof.
  intros -> H. rewrite map_app in H. cbn in H. rewrite map_app.
  apply NoDup_app in H as (H1 & H2 & [H3 H4]%NoDup_cons). split_and!.
  - apply NoDup_app. split_and!; [done| |done]. intros x Hx Hx2. apply (H2 x Hx). by right.
  - rewrite elem_of_app. intros [Hx|Hx]; [|done]. apply (H2 c Hx). by left.
  - apply elem_of_app. right. by left.
  - intros x. rewrite !elem_of_app, elem_of_cons. tauto.
Qed.

(** Dropping a pending send. *)
Lemma inv_drop s f1 c n f2 : inv s -> flights s = f1 ++ (c, n) :: f2 -> inv (land (f1 ++ f2) (chans s) s).
Proof.
  intros Hi Hf. destruct (flights_split _ _ _ _ _ Hf (inv_flights s Hi)) as (H1 & H2 & H3 & H4).
  split; cbn [land waiters chans senders flights next]; try apply Hi; [|by intros ? ? ?%H4%(inv_flight s Hi)|done].
  intros id c' H. pose proof (inv_waiter s Hi _ _ H) as (G1 & G2 & G3). split_and!; [done|done|].
  intros Hin. apply G3. apply list_elem_of_fmap in Hin as (x & -> & Hx). apply list_elem_of_fmap. eauto.
Qed.

(** Changing the buffer of a channel that is not registered or in flight. *)
Lemma inv_chan s c ch b :
  inv s -> chans s !! c = Some ch -> (forall id, waiters s !! id <> Some c) -> c ∉ map fst (flights s) ->
  (forall n id st, b = Some n -> senders s !! c = Some (id, st) -> right_answer id n) ->
  inv (mkState (waiters s) (<[c := mkChan b (closed ch)]> (chans s)) (senders s) (flights s) (next s)).
Proof.
  intros Hi Hc Hw Hf Hb. split; cbn [waiters chans senders flights next]; try apply Hi.
  - intros c' H. apply (inv_fresh s Hi). destruct H as [H|H]; [left|by right].
    destruct (decide (c' = c)) as [->|]; [by rewrite Hc|by rewrite lookup_insert_ne in H].
  - intros c'. rewrite <- (inv_dom s Hi). destruct (decide (c' = c)) as [->|]; [|by rewrite lookup_insert_ne].
    rewrite lookup_insert_eq, Hc. split; by eexists.
  - intros id c' H. destruct (decide (c' = c)) as [->|]; [by destruct (Hw id)|].
    rewrite lookup_insert_ne by done. by apply (inv_waiter s Hi).
  - intros c' n H. destruct (decide (c' = c)) as [->|]; [by destruct (Hf (flight_fst _ _ _ H))|].
    rewrite lookup_insert_ne by done. by apply (inv_flight s Hi).
  - intros c' x n id st [[<- <-]|[Hne H]]%lookup_insert_Some Hx Hs; [by eapply Hb|by eapply (inv_buf s Hi)].
  - intros c' x id st [[<- <-]|[Hne H]]%lookup_insert_Some Hx Hs; by eapply (inv_closed s Hi).
Qed.

Lemma waiter_not_flight s c n id : inv s -> (c, n) ∈ flights s -> waiters s !! id <> Some c.
Proof. intros Hi Hf Hw. apply (inv_waiter s Hi) in Hw as (_ & _ & H). by apply H, (flight_fst c n). Qed.

Lemma inv_send s f1 c n f2 m :
  inv s -> flights s = f1 ++ (c, n) :: f2 -> send_chan c n (chans s) = SentOk m -> inv (land (f1 ++ f2) m s).
Proof.
  intros Hi Hf Hm. destruct (flights_split _ _ _ _ _ Hf (inv_flights s Hi)) as (_ & H2 & H3 & _).
  pose proof (inv_drop s f1 c n f2 Hi Hf) as Hi2.
  destruct (inv_flight s Hi _ _ H3) as (id & st & ch & Hs & Hc & Hb & Hr).
  unfold send_chan in Hm. rewrite Hc in Hm. destruct ch as [[b|] []]; try done. injection Hm as <-.
  apply (inv_chan (land (f1 ++ f2) (chans s) s) c (mkChan None false) (Some n) Hi2 Hc); [|done|].
  - intros id'. by apply (waiter_not_flight s c n).
  - intros n' id' st' [= <-] Hs'. cbn in Hs'. rewrite Hs in Hs'. injection Hs' as <- <-. by right.
Qed.

Lemma inv_take s c id ch n :
  inv s -> senders s !! c = Some (id, Waiting) -> chans s !! c = Some ch -> buf ch = Some n ->
  inv (set_status c id (Answered n)
        (mkState (waiters s) (<[c := mkChan None (closed ch)]> (chans s)) (senders s) (flights s) (next s))).
Proof.
  intros Hi Hs Hc Hb. apply inv_status; [|done|].
  - apply inv_chan; [done|done| | |done].
    + intros id' Hw. apply (inv_waiter s Hi) in Hw as (H & _). rewrite Hc in H. injection H as ->. done.
    + intros Hin. apply list_elem_of_fmap in Hin as ([c' n'] & E & Hin). cbn in E. subst c'.
      apply (inv_flight s Hi) in Hin as (i & st & x & _ & H & Hx & _). rewrite Hc in H. injection H as <-. congruence.
  - intros n' [= <-]. by eapply (inv_buf s Hi).
Qed.

(** ** Clearing *)

Lemma waiters_NoDup s : inv s -> NoDup (map snd (map_to_list (waiters s))).
Proof.
  intros Hi. apply NoDup_fmap_2_strong; [|apply NoDup_map_to_list].
  intros [id c] [id' c'] H%elem_of_map_to_list H'%elem_of_map_to_list E. cbn in E. subst c'.
  f_equal. by eapply waiter_inj.
Qed.

Lemma offers n l m :
  NoDup l -> Forall (fun c => m !! c = Some (mkChan None false)) l ->
  exists m', foldr (fun c acc => acc ≫= offer n c) (Some m) l = Some m' /\
    (forall c, c ∈ l -> m' !! c = Some (mkChan (Some n) false)) /\ (forall c, c ∉ l -> m' !! c = m !! c).
Proof.
  induction l as [|c l IH]; intros Hn Hf.
  - exists m. split_and!; [done|by intros c ?%not_elem_of_nil|done].
  - apply NoDup_cons in Hn as [Hc Hn]. apply Forall_cons in Hf as [Hm Hf].
    destruct (IH Hn Hf) as (m' & E & H1 & H2). cbn [foldr]. rewrite E. cbn.
    unfold offer, send_chan. rewrite (H2 c Hc), Hm. eexists. split_and!; [done| |].
    + intros c' [->|H]%elem_of_cons; [by rewrite lookup_insert_eq|].
      rewrite lookup_insert_ne by (intros ->; done). by apply H1.
    + intros c' [Hne H]%not_elem_of_cons. rewrite lookup_insert_ne by done. by apply H2.
Qed.

Lemma clear_spec n s : inv s ->
  exists m, clearResponseWaiters n s = Some (mkState ∅ m (senders s) (flights s) (next s)) /\
    (forall id c, waiters s !! id = Some c -> m !! c = Some (mkChan (Some n) false)) /\
    (forall c, (forall id, waiters s !! id <> Some c) -> m !! c = chans s !! c).
Proof.
  intros Hi. unfold clearResponseWaiters.
  destruct (offers n (map snd (map_to_list (waiters s))) (chans s)) as (m & -> & H1 & H2).
  - by apply waiters_NoDup.
  - apply Forall_forall. intros c Hc. apply list_elem_of_fmap in Hc as ([id c'] & -> & H%elem_of_map_to_list).
    by apply (inv_waiter s Hi) in H as [? _].
  - exists m. split_and!; [done| |].
    + intros id c H. apply H1. apply list_elem_of_fmap. exists (id, c). split; [done|by apply elem_of_map_to_list].
    + intros c Hc. apply H2. intros Hin. apply list_elem_of_fmap in Hin as ([id c'] & -> & H%elem_of_map_to_list).
      by destruct (Hc id).
Qed.

Lemma inv_clear s s' n :
  inv s -> isDisconnectNode n = true -> clearResponseWaiters n s = Some s' -> inv s'.
Proof.
  intros Hi Hd. destruct (clear_spec n s Hi) as (m & -> & H1 & H2). intros [= <-].
  assert (Hcase : forall c x, m !! c = Some x ->
    (x = mkChan (Some n) false /\ exists id, waiters s !! id = Some c) \/ chans s !! c = Some x).
  { intros c x Hx. destruct (decide (c ∈ map snd (map_to_list (waiters s)))) as [Hin|Hin].
    - apply list_elem_of_fmap in Hin as ([id c'] & -> & H%elem_of_map_to_list). left. cbn in Hx |- *.
      rewrite (H1 _ _ H) in Hx. split; [congruence|by exists id].
    - right. rewrite <- H2; [done|]. intros id Hid. apply Hin. apply list_elem_of_fmap. exists (id, c).
      split; [done|by apply elem_of_map_to_list]. }
  assert (Hdom : forall c, is_Some (m !! c) <-> is_Some (chans s !! c)).
  { intros c. split; intros [x Hx].
    - destruct (Hcase _ _ Hx) as [(_ & id & H)|H]; [|by eexists]. apply (inv_waiter s Hi) in H as [-> _]. by eexists.
    - destruct (decide (c ∈ map snd (map_to_list (waiters s)))) as [Hin|Hin].
      + apply list_elem_of_fmap in Hin as ([id c'] & -> & H%elem_of_map_to_list). cbn. rewrite (H1 _ _ H). by eexists.
      + rewrite H2; [by eexists|]. intros id Hid. apply Hin. apply list_elem_of_fmap. exists (id, c).
        split; [done|by apply elem_of_map_to_list]. }
  split; cbn [waiters chans senders flights next].
  - intros c. rewrite Hdom. apply (inv_fresh s Hi).
  - intros c. rewrite Hdom. apply (inv_dom s Hi).
  - intros id c H. by rewrite lookup_empty in H.
  - intros c n' H. pose proof (inv_flight s Hi _ _ H) as (i & st & x & G1 & G2 & G3 & G4).
    exists i, st, x. split_and!; try done. rewrite H2; [done|]. intros id. by apply (waiter_not_flight s c n').
  - apply (inv_flights s Hi).
  - intros c x n' id st Hx Hb Hs. destruct (Hcase _ _ Hx) as [[-> _]|H]; [|by eapply (inv_buf s Hi)].
    injection Hb as <-. by left.
  - intros c x id st Hx Hb Hs. destruct (Hcase _ _ Hx) as [[-> _]|H]; [done|by eapply (inv_closed s Hi)].
  - apply (inv_answered s Hi).
Qed.

Lemma inv_reachable s : reachable s -> inv s.
Proof.
  induction 1 as [|s s' _ IH Hst]; [apply inv_init|].
  inversion Hst; subst; try (by apply inv_wait); try (by eapply inv_cancel); try (by eapply inv_receive);
    try (by eapply inv_send); try (by eapply inv_drop); try (by eapply inv_clear); try (by eapply inv_take).
  by apply inv_status.
Qed.

(** ** What waiting guarantees *)

(** (C21) Answers are for their requests and do not get lost: in every
    interleaving of requests, responses, disconnects, timeouts and
    cancellations, what a sender is handed is a disconnect node or a response
    that bears its id; and a response taken out for a sender that has not
    cancelled can be put into its channel at once. (For a sender that has cancelled
    in between it cannot: the channel is closed, and the client panics, see
    timeout_race_panics.) *)
Theorem responses_matched s c id st :
  reachable s -> senders s !! c = Some (id, st) ->
  (forall n, st = Answered n -> right_answer id n) /\
  (forall n, (c, n) ∈ flights s -> response_id n = Some id /\
     (st <> Cancelled -> exists m, send_chan c n (chans s) = SentOk m)).
Proof.
  intros Hr Hs. pose proof (inv_reachable s Hr) as Hi. split.
  - intros n ->. by eapply (inv_answered s Hi).
  - intros n Hn. destruct (inv_flight s Hi _ _ Hn) as (i & st' & ch & Hs' & Hc & Hb & Hid).
    rewrite Hs in Hs'. injection Hs' as <- <-. split; [done|]. intros Hst. unfold send_chan. rewrite Hc.
    destruct ch as [b cl]. cbn in Hb. subst b. destruct cl; [|by eexists].
    by destruct (Hst (inv_closed s Hi _ _ _ _ Hc eq_refl Hs)).
Qed.

(** A disconnect reaches everyone who waits: clearing the waiters never
    panics and never falls back to closing a channel; it leaves none
    registered, and the node in the channel of each that was. *)
Theorem clear_delivers s n :
  reachable s ->
  exists s', clearResponseWaiters n s = Some s' /\ waiters s' = ∅ /\
    (forall id c, waiters s !! id = Some c -> chans s' !! c = Some (mkChan (Some n) false)) /\
    (forall c, (forall id, waiters s !! id <> Some c) -> chans s' !! c = chans s !! c).
Proof.
  intros Hr. destruct (clear_spec n s (inv_reachable s Hr)) as (m & E & H1 & H2).
  eexists. split_and!; [exact E|done|exact H1|exact H2].
Qed.

(** There is one way to panic: a response that was taken out for a request
    is sent after the request was cancelled. *)
Theorem panic_is_race s :
  reachable s -> step s None ->
  exists c n id, (c, n) ∈ flights s /\ senders s !! c = Some (id, Cancelled).
Proof.
  intros Hr Hst. pose proof (inv_reachable s Hr) as Hi. remember None as o eqn:Eo.
  destruct Hst as [|s c id Hs| | | |s c n Hf Hp| |s n Hd| |s c id Hs Hc]; try discriminate Eo.
  - exfalso. rename Eo into Hcan. unfold cancelResponse, close_chan in Hcan.
    assert (Hdom : is_Some (chans s !! c)) by (apply (inv_dom s Hi); by eexists).
    destruct Hdom as [ch Hc]. rewrite Hc in Hcan. cbn in Hcan. destruct (closed ch) eqn:Hcl; [|done].
    by pose proof (inv_closed s Hi _ _ _ _ Hc Hcl Hs).
  - destruct (inv_flight s Hi _ _ Hf) as (id & st & ch & Hs & Hc & Hb & _). exists c, n, id. split; [done|].
    unfold send_chan in Hp. rewrite Hc in Hp. destruct ch as [[b|] []]; try done.
    by rewrite Hs, (inv_closed s Hi _ _ _ _ Hc eq_refl Hs).
  - destruct (clear_spec n s Hi) as (m & E & _). congruence.
  - by pose proof (inv_closed s Hi _ _ _ _ Hc eq_refl Hs).
Qed.

(** And it can happen to every request: when its response has been taken
    out and its sender gives up, as SendMessage does on its timeout, before
    the response is sent into the channel, the client panics. *)
Theorem timeout_race_panics s id c n :
  reachable s -> waiters s !! id = Some c -> senders s !! c = Some (id, Waiting) -> response_id n = Some id ->
  exists s1 s2, take_waiter n s = Some (c, s1) /\ reachable s1 /\
    cancelResponse id c s1 = Some s2 /\ reachable s2 /\ step s2 None.
Proof.
  intros Hr Hw Hs Hid. pose proof (inv_reachable s Hr) as Hi.
  destruct (inv_waiter s Hi _ _ Hw) as (Hc & _).
  assert (E1 : take_waiter n s =
    Some (c, mkState (delete id (waiters s)) (chans s) (senders s) ((c, n) :: flights s) (next s))).
  { unfold take_waiter. by rewrite Hid; cbn; rewrite Hw. }
  set (s1 := mkState _ _ _ _ _) in E1.
  assert (Hr1 : reachable s1) by (eapply reach_step; [exact Hr|by eapply step_receive]).
  assert (E2 : exists s2, cancelResponse id c s1 = Some s2 /\ flights s2 = flights s1 /\
    chans s2 !! c = Some (mkChan None true)).
  { unfold cancelResponse, close_chan. cbn [chans s1]. rewrite Hc. cbn. eexists. split_and!; [done|done|].
    cbn. by rewrite lookup_insert_eq. }
  destruct E2 as (s2 & E2 & Hf2 & Hc2). exists s1, s2. split_and!; [done|done|done| |].
  - eapply reach_step; [exact Hr1|]. rewrite <- E2. by apply step_cancel.
  - apply (step_send_panic s2 c n); [rewrite Hf2; by left|]. unfold send_chan. by rewrite Hc2.
Qed.

(** ** Info queries *)

Record infoQuery := mkQuery {
  q_namespace : string; q_type : string; q_to : JID; q_target : JID; q_id : string; q_smax : string;
  q_content : any; q_noretry : bool
}.

Definition iq_node (q : infoQuery) : Node :=
  let attrs := [("id", AString (q_id q)); ("xmlns", AString (q_namespace q)); ("type", AString (q_type q))] in
  let attrs := if String.eqb (q_smax q) "" then attrs else attrs ++ [("smax_id", AString (q_smax q))] in
  let attrs := if IsEmpty (q_to q) then attrs else attrs ++ [("to", AJID (q_to q))] in
  let attrs := if IsEmpty (q_target q) then attrs else attrs ++ [("target", AJID (q_target q))] in
  mkNode "iq" attrs (q_content q).

(** What a wait on the channel ends with. *)
Inductive wait_result := Got (n : Node) | ContextDone | TimedOut.

Inductive iq_error :=
  | ErrSend                                    (* the frame could not be sent *)
  | ErrNotConnected
  | ErrContext
  | ErrIQTimedOut
  | DisconnectedError (n : Node)
  | IQError (raw : Node) (code : Z) (text : string).

Definition parseIQError (n : Node) : iq_error :=
  let '(val, ok) := GetOptionalChildByTag n ["error"] in
  if ok then
    let '(code, ag) := OptionalInt "code" (AttrGetter val) in
    let '(text, _) := OptionalString "text" ag in
    IQError n code text
  else IQError n 0 "".

(** [retryFrame]: whether the client reconnects and has a socket, whether the
    frame is sent, and what the second wait brings. *)
Definition retryFrame (origResp : Node) (reconnects socket sends : bool) (second : wait_result) :
    outcome iq_error Node :=
  if isAuthErrorDisconnect origResp then Err (DisconnectedError origResp)
  else if negb reconnects then Err (DisconnectedError origResp)
  else if negb socket then Err ErrNotConnected
  else if negb sends then Err ErrSend
  else
    match second with
    | Got resp => if isDisconnectNode resp then Err (DisconnectedError resp) else Ok resp
    | ContextDone => Err ErrContext
    | TimedOut => Err ErrIQTimedOut
    end.

Definition iq_result (res : Node) : outcome iq_error Node :=
  let resType := default "" (attr_string "type" res) in
  if negb (String.eqb (node_tag res) "iq") || (negb (String.eqb resType "result") && negb (String.eqb resType "error"))
  then Err (IQError res 0 "")
  else if String.eqb resType "error" then Err (parseIQError res)
  else Ok res.

Definition sendIQ (noRetry sent : bool) (first : wait_result) (reconnects socket resent : bool) (second : wait_result) :
    outcome iq_error Node :=
  if negb sent then Err ErrSend
  else
    match first with
    | ContextDone => Err ErrContext
    | TimedOut => Err ErrIQTimedOut
    | Got res =>
        res ← (if isDisconnectNode res then
                 if noRetry then Err (DisconnectedError res) else retryFrame res reconnects socket resent second
               else Ok res);
        iq_result res
    end.

Lemma sendIQ_ok noRetry sent first reconnects socket resent second n :
  sendIQ noRetry sent first reconnects socket resent second = Ok n ->
  node_tag n = "iq" /\ attr_string "type" n = Some "result" /\
  (first = Got n \/
   second = Got n /\ noRetry = false /\ exists d, first = Got d /\ isDisconnectNode d = true /\ isAuthErrorDisconnect d = false).
Proof.
  unfold sendIQ. destruct sent; [|done]. cbn [negb]. destruct first as [d| |]; [|done..].
  intros H. apply bind_inv in H as (r & Hr & Hn).
  assert (Hres : r = n /\ node_tag n = "iq" /\ attr_string "type" n = Some "result").
  { unfold iq_result in Hn. destruct (String.eqb_spec (node_tag r) "iq") as [Ht|]; cbn [negb orb] in Hn; [|done].
    destruct (attr_string "type" r) as [t|] eqn:E; cbn [default from_option id] in Hn; [|done].
    destruct (String.eqb_spec t "result") as [->|]; cbn [negb andb] in Hn.
    - change (String.eqb "result" "error") with false in Hn. cbv iota in Hn. injection Hn as <-. done.
    - destruct (String.eqb t "error"); done. }
  destruct Hres as (-> & H1 & H2). split_and!; [done|done|].
  destruct (isDisconnectNode d) eqn:Hd; [|left; congruence]. destruct noRetry; [done|]. right.
  unfold retryFrame in Hr. destruct (isAuthErrorDisconnect d) eqn:Ha; [done|].
  destruct reconnects, socket, resent; cbn [negb] in Hr; try done.
  destruct second as [r2| |]; [|done..]. destruct (isDisconnectNode r2); [done|]. injection Hr as ->.
  split_and!; [done|done|]. by exists d.
Qed.

(** ** Witnesses *)

Definition one_request : state := snd (waitResponse "A.1" init).

Lemma one_request_reachable : reachable one_request.
Proof. eapply reach_step; [apply reach_init|apply step_wait]. Qed.

Definition sample_response : Node := mkNode "iq" [("id", AString "A.1"); ("type", AString "result")] ANil.

Lemma responses_matched_witness :
  (forall n, Waiting = Answered n -> right_answer "A.1" n) /\
  (forall n, (0%nat, n) ∈ flights one_request -> response_id n = Some "A.1" /\
     (Waiting <> Cancelled -> exists m, send_chan 0 n (chans one_request) = SentOk m)).
Proof. apply (responses_matched one_request 0 "A.1" Waiting); [apply one_request_reachable|reflexivity]. Defined.

Lemma clear_delivers_witness :
  exists s', clearResponseWaiters xmlStreamEndNode one_request = Some s' /\ waiters s' = ∅ /\
    (forall id c, waiters one_request !! id = Some c -> chans s' !! c = Some (mkChan (Some xmlStreamEndNode) false)) /\
    (forall c, (forall id, waiters one_request !! id <> Some c) -> chans s' !! c = chans one_request !! c).
Proof. apply (clear_delivers one_request xmlStreamEndNode one_request_reachable). Defined.

Lemma timeout_race_panics_witness :
  exists s1 s2, take_waiter sample_response one_request = Some (0%nat, s1) /\ reachable s1 /\
    cancelResponse "A.1" 0 s1 = Some s2 /\ reachable s2 /\ step s2 None.
Proof.
  apply (timeout_race_panics one_request "A.1" 0 sample_response);
    [apply one_request_reachable|reflexivity|reflexivity|vm_compute; reflexivity].
Defined.

(** The state of the race, just before the panic. *)
Definition raced : state :=
  match take_waiter sample_response one_request with
  | Some (c, s1) => default init (cancelResponse "A.1" c s1)
  | None => init
  end.

Lemma raced_reachable : reachable raced.
Proof.
  eapply reach_step; [eapply reach_step; [apply one_request_reachable|]|].
  - eapply (step_receive _ sample_response). reflexivity.
  - match goal with |- step ?s _ => change (Some raced) with (cancelResponse "A.1" 0 s) end.
    apply step_cancel. reflexivity.
Qed.

Lemma panic_is_race_witness :
  exists c n id, (c, n) ∈ flights raced /\ senders raced !! c = Some (id, Cancelled).
Proof.
  apply (panic_is_race raced raced_reachable).
  apply (step_send_panic raced 0 sample_response); [left|reflexivity].
Defined.

End requests.
