(* ===== verification/Groups.v ===== *)
(** * group.go: groups

    Requests about groups and the parsing of what comes back and of the
    notifications; the cache of members that sending to a group relies on, which
    refines the set of members under every sequence of notifications. *)

From S2P Require Import Prelude GoStrings Jid Node LidMap Requests.

#[local] Open Scope string_scope.
#[local] Open Scope list_scope.
#[local] Open Scope Z_scope.

Module group.

Import jid attrs.
Abbreviation LIDMapping := lidmap.LIDMapping.

(** ** Groups and participants: types/group.go *)

Record GroupName := mkName { Name : string; NameSetAt : gotime; NameSetBy : JID; NameSetByPN : JID }.

Record GroupTopic := mkTopic {
  Topic : string;
  TopicID : string;
  TopicSetAt : gotime;
  TopicSetBy : JID;
  TopicSetByPN : JID;
  TopicDeleted : bool
}.

Definition no_topic : GroupTopic := mkTopic "" "" ZeroTime EmptyJID EmptyJID false.

Record GroupEphemeral := mkEphemeral { IsEphemeral : bool; DisappearingTimer : Z }.

Record GroupParent := mkParent { IsParent : bool; DefaultMembershipApprovalMode : string }.

Record GroupParticipantAddRequest := mkAddRequest { Code : string; Expiration : gotime }.

Record GroupParticipant := mkParticipant {
  p_JID : JID;
  PhoneNumber : JID;
  p_LID : JID;
  IsAdmin : bool;
  IsSuperAdmin : bool;
  DisplayName : string;
  p_Error : Z;
  AddRequest : option GroupParticipantAddRequest
}.

(** [GroupInfo]: what the attributes give and what the children give. *)
Record GroupHead := mkHead {
  g_JID : JID;
  OwnerJID : JID;
  OwnerPN : JID;
  g_Name : GroupName;
  GroupCreated : gotime;
  CreatorCountryCode : string;
  AnnounceVersionID : string;
  ParticipantVersionID : string;
  ParticipantCount : Z;
  AddressingMode : string
}.

Record GroupBody := mkBody {
  Participants : list GroupParticipant;
  g_Topic : GroupTopic;
  IsAnnounce : bool;
  IsLocked : bool;
  g_Ephemeral : GroupEphemeral;
  MemberAddMode : string;
  LinkedParentJID : JID;
  IsDefaultSubGroup : bool;
  g_Parent : GroupParent;
  IsIncognito : bool;
  IsJoinApprovalRequired : bool;
  g_Suspended : bool
}.

Definition set_Participants (v : list GroupParticipant) (r : GroupBody) : GroupBody :=
  mkBody v (g_Topic r) (IsAnnounce r) (IsLocked r) (g_Ephemeral r) (MemberAddMode r) (LinkedParentJID r)
    (IsDefaultSubGroup r) (g_Parent r) (IsIncognito r) (IsJoinApprovalRequired r) (g_Suspended r).
Definition set_g_Topic (v : GroupTopic) (r : GroupBody) : GroupBody :=
  mkBody (Participants r) v (IsAnnounce r) (IsLocked r) (g_Ephemeral r) (MemberAddMode r) (LinkedParentJID r)
    (IsDefaultSubGroup r) (g_Parent r) (IsIncognito r) (IsJoinApprovalRequired r) (g_Suspended r).
Definition set_IsAnnounce (v : bool) (r : GroupBody) : GroupBody :=
  mkBody (Participants r) (g_Topic r) v (IsLocked r) (g_Ephemeral r) (MemberAddMode r) (LinkedParentJID r)
    (IsDefaultSubGroup r) (g_Parent r) (IsIncognito r) (IsJoinApprovalRequired r) (g_Suspended r).
Definition set_IsLocked (v : bool) (r : GroupBody) : GroupBody :=
  mkBody (Participants r) (g_Topic r) (IsAnnounce r) v (g_Ephemeral r) (MemberAddMode r) (LinkedParentJID r)
    (IsDefaultSubGroup r) (g_Parent r) (IsIncognito r) (IsJoinApprovalRequired r) (g_Suspended r).
Definition set_g_Ephemeral (v : GroupEphemeral) (r : GroupBody) : GroupBody :=
  mkBody (Participants r) (g_Topic r) (IsAnnounce r) (IsLocked r) v (MemberAddMode r) (LinkedParentJID r)
    (IsDefaultSubGroup r) (g_Parent r) (IsIncognito r) (IsJoinApprovalRequired r) (g_Suspended r).
Definition set_MemberAddMode (v : string) (r : GroupBody) : GroupBody :=
  mkBody (Participants r) (g_Topic r) (IsAnnounce r) (IsLocked r) (g_Ephemeral r) v (LinkedParentJID r)
    (IsDefaultSubGroup r) (g_Parent r) (IsIncognito r) (IsJoinApprovalRequired r) (g_Suspended r).
Definition set_LinkedParentJID (v : JID) (r : GroupBody) : GroupBody :=
  mkBody (Participants r) (g_Topic r) (IsAnnounce r) (IsLocked r) (g_Ephemeral r) (MemberAddMode r) v
    (IsDefaultSubGroup r) (g_Parent r) (IsIncognito r) (IsJoinApprovalRequired r) (g_Suspended r).
Definition set_IsDefaultSubGroup (v : bool) (r : GroupBody) : GroupBody :=
  mkBody (Participants r) (g_Topic r) (IsAnnounce r) (IsLocked r) (g_Ephemeral r) (MemberAddMode r)
    (LinkedParentJID r) v (g_Parent r) (IsIncognito r) (IsJoinApprovalRequired r) (g_Suspended r).
Definition set_g_Parent (v : GroupParent) (r : GroupBody) : GroupBody :=
  mkBody (Participants r) (g_Topic r) (IsAnnounce r) (IsLocked r) (g_Ephemeral r) (MemberAddMode r)
    (LinkedParentJID r) (IsDefaultSubGroup r) v (IsIncognito r) (IsJoinApprovalRequired r) (g_Suspended r).
Definition set_IsIncognito (v : bool) (r : GroupBody) : GroupBody :=
  mkBody (Participants r) (g_Topic r) (IsAnnounce r) (IsLocked r) (g_Ephemeral r) (MemberAddMode r)
    (LinkedParentJID r) (IsDefaultSubGroup r) (g_Parent r) v (IsJoinApprovalRequired r) (g_Suspended r).
Definition set_IsJoinApprovalRequired (v : bool) (r : GroupBody) : GroupBody :=
  mkBody (Participants r) (g_Topic r) (IsAnnounce r) (IsLocked r) (g_Ephemeral r) (MemberAddMode r)
    (LinkedParentJID r) (IsDefaultSubGroup r) (g_Parent r) (IsIncognito r) v (g_Suspended r).
Definition set_g_Suspended (v : bool) (r : GroupBody) : GroupBody :=
  mkBody (Participants r) (g_Topic r) (IsAnnounce r) (IsLocked r) (g_Ephemeral r) (MemberAddMode r)
    (LinkedParentJID r) (IsDefaultSubGroup r) (g_Parent r) (IsIncognito r) (IsJoinApprovalRequired r) v.

Definition empty_body : GroupBody :=
  mkBody [] no_topic false false (mkEphemeral false 0) "" EmptyJID false (mkParent false "") false false false.

Record GroupInfo := mkGroup { g_head : GroupHead; g_body : GroupBody }.

Definition parseParticipant (child : Node) : GroupParticipant :=
  let '(pcpType, ag) := OptionalString "type" (AttrGetter child) in
  let '(j, ag) := JID_ "jid" ag in
  let '(display, ag) := OptionalString "display_name" ag in
  let '(phone, lid, ag) :=
    if bool_decide (Server j = HiddenUserServer) then
      let '(phone, ag) := OptionalJIDOrEmpty "phone_number" ag in (phone, j, ag)
    else if bool_decide (Server j = DefaultUserServer) then
      let '(lid, ag) := OptionalJIDOrEmpty "lid" ag in (j, lid, ag)
    else (EmptyJID, EmptyJID, ag) in
  let '(errorCode, ag) := OptionalInt "error" ag in
  let addRequest :=
    if errorCode =? 0 then None
    else
      let '(add, ok) := GetOptionalChildByTag child ["add_request"] in
      if ok then
        let '(code, aag) := String_ "code" (AttrGetter add) in
        let '(expiration, _) := UnixTime "expiration" aag in
        Some (mkAddRequest code expiration)
      else None in
  mkParticipant j phone lid (String.eqb pcpType "admin" || String.eqb pcpType "superadmin")
    (String.eqb pcpType "superadmin") display errorCode addRequest.

(** A content that is not bytes counts as none. *)
Definition text_content (n : Node) : string := match node_content n with ABytes b => bytes_str b | _ => "" end.

Definition group_child (b : GroupBody) (child : Node) : GroupBody :=
  let tag := node_tag child in
  let childAG := AttrGetter child in
  if String.eqb tag "participant" then set_Participants (Participants b ++ [parseParticipant child]) b
  else if String.eqb tag "description" then
    let '(body, bodyOK) := GetOptionalChildByTag child ["body"] in
    if bodyOK then
      let '(id, ag) := String_ "id" childAG in
      let '(by_, ag) := OptionalJIDOrEmpty "participant" ag in
      let '(byPN, ag) := OptionalJIDOrEmpty "participant_pn" ag in
      let '(t, _) := UnixTime "t" ag in
      set_g_Topic (mkTopic (text_content body) id t by_ byPN (TopicDeleted (g_Topic b))) b
    else b
  else if String.eqb tag "announcement" then set_IsAnnounce true b
  else if String.eqb tag "locked" then set_IsLocked true b
  else if String.eqb tag "ephemeral" then
    set_g_Ephemeral (mkEphemeral true (u32 (fst (Uint64 "expiration" childAG)))) b
  else if String.eqb tag "member_add_mode" then set_MemberAddMode (text_content child) b
  else if String.eqb tag "linked_parent" then set_LinkedParentJID (fst (JID_ "jid" childAG)) b
  else if String.eqb tag "default_sub_group" then set_IsDefaultSubGroup true b
  else if String.eqb tag "parent" then
    set_g_Parent (mkParent true (fst (OptionalString "default_membership_approval_mode" childAG))) b
  else if String.eqb tag "incognito" then set_IsIncognito true b
  else if String.eqb tag "membership_approval_mode" then set_IsJoinApprovalRequired true b
  else if String.eqb tag "suspended" then set_g_Suspended true b
  else b.

(** The group comes with the errors of its attributes. *)
Definition parseGroupNode (groupNode : Node) : GroupInfo * option (list attr_error) :=
  let '(id, ag) := String_ "id" (AttrGetter groupNode) in
  let '(creator, ag) := OptionalJIDOrEmpty "creator" ag in
  let '(creatorPN, ag) := OptionalJIDOrEmpty "creator_pn" ag in
  let '(subject, ag) := OptionalString "subject" ag in
  let '(s_t, ag) := OptionalUnixTime "s_t" ag in
  let '(s_o, ag) := OptionalJIDOrEmpty "s_o" ag in
  let '(s_o_pn, ag) := OptionalJIDOrEmpty "s_o_pn" ag in
  let '(creation, ag) := OptionalUnixTime "creation" ag in
  let '(country, ag) := OptionalString "creator_country_code" ag in
  let '(a_v_id, ag) := OptionalString "a_v_id" ag in
  let '(p_v_id, ag) := OptionalString "p_v_id" ag in
  let '(size, ag) := OptionalInt "size" ag in
  let '(mode, ag) := OptionalString "addressing_mode" ag in
  (mkGroup (mkHead (NewJID id GroupServer) creator creatorPN (mkName subject s_t s_o s_o_pn) creation country a_v_id
              p_v_id size mode)
     (foldl group_child empty_body (GetChildren groupNode)),
   Error ag).

Record GroupLinkTarget := mkTarget { t_JID : JID; t_Name : string; t_NameSetAt : gotime; t_IsDefaultSubGroup : bool }.

Definition parseGroupLinkTargetNode (groupNode : Node) : GroupLinkTarget * option (list attr_error) :=
  let '(jidKey, ag) := OptionalJIDOrEmpty "jid" (AttrGetter groupNode) in
  let '(jidKey, ag) :=
    if IsEmpty jidKey then let '(id, ag) := String_ "id" ag in (NewJID id GroupServer, ag) else (jidKey, ag) in
  let '(subject, ag) := OptionalString "subject" ag in
  let '(s_t, ag) := OptionalUnixTime "s_t" ag in
  (mkTarget jidKey subject s_t
     (String.eqb (node_tag (GetChildByTag groupNode ["default_sub_group"])) "default_sub_group"),
   Error ag).

Definition jid_attr (k : string) (n : Node) : option JID :=
  match attr_get k (node_attrs n) with Some (AJID j) => Some j | _ => None end.

(** A participant of a list and the pair of addresses it shows. *)
Definition list_participant (child : Node) : option (JID * option LIDMapping) :=
  match jid_attr "jid" child with
  | Some j =>
      if negb (String.eqb (node_tag child) "participant") then None
      else if bool_decide (Server j = HiddenUserServer) then
        match jid_attr "phone_number" child with
        | Some phoneNumber => Some (j, if IsEmpty phoneNumber then None else Some (lidmap.mkMapping j phoneNumber))
        | None => Some (j, None)
        end
      else if bool_decide (Server j = DefaultUserServer) then
        match jid_attr "lid" child with
        | Some lid => Some (j, if IsEmpty lid then None else Some (lidmap.mkMapping lid j))
        | None => Some (j, None)
        end
      else Some (j, None)
  | None => None
  end.

Definition parseParticipantList (node : Node) : list JID * list LIDMapping :=
  let l := omap list_participant (GetChildren node) in
  (map fst l, omap snd l).

(** ** The cache of members *)

Record groupMetaCache := mkMeta { m_AddressingMode : string; CommunityAnnouncementGroup : bool; Members : list JID }.

Abbreviation group_cache := (gmap JID groupMetaCache).

(** A participant without both addresses leaves an empty pair. *)
Definition participant_pair (part : GroupParticipant) : LIDMapping :=
  if negb (IsEmpty (PhoneNumber part)) && negb (IsEmpty (p_LID part)) then lidmap.mkMapping (p_LID part) (PhoneNumber part)
  else lidmap.mkMapping EmptyJID EmptyJID.

Definition redacted_phone (part : GroupParticipant) : option (JID * string) :=
  if negb (String.eqb (DisplayName part) "") && negb (IsEmpty (p_LID part)) then Some (p_LID part, DisplayName part) else None.

Definition cacheGroupInfo (g : GroupInfo) (c : group_cache) : group_cache * list LIDMapping * list (JID * string) :=
  let parts := Participants (g_body g) in
  let meta := mkMeta (AddressingMode (g_head g)) (IsAnnounce (g_body g) && IsDefaultSubGroup (g_body g)) (map p_JID parts) in
  (<[g_JID (g_head g) := meta]> c, map participant_pair parts, omap redacted_phone parts).

Definition add_member (members : list JID) (j : JID) : list JID :=
  if existsb (fun m => bool_decide (j = m)) members then members else members ++ [j].

(** The first occurrence gives its place to the last member. *)
Fixpoint index_of (j : JID) (members : list JID) : option nat :=
  match members with
  | [] => None
  | m :: l => if bool_decide (m = j) then Some 0%nat else Datatypes.S <$> index_of j l
  end.

Definition remove_member (members : list JID) (j : JID) : list JID :=
  match index_of j members, last members with
  | Some i, Some m => removelast (<[i := m]> members)
  | _, _ => members
  end.

Definition update_members (join leave : list JID) (members : list JID) : list JID :=
  foldl remove_member (foldl add_member members join) leave.

Definition updateGroupParticipantCache (j : JID) (join leave : list JID) (c : group_cache) : group_cache :=
  match join, leave with
  | [], [] => c
  | _, _ =>
      match c !! j with
      | None => c
      | Some m => <[j := mkMeta (m_AddressingMode m) (CommunityAnnouncementGroup m) (update_members join leave (Members m))]> c
      end
  end.

(** ** Notifications *)

Record GroupLinkChange := mkLinkChange { LinkType : string; UnlinkReason : string; LinkGroup_ : GroupLinkTarget }.

(** events.GroupInfo. *)
Record GroupChange := mkChange {
  Notify : string;
  c_JID : JID;
  c_Sender : option JID;
  c_SenderPN : option JID;
  c_Timestamp : gotime;
  c_Name : option GroupName;
  c_Topic : option GroupTopic;
  c_Locked : option bool;
  c_Announce : option (bool * string);
  c_Ephemeral : option GroupEphemeral;
  MembershipApprovalMode : bool;
  Delete : option string;
  Link : option GroupLinkChange;
  Unlink : option GroupLinkChange;
  NewInviteLink : option string;
  PrevVersion : string;
  NewVersion : string;
  JoinReason : string;
  Join : list JID;
  Leave : list JID;
  Promote : list JID;
  Demote : list JID;
  c_Suspended : bool;
  c_Unsuspended : bool;
  UnknownChanges : list Node
}.

Definition set_c_Name (v : option GroupName) (r : GroupChange) : GroupChange :=
  mkChange (Notify r) (c_JID r) (c_Sender r) (c_SenderPN r) (c_Timestamp r) v (c_Topic r) (c_Locked r)
    (c_Announce r) (c_Ephemeral r) (MembershipApprovalMode r) (Delete r) (Link r) (Unlink r) (NewInviteLink r)
    (PrevVersion r) (NewVersion r) (JoinReason r) (Join r) (Leave r) (Promote r) (Demote r) (c_Suspended r)
    (c_Unsuspended r) (UnknownChanges r).
Definition set_c_Topic (v : option GroupTopic) (r : GroupChange) : GroupChange :=
  mkChange (Notify r) (c_JID r) (c_Sender r) (c_SenderPN r) (c_Timestamp r) (c_Name r) v (c_Locked r)
    (c_Announce r) (c_Ephemeral r) (MembershipApprovalMode r) (Delete r) (Link r) (Unlink r) (NewInviteLink r)
    (PrevVersion r) (NewVersion r) (JoinReason r) (Join r) (Leave r) (Promote r) (Demote r) (c_Suspended r)
    (c_Unsuspended r) (UnknownChanges r).
Definition set_c_Locked (v : option bool) (r : GroupChange) : GroupChange :=
  mkChange (Notify r) (c_JID r) (c_Sender r) (c_SenderPN r) (c_Timestamp r) (c_Name r) (c_Topic r) v (c_Announce
    r) (c_Ephemeral r) (MembershipApprovalMode r) (Delete r) (Link r) (Unlink r) (NewInviteLink r) (PrevVersion
    r) (NewVersion r) (JoinReason r) (Join r) (Leave r) (Promote r) (Demote r) (c_Suspended r) (c_Unsuspended r)
    (UnknownChanges r).
Definition set_c_Announce (v : option (bool * string)) (r : GroupChange) : GroupChange :=
  mkChange (Notify r) (c_JID r) (c_Sender r) (c_SenderPN r) (c_Timestamp r) (c_Name r) (c_Topic r) (c_Locked r)
    v (c_Ephemeral r) (MembershipApprovalMode r) (Delete r) (Link r) (Unlink r) (NewInviteLink r) (PrevVersion
    r) (NewVersion r) (JoinReason r) (Join r) (Leave r) (Promote r) (Demote r) (c_Suspended r) (c_Unsuspended r)
    (UnknownChanges r).
Definition set_c_Ephemeral (v : option GroupEphemeral) (r : GroupChange) : GroupChange :=
  mkChange (Notify r) (c_JID r) (c_Sender r) (c_SenderPN r) (c_Timestamp r) (c_Name r) (c_Topic r) (c_Locked r)
    (c_Announce r) v (MembershipApprovalMode r) (Delete r) (Link r) (Unlink r) (NewInviteLink r) (PrevVersion r)
    (NewVersion r) (JoinReason r) (Join r) (Leave r) (Promote r) (Demote r) (c_Suspended r) (c_Unsuspended r)
    (UnknownChanges r).
Definition set_MembershipApprovalMode (v : bool) (r : GroupChange) : GroupChange :=
  mkChange (Notify r) (c_JID r) (c_Sender r) (c_SenderPN r) (c_Timestamp r) (c_Name r) (c_Topic r) (c_Locked r)
    (c_Announce r) (c_Ephemeral r) v (Delete r) (Link r) (Unlink r) (NewInviteLink r) (PrevVersion r)
    (NewVersion r) (JoinReason r) (Join r) (Leave r) (Promote r) (Demote r) (c_Suspended r) (c_Unsuspended r)
    (UnknownChanges r).
Definition set_Delete (v : option string) (r : GroupChange) : GroupChange :=
  mkChange (Notify r) (c_JID r) (c_Sender r) (c_SenderPN r) (c_Timestamp r) (c_Name r) (c_Topic r) (c_Locked r)
    (c_Announce r) (c_Ephemeral r) (MembershipApprovalMode r) v (Link r) (Unlink r) (NewInviteLink r)
    (PrevVersion r) (NewVersion r) (JoinReason r) (Join r) (Leave r) (Promote r) (Demote r) (c_Suspended r)
    (c_Unsuspended r) (UnknownChanges r).
Definition set_Link (v : option GroupLinkChange) (r : GroupChange) : GroupChange :=
  mkChange (Notify r) (c_JID r) (c_Sender r) (c_SenderPN r) (c_Timestamp r) (c_Name r) (c_Topic r) (c_Locked r)
    (c_Announce r) (c_Ephemeral r) (MembershipApprovalMode r) (Delete r) v (Unlink r) (NewInviteLink r)
    (PrevVersion r) (NewVersion r) (JoinReason r) (Join r) (Leave r) (Promote r) (Demote r) (c_Suspended r)
    (c_Unsuspended r) (UnknownChanges r).
Definition set_Unlink (v : option GroupLinkChange) (r : GroupChange) : GroupChange :=
  mkChange (Notify r) (c_JID r) (c_Sender r) (c_SenderPN r) (c_Timestamp r) (c_Name r) (c_Topic r) (c_Locked r)
    (c_Announce r) (c_Ephemeral r) (MembershipApprovalMode r) (Delete r) (Link r) v (NewInviteLink r)
    (PrevVersion r) (NewVersion r) (JoinReason r) (Join r) (Leave r) (Promote r) (Demote r) (c_Suspended r)
    (c_Unsuspended r) (UnknownChanges r).
Definition set_NewInviteLink (v : option string) (r : GroupChange) : GroupChange :=
  mkChange (Notify r) (c_JID r) (c_Sender r) (c_SenderPN r) (c_Timestamp r) (c_Name r) (c_Topic r) (c_Locked r)
    (c_Announce r) (c_Ephemeral r) (MembershipApprovalMode r) (Delete r) (Link r) (Unlink r) v (PrevVersion r)
    (NewVersion r) (JoinReason r) (Join r) (Leave r) (Promote r) (Demote r) (c_Suspended r) (c_Unsuspended r)
    (UnknownChanges r).
Definition set_PrevVersion (v : string) (r : GroupChange) : GroupChange :=
  mkChange (Notify r) (c_JID r) (c_Sender r) (c_SenderPN r) (c_Timestamp r) (c_Name r) (c_Topic r) (c_Locked r)
    (c_Announce r) (c_Ephemeral r) (MembershipApprovalMode r) (Delete r) (Link r) (Unlink r) (NewInviteLink r) v
    (NewVersion r) (JoinReason r) (Join r) (Leave r) (Promote r) (Demote r) (c_Suspended r) (c_Unsuspended r)
    (UnknownChanges r).
Definition set_NewVersion (v : string) (r : GroupChange) : GroupChange :=
  mkChange (Notify r) (c_JID r) (c_Sender r) (c_SenderPN r) (c_Timestamp r) (c_Name r) (c_Topic r) (c_Locked r)
    (c_Announce r) (c_Ephemeral r) (MembershipApprovalMode r) (Delete r) (Link r) (Unlink r) (NewInviteLink r)
    (PrevVersion r) v (JoinReason r) (Join r) (Leave r) (Promote r) (Demote r) (c_Suspended r) (c_Unsuspended r)
    (UnknownChanges r).
Definition set_JoinReason (v : string) (r : GroupChange) : GroupChange :=
  mkChange (Notify r) (c_JID r) (c_Sender r) (c_SenderPN r) (c_Timestamp r) (c_Name r) (c_Topic r) (c_Locked r)
    (c_Announce r) (c_Ephemeral r) (MembershipApprovalMode r) (Delete r) (Link r) (Unlink r) (NewInviteLink r)
    (PrevVersion r) (NewVersion r) v (Join r) (Leave r) (Promote r) (Demote r) (c_Suspended r) (c_Unsuspended r)
    (UnknownChanges r).
Definition set_Join (v : list JID) (r : GroupChange) : GroupChange :=
  mkChange (Notify r) (c_JID r) (c_Sender r) (c_SenderPN r) (c_Timestamp r) (c_Name r) (c_Topic r) (c_Locked r)
    (c_Announce r) (c_Ephemeral r) (MembershipApprovalMode r) (Delete r) (Link r) (Unlink r) (NewInviteLink r)
    (PrevVersion r) (NewVersion r) (JoinReason r) v (Leave r) (Promote r) (Demote r) (c_Suspended r)
    (c_Unsuspended r) (UnknownChanges r).
Definition set_Leave (v : list JID) (r : GroupChange) : GroupChange :=
  mkChange (Notify r) (c_JID r) (c_Sender r) (c_SenderPN r) (c_Timestamp r) (c_Name r) (c_Topic r) (c_Locked r)
    (c_Announce r) (c_Ephemeral r) (MembershipApprovalMode r) (Delete r) (Link r) (Unlink r) (NewInviteLink r)
    (PrevVersion r) (NewVersion r) (JoinReason r) (Join r) v (Promote r) (Demote r) (c_Suspended r)
    (c_Unsuspended r) (UnknownChanges r).
Definition set_Promote (v : list JID) (r : GroupChange) : GroupChange :=
  mkChange (Notify r) (c_JID r) (c_Sender r) (c_SenderPN r) (c_Timestamp r) (c_Name r) (c_Topic r) (c_Locked r)
    (c_Announce r) (c_Ephemeral r) (MembershipApprovalMode r) (Delete r) (Link r) (Unlink r) (NewInviteLink r)
    (PrevVersion r) (NewVersion r) (JoinReason r) (Join r) (Leave r) v (Demote r) (c_Suspended r) (c_Unsuspended
    r) (UnknownChanges r).
Definition set_Demote (v : list JID) (r : GroupChange) : GroupChange :=
  mkChange (Notify r) (c_JID r) (c_Sender r) (c_SenderPN r) (c_Timestamp r) (c_Name r) (c_Topic r) (c_Locked r)
    (c_Announce r) (c_Ephemeral r) (MembershipApprovalMode r) (Delete r) (Link r) (Unlink r) (NewInviteLink r)
    (PrevVersion r) (NewVersion r) (JoinReason r) (Join r) (Leave r) (Promote r) v (c_Suspended r)
    (c_Unsuspended r) (UnknownChanges r).
Definition set_c_Suspended (v : bool) (r : GroupChange) : GroupChange :=
  mkChange (Notify r) (c_JID r) (c_Sender r) (c_SenderPN r) (c_Timestamp r) (c_Name r) (c_Topic r) (c_Locked r)
    (c_Announce r) (c_Ephemeral r) (MembershipApprovalMode r) (Delete r) (Link r) (Unlink r) (NewInviteLink r)
    (PrevVersion r) (NewVersion r) (JoinReason r) (Join r) (Leave r) (Promote r) (Demote r) v (c_Unsuspended r)
    (UnknownChanges r).
Definition set_c_Unsuspended (v : bool) (r : GroupChange) : GroupChange :=
  mkChange (Notify r) (c_JID r) (c_Sender r) (c_SenderPN r) (c_Timestamp r) (c_Name r) (c_Topic r) (c_Locked r)
    (c_Announce r) (c_Ephemeral r) (MembershipApprovalMode r) (Delete r) (Link r) (Unlink r) (NewInviteLink r)
    (PrevVersion r) (NewVersion r) (JoinReason r) (Join r) (Leave r) (Promote r) (Demote r) (c_Suspended r) v
    (UnknownChanges r).
Definition set_UnknownChanges (v : list Node) (r : GroupChange) : GroupChange :=
  mkChange (Notify r) (c_JID r) (c_Sender r) (c_SenderPN r) (c_Timestamp r) (c_Name r) (c_Topic r) (c_Locked r)
    (c_Announce r) (c_Ephemeral r) (MembershipApprovalMode r) (Delete r) (Link r) (Unlink r) (NewInviteLink r)
    (PrevVersion r) (NewVersion r) (JoinReason r) (Join r) (Leave r) (Promote r) (Demote r) (c_Suspended r)
    (c_Unsuspended r) v.

Inductive group_error :=
  | ErrGroupAttrs (l : list attr_error)
  | ErrChildAttrs (tag : string) (l : list attr_error)
  | ElementMissing (tag : string)
  | UnexpectedBody (n : Node)
  | ErrLinkTarget (l : list attr_error).

Definition InviteLinkPrefix := "https://chat.whatsapp.com/".

Definition link_target (child : Node) (missing : string) : outcome group_error GroupLinkTarget :=
  let '(groupNode, ok) := GetOptionalChildByTag child ["group"] in
  if negb ok then Err (ElementMissing missing)
  else
    match parseGroupLinkTargetNode groupNode with
    | (t, None) => Ok t
    | (_, Some l) => Err (ErrLinkTarget l)
    end.

(** A child of a change: the event, the pairs, and the child's reader, whose
    errors are looked at afterwards. *)
Definition change_child (evt : GroupChange) (lidPairs : list LIDMapping) (child : Node) :
    outcome group_error (GroupChange * list LIDMapping * AttrUtility) :=
  let tag := node_tag child in
  let cag := AttrGetter child in
  let '(evt, cag) :=
    if String.eqb tag "add" || String.eqb tag "remove" || String.eqb tag "promote" || String.eqb tag "demote" then
      let '(prev, cag) := OptionalString "prev_v_id" cag in
      let '(v, cag) := OptionalString "v_id" cag in
      (set_NewVersion v (set_PrevVersion prev evt), cag)
    else (evt, cag) in
  let '(members, pairs) := parseParticipantList child in
  if String.eqb tag "add" then
    let '(reason, cag) := OptionalString "reason" cag in
    Ok (set_Join members (set_JoinReason reason evt), pairs, cag)
  else if String.eqb tag "remove" then Ok (set_Leave members evt, pairs, cag)
  else if String.eqb tag "promote" then Ok (set_Promote members evt, pairs, cag)
  else if String.eqb tag "demote" then Ok (set_Demote members evt, pairs, cag)
  else if String.eqb tag "locked" then Ok (set_c_Locked (Some true) evt, lidPairs, cag)
  else if String.eqb tag "unlocked" then Ok (set_c_Locked (Some false) evt, lidPairs, cag)
  else if String.eqb tag "delete" then
    let '(reason, cag) := String_ "reason" cag in
    Ok (set_Delete (Some reason) evt, lidPairs, cag)
  else if String.eqb tag "subject" then
    let '(subject, cag) := String_ "subject" cag in
    let '(s_t, cag) := UnixTime "s_t" cag in
    let '(s_o, cag) := OptionalJIDOrEmpty "s_o" cag in
    let '(s_o_pn, cag) := OptionalJIDOrEmpty "s_o_pn" cag in
    Ok (set_c_Name (Some (mkName subject s_t s_o s_o_pn)) evt, lidPairs, cag)
  else if String.eqb tag "description" then
    let isDelete := snd (GetOptionalChildByTag child ["delete"]) in
    topicStr ← (if isDelete then Ok ""
                else match node_content (GetChildByTag child ["body"]) with
                     | ABytes b => Ok (bytes_str b)
                     | _ => Err (UnexpectedBody (GetChildByTag child ["body"]))
                     end);
    let '(id, cag) := String_ "id" cag in
    let setBy := default EmptyJID (c_Sender evt) in
    Ok (set_c_Topic (Some (mkTopic topicStr id (c_Timestamp evt) setBy EmptyJID isDelete)) evt, lidPairs, cag)
  else if String.eqb tag "announcement" then
    let '(v, cag) := String_ "v_id" cag in Ok (set_c_Announce (Some (true, v)) evt, lidPairs, cag)
  else if String.eqb tag "not_announcement" then
    let '(v, cag) := String_ "v_id" cag in Ok (set_c_Announce (Some (false, v)) evt, lidPairs, cag)
  else if String.eqb tag "invite" then
    let '(code, cag) := String_ "code" cag in
    Ok (set_NewInviteLink (Some (InviteLinkPrefix +:+ code)) evt, lidPairs, cag)
  else if String.eqb tag "ephemeral" then
    let '(timer, cag) := Uint64 "expiration" cag in
    Ok (set_c_Ephemeral (Some (mkEphemeral true (u32 timer))) evt, lidPairs, cag)
  else if String.eqb tag "not_ephemeral" then Ok (set_c_Ephemeral (Some (mkEphemeral false 0)) evt, lidPairs, cag)
  else if String.eqb tag "link" then
    let '(ty, cag) := String_ "link_type" cag in
    t ← link_target child "group";
    Ok (set_Link (Some (mkLinkChange ty "" t)) evt, lidPairs, cag)
  else if String.eqb tag "unlink" then
    let '(ty, cag) := String_ "unlink_type" cag in
    let '(reason, cag) := String_ "unlink_reason" cag in
    t ← link_target child "group";
    Ok (set_Unlink (Some (mkLinkChange ty reason t)) evt, lidPairs, cag)
  else if String.eqb tag "membership_approval_mode" then Ok (set_MembershipApprovalMode true evt, lidPairs, cag)
  else if String.eqb tag "suspended" then Ok (set_c_Suspended true evt, lidPairs, cag)
  else if String.eqb tag "unsuspended" then Ok (set_c_Unsuspended true evt, lidPairs, cag)
  else Ok (set_UnknownChanges (UnknownChanges evt ++ [child]) evt, lidPairs, cag).

Fixpoint change_children (evt : GroupChange) (lidPairs : list LIDMapping) (l : list Node) :
    outcome group_error (GroupChange * list LIDMapping) :=
  match l with
  | [] => Ok (evt, lidPairs)
  | child :: l =>
      '(evt, lidPairs, cag) ← change_child evt lidPairs child;
      match Error cag with
      | Some e => Err (ErrChildAttrs (node_tag child) e)
      | None => change_children evt lidPairs l
      end
  end.

Definition parseGroupChange (node : Node) : outcome group_error (GroupChange * list LIDMapping) :=
  let '(from, ag) := JID_ "from" (AttrGetter node) in
  let '(notify, ag) := OptionalString "notify" ag in
  let '(sender, ag) := OptionalJID "participant" ag in
  let '(senderPN, ag) := OptionalJID "participant_pn" ag in
  let '(t, ag) := UnixTime "t" ag in
  match Error ag with
  | Some l => Err (ErrGroupAttrs l)
  | None =>
      change_children
        (mkChange notify from sender senderPN t None None None None None false None None None None "" "" "" [] [] [] []
           false false []) [] (GetChildren node)
  end.

(** events.JoinedGroup *)
Record JoinedGroup := mkJoined {
  Reason : string;
  CreateType : string;
  CreateKey : string;
  j_Sender : option JID;
  j_SenderPN : option JID;
  j_Notify : string;
  j_Info : GroupInfo
}.

Definition with_mode (mode : string) (g : GroupInfo) : GroupInfo :=
  let h := g_head g in
  mkGroup (mkHead (g_JID h) (OwnerJID h) (OwnerPN h) (g_Name h) (GroupCreated h) (CreatorCountryCode h)
             (AnnounceVersionID h) (ParticipantVersionID h) (ParticipantCount h) mode) (g_body g).

Definition parseGroupCreate (parentNode node : Node) (c : group_cache) :
    group_cache * outcome group_error (JoinedGroup * list LIDMapping * list (JID * string)) :=
  let '(groupNode, ok) := GetOptionalChildByTag node ["group"] in
  if negb ok then (c, Err (ElementMissing "group"))
  else
    let '(reason, ag) := OptionalString "reason" (AttrGetter node) in
    let '(key, ag) := OptionalString "key" ag in
    let '(ty, _) := OptionalString "type" ag in
    let '(sender, pag) := OptionalJID "participant" (AttrGetter parentNode) in
    let '(senderPN, pag) := OptionalJID "participant_pn" pag in
    let '(notify, pag) := OptionalString "notify" pag in
    match parseGroupNode groupNode with
    | (_, Some l) => (c, Err (ErrGroupAttrs l))
    | (info, None) =>
        let info :=
          if String.eqb (AddressingMode (g_head info)) "" then with_mode (fst (OptionalString "addressing_mode" pag)) info
          else info in
        let '(c, lidPairs, redacted) := cacheGroupInfo info c in
        (c, Ok (mkJoined reason ty key sender senderPN notify info, lidPairs, redacted))
    end.

Inductive group_event := EvtJoined (j : JoinedGroup) | EvtChange (g : GroupChange).

Definition parseGroupNotification (node : Node) (c : group_cache) :
    group_cache * outcome group_error (group_event * list LIDMapping * list (JID * string)) :=
  let change :=
    match parseGroupChange node with
    | Ok (g, lidPairs) =>
        (updateGroupParticipantCache (c_JID g) (Join g) (Leave g) c, Ok (EvtChange g, lidPairs, []))
    | Err e => (c, Err e)
    | Panic => (c, Panic)
    | NoFuel => (c, NoFuel)
    end in
  match GetChildren node with
  | [child] =>
      if String.eqb (node_tag child) "create" then
        let '(c, r) := parseGroupCreate node child c in
        (c, '(j, pairs, redacted) ← r; Ok (EvtJoined j, pairs, redacted))
      else change
  | _ => change
  end.
(** ** Requests *)

Import requests.

Inductive op_error :=
  | ErrIQ (e : iq_error)
  | ErrGroupInviteLinkUnauthorized (e : iq_error)
  | ErrGroupNotFound (e : iq_error)
  | ErrNotInGroup (e : iq_error)
  | ErrInviteLinkRevoked (e : iq_error)
  | ErrInviteLinkInvalid (e : iq_error)
  | ErrInvalidImageFormat (e : iq_error)
  | ErrElementMissing (tag : string)
  | ErrNoInviteCode
  | ErrNoPictureID
  | ErrInfoAttrs (l : list attr_error)
  | ErrPhoneNumber
  | ErrPrivacyToken
  | ErrInvalidMode.

(** [errors.Is] with one of the known errors of info queries. *)
Definition is_iq (code : Z) (text : string) (e : iq_error) : bool :=
  match e with IQError _ c t => negb (c =? 0) && (c =? code) && String.eqb t text | _ => false end.

Definition IQNotAuthorized := is_iq 401 "not-authorized".
Definition IQForbidden := is_iq 403 "forbidden".
Definition IQNotFound := is_iq 404 "item-not-found".
Definition IQNotAcceptable := is_iq 406 "not-acceptable".
Definition IQGone := is_iq 410 "gone".

Definition stripQuery (link : string) : string :=
  match split_on "?" link with
  | "" :: _ => link
  | p :: _ :: _ => p
  | _ => link
  end.

Fixpoint stripURLPrefix (link : string) (prefixes : list string) : string :=
  match prefixes with
  | [] => link
  | p :: ps => if has_prefix p link then stripQuery (trim_prefix p link) else stripURLPrefix link ps
  end.

Section ops.
(** The server's answer to a query; the LID map; the tokens kept for a user. *)
Context (sendIQ : infoQuery -> outcome iq_error Node) (GetPNForLID : JID -> outcome unit JID)
        (ensureTCToken : JID -> outcome unit bytes).

Definition sendGroupIQ (iqType : string) (j : JID) (content : Node) : outcome iq_error Node :=
  sendIQ (mkQuery "w:g2" iqType j EmptyJID "" "" (ANodes [content]) false).

Definition ask (iqType : string) (j : JID) (content : Node) : outcome op_error Node :=
  map_err ErrIQ (sendGroupIQ iqType j content).

(** A query whose response is not looked at. *)
Definition tell (iqType : string) (j : JID) (content : Node) : outcome op_error unit :=
  _ ← ask iqType j content; Ok tt.

Definition child_of (n : Node) (tag : string) : outcome op_error Node :=
  let '(c, ok) := GetOptionalChildByTag n [tag] in if ok then Ok c else Err (ErrElementMissing tag).

Definition group_or_error (n : Node) : outcome op_error GroupInfo :=
  match parseGroupNode n with (g, None) => Ok g | (_, Some l) => Err (ErrInfoAttrs l) end.

Record ReqCreateGroup := mkReq {
  r_Name : string;
  r_Participants : list JID;
  r_Ephemeral : GroupEphemeral;
  r_IsAnnounce : bool;
  r_IsLocked : bool;
  r_IsJoinApprovalRequired : bool;
  r_MemberAddMode : string;
  r_Parent : GroupParent;
  r_LinkedParentJID : JID
}.

Definition privacy_content (token : bytes) : any :=
  match token with [] => ANil | _ => ANodes [mkNode "privacy" [] (ABytes token)] end.

Definition create_participant (participant : JID) : outcome op_error Node :=
  let participant := ToNonAD participant in
  participantPN ← (if bool_decide (Server participant = HiddenUserServer)
                   then map_err (fun _ => ErrPhoneNumber) (GetPNForLID participant) else Ok EmptyJID);
  let attrs := [("jid", AJID participant)] in
  let attrs := if IsEmpty participantPN then attrs else attrs ++ [("phone_number", AJID participantPN)] in
  token ← map_err (fun _ => ErrPrivacyToken) (ensureTCToken participant);
  Ok (mkNode "participant" attrs (privacy_content token)).

Fixpoint each {A} (f : JID -> outcome op_error A) (l : list JID) : outcome op_error (list A) :=
  match l with
  | [] => Ok []
  | j :: l => a ← f j; rest ← each f l; Ok (a :: rest)
  end.

Definition create_content (req : ReqCreateGroup) (participants : list Node) : list Node :=
  participants
  ++ [mkNode "member_add_mode" []
        (AString (if String.eqb (r_MemberAddMode req) "" then "all_member_add" else r_MemberAddMode req))]
  ++ (if IsParent (r_Parent req) then
        let mode := DefaultMembershipApprovalMode (r_Parent req) in
        [mkNode "parent" [("default_membership_approval_mode",
           AString (if String.eqb mode "" then "request_required" else mode))] ANil]
      else if negb (IsEmpty (r_LinkedParentJID req)) then
        [mkNode "linked_parent" [("jid", AJID (r_LinkedParentJID req))] ANil]
      else [])
  ++ (if r_IsLocked req then [mkNode "locked" [] ANil] else [])
  ++ (if r_IsAnnounce req then [mkNode "announcement" [] ANil] else [])
  ++ (if IsEphemeral (r_Ephemeral req)
      then [mkNode "ephemeral" [("expiration", AUint32 (DisappearingTimer (r_Ephemeral req))); ("trigger", AString "1")] ANil]
      else [mkNode "ephemeral" [("expiration", AInt 0)] ANil])
  ++ [mkNode "membership_approval_mode" []
        (ANodes [mkNode "group_join" [("state", AString (if r_IsJoinApprovalRequired req then "on" else "off"))] ANil])].

Definition CreateGroup (req : ReqCreateGroup) : outcome op_error GroupInfo :=
  participants ← each create_participant (r_Participants req);
  resp ← ask "set" GroupServerJID
           (mkNode "create" (if String.eqb (r_Name req) "" then [] else [("subject", AString (r_Name req))])
              (ANodes (create_content req participants)));
  groupNode ← child_of resp "group";
  group_or_error groupNode.

Definition UnlinkGroup (parent child : JID) : outcome op_error unit :=
  tell "set" parent (mkNode "unlink" [("unlink_type", AString "sub_group")] (ANodes [mkNode "group" [("jid", AJID child)] ANil])).

Definition LinkGroup (parent child : JID) : outcome op_error unit :=
  tell "set" parent (mkNode "links" [] (ANodes [mkNode "link" [("link_type", AString "sub_group")]
    (ANodes [mkNode "group" [("jid", AJID child)] ANil])])).

Definition LeaveGroup (j : JID) : outcome op_error unit :=
  tell "set" GroupServerJID (mkNode "leave" [] (ANodes [mkNode "group" [("id", AJID j)] ANil])).

Definition change_participant (action : string) (j : JID) : outcome op_error Node :=
  let attrs := [("jid", AJID j)] in
  if String.eqb action "add" then
    pn ← (if bool_decide (Server j = HiddenUserServer) then map_err (fun _ => ErrPhoneNumber) (GetPNForLID j) else Ok EmptyJID);
    token ← map_err (fun _ => ErrPrivacyToken) (ensureTCToken j);
    Ok (mkNode "participant" (if IsEmpty pn then attrs else attrs ++ [("phone_number", AJID pn)]) (privacy_content token))
  else Ok (mkNode "participant" attrs ANil).

Definition UpdateGroupParticipants (j : JID) (changes : list JID) (action : string) : outcome op_error (list GroupParticipant) :=
  content ← each (change_participant action) changes;
  resp ← ask "set" j (mkNode action [] (ANodes content));
  requestAction ← child_of resp action;
  Ok (map parseParticipant (GetChildrenByTag requestAction "participant")).

Definition GetGroupRequestParticipants (j : JID) : outcome op_error (list (JID * gotime)) :=
  resp ← ask "get" j (mkNode "membership_approval_requests" [] ANil);
  request ← child_of resp "membership_approval_requests";
  Ok (map (fun r => (fst (JID_ "jid" (AttrGetter r)), fst (UnixTime "request_time" (AttrGetter r))))
        (GetChildrenByTag request "membership_approval_request")).

Definition UpdateGroupRequestParticipants (j : JID) (changes : list JID) (action : string) :
    outcome op_error (list GroupParticipant) :=
  let content := map (fun p => mkNode "participant" [("jid", AJID p)] ANil) changes in
  resp ← ask "set" j (mkNode "membership_requests_action" [] (ANodes [mkNode action [] (ANodes content)]));
  request ← child_of resp "membership_requests_action";
  requestAction ← child_of request action;
  Ok (map parseParticipant (GetChildrenByTag requestAction "participant")).

(** An absent avatar removes the photo. *)
Definition SetGroupPhoto (j : JID) (avatar : option bytes) : outcome op_error string :=
  let content :=
    match avatar with Some b => ANodes [mkNode "picture" [("type", AString "image")] (ABytes b)] | None => ANil end in
  match sendIQ (mkQuery "w:profile:picture" "set" ServerJID j "" "" content false) with
  | Ok resp =>
      match avatar with
      | None => Ok "remove"
      | Some _ =>
          match attr_string "id" (GetChildByTag resp ["picture"]) with
          | Some id => Ok id
          | None => Err ErrNoPictureID
          end
      end
  | Err e => Err (if IQNotAcceptable e then ErrInvalidImageFormat e else ErrIQ e)
  | Panic => Panic
  | NoFuel => NoFuel
  end.

Definition SetGroupName (j : JID) (name : string) : outcome op_error unit :=
  tell "set" j (mkNode "subject" [] (ABytes (str_bytes name))).

Definition SetGroupLocked (j : JID) (locked : bool) : outcome op_error unit :=
  tell "set" j (mkNode (if locked then "locked" else "unlocked") [] ANil).

Definition SetGroupAnnounce (j : JID) (announce : bool) : outcome op_error unit :=
  tell "set" j (mkNode (if announce then "announcement" else "not_announcement") [] ANil).

(** The known errors of a query, told in words. *)
Definition explain (known : list ((iq_error -> bool) * (iq_error -> op_error))) (r : outcome iq_error Node) :
    outcome op_error Node :=
  map_err (fun e =>
    match List.find (fun k => fst k e) known with Some (_, human) => human e | None => ErrIQ e end) r.

Definition GetGroupInviteLink (j : JID) (reset : bool) : outcome op_error string :=
  resp ← explain [(IQNotAuthorized, ErrGroupInviteLinkUnauthorized); (IQNotFound, ErrGroupNotFound); (IQForbidden, ErrNotInGroup)]
           (sendGroupIQ (if reset then "set" else "get") j (mkNode "invite" [] ANil));
  match attr_string "code" (GetChildByTag resp ["invite"]) with
  | Some code => Ok (InviteLinkPrefix +:+ code)
  | None => Err ErrNoInviteCode
  end.

Definition invite_attrs (code : string) (expiration : Z) (inviter : JID) : Attrs :=
  [("code", AString code); ("expiration", AInt64 expiration); ("admin", AJID inviter)].

Definition GetGroupInfoFromInvite (j inviter : JID) (code : string) (expiration : Z) : outcome op_error GroupInfo :=
  resp ← ask "get" j (mkNode "query" [] (ANodes [mkNode "add_request" (invite_attrs code expiration inviter) ANil]));
  groupNode ← child_of resp "group";
  group_or_error groupNode.

Definition JoinGroupWithInvite (j inviter : JID) (code : string) (expiration : Z) : outcome op_error unit :=
  tell "set" j (mkNode "accept" (invite_attrs code expiration inviter) ANil).

Definition link_query (iqType code : string) : outcome op_error Node :=
  explain [(IQGone, ErrInviteLinkRevoked); (IQNotAcceptable, ErrInviteLinkInvalid)]
    (sendGroupIQ iqType GroupServerJID
       (mkNode "invite" [("code", AString (stripURLPrefix code [InviteLinkPrefix]))] ANil)).

Definition GetGroupInfoFromLink (code : string) : outcome op_error GroupInfo :=
  resp ← link_query "get" code;
  groupNode ← child_of resp "group";
  group_or_error groupNode.

Definition JoinGroupWithLink (code : string) : outcome op_error JID :=
  resp ← link_query "set" code;
  let '(approval, ok) := GetOptionalChildByTag resp ["membership_approval_request"] in
  if ok then Ok (fst (JID_ "jid" (AttrGetter approval)))
  else
    groupNode ← child_of resp "group";
    Ok (fst (JID_ "jid" (AttrGetter groupNode))).

Definition SetGroupJoinApprovalMode (j : JID) (mode : bool) : outcome op_error unit :=
  tell "set" j (mkNode "membership_approval_mode" []
    (ANodes [mkNode "group_join" [("state", AString (if mode then "on" else "off"))] ANil])).

Definition SetGroupMemberAddMode (j : JID) (mode : string) : outcome op_error unit :=
  if negb (String.eqb mode "admin_add") && negb (String.eqb mode "all_member_add") then Err ErrInvalidMode
  else tell "set" j (mkNode "member_add_mode" [] (ABytes (str_bytes mode))).

Definition SetGroupDescription (j : JID) (description : string) : outcome op_error unit :=
  tell "set" j (mkNode "description" [] (ANodes [mkNode "body" [] (ABytes (str_bytes description))])).

(** The subgroups before the first that does not parse come with the error. *)
Fixpoint sub_groups (l : list Node) : list GroupLinkTarget * option (list attr_error) :=
  match l with
  | [] => ([], None)
  | c :: l =>
      if String.eqb (node_tag c) "group" then
        match parseGroupLinkTargetNode c with
        | (t, None) => let '(ts, e) := sub_groups l in (t :: ts, e)
        | (_, Some e) => ([], Some e)
        end
      else sub_groups l
  end.

Definition GetSubGroups (community : JID) : outcome op_error (list GroupLinkTarget * option (list attr_error)) :=
  res ← ask "get" community (mkNode "sub_groups" [] ANil);
  groups ← child_of res "sub_groups";
  Ok (sub_groups (GetChildren groups)).

(** The members, and the pairs that are put into the LID map. *)
Definition GetLinkedGroupsParticipants (community : JID) : outcome op_error (list JID * list LIDMapping) :=
  res ← ask "get" community (mkNode "linked_groups_participants" [] ANil);
  participants ← child_of res "linked_groups_participants";
  Ok (parseParticipantList participants).

(** ** Queries that fill the cache: the cache, what goes to the LID map and to
    the contacts, and the result *)

Definition stored : Type := list LIDMapping * list (JID * string).

Definition info_query (j : JID) : outcome op_error Node :=
  res ← explain [(IQNotFound, ErrGroupNotFound); (IQForbidden, ErrNotInGroup)]
          (sendGroupIQ "get" j (mkNode "query" [("request", AString "interactive")] ANil));
  child_of res "group".

Definition getGroupInfo (j : JID) (c : group_cache) : group_cache * stored * outcome op_error GroupInfo :=
  match info_query j with
  | Ok groupNode =>
      match parseGroupNode groupNode with
      | (g, None) => let '(c, pairs, redacted) := cacheGroupInfo g c in (c, (pairs, redacted), Ok g)
      | (_, Some l) => (c, ([], []), Err (ErrInfoAttrs l))
      end
  | Err e => (c, ([], []), Err e)
  | Panic => (c, ([], []), Panic)
  | NoFuel => (c, ([], []), NoFuel)
  end.

Definition GetGroupInfo := getGroupInfo.

(** The cached data of the group asked for: nil when the answer was about another. *)
Definition getCachedGroupData (j : JID) (c : group_cache) : group_cache * stored * outcome op_error (option groupMetaCache) :=
  match c !! j with
  | Some m => (c, ([], []), Ok (Some m))
  | None => let '(c, st, r) := getGroupInfo j c in (c, st, _ ← r; Ok (c !! j))
  end.

(** Groups that do not parse are logged and taken all the same. *)
Fixpoint joined_groups (l : list Node) (c : group_cache) : group_cache * stored * list GroupInfo :=
  match l with
  | [] => (c, ([], []), [])
  | child :: l =>
      if String.eqb (node_tag child) "group" then
        let g := fst (parseGroupNode child) in
        let '(c, pairs, redacted) := cacheGroupInfo g c in
        let '(c, (pairs', redacted'), gs) := joined_groups l c in
        (c, (pairs ++ pairs', redacted ++ redacted'), g :: gs)
      else joined_groups l c
  end.

Definition GetJoinedGroups (c : group_cache) : group_cache * stored * outcome op_error (list GroupInfo) :=
  match (resp ← ask "get" GroupServerJID
           (mkNode "participating" [] (ANodes [mkNode "participants" [] ANil; mkNode "description" [] ANil]));
         child_of resp "groups") with
  | Ok groups => let '(c, st, gs) := joined_groups (GetChildren groups) c in (c, st, Ok gs)
  | Err e => (c, ([], []), Err e)
  | Panic => (c, ([], []), Panic)
  | NoFuel => (c, ([], []), NoFuel)
  end.

(** [newMsgID]: GenerateMessageID. *)
Definition SetGroupTopic (j : JID) (previousID newID topic newMsgID : string) (c : group_cache) :
    group_cache * stored * outcome op_error unit :=
  let '(c, st, previous) :=
    if String.eqb previousID "" then
      let '(c, st, r) := getGroupInfo j c in (c, st, g ← r; Ok (TopicID (g_Topic (g_body g))))
    else (c, ([], []), Ok previousID) in
  (c, st,
   previousID ← previous;
   let newID := if String.eqb newID "" then newMsgID else newID in
   let attrs := [("id", AString newID)] in
   let attrs := if String.eqb previousID "" then attrs else attrs ++ [("prev", AString previousID)] in
   if String.eqb topic "" then tell "set" j (mkNode "description" (attrs ++ [("delete", AString "true")]) ANil)
   else tell "set" j (mkNode "description" attrs (ANodes [mkNode "body" [] (ABytes (str_bytes topic))]))).

End ops.

(** ** The members as a set *)

Lemma add_member_spec ms j : NoDup ms ->
  NoDup (add_member ms j) /\ forall x, x ∈ add_member ms j <-> x ∈ ms \/ x = j.
Proof.
  intros Hnd. unfold add_member. destruct (existsb _ ms) eqn:E.
  - apply existsb_exists in E as (m & Hm & ->%bool_decide_eq_true). apply list_elem_of_In in Hm. naive_solver.
  - assert (j ∉ ms) as Hj.
    { intros Hj. apply not_true_iff_false in E. apply E. apply existsb_exists. exists j.
      split; [by apply list_elem_of_In|by apply bool_decide_eq_true]. }
    split.
    + apply NoDup_app. split; [done|]. split; [|apply NoDup_singleton]. intros x Hx ->%list_elem_of_singleton. done.
    + intros x. by rewrite elem_of_app, list_elem_of_singleton.
Qed.

Lemma index_of_spec j ms :
  match index_of j ms with
  | Some i => exists l1 l2, ms = l1 ++ j :: l2 /\ i = length l1
  | None => j ∉ ms
  end.
Proof.
  induction ms as [|m ms IH]; cbn [index_of]; [by intros ?%elem_of_nil|].
  case_bool_decide as E; [subst; by exists [], ms|]. destruct (index_of j ms) as [i|]; cbn [fmap option_fmap option_map].
  - destruct IH as (l1 & l2 & -> & ->). by exists (m :: l1), l2.
  - intros [->|H]%elem_of_cons; done.
Qed.

Lemma remove_member_perm ms j : j ∈ ms -> ms ≡ₚ j :: remove_member ms j.
Proof.
  intros Hj. unfold remove_member. pose proof (index_of_spec j ms) as H.
  destruct (index_of j ms) as [i|]; [|done]. destruct H as (l1 & l2 & -> & ->).
  destruct (last (l1 ++ j :: l2)) as [m|] eqn:El.
  2: { apply last_None in El. by destruct l1. }
  apply last_Some in El as [l El]. destruct (decide (l2 = [])) as [->|Hl2].
  - apply app_inj_tail in El as [-> ->]. rewrite insert_app_r_alt, Nat.sub_diag by done. cbn [insert list_insert].
    rewrite removelast_last. by rewrite Permutation_app_comm.
  - apply exists_last in Hl2 as (l2' & m' & ->).
    assert (l1 ++ j :: l2' ++ [m'] = (l1 ++ j :: l2') ++ [m']) as E by (by rewrite <- app_assoc).
    rewrite E in El. apply app_inj_tail in El as [_ ->].
    rewrite insert_app_r_alt, Nat.sub_diag by done. change (<[0%nat := m]> (j :: l2' ++ [m])) with (m :: l2' ++ [m]).
    change (l1 ++ m :: l2' ++ [m]) with (l1 ++ (m :: l2') ++ [m]). rewrite app_assoc, removelast_last.
    change (j :: l2' ++ [m]) with ([j] ++ l2' ++ [m]). rewrite (Permutation_app_comm l2' [m]). solve_Permutation.
Qed.

Lemma remove_member_spec ms j : NoDup ms ->
  NoDup (remove_member ms j) /\ forall x, x ∈ remove_member ms j <-> x ∈ ms /\ x <> j.
Proof.
  intros Hnd. destruct (decide (j ∈ ms)) as [Hj|Hj].
  - pose proof (remove_member_perm ms j Hj) as Hp.
    pose proof Hnd as Hnd'. rewrite Hp in Hnd'. apply NoDup_cons in Hnd' as [Hn Hnd']. split; [done|]. intros x.
    assert (x ∈ ms <-> x = j \/ x ∈ remove_member ms j) as -> by (rewrite <- elem_of_cons; by rewrite <- Hp). naive_solver.
  - assert (remove_member ms j = ms) as ->; [|naive_solver]. unfold remove_member.
    pose proof (index_of_spec j ms) as H. destruct (index_of j ms); [|done].
    destruct H as (l1 & l2 & -> & _). set_solver.
Qed.

Lemma update_members_spec join leave ms : NoDup ms ->
  NoDup (update_members join leave ms) /\
  (list_to_set (update_members join leave ms) : gset JID) = (list_to_set ms ∪ list_to_set join) ∖ list_to_set leave.
Proof.
  intros Hnd. unfold update_members.
  assert (NoDup (foldl add_member ms join) /\ (list_to_set (foldl add_member ms join) : gset JID) = list_to_set ms ∪ list_to_set join)
    as [H1 H2].
  { revert ms Hnd. induction join as [|j join IH]; intros ms Hnd; cbn [foldl]; [split; [done|set_solver]|].
    destruct (add_member_spec ms j Hnd) as [Ha Hs]. destruct (IH _ Ha) as [Hn ->]. split; [done|]. set_solver. }
  rewrite <- H2. clear H2 Hnd. revert H1. generalize (foldl add_member ms join). clear ms. intros ms.
  revert ms. induction leave as [|j leave IH]; intros ms Hnd; cbn [foldl]; [split; [done|set_solver]|].
  destruct (remove_member_spec ms j Hnd) as [Ha Hs]. destruct (IH _ Ha) as [Hn ->]. split; [done|].
  apply set_eq. intros x. rewrite !elem_of_difference, !elem_of_list_to_set, elem_of_cons, Hs. naive_solver.
Qed.

(** What a notification about a group means for the set of members of [g]. *)
Definition change_set (g : JID) (s : gset JID) (op : JID * list JID * list JID) : gset JID :=
  let '(j, join, leave) := op in
  if decide (j = g) then (s ∪ list_to_set join) ∖ list_to_set leave else s.

Definition run_changes (c : group_cache) (ops : list (JID * list JID * list JID)) : group_cache :=
  foldl (fun c '(j, join, leave) => updateGroupParticipantCache j join leave c) c ops.

Lemma update_cache_lookup j join leave (c : group_cache) g m :
  c !! g = Some m -> NoDup (Members m) ->
  exists m', updateGroupParticipantCache j join leave c !! g = Some m' /\ NoDup (Members m') /\
    list_to_set (Members m') = change_set g (list_to_set (Members m)) (j, join, leave) /\
    m_AddressingMode m' = m_AddressingMode m /\ CommunityAnnouncementGroup m' = CommunityAnnouncementGroup m.
Proof.
  intros Hc Hnd.
  assert (updateGroupParticipantCache j join leave c !! g =
    Some (if decide (j = g) then mkMeta (m_AddressingMode m) (CommunityAnnouncementGroup m) (update_members join leave (Members m)) else m)) as E.
  { assert (forall c', c' = match c !! j with None => c
      | Some m => <[j := mkMeta (m_AddressingMode m) (CommunityAnnouncementGroup m) (update_members join leave (Members m))]> c end ->
      c' !! g = Some (if decide (j = g) then mkMeta (m_AddressingMode m) (CommunityAnnouncementGroup m) (update_members join leave (Members m)) else m)) as H.
    { intros c' ->. destruct (decide (j = g)) as [->|Hj].
      - rewrite Hc. by rewrite lookup_insert_eq.
      - destruct (c !! j); [by rewrite lookup_insert_ne|done]. }
    unfold updateGroupParticipantCache. destruct join as [|a join], leave as [|b leave]; try by apply H.
    rewrite Hc. destruct (decide (j = g)); [|done]. by destruct m. }
  rewrite E. eexists. split; [reflexivity|]. unfold change_set. destruct (decide (j = g)); [|done].
  destruct (update_members_spec join leave (Members m) Hnd) as [H1 H2]. done.
Qed.

(** (C24) The cached members of a group are, after any sequence of notifications
    about any groups, the set that the joins and leaves make of the first one,
    each member once; the other cached data of the group stays. *)
Theorem members_refine (c : group_cache) g m ops :
  c !! g = Some m -> NoDup (Members m) ->
  exists m', run_changes c ops !! g = Some m' /\ NoDup (Members m') /\
    list_to_set (Members m') = foldl (change_set g) (list_to_set (Members m)) ops /\
    m_AddressingMode m' = m_AddressingMode m /\ CommunityAnnouncementGroup m' = CommunityAnnouncementGroup m.
Proof.
  revert c m. induction ops as [|[[j join] leave] ops IH]; intros c m Hc Hnd; cbn [run_changes foldl].
  { exists m. auto. }
  destruct (update_cache_lookup j join leave c g m Hc Hnd) as (m1 & H1 & Hnd1 & Hs1 & Ha1 & Hb1).
  destruct (IH _ m1 H1 Hnd1) as (m2 & H2 & Hnd2 & Hs2 & Ha2 & Hb2).
  exists m2. unfold run_changes in H2. rewrite <- Hs1. split; [exact H2|]. split; [done|]. split; [done|]. split; congruence.
Qed.

(** Of two lists of participants in one notification only the last gives its
    pairs of addresses to the LID map. *)
Theorem change_pairs_last node c1 c2 evt pairs :
  parseGroupChange node = Ok (evt, pairs) -> GetChildren node = [c1; c2] ->
  node_tag c2 ∈ ["add"; "remove"; "promote"; "demote"] ->
  pairs = snd (parseParticipantList c2).
Proof.
  unfold parseGroupChange. intros H Hc Ht.
  repeat match goal with H : context [let '(_, _) := ?p in _] |- _ => destruct p end.
  destruct (Error _); [done|]. rewrite Hc in H. cbn [change_children] in H.
  apply bind_inv in H as ([[ev1 pr1] au1] & _ & H). destruct (Error au1); [done|].
  apply bind_inv in H as ([[ev2 pr2] au2] & H2 & H). destruct (Error au2); [done|]. injection H as <- <-.
  unfold change_child in H2. destruct (parseParticipantList c2) as [ms ps].
  repeat (apply elem_of_cons in Ht as [Et|Ht]; [rewrite Et in H2; cbn in H2;
    repeat match goal with H : context [let '(_, _) := ?p in _] |- _ => destruct p end; simplify_eq; done|]).
  by apply elem_of_nil in Ht.
Qed.

(** ** Use at concrete inputs *)

Definition g1 : JID := NewJID "120363" GroupServer.
Definition ann : JID := NewJID "1001" HiddenUserServer.
Definition bob : JID := NewJID "1002" HiddenUserServer.
Definition cat : JID := NewJID "1003" HiddenUserServer.

Lemma members_refine_witness : exists m',
  run_changes {[g1 := mkMeta "lid" false [ann; bob]]} [(g1, [cat; bob], []); (g1, [], [ann])] !! g1 = Some m' /\
  (list_to_set (Members m') : gset JID) = ({[ann; bob]} ∪ {[cat; bob]}) ∖ {[ann]}.
Proof.
  destruct (members_refine {[g1 := mkMeta "lid" false [ann; bob]]} g1 (mkMeta "lid" false [ann; bob])
    [(g1, [cat; bob], []); (g1, [], [ann])]) as (m' & H & _ & Hs & _).
  - reflexivity.
  - cbn [Members]. apply (bool_decide_unpack _). vm_compute. exact I.
  - exists m'. split; [exact H|]. rewrite Hs. apply (bool_decide_unpack _). vm_compute. exact I.
Defined.

Definition two_changes : Node :=
  mkNode "notification" [("from", AJID g1); ("t", AString "1700000000")]
    (ANodes [mkNode "add" [] (ANodes [mkNode "participant" [("jid", AJID ann); ("phone_number", AJID (NewJID "155512" DefaultUserServer))] ANil]);
             mkNode "remove" [] (ANodes [mkNode "participant" [("jid", AJID bob)] ANil])]).

(** The phone number of the one added is lost. *)
Lemma change_pairs_last_witness : exists evt,
  parseGroupChange two_changes = Ok (evt, []) /\ Join evt = [ann] /\
  snd (parseParticipantList (mkNode "add" [] (ANodes [mkNode "participant"
    [("jid", AJID ann); ("phone_number", AJID (NewJID "155512" DefaultUserServer))] ANil]))) <> [].
Proof.
  destruct (parseGroupChange two_changes) as [[evt pairs]| | |] eqn:E; try (vm_compute in E; discriminate E).
  exists evt. assert (pairs = []) as ->.
  { rewrite (change_pairs_last two_changes _ _ evt pairs E eq_refl); [reflexivity|]. cbn. right. left. }
  split; [done|]. split; [by vm_compute in E; injection E as <-|]. vm_compute. discriminate.
Defined.

End group.
