(* ===== verification/Contacts.v ===== *)
(** * store/sqlstore/store.go: contacts and chat settings

    [contacts]: the table of names with the cache in front of it, which agrees
    with the table after any sequence of operations, failing ones included.
    [chatsettings]: muting, pinning and archiving. *)

From S2P Require Import Prelude GoStrings StateErr Jid Node Sql.

#[local] Open Scope string_scope.
#[local] Open Scope list_scope.
#[local] Open Scope Z_scope.

(** [slices.Chunk] for a positive size. *)
Fixpoint chunks_of {A} (fuel n : nat) (l : list A) : list (list A) :=
  match fuel, l with
  | O, _ | _, [] => []
  | Datatypes.S fuel', _ => take n l :: chunks_of fuel' n (drop n l)
  end.

Definition chunk {A} (n : nat) (l : list A) : list (list A) := chunks_of (length l) n l.

Lemma concat_chunks {A} fuel n (l : list A) : (0 < n)%nat -> (length l <= fuel)%nat -> concat (chunks_of fuel n l) = l.
Proof.
  intros Hn. revert l. induction fuel as [|fuel IH]; intros [|a l] Hl; cbn [chunks_of concat]; try done; [cbn in Hl; lia|].
  rewrite IH; [apply take_drop|]. rewrite length_drop. cbn in Hl |- *. lia.
Qed.

Lemma concat_chunk {A} n (l : list A) : (0 < n)%nat -> concat (chunk n l) = l.
Proof. intros Hn. by apply concat_chunks. Qed.

Module contacts.

Import jid sql.

(** A row; a NULL column is read as the empty string. *)
Record contact := mkContact {
  FirstName : string;
  FullName : string;
  PushName : string;
  BusinessName : string;
  RedactedPhone : string
}.

Definition no_names : contact := mkContact "" "" "" "" "".

Record ContactInfo := mkInfo { Found : bool; names : contact }.

Abbreviation contact_cache := (gmap JID ContactInfo).
Notation ct A := (stm (db (gmap string contact) contact_cache) sql_error A).
Abbreviation contact_store := (db (gmap string contact) contact_cache).

(** The column a JID is written to; the empty JID is NULL, which no row has. *)
Definition column (j : JID) : option string := match Value j with SqlString s => Some s | _ => None end.

(** [INSERT ... ON CONFLICT DO UPDATE]. *)
Definition upsert (j : JID) (f : contact -> contact) (t : gmap string contact) : option (gmap string contact) :=
  k ← column j; Some (<[k := f (default no_names (t !! k))]> t).

Definition set_push (n : string) (c : contact) := mkContact (FirstName c) (FullName c) n (BusinessName c) (RedactedPhone c).
Definition set_business (n : string) (c : contact) := mkContact (FirstName c) (FullName c) (PushName c) n (RedactedPhone c).
Definition set_name (first full : string) (c : contact) := mkContact first full (PushName c) (BusinessName c) (RedactedPhone c).
Definition set_redacted (p : string) (c : contact) := mkContact (FirstName c) (FullName c) (PushName c) (BusinessName c) p.

(** What the table says of a contact. *)
Definition read_row (t : gmap string contact) (j : JID) : ContactInfo :=
  match column j with
  | Some k => match t !! k with Some c => mkInfo true c | None => mkInfo false no_names end
  | None => mkInfo false no_names
  end.

Definition getContact (user : JID) : ct ContactInfo :=
  cache ← get_mem;
  match cache !! user with
  | Some info => mret info
  | None =>
      info ← query (fun t => read_row t user);
      cache ← get_mem;
      put_mem (<[user := info]> cache);;
      mret info
  end.

(** The names as the operation leaves them, in the row and in the cached info. *)
Definition write_contact (user : JID) (cached : ContactInfo) (f : contact -> contact) : ct unit :=
  exec (upsert user f);;
  cache ← get_mem;
  put_mem (<[user := mkInfo true (f (names cached))]> cache).

Definition PutPushName (user : JID) (pushName : string) : ct (bool * string) :=
  cached ← getContact user;
  if negb (String.eqb (PushName (names cached)) pushName) then
    write_contact user cached (set_push pushName);;
    mret (true, PushName (names cached))
  else mret (false, "").

Definition PutBusinessName (user : JID) (businessName : string) : ct (bool * string) :=
  cached ← getContact user;
  if negb (String.eqb (BusinessName (names cached)) businessName) then
    write_contact user cached (set_business businessName);;
    mret (true, BusinessName (names cached))
  else mret (false, "").

Definition PutContactName (user : JID) (firstName fullName : string) : ct unit :=
  cached ← getContact user;
  if negb (String.eqb (FirstName (names cached)) firstName) || negb (String.eqb (FullName (names cached)) fullName) then
    write_contact user cached (set_name firstName fullName)
  else mret tt.

Record ContactEntry := mkEntry { e_JID : JID; e_FirstName : string; e_FullName : string }.
Record RedactedPhoneEntry := mkPhone { r_JID : JID; r_RedactedPhone : string }.

Definition contactBatchSize : nat := 300.

(** A row of a mass insert: the key is the text of the JID, whatever the JID. *)
Definition mass_row (key : string) (f : contact -> contact) (t : gmap string contact) : gmap string contact :=
  <[key := f (default no_names (t !! key))]> t.

Definition name_row (e : ContactEntry) := mass_row (String_ (e_JID e)) (set_name (e_FirstName e) (e_FullName e)).
Definition phone_row (e : RedactedPhoneEntry) := mass_row (String_ (r_JID e)) (set_redacted (r_RedactedPhone e)).

(** One statement per slice. *)
Fixpoint insert_slices {A} (row : A -> gmap string contact -> gmap string contact) (l : list (list A)) : ct unit :=
  match l with
  | [] => mret tt
  | slice :: l => exec (fun t => Some (foldl (fun t e => row e t) t slice));; insert_slices row l
  end.

Section many.
(** exslices.DeduplicateUnsortedOverwriteFunc by the JID. *)
Context (dedup : forall A, (A -> JID) -> list A -> list A).

Definition PutAllContactNames (entries : list ContactEntry) : ct unit :=
  match entries with
  | [] => mret tt
  | _ =>
      DoTxn (insert_slices name_row (chunk contactBatchSize (dedup ContactEntry e_JID entries)));;
      put_mem ∅
  end.

(** An entry that differs from the cached contact leaves the cache. *)
Definition drop_entry (cache : contact_cache) (e : RedactedPhoneEntry) : contact_cache :=
  match cache !! r_JID e with
  | Some cached =>
      if String.eqb (RedactedPhone (names cached)) (r_RedactedPhone e) then cache else delete (r_JID e) cache
  | None => delete (r_JID e) cache
  end.

Definition PutManyRedactedPhones (entries : list RedactedPhoneEntry) : ct unit :=
  match entries with
  | [] => mret tt
  | _ =>
      let entries := dedup RedactedPhoneEntry r_JID entries in
      DoTxn (insert_slices phone_row (chunk contactBatchSize entries));;
      cache ← get_mem;
      put_mem (foldl drop_entry cache entries)
  end.
End many.

Definition GetContact (user : JID) : ct ContactInfo := getContact user.

(** The rows before one that does not parse are cached and put out. *)
Fixpoint scan_rows (rs : list (string * contact)) (cache output : contact_cache) :
    contact_cache * outcome sql_error contact_cache :=
  match rs with
  | [] => (cache, Ok output)
  | (k, c) :: rs =>
      match Scan EmptyJID (SqlString k) with
      | Ok j => scan_rows rs (<[j := mkInfo true c]> cache) (<[j := mkInfo true c]> output)
      | _ => (cache, Err ErrBadRow)
      end
  end.

Definition GetAllContacts : ct contact_cache :=
  rs ← query (fun t => map_to_list t);
  cache ← get_mem;
  let '(cache, r) := scan_rows rs cache ∅ in
  put_mem cache;;
  lift r.

(** ** The cache agrees with the table *)

(** JIDs that their text gives back: all the code uses. *)
Definition good (j : JID) : Prop := jid_ok j /\ expressible j = true.

Lemma good_column j : good j -> column j = Some (String_ j).
Proof.
  intros [_ He]. apply expressible_spec in He as (_ & _ & _ & _ & Hs & _). unfold column, Value.
  destruct j as [u a d i s]. cbn in *. by destruct s.
Qed.

Lemma parse_good j : good j -> ParseJID (String_ j) = Ok j.
Proof. intros [H1 H2]. by apply parse_expressible. Qed.

Lemma good_inj j j' : good j -> good j' -> String_ j = String_ j' -> j = j'.
Proof. intros H H' E. apply parse_good in H, H'. congruence. Qed.

Record coherent (s : contact_store) : Prop := {
  coh_keys k : is_Some (rows s !! k) -> exists j, good j /\ k = String_ j;
  coh_cache j info : mem s !! j = Some info -> good j /\ info = read_row (rows s) j
}.

Lemma read_row_good t j : good j ->
  read_row t j = match t !! String_ j with Some c => mkInfo true c | None => mkInfo false no_names end.
Proof. intros H. unfold read_row. by rewrite good_column. Qed.

Lemma read_other t j k c : good j -> String_ j <> k -> read_row (<[k := c]> t) j = read_row t j.
Proof. intros H Hk. rewrite !read_row_good by done. by rewrite lookup_insert_ne. Qed.

(** Faults aside, the parts of the state that matter. *)
Lemma coherent_same s s' : rows s' = rows s -> mem s' = mem s -> coherent s -> coherent s'.
Proof. intros Hr Hm [H1 H2]. split; rewrite ?Hr, ?Hm; auto. Qed.

Lemma query_inv {A} (q : gmap string contact -> A) (s s' : contact_store) o : query q s = (s', o) ->
  rows s' = rows s /\ mem s' = mem s /\ (o = Ok (q (rows s)) \/ o = Err ErrDatabase).
Proof.
  unfold query, mbind, stm_bind, get_state. destruct (statement s) as [s1 o1] eqn:E.
  apply statement_same in E as (H1 & H2 & [->| ->]); intros [= <- <-]; rewrite ?H1; auto.
Qed.

Lemma exec_inv f (s s' : contact_store) o : exec f s = (s', o) ->
  mem s' = mem s /\ ((o = Ok tt /\ f (rows s) = Some (rows s')) \/ (is_ok o = false /\ rows s' = rows s)).
Proof.
  unfold exec, mbind, stm_bind, get_state, put_state, throw. destruct (statement s) as [s1 o1] eqn:E.
  apply statement_same in E as (H1 & H2 & [->| ->]); [|intros [= <- <-]; auto].
  rewrite H1. destruct (f (rows s)) as [t|] eqn:Ef; intros [= <- <-]; auto.
Qed.

Lemma getContact_coherent user s s' o : good user -> coherent s -> getContact user s = (s', o) ->
  coherent s' /\ rows s' = rows s /\
  ((exists info, o = Ok info /\ info = read_row (rows s) user /\ mem s' !! user = Some info) \/ is_ok o = false).
Proof.
  intros Hg Hc. unfold getContact. rewrite (stm_bind_ok _ _ s s (mem s)) by done.
  destruct (mem s !! user) as [info|] eqn:E.
  { intros [= <- <-]. split; [done|]. split; [done|]. left. exists info. split; [done|]. by destruct (coh_cache _ Hc _ _ E) as [_ E']. }
  unfold mbind, stm_bind. destruct (query (fun t => read_row t user) s) as [s1 o1] eqn:Eq.
  apply query_inv in Eq as (Hr & Hm & [->| ->]).
  2: { intros [= <- <-]. split; [by apply (coherent_same s)|by auto]. }
  cbn. intros [= <- <-]. cbn [rows mem set_mem]. rewrite Hm, Hr. split; [|split; [done|]].
  - destruct Hc as [H1 H2]. split; cbn [rows mem set_mem]; rewrite ?Hr; [done|].
    intros j info. destruct (decide (user = j)) as [<-|Hj].
    + rewrite lookup_insert_eq. by intros [= <-].
    + rewrite lookup_insert_ne by done. apply H2.
  - left. eexists. split; [done|]. split; [done|]. apply lookup_insert_eq.
Qed.

(** Writing a contact's row and its cached info together. *)
Lemma write_contact_coherent user cached f s s' o :
  good user -> coherent s -> cached = read_row (rows s) user -> write_contact user cached f s = (s', o) -> coherent s'.
Proof.
  intros Hg Hc -> H. unfold write_contact, mbind, stm_bind in H.
  destruct (exec (upsert user f) s) as [s1 o1] eqn:E. apply exec_inv in E as [Hm [[-> Hf]|[Ho Hr]]].
  - unfold upsert in Hf. rewrite (good_column _ Hg) in Hf. cbn [mbind option_bind] in Hf. injection Hf as Hf.
    cbn in H. injection H as <- <-. destruct Hc as [H1 H2]. split; cbn [rows mem set_mem]; rewrite <- Hf.
    + intros k. destruct (decide (String_ user = k)) as [<-|Hk]; [eauto|]. rewrite lookup_insert_ne by done. apply H1.
    + intros j info. rewrite Hm. destruct (decide (user = j)) as [<-|Hj].
      * rewrite lookup_insert_eq. intros [= <-]. split; [done|]. rewrite !read_row_good by done. rewrite lookup_insert_eq.
        by destruct (rows s !! String_ user).
      * rewrite lookup_insert_ne by done. intros Hi. apply H2 in Hi as [Hgj ->]. split; [done|]. symmetry.
        apply read_other; [done|]. intros E. by apply Hj, good_inj.
  - destruct o1; try discriminate; injection H as <- _; by apply (coherent_same s).
Qed.

Lemma insert_slices_inv {A} row (l : list (list A)) s s' o : insert_slices row l s = (s', o) ->
  mem s' = mem s /\ (o = Ok tt -> rows s' = foldl (fun t e => row e t) (rows s) (concat l)).
Proof.
  revert s. induction l as [|slice l IH]; intros s; cbn [insert_slices concat].
  { intros [= <- <-]. done. }
  unfold mbind, stm_bind. destruct (exec _ s) as [s1 o1] eqn:E. apply exec_inv in E as [Hm [[-> Hf]|[Ho Hr]]].
  - intros H. apply IH in H as [H1 H2]. split; [congruence|]. intros Eo. rewrite (H2 Eo), foldl_app.
    by injection Hf as ->.
  - destruct o1; try discriminate; intros [= <- <-]; done.
Qed.

Lemma DoTxn_inv {A} row (l : list (list A)) s s' o : DoTxn (insert_slices row l) s = (s', o) ->
  mem s' = mem s /\ ((o = Ok tt /\ rows s' = foldl (fun t e => row e t) (rows s) (concat l)) \/ (is_ok o = false /\ rows s' = rows s)).
Proof.
  intros H. destruct (is_ok o) eqn:Eo.
  - unfold DoTxn in H. destruct (statement s) as [s1 o1] eqn:E1. apply statement_same in E1 as (R1 & M1 & [->| ->]).
    2: { injection H as <- <-. done. }
    destruct (insert_slices row l s1) as [s2 o2] eqn:E2. apply insert_slices_inv in E2 as [M2 R2].
    destruct o2 as [[]|e| |]; try by (injection H as <- <-).
    destruct (statement s2) as [s3 o3] eqn:E3. apply statement_same in E3 as (R3 & M3 & [->| ->]); [|by injection H as <- <-].
    injection H as <- <-. split; [congruence|]. left. split; [done|]. rewrite R3, R2 by done. by rewrite R1.
  - pose proof (DoTxn_atomic _ _ _ _ H Eo) as Hr.
    assert (keeps_mem (insert_slices row l)) as Hk by (intros x x' y Hx; by apply insert_slices_inv in Hx as [? _]).
    apply (keeps_mem_DoTxn _ Hk) in H. auto.
Qed.

(** Mass inserts of rows of good JIDs keep the keys good. *)
Lemma rows_keys {A} (key : A -> JID) (f : A -> contact -> contact) (l : list A) t :
  (forall k, is_Some (t !! k) -> exists j, good j /\ k = String_ j) -> Forall (fun e => good (key e)) l ->
  forall k, is_Some (foldl (fun t e => mass_row (String_ (key e)) (f e) t) t l !! k) -> exists j, good j /\ k = String_ j.
Proof.
  intros Ht Hl. revert t Ht. induction Hl as [|e l He _ IH]; intros t Ht; cbn [foldl]; [done|]. apply IH.
  intros k. unfold mass_row. destruct (decide (String_ (key e) = k)) as [<-|Hk]; [eauto|].
  rewrite lookup_insert_ne by done. apply Ht.
Qed.

(** A contact that no entry names keeps its row. *)
Lemma rows_other {A} (key : A -> JID) (f : A -> contact -> contact) (l : list A) t k :
  Forall (fun e => String_ (key e) <> k) l ->
  foldl (fun t e => mass_row (String_ (key e)) (f e) t) t l !! k = t !! k.
Proof.
  intros Hl. revert t. induction Hl as [|e l He _ IH]; intros t; cbn [foldl]; [done|]. rewrite IH. unfold mass_row.
  by rewrite lookup_insert_ne.
Qed.

(** A phone that every entry of a contact repeats changes nothing. *)
Lemma phones_same (l : list RedactedPhoneEntry) t j c :
  t !! String_ j = Some c -> Forall (fun e => String_ (r_JID e) = String_ j -> r_RedactedPhone e = RedactedPhone c) l ->
  foldl (fun t e => mass_row (String_ (r_JID e)) (set_redacted (r_RedactedPhone e)) t) t l !! String_ j = Some c.
Proof.
  intros Ht Hl. revert t Ht. induction Hl as [|e l He _ IH]; intros t Ht; cbn [foldl]; [done|]. apply IH. unfold mass_row.
  destruct (decide (String_ (r_JID e) = String_ j)) as [E|E]; [|by rewrite lookup_insert_ne].
  rewrite E, lookup_insert_eq, Ht. cbn [default]. rewrite He by done. by destruct c.
Qed.

Lemma drop_entry_spec l cache j info :
  foldl drop_entry cache l !! j = Some info ->
  cache !! j = Some info /\ Forall (fun e => r_JID e = j -> r_RedactedPhone e = RedactedPhone (names info)) l.
Proof.
  revert cache. induction l as [|e l IH]; intros cache; cbn [foldl]; [done|]. intros H. apply IH in H as [H1 H2].
  unfold drop_entry in H1. destruct (cache !! r_JID e) as [c|] eqn:E.
  - destruct (String.eqb_spec (RedactedPhone (names c)) (r_RedactedPhone e)) as [Ep|Ep].
    + split; [done|]. constructor; [|done]. intros Ej. rewrite <- Ej, E in H1. injection H1 as <-. done.
    + apply lookup_delete_Some in H1 as [Hne H1]. split; [done|]. by constructor.
  - apply lookup_delete_Some in H1 as [Hne H1]. split; [done|]. by constructor.
Qed.

Lemma scan_rows_cache rs cache output cache' r t :
  scan_rows rs cache output = (cache', r) ->
  Forall (fun x => t !! fst x = Some (snd x) /\ exists j, good j /\ fst x = String_ j) rs ->
  (forall j info, cache !! j = Some info -> good j /\ info = read_row t j) ->
  forall j info, cache' !! j = Some info -> good j /\ info = read_row t j.
Proof.
  revert cache output. induction rs as [|[k c] rs IH]; intros cache output; cbn [scan_rows].
  { by intros [= <- <-]. }
  intros H Hf Hc. apply Forall_cons in Hf as [[Hk (j & Hj & Ek)] Hf]. cbn [fst snd] in *. subst k.
  unfold Scan in H. rewrite (parse_good _ Hj) in H. cbn [map_err] in H.
  apply (IH _ _ H Hf). intros j' info. destruct (decide (j = j')) as [<-|Hne].
  - rewrite lookup_insert_eq. intros [= <-]. split; [done|]. by rewrite read_row_good, Hk.
  - rewrite lookup_insert_ne by done. apply Hc.
Qed.

Lemma write_if_coherent {A} user (test : contact -> bool) f (a b : contact -> A) s s' o :
  good user -> coherent s ->
  (cached ← getContact user;
   if test (names cached) then write_contact user cached f;; mret (a (names cached)) else mret (b (names cached))) s = (s', o) ->
  coherent s'.
Proof.
  intros Hg Hc. unfold mbind at 1, stm_bind at 1. destruct (getContact user s) as [s1 o1] eqn:E.
  destruct (getContact_coherent _ _ _ _ Hg Hc E) as (Hc1 & Hr & [(info & -> & Hi & _)|Ho]).
  2: { destruct o1; try discriminate; by intros [= <- _]. }
  destruct (test (names info)); [|by intros [= <- _]]. unfold mbind, stm_bind.
  destruct (write_contact user info f s1) as [s2 o2] eqn:E2. apply write_contact_coherent in E2; [|done|done|by rewrite Hr].
  destruct o2; by intros [= <- _].
Qed.

Lemma write_or_skip_coherent user (test : contact -> bool) f s s' o :
  good user -> coherent s ->
  (cached ← getContact user; if test (names cached) then write_contact user cached f else mret tt) s = (s', o) -> coherent s'.
Proof.
  intros Hg Hc. unfold mbind at 1, stm_bind at 1. destruct (getContact user s) as [s1 o1] eqn:E.
  destruct (getContact_coherent _ _ _ _ Hg Hc E) as (Hc1 & Hr & [(info & -> & Hi & _)|Ho]).
  2: { destruct o1; try discriminate; by intros [= <- _]. }
  destruct (test (names info)); [|by intros [= <- _]]. intros E2. apply write_contact_coherent in E2; [done|done|done|by rewrite Hr].
Qed.

Lemma GetAllContacts_coherent s s' o : coherent s -> GetAllContacts s = (s', o) -> coherent s'.
Proof.
  intros Hc. unfold GetAllContacts. unfold mbind at 1, stm_bind at 1.
  destruct (query (fun t => map_to_list t) s) as [s1 o1] eqn:E.
  apply query_inv in E as (Hr & Hm & [->| ->]); [|intros [= <- _]; by apply (coherent_same s)].
  rewrite (stm_bind_ok _ _ s1 s1 (mem s1)) by done.
  destruct (scan_rows (map_to_list (rows s)) (mem s1) ∅) as [cache r] eqn:Es.
  rewrite (stm_bind_ok _ _ s1 (set_mem cache s1) tt) by done.
  destruct Hc as [H1 H2]. pose proof (scan_rows_cache _ _ _ _ _ (rows s) Es) as Hs. intros [= <- _].
  split; cbn [rows mem set_mem]; rewrite Hr; [done|]. apply Hs; [|by rewrite Hm].
  apply Forall_forall. intros [k c] Hk%elem_of_map_to_list. split; [done|]. apply H1. by exists c.
Qed.

(** ** Sequences of operations *)

Inductive op :=
  | OpPushName (user : JID) (pushName : string)
  | OpBusinessName (user : JID) (businessName : string)
  | OpContactName (user : JID) (firstName fullName : string)
  | OpAllContactNames (entries : list ContactEntry)
  | OpManyRedactedPhones (entries : list RedactedPhoneEntry)
  | OpGetContact (user : JID)
  | OpGetAllContacts.

Definition op_ok (x : op) : Prop :=
  match x with
  | OpPushName u _ | OpBusinessName u _ | OpContactName u _ _ | OpGetContact u => good u
  | OpAllContactNames l => Forall (fun e => good (e_JID e)) l
  | OpManyRedactedPhones l => Forall (fun e => good (r_JID e) /\ r_RedactedPhone e <> "") l
  | OpGetAllContacts => True
  end.

Section runs.
Context (dedup : forall A, (A -> JID) -> list A -> list A).

Definition run_op (x : op) (s : contact_store) : contact_store :=
  match x with
  | OpPushName u n => fst (PutPushName u n s)
  | OpBusinessName u n => fst (PutBusinessName u n s)
  | OpContactName u f l => fst (PutContactName u f l s)
  | OpAllContactNames l => fst (PutAllContactNames dedup l s)
  | OpManyRedactedPhones l => fst (PutManyRedactedPhones dedup l s)
  | OpGetContact u => fst (GetContact u s)
  | OpGetAllContacts => fst (GetAllContacts s)
  end.

Definition run_ops (l : list op) (s : contact_store) : contact_store := foldl (fun s x => run_op x s) s l.

(** Deduplicating invents no entry. *)
Hypothesis dedup_from : forall A (key : A -> JID) l x, x ∈ dedup A key l -> x ∈ l.

Lemma Forall_dedup {A} (key : A -> JID) (P : A -> Prop) l : Forall P l -> Forall P (dedup A key l).
Proof. rewrite !Forall_forall. eauto. Qed.

Lemma PutAllContactNames_coherent l s s' o :
  Forall (fun e => good (e_JID e)) l -> coherent s -> PutAllContactNames dedup l s = (s', o) -> coherent s'.
Proof.
  intros Hl Hc. destruct l as [|e l']; [by intros [= <- _]|]. set (l := e :: l') in *. cbn beta iota delta [PutAllContactNames l].
  unfold mbind, stm_bind. destruct (DoTxn _ s) as [s1 o1] eqn:E. apply DoTxn_inv in E as (Hm & [[-> Hr]|[Ho Hr]]).
  - intros [= <- _]. split; cbn [rows mem set_mem]; [|intros j info; by rewrite lookup_empty].
    rewrite Hr, concat_chunk by (unfold contactBatchSize; lia).
    apply (rows_keys e_JID (fun e => set_name (e_FirstName e) (e_FullName e))); [apply Hc|].
    by apply (Forall_dedup e_JID).
  - destruct o1; try discriminate; intros [= <- _]; by apply (coherent_same s).
Qed.

Lemma PutManyRedactedPhones_coherent l s s' o :
  Forall (fun e => good (r_JID e) /\ r_RedactedPhone e <> "") l -> coherent s ->
  PutManyRedactedPhones dedup l s = (s', o) -> coherent s'.
Proof.
  intros Hl Hc. destruct l as [|e l']; [by intros [= <- _]|]. set (l := e :: l') in *.
  cbn beta iota zeta delta [PutManyRedactedPhones l]. fold l. apply (Forall_dedup r_JID) in Hl.
  unfold mbind, stm_bind. destruct (DoTxn _ s) as [s1 o1] eqn:E. apply DoTxn_inv in E as (Hm & [[-> Hr]|[Ho Hr]]).
  - rewrite concat_chunk in Hr by (unfold contactBatchSize; lia). cbn. rewrite Hm. intros [= <- _].
    destruct Hc as [H1 H2]. split; cbn [rows mem set_mem]; rewrite Hr.
    + apply (rows_keys r_JID (fun e => set_redacted (r_RedactedPhone e))); [done|]. eapply Forall_impl; [apply Hl|]. by intros ? [? _].
    + intros j info Hi. apply drop_entry_spec in Hi as [Hi Hp]. apply H2 in Hi as [Hg ->]. split; [done|].
      rewrite !read_row_good by done. rewrite read_row_good in Hp by done.
      destruct (rows s !! String_ j) as [c|] eqn:Ec.
      * unfold phone_row. rewrite (phones_same _ _ j c); [done|done|].
        apply Forall_forall. intros x Hx Ej. rewrite Forall_forall in Hp, Hl. apply (Hp x Hx).
        apply good_inj; [apply (Hl x Hx)|done|done].
      * unfold phone_row. rewrite (rows_other r_JID (fun e => set_redacted (r_RedactedPhone e))), Ec; [done|].
        apply Forall_forall. intros x Hx Ej. rewrite Forall_forall in Hp, Hl. destruct (Hl x Hx) as [Hgx Hne].
        apply Hne, (Hp x Hx). by apply good_inj.
  - destruct o1; try discriminate; intros [= <- _]; by apply (coherent_same s).
Qed.

Lemma contact_op_coherent x s : op_ok x -> coherent s -> coherent (run_op x s).
Proof.
  intros Hx Hc. destruct x; cbn [op_ok run_op] in *;
    match goal with |- coherent (fst ?e) => destruct e as [s' o] eqn:E end; cbn [fst].
  - by apply (write_if_coherent user (fun c => negb (String.eqb (PushName c) pushName)) (set_push pushName)
      (fun c => (true, PushName c)) (fun _ => (false, "")) s s' o).
  - by apply (write_if_coherent user (fun c => negb (String.eqb (BusinessName c) businessName)) (set_business businessName)
      (fun c => (true, BusinessName c)) (fun _ => (false, "")) s s' o).
  - by apply (write_or_skip_coherent user (fun c => negb (String.eqb (FirstName c) firstName) || negb (String.eqb (FullName c) fullName))
      (set_name firstName fullName) s s' o).
  - by eapply PutAllContactNames_coherent.
  - by eapply PutManyRedactedPhones_coherent.
  - by apply (getContact_coherent _ _ _ _ Hx Hc E).
  - by eapply GetAllContacts_coherent.
Qed.

(** After any sequence of operations, failing ones included, every cached
    contact is what its row in the table says, so that reading a contact gives
    what the table holds; redacted phones are not empty. *)
Theorem contacts_coherent ops s : Forall op_ok ops -> coherent s ->
  coherent (run_ops ops s) /\
  forall user s' info, good user -> GetContact user (run_ops ops s) = (s', Ok info) ->
    info = read_row (rows (run_ops ops s)) user.
Proof.
  intros Ho Hc. assert (coherent (run_ops ops s)) as Hr.
  { revert s Hc. induction Ho as [|x ops Hx _ IH]; intros s Hc; [done|]. by apply IH, contact_op_coherent. }
  split; [done|]. intros user s' info Hg H. destruct (getContact_coherent _ _ _ _ Hg Hr H) as (_ & _ & [(i & [= ->] & -> & _)|?]); done.
Qed.

End runs.

End contacts.

Module chatsettings.

Import attrs jid sql contacts.

(** A time.Time as PutMutedUntil sees it: the value store.MutedForever, or any other. *)
Inductive mute_time := MutedForever | Until (t : gotime).

Record settings_row := mkRow { muted_until : Z; pinned : bool; archived : bool }.

(** The column defaults. *)
Definition new_row : settings_row := mkRow 0 false false.

Record LocalChatSettings := mkSettings { Found : bool; MutedUntil : mute_time; Pinned : bool; Archived : bool }.

Notation cs A := (stm (db (gmap string settings_row) unit) sql_error A).

Definition putChatSetting (chat : JID) (f : settings_row -> settings_row) : cs unit :=
  exec (fun t => k ← column chat; Some (<[k := f (default new_row (t !! k))]> t)).

Definition mute_column (t : mute_time) : Z :=
  match t with
  | MutedForever => -1
  | Until ZeroTime => 0
  | Until (UnixNano ns) => ns / 10 ^ 9
  end.

Definition PutMutedUntil (chat : JID) (mutedUntil : mute_time) : cs unit :=
  putChatSetting chat (fun r => mkRow (mute_column mutedUntil) (pinned r) (archived r)).

Definition PutPinned (chat : JID) (b : bool) : cs unit :=
  putChatSetting chat (fun r => mkRow (muted_until r) b (archived r)).

Definition PutArchived (chat : JID) (b : bool) : cs unit :=
  putChatSetting chat (fun r => mkRow (muted_until r) (pinned r) b).

Definition mute_value (z : Z) : mute_time :=
  if z <? 0 then MutedForever
  else if 0 <? z then Until (UnixNano (z * 10 ^ 9))
  else Until ZeroTime.

Definition GetChatSettings (chat : JID) : cs LocalChatSettings :=
  row ← query (fun t => k ← column chat; t !! k);
  match row with
  | None => mret (mkSettings false (Until ZeroTime) false false)
  | Some r => mret (mkSettings true (mute_value (muted_until r)) (pinned r) (archived r))
  end.

(** ** What is read back *)

(** A time after 1970 loses its fraction of a second; one before it is forever. *)
Definition read_back (t : mute_time) : mute_time :=
  match t with
  | Until (UnixNano ns) =>
      if ns <? 0 then MutedForever
      else if ns <? 10 ^ 9 then Until ZeroTime
      else Until (UnixNano (ns / 10 ^ 9 * 10 ^ 9))
  | _ => t
  end.

Lemma mute_back t : mute_value (mute_column t) = read_back t.
Proof.
  destruct t as [|[|ns]]; [done..|]. cbn [mute_column read_back]. unfold mute_value.
  destruct (Z.ltb_spec ns 0).
  - by destruct (Z.ltb_spec (ns / 10 ^ 9) 0); [|Z.to_euclidean_division_equations; lia].
  - destruct (Z.ltb_spec (ns / 10 ^ 9) 0); [Z.to_euclidean_division_equations; lia|].
    destruct (Z.ltb_spec ns (10 ^ 9)), (Z.ltb_spec 0 (ns / 10 ^ 9)); try done;
      Z.to_euclidean_division_equations; lia.
Qed.

Inductive setting := SetMuted (t : mute_time) | SetPinned (b : bool) | SetArchived (b : bool).

Definition put (chat : JID) (x : setting) : cs unit :=
  match x with
  | SetMuted t => PutMutedUntil chat t
  | SetPinned b => PutPinned chat b
  | SetArchived b => PutArchived chat b
  end.

Fixpoint puts (l : list (JID * setting)) : cs unit :=
  match l with
  | [] => mret tt
  | (chat, x) :: l => put chat x;; puts l
  end.

(** The settings of a chat as the writes leave them. *)
Definition apply_setting (s : LocalChatSettings) (x : setting) : LocalChatSettings :=
  match x with
  | SetMuted t => mkSettings true (read_back t) (Pinned s) (Archived s)
  | SetPinned b => mkSettings true (MutedUntil s) b (Archived s)
  | SetArchived b => mkSettings true (MutedUntil s) (Pinned s) b
  end.

Definition no_settings : LocalChatSettings := mkSettings false (Until ZeroTime) false false.

Definition settings_of (t : gmap string settings_row) (chat : JID) : LocalChatSettings :=
  match t !! String_ chat with
  | None => no_settings
  | Some r => mkSettings true (mute_value (muted_until r)) (pinned r) (archived r)
  end.

Definition setting_fun (x : setting) (r : settings_row) : settings_row :=
  match x with
  | SetMuted t => mkRow (mute_column t) (pinned r) (archived r)
  | SetPinned b => mkRow (muted_until r) b (archived r)
  | SetArchived b => mkRow (muted_until r) (pinned r) b
  end.

Lemma put_ok chat x s : good chat -> works s ->
  put chat x s = (set_rows (<[String_ chat := setting_fun x (default new_row (rows s !! String_ chat))]> (rows s)) s, Ok tt).
Proof.
  intros Hg Hw. destruct x; cbn [put]; unfold PutMutedUntil, PutPinned, PutArchived, putChatSetting;
    (apply exec_works; [done|]); rewrite (good_column _ Hg); done.
Qed.

Lemma settings_put t chat chat' x : good chat -> good chat' ->
  settings_of (<[String_ chat := setting_fun x (default new_row (t !! String_ chat))]> t) chat' =
  if decide (chat = chat') then apply_setting (settings_of t chat') x else settings_of t chat'.
Proof.
  intros Hg Hg'. unfold settings_of. destruct (decide (chat = chat')) as [<-|Hne].
  - rewrite lookup_insert_eq. destruct (t !! String_ chat) as [r|], x; cbn -[mute_value mute_column]; by rewrite ?mute_back.
  - rewrite lookup_insert_ne; [done|]. intros E. by apply Hne, good_inj.
Qed.

(** After any writes to a working database the settings read for a chat are
    the last of each kind written to that chat, a mute time rounded down to the
    second; times before 1970 read as muted for ever and those in the first
    second of 1970 as not muted. *)
Theorem chat_settings_last (l : list (JID * setting)) chat s : Forall (fun w => good (fst w)) l -> good chat -> works s ->
  exists s', puts l s = (s', Ok tt) /\ GetChatSettings chat s' =
    (s', Ok (foldl apply_setting (settings_of (rows s) chat) (omap (fun w => if decide (fst w = chat) then Some (snd w) else None) l))).
Proof.
  intros Hl Hg. revert s. induction Hl as [|[c x] l Hc _ IH]; intros s Hw; cbn [puts omap list_omap fst snd] in *.
  - exists s. split; [done|]. unfold GetChatSettings. erewrite stm_bind_ok by (by apply query_works).
    rewrite (good_column _ Hg). cbn [mbind option_bind foldl]. unfold settings_of. by destruct (rows s !! String_ chat).
  - pose proof (put_ok c x s Hc Hw) as Hp.
    destruct (IH (set_rows (<[String_ c := setting_fun x (default new_row (rows s !! String_ c))]> (rows s)) s)) as (s' & H1 & H2);
      [exact Hw|]. exists s'. split; [by rewrite (stm_bind_ok _ _ _ _ _ Hp)|]. rewrite H2. cbn [rows set_rows].
    rewrite settings_put by done. by destruct (decide (c = chat)).
Qed.

End chatsettings.

Module contact_samples.

Import attrs jid sql contacts chatsettings.

Definition alice : JID := mkJID "15551234567" 0 0 0 DefaultUserServer.
Definition bob : JID := mkJID "200" 0 0 0 HiddenUserServer.

(** A later entry of a JID replaces the earlier ones. *)
Definition keep_last (A : Type) (key : A -> JID) (l : list A) : list A :=
  foldr (fun x acc => if existsb (fun y => bool_decide (key y = key x)) acc then acc else x :: acc) [] l.

Lemma keep_last_from (A : Type) (key : A -> JID) l x : x ∈ keep_last A key l -> x ∈ l.
Proof.
  induction l as [|a l IH]; cbn [keep_last foldr]; [done|]. case_match; intros Hx.
  - right. by apply IH.
  - apply elem_of_cons in Hx as [->|Hx]; [by left|]. right. by apply IH.
Qed.

Lemma good_alice : good alice.
Proof. split; [done|reflexivity]. Qed.

Lemma good_bob : good bob.
Proof. split; [done|reflexivity]. Qed.

(** Rows and a cache to start from, and a database that fails twice. *)
Definition start : contact_store :=
  mkDb {["200@lid" := mkContact "" "" "Bob" "" ""]} ∅ [false; false; false; true; false; false; false; true].

Definition sample_ops : list op :=
  [OpPushName alice "Al"; OpPushName bob "Bobby"; OpAllContactNames [mkEntry alice "A" "A B"; mkEntry alice "Al" "A C"];
   OpManyRedactedPhones [mkPhone bob "+1xx"]; OpGetAllContacts; OpBusinessName bob "Shop"; OpGetContact alice].

Lemma sample_ok : Forall op_ok sample_ops.
Proof. repeat apply Forall_cons_2; try apply Forall_nil_2; cbn; auto using Forall_cons_2, Forall_nil_2, good_alice, good_bob. Qed.

Lemma start_coherent : coherent start.
Proof.
  split; cbn.
  - intros k [c [<- _]%lookup_singleton_Some]. exists bob. split; [apply good_bob|done].
  - intros j info. by rewrite lookup_empty.
Qed.

Lemma contacts_coherent_witness :
  coherent (run_ops keep_last sample_ops start) /\
  bool_decide (rows (run_ops keep_last sample_ops start) !! "15551234567@s.whatsapp.net" <> None) = true.
Proof.
  split; [|vm_compute; reflexivity].
  apply (contacts_coherent keep_last keep_last_from sample_ops start sample_ok start_coherent).
Defined.

Lemma chat_settings_last_witness :
  exists s', puts [(alice, SetMuted (Until (UnixNano 1500000000))); (bob, SetPinned true); (alice, SetArchived true)] (mkDb ∅ tt []) = (s', Ok tt) /\
    GetChatSettings alice s' = (s', Ok (mkSettings true (Until (UnixNano 1000000000)) false true)).
Proof.
  destruct (chat_settings_last [(alice, SetMuted (Until (UnixNano 1500000000))); (bob, SetPinned true); (alice, SetArchived true)]
    alice (mkDb ∅ tt [])) as (s' & H1 & H2); [|apply good_alice|reflexivity|].
  - repeat apply Forall_cons_2; try apply Forall_nil_2; cbn; auto using good_alice, good_bob.
  - exists s'. split; [exact H1|]. rewrite H2. by do 2 f_equal.
Defined.

End contact_samples.
