(* ===== verification/TCToken.v ===== *)
(** * tctoken.go and its table in store/sqlstore/store.go

    [privacytokens]: the tokens contacts have sent, one row per contact, and the
    salt for those who have sent none. [tctoken]: which of them are still good,
    when the account issues its own, and the times it last did. Clock readings
    are arguments. *)

From stdpp Require Import sorting.
From Stdlib Require Import Sorting.Sorted.
From S2P Require Import Prelude GoStrings StateErr Jid Node Sql MsgSecret.

#[local] Open Scope string_scope.
#[local] Open Scope list_scope.
#[local] Open Scope Z_scope.

(** Seconds of a time, and whole seconds as a time. *)
Definition Unix (t : attrs.gotime) : Z :=
  match t with attrs.ZeroTime => -62135596800 | attrs.UnixNano ns => ns / 10 ^ 9 end.

Definition time_Unix (s : Z) : attrs.gotime := attrs.UnixNano (s * 10 ^ 9).

Definition nanos (t : attrs.gotime) : Z :=
  match t with attrs.ZeroTime => -62135596800 * 10 ^ 9 | attrs.UnixNano ns => ns end.

Definition time_IsZero (t : attrs.gotime) : bool := match t with attrs.ZeroTime => true | _ => false end.

Definition Before (t u : attrs.gotime) : bool := nanos t <? nanos u.

(** [t.Sub(u)], which saturates at the ends of an int64. *)
Definition Sub (t u : attrs.gotime) : Z := Z.max (- 2 ^ 63) (Z.min (2 ^ 63 - 1) (nanos t - nanos u)).

Lemma Unix_time_Unix s : Unix (time_Unix s) = s.
Proof. unfold Unix, time_Unix. by rewrite Z.div_mul by lia. Qed.

Module privacytokens.

Import attrs jid sql msgsecrets.

Record PrivacyToken := mkToken { User : JID; Token : bytes; Timestamp : gotime; SenderTimestamp : gotime }.

(** A row; [None]: the sender timestamp is NULL. *)
Record token_row := mkRow { token : bytes; timestamp : Z; sender_timestamp : option Z }.

Record token_tables := mkTables { tokens : gmap string token_row; nct_salt : option bytes; lids : gmap string string }.

Notation pt A := (stm (db token_tables unit) sql_error A).

Definition set_tokens (m : gmap string token_row) (t : token_tables) := mkTables m (nct_salt t) (lids t).
Definition set_salt (s : option bytes) (t : token_tables) := mkTables (tokens t) s (lids t).

Definition new_row (x : PrivacyToken) : token_row :=
  mkRow (Token x) (Unix (Timestamp x)) (if time_IsZero (SenderTimestamp x) then None else Some (Unix (SenderTimestamp x))).

(** ON CONFLICT DO UPDATE ... WHERE the new timestamp is not older. *)
Definition upsert_row (old : option token_row) (new : token_row) : token_row :=
  match old with
  | None => new
  | Some old =>
      if timestamp old <=? timestamp new then
        mkRow (token new) (timestamp new)
          (match sender_timestamp new with Some t => Some t | None => sender_timestamp old end)
      else old
  end.

Definition put_token (m : gmap string token_row) (x : PrivacyToken) : gmap string token_row :=
  let k := String_ (ToNonAD (User x)) in <[k := upsert_row (m !! k) (new_row x)]> m.

(** No token leaves VALUES without rows, which is no SQL. *)
Definition PutPrivacyTokens (l : list PrivacyToken) : pt unit :=
  match l with
  | [] => statement;; throw ErrDatabase
  | _ => exec (fun t => Some (set_tokens (foldl put_token (tokens t) l) t))
  end.

(** The column values WHERE matches; ELSE is the JID itself. *)
Definition candidates (m : gmap string string) (j : string) : list string :=
  j :: match other_mode m j with Some o => [o] | None => [] end.

(** ORDER BY timestamp DESC LIMIT 1; [own]: which of two rows of the same time comes first. *)
Definition newest (own : bool) (l : list token_row) : option token_row :=
  match l with
  | [] => None
  | [r] => Some r
  | r :: r' :: _ =>
      Some (if (timestamp r' <? timestamp r) || (own && (timestamp r' =? timestamp r)) then r else r')
  end.

Definition find_token (own : bool) (t : token_tables) (j : JID) : option token_row :=
  k ← param j; newest own (omap (fun c => tokens t !! c) (candidates (lids t) k)).

Definition read_token (user : JID) (r : token_row) : PrivacyToken :=
  mkToken user (token r) (time_Unix (timestamp r)) (match sender_timestamp r with Some t => time_Unix t | None => ZeroTime end).

Definition GetPrivacyToken (own : bool) (user : JID) : pt (option PrivacyToken) :=
  r ← query (fun t => find_token own t user);
  mret (read_token (ToNonAD user) <$> r).

Definition PutNCTSalt (salt : bytes) : pt unit := exec (fun t => Some (set_salt (Some salt) t)).
Definition GetNCTSalt : pt (option bytes) := query nct_salt.
Definition DeleteNCTSalt : pt unit := exec (fun t => Some (set_salt None t)).

Definition live (cutoff : gotime) (x : string * token_row) : Prop := Unix cutoff <= timestamp (snd x).

#[export] Instance live_dec c x : Decision (live c x).
Proof. unfold live. apply _. Defined.

(** The count of deleted rows is put out. *)
Definition DeleteExpiredPrivacyTokens (cutoff : gotime) : pt nat :=
  n ← query (fun t => size (filter (fun x => ~ live cutoff x) (tokens t)));
  exec (fun t => Some (set_tokens (filter (live cutoff) (tokens t)) t));;
  mret n.

(** ** The newest token stays *)

Definition key_of (x : PrivacyToken) : string := String_ (ToNonAD (User x)).

(** Every put so far is no newer than the row, whose token is that of the last
    put of its time. *)
Definition newest_of (k : string) (l : list PrivacyToken) (o : option token_row) : Prop :=
  match o with
  | None => Forall (fun x => key_of x <> k) l
  | Some r =>
      exists l1 x l2, l = l1 ++ x :: l2 /\ key_of x = k /\ token r = Token x /\ timestamp r = Unix (Timestamp x) /\
        Forall (fun y => key_of y = k -> Unix (Timestamp y) <= timestamp r) l1 /\
        Forall (fun y => key_of y = k -> Unix (Timestamp y) < timestamp r) l2
  end.

Lemma newest_put k l o x : newest_of k l o -> key_of x = k -> newest_of k (l ++ [x]) (Some (upsert_row o (new_row x))).
Proof.
  intros Ho Hx. destruct o as [r|]; cbn [upsert_row].
  - destruct Ho as (l1 & y & l2 & -> & Hy & Ht & Hts & H1 & H2).
    change (timestamp (new_row x)) with (Unix (Timestamp x)). destruct (Z.leb_spec (timestamp r) (Unix (Timestamp x))) as [Hle|Hlt].
    + exists (l1 ++ y :: l2), x, []. split; [done|]. do 3 (split; [done|]). split; [|done]. cbn [timestamp new_row].
      apply Forall_app. split; [|apply Forall_cons; split; [intros _; lia|]].
      * eapply Forall_impl; [apply H1|]. cbn. intros z Hz E. specialize (Hz E). lia.
      * eapply Forall_impl; [apply H2|]. cbn. intros z Hz E. specialize (Hz E). lia.
    + exists l1, y, (l2 ++ [x]). split; [by rewrite <- app_assoc|]. do 4 (split; [done|]).
      apply Forall_app. split; [done|]. by apply Forall_singleton.
  - exists l, x, []. split; [done|]. do 3 (split; [done|]). split; [|done].
    eapply Forall_impl; [apply Ho|]. cbn. intros y Hy E. by destruct Hy.
Qed.

Lemma newest_other k l o x : newest_of k l o -> key_of x <> k -> newest_of k (l ++ [x]) o.
Proof.
  intros Ho Hx. destruct o as [r|]; cbn in *.
  - destruct Ho as (l1 & y & l2 & -> & Hy & Ht & Hts & H1 & H2). exists l1, y, (l2 ++ [x]).
    split; [by rewrite <- app_assoc|]. do 4 (split; [done|]). apply Forall_app. split; [done|]. by apply Forall_singleton.
  - apply Forall_app. split; [done|]. by apply Forall_singleton.
Qed.

Fixpoint put_batches (l : list (list PrivacyToken)) : pt unit :=
  match l with [] => mret tt | b :: l => PutPrivacyTokens b;; put_batches l end.

Lemma PutPrivacyTokens_ok b s : works s -> b <> [] ->
  PutPrivacyTokens b s = (set_rows (set_tokens (foldl put_token (tokens (rows s)) b) (rows s)) s, Ok tt).
Proof. intros Hw Hb. destruct b as [|x b]; [done|]. by apply exec_works. Qed.

Lemma put_batches_ok l s : works s -> Forall (fun b => b <> []) l ->
  put_batches l s = (set_rows (set_tokens (foldl put_token (tokens (rows s)) (concat l)) (rows s)) s, Ok tt).
Proof.
  intros Hw Hl. revert s Hw. induction Hl as [|b l Hb _ IH]; intros s Hw; cbn [put_batches concat].
  - destruct s as [[m c ls] [] fs]. done.
  - rewrite (stm_bind_ok _ _ _ _ _ (PutPrivacyTokens_ok b s Hw Hb)). rewrite IH by done.
    cbn [rows set_rows set_tokens tokens]. by rewrite foldl_app.
Qed.

(** After any batches of tokens put into an empty table of a working database
    the row of a contact holds the newest token put for the contact, the last
    put of those with the same time, and there is none if none was put. *)
Theorem newest_token_kept (l : list (list PrivacyToken)) s k :
  works s -> tokens (rows s) = ∅ -> Forall (fun b => b <> []) l ->
  exists s', put_batches l s = (s', Ok tt) /\ newest_of k (concat l) (tokens (rows s') !! k).
Proof.
  intros Hw Hs Hl. eexists. split; [by apply put_batches_ok|]. cbn [rows set_rows set_tokens tokens]. rewrite Hs. clear Hs Hl.
  generalize (concat l). clear l. intros l. induction l as [|x l IH] using rev_ind; [apply Forall_nil_2|].
  rewrite foldl_app. cbn [foldl]. unfold put_token at 1. destruct (decide (key_of x = k)) as [E|E].
  - unfold key_of in E. rewrite E, lookup_insert_eq. by apply newest_put.
  - rewrite lookup_insert_ne by done. by apply newest_other.
Qed.

End privacytokens.

Module tctoken.

Import attrs jid sql msgsecrets privacytokens.

Definition tcTokenBucketDuration : Z := 604800.
Definition tcTokenNumBuckets : Z := 4.
Definition tcTokenDBPruneInterval : Z := 24 * 3600 * 10 ^ 9.

Definition currentTCTokenCutoffTimestamp (now : gotime) : gotime :=
  let currentBucket := Z.quot (Unix now) tcTokenBucketDuration in
  let cutoffBucket := currentBucket - (tcTokenNumBuckets - 1) in
  time_Unix (cutoffBucket * tcTokenBucketDuration).

Definition isTCTokenExpired (now timestamp : gotime) : bool :=
  if time_IsZero timestamp then true else Before timestamp (currentTCTokenCutoffTimestamp now).

Definition shouldSendNewTCToken (now senderTimestamp : gotime) : bool :=
  if time_IsZero senderTimestamp then true
  else Z.quot (Unix senderTimestamp) tcTokenBucketDuration <? Z.quot (Unix now) tcTokenBucketDuration.

Definition shouldSendTCTokenInChatAction (jid : JID) : bool :=
  let jid := ToNonAD jid in
  (bool_decide (Server jid = DefaultUserServer) || bool_decide (Server jid = HiddenUserServer)) &&
  negb (bool_decide (jid.User jid = jid.User PSAJID)) && negb (IsBot jid).

(** What the client keeps in memory. *)
Record sender_times := mkTimes {
  tcTokenSenderTS : gmap JID gotime;
  lastTCTokenSenderTSCleanup : gotime;
  lastTCTokenDBPrune : gotime
}.

Definition unlockedCleanupTCTokenSenderTSMap (now : gotime) (s : sender_times) : sender_times :=
  if Sub now (lastTCTokenSenderTSCleanup s) <? tcTokenBucketDuration * 10 ^ 9 then s
  else
    let cutoff := currentTCTokenCutoffTimestamp now in
    mkTimes (filter (fun x => ~ (Before (snd x) cutoff = true)) (tcTokenSenderTS s)) now (lastTCTokenDBPrune s).

Definition getTCTokenSenderTS (s : sender_times) (jid : JID) : gotime :=
  default ZeroTime (tcTokenSenderTS s !! ToNonAD jid).

Definition setTCTokenSenderTS (now : gotime) (jid : JID) (ts : gotime) (s : sender_times) : sender_times :=
  unlockedCleanupTCTokenSenderTSMap now
    (mkTimes (<[ToNonAD jid := ts]> (tcTokenSenderTS s)) (lastTCTokenSenderTSCleanup s) (lastTCTokenDBPrune s)).

Definition validateAndSetTCTokenSenderTS (now : gotime) (jid : JID) (stored : gotime) (s : sender_times) : bool * sender_times :=
  match tcTokenSenderTS s !! ToNonAD jid with
  | Some _ => (true, s)
  | None =>
      if time_IsZero stored || Before stored (currentTCTokenCutoffTimestamp now) then (false, s)
      else (true, setTCTokenSenderTS now jid stored s)
  end.

Section client.
(** Store.LIDs.GetLIDForPN ([None]: an error), the order of rows of one time, and
    whether the server takes an issued token. *)
Context (GetLIDForPN : JID -> option JID) (own : bool).

Definition resolveTCTokenStorageLID (jid : JID) : JID :=
  let storageJID := ToNonAD jid in
  if negb (bool_decide (Server storageJID = DefaultUserServer)) then storageJID
  else
    match GetLIDForPN storageJID with
    | None => storageJID
    | Some lid => if IsEmpty lid then storageJID else ToNonAD lid
    end.

(** Whether a deletion of the expired rows is started; the lock is held while one runs. *)
Definition deleteExpiredPrivacyTokens (now : gotime) (running : bool) (s : sender_times) : bool * sender_times :=
  if running then (false, s)
  else if Sub now (lastTCTokenDBPrune s) <? tcTokenDBPruneInterval then (false, s)
  else (true, mkTimes (tcTokenSenderTS s) (lastTCTokenSenderTSCleanup s) now).

(** What the started goroutine does. *)
Definition prune (now : gotime) : pt nat := DeleteExpiredPrivacyTokens (currentTCTokenCutoffTimestamp now).

Inductive token_error := ErrNotLoggedIn | ErrGetToken (e : sql_error).

Definition ensureTCToken (now : gotime) (ownID jid : JID) (s : sender_times) (d : db token_tables unit) :
    db token_tables unit * (outcome token_error (option bytes) * sender_times) :=
  if IsEmpty ownID then (d, (Err ErrNotLoggedIn, s))
  else
    let s := snd (deleteExpiredPrivacyTokens now false s) in
    let storageJID := resolveTCTokenStorageLID jid in
    match GetPrivacyToken own storageJID d with
    | (d, Ok None) => (d, (Ok None, s))
    | (d, Ok (Some existing)) =>
        let s := snd (validateAndSetTCTokenSenderTS now storageJID (SenderTimestamp existing) s) in
        let good := (0 <? Z.of_nat (length (Token existing))) && negb (isTCTokenExpired now (Timestamp existing)) in
        (d, (Ok (if good then Some (Token existing) else None), s))
    | (d, Err e) => (d, (Err (ErrGetToken e), s))
    | (d, Panic) => (d, (Panic, s))
    | (d, NoFuel) => (d, (NoFuel, s))
    end.

(** [accepted]: the server took the token; [now] is read when the time is kept.
    A failure after that is logged. *)
Definition issuePrivacyTokenAndSave (accepted : bool) (now : gotime) (jid : JID) (senderTimestamp : gotime)
    (s : sender_times) (d : db token_tables unit) : db token_tables unit * sender_times :=
  let storageJID := ToNonAD jid in
  if negb accepted then (d, s)
  else
    let s := setTCTokenSenderTS now storageJID senderTimestamp s in
    match GetPrivacyToken own storageJID d with
    | (d, Ok (Some existing)) =>
        if (length (Token existing) =? 0)%nat then (d, s)
        else (fst (PutPrivacyTokens [mkToken (User existing) (Token existing) (Timestamp existing) senderTimestamp] d), s)
    | (d, _) => (d, s)
    end.

(** The end of sendDM: [Some] the storage address when a token is to be issued. *)
Definition issue_after_send (now : gotime) (to : JID) (s : sender_times) : option JID :=
  let storageJID := resolveTCTokenStorageLID to in
  if shouldSendTCTokenInChatAction to && shouldSendNewTCToken now (getTCTokenSenderTS s storageJID)
  then Some storageJID else None.

End client.

(** [issuePrivacyToken]'s request. *)
Definition issue_content (jid : JID) (timestamp : gotime) : list Node :=
  [mkNode "tokens" [] (ANodes [mkNode "token"
     [("jid", AJID (ToNonAD jid)); ("t", AString (itoa (Unix timestamp))); ("type", AString "trusted_contact")] ANil])].

(** ** The window of four weeks *)

Lemma cutoff_seconds now : Unix (currentTCTokenCutoffTimestamp now) = (Z.quot (Unix now) 604800 - 3) * 604800.
Proof. apply Unix_time_Unix. Qed.

Lemma before_cutoff t now : Before t (currentTCTokenCutoffTimestamp now) = true <->
  nanos t < (Z.quot (Unix now) 604800 - 3) * 604800 * 10 ^ 9.
Proof. unfold Before. by rewrite Z.ltb_lt. Qed.

Lemma expired_seconds now s : isTCTokenExpired now (time_Unix s) = true <-> s < Unix (currentTCTokenCutoffTimestamp now).
Proof.
  unfold isTCTokenExpired. cbn [time_IsZero time_Unix]. rewrite before_cutoff, cutoff_seconds.
  change (nanos (time_Unix s)) with (s * 1000000000). change (10 ^ 9) with 1000000000.
  generalize (Z.quot (Unix now) 604800). lia.
Qed.

(** A token less than 21 days old is good and one of 28 days or more is not. *)
Theorem token_window now s : 0 <= Unix now ->
  (Unix now - s <= 21 * 86400 -> isTCTokenExpired now (time_Unix s) = false) /\
  (28 * 86400 <= Unix now - s -> isTCTokenExpired now (time_Unix s) = true).
Proof.
  intros Hn. rewrite <- not_true_iff_false, !expired_seconds, cutoff_seconds.
  revert Hn. generalize (Unix now). intros n Hn.
  pose proof (Z.quot_rem' n 604800). pose proof (Z.rem_bound_pos n 604800 Hn ltac:(lia)). lia.
Qed.

(** ** Deleting expired rows is not seen *)

Lemma prune_ok now d : works d ->
  prune now d = (set_rows (set_tokens (filter (live (currentTCTokenCutoffTimestamp now)) (tokens (rows d))) (rows d)) d,
    Ok (size (filter (fun x => ~ live (currentTCTokenCutoffTimestamp now) x) (tokens (rows d))))).
Proof.
  intros Hw. unfold prune, DeleteExpiredPrivacyTokens.
  rewrite (stm_bind_ok _ _ _ _ _ (query_works _ d Hw)). by erewrite stm_bind_ok by (by apply exec_works).
Qed.

(** The newest of the rows that are left. *)
Lemma newest_filter own c (m : gmap string token_row) ks : (length ks <= 2)%nat ->
  newest own (omap (fun k => filter (live c) m !! k) ks) =
  r ← newest own (omap (fun k => m !! k) ks); if decide (Unix c <= timestamp r) then Some r else None.
Proof.
  assert (forall k, filter (live c) m !! k = r ← m !! k; if decide (Unix c <= timestamp r) then Some r else None) as Hf.
  { intros k. rewrite map_lookup_filter. destruct (m !! k) as [r|]; [|done]. cbn. unfold guard, live. cbn.
    by destruct (decide (Unix c <= timestamp r)), (live_dec c (k, r)). }
  intros Hl. destruct ks as [|k [|k' [|]]]; cbn [length] in Hl; [done| | |lia]; cbn [omap list_omap]; rewrite !Hf;
    generalize (Unix c); intros z.
  - destruct (m !! k) as [r|]; [|done]. cbn -[Z.le decide]. by destruct (decide (z <= timestamp r)).
  - destruct (m !! k) as [r|], (m !! k') as [r'|]; cbn -[Z.le decide Z.ltb Z.eqb]; try done;
      repeat match goal with |- context [decide ?P] => destruct (decide P); cbn -[Z.le decide Z.ltb Z.eqb] end; try done;
      destruct own; destruct (Z.ltb_spec (timestamp r') (timestamp r)); try destruct (Z.eqb_spec (timestamp r') (timestamp r));
      cbn -[Z.le decide]; repeat match goal with |- context [decide ?P] => destruct (decide P) end; done || lia.
Qed.

Section pruning.
Context (GetLIDForPN : JID -> option JID) (own : bool).

Lemma find_pruned c t j :
  find_token own (set_tokens (filter (live c) (tokens t)) t) j =
  r ← find_token own t j; if decide (Unix c <= timestamp r) then Some r else None.
Proof.
  unfold find_token. destruct (param j) as [k|]; [|done]. cbn [mbind option_bind tokens lids set_tokens].
  apply newest_filter. unfold candidates. by destruct (other_mode (lids t) k); cbn; lia.
Qed.

(** Which token ensureTCToken answers with does not depend on whether the
    deletion it starts in the background comes before or after its own look-up. *)
Theorem prune_not_seen now ownID jid s d : works d ->
  fst (snd (ensureTCToken GetLIDForPN own now ownID jid s (fst (prune now d)))) =
  fst (snd (ensureTCToken GetLIDForPN own now ownID jid s d)).
Proof.
  intros Hw. rewrite prune_ok by done. cbn [fst]. unfold ensureTCToken. destruct (IsEmpty ownID); [done|].
  unfold GetPrivacyToken, mbind, stm_bind. rewrite !query_works by done. cbn [rows set_rows].
  rewrite find_pruned. destruct (find_token own (rows d) _) as [r|]; [|done]. unfold mbind, option_bind.
  destruct (decide _) as [Hl|Hl]; [done|]. cbn [fmap option_fmap option_map snd fst mret stm_ret].
  cbn [read_token Timestamp Token].
  rewrite (proj2 (expired_seconds now (timestamp r))) by lia. by rewrite andb_false_r.
Qed.
End pruning.

(** ** The account issues at most one token a week to each contact *)

Definition bucket (t : gotime) : Z := Z.quot (Unix t) tcTokenBucketDuration.

Lemma before_bucket t now : 0 <= Unix now -> Before t (currentTCTokenCutoffTimestamp now) = true -> bucket t < bucket now.
Proof.
  intros Hn Hb%before_cutoff. unfold bucket, tcTokenBucketDuration in *.
  assert (Unix t <= (Z.quot (Unix now) 604800 - 3) * 604800) as Hle.
  { change (10 ^ 9) with 1000000000 in Hb. destruct t as [|ns]; cbn [nanos Unix] in *;
      change (10 ^ 9) with 1000000000 in *; [lia|]. generalize dependent (Z.quot (Unix now) 604800). intros q Hq.
    Z.to_euclidean_division_equations. lia. }
  apply (Z.quot_le_mono _ _ 604800) in Hle; [|lia]. rewrite Z.quot_mul in Hle by lia. lia.
Qed.

(** What may leave the map of times: those old enough to issue again. *)
Definition kept (now : gotime) (s s' : sender_times) : Prop :=
  forall j t, tcTokenSenderTS s !! j = Some t ->
    tcTokenSenderTS s' !! j = Some t \/ Before t (currentTCTokenCutoffTimestamp now) = true.

Lemma cleanup_kept now s : kept now s (unlockedCleanupTCTokenSenderTSMap now s).
Proof.
  intros j t H. unfold unlockedCleanupTCTokenSenderTSMap. destruct (_ <? _); [by left|]. cbn [tcTokenSenderTS].
  destruct (Before t (currentTCTokenCutoffTimestamp now)) eqn:E; [by right|]. left. apply map_lookup_filter_Some. split; [done|].
  cbn. by rewrite E.
Qed.

Lemma cleanup_sub now s j t : tcTokenSenderTS (unlockedCleanupTCTokenSenderTSMap now s) !! j = Some t -> tcTokenSenderTS s !! j = Some t.
Proof.
  unfold unlockedCleanupTCTokenSenderTSMap. destruct (_ <? _); [done|]. cbn [tcTokenSenderTS].
  by intros [H _]%map_lookup_filter_Some.
Qed.

Lemma validate_kept now j t s : kept now s (snd (validateAndSetTCTokenSenderTS now j t s)).
Proof.
  unfold validateAndSetTCTokenSenderTS. destruct (tcTokenSenderTS s !! ToNonAD j) eqn:E; [by left|].
  destruct (_ || _); [by left|]. cbn [snd]. intros j' t' H. apply (cleanup_kept now). cbn [tcTokenSenderTS].
  apply lookup_insert_Some. right. split; [|done]. intros <-. congruence.
Qed.

Section issuing.
Context (GetLIDForPN : JID -> option JID) (own : bool) (ownID : JID).

(** A message sent to [to] at [now], the server taking what is issued; the tokens issued. *)
Definition send_step (now : gotime) (to : JID) (x : sender_times * db token_tables unit) :
    (sender_times * db token_tables unit) * list (JID * gotime) :=
  let '(s, d) := x in
  let '(d, (_, s)) := ensureTCToken GetLIDForPN own now ownID to s d in
  match issue_after_send GetLIDForPN now to s with
  | Some j => let '(d, s) := issuePrivacyTokenAndSave own true now j now s d in ((s, d), [(j, now)])
  | None => ((s, d), [])
  end.

Fixpoint send_all (l : list (gotime * JID)) (x : sender_times * db token_tables unit) : list (JID * gotime) :=
  match l with
  | [] => []
  | (now, to) :: l => let '(x, issued) := send_step now to x in issued ++ send_all l x
  end.

(** The tokens issued so far are on record, or of an earlier week. *)
Definition recorded (now : Z) (s : sender_times) (h : list (JID * gotime)) : Prop :=
  Forall (fun x => (exists t, tcTokenSenderTS s !! fst x = Some t /\ time_IsZero t = false /\ bucket (snd x) <= bucket t) \/
    bucket (snd x) < now) h.

Lemma recorded_kept now s s' h : 0 <= Unix now -> kept now s s' -> recorded (bucket now) s h -> recorded (bucket now) s' h.
Proof.
  intros Hn Hk H. eapply Forall_impl; [apply H|]. cbn. intros [j t] [(t' & Ht & Hz & Hb)|Hb]; [|by right]. cbn [fst snd] in *.
  destruct (Hk _ _ Ht) as [Ht'|Hold]; [left; eauto|]. right. apply (before_bucket _ _ Hn) in Hold. lia.
Qed.

Lemma recorded_later n n' s h : n <= n' -> recorded n s h -> recorded n' s h.
Proof. intros Hn H. eapply Forall_impl; [apply H|]. cbn. intros x [Hx|Hx]; [by left|right; lia]. Qed.

Lemma ensure_kept now to s d : kept now s (snd (snd (ensureTCToken GetLIDForPN own now ownID to s d))).
Proof.
  unfold ensureTCToken. destruct (IsEmpty ownID); [by left|].
  assert (forall s', tcTokenSenderTS s' = tcTokenSenderTS s -> kept now s s') as Hsame by (intros s' E j t; rewrite E; by left).
  assert (tcTokenSenderTS (snd (deleteExpiredPrivacyTokens now false s)) = tcTokenSenderTS s) as Hd.
  { unfold deleteExpiredPrivacyTokens. by destruct (_ <? _). }
  destruct (GetPrivacyToken own _ d) as [d' [[x|]|e| |]]; cbn [snd]; try (by apply Hsame).
  intros j t H. apply validate_kept. by rewrite Hd.
Qed.

Lemma issue_sender now j s d :
  snd (issuePrivacyTokenAndSave own true now j now s d) = setTCTokenSenderTS now (ToNonAD j) now s.
Proof.
  unfold issuePrivacyTokenAndSave. cbn [negb]. destruct (GetPrivacyToken own _ d) as [d' [[x|]|e| |]]; try done.
  by destruct (_ =? _)%nat.
Qed.

Lemma resolved_nonad jid : ToNonAD (resolveTCTokenStorageLID GetLIDForPN jid) = resolveTCTokenStorageLID GetLIDForPN jid.
Proof.
  unfold resolveTCTokenStorageLID. destruct (negb _); [done|]. destruct (GetLIDForPN _) as [l|]; [|done].
  by destruct (IsEmpty l).
Qed.

(** Of two tokens for one address the later is of a later week. *)
Definition weekly (x y : JID * gotime) : Prop := fst x = fst y -> bucket (snd x) < bucket (snd y).

Lemma issued_fresh now j s h : time_IsZero now = false -> recorded (bucket now) s h ->
  shouldSendNewTCToken now (default ZeroTime (tcTokenSenderTS s !! j)) = true ->
  forall y, y ∈ h -> weekly y (j, now).
Proof.
  intros Hz Hr Hs [j' t] Hy E. cbn [fst snd] in *. subst j'. unfold recorded in Hr. rewrite Forall_forall in Hr.
  destruct (Hr _ Hy) as [(t' & Ht & Hz' & Hb)|Hb]; cbn [fst snd] in *; [|done].
  rewrite Ht in Hs. change (default ZeroTime (Some t')) with t' in Hs. unfold shouldSendNewTCToken in Hs.
  rewrite Hz' in Hs. apply Z.ltb_lt in Hs. unfold bucket in *. lia.
Qed.

Lemma set_recorded now j s h : time_IsZero now = false -> 0 <= Unix now -> ToNonAD j = j -> recorded (bucket now) s h ->
  (forall y, y ∈ h -> weekly y (j, now)) -> recorded (bucket now) (setTCTokenSenderTS now j now s) (h ++ [(j, now)]).
Proof.
  intros Hz Hn Hj Hr Hnew. unfold setTCTokenSenderTS. rewrite Hj.
  eapply recorded_kept; [done|apply cleanup_kept|]. apply Forall_app. split.
  - apply Forall_forall. intros x Hx. cbn [tcTokenSenderTS]. destruct (decide (fst x = j)) as [Ej|Ej].
    + right. by apply (Hnew x Hx).
    + unfold recorded in Hr. rewrite Forall_forall in Hr. destruct (Hr x Hx) as [(t & Ht & ?)|?]; [|by right]. left. exists t. by rewrite lookup_insert_ne.
  - apply Forall_singleton. left. exists now. cbn [fst snd tcTokenSenderTS]. rewrite lookup_insert_eq. split; [done|]. split; [done|lia].
Qed.

Lemma send_step_weekly now to s d h s' d' issued :
  time_IsZero now = false -> 0 <= Unix now -> recorded (bucket now) s h -> StronglySorted weekly h ->
  send_step now to (s, d) = ((s', d'), issued) ->
  recorded (bucket now) s' (h ++ issued) /\ StronglySorted weekly (h ++ issued).
Proof.
  intros Hz Hn Hr Hh H. unfold send_step in H. pose proof (ensure_kept now to s d) as Hk.
  destruct (ensureTCToken GetLIDForPN own now ownID to s d) as [d1 [o s1]]. cbn [snd] in Hk.
  apply (recorded_kept _ _ _ _ Hn Hk) in Hr. unfold issue_after_send in H.
  set (j := resolveTCTokenStorageLID GetLIDForPN to) in *.
  destruct (_ && _) eqn:E; [|injection H as <- <- <-; by rewrite app_nil_r].
  apply andb_true_iff in E as [_ E]. pose proof (issue_sender now j s1 d1) as Hs.
  destruct (issuePrivacyTokenAndSave own true now j now s1 d1) as [d2 s2]. cbn [snd] in Hs. injection H as <- <- <-.
  assert (ToNonAD j = j) as Hj by apply resolved_nonad. unfold getTCTokenSenderTS in E. rewrite Hj in E, Hs. subst s2.
  pose proof (issued_fresh _ _ _ _ Hz Hr E) as Hnew. split; [by apply set_recorded|].
  apply StronglySorted_app_2; [|done|repeat constructor]. intros x y Hx ->%list_elem_of_singleton. by apply Hnew.
Qed.

Lemma send_all_weekly l : forall s d h lo,
  StronglySorted (fun x y => Unix (fst x) <= Unix (fst y)) l ->
  Forall (fun x => time_IsZero (fst x) = false /\ 0 <= lo <= Unix (fst x)) l -> recorded (Z.quot lo 604800) s h ->
  StronglySorted weekly h -> StronglySorted weekly (h ++ send_all l (s, d)).
Proof.
  induction l as [|[now to] l IH]; intros s d h lo Hs Hl Hr Hh; cbn [send_all]; [by rewrite app_nil_r|].
  apply StronglySorted_inv in Hs as [Hs Hnow]. apply Forall_cons in Hl as [[Hz Hlo] Hl]. cbn [fst] in *.
  assert (recorded (bucket now) s h) as Hr1.
  { eapply recorded_later; [|exact Hr]. unfold bucket, tcTokenBucketDuration. apply Z.quot_le_mono; lia. }
  destruct (send_step now to (s, d)) as [[s1 d1] issued] eqn:E.
  apply (send_step_weekly _ _ _ _ h) in E as [Hr2 Hi]; [|done|lia|done|done].
  rewrite app_assoc. apply (IH s1 d1 (h ++ issued) (Unix now)); [done| |done|done].
  rewrite Forall_forall in Hl, Hnow |- *. intros x Hx. destruct (Hl x Hx) as [? _]. split; [done|]. specialize (Hnow x Hx). lia.
Qed.

(** Over messages sent one after the other, whatever times are on record and
    stored and whether the database works, the account issues at most one token
    in a week to each storage address. *)
Theorem issued_weekly l s d : StronglySorted (fun x y => Unix (fst x) <= Unix (fst y)) l ->
  Forall (fun x => time_IsZero (fst x) = false /\ 0 <= Unix (fst x)) l -> StronglySorted weekly (send_all l (s, d)).
Proof.
  intros Hs Hl. apply (send_all_weekly l s d [] 0); [done| |constructor|constructor].
  eapply Forall_impl; [apply Hl|]. cbn. intros x [? ?]. split; [done|lia].
Qed.

End issuing.

End tctoken.

Module tc_samples.

Import attrs jid sql msgsecrets privacytokens tctoken.

Definition carol : JID := mkJID "300" 0 0 0 HiddenUserServer.
Definition carol_pn : JID := mkJID "15550000003" 0 0 0 DefaultUserServer.
Definition empty_db : db token_tables unit := mkDb (mkTables ∅ None {["300" := "15550000003"]}) tt [].
Definition tok (b s : Z) : PrivacyToken := mkToken carol (str_bytes (itoa b)) (time_Unix s) ZeroTime.
Definition lid_of_carol (j : JID) : option JID := Some carol.
Definition week (n : Z) : gotime := time_Unix (n * 604800 + 5).
Definition no_times : sender_times := mkTimes ∅ ZeroTime ZeroTime.

Lemma newest_token_kept_witness :
  exists s', put_batches [[tok 1 50; tok 2 70]; [tok 3 60]] empty_db = (s', Ok tt) /\
    newest_of "300@lid" [tok 1 50; tok 2 70; tok 3 60] (tokens (rows s') !! "300@lid").
Proof.
  apply (newest_token_kept [[tok 1 50; tok 2 70]; [tok 3 60]] empty_db "300@lid"); [done|done|].
  repeat apply Forall_cons_2; try apply Forall_nil_2; discriminate.
Defined.

Lemma token_window_witness :
  isTCTokenExpired (week 100) (time_Unix (100 * 604800 + 5 - 21 * 86400)) = false /\
  isTCTokenExpired (week 100) (time_Unix (100 * 604800 + 5 - 28 * 86400)) = true.
Proof.
  split.
  - apply (token_window (week 100)); [vm_compute; discriminate|]. vm_compute. discriminate.
  - apply (token_window (week 100)); [vm_compute; discriminate|]. vm_compute. discriminate.
Defined.

Definition stored_db : db token_tables unit := fst (put_batches [[tok 1 50]] empty_db).

Lemma prune_not_seen_witness :
  fst (snd (ensureTCToken lid_of_carol true (week 100) carol_pn carol_pn no_times (fst (prune (week 100) stored_db)))) =
  fst (snd (ensureTCToken lid_of_carol true (week 100) carol_pn carol_pn no_times stored_db)).
Proof. apply (prune_not_seen lid_of_carol true (week 100) carol_pn carol_pn no_times stored_db). reflexivity. Defined.

Lemma issued_weekly_witness :
  StronglySorted weekly (send_all lid_of_carol true carol_pn [(week 100, carol_pn); (week 100, carol); (week 102, carol)] (no_times, stored_db)).
Proof.
  apply issued_weekly.
  - repeat apply SSorted_cons; try apply SSorted_nil; repeat apply Forall_cons_2; try apply Forall_nil_2; vm_compute; discriminate.
  - repeat apply Forall_cons_2; try apply Forall_nil_2; (split; [reflexivity|vm_compute; discriminate]).
Defined.

(** Two tokens are issued there, in the first and the third week. *)
Example issued_twice :
  map snd (send_all lid_of_carol true carol_pn [(week 100, carol_pn); (week 100, carol); (week 102, carol)] (no_times, stored_db)) = [week 100; week 102].
Proof. vm_compute. reflexivity. Qed.

End tc_samples.
