(* ===== verification/Retry.v ===== *)
(** * retry.go: sending messages again, and asking for it

    [eventbuffer]: the tables of decrypted and of sent events
    (store/sqlstore/store.go). [recent]: the sent messages kept in memory, in a
    ring beside a map, and in the table. [retry]: the answer to a retry receipt,
    and the retry receipts this client sends. *)

From S2P Require Import Prelude GoStrings StateErr Jid Node Encoder Crypto Wire Sql PreKeys Receive.

#[local] Open Scope string_scope.
#[local] Open Scope list_scope.
#[local] Open Scope Z_scope.

Module eventbuffer.

Import jid sql.

(** ** Decrypted events, by the hash of their ciphertext *)

Record BufferedEvent := mkBuffered { Plaintext : option bytes; ServerTime : Z; InsertTime : Z }.

Section buffered.
Context {T M : Type} (get : T -> gmap bytes BufferedEvent) (set : gmap bytes BufferedEvent -> T -> T).

Definition GetBufferedEvent (hash : bytes) : stm (db T M) sql_error (option BufferedEvent) :=
  query (fun t => get t !! hash).

(** Times: the server's in seconds, the row's own in milliseconds. *)
Definition PutBufferedEvent (hash plaintext : bytes) (serverTimestamp nowMS : Z) : stm (db T M) sql_error unit :=
  exec (fun t => match get t !! hash with
                 | Some _ => None
                 | None => Some (set (<[hash := mkBuffered (Some plaintext) serverTimestamp nowMS]> (get t)) t)
                 end).

Definition ClearBufferedEventPlaintext (hash : bytes) : stm (db T M) sql_error unit :=
  exec (fun t => Some (set (alter (fun b => mkBuffered None (ServerTime b) (InsertTime b)) hash (get t)) t)).

Definition recent_event (nowMS : Z) (x : bytes * BufferedEvent) : Prop :=
  ~ (InsertTime (snd x) < nowMS - 14 * 24 * 3600 * 1000).

#[export] Instance recent_event_dec now x : Decision (recent_event now x).
Proof. unfold recent_event. apply _. Defined.

Definition DeleteOldBufferedHashes (nowMS : Z) : stm (db T M) sql_error unit :=
  exec (fun t => Some (set (filter (recent_event nowMS) (get t)) t)).
End buffered.

(** ** Sent events, by chat and id *)

Record OutgoingEvent := mkOutgoing { format : string; payload : bytes; timestamp : Z }.

Abbreviation outgoing := (gmap (string * string) OutgoingEvent).

Definition column (j : JID) : option string := match Value j with SqlString s => Some s | _ => None end.

Section outgoing.
Context {M : Type}.

(** [own]: which row comes first when both chats have one. *)
Definition GetOutgoingEvent (own : bool) (chat altChat : JID) (id : string) : stm (db outgoing M) sql_error (string * bytes) :=
  r ← query (fun t =>
    let find j := k ← column j; t !! (k, id) in
    match find chat, find altChat with
    | Some r, Some r' => Some (if own then r else r')
    | Some r, None => Some r
    | None, o => o
    end);
  match r with
  | Some r => mret (format r, payload r)
  | None => throw ErrNoRows
  end.

Definition AddOutgoingEvent (chat : JID) (id fmt : string) (plaintext : bytes) (nowMS : Z) : stm (db outgoing M) sql_error unit :=
  exec (fun t => k ← column chat; Some (<[(k, id) := mkOutgoing fmt plaintext nowMS]> t)).

Definition recent_outgoing (nowMS : Z) (x : (string * string) * OutgoingEvent) : Prop :=
  ~ (timestamp (snd x) < nowMS - 7 * 24 * 3600 * 1000).

#[export] Instance recent_outgoing_dec now x : Decision (recent_outgoing now x).
Proof. unfold recent_outgoing. apply _. Defined.

Definition DeleteOldOutgoingEvents (nowMS : Z) : stm (db outgoing M) sql_error unit :=
  exec (fun t => Some (filter (recent_outgoing nowMS) t)).
End outgoing.

End eventbuffer.

Module recent.

Import jid sql eventbuffer.

Definition recentMessagesSize : nat := 256.

Abbreviation recentMessageKey := (JID * string)%type.

Definition zero_key : recentMessageKey := (EmptyJID, "").

Section messages.
(** The generated message types, their encoding, and the order of two rows. *)
Context {WA FB : Type}.

Record RecentMessage := mkRecent { wa : option WA; fb : option FB }.

Definition IsEmpty (m : RecentMessage) : bool :=
  match wa m, fb m with None, None => true | _, _ => false end.

Record ring := mkRing {
  recentMessagesMap : gmap recentMessageKey RecentMessage;
  recentMessagesList : list recentMessageKey;
  recentMessagesPtr : nat
}.

Definition empty_ring : ring := mkRing ∅ (replicate recentMessagesSize zero_key) 0.

(** The part of addRecentMessage under its lock. *)
Definition add (key : recentMessageKey) (m : RecentMessage) (r : ring) : ring :=
  let old := nth (recentMessagesPtr r) (recentMessagesList r) zero_key in
  let map := if String.eqb (snd old) "" then recentMessagesMap r else delete old (recentMessagesMap r) in
  mkRing (<[key := m]> map) (<[recentMessagesPtr r := key]> (recentMessagesList r))
    (if (length (recentMessagesList r) <=? Datatypes.S (recentMessagesPtr r))%nat then O
     else Datatypes.S (recentMessagesPtr r)).

Definition getRecentMessage (to : JID) (id : string) (r : ring) : RecentMessage :=
  default (mkRecent None None) (recentMessagesMap r !! (to, id)).

(** ** What the ring holds *)

Definition adds (l : list (recentMessageKey * RecentMessage)) (r : ring) : ring :=
  foldl (fun r x => add (fst x) (snd x) r) r l.

(** [m] is the last message added under [k], at [i], and no message added under
    [k] left the ring after that. *)
Definition held (l : list (recentMessageKey * RecentMessage)) (k : recentMessageKey) (m : RecentMessage) : Prop :=
  exists i, l !! i = Some (k, m) /\ (forall j m', l !! j = Some (k, m') -> (j <= i)%nat) /\
    forall j m', l !! j = Some (k, m') -> (length l <= j + 256 \/ j + 256 <= i)%nat.

Record ring_ok (l : list (recentMessageKey * RecentMessage)) (r : ring) : Prop := {
  ring_ptr : recentMessagesPtr r = (length l `mod` 256)%nat;
  ring_length : length (recentMessagesList r) = 256%nat;
  ring_slots j x : l !! j = Some x -> (length l <= j + 256)%nat -> recentMessagesList r !! (j `mod` 256)%nat = Some (fst x);
  ring_rest p : (length l <= p < 256)%nat -> recentMessagesList r !! p = Some zero_key;
  ring_map k m : recentMessagesMap r !! k = Some m <-> held l k m
}.

Lemma empty_ring_ok : ring_ok [] empty_ring.
Proof.
  split; try done.
  - intros p [_ Hp]. by apply lookup_replicate_2.
  - intros k m. cbn [recentMessagesMap empty_ring]. rewrite lookup_empty. split; [done|]. by intros (i & Hi & _).
Qed.

(** The key of the slot that is written over. *)
Lemma ring_old l r : ring_ok l r ->
  nth (recentMessagesPtr r) (recentMessagesList r) zero_key =
  match l !! (length l - 256)%nat with
  | Some x => if (256 <=? length l)%nat then fst x else zero_key
  | None => zero_key
  end.
Proof.
  intros [Hp Hl Hs Hr _]. rewrite nth_lookup, Hp. destruct (Nat.leb_spec 256 (length l)) as [H|H].
  - destruct (lookup_lt_is_Some_2 l (length l - 256)) as [x Hx]; [lia|]. rewrite Hx.
    specialize (Hs _ _ Hx ltac:(lia)). replace (length l `mod` 256)%nat with ((length l - 256) `mod` 256)%nat.
    { by rewrite Hs. }
    replace (length l) with (length l - 256 + 1 * 256)%nat at 2 by lia. by rewrite Nat.Div0.mod_add.
  - rewrite Nat.mod_small by lia. rewrite Hr by lia. by destruct (l !! _).
Qed.

Lemma held_new l k m : held (l ++ [(k, m)]) k m.
Proof.
  exists (length l). rewrite length_app. cbn [length]. repeat split.
  - by apply lookup_snoc_Some; right.
  - intros j m' [[? _]|[-> _]]%lookup_snoc_Some; lia.
  - intros j m' [[? _]|[-> _]]%lookup_snoc_Some; lia.
Qed.

Lemma held_unique l k m m' : held l k m -> held l k m' -> m = m'.
Proof.
  intros (i & Hi & Hl & _) (i' & Hi' & Hl' & _). pose proof (Hl _ _ Hi'). pose proof (Hl' _ _ Hi).
  assert (i = i') by lia. congruence.
Qed.

Lemma held_other l k k0 m m0 : k <> k0 ->
  held (l ++ [(k0, m0)]) k m <->
  held l k m /\ ((256 <= length l)%nat -> forall x, l !! (length l - 256)%nat = Some x -> fst x <> k).
Proof.
  intros Hk. assert (forall j m', (l ++ [(k0, m0)]) !! j = Some (k, m') <-> l !! j = Some (k, m')) as Hsame.
  { intros j m'. rewrite lookup_snoc_Some. split; [|intros H; left; split; [by eapply lookup_lt_Some|done]].
    intros [[_ ?]|[_ [= -> ->]]]; done. }
  unfold held. setoid_rewrite Hsame. rewrite length_app. cbn [length]. split.
  - intros (i & Hi & Hlast & Hkeep). split; [exists i|].
    + split; [done|]. split; [done|]. intros j m' Hj. destruct (Hkeep j m' Hj); lia.
    + intros Hn [k' m'] Hx Ek. cbn in Ek. subst k'. pose proof (lookup_lt_Some _ _ _ Hi). destruct (Hkeep _ _ Hx); lia.
  - intros [(i & Hi & Hlast & Hkeep) Hold]. exists i. split; [done|]. split; [done|]. intros j m' Hj.
    destruct (Hkeep j m' Hj) as [H|H]; [|by right]. destruct (decide (length l = j + 256)%nat) as [E|E]; [|left; lia].
    exfalso. apply (Hold ltac:(lia) (k, m')); [|done]. by replace (length l - 256)%nat with j by lia.
Qed.

Lemma next_ptr n : (if (256 <=? Datatypes.S (n `mod` 256))%nat then O else Datatypes.S (n `mod` 256)) = ((n + 1) `mod` 256)%nat.
Proof.
  pose proof (Nat.mod_upper_bound n 256 ltac:(lia)). pose proof (Nat.div_mod_eq n 256).
  destruct (Nat.leb_spec 256 (Datatypes.S (n `mod` 256))).
  - apply (Nat.mod_unique _ _ (n `div` 256 + 1)); lia.
  - apply (Nat.mod_unique _ _ (n `div` 256)); lia.
Qed.

Lemma slot_apart j n : (n <= j + 256)%nat -> (j < n)%nat -> (n < j + 256)%nat -> (j `mod` 256 <> n `mod` 256)%nat.
Proof.
  intros H1 H2 H3 E. pose proof (Nat.div_mod_eq j 256). pose proof (Nat.div_mod_eq n 256). nia.
Qed.

Lemma add_ok l r k m : ring_ok l r -> Forall (fun x => snd (fst x) <> "") l -> ring_ok (l ++ [(k, m)]) (add k m r).
Proof.
  intros Hok Hids. pose proof (ring_old _ _ Hok) as Hold. destruct Hok as [Hp Hl Hs Hr Hm].
  pose proof (Nat.mod_upper_bound (length l) 256 ltac:(lia)) as Hb.
  unfold add. rewrite Hold. split; cbn [recentMessagesPtr recentMessagesList recentMessagesMap].
  - rewrite Hl, Hp, length_app. cbn [length]. apply next_ptr.
  - by rewrite length_insert.
  - intros j x Hj Hn. rewrite length_app in Hn. cbn [length] in Hn. rewrite Hp.
    apply lookup_snoc_Some in Hj as [[Hlt Hj]|[-> <-]].
    + rewrite list_lookup_insert_ne; [apply Hs; [done|lia]|]. intros E. symmetry in E. revert E. apply slot_apart; lia.
    + rewrite list_lookup_insert_eq; [done|]. by rewrite Hl.
  - intros p Hpp. rewrite length_app in Hpp. cbn [length] in Hpp. rewrite Hp, Nat.mod_small by lia.
    rewrite list_lookup_insert_ne by lia. apply Hr. lia.
  - intros k' m'. destruct (decide (k = k')) as [<-|Hk].
    + rewrite lookup_insert_eq. split; [intros [= <-]; apply held_new|]. intros H. f_equal. eapply held_unique; [apply held_new|done].
    + rewrite lookup_insert_ne by done. rewrite held_other by done. rewrite <- Hm.
      destruct (l !! (length l - 256)%nat) as [x|] eqn:Ex.
      * destruct (Nat.leb_spec 256 (length l)) as [Hn|Hn].
        -- rewrite Forall_lookup in Hids. pose proof (Hids _ _ Ex) as Hid. cbn [recentMessagesMap].
           rewrite (proj2 (String.eqb_neq _ _) Hid). rewrite lookup_delete_Some. split.
           ++ intros [Hne H]. split; [done|]. intros _ y [= <-]. done.
           ++ intros [H Hne]. split; [|done]. by apply Hne.
        -- cbn. split; [intros H; split; [done|lia]|by intros [H _]].
      * cbn. split; [intros H; split; [done|by intros]|by intros [H _]].
Qed.

(** The ring keeps, of the messages added to it, under each chat and id the
    last one added, until 256 further messages have been added after one of
    that chat and id: exactly these are found. *)
Theorem recent_messages_held l to id m : Forall (fun x => snd (fst x) <> "") l -> IsEmpty m = false ->
  getRecentMessage to id (adds l empty_ring) = m <-> held l (to, id) m.
Proof.
  intros Hids Hm. assert (ring_ok l (adds l empty_ring)) as Hok.
  { clear Hm. induction l as [|[k x] l IH] using rev_ind; [apply empty_ring_ok|].
    apply Forall_app in Hids as [Hids _]. unfold adds. rewrite foldl_app. cbn [foldl fst snd]. apply add_ok; [by apply IH|done]. }
  rewrite <- (ring_map _ _ Hok). unfold getRecentMessage. destruct (recentMessagesMap _ !! (to, id)) as [m'|].
  - change (default _ (Some m')) with m'. split; congruence.
  - change (default (mkRecent None None) None) with (mkRecent None None). split; [|done]. by intros <-.
Qed.

Context (Marshal_wa : WA -> option bytes) (Marshal_fb : FB -> option bytes).
Context (Unmarshal_wa : bytes -> option WA) (Unmarshal_fb : bytes -> option FB).
Context (own : bool).

Inductive recent_error :=
  | ErrMarshal
  | ErrAdd (e : sql_error)
  | ErrClear (e : sql_error)
  | ErrAltJID
  | ErrGet (e : sql_error)
  | ErrUnmarshal
  | ErrFormat (f : string).

Abbreviation client := (db outgoing ring).

Definition the_ring : stm client recent_error ring := fun s => (s, Ok (mem s)).

Definition remember (key : recentMessageKey) (m : RecentMessage) : stm client recent_error unit :=
  fun s => (set_mem (add key m (mem s)) s, Ok tt).

Definition retry_payload (m : RecentMessage) : stm client recent_error (option (string * bytes)) :=
  match wa m, fb m with
  | Some x, _ => match Marshal_wa x with Some b => mret (Some ("wa", b)) | None => throw ErrMarshal end
  | None, Some x => match Marshal_fb x with Some b => mret (Some ("fb", b)) | None => throw ErrMarshal end
  | None, None => mret None
  end.

(** Nothing assigns lastRetryStoreClear: it is the zero time, more than twelve
    hours ago, at every message. *)
Definition addRecentMessage (UseRetryMessageStore : bool) (nowMS : Z) (to : JID) (id : string) (m : RecentMessage) :
    stm client recent_error unit :=
  (if UseRetryMessageStore then
     buf ← retry_payload m;
     match buf with
     | Some (fmt, b) =>
         wrap ErrAdd (AddOutgoingEvent to id fmt b nowMS);;
         wrap ErrClear (DeleteOldOutgoingEvents nowMS)
     | None => mret tt
     end
   else mret tt : stm client recent_error unit);;
  remember (to, id) m.

Definition parseRecentMessage (fmt : string) (buf : bytes) : outcome recent_error RecentMessage :=
  if String.eqb fmt "wa" then match Unmarshal_wa buf with Some x => Ok (mkRecent (Some x) None) | None => Err ErrUnmarshal end
  else if String.eqb fmt "fb" then match Unmarshal_fb buf with Some x => Ok (mkRecent None (Some x)) | None => Err ErrUnmarshal end
  else Err (ErrFormat fmt).

(** The LID map ([None]: an error) and the user's callback. *)
Context (GetLIDForPN GetPNForLID : JID -> option JID).
Context (GetMessageForRetry : JID -> JID -> string -> option WA).

Definition alternate (chat : JID) : option JID :=
  if bool_decide (Server chat = DefaultUserServer) then GetLIDForPN chat
  else if bool_decide (Server chat = HiddenUserServer) then GetPNForLID chat
  else Some EmptyJID.

(** The receipt's sender and chat. *)
Definition getMessageForRetry (UseRetryMessageStore : bool) (sender chat : JID) (id : string) :
    stm client recent_error (option RecentMessage) :=
  r ← the_ring;
  let msg := getRecentMessage chat id r in
  if negb (IsEmpty msg) then mret (Some msg)
  else
    match alternate chat with
    | None => throw ErrAltJID
    | Some altChat =>
        let msg := getRecentMessage altChat id r in
        if negb (jid.IsEmpty altChat) && negb (IsEmpty msg) then mret (Some msg)
        else if UseRetryMessageStore then
          '(fmt, buf) ← wrap ErrGet (GetOutgoingEvent own chat altChat id);
          m ← lift (parseRecentMessage fmt buf);
          mret (Some m)
        else
          match GetMessageForRetry sender chat id with
          | Some x => mret (Some (mkRecent (Some x) None))
          | None => mret None
          end
    end.

(** ** The messages in the table *)

Lemma wrap_exec {T M} f (s : db T M) t (w : sql_error -> recent_error) :
  works s -> f (rows s) = Some t -> wrap w (exec f) s = (set_rows t s, Ok tt).
Proof. intros Hw Hf. unfold wrap. by rewrite (exec_works f s t Hw Hf). Qed.

Lemma addRecentMessage_stored nowMS to id m k fmt b s :
  works s -> column to = Some k -> retry_payload m s = (s, Ok (Some (fmt, b))) ->
  addRecentMessage true nowMS to id m s =
  (set_mem (add (to, id) m (mem s))
     (set_rows (filter (recent_outgoing nowMS) (<[(k, id) := mkOutgoing fmt b nowMS]> (rows s))) s), Ok tt).
Proof.
  intros Hw Hk Hp. unfold addRecentMessage.
  rewrite (stm_bind_ok _ _ s (set_rows (filter (recent_outgoing nowMS) (<[(k, id) := mkOutgoing fmt b nowMS]> (rows s))) s) tt); [reflexivity|].
  rewrite (stm_bind_ok _ _ _ _ _ Hp).
  rewrite (stm_bind_ok _ _ s (set_rows (<[(k, id) := mkOutgoing fmt b nowMS]> (rows s)) s) tt); [etrans; [by apply wrap_exec|done]|].
  apply wrap_exec; [done|by rewrite Hk].
Qed.

Lemma GetOutgoingEvent_found (chat altChat : JID) (id : string) (s : client) k (r : OutgoingEvent) :
  works s -> column chat = Some k -> rows s !! (k, id) = Some r ->
  (forall ka r', column altChat = Some ka -> rows s !! (ka, id) = Some r' -> r' = r) ->
  GetOutgoingEvent own chat altChat id s = (s, Ok (format r, payload r)).
Proof.
  intros Hw Hk Hr Ha. unfold GetOutgoingEvent. rewrite (stm_bind_ok _ _ _ _ _ (query_works _ _ Hw)). cbn beta zeta.
  rewrite Hk. cbn [mbind option_bind]. rewrite Hr. destruct (column altChat) as [ka|]; cbn [mbind option_bind]; [|done].
  destruct (rows s !! (ka, id)) as [r'|] eqn:E; [|done]. rewrite (Ha _ _ eq_refl E). by destruct own.
Qed.

(** With the table in use a sent message is found again by a client that has
    started anew, and adding it leaves no message of more than seven days. *)
Theorem sent_message_survives nowMS sender to id m k fmt b s alt :
  works s -> column to = Some k -> retry_payload m s = (s, Ok (Some (fmt, b))) -> parseRecentMessage fmt b = Ok m ->
  alternate to = Some alt -> (forall ka, column alt = Some ka -> ka <> k -> rows s !! (ka, id) = None) ->
  exists s', addRecentMessage true nowMS to id m s = (s', Ok tt) /\
    (forall x r, rows s' !! x = Some r -> nowMS - 7 * 24 * 3600 * 1000 <= timestamp r) /\
    snd (getMessageForRetry true sender to id (set_mem empty_ring s')) = Ok (Some m).
Proof.
  intros Hw Hk Hp Hparse Halt Hrow. rewrite (addRecentMessage_stored _ _ _ _ _ _ _ _ Hw Hk Hp). eexists. split; [done|]. split.
  - intros x r H. cbn [rows set_rows set_mem] in H. apply map_lookup_filter_Some in H as [_ H]. unfold recent_outgoing in H. cbn in H. lia.
  - unfold getMessageForRetry. erewrite (stm_bind_ok the_ring) by reflexivity. cbn [mem set_mem].
    assert (forall j, getRecentMessage j id empty_ring = mkRecent None None) as Hr
      by (intros j; unfold getRecentMessage; cbn [recentMessagesMap empty_ring]; by rewrite lookup_empty).
    assert (recent_outgoing nowMS ((k, id), mkOutgoing fmt b nowMS)) as Hnow by (unfold recent_outgoing; cbn; lia).
    rewrite !Hr. change (IsEmpty (mkRecent None None)) with true. cbn [negb]. rewrite Halt, Hr, andb_false_r.
    match goal with |- snd (_ ?x) = _ => assert (GetOutgoingEvent own to alt id x = (x, Ok (fmt, b))) as Hg end.
    { apply (GetOutgoingEvent_found to alt id _ k (mkOutgoing fmt b nowMS)); [exact Hw|done| |].
      - cbn [rows set_rows set_mem]. apply map_lookup_filter_Some_2; [apply lookup_insert_eq|done].
      - intros ka r Eka H. cbn [rows set_rows set_mem] in H. apply map_lookup_filter_Some in H as [H _].
        destruct (decide (ka = k)) as [->|Hne]; [rewrite lookup_insert_eq in H; congruence|].
        rewrite lookup_insert_ne in H by congruence. by rewrite (Hrow _ Eka Hne) in H. }
    rewrite (stm_bind_ok _ _ _ _ _ (wrap_ok ErrGet _ _ _ _ Hg)).
    unfold lift, mbind, stm_bind. by rewrite Hparse.
Qed.

(** With the table in use a message that is neither in the ring nor in the
    table is an error: the callback for such messages is never asked. *)
Theorem stored_retry_skips_callback sender to id s alt :
  works s -> alternate to = Some alt ->
  recentMessagesMap (mem s) !! (to, id) = None -> recentMessagesMap (mem s) !! (alt, id) = None ->
  (forall j k, (j = to \/ j = alt) -> column j = Some k -> rows s !! (k, id) = None) ->
  getMessageForRetry true sender to id s = (s, Err (ErrGet ErrNoRows)).
Proof.
  intros Hw Halt H1 H2 H3. unfold getMessageForRetry. erewrite (stm_bind_ok the_ring) by reflexivity.
  unfold getRecentMessage at 1. rewrite H1. change (IsEmpty (default (mkRecent None None) None)) with true. cbn [negb]. rewrite Halt.
  unfold getRecentMessage at 1. rewrite H2. change (IsEmpty (default (mkRecent None None) None)) with true. cbn [negb]. rewrite andb_false_r.
  assert (GetOutgoingEvent own to alt id s = (s, Err ErrNoRows)) as Hg.
  { unfold GetOutgoingEvent. rewrite (stm_bind_ok _ _ _ _ _ (query_works _ _ Hw)).
    assert (forall j, (j = to \/ j = alt) -> (k ← column j; rows s !! (k, id)) = None) as Hn.
    { intros j Hj. destruct (column j) as [k|] eqn:Ek; [|done]. by apply (H3 j). }
    rewrite !Hn by auto. done. }
  unfold wrap, mbind, stm_bind. by rewrite Hg.
Qed.

End messages.

Arguments RecentMessage : clear implicits.
Arguments ring : clear implicits.

End recent.

Module retry.

Import jid attrs sql crypto prekeystore prekeys source receipt recent.

Definition recreateSessionTimeout : Z := 3600 * 10 ^ 9.

Abbreviation history := (gmap JID Z).

(** [contains]: whether there is a session with the device; [None] is an error.
    [now] in nanoseconds. *)
Definition shouldRecreateSession (now : Z) (contains : option bool) (retryCount : Z) (jid : JID) (h : history) : bool * history :=
  match contains with
  | None => (false, h)
  | Some false => (true, <[jid := now]> h)
  | Some true =>
      if retryCount <? 2 then (false, h)
      else
        match h !! jid with
        | None => (true, <[jid := now]> h)
        | Some prevTime => if prevTime + recreateSessionTimeout <? now then (true, <[jid := now]> h) else (false, h)
        end
  end.

(** ** Retry receipts from this client *)

Abbreviation counts := (gmap string Z).

Inductive action :=
  | RequestNow              (* immediateRequestMessageFromPhone *)
  | RequestDelayed          (* go delayedRequestMessageFromPhone *)
  | Send (n : Node).

Definition string_attr (k : string) (n : Node) : string :=
  match attr_get k (node_attrs n) with Some (AString s) => s | _ => "" end.

Definition count_in_message (node : Node) : Z :=
  match GetChildren node with
  | [c] => if String.eqb (node_tag c) "enc" then fst (OptionalInt "count" (AttrGetter c)) else 0
  | _ => 0
  end.

(** The counter of the message after this receipt; an int of 64 bits. *)
Definition next_count (node : Node) (m : counts) : Z :=
  let n := i64 (default 0 (m !! string_attr "id" node) + 1) in
  if (n =? 1) && (0 <? count_in_message node) then i64 (count_in_message node + 1) else n.

Section send.
(** The device's registration id, public identity key and signed prekey. *)
Context (registrationID : Z) (identityPub : bytes) (signedPreKey : PreKey).

(** The parts of the message's info that are looked at. *)
Record retry_info := mkInfo { info_id : string; info_type : string; info_from_me : bool }.

Definition retry_attrs (node : Node) (info : retry_info) : Attrs :=
  let a := attr_set "type" (AString "retry") (buildBaseReceipt (info_id info) node) in
  if String.eqb (info_type info) "peer_msg" && info_from_me info then attr_set "category" (AString "peer") a else a.

Definition retry_node (node : Node) (info : retry_info) (retryCount : Z) (extra : list Node) : Node :=
  mkNode "receipt" (retry_attrs node info)
    (ANodes ([mkNode "retry" [("count", AInt retryCount); ("id", AString (string_attr "id" node));
                              ("t", attr_or_nil "t" (node_attrs node)); ("v", AInt 1)] ANil;
              mkNode "registration" [] (ABytes (PutUint32 registrationID))] ++ extra)).

Definition keys_node (k : PreKey) (deviceIdentity : bytes) : Node :=
  mkNode "keys" [] (ANodes
    [mkNode "type" [] (ABytes [DjbType]); mkNode "identity" [] (ABytes identityPub); preKeyToNode k;
     preKeyToNode signedPreKey; mkNode "device-identity" [] (ABytes deviceIdentity)]).

(** [key]: GenOnePreKey; [account]: the account's encoding; [None] are errors.
    A failure to send is logged. *)
Definition sendRetryReceipt (SynchronousAck : bool) (key : option PreKey) (account : option bytes)
    (node : Node) (info : retry_info) (forceIncludeIdentity : bool) (m : counts) : counts * list action :=
  let retryCount := next_count node m in
  let m := <[string_attr "id" node := retryCount]> m in
  if 5 <=? retryCount then (m, [])
  else
    let request := if retryCount =? 1 then [if SynchronousAck then RequestNow else RequestDelayed] else [] in
    if (1 <? retryCount) || forceIncludeIdentity then
      match key, account with
      | None, _ => (m, request ++ [Send (retry_node node info retryCount [])])
      | Some _, None => (m, request)
      | Some k, Some deviceIdentity => (m, request ++ [Send (retry_node node info retryCount [keys_node k deviceIdentity])])
      end
    else (m, request ++ [Send (retry_node node info retryCount [])]).

End send.

(** ** At most four retry receipts for a message *)

Record call := mkCall { c_sync : bool; c_key : option PreKey; c_account : option bytes; c_node : Node; c_info : retry_info; c_force : bool }.

Definition is_send (a : action) : bool := match a with Send _ => true | _ => false end.

Section capped.
Context (registrationID : Z) (identityPub : bytes) (signedPreKey : PreKey).

Definition run_call (c : call) (m : counts) : counts * list action :=
  sendRetryReceipt registrationID identityPub signedPreKey (c_sync c) (c_key c) (c_account c) (c_node c) (c_info c) (c_force c) m.

(** The retry receipts sent for the message with this id. *)
Fixpoint sends (id : string) (calls : list call) (m : counts) : nat :=
  match calls with
  | [] => O
  | c :: calls =>
      let '(m, acts) := run_call c m in
      ((if String.eqb (string_attr "id" (c_node c)) id then length (List.filter is_send acts) else O) + sends id calls m)%nat
  end.

Lemma run_call_counts c m : fst (run_call c m) = <[string_attr "id" (c_node c) := next_count (c_node c) m]> m.
Proof.
  unfold run_call, sendRetryReceipt. destruct (5 <=? _); [done|]. destruct (_ || _); [|done].
  by destruct (c_key c), (c_account c).
Qed.

Lemma run_call_sends c m :
  (length (List.filter is_send (snd (run_call c m))) <= if (5 <=? next_count (c_node c) m)%Z then 0 else 1)%nat.
Proof.
  unfold run_call, sendRetryReceipt. destruct (5 <=? _); [done|].
  assert (forall l, length (List.filter is_send ((if next_count (c_node c) m =? 1 then [if c_sync c then RequestNow else RequestDelayed] else []) ++ l))
    = length (List.filter is_send l)) as Hl.
  { intros l. destruct (_ =? 1); [|done]. by destruct (c_sync c). }
  destruct (_ || _); [|cbn [snd]; rewrite Hl; done].
  destruct (c_key c) as [k|]; [destruct (c_account c)|]; cbn [snd]; rewrite ?Hl; try done.
  pose proof (Hl []) as H0. rewrite app_nil_r in H0. rewrite H0. cbn. lia.
Qed.

Lemma i64_small z : - 2 ^ 63 <= z < 2 ^ 63 -> i64 z = z.
Proof. intros H. unfold i64. rewrite Z.mod_small by lia. lia. Qed.

Lemma next_count_bounds node m k : count_in_message node < 2 ^ 62 -> 0 <= k < 2 ^ 62 - 1 ->
  0 <= default 0 (m !! string_attr "id" node) <= 2 ^ 62 + k ->
  default 0 (m !! string_attr "id" node) < next_count node m <= 2 ^ 62 + k + 1.
Proof.
  unfold next_count. generalize (default 0 (m !! string_attr "id" node)). intros c Hi Hk Hc.
  rewrite (i64_small (c + 1)) by lia. destruct (Z.eqb_spec (c + 1) 1), (Z.ltb_spec 0 (count_in_message node)); cbn [andb]; try lia.
  rewrite i64_small by lia. lia.
Qed.

(** (C38) However often a message fails to decrypt, and whatever retry counts come
    with it, the client sends at most four retry receipts for its id. *)
Theorem retry_receipts_capped id calls :
  Forall (fun c => count_in_message (c_node c) < 2 ^ 62) calls -> Z.of_nat (length calls) < 2 ^ 62 ->
  (sends id calls ∅ <= 4)%nat.
Proof.
  intros Hc Hn. assert (forall m k, 0 <= k -> k + Z.of_nat (length calls) < 2 ^ 62 ->
    (forall i, 0 <= default 0 (m !! i) <= 2 ^ 62 + k) ->
    Z.of_nat (sends id calls m) <= Z.max 0 (4 - default 0 (m !! id))) as H.
  { clear Hn. induction Hc as [|c calls Hi _ IH]; intros m k Hk Hl Hm; cbn [sends]; [lia|].
    cbn [length] in Hl. pose proof (run_call_counts c m) as Hcount. pose proof (run_call_sends c m) as Hs.
    destruct (run_call c m) as [m' acts]. cbn [fst snd] in *. subst m'.
    pose proof (next_count_bounds (c_node c) m k Hi ltac:(lia) (Hm _)) as Hb.
    assert (forall i, 0 <= default 0 (<[string_attr "id" (c_node c) := next_count (c_node c) m]> m !! i) <= 2 ^ 62 + (k + 1)) as Hm'.
    { intros i. destruct (decide (string_attr "id" (c_node c) = i)) as [<-|Hne].
      - rewrite lookup_insert_eq. change (default 0 (Some ?x)) with x. specialize (Hm (string_attr "id" (c_node c))). lia.
      - rewrite lookup_insert_ne by done. specialize (Hm i). lia. }
    specialize (IH _ (k + 1) ltac:(lia) ltac:(lia) Hm'). destruct (String.eqb_spec (string_attr "id" (c_node c)) id) as [E|E].
    - rewrite E in *. rewrite lookup_insert_eq in IH. change (default 0 (Some ?x)) with x in IH.
      specialize (Hm id). destruct (Z.leb_spec 5 (next_count (c_node c) m)); lia.
    - rewrite lookup_insert_ne in IH by done. lia. }
  specialize (H ∅ 0 ltac:(lia) ltac:(lia)). rewrite lookup_empty in H.
  assert (forall i : string, 0 <= default 0 ((∅ : counts) !! i) <= 2 ^ 62 + 0) as H0 by (intros i; rewrite lookup_empty; cbn; lia).
  specialize (H H0). change (default 0 None) with 0 in H. lia.
Qed.

(** A count of 2^63 - 1 in the message overflows the counter, and from then on
    the receipts for the message are not limited. *)
Theorem huge_count_uncapped id first calls :
  c_force first = false -> string_attr "id" (c_node first) = id -> count_in_message (c_node first) = 2 ^ 63 - 1 ->
  Forall (fun c => c_force c = false /\ string_attr "id" (c_node c) = id) calls -> Z.of_nat (length calls) < 2 ^ 62 ->
  sends id (first :: calls) ∅ = Datatypes.S (length calls).
Proof.
  intros Hf Hid Hcount Hc Hn.
  assert (forall c m, c_force c = false -> next_count (c_node c) m <= 0 -> length (List.filter is_send (snd (run_call c m))) = 1%nat) as Hsend.
  { intros c m Hcf Hle. unfold run_call, sendRetryReceipt. destruct (Z.leb_spec 5 (next_count (c_node c) m)); [lia|].
    rewrite Hcf, orb_false_r. destruct (Z.ltb_spec 1 (next_count (c_node c) m)); [lia|].
    by destruct (Z.eqb_spec (next_count (c_node c) m) 1); [lia|]. }
  cbn [sends]. pose proof (run_call_counts first ∅) as H1. assert (next_count (c_node first) ∅ = - 2 ^ 63) as Hnext.
  { unfold next_count. rewrite lookup_empty. change (default 0 None) with 0. rewrite Hcount. vm_compute. reflexivity. }
  pose proof (Hsend first ∅ Hf ltac:(rewrite Hnext; lia)) as H2. destruct (run_call first ∅) as [m acts]. cbn [fst snd] in *. subst m.
  rewrite Hid, String.eqb_refl, H2, Hnext. cbn [plus]. f_equal.
  assert (forall m k, 0 <= k -> k + Z.of_nat (length calls) < 2 ^ 62 -> m !! id = Some (- 2 ^ 63 + k) -> sends id calls m = length calls) as H.
  { clear Hn. induction Hc as [|c calls [Hcf Hi] _ IH]; intros m k Hk Hl Hm; cbn [sends length]; [done|]. cbn [length] in Hl.
    assert (next_count (c_node c) m = - 2 ^ 63 + (k + 1)) as Hnc.
    { unfold next_count. rewrite Hi, Hm. change (default 0 (Some ?x)) with x. rewrite i64_small by lia.
      destruct (Z.eqb_spec (- 2 ^ 63 + k + 1) 1); [lia|]. cbn [andb]. lia. }
    pose proof (run_call_counts c m) as Hcounts. pose proof (Hsend c m Hcf ltac:(lia)) as Hs.
    destruct (run_call c m) as [m' acts']. cbn [fst snd] in *. subst m'. rewrite Hi, String.eqb_refl, Hs. cbn [plus]. f_equal.
    apply (IH _ (k + 1)); [lia|lia|]. by rewrite lookup_insert_eq, Hnc. }
  apply (H _ 0); [lia|lia|]. by rewrite lookup_insert_eq.
Qed.

End capped.

(** ** Requests to the phone, for messages that were not readable *)

Abbreviation pending := (gmap string bool).   (* by message id; cancelled or not *)

Definition cancelDelayedRequestFromPhone (enabled : bool) (id : string) (p : pending) : pending :=
  if enabled then alter (fun _ => true) id p else p.

(** The start of delayedRequestMessageFromPhone: whether it goes on to wait. *)
Definition begin_delayed (enabled : bool) (id : string) (p : pending) : bool * pending :=
  if negb enabled then (false, p)
  else match p !! id with Some _ => (false, p) | None => (true, <[id := false]> p) end.

(** Its end, after the delay or when cancelled: whether the request is sent. *)
Definition end_delayed (id : string) (p : pending) : bool * pending :=
  (match p !! id with Some cancelled => negb cancelled | None => true end, delete id p).

Definition clearDelayedMessageRequests (p : pending) : pending := (fun _ => true) <$> p.

(** ** Answers to retry receipts *)

Section handle.
Context {WA FB : Type}.

(** The retry receipt's own error values. *)
Inductive retry_error :=
  | MissingRetry
  | BadRetryAttrs (l : list attr_error)
  | NotFound (e : option recent_error)
  | DecodeConsumer
  | MarshalMessage
  | BadKeys (e : prekey_error)
  | FetchFailed
  | FetchedBadKeys (e : prekey_error)
  | NoKeys
  | EncryptFailed
  | SendFailed.

(** What the handler calls: the message table, the generated types, libsignal,
    the LID map and the socket. *)
Record services := mkServices {
  find_message : JID -> JID -> string -> stm (db eventbuffer.outgoing (ring WA FB)) recent_error (option (RecentMessage WA FB));
  decodes_consumer : FB -> bool;
  create_skdm : JID -> option bytes;
  set_skdm : string -> bytes -> WA -> WA;
  set_sent : string -> WA -> WA;
  marshal_wa : WA -> option bytes;
  marshal_fb : FB -> option bytes;
  franking_tag : FB -> bytes -> bytes;
  pre_retry : Receipt -> string -> Z -> option WA -> bool;
  contains_session : JID -> option bool;
  fetch_keys : JID -> option (list (JID * outcome prekey_error Bundle));
  wa_attrs : WA -> string * string;        (* type, media type *)
  fb_attrs : FB -> string * string;
  lid_for_pn : JID -> option JID;
  encrypt_wa : bytes -> JID -> option Bundle -> Attrs -> option (Node * bool);
  encrypt_fb : bytes -> option bytes -> bool -> JID -> option Bundle -> Attrs -> option Node;
  message_content : Node -> WA -> Attrs -> bool -> list Node;
  send_node : Node -> bool
}.
Context (S : services).

Record retry_state := mkState {
  messages : db eventbuffer.outgoing (ring WA FB);
  incomingRetryRequestCounter : gmap (JID * string) Z;
  sessionRecreateHistory : history
}.

Abbreviation rm := (stm retry_state retry_error).

Definition get_message (r : Receipt) (id : string) : rm (RecentMessage WA FB) := fun s =>
  match find_message S (Sender (rsource r)) (Chat (rsource r)) id (messages s) with
  | (d, Ok (Some m)) => (mkState d (incomingRetryRequestCounter s) (sessionRecreateHistory s), Ok m)
  | (d, Ok None) => (mkState d (incomingRetryRequestCounter s) (sessionRecreateHistory s), Err (NotFound None))
  | (d, Err e) => (mkState d (incomingRetryRequestCounter s) (sessionRecreateHistory s), Err (NotFound (Some e)))
  | (d, Panic) => (mkState d (incomingRetryRequestCounter s) (sessionRecreateHistory s), Panic)
  | (d, NoFuel) => (mkState d (incomingRetryRequestCounter s) (sessionRecreateHistory s), NoFuel)
  end.

Definition count_request (key : JID * string) : rm Z := fun s =>
  let n := i64 (default 0 (incomingRetryRequestCounter s !! key) + 1) in
  (mkState (messages s) (<[key := n]> (incomingRetryRequestCounter s)) (sessionRecreateHistory s), Ok n).

Definition recreate (now retryCount : Z) (jid : JID) : rm bool := fun s =>
  let '(b, h) := shouldRecreateSession now (contains_session S jid) retryCount jid (sessionRecreateHistory s) in
  (mkState (messages s) (incomingRetryRequestCounter s) h, Ok b).

(** The keys the message is sent with: those in the receipt, or fetched ones. *)
Definition retry_bundle (now retryCount : Z) (r : Receipt) (node : Node) : rm (option Bundle) :=
  let sender := Sender (rsource r) in
  if snd (GetOptionalChildByTag node ["keys"]) then
    b ← lift (map_err BadKeys (nodeToPreKeyBundle (u32 (Device sender)) node));
    mret (Some b)
  else
    again ← recreate now retryCount sender;
    if (again : bool) then
      match fetch_keys S sender with
      | None => throw FetchFailed
      | Some keys =>
          match list_find (fun x => fst x = sender) (rev keys) with
          | Some (_, (_, Ok b)) => mret (Some b)
          | Some (_, (_, Err e)) => throw (FetchedBadKeys e)
          | Some (_, (_, _)) => panic
          | None => throw NoKeys
          end
      end
    else mret None.

(** The message with what a group or an own device needs beside it: the sender
    key for the group, the wrapping for the own device. *)
Definition dress (r : Receipt) (m : RecentMessage WA FB) : RecentMessage WA FB * option bytes * bool :=
  let chat := jid.String_ (Chat (rsource r)) in
  if IsGroup (rsource r) then
    match create_skdm S (Chat (rsource r)), wa m with
    | None, _ => (m, None, false)
    | Some k, Some x => (mkRecent (Some (set_skdm S chat k x)) (fb m), None, false)
    | Some k, None => (m, Some k, false)
    end
  else if IsFromMe (rsource r) then
    match wa m with
    | Some x => (mkRecent (Some (set_sent S chat x)) (fb m), None, false)
    | None => (m, None, true)
    end
  else (m, None, false).

Definition encryption_identity (sender : JID) : JID :=
  if bool_decide (Server sender = DefaultUserServer) then
    match lid_for_pn S sender with
    | Some lid => if jid.IsEmpty lid then sender else lid
    | None => sender
    end
  else sender.

(** The attributes of the message element. *)
Definition retry_message_attrs (r : Receipt) (node : Node) (type_ id : string) (t : gotime) : Attrs :=
  let secs := match t with ZeroTime => -62135596800 | UnixNano ns => ns / 10 ^ 9 end in
  let a := [("to", attr_or_nil "from" (node_attrs node)); ("type", AString type_); ("id", AString id); ("t", AInt64 secs)] in
  let a := if IsGroup (rsource r) then a else attr_set "device_fanout" (ABool false) a in
  copy_attr "edit" (node_attrs node) (copy_attr "recipient" (node_attrs node) (copy_attr "participant" (node_attrs node) a)).

Definition or_error {A} (o : option A) (e : retry_error) : rm A := match o with Some a => mret a | None => throw e end.

Definition handleRetryReceipt (now : Z) (r : Receipt) (node : Node) : rm (option Node) :=
  let '(retryChild, ok) := GetOptionalChildByTag node ["retry"] in
  if negb ok then throw MissingRetry
  else
    let '(messageID, ag) := attrs.String_ "id" (AttrGetter retryChild) in
    let '(timestamp, ag) := UnixTime "t" ag in
    let '(retryCount, ag) := Int "count" ag in
    if negb (OK ag) then throw (BadRetryAttrs (au_errors ag))
    else
      msg ← get_message r messageID;
      if match fb msg with Some x => negb (decodes_consumer S x) | None => false end then throw DecodeConsumer
      else
        n ← count_request (Sender (rsource r), messageID);
        if 10 <=? n then mret None
        else
          let '(msg, fbSKDM, fbDSM) := dress r msg in
          if negb (pre_retry S r messageID retryCount (wa msg)) then mret None
          else
            plaintext ← or_error (match wa msg, fb msg with
                                  | Some x, _ => marshal_wa S x
                                  | None, Some x => marshal_fb S x
                                  | None, None => Some []
                                  end) MarshalMessage;
            bundle ← retry_bundle now retryCount r node;
            let '(type_, media) := match wa msg, fb msg with
                                   | Some x, _ => wa_attrs S x
                                   | None, Some x => fb_attrs S x
                                   | None, None => ("text", "")
                                   end in
            let encAttrs := if String.eqb media "" then [] else [("mediatype", AString media)] in
            let sender := Sender (rsource r) in
            '(encrypted, includeDeviceIdentity) ←
              or_error (match wa msg with
                        | Some _ => encrypt_wa S plaintext (encryption_identity sender) bundle encAttrs
                        | None => n ← encrypt_fb S plaintext fbSKDM fbDSM sender bundle encAttrs; Some (n, false)
                        end) EncryptFailed;
            let encrypted := mkNode (node_tag encrypted) (attr_set "count" (AInt retryCount) (node_attrs encrypted)) (node_content encrypted) in
            let attrs := retry_message_attrs r node type_ messageID timestamp in
            let content :=
              match wa msg with
              | Some x => message_content S encrypted x attrs includeDeviceIdentity
              | None =>
                  [encrypted; mkNode "franking" [] (ANodes [mkNode "franking_tag" []
                     (ABytes (match fb msg with Some x => franking_tag S x plaintext | None => [] end))])]
              end in
            let out := mkNode "message" attrs (ANodes content) in
            if send_node S out then mret (Some out) else throw SendFailed.

(** ** At most nine answers to a device about a message *)

Definition keeps_requests {A} (m : rm A) : Prop :=
  forall s s' o, m s = (s', o) -> incomingRetryRequestCounter s' = incomingRetryRequestCounter s.

Lemma keeps_bind {A B} (m : rm A) (k : A -> rm B) : keeps_requests m -> (forall a, keeps_requests (k a)) -> keeps_requests (m ≫= k).
Proof.
  intros Hm Hk s s' o. unfold mbind, stm_bind. destruct (m s) as [s1 o1] eqn:E. apply Hm in E.
  destruct o1 as [a|e| |]; [intros H; by rewrite (Hk a _ _ _ H)|by intros [= <- _]..].
Qed.

Lemma keeps_ret {A} (a : A) : keeps_requests (mret a).
Proof. by intros s s' o [= <- _]. Qed.

Lemma keeps_throw {A} e : keeps_requests (throw e : rm A).
Proof. by intros s s' o [= <- _]. Qed.

Lemma keeps_panic {A} : keeps_requests (panic : rm A).
Proof. by intros s s' o [= <- _]. Qed.

Lemma keeps_lift {A} x : keeps_requests (lift x : rm A).
Proof. by intros s s' o [= <- _]. Qed.

Lemma keeps_recreate now n j : keeps_requests (recreate now n j).
Proof. intros s s' o. unfold recreate. destruct (shouldRecreateSession _ _ _ _ _). by intros [= <- _]. Qed.

Lemma keeps_get_message r id : keeps_requests (get_message r id).
Proof. intros s s' o. unfold get_message. destruct (find_message _ _ _ _ _) as [d [[x|]|e| |]]; by intros [= <- _]. Qed.

Lemma keeps_or_error {A} (x : option A) e : keeps_requests (or_error x e).
Proof. destruct x; [apply keeps_ret|apply keeps_throw]. Qed.

Ltac keeps := repeat first
  [ apply keeps_ret | apply keeps_throw | apply keeps_panic | apply keeps_lift | apply keeps_recreate | apply keeps_or_error
  | apply keeps_bind; [|intros ?] | case_match ].

(** The id of the message that is asked for. *)
Definition requested_id (node : Node) : string :=
  fst (attrs.String_ "id" (AttrGetter (fst (GetOptionalChildByTag node ["retry"])))).

Lemma handleRetryReceipt_counts now r node s s' o : handleRetryReceipt now r node s = (s', o) ->
  incomingRetryRequestCounter s' = incomingRetryRequestCounter s /\ (forall n, o <> Ok (Some n)) \/
  let key := (Sender (rsource r), requested_id node) in
  let n := i64 (default 0 (incomingRetryRequestCounter s !! key) + 1) in
  incomingRetryRequestCounter s' = <[key := n]> (incomingRetryRequestCounter s) /\ (forall x, o = Ok (Some x) -> n < 10).
Proof.
  unfold handleRetryReceipt, requested_id. destruct (GetOptionalChildByTag node ["retry"]) as [rc [|]]; cbn [negb fst].
  2: { intros [= <- <-]. left. split; [done|]. intros ? [=]. }
  destruct (attrs.String_ "id" (AttrGetter rc)) as [id ag]. destruct (UnixTime "t" ag) as [t ag1]. destruct (Int "count" ag1) as [n ag2].
  cbn [fst]. destruct (negb (OK ag2)); [intros [= <- <-]; left; split; [done|]; intros ? [=]|].
  unfold mbind at 1, stm_bind at 1. destruct (get_message r id s) as [s1 o1] eqn:E. pose proof (keeps_get_message _ _ _ _ _ E) as H1.
  destruct o1 as [m|e| |]; [|intros [= <- <-]; left; split; [done|]; intros ? [=]..].
  destruct (match fb m with Some x => _ | None => _ end); [intros [= <- <-]; left; split; [done|]; intros ? [=]|].
  unfold mbind at 1, stm_bind at 1. cbn [count_request]. rewrite H1.
  set (c := i64 _). intros H. right. cbn zeta. destruct (Z.leb_spec 10 c) as [Hc|Hc].
  - injection H as <- <-. split; [done|]. intros ? [=].
  - split; [|intros; lia]. revert H. match goal with |- ?m ?st = _ -> _ => assert (keeps_requests m) as Hk end.
    { destruct (dress r m) as [[m' k] b]. unfold retry_bundle. keeps. }
    intros H. by rewrite (Hk _ _ _ H).
Qed.

Definition answer_key (x : Z * Receipt * Node) : JID * string := (Sender (rsource (snd (fst x))), requested_id (snd x)).

(** The answers sent to [key] while the receipts are handled one after the other. *)
Fixpoint answers (key : JID * string) (l : list (Z * Receipt * Node)) (s : retry_state) : nat :=
  match l with
  | [] => O
  | x :: l =>
      let '(s, o) := handleRetryReceipt (fst (fst x)) (snd (fst x)) (snd x) s in
      ((match o with Ok (Some _) => if decide (answer_key x = key) then 1 else 0 | _ => 0 end) + answers key l s)%nat
  end.

(** A device is sent a message again at most nine times on its request. *)
Theorem retry_answers_capped key l s :
  incomingRetryRequestCounter s = ∅ -> Z.of_nat (length l) < 2 ^ 62 -> (answers key l s <= 9)%nat.
Proof.
  intros H0 Hl. assert (forall s k, 0 <= k -> k + Z.of_nat (length l) < 2 ^ 62 ->
    (forall i, 0 <= default 0 (incomingRetryRequestCounter s !! i) <= k) ->
    Z.of_nat (answers key l s) <= Z.max 0 (9 - default 0 (incomingRetryRequestCounter s !! key))) as H.
  { clear Hl s H0. induction l as [|x l IH]; intros s k Hk Hl Hm; cbn [answers length] in *; [lia|].
    destruct (handleRetryReceipt _ _ _ s) as [s' o] eqn:E. apply handleRetryReceipt_counts in E as [[Hs Ho]|[Hs Ho]].
    - specialize (IH s' k Hk ltac:(lia)). rewrite Hs in IH. specialize (IH Hm).
      destruct o as [[n|]|e| |]; try lia. by destruct (Ho n).
    - cbn zeta in Hs, Ho. change (Sender (rsource (snd (fst x))), requested_id (snd x)) with (answer_key x) in *.
      pose proof (Hm (answer_key x)) as Hc. set (c := default 0 (incomingRetryRequestCounter s !! answer_key x)) in *.
      rewrite (i64_small (c + 1)) in Hs, Ho by lia.
      assert (forall i, 0 <= default 0 (incomingRetryRequestCounter s' !! i) <= k + 1) as Hm'.
      { intros i. rewrite Hs. destruct (decide (answer_key x = i)) as [<-|Hne].
        - rewrite lookup_insert_eq. change (default 0 (Some ?y)) with y. lia.
        - rewrite lookup_insert_ne by done. specialize (Hm i). lia. }
      specialize (IH s' (k + 1) ltac:(lia) ltac:(lia) Hm'). rewrite Hs in IH. destruct (decide (answer_key x = key)) as [Ek|Ek].
      + subst key. rewrite lookup_insert_eq in IH. change (default 0 (Some ?y)) with y in IH.
        change (default 0 (incomingRetryRequestCounter s !! answer_key x)) with c. destruct o as [[n|]|e| |]; try lia.
        specialize (Ho n eq_refl). lia.
      + rewrite lookup_insert_ne in IH by done. destruct o as [[n|]|e| |]; lia. }
  specialize (H s 0 ltac:(lia) ltac:(lia)). rewrite H0 in H. rewrite lookup_empty in H.
  assert (forall i : JID * string, 0 <= default 0 ((∅ : gmap (JID * string) Z) !! i) <= 0) as Hz by (intros i; rewrite lookup_empty; cbn; lia).
  specialize (H Hz). change (default 0 None) with 0 in H. lia.
Qed.

End handle.

(** ** What the other side reads of a retry receipt *)

Section read.
Import encoder wire.
Context (registrationID : Z) (identityPub : bytes) (signedPreKey : PreKey).

Lemma norm_preKeyToNode k : norm_node (preKeyToNode k) = preKeyToNode k.
Proof. unfold preKeyToNode. by destruct (Signature k). Qed.

(** Over the wire a retry receipt with keys asks for the message by its id
    with the count it was sent with, and the other side builds from it the
    session bundle of this device: its registration id, identity, signed prekey
    and the fresh prekey. *)
Theorem retry_receipt_read node info count k deviceIdentity n' device :
  key_ok k -> Signature k = None -> key_ok signedPreKey -> is_Some (Signature signedPreKey) ->
  blen identityPub = 32 -> 0 <= registrationID < 2 ^ 32 -> string_attr "id" node <> "" -> 0 <= count < 2 ^ 63 ->
  GetChildren n' = GetChildren (norm_node (retry_node registrationID node info count [keys_node identityPub signedPreKey k deviceIdentity])) ->
  requested_id n' = string_attr "id" node /\
  fst (Int "count" (AttrGetter (GetChildByTag n' ["retry"]))) = count /\
  exists sig, Signature signedPreKey = Some sig /\
  nodeToPreKeyBundle device n' =
  Ok (mkBundle registrationID device (Some (KeyID k, Pub (PreKeyPair k))) (KeyID signedPreKey) (Pub (PreKeyPair signedPreKey)) sig identityPub).
Proof.
  intros Hk Hkn Hs Hsig Hi Hr Hid Hc Hn.
  unfold retry_node, keys_node, GetChildren at 2 in Hn. cbn [norm_node norm node_content app map] in Hn.
  rewrite !norm_preKeyToNode in Hn.
  set (attrs' := norm_attrs [("count", AInt count); ("id", AString (string_attr "id" node));
    ("t", attr_or_nil "t" (node_attrs node)); ("v", AInt 1)]).
  assert (attr_get "id" attrs' = Some (AString (string_attr "id" node)) /\ attr_get "count" attrs' = Some (AString (itoa count))) as [Hid' Hc'].
  { unfold attrs'. cbn [norm_attrs skipped norm]. rewrite bool_decide_eq_false_2 by done. split; reflexivity. }
  match type of Hn with _ = mkNode "retry" ?a _ :: ?r => change a with attrs' in Hn; set (rest := r) in * end.
  assert (GetOptionalChildByTag n' ["retry"] = (mkNode "retry" attrs' ANil, true)) as Hretry.
  { cbn [GetOptionalChildByTag]. rewrite Hn. reflexivity. }
  unfold requested_id, GetChildByTag. rewrite Hretry. cbn [fst]. split; [|split].
  - unfold attrs.String_, value_of. by rewrite (GetString_hit "id" true (AttrGetter (mkNode "retry" attrs' ANil)) _ Hid').
  - unfold Int, value_of, GetInt64, GetParsed.
    rewrite (GetString_hit "count" true (AttrGetter (mkNode "retry" attrs' ANil)) _ Hc'). change (parse_int (itoa count)) with (atoi (itoa count)).
    by rewrite (atoi_itoa count Hc).
  - assert (forall tag, find_child tag (GetChildren n') = if bool_decide ("retry" = tag) then Some (mkNode "retry" attrs' ANil) else find_child tag rest) as Hf
      by (intros tag; by rewrite Hn).
    apply (bundle_of_keys device n' (mkNode "keys" [] (ANodes
      [mkNode "type" [] (ABytes [DjbType]); mkNode "identity" [] (ABytes identityPub); preKeyToNode k;
       preKeyToNode signedPreKey; mkNode "device-identity" [] (ABytes deviceIdentity)])) k signedPreKey identityPub registrationID);
      [done..| | | | | |].
    + by rewrite Hf.
    + by rewrite Hf.
    + cbn [GetOptionalChildByTag]. by rewrite Hf.
    + reflexivity.
    + unfold preKeyToNode. by rewrite Hkn.
    + destruct Hsig as [sig Hsig]. unfold preKeyToNode. by rewrite Hkn, Hsig.
Qed.

End read.

End retry.

Module retry_samples.

Import jid attrs sql crypto prekeystore prekeys source receipt eventbuffer recent retry.

Definition dave : JID := mkJID "15550000004" 0 0 0 DefaultUserServer.
Definition dave_lid : JID := mkJID "400" 0 0 0 HiddenUserServer.
Definition msg (s : string) : RecentMessage string string := mkRecent (Some s) None.
Definition encode (s : string) : option bytes := Some (str_bytes s).
Definition decode (b : bytes) : option string := Some (bytes_str b).
Definition to_lid (j : JID) : option JID := Some dave_lid.
Definition to_pn (j : JID) : option JID := Some dave.
Definition ask (r t : JID) (id : string) : option string := Some "from the callback".
Definition no_messages : db outgoing (ring string string) := mkDb ∅ empty_ring [].

Lemma recent_messages_held_witness :
  getRecentMessage dave "A" (adds [((dave, "A"), msg "one"); ((dave, "B"), msg "two"); ((dave, "A"), msg "three")] empty_ring) = msg "three".
Proof.
  apply (recent_messages_held [((dave, "A"), msg "one"); ((dave, "B"), msg "two"); ((dave, "A"), msg "three")] dave "A" (msg "three")).
  - repeat constructor; discriminate.
  - reflexivity.
  - exists 2%nat. split; [reflexivity|]. split.
    + intros j m' H. apply lookup_lt_Some in H. cbn in H. lia.
    + intros j m' H. apply lookup_lt_Some in H. cbn in *. lia.
Defined.

Lemma sent_message_survives_witness : exists s',
  addRecentMessage encode encode true 5 dave "A" (msg "one") no_messages = (s', Ok tt) /\
  (forall x r, rows s' !! x = Some r -> 5 - 7 * 24 * 3600 * 1000 <= timestamp r) /\
  snd (getMessageForRetry decode decode true to_lid to_pn ask true dave dave "A" (set_mem empty_ring s')) = Ok (Some (msg "one")).
Proof.
  apply (sent_message_survives encode encode decode decode true to_lid to_pn ask 5 dave dave "A" (msg "one") "15550000004@s.whatsapp.net" "wa"
    (str_bytes "one") no_messages dave_lid).
  - reflexivity.
  - reflexivity.
  - reflexivity.
  - reflexivity.
  - reflexivity.
  - intros ka _ _. reflexivity.
Defined.

Lemma stored_retry_skips_callback_witness :
  getMessageForRetry decode decode true to_lid to_pn ask true dave dave "A" no_messages = (no_messages, Err (ErrGet ErrNoRows)).
Proof.
  apply (stored_retry_skips_callback decode decode true to_lid to_pn ask dave dave "A" no_messages dave_lid); try reflexivity.
Defined.

(** A message that fails again and again, first with a count of its own. *)
Definition enc_node (count : string) : Node :=
  mkNode "message" [("id", AString "A"); ("from", AJID dave); ("t", AString "1700000000")]
    (ANodes [mkNode "enc" [("type", AString "msg"); ("count", AString count)] ANil]).

Definition a_key : PreKey := mkPreKey (mkKP (repeat x01 32) (repeat x00 32)) 7 None.
Definition a_signed : PreKey := mkPreKey (mkKP (repeat x02 32) (repeat x00 32)) 9 (Some (repeat x03 64)).
Definition fail (count : string) : call := mkCall true (Some a_key) (Some []) (enc_node count) (mkInfo "A" "text" false) false.

Lemma retry_receipts_capped_witness :
  (sends 1 [] a_signed "A" (repeat (fail "1") 20) ∅ <= 4)%nat.
Proof.
  apply (retry_receipts_capped 1 [] a_signed "A" (repeat (fail "1") 20)); [|vm_compute; reflexivity].
  cbn [repeat]. repeat apply Forall_cons_2; try apply Forall_nil_2; vm_compute; reflexivity.
Defined.

Lemma huge_count_uncapped_witness :
  sends 1 [] a_signed "A" (fail "9223372036854775807" :: repeat (fail "1") 20) ∅ = 21%nat.
Proof.
  apply (huge_count_uncapped 1 [] a_signed "A" (fail "9223372036854775807") (repeat (fail "1") 20)).
  - reflexivity.
  - reflexivity.
  - vm_compute. reflexivity.
  - cbn [repeat]. repeat apply Forall_cons_2; try apply Forall_nil_2; split; reflexivity.
  - vm_compute. reflexivity.
Defined.

Definition received_receipt : Node :=
  mkNode "receipt" [("from", AJID dave); ("id", AString "A"); ("type", AString "retry")]
    (ANodes (GetChildren (wire.norm_node (retry_node 1 (enc_node "1") (mkInfo "A" "text" false) 2 [keys_node (repeat x04 32) a_signed a_key []])))).

Lemma retry_receipt_read_witness :
  requested_id received_receipt = "A" /\
  fst (Int "count" (AttrGetter (GetChildByTag received_receipt ["retry"]))) = 2 /\
  exists sig, Signature a_signed = Some sig /\
  nodeToPreKeyBundle 0 received_receipt = Ok (mkBundle 1 0 (Some (7, repeat x01 32)) 9 (repeat x02 32) sig (repeat x04 32)).
Proof.
  apply (retry_receipt_read 1 (repeat x04 32) a_signed (enc_node "1") (mkInfo "A" "text" false) 2 a_key [] received_receipt 0);
    try reflexivity; try lia; try (eexists; reflexivity); try discriminate.
  - split; [cbn; lia|]. split; reflexivity.
  - split; [cbn; lia|]. split; reflexivity.
Defined.

Definition dave_source : MessageSource := mkSource dave dave false false "" EmptyJID EmptyJID EmptyJID [].
Definition dave_receipt : Receipt := mkReceipt dave_source ["A"] ZeroTime "retry" EmptyJID.

Definition some_services : services (WA := string) (FB := string) :=
  mkServices (fun sender chat id => getMessageForRetry decode decode true to_lid to_pn ask true sender chat id)
    (fun _ => true) (fun _ => None) (fun _ _ m => m) (fun _ m => m) encode encode (fun _ b => b) (fun _ _ _ _ => true)
    (fun _ => Some true) (fun _ => None) (fun _ => ("text", "")) (fun _ => ("text", "")) to_lid
    (fun b j _ a => Some (mkNode "enc" a (ABytes b), false)) (fun b _ _ _ _ a => Some (mkNode "enc" a (ABytes b)))
    (fun n _ _ _ => [n]) (fun _ => true).

Definition asked_state : retry_state (WA := string) (FB := string) :=
  mkState (fst (addRecentMessage encode encode true 5 dave "A" (msg "one") no_messages)) ∅ ∅.

Definition retry_request : Node :=
  mkNode "receipt" [("from", AJID dave)]
    (ANodes [mkNode "retry" [("id", AString "A"); ("t", AString "1700000000"); ("count", AString "1")] ANil]).

Lemma retry_answers_capped_witness :
  (answers some_services (dave, "A") (repeat (5%Z, dave_receipt, retry_request) 12) asked_state <= 9)%nat.
Proof.
  apply (retry_answers_capped some_services (dave, "A") (repeat (5%Z, dave_receipt, retry_request) 12) asked_state); reflexivity.
Defined.

(** The first nine of them are answered. *)
Example answered_nine : answers some_services (dave, "A") (repeat (5%Z, dave_receipt, retry_request) 12) asked_state = 9%nat.
Proof. vm_compute. reflexivity. Qed.

End retry_samples.
