(* ===== verification/RetryLimit.v ===== *)
(** * retry.go: how many retry receipts are answered at once

    [tryHandleRetryReceipt] with its semaphore, its acknowledgement and its recovery from
    panics, as a step relation of the goroutines that handle receipts. *)

From S2P Require Import Prelude.

#[local] Open Scope list_scope.
#[local] Open Scope Z_scope.

Module retrylimit.

(** How [handleRetryReceipt] ends: with nothing, with an error (does it say that the
    context is cancelled or the socket gone?), or with a panic. *)
Inductive ending := Handled | Failed (cancels : bool) | Panicked.

(** A goroutine before it has the semaphore; in the handler; after it, with the semaphore
    to be given back; with the acknowledgement left; and back. *)
Inductive phase := Asking | Handling | Leaving (cancelled : bool) | Released (cancelled : bool) | Returned.

(** [limit]: the weight of [retrySema], if there is one. *)
Record state := mkState { limit : option nat; held : nat; goroutines : list phase; acks : list nat }.

(** SetMaxParallelRetryReceiptHandling, before connecting. *)
Definition SetMaxParallelRetryReceiptHandling (n : Z) : state := mkState (if n <=? 0 then None else Some (Z.to_nat n)) 0 [] [].

Definition set_phase (i : nat) (p : phase) (s : state) : state := mkState (limit s) (held s) (<[i := p]> (goroutines s)) (acks s).

(** The semaphore, when there is one. *)
Definition available (s : state) : bool := match limit s with None => true | Some n => (held s <? n)%nat end.
Definition take (s : state) : state := match limit s with None => s | Some _ => mkState (limit s) (S (held s)) (goroutines s) (acks s) end.
Definition give_back (s : state) : state := match limit s with None => s | Some _ => mkState (limit s) (pred (held s)) (goroutines s) (acks s) end.

Definition cancelled_by (e : ending) : bool := match e with Failed b => b | _ => false end.

Definition acked (i : nat) (s : state) : state := mkState (limit s) (held s) (goroutines s) (acks s ++ [i]).

(** [Around]: a receipt comes in, or a context ends; [Own]: what the goroutines do. *)
Inductive label := Own | Around.

Section steps.
Context (SynchronousAck : bool).

(** The deferred acknowledgement; [done]: the context has ended. *)
Definition deferred_ack (i : nat) (done cancelled : bool) (s : state) : state :=
  if SynchronousAck && negb done && negb cancelled then acked i s else s.

(** A receipt's goroutine starts; without [SynchronousAck] its acknowledgement does, too. *)
Definition start (s : state) : state :=
  let s' := mkState (limit s) (held s) (goroutines s ++ [Asking]) (acks s) in
  if SynchronousAck then s' else acked (length (goroutines s)) s'.

Inductive step : label -> state -> state -> Prop :=
  | step_start s : step Around s (start s)
  | step_acquire s i : goroutines s !! i = Some Asking -> available s = true -> step Own s (set_phase i Handling (take s))
  | step_give_up s i : goroutines s !! i = Some Asking -> limit s <> None -> step Around s (set_phase i Returned (deferred_ack i true false s))
  | step_end s i e : goroutines s !! i = Some Handling -> step Own s (set_phase i (Leaving (cancelled_by e)) s)
  | step_release s i c : goroutines s !! i = Some (Leaving c) -> step Own s (set_phase i (Released c) (give_back s))
  | step_ack s i c d : goroutines s !! i = Some (Released c) -> step Own s (set_phase i Returned (deferred_ack i d c s)).

Definition any_step (s s' : state) : Prop := exists l, step l s s'.
Definition own_steps : state -> state -> Prop := rtc (step Own).

(** ** What holds in every state *)

(** A goroutine that has the semaphore. *)
Definition holds (p : phase) : bool := match p with Handling | Leaving _ => true | _ => false end.
Definition holders (l : list phase) : nat := length (List.filter holds l).

(** One whose receipt may have been acknowledged. *)
Definition may_ack (p : phase) : bool := if SynchronousAck then match p with Returned => true | _ => false end else true.

Definition ok (s : state) : Prop :=
  (forall n, limit s = Some n -> held s = holders (goroutines s) /\ (held s <= n)%nat) /\
  NoDup (acks s) /\ (forall i, i ∈ acks s -> exists p, goroutines s !! i = Some p /\ may_ack p = true).

Lemma holders_app l k : holders (l ++ k) = (holders l + holders k)%nat.
Proof. unfold holders. by rewrite List.filter_app, length_app. Qed.

Lemma holders_insert l i p q : l !! i = Some p -> (holders (<[i := q]> l) + (if holds p then 1 else 0) = holders l + (if holds q then 1 else 0))%nat.
Proof.
  revert i. induction l as [|x l IH]; intros [|i] H; try done.
  - injection H as ->. unfold holders. cbn [insert list_insert List.filter]. destruct (holds p), (holds q); cbn [length]; lia.
  - specialize (IH i H). unfold holders in *. change (<[S i:=q]> (x :: l)) with (x :: <[i:=q]> l). cbn [List.filter]. destruct (holds x); cbn [length]; lia.
Qed.

Lemma acks_kept s i p q : goroutines s !! i = Some p -> (may_ack p = true -> may_ack q = true) ->
  (forall j, j ∈ acks s -> exists p, goroutines s !! j = Some p /\ may_ack p = true) ->
  forall j, j ∈ acks s -> exists p, <[i := q]> (goroutines s) !! j = Some p /\ may_ack p = true.
Proof.
  intros Hi Hq H j Hj. destruct (H j Hj) as (r & Hr & Hm). destruct (decide (i = j)) as [<-|Hij].
  - exists q. rewrite list_lookup_insert_eq by (by eapply lookup_lt_Some). split; [done|]. apply Hq. congruence.
  - exists r. by rewrite list_lookup_insert_ne.
Qed.

Lemma acks_new s i p d c : goroutines s !! i = Some p -> (SynchronousAck = true -> may_ack p = false) ->
  NoDup (acks s) -> (forall j, j ∈ acks s -> exists p, goroutines s !! j = Some p /\ may_ack p = true) ->
  NoDup (acks (deferred_ack i d c s)) /\
  forall j, j ∈ acks (deferred_ack i d c s) -> exists p, <[i := Returned]> (goroutines s) !! j = Some p /\ may_ack p = true.
Proof.
  intros Hi Hp Hn H. assert (may_ack Returned = true) as Hr by (unfold may_ack; by destruct SynchronousAck).
  pose proof (acks_kept s i p Returned Hi (fun _ => Hr) H) as Hk. unfold deferred_ack.
  destruct (SynchronousAck && negb d && negb c) eqn:E; [|done]. cbn [acks acked]. assert (SynchronousAck = true) as Es by (by destruct SynchronousAck).
  split.
  - apply NoDup_app. split; [done|]. split; [|apply NoDup_singleton]. intros j Hj Hj'. apply list_elem_of_singleton in Hj' as ->.
    destruct (H i Hj) as (r & Hr' & Hm). rewrite Hi in Hr'. injection Hr' as <-. rewrite (Hp Es) in Hm. done.
  - intros j [Hj|Hj]%elem_of_app; [by apply Hk|]. apply list_elem_of_singleton in Hj as ->. exists Returned. split; [|done].
    apply list_lookup_insert_eq. by eapply lookup_lt_Some.
Qed.

Lemma deferred_ack_rest i d c s : limit (deferred_ack i d c s) = limit s /\ held (deferred_ack i d c s) = held s /\ goroutines (deferred_ack i d c s) = goroutines s.
Proof. unfold deferred_ack. by destruct (_ && _). Qed.

Lemma limit_step_ok l s s' : ok s -> step l s s' -> ok s'.
Proof.
  intros (Hl & Hn & Ha) H. destruct H as [s|s i Hi Hav|s i Hi Hlim|s i e Hi|s i c Hi|s i c d Hi].
  - unfold start. split; [|split].
    + intros n Hln. assert (limit s = Some n) as Hs by (by destruct SynchronousAck). destruct (Hl n Hs) as [E1 E2].
      destruct SynchronousAck; cbn [held goroutines acked]; rewrite holders_app; cbn; split; lia.
    + destruct SynchronousAck eqn:Es; [done|]. cbn [acks acked]. apply NoDup_app. split; [done|]. split; [|apply NoDup_singleton].
      intros j Hj Hj'. apply list_elem_of_singleton in Hj' as ->. destruct (Ha _ Hj) as (p & Hp & _). apply lookup_lt_Some in Hp. lia.
    + assert (forall j, j ∈ acks s -> exists p, (goroutines s ++ [Asking]) !! j = Some p /\ may_ack p = true) as Hold.
      { intros j Hj. destruct (Ha j Hj) as (p & Hp & Hm). exists p. split; [by apply lookup_app_l_Some|done]. }
      destruct SynchronousAck eqn:Es; [exact Hold|]. cbn [acks acked goroutines]. intros j [Hj|Hj]%elem_of_app; [by apply Hold|].
      apply list_elem_of_singleton in Hj as ->. exists Asking. split; [by rewrite lookup_app_r, Nat.sub_diag by lia|]. unfold may_ack. by rewrite Es.
  - assert (goroutines (take s) = goroutines s /\ acks (take s) = acks s /\ limit (take s) = limit s) as (E1 & E2 & E3) by (unfold take; by destruct (limit s) eqn:?).
    split; [|split]; cbn [limit held goroutines acks set_phase]; rewrite ?E1, ?E2, ?E3; [|done|].
    + intros n Hs. destruct (Hl n Hs) as [Eh Hle]. pose proof (holders_insert _ i _ Handling Hi) as Hh. cbn in Hh.
      unfold available in Hav. rewrite Hs in Hav. apply Nat.ltb_lt in Hav. unfold take. rewrite Hs. cbn [held]. lia.
    + eapply acks_kept; [exact Hi| |exact Ha]. unfold may_ack. by destruct SynchronousAck.
  - destruct (deferred_ack_rest i true false s) as (E1 & E2 & E3). unfold set_phase, ok. cbn [limit held goroutines acks]. rewrite E1, E2, E3. split.
    + intros n Hs. destruct (Hl n Hs) as [Eh Hle]. pose proof (holders_insert _ i _ Returned Hi) as Hh. cbn in Hh. lia.
    + eapply acks_new; [exact Hi| |exact Hn|exact Ha]. intros Es. unfold may_ack. by rewrite Es.
  - unfold set_phase, ok. cbn [limit held goroutines acks]. split; [|split; [done|]].
    + intros n Hs. destruct (Hl n Hs) as [Eh Hle]. pose proof (holders_insert _ i _ (Leaving (cancelled_by e)) Hi) as Hh. cbn in Hh. lia.
    + eapply acks_kept; [exact Hi| |exact Ha]. unfold may_ack. by destruct SynchronousAck.
  - assert (goroutines (give_back s) = goroutines s /\ acks (give_back s) = acks s /\ limit (give_back s) = limit s) as (E1 & E2 & E3) by (unfold give_back; by destruct (limit s) eqn:?).
    unfold set_phase, ok. cbn [limit held goroutines acks]. rewrite E1, E2, E3. split; [|split; [done|]].
    + intros n Hs. destruct (Hl n Hs) as [Eh Hle]. pose proof (holders_insert _ i _ (Released c) Hi) as Hh. cbn in Hh. unfold give_back. rewrite Hs. cbn [held]. lia.
    + eapply acks_kept; [exact Hi| |exact Ha]. unfold may_ack. by destruct SynchronousAck.
  - destruct (deferred_ack_rest i d c s) as (E1 & E2 & E3). unfold set_phase, ok. cbn [limit held goroutines acks]. rewrite E1, E2, E3. split.
    + intros n Hs. destruct (Hl n Hs) as [Eh Hle]. pose proof (holders_insert _ i _ Returned Hi) as Hh. cbn in Hh. lia.
    + eapply acks_new; [exact Hi| |exact Hn|exact Ha]. intros Es. unfold may_ack. by rewrite Es.
Qed.

Lemma reachable_limited n s : rtc any_step (SetMaxParallelRetryReceiptHandling n) s -> ok s.
Proof.
  intros H. apply (rtc_ind_r (R := any_step) (fun s => ok s)) with (SetMaxParallelRetryReceiptHandling n); [|by intros ? ? _ [? ?] ?; eapply limit_step_ok|exact H].
  unfold SetMaxParallelRetryReceiptHandling. split; [|split; [constructor|intros i Hi; by apply elem_of_nil in Hi]]. cbn. intros m _. split; [done|lia].
Qed.

Lemma limit_kept s s' : rtc any_step s s' -> limit s' = limit s.
Proof.
  induction 1 as [|s s1 s' [l Hs] _ IH]; [done|]. rewrite IH. destruct Hs; cbn; try done; unfold start, take, give_back, deferred_ack.
  - by destruct SynchronousAck.
  - by destruct (limit s) eqn:E.
  - by destruct (_ && _).
  - by destruct (limit s) eqn:E.
  - by destruct (_ && _).
Qed.

(** However receipts, ends of handlers (panics included) and ends of contexts interleave,
    no more than [n] receipts are being handled, and none is acknowledged twice. *)
Theorem retry_handlers_limited n s : 0 < n -> rtc any_step (SetMaxParallelRetryReceiptHandling n) s ->
  Z.of_nat (holders (goroutines s)) <= n /\ NoDup (acks s).
Proof.
  intros Hn H. destruct (reachable_limited n s H) as (Hl & Hd & _). split; [|done]. pose proof (limit_kept _ _ H) as E. cbn in E.
  destruct (Z.leb_spec n 0); [lia|]. destruct (Hl _ E) as [E1 E2]. lia.
Qed.

(** ** Nobody waits forever *)

(** A goroutine with the semaphore comes to give it back, with the others as they are. *)
Lemma finishes s i p : goroutines s !! i = Some p -> holds p = true -> exists s', own_steps s s' /\ limit s' = limit s /\ held s' = (match limit s with None => held s | Some _ => pred (held s) end) /\
  exists c, goroutines s' = <[i := Released c]> (goroutines s) /\ (p = Handling -> c = false).
Proof.
  intros Hi Hp. assert (forall s1 c, goroutines s1 !! i = Some (Leaving c) -> exists s', step Own s1 s' /\ limit s' = limit s1 /\
    held s' = (match limit s1 with None => held s1 | Some _ => pred (held s1) end) /\ goroutines s' = <[i := Released c]> (goroutines s1)) as Hrel.
  { intros s1 c H1. exists (set_phase i (Released c) (give_back s1)). split; [by constructor|]. unfold set_phase, give_back. by destruct (limit s1) eqn:E; cbn; rewrite ?E. }
  destruct p; try done.
  - destruct (Hrel (set_phase i (Leaving false) s) false) as (s' & Hs & E1 & E2 & E3); [apply list_lookup_insert_eq; by eapply lookup_lt_Some|].
    exists s'. split; [eapply rtc_l; [by apply (step_end s i Handled)|by apply rtc_once]|]. split; [done|]. split; [done|]. exists false. split; [|done]. rewrite E3. cbn. apply list_insert_insert_eq.
  - destruct (Hrel s cancelled Hi) as (s' & Hs & E1 & E2 & E3). exists s'. split; [by apply rtc_once|]. split; [done|]. split; [done|]. by exists cancelled.
Qed.

Lemma freed s n : limit s = Some n -> (0 < n)%nat -> ok s -> forall i, goroutines s !! i = Some Asking ->
  exists s', own_steps s s' /\ available s' = true /\ goroutines s' !! i = Some Asking.
Proof.
  intros Hs Hn (Hl & _) i Hi. destruct (Hl n Hs) as [Eh Hle]. destruct (decide (held s < n)%nat) as [Hlt|Hge].
  { exists s. split; [apply rtc_refl|]. split; [|done]. unfold available. rewrite Hs. by apply Nat.ltb_lt. }
  assert (exists j p, goroutines s !! j = Some p /\ holds p = true) as (j & p & Hj & Hp).
  { assert (List.filter holds (goroutines s) <> []) as Hne by (intros E; unfold holders in Eh; rewrite E in Eh; cbn in Eh; lia).
    destruct (List.filter holds (goroutines s)) as [|p l] eqn:E; [done|]. assert (In p (List.filter holds (goroutines s))) as Hin by (rewrite E; by left).
    apply filter_In in Hin as [Hin Hp]. apply list_elem_of_In, list_elem_of_lookup in Hin as (j & Hj). by exists j, p. }
  destruct (finishes s j p Hj Hp) as (s' & H1 & E1 & E2 & c & E3 & _). exists s'. split; [done|]. split.
  - unfold available. rewrite E1, E2, Hs. apply Nat.ltb_lt. lia.
  - rewrite E3, list_lookup_insert_ne; [done|]. intros ->. rewrite Hi in Hj. injection Hj as <-. done.
Qed.

(** Without [SynchronousAck] every receipt is acknowledged as it comes in. *)
Lemma acked_at_once n s : SynchronousAck = false -> rtc any_step (SetMaxParallelRetryReceiptHandling n) s -> forall i, (i < length (goroutines s))%nat -> i ∈ acks s.
Proof.
  intros Es H. apply (rtc_ind_r (R := any_step) (fun s => forall i, (i < length (goroutines s))%nat -> i ∈ acks s)) with (SetMaxParallelRetryReceiptHandling n); [cbn; lia| |exact H].
  intros s1 s2 _ [l Hs] IH i Hi. destruct Hs; unfold set_phase, deferred_ack, start, take, give_back in *; rewrite ?Es in *; cbn [goroutines acks acked andb] in *; rewrite ?length_insert in *;
    try (by apply IH); try (destruct (limit s0); by apply IH).
  rewrite length_app in Hi. cbn in Hi. rewrite elem_of_app. destruct (decide (i < length (goroutines s0))%nat); [left; by apply IH|right].
  apply list_elem_of_singleton. lia.
Qed.

Lemma own_any s s' : own_steps s s' -> rtc any_step s s'.
Proof. induction 1; [apply rtc_refl|]. eapply rtc_l; [by exists Own|done]. Qed.

(** Whatever has happened, a receipt that waits for the semaphore gets handled, and is
    acknowledged, by steps of the goroutines alone: the semaphore is given back even by
    handlers that panic. *)
Theorem retry_receipts_handled n s i : rtc any_step (SetMaxParallelRetryReceiptHandling n) s -> goroutines s !! i = Some Asking ->
  exists s', own_steps s s' /\ goroutines s' !! i = Some Returned /\ i ∈ acks s'.
Proof.
  intros H Hi. pose proof (reachable_limited n s H) as Hok. pose proof (limit_kept _ _ H) as Elim.
  assert (exists s', own_steps s s' /\ available s' = true /\ goroutines s' !! i = Some Asking) as (s1 & H1 & Hav & Hi1).
  { cbn in Elim. destruct (Z.leb_spec n 0).
    - exists s. split; [apply rtc_refl|]. split; [|done]. unfold available. by rewrite Elim.
    - eapply freed; [exact Elim|lia|exact Hok|exact Hi]. }
  set (s2 := set_phase i Handling (take s1)).
  assert (goroutines s2 !! i = Some Handling) as Hi2 by (unfold s2, take; destruct (limit s1); cbn; apply list_lookup_insert_eq; by eapply lookup_lt_Some).
  destruct (finishes s2 i Handling Hi2 eq_refl) as (s3 & H3 & _ & _ & c & E3 & Ec). rewrite (Ec eq_refl) in E3.
  assert (own_steps s s3) as Hs3 by (etransitivity; [exact H1|]; eapply rtc_l; [by apply (step_acquire s1 i)|exact H3]).
  assert (goroutines s3 !! i = Some (Released false)) as Hi3 by (rewrite E3; apply list_lookup_insert_eq; by eapply lookup_lt_Some).
  exists (set_phase i Returned (deferred_ack i false false s3)). split; [eapply rtc_r; [exact Hs3|]; by constructor|].
  destruct (deferred_ack_rest i false false s3) as (_ & _ & E). cbn [set_phase goroutines acks]. split.
  - rewrite E. apply list_lookup_insert_eq. by eapply lookup_lt_Some.
  - unfold deferred_ack. destruct SynchronousAck eqn:Es; cbn [andb negb].
    + cbn [acks acked]. apply elem_of_app. right. by apply list_elem_of_singleton.
    + apply (acked_at_once n); [done|etransitivity; [exact H|by apply own_any]|by eapply lookup_lt_Some].
Qed.

End steps.

(** One receipt is being handled when a second comes in. *)
Definition busy : state := mkState (Some 1%nat) 1 [Handling; Asking] [].

Lemma busy_reached : rtc (any_step true) (SetMaxParallelRetryReceiptHandling 1) busy.
Proof.
  eapply rtc_l; [exists Around; apply step_start|]. eapply rtc_l; [exists Own; apply (step_acquire _ _ 0); reflexivity|].
  eapply rtc_l; [exists Around; apply step_start|]. apply rtc_refl.
Qed.

Lemma retry_receipts_handled_witness : exists s', own_steps true busy s' /\ goroutines s' !! 1%nat = Some Returned /\ 1%nat ∈ acks s'.
Proof. apply (retry_receipts_handled true 1 busy 1 busy_reached). reflexivity. Defined.

End retrylimit.
