(* ===== verification/Messages.v ===== *)
(** * message.go: decrypting messages and answering them

    [padding]: the padding inside the encryption. [decryption]: decrypting a
    message with its plaintext kept until it has been handled, so that what the
    server delivers again is neither lost nor handled twice. [messages]: the
    loop over the encrypted parts of a stanza, and the answers it is given. *)

From S2P Require Import Prelude GoStrings StateErr Jid Node Sql Receive Retry.

#[local] Open Scope string_scope.
#[local] Open Scope list_scope.
#[local] Open Scope Z_scope.

Module padding.

Inductive unpad_error := EmptyPlaintext | BadPadding.

Definition byte_nat (b : byte) : nat := N.to_nat (Byte.to_N b).

(** [bytes.HasSuffix]. *)
Definition HasSuffix (s suffix : bytes) : bool :=
  (length suffix <=? length s)%nat && bool_decide (drop (length s - length suffix) s = suffix).

(** Indexing panics on an empty plaintext. *)
Definition isValidPadding (plaintext : bytes) : outcome unpad_error bool :=
  match last plaintext with
  | None => Panic
  | Some lastByte => Ok (HasSuffix plaintext (repeat lastByte (byte_nat lastByte)))
  end.

Definition unpadMessage (plaintext : bytes) (version : Z) : outcome unpad_error bytes :=
  if version =? 3 then Ok plaintext
  else
    match last plaintext with
    | None => Err EmptyPlaintext
    | Some lastByte =>
        valid ← isValidPadding plaintext;
        if negb valid then Err BadPadding
        else if (length plaintext <? byte_nat lastByte)%nat then Panic      (* a negative slice bound *)
        else Ok (take (length plaintext - byte_nat lastByte) plaintext)
    end.

(** [random]: one random byte. *)
Definition pad_byte (random : byte) : byte :=
  let b := N.land (Byte.to_N random) 15 in
  match Byte.of_N b with
  | Some x => if (b =? 0)%N then x0f else x
  | None => x00
  end.

Definition padMessage (random : byte) (plaintext : bytes) : bytes :=
  plaintext ++ repeat (pad_byte random) (byte_nat (pad_byte random)).

Lemma pad_byte_range random : (1 <= byte_nat (pad_byte random) <= 15)%nat.
Proof. destruct random; vm_compute; lia. Qed.

Lemma last_app_repeat {A} (l : list A) x n : (0 < n)%nat -> last (l ++ repeat x n) = Some x.
Proof.
  intros Hn. destruct n as [|n]; [lia|]. cbn [repeat]. rewrite repeat_cons, app_assoc. apply last_snoc.
Qed.

Lemma HasSuffix_app s t : HasSuffix (s ++ t) t = true.
Proof.
  unfold HasSuffix. rewrite length_app. replace (length s + length t - length t)%nat with (length s) by lia.
  rewrite drop_app_length, bool_decide_eq_true_2, andb_true_r by done. apply Nat.leb_le. lia.
Qed.

Lemma unpad_padMessage random plaintext version : unpadMessage (padMessage random plaintext) version =
  if version =? 3 then Ok (padMessage random plaintext) else Ok plaintext.
Proof.
  unfold unpadMessage. destruct (version =? 3); [done|]. unfold padMessage.
  pose proof (pad_byte_range random) as Hr. rewrite last_app_repeat by lia.
  unfold isValidPadding. rewrite last_app_repeat, HasSuffix_app by lia. rewrite bind_Ok. cbn [negb].
  rewrite length_app, repeat_length. destruct (Nat.ltb_spec (length plaintext + byte_nat (pad_byte random)) (byte_nat (pad_byte random))); [lia|].
  rewrite Nat.add_sub. by rewrite take_app_length.
Qed.

(** What padMessage appends unpadMessage takes off, whatever the random byte. *)
Theorem unpad_padded random plaintext version : unpadMessage (padMessage random plaintext) version =
  if version =? 3 then Ok (padMessage random plaintext) else Ok plaintext.
Proof. apply unpad_padMessage. Qed.

(** Unpadding anything received ends in a result or an error, never a panic. *)
Lemma unpad_total plaintext version : exists o, unpadMessage plaintext version = o /\ match o with Ok _ | Err _ => True | _ => False end.
Proof.
  eexists. split; [done|]. unfold unpadMessage, isValidPadding. destruct (version =? 3); [done|].
  destruct (last plaintext) as [b|]; [|done]. rewrite bind_Ok. unfold HasSuffix. rewrite repeat_length.
  destruct (Nat.leb_spec (byte_nat b) (length plaintext)); cbn [andb]; [|done].
  destruct (bool_decide _); cbn [negb]; [|done]. by destruct (Nat.ltb_spec (length plaintext) (byte_nat b)); [lia|].
Qed.

End padding.

Module decryption.

Import jid attrs sql eventbuffer padding.

(** libsignal's errors that the client looks at. *)
Inductive signal_error := ErrUntrustedIdentity | ErrOldCounter | ErrNoSenderKeyForUser | OtherSignal.

Inductive decrypt_error :=
  | TxnFailed (e : sql_error)
  | GetFailed (e : sql_error)
  | SaveFailed (e : sql_error)
  | ErrEventAlreadyProcessed
  | SignalError (e : signal_error)
  | ClearFailed                        (* the untrusted identity is still there *)
  | NotBytes
  | ParseFailed
  | UnpadFailed (e : unpad_error)
  | BotMessageFailed.

Section decryption.
(** libsignal's tables, and SHA-256. *)
Context {S : Type} (sha256 : bytes -> bytes).

Record tables := mkTables { signal : S; events : gmap bytes BufferedEvent }.

Definition set_events (m : gmap bytes BufferedEvent) (t : tables) : tables := mkTables (signal t) m.

Abbreviation store := (db tables unit).
Abbreviation dm := (stm store decrypt_error).

Definition DoDecryptionTxn {A} (body : dm A) : dm A := fun s =>
  match statement s with
  | (s1, Ok _) =>
      match body s1 with
      | (s2, Ok a) =>
          match statement s2 with
          | (s3, Ok _) => (s3, Ok a)
          | (s3, Err e) => (set_rows (rows s) s3, Err (TxnFailed e))
          | (s3, Panic) => (set_rows (rows s) s3, Panic)
          | (s3, NoFuel) => (set_rows (rows s) s3, NoFuel)
          end
      | (s2, o) => (set_rows (rows s) s2, o)
      end
  | (s1, Err e) => (s1, Err (TxnFailed e))
  | (s1, Panic) => (s1, Panic)
  | (s1, NoFuel) => (s1, NoFuel)
  end.

Definition ciphertext_hash (ciphertext : bytes) (extraHashData : list string) : bytes :=
  sha256 (ciphertext ++ concat (map (fun part => x00 :: str_bytes part) extraHashData) ++ [x00; x00]).

(** Times: the server's in seconds, the clock in milliseconds. Without the buffer
    the hash is the zero array. *)
Definition bufferedDecrypt (EnableDecryptedEventBuffer : bool) (ciphertext : bytes) (serverTS nowMS : Z)
    (decrypt : dm bytes) (extraHashData : list string) : dm (bytes * bytes) :=
  if negb EnableDecryptedEventBuffer then
    plaintext ← decrypt;
    mret (plaintext, repeat x00 32)
  else
    let hash := ciphertext_hash ciphertext extraHashData in
    buf ← wrap GetFailed (GetBufferedEvent events hash);
    match buf with
    | Some b =>
        match Plaintext b with
        | None => throw ErrEventAlreadyProcessed
        | Some plaintext => mret (plaintext, hash)
        end
    | None =>
        plaintext ← DoDecryptionTxn (
          plaintext ← decrypt;
          wrap SaveFailed (PutBufferedEvent events set_events hash plaintext serverTS nowMS);;
          mret plaintext);
        mret (plaintext, hash)
    end.

(** ** Decrypted once *)

(** Decrypting does not touch the buffer. *)
Definition keeps_events (decrypt : dm bytes) : Prop :=
  forall s s' o, decrypt s = (s', o) -> events (rows s') = events (rows s).

Lemma DoDecryptionTxn_atomic {A} (body : dm A) s s' o :
  DoDecryptionTxn body s = (s', o) -> is_ok o = false -> rows s' = rows s.
Proof.
  unfold DoDecryptionTxn. destruct (statement s) as [s1 o1] eqn:E1.
  apply statement_same in E1 as (R1 & _ & [->| ->]); [|by intros [= <- <-]].
  destruct (body s1) as [s2 [a|e| |]]; try by intros [= <- <-].
  destruct (statement s2) as [s3 o3] eqn:E3.
  apply statement_same in E3 as (R3 & _ & [->| ->]); by intros [= <- <-].
Qed.

Lemma query_same {A} (q : tables -> A) (s s' : store) o : query q s = (s', o) ->
  rows s' = rows s /\ (o = Ok (q (rows s)) \/ o = Err ErrDatabase).
Proof.
  unfold query, mbind, stm_bind, get_state. destruct (statement s) as [s1 o1] eqn:E.
  apply statement_same in E as (H1 & _ & [->| ->]); intros [= <- <-]; rewrite ?H1; auto.
Qed.

Lemma exec_same f (s s' : store) o : exec f s = (s', o) ->
  (o = Ok tt /\ f (rows s) = Some (rows s')) \/ (is_ok o = false /\ rows s' = rows s).
Proof.
  unfold exec, mbind, stm_bind, get_state, put_state, throw. destruct (statement s) as [s1 o1] eqn:E.
  apply statement_same in E as (H1 & _ & [->| ->]); [|intros [= <- <-]; auto].
  rewrite H1. destruct (f (rows s)) as [t|] eqn:Ef; intros [= <- <-]; auto.
Qed.

Section one_ciphertext.
Context (ciphertext : bytes) (extra : list string).

Abbreviation hash := (ciphertext_hash ciphertext extra).

Lemma bufferedDecrypt_fails decrypt t n s s' o :
  bufferedDecrypt true ciphertext t n decrypt extra s = (s', o) -> is_ok o = false -> rows s' = rows s.
Proof.
  unfold bufferedDecrypt. cbn [negb]. unfold mbind at 1, stm_bind at 1, wrap at 1.
  destruct (GetBufferedEvent events hash s) as [s1 o1] eqn:E. apply query_same in E as (Hr & [->| ->]); cbn [map_err].
  2: { by intros [= <- <-]. }
  destruct (events (rows s) !! hash) as [b|]; [destruct (Plaintext b); by intros [= <- <-]|].
  unfold mbind at 1, stm_bind at 1. destruct (DoDecryptionTxn _ s1) as [s2 o2] eqn:E2. intros H Ho.
  rewrite <- Hr. destruct o2 as [p|e| |]; injection H as <- <-; [done|by eapply DoDecryptionTxn_atomic..].
Qed.

(** The buffer holds the message since then, with its plaintext or after it was
    handled. *)
Definition held (p : bytes) (since : Z) (m : gmap bytes BufferedEvent) : Prop :=
  exists b, m !! hash = Some b /\ InsertTime b = since /\ (Plaintext b = Some p \/ Plaintext b = None).

(** Since when the buffer holds a message that is decrypted now. *)
Definition since (nowMS : Z) (s : store) : Z :=
  match events (rows s) !! hash with Some b => InsertTime b | None => nowMS end.

Definition retention : Z := 14 * 24 * 3600 * 1000.

Lemma bufferedDecrypt_held decrypt t n s s' p h :
  keeps_events decrypt -> bufferedDecrypt true ciphertext t n decrypt extra s = (s', Ok (p, h)) ->
  h = hash /\ exists b, events (rows s') !! hash = Some b /\ Plaintext b = Some p /\ InsertTime b = since n s.
Proof.
  unfold since.
  intros Hk. unfold bufferedDecrypt. cbn [negb]. unfold mbind at 1, stm_bind at 1, wrap at 1.
  destruct (GetBufferedEvent events hash s) as [s1 o1] eqn:E. apply query_same in E as (Hr & [->| ->]); cbn [map_err]; [|done].
  destruct (events (rows s) !! hash) as [b|] eqn:Eb.
  { destruct (Plaintext b) eqn:Ep; [|done]. intros [= <- <- <-]. rewrite Hr. split; [done|]. by exists b. }
  intros H. apply stm_bind_inv in H as (s2 & p2 & H & [= -> -> <-]). split; [done|].
  unfold DoDecryptionTxn in H. destruct (statement s1) as [s3 o3] eqn:E3.
  apply statement_same in E3 as (R3 & _ & [->| ->]); [|done].
  destruct ((plaintext ← decrypt; _) s3) as [s4 o4] eqn:E4. destruct o4 as [p4|e| |]; [|done..].
  destruct (statement s4) as [s5 o5] eqn:E5. apply statement_same in E5 as (R5 & _ & [->| ->]); [|done].
  injection H as <- <-. apply stm_bind_inv in E4 as (s6 & p6 & Hd & E4). apply Hk in Hd.
  apply stm_bind_inv in E4 as (s7 & [] & Hp & [= <- <-]). apply wrap_inv in Hp. unfold PutBufferedEvent in Hp.
  apply exec_same in Hp as [[_ Hp]|[? _]]; [|done]. rewrite Hd, R3, Hr, Eb in Hp. injection Hp as Hp.
  rewrite R5, <- Hp. cbn [events set_events]. rewrite lookup_insert_eq. eauto.
Qed.

(** What happens later: the message is delivered again, its plaintext is dropped
    because it has been handled, rows from before fourteen days ago are deleted, or
    anything else goes on with the store, other messages for one. *)
Inductive later := Deliver (serverTS nowMS : Z) (decrypt : dm bytes) | Clear | Purge (nowMS : Z) | Other (f : store -> store).

(** A delivery: the store before and after it, and what it gives. *)
Definition delivery : Type := store * store * outcome decrypt_error (bytes * bytes).

Definition step (x : later) (s : store) : store * option delivery :=
  match x with
  | Deliver t n decrypt => let '(s', o) := bufferedDecrypt true ciphertext t n decrypt extra s in (s', Some (s, s', o))
  | Clear => (fst (ClearBufferedEventPlaintext events set_events hash s), None)
  | Purge now => (fst (DeleteOldBufferedHashes events set_events now s), None)
  | Other f => (f s, None)
  end.

Fixpoint run (l : list later) (s : store) : store * list delivery :=
  match l with
  | [] => (s, [])
  | x :: l =>
      let '(s, o) := step x s in
      let '(s, os) := run l s in
      (s, option_list o ++ os)
  end.

(** Deletions come no later than fourteen days after, and the rest does not touch the
    message's row. *)
Definition spares (since : Z) (x : later) : Prop :=
  match x with
  | Purge now => now <= since + retention
  | Other f => forall s, events (rows (f s)) !! hash = events (rows s) !! hash
  | _ => True
  end.

(** A delivery that decrypts nothing. *)
Definition not_decrypted (p : bytes) (d : delivery) : Prop :=
  let '(s, s', o) := d in rows s' = rows s /\ match o with Ok r => r = (p, hash) | _ => True end.

Lemma step_held p since x s : held p since (events (rows s)) -> spares since x ->
  let '(s', d) := step x s in
  held p since (events (rows s')) /\ match d with Some d => not_decrypted p d | None => True end.
Proof.
  intros (b & Hb & Ht & Hp) Hin. destruct x as [t n decrypt| |now|f]; cbn [step].
  - unfold bufferedDecrypt, not_decrypted. cbn [negb]. unfold mbind at 1, stm_bind at 1, wrap at 1.
    destruct (GetBufferedEvent events hash s) as [s1 o1] eqn:E. apply query_same in E as (Hr & [->| ->]); cbn [map_err].
    + rewrite Hb. destruct (Plaintext b) as [p'|] eqn:Ep; cbn [mret stm_ret throw]; rewrite Hr; (split; [exists b; by rewrite Ep|]); [|done].
      split; [done|]. by destruct Hp as [[= ->]|].
    + rewrite Hr. split; [by exists b|done].
  - destruct (ClearBufferedEventPlaintext _ _ _ s) as [s' o] eqn:E. cbn [fst]. apply exec_same in E as [[_ E]|[_ E]].
    + injection E as E. rewrite <- E. split; [|done]. unfold held. cbn [events set_events].
      rewrite lookup_alter_eq, Hb. eexists. split; [done|]. split; [done|]. by right.
    + rewrite E. split; [by exists b|done].
  - destruct (DeleteOldBufferedHashes _ _ _ s) as [s' o] eqn:E. cbn [fst]. apply exec_same in E as [[_ E]|[_ E]].
    + injection E as E. rewrite <- E. split; [|done]. exists b. split; [|done]. cbn [events set_events].
      apply map_lookup_filter_Some. split; [done|]. unfold recent_event. cbn [snd spares] in *. unfold retention in Hin. lia.
    + rewrite E. split; [by exists b|done].
  - split; [|done]. exists b. by rewrite Hin.
Qed.

Lemma run_held p since l : forall s, held p since (events (rows s)) -> Forall (spares since) l -> Forall (not_decrypted p) (snd (run l s)).
Proof.
  induction l as [|x l IH]; intros s Hh Hl; cbn [run]; [done|]. inversion_clear Hl as [|? ? Hx Hl'].
  pose proof (step_held p since x s Hh Hx) as Hs. destruct (step x s) as [s1 d]. destruct Hs as (H1 & H2).
  specialize (IH s1 H1 Hl'). destruct (run l s1) as [s2 ds]. cbn [snd] in *. destruct d as [d|]; [by constructor|done].
Qed.

(** After a deletion that comes later, the message is decrypted as if it had never
    been. *)
Lemma purged_decrypted_again p since now s t n decrypt : held p since (events (rows s)) -> works s -> since + retention < now ->
  let s1 := fst (step (Purge now) s) in
  signal (rows s1) = signal (rows s) /\ events (rows s1) !! hash = None /\
  bufferedDecrypt true ciphertext t n decrypt extra s1 =
    (r ← DoDecryptionTxn (plaintext ← decrypt; wrap SaveFailed (PutBufferedEvent events set_events hash plaintext t n);; mret plaintext);
     mret (r, hash)) s1.
Proof.
  intros (b & Hb & <- & _) Hw Hn. cbv zeta. cbn [step]. unfold DeleteOldBufferedHashes.
  erewrite (exec_works _ s) by done. cbn [fst]. set (s1 := set_rows _ s).
  assert (events (rows s1) !! hash = None) as Hnone.
  { subst s1. cbn [rows set_rows events set_events]. apply map_lookup_filter_None. right. intros b' Hb'. rewrite Hb in Hb'. injection Hb' as <-.
    unfold recent_event. cbn [snd]. unfold retention in Hn. lia. }
  split; [done|]. split; [done|]. unfold bufferedDecrypt, GetBufferedEvent. cbn [negb].
  rewrite (stm_bind_ok _ _ _ _ _ (wrap_ok GetFailed _ _ _ _ (query_works _ s1 Hw))). by rewrite Hnone.
Qed.

(** (C9) With the buffer on, an attempt to decrypt a message that fails changes
    nothing, and once one has succeeded the message is not decrypted again for the
    fourteen days that its hash is kept, counted from when it was first decrypted:
    whatever deliveries of it, clearings, database failures, deletions of old hashes up
    to then, and other messages come after it, a delivery leaves the session tables as
    they were and gives the same plaintext or an error; right after, on a working
    database, the plaintext. (After a deletion that comes later it is decrypted again:
    purged_decrypted_again.) *)
Theorem decrypted_once decrypt t n s s' o : keeps_events decrypt ->
  bufferedDecrypt true ciphertext t n decrypt extra s = (s', o) ->
  match o with
  | Ok (p, h) =>
      h = hash /\
      (forall l, Forall (spares (since n s)) l -> Forall (not_decrypted p) (snd (run l s'))) /\
      (forall t' n' d', works s' -> snd (bufferedDecrypt true ciphertext t' n' d' extra s') = Ok (p, hash))
  | _ => rows s' = rows s
  end.
Proof.
  intros Hk H. destruct o as [[p h]|e| |]; [|by eapply bufferedDecrypt_fails..].
  apply bufferedDecrypt_held in H as [-> (b & Hb & Hp & Ht)]; [|done]. split; [done|]. split.
  - intros l. apply run_held. exists b. auto.
  - intros t' n' d' Hw. unfold bufferedDecrypt, GetBufferedEvent. cbn [negb]. rewrite (stm_bind_ok _ _ _ _ _ (wrap_ok GetFailed _ _ _ _ (query_works _ s' Hw))).
    rewrite Hb. by rewrite Hp.
Qed.

End one_ciphertext.

End decryption.

End decryption.

Module messages.

Import jid attrs sql source receipt eventbuffer padding decryption.

(** ** What a decrypted message makes the client do *)

(** The fields of the generated message that are looked at; [R] is the rest. *)
Record ProtocolMessage := mkProtocol {
  HistorySync : bool;                      (* a history sync notification *)
  LidMigration : option bytes;             (* the encoded mapping payload *)
  PlaceholderResend : option (list bool);  (* resent messages: per part, whether a handler fails *)
  SnapshotRecovery : option bool;          (* whether the recovery was handled *)
  KeyShare : bool
}.

Inductive Message {R : Type} :=
  mkMessage (secret : option bytes) (sent : option Message) (skdm : option bytes) (protocol : option ProtocolMessage) (rest : R).
Arguments Message : clear implicits.

Definition msg_secret {R} (m : Message R) := match m with mkMessage s _ _ _ _ => s end.
Definition msg_sent {R} (m : Message R) := match m with mkMessage _ s _ _ _ => s end.
Definition msg_skdm {R} (m : Message R) := match m with mkMessage _ _ s _ _ => s end.
Definition msg_protocol {R} (m : Message R) := match m with mkMessage _ _ _ p _ => p end.

(** Sent, stored and started; a [go] statement is put where it is started. *)
Inductive effect {R : Type} :=
  | Migrate (pn lid : JID)
  | CancelRerequest (id : string)
  | RequestFromPhone
  | SendRetry (forceIncludeIdentity : bool)
  | SendAck (error : Z)
  | SendMessageReceipt
  | Undecryptable (unavailable : bool) (unavailableType failMode : string)
  | StoreSecret (chat sender : JID) (id : string) (secret : bytes)
  | ProcessSenderKey (chat from : JID) (skdm : bytes)
  | QueueHistorySync
  | StoreLIDSync (payload : bytes)
  | DispatchResent (part : nat)
  | HandleKeyShare
  | ProtocolReceipt (id receiptType : string)
  | DispatchMessage (m : Message R) (retryCount : Z)
  | DispatchArmadillo (decrypted : bytes)
  | PurgeHashes.
Arguments effect : clear implicits.

Section handling.
Context {R V : Type} (ManualHistorySyncDownload DisableManualHistorySyncReceipt : bool).

Abbreviation info := (MessageInfo (V := V)).

(** The parts of a resend response, each dispatched; a handler that fails on one. *)
Definition handlePlaceholderResendResponse (parts : list bool) : list (effect R) * bool :=
  (map DispatchResent (seq 0 (length parts)), negb (existsb id parts)).

Definition handleProtocolMessage (i : info) (p : ProtocolMessage) : list (effect R) * bool :=
  if negb (IsFromMe (info_source i)) then ([], true)
  else
    let history :=
      if HistorySync p then
        (if ManualHistorySyncDownload then [] else [QueueHistorySync]) ++
        (if ManualHistorySyncDownload && DisableManualHistorySyncReceipt then [] else [ProtocolReceipt (ID i) "hist_sync"])
      else [] in
    let lids := match LidMigration p with Some payload => [StoreLIDSync payload] | None => [] end in
    let '(peer, ok) :=
      if Device (Sender (info_source i)) =? 0 then
        match PlaceholderResend p, SnapshotRecovery p with
        | Some parts, _ => handlePlaceholderResendResponse parts
        | None, Some handled => ([], handled)
        | None, None => ([], true)
        end
      else ([], true) in
    let keys := if KeyShare p then [HandleKeyShare] else [] in
    let peer_receipt := if String.eqb (Category i) "peer" then [ProtocolReceipt (ID i) ReceiptTypePeerMsg] else [] in
    (history ++ lids ++ peer ++ keys ++ peer_receipt, ok).

Definition storeMessageSecret (i : info) (m : Message R) : list (effect R) :=
  match msg_secret m with
  | Some s => if (0 <? length s)%nat then [StoreSecret (Chat (info_source i)) (Sender (info_source i)) (ID i) s] else []
  | None => []
  end.

Definition processProtocolParts (i : info) (m : Message R) : list (effect R) * bool :=
  let secrets := storeMessageSecret i m in
  let m := match msg_sent m with Some inner => inner | None => m end in
  let src := info_source i in
  let keys :=
    match msg_skdm m with
    | Some k =>
        if negb (IsGroup src) then []
        else
          let identity :=
            if bool_decide (Server (Sender src) = DefaultUserServer) && bool_decide (Server (SenderAlt src) = HiddenUserServer)
            then SenderAlt src else Sender src in
          [ProcessSenderKey (Chat src) identity k]
    | None => []
    end in
  let '(protocol, ok) := match msg_protocol m with Some p => handleProtocolMessage i p | None => ([], true) end in
  (secrets ++ keys ++ protocol, ok).

(** [failed]: whether an event handler fails on the message. *)
Definition handleDecryptedMessage (failed : Message R -> bool) (i : info) (m : Message R) (retryCount : Z) :
    list (effect R) * bool :=
  let '(effects, ok) := processProtocolParts i m in
  if negb ok then (effects, false) else (effects ++ [DispatchMessage m retryCount], failed m).

End handling.

(** ** Decrypting a stanza *)

Section decrypting.
(** libsignal and the generated types: its tables, its prekey, normal and group
    messages, the message of a bot. *)
Context {S R V PKM SM GM : Type} (sha256 : bytes -> bytes).

Record libsignal := mkSignal {
  parse_prekey : bytes -> option PKM;
  parse_message : bytes -> option SM;
  parse_group : bytes -> option GM;
  decrypt_prekey : JID -> PKM -> stm (db (tables (S := S)) unit) decrypt_error bytes;
  decrypt_message : JID -> SM -> stm (db (tables (S := S)) unit) decrypt_error bytes;
  decrypt_group : JID -> JID -> GM -> stm (db (tables (S := S)) unit) decrypt_error bytes;
  clear_identity : JID -> stm (db (tables (S := S)) unit) decrypt_error unit
}.
Context (L : libsignal).

Record config := mkConfig {
  SynchronousAck : bool;
  AutoTrustIdentity : bool;
  EnableDecryptedEventBuffer : bool;
  ownID : JID;
  ownLID : JID
}.
Context (cfg : config).

(** What else is asked: the LID map, the table of message secrets with the bot's
    decryption, the message decoder, the armadillo decoder with its handler
    (handler failed, decoding failed), the event handlers and the context. *)
Record world := mkWorld {
  lid_for_pn : JID -> option JID;
  decrypt_bot : JID -> JID -> string -> string -> bytes -> option bytes;
  unmarshal : bytes -> option (Message R);
  armadillo : bytes -> bool * bool;
  handler_failed : Message R -> bool;
  manual_history : bool;
  no_history_receipt : bool;
  cancelled : bool
}.
Context (W : world).

Abbreviation store := (db (tables (S := S)) unit).
Abbreviation dm := (stm store decrypt_error).
Abbreviation info := (MessageInfo (V := V)).

(** Clearing and trying again, when the identity is not trusted. *)
Definition decrypt_trusting (from : JID) (m : PKM) : dm bytes := fun s =>
  match decrypt_prekey L from m s with
  | (s', Err (SignalError ErrUntrustedIdentity)) =>
      if AutoTrustIdentity cfg then
        match clear_identity L from s' with
        | (s', Ok _) => decrypt_prekey L from m s'
        | (s', _) => (s', Err ClearFailed)
        end
      else (s', Err (SignalError ErrUntrustedIdentity))
  | r => r
  end.

Definition version_of (child : Node) : Z := fst (Int "v" (AttrGetter child)).

Definition unpad_child (child : Node) (r : bytes * bytes) : dm (bytes * bytes) :=
  plaintext ← lift (map_err UnpadFailed (unpadMessage (fst r) (version_of child)));
  mret (plaintext, snd r).

Definition decryptDM (child : Node) (from : JID) (isPreKey : bool) (serverTS nowMS : Z) : dm (bytes * bytes) :=
  match node_content child with
  | ABytes content =>
      r ← (if isPreKey then
             match parse_prekey L content with
             | None => throw ParseFailed
             | Some m => bufferedDecrypt sha256 (EnableDecryptedEventBuffer cfg) content serverTS nowMS (decrypt_trusting from m) ["prekey"; jid.String_ from]
             end
           else
             match parse_message L content with
             | None => throw ParseFailed
             | Some m => bufferedDecrypt sha256 (EnableDecryptedEventBuffer cfg) content serverTS nowMS (decrypt_message L from m) ["normal"; jid.String_ from]
             end);
      unpad_child child r
  | _ => throw NotBytes
  end.

Definition decryptGroupMsg (child : Node) (from chat : JID) (serverTS nowMS : Z) : dm (bytes * bytes) :=
  match node_content child with
  | ABytes content =>
      match parse_group L content with
      | None => throw ParseFailed
      | Some m =>
          r ← bufferedDecrypt sha256 (EnableDecryptedEventBuffer cfg) content serverTS nowMS (decrypt_group L chat from m)
                ["senderkey"; jid.String_ chat; jid.String_ from];
          unpad_child child r
      end
  | _ => throw NotBytes
  end.

(** The message of a bot, by the secret of the message it answers. A part without
    bytes makes the type assertion panic. *)
Definition decryptBot (child : Node) (i : info) : dm bytes :=
  let target := TargetSender (info_meta i) in
  let target :=
    if String.eqb (User target) "" then
      if bool_decide (Server (Sender (info_source i)) = BotServer) then ownLID cfg else ownID cfg
    else target in
  let id := if String.eqb (EditType (info_bot i)) EditTypeInner || String.eqb (EditType (info_bot i)) EditTypeLast
            then EditTargetID (info_bot i) else ID i in
  match node_content child with
  | ABytes content =>
      match decrypt_bot W (Chat (info_source i)) target (TargetID (info_meta i)) id content with
      | Some p => mret p
      | None => throw BotMessageFailed
      end
  | _ => panic
  end.

(** The loop's state: the store, what has been done, the last purge of the buffer. *)
Record client := mkClient { stores : store; effects : list (effect R); lastDecryptedBufferClear : gotime }.

(** [Stopped]: the handler returned without the answer at its end. *)
Inductive stop := Stopped.
Abbreviation cm := (stm client stop).

Definition emit (l : list (effect R)) : cm unit :=
  fun c => (mkClient (stores c) (effects c ++ l) (lastDecryptedBufferClear c), Ok tt).

Record flags := mkFlags { containsDirectMsg : bool; recognizedStanza : bool; protobufFailed : bool }.

(** A computation on the store whose error the loop looks at; a panic goes on up. *)
Definition attempt {A} (m : dm A) : cm (decrypt_error + A) := fun c =>
  match m (stores c) with
  | (s, Ok a) => (mkClient s (effects c) (lastDecryptedBufferClear c), Ok (inr a))
  | (s, Err e) => (mkClient s (effects c) (lastDecryptedBufferClear c), Ok (inl e))
  | (s, Panic) => (mkClient s (effects c) (lastDecryptedBufferClear c), Panic)
  | (s, NoFuel) => (mkClient s (effects c) (lastDecryptedBufferClear c), NoFuel)
  end.

Inductive enc_kind := Direct (prekey : bool) | GroupMessage | BotMessage | UnknownKind.

Definition kind_of (i : info) (encType : string) : enc_kind :=
  if String.eqb encType "pkmsg" then Direct true
  else if String.eqb encType "msg" then Direct false
  else if IsGroup (info_source i) && String.eqb encType "skmsg" then GroupMessage
  else if String.eqb encType "msmsg" && IsBot (Sender (info_source i)) then BotMessage
  else UnknownKind.

Definition decrypt_part (i : info) (from : JID) (child : Node) (k : enc_kind) (serverTS nowMS : Z) : dm (bytes * option bytes) :=
  match k with
  | Direct isPreKey => r ← decryptDM child from isPreKey serverTS nowMS; mret (fst r, Some (snd r))
  | GroupMessage => r ← decryptGroupMsg child from (Chat (info_source i)) serverTS nowMS; mret (fst r, Some (snd r))
  | _ => p ← decryptBot child i; mret (p, None)
  end.

(** The answer to a part that does not decrypt. *)
Definition undecryptable (encType : string) (child : Node) (isUnavailable : bool) : list (effect R) :=
  (if String.eqb encType "msmsg" then [SendAck NackMissingMessageSecret] else [SendRetry isUnavailable; SendAck 0]) ++
  [Undecryptable isUnavailable "" (fst (OptionalString "decrypt-fail" (AttrGetter child)))].

(** Handing a decrypted part on: whether a handler failed, and the new flag. *)
Definition handle_part (i : info) (child : Node) (plaintext : bytes) (protobufFailed : bool) : list (effect R) * (bool * bool) :=
  let retryCount := fst (OptionalInt "count" (AttrGetter child)) in
  let v := version_of child in
  if v =? 2 then
    match unmarshal W plaintext with
    | None => ([], (false, true))
    | Some m =>
        let '(l, failed) := handleDecryptedMessage (manual_history W) (no_history_receipt W) (handler_failed W) i m retryCount in
        (l, (failed, false))
    end
  else if v =? 3 then
    let '(failed, badProto) := armadillo W plaintext in
    ([DispatchArmadillo plaintext], (failed, badProto))
  else ([], (false, protobufFailed)).

Definition twelve_hours : Z := 12 * 3600 * 10 ^ 9.

(** [now] in nanoseconds. *)
Definition clear_buffered (now : Z) (hash : option bytes) : cm unit :=
  match hash with
  | Some h =>
      if EnableDecryptedEventBuffer cfg then
        _ ← attempt (wrap TxnFailed (ClearBufferedEventPlaintext events set_events h));
        c ← get_state;
        let due := match lastDecryptedBufferClear c with ZeroTime => true | UnixNano t => twelve_hours <? now - t end in
        if due && negb (cancelled W) then put_state (mkClient (stores c) (effects c ++ [PurgeHashes]) (UnixNano now))
        else mret tt
      else mret tt
  | None => mret tt
  end.

(** One child of the stanza. *)
Definition decrypt_child (i : info) (from : JID) (serverTS now : Z) (f : flags) (child : Node) : cm flags :=
  if negb (String.eqb (node_tag child) "enc") then mret f
  else
    let f := mkFlags (containsDirectMsg f) true (protobufFailed f) in
    match fst (GetString "type" false (AttrGetter child)) with
    | (encType, true) =>
        match kind_of i encType with
        | UnknownKind => mret f
        | k =>
            let f := mkFlags (match k with Direct _ => true | _ => containsDirectMsg f end) true (protobufFailed f) in
            r ← attempt (decrypt_part i from child k serverTS (now / 10 ^ 6));
            match r with
            | inl ErrEventAlreadyProcessed | inl (SignalError ErrOldCounter) => mret f
            | inl e =>
                if cancelled W then throw Stopped
                else
                  let isUnavailable := String.eqb encType "skmsg" && negb (containsDirectMsg f) &&
                                       match e with SignalError ErrNoSenderKeyForUser => true | _ => false end in
                  emit (undecryptable encType child isUnavailable);;
                  throw Stopped
            | inr (plaintext, hash) =>
                let '(l, (failed, badProto)) := handle_part i child plaintext (protobufFailed f) in
                emit (CancelRerequest (ID i) :: l);;
                let f := mkFlags (containsDirectMsg f) true badProto in
                if (version_of child =? 2) && badProto then mret f
                else if failed then throw Stopped
                else clear_buffered now hash;; mret f
            end
        end
    | _ => mret f
    end.

Fixpoint decrypt_children (i : info) (from : JID) (serverTS now : Z) (f : flags) (l : list Node) : cm flags :=
  match l with
  | [] => mret f
  | c :: l => f ← decrypt_child i from serverTS now f c; decrypt_children i from serverTS now f l
  end.

Definition with_alt (lid : JID) (i : info) : info :=
  let s := info_source i in
  source.mkInfo (mkSource (Chat s) (Sender s) (IsFromMe s) (IsGroup s) (AddressingMode s) lid (RecipientAlt s)
      (BroadcastListOwner s) (BroadcastRecipients s))
    (ID i) (ServerID i) (source.Timestamp i) (PushName i) (Category i) (Type_ i) (source.Edit i) (Multicast i) (VerifiedName i)
    (info_bot i) (info_meta i) (MediaType i).

(** The address the sessions are under; a LID that had to be looked up is put into
    the message's source. *)
Definition sender_identity (i : info) : JID * info * list (effect R) :=
  let src := info_source i in
  if bool_decide (Server (Sender src) = DefaultUserServer) && negb (IsBot (Sender src)) then
    if bool_decide (Server (SenderAlt src) = HiddenUserServer) then (SenderAlt src, i, [Migrate (Sender src) (SenderAlt src)])
    else
      match lid_for_pn W (Sender src) with
      | None => (Sender src, i, [])
      | Some lid => if IsEmpty lid then (Sender src, i, []) else (lid, with_alt lid i, [Migrate (Sender src) lid])
      end
  else (Sender src, i, []).

Definition final_answer (f : flags) : list (effect R) :=
  if negb (recognizedStanza f) then [SendAck NackUnrecognizedStanza]
  else if protobufFailed f then [SendAck NackInvalidProtobuf]
  else [SendMessageReceipt].

Definition decrypt_stanza (i : info) (node : Node) (now : Z) : cm unit :=
  let '(unavailableNode, ok) := GetOptionalChildByTag node ["unavailable"] in
  match ok, GetChildrenByTag node "enc" with
  | true, [] =>
      emit [RequestFromPhone; SendAck 0; Undecryptable true (fst (attrs.String_ "type" (AttrGetter unavailableNode))) ""]
  | _, _ =>
      let '(from, i, l) := sender_identity i in
      emit l;;
      let serverTS := match source.Timestamp i with ZeroTime => -62135596800 | UnixNano ns => ns / 10 ^ 9 end in
      f ← decrypt_children i from serverTS now (mkFlags false false false) (GetChildren node);
      emit (final_answer f)
  end.

(** A panic is caught and acknowledged. *)
Definition decryptMessages (i : info) (node : Node) (now : Z) (c : client) : client :=
  match decrypt_stanza i node now c with
  | (c, Panic) => fst (emit [SendAck 0] c)
  | (c, _) => c
  end.

(** ** Answers *)

(** What is sent to the server in answer to the stanza: acknowledgements, receipts and
    retry receipts. *)
Definition is_answer (e : effect R) : bool :=
  match e with SendAck _ | SendMessageReceipt | SendRetry _ => true | _ => false end.
Definition answers (l : list (effect R)) : list (effect R) := List.filter is_answer l.

Lemma answers_app l l' : answers (l ++ l') = answers l ++ answers l'.
Proof. apply List.filter_app. Qed.

(** Neither answers nor events of a part that does not decrypt. *)
Definition is_silent (e : effect R) : bool := negb (is_answer e) && match e with Undecryptable _ _ _ => false | _ => true end.
Definition silent (l : list (effect R)) : Prop := forallb is_silent l = true.

Lemma silent_app l l' : silent (l ++ l') <-> silent l /\ silent l'.
Proof. unfold silent. rewrite forallb_app. apply andb_true_iff. Qed.

Lemma silent_answers l : silent l -> answers l = [].
Proof.
  unfold silent, answers. induction l as [|e l IH]; [done|]. cbn [forallb List.filter]. intros [He Hl]%andb_true_iff.
  unfold is_silent in He. by destruct (is_answer e); [|apply IH].
Qed.

(** A part did not decrypt. *)
Definition failed_part (l : list (effect R)) (forced : bool) : Prop := exists mode, Undecryptable forced "" mode ∈ l.

(** What is said when a part stops the loop. *)
Inductive refusal (l : list (effect R)) : Prop :=
  | refused_silently : silent l -> refusal l
  | refused_secret forced : answers l = [SendAck NackMissingMessageSecret] -> failed_part l forced -> refusal l
  | refused_retry forced : answers l = [SendRetry forced; SendAck 0] -> failed_part l forced -> refusal l.

Lemma refusal_app l l' : silent l -> refusal l' -> refusal (l ++ l').
Proof.
  intros Hl [H|f H [m Hm]|f H [m Hm]].
  - apply refused_silently. by apply silent_app.
  - apply (refused_secret _ f); [by rewrite answers_app, silent_answers|]. exists m. apply elem_of_app. by right.
  - apply (refused_retry _ f); [by rewrite answers_app, silent_answers|]. exists m. apply elem_of_app. by right.
Qed.

(** All that is said about a stanza. *)
Inductive well_answered (l : list (effect R)) : Prop :=
  | answered_receipt : answers l = [SendMessageReceipt] -> (forall forced, ~ failed_part l forced) -> well_answered l
  | answered_ack code : answers l = [SendAck code] -> well_answered l
  | answered_retry forced : answers l = [SendRetry forced; SendAck 0] -> failed_part l forced -> well_answered l
  | unanswered : answers l = [] -> well_answered l.

Lemma refusal_answered l : refusal l -> well_answered l.
Proof.
  intros [H|f H _|f H Hf]; [by apply unanswered, silent_answers|by eapply answered_ack|by eapply answered_retry].
Qed.

Lemma silent_decrypted l forced : silent l -> ~ failed_part l forced.
Proof.
  intros Hs [m Hm]. unfold silent in Hs. rewrite forallb_forall in Hs. apply list_elem_of_In, Hs in Hm. done.
Qed.

(** No event handler fails on anything. *)
Definition handlers_succeed : Prop := (forall m, handler_failed W m = false) /\ (forall b, fst (armadillo W b) = false).

(** What a computation of the loop adds: an answer only where it stops, and then
    one unless the context is cancelled or a handler failed. *)
Definition answers_at_stop {A} (m : cm A) : Prop := forall c c' o, m c = (c', o) ->
  exists l, effects c' = effects c ++ l /\
    match o with
    | Err Stopped => refusal l /\ (handlers_succeed -> cancelled W = false -> answers l <> [])
    | _ => silent l
    end.

Lemma stop_bind {A B} (m : cm A) (k : A -> cm B) :
  answers_at_stop m -> (forall a, answers_at_stop (k a)) -> answers_at_stop (m ≫= k).
Proof.
  intros Hm Hk c c' o. unfold mbind, stm_bind. destruct (m c) as [c1 o1] eqn:E. apply Hm in E as (l & El & Hl).
  destruct o1 as [a|[]| |]; [|intros [= <- <-]; by exists l..].
  intros H. apply Hk in H as (l' & El' & Hl'). exists (l ++ l'). split; [by rewrite El', El, app_assoc|].
  rewrite answers_app, (silent_answers _ Hl). destruct o as [b|[]| |]; [by apply silent_app| |by apply silent_app..].
  destruct Hl' as [H1 H2]. split; [by apply refusal_app|done].
Qed.

Lemma stop_ret {A} (a : A) : answers_at_stop (mret a).
Proof. intros c c' o [= <- <-]. exists []. by rewrite app_nil_r. Qed.

Lemma stop_emit l : silent l -> answers_at_stop (emit l).
Proof. intros Hl c c' o [= <- <-]. by exists l. Qed.

Lemma stop_attempt {A} (m : dm A) : answers_at_stop (attempt m).
Proof.
  intros c c' o. unfold attempt. destruct (m (stores c)) as [s [a|e| |]]; intros [= <- <-]; exists []; by rewrite app_nil_r.
Qed.

Lemma stop_here : ~ (handlers_succeed /\ cancelled W = false) -> answers_at_stop (throw Stopped : cm flags).
Proof.
  intros Hn c c' o [= <- <-]. exists []. rewrite app_nil_r. split; [done|]. split; [by apply refused_silently|].
  intros H1 H2. destruct Hn. done.
Qed.

Lemma stop_clear now h : answers_at_stop (clear_buffered now h).
Proof.
  unfold clear_buffered. destruct h as [h|]; [|apply stop_ret]. destruct (EnableDecryptedEventBuffer cfg); [|apply stop_ret].
  apply stop_bind; [apply stop_attempt|]. intros _ c c' o. unfold mbind, stm_bind, get_state. cbv beta zeta match.
  match goal with |- (if ?b then _ else _) _ = _ -> _ => destruct b end; intros [= <- <-]; [by exists [PurgeHashes]|]. exists []. by rewrite app_nil_r.
Qed.

Lemma handled_silent (i : info) m n :
  silent (fst (handleDecryptedMessage (manual_history W) (no_history_receipt W) (handler_failed W) i m n)).
Proof.
  unfold handleDecryptedMessage, processProtocolParts, storeMessageSecret.
  assert (forall p, silent (fst (handleProtocolMessage (manual_history W) (no_history_receipt W) (V := V) i p))) as Hp.
  { intros p. unfold handleProtocolMessage, handlePlaceholderResendResponse. destruct (IsFromMe _); cbn [negb]; [|done].
    assert (forall ks, silent (map DispatchResent ks)) as Hd by (intros ks; induction ks; done).
    repeat case_match; cbn [fst]; simplify_eq; try reflexivity; repeat (apply silent_app; split); try reflexivity; apply Hd. }
  repeat case_match; simplify_eq; cbn [fst]; rewrite ?silent_app; split_and?; try reflexivity;
    match goal with H : handleProtocolMessage _ _ _ ?p = _ |- _ => specialize (Hp p); rewrite H in Hp; exact Hp end.
Qed.

Lemma handle_part_silent (i : info) child p b : silent (fst (handle_part i child p b)) /\
  (handlers_succeed -> fst (snd (handle_part i child p b)) = false).
Proof.
  unfold handle_part. destruct (version_of child =? 2).
  - destruct (unmarshal W p) as [m|]; [|done]. pose proof (handled_silent i m (fst (OptionalInt "count" (AttrGetter child)))) as H.
    destruct (handleDecryptedMessage _ _ _ _ _ _) as [l failed] eqn:E. cbn [fst snd] in *. split; [done|]. intros [Hh _].
    unfold handleDecryptedMessage in E. destruct (processProtocolParts _ _ _ _) as [l' [|]]; injection E as <- <-; [apply Hh|done].
  - destruct (version_of child =? 3); [|done]. destruct (armadillo W p) as [f b'] eqn:E. split; [done|]. intros [_ Ha].
    specialize (Ha p). rewrite E in Ha. exact Ha.
Qed.

Lemma stop_undecryptable encType child b : answers_at_stop (emit (undecryptable encType child b);; throw Stopped : cm flags).
Proof.
  intros c c' o [= <- <-]. eexists. split; [reflexivity|]. unfold undecryptable. destruct (String.eqb encType "msmsg"); cbn [app].
  - split; [|done]. apply (refused_secret _ b); [done|]. eexists. by right; left.
  - split; [|done]. apply (refused_retry _ b); [done|]. eexists. by right; right; left.
Qed.

Lemma stop_child i from ts now f child : answers_at_stop (decrypt_child i from ts now f child).
Proof.
  unfold decrypt_child. destruct (negb _); [apply stop_ret|]. destruct (fst (GetString _ _ _)) as [encType [|]]; [|apply stop_ret].
  destruct (kind_of i encType) eqn:Ek; try apply stop_ret.
  all: apply stop_bind; [apply stop_attempt|]; intros [e|[p h]].
  all: try (pose proof (handle_part_silent i child p) as Hp).
  all: try (set (g := mkFlags _ _ _); destruct (handle_part i child p (protobufFailed g)) as [l [failed badProto]] eqn:E;
    specialize (Hp (protobufFailed g)); rewrite E in Hp; cbn [fst snd] in Hp; destruct Hp as [Hl Hf];
    apply stop_bind; [apply stop_emit; exact Hl|]; intros _; destruct (_ && _); [apply stop_ret|];
    destruct failed; [apply stop_here; intros [Hh _]; by specialize (Hf Hh)|];
    apply stop_bind; [apply stop_clear|]; intros _; apply stop_ret).
  all: destruct (cancelled W) eqn:Ec; destruct e as [e|e|e| |[]| | | |e|];
    first [apply stop_ret | apply stop_undecryptable | apply stop_here; intros [_ ?]; congruence].
Qed.

Lemma stop_children i from ts now f l : answers_at_stop (decrypt_children i from ts now f l).
Proof.
  revert f. induction l as [|c l IH]; intros f; cbn [decrypt_children]; [apply stop_ret|].
  apply stop_bind; [apply stop_child|apply IH].
Qed.

(** ** The loop ends *)

Lemma returns_txn {A} (m : dm A) : returns m -> returns (DoDecryptionTxn m).
Proof.
  intros Hm s. unfold DoDecryptionTxn. pose proof (returns_statement s) as H1. destruct (statement s) as [s1 [[]|e| |]]; try done.
  specialize (Hm s1). destruct (m s1) as [s2 [a|e| |]]; try done.
  pose proof (returns_statement s2) as H2. by destruct (statement s2) as [s3 [[]|e| |]].
Qed.

(** libsignal ends with a result, an error or a panic. *)
Record signal_returns : Prop := {
  prekey_returns j m : returns (decrypt_prekey L j m);
  message_returns j m : returns (decrypt_message L j m);
  group_returns c j m : returns (decrypt_group L c j m);
  clear_returns j : returns (clear_identity L j)
}.

Lemma returns_buffered b content t n (d : dm bytes) extra : returns d -> returns (bufferedDecrypt sha256 b content t n d extra).
Proof.
  intros Hd. unfold bufferedDecrypt. destruct (negb b); [by apply returns_bind|].
  apply returns_bind; [apply returns_wrap, returns_query|]. intros [x|]; [by destruct (Plaintext x)|].
  apply returns_bind; [|done]. apply returns_txn, returns_bind; [done|]. intros p.
  apply returns_bind; [apply returns_wrap, returns_exec|done].
Qed.

Lemma returns_unpad child r : returns (unpad_child child r).
Proof.
  apply returns_bind; [|done]. apply returns_lift. destruct (unpad_total (fst r) (version_of child)) as (o & -> & Ho). by destruct o.
Qed.

Lemma returns_part i from child k t n : signal_returns -> returns (decrypt_part i from child k t n).
Proof.
  intros HL. unfold decrypt_part, decryptDM, decryptGroupMsg, decryptBot. destruct k.
  - apply returns_bind; [|done]. destruct (node_content child); try done. apply returns_bind; [|intros; apply returns_unpad].
    destruct prekey.
    + destruct (parse_prekey L b) as [m|]; [|done]. apply returns_buffered. intros s. unfold decrypt_trusting.
      pose proof (prekey_returns HL from m s) as H1. destruct (decrypt_prekey L from m s) as [s1 [a|e| |]]; try done.
      destruct e as [| | | |[]| | | | |]; try done. destruct (AutoTrustIdentity cfg); [|done].
      pose proof (clear_returns HL from s1) as H2. destruct (clear_identity L from s1) as [s2 [a|e| |]]; try done.
      apply (prekey_returns HL).
    + destruct (parse_message L b) as [m|]; [|done]. apply returns_buffered, (message_returns HL).
  - apply returns_bind; [|done]. destruct (node_content child); try done. destruct (parse_group L b) as [m|]; [|done].
    apply returns_bind; [apply returns_buffered, (group_returns HL)|intros; apply returns_unpad].
  - apply returns_bind; [|done]. destruct (node_content child); try done. by destruct (decrypt_bot _ _ _ _ _ _).
  - apply returns_bind; [|done]. destruct (node_content child); try done. by destruct (decrypt_bot _ _ _ _ _ _).
Qed.

Lemma returns_attempt {A} (m : dm A) : returns m -> returns (attempt m).
Proof. intros Hm c. unfold attempt. specialize (Hm (stores c)). by destruct (m (stores c)) as [s [a|e| |]]. Qed.

Lemma returns_clear now h : returns (clear_buffered now h).
Proof.
  unfold clear_buffered. destruct h as [h|]; [|done]. destruct (EnableDecryptedEventBuffer cfg); [|done].
  apply returns_bind; [apply returns_attempt, returns_wrap, returns_exec|]. intros _. apply returns_bind; [done|]. intros c. by destruct (_ && _).
Qed.

Lemma returns_child i from ts now f child : signal_returns -> returns (decrypt_child i from ts now f child).
Proof.
  intros HL. unfold decrypt_child. destruct (negb _); [done|]. destruct (fst (GetString _ _ _)) as [encType [|]]; [|done].
  destruct (kind_of i encType); try done.
  all: apply returns_bind; [apply returns_attempt; by apply returns_part|]; intros [e|[p h]].
  all: try (destruct (handle_part _ _ _ _) as [l [failed badProto]]; apply returns_bind; [done|]; intros _;
    destruct (_ && _); [done|]; destruct failed; [done|]; apply returns_bind; [apply returns_clear|done]).
  all: destruct (cancelled W); destruct e as [e|e|e| |[]| | | |e|]; done.
Qed.

Lemma returns_children i from ts now f l : signal_returns -> returns (decrypt_children i from ts now f l).
Proof.
  intros HL. revert f. induction l as [|c l IH]; intros f; cbn [decrypt_children]; [done|].
  apply returns_bind; [by apply returns_child|apply IH].
Qed.

(** After a loop that ran to its end. *)
Lemma final_answered l f : silent l -> well_answered (l ++ final_answer f) /\ answers (l ++ final_answer f) <> [].
Proof.
  intros Hl. rewrite answers_app, (silent_answers _ Hl). unfold final_answer.
  destruct (negb _); [|destruct (protobufFailed f)]; (split; [|done]).
  1, 2: eapply answered_ack; by rewrite answers_app, (silent_answers _ Hl).
  apply answered_receipt; [by rewrite answers_app, (silent_answers _ Hl)|]. intros forced [m [Hm|Hm]%elem_of_app].
  - apply (silent_decrypted _ forced Hl). by exists m.
  - by apply list_elem_of_singleton in Hm.
Qed.

(** What decryptMessages adds when the stanza goes through the loop. *)
Lemma loop_answered i from l ts (node : Node) now c : silent l -> exists l', effects (
    match (emit l;; f ← decrypt_children i from ts now (mkFlags false false false) (GetChildren node); emit (final_answer f)) c with
    | (c, Panic) => fst (emit [SendAck 0] c)
    | (c, _) => c
    end) = effects c ++ l' /\ well_answered l' /\
    (signal_returns -> handlers_succeed -> cancelled W = false -> answers l' <> []).
Proof.
  intros Hl. unfold mbind, stm_bind. cbn [emit].
  set (c1 := mkClient _ _ _). pose proof (stop_children i from ts now (mkFlags false false false) (GetChildren node) c1) as Hs.
  pose proof (fun HL => returns_children i from ts now (mkFlags false false false) (GetChildren node) HL c1) as Hr.
  destruct (decrypt_children _ _ _ _ _ _ c1) as [c2 o]. destruct (Hs _ _ eq_refl) as (l2 & E & Hl2). subst c1. cbn [effects snd] in *.
  assert (match o with Err _ => True | _ => silent (l ++ l2) end) as Hl12.
  { destruct o as [f|[]| |]; [by apply silent_app|done|by apply silent_app..]. }
  destruct o as [f|[]| |].
  - exists ((l ++ l2) ++ final_answer f). cbn [emit effects]. rewrite E, <- !app_assoc. split; [done|].
    rewrite app_assoc. pose proof (final_answered _ f Hl12) as [H1 H2]. by split.
  - exists (l ++ l2). rewrite E, <- app_assoc. split; [done|]. destruct Hl2 as [H1 H2].
    split; [by apply refusal_answered, refusal_app|]. intros _ Hh Hc. rewrite answers_app, (silent_answers _ Hl). by apply H2.
  - exists ((l ++ l2) ++ [SendAck 0]). cbn [emit effects fst]. rewrite E, <- !app_assoc. split; [done|]. rewrite app_assoc, answers_app, (silent_answers _ Hl12).
    split; [|done]. eapply answered_ack. by rewrite answers_app, (silent_answers _ Hl12).
  - exists (l ++ l2). rewrite E, <- app_assoc. split; [done|]. split; [by apply unanswered, silent_answers|]. intros HL. by destruct (Hr HL).
Qed.


End decrypting.

End messages.

Module message_samples.

Import jid attrs sql source receipt eventbuffer padding decryption messages.

Definition erin : JID := mkJID "15550000005" 0 0 0 DefaultUserServer.
Definition erin_lid : JID := mkJID "500" 0 0 0 HiddenUserServer.

(** A ratchet that counts: every decryption advances it. *)
Definition ratchet (b : bytes) : stm (db (tables (S := nat)) unit) decrypt_error bytes :=
  fun s => (set_rows (mkTables (Datatypes.S (signal (rows s))) (events (rows s))) s, Ok b).

Definition no_hash (b : bytes) : bytes := b.
Definition fresh_store : db (tables (S := nat)) unit := mkDb (mkTables 0%nat ∅) tt [].

Lemma ratchet_keeps b : keeps_events (ratchet b).
Proof. by intros s s' o [= <- _]. Qed.

(** Another message: the ratchet moves on. *)
Definition another (s : db (tables (S := nat)) unit) : db (tables (S := nat)) unit :=
  set_rows (mkTables (Datatypes.S (signal (rows s))) (events (rows s))) s.

Lemma decrypted_once_witness :
  let s' := fst (bufferedDecrypt no_hash true [x01] 5 6 (ratchet [x02]) ["normal"] fresh_store) in
  let ds := snd (run no_hash [x01] ["normal"] [Deliver 5 7 (ratchet [x03]); Clear; Other another; Purge 1000; Deliver 5 8 (ratchet [x03])] s') in
  length ds = 2%nat /\ Forall (not_decrypted no_hash [x01] ["normal"] [x02]) ds.
Proof.
  cbv zeta. destruct (bufferedDecrypt no_hash true [x01] 5 6 (ratchet [x02]) ["normal"] fresh_store) as [s' o] eqn:E.
  pose proof (decrypted_once no_hash [x01] ["normal"] (ratchet [x02]) 5 6 fresh_store s' o (ratchet_keeps [x02]) E) as H.
  assert (o = Ok ([x02], ciphertext_hash no_hash [x01] ["normal"])) as Eo by (vm_compute in E; injection E as _ <-; reflexivity).
  rewrite Eo in H. destruct H as (_ & H & _). split; [vm_compute in E; injection E as <- _; reflexivity|].
  apply H. repeat constructor. vm_compute. discriminate.
Defined.

Definition some_signal : libsignal (S := nat) (PKM := bytes) (SM := bytes) (GM := bytes) :=
  mkSignal Some Some Some (fun _ => ratchet) (fun _ => ratchet) (fun _ _ => ratchet) (fun _ => mret tt).

Definition a_config : config := mkConfig true true true erin erin_lid.

Definition a_world : world (R := string) :=
  mkWorld (fun _ => Some erin_lid) (fun _ _ _ _ _ => None) (fun b => Some (mkMessage None None None None (bytes_str b)))
    (fun _ => (false, false)) (fun _ => false) false false false.

Definition a_stanza : Node :=
  mkNode "message" [("id", AString "A")]
    (ANodes [mkNode "enc" [("type", AString "msg"); ("v", AString "2")] (ABytes [x07; x01])]).

Definition an_info : MessageInfo (V := unit) :=
  source.mkInfo (mkSource erin erin false false "" EmptyJID EmptyJID EmptyJID []) "A" 0 ZeroTime "" "" "" "" false None no_bot no_meta "".

Definition start : client (S := nat) (R := string) := mkClient fresh_store [] ZeroTime.

(** A part that does not decrypt. *)
Definition bad_signal : libsignal (S := nat) (PKM := bytes) (SM := bytes) (GM := bytes) :=
  mkSignal Some Some Some (fun _ _ => throw (SignalError OtherSignal)) (fun _ _ => throw (SignalError OtherSignal))
    (fun _ _ _ => throw (SignalError OtherSignal)) (fun _ => mret tt).


(** The message is migrated, handled, purged from the buffer and answered by a receipt. *)
Example handled_and_answered :
  effects (decryptMessages no_hash some_signal a_config a_world an_info a_stanza 5 start) =
  [Migrate erin erin_lid; CancelRerequest "A"; DispatchMessage (mkMessage None None None None (bytes_str [x07])) 0; PurgeHashes; SendMessageReceipt].
Proof. vm_compute. reflexivity. Qed.

End message_samples.
