(* ===== verification/History.v ===== *)
(** * What is stored from incoming stanzas and from history

    [cstoken] (cstoken.go): the token for a contact who has sent none.
    [incoming] (message.go): where a stanza goes, and the message secrets,
    privacy tokens and LID pairs kept from a history sync. *)

From S2P Require Import Prelude GoStrings StateErr Jid Node Crypto Sql Receive LidMap MsgSecret TCToken.

#[local] Open Scope string_scope.
#[local] Open Scope list_scope.
#[local] Open Scope Z_scope.

Module cstoken.

Import jid sql.

Definition shouldSendCsToken (j : JID) : bool :=
  let j := ToNonAD j in
  (bool_decide (Server j = DefaultUserServer) || bool_decide (Server j = HiddenUserServer)) &&
  negb (bool_decide (User j = User PSAJID)) && negb (IsBot j).

Section token.
Context {C : Crypto}.

(** [salt]: the stored salt ([None]: an error or no row); [GetLIDForPN]: [None] is
    an error. *)
Definition generateCsToken (GetLIDForPN : JID -> option JID) (salt : option bytes) (j : JID) : option bytes :=
  if negb (shouldSendCsToken j) then None
  else
    match salt with
    | None | Some [] => None
    | Some salt =>
        let recipientLID :=
          if bool_decide (Server j = HiddenUserServer) then Some (ToNonAD j)
          else if bool_decide (Server j = DefaultUserServer) then
            match GetLIDForPN (ToNonAD j) with
            | None => None
            | Some lid => if IsEmpty lid then None else Some (ToNonAD lid)
            end
          else None in
        lid ← recipientLID;
        if negb (bool_decide (Server lid = HiddenUserServer)) then None
        else Some (hmac_sha256 salt (str_bytes (String_ lid)))
    end.

(** A contact gets the same token under the phone number as under the LID. *)
Theorem cstoken_same_for_modes (GetLIDForPN : JID -> option JID) salt pn lid :
  Server pn = DefaultUserServer -> Server lid = HiddenUserServer -> GetLIDForPN (ToNonAD pn) = Some lid ->
  User pn <> User PSAJID -> User lid <> User PSAJID -> IsBot (ToNonAD pn) = false ->
  generateCsToken GetLIDForPN salt pn = generateCsToken GetLIDForPN salt lid.
Proof.
  intros Hp Hl Hm Hup Hul Hb. unfold generateCsToken.
  assert (shouldSendCsToken pn = true) as ->.
  { unfold shouldSendCsToken. rewrite Hb. change (Server (ToNonAD pn)) with (Server pn). change (User (ToNonAD pn)) with (User pn).
    rewrite Hp. rewrite (bool_decide_eq_false_2 (User pn = _)) by done. done. }
  assert (shouldSendCsToken lid = true) as ->.
  { unfold shouldSendCsToken. change (Server (ToNonAD lid)) with (Server lid). change (User (ToNonAD lid)) with (User lid).
    rewrite (bool_decide_eq_false_2 (User lid = _)) by done. unfold IsBot. cbn [Server User Device ToNonAD]. rewrite Hl. done. }
  cbn [negb]. destruct salt as [[|b s]|]; [done| |done]. rewrite Hp, Hl, Hm.
  rewrite (bool_decide_eq_false_2 (DefaultUserServer = HiddenUserServer)) by done.
  rewrite !bool_decide_eq_true_2 by done. unfold IsEmpty. rewrite Hl. done.
Qed.

End token.

(** storeNCTSalt: an empty salt is not stored. *)
Definition storeNCTSalt (salt : bytes) : stm (db privacytokens.token_tables unit) sql_error unit :=
  match salt with [] => mret tt | _ => privacytokens.PutNCTSalt salt end.

Definition clearNCTSalt : stm (db privacytokens.token_tables unit) sql_error unit := privacytokens.DeleteNCTSalt.

End cstoken.

Module incoming.

Import jid attrs source.

(** ** Where a stanza goes *)

Section stanzas.
Context {V : Type} (parseVerifiedNameContent : Node -> option V) (verified_text : V -> string) (messenger : bool).

Abbreviation info := (MessageInfo (V := V)).

(** client.go: the pair in its order, if the two addresses are one. *)
Definition StoreLIDPNMapping (first second : JID) : option (JID * JID) :=
  if bool_decide (Server first = HiddenUserServer) && bool_decide (Server second = DefaultUserServer) then Some (first, second)
  else if bool_decide (Server first = DefaultUserServer) && bool_decide (Server second = HiddenUserServer) then Some (second, first)
  else None.

Inductive step :=
  | PutMapping (lid pn : JID)
  | UpdateBusinessName (name : string)
  | UpdatePushName (name : string)
  | PlaintextMessage (i : info)        (* with the acknowledgement around it *)
  | EncryptedMessage (i : info)
  | Acknowledge (error : Z).

Definition put_mapping (first second : JID) : list step :=
  match StoreLIDPNMapping first second with Some (lid, pn) => [PutMapping lid pn] | None => [] end.

Definition learn_names (i : info) : list step :=
  (match VerifiedName i with
   | Some v => if String.eqb (verified_text v) "" then [] else [UpdateBusinessName (verified_text v)]
   | None => []
   end) ++
  (if negb (String.eqb (PushName i) "") && negb (String.eqb (PushName i) "-") && (negb messenger || negb (String.eqb (PushName i) "username"))
   then [UpdatePushName (PushName i)] else []).

Definition handleEncryptedMessage (clientID clientLID : JID) (node : Node) : list step :=
  match parseMessageInfo parseVerifiedNameContent clientID clientLID node with
  | Ok i =>
      let s := info_source i in
      (if negb (IsEmpty (SenderAlt s)) then put_mapping (SenderAlt s) (Sender s)
       else if negb (IsEmpty (RecipientAlt s)) then put_mapping (RecipientAlt s) (Chat s)
       else []) ++
      learn_names i ++
      [if bool_decide (Server (Sender s) = NewsletterServer) then PlaintextMessage i else EncryptedMessage i]
  | _ => [Acknowledge receipt.NackParsingError]
  end.

End stanzas.

(** ** History *)

Record HistoryMessage := mkHistoryMessage {
  MessageSecret : option bytes;
  FromMe : bool;
  KeyParticipant : string;
  KeyID : string;
  Participant : string
}.

Record Conversation := mkConversation {
  ConvID : string;
  TcToken : option bytes;
  TcTokenTimestamp : Z;               (* uint64; 0 when absent *)
  TcTokenSenderTimestamp : Z;
  ConvMessages : list HistoryMessage
}.

(** The error of ParseJID is not looked at: what it had parsed is used. *)
Definition parsed_part (s : string) : JID :=
  match ParseJID s with Ok j => j | Err (_, j) => j | _ => EmptyJID end.

Section history.
(** The LID of a phone number; on an error there is none. *)
Context (GetLIDForPN : JID -> JID) (ownID : JID).

Definition conversation_user (chat : JID) : JID :=
  if bool_decide (Server chat = HiddenUserServer) then chat
  else if bool_decide (Server chat = DefaultUserServer) then
    let lid := GetLIDForPN chat in if IsEmpty lid then chat else lid
  else EmptyJID.

Definition conversation_token (c : Conversation) : list privacytokens.PrivacyToken :=
  let chat := parsed_part (ConvID c) in
  let user := conversation_user chat in
  match TcToken c with
  | Some t =>
      if IsEmpty chat || IsEmpty user then []
      else [privacytokens.mkToken user t (time_Unix (i64 (TcTokenTimestamp c))) (time_Unix (i64 (TcTokenSenderTimestamp c)))]
  | None => []
  end.

Definition message_sender (chat : JID) (m : HistoryMessage) : JID :=
  if FromMe m then ToNonAD ownID
  else if bool_decide (Server chat = DefaultUserServer) || bool_decide (Server chat = HiddenUserServer) then chat
  else if negb (String.eqb (KeyParticipant m) "") then parsed_part (KeyParticipant m)
  else if negb (String.eqb (Participant m) "") then parsed_part (Participant m)
  else EmptyJID.

(** Chat, sender, id and secret, as PutMessageSecrets takes them. *)
Definition conversation_secrets (c : Conversation) : list (JID * JID * string * bytes) :=
  let chat := parsed_part (ConvID c) in
  if IsEmpty chat then []
  else
    omap (fun m =>
      secret ← MessageSecret m;
      let sender := message_sender chat m in
      if IsEmpty sender || String.eqb (KeyID m) "" then None else Some (chat, sender, KeyID m, secret)) (ConvMessages c).

(** What is stored: the secrets, then the tokens. *)
Definition storeHistoricalMessageSecrets (l : list Conversation) :
    list (JID * JID * string * bytes) * list privacytokens.PrivacyToken :=
  if IsEmpty (ToNonAD ownID) then ([], [])
  else (concat (map conversation_secrets l), concat (map conversation_token l)).

End history.

(** Pairs whose texts both parse; the server of old phone numbers is replaced. *)
Definition historical_pair (m : string * string) : option lidmap.LIDMapping :=
  match ParseJID (fst m), ParseJID (snd m) with
  | Ok pn, Ok lid =>
      let pn := if bool_decide (Server pn = LegacyUserServer)
                then mkJID (User pn) (RawAgent pn) (Device pn) (Integrator pn) DefaultUserServer else pn in
      Some (lidmap.mkMapping lid pn)
  | _, _ => None
  end.

Definition storeHistoricalPNLIDMappings (dedup : list lidmap.LIDMapping -> list lidmap.LIDMapping) (l : list (string * string)) :=
  lidmap.PutManyLIDMappings dedup (omap historical_pair l).

(** A sync message: LID and phone number of each pair, as uint64. *)
Definition sync_pair (m : Z * Z) : lidmap.LIDMapping :=
  lidmap.mkMapping (NewJID (itoa (fst m)) HiddenUserServer) (NewJID (itoa (snd m)) DefaultUserServer).

Definition storeLIDSyncMessage (dedup : list lidmap.LIDMapping -> list lidmap.LIDMapping) (l : list (Z * Z)) :=
  lidmap.PutManyLIDMappings dedup (map sync_pair l).

(** The device's record of when the chat database was migrated; [None]: unchanged. *)
Definition migration_timestamp (stored received : Z) : option Z :=
  if (stored =? 0) && (0 <? received) then Some (i64 received) else None.

Definition storeCompanionMetaNonce (stored nonce : string) : option string :=
  if negb (String.eqb nonce "") && negb (String.eqb nonce stored) then Some nonce else None.

(** ** Tokens from history *)

Import sql privacytokens.

Definition stored_sender_time (t : token_tables) (user : JID) : option Z :=
  r ← tokens t !! jid.String_ (ToNonAD user); sender_timestamp r.

(** A history sync that brings a token without the time the account last sent
    its own overwrites the stored time with the epoch. *)
Theorem history_resets_sender_time (GetLIDForPN : JID -> JID) ownID c x old s :
  works s -> IsEmpty ownID = false -> TcTokenSenderTimestamp c = 0 ->
  conversation_token GetLIDForPN c = [x] ->
  tokens (rows s) !! jid.String_ (ToNonAD (privacytokens.User x)) = Some old -> timestamp old <= Unix (privacytokens.Timestamp x) ->
  snd (storeHistoricalMessageSecrets GetLIDForPN ownID [c]) = [x] /\
  exists s', PutPrivacyTokens [x] s = (s', Ok tt) /\ stored_sender_time (rows s') (privacytokens.User x) = Some 0.
Proof.
  intros Hw Ho Hz Hx Hold Hle. split.
  { unfold storeHistoricalMessageSecrets. change (IsEmpty (ToNonAD ownID)) with (IsEmpty ownID). rewrite Ho. cbn [map concat snd].
    by rewrite Hx, app_nil_r. }
  eexists. split; [by apply PutPrivacyTokens_ok|]. unfold stored_sender_time. cbn [rows set_rows set_tokens tokens foldl].
  unfold put_token. rewrite lookup_insert_eq, Hold. cbn [mbind option_bind].
  assert (SenderTimestamp x = time_Unix 0) as Hs.
  { unfold conversation_token in Hx. destruct (TcToken c); [|done]. destruct (_ || _); [done|]. injection Hx as <-.
    cbn [SenderTimestamp]. by rewrite Hz. }
  unfold upsert_row, new_row. cbn [timestamp sender_timestamp token]. rewrite (proj2 (Z.leb_le _ _) Hle). cbn [sender_timestamp].
  by rewrite Hs.
Qed.

End incoming.

Module history_samples.

Import jid sql privacytokens incoming cstoken.

Definition frank : JID := mkJID "600" 0 0 0 HiddenUserServer.
Definition frank_pn : JID := mkJID "15550000006" 0 0 0 DefaultUserServer.
Definition lid_of (j : JID) : JID := frank.
Definition a_conversation : Conversation := mkConversation "15550000006@s.whatsapp.net" (Some [x01]) 1700000000 0 [].
Definition frank_token : PrivacyToken := mkToken frank [x01] (time_Unix 1700000000) (time_Unix 0).

Definition sent_before : db token_tables unit :=
  mkDb (mkTables {["600@lid" := mkRow [x02] 1600000000 (Some 1650000000)]} None ∅) tt [].

Lemma history_resets_sender_time_witness :
  snd (storeHistoricalMessageSecrets lid_of frank_pn [a_conversation]) = [frank_token] /\
  exists s', PutPrivacyTokens [frank_token] sent_before = (s', Ok tt) /\ stored_sender_time (rows s') frank = Some 0.
Proof.
  apply (history_resets_sender_time lid_of frank_pn a_conversation frank_token (mkRow [x02] 1600000000 (Some 1650000000)) sent_before);
    try reflexivity. vm_compute. discriminate.
Defined.

Definition some_crypto : Crypto :=
  {| gcm_seal _ _ p _ := p; gcm_open _ _ p _ := Some p; sha256 b := b; hmac_sha256 k b := b; hmac_sha512 k b := b;
     hkdf_stream _ _ _ _ := x00; x25519 a b := Some b; x25519_base b := b; verify_signature _ _ _ := true;
     calculate_signature _ b := b; aes_block_enc _ b := b; aes_block_dec _ b := b |}.

Lemma cstoken_same_for_modes_witness :
  generateCsToken (C := some_crypto) (fun _ => Some frank) (Some [x01]) frank_pn =
  generateCsToken (C := some_crypto) (fun _ => Some frank) (Some [x01]) frank.
Proof. apply (cstoken_same_for_modes (C := some_crypto) (fun _ => Some frank) (Some [x01]) frank_pn frank); (reflexivity || discriminate). Defined.

End history_samples.
