(* ===== verification/QrChannel.v ===== *)
(** * qrchan.go: the channel of QR codes

    The goroutine that sends the codes, the event handlers that end it and the
    reader of the channel, as threads that interleave between any two operations
    on what they share: the [closed] flag, the output channel of eight items and
    the channel that stops the codes. A panic of an event handler is caught by
    dispatchEvent; one of the goroutine ends the process. *)

From S2P Require Import Prelude.

#[local] Open Scope string_scope.
#[local] Open Scope list_scope.
#[local] Open Scope Z_scope.

Module qrchan.

(** Durations are seconds. *)
Inductive QRChannelItem :=
  | CodeItem (code : string) (timeout : Z)
  | PasskeyItem                         (* a passkey request or confirmation *)
  | ErrorItem
  | StatusItem (event : string).

Definition QRChannelSuccess := StatusItem "success".
Definition QRChannelTimeout := StatusItem "timeout".
Definition QRChannelErrUnexpectedEvent := StatusItem "err-unexpected-state".
Definition QRChannelClientOutdated := StatusItem "err-client-outdated".
Definition QRChannelScannedWithoutMultidevice := StatusItem "err-scanned-without-multidevice".

Inductive event :=
  | EvQR (codes : list string)
  | EvScannedWithoutMultidevice
  | EvPasskeyRequest
  | EvPasskeyConfirmation (skipHandoffUX sendFails : bool)
  | EvPasskeyError
  | EvClientOutdated
  | EvPairSuccess
  | EvPairError
  | EvDisconnected
  | EvUnexpected                         (* Connected, ConnectFailure, LoggedOut, TemporaryBan *)
  | EvOther.

(** What handleEvent goes on to do. *)
Inductive plan := Drop | Emitter (codes : list string) | Note (i : QRChannelItem) | Final (i : QRChannelItem).

Definition plan_of (e : event) : plan :=
  match e with
  | EvQR codes => Emitter codes
  | EvScannedWithoutMultidevice => Note QRChannelScannedWithoutMultidevice
  | EvPasskeyRequest => Note PasskeyItem
  | EvPasskeyConfirmation true fails => if fails then Note ErrorItem else Drop
  | EvPasskeyConfirmation false _ => Note PasskeyItem
  | EvPasskeyError => Note ErrorItem
  | EvClientOutdated => Final QRChannelClientOutdated
  | EvPairSuccess => Final QRChannelSuccess
  | EvPairError => Final ErrorItem
  | EvDisconnected => Final QRChannelTimeout
  | EvUnexpected => Final QRChannelErrUnexpectedEvent
  | EvOther => Drop
  end.

(** Where a thread is. *)
Inductive pc :=
  | Top (codes : list string)            (* emitQRs: the head of its loop *)
  | Emit (code : string) (rest : list string) (timeout : Z)
  | Wait (rest : list string)
  | SendTimeout                          (* ran out of codes *)
  | CloseOut (rest : option (list string))   (* close(output); then the loop again, or the end *)
  | Enter (e : event)                    (* handleEvent *)
  | SendNote (i : QRChannelItem)
  | StopQRs (i : QRChannelItem)
  | Swap (i : QRChannelItem)
  | SendFinal (i : QRChannelItem).

Record state := mkState {
  closed : bool;
  output : list QRChannelItem;           (* in the channel's buffer *)
  output_closed : bool;
  taken : list QRChannelItem;            (* what the reader has got *)
  stopped : bool;                        (* stopQRs is closed *)
  threads : gmap nat pc;
  recovered : nat                        (* panics caught in handlers *)
}.

Definition init : state := mkState false [] false [] false ∅ 0.

Definition capacity : nat := 8.

Inductive qr_error := ErrClientIsNil | ErrQRAlreadyConnected | ErrQRStoreContainsID.

(** GetQRChannel: the channel and its handler, before any event. *)
Definition GetQRChannel (cli_nil connected has_id : bool) : qr_error + state :=
  if cli_nil then inl ErrClientIsNil
  else if connected then inl ErrQRAlreadyConnected
  else if has_id then inl ErrQRStoreContainsID
  else inr init.

Definition code_timeout (codes : list string) : Z := if (length codes =? 6)%nat then 60 else 20.

Section operations.
Context (t : nat) (s : state).

Definition go (p : pc) : state := mkState (closed s) (output s) (output_closed s) (taken s) (stopped s) (<[t := p]> (threads s)) (recovered s).
Definition done : state := mkState (closed s) (output s) (output_closed s) (taken s) (stopped s) (delete t (threads s)) (recovered s).
Definition set_closed : state := mkState true (output s) (output_closed s) (taken s) (stopped s) (threads s) (recovered s).
Definition push (i : QRChannelItem) : state := mkState (closed s) (output s ++ [i]) (output_closed s) (taken s) (stopped s) (threads s) (recovered s).
Definition close_output : state := mkState (closed s) (output s) true (taken s) (stopped s) (threads s) (recovered s).
Definition stop : state := mkState (closed s) (output s) (output_closed s) (taken s) true (threads s) (recovered s).
(** A panic of a handler. *)
Definition recover : state := mkState (closed s) (output s) (output_closed s) (taken s) (stopped s) (delete t (threads s)) (Datatypes.S (recovered s)).
End operations.

(** One operation of a thread; [None]: the process ends. A blocked thread has no
    step. [EWaitDone]: which case of the second select is taken. *)
Inductive woken := Timer | Stop | ExpectedDisconnect | ContextDone.

Inductive step : state -> option state -> Prop :=
  | step_event s t e : threads s !! t = None -> step s (Some (go t s (Enter e)))
  | step_read s i rest : output s = i :: rest ->
      step s (Some (mkState (closed s) rest (output_closed s) (taken s ++ [i]) (stopped s) (threads s) (recovered s)))
  (* emitQRs *)
  | step_out_of_codes s t : threads s !! t = Some (Top []) ->
      step s (Some (if closed s then done t s else go t (set_closed s) SendTimeout))
  | step_top s t c rest : threads s !! t = Some (Top (c :: rest)) ->
      step s (Some (if closed s then done t s else go t s (Emit c rest (code_timeout (c :: rest)))))
  | step_emit s t c rest n : threads s !! t = Some (Emit c rest n) -> output_closed s = false -> (length (output s) < capacity)%nat ->
      step s (Some (go t (push s (CodeItem c n)) (Wait rest)))
  | step_emit_full s t c rest n : threads s !! t = Some (Emit c rest n) -> output_closed s = false -> (capacity <= length (output s))%nat ->
      step s (Some (if closed s then done t s else go t (set_closed s) (CloseOut None)))
  | step_emit_panic s t c rest n : threads s !! t = Some (Emit c rest n) -> output_closed s = true -> step s None
  | step_wait s t rest w : threads s !! t = Some (Wait rest) -> (w = Stop -> stopped s = true) ->
      step s (Some (match w with
                    | Timer => go t s (Top rest)
                    | Stop | ExpectedDisconnect => done t s
                    | ContextDone => if closed s then go t s (Top rest) else go t (set_closed s) (CloseOut (Some rest))
                    end))
  | step_timeout s t : threads s !! t = Some SendTimeout -> output_closed s = false -> (length (output s) < capacity)%nat ->
      step s (Some (go t (push s QRChannelTimeout) (CloseOut None)))
  | step_timeout_panic s t : threads s !! t = Some SendTimeout -> output_closed s = true -> step s None
  | step_close s t k : threads s !! t = Some (CloseOut k) -> output_closed s = false ->
      step s (Some (match k with Some rest => go t (close_output s) (Top rest) | None => done t (close_output s) end))
  | step_close_panic s t k : threads s !! t = Some (CloseOut k) -> output_closed s = true -> step s None
  (* handleEvent *)
  | step_enter s t e : threads s !! t = Some (Enter e) ->
      step s (Some (if closed s then done t s
                    else match plan_of e with
                         | Drop => done t s
                         | Emitter codes => go t s (Top codes)
                         | Note i => go t s (SendNote i)
                         | Final i => go t s (StopQRs i)
                         end))
  | step_note s t i : threads s !! t = Some (SendNote i) -> output_closed s = false -> (length (output s) < capacity)%nat ->
      step s (Some (done t (push s i)))
  | step_note_panic s t i : threads s !! t = Some (SendNote i) -> output_closed s = true -> step s (Some (recover t s))
  | step_stop s t i : threads s !! t = Some (StopQRs i) ->
      step s (Some (if stopped s then recover t s else go t (stop s) (Swap i)))
  | step_swap s t i : threads s !! t = Some (Swap i) ->
      step s (Some (if closed s then done t s else go t (set_closed s) (SendFinal i)))
  | step_final s t i : threads s !! t = Some (SendFinal i) -> output_closed s = false -> (length (output s) < capacity)%nat ->
      step s (Some (go t (push s i) (CloseOut None)))
  | step_final_panic s t i : threads s !! t = Some (SendFinal i) -> output_closed s = true -> step s (Some (recover t s)).

Inductive reachable : state -> Prop :=
  | reach_init : reachable init
  | reach_step s s' : reachable s -> step s (Some s') -> reachable s'.

(** ** Closed once *)

(** The thread that won the flag and has not closed the channel yet. *)
Definition closing (p : pc) : bool := match p with SendTimeout | CloseOut _ | SendFinal _ => true | _ => false end.

Record inv (s : state) : Prop := {
  inv_open : closed s = false -> output_closed s = false /\ forall t p, threads s !! t = Some p -> closing p = false;
  inv_closed : output_closed s = true -> forall t p, threads s !! t = Some p -> closing p = false;
  inv_one t t' p p' : threads s !! t = Some p -> threads s !! t' = Some p' -> closing p = true -> closing p' = true -> t = t'
}.

(** A thread moves and neither wins the flag nor closes the channel. *)
Lemma inv_move s s' t p : threads s' = <[t := p]> (threads s) -> inv s -> closing p = false ->
  closed s' = closed s -> output_closed s' = output_closed s -> inv s'.
Proof.
  intros Ht [H1 H2 H3] Hp Hc Ho.
  assert (forall t' p', threads s' !! t' = Some p' -> closing p' = true -> threads s !! t' = Some p') as Hold.
  { intros t' p' H Hcl. rewrite Ht in H. apply lookup_insert_Some in H as [[_ <-]|[_ H]]; [congruence|done]. }
  split; rewrite ?Hc, ?Ho.
  - intros E. destruct (H1 E) as [? H]. split; [easy|]. intros t' p' Hp'. destruct (closing p') eqn:Ecl; [|easy].
    rewrite <- Ecl. eauto.
  - intros E t' p' Hp'. destruct (closing p') eqn:Ecl; [|easy]. rewrite <- Ecl. eauto.
  - intros t1 t2 p1 p2 E1 E2 C1 C2. eauto.
Qed.

Lemma inv_done s s' t : threads s' = delete t (threads s) -> inv s ->
  closed s' = closed s -> output_closed s' = output_closed s -> inv s'.
Proof.
  intros Ht [H1 H2 H3] Hc Ho.
  assert (forall t' p', threads s' !! t' = Some p' -> threads s !! t' = Some p') as Hold.
  { intros t' p' H. rewrite Ht in H. by apply lookup_delete_Some in H as [_ H]. }
  split; rewrite ?Hc, ?Ho.
  - intros E. destruct (H1 E) as [? H]. split; [easy|]. eauto.
  - eauto.
  - intros t1 t2 p1 p2 E1 E2 C1 C2. eauto.
Qed.

(** A thread wins the flag, or the winner goes on. *)
Lemma inv_win s s' t p : threads s' = <[t := p]> (threads s) -> inv s -> output_closed s' = false -> closed s' = true ->
  (closed s = false \/ exists q, threads s !! t = Some q /\ closing q = true) -> inv s'.
Proof.
  intros Ht [H1 H2 H3] Ho Hc Hwin.
  assert (forall t' p', threads s' !! t' = Some p' -> closing p' = true -> t' = t) as Honly.
  { intros t' p' H Hcl. rewrite Ht in H. apply lookup_insert_Some in H as [[<- _]|[Hne H]]; [easy|].
    destruct Hwin as [E|(q & Hq & Eq)]; [|by eapply H3]. destruct (H1 E) as [_ Hn]. specialize (Hn _ _ H). congruence. }
  split; [congruence|congruence|]. intros t1 t2 p1 p2 E1 E2 C1 C2.
  rewrite (Honly _ _ E1 C1), (Honly _ _ E2 C2). easy.
Qed.

(** The winner closes the channel. *)
Lemma inv_close s s' t p : inv s -> closed s' = true -> threads s !! t = Some p -> closing p = true ->
  (threads s' = delete t (threads s) \/ exists q, closing q = false /\ threads s' = <[t := q]> (threads s)) -> inv s'.
Proof.
  intros [H1 H2 H3] Hc Hp Hcl Ht.
  assert (forall t' p', threads s' !! t' = Some p' -> closing p' = false) as Hnone.
  { intros t' p' H. destruct (closing p') eqn:E; [|easy]. exfalso. destruct Ht as [Ht|(q & Hq & Ht)]; rewrite Ht in H.
    - apply lookup_delete_Some in H as [Hne H]. by apply Hne, (H3 _ _ _ _ Hp H).
    - apply lookup_insert_Some in H as [[_ <-]|[Hne H]]; [congruence|]. by apply Hne, (H3 _ _ _ _ Hp H). }
  split; [congruence|eauto|]. intros t1 t2 p1 p2 E1 E2 C1. specialize (Hnone _ _ E1). congruence.
Qed.

(** The winner has the flag. *)
Lemma closing_closed s t p : inv s -> threads s !! t = Some p -> closing p = true -> closed s = true /\ output_closed s = false.
Proof.
  intros [H1 H2 _] Hp Hcl. split.
  - destruct (closed s) eqn:E; [easy|]. destruct (H1 eq_refl) as [_ H]. specialize (H _ _ Hp). congruence.
  - destruct (output_closed s) eqn:E; [|easy]. specialize (H2 eq_refl _ _ Hp). congruence.
Qed.

Lemma inv_step s s' : inv s -> step s (Some s') -> inv s'.
Proof.
  intros Hi Hs. remember (Some s') as o eqn:Eo. destruct Hs as
    [s t e Hn|s i rest Ho|s t Hp|s t c rest Hp|s t c rest n Hp Ho Hl|s t c rest n Hp Ho Hl|s t c rest n Hp Ho|s t rest w Hp Hw
    |s t Hp Ho Hl|s t Hp Ho|s t k Hp Ho|s t k Hp Ho|s t e Hp|s t i Hp Ho Hl|s t i Hp Ho|s t i Hp|s t i Hp|s t i Hp Ho Hl|s t i Hp Ho];
    try discriminate Eo; injection Eo as <-.
  - by eapply (inv_move s _ t).
  - destruct Hi as [H1 H2 H3]. by split.
  - destruct (closed s) eqn:E; [by eapply (inv_done s _ t)|]. eapply (inv_win s _ t); [reflexivity|exact Hi|exact (proj1 (inv_open s Hi E))|reflexivity|left; exact E].
  - destruct (closed s) eqn:E; [by eapply (inv_done s _ t)|by eapply (inv_move s _ t)].
  - by eapply (inv_move s _ t).
  - destruct (closed s) eqn:E; [by eapply (inv_done s _ t)|]. eapply (inv_win s _ t); [reflexivity|exact Hi|exact (proj1 (inv_open s Hi E))|reflexivity|left; exact E].
  - destruct w; [by eapply (inv_move s _ t)|by eapply (inv_done s _ t)|by eapply (inv_done s _ t)|].
    destruct (closed s) eqn:E; [by eapply (inv_move s _ t)|]. eapply (inv_win s _ t); [reflexivity|exact Hi|exact (proj1 (inv_open s Hi E))|reflexivity|left; exact E].
  - destruct (closing_closed s t SendTimeout Hi Hp eq_refl) as [Hc _]. eapply (inv_win s _ t); [reflexivity|exact Hi|exact Ho|exact Hc|right; by exists SendTimeout].
  - destruct (closing_closed s t (CloseOut k) Hi Hp eq_refl) as [Hc _]. destruct k as [rest|].
    + eapply (inv_close s _ t); [exact Hi|exact Hc|exact Hp|reflexivity|right; by exists (Top rest)].
    + eapply (inv_close s _ t); [exact Hi|exact Hc|exact Hp|reflexivity|by left].
  - destruct (closed s) eqn:E; [by eapply (inv_done s _ t)|].
    destruct (plan_of e); [by eapply (inv_done s _ t)|by eapply (inv_move s _ t)..].
  - by eapply (inv_done s _ t).
  - by eapply (inv_done s _ t).
  - destruct (stopped s); [by eapply (inv_done s _ t)|by eapply (inv_move s _ t)].
  - destruct (closed s) eqn:E; [by eapply (inv_done s _ t)|]. eapply (inv_win s _ t); [reflexivity|exact Hi|exact (proj1 (inv_open s Hi E))|reflexivity|left; exact E].
  - destruct (closing_closed s t (SendFinal i) Hi Hp eq_refl) as [Hc _]. eapply (inv_win s _ t); [reflexivity|exact Hi|exact Ho|exact Hc|right; by exists (SendFinal i)].
  - by eapply (inv_done s _ t).
Qed.

Lemma qr_inv_reachable s : reachable s -> inv s.
Proof.
  induction 1 as [|s s' _ IH Hs]; [|by eapply inv_step]. split; cbn.
  - intros _. split; [easy|]. intros t p. by rewrite lookup_empty.
  - easy.
  - intros t t' p p'. by rewrite lookup_empty.
Qed.

(** In every interleaving the output channel is closed at most once, its
    winner's last item is sent before that, and the process ends in one way
    only: a code sent by the emitter after a handler has closed the channel. *)
Theorem qr_crash_is_race s : reachable s ->
  (forall t k, threads s !! t = Some (CloseOut k) -> output_closed s = false) /\
  (forall t i, threads s !! t = Some (SendFinal i) -> output_closed s = false) /\
  (step s None -> exists t c rest n, threads s !! t = Some (Emit c rest n) /\ output_closed s = true).
Proof.
  intros Hr. pose proof (qr_inv_reachable s Hr) as Hi. split; [|split].
  - intros t k H. by apply (closing_closed s t _ Hi H).
  - intros t i H. by apply (closing_closed s t _ Hi H).
  - intros Hs. remember None as o eqn:Eo. destruct Hs as [| | | | | |s t c rest n Hp Ho| | |s t Hp Ho| |s t k Hp Ho| | | | | | |];
      try discriminate Eo.
    + by exists t, c, rest, n.
    + destruct (closing_closed s t _ Hi Hp eq_refl). congruence.
    + destruct (closing_closed s t _ Hi Hp eq_refl). congruence.
Qed.

(** ** The emitter and a pairing event at once *)

(** The emitter has looked at the flag and is about to send its code. *)
Definition about_to_emit (code : string) : state :=
  mkState false [] false [] false {[0%nat := Emit code [] 20]} 0.

Lemma about_to_emit_reachable code : reachable (about_to_emit code).
Proof.
  pose proof reach_init as H. eapply reach_step in H; [|apply (step_event _ 0 (EvQR [code])); reflexivity].
  eapply reach_step in H; [|apply (step_enter _ 0 (EvQR [code])); reflexivity].
  eapply reach_step in H; [|apply (step_top _ 0 code []); reflexivity]. exact H.
Qed.

(** A pairing event runs up to its last item, or to the end, in between. *)
Definition status_sent (code : string) : state :=
  mkState true [QRChannelSuccess] false [] true {[0%nat := Emit code [] 20; 1%nat := CloseOut None]} 0.

Definition channel_closed (code : string) : state :=
  mkState true [QRChannelSuccess] true [] true {[0%nat := Emit code [] 20]} 0.

Lemma status_sent_reachable code : reachable (status_sent code).
Proof.
  pose proof (about_to_emit_reachable code) as H.
  eapply reach_step in H; [|apply (step_event _ 1 EvPairSuccess); reflexivity].
  eapply reach_step in H; [|apply (step_enter _ 1 EvPairSuccess); reflexivity].
  eapply reach_step in H; [|apply (step_stop _ 1 QRChannelSuccess); reflexivity].
  eapply reach_step in H; [|apply (step_swap _ 1 QRChannelSuccess); reflexivity].
  eapply reach_step in H; [|apply (step_final _ 1 QRChannelSuccess); [reflexivity|reflexivity|cbn; unfold capacity; lia]].
  exact H.
Qed.

Lemma channel_closed_reachable code : reachable (channel_closed code).
Proof.
  pose proof (status_sent_reachable code) as H.
  eapply reach_step in H; [|apply (step_close _ 1 None); reflexivity]. exact H.
Qed.

(** When pairing succeeds while the emitter is about to send a code, the
    process can end, or the reader can get the code after the final status. *)
Theorem qr_emitter_races code :
  (exists s, reachable s /\ step s None /\ output s = [QRChannelSuccess]) /\
  (exists s, reachable s /\ closed s = true /\ output s = [QRChannelSuccess; CodeItem code 20]).
Proof.
  split.
  - exists (channel_closed code). split; [apply channel_closed_reachable|]. split; [|reflexivity].
    apply (step_emit_panic _ 0 code [] 20); reflexivity.
  - pose proof (status_sent_reachable code) as H.
    eapply reach_step in H; [|apply (step_emit _ 0 code [] 20); [reflexivity|reflexivity|cbn; unfold capacity; lia]].
    eexists. split; [exact H|]. split; reflexivity.
Qed.

(** ** Left alone *)

(** The emitter with a reader that keeps up and no event: what the reader gets and
    the seconds that pass. *)
Fixpoint emitQRs (codes : list string) : list QRChannelItem * Z :=
  match codes with
  | [] => ([QRChannelTimeout], 0)
  | c :: rest =>
      let '(items, secs) := emitQRs rest in
      (CodeItem c (code_timeout codes) :: items, code_timeout codes + secs)
  end.

Definition alone (codes : list string) (got : list QRChannelItem) : state :=
  mkState false [] false got false {[0%nat := Top codes]} 0.

Inductive steps : state -> state -> Prop :=
  | steps_refl s : steps s s
  | steps_more s s' s'' : step s (Some s') -> steps s' s'' -> steps s s''.

Lemma alone_code c rest got : steps (alone (c :: rest) got) (alone rest (got ++ [CodeItem c (code_timeout (c :: rest))])).
Proof.
  eapply steps_more; [apply (step_top _ 0 c rest); reflexivity|]. cbn [closed alone].
  eapply steps_more; [apply (step_emit _ 0 c rest (code_timeout (c :: rest))); [reflexivity|reflexivity|cbn; unfold capacity; lia]|].
  eapply steps_more; [apply (step_read _ (CodeItem c (code_timeout (c :: rest))) []); reflexivity|].
  eapply steps_more; [apply (step_wait _ 0 rest Timer); [reflexivity|discriminate]|]. cbn -[code_timeout].
  exact (steps_refl _).
Qed.

Lemma steps_trans s s' s'' : steps s s' -> steps s' s'' -> steps s s''.
Proof. induction 1; [easy|]. intros. eapply steps_more; eauto. Qed.

(** Left alone with a reader that keeps up, the emitter sends every code in
    order, then the timeout, and closes the channel; the first of six codes is
    given a minute and the others twenty seconds. *)
Theorem qr_times_out codes got : exists s, steps (alone codes got) s /\
  taken s = got ++ fst (emitQRs codes) /\ output s = [] /\ output_closed s = true /\ closed s = true /\ threads s = ∅ /\
  snd (emitQRs codes) = 20 * Z.of_nat (length codes) + (if (6 <=? length codes)%nat then 40 else 0).
Proof.
  revert got. induction codes as [|c rest IH]; intros got.
  - eexists. split.
    + eapply steps_more; [apply (step_out_of_codes _ 0); reflexivity|]. cbn.
      eapply steps_more; [apply (step_timeout _ 0); [reflexivity|reflexivity|cbn; unfold capacity; lia]|].
      eapply steps_more; [apply (step_read _ QRChannelTimeout []); reflexivity|].
      eapply steps_more; [apply (step_close _ 0 None); reflexivity|]. apply steps_refl.
    + repeat split.
  - destruct (IH (got ++ [CodeItem c (code_timeout (c :: rest))])) as (s & Hs & H1 & H2 & H3 & H4 & H5 & H6).
    exists s. split; [eapply steps_trans; [apply alone_code|exact Hs]|].
    cbn [emitQRs]. destruct (emitQRs rest) as [items secs]. cbn [fst snd] in *.
    split; [rewrite H1, <- app_assoc; easy|]. do 4 (split; [easy|]). rewrite H6. unfold code_timeout. cbn [length].
    destruct (Nat.eqb_spec (Datatypes.S (length rest)) 6), (Nat.leb_spec 6 (length rest)), (Nat.leb_spec 6 (Datatypes.S (length rest))); lia.
Qed.

Lemma qr_crash_is_race_witness :
  exists t c rest n, threads (channel_closed "2@code") !! t = Some (Emit c rest n) /\ output_closed (channel_closed "2@code") = true.
Proof.
  apply (qr_crash_is_race (channel_closed "2@code") (channel_closed_reachable "2@code")).
  apply (step_emit_panic _ 0 "2@code" [] 20); reflexivity.
Defined.

End qrchan.
