(* ===== verification/Lifecycle.v ===== *)
(** * client.go, connectionevents.go, keepalive.go: the life of a connection

    [handlers]: the registered event handlers. [connection]: connecting,
    disconnecting and reconnecting. [keepalive]: the pings and the reconnect they
    force. [connectionevents]: what the server says about the connection. *)

From S2P Require Import Prelude GoStrings Jid Node Requests PreKeys.

#[local] Open Scope string_scope.
#[local] Open Scope list_scope.
#[local] Open Scope Z_scope.

Module handlers.

(** A registered handler: its function ([true]: success) and id. *)
Section handlers.
Context {E : Type}.

Record wrappedEventHandler := mkHandler { fn : E -> bool; handler_id : Z }.

Record registry := mkRegistry { eventHandlers : list wrappedEventHandler; nextHandlerID : Z }.

Definition AddEventHandlerWithSuccessStatus (f : E -> bool) (r : registry) : Z * registry :=
  let nextID := u32 (nextHandlerID r + 1) in
  (nextID, mkRegistry (eventHandlers r ++ [mkHandler f nextID]) nextID).

Definition AddEventHandler (f : E -> unit) (r : registry) : Z * registry :=
  AddEventHandlerWithSuccessStatus (fun e => let _ := f e in true) r.

(** [copy(l[i:], l[i+1:])]: the elements after [i] move down, the last stays. *)
Definition copy_down (i : nat) (l : list wrappedEventHandler) : list wrappedEventHandler :=
  take i l ++ drop (Datatypes.S i) l ++ drop (length l - 1) l.

Fixpoint index_of (id : Z) (l : list wrappedEventHandler) : option nat :=
  match l with
  | [] => None
  | h :: l => if handler_id h =? id then Some O else Datatypes.S <$> index_of id l
  end.

Definition RemoveEventHandler (id : Z) (r : registry) : bool * registry :=
  let l := eventHandlers r in
  match index_of id l with
  | None => (false, r)
  | Some O => (true, mkRegistry (drop 1 l) (nextHandlerID r))
  | Some index =>
      let l := if (index <? length l - 1)%nat then copy_down index l else l in
      (true, mkRegistry (take (length l - 1) l) (nextHandlerID r))
  end.

Definition RemoveEventHandlers (r : registry) : registry := mkRegistry [] (nextHandlerID r).

(** The ids of the handlers that are run, up to the first that fails. *)
Fixpoint dispatch (evt : E) (l : list wrappedEventHandler) : list Z * bool :=
  match l with
  | [] => ([], false)
  | h :: l =>
      if fn h evt then let '(ids, failed) := dispatch evt l in (handler_id h :: ids, failed)
      else ([handler_id h], true)
  end.

Definition dispatchEvent (evt : E) (r : registry) : list Z * bool := dispatch evt (eventHandlers r).

Lemma index_of_split id l i : index_of id l = Some i ->
  exists l1 h l2, l = l1 ++ h :: l2 /\ length l1 = i /\ handler_id h = id /\ Forall (fun x => handler_id x <> id) l1.
Proof.
  revert i. induction l as [|h l IH]; intros i; cbn [index_of]; [done|]. destruct (Z.eqb_spec (handler_id h) id) as [E0|E0].
  - intros [= <-]. by exists [], h, l.
  - destruct (index_of id l) as [j|]; [|done]. intros [= <-]. destruct (IH j eq_refl) as (l1 & h' & l2 & -> & Hl & Hid & Hn).
    exists (h :: l1), h', l2. cbn. rewrite Hl. split; [done|]. split; [done|]. split; [done|]. by constructor.
Qed.

Lemma index_of_none id l : index_of id l = None <-> Forall (fun x => handler_id x <> id) l.
Proof.
  induction l as [|h l IH]; cbn [index_of]; [by split|]. rewrite Forall_cons. destruct (Z.eqb_spec (handler_id h) id).
  - split; [done|]. by intros [? _].
  - rewrite <- IH. destruct (index_of id l); cbn; [by split; [|intros []]|by split].
Qed.

(** Removing a handler takes the first with the id out of the list and leaves
    the others in their order; without one nothing changes. *)
Theorem RemoveEventHandler_removes id r :
  (exists l1 h l2, eventHandlers r = l1 ++ h :: l2 /\ handler_id h = id /\ Forall (fun x => handler_id x <> id) l1 /\
     RemoveEventHandler id r = (true, mkRegistry (l1 ++ l2) (nextHandlerID r))) \/
  (Forall (fun x => handler_id x <> id) (eventHandlers r) /\ RemoveEventHandler id r = (false, r)).
Proof.
  unfold RemoveEventHandler. destruct (index_of id (eventHandlers r)) as [i|] eqn:E0; [|right; split; [by apply index_of_none|done]].
  left. apply index_of_split in E0 as (l1 & h & l2 & E1 & Hl & Hid & Hn). exists l1, h, l2. split; [done|]. split; [done|]. split; [done|].
  rewrite E1. destruct i as [|i].
  - destruct l1; [|done]. done.
  - f_equal. f_equal. rewrite length_app. cbn [length]. destruct (Nat.ltb_spec (Datatypes.S i) (length l1 + Datatypes.S (length l2) - 1)) as [Hlt|Hge].
    + unfold copy_down. rewrite <- Hl, take_app_length.
      replace (drop (Datatypes.S (length l1)) (l1 ++ h :: l2)) with l2.
      2: { rewrite drop_app. replace (Datatypes.S (length l1) - length l1)%nat with 1%nat by lia. rewrite (drop_ge l1) by lia. done. }
      rewrite !length_app, length_drop, !length_app. cbn [length].
      replace (length l1 + (length l2 + (length l1 + Datatypes.S (length l2) - (length l1 + Datatypes.S (length l2) - 1))) - 1)%nat
        with (length (l1 ++ l2)) by (rewrite length_app; lia).
      by rewrite app_assoc, take_app_length.
    + assert (l2 = []) as -> by (apply length_zero_iff_nil; lia). rewrite app_nil_r, length_app. cbn [length].
      replace (length l1 + 1 - 1)%nat with (length l1) by lia. apply take_app_length.
Qed.

End handlers.

End handlers.

Module connection.

Inductive connect_error :=
  | ErrDeviceDeleted | ErrAlreadyConnected
  | ErrDialFailed (status : option Z)                     (* ErrWithStatusCode inside *)
  | ErrHandshake.

(** A websocket: [None] while it is open; when it was closed, whether Close found
    OnDisconnect set. *)
Record socket_state := mkSocket { closed_with : option bool; on_disconnect : bool; destroyed : bool }.

(** Who connects: a caller of Connect, autoReconnect, the goroutine for a 515. *)
Inductive who := ByUser | ByLoop | By515.

(** The client's goroutines, at the operations that other goroutines can come
    between. *)
Inductive pc :=
  | OnDisconnect (ns : nat) (remote : bool)
  | REnter                           (* autoReconnect begins *)
  | RDelay                           (* the head of its loop *)
  | RWait (seconds : Z)              (* waiting for the delay or the event *)
  | RWoken                           (* the event was set *)
  | RConnect                         (* the delay is over *)
  | RFailed (e : connect_error)
  | Handshake (w : who) (ns : nat)   (* dialled; socketLock held *)
  | Finishing (w : who) (ns : nat)   (* ClientFinish sent; socketLock held *)
  | KeepAlive (ns : nat)
  | KForce (ns : nat) | KReset (ns : nat) | KSpawn (ns : nat)
  | Got515 | Connect515.

Record client := mkClient {
  deleted : bool;                    (* Store.Deleted *)
  has_id : bool;                     (* Store.ID is set *)
  ctx_done : bool;
  locked : bool;                     (* socketLock, held across a dial *)
  socket : option nat;
  sockets : list socket_state;       (* every websocket dialled so far *)
  expected : bool;                   (* expectedDisconnect *)
  force : bool;                      (* forceAutoReconnect *)
  errors : Z;                        (* AutoReconnectErrors *)
  logged_in : bool;
  threads : list pc;
  disconnected_events : nat;
}.

Definition init (id : bool) : client :=
  mkClient false id false false None [] false false 0 false [] 0.

Section updates.
Context (s : client).
Definition with_lock (b : bool) := mkClient (deleted s) (has_id s) (ctx_done s) b (socket s) (sockets s) (expected s) (force s) (errors s) (logged_in s) (threads s) (disconnected_events s).
Definition with_socket (o : option nat) := mkClient (deleted s) (has_id s) (ctx_done s) (locked s) o (sockets s) (expected s) (force s) (errors s) (logged_in s) (threads s) (disconnected_events s).
Definition with_sockets (l : list socket_state) := mkClient (deleted s) (has_id s) (ctx_done s) (locked s) (socket s) l (expected s) (force s) (errors s) (logged_in s) (threads s) (disconnected_events s).
Definition with_flags (e f : bool) := mkClient (deleted s) (has_id s) (ctx_done s) (locked s) (socket s) (sockets s) e f (errors s) (logged_in s) (threads s) (disconnected_events s).
Definition with_errors (n : Z) (l : bool) := mkClient (deleted s) (has_id s) (ctx_done s) (locked s) (socket s) (sockets s) (expected s) (force s) n l (threads s) (disconnected_events s).
Definition with_threads (t : list pc) := mkClient (deleted s) (has_id s) (ctx_done s) (locked s) (socket s) (sockets s) (expected s) (force s) (errors s) (logged_in s) t (disconnected_events s).
Definition with_event := mkClient (deleted s) (has_id s) (ctx_done s) (locked s) (socket s) (sockets s) (expected s) (force s) (errors s) (logged_in s) (threads s) (Datatypes.S (disconnected_events s)).
Definition with_store (d i : bool) := mkClient d i (ctx_done s) (locked s) (socket s) (sockets s) (expected s) (force s) (errors s) (logged_in s) (threads s) (disconnected_events s).
Definition with_ctx (c : bool) := mkClient (deleted s) (has_id s) c (locked s) (socket s) (sockets s) (expected s) (force s) (errors s) (logged_in s) (threads s) (disconnected_events s).
Definition spawn (p : pc) := with_threads (threads s ++ [p]).
End updates.

Definition is_open (ns : nat) (s : client) : bool :=
  match sockets s !! ns with Some k => bool_decide (closed_with k = None) | None => false end.

(** socket/framesocket.go: Close. [remote]: closed with code 0, by the reader or
    after a failed dial or handshake. *)
Definition Close (ns : nat) (remote : bool) (s : client) : client :=
  match sockets s !! ns with
  | Some k =>
      if bool_decide (closed_with k = None) then
        let s := with_sockets s (<[ns := mkSocket (Some (on_disconnect k)) (on_disconnect k) (destroyed k)]> (sockets s)) in
        if on_disconnect k then spawn s (OnDisconnect ns remote) else s
      else s
  | None => s
  end.

(** socket/noisesocket.go: Stop. *)
Definition Stop (disconnect allowOnDisconnect : bool) (ns : nat) (s : client) : client :=
  match sockets s !! ns with
  | Some k =>
      if destroyed k then s
      else
        let s := with_sockets s (<[ns := mkSocket (closed_with k) (on_disconnect k && allowOnDisconnect) true]> (sockets s)) in
        if disconnect then Close ns false s else s
  | None => s
  end.

(** Setting the event wakes those who wait for it. *)
Definition wake (p : pc) : pc := match p with RWait _ => RWoken | p => p end.

Definition expectDisconnect (s : client) : client :=
  let s := with_flags s true false in with_threads s (wake <$> threads s).

Definition resetExpectedDisconnect (s : client) : client := with_flags s false false.

Definition unlockedDisconnect (s : client) : client :=
  match socket s with
  | Some ns => with_socket (Stop true false ns s) None
  | None => s
  end.

Definition Disconnect (s : client) : client := unlockedDisconnect (expectDisconnect s).

Definition ResetConnection (s : client) : client :=
  let s := with_flags s (expected s) true in
  match socket s with
  | Some ns => Stop true true ns s
  | None => s
  end.

Definition IsConnected (s : client) : bool :=
  match socket s with Some ns => is_open ns s | None => false end.

(** The condition WaitForConnection waits for. *)
Definition WaitForConnection_done (s : client) : bool := IsConnected s && logged_in s.

(** The result of a dial: a new websocket, or an error with the response's status
    if there is one. *)
Definition dial_result := option (option Z).

Definition dial_socket (dial : dial_result) (s : client) : (connect_error + nat) * client :=
  let s := resetExpectedDisconnect s in
  match dial with
  | Some status => (inl (ErrDialFailed status), s)
  | None => (inr (length (sockets s)), with_sockets s (sockets s ++ [mkSocket None false false]))
  end.

(** client.go: unlockedConnect, up to the handshake. *)
Definition unlockedConnect (dial : dial_result) (s : client) : (connect_error + nat) * client :=
  if deleted s then (inl ErrDeviceDeleted, s)
  else
    match socket s with
    | Some ns => if is_open ns s then (inl ErrAlreadyConnected, s) else dial_socket dial (unlockedDisconnect s)
    | None => dial_socket dial s
    end.

(** The settings EnableAutoReconnect and InitialAutoReconnect, AutoReconnectHook
    ([fun _ => true] when it is not set) and util/exhttp's IsNetworkError. *)
Section settings.
Context (EnableAutoReconnect InitialAutoReconnect : bool) (AutoReconnectHook IsNetworkError : connect_error -> bool).

Definition isRetryableConnectError (e : connect_error) : bool :=
  IsNetworkError e ||
  match e with
  | ErrDialFailed (Some code) => existsb (Z.eqb code) [408; 500; 501; 502; 503; 504]
  | ErrDialFailed None => true
  | _ => false
  end.

(** What becomes of a failed connect; the lock is free. *)
Definition failed (w : who) (e : connect_error) (s : client) : client :=
  match w with
  | ByUser => if isRetryableConnectError e && InitialAutoReconnect && EnableAutoReconnect then spawn (with_event s) REnter else s
  | ByLoop => spawn s (RFailed e)
  | By515 => s
  end.

Definition connect (w : who) (dial : dial_result) (s : client) : client :=
  match unlockedConnect dial s with
  | (inl e, s) => failed w e s
  | (inr ns, s) => spawn (with_lock s true) (Handshake w ns)
  end.

(** client.go: the end of doHandshake and of unlockedConnect. *)
Definition finish (ns : nat) (s : client) : client :=
  let s := with_sockets s (alter (fun k => mkSocket (closed_with k) true (destroyed k)) ns (sockets s)) in
  with_lock (spawn (with_socket s (Some ns)) (KeepAlive ns)) false.

Definition handshake_failed (w : who) (ns : nat) (s : client) : client :=
  failed w ErrHandshake (with_lock (Close ns true s) false).

Definition onDisconnect (ns : nat) (remote : bool) (s : client) : client :=
  let s := Stop false false ns s in
  if bool_decide (socket s = Some ns) then
    let s := with_socket s None in
    if expected s then s
    else
      let forced := force s in
      let s := with_flags s (expected s) false in
      if forced || remote then spawn (with_event s) REnter else s
  else s.

(** autoReconnect: its first check, the head of its loop, and the error of a
    connect. *)
Definition enter_loop (s : client) : client := if EnableAutoReconnect && has_id s then spawn s RDelay else s.

(** What is relied on of exsync's WaitTimeoutCtx: an event that is set when the wait
    begins ends it, one without a delay too. *)
Definition begin_delay (s : client) : client :=
  spawn (with_errors s (errors s + 1) (logged_in s)) (if expected s then RWoken else RWait (2 * errors s)).

Definition loop_failed (e : connect_error) (s : client) : client :=
  match e with
  | ErrAlreadyConnected => s
  | _ => if expected s then s else if AutoReconnectHook e then spawn s RDelay else s
  end.

Inductive label := CallConnect | Event.

(** [at_thread p s s0]: a goroutine of [s] is at [p]; [s0] is [s] without it. *)
Definition at_thread (p : pc) (s s0 : client) : Prop :=
  exists l1 l2, threads s = l1 ++ p :: l2 /\ s0 = with_threads s (l1 ++ l2).

Inductive step : label -> client -> client -> Prop :=
  (* callers *)
  | step_connect s dial : locked s = false -> step CallConnect s (connect ByUser dial s)
  | step_disconnect s : locked s = false -> step Event s (Disconnect s)
  | step_reset s : locked s = false -> step Event s (ResetConnection s)
  | step_cancel s : step Event s (with_ctx s true)
  (* the server and the handlers of what it sends *)
  | step_remote_close s ns : step Event s (Close ns true s)
  | step_expect s : step Event s (expectDisconnect s)
  | step_store s d i : step Event s (with_store s d i)
  | step_success s : step Event s (with_errors s 0 true)
  | step_stream_error s : step Event s (with_errors s (errors s) false)
  | step_515 s ns : is_open ns s = true -> step Event s (spawn s Got515)
  | step_got_515 s s0 : at_thread Got515 s s0 -> locked s = false -> step Event s (spawn (Disconnect s0) Connect515)
  | step_connect_515 s s0 dial : at_thread Connect515 s s0 -> locked s = false -> step Event s (connect By515 dial s0)
  (* a dialled connection *)
  | step_finish_sent s s0 w ns : at_thread (Handshake w ns) s s0 -> is_open ns s = true -> step Event s (spawn s0 (Finishing w ns))
  | step_handshake_failed s s0 w ns : at_thread (Handshake w ns) s s0 -> step Event s (handshake_failed w ns s0)
  | step_finish_failed s s0 w ns : at_thread (Finishing w ns) s s0 -> step Event s (handshake_failed w ns s0)
  | step_finish s s0 w ns : at_thread (Finishing w ns) s s0 -> step Event s (finish ns s0)
  | step_on_disconnect s s0 ns remote : at_thread (OnDisconnect ns remote) s s0 -> locked s = false -> step Event s (onDisconnect ns remote s0)
  (* autoReconnect *)
  | step_enter s s0 : at_thread REnter s s0 -> step Event s (enter_loop s0)
  | step_delay s s0 : at_thread RDelay s s0 -> step Event s (begin_delay s0)
  | step_timer s s0 n : at_thread (RWait n) s s0 -> ctx_done s = false -> step Event s (spawn s0 RConnect)
  | step_loop_cancelled s s0 n : at_thread (RWait n) s s0 -> ctx_done s = true -> step Event s s0
  | step_woken s s0 : at_thread RWoken s s0 -> step Event s s0
  | step_loop_connect s s0 dial : at_thread RConnect s s0 -> locked s = false -> step Event s (connect ByLoop dial s0)
  | step_loop_failed s s0 e : at_thread (RFailed e) s s0 -> step Event s (loop_failed e s0)
  (* keepAliveLoop *)
  | step_keepalive_done s s0 ns : at_thread (KeepAlive ns) s s0 -> is_open ns s = false -> step Event s s0
  | step_keepalive_failed s s0 ns : at_thread (KeepAlive ns) s s0 -> is_open ns s = true -> EnableAutoReconnect = true ->
      step Event s (spawn s0 (KForce ns))
  | step_force s s0 ns : at_thread (KForce ns) s s0 -> locked s = false -> step Event s (spawn (Disconnect s0) (KReset ns))
  | step_reset_expected s s0 ns : at_thread (KReset ns) s s0 -> step Event s (spawn (resetExpectedDisconnect s0) (KSpawn ns))
  | step_reconnect s s0 ns : at_thread (KSpawn ns) s s0 -> step Event s (spawn (spawn s0 REnter) (KeepAlive ns)).

Inductive reachable (id : bool) : client -> Prop :=
  | reach_init : reachable id (init id)
  | reach_step s s' l : reachable id s -> step l s s' -> reachable id s'.

(** Steps without a call of Connect. *)
Inductive events : client -> client -> Prop :=
  | events_refl s : events s s
  | events_step s s' s'' : step Event s s' -> events s' s'' -> events s s''.

(** ** The websockets and the goroutines that own them *)

Definition holder (p : pc) : option nat := match p with Handshake _ ns | Finishing _ ns => Some ns | _ => None end.
Definition pending (p : pc) : option nat := match p with OnDisconnect ns _ => Some ns | _ => None end.

(** Who holds the lock across a dial, and for which websockets an onDisconnect
    is under way. *)
Definition holders (s : client) : list nat := omap holder (threads s).
Definition pendings (s : client) : list nat := omap pending (threads s).

Record consistent (lock : bool) (so : option nat) (ks : list socket_state) (H D : list nat) : Prop := {
  con_free : lock = false -> H = [];
  con_held : lock = true -> so = None /\ exists ns k, H = [ns] /\ ks !! ns = Some k /\
               on_disconnect k = false /\ destroyed k = false /\ closed_with k <> Some true;
  con_open ns k : ks !! ns = Some k -> closed_with k = None -> destroyed k = false /\ (so = Some ns \/ ns ∈ H);
  con_pending ns : ns ∈ D -> exists k, ks !! ns = Some k /\ closed_with k = Some true;
  con_socket ns : so = Some ns -> exists k, ks !! ns = Some k /\ (closed_with k = None -> on_disconnect k = true) /\
               (closed_with k = Some true -> ns ∈ D)
}.

Definition inv (s : client) : Prop := consistent (locked s) (socket s) (sockets s) (holders s) (pendings s).

Lemma omap_wake {A} (f : pc -> option A) (l : list pc) : (forall n, f (RWait n) = f RWoken) -> omap f (wake <$> l) = omap f l.
Proof. intros E. induction l as [|p l IH]; [done|]. destruct p; cbn in *; rewrite ?IH, ?E; done. Qed.

Lemma omap_split {A} (f : pc -> option A) (l1 l2 : list pc) p : omap f (l1 ++ p :: l2) = omap f l1 ++ option_list (f p) ++ omap f l2.
Proof. rewrite omap_app. cbn. by destruct (f p). Qed.

Lemma omap_snoc {A} (f : pc -> option A) (l : list pc) p : omap f (l ++ [p]) = omap f l ++ option_list (f p).
Proof. rewrite omap_app. cbn. by destruct (f p). Qed.

(** A goroutine that neither holds the lock nor ends a connection comes or goes. *)
Lemma inv_spawn s p : holder p = None -> pending p = None -> inv s -> inv (spawn s p).
Proof. intros E1 E2. unfold inv, holders, pendings. cbn. by rewrite !omap_snoc, E1, E2, !app_nil_r. Qed.

Lemma conn_inv_take s s0 p : at_thread p s s0 -> holder p = None -> pending p = None -> inv s -> inv s0.
Proof.
  intros (l1 & l2 & E & ->) E1 E2. unfold inv, holders, pendings. cbn. by rewrite E, !omap_split, E1, E2, !omap_app.
Qed.

Lemma inv_same s s' : locked s' = locked s -> socket s' = socket s -> sockets s' = sockets s ->
  holders s' = holders s -> pendings s' = pendings s -> inv s -> inv s'.
Proof. unfold inv. by intros -> -> -> -> ->. Qed.

Lemma inv_expect s : inv s -> inv (expectDisconnect s).
Proof. apply inv_same; try done; unfold holders, pendings; cbn; by apply omap_wake. Qed.

(** Closing a websocket nobody has to be told about, or telling it. *)
Lemma conn_inv_close ns remote s : inv s -> inv (Close ns remote s).
Proof.
  intros Hi. unfold Close. destruct (sockets s !! ns) as [k|] eqn:Ek; [|done]. case_bool_decide as Ec; [|done].
  assert (forall D, (D = pendings s \/ on_disconnect k = true /\ D = pendings s ++ [ns]) -> (on_disconnect k = true -> ns ∈ D) ->
    consistent (locked s) (socket s) (<[ns := mkSocket (Some (on_disconnect k)) (on_disconnect k) (destroyed k)]> (sockets s)) (holders s) D) as Hgen.
  { intros D HD Hin. destruct Hi as [H1 H2 H3 H4 H5]. split; [done|..].
    - intros El. destruct (H2 El) as (Hso & h & k' & EH & Ek' & Hn & Hd & Hc). split; [done|]. exists h.
      destruct (decide (h = ns)) as [->|Hne].
      + rewrite list_lookup_insert_eq by (by apply lookup_lt_Some in Ek). eexists. split; [done|]. split; [done|]. cbn.
        replace k with k' in * by congruence. by rewrite Hn.
      + rewrite list_lookup_insert_ne by done. by exists k'.
    - intros n k' Hk' Hop. apply list_lookup_insert_Some in Hk' as [(-> & <- & _)|[Hne Hk']]; [done|]. by apply (H3 n k').
    - intros n Hn. assert (n = ns \/ n ∈ pendings s) as [->|Hn'].
      { destruct HD as [->|[_ ->]]; [by right|]. apply elem_of_app in Hn as [?|Hn]; [by right|]. apply list_elem_of_singleton in Hn. by left. }
      + rewrite list_lookup_insert_eq by (by apply lookup_lt_Some in Ek). eexists. split; [done|]. cbn.
        destruct HD as [->|[-> _]]; [|done]. destruct (H4 _ Hn) as (k' & Hk' & E). congruence.
      + destruct (H4 n Hn') as (k' & Hk' & Hop). destruct (decide (n = ns)) as [->|Hne]; [congruence|].
        rewrite list_lookup_insert_ne by done. by exists k'.
    - intros n Hso. destruct (H5 n Hso) as (k' & Hk' & Ho & Hp). destruct (decide (n = ns)) as [->|Hne].
      + rewrite list_lookup_insert_eq by (by apply lookup_lt_Some in Ek). eexists. split; [done|]. cbn. split; [done|]. intros [= E]. by apply Hin.
      + rewrite list_lookup_insert_ne by done. exists k'. split; [done|]. split; [done|]. intros E. destruct HD as [->|[_ ->]]; [by apply Hp|].
        apply elem_of_app. left. by apply Hp. }
  destruct (on_disconnect k) eqn:Eo.
  - unfold inv, holders, pendings. cbn. rewrite !omap_snoc. cbn. rewrite app_nil_r. apply Hgen; [by right|]. intros _. apply elem_of_app. right. by apply list_elem_of_singleton.
  - apply Hgen; [by left|done].
Qed.

(** Stop without a call of OnDisconnect, then forgetting the websocket. *)
Lemma Stop_quiet ns k s : sockets s !! ns = Some k -> destroyed k = false ->
  Stop true false ns s = with_sockets s (<[ns := mkSocket (Some (default false (closed_with k))) false true]> (sockets s)).
Proof.
  intros Ek Ed. unfold Stop. rewrite Ek, Ed, andb_false_r. unfold Close. cbn. rewrite list_lookup_insert_eq by (by apply lookup_lt_Some in Ek).
  cbn. destruct (closed_with k) as [b|]; [done|]. cbn. unfold with_sockets. cbn. by rewrite list_insert_insert_eq.
Qed.

(** Changing a websocket that is closed, not being dialled and not the client's. *)
Lemma consistent_insert lock so ks H D ns k k' : consistent lock so ks H D -> ks !! ns = Some k ->
  so <> Some ns -> ns ∉ H -> closed_with k' <> None -> (closed_with k = Some true -> closed_with k' = Some true) ->
  consistent lock so (<[ns := k']> ks) H D.
Proof.
  intros [H1 H2 H3 H4 H5] Ek Hso HH Hc Hc'. split; [done|..].
  - intros El. destruct (H2 El) as (E & h & k0 & EH & Ek0 & ?). split; [done|]. exists h, k0. rewrite EH in HH.
    rewrite list_lookup_insert_ne; [done|]. intros ->. apply HH. by apply list_elem_of_singleton.
  - intros n k0 Hk0 Hop. apply list_lookup_insert_Some in Hk0 as [(-> & <- & _)|[Hne Hk0]]; [done|]. by apply (H3 n k0).
  - intros n Hn. destruct (H4 n Hn) as (k0 & Hk0 & E). destruct (decide (n = ns)) as [->|Hne].
    + rewrite list_lookup_insert_eq by (by apply lookup_lt_Some in Ek). exists k'. split; [done|]. apply Hc'. congruence.
    + rewrite list_lookup_insert_ne by done. by exists k0.
  - intros n Hn. destruct (H5 n Hn) as (k0 & Hk0 & ?). exists k0. rewrite list_lookup_insert_ne; [done|]. congruence.
Qed.

Lemma inv_no_holder s ns : inv s -> socket s = Some ns -> locked s = false /\ holders s = [].
Proof.
  intros [H1 H2 _ _ _] E. destruct (locked s); [|by split; [|apply H1]]. destruct (H2 eq_refl) as [E' _]. congruence.
Qed.

(** Only closed websockets are forgotten. *)
Lemma inv_forget ns s : inv s -> socket s = Some ns -> is_open ns s = false -> inv (with_socket s None).
Proof.
  intros Hi Hso Ho. destruct (inv_no_holder s ns Hi Hso) as [El EH]. destruct Hi as [H1 H2 H3 H4 H5].
  split; cbn; rewrite ?El; [done|done|..|done|done].
  intros n k Hk Hop. destruct (H3 n k Hk Hop) as [Hd [E|E]]; [|by rewrite EH in E; apply elem_of_nil in E].
  exfalso. unfold is_open in Ho. replace ns with n in Ho by congruence. rewrite Hk, Hop in Ho. done.
Qed.

Lemma inv_unlockedDisconnect s : inv s -> inv (unlockedDisconnect s).
Proof.
  intros Hi. unfold unlockedDisconnect. destruct (socket s) as [ns|] eqn:Hso; [|done].
  destruct (inv_no_holder s ns Hi Hso) as [El EH]. destruct (con_socket _ _ _ _ _ Hi ns Hso) as (k & Ek & Ho & Hp).
  destruct (destroyed k) eqn:Ed.
  - unfold Stop. rewrite Ek, Ed. apply (inv_forget ns); [done|done|]. unfold is_open. rewrite Ek. case_bool_decide as Ec; [|done].
    destruct (con_open _ _ _ _ _ Hi ns k Ek Ec) as [? _]. congruence.
  - rewrite (Stop_quiet ns k s Ek Ed). unfold inv, holders, pendings. cbn. destruct Hi as [H1 H2 H3 H4 H5]. rewrite El in *. split; [done|done|..|done].
    + intros n k0 Hk0 Hop. apply list_lookup_insert_Some in Hk0 as [(-> & <- & _)|[Hne Hk0]]; [done|].
      destruct (H3 n k0 Hk0 Hop) as [Hd [E|E]]; [congruence|]. rewrite EH in E. by apply elem_of_nil in E.
    + intros n Hn. destruct (H4 n Hn) as (k0 & Hk0 & E). destruct (decide (n = ns)) as [->|Hne].
      * rewrite list_lookup_insert_eq by (by apply lookup_lt_Some in Ek). eexists. split; [done|]. cbn. replace k0 with k in * by congruence. by rewrite E.
      * rewrite list_lookup_insert_ne by done. by exists k0.
Qed.

Lemma inv_Disconnect s : inv s -> inv (Disconnect s).
Proof. intros Hi. by apply inv_unlockedDisconnect, inv_expect. Qed.

Lemma inv_ResetConnection s : inv s -> inv (ResetConnection s).
Proof.
  intros Hi0. unfold ResetConnection. set (s' := with_flags s (expected s) true).
  assert (inv s') as Hi by (by apply (inv_same s)). clearbody s'. clear Hi0 s. rename s' into s.
  destruct (socket s) as [ns|] eqn:Hso; [|done]. destruct (inv_no_holder s ns Hi Hso) as [El EH].
  destruct (con_socket _ _ _ _ _ Hi ns Hso) as (k & Ek & Ho & Hp). unfold Stop. rewrite Ek. destruct (destroyed k) eqn:Ed; [done|].
  rewrite andb_true_r. unfold Close. cbn. rewrite list_lookup_insert_eq by (by apply lookup_lt_Some in Ek). cbn.
  destruct Hi as [H1 H2 H3 H4 H5]. case_bool_decide as Ec.
  - rewrite (Ho Ec). rewrite list_insert_insert_eq. unfold inv, holders, pendings. cbn. rewrite !omap_snoc. cbn. rewrite app_nil_r, El. split; [done|done|..].
    + intros n k0 Hk0 Hop. apply list_lookup_insert_Some in Hk0 as [(-> & <- & _)|[Hne Hk0]]; [done|]. by apply (H3 n k0).
    + intros n Hn. destruct (decide (n = ns)) as [->|Hne].
      * rewrite list_lookup_insert_eq by (by apply lookup_lt_Some in Ek). by eexists.
      * rewrite list_lookup_insert_ne by done. apply elem_of_app in Hn as [Hn|Hn]; [by apply H4|]. by apply list_elem_of_singleton in Hn.
    + intros n Hn. assert (n = ns) as -> by congruence. rewrite list_lookup_insert_eq by (by apply lookup_lt_Some in Ek).
      eexists. split; [done|]. split; [done|]. intros _. apply elem_of_app. right. by apply list_elem_of_singleton.
  - unfold inv, holders, pendings. cbn. rewrite El. split; [done|done|..].
    + intros n k0 Hk0 Hop. apply list_lookup_insert_Some in Hk0 as [(-> & <- & _)|[Hne Hk0]]; [done|]. by apply (H3 n k0).
    + intros n Hn. destruct (H4 n Hn) as (k0 & Hk0 & E). destruct (decide (n = ns)) as [->|Hne].
      * rewrite list_lookup_insert_eq by (by apply lookup_lt_Some in Ek). eexists. split; [done|]. cbn. congruence.
      * rewrite list_lookup_insert_ne by done. by exists k0.
    + intros n Hn. assert (n = ns) as -> by congruence. rewrite list_lookup_insert_eq by (by apply lookup_lt_Some in Ek).
      eexists. split; [done|]. cbn. split; [done|]. exact Hp.
Qed.

Lemma inv_failed w e s : inv s -> inv (failed w e s).
Proof.
  intros Hi. destruct w; cbn; [|by apply inv_spawn|done]. destruct (_ && _ && _); [|done]. apply inv_spawn; [done|done|]. by apply (inv_same s).
Qed.

(** A new websocket for which the lock is held. *)
Lemma inv_dial w dial s r s' : inv s -> locked s = false -> socket s = None -> dial_socket dial s = (r, s') ->
  match r with inl _ => inv s' | inr ns => inv (spawn (with_lock s' true) (Handshake w ns)) end.
Proof.
  intros Hi El Eso. unfold dial_socket. destruct dial as [e|]; intros [= <- <-]; [by apply (inv_same s)|].
  unfold inv, holders, pendings. cbn. rewrite !omap_snoc. cbn. rewrite app_nil_r. destruct Hi as [H1 H2 H3 H4 H5].
  fold (holders s) (pendings s). rewrite (H1 El). cbn. split; [done|..].
  - intros _. split; [done|]. eexists _, _. split; [done|]. rewrite lookup_app_r, Nat.sub_diag by done. by cbn.
  - intros n k Hk Hop. apply lookup_app_Some in Hk as [Hk|[Hl Hk]].
    + destruct (H3 n k Hk Hop) as [? [E|E]]; [congruence|]. rewrite (H1 El) in E. by apply elem_of_nil in E.
    + apply list_lookup_singleton_Some in Hk as [Hn <-]. split; [done|]. right. apply list_elem_of_singleton. lia.
  - intros n Hn. destruct (H4 n Hn) as (k & Hk & E). exists k. split; [by apply lookup_app_l_Some|done].
  - intros n E. congruence.
Qed.

Lemma inv_connect w dial s : inv s -> locked s = false -> inv (connect w dial s).
Proof.
  intros Hi El. unfold connect, unlockedConnect. destruct (deleted s); [by apply inv_failed|].
  assert (forall s', inv s' -> locked s' = false -> socket s' = None -> inv (let '(r, s) := dial_socket dial s' in
    match r with inl e => failed w e s | inr ns => spawn (with_lock s true) (Handshake w ns) end)) as Hd.
  { intros s' Hi' El' Hs'. destruct (dial_socket dial s') as [r s''] eqn:E. pose proof (inv_dial w dial s' r s'' Hi' El' Hs' E) as H.
    destruct r; [by apply inv_failed|done]. }
  destruct (socket s) as [ns|] eqn:Eso.
  - destruct (is_open ns s); [by apply inv_failed|]. specialize (Hd (unlockedDisconnect s)).
    destruct (dial_socket dial (unlockedDisconnect s)) as [[e|n] s'']; apply Hd; try (by apply inv_unlockedDisconnect);
      unfold unlockedDisconnect; rewrite Eso; cbn; try done; unfold Stop; (destruct (sockets s !! ns) as [k|]; [|done]);
      (destruct (destroyed k); [done|]); unfold Close; cbn; (destruct (_ !! ns) as [k'|]; [|done]); (case_bool_decide; [|done]); destruct (on_disconnect k'); done.
  - specialize (Hd s). destruct (dial_socket dial s) as [[e|n] s'']; by apply Hd.
Qed.

Lemma holder_pending p ns : holder p = Some ns -> pending p = None.
Proof. by destruct p. Qed.

Lemma take_holder p ns s s0 : at_thread p s s0 -> holder p = Some ns -> inv s ->
  locked s0 = true /\ socket s0 = None /\ holders s0 = [] /\ consistent true None (sockets s0) [ns] (pendings s0).
Proof.
  intros (l1 & l2 & E & ->) Ep Hi. unfold inv in Hi.
  assert (holders s = omap holder l1 ++ [ns] ++ omap holder l2) as EH by (unfold holders; by rewrite E, omap_split, Ep).
  assert (pendings s = omap pending (l1 ++ l2)) as ED by (unfold pendings; by rewrite E, omap_split, (holder_pending p ns Ep), omap_app).
  change (pendings (with_threads s (l1 ++ l2))) with (omap pending (l1 ++ l2)). change (holders (with_threads s (l1 ++ l2))) with (omap holder (l1 ++ l2)). rewrite <- ED.
  destruct (locked s) eqn:El.
  - destruct (con_held _ _ _ _ _ Hi eq_refl) as (Eso & h & k & EHs & _). rewrite EH in EHs.
    assert (omap holder l1 = [] /\ omap holder l2 = [] /\ h = ns) as (E1 & E2 & ->).
    { destruct (omap holder l1) as [|x l]; [|by destruct l]. cbn in EHs. injection EHs as <- E2. by rewrite E2. }
    rewrite omap_app, E1, E2. rewrite EH, E1, E2, Eso in Hi. done.
  - pose proof (con_free _ _ _ _ _ Hi eq_refl) as E0. rewrite EH in E0. by destruct (omap holder l1).
Qed.

Lemma inv_finish_sent w ns s s0 : at_thread (Handshake w ns) s s0 -> inv s -> inv (spawn s0 (Finishing w ns)).
Proof.
  intros Ht Hi. destruct (take_holder _ ns _ _ Ht eq_refl Hi) as (El & Eso & EH & Hc).
  unfold inv, holders, pendings. cbn. rewrite !omap_snoc. cbn. rewrite app_nil_r, El, Eso. unfold holders in EH. by rewrite EH.
Qed.

(** The lock is released without a websocket: the dialled one is closed. *)
Lemma inv_release w ns s s0 p : at_thread p s s0 -> holder p = Some ns -> inv s -> inv (handshake_failed w ns s0).
Proof.
  intros Ht Ep Hi. destruct (take_holder _ ns _ _ Ht Ep Hi) as (El & Eso & EH & [H1 H2 H3 H4 H5]).
  unfold handshake_failed. apply inv_failed. destruct (H2 eq_refl) as (_ & h & k & [= <-] & Ek & Hn & Hd & Hc).
  unfold Close. rewrite Ek, Hn. case_bool_decide as Ec.
  - unfold inv, holders, pendings. cbn. fold (holders s0) (pendings s0). rewrite EH, Eso. split; [done|done|..|done].
    + intros n k0 Hk0 Hop. apply list_lookup_insert_Some in Hk0 as [(-> & <- & _)|[Hne Hk0]]; [done|].
      destruct (H3 n k0 Hk0 Hop) as [_ [E|E]]; [done|]. apply list_elem_of_singleton in E. congruence.
    + intros n Hp. destruct (H4 n Hp) as (k0 & Hk0 & E). exists k0. rewrite list_lookup_insert_ne; [done|]. intros ->. congruence.
  - unfold inv, holders, pendings. cbn. fold (holders s0) (pendings s0). rewrite EH, Eso. split; [done|done|..|done].
    + intros n k0 Hk0 Hop. destruct (H3 n k0 Hk0 Hop) as [_ [E|E]]; [done|]. apply list_elem_of_singleton in E as ->. congruence.
    + exact H4.
Qed.

Lemma inv_finish w ns s s0 : at_thread (Finishing w ns) s s0 -> inv s -> inv (finish ns s0).
Proof.
  intros Ht Hi. destruct (take_holder _ ns _ _ Ht eq_refl Hi) as (El & Eso & EH & [H1 H2 H3 H4 H5]).
  destruct (H2 eq_refl) as (_ & h & k & [= <-] & Ek & Hn & Hd & Hc).
  unfold finish, inv, holders, pendings. cbn. rewrite !omap_snoc. cbn. rewrite !app_nil_r. fold (holders s0) (pendings s0). rewrite EH.
  split; [done|done|..].
  - intros n k0 Hk0 Hop. destruct (decide (n = ns)) as [->|Hne].
    + rewrite list_lookup_alter_eq, Ek in Hk0. injection Hk0 as <-. split; [done|]. by left.
    + rewrite list_lookup_alter_ne in Hk0 by done. destruct (H3 n k0 Hk0 Hop) as [_ [E|E]]; [done|]. by apply list_elem_of_singleton in E.
  - intros n Hp. destruct (H4 n Hp) as (k0 & Hk0 & E). exists k0. rewrite list_lookup_alter_ne; [done|]. intros ->. congruence.
  - intros n [= <-]. rewrite list_lookup_alter_eq, Ek. eexists. split; [done|]. cbn. split; [done|]. intros E. by destruct Hc.
Qed.

(** onDisconnect gives up the websocket it was started for, and no other. *)
Lemma inv_onDisconnect ns remote s s0 : at_thread (OnDisconnect ns remote) s s0 -> inv s -> locked s = false ->
  inv (onDisconnect ns remote s0).
Proof.
  intros (l1 & l2 & E & ->) [H1 H2 H3 H4 H5] El. rewrite El in *. specialize (H1 eq_refl).
  assert (holders s = omap holder (l1 ++ l2)) as EH by (unfold holders; by rewrite E, omap_split, omap_app).
  assert (pendings s = omap pending l1 ++ [ns] ++ omap pending l2) as ED by (unfold pendings; by rewrite E, omap_split).
  assert (ns ∈ pendings s) as Hns by (rewrite ED; apply elem_of_app; right; apply elem_of_app; left; by apply list_elem_of_singleton).
  assert (forall n, n ∈ omap pending (l1 ++ l2) -> n ∈ pendings s) as Hsub.
  { intros n. rewrite ED, omap_app, !elem_of_app. tauto. }
  destruct (H4 ns Hns) as (k & Ek & Hc).
  assert (forall so ks, (so = socket s /\ so <> Some ns \/ so = None /\ socket s = Some ns) ->
    (ks = sockets s \/ exists k', closed_with k' = Some true /\ ks = <[ns := k']> (sockets s)) ->
    consistent false so ks (omap holder (l1 ++ l2)) (omap pending (l1 ++ l2))) as Hgen.
  { intros so ks Hso Hks. rewrite <- EH, H1. split; [done|done|..].
    - intros n k0 Hk0 Hop. destruct Hks as [->|(k' & Hk' & ->)].
      + destruct (H3 n k0 Hk0 Hop) as [? [Es|Es]]; [|rewrite H1 in Es; by apply elem_of_nil in Es]. destruct Hso as [[-> _]|[_ Es']]; [by split; [|left]|congruence].
      + apply list_lookup_insert_Some in Hk0 as [(-> & <- & _)|[Hne Hk0]]; [congruence|].
        destruct (H3 n k0 Hk0 Hop) as [? [Es|Es]]; [|rewrite H1 in Es; by apply elem_of_nil in Es]. destruct Hso as [[-> _]|[_ Es']]; [by split; [|left]|congruence].
    - intros n Hn. destruct (H4 n (Hsub n Hn)) as (k0 & Hk0 & E0). destruct Hks as [->|(k' & Hk' & ->)]; [by exists k0|].
      destruct (decide (n = ns)) as [->|Hne]; [|rewrite list_lookup_insert_ne by done; by exists k0].
      rewrite list_lookup_insert_eq by (by apply lookup_lt_Some in Ek). by exists k'.
    - intros n Hn. destruct Hso as [[-> Hne]|[-> _]]; [|done]. destruct (H5 n Hn) as (k0 & Hk0 & Ho & Hp). exists k0.
      assert (n <> ns) by congruence. split; [|split; [done|]].
      + destruct Hks as [->|(k' & _ & ->)]; [done|]. by rewrite list_lookup_insert_ne.
      + intros E0. specialize (Hp E0). rewrite ED, !elem_of_app in Hp. rewrite omap_app, elem_of_app. destruct Hp as [?|[Hp|?]]; [by left| |by right].
        by apply list_elem_of_singleton in Hp. }
  unfold onDisconnect. set (st := Stop _ _ _ _).
  assert (st = with_sockets (with_threads s (l1 ++ l2)) (sockets st) /\
    (sockets st = sockets s \/ exists k', closed_with k' = Some true /\ sockets st = <[ns := k']> (sockets s))) as [Est Hks].
  { subst st. unfold Stop. cbn. rewrite Ek. destruct (destroyed k); [by split; [destruct s|left]|]. split; [done|]. right. eexists. split; [|reflexivity]. exact Hc. }
  clearbody st. assert (socket st = socket s) as Eso by (by rewrite Est). case_bool_decide as Ens; rewrite Eso in Ens.
  - assert (inv (with_socket st None)) as Hi. { rewrite Est. unfold inv, holders, pendings. cbn. rewrite El. apply Hgen; [by right|done]. }
    cbn. destruct (expected st); [done|]. destruct (force st || remote); [apply inv_spawn; [done|done|]|]; by apply (inv_same (with_socket st None)).
  - rewrite Est. unfold inv, holders, pendings. cbn. rewrite El. apply Hgen; [by left|done].
Qed.

Lemma conn_inv_step l s s' : inv s -> step l s s' -> inv s'.
Proof.
  intros Hi Hs. destruct Hs; try (by apply (inv_same s)).
  all: try match goal with H : at_thread _ ?s ?s0 |- _ => assert (locked s0 = locked s) by (by destruct H as (?&?&?&->)) end.
  all: try (match goal with H : at_thread _ ?s ?s0 |- _ => assert (inv s0) by (by apply (conn_inv_take s s0 _ H)) end).
  all: try (by apply inv_spawn); try done.
  - by apply inv_connect.
  - by apply inv_Disconnect.
  - by apply inv_ResetConnection.
  - by apply conn_inv_close.
  - by apply inv_expect.
  - apply inv_spawn; [done|done|]. by apply inv_Disconnect.
  - apply inv_connect; [done|congruence].
  - by eapply inv_finish_sent.
  - by eapply inv_release.
  - by eapply inv_release.
  - by eapply inv_finish.
  - by eapply inv_onDisconnect.
  - unfold enter_loop. destruct (_ && _); [by apply inv_spawn|done].
  - unfold begin_delay. apply inv_spawn; [by destruct (expected s0)..|]. by apply (inv_same s0).
  - apply inv_connect; [done|congruence].
  - unfold loop_failed. destruct e; [|done|..]; (destruct (expected s0); [done|]); (destruct (AutoReconnectHook _); [by apply inv_spawn|done]).
  - apply inv_spawn; [done|done|]. by apply inv_Disconnect.
  - apply inv_spawn; [done|done|]. by apply inv_spawn.
Qed.

Lemma conn_inv_reachable id s : reachable id s -> inv s.
Proof. induction 1 as [|s s' l _ IH Hs]; [by split; cbn; [| |intros ? ? ?|intros ? ?%elem_of_nil|]|by eapply conn_inv_step]. Qed.

(** (C10) In every interleaving of callers, goroutines and the server at most one
    websocket is open; when no dial is under way it is the client's. When the
    client's websocket has been closed, an onDisconnect is under way for it,
    unless it was closed before the handshake had ended. *)
Theorem one_connection id s : reachable id s ->
  (forall a b, is_open a s = true -> is_open b s = true -> a = b) /\
  (forall ns, locked s = false -> is_open ns s = true -> socket s = Some ns) /\
  (forall ns, socket s = Some ns -> is_open ns s = true \/ (exists remote, OnDisconnect ns remote ∈ threads s) \/
     exists k, sockets s !! ns = Some k /\ closed_with k = Some false).
Proof.
  intros Hr. destruct (conn_inv_reachable id s Hr) as [H1 H2 H3 H4 H5].
  assert (forall ns, is_open ns s = true -> socket s = Some ns \/ ns ∈ holders s) as Hopen.
  { intros ns. unfold is_open. destruct (sockets s !! ns) as [k|] eqn:Ek; [|done]. case_bool_decide as Ec; [|done]. intros _. by apply (H3 ns k). }
  split; [|split].
  - intros a b Ha Hb. apply Hopen in Ha, Hb. destruct (locked s) eqn:El.
    + destruct (H2 eq_refl) as (Eso & ns & k & EH & _). rewrite Eso, EH, !list_elem_of_singleton in *. destruct Ha, Hb; congruence.
    + rewrite (H1 eq_refl), !elem_of_nil in *. destruct Ha, Hb; congruence || done.
  - intros ns El Ha. apply Hopen in Ha as [?|Ha]; [done|]. rewrite (H1 El) in Ha. by apply elem_of_nil in Ha.
  - intros ns Eso. destruct (H5 ns Eso) as (k & Ek & Ho & Hp). unfold is_open. rewrite Ek. destruct (closed_with k) as [[]|] eqn:Ec; [|by right; right; exists k|by left].
    right. left. specialize (Hp eq_refl). unfold pendings in Hp. apply list_elem_of_omap in Hp as (p & Hp & Ep). destruct p; try done.
    cbn in Ep. injection Ep as ->. by eexists.
Qed.

(** ** A call of Disconnect *)

(** A goroutine that can still connect although a disconnect is expected. *)
Definition committed (p : pc) : bool :=
  match p with RConnect | KForce _ | KReset _ | Got515 | Connect515 => true | _ => false end.

Definition quiet (p : pc) : Prop := committed p = false /\ holder p = None /\ forall n, p <> RWait n.

Record calm (n : nat) (s : client) : Prop := {
  calm_expected : expected s = true;
  calm_socket : socket s = None;
  calm_locked : locked s = false;
  calm_closed : Forall (fun k => closed_with k <> None) (sockets s);
  calm_threads : Forall quiet (threads s);
  calm_events : disconnected_events s = n
}.

Lemma closed_not_open ns s : Forall (fun k => closed_with k <> None) (sockets s) -> is_open ns s = false.
Proof.
  intros H. unfold is_open. destruct (sockets s !! ns) as [k|] eqn:E; [|done]. rewrite Forall_lookup in H. specialize (H _ _ E). by case_bool_decide.
Qed.

Lemma calm_close n ns remote s : calm n s -> Close ns remote s = s.
Proof.
  intros [_ _ _ H _ _]. unfold Close. destruct (sockets s !! ns) as [k|] eqn:E; [|done]. rewrite Forall_lookup in H. specialize (H _ _ E). by case_bool_decide.
Qed.

Lemma calm_spawn n s p : quiet p -> calm n s -> calm n (spawn s p).
Proof. intros Hp []. split; try done. cbn. apply Forall_app. split; [done|]. by apply Forall_singleton. Qed.

Lemma calm_take n p s s0 : at_thread p s s0 -> calm n s -> quiet p /\ calm n s0.
Proof.
  intros (l1 & l2 & E & ->) []. rewrite E, Forall_app, Forall_cons in *. destruct calm_threads0 as (? & ? & ?). split; [done|]. split; try done. cbn. by apply Forall_app.
Qed.

Lemma calm_wake n s : calm n s -> calm n (expectDisconnect s).
Proof.
  intros []. split; try done. cbn. apply Forall_fmap. eapply Forall_impl; [done|]. intros p (? & ? & Hn). by destruct p.
Qed.

Lemma calm_step n s s' : calm n s -> step Event s s' -> calm n s'.
Proof.
  intros Hc Hs. inversion Hs; subst;
    try (match goal with H : at_thread _ _ _ |- _ => apply (calm_take n) in H as [Hq Hc0]; [|exact Hc] end);
    try (destruct Hq as (Hq & Hh & Hw); try discriminate Hq; try discriminate Hh; try by destruct (Hw n0));
    try (match goal with H : is_open _ _ = true |- _ => rewrite closed_not_open in H by (by destruct Hc); discriminate H end).
  all: try done; try (by destruct Hc as [? ? ? ? ? ?]; split).
  - unfold Disconnect, unlockedDisconnect. change (socket (expectDisconnect s)) with (socket s). rewrite (calm_socket _ _ Hc). by apply calm_wake.
  - unfold ResetConnection. destruct Hc as [He Hso ? ? ? ?]. cbn. rewrite Hso. split; try done.
  - by rewrite (calm_close n).
  - by apply calm_wake.
  - destruct Hc0 as [He Hso Hl Hcl Ht Hev]. unfold onDisconnect. set (st := Stop _ _ _ _).
    assert (socket st = None /\ calm n st) as [E Hst].
    { subst st. unfold Stop. destruct (sockets s1 !! ns) as [k|] eqn:Ek; [|done]. destruct (destroyed k); [done|]. split; [done|]. split; try done.
      cbn. apply Forall_insert; [done|]. rewrite Forall_lookup in Hcl. exact (Hcl _ _ Ek). }
    rewrite E. by case_bool_decide.
  - unfold enter_loop. destruct (_ && _); [|done]. by apply calm_spawn.
  - unfold begin_delay. rewrite (calm_expected _ _ Hc0). apply calm_spawn; [done|]. by destruct Hc0; split.
  - unfold loop_failed. rewrite (calm_expected _ _ Hc0). by destruct e.
  - apply calm_spawn; [done|]. by apply calm_spawn.
Qed.

Lemma calm_run n s s' : events s s' -> calm n s -> calm n s'.
Proof. induction 1 as [|s s1 s2 Hs _ IH]; [done|]. intros Hc. by eapply IH, calm_step. Qed.

Lemma Close_events ns remote s : disconnected_events (Close ns remote s) = disconnected_events s /\ locked (Close ns remote s) = locked s /\ expected (Close ns remote s) = expected s.
Proof. unfold Close. destruct (_ !! _) as [k|]; [|done]. case_bool_decide; [|done]. by destruct (on_disconnect k). Qed.

Lemma Disconnect_calm s : inv s -> locked s = false -> Forall (fun p => committed p = false) (threads s) ->
  calm (disconnected_events s) (Disconnect s).
Proof.
  intros Hi El Ht. pose proof (inv_Disconnect s Hi) as Hi'. pose proof (inv_expect s Hi) as He.
  assert (Forall quiet (threads (expectDisconnect s))) as Hq.
  { cbn. apply Forall_fmap. rewrite Forall_forall in Ht. apply Forall_forall. intros p Hp. specialize (Ht p Hp). cbn.
    assert (holder p = None) as Eh.
    { destruct (holder p) as [ns|] eqn:Eh; [|done]. assert (ns ∈ holders s) as Hin by (apply list_elem_of_omap; by exists p).
      rewrite (con_free _ _ _ _ _ Hi El) in Hin. by apply elem_of_nil in Hin. }
    by destruct p. }
  assert (expected (Disconnect s) = true /\ socket (Disconnect s) = None /\ locked (Disconnect s) = false /\
    threads (Disconnect s) = threads (expectDisconnect s) /\ disconnected_events (Disconnect s) = disconnected_events s) as (E1 & E2 & E3 & E4 & E5).
  { unfold Disconnect, unlockedDisconnect. destruct (socket (expectDisconnect s)) as [ns|] eqn:Eso; [|done]. destruct (con_socket _ _ _ _ _ He ns Eso) as (k & Ek & _).
    destruct (destroyed k) eqn:Ed; [unfold Stop; by rewrite Ek, Ed|]. by rewrite (Stop_quiet ns k). }
  split; [done..| |by rewrite E4|done].
  apply Forall_lookup. intros ns k Ek Hop. destruct (con_open _ _ _ _ _ Hi' ns k Ek Hop) as [_ [E|E]]; [congruence|].
  rewrite (con_free _ _ _ _ _ Hi' E3) in E. by apply elem_of_nil in E.
Qed.


(** ** Reconnecting *)

Lemma events_trans s s' s'' : events s s' -> events s' s'' -> events s s''.
Proof. induction 1; [done|]. intros. econstructor; [done|]. auto. Qed.

Lemma at_spawn p s : at_thread p (spawn s p) s.
Proof. exists (threads s), []. split; [done|]. rewrite app_nil_r. by destruct s. Qed.

(** Ready to dial: nothing expected, nothing deleted, no websocket. *)
Record ready (s : client) : Prop := {
  ready_expected : expected s = false;
  ready_deleted : deleted s = false;
  ready_ctx : ctx_done s = false;
  ready_locked : locked s = false;
  ready_socket : socket s = None
}.

(** One turn of autoReconnect's loop, up to its dial. *)
Lemma dial_turn s dial : ready s -> exists s1, s1 = with_errors s (errors s + 1) (logged_in s) /\
  events (spawn s RDelay) (connect ByLoop dial s1).
Proof.
  intros [He Hd Hc Hl Hs]. eexists. split; [reflexivity|].
  eapply events_step; [apply step_delay, at_spawn|]. unfold begin_delay. rewrite He.
  eapply events_step; [eapply step_timer; [apply at_spawn|done]|].
  eapply events_step; [eapply (step_loop_connect _ _ dial); [apply at_spawn|done]|]. constructor.
Qed.

Lemma connect_ready w dial s : ready s -> connect w dial s =
  match dial with
  | Some status => failed w (ErrDialFailed status) (resetExpectedDisconnect s)
  | None => spawn (with_lock (snd (dial_socket None s)) true) (Handshake w (length (sockets s)))
  end.
Proof. intros [He Hd Hc Hl Hs]. unfold connect, unlockedConnect. rewrite Hd, Hs. by destruct dial. Qed.

Lemma dials_recover fails s : ready s -> Forall (fun e => AutoReconnectHook (ErrDialFailed e) = true) fails ->
  exists s', events (spawn s RDelay) s' /\ IsConnected s' = true /\ errors s' = errors s + Z.of_nat (length fails) + 1 /\
    disconnected_events s' = disconnected_events s.
Proof.
  intros Hr Hf. revert s Hr. induction Hf as [|e fails Hh _ IH]; intros s Hr.
  - destruct (dial_turn s None Hr) as (s1 & Es1 & Hrun). assert (ready s1) as Hr1 by (rewrite Es1; by destruct Hr; split).
    rewrite (connect_ready ByLoop None s1 Hr1) in Hrun. eexists. split.
    + eapply events_trans; [exact Hrun|]. eapply events_step.
      { eapply (step_finish_sent _ _ ByLoop (length (sockets s1))); [apply at_spawn|]. unfold is_open. cbn. rewrite lookup_app_r, Nat.sub_diag by done. done. }
      eapply events_step; [eapply step_finish, at_spawn|]. constructor.
    + cbn. split; [|by rewrite Es1; cbn; split; [lia|]]. unfold IsConnected, is_open. cbn. rewrite list_lookup_alter_eq, lookup_app_r, Nat.sub_diag by done. done.
  - destruct (dial_turn s (Some e) Hr) as (s1 & Es1 & Hrun). assert (ready s1) as Hr1 by (rewrite Es1; by destruct Hr; split).
    rewrite (connect_ready ByLoop (Some e) s1 Hr1) in Hrun. cbn [failed] in Hrun.
    assert (ready (resetExpectedDisconnect s1)) as Hr2 by (destruct Hr1; by split).
    destruct (IH _ Hr2) as (s' & Hrun' & Hcon & Herr & Hev). exists s'. split.
    + eapply events_trans; [exact Hrun|]. eapply events_step; [eapply step_loop_failed, at_spawn|].
      unfold loop_failed. rewrite (ready_expected _ Hr2), Hh. exact Hrun'.
    + split; [done|]. rewrite Herr, Hev, Es1. cbn. split; [lia|done].
Qed.

(** (C14) A connection whose end was noticed can be taken up again: with automatic
    reconnecting on, from every reachable state in which onDisconnect is about to run
    because the server ended the client's current websocket, and in which the client is
    logged in to an account, its device is not deleted, its context is not done and no
    disconnect is expected, there are steps of the client's own goroutines after which
    it is connected, with one Disconnected event and one more counted error for each
    dial, however often dialling fails first with errors that the reconnect hook takes.
    A websocket that ends before onDisconnect is attached to it is not noticed and is
    not taken up again (silent_loss). *)
Theorem lost_connection_recovers id s s0 ns fails : reachable id s -> at_thread (OnDisconnect ns true) s s0 -> socket s = Some ns ->
  EnableAutoReconnect = true -> has_id s = true -> deleted s = false -> ctx_done s = false -> expected s = false ->
  Forall (fun e => AutoReconnectHook (ErrDialFailed e) = true) fails ->
  exists s', events s s' /\ IsConnected s' = true /\ errors s' = errors s + Z.of_nat (length fails) + 1 /\
    disconnected_events s' = Datatypes.S (disconnected_events s).
Proof.
  intros Hr Ht Hso Ha Hid Hdel Hctx He Hf. destruct (inv_no_holder s ns (conn_inv_reachable id s Hr) Hso) as [El _].
  assert (exists s1, onDisconnect ns true s0 = spawn s1 REnter /\ ready s1 /\ has_id s1 = true /\ errors s1 = errors s /\
    disconnected_events s1 = Datatypes.S (disconnected_events s)) as (s1 & E1 & Hr1 & Hid1 & Her1 & Hev1).
  { destruct Ht as (l1 & l2 & _ & ->). unfold onDisconnect. set (st := Stop _ _ _ _).
    assert (st = with_sockets (with_threads s (l1 ++ l2)) (sockets st)) as Est.
    { subst st. unfold Stop. cbn. destruct (sockets s !! ns) as [k|]; [|by destruct s]. by destruct (destroyed k); [destruct s|]. }
    clearbody st. assert (socket st = Some ns /\ expected st = false) as [Eso Eex] by (by rewrite Est).
    rewrite Eso, bool_decide_eq_true_2 by done. cbn. rewrite Eex, orb_true_r. eexists. split; [reflexivity|].
    cbn. rewrite Est. cbn. done. }
  destruct (dials_recover fails s1 Hr1 Hf) as (s' & Hrun & Hcon & Herr & Hev). exists s'. split.
  - eapply events_step; [by eapply step_on_disconnect|]. rewrite E1.
    eapply events_step; [apply step_enter, at_spawn|]. unfold enter_loop. by rewrite Ha, Hid1.
  - split; [done|]. by rewrite Herr, Hev, Her1, Hev1.
Qed.

End settings.

(** ** Runs with automatic reconnecting on *)

Definition hook (_ : connect_error) := true.
Definition network (_ : connect_error) := false.

Definition up : client := mkClient false true false false (Some O) [mkSocket None true false] false false 0 false [KeepAlive 0] 0.
Definition lost : client :=
  mkClient false true false false (Some O) [mkSocket (Some true) true false] false false 0 false [KeepAlive 0; OnDisconnect 0 true] 0.

Lemma finishing_reachable : reachable true false hook network true
  (mkClient false true false true None [mkSocket None false false] false false 0 false [Finishing ByUser 0] 0).
Proof.
  pose proof (reach_init true false hook network true) as H.
  eapply reach_step in H; [|apply (step_connect _ _ _ _ _ None); reflexivity].
  eapply reach_step in H; [|eapply (step_finish_sent _ _ _ _ _ _ ByUser 0); [exists [], []; split; reflexivity|reflexivity]]. exact H.
Qed.

Lemma up_reachable : reachable true false hook network true up.
Proof.
  pose proof finishing_reachable as H.
  eapply reach_step in H; [|eapply (step_finish _ _ _ _ _ _ ByUser 0); exists [], []; split; reflexivity]. exact H.
Qed.

Lemma lost_reachable : reachable true false hook network true lost.
Proof. pose proof up_reachable as H. eapply reach_step in H; [|apply (step_remote_close _ _ _ _ _ 0)]. exact H. Qed.

(** A websocket that closes between the last message of the handshake and the
    assignment of OnDisconnect leaves the client with it: no event, and no
    goroutine left that would reconnect. *)
Lemma silent_loss : exists s, reachable true false hook network true s /\ socket s = Some O /\ IsConnected s = false /\
  expected s = false /\ threads s = [] /\ disconnected_events s = O.
Proof.
  pose proof finishing_reachable as H.
  eapply reach_step in H; [|apply (step_remote_close _ _ _ _ _ 0)].
  eapply reach_step in H; [|eapply (step_finish _ _ _ _ _ _ ByUser 0); exists [], []; split; reflexivity].
  eapply reach_step in H; [|eapply (step_keepalive_done _ _ _ _ _ _ 0); [exists [], []; split; reflexivity|reflexivity]].
  eexists. split; [exact H|]. done.
Qed.

(** A reconnect whose delay is over when Disconnect is called connects after it. *)
Lemma disconnect_undone : exists s s', reachable true false hook network true s /\ events true false hook network (Disconnect s) s' /\
  IsConnected s' = true.
Proof.
  pose proof lost_reachable as H.
  eapply reach_step in H; [|eapply (step_on_disconnect _ _ _ _ _ _ 0 true); [exists [KeepAlive 0], []; split; reflexivity|reflexivity]].
  eapply reach_step in H; [|eapply step_enter; exists [KeepAlive 0], []; split; reflexivity].
  eapply reach_step in H; [|eapply step_delay; exists [KeepAlive 0], []; split; reflexivity].
  eapply reach_step in H; [|eapply (step_timer _ _ _ _ _ _ 0); [exists [KeepAlive 0], []; split; reflexivity|reflexivity]].
  eexists _, _. split; [exact H|]. split.
  - eapply events_step; [eapply (step_loop_connect _ _ _ _ _ _ None); [exists [KeepAlive 0], []; split; reflexivity|reflexivity]|].
    eapply events_step; [eapply (step_finish_sent _ _ _ _ _ _ ByLoop 1); [exists [KeepAlive 0], []; split; reflexivity|reflexivity]|].
    eapply events_step; [eapply (step_finish _ _ _ _ _ _ ByLoop 1); exists [KeepAlive 0], []; split; reflexivity|]. constructor.
  - reflexivity.
Qed.

(** isLoggedIn outlives the connection: WaitForConnection's condition holds on a
    new connection that has not been authenticated. *)
Lemma stale_login : exists s, reachable true false hook network true s /\ threads s = [KeepAlive 0; KeepAlive 1] /\ WaitForConnection_done s = true.
Proof.
  pose proof up_reachable as H.
  eapply reach_step in H; [|apply step_success].
  eapply reach_step in H; [|apply step_disconnect; reflexivity].
  eapply reach_step in H; [|apply (step_connect _ _ _ _ _ None); reflexivity].
  eapply reach_step in H; [|eapply (step_finish_sent _ _ _ _ _ _ ByUser 1); [exists [KeepAlive 0], []; split; reflexivity|reflexivity]].
  eapply reach_step in H; [|eapply (step_finish _ _ _ _ _ _ ByUser 1); exists [KeepAlive 0], []; split; reflexivity].
  eexists. split; [exact H|]. done.
Qed.

Lemma one_connection_witness : reachable true false hook network true up /\ is_open 0 up = true /\ socket up = Some O.
Proof.
  pose proof (one_connection true false hook network true up up_reachable) as (_ & H & _).
  split; [exact up_reachable|]. split; [reflexivity|]. exact (H O eq_refl eq_refl).
Defined.


Lemma lost_connection_recovers_witness : exists s', events true false hook network lost s' /\ IsConnected s' = true /\
  errors s' = 3 /\ disconnected_events s' = 1%nat.
Proof.
  refine (lost_connection_recovers true false hook network true lost _ 0 [None; Some 503] lost_reachable _ eq_refl eq_refl eq_refl eq_refl eq_refl eq_refl _).
  - exists [KeepAlive 0], []. split; reflexivity.
  - apply Forall_cons_2; [reflexivity|]. apply Forall_cons_2; [reflexivity|apply Forall_nil_2].
Defined.

End connection.

Module keepalive.

(** Milliseconds. *)
Definition KeepAliveResponseDeadline : Z := 10 * 1000.
Definition KeepAliveIntervalMin : Z := 20 * 1000.
Definition KeepAliveIntervalMax : Z := 30 * 1000.
Definition KeepAliveMaxFailTime : Z := 3 * 60 * 1000.

(** What happens to a ping, and after how long. *)
Inductive answer := Reply (after : Z) | SendFailed (after : Z) | ConnectionDone (after : Z).

(** How long sendKeepAlive takes, and its results. *)
Definition sendKeepAlive (a : answer) : Z * bool * bool :=
  match a with
  | SendFailed d => (d, false, true)
  | Reply d => if d <? KeepAliveResponseDeadline then (d, true, true) else (KeepAliveResponseDeadline, false, true)
  | ConnectionDone d => if d <? KeepAliveResponseDeadline then (d, false, false) else (KeepAliveResponseDeadline, false, true)
  end.

(** [random]: what rand.Int64N gives, below its argument. *)
Record round := mkRound { random : Z; ping : answer }.

Definition interval (r : round) : Z := random r + KeepAliveIntervalMin.

Inductive event :=
  | KeepAliveTimeout (errorCount lastSuccess : Z)
  | KeepAliveRestored
  | ForcedReconnect (lastSuccess : Z).

(** The events with their times. After a forced reconnect the connection's context
    is done and the loop returns; so it does when the rounds run out. *)
Fixpoint keepAliveLoop (EnableAutoReconnect : bool) (rounds : list round) (now lastSuccess errorCount : Z) : list (Z * event) :=
  match rounds with
  | [] => []
  | r :: rounds =>
      let '(took, isSuccess, shouldContinue) := sendKeepAlive (ping r) in
      let now := now + interval r + took in
      if negb shouldContinue then []
      else if negb isSuccess then
        (now, KeepAliveTimeout (errorCount + 1) lastSuccess) ::
        (if EnableAutoReconnect && (KeepAliveMaxFailTime <? now - lastSuccess) then [(now, ForcedReconnect lastSuccess)]
         else keepAliveLoop EnableAutoReconnect rounds now lastSuccess (errorCount + 1))
      else
        (if 0 <? errorCount then [(now, KeepAliveRestored)] else []) ++ keepAliveLoop EnableAutoReconnect rounds now now 0
  end.

Definition valid (r : round) : Prop :=
  0 <= random r < KeepAliveIntervalMax - KeepAliveIntervalMin /\
  match ping r with Reply d | ConnectionDone d => 0 <= d | SendFailed d => 0 <= d <= KeepAliveResponseDeadline end.

Definition unanswered (r : round) : Prop :=
  match ping r with SendFailed _ => True | Reply d | ConnectionDone d => KeepAliveResponseDeadline <= d end.

Lemma sendKeepAlive_time r : valid r -> 0 <= fst (fst (sendKeepAlive (ping r))) <= KeepAliveResponseDeadline.
Proof.
  intros [_ H]. unfold sendKeepAlive. destruct (ping r) as [d|d|d]; [..|]; try (destruct (Z.ltb_spec d KeepAliveResponseDeadline)); cbn; unfold KeepAliveResponseDeadline in *; lia.
Qed.

Lemma sendKeepAlive_unanswered r : unanswered r -> exists d, sendKeepAlive (ping r) = (d, false, true).
Proof.
  unfold unanswered, sendKeepAlive. destruct (ping r) as [d|d|d]; [..|]; intros H; [|by eexists|]; (destruct (Z.ltb_spec d KeepAliveResponseDeadline); [lia|by eexists]).
Qed.

Lemma forced_late rounds now last n t l : Forall valid rounds -> now - last <= KeepAliveMaxFailTime ->
  (t, ForcedReconnect l) ∈ keepAliveLoop true rounds now last n -> KeepAliveMaxFailTime < t - l <= 220 * 1000.
Proof.
  intros Hv. revert now last n. induction Hv as [|r rounds Hr _ IH]; intros now last n Hn; cbn [keepAliveLoop]; [by intros H%elem_of_nil|].
  pose proof (sendKeepAlive_time r Hr) as Ht. destruct Hr as [Hr _]. destruct (sendKeepAlive (ping r)) as [[took suc] cont]. cbn in Ht.
  unfold interval, KeepAliveMaxFailTime, KeepAliveResponseDeadline, KeepAliveIntervalMin, KeepAliveIntervalMax in *.
  destruct cont; [|by intros H%elem_of_nil]. destruct suc; cbn [negb andb].
  - intros H. apply elem_of_app in H as [H|H]; [destruct (0 <? n); [by apply list_elem_of_singleton in H|by apply elem_of_nil in H]|].
    apply IH in H; [done|lia].
  - intros H. apply elem_of_cons in H as [H|H]; [done|]. revert H. destruct (Z.ltb_spec (3 * 60 * 1000) (now + (random r + 20 * 1000) + took - last)).
    + intros H'%list_elem_of_singleton. injection H' as -> ->. lia.
    + apply IH. lia.
Qed.

Lemma silence_forces rounds now last n : Forall valid rounds -> Forall unanswered rounds -> last <= now ->
  KeepAliveMaxFailTime - (now - last) < Z.of_nat (length rounds) * KeepAliveIntervalMin ->
  now - last <= KeepAliveMaxFailTime ->
  exists t, (t, ForcedReconnect last) ∈ keepAliveLoop true rounds now last n.
Proof.
  intros Hv Hu. revert now n. induction Hv as [|r rounds Hr _ IH]; intros now n Hl Hn Hm; inversion Hu as [|? ? Hur Hus]; subst; [cbn in Hn; lia|].
  cbn [keepAliveLoop]. destruct (sendKeepAlive_unanswered r Hur) as [d E]. pose proof (sendKeepAlive_time r Hr) as Ht. rewrite E in Ht |- *. cbn [negb andb].
  destruct Hr as [Hr _]. cbn [length fst] in *. unfold interval. destruct (Z.ltb_spec KeepAliveMaxFailTime (now + (random r + KeepAliveIntervalMin) + d - last)) as [H|H].
  - eexists. apply elem_of_cons. right. by apply list_elem_of_singleton.
  - destruct (IH Hus (now + (random r + KeepAliveIntervalMin) + d) (n + 1)) as [t Hin]; [unfold KeepAliveIntervalMin in *; lia..|lia|].
    exists t. apply elem_of_cons. by right.
Qed.

(** A reconnect is forced more than three minutes and at most 220 seconds after
    the last answer; after ten pings without an answer it has been forced. *)
Theorem reconnect_window rounds start : Forall valid rounds ->
  (forall t last, (t, ForcedReconnect last) ∈ keepAliveLoop true rounds start start 0 -> 180 * 1000 < t - last <= 220 * 1000) /\
  (Forall unanswered rounds -> (10 <= length rounds)%nat -> exists t, (t, ForcedReconnect start) ∈ keepAliveLoop true rounds start start 0).
Proof.
  intros Hv. split.
  - intros t last H. apply forced_late in H; [exact H|done|]. unfold KeepAliveMaxFailTime. lia.
  - intros Hu Hl. apply silence_forces; [done|done|lia|unfold KeepAliveMaxFailTime, KeepAliveIntervalMin; lia|unfold KeepAliveMaxFailTime; lia].
Qed.

Definition silent_round : round := mkRound 0 (Reply 20000).

Lemma reconnect_window_witness : Forall valid (replicate 10 silent_round) /\
  exists t, (t, ForcedReconnect 0) ∈ keepAliveLoop true (replicate 10 silent_round) 0 0 0.
Proof.
  assert (Forall valid (replicate 10 silent_round)) as Hv.
  { apply Forall_replicate. split; cbn; unfold KeepAliveIntervalMax, KeepAliveIntervalMin; lia. }
  split; [exact Hv|]. apply (proj2 (reconnect_window (replicate 10 silent_round) 0 Hv)); [|cbn; lia].
  apply Forall_replicate. cbn. unfold KeepAliveResponseDeadline. lia.
Defined.

End keepalive.

Module connectionevents.

Import jid attrs prekeys requests.

(** types/events/events.go: ConnectFailureReason. *)
Definition ConnectFailureLoggedOut := 401.
Definition ConnectFailureTempBanned := 402.
Definition ConnectFailureMainDeviceGone := 403.
Definition ConnectFailureUnknownLogout := 406.
Definition ConnectFailureClientOutdated := 405.
Definition ConnectFailureCATExpired := 413.
Definition ConnectFailureCATInvalid := 414.
Definition ConnectFailureInternalServerError := 500.
Definition ConnectFailureServiceUnavailable := 503.

Definition IsLoggedOut (r : Z) : bool :=
  (r =? ConnectFailureLoggedOut) || (r =? ConnectFailureMainDeviceGone) || (r =? ConnectFailureUnknownLogout).

Inductive event :=
  | ManualLoginReconnect
  | LoggedOut (OnConnect : bool) (reason : Z)
  | StreamReplaced
  | CATRefreshError
  | StreamError (code : string) (raw : Node)
  | QRScannedWithoutMultidevice
  | OfflineSyncPreview (total appdata messages notifications receipts : Z)
  | OfflineSyncCompleted (count : Z)
  | TemporaryBan (code expire : Z)
  | ClientOutdated
  | ConnectFailure (reason : Z) (message : string) (raw : Node)
  | Connected.

(** Goroutines and calls of the other components. *)
Inductive action :=
  | Emit (e : event)
  | ClearWaiters (n : Node)
  | DisconnectAndConnect                  (* the goroutine of a 515 *)
  | SaveStore | PutMapping (lid pn : JID)
  | DeleteExpiredTokens
  | UploadPreKeys (initial : bool)
  | SendPassive (tag : string)
  | CloseSocketWait.

(** The parts of the client and of its device the handlers change. *)
Record client := mkClient {
  isLoggedIn : bool; paired : bool;
  expected : bool; force : bool;
  AutoReconnectErrors : Z; LastSuccessfulConnect : Z; serverTimeOffset : Z;
  Deleted : bool; ID : option JID; LID : JID
}.

Definition with_login (b : bool) (s : client) := mkClient b (paired s) (expected s) (force s) (AutoReconnectErrors s) (LastSuccessfulConnect s) (serverTimeOffset s) (Deleted s) (ID s) (LID s).
Definition expectDisconnect (s : client) := mkClient (isLoggedIn s) (paired s) true false (AutoReconnectErrors s) (LastSuccessfulConnect s) (serverTimeOffset s) (Deleted s) (ID s) (LID s).
Definition with_LID (l : JID) (s : client) := mkClient (isLoggedIn s) (paired s) (expected s) (force s) (AutoReconnectErrors s) (LastSuccessfulConnect s) (serverTimeOffset s) (Deleted s) (ID s) l.

(** store/store.go: Delete; [deletes]: whether the container's DeleteDevice
    succeeds. *)
Definition Delete (deletes : bool) (s : client) : client :=
  if Deleted s then s
  else if deletes then
    mkClient (isLoggedIn s) (paired s) (expected s) (force s) (AutoReconnectErrors s) (LastSuccessfulConnect s) (serverTimeOffset s) true None EmptyJID
  else s.

Definition GetJID (s : client) : JID := default EmptyJID (ID s).

Section handlers.
(** DisableLoginAutoReconnect; RefreshCAT, [None] when it is nil, else whether it
    succeeds; whether the device's row can be deleted. *)
Context (DisableLoginAutoReconnect : bool) (RefreshCAT : option bool) (deletes : bool).

Definition handleStreamError (node : Node) (s : client) : client * list action :=
  let s := with_login false s in
  let code := match attr_get "code" (node_attrs node) with Some (AString c) => c | _ => "" end in
  let conflict := fst (GetOptionalChildByTag node ["conflict"]) in
  let conflictType := fst (OptionalString "type" (AttrGetter conflict)) in
  let '(s, rest) :=
    if String.eqb code "515" then (s, if DisableLoginAutoReconnect then [Emit ManualLoginReconnect] else [DisconnectAndConnect])
    else if String.eqb code "401" && String.eqb conflictType "device_removed" then
      (Delete deletes (expectDisconnect s), [Emit (LoggedOut false ConnectFailureLoggedOut)])
    else if String.eqb conflictType "replaced" then (expectDisconnect s, [Emit StreamReplaced])
    else if String.eqb code "503" then (s, [])
    else
      match RefreshCAT with
      | Some ok =>
          if String.eqb code (itoa ConnectFailureCATInvalid) || String.eqb code (itoa ConnectFailureCATExpired) then
            if ok then (s, []) else (expectDisconnect s, [Emit CATRefreshError])
          else (s, [Emit (StreamError code node)])
      | None => (s, [Emit (StreamError code node)])
      end in
  (s, ClearWaiters node :: rest).

(** [None]: the call of a nil RefreshCAT panics. *)
Definition handleConnectFailure (node : Node) (s : client) : option (client * list action) :=
  let '(reason, ag) := Int "reason" (AttrGetter node) in
  let '(message, ag) := OptionalString "message" ag in
  let serverFault := (reason =? ConnectFailureServiceUnavailable) || (reason =? ConnectFailureInternalServerError) in
  let cat := (reason =? ConnectFailureCATInvalid) || (reason =? ConnectFailureCATExpired) in
  let willAutoReconnect := serverFault || cat in
  let s := if willAutoReconnect then s else expectDisconnect s in
  if IsLoggedOut reason then Some (Delete deletes s, [Emit (LoggedOut true reason)])
  else if reason =? ConnectFailureTempBanned then
    let '(code, ag) := Int "code" ag in
    let '(expire, _) := Int "expire" ag in
    Some (s, [Emit (TemporaryBan code (i64 (i64 expire * 1000000000)))])
  else if reason =? ConnectFailureClientOutdated then Some (s, [Emit ClientOutdated])
  else if cat then
    match RefreshCAT with
    | None => None
    | Some true => Some (s, [])
    | Some false => Some (expectDisconnect s, [Emit CATRefreshError])
    end
  else if willAutoReconnect then Some (s, [])
  else Some (s, [Emit (ConnectFailure reason message node)]).
End handlers.

(** One child of an <ib> node. *)
Definition handleIB_child (child : Node) : list action :=
  let ag := AttrGetter child in
  if String.eqb (node_tag child) "downgrade_webclient" then [Emit QRScannedWithoutMultidevice]
  else if String.eqb (node_tag child) "offline_preview" then
    let '(total, ag) := Int "count" ag in
    let '(appdata, ag) := Int "appdata" ag in
    let '(messages, ag) := Int "message" ag in
    let '(notifications, ag) := Int "notification" ag in
    let '(receipts, _) := Int "receipt" ag in
    [Emit (OfflineSyncPreview total appdata messages notifications receipts)]
  else if String.eqb (node_tag child) "offline" then [Emit (OfflineSyncCompleted (fst (Int "count" ag)))]
  else [].

Definition SetPassive (id : string) (passive : bool) : infoQuery :=
  mkQuery "passive" "set" ServerJID EmptyJID id "" (ANodes [mkNode (if passive then "passive" else "active") [] ANil]) false.

Definition handleIB (node : Node) : list action := concat (map handleIB_child (GetChildren node)).

(** The LID of a success node against the device's. *)
Definition learn_LID (nodeLID : JID) (s : client) : client * list action :=
  let s := if negb (IsEmpty (LID s)) && negb (IsEmpty nodeLID) && negb (bool_decide (LID s = nodeLID)) then with_LID EmptyJID s else s in
  if IsEmpty (LID s) && negb (IsEmpty nodeLID) then
    let s := with_LID nodeLID s in (s, [SaveStore; PutMapping (LID s) (GetJID s)])
  else (s, []).

(** The goroutine after a success: the counts of uploaded prekeys, [None] when
    the query failed. *)
Definition post_connect (dbCount serverCount : option Z) : list action :=
  (match dbCount, serverCount with
   | Some db, Some server =>
       if (server <? MinPreKeyCount) || (db <? MinPreKeyCount) then [UploadPreKeys ((db =? 0) && (server =? 0))] else []
   | _, _ => []
   end) ++ [SendPassive "active"; Emit Connected; CloseSocketWait].

(** time.Time.Sub saturates. *)
Definition Sub (t u : Z) : Z := Z.min (2 ^ 63 - 1) (Z.max (- 2 ^ 63) (t - u)).

(** Times in nanoseconds; [now_s]: the clock rounded to a second. *)
Definition handleConnectSuccess (now now_s : Z) (dbCount serverCount : option Z) (node : Node) (s : client) : client * list action :=
  if negb (paired s) then (s, [])
  else
    let '(nodeLID, ag) := JID_ "lid" (AttrGetter node) in
    let t := match fst (UnixTime "t" ag) with UnixNano n => n | ZeroTime => -62135596800 * 1000000000 end in
    let s := mkClient true (paired s) (expected s) (force s) 0 now (Sub t now_s) (Deleted s) (ID s) (LID s) in
    let '(s, learned) := learn_LID nodeLID s in
    (s, learned ++ [DeleteExpiredTokens] ++ post_connect dbCount serverCount).

Lemma learn_LID_stored nodeLID s : let s' := fst (learn_LID nodeLID s) in
  LID s' = (if IsEmpty nodeLID then LID s else nodeLID) /\ Deleted s' = Deleted s /\ ID s' = ID s.
Proof.
  unfold learn_LID. cbv zeta. destruct (IsEmpty nodeLID) eqn:En.
  - cbn [negb]. by rewrite !andb_false_r.
  - cbn [negb]. rewrite !andb_true_r. destruct (IsEmpty (LID s)) eqn:Es; cbn [negb andb].
    + by rewrite Es.
    + case_bool_decide as E; cbn [negb]; [by rewrite Es; cbn; rewrite E|]. by cbn.
Qed.

(** Which failures leave the automatic reconnect on. *)
Definition temporary (reason : Z) : bool := existsb (Z.eqb reason) [500; 503; 413; 414].

(** The store is deleted only after the disconnect has been marked as expected,
    and a connect failure leaves it unexpected only for a server fault or for a
    CAT that was refreshed, changing nothing. *)
Theorem deletion_expected DisableLoginAutoReconnect RefreshCAT deletes node s : Deleted s = false ->
  (forall s' acts, handleConnectFailure RefreshCAT deletes node s = Some (s', acts) ->
     (Deleted s' = true -> expected s' = true /\ ID s' = None /\ IsLoggedOut (fst (Int "reason" (AttrGetter node))) = true) /\
     (expected s' = true \/ s' = s /\ acts = [] /\ temporary (fst (Int "reason" (AttrGetter node))) = true)) /\
  (let s' := fst (handleStreamError DisableLoginAutoReconnect RefreshCAT deletes node s) in
   isLoggedIn s' = false /\ (Deleted s' = true -> expected s' = true /\ ID s' = None)).
Proof.
  intros Hd. split.
  - intros s' acts. unfold handleConnectFailure. destruct (Int "reason" (AttrGetter node)) as [reason ag]. destruct (OptionalString "message" ag) as [message ag'].
    cbn [fst]. unfold IsLoggedOut, temporary, ConnectFailureLoggedOut, ConnectFailureMainDeviceGone, ConnectFailureUnknownLogout, ConnectFailureServiceUnavailable,
      ConnectFailureInternalServerError, ConnectFailureCATInvalid, ConnectFailureCATExpired, ConnectFailureTempBanned, ConnectFailureClientOutdated. cbn [existsb].
    destruct (decide (reason ∈ [401; 402; 403; 405; 406; 413; 414; 500; 503])) as [Hin|Hout].
    + repeat (apply elem_of_cons in Hin as [->|Hin]); try (by apply elem_of_nil in Hin); cbn.
      all: try (destruct RefreshCAT as [[]|]; [..|done]).
      all: try (destruct (Int "code" ag') as [code ag1]; destruct (Int "expire" ag1) as [expire ag2]).
      all: intros [= <- <-]; unfold Delete; cbn; rewrite ?Hd; cbn.
      all: try (destruct deletes; cbn); rewrite ?Hd; split; try done; (by left) || (by right).
    + rewrite !not_elem_of_cons in Hout. destruct Hout as (H1 & H2 & H3 & H4 & H5 & H6 & H7 & H8 & H9 & _).
      rewrite (proj2 (Z.eqb_neq reason 401) H1), (proj2 (Z.eqb_neq reason 402) H2), (proj2 (Z.eqb_neq reason 403) H3),
        (proj2 (Z.eqb_neq reason 405) H4), (proj2 (Z.eqb_neq reason 406) H5), (proj2 (Z.eqb_neq reason 413) H6),
        (proj2 (Z.eqb_neq reason 414) H7), (proj2 (Z.eqb_neq reason 500) H8), (proj2 (Z.eqb_neq reason 503) H9).
      cbn. intros [= <- <-]. cbn. rewrite Hd. split; [done|]. by left.
  - unfold handleStreamError. set (code := match _ with Some (AString c) => c | _ => "" end). set (ct := fst (OptionalString _ _)). clearbody code ct.
    assert (forall c, expected c = true -> Deleted c = false -> isLoggedIn c = false ->
      isLoggedIn (Delete deletes c) = false /\ (Deleted (Delete deletes c) = true -> expected (Delete deletes c) = true /\ ID (Delete deletes c) = None)) as Hdel.
    { intros c He Hc Hl. unfold Delete. rewrite Hc. destruct deletes; [by cbn|]. by rewrite Hc. }
    repeat (case_match; cbn); simplify_eq/=; rewrite ?Hd; try (by split); by apply Hdel.
Qed.

Definition device_jid : JID := mkJID "1" 0 0 1 "s.whatsapp.net".

Definition connected : client := mkClient true true false false 0 0 0 false (Some device_jid) EmptyJID.

Definition failure (reason : string) : Node := mkNode "failure" [("reason", AString reason)] ANil.

Lemma deletion_expected_witness : Deleted connected = false /\
  handleConnectFailure None true (failure "401") connected =
    Some (mkClient true true true false 0 0 0 true None EmptyJID, [Emit (LoggedOut true 401)]) /\
  handleConnectFailure None true (failure "503") connected = Some (connected, []) /\
  isLoggedIn (fst (handleStreamError false None true (failure "401") connected)) = false.
Proof.
  split; [reflexivity|]. split; [vm_compute; reflexivity|]. split; [vm_compute; reflexivity|].
  exact (proj1 (proj2 (deletion_expected false None true (failure "401") connected eq_refl))).
Defined.

(** A failure for a CAT when no RefreshCAT is set ends the process: the handler
    runs in a goroutine that does not recover. *)
Lemma cat_failure_panics : handleConnectFailure None true (failure "413") connected = None.
Proof. reflexivity. Qed.

Lemma SetPassive_node : iq_node (SetPassive "1" true) =
  mkNode "iq" [("id", AString "1"); ("xmlns", AString "passive"); ("type", AString "set"); ("to", AJID ServerJID)] (ANodes [mkNode "passive" [] ANil]).
Proof. reflexivity. Qed.

End connectionevents.
