(* ===== verification/Send.v ===== *)
(** * send.go: sending messages

    [kinds]: what kind of message a message is, from the fields that are set.
    [phash]: the hash of a list of devices. [encrypting]: encrypting a message
    for every device of its recipients. [sending]: the stanzas of direct, group,
    peer and newsletter messages, and SendMessage, from the recipient's
    identifier to the server's answer. *)

From S2P Require Import Prelude GoStrings StateErr Jid Node Crypto Requests Sql PreKeys Sessions MsgSecret Messages.
From stdpp Require Import sorting.

#[local] Open Scope string_scope.
#[local] Open Scope list_scope.
#[local] Open Scope Z_scope.

Module kinds.

(** The fields of the generated types that sending a message looks at or sets.
    Pointers are options; what a FutureProofMessage wraps may be nil. *)
Record MessageKey := mkKey { FromMe : bool; KeyID : string; RemoteJID : string; Participant : option string }.

Inductive ProtocolType :=
  | REVOKE | EPHEMERAL_SETTING | MESSAGE_EDIT | APP_STATE_SYNC_KEY_REQUEST | PEER_DATA_OPERATION_REQUEST_MESSAGE
  | OtherProtocol (n : Z).

#[export] Instance ProtocolType_eq_dec : EqDecision ProtocolType.
Proof. solve_decision. Defined.

(** The fields that only have to be set or not, or whose value has no message in it. *)
Record content := mkContent {
  Conversation : bool;
  ExtendedTextMessage : option bool;         (* whether it has a title *)
  ReactionMessage : option string;           (* its text *)
  EncReactionMessage : bool; EncEventResponseMessage : bool;
  PollCreationMessage : bool; PollUpdateMessage : bool;
  ImageMessage : bool; StickerMessage : bool; DocumentMessage : bool;
  AudioMessage : option bool;                (* PTT *)
  VideoMessage : option bool;                (* GIF playback *)
  ContactMessage : bool; ContactsArrayMessage : bool;
  ListMessage : option string;               (* the name of its list type *)
  ListResponseMessage : bool; ButtonsMessage : bool; ButtonsResponseMessage : bool;
  TemplateMessage : bool; OrderMessage : bool; ProductMessage : bool; InteractiveResponseMessage : bool;
  KeepInChatMessage : option (bool * bool);  (* whether the key is from me; undo keep for all *)
  PinInChatMessage : bool
}.

Definition no_content : content :=
  mkContent false None None false false false false false false false None None false false None false false false false false false false None false.

Record ContextInfo := mkContext { MessageSecret : option bytes; BotMetadata : option string; BotMessageSecret : option bytes }.

Inductive Message := mkMessage {
  ViewOnceMessage : option (option Message);
  ViewOnceMessageV2 : option (option Message);
  ViewOnceMessageV2Extension : option (option Message);
  LottieStickerMessage : option (option Message);
  EphemeralMessage : option (option Message);
  DocumentWithCaptionMessage : option (option Message);
  EditedMessage : option (option Message);
  BotInvokeMessage : option (option Message);
  DeviceSentMessage : option (string * string * option Message);   (* destination, participant hash *)
  ProtocolMessage : option (ProtocolType * option MessageKey * option Message * bool);
      (* type, key, edited message, request for history on demand *)
  MessageContextInfo : option ContextInfo;
  fields : content
}.

Definition plain (c : content) : Message := mkMessage None None None None None None None None None None None c.

Definition with_context (i : option ContextInfo) (m : Message) : Message :=
  mkMessage (ViewOnceMessage m) (ViewOnceMessageV2 m) (ViewOnceMessageV2Extension m) (LottieStickerMessage m) (EphemeralMessage m)
    (DocumentWithCaptionMessage m) (EditedMessage m) (BotInvokeMessage m) (DeviceSentMessage m) (ProtocolMessage m) i (fields m).

(** The kind of a message that wraps no other. *)
Definition media_of (c : content) : string :=
  match ExtendedTextMessage c, AudioMessage c, VideoMessage c with
  | Some true, _, _ => "url"
  | _, audio, video =>
      if ImageMessage c then "image"
      else if StickerMessage c then "sticker"
      else if DocumentMessage c then "document"
      else match audio with
           | Some ptt => if ptt then "ptt" else "audio"
           | None =>
               match video with
               | Some gif => if gif then "gif" else "video"
               | None =>
                   if ContactMessage c then "vcard"
                   else if ContactsArrayMessage c then "contact_array"
                   else if bool_decide (is_Some (ListMessage c)) then "list"
                   else if ListResponseMessage c then "list_response"
                   else if ButtonsResponseMessage c then "buttons_response"
                   else if OrderMessage c then "order"
                   else if ProductMessage c then "product"
                   else if InteractiveResponseMessage c then "native_flow_response"
                   else ""
               end
           end
  end.

(** A function of what a wrapper that is set wraps, else the next case. A panic,
    [None], when that is nil. *)
Definition wrapped {A} (f : Message -> option A) (wrapper : option (option Message)) (otherwise : option A) : option A :=
  match wrapper with
  | Some (Some m) => f m
  | Some None => None
  | None => otherwise
  end.

Fixpoint getMediaTypeFromMessage (m : Message) : option string :=
  match m with
  | mkMessage v v2 v2e lottie eph doc _ _ _ _ _ c =>
      wrapped getMediaTypeFromMessage v (wrapped getMediaTypeFromMessage v2 (wrapped getMediaTypeFromMessage v2e
        (wrapped getMediaTypeFromMessage lottie (wrapped getMediaTypeFromMessage eph (wrapped getMediaTypeFromMessage doc
          (Some (media_of c)))))))
  end.

Definition type_of (c : content) : string :=
  if bool_decide (is_Some (ReactionMessage c)) || EncReactionMessage c then "reaction"
  else if PollCreationMessage c || PollUpdateMessage c then "poll"
  else if negb (String.eqb (media_of c) "") then "media"
  else "text".

Fixpoint getTypeFromMessage (m : Message) : option string :=
  match m with
  | mkMessage v v2 v2e lottie eph doc _ _ _ _ _ c =>
      wrapped getTypeFromMessage v (wrapped getTypeFromMessage v2 (wrapped getTypeFromMessage v2e
        (wrapped getTypeFromMessage lottie (wrapped getTypeFromMessage eph (wrapped getTypeFromMessage doc
          (Some (type_of c)))))))
  end.

Definition button_of (c : content) : string :=
  if ButtonsMessage c then "buttons"
  else if ButtonsResponseMessage c then "buttons_response"
  else if bool_decide (is_Some (ListMessage c)) then "list"
  else if ListResponseMessage c then "list_response"
  else if InteractiveResponseMessage c then "interactive_response"
  else "".

Fixpoint getButtonTypeFromMessage (m : Message) : option string :=
  match m with
  | mkMessage v v2 _ _ eph _ _ _ _ _ _ c =>
      wrapped getButtonTypeFromMessage v (wrapped getButtonTypeFromMessage v2 (wrapped getButtonTypeFromMessage eph (Some (button_of c))))
  end.

Definition button_attrs (c : content) : Attrs :=
  if TemplateMessage c then []
  else match ListMessage c with Some t => [("v", AString "2"); ("type", AString (to_lower t))] | None => [] end.

Fixpoint getButtonAttributes (m : Message) : option Attrs :=
  match m with
  | mkMessage v v2 _ _ eph _ _ _ _ _ _ c =>
      wrapped getButtonAttributes v (wrapped getButtonAttributes v2 (wrapped getButtonAttributes eph (Some (button_attrs c))))
  end.

(** types/message.go: EditAttribute. *)
Definition EditAttributeEmpty := "".
Definition EditAttributeMessageEdit := "1".
Definition EditAttributePinInChat := "2".
Definition EditAttributeAdminEdit := "3".
Definition EditAttributeSenderRevoke := "7".
Definition EditAttributeAdminRevoke := "8".

Definition edit_of (c : content) : string :=
  match ReactionMessage c, KeepInChatMessage c with
  | Some "", _ => EditAttributeSenderRevoke
  | _, Some (true, true) => EditAttributeSenderRevoke
  | _, _ => if PinInChatMessage c then EditAttributePinInChat else EditAttributeEmpty
  end.

Fixpoint getEditAttribute (m : Message) : string :=
  match m with
  | mkMessage _ _ _ _ _ _ edited _ _ protocol _ c =>
      match edited, protocol with
      | Some (Some m), _ => getEditAttribute m
      | _, Some (t, Some key, new, _) =>
          match t with
          | REVOKE => if FromMe key then EditAttributeSenderRevoke else EditAttributeAdminRevoke
          | MESSAGE_EDIT => match new with Some _ => EditAttributeMessageEdit | None => EditAttributeEmpty end
          | _ => EditAttributeEmpty
          end
      | _, _ => edit_of c
      end
  end.

(** reportingtoken.go: shouldIncludeReportingToken. *)
Definition shouldIncludeReportingToken (SendReportingTokens : bool) (m : Message) : bool :=
  if negb SendReportingTokens then false
  else negb (bool_decide (is_Some (ReactionMessage (fields m)))) && negb (EncReactionMessage (fields m))
       && negb (EncEventResponseMessage (fields m)) && negb (PollUpdateMessage (fields m)).

End kinds.

Module phash.

Import jid.

Section phash.
Context {C : Crypto}.

Definition participantListHashV2 (participants : list JID) : string :=
  let participantsStrings := merge_sort String.le (map ADString participants) in
  let hash := sha256 (str_bytes (String.concat "" participantsStrings)) in
  "2:" +:+ RawStdEncoding (take 6 hash).

Lemma sort_strings (l k : list string) : Permutation l k -> merge_sort String.le l = merge_sort String.le k.
Proof.
  intros H. apply (Sorted_unique String.le); [apply Sorted_merge_sort; apply _..|]. by rewrite !merge_sort_Permutation.
Qed.

(** The hash of a list of devices does not depend on the order in which the
    device lists came. *)
Theorem phash_order (l k : list JID) : Permutation l k -> participantListHashV2 l = participantListHashV2 k.
Proof. intros H. unfold participantListHashV2. rewrite (sort_strings _ (map ADString k)); [done|by apply Permutation_map]. Qed.

End phash.

End phash.

Module building.

Import jid kinds.

Section building.
Context (ownID ownLID : JID).

Definition BuildMessageKey (chat sender : JID) (id : string) : MessageKey :=
  if negb (IsEmpty sender) && negb (String.eqb (User sender) (User ownID)) && negb (String.eqb (User sender) (User ownLID)) then
    mkKey false id (jid.String_ chat)
      (if negb (String.eqb (Server chat) DefaultUserServer) && negb (String.eqb (Server chat) HiddenUserServer)
          && negb (String.eqb (Server chat) MessengerServer)
       then Some (jid.String_ (ToNonAD sender)) else None)
  else mkKey true id (jid.String_ chat) None.

Definition protocol_message (t : ProtocolType) (key : MessageKey) (edited : option Message) : Message :=
  mkMessage None None None None None None None None None (Some (t, Some key, edited, false)) None no_content.

Definition BuildRevoke (chat sender : JID) (id : string) : Message := protocol_message REVOKE (BuildMessageKey chat sender id) None.

Definition BuildEdit (chat : JID) (id : string) (newContent : Message) : Message :=
  mkMessage None None None None None None
    (Some (Some (protocol_message MESSAGE_EDIT (mkKey true id (jid.String_ chat) None) (Some newContent)))) None None None None no_content.

(** The key as the functions of msgsecret.go read it. *)
Definition received_key (k : MessageKey) : msgsecret.MessageKey :=
  msgsecret.mkKey (RemoteJID k) (FromMe k) (KeyID k) (default "" (Participant k)).

(** The key built for a message is read by whoever receives it as a message of
    the same sender: the sender of the key's own message when the message is the
    account's, the chat in a direct chat, the participant in a group. *)
Theorem BuildMessageKey_read chat sender id msg :
  jid_ok chat -> expressible chat = true -> jid_ok (ToNonAD sender) -> expressible (ToNonAD sender) = true ->
  IsEmpty sender = false -> msgsecret.is_user_server (Server sender) = true -> Server chat = Server (msgsecret.Chat msg) ->
  Server chat <> MessengerServer ->
  msgsecret.getOrigSenderFromKey msg (received_key (BuildMessageKey chat sender id)) =
    Ok (if String.eqb (User sender) (User ownID) || String.eqb (User sender) (User ownLID) then msgsecret.Sender msg
        else if msgsecret.is_user_server (Server chat) then chat else ToNonAD sender).
Proof.
  intros Hc Hec Hs Hes He Hu Hchat Hm. unfold BuildMessageKey. rewrite He. cbn [negb andb].
  destruct (String.eqb (User sender) (User ownID)) eqn:E1; [done|]. destruct (String.eqb (User sender) (User ownLID)) eqn:E2; [done|].
  cbn [negb andb orb]. unfold msgsecret.getOrigSenderFromKey, received_key. cbn [msgsecret.FromMe FromMe msgsecret.RemoteJID RemoteJID msgsecret.Participant Participant].
  rewrite <- Hchat. unfold msgsecret.is_user_server in *. destruct (String.eqb (Server chat) DefaultUserServer); cbn [negb andb orb].
  - by rewrite (parse_expressible chat Hc Hec).
  - destruct (String.eqb (Server chat) HiddenUserServer); cbn [negb andb].
    + by rewrite (parse_expressible chat Hc Hec).
    + destruct (String.eqb_spec (Server chat) MessengerServer); [done|]. cbn [negb]. change (default "" (Some (jid.String_ (ToNonAD sender)))) with (jid.String_ (ToNonAD sender)).
      rewrite (parse_expressible (ToNonAD sender) Hs Hes). change (Server (ToNonAD sender)) with (Server sender). by rewrite Hu.
Qed.

End building.

Definition group_chat : JID := mkJID "120363000000000000" 0 0 0 GroupServer.
Definition member : JID := mkJID "15550000001" 0 4 0 DefaultUserServer.

Lemma BuildMessageKey_read_witness :
  msgsecret.getOrigSenderFromKey (msgsecret.mkInfo group_chat (mkJID "15550000009" 0 0 0 DefaultUserServer) true true "M2")
    (received_key (BuildMessageKey (mkJID "15559999999" 0 1 0 DefaultUserServer) (mkJID "1000" 0 1 0 HiddenUserServer) group_chat member "M1")) =
  Ok (mkJID "15550000001" 0 0 0 DefaultUserServer).
Proof.
  refine (BuildMessageKey_read (mkJID "15559999999" 0 1 0 DefaultUserServer) (mkJID "1000" 0 1 0 HiddenUserServer) group_chat member "M1"
    (msgsecret.mkInfo group_chat (mkJID "15550000009" 0 0 0 DefaultUserServer) true true "M2") _ eq_refl _ eq_refl eq_refl eq_refl eq_refl _).
  - vm_compute; intuition congruence.
  - vm_compute; intuition congruence.
  - discriminate.
Defined.

End building.

Module encrypting.

Import jid attrs prekeys sessions padding.

(** What encrypting for devices uses: the LID map, the session store with its
    cache, the server's prekeys, libsignal, and a random byte, over their state. *)
Section encrypting.
Context {S : Type}.

Inductive signal_error := ErrUntrustedIdentity | ErrNoSession | ErrOther | ErrCancelled.

Notation op A := (stm S signal_error A).

Record services := mkServices {
  GetManyLIDsForPNs : list JID -> op (gmap JID JID);
  migrateSessionStore : JID -> JID -> S -> S;               (* its error is only logged *)
  WithCachedSessions : list string -> op (gmap string bool);
  fetchPreKeysNoError : list JID -> S -> S * gmap JID Bundle;
  ProcessBundle : string -> Bundle -> op unit;
  clearUntrustedIdentity : string -> op unit;
  ContainsSession : string -> op bool;
  Encrypt : string -> bytes -> op (bool * bytes);           (* whether it is a prekey message *)
  PutCachedSessions : op unit;
  random_byte : S -> byte;
  ctx_done : S -> bool
}.

Context (V : services) (AutoTrustIdentity MessengerConfig : bool) (ownJID ownLID : JID).

Definition modify (f : S -> S) : op unit := fun s => (f s, Ok tt).

Definition process_bundle (address : string) (bundle : Bundle) : op unit := fun s =>
  match ProcessBundle V address bundle s with
  | (s, Err ErrUntrustedIdentity) =>
      if AutoTrustIdentity then (clearUntrustedIdentity V address;; ProcessBundle V address bundle) s else (s, Err ErrUntrustedIdentity)
  | r => r
  end.

Definition copyAttrs (from to : Attrs) : Attrs := foldl (fun acc a => attr_set (fst a) (snd a) acc) to from.

Definition is_pkmsg (a : Attrs) : bool := match attr_get "type" a with Some (AString t) => String.eqb t "pkmsg" | _ => false end.

Definition encryptMessageForDevice (plaintext : bytes) (to : JID) (bundle : option Bundle) (extraAttrs : Attrs)
    (existingSessions : gmap string bool) : op (Node * bool) :=
  let address := address_text to in
  (match bundle with
   | Some bundle => process_bundle address bundle
   | None =>
       sessionExists ← (match existingSessions !! address with Some b => mret b | None => ContainsSession V address end);
       if (sessionExists : bool) then mret tt else throw ErrNoSession
   end);;
  s ← get_state;
  '(prekey, ciphertext) ← Encrypt V address (padMessage (random_byte V s) plaintext);
  let encAttrs := copyAttrs extraAttrs [("v", AString "2"); ("type", AString (if (prekey : bool) then "pkmsg" else "msg"))] in
  mret (mkNode "enc" encAttrs (ABytes ciphertext), is_pkmsg encAttrs && negb MessengerConfig).

Definition encryptMessageForDeviceAndWrap (plaintext : bytes) (wireIdentity encryptionIdentity : JID) (bundle : option Bundle)
    (encAttrs : Attrs) (existingSessions : gmap string bool) : op (Node * bool) :=
  '(node, includeDeviceIdentity) ← encryptMessageForDevice plaintext encryptionIdentity bundle encAttrs existingSessions;
  mret (mkNode "to" [("jid", AJID wireIdentity)] (ANodes [node]), includeDeviceIdentity).

Definition is_own (j : JID) : bool := bool_decide (j = ownJID) || bool_decide (j = ownLID).

(** The identity each device is encrypted for; devices under a number with a known
    LID have their sessions moved to the LID. *)
Definition encryption_identity (lidMappings : gmap JID JID) (j : JID) : JID :=
  if String.eqb (Server j) DefaultUserServer then
    match lidMappings !! j with Some lid => if IsEmpty lid then j else lid | None => j end
  else j.

Definition migrate_device (lidMappings : gmap JID JID) (j : JID) (s : S) : S :=
  if String.eqb (Server j) DefaultUserServer then
    match lidMappings !! j with Some lid => if IsEmpty lid then s else migrateSessionStore V j lid s | None => s end
  else s.

(** The text for a device: the wrapped copy for the account's own devices, if
    there is one. *)
Definition plaintext_for (msgPlaintext : bytes) (dsmPlaintext : option bytes) (j : JID) : bytes :=
  if String.eqb (User j) (User ownJID) || String.eqb (User j) (User ownLID) then default msgPlaintext dsmPlaintext else msgPlaintext.

(** The second loop. *)
Fixpoint encrypt_each (msgPlaintext : bytes) (dsmPlaintext : option bytes) (identity : JID -> JID) (bundles : gmap JID Bundle)
    (encAttrs : Attrs) (existingSessions : gmap string bool) (devices : list JID) : op (list Node * bool) :=
  match devices with
  | [] => mret ([], false)
  | j :: devices =>
      let rest := encrypt_each msgPlaintext dsmPlaintext identity bundles encAttrs existingSessions devices in
      if is_own j then rest
      else fun s =>
        match encryptMessageForDeviceAndWrap (plaintext_for msgPlaintext dsmPlaintext j) j (identity j) (bundles !! j) encAttrs existingSessions s with
        | (s, Ok (node, isPreKey)) => ('(nodes, includeIdentity) ← rest; mret (node :: nodes, isPreKey || includeIdentity)) s
        | (s, Err e) => if ctx_done V s then (s, Err e) else rest s
        | (s, Panic) => (s, Panic)
        | (s, NoFuel) => (s, NoFuel)
        end
  end.

Definition encryptMessageForDevices (allDevices : list JID) (msgPlaintext : bytes) (dsmPlaintext : option bytes) (encAttrs : Attrs) :
    op (list Node * bool) :=
  lidMappings ← GetManyLIDsForPNs V (filter (fun j => Server j = DefaultUserServer) allDevices);
  let others := filter (fun j => is_own j = false) allDevices in
  let identity := encryption_identity lidMappings in
  modify (fun s => foldl (fun s j => migrate_device lidMappings j s) s others);;
  let sessionAddressToJID : gmap string JID := foldl (fun m j => <[address_text (identity j) := j]> m) ∅ others in
  existingSessions ← WithCachedSessions V (map (fun j => address_text (identity j)) others);
  let retryDevices := omap (fun x => if snd x : bool then None else Some (default EmptyJID (sessionAddressToJID !! fst x))) (map_to_list existingSessions) in
  bundles ← (fun s => let '(s, b) := fetchPreKeysNoError V retryDevices s in (s, Ok b));
  r ← encrypt_each msgPlaintext dsmPlaintext identity bundles encAttrs existingSessions allDevices;
  PutCachedSessions V;;
  mret r.

(** ** What the devices read *)

(** What a device reads from a ciphertext sent to its address. *)
Context (opens : string -> bytes -> option bytes).

Definition reads (identity : JID -> JID) (text : bytes) (j : JID) (node : Node) : Prop :=
  exists attrs ct pt, node = mkNode "to" [("jid", AJID j)] (ANodes [mkNode "enc" attrs (ABytes ct)]) /\
    opens (address_text (identity j)) ct = Some pt /\ unpadMessage pt 2 = Ok text.

Definition prekey_node (n : Node) : bool :=
  match node_content n with ANodes [enc] => is_pkmsg (node_attrs enc) | _ => false end.

(** Which of the devices get a node: all that are not the sender's own and whose
    encryption, [attempt], did not fail, in their order. *)
Inductive deliveries (identity : JID -> JID) (text : JID -> bytes) (attempt : JID -> op (Node * bool)) : S -> list JID -> list Node -> S -> Prop :=
  | deliver_nil s : deliveries identity text attempt s [] [] s
  | deliver_own j js ns s s' : j = ownJID \/ j = ownLID ->
      deliveries identity text attempt s js ns s' -> deliveries identity text attempt s (j :: js) ns s'
  | deliver_sent j js n i ns s s1 s' : j <> ownJID -> j <> ownLID -> attempt j s = (s1, Ok (n, i)) -> reads identity (text j) j n ->
      deliveries identity text attempt s1 js ns s' -> deliveries identity text attempt s (j :: js) (n :: ns) s'
  | deliver_failed j js e ns s s1 s' : j <> ownJID -> j <> ownLID -> attempt j s = (s1, Err e) -> ctx_done V s1 = false ->
      deliveries identity text attempt s1 js ns s' -> deliveries identity text attempt s (j :: js) ns s'.

(** What a device is to read. *)
Definition text_of (msg : bytes) (dsm : option bytes) (j : JID) : bytes :=
  match dsm with
  | Some copy => if bool_decide (User j = User ownJID \/ User j = User ownLID) then copy else msg
  | None => msg
  end.

Lemma plaintext_text msg dsm j : plaintext_for msg dsm j = text_of msg dsm j.
Proof.
  unfold plaintext_for, text_of. destruct dsm as [copy|]; [|by destruct (_ || _)].
  destruct (String.eqb_spec (User j) (User ownJID)) as [E|E]; cbn [orb]; [by rewrite bool_decide_eq_true_2 by auto|].
  destruct (String.eqb_spec (User j) (User ownLID)) as [E2|E2]; [by rewrite bool_decide_eq_true_2 by auto|].
  rewrite bool_decide_eq_false_2; [done|]. by intros [].
Qed.

Lemma is_own_spec j : if is_own j then j = ownJID \/ j = ownLID else j <> ownJID /\ j <> ownLID.
Proof. unfold is_own. by repeat case_bool_decide; cbn; auto. Qed.

Hypothesis Encrypt_opens : forall address p s s' prekey ct,
  Encrypt V address p s = (s', Ok (prekey, ct)) -> opens address ct = Some p.

Lemma encrypt_reads text j identity bundle a existing s s' node inc :
  encryptMessageForDeviceAndWrap text j (identity j) bundle a existing s = (s', Ok (node, inc)) ->
  reads identity text j node /\ inc = prekey_node node && negb MessengerConfig.
Proof.
  unfold encryptMessageForDeviceAndWrap, encryptMessageForDevice. intros H.
  apply stm_bind_inv in H as (s1 & [n i] & E & H). injection H as _ <- <-.
  apply stm_bind_inv in E as (s2 & [] & _ & E). apply stm_bind_inv in E as (s3 & s4 & E4 & E). injection E4 as <- <-.
  apply stm_bind_inv in E as (s5 & [prekey ct] & Ec & E). injection E as _ <- <-. split; [|done].
  eexists _, ct, _. split; [reflexivity|]. split; [by eapply Encrypt_opens|]. by rewrite unpad_padMessage.
Qed.

Lemma encrypt_each_delivers msg dsm identity bundles a existing devices s s' nodes inc :
  encrypt_each msg dsm identity bundles a existing devices s = (s', Ok (nodes, inc)) ->
  deliveries identity (text_of msg dsm)
    (fun j => encryptMessageForDeviceAndWrap (text_of msg dsm j) j (identity j) (bundles !! j) a existing) s devices nodes s' /\
  inc = existsb prekey_node nodes && negb MessengerConfig.
Proof.
  revert s s' nodes inc. induction devices as [|j devices IH]; intros s s' nodes inc; cbn [encrypt_each].
  - intros [= -> <- <-]. split; [constructor|done].
  - pose proof (is_own_spec j) as Ho. destruct (is_own j); [intros H%IH; by destruct H; split; [by constructor|]|]. destruct Ho.
    rewrite plaintext_text. destruct (encryptMessageForDeviceAndWrap _ _ _ _ _ _ s) as [s1 [[node pk]|e| |]] eqn:Ej; [| |done|done].
    + intros H'. apply stm_bind_inv in H' as (s2 & [ns i] & E & H'). injection H' as <- <- <-. apply IH in E as [Hd ->].
      pose proof (encrypt_reads _ _ _ _ _ _ _ _ _ _ Ej) as [Hr ->]. split; [by eapply deliver_sent|]. cbn [existsb].
      destruct (prekey_node node), (existsb prekey_node ns), MessengerConfig; done.
    + destruct (ctx_done V s1) eqn:Ec; [done|]. intros H'%IH. destruct H' as [Hd ->]. split; [|done]. by eapply deliver_failed.
Qed.

(** (C8) A message encrypted for a list of devices reaches them in their order: the
    sender's own device gets nothing; every other device, unless encrypting for it
    failed, gets one node, which it reads with the key of the LID the store has for
    its number, if any; what it reads is the message, or the wrapped copy when the
    device is the account's own. The identity of the device goes along exactly when
    one of the nodes sets up a session, and the sessions are put back. *)
Theorem encrypt_delivers devices msg dsm a s s' nodes inc :
  encryptMessageForDevices devices msg dsm a s = (s', Ok (nodes, inc)) ->
  exists (lids : gmap JID JID) (bundles : gmap JID Bundle) (existing : gmap string bool) s1 s2 s3,
    GetManyLIDsForPNs V (filter (fun j => Server j = DefaultUserServer) devices) s = (s1, Ok lids) /\
    deliveries (encryption_identity lids) (text_of msg dsm)
      (fun j => encryptMessageForDeviceAndWrap (text_of msg dsm j) j (encryption_identity lids j) (bundles !! j) a existing) s2 devices nodes s3 /\
    inc = existsb prekey_node nodes && negb MessengerConfig /\
    PutCachedSessions V s3 = (s', Ok tt).
Proof.
  unfold encryptMessageForDevices. intros H. apply stm_bind_inv in H as (s1 & lids & E1 & H). apply stm_bind_inv in H as (s2 & [] & _ & H).
  apply stm_bind_inv in H as (s3 & existing & _ & H). apply stm_bind_inv in H as (s4 & bundles & _ & H).
  apply stm_bind_inv in H as (s5 & r & E & H). apply stm_bind_inv in H as (s6 & [] & Ep & H).
  injection H as <- ->. apply encrypt_each_delivers in E as [Hd Hi]. by exists lids, bundles, existing, s1, s4, s5.
Qed.

End encrypting.

(** ** A run over the session store, with a cipher that prefixes the address *)

Section run.
Import sql sessioncache.

Abbreviation store := (cached_store (R := bytes)).

Definition from_store {A} (m : stm store cache_error A) : stm store signal_error A := fun s => let '(s, o) := m s in (s, map_err (fun _ => ErrOther) o).

Definition prefix_cipher (address : string) (p : bytes) : stm store signal_error (bool * bytes) :=
  record ← from_store (LoadSession (fun b => Some b) [] address);
  session ← from_store (record_at record);
  from_store (change_record record (cons x01));;
  from_store (StoreSession (fun b => b) address record);;
  mret (bool_decide (session = []), str_bytes address ++ p).

Definition prefix_opens (address : string) (ct : bytes) : option bytes :=
  if bool_decide (take (length (str_bytes address)) ct = str_bytes address) then Some (drop (length (str_bytes address)) ct) else None.

Definition store_services (lids : gmap JID JID) (bundles : gmap JID Bundle) : services (S := store) :=
  mkServices (fun _ s => (s, Ok lids))
    (fun pn lid s => fst (in_store (MigratePNToLID pn lid) s))
    (fun l => from_store (sessioncache.WithCachedSessions (fun b => Some b) [] l))
    (fun l s => (s, filter (fun b => fst b ∈ l) bundles))
    (fun address b => from_store (record ← new_record []; StoreSession (fun b => b) address record))
    (fun address => from_store (in_store (sessions.clearUntrustedIdentity address)))
    (fun address => from_store (in_store (HasSession address)))
    prefix_cipher
    (from_store (sessioncache.PutCachedSessions (fun b => b)))
    (fun _ => x03) (fun _ => false).

Lemma prefix_opens_cipher lids bundles address p s s' prekey ct :
  Encrypt (store_services lids bundles) address p s = (s', Ok (prekey, ct)) -> prefix_opens address ct = Some p.
Proof.
  intros H. apply stm_bind_inv in H as (s1 & record & _ & H). apply stm_bind_inv in H as (s2 & session & _ & H).
  apply stm_bind_inv in H as (s3 & [] & _ & H). apply stm_bind_inv in H as (s4 & [] & _ & H). injection H as _ _ <-.
  unfold prefix_opens. by rewrite take_app_length, drop_app_length, bool_decide_eq_true_2.
Qed.

Definition me : JID := mkJID "1000" 0 1 0 HiddenUserServer.
Definition my_other : JID := mkJID "1000" 0 3 0 HiddenUserServer.
Definition friend : JID := mkJID "15550000001" 0 0 0 DefaultUserServer.
Definition friend_lid : JID := mkJID "2000" 0 0 0 HiddenUserServer.
Definition friend_phone : JID := mkJID "2000" 0 5 0 HiddenUserServer.
Definition stranger : JID := mkJID "3000" 0 0 0 HiddenUserServer.
Definition a_bundle : Bundle := mkBundle 1 5 None 1 [] [] [].

(** A session with [friend] under the number and with [my_other]; a bundle for
    [friend_phone]; nothing for [stranger]. *)
Definition some_sessions : store :=
  mkCached (mkDb (mkTables ∅ {[address_text friend := [x07]; address_text my_other := [x08]]} ∅) ∅ []) [] None.

Definition sample := encryptMessageForDevices (store_services {[friend := friend_lid]} {[friend_phone := a_bundle]}) true false
  (mkJID "15559999999" 0 1 0 DefaultUserServer) me [me; friend; friend_phone; my_other; stranger] [x0a] (Some [x0b]) [] some_sessions.
Definition sample_nodes : list Node := match snd sample with Ok (n, _) => n | _ => [] end.

Lemma encrypt_delivers_witness : length sample_nodes = 3%nat /\
  exists attempt s2 s3, deliveries (store_services {[friend := friend_lid]} {[friend_phone := a_bundle]}) (mkJID "15559999999" 0 1 0 DefaultUserServer) me prefix_opens
    (encryption_identity {[friend := friend_lid]}) (text_of (mkJID "15559999999" 0 1 0 DefaultUserServer) me [x0a] (Some [x0b])) attempt
    s2 [me; friend; friend_phone; my_other; stranger] sample_nodes s3.
Proof.
  split; [vm_compute; reflexivity|].
  assert (sample = (fst sample, Ok (sample_nodes, true))) as E by (vm_compute; reflexivity).
  destruct (encrypt_delivers _ true false _ me prefix_opens (prefix_opens_cipher _ _) _ _ _ _ _ _ _ _ E) as (lids & bundles & existing & s1 & s2 & s3 & El & H & _).
  injection El as _ <-. eexists _, s2, s3. exact H.
Defined.

End run.

End encrypting.

Module sending.

Import jid attrs requests kinds phash encrypting.

Inductive send_error :=
  | ErrTooManyExtras | ErrRecipientADJID | ErrNotLoggedIn | ErrInvalidInlineBotID | ErrUnknownServer
  | ErrMarshal | ErrEncrypt (e : signal_error) | ErrService | ErrNoLID | ErrUnsupportedMessage | ErrPeerUnsupported
  | ErrMessageTimedOut | ErrContext | ErrRetry (e : iq_error) | ErrServerReturnedError (code : Z).

Record MsgMetaInfo := mkMeta { DeprecatedLIDSession : option bool; ThreadMessageID : string; ThreadMessageSenderJID : JID }.

(** The zero value stands for no extra parameters. *)
Record SendRequestExtra := mkExtra {
  x_ID : string; InlineBotJID : JID; Peer : bool; Timeout : Z; MediaHandle : string;
  Meta : option MsgMetaInfo; AdditionalNodes : option (list Node)
}.

Definition no_extra : SendRequestExtra := mkExtra "" EmptyJID false 0 "" None None.

Record SendResponse := mkResponse { Timestamp : gotime; r_ID : string; ServerID : Z; r_Sender : JID }.

Record nodeExtraParams := mkParams {
  botNode : option Node; metaNode : option Node; additionalNodes : option (list Node);
  addressingMode : string; peerRecipientPN : JID
}.

Section sending.
Context {C : Crypto} {W : Type}.

(** The client: the other components' state, and the requests that wait for their
    answer. *)
Record client := mkClient { world : W; waiters : gset string }.

Notation sm A := (stm client send_error A).
Notation op A := (stm W send_error A).

Record services := mkServices {
  signal : encrypting.services (S := W);
  Marshal : Message -> option bytes;
  GetUserDevices : list JID -> op (list JID);
  getCachedGroupData : JID -> op (option (string * bool * list JID));  (* addressing mode, announcement group, members *)
  getBroadcastListParticipants : JID -> op (list JID);
  GetPNForLID : JID -> op JID;
  GetLIDForPN : JID -> op JID;
  GetUserInfo_LID : JID -> op JID;
  GenerateMessageID : W -> W * string;
  random_secret : W -> W * bytes;
  applyBotMessageHKDF : bytes -> bytes;
  addRecentMessage : JID -> string -> Message -> op unit;
  PutMessageSecret : JID -> JID -> string -> bytes -> op unit;
  create_sender_key : JID -> op bytes;                 (* the encoded message with the sender key *)
  group_encrypt : JID -> bytes -> op bytes;
  device_identity : bytes;
  reporting_token : bytes -> Message -> JID -> JID -> string -> Node;
  ensureTCToken : JID -> op bytes;
  generateCsToken : JID -> W -> W * bytes;
  issue_token : JID -> W -> W;                         (* after the message has been sent *)
  sendNode : Node -> op bytes;                         (* the frame's payload *)
  await : Z -> W -> W * wait_result;
  (* the retry of a frame: whether the client reconnects and has a socket, whether
     the frame is sent, and its answer, [None] when the context is done *)
  retry_events : bytes -> W -> W * (bool * bool * bool * option Node);
  forget_group : JID -> W -> W;                        (* delete(cli.groupCache, to) *)
  forget_devices : JID -> W -> W                       (* delete(cli.userDevicesCache, to) *)
}.

Context (V : services) (AutoTrustIdentity MessengerConfig SendReportingTokens : bool) (ownID ownLID : JID).

(** An operation of another component. *)
Definition ask {A} (m : op A) : sm A := fun s => let '(w, o) := m (world s) in (mkClient w (waiters s), o).
Definition run_ {A} (f : W -> W * A) : sm A := fun s => let '(w, a) := f (world s) in (mkClient w (waiters s), Ok a).
Definition change (f : W -> W) : sm unit := fun s => (mkClient (f (world s)) (waiters s), Ok tt).

(** Its error is logged and the zero value used. *)
Definition ask_or {A} (zero : A) (m : op A) : sm A := fun s =>
  match ask m s with
  | (s, Err _) => (s, Ok zero)
  | r => r
  end.

Definition or_panic {A} (o : option A) : sm A := match o with Some a => mret a | None => panic end.
Definition or_error {A} (e : send_error) (o : option A) : sm A := match o with Some a => mret a | None => throw e end.

Definition encrypt_for (devices : list JID) (plaintext : bytes) (dsm : option bytes) (encAttrs : Attrs) : sm (list Node * bool) :=
  ask (wrap ErrEncrypt (encryptMessageForDevices (signal V) AutoTrustIdentity MessengerConfig ownID ownLID devices plaintext dsm encAttrs)).

(** ** Stanzas *)

Definition device_sent (to : JID) (m : Message) : Message :=
  mkMessage None None None None None None None None (Some (jid.String_ to, "", Some m)) None (MessageContextInfo m) no_content.

(** A nil message has no text; except for groups and newsletters its context is
    read. *)
Definition marshalMessage (to : JID) (message : option Message) : sm (bytes * option bytes) :=
  match message with
  | None => if String.eqb (Server to) GroupServer || String.eqb (Server to) NewsletterServer then mret ([], None) else panic
  | Some m =>
      plaintext ← or_error ErrMarshal (Marshal V m);
      if String.eqb (Server to) GroupServer || String.eqb (Server to) NewsletterServer then mret (plaintext, None)
      else dsm ← or_error ErrMarshal (Marshal V (device_sent to m)); mret (plaintext, Some dsm)
  end.

Definition makeDeviceIdentityNode : Node := mkNode "device-identity" [] (ABytes (device_identity V)).

Definition some_node (o : option Node) : list Node := match o with Some n => [n] | None => [] end.

Definition getMessageContent (baseNode : Node) (m : Message) (msgType : string) (includeIdentity : bool) (x : nodeExtraParams) : option (list Node) :=
  let content := [baseNode] ++ (if includeIdentity then [makeDeviceIdentityNode] else [])
    ++ (if String.eqb msgType "poll" then
          [mkNode "meta" [("polltype", AString (if PollUpdateMessage (fields m) then "vote" else "creation"))] ANil] else [])
    ++ some_node (botNode x) ++ some_node (metaNode x) ++ default [] (additionalNodes x) in
  buttonType ← getButtonTypeFromMessage m;
  if String.eqb buttonType "" then Some content
  else a ← getButtonAttributes m; Some (content ++ [mkNode "biz" [] (ANodes [mkNode buttonType a ANil])]).

Definition message_attrs (to : JID) (id msgType edit : string) (x : nodeExtraParams) : Attrs :=
  [("id", AString id); ("type", AString msgType); ("to", AJID to)]
  ++ (if IsEmpty (peerRecipientPN x) then [] else [("peer_recipient_pn", AJID (peerRecipientPN x))])
  ++ (if String.eqb (addressingMode x) "" then [] else [("addressing_mode", AString (addressingMode x))])
  ++ (if String.eqb edit "" then [] else [("edit", AString edit)]).

(** events.DecryptFailHide is "hide". *)
Definition enc_attrs (mediaType msgType edit : string) (direct : bool) (m : Message) : Attrs :=
  (if direct && negb (String.eqb mediaType "") then [("mediatype", AString mediaType)] else [])
  ++ (if negb (String.eqb edit "") || String.eqb msgType "reaction" || PollUpdateMessage (fields m) then [("decrypt-fail", AString "hide")] else []).

Definition hosted (j : JID) : bool := String.eqb (Server j) HostedServer || String.eqb (Server j) HostedLIDServer.

Definition prepareMessageNode (to : JID) (id : string) (m : Message) (participants : list JID) (plaintext : bytes) (dsm : option bytes)
    (x : nodeExtraParams) : sm (Attrs * list Node * list JID) :=
  allDevices ← ask (GetUserDevices V participants);
  let allDevices := if String.eqb (Server to) GroupServer then filter (fun j => hosted j = false) allDevices else allDevices in
  msgType ← or_panic (getTypeFromMessage m);
  mediaType ← or_panic (getMediaTypeFromMessage m);
  let edit := getEditAttribute m in
  '(participantNodes, includeIdentity) ← encrypt_for allDevices plaintext dsm (enc_attrs mediaType msgType edit (bool_decide (is_Some dsm)) m);
  content ← or_panic (getMessageContent (mkNode "participants" [] (ANodes participantNodes)) m msgType includeIdentity x);
  mret (message_attrs to id msgType edit x, content, allDevices).

Definition secret_of (m : Message) : option bytes := i ← MessageContextInfo m; MessageSecret i.

Definition reporting (plaintext : bytes) (m : Message) (sender to : JID) (id : string) : list Node :=
  if shouldIncludeReportingToken SendReportingTokens m && bool_decide (is_Some (secret_of m)) then [reporting_token V plaintext m sender to id] else [].

(** A direct message: the sender's other devices are recipients too. *)
Definition sendDM (own to : JID) (id : string) (m : Message) (x : nodeExtraParams) : sm (string * bytes) :=
  '(plaintext, dsm) ← marshalMessage to (Some m);
  '(a, content, allDevices) ← prepareMessageNode to id m [to; ToNonAD own] plaintext dsm x;
  let hash := participantListHashV2 allDevices in
  let content := content ++ reporting plaintext m own to id in
  tcToken ← ask_or [] (ensureTCToken V to);
  content ← (match tcToken with
             | [] =>
                 csToken ← run_ (generateCsToken V to);
                 mret (match csToken with [] => content | _ => content ++ [mkNode "cstoken" [] (ABytes csToken)] end)
             | _ => mret (content ++ [mkNode "tctoken" [] (ABytes tcToken)])
             end);
  data ← ask (sendNode V (mkNode "message" a (ANodes content)));
  change (issue_token V to);;
  mret (hash, data).

Definition sendGroup (own to : JID) (participants : list JID) (id : string) (m : Message) (x : nodeExtraParams) : sm (string * bytes) :=
  '(plaintext, _) ← marshalMessage to (Some m);
  skdPlaintext ← ask (create_sender_key V to);
  s ← get_state;
  ciphertext ← ask (group_encrypt V to (padding.padMessage (random_byte (signal V) (world s)) plaintext));
  '(a, content, allDevices) ← prepareMessageNode to id m participants skdPlaintext None x;
  let hash := participantListHashV2 allDevices in
  mediaType ← or_panic (getMediaTypeFromMessage m);
  let skMsg := mkNode "enc" ([("v", AString "2"); ("type", AString "skmsg")]
    ++ (if String.eqb mediaType "" then [] else [("mediatype", AString mediaType)])) (ABytes ciphertext) in
  data ← ask (sendNode V (mkNode "message" (a ++ [("phash", AString hash)]) (ANodes (content ++ [skMsg] ++ reporting plaintext m own to id))));
  mret (hash, data).

Definition protocol_type (m : Message) : ProtocolType := match ProtocolMessage m with Some (t, _, _, _) => t | None => REVOKE end.
Definition on_demand (m : Message) : bool := match ProtocolMessage m with Some (_, _, _, b) => b | None => false end.

Definition peer_attrs (to : JID) (id : string) (m : Message) : Attrs :=
  [("id", AString id); ("type", AString "text"); ("category", AString "peer"); ("to", AJID to)]
  ++ (if decide (protocol_type m = APP_STATE_SYNC_KEY_REQUEST) then [("push_priority", AString "high")]
      else if on_demand m then [("push_priority", AString "high_force"); ("privacy_sensitive", AString "1")] else []).

Definition preparePeerMessageNode (to : JID) (id : string) (m : Message) : sm Node :=
  plaintext ← or_error ErrMarshal (Marshal V m);
  encryptionIdentity ← (if String.eqb (Server to) DefaultUserServer then ask (GetLIDForPN V to) else mret to);
  '(encrypted, isPreKey) ← ask (wrap ErrEncrypt (encryptMessageForDevice (signal V) AutoTrustIdentity MessengerConfig plaintext encryptionIdentity None [] ∅));
  mret (mkNode "message" (peer_attrs to id m)
    (ANodes ([mkNode "meta" [("appdata", AString "default")] ANil; encrypted]
             ++ (if isPreKey && negb MessengerConfig then [makeDeviceIdentityNode] else [])))).

Definition sendPeerMessage (to : JID) (id : string) (m : Message) : sm bytes :=
  node ← preparePeerMessageNode to id m;
  ask (sendNode V node).

(** The edit attribute and the message itself, [None] when there is none to send. *)
Definition newsletter_edit (m : Message) : Attrs * option Message :=
  match EditedMessage m with
  | Some inner =>
      ([("edit", AString EditAttributeAdminEdit)],
       i ← inner; '(_, _, edited, _) ← ProtocolMessage i; edited)
  | None =>
      if bool_decide (is_Some (ProtocolMessage m)) && bool_decide (protocol_type m = REVOKE)
      then ([("edit", AString EditAttributeAdminRevoke)], None) else ([], Some m)
  end.

Definition sendNewsletter (to : JID) (id : string) (m : Message) (mediaID : string) : sm bytes :=
  msgType ← or_panic (getTypeFromMessage m);
  let '(edit, m) := newsletter_edit m in
  let a := [("to", AJID to); ("id", AString id); ("type", AString msgType)]
    ++ (if String.eqb mediaID "" then [] else [("media_id", AString mediaID)]) ++ edit in
  '(plaintext, _) ← marshalMessage to m;
  mediaType ← or_panic (match m with Some m => getMediaTypeFromMessage m | None => Some "" end);
  ask (sendNode V (mkNode "message" a
    (ANodes [mkNode "plaintext" (if String.eqb mediaType "" then [] else [("mediatype", AString mediaType)]) (ABytes plaintext)]))).

(** ** SendMessage *)

Definition defaultRequestTimeout : Z := 75 * 10 ^ 9.

Definition personaID : string := "867051314767696$760019659443059".

(** The id of a message to a newsletter is that of the message it edits or
    revokes. *)
Definition newsletter_id (to : JID) (m : Message) (id : string) : string :=
  if String.eqb (Server to) NewsletterServer then
    match EditedMessage m with
    | Some inner => default "" (i ← inner; '(_, key, _, _) ← ProtocolMessage i; KeyID <$> key)
    | None =>
        match ProtocolMessage m with
        | Some (REVOKE, key, _, _) => default "" (KeyID <$> key)
        | _ => id
        end
    end
  else id.

Definition context_of (m : Message) : ContextInfo := default (mkContext None None None) (MessageContextInfo m).

(** The message's secret and its bot metadata, when they are needed and not set. *)
Definition add_secret (needed : bool) (m : Message) : sm Message :=
  if needed then
    let i := context_of m in
    match MessageSecret i with
    | Some _ => mret (with_context (Some i) m)
    | None => secret ← run_ (random_secret V); mret (with_context (Some (mkContext (Some secret) (BotMetadata i) (BotMessageSecret i))) m)
    end
  else mret m.

Definition add_metadata (m : Message) : Message :=
  let i := context_of m in
  with_context (Some (mkContext (MessageSecret i) (Some (default personaID (BotMetadata i))) (BotMessageSecret i))) m.

(** Inline bot mode: the message is wrapped, and a copy with the bot's secret goes
    to the bot. *)
Definition invoke_bot (bot : JID) (id : string) (m : Message) : sm (Message * Node) :=
  let i := context_of m in
  let extended := mkContent false (ExtendedTextMessage (fields m)) None false false false false false false false None None false false None
    false false false false false false false None false in
  let wrapped := with_context (Some (mkContext None (BotMetadata i) None)) (plain extended) in
  let invoke := Some (Some wrapped) in
  let message := mkMessage None None None None None None None invoke None None (Some i) no_content in
  let botMessage := mkMessage None None None None None None None invoke None None
    (Some (mkContext None (BotMetadata i) (Some (applyBotMessageHKDF V (default [] (MessageSecret i)))))) no_content in
  '(plaintext, _) ← marshalMessage bot (Some botMessage);
  '(nodes, _) ← encrypt_for [bot] plaintext None [];
  mret (message, mkNode "bot" [] (ANodes nodes)).

Definition meta_node (m : MsgMetaInfo) : Node :=
  mkNode "meta"
    ((match DeprecatedLIDSession m with Some b => [("deprecated_lid_session", ABool b)] | None => [] end)
     ++ (if String.eqb (ThreadMessageID m) "" then []
         else [("thread_msg_id", AString (ThreadMessageID m)); ("thread_msg_sender_jid", AJID (ThreadMessageSenderJID m))])) ANil.

(** Where a message goes and who it is from: the recipient, the sender's identity,
    the members of a group, the addressing mode and the recipient's number. *)
Record route := mkRoute { rt_to : JID; rt_own : JID; rt_members : list JID; rt_mode : string; rt_pn : JID }.

Definition resolve (to : JID) (req : SendRequestExtra) : sm route :=
  if String.eqb (Server to) GroupServer then
    cached ← ask (getCachedGroupData V to);
    '(mode, announcement, members) ← or_panic cached;
    mret (if String.eqb mode "lid" then mkRoute to ownLID members "lid" EmptyJID
          else if announcement && bool_decide (is_Some (Meta req)) then mkRoute to ownLID members "pn" EmptyJID
          else mkRoute to ownID members "" EmptyJID)
  else if String.eqb (Server to) BroadcastServer then
    members ← ask (getBroadcastListParticipants V to);
    mret (mkRoute to ownID members "" EmptyJID)
  else if String.eqb (Server to) HiddenUserServer then
    pn ← ask_or EmptyJID (GetPNForLID V to);
    mret (mkRoute to ownLID [] "" pn)
  else if String.eqb (Server to) DefaultUserServer && negb (Peer req) then
    lid ← ask (GetLIDForPN V to);
    toLID ← (if IsEmpty lid then
               fetched ← ask (GetUserInfo_LID V to);
               if IsEmpty fetched then throw ErrNoLID else mret fetched
             else mret lid);
    mret (mkRoute toLID ownLID [] "" to)
  else mret (mkRoute to ownID [] "" EmptyJID).

(** The stanza for the recipient's server. *)
Definition dispatch (rt : route) (req : SendRequestExtra) (id : string) (m : Message) (x : nodeExtraParams) : sm (string * bytes) :=
  let to := rt_to rt in
  if String.eqb (Server to) GroupServer || String.eqb (Server to) BroadcastServer then sendGroup (rt_own rt) to (rt_members rt) id m x
  else if String.eqb (Server to) DefaultUserServer || String.eqb (Server to) BotServer || String.eqb (Server to) HiddenUserServer then
    if Peer req then data ← sendPeerMessage to id m; mret ("", data) else sendDM (rt_own rt) to id m x
  else if String.eqb (Server to) NewsletterServer then data ← sendNewsletter to id m (MediaHandle req); mret ("", data)
  else throw ErrUnknownServer.

Definition waitResponse (id : string) : sm unit := fun s => (mkClient (world s) ({[id]} ∪ waiters s), Ok tt).
Definition unregister (id : string) (s : client) : client := mkClient (world s) (waiters s ∖ {[id]}).

(** A stanza that is not sent cancels the response. *)
Definition or_cancel {A} (id : string) (m : sm A) : sm A := fun s =>
  match m s with
  | (s, Err e) => (unregister id s, Err e)
  | r => r
  end.

(** request.go: retryFrame with the timeout 0 that SendMessage gives it: there is no
    timer, and a done context leaves the second registration behind. *)
Definition retry_frame (id : string) (data : bytes) (origResp : Node) : sm Node := fun s =>
  if isAuthErrorDisconnect origResp then (s, Err (ErrRetry (DisconnectedError origResp)))
  else
    let '(w, (reconnects, socket, sends, second)) := retry_events V data (world s) in
    let o := requests.retryFrame origResp reconnects socket sends (match second with Some n => Got n | None => ContextDone end) in
    let left_behind := reconnects && socket && sends && negb (bool_decide (is_Some second)) in
    (mkClient w (if left_behind then {[id]} ∪ waiters s else waiters s), map_err ErrRetry o).

(** Waiting for the answer: a response is taken out of the waiters, the other ways
    to stop waiting cancel it. *)
Definition await_response (id : string) (timeout : Z) (data : bytes) : sm Node := fun s =>
  let '(w, r) := await V timeout (world s) in
  let s := unregister id (mkClient w (waiters s)) in
  match r with
  | TimedOut => (s, Err ErrMessageTimedOut)
  | ContextDone => (s, Err ErrContext)
  | Got n =>
      if isDisconnectNode n then retry_frame id data n s else (s, Ok n)
  end.

(** What is read from the answer: the server's id and time, an error code, and its
    hash of the devices. *)
Definition answer_fields (n : Node) : Z * gotime * Z * string :=
  let '(serverID, ag) := OptionalInt "server_id" (AttrGetter n) in
  let '(t, ag) := UnixTime "t" ag in
  let '(errorCode, ag) := Int "error" ag in
  let '(expected, _) := OptionalString "phash" ag in
  (serverID, t, errorCode, expected).

(** A hash that differs drops a cache. *)
Definition finish (to : JID) (id : string) (own : JID) (hash : string) (n : Node) : sm SendResponse :=
  let '(serverID, t, errorCode, expected) := answer_fields n in
  (if negb (String.eqb expected "") && negb (String.eqb hash expected) then
     if String.eqb (Server to) GroupServer then change (forget_group V to)
     else if existsb (String.eqb (Server to)) [DefaultUserServer; HiddenUserServer; BotServer; HostedServer; HostedLIDServer]
     then change (forget_devices V to) else mret tt
   else mret tt);;
  if errorCode =? 0 then mret (mkResponse t id serverID own) else throw (ErrServerReturnedError errorCode).

(** The part with the request registered: the stanza is sent, its answer awaited
    and read. *)
Definition exchange (id : string) (timeout : Z) (send : sm (string * bytes)) (read : string -> Node -> sm SendResponse) : sm SendResponse :=
  waitResponse id;;
  '(hash, data) ← or_cancel id send;
  n ← await_response id timeout data;
  read hash n.

Definition transmit (rt : route) (req : SendRequestExtra) (id : string) (m : Message) (x : nodeExtraParams) (timeout : Z) : sm SendResponse :=
  exchange id timeout (dispatch rt req id m x) (finish (rt_to rt) id (rt_own rt)).

Definition send_request (to : JID) (m : Message) (req : SendRequestExtra) : sm SendResponse :=
  if (0 <? Device to) && negb (Peer req) then throw ErrRecipientADJID
  else if IsEmpty ownID then throw ErrNotLoggedIn
  else
    let timeout := if Timeout req =? 0 then defaultRequestTimeout else Timeout req in
    id ← (if String.eqb (x_ID req) "" then run_ (GenerateMessageID V) else mret (x_ID req));
    let id := newsletter_id to m id in
    let inline := negb (IsEmpty (InlineBotJID req)) in
    if inline && negb (IsBot (InlineBotJID req)) then throw ErrInvalidInlineBotID
    else
      let botMode := inline || IsBot to in
      m ← add_secret (botMode || shouldIncludeReportingToken SendReportingTokens m) m;
      let m := if botMode then add_metadata m else m in
      '(m, bot) ← (if inline then '(m, n) ← invoke_bot (InlineBotJID req) id m; mret (m, Some n) else mret (m, None));
      rt ← resolve to req;
      let x := mkParams bot (meta_node <$> Meta req) (AdditionalNodes req) (rt_mode rt) (rt_pn rt) in
      (if Peer req then mret tt else ask (addRecentMessage V (rt_to rt) id m));;
      (match secret_of m with
       | Some secret => ask_or tt (PutMessageSecret V (rt_to rt) (rt_own rt) id secret)
       | None => mret tt
       end);;
      transmit rt req id m x timeout.

Definition SendMessage (to : JID) (m : Message) (extra : list SendRequestExtra) : sm SendResponse :=
  match extra with
  | [] => send_request to m no_extra
  | [req] => send_request to m req
  | _ => throw ErrTooManyExtras
  end.

Definition SendPeerMessage (m : Message) : sm SendResponse :=
  if IsEmpty (ToNonAD ownID) then throw ErrNotLoggedIn
  else SendMessage (ToNonAD ownID) m [mkExtra "" EmptyJID true 0 "" None None].

Definition RevokeMessage (chat : JID) (id : string) : sm SendResponse :=
  SendMessage chat (building.BuildRevoke ownID ownLID chat EmptyJID id) [].

(** ** What SendMessage leaves behind *)

(** A computation that leaves the waiting requests alone. *)
Definition keeps {A} (m : sm A) : Prop := forall s s' o, m s = (s', o) -> waiters s' = waiters s.

Lemma sm_keeps_ret {A} (a : A) : keeps (mret a).
Proof. by intros s s' o [= <- _]. Qed.
Lemma sm_keeps_throw {A} e : keeps (throw e : sm A).
Proof. by intros s s' o [= <- _]. Qed.
Lemma sm_keeps_bind {A B} (m : sm A) (k : A -> sm B) : keeps m -> (forall a, keeps (k a)) -> keeps (m ≫= k).
Proof.
  intros Hm Hk s s' o. unfold mbind, stm_bind. destruct (m s) as [s1 [a|e| |]] eqn:E; intros H.
  - rewrite (Hk a s1 s' o H). by eapply Hm.
  - injection H as <- _. by eapply Hm.
  - injection H as <- _. by eapply Hm.
  - injection H as <- _. by eapply Hm.
Qed.
Lemma keeps_get : keeps get_state.
Proof. by intros s s' o [= <- _]. Qed.
Lemma keeps_ask {A} (m : op A) : keeps (ask m).
Proof. intros s s' o. unfold ask. destruct (m (world s)). by intros [= <- _]. Qed.
Lemma keeps_run {A} (f : W -> W * A) : keeps (run_ f).
Proof. intros s s' o. unfold run_. destruct (f (world s)). by intros [= <- _]. Qed.
Lemma keeps_change f : keeps (change f).
Proof. by intros s s' o [= <- _]. Qed.
Lemma keeps_ask_or {A} (zero : A) (m : op A) : keeps (ask_or zero m).
Proof.
  intros s s' o. unfold ask_or. destruct (ask m s) as [s1 o1] eqn:E. apply keeps_ask in E. by destruct o1; intros [= <- _].
Qed.
Lemma sm_keeps_panic {A} (o : option A) : keeps (or_panic o).
Proof. destruct o; by intros s s' r [= <- _]. Qed.
Lemma keeps_error {A} e (o : option A) : keeps (or_error e o).
Proof. destruct o; by intros s s' r [= <- _]. Qed.

Hint Resolve sm_keeps_ret sm_keeps_throw sm_keeps_bind keeps_get keeps_ask keeps_run keeps_change keeps_ask_or sm_keeps_panic keeps_error : keeps.

Ltac keeps_tac :=
  repeat match goal with
  | |- keeps (_ ≫= _) => apply sm_keeps_bind; [|intros ?]
  | |- keeps (match ?x with _ => _ end) => destruct x
  | |- keeps _ => progress eauto with keeps
  end.

Lemma keeps_marshal to m : keeps (marshalMessage to m).
Proof. unfold marshalMessage. destruct m; keeps_tac. by intros s s' o [= <- _]. Qed.
Hint Resolve keeps_marshal : keeps.

Lemma keeps_encrypt devices p dsm a : keeps (encrypt_for devices p dsm a).
Proof. unfold encrypt_for. eauto with keeps. Qed.
Hint Resolve keeps_encrypt : keeps.

Lemma keeps_prepare to id m participants p dsm x : keeps (prepareMessageNode to id m participants p dsm x).
Proof. unfold prepareMessageNode. keeps_tac. Qed.
Hint Resolve keeps_prepare : keeps.

Lemma keeps_dispatch rt req id m x : keeps (dispatch rt req id m x).
Proof.
  unfold dispatch, sendGroup, sendPeerMessage, preparePeerMessageNode, sendDM, sendNewsletter. keeps_tac.
Qed.

Lemma keeps_resolve to req : keeps (resolve to req).
Proof. unfold resolve. keeps_tac. Qed.

Lemma keeps_secret b m : keeps (add_secret b m).
Proof. unfold add_secret. keeps_tac. Qed.

Lemma keeps_invoke bot id m : keeps (invoke_bot bot id m).
Proof. unfold invoke_bot. keeps_tac. Qed.

Lemma keeps_finish to id own hash n : keeps (finish to id own hash n).
Proof. unfold finish. keeps_tac. Qed.

(** At most [id] is added, and only by a computation that [bad] allows. *)
Lemma await_waiters id timeout data s s' o : await_response id timeout data s = (s', o) -> forall i, i ∈ waiters s' ->
  i ∈ waiters s ∖ {[id]} \/ o = Err (ErrRetry requests.ErrContext).
Proof.
  unfold await_response. destruct (await V timeout (world s)) as [w [n| |]]; [|intros [= <- _]; by left..].
  destruct (isDisconnectNode n); [|intros [= <- _]; by left]. unfold retry_frame, requests.retryFrame.
  destruct (isAuthErrorDisconnect n); [intros [= <- _]; by left|]. cbn [world unregister].
  destruct (retry_events V data w) as [w' [[[reconnects sock] sends] second]].
  destruct reconnects, sock, sends; cbn [andb negb]; try (intros [= <- _]; by left).
  destruct second as [r|]; cbn [negb bool_decide is_Some].
  - rewrite bool_decide_eq_true_2 by eauto. cbn. intros [= <- _]. by left.
  - rewrite bool_decide_eq_false_2 by (by intros []). cbn. intros [= <- <-]. by right.
Qed.

(** The server answers with a node, while the client waits or after it has sent the
    frame again. *)
Definition received (timeout : Z) (data : bytes) (n : Node) : Prop :=
  (exists w w', await V timeout w = (w', Got n)) \/ exists w w', retry_events V data w = (w', (true, true, true, Some n)).

Lemma await_answer id timeout data s s' n : await_response id timeout data s = (s', Ok n) -> received timeout data n /\ isDisconnectNode n = false.
Proof.
  unfold await_response. destruct (await V timeout (world s)) as [w [r| |]] eqn:Ew; [|done..].
  destruct (isDisconnectNode r) eqn:Ed; [|intros [= _ <-]; split; [left; eauto|done]]. unfold retry_frame, requests.retryFrame.
  destruct (isAuthErrorDisconnect r); [done|]. destruct (retry_events V data _) as [w' [[[reconnects sock] sends] second]] eqn:Er.
  destruct reconnects, sock, sends; cbn [negb]; try done.
  destruct second as [r'|]; [|done]. destruct (isDisconnectNode r') eqn:E; [done|]. intros [= _ <-]. split; [right; eauto|exact E].
Qed.

(** The number an attribute holds: zero when it is not one. *)
Definition attr_int (k : string) (n : Node) : Z :=
  match attr_get k (node_attrs n) with Some (AString s) => match parse_int s with Ok v => v | _ => 0 end | _ => 0 end.

Lemma int_value k require au : fst (fst (GetInt64 k require au)) =
    match attr_get k (au_attrs au) with Some (AString s) => match parse_int s with Ok v => v | _ => 0 end | _ => 0 end.
Proof.
  unfold GetInt64, GetParsed, GetString, fail_with. destruct (attr_get k (au_attrs au)) as [v|]; [|by destruct require].
  destruct v; try done. by destruct (parse_int s).
Qed.

Lemma int_attrs k require au : au_attrs (snd (GetInt64 k require au)) = au_attrs au.
Proof.
  unfold GetInt64, GetParsed, GetString, fail_with. destruct (attr_get k (au_attrs au)) as [v|]; [|by destruct require].
  destruct v; try done. by destruct (parse_int s).
Qed.

Lemma time_attrs k au : au_attrs (snd (UnixTime k au)) = au_attrs au.
Proof.
  unfold UnixTime, value_of, GetUnixTime. pose proof (int_attrs k true au) as H. by destruct (GetInt64 k true au) as [[z []] au'].
Qed.

Lemma time_value k au au' : au_attrs au = au_attrs au' -> fst (UnixTime k au) = fst (UnixTime k au').
Proof.
  intros E. unfold UnixTime, value_of, GetUnixTime, GetInt64, GetParsed, GetString, fail_with. rewrite E.
  destruct (attr_get k (au_attrs au')) as [[]|]; try done. by destruct (parse_int _).
Qed.

Lemma answer_fields_spec n : let '(sid, t, code, _) := answer_fields n in
  sid = attr_int "server_id" n /\ t = fst (UnixTime "t" (AttrGetter n)) /\ code = attr_int "error" n.
Proof.
  unfold answer_fields. pose proof (int_value "server_id" false (AttrGetter n)) as E1. pose proof (int_attrs "server_id" false (AttrGetter n)) as A1.
  unfold OptionalInt, value_of. destruct (GetInt64 "server_id" false (AttrGetter n)) as [[sid b1] ag1]. cbn [fst snd] in *.
  pose proof (time_attrs "t" ag1) as A2. pose proof (time_value "t" ag1 (AttrGetter n) A1) as V2. destruct (UnixTime "t" ag1) as [tm ag2]. cbn [fst snd] in A2, V2.
  pose proof (int_value "error" true ag2) as E3. unfold Int, value_of. destruct (GetInt64 "error" true ag2) as [[code b3] ag3]. cbn [fst snd] in *.
  unfold OptionalString, value_of. destruct (GetString "phash" false ag3) as [[expected b4] ag4]. cbn [fst snd].
  rewrite A2, A1 in E3. cbn in E1, E3. unfold attr_int. done.
Qed.

Lemma finish_answer to id own hash n s s' r : finish to id own hash n s = (s', Ok r) ->
  attr_int "error" n = 0 /\ r_ID r = id /\ ServerID r = attr_int "server_id" n /\ Timestamp r = fst (UnixTime "t" (AttrGetter n)).
Proof.
  unfold finish. pose proof (answer_fields_spec n) as Hf. destruct (answer_fields n) as [[[sid t] code] expected]. destruct Hf as (-> & -> & ->).
  intros H. apply stm_bind_inv in H as (s1 & [] & _ & H). destruct (Z.eqb_spec (attr_int "error" n) 0); [|done]. by injection H as _ <-.
Qed.

(** What holds of a result, and of the waiting requests. *)
Definition guarded (P : SendResponse -> Prop) (s s' : client) (o : outcome send_error SendResponse) : Prop :=
  (forall r, o = Ok r -> P r) /\
  (o = Panic \/ o = NoFuel \/ o = Err (ErrRetry requests.ErrContext) \/ waiters s' ⊆ waiters s).

(** An exchange gives back what it reads from the answer to a stanza it sent, and
    leaves no request of its own waiting unless it panicked or its context ended
    while the frame was retried. *)
Lemma exchange_answered id timeout send read s s' o : keeps send -> (forall hash n, keeps (read hash n)) ->
  exchange id timeout send read s = (s', o) ->
  guarded (fun r => exists s1 s2 s3 hash data n, send s1 = (s2, Ok (hash, data)) /\ received timeout data n /\
    isDisconnectNode n = false /\ read hash n s3 = (s', Ok r)) s s' o.
Proof.
  intros Hsend Hread. unfold exchange. rewrite (stm_bind_ok (waitResponse id) _ s (mkClient (world s) ({[id]} ∪ waiters s)) tt eq_refl).
  set (s1 := mkClient _ _). unfold mbind at 1, stm_bind at 1, or_cancel. destruct (send s1) as [s2 o2] eqn:Ed.
  pose proof Ed as Hd. apply Hsend in Ed. destruct o2 as [[hash data]|e| |].
  - unfold mbind, stm_bind. destruct (await_response id timeout data s2) as [s3 o3] eqn:Ea. pose proof (await_waiters _ _ _ _ _ _ Ea) as Hw.
    rewrite Ed in Hw. cbn [waiters s1] in Hw.
    assert (o3 = Err (ErrRetry requests.ErrContext) \/ waiters s3 ⊆ waiters s) as Hs.
    { destruct (decide (waiters s3 ⊆ waiters s)) as [?|Hn]; [by right|]. left. rewrite elem_of_subseteq in Hn.
      destruct (set_choose_or_empty (waiters s3 ∖ waiters s)) as [[j Hj]|He]; [|exfalso; apply Hn; intros j Hj; destruct (decide (j ∈ waiters s)); [done|exfalso; set_solver]].
      apply elem_of_difference in Hj as [Hj Hnj]. destruct (Hw j Hj) as [Hw'|]; [|done]. set_solver. }
    destruct o3 as [n|e| |]; intros H.
    + destruct Hs as [|Hs]; [done|]. pose proof (Hread _ _ _ _ _ H) as Hf. split; [|right; right; right; by rewrite Hf].
      intros r ->. apply await_answer in Ea as [Hr Hn]. by exists s1, s2, s3, hash, data, n.
    + injection H as <- <-. split; [done|]. right. right. destruct Hs as [[= ->]|Hs]; [by left|by right].
    + injection H as <- <-. split; [done|by left].
    + injection H as <- <-. split; [done|by right; left].
  - intros [= <- <-]. split; [done|]. right. right. right. cbn. rewrite Ed. cbn. set_solver.
  - intros [= <- <-]. split; [done|by left].
  - intros [= <- <-]. split; [done|by right; left].
Qed.

(** What SendMessage promises of its result: a stanza with the id was sent, and the
    server answered it; and of the waiting requests. *)
Definition sent_and_answered (to : JID) (m : Message) (req : SendRequestExtra) (r : SendResponse) : Prop :=
  exists id rt m' x s1 s2 hash data n,
    (id = x_ID req \/ x_ID req = "" /\ exists w, id = snd (GenerateMessageID V w)) /\ r_ID r = newsletter_id to m id /\
    dispatch rt req (r_ID r) m' x s1 = (s2, Ok (hash, data)) /\
    received (if Timeout req =? 0 then defaultRequestTimeout else Timeout req) data n /\
    isDisconnectNode n = false /\ attr_int "error" n = 0 /\ ServerID r = attr_int "server_id" n /\
    Timestamp r = fst (UnixTime "t" (AttrGetter n)).

Lemma guarded_bind {A} P (f : sm A) k s s' o : keeps f -> (f ≫= k) s = (s', o) ->
  (forall s1 a, f s = (s1, Ok a) -> k a s1 = (s', o) -> guarded P s1 s' o) -> guarded P s s' o.
Proof.
  intros Hf H Hk. unfold mbind, stm_bind in H. destruct (f s) as [s1 [a|e| |]] eqn:E; pose proof (Hf _ _ _ E) as Hw.
  - specialize (Hk s1 a eq_refl H). unfold guarded in *. by rewrite <- Hw.
  - injection H as <- <-. split; [done|]. right. right. right. by rewrite Hw.
  - injection H as <- <-. split; [done|by left].
  - injection H as <- <-. split; [done|by right; left].
Qed.

Lemma guarded_throw P e s s' o : (throw e : sm SendResponse) s = (s', o) -> guarded P s s' o.
Proof. intros [= <- <-]. split; [done|]. by right; right; right. Qed.

(** The id of a request: the one asked for, or a generated one. *)
Definition id_for (req : SendRequestExtra) (id : string) : Prop :=
  id = x_ID req \/ x_ID req = "" /\ exists w, id = snd (GenerateMessageID V w).

Lemma choose_id req s s' id : (if String.eqb (x_ID req) "" then run_ (GenerateMessageID V) else mret (x_ID req)) s = (s', Ok id) -> id_for req id.
Proof.
  destruct (String.eqb_spec (x_ID req) "") as [E|_]; [|intros [= _ <-]; by left]. intros H. right. split; [done|]. exists (world s).
  unfold run_ in H. destruct (GenerateMessageID V (world s)). by injection H.
Qed.

Definition promise (to : JID) (m : Message) (req : SendRequestExtra) := guarded (sent_and_answered to m req).

Lemma transmit_promise to m rt req id m' x s s' o : id_for req id ->
  transmit rt req (newsletter_id to m id) m' x (if Timeout req =? 0 then defaultRequestTimeout else Timeout req) s = (s', o) -> promise to m req s s' o.
Proof.
  intros Hid H. apply exchange_answered in H as [Hr Hw]; [|apply keeps_dispatch|intros; apply keeps_finish]. split; [|done].
  intros r (s1 & s2 & s3 & hash & data & n & Hd & Hrec & Hn & Hf)%Hr. apply finish_answer in Hf as (He & Hi & Hsid & Ht).
  exists id, rt, m', x, s1, s2, hash, data, n. by rewrite Hi.
Qed.

Lemma send_request_promise to m req s s' o : send_request to m req s = (s', o) -> promise to m req s s' o.
Proof.
  unfold send_request. destruct (_ && _); [apply guarded_throw|]. destruct (IsEmpty ownID); [apply guarded_throw|].
  intros H. eapply guarded_bind in H; [exact H|keeps_tac|]. clear H. intros s1 id Hid. cbv zeta.
  apply choose_id in Hid. clear s. destruct (_ && _); [apply guarded_throw|]. intros H.
  eapply guarded_bind in H; [exact H|apply keeps_secret|]. clear H. intros s2 m1 _ H.
  eapply guarded_bind in H; [exact H| |]. { keeps_tac. apply keeps_invoke. }
  clear H. intros s3 [m2 bot] _ H. eapply guarded_bind in H; [exact H|apply keeps_resolve|]. clear H. intros s4 rt _ H.
  eapply guarded_bind in H; [exact H|keeps_tac|]. clear H. intros s5 [] _ H.
  eapply guarded_bind in H; [exact H|keeps_tac|]. clear H. intros s6 [] _ H. by eapply transmit_promise.
Qed.

(** The request of a call: the extra parameters, or none. *)
Definition request_of (extra : list SendRequestExtra) : SendRequestExtra := match extra with req :: _ => req | [] => no_extra end.

(** (C17) SendMessage gives back a result only after a stanza with the id it returns,
    the one asked for or a generated one, was sent and the server answered it
    without an error code; the time and the server's id are the answer's. It leaves
    no request waiting for an answer, unless it panicked or its context ended while
    a frame was being retried. *)
Theorem SendMessage_answered to m extra s s' o : SendMessage to m extra s = (s', o) ->
  (forall r, o = Ok r -> sent_and_answered to m (request_of extra) r) /\
  (o = Panic \/ o = NoFuel \/ o = Err (ErrRetry requests.ErrContext) \/ waiters s' ⊆ waiters s).
Proof.
  change (SendMessage to m extra s = (s', o) -> promise to m (request_of extra) s s' o).
  destruct extra as [|req [|]]; [apply send_request_promise..|apply guarded_throw].
Qed.

End sending.

End sending.

Module send_samples.

Import sql jid attrs requests sessions sessioncache kinds encrypting sending.

#[local] Instance some_crypto : Crypto :=
  {| gcm_seal _ _ p _ := p; gcm_open _ _ p _ := Some p; sha256 b := b; hmac_sha256 k b := b; hmac_sha512 k b := b;
     hkdf_stream _ _ _ _ := x00; x25519 a b := Some b; x25519_base b := b; verify_signature _ _ _ := true;
     calculate_signature _ b := b; aes_block_enc _ b := b; aes_block_dec _ b := b |}.

Definition answer : Node := mkNode "ack" [("id", AString "M1"); ("t", AString "1700000000"); ("server_id", AString "7")] ANil.

(** Direct messages from [me] over the store of the sample sessions; the answer
    comes, or never does. *)
Definition some_services (r : wait_result) : services (W := cached_store (R := bytes)) :=
  mkServices (store_services ∅ {[friend_phone := a_bundle]}) (fun _ => Some [x0a])
    (fun _ s => (s, Ok [me; friend_phone; my_other])) (fun _ s => (s, Ok None)) (fun _ s => (s, Ok []))
    (fun _ s => (s, Ok friend)) (fun _ s => (s, Ok friend_lid)) (fun _ s => (s, Err ErrService))
    (fun s => (s, "M1")) (fun s => (s, repeat x09 32)) (fun b => b)
    (fun _ _ _ s => (s, Ok tt)) (fun _ _ _ _ s => (s, Ok tt)) (fun _ s => (s, Ok [])) (fun _ _ s => (s, Ok []))
    [] (fun _ _ _ _ _ => node_zero) (fun _ s => (s, Ok [])) (fun _ s => (s, [])) (fun _ s => s)
    (fun _ s => (s, Ok [])) (fun _ s => (s, r)) (fun _ s => (s, (true, true, true, None))) (fun _ s => s) (fun _ s => s).

Definition sample_send (r : wait_result) :=
  SendMessage (some_services r) true false false (mkJID "15559999999" 0 1 0 DefaultUserServer) me friend
    (plain no_content) [] (mkClient some_sessions ∅).

Lemma SendMessage_answered_witness : snd (sample_send (Got answer)) = Ok (mkResponse (UnixNano (1700000000 * 10 ^ 9)) "M1" 7 me) /\
  waiters (fst (sample_send (Got answer))) = ∅ /\
  sent_and_answered (some_services (Got answer)) true false false (mkJID "15559999999" 0 1 0 DefaultUserServer) me friend (plain no_content) no_extra
    (mkResponse (UnixNano (1700000000 * 10 ^ 9)) "M1" 7 me).
Proof.
  split; [vm_compute; reflexivity|]. split; [vm_compute; reflexivity|].
  refine (proj1 (SendMessage_answered _ true false false (mkJID "15559999999" 0 1 0 DefaultUserServer) me friend (plain no_content) []
    (mkClient some_sessions ∅) (fst (sample_send (Got answer))) (snd (sample_send (Got answer))) _) (mkResponse (UnixNano (1700000000 * 10 ^ 9)) "M1" 7 me) _).
  - apply surjective_pairing.
  - vm_compute; reflexivity.
Defined.

Lemma phash_order_witness : Permutation [me; friend] [friend; me] /\
  phash.participantListHashV2 [me; friend] = phash.participantListHashV2 [friend; me].
Proof.
  assert (Permutation [me; friend] [friend; me]) as H by (apply perm_swap). split; [exact H|].
  exact (phash.phash_order [me; friend] [friend; me] H).
Defined.

(** A frame that is retried after a disconnect waits without a timer, and when the
    context ends its id stays registered. *)
Lemma retry_left_behind : snd (sample_send (Got xmlStreamEndNode)) = Err (ErrRetry requests.ErrContext) /\
  waiters (fst (sample_send (Got xmlStreamEndNode))) = {["M1"]}.
Proof. split; vm_compute; reflexivity. Qed.

(** A wrapper with a nil message panics. *)
Lemma nil_wrapper_panics : getTypeFromMessage (mkMessage (Some None) None None None None None None None None None None no_content) = None.
Proof. reflexivity. Qed.

End send_samples.
