(* ===== verification/Devices.v ===== *)
(** * user.go, notification.go: the devices of users

    The lists of devices the client keeps for users, with the slices they are in:
    a list in the map and a local copy of it share their array, and
    slices.DeleteFunc works in place. [devices]: the cache, the query that fills
    it, and the notifications that change it. *)

From S2P Require Import Prelude GoStrings Jid Node Crypto Requests Send.

#[local] Open Scope string_scope.
#[local] Open Scope list_scope.
#[local] Open Scope Z_scope.

Module devices.

Import jid attrs requests phash.

(** ** Slices of identifiers *)

(** The arrays, each with its whole capacity; a slice from the start of one, or
    nil. *)
Abbreviation heap := (list (list JID)).

Definition slice := option (nat * nat).

Definition read (h : heap) (s : slice) : list JID :=
  match s with
  | Some (p, n) => take n (default [] (h !! p))
  | None => []
  end.

Definition capacity (h : heap) (s : slice) : nat :=
  match s with Some (p, _) => length (default [] (h !! p)) | None => 0 end.

(** A new array with nothing to spare. *)
Definition make (xs : list JID) (h : heap) : heap * slice := (h ++ [xs], Some (length h, length xs)).

(** append of one element; [extra]: how much room a new array has beyond it. *)
Definition append (extra : nat) (x : JID) (s : slice) (h : heap) : heap * slice :=
  let n := length (read h s) in
  match s with
  | Some (p, len) =>
      if (len <? capacity h s)%nat then (alter (fun a => <[len := x]> a) p h, Some (p, Datatypes.S len))
      else (h ++ [read h s ++ [x] ++ replicate extra EmptyJID], Some (length h, Datatypes.S n))
  | None => (h ++ [[x] ++ replicate extra EmptyJID], Some (length h, 1%nat))
  end.

(** slices.DeleteFunc: in place, with what is left at the end cleared. *)
Definition DeleteFunc (del : JID -> bool) (s : slice) (h : heap) : heap * slice :=
  match s with
  | Some (p, len) =>
      let kept := filter (fun j => del j = false) (read h s) in
      (alter (fun a => kept ++ replicate (len - length kept) EmptyJID ++ drop len a) p h, Some (p, length kept))
  | None => (h, None)
  end.

(** ** The cache *)

Record deviceCache := mkCache { devices : slice; dhash : string }.

Definition no_devices : deviceCache := mkCache None "".

Record client := mkClient { arrays : heap; userDevicesCache : gmap JID deviceCache }.

(** The list the client uses for a user. *)
Definition cached (s : client) (j : JID) : option (list JID) := (fun c => read (arrays s) (devices c)) <$> userDevicesCache s !! j.

(** A number of the width of a device: the value is cut to 16 bits. *)
Definition parse_device (user : JID) (device : Node) : option JID :=
  let '((deviceID, ok), _) := GetInt64 "id" true (AttrGetter device) in
  let isHosted := fst (Bool "is_hosted" (AttrGetter device)) in
  if negb (String.eqb (node_tag device) "device") || negb ok then None
  else
    let server := if isHosted then (if String.eqb (Server user) HiddenUserServer then HostedLIDServer else HostedServer) else Server user in
    Some (mkJID (User user) (RawAgent user) (u16 deviceID) (Integrator user) server).

Definition parseDeviceList (user : JID) (deviceNode : Node) : list JID :=
  let deviceList := GetChildByTag deviceNode ["device-list"] in
  if negb (String.eqb (node_tag deviceNode) "devices") || negb (String.eqb (node_tag deviceList) "device-list") then []
  else omap (parse_device user) (GetChildren deviceList).

Definition parse_fb_device (user : JID) (device : Node) : option JID :=
  let '((deviceID, ok), _) := GetInt64 "id" true (AttrGetter device) in
  if negb (String.eqb (node_tag device) "device") || negb ok then None
  else Some (mkJID (User user) (RawAgent user) (u16 deviceID) (Integrator user) (Server user)).

Definition parseFBDeviceList (user : JID) (deviceList : Node) : list JID * string :=
  (omap (parse_fb_device user) (GetChildren deviceList), fst (attrs.String_ "dhash" (AttrGetter deviceList))).

(** A list from the server, in an array of its own. *)
Definition store_list (j : JID) (l : list JID) (hash : string) (s : client) : client :=
  let '(h, sl) := make l (arrays s) in mkClient h (<[j := mkCache sl hash]> (userDevicesCache s)).

Inductive device_error := ErrIQ (e : iq_error) | ErrElementMissing (tag : string) | ErrUnknownServer.

Section queries.
Context {C : Crypto}.
(** The server, the ids of requests, and the tokens kept for users. *)
Context (sendIQ : infoQuery -> outcome iq_error Node) (sid : string) (ensureTCToken : JID -> option bytes).

(** One user of a usync query. [personas]: what is known of bots. *)
Definition usync_user (personas : list (JID * string)) (IncludePrivacyToken : bool) (j : JID) : outcome device_error Node :=
  let j := ToNonAD j in
  if String.eqb (Server j) LegacyUserServer then
    Ok (mkNode "user" [] (ANodes [mkNode "contact" [] (AString (jid.String_ j))]))
  else if String.eqb (Server j) DefaultUserServer || String.eqb (Server j) HiddenUserServer then
    Ok (mkNode "user" [("jid", AJID j)]
      (if IsBot j then
         let personaID := foldl (fun acc b => if String.eqb (User (fst b)) (User j) then snd b else acc) "" personas in
         ANodes [mkNode "bot" [] (ANodes [mkNode "profile" [("persona_id", AString personaID)] ANil])]
       else if IncludePrivacyToken then
         match ensureTCToken j with
         | Some (b :: token) => ANodes [mkNode "tctoken" [] (ABytes (b :: token))]
         | _ => ANil
         end
       else ANil))
  else Err ErrUnknownServer.

Definition usync_content (mode context : string) (query users : list Node) : Node :=
  mkNode "usync" [("sid", AString sid); ("mode", AString mode); ("last", AString "true"); ("index", AString "0"); ("context", AString context)]
    (ANodes [mkNode "query" [] (ANodes query); mkNode "list" [] (ANodes users)]).

Fixpoint traverse {A B E} (f : A -> outcome E B) (l : list A) : outcome E (list B) :=
  match l with
  | [] => Ok []
  | a :: l => b ← f a; bs ← traverse f l; Ok (b :: bs)
  end.

Definition usync (jids : list JID) (mode context : string) (query : list Node) (personas : list (JID * string)) (IncludePrivacyToken : bool) :
    outcome device_error Node :=
  users ← traverse (usync_user personas IncludePrivacyToken) jids;
  resp ← map_err ErrIQ (sendIQ (mkQuery "usync" "get" ServerJID EmptyJID "" "" (ANodes [usync_content mode context query users]) false));
  let '(list, ok) := GetOptionalChildByTag resp ["usync"; "list"] in
  if ok then Ok list else Err (ErrElementMissing "list").

Definition getFBIDDevicesInternal (jids : list JID) : outcome device_error Node :=
  let users := map (fun j => mkNode "user" [("jid", AJID j)] ANil) jids in
  resp ← map_err ErrIQ (sendIQ (mkQuery "fbid:devices" "get" ServerJID EmptyJID "" "" (ANodes [mkNode "users" [] (ANodes users)]) false));
  let '(list, ok) := GetOptionalChildByTag resp ["users"] in
  if ok then Ok list else Err (ErrElementMissing "users").

(** The children that are users with an identifier. *)
Definition user_children (users : Node) : list (JID * Node) :=
  omap (fun user => match attr_get "jid" (node_attrs user) with
                    | Some (AJID j) => if String.eqb (node_tag user) "user" then Some (j, user) else None
                    | _ => None
                    end) (GetChildren users).

(** slices.Chunk. *)
Fixpoint chunks (fuel n : nat) (l : list JID) : list (list JID) :=
  match fuel with
  | O => []
  | Datatypes.S fuel => match l with [] => [] | _ => take n l :: chunks fuel n (drop n l) end
  end.

Definition learn_fb (s : client) (u : JID * Node) : client * list JID :=
  let '(l, hash) := parseFBDeviceList (fst u) (GetChildByTag (snd u) ["devices"]) in (store_list (fst u) l hash s, l).

Definition learn (s : client) (u : JID * Node) : client * list JID :=
  let l := parseDeviceList (fst u) (GetChildByTag (snd u) ["devices"]) in (store_list (fst u) l (participantListHashV2 l) s, l).

(** The lists of a response, stored one after the other. *)
Definition learn_all (f : client -> JID * Node -> client * list JID) (us : list (JID * Node)) (s : client) : client * list JID :=
  foldl (fun acc u => let '(s, l) := f (fst acc) u in (s, snd acc ++ l)) (s, []) us.

Fixpoint fb_chunks (cs : list (list JID)) (s : client) : client * outcome device_error (list JID) :=
  match cs with
  | [] => (s, Ok [])
  | c :: cs =>
      match getFBIDDevicesInternal c with
      | Ok list =>
          let '(s, l) := learn_all learn_fb (user_children list) s in
          let '(s, o) := fb_chunks cs s in (s, l' ← o; Ok (l ++ l'))
      | Err e => (s, Err e)
      | Panic => (s, Panic)
      | NoFuel => (s, NoFuel)
      end
  end.

Definition getFBIDDevices (jids : list JID) (s : client) : client * outcome device_error (list JID) :=
  fb_chunks (chunks (length jids) 15 jids) s.

(** What is known of a user, or which query is needed. *)
Inductive known := Known (l : list JID) | Sync | SyncFB.

Definition lookup_devices (s : client) (j : JID) : known :=
  match cached s j with
  | Some (d :: l) => Known (d :: l)
  | _ => if String.eqb (Server j) MessengerServer then SyncFB else if IsBot j then Known [j] else Sync
  end.

Definition wants_sync (s : client) (j : JID) : bool := match lookup_devices s j with Sync => true | _ => false end.
Definition wants_fb_sync (s : client) (j : JID) : bool := match lookup_devices s j with SyncFB => true | _ => false end.

Definition devices_query : list Node := [mkNode "devices" [("version", AString "2")] ANil].

Definition GetUserDevices (jids : list JID) (s : client) : client * outcome device_error (list JID) :=
  let known := concat (map (fun j => match lookup_devices s j with Known l => l | _ => [] end) jids) in
  let jidsToSync := filter (fun j => wants_sync s j = true) jids in
  let fbJIDsToSync := filter (fun j => wants_fb_sync s j = true) jids in
  let after_usync s synced :=
    match fbJIDsToSync with
    | [] => (s, Ok (known ++ synced))
    | _ => let '(s, o) := getFBIDDevices fbJIDsToSync s in (s, l ← o; Ok (known ++ synced ++ l))
    end in
  match jidsToSync with
  | [] => after_usync s []
  | _ =>
      match usync jidsToSync "query" "message" devices_query [] false with
      | Ok list => let '(s, synced) := learn_all learn (user_children list) s in after_usync s synced
      | Err e => (s, Err e)
      | Panic => (s, Panic)
      | NoFuel => (s, NoFuel)
      end
  end.

End queries.

(** ** Notifications *)

Section notifications.
Context {C : Crypto} (extra : nat -> nat).

(** The copies of the two lists that the handler works on. *)
Record locals := mkLocals { state : client; l_cached : deviceCache; l_lid : deviceCache }.

Definition set_entry (j : JID) (c : deviceCache) (s : client) : client := mkClient (arrays s) (<[j := c]> (userDevicesCache s)).
Definition drop_entry (j : JID) (s : client) : client := mkClient (arrays s) (delete j (userDevicesCache s)).

(** An operation on the slice of a copy: its hash stays. *)
Definition on_slice (f : slice -> heap -> heap * slice) (c : deviceCache) (s : client) : client * deviceCache :=
  let '(h, sl) := f (devices c) (arrays s) in (mkClient h (userDevicesCache s), mkCache sl (dhash c)).

Definition grow (j : JID) : slice -> heap -> heap * slice := fun sl h => append (extra (Datatypes.S (length (read h sl)))) j sl h.
Definition shrink (j : JID) : slice -> heap -> heap * slice := DeleteFunc (fun d => bool_decide (d = j)).

Definition on_both (op : JID -> slice -> heap -> heap * slice) (j : JID) (lid : option JID) (l : locals) : locals :=
  let '(s, c) := on_slice (op j) (l_cached l) (state l) in
  match lid with
  | Some k => let '(s, cl) := on_slice (op k) (l_lid l) s in mkLocals s c cl
  | None => mkLocals s c (l_lid l)
  end.

(** The copy goes into the map when it has the hash the server gives. *)
Definition keep_or_drop (j : JID) (c : deviceCache) (hash : string) (s : client) : client :=
  if String.eqb (participantListHashV2 (read (arrays s) (devices c))) hash then set_entry j c s else drop_entry j s.

Definition device_hash (child : Node) : string := fst (attrs.String_ "device_hash" (AttrGetter child)).

Definition device_child (from : JID) (fromLID : option JID) (l : locals) (child : Node) : locals :=
  let '(deviceHash, cag) := attrs.String_ "device_hash" (AttrGetter child) in
  let '(deviceLIDHash, _) := OptionalString "device_lid_hash" cag in
  let deviceChild := fst (GetOptionalChildByTag child ["device"]) in
  let changedDeviceJID := fst (JID_ "jid" (AttrGetter deviceChild)) in
  let changedDeviceLID := fst (OptionalJID "lid" (AttrGetter deviceChild)) in
  let finish l :=
    let s := keep_or_drop from (l_cached l) deviceHash (state l) in
    let s := match fromLID, changedDeviceLID with
             | Some lid, Some _ => if String.eqb deviceLIDHash "" then s else keep_or_drop lid (l_lid l) deviceLIDHash s
             | _, _ => s
             end in
    mkLocals s (l_cached l) (l_lid l) in
  if String.eqb (node_tag child) "add" then finish (on_both grow changedDeviceJID changedDeviceLID l)
  else if String.eqb (node_tag child) "remove" then finish (on_both shrink changedDeviceJID changedDeviceLID l)
  else if String.eqb (node_tag child) "update" then mkLocals (drop_entry from (state l)) (l_cached l) (l_lid l)
  else l.

Definition notification_from (node : Node) : JID := fst (JID_ "from" (AttrGetter node)).
Definition notification_lid (node : Node) : option JID := fst (OptionalJID "lid" (snd (JID_ "from" (AttrGetter node)))).

(** The pair of addresses is stored before this. *)
Definition handleDeviceNotification (node : Node) (s : client) : client :=
  let from := notification_from node in
  let fromLID := notification_lid node in
  match userDevicesCache s !! from with
  | None => s
  | Some c =>
      let cachedLID := match fromLID with Some lid => default no_devices (userDevicesCache s !! lid) | None => no_devices end in
      state (foldl (device_child from fromLID) (mkLocals s c cachedLID) (GetChildren node))
  end.

Definition handleFBDeviceNotification (node : Node) (s : client) : client :=
  let j := fst (JID_ "from" (AttrGetter node)) in
  let '(l, hash) := parseFBDeviceList j (GetChildByTag node ["devices"]) in store_list j l hash s.

(** The devices a list names, and the same devices under the other address. *)
Definition own_devices (altJID : JID) (node : Node) : list JID * list JID :=
  let l := omap (fun child => let j := fst (JID_ "jid" (AttrGetter child)) in
                   if String.eqb (node_tag child) "device" && negb (IsEmpty j) then Some j else None) (GetChildren node) in
  (l, map (fun j => mkJID (User altJID) (RawAgent altJID) (Device j) (Integrator altJID) (Server altJID)) l).

Definition handleOwnDevicesNotification (node : Node) (fromJID ownJID ownLID : JID) (s : client) : client :=
  let ownLID := ToNonAD ownLID in
  let ownID := ToNonAD ownJID in
  if IsEmpty ownID then s
  else
    let plain := ToNonAD fromJID in
    let alt := if bool_decide (plain = ownID) then Some ownLID else if bool_decide (plain = ownLID) then Some ownID else None in
    match alt with
    | None => s
    | Some altJID =>
        let '(newDeviceList, altDeviceList) := own_devices altJID node in
        let expectedNewHash := fst (attrs.String_ "dhash" (AttrGetter node)) in
        if String.eqb (participantListHashV2 newDeviceList) expectedNewHash then
          store_list altJID altDeviceList (participantListHashV2 altDeviceList) (store_list plain newDeviceList expectedNewHash s)
        else drop_entry ownLID (drop_entry ownID s)
    end.

(** ** The shape of the cache *)

Definition valid (h : heap) (sl : slice) : Prop :=
  match sl with Some (p, n) => exists a, h !! p = Some a /\ (n <= length a)%nat | None => True end.

Definition apart (s1 s2 : slice) : Prop :=
  match s1, s2 with Some (p, _), Some (q, _) => p <> q | _, _ => True end.

(** Every list is within its array, and no two users share one. *)
Record cache_ok (s : client) : Prop := {
  ok_valid j c : userDevicesCache s !! j = Some c -> valid (arrays s) (devices c);
  ok_apart j k c d : userDevicesCache s !! j = Some c -> userDevicesCache s !! k = Some d -> j <> k -> apart (devices c) (devices d)
}.

(** A copy of a user's list: apart from the lists of the others. *)
Record copy_of (s : client) (owner : JID -> Prop) (c : deviceCache) : Prop := {
  copy_valid : valid (arrays s) (devices c);
  copy_apart k d : userDevicesCache s !! k = Some d -> ~ owner k -> apart (devices c) (devices d)
}.

(** An operation on a slice: it stays within its array, and slices of other arrays
    are not touched. *)
Record slice_step (h : heap) (sl : slice) (h' : heap) (sl' : slice) : Prop := {
  step_valid : valid h' sl';
  step_all sl2 : valid h sl2 -> valid h' sl2;
  step_others sl2 : valid h sl2 -> apart sl sl2 -> read h' sl2 = read h sl2 /\ apart sl' sl2
}.

Lemma valid_app h xs sl : valid h sl -> valid (h ++ xs) sl /\ read (h ++ xs) sl = read h sl.
Proof.
  destruct sl as [[p n]|]; [|done]. intros (a & Ha & Hn). cbn. split; [exists a; split; [by apply lookup_app_l_Some|done]|].
  by rewrite lookup_app_l by (by apply lookup_lt_Some in Ha).
Qed.

Lemma valid_alter h p f sl : (forall a, length (f a) = length a) -> valid h sl -> valid (alter f p h) sl.
Proof.
  intros Hf. destruct sl as [[q n]|]; [|done]. intros (a & Ha & Hn). destruct (decide (p = q)) as [->|Hne]; cbn.
  - rewrite list_lookup_alter_eq, Ha. exists (f a). by rewrite Hf.
  - rewrite list_lookup_alter_ne by done. by exists a.
Qed.

Lemma read_alter h p n f sl : valid h sl -> apart (Some (p, n)) sl -> read (alter f p h) sl = read h sl.
Proof. destruct sl as [[q m]|]; [|done]. intros _ Hne. cbn in *. by rewrite list_lookup_alter_ne. Qed.

Lemma read_length h p n a : h !! p = Some a -> (n <= length a)%nat -> length (read h (Some (p, n))) = n.
Proof. intros Ha Hn. cbn. rewrite Ha. cbn. rewrite length_take. lia. Qed.

Lemma new_array_step h sl a n : (n <= length a)%nat -> slice_step h sl (h ++ [a]) (Some (length h, n)).
Proof.
  intros Hn. split.
  - exists a. by rewrite lookup_app_r, Nat.sub_diag.
  - intros sl2 H. by apply valid_app.
  - intros sl2 H _. split; [by apply valid_app|]. destruct sl2 as [[q m]|]; [|done]. destruct H as (b & Hb & _).
    apply lookup_lt_Some in Hb. cbn. lia.
Qed.

Lemma append_step k x sl h h' sl' : valid h sl -> append k x sl h = (h', sl') ->
  slice_step h sl h' sl' /\ read h' sl' = read h sl ++ [x].
Proof.
  intros Hv. unfold append. destruct sl as [[p len]|].
  - destruct Hv as (a & Ha & Hn). unfold capacity. rewrite Ha. cbn [default from_option]. unfold id.
    destruct (Nat.ltb_spec len (length a)) as [Hlt|Hge]; intros [= <- <-].
    + assert (forall b : list JID, length (<[len:=x]> b) = length b) as Hlen by (intros; apply length_insert). split.
      * split; [|intros; by apply valid_alter|].
        -- exists (<[len:=x]> a). rewrite list_lookup_alter_eq, Ha. split; [done|]. rewrite Hlen. lia.
        -- intros sl2 H2 Hap. split; [by apply (read_alter h p len)|]. by destruct sl2 as [[]|].
      * cbn. rewrite list_lookup_alter_eq, Ha. cbn. rewrite (take_S_r _ _ x) by (by apply list_lookup_insert_eq). by rewrite take_insert_ge.
    + pose proof (read_length h p len a Ha Hn) as Hr. cbn [read] in Hr |- *. rewrite Hr, Ha. change (default [] (Some a)) with a.
      assert (len = length a) as -> by lia. rewrite !take_ge by done.
      split; [apply new_array_step; rewrite length_app; cbn; lia|]. rewrite lookup_app_r, Nat.sub_diag by done.
      change (default [] ([a ++ x :: replicate k EmptyJID] !! O)) with (a ++ [x] ++ replicate k EmptyJID). rewrite app_assoc.
      replace (Datatypes.S (length a)) with (length (a ++ [x])) by (rewrite length_app; cbn; lia). by rewrite take_app_length.
  - intros [= <- <-]. split; [apply new_array_step; cbn; lia|]. cbn [read]. rewrite lookup_app_r, Nat.sub_diag by done. done.
Qed.

Lemma delete_step del sl h h' sl' : valid h sl -> DeleteFunc del sl h = (h', sl') ->
  slice_step h sl h' sl' /\ read h' sl' = filter (fun j => del j = false) (read h sl).
Proof.
  intros Hv. unfold DeleteFunc. destruct sl as [[p len]|]; [|intros [= <- <-]; split; [by split|done]].
  destruct Hv as (a & Ha & Hn). intros [= <- <-]. set (kept := filter _ _).
  assert (length kept <= len)%nat as Hk. { unfold kept. rewrite <- (read_length h p len a Ha Hn) at 2. apply length_filter. }
  assert (h !! p = Some a -> length (kept ++ replicate (len - length kept) EmptyJID ++ drop len a) = length a) as Hlen.
  { intros _. rewrite !length_app, length_replicate, length_drop. lia. }
  assert (forall sl2, valid h sl2 -> valid (alter (fun b => kept ++ replicate (len - length kept) EmptyJID ++ drop len b) p h) sl2) as Hall.
  { intros sl2 H2. destruct sl2 as [[q m]|]; [|done]. destruct H2 as (b & Hb & Hm). destruct (decide (p = q)) as [->|Hne]; cbn.
    - rewrite list_lookup_alter_eq, Hb. eexists. split; [done|]. replace b with a in * by congruence. by rewrite Hlen.
    - rewrite list_lookup_alter_ne by done. by exists b. }
  split; [split; [|done|]|].
  - cbn. rewrite list_lookup_alter_eq, Ha. eexists. split; [done|]. rewrite Hlen by done. lia.
  - intros sl2 H2 Hap. split; [by apply (read_alter h p len)|]. by destruct sl2 as [[]|].
  - cbn. rewrite list_lookup_alter_eq, Ha. cbn. by rewrite take_app_length.
Qed.

Lemma apart_sym a b : apart a b -> apart b a.
Proof. destruct a as [[]|], b as [[]|]; cbn; congruence. Qed.

Definition steps_slices (f : slice -> heap -> heap * slice) : Prop :=
  forall sl h h' sl', valid h sl -> f sl h = (h', sl') -> slice_step h sl h' sl'.

Lemma grow_steps j : steps_slices (grow j).
Proof. intros sl h h' sl' Hv H. by apply (append_step _ _ _ _ _ _ Hv) in H as [? _]. Qed.

Lemma shrink_steps j : steps_slices (shrink j).
Proof. intros sl h h' sl' Hv H. by apply (delete_step _ _ _ _ _ Hv) in H as [? _]. Qed.

(** An operation on a copy changes the list of its owner at most. *)
Lemma on_slice_ok f owner c s s' c' : steps_slices f -> cache_ok s -> copy_of s owner c -> on_slice f c s = (s', c') ->
  cache_ok s' /\ copy_of s' owner c' /\ userDevicesCache s' = userDevicesCache s /\
  (forall owner' d, copy_of s owner' d -> copy_of s' owner' d) /\
  (forall d, valid (arrays s) (devices d) -> apart (devices c) (devices d) -> apart (devices c') (devices d) /\ read (arrays s') (devices d) = read (arrays s) (devices d)) /\
  (forall k, ~ owner k -> cached s' k = cached s k).
Proof.
  intros Hf [Hv Ha] [Hcv Hca] E. unfold on_slice in E. destruct (f (devices c) (arrays s)) as [h sl] eqn:Ef. injection E as <- <-.
  destruct (Hf _ _ _ _ Hcv Ef) as [S1 S2 S3]. cbn. split; [|split; [|split; [done|split; [|split]]]].
  - split; cbn; [intros j d Hd; by apply S2, (Hv j)|done].
  - split; cbn; [done|]. intros k d Hd Hk. apply S3; [by apply (Hv k)|by apply (Hca k)].
  - intros owner' d [H1 H2]. split; cbn; [by apply S2|done].
  - intros d Hd Hap. by destruct (S3 (devices d) Hd Hap).
  - intros k Hk. unfold cached. cbn. destruct (userDevicesCache s !! k) as [d|] eqn:Ed; [|done]. cbn. f_equal. apply S3; [by apply (Hv k)|by apply (Hca k)].
Qed.

Lemma cache_set s j c (owner : JID -> Prop) : cache_ok s -> copy_of s owner c -> (forall k, owner k -> k = j) -> cache_ok (set_entry j c s).
Proof.
  intros [Hv Ha] [Hcv Hca] Ho. split; cbn.
  - intros k d Hd. apply lookup_insert_Some in Hd as [[_ <-]|[_ Hd]]; [done|by apply (Hv k)].
  - intros k1 k2 d1 d2 H1 H2 Hne. apply lookup_insert_Some in H1 as [[<- <-]|[Hn1 H1]]; apply lookup_insert_Some in H2 as [[<- <-]|[Hn2 H2]].
    + done.
    + apply (Hca k2); [done|]. intros ?%Ho. congruence.
    + apply apart_sym, (Hca k1); [done|]. intros ?%Ho. congruence.
    + by apply (Ha k1 k2).
Qed.

Lemma cache_drop s j : cache_ok s -> cache_ok (drop_entry j s).
Proof.
  intros [Hv Ha]. split; cbn.
  - intros k d Hd. apply lookup_delete_Some in Hd as [_ Hd]. by apply (Hv k).
  - intros k1 k2 d1 d2 H1 H2. apply lookup_delete_Some in H1 as [_ H1], H2 as [_ H2]. by apply (Ha k1 k2).
Qed.

Lemma copy_set s j c (owner owner' : JID -> Prop) d : copy_of s owner' d -> (~ owner' j -> apart (devices c) (devices d)) -> copy_of (set_entry j c s) owner' d.
Proof.
  intros [H1 H2] Hap. split; cbn; [done|]. intros k e He Hk. apply lookup_insert_Some in He as [[<- <-]|[_ He]]; [|by apply (H2 k)].
  by apply apart_sym, Hap.
Qed.

Lemma copy_drop s j (owner : JID -> Prop) d : copy_of s owner d -> copy_of (drop_entry j s) owner d.
Proof. intros [H1 H2]. split; cbn; [done|]. intros k e He. apply lookup_delete_Some in He as [_ He]. by apply (H2 k). Qed.

(** What holds at each child: the copies belong to the two users, and are apart
    when the users differ. *)
Record loop_ok (from : JID) (fromLID : option JID) (l : locals) : Prop := {
  loop_cache : cache_ok (state l);
  loop_cached : copy_of (state l) (fun k => k = from) (l_cached l);
  loop_lid : copy_of (state l) (fun k => fromLID = Some k) (l_lid l);
  loop_apart : fromLID <> Some from -> apart (devices (l_cached l)) (devices (l_lid l))
}.

Lemma on_both_ok from fromLID op j lid l : (forall k, steps_slices (op k)) -> loop_ok from fromLID l -> loop_ok from fromLID (on_both op j lid l) /\
  (forall k, k <> from -> fromLID <> Some k -> cached (state (on_both op j lid l)) k = cached (state l) k).
Proof.
  intros Hop [L1 L2 L3 L4]. unfold on_both. destruct (on_slice (op j) (l_cached l) (state l)) as [s1 c1] eqn:E1.
  destruct (on_slice_ok _ _ _ _ _ _ (Hop j) L1 L2 E1) as (A1 & A2 & A3 & A4 & A5 & A6).
  destruct lid as [k|].
  - destruct (on_slice (op k) (l_lid l) s1) as [s2 c2] eqn:E2. pose proof (A4 _ _ L3) as L3'.
    destruct (on_slice_ok _ _ _ _ _ _ (Hop k) A1 L3' E2) as (B1 & B2 & B3 & B4 & B5 & B6). split; [split; cbn; [done|by apply B4|done|]|].
    + intros Hne. destruct (A5 (l_lid l) (copy_valid _ _ _ L3) (L4 Hne)) as [Hap _].
      apply apart_sym, B5; [apply (copy_valid _ _ _ A2)|by apply apart_sym].
    + intros m Hm Hlm. cbn. rewrite B6 by done. by apply A6.
  - split; [split; cbn; [done|done|by apply A4|]|].
    + intros Hne. by apply A5; [apply (copy_valid _ _ _ L3)|apply L4].
    + intros m Hm _. by apply A6.
Qed.

Lemma keep_cases j c hash s : keep_or_drop j c hash s = set_entry j c s \/ keep_or_drop j c hash s = drop_entry j s.
Proof. unfold keep_or_drop. destruct (String.eqb _ _); [by left|by right]. Qed.

Lemma keep_read j c hash s l : cached (keep_or_drop j c hash s) j = Some l -> participantListHashV2 l = hash.
Proof.
  unfold keep_or_drop, cached. destruct (String.eqb_spec (participantListHashV2 (read (arrays s) (devices c))) hash); cbn.
  - rewrite lookup_insert_eq. by intros [= <-].
  - by rewrite lookup_delete_eq.
Qed.

Lemma keep_other j c hash s k : k <> j -> cached (keep_or_drop j c hash s) k = cached s k.
Proof.
  intros Hne. destruct (keep_cases j c hash s) as [->| ->]; unfold cached; cbn; [by rewrite lookup_insert_ne|by rewrite lookup_delete_ne].
Qed.

Lemma keep_from_ok from fromLID l hash : loop_ok from fromLID l ->
  loop_ok from fromLID (mkLocals (keep_or_drop from (l_cached l) hash (state l)) (l_cached l) (l_lid l)).
Proof.
  intros [L1 L2 L3 L4]. destruct (keep_cases from (l_cached l) hash (state l)) as [->| ->]; (split; cbn; [| | |done]).
  - by eapply cache_set.
  - apply (copy_set _ _ _ (fun k => k = from)); [done|]. by intros [].
  - apply (copy_set _ _ _ (fun k => k = from)); done.
  - by apply cache_drop.
  - by apply copy_drop.
  - by apply copy_drop.
Qed.

Lemma keep_lid_ok from lid l hash : loop_ok from (Some lid) l ->
  loop_ok from (Some lid) (mkLocals (keep_or_drop lid (l_lid l) hash (state l)) (l_cached l) (l_lid l)).
Proof.
  intros [L1 L2 L3 L4]. destruct (keep_cases lid (l_lid l) hash (state l)) as [->| ->]; (split; cbn; [| | |done]).
  - eapply cache_set; [done|done|]. by intros k [= ->].
  - apply (copy_set _ _ _ (fun k => Some lid = Some k)); [done|]. intros Hne. apply apart_sym, L4. congruence.
  - apply (copy_set _ _ _ (fun k => Some lid = Some k)); [done|]. by intros [].
  - by apply cache_drop.
  - by apply copy_drop.
  - by apply copy_drop.
Qed.

(** One change of the lists. *)
Lemma device_child_ok from fromLID l child : loop_ok from fromLID l ->
  loop_ok from fromLID (device_child from fromLID l child) /\
  (forall k, k <> from -> fromLID <> Some k -> cached (state (device_child from fromLID l child)) k = cached (state l) k) /\
  (fromLID <> Some from -> forall ds, cached (state (device_child from fromLID l child)) from = Some ds ->
     cached (state l) from = Some ds \/ participantListHashV2 ds = device_hash child).
Proof.
  intros Hl. unfold device_child, device_hash. destruct (attrs.String_ "device_hash" (AttrGetter child)) as [dh cag]. cbn [fst].
  destruct (OptionalString "device_lid_hash" cag) as [dlh cag']. set (dj := fst (JID_ _ _)). set (dl := fst (OptionalJID _ _)).
  assert (forall l1, loop_ok from fromLID l1 -> (forall k, k <> from -> fromLID <> Some k -> cached (state l1) k = cached (state l) k) ->
    let l2 := (let s := keep_or_drop from (l_cached l1) dh (state l1) in
      let s := match fromLID, dl with Some lid, Some _ => if String.eqb dlh "" then s else keep_or_drop lid (l_lid l1) dlh s | _, _ => s end in
      mkLocals s (l_cached l1) (l_lid l1)) in
    loop_ok from fromLID l2 /\ (forall k, k <> from -> fromLID <> Some k -> cached (state l2) k = cached (state l) k) /\
    (fromLID <> Some from -> forall ds, cached (state l2) from = Some ds -> participantListHashV2 ds = dh)) as Hfin.
  { intros l1 H1 Hk. cbv zeta. pose proof (keep_from_ok from fromLID l1 dh H1) as H2.
    set (s2 := keep_or_drop from (l_cached l1) dh (state l1)) in *.
    assert (forall k, k <> from -> fromLID <> Some k -> cached s2 k = cached (state l) k) as Hk2.
    { intros k Hn Hn'. unfold s2. rewrite keep_other by done. by apply Hk. }
    assert (forall ds, cached s2 from = Some ds -> participantListHashV2 ds = dh) as Hf2 by (intros ds; apply keep_read).
    destruct fromLID as [lid|], dl as [d|]; cbn [state]; try (by split; [|split]).
    destruct (String.eqb dlh ""); [by split; [|split]|]. split; [exact (keep_lid_ok from lid _ dlh H2)|]. split.
    - intros k Hn Hn'. rewrite keep_other by congruence. by apply Hk2.
    - intros Hne ds. rewrite keep_other by congruence. apply Hf2. }
  destruct (String.eqb (node_tag child) "add"); [|destruct (String.eqb (node_tag child) "remove"); [|destruct (String.eqb (node_tag child) "update")]].
  - destruct (on_both_ok from fromLID grow dj dl l grow_steps Hl) as [B1 B2]. destruct (Hfin _ B1 B2) as (F1 & F2 & F3). split; [exact F1|]. split; [exact F2|].
    intros Hne ds Hds. right. by apply F3.
  - destruct (on_both_ok from fromLID shrink dj dl l shrink_steps Hl) as [B1 B2]. destruct (Hfin _ B1 B2) as (F1 & F2 & F3). split; [exact F1|]. split; [exact F2|].
    intros Hne ds Hds. right. by apply F3.
  - destruct Hl as [L1 L2 L3 L4]. split; [split; cbn; [by apply cache_drop|by apply copy_drop|by apply copy_drop|done]|]. split.
    + intros k Hn _. unfold cached. cbn. by rewrite lookup_delete_ne.
    + intros _ ds. unfold cached. cbn. by rewrite lookup_delete_eq.
  - split; [done|]. split; [done|]. intros _ ds Hds. by left.
Qed.

Lemma device_children_ok from fromLID cs l : loop_ok from fromLID l -> let l' := foldl (device_child from fromLID) l cs in
  loop_ok from fromLID l' /\
  (forall k, k <> from -> fromLID <> Some k -> cached (state l') k = cached (state l) k) /\
  (fromLID <> Some from -> forall ds, cached (state l') from = Some ds ->
     cached (state l) from = Some ds \/ exists child, child ∈ cs /\ participantListHashV2 ds = device_hash child).
Proof.
  revert l. induction cs as [|c cs IH]; intros l Hl; cbn [foldl]; [split; [done|]; split; [done|]; by left|].
  destruct (device_child_ok from fromLID l c Hl) as (C1 & C2 & C3). destruct (IH _ C1) as (D1 & D2 & D3). split; [done|]. split.
  - intros k Hn Hn'. rewrite D2 by done. by apply C2.
  - intros Hne ds Hds. destruct (D3 Hne ds Hds) as [H|(child & Hin & H)].
    + destruct (C3 Hne ds H) as [?|?]; [by left|right; exists c; split; [by left|done]].
    + right. exists child. split; [by right|done].
Qed.

Lemma start_ok from fromLID s c : cache_ok s -> userDevicesCache s !! from = Some c ->
  loop_ok from fromLID (mkLocals s c (match fromLID with Some lid => default no_devices (userDevicesCache s !! lid) | None => no_devices end)).
Proof.
  intros Hs Hc. pose proof Hs as [Hv Ha]. assert (forall lid, copy_of s (fun k => Some lid = Some k) (default no_devices (userDevicesCache s !! lid))) as Hlid.
  { intros lid. destruct (userDevicesCache s !! lid) as [d|] eqn:E; cbn; [|by split]. split; [by apply (Hv lid)|]. intros k e He Hne. apply (Ha lid k); [done|done|congruence]. }
  split; cbn.
  - done.
  - split; [by apply (Hv from)|]. intros k d Hd Hne. apply (Ha from k); congruence.
  - destruct fromLID as [lid|]; [apply Hlid|]. by split.
  - intros Hne. destruct fromLID as [lid|]; [|by destruct (devices c) as [[]|]]. destruct (userDevicesCache s !! lid) as [d|] eqn:E; cbn; [|by destruct (devices c) as [[]|]].
    apply (Ha from lid); congruence.
Qed.

(** (C26) After a notification about a user's devices the list kept under the address
    it comes from is gone, or is the one from before, or has a hash the
    notification gives; the lists of users other than the two it names are the
    ones from before, although the lists are changed in place. *)
Theorem device_notification_checked node s : cache_ok s -> let s' := handleDeviceNotification node s in
  (forall k, k <> notification_from node -> notification_lid node <> Some k -> cached s' k = cached s k) /\
  (notification_lid node <> Some (notification_from node) -> forall ds, cached s' (notification_from node) = Some ds ->
     cached s (notification_from node) = Some ds \/ exists child, child ∈ GetChildren node /\ participantListHashV2 ds = device_hash child).
Proof.
  intros Hs. unfold handleDeviceNotification. destruct (userDevicesCache s !! notification_from node) as [c|] eqn:Ec.
  - destruct (device_children_ok _ _ (GetChildren node) _ (start_ok _ (notification_lid node) s c Hs Ec)) as (_ & H2 & H3). by split.
  - split; [done|]. intros _ ds. by left.
Qed.

(** ** Every operation keeps the shape *)

Lemma store_list_ok j l hash s : cache_ok s -> cache_ok (store_list j l hash s).
Proof.
  intros [Hv Ha]. split; cbn.
  - intros k c Hc. apply lookup_insert_Some in Hc as [[_ <-]|[_ Hc]]; [|by apply valid_app, (Hv k)].
    cbn. exists l. by rewrite lookup_app_r, Nat.sub_diag.
  - assert (forall k d, userDevicesCache s !! k = Some d -> apart (Some (length (arrays s), length l)) (devices d)) as Hnew.
    { intros k d Hd. specialize (Hv k d Hd). destruct (devices d) as [[q m]|]; [|done]. destruct Hv as (a & Hq & _). apply lookup_lt_Some in Hq. cbn. lia. }
    intros k1 k2 c1 c2 H1 H2 Hne. apply lookup_insert_Some in H1 as [[<- <-]|[_ H1]]; apply lookup_insert_Some in H2 as [[<- <-]|[_ H2]].
    + done.
    + by apply (Hnew k2).
    + by apply apart_sym, (Hnew k1).
    + by apply (Ha k1 k2).
Qed.

Lemma learn_all_ok (f : client -> JID * Node -> client * list JID) (us : list (JID * Node)) (s : client) (acc : list JID) :
  (forall s u, cache_ok s -> cache_ok (fst (f s u))) -> cache_ok s ->
  cache_ok (fst (foldl (fun acc u => let '(s, l) := f (fst acc) u in (s, snd acc ++ l)) (s, acc) us)).
Proof.
  intros Hf. revert s acc. induction us as [|u us IH]; intros s acc Hs; [done|]. cbn [foldl fst snd].
  pose proof (Hf s u Hs) as H. destruct (f s u) as [s1 l]. by apply IH.
Qed.

Lemma learn_ok s u : cache_ok s -> cache_ok (fst (learn s u)).
Proof. intros. by apply store_list_ok. Qed.

Lemma learn_fb_ok s u : cache_ok s -> cache_ok (fst (learn_fb s u)).
Proof. intros. unfold learn_fb. destruct (parseFBDeviceList _ _). by apply store_list_ok. Qed.

Lemma fb_chunks_ok sendIQ cs s : cache_ok s -> cache_ok (fst (fb_chunks sendIQ cs s)).
Proof.
  revert s. induction cs as [|c cs IH]; intros s Hs; cbn [fb_chunks]; [done|].
  destruct (getFBIDDevicesInternal sendIQ c) as [us| | |]; try done.
  pose proof (learn_all_ok learn_fb (user_children us) s [] learn_fb_ok Hs) as H. unfold learn_all.
  destruct (foldl _ _ _) as [s1 l]. specialize (IH s1 H). by destruct (fb_chunks sendIQ cs s1).
Qed.

Lemma getFBIDDevices_ok sendIQ jids s : cache_ok s -> cache_ok (fst (getFBIDDevices sendIQ jids s)).
Proof. apply fb_chunks_ok. Qed.

Lemma GetUserDevices_ok sendIQ sid tokens jids s : cache_ok s -> cache_ok (fst (GetUserDevices sendIQ sid tokens jids s)).
Proof.
  intros Hs. unfold GetUserDevices. cbv zeta. set (syncs := filter _ jids). set (fb := filter _ jids). clearbody fb syncs.
  destruct syncs as [|j syncs].
  - destruct fb as [|k fb]; [done|]. pose proof (getFBIDDevices_ok sendIQ (k :: fb) s Hs) as H. by destruct (getFBIDDevices sendIQ (k :: fb) s).
  - destruct (usync _ _ _ _ _ _ _ _ _) as [us| | |]; try done.
    pose proof (learn_all_ok learn (user_children us) s [] learn_ok Hs) as H. unfold learn_all. destruct (foldl _ _ _) as [s1 l].
    destruct fb as [|k fb]; [done|]. pose proof (getFBIDDevices_ok sendIQ (k :: fb) s1 H) as H1. by destruct (getFBIDDevices sendIQ (k :: fb) s1).
Qed.

Lemma handleDeviceNotification_ok node s : cache_ok s -> cache_ok (handleDeviceNotification node s).
Proof.
  intros Hs. unfold handleDeviceNotification. destruct (userDevicesCache s !! notification_from node) as [c|] eqn:Ec; [|done].
  apply (device_children_ok _ _ (GetChildren node) _ (start_ok _ (notification_lid node) s c Hs Ec)).
Qed.

Lemma handleOwn_ok node fromJID ownJID ownLID s : cache_ok s -> cache_ok (handleOwnDevicesNotification node fromJID ownJID ownLID s).
Proof.
  intros Hs. unfold handleOwnDevicesNotification. destruct (IsEmpty _); [done|]. destruct (if bool_decide _ then _ else _) as [alt|]; [|done].
  destruct (own_devices alt node). destruct (String.eqb _ _); [by apply store_list_ok, store_list_ok|by apply cache_drop, cache_drop].
Qed.

(** What happens to the cache: fetching devices, the notifications, and a server's
    hash that differs after a message. *)
Inductive operation :=
  | Fetch (sendIQ : infoQuery -> outcome iq_error Node) (sid : string) (tokens : JID -> option bytes) (jids : list JID)
  | DeviceChange (node : Node)
  | FBDeviceChange (node : Node)
  | OwnDeviceChange (node : Node) (from ownJID ownLID : JID)
  | HashMismatch (j : JID).

Definition run_operation (s : client) (o : operation) : client :=
  match o with
  | Fetch sendIQ sid tokens jids => fst (GetUserDevices sendIQ sid tokens jids s)
  | DeviceChange node => handleDeviceNotification node s
  | FBDeviceChange node => handleFBDeviceNotification node s
  | OwnDeviceChange node from ownJID ownLID => handleOwnDevicesNotification node from ownJID ownLID s
  | HashMismatch j => drop_entry j s
  end.

Definition empty_cache : client := mkClient [] ∅.

(** (C27) Whatever fetches and notifications there have been, every cached list lies
    within its array and no two users' lists share one, so that no change in place
    of one user's list can change another's. *)
Theorem device_cache_ok ops : cache_ok (foldl run_operation empty_cache ops).
Proof.
  assert (cache_ok empty_cache) as H by (split; cbn; intros *; by rewrite ?lookup_empty). revert H. generalize empty_cache.
  induction ops as [|o ops IH]; intros s Hs; cbn [foldl]; [done|]. apply IH. destruct o; cbn [run_operation].
  - by apply GetUserDevices_ok.
  - by apply handleDeviceNotification_ok.
  - unfold handleFBDeviceNotification. destruct (parseFBDeviceList _ _). by apply store_list_ok.
  - by apply handleOwn_ok.
  - by apply cache_drop.
Qed.

End notifications.

(** Users whose lists are cached are answered from the cache, without a query. *)
Lemma cached_devices_served {C : Crypto} sendIQ sid tokens jids ls s :
  Forall2 (fun j l => cached s j = Some l /\ l <> []) jids ls -> GetUserDevices sendIQ sid tokens jids s = (s, Ok (concat ls)).
Proof.
  intros H. unfold GetUserDevices.
  assert (map (fun j => match lookup_devices s j with Known l => l | _ => [] end) jids = ls /\
    filter (fun j => wants_sync s j = true) jids = [] /\ filter (fun j => wants_fb_sync s j = true) jids = []) as (E1 & E2 & E3).
  { induction H as [|j l jids ls [Hj Hl] _ (E1 & E2 & E3)]; [done|]. cbn [map]. rewrite !filter_cons. unfold wants_sync, wants_fb_sync, lookup_devices in *.
    rewrite Hj. destruct l as [|d l]; [done|]. cbn. by rewrite E1, E2, E3. }
  rewrite E1, E2, E3. by rewrite app_nil_r.
Qed.

(** ** Runs *)

Module samples.
(** A hash of six bytes that tells the sample lists apart. *)
Definition digest (b : bytes) : bytes :=
  map (fun i => z2b (foldl (fun acc x => (acc * (30 + i) + b2z x + i) mod 251) i b)) [1; 2; 3; 4; 5; 6].

#[local] Instance hashing : Crypto :=
  {| gcm_seal _ _ p _ := p; gcm_open _ _ p _ := Some p; sha256 := digest; hmac_sha256 k b := b; hmac_sha512 k b := b;
     hkdf_stream _ _ _ _ := x00; x25519 a b := Some b; x25519_base b := b; verify_signature _ _ _ := true;
     calculate_signature _ b := b; aes_block_enc _ b := b; aes_block_dec _ b := b |}.

Definition pn : JID := mkJID "15550000001" 0 0 0 DefaultUserServer.
Definition lid : JID := mkJID "2000" 0 0 0 HiddenUserServer.
Definition device (j : JID) (n : Z) : JID := mkJID (User j) 0 n 0 (Server j).

(** Lists of two devices under both addresses. *)
Definition both_cached : client := store_list lid [device lid 0; device lid 5] "" (store_list pn [device pn 0; device pn 5] "" empty_cache).
Definition lid_cached : client := store_list lid [device lid 0; device lid 5] "" empty_cache.

Definition notification (tag : string) (hashes : Attrs) (n : Z) : Node :=
  mkNode "notification" [("from", AJID pn); ("lid", AJID lid)]
    (ANodes [mkNode tag hashes (ANodes [mkNode "device" [("jid", AJID (device pn n)); ("lid", AJID (device lid n))] ANil])]).

Definition removal : Node :=
  notification "remove" [("device_hash", AString (participantListHashV2 [device pn 5])); ("device_lid_hash", AString (participantListHashV2 [device lid 5]))] 0.

Lemma both_cached_ok : cache_ok both_cached.
Proof. apply store_list_ok, store_list_ok. split; cbn; intros *; by rewrite ?lookup_empty. Qed.

Lemma device_notification_checked_witness : cache_ok both_cached /\
  cached (handleDeviceNotification (fun _ => 0%nat) removal both_cached) pn = Some [device pn 5] /\
  cached (handleDeviceNotification (fun _ => 0%nat) removal both_cached) lid = Some [device lid 5] /\
  (cached both_cached pn = Some [device pn 5] \/ exists child, child ∈ GetChildren removal /\ participantListHashV2 [device pn 5] = device_hash child).
Proof.
  split; [exact both_cached_ok|]. split; [vm_compute; reflexivity|]. split; [vm_compute; reflexivity|].
  refine (proj2 (device_notification_checked (fun _ => 0%nat) removal both_cached both_cached_ok) _ [device pn 5] _); [vm_compute; discriminate|vm_compute; reflexivity].
Defined.

(** Without a hash for the list under the LID the list is changed in place and not
    dropped: an empty identifier is left at its end. *)
Lemma missing_hash_corrupts :
  cached (handleDeviceNotification (fun _ => 0%nat) (notification "remove" [("device_hash", AString (participantListHashV2 [device pn 5]))] 0) both_cached) lid =
  Some [device lid 5; EmptyJID].
Proof. vm_compute. reflexivity. Qed.

(** When only the list under the LID is cached, as after direct messages, the
    notification is ignored and the removed device stays in it. *)
Lemma lid_list_ignored : handleDeviceNotification (fun _ => 0%nat) removal lid_cached = lid_cached.
Proof. vm_compute. reflexivity. Qed.

(** An update drops the list under the number only. *)
Lemma update_keeps_lid : let s := handleDeviceNotification (fun _ => 0%nat) (notification "update" [] 0) both_cached in
  cached s pn = None /\ cached s lid = Some [device lid 0; device lid 5].
Proof. vm_compute. done. Qed.

(** A message to oneself has its own devices twice. *)
Lemma own_devices_twice sendIQ sid tokens : GetUserDevices sendIQ sid tokens [lid; lid] lid_cached =
  (lid_cached, Ok [device lid 0; device lid 5; device lid 0; device lid 5]).
Proof. vm_compute. reflexivity. Qed.

End samples.

End devices.
