(* ===== verification/AppStateSync.v ===== *)
(** * appstate.go: fetching, applying and sending app state

    The client's side of app state, over the processor of AppState.v: parsing the
    server's patch lists (appstate/decode.go), fetching pages until there are no
    more, what mutations do to the stores and which events they give, asking for
    missing keys, sending patches with one retry, and recovery. Events are
    collected in the order they are dispatched; goroutines that only dispatch are
    taken to have run. *)

From S2P Require Import Prelude GoStrings StateErr Jid Node Crypto LTHash AppStateStore AppState AppStateProofs AppStateEncode.
From S2P Require Import Requests Sql Contacts TCToken History.

#[local] Open Scope string_scope.
#[local] Open Scope list_scope.
#[local] Open Scope Z_scope.

Module appstate_sync.

Import lthash attrs jid requests appstate appstate_proofs appstate_encode.

(** ** Patch lists *)

Inductive parse_error := ErrUnmarshal | ErrDownload | ErrNoMutations | ErrAttrs (l : list attr_error).

Section parsing.
Context {P : AppStateProto}.
(** The reference in a snapshot node; what a reference downloads to. *)
Context (unmarshal_reference : bytes -> option bytes) (downloadExternal : bytes -> option bytes).

Definition or_error {A} (e : parse_error) (o : option A) : outcome parse_error A := match o with Some a => Ok a | None => Err e end.

Definition parseSnapshotInternal (collection : Node) : outcome parse_error (option SyncdSnapshot) :=
  let snapshotNode := GetChildByTag collection ["snapshot"] in
  match node_content snapshotNode with
  | ABytes rawSnapshot =>
      if negb (String.eqb (node_tag snapshotNode) "snapshot") then Ok None
      else
        ref ← or_error ErrUnmarshal (unmarshal_reference rawSnapshot);
        rawData ← or_error ErrDownload (downloadExternal ref);
        downloaded ← or_error ErrUnmarshal (unmarshal_snapshot rawData);
        Ok (Some downloaded)
  | _ => Ok None
  end.

(** External mutations take the place of the patch's own. *)
Definition with_external (patch : SyncdPatch) : outcome parse_error SyncdPatch :=
  match p_External patch with
  | None => Ok patch
  | Some ref =>
      rawData ← or_error ErrDownload (downloadExternal ref);
      downloaded ← or_error ErrUnmarshal (unmarshal_mutations rawData);
      match downloaded with
      | [] => Err ErrNoMutations
      | _ => Ok (mkPatch (p_Version patch) downloaded (p_SnapshotMAC patch) (p_PatchMAC patch) (p_KeyID patch) (p_External patch))
      end
  end.

Fixpoint parsePatches (patchNodes : list Node) : outcome parse_error (list SyncdPatch) :=
  match patchNodes with
  | [] => Ok []
  | patchNode :: rest =>
      match node_content patchNode with
      | ABytes rawPatch =>
          if negb (String.eqb (node_tag patchNode) "patch") then parsePatches rest
          else
            patch ← or_error ErrUnmarshal (unmarshal_patch rawPatch);
            patch ← with_external patch;
            patches ← parsePatches rest;
            Ok (patch :: patches)
      | _ => parsePatches rest
      end
  end.

Definition parsePatchListInternal (collection : Node) : outcome parse_error (list SyncdPatch) :=
  parsePatches (GetChildren (GetChildByTag collection ["patches"])).

Definition ParsePatchList (collection : Node) : outcome parse_error PatchList :=
  let ag := AttrGetter collection in
  snapshot ← parseSnapshotInternal collection;
  patches ← parsePatchListInternal collection;
  let '(name, ag) := attrs.String_ "name" ag in
  let '(more, ag) := OptionalBool "has_more_patches" ag in
  match Error ag with
  | None => Ok (mkPatchList name more patches snapshot)
  | Some l => Err (ErrAttrs l)
  end.

End parsing.

(** ** Events *)

Definition IndexContact := "contact".
Definition IndexClearChat := "clearChat".
Definition IndexDeleteMessageForMe := "deleteMessageForMe".
Definition IndexSettingUnarchiveChats := "setting_unarchiveChats".
Definition IndexUserStatusMute := "userStatusMute".
Definition IndexNCTSaltSync := "nct_salt_sync".

(** types/events/appstate.go; [action] is nil when the value holds another one. *)
Inductive app_event :=
  | Mute (j : JID) (ts : gotime) (action : option sync_action) (fromFullSync : bool)
  | Pin (j : JID) (ts : gotime) (action : option sync_action) (fromFullSync : bool)
  | Archive (j : JID) (ts : gotime) (action : option sync_action) (fromFullSync : bool)
  | Contact (j : JID) (ts : gotime) (action : option sync_action) (fromFullSync : bool)
  | ClearChat (j : JID) (ts : gotime) (action : option sync_action) (fromFullSync deleteMedia : bool)
  | DeleteChat (j : JID) (ts : gotime) (action : option sync_action) (fromFullSync deleteMedia : bool)
  | Star (chat sender : JID) (fromMe : bool) (id : string) (ts : gotime) (action : option sync_action) (fromFullSync : bool)
  | DeleteForMe (chat sender : JID) (fromMe : bool) (id : string) (ts : gotime) (action : option sync_action) (fromFullSync : bool)
  | MarkChatAsRead (j : JID) (ts : gotime) (action : option sync_action) (fromFullSync : bool)
  | PushNameChanged (ts : gotime) (action : option sync_action) (fromFullSync : bool)
  | UnarchiveChats (ts : gotime) (action : option sync_action) (fromFullSync : bool)
  | UserStatusMute (j : JID) (ts : gotime) (action : option sync_action) (fromFullSync : bool)
  | LabelEdit (ts : gotime) (labelID : string) (action : option sync_action) (fromFullSync : bool)
  | LabelAssociationChat (j : JID) (ts : gotime) (labelID : string) (action : option sync_action) (fromFullSync : bool)
  | LabelAssociationMessage (j : JID) (ts : gotime) (labelID messageID : string) (action : option sync_action) (fromFullSync : bool)
  | AppStateEvent (index : list string) (value : SyncActionValue)
  | AppStateSyncComplete (name : WAPatchName) (version : Z) (recovery : bool)
  | AppStateSyncError (name : WAPatchName) (e : app_error) (fullSync : bool).

Inductive sync_error :=
  | ErrStoreFailed (e : store_error)
  | ErrIQ (e : iq_error)
  | ErrElementMissing (tag : string)
  | ErrParse (e : parse_error)
  | ErrUnexpectedSnapshot
  | ErrNonEmptyState
  | ErrDecode (e : app_error)
  | ErrContacts
  | ErrNoKeys
  | ErrEncode (e : app_error)
  | ErrAppStateUpdate (n : Node)
  | ErrUpdateAlso (main also : sync_error).

Section sync.
Context {C : Crypto} {P : AppStateProto} {St : Type} {SO : AppStateStore St} {W : Type}.

(** ** The client *)

Record client := mkClient {
  proc : Processor St;
  contact_db : contacts.contact_store;
  settings_db : sql.db (gmap string chatsettings.settings_row) unit;
  salt_db : sql.db privacytokens.token_tables unit;
  PushName : string;
  appStateKeyRequests : gmap bytes Z;     (* when a key was last asked for, in nanoseconds *)
  missing : list PatchList;               (* the lists for whose keys a goroutine is about to ask *)
  dispatched : list app_event;
  world : W
}.

Notation sm A := (stm client sync_error A).

(** What else there is: the server, the blob store, the clock, the random source,
    the primary device, and the handlers of events. *)
Record services := mkServices {
  sendIQ : infoQuery -> W -> W * outcome iq_error Node;
  unmarshal_reference : bytes -> option bytes;
  Download : W -> bytes -> option bytes;
  gunzip : bytes -> option bytes;
  unmarshal_recovery : bytes -> option SnapshotRecovery;
  now : W -> Z;
  ivs : W -> nat -> option bytes;
  send_key_request : list bytes -> W -> W;          (* SendPeerMessage; its error is logged *)
  dedup : forall A, (A -> JID) -> list A -> list A;
  handler_fails : app_event -> bool
}.

Context (V : services) (EmitAppStateEventsOnFullSync : bool).

Definition set_proc (p : Processor St) (s : client) : client :=
  mkClient p (contact_db s) (settings_db s) (salt_db s) (PushName s) (appStateKeyRequests s) (missing s) (dispatched s) (world s).
Definition set_world (w : W) (s : client) : client :=
  mkClient (proc s) (contact_db s) (settings_db s) (salt_db s) (PushName s) (appStateKeyRequests s) (missing s) (dispatched s) w.
Definition set_requests (m : gmap bytes Z) (s : client) : client :=
  mkClient (proc s) (contact_db s) (settings_db s) (salt_db s) (PushName s) m (missing s) (dispatched s) (world s).

(** An operation of the processor or its store. *)
Definition processor {A} (f : app_error -> sync_error) (m : PM (St := St) A) : sm A := fun s =>
  let '(p, o) := m (proc s) in (set_proc p s, map_err f o).
Definition app_store {A} (m : stm St store_error A) : sm A :=
  processor (fun e => match e with ErrStore e => ErrStoreFailed e | e => ErrDecode e end) (store_op m).

(** An operation of the other stores, and one whose error is only logged. *)
Definition contact_op {A} (m : stm contacts.contact_store sql.sql_error A) : sm A := fun s =>
  let '(d, o) := m (contact_db s) in
  (mkClient (proc s) d (settings_db s) (salt_db s) (PushName s) (appStateKeyRequests s) (missing s) (dispatched s) (world s), map_err (fun _ => ErrContacts) o).
Definition settings_op {A} (m : stm (sql.db (gmap string chatsettings.settings_row) unit) sql.sql_error A) : sm A := fun s =>
  let '(d, o) := m (settings_db s) in
  (mkClient (proc s) (contact_db s) d (salt_db s) (PushName s) (appStateKeyRequests s) (missing s) (dispatched s) (world s), map_err (fun _ => ErrContacts) o).
Definition salt_op {A} (m : stm (sql.db privacytokens.token_tables unit) sql.sql_error A) : sm A := fun s =>
  let '(d, o) := m (salt_db s) in
  (mkClient (proc s) (contact_db s) (settings_db s) d (PushName s) (appStateKeyRequests s) (missing s) (dispatched s) (world s), map_err (fun _ => ErrContacts) o).

Definition logged {A} (m : sm A) : sm unit := fun s =>
  match m s with
  | (s, Panic) => (s, Panic)
  | (s, NoFuel) => (s, NoFuel)
  | (s, _) => (s, Ok tt)
  end.

Definition dispatchEvent (e : app_event) : sm unit := fun s =>
  (mkClient (proc s) (contact_db s) (settings_db s) (salt_db s) (PushName s) (appStateKeyRequests s) (missing s) (dispatched s ++ [e]) (world s), Ok tt).

Definition set_PushName (n : string) : sm unit := fun s =>
  (mkClient (proc s) (contact_db s) (settings_db s) (salt_db s) n (appStateKeyRequests s) (missing s) (dispatched s) (world s), Ok tt).

Definition query (q : infoQuery) : sm Node := fun s => let '(w, o) := sendIQ V q (world s) in (set_world w s, map_err ErrIQ o).

(** ** Mutations *)

(** An element of the index; out of range is a panic. *)
Definition at_index (l : list string) (i : nat) : sm string := match l !! i with Some x => mret x | None => panic end.

Definition index_is (l : list string) (i : nat) (x : string) : bool := match l !! i with Some y => String.eqb y x | None => false end.

(** The sender in an index, "0" for none. *)
Definition index_sender (x : string) : JID := if String.eqb x "0" then EmptyJID else incoming.parsed_part x.

(** The kinds of actions: the getter of a kind gives nil for the others. *)
Inductive kind := KMute | KPin | KArchive | KContact | KClear | KDelete | KStar | KDeleteForMe | KRead | KPushName | KUnarchive | KStatusMute | KLabelEdit | KLabelled.

Definition kind_of (a : sync_action) : option kind :=
  match a with
  | MuteAction _ _ => Some KMute | PinAction _ => Some KPin | ArchiveChatAction _ _ => Some KArchive | MarkChatAsReadAction _ _ => Some KRead
  | LabelAssociationAction _ => Some KLabelled | LabelEditAction _ _ _ => Some KLabelEdit | PushNameSetting _ => Some KPushName
  | StarAction _ => Some KStar | DeleteChatAction _ => Some KDelete | ContactAction _ _ => Some KContact | ClearChatAction _ => Some KClear
  | DeleteMessageForMeAction _ _ => Some KDeleteForMe | UnarchiveChatsSetting _ => Some KUnarchive | UserStatusMuteAction _ => Some KStatusMute
  | NctSaltSyncAction _ | OtherAction _ => None
  end.

#[local] Instance kind_eq_dec : EqDecision kind.
Proof. solve_decision. Defined.

Definition get_action (k : kind) (v : SyncActionValue) : option sync_action :=
  if bool_decide (kind_of (sav_Action v) = Some k) then Some (sav_Action v) else None.

(** The salt of a value; what a mute, pin, archive or contact action says. *)
Definition salt_of (v : SyncActionValue) : bytes := match sav_Action v with NctSaltSyncAction salt => salt | _ => [] end.

Definition muted_until (v : SyncActionValue) : chatsettings.mute_time :=
  match sav_Action v with
  | MuteAction true t =>
      let t := default 0 t in
      if t <? 0 then chatsettings.MutedForever else chatsettings.Until (UnixNano (t * 10 ^ 6))
  | _ => chatsettings.Until ZeroTime
  end.
Definition pinned_in (v : SyncActionValue) : bool := match sav_Action v with PinAction b => b | _ => false end.
Definition archived_in (v : SyncActionValue) : bool := match sav_Action v with ArchiveChatAction b _ => b | _ => false end.
Definition contact_names (v : SyncActionValue) : string * string := match sav_Action v with ContactAction f l => (f, l) | _ => ("", "") end.
Definition push_name_in (v : SyncActionValue) : string := match sav_Action v with PushNameSetting n => n | _ => "" end.

Definition index_jid (l : list string) : JID := match l !! 1%nat with Some x => incoming.parsed_part x | None => EmptyJID end.

Definition event_time (v : SyncActionValue) : gotime := UnixNano (default 0 (sav_Timestamp v) * 10 ^ 6).

(** The event of a message in a chat: chat, id, whether from me, sender. *)
Definition message_event (mk : JID -> JID -> bool -> string -> app_event) (index : list string) : option app_event :=
  match index with
  | _ :: _ :: id :: me :: sender :: _ => Some (mk (index_jid index) (index_sender sender) (String.eqb me "1") id)
  | _ => None
  end.

Definition label_chat_event (index : list string) (mk : JID -> string -> app_event) : option app_event :=
  match index with
  | _ :: label :: chat :: _ => Some (mk (incoming.parsed_part chat) label)
  | _ => None
  end.

Definition label_message_event (index : list string) (mk : JID -> string -> string -> app_event) : option app_event :=
  match index with
  | _ :: label :: chat :: message :: _ :: _ :: _ => Some (mk (incoming.parsed_part chat) label message)
  | _ => None
  end.

(** The switch on the first element of the index of a SET. *)
Definition dispatch_set (index : list string) (v : SyncActionValue) (fullSync : bool) : sm (option app_event) :=
  first ← at_index index 0;
  let jid := index_jid index in
  let ts := event_time v in
  let here x := String.eqb first x in
  if here IndexMute then
    logged (settings_op (chatsettings.PutMutedUntil jid (muted_until v)));; mret (Some (Mute jid ts (get_action KMute v) fullSync))
  else if here IndexPin then
    logged (settings_op (chatsettings.PutPinned jid (pinned_in v)));; mret (Some (Pin jid ts (get_action KPin v) fullSync))
  else if here IndexArchive then
    logged (settings_op (chatsettings.PutArchived jid (archived_in v)));; mret (Some (Archive jid ts (get_action KArchive v) fullSync))
  else if here IndexContact then
    logged (contact_op (contacts.PutContactName jid (fst (contact_names v)) (snd (contact_names v))));;
    mret (Some (Contact jid ts (get_action KContact v) fullSync))
  else if here IndexClearChat then mret (Some (ClearChat jid ts (get_action KClear v) fullSync (index_is index 3 "1")))
  else if here IndexDeleteChat then mret (Some (DeleteChat jid ts (get_action KDelete v) fullSync (index_is index 2 "1")))
  else if here IndexStar then
    mret (message_event (fun chat sender me id => Star chat sender me id ts (get_action KStar v) fullSync) index)
  else if here IndexDeleteMessageForMe then
    mret (message_event (fun chat sender me id => DeleteForMe chat sender me id ts (get_action KDeleteForMe v) fullSync) index)
  else if here IndexMarkChatAsRead then mret (Some (MarkChatAsRead jid ts (get_action KRead v) fullSync))
  else if here IndexSettingPushName then
    set_PushName (push_name_in v);; mret (Some (PushNameChanged ts (get_action KPushName v) fullSync))
  else if here IndexSettingUnarchiveChats then mret (Some (UnarchiveChats ts (get_action KUnarchive v) fullSync))
  else if here IndexUserStatusMute then mret (Some (UserStatusMute jid ts (get_action KStatusMute v) fullSync))
  else if here IndexLabelEdit then
    label ← at_index index 1;
    mret (Some (LabelEdit ts label (get_action KLabelEdit v) fullSync))
  else if here IndexLabelAssociationChat then
    mret (label_chat_event index (fun chat label => LabelAssociationChat chat ts label (get_action KLabelled v) fullSync))
  else if here IndexLabelAssociationMessage then
    mret (label_message_event index (fun chat label id => LabelAssociationMessage chat ts label id (get_action KLabelled v) fullSync))
  else mret None.

Definition dispatchAppState (mutation : Mutation) (fullSync : bool) : sm (option app_event) :=
  if (length (m_Index mutation) =? 1)%nat && index_is (m_Index mutation) 0 IndexNCTSaltSync then
    (if m_Operation mutation =? SET then logged (salt_op (cstoken.storeNCTSalt (salt_of (m_Action mutation))))
     else if m_Operation mutation =? REMOVE then logged (salt_op cstoken.clearNCTSalt)
     else mret tt);;
    mret None
  else if negb (m_Operation mutation =? SET) then mret None
  else dispatch_set (m_Index mutation) (m_Action mutation) fullSync.

(** The contacts among the mutations, and the others. *)
Fixpoint filterContacts (mutations : list Mutation) : sm (list Mutation * list contacts.ContactEntry) :=
  match mutations with
  | [] => mret ([], [])
  | mutation :: rest =>
      first ← at_index (m_Index mutation) 0;
      '(filtered, entries) ← filterContacts rest;
      if String.eqb first IndexContact && (1 <? length (m_Index mutation))%nat then
        mret (filtered, contacts.mkEntry (index_jid (m_Index mutation)) (fst (contact_names (m_Action mutation))) (snd (contact_names (m_Action mutation))) :: entries)
      else mret (mutation :: filtered, entries)
  end.

(** The events of the mutations; [collect]: whether they are wanted. *)
Fixpoint mutation_events (mutations : list Mutation) (fullSync collect : bool) : sm (list app_event) :=
  match mutations with
  | [] => mret []
  | mutation :: rest =>
      evt ← dispatchAppState mutation fullSync;
      evts ← mutation_events rest fullSync collect;
      if collect then
        mret ((if m_Operation mutation =? SET then [AppStateEvent (m_Index mutation) (m_Action mutation)] else [])
              ++ match evt with Some e => [e] | None => [] end ++ evts)
      else mret evts
  end.

Definition collectEventsToDispatch (name : WAPatchName) (mutations : list Mutation) (fullSync collect : bool) : sm (list app_event) :=
  if String.eqb name WAPatchCriticalUnblockLow && fullSync && negb EmitAppStateEventsOnFullSync then
    '(mutations, entries) ← filterContacts mutations;
    contact_op (contacts.PutAllContactNames (dedup V) entries);;
    mutation_events mutations fullSync collect
  else mutation_events mutations fullSync collect.

(** ** Fetching *)

Definition sync_query (type : string) (a : Attrs) (content : any) : infoQuery :=
  mkQuery "w:sync:app:state" type ServerJID EmptyJID "" "" (ANodes [mkNode "sync" [] (ANodes [mkNode "collection" a content])]) false.

Definition fetchAppStatePatches (name : WAPatchName) (fromVersion : Z) (snapshot : bool) : sm PatchList :=
  resp ← query (sync_query "set"
    ([("name", AString name); ("return_snapshot", ABool snapshot)] ++ (if snapshot then [] else [("version", AUint64 fromVersion)])) ANil);
  let '(collection, ok) := GetOptionalChildByTag resp ["sync"; "collection"] in
  if negb ok then throw (ErrElementMissing "collection")
  else
    s ← get_state;
    lift (map_err ErrParse (ParsePatchList (unmarshal_reference V) (Download V (world s)) collection)).

(** A missing key starts a goroutine that asks for it; other errors are an event. *)
Definition applyAppStatePatches (name : WAPatchName) (state : HashState) (patches : PatchList) (fullSync collect : bool) :
    sm (HashState * list app_event) := fun s =>
  let '(p, o) := DecodePatches patches state true (proc s) in
  let s := set_proc p s in
  match o with
  | Ok (mutations, newState) => (evts ← collectEventsToDispatch name mutations fullSync collect; mret (newState, evts)) s
  | Err ErrKeyNotFound =>
      (mkClient (proc s) (contact_db s) (settings_db s) (salt_db s) (PushName s) (appStateKeyRequests s) (missing s ++ [patches]) (dispatched s) (world s),
       Err (ErrDecode ErrKeyNotFound))
  | Err e => (dispatchEvent (AppStateSyncError name e fullSync);; throw (ErrDecode e)) s
  | Panic => (s, Panic)
  | NoFuel => (s, NoFuel)
  end.

Definition empty_state : HashState := mkHS 0 zero_hash128.

#[local] Instance HashState_eq_dec : EqDecision HashState.
Proof. solve_decision. Defined.

(** The loop, over pages while the server has more. *)
Fixpoint fetch_pages (fuel : nat) (name : WAPatchName) (fullSync wantSnapshot collect : bool) (state : HashState) : sm (HashState * list app_event) :=
  match fuel with
  | O => fun s => (s, NoFuel)
  | Datatypes.S fuel =>
      patches ← fetchAppStatePatches name (hs_Version state) wantSnapshot;
      if negb wantSnapshot && bool_decide (is_Some (Snapshot patches)) then throw ErrUnexpectedSnapshot
      else if bool_decide (is_Some (Snapshot patches)) && bool_decide (state <> empty_state) then throw ErrNonEmptyState
      else
        '(state, evts) ← applyAppStatePatches name state patches fullSync collect;
        if HasMorePatches patches then
          '(state, more) ← fetch_pages fuel name fullSync false collect state;
          mret (state, evts ++ more)
        else mret (state, evts)
  end.

Definition fetchAppState (fuel : nat) (name : WAPatchName) (fullSync onlyIfNotSynced : bool) : sm (list app_event) :=
  (if fullSync then app_store (DeleteAppStateVersion name) else mret tt);;
  '(version, hash) ← app_store (GetAppStateVersion name);
  let fullSync := fullSync || (version =? 0) in
  if negb (version =? 0) && onlyIfNotSynced then mret []
  else
    '(state, evts) ← fetch_pages fuel name fullSync fullSync (negb fullSync || EmitAppStateEventsOnFullSync) (mkHS version hash);
    mret (evts ++ (if fullSync then [AppStateSyncComplete name (hs_Version state) false] else [])).

Fixpoint dispatch_all (evts : list app_event) : sm unit :=
  match evts with
  | [] => mret tt
  | e :: evts => dispatchEvent e;; dispatch_all evts
  end.

Definition FetchAppState (fuel : nat) (name : WAPatchName) (fullSync onlyIfNotSynced : bool) : sm unit :=
  evts ← fetchAppState fuel name fullSync onlyIfNotSynced;
  dispatch_all evts.

(** ** Missing keys *)

Definition request_interval : Z := 24 * 3600 * 10 ^ 9.

Definition not_asked (now : Z) (requests : gmap bytes Z) (keyID : bytes) : bool :=
  match requests !! keyID with Some last => last + request_interval <? now | None => true end.

(** The keys not asked for in the last day, marked as asked for. *)
Fixpoint filter_requests (now : Z) (rawKeyIDs : list bytes) (requests : gmap bytes Z) : gmap bytes Z * list bytes :=
  match rawKeyIDs with
  | [] => (requests, [])
  | keyID :: rest =>
      if not_asked now requests keyID then
        let '(requests, ids) := filter_requests now rest (<[keyID := now]> requests) in (requests, keyID :: ids)
      else filter_requests now rest requests
  end.

Definition requestAppStateKeys (rawKeyIDs : list bytes) (s : client) : client :=
  match rawKeyIDs with
  | [] => s
  | _ => set_world (send_key_request V rawKeyIDs (world s)) s
  end.

Definition requestMissingAppStateKeys (patches : PatchList) (s : client) : client :=
  let '(p, rawKeyIDs) := GetMissingKeyIDs patches (proc s) in
  let s := set_proc p s in
  let '(requests, filteredKeyIDs) := filter_requests (now V (world s)) rawKeyIDs (appStateKeyRequests s) in
  requestAppStateKeys filteredKeyIDs (set_requests requests s).

(** ** Sending *)

Definition patch_query (patch : PatchInfo) (version : Z) (encodedPatch : bytes) : infoQuery :=
  sync_query "set" [("name", AString (pi_Type patch)); ("version", AUint64 version); ("return_snapshot", ABool false)]
    (ANodes [mkNode "patch" [] (ABytes encodedPatch)]).

(** A conflict: the patches in the answer are applied, then the patch is sent
    again. *)
Definition apply_conflict (name : WAPatchName) (state : HashState) (respCollection : Node) (mainErr : sync_error) (again : sm unit) : sm unit := fun s =>
  match ParsePatchList (unmarshal_reference V) (Download V (world s)) respCollection with
  | Ok patches =>
      match applyAppStatePatches name state patches false true s with
      | (s, Ok (_, evts)) => (dispatch_all evts;; again) s
      | (s, Err e) => (s, Err (ErrUpdateAlso mainErr e))
      | (s, Panic) => (s, Panic)
      | (s, NoFuel) => (s, NoFuel)
      end
  | Err e => (s, Err (ErrUpdateAlso mainErr (ErrParse e)))
  | Panic => (s, Panic)
  | NoFuel => (s, NoFuel)
  end.

(** One attempt; [retry]: what follows a conflict that could be applied. *)
Definition send_attempt (fuel : nat) (patch : PatchInfo) (retry : option (sm unit)) : sm unit :=
  '(version, hash) ← app_store (GetAppStateVersion (pi_Type patch));
  latestKeyID ← app_store GetLatestAppStateSyncKeyID;
  match latestKeyID with
  | None => throw ErrNoKeys
  | Some keyID =>
      s ← get_state;
      encodedPatch ← processor ErrEncode (EncodePatch (now V (world s) / 10 ^ 6) (ivs V (world s)) keyID (mkHS version hash) patch);
      resp ← query (patch_query patch version encodedPatch);
      let '(respCollection, ok) := GetOptionalChildByTag resp ["sync"; "collection"] in
      if negb ok then throw (ErrElementMissing "collection")
      else if String.eqb (fst (OptionalString "type" (AttrGetter respCollection))) "error" then
        let '(errorTag, ok) := GetOptionalChildByTag respCollection ["error"] in
        let mainErr := ErrAppStateUpdate (if (ok : bool) then errorTag else respCollection) in
        match retry with
        | Some again =>
            if ok && (fst (Int "code" (AttrGetter errorTag)) =? 409) then apply_conflict (pi_Type patch) (mkHS version hash) respCollection mainErr again
            else throw mainErr
        | None => throw mainErr
        end
      else
        evts ← fetchAppState fuel (pi_Type patch) false false;
        dispatch_all evts
  end.

Definition sendAppState (fuel : nat) (patch : PatchInfo) (allowRetry : bool) : sm unit :=
  send_attempt fuel patch (if allowRetry then Some (send_attempt fuel patch None) else None).

Definition SendAppState (fuel : nat) (patch : PatchInfo) : sm unit := sendAppState fuel patch true.

Definition MarkNotDirty (cleanType : string) (seconds : Z) : sm unit :=
  query (mkQuery "urn:xmpp:whatsapp:dirty" "set" ServerJID EmptyJID "" ""
    (ANodes [mkNode "clean" [("type", AString cleanType); ("timestamp", AInt64 seconds)] ANil]) false);;
  mret tt.

(** ** Recovery *)

(** What the primary device answers with: whether it is compressed, the blob. *)
Definition recovery_response : Type := bool * bytes.

Definition ParseRecovery (r : recovery_response) : outcome parse_error SnapshotRecovery :=
  data ← (if fst r then or_error ErrUnmarshal (gunzip V (snd r)) else Ok (snd r));
  or_error ErrUnmarshal (unmarshal_recovery V data).

(** Up to the first handler that fails. *)
Fixpoint dispatch_until_failed (evts : list app_event) : sm bool :=
  match evts with
  | [] => mret true
  | e :: evts => dispatchEvent e;; if handler_fails V e then mret false else dispatch_until_failed evts
  end.

Definition recover (r : recovery_response) : sm bool :=
  snapshot ← lift (map_err ErrParse (ParseRecovery r));
  let name := r_CollectionName snapshot in
  let version := r_Version snapshot in
  '(currentVersion, _) ← app_store (GetAppStateVersion name);
  if version <=? currentVersion then mret true
  else
    mutations ← processor ErrDecode (ProcessRecovery snapshot);
    evts ← collectEventsToDispatch name mutations true EmitAppStateEventsOnFullSync;
    dispatch_until_failed (evts ++ [AppStateSyncComplete name version true]).

(** Whether the answer has been handled; errors are logged. *)
Definition handleAppStateRecovery (result : list (option recovery_response)) : sm bool := fun s =>
  match result with
  | Some r :: _ =>
      match recover r s with
      | (s, Err _) => (s, Ok true)
      | x => x
      end
  | _ => (s, Ok true)
  end.

(** ** Keys that arrive *)

(** A key of a share; [None]: its fingerprint cannot be marshalled. *)
Definition shared_key : Type := bytes * option AppStateSyncKey.

(** Stores the keys; whether a collection that is in sync is left alone, which it
    is unless one of the keys was asked for. *)
Fixpoint store_shared (keys : list shared_key) (onlyIfNotSynced : bool) : sm bool :=
  match keys with
  | [] => mret onlyIfNotSynced
  | (_, None) :: rest => store_shared rest onlyIfNotSynced
  | (keyID, Some key) :: rest =>
      s ← get_state;
      logged (app_store (PutAppStateSyncKey keyID key));;
      store_shared rest (onlyIfNotSynced && negb (bool_decide (is_Some (appStateKeyRequests s !! keyID))))
  end.

Definition AllPatchNames : list WAPatchName :=
  [WAPatchCriticalBlock; WAPatchCriticalUnblockLow; WAPatchRegularHigh; WAPatchRegular; WAPatchRegularLow].

Fixpoint fetch_all (fuel : nat) (names : list WAPatchName) (onlyIfNotSynced : bool) : sm unit :=
  match names with
  | [] => mret tt
  | name :: names => logged (FetchAppState fuel name false onlyIfNotSynced);; fetch_all fuel names onlyIfNotSynced
  end.

Definition handleAppStateSyncKeyShare (fuel : nat) (keys : list shared_key) : sm unit :=
  onlyIfNotSynced ← store_shared keys true;
  fetch_all fuel AllPatchNames onlyIfNotSynced.

End sync.

Arguments client St W : clear implicits.
Arguments services W : clear implicits.

End appstate_sync.
