(* ===== verification/AppStateInStep.v ===== *)
(** * App state: in step with the server

    What fetching and sending of AppStateSync.v keep: a collection whose recorded
    hash is the hash of what is stored for it. Against a server whose lists are in
    order a fetch or a send that succeeds leaves it so, the loop over pages ends,
    and a missing key is asked for at most once a day. *)

From S2P Require Import Prelude GoStrings StateErr Jid Node Cbc Crypto LTHash AppStateStore AppState AppStateProofs AppStateEncode.
From S2P Require Import Requests Sql Contacts TCToken History AppStateSync.

#[local] Open Scope string_scope.
#[local] Open Scope list_scope.
#[local] Open Scope Z_scope.

Module appstate_in_step.

Import lthash attrs jid requests appstate appstate_proofs appstate_encode appstate_sync.

(** ** In step with the server *)

Section in_step.
Context {C : Crypto} {P : AppStateProto} {St : Type} {SO : AppStateStore St} {SL : AppStateStoreLaws St} {W : Type}.
Context (V : services W) (EmitAppStateEventsOnFullSync : bool).

#[local] Notation client := (client St W).
#[local] Notation sm A := (stm client sync_error A).
#[local] Notation query := (query V).
#[local] Notation fetchAppStatePatches := (fetchAppStatePatches V).
#[local] Notation requestAppStateKeys := (requestAppStateKeys V).
#[local] Notation requestMissingAppStateKeys := (requestMissingAppStateKeys V).
#[local] Notation collectEventsToDispatch := (collectEventsToDispatch V EmitAppStateEventsOnFullSync).
#[local] Notation applyAppStatePatches := (applyAppStatePatches V EmitAppStateEventsOnFullSync).
#[local] Notation fetch_pages := (fetch_pages V EmitAppStateEventsOnFullSync).
#[local] Notation fetchAppState := (fetchAppState V EmitAppStateEventsOnFullSync).
#[local] Notation FetchAppState := (FetchAppState V EmitAppStateEventsOnFullSync).
#[local] Notation apply_conflict := (apply_conflict V EmitAppStateEventsOnFullSync).
#[local] Notation send_attempt := (send_attempt V EmitAppStateEventsOnFullSync).
#[local] Notation SendAppState := (SendAppState V EmitAppStateEventsOnFullSync).

(** The recorded version and hash of a collection. *)
Definition recorded (name : WAPatchName) (s : client) : HashState :=
  mkHS (fst (version_of (db (proc s)) name)) (snd (version_of (db (proc s)) name)).

(** The recorded hash is that of the stored value MACs; at version 0 there are
    none. *)
Record in_step (name : WAPatchName) (s : client) : Prop := {
  step_synced : synced name (proc s) (recorded name s);
  step_empty : hs_Version (recorded name s) = 0 ->
    hs_Hash (recorded name s) = zero_hash /\ stored (db (proc s)) name = ∅ /\ forall v, rows_below (db (proc s)) name v;
  step_version : 0 <= hs_Version (recorded name s)
}.

(** What the server sends from a version: versions that go up, known operations,
    and a snapshot only from the start. *)
Definition well_formed (name : WAPatchName) (from : Z) (pl : PatchList) : Prop :=
  Name pl = name /\ Forall (fun patch => Forall known_op (p_Mutations patch)) (Patches pl) /\
  match Snapshot pl with
  | Some ss => from = 0 /\ 0 < ss_Version ss /\ increasing (ss_Version ss) (Patches pl)
  | None => increasing from (Patches pl)
  end.

Definition from_of (a : Attrs) : Z := match attr_get "version" a with Some (AUint64 v) => v | _ => 0 end.

(** The server answers queries about a collection with such lists. *)
Definition answers (name : WAPatchName) (from : Z) (pl : PatchList) : Prop :=
  exists a content w w' resp collection, attr_get "name" a = Some (AString name) /\ from_of a = from /\
    sendIQ V (sync_query "set" a content) w = (w', Ok resp) /\ GetOptionalChildByTag resp ["sync"; "collection"] = (collection, true) /\
    ParsePatchList (unmarshal_reference V) (Download V w') collection = Ok pl.

Definition honest (name : WAPatchName) : Prop := forall from pl, answers name from pl -> well_formed name from pl.

(** Nothing of the app state store changes and nothing is asked of the server. *)
Definition quiet (s s' : client) : Prop := proc s' = proc s /\ world s' = world s.

#[local] Instance quiet_preorder : PreOrder quiet.
Proof. split; [by split|]. intros s1 s2 s3 [H1 H2] [H3 H4]. split; congruence. Qed.

Lemma moves_logged {A} (R : client -> client -> Prop) (m : sm A) : moves R m -> moves R (logged m).
Proof. intros Hm s s' o. unfold logged. destruct (m s) as [s1 o1] eqn:E. apply Hm in E. destruct o1; by intros [= <- _]. Qed.

Lemma quiet_contact {A} (m : stm contacts.contact_store sql.sql_error A) : moves quiet (contact_op m).
Proof. intros s s' o. unfold contact_op. destruct (m _). by intros [= <- _]. Qed.

Lemma quiet_settings {A} (m : stm (sql.db (gmap string chatsettings.settings_row) unit) sql.sql_error A) : moves quiet (settings_op m).
Proof. intros s s' o. unfold settings_op. destruct (m _). by intros [= <- _]. Qed.

Lemma quiet_salt {A} (m : stm (sql.db privacytokens.token_tables unit) sql.sql_error A) : moves quiet (salt_op m).
Proof. intros s s' o. unfold salt_op. destruct (m _). by intros [= <- _]. Qed.

Lemma quiet_push n : moves quiet (set_PushName n).
Proof. by intros s s' o [= <- _]. Qed.

Lemma quiet_dispatch e : moves quiet (dispatchEvent e).
Proof. by intros s s' o [= <- _]. Qed.

#[local] Hint Resolve moves_logged quiet_contact quiet_settings quiet_salt quiet_push quiet_dispatch : moves.

Lemma quiet_index l i : moves quiet (at_index l i).
Proof. unfold at_index. moves_tac. Qed.

#[local] Hint Resolve quiet_index : moves.

Lemma quiet_dispatchAppState m full : moves quiet (dispatchAppState m full).
Proof. unfold dispatchAppState, dispatch_set. moves_tac. Qed.

#[local] Hint Resolve quiet_dispatchAppState : moves.

Lemma quiet_events ms full collect : moves quiet (mutation_events ms full collect).
Proof. induction ms; cbn [mutation_events]; moves_tac. Qed.

Lemma quiet_filter ms : moves quiet (filterContacts ms).
Proof. induction ms; cbn [filterContacts]; moves_tac. Qed.

#[local] Hint Resolve quiet_events quiet_filter : moves.

Lemma quiet_collect name ms full collect : moves quiet (collectEventsToDispatch name ms full collect).
Proof. unfold appstate_sync.collectEventsToDispatch. moves_tac. Qed.

Lemma quiet_dispatch_all evts : moves quiet (dispatch_all evts).
Proof. induction evts; cbn [dispatch_all]; moves_tac. Qed.

(** The state of the processor that patch lists may be applied in. *)
Lemma in_step_ready name s pl : in_step name s -> well_formed name (hs_Version (recorded name s)) pl -> ready pl (proc s) (recorded name s).
Proof.
  intros [Hs He _] (Hn & _ & Hw). unfold ready. rewrite Hn. destruct (Snapshot pl) as [ss|]; [|by split].
  destruct Hw as (Hv & _ & Hinc). destruct (He Hv) as (H1 & H2 & H3). auto.
Qed.

Lemma decode_in_step name s pl p muts st :
  in_step name s -> well_formed name (hs_Version (recorded name s)) pl ->
  DecodePatches pl (recorded name s) true (proc s) = (p, Ok (muts, st)) ->
  in_step name (set_proc p s) /\ recorded name (set_proc p s) = st /\
  stored (db p) name = apply_mutations (all_mutations pl) (stored (db (proc s)) name) /\
  (forall n, n <> name -> stored (db p) n = stored (db (proc s)) n) /\ hs_Version st = list_version (hs_Version (recorded name s)) pl.
Proof.
  intros Hi Hw H. pose proof (in_step_ready _ _ _ Hi Hw) as Hr. destruct Hi as [Hs He Hv0], Hw as (Hn & Hops & Hw).
  pose proof (DecodePatches_spec _ _ _ _ _ _ _ H Hr Hops) as (H1 & H2 & H3 & H4). rewrite Hn in *.
  pose proof (DecodePatches_version _ _ _ _ _ _ _ H Hr Hops) as Hv.
  assert (version_of (db p) name = (hs_Version st, hs_Hash st)) as Hrec by (apply H2; left; apply surjective_pairing).
  assert (recorded name (set_proc p s) = st) as Er by (unfold recorded; cbn; rewrite Hrec; by destruct st).
  split_and!; [|done..]. split; rewrite ?Er; cbn [proc set_proc]; [done| |].
  - intros E0. unfold list_version in Hv. destruct (Snapshot pl) as [ss|] eqn:Ess.
    { destruct Hw as (_ & H0 & [H5 _]%increasing_last). lia. }
    apply increasing_last in Hw as [Hle Hlt].
    destruct (Patches pl) as [|patch rest] eqn:Ep; [|specialize (Hlt ltac:(done)); lia].
    unfold DecodePatches in H. rewrite Ess, Ep in H. cbn in H. injection H as <- _ <-. by apply He.
  - rewrite Hv. unfold list_version. destruct (Snapshot pl) as [ss|].
    + destruct Hw as (_ & H0 & [H5 _]%increasing_last). lia.
    + apply increasing_last in Hw as [Hle _]. lia.
Qed.

Lemma db_in_step name s s' : db (proc s') = db (proc s) -> in_step name s -> in_step name s'.
Proof. intros E [H1 H2 H3]. split; unfold recorded, synced in *; by rewrite E. Qed.

Lemma db_recorded name s s' : db (proc s') = db (proc s) -> recorded name s' = recorded name s.
Proof. unfold recorded. by intros ->. Qed.

Lemma apply_in_step name pl full collect s s' st evts :
  in_step name s -> well_formed name (hs_Version (recorded name s)) pl ->
  applyAppStatePatches name (recorded name s) pl full collect s = (s', Ok (st, evts)) ->
  in_step name s' /\ recorded name s' = st /\
  stored (db (proc s')) name = apply_mutations (all_mutations pl) (stored (db (proc s)) name) /\
  (forall n, n <> name -> stored (db (proc s')) n = stored (db (proc s)) n) /\
  hs_Version st = list_version (hs_Version (recorded name s)) pl /\ world s' = world s.
Proof.
  intros Hi Hw. unfold applyAppStatePatches. destruct (DecodePatches pl _ true (proc s)) as [p o] eqn:E.
  destruct o as [[muts st']|e| |]; [|by destruct e|done..].
  intros H. stm_inv H. injection H as <- <- <-. apply quiet_collect in E0 as [Ep Ew].
  pose proof (decode_in_step _ _ _ _ _ _ Hi Hw E) as (H1 & H2 & H3 & H4 & H5). cbn [proc world set_proc] in Ep, Ew.
  split_and!; [|by rewrite <- H2; apply db_recorded; rewrite Ep|by rewrite Ep|by rewrite Ep|done|done].
  eapply db_in_step; [|exact H1]. by rewrite Ep.
Qed.

(** The list the server sends, in a world, when asked for a collection from a
    version or for its snapshot. *)
Definition fetch_query (name : WAPatchName) (from : Z) (snapshot : bool) : infoQuery :=
  sync_query "set" ([("name", AString name); ("return_snapshot", ABool snapshot)] ++ (if snapshot then [] else [("version", AUint64 from)])) ANil.

Definition asked (name : WAPatchName) (from : Z) (snapshot : bool) (w w' : W) (pl : PatchList) : Prop :=
  exists resp collection, sendIQ V (fetch_query name from snapshot) w = (w', Ok resp) /\
    GetOptionalChildByTag resp ["sync"; "collection"] = (collection, true) /\
    ParsePatchList (unmarshal_reference V) (Download V w') collection = Ok pl.

(** The pages of a fetch: each is what the server sends when asked, after the page
    before, from the version that page led to, and there is a next one exactly as
    long as the server says so. *)
Inductive pages (name : WAPatchName) : bool -> Z -> W -> list PatchList -> Z -> W -> Prop :=
  | pages_last snapshot from w w' pl : asked name from snapshot w w' pl -> HasMorePatches pl = false ->
      pages name snapshot from w [pl] (list_version from pl) w'
  | pages_more snapshot from w w1 pl pls version w2 : asked name from snapshot w w1 pl -> HasMorePatches pl = true ->
      pages name false (list_version from pl) w1 pls version w2 -> pages name snapshot from w (pl :: pls) version w2.

(** What a fetch from a version does: it takes the server's pages from there, and
    leaves the collection in step at the version they lead to, with the mutations of
    all of them applied to what was there [before], and the others alone. *)
Definition fetched (name : WAPatchName) (snapshot : bool) (from : Z) (before : gmap bytes bytes) (s s' : client) : Prop :=
  exists pls, pages name snapshot from (world s) pls (hs_Version (recorded name s')) (world s') /\
    in_step name s' /\ stored (db (proc s')) name = apply_mutations (concat (map all_mutations pls)) before /\
    (forall n, n <> name -> stored (db (proc s')) n = stored (db (proc s)) n).

(** From where the client is. *)
Definition updated (name : WAPatchName) (s s' : client) : Prop :=
  fetched name (hs_Version (recorded name s) =? 0) (hs_Version (recorded name s)) (stored (db (proc s)) name) s s'.

Lemma asked_answers name from snapshot w w' pl : asked name from snapshot w w' pl -> answers name (if snapshot then 0 else from) pl.
Proof.
  intros (resp & collection & H1 & H2 & H3). eexists _, _, _, _, _, _.
  split; [|split; [|split; [exact H1|split; [exact H2|exact H3]]]]; [done|]. by destruct snapshot.
Qed.

Lemma fetched_asked name from snapshot (s s' : client) pl : fetchAppStatePatches name from snapshot s = (s', Ok pl) ->
  proc s' = proc s /\ asked name from snapshot (world s) (world s') pl.
Proof.
  unfold fetchAppStatePatches, query. fold (fetch_query name from snapshot). intros H. stm_inv H.
  destruct (sendIQ V (fetch_query name from snapshot) (world s)) as [w o] eqn:Eq. injection E as <- Eo.
  destruct o as [n|e| |]; try done. injection Eo as ->.
  destruct (GetOptionalChildByTag a ["sync"; "collection"]) as [collection ok] eqn:Ec. destruct ok; [|done]. cbn [negb] in H.
  stm_inv H. injection E as <- <-. apply lift_inv in H as [-> H]. split; [done|].
  destruct (ParsePatchList _ _ _) as [l|e| |] eqn:El; try done. injection H as ->. by exists a, collection.
Qed.

Lemma fetched_answers name from snap (s s' : client) pl : fetchAppStatePatches name from snap s = (s', Ok pl) ->
  proc s' = proc s /\ answers name (if snap then 0 else from) pl.
Proof. intros [H1 H2]%fetched_asked. split; [done|]. by eapply asked_answers. Qed.

(** A page before the others. *)
Lemma fetched_more name snapshot from before s s1 s2 pl : asked name from snapshot (world s) (world s1) pl -> HasMorePatches pl = true ->
  stored (db (proc s1)) name = apply_mutations (all_mutations pl) before ->
  (forall n, n <> name -> stored (db (proc s1)) n = stored (db (proc s)) n) ->
  fetched name false (list_version from pl) (stored (db (proc s1)) name) s1 s2 -> fetched name snapshot from before s s2.
Proof.
  intros Ha Hm Hs Hn (pls & Hp & Hi & H3 & H4). exists (pl :: pls). split; [by eapply pages_more|]. split; [done|]. split.
  - rewrite H3, Hs. cbn [map concat]. unfold apply_mutations. by rewrite foldl_app.
  - intros n Hne. by rewrite H4, Hn.
Qed.

(** Only the store, the world, and the recorded version of the states matter. *)
Lemma fetched_eq name snapshot from before s1 s2 s1' s2' : db (proc s1') = db (proc s1) -> world s1' = world s1 ->
  quiet s2 s2' -> fetched name snapshot from before s1 s2 -> fetched name snapshot from before s1' s2'.
Proof.
  intros E1 W1 [E2 W2] (pls & Hp & Hi & Hs & Hn). assert (db (proc s2') = db (proc s2)) as D2 by by rewrite E2. exists pls.
  rewrite (db_recorded _ _ _ D2), W1, W2, E1, D2. split_and!; [done|by eapply db_in_step|done|done].
Qed.

Lemma fetch_pages_in_step name full collect fuel : honest name -> forall want s s' st evts,
  in_step name s -> (want = true -> hs_Version (recorded name s) = 0) ->
  fetch_pages fuel name full want collect (recorded name s) s = (s', Ok (st, evts)) ->
  fetched name want (hs_Version (recorded name s)) (stored (db (proc s)) name) s s'.
Proof.
  intros Hh. induction fuel as [|fuel IH]; intros want s s' st evts Hi Hw H; cbn [fetch_pages] in H; [done|].
  stm_inv H. apply fetched_asked in E as [Hsame Ha]. rename s0 into s1, a into pl.
  assert (db (proc s1) = db (proc s)) as Hdb by by rewrite Hsame.
  assert (in_step name s1) as Hi1 by by eapply db_in_step.
  assert (recorded name s1 = recorded name s) as Er by by apply db_recorded.
  assert (well_formed name (hs_Version (recorded name s1)) pl) as Hwf.
  { pose proof (Hh _ _ (asked_answers _ _ _ _ _ _ Ha)) as Hwf. rewrite Er. destruct want; [by rewrite Hw|done]. }
  destruct (_ && _); [done|]. destruct (_ && _); [done|]. stm_inv H. destruct a as [st1 evts1]. rewrite <- Er in E.
  pose proof (apply_in_step _ _ _ _ _ _ _ _ Hi1 Hwf E) as (Hi2 & Er2 & Hs2 & Hn2 & Hv & Hworld).
  rewrite Hsame in Hs2, Hn2. rewrite Er, <- Er2 in Hv. rewrite <- Hworld in Ha. destruct (HasMorePatches pl) eqn:Hm.
  - stm_inv H. destruct a as [st2 evts2]. rewrite <- Er2 in E0. injection H as <- _ _. eapply (IH false _ _ _ _ Hi2) in E0; [|done].
    rewrite Hv in E0. by eapply fetched_more.
  - injection H as <- _ _. exists [pl]. split; [rewrite Hv; by apply pages_last|]. cbn [map concat]. by rewrite app_nil_r.
Qed.

Lemma app_store_inv {A} (m : stm St store_error A) (s s' : client) r : app_store m s = (s', Ok r) ->
  exists d, m (db (proc s)) = (d, Ok r) /\ s' = set_proc (mkProc (keyCache (proc s)) d) s.
Proof.
  unfold app_store, processor. destruct (store_op m (proc s)) as [p o] eqn:E. intros [= <- Ho].
  destruct o as [a|e| |]; try done. injection Ho as ->. apply store_op_inv in E as (d & E & ->). eauto.
Qed.

Lemma deleted_in_step name s s' : app_store (DeleteAppStateVersion name) s = (s', Ok tt) ->
  in_step name s' /\ hs_Version (recorded name s') = 0 /\ stored (db (proc s')) name = ∅ /\
  (forall n, n <> name -> stored (db (proc s')) n = stored (db (proc s)) n).
Proof.
  intros H. apply app_store_inv in H as (d & H & ->). apply store_delete_version in H as (H1 & H2 & H3 & H4).
  split_and!; [|by unfold recorded; cbn; rewrite H3|done|done].
  split; unfold recorded; cbn; rewrite H3; cbn; [|done|lia]. split; cbn; [by rewrite H1|done].
Qed.

Lemma set_proc_same (s : client) : set_proc (mkProc (keyCache (proc s)) (db (proc s))) s = s.
Proof. by destruct s as [[]]. Qed.

Lemma got_version name (s s' : client) version hash : app_store (GetAppStateVersion name) s = (s', Ok (version, hash)) ->
  s' = s /\ mkHS version hash = recorded name s /\ version = hs_Version (recorded name s).
Proof.
  intros H. apply app_store_inv in H as (d & H & ->). apply store_get_version in H as [-> Ev]. rewrite set_proc_same.
  unfold recorded. by rewrite <- Ev.
Qed.

(** A fetch that need not be made. *)
Definition skipped (name : WAPatchName) (only : bool) (s : client) : bool := negb (hs_Version (recorded name s) =? 0) && only.

Lemma deleted_world name (s s' : client) : app_store (DeleteAppStateVersion name) s = (s', Ok tt) -> world s' = world s.
Proof. intros H. by apply app_store_inv in H as (d & _ & ->). Qed.

(** The body of a fetch after the deletion. *)
Lemma fetch_rest_in_step name full only fuel s s' evts : honest name -> in_step name s ->
  (full = true -> hs_Version (recorded name s) = 0) ->
  ('(version, hash) ← app_store (GetAppStateVersion name);
   let fullSync := full || (version =? 0) in
   if negb (version =? 0) && only then mret []
   else
     '(state, evts) ← fetch_pages fuel name fullSync fullSync (negb fullSync || EmitAppStateEventsOnFullSync) (mkHS version hash);
     mret (evts ++ (if fullSync then [AppStateSyncComplete name (hs_Version state) false] else []))) s = (s', Ok evts) ->
  if skipped name only s then s' = s else updated name s s'.
Proof.
  intros Hh Hi Hf H. stm_inv H. destruct a as [version hash]. apply got_version in E as (-> & Er & ->). cbv zeta in H.
  unfold skipped. destruct (_ && _); [by injection H as <- _|].
  stm_inv H. destruct a as [st evts1]. injection H as <- _. rewrite Er in E.
  assert (full || (hs_Version (recorded name s) =? 0) = (hs_Version (recorded name s) =? 0)) as Efull.
  { destruct full; [|done]. by rewrite Hf. }
  rewrite !Efull in E. apply fetch_pages_in_step in E; [done..|]. by intros ?%Z.eqb_eq.
Qed.

(** What a fetch that succeeds does, before its events: a full one starts over. *)
Definition fetch_done (name : WAPatchName) (full only : bool) (s s' : client) : Prop :=
  if full then fetched name true 0 ∅ s s'
  else if skipped name only s then quiet s s' else updated name s s'.

Lemma fetchAppState_in_step name full only fuel s s' evts : honest name -> full = true \/ in_step name s ->
  fetchAppState fuel name full only s = (s', Ok evts) -> fetch_done name full only s s'.
Proof.
  intros Hh Hi H. unfold fetchAppState in H. apply stm_bind_inv in H as (s1 & [] & E & H). unfold fetch_done. destruct full.
  - pose proof (deleted_world _ _ _ E) as Hw. apply deleted_in_step in E as (H1 & H2 & H3 & H4).
    apply fetch_rest_in_step in H; [|done..]. unfold skipped, updated in H. rewrite H2, H3 in H. cbn in H.
    destruct H as (pls & Hp & Hi' & Hs & Hn). exists pls. rewrite <- Hw. split_and!; [done..|]. intros n Hne. by rewrite Hn, H4.
  - injection E as <-. destruct Hi as [|Hi]; [done|]. apply fetch_rest_in_step in H; [|done..].
    destruct (skipped _ _ _); [by subst|done].
Qed.

(** (C3) A fetch that succeeds takes the pages of the server, and leaves the
    collection in step with it: asked first for the version the collection was at, or
    for a snapshot when it is fetched in full or for the first time, then, after each
    page, for the version that page led to, the server sends pages until it says that
    there are no more; the collection is then at the version they lead to, the recorded
    hash is the hash of the stored value MACs, and those are what the mutations of all
    the pages leave, over what was there before or, when it is fetched in full, over
    nothing, whatever state the collection was in. The other collections are left
    alone. Only a collection that is there already and was to be fetched if it was not
    is not asked for, and nothing changes. *)
Theorem FetchAppState_in_step name full only fuel s s' : honest name -> full = true \/ in_step name s ->
  FetchAppState fuel name full only s = (s', Ok tt) -> fetch_done name full only s s'.
Proof.
  intros Hh Hi H. unfold FetchAppState in H. stm_inv H. apply quiet_dispatch_all in H. apply fetchAppState_in_step in E; [|done..].
  unfold fetch_done, updated in *. destruct full; [by eapply fetched_eq|].
  destruct (skipped _ _ _); [by etransitivity|by eapply fetched_eq].
Qed.

(** ** Sending *)

(** A patch is posted: encoded for the version recorded here with the newest key, and
    the server answers with this collection. *)
Definition posted (patch : PatchInfo) (s s1 : client) (collection : Node) : Prop :=
  exists keyID p b w resp, let here := recorded (pi_Type patch) s in
    snd (GetLatestAppStateSyncKeyID (db (proc s))) = Ok (Some keyID) /\
    EncodePatch (now V (world s) / 10 ^ 6) (ivs V (world s)) keyID here patch (proc s) = (p, Ok b) /\
    sendIQ V (patch_query patch (hs_Version here) b) (world s) = (w, Ok resp) /\
    GetOptionalChildByTag resp ["sync"; "collection"] = (collection, true) /\ s1 = set_world w (set_proc p s).

Definition refused (collection : Node) : bool := String.eqb (fst (OptionalString "type" (AttrGetter collection))) "error".

(** The server takes it, and the collection is fetched from where it was. *)
Definition taken (patch : PatchInfo) (s s' : client) : Prop :=
  exists s1 collection, posted patch s s1 collection /\ refused collection = false /\ updated (pi_Type patch) s1 s'.

(** The server refuses it with a 409, and the list in that answer is applied. *)
Definition caught_up (patch : PatchInfo) (s s2 : client) : Prop :=
  let name := pi_Type patch in
  exists s1 collection errorTag pl, posted patch s s1 collection /\ refused collection = true /\
    GetOptionalChildByTag collection ["error"] = (errorTag, true) /\ fst (Int "code" (AttrGetter errorTag)) = 409 /\
    ParsePatchList (unmarshal_reference V) (Download V (world s1)) collection = Ok pl /\ world s2 = world s1 /\
    in_step name s2 /\ hs_Version (recorded name s2) = list_version (hs_Version (recorded name s)) pl /\
    stored (db (proc s2)) name = apply_mutations (all_mutations pl) (stored (db (proc s)) name) /\
    (forall n, n <> name -> stored (db (proc s2)) n = stored (db (proc s)) n).

Definition sent (patch : PatchInfo) (s s' : client) : Prop :=
  taken patch s s' \/ exists s2, caught_up patch s s2 /\ taken patch s2 s'.

Lemma posted_db patch s s1 collection : posted patch s s1 collection -> db (proc s1) = db (proc s).
Proof. intros (keyID & p & b & w & resp & _ & H & _ & _ & ->). by apply EncodePatch_db in H. Qed.

Lemma posted_answers patch s s1 collection pl : posted patch s s1 collection ->
  ParsePatchList (unmarshal_reference V) (Download V (world s1)) collection = Ok pl ->
  answers (pi_Type patch) (hs_Version (recorded (pi_Type patch) s)) pl.
Proof.
  intros (keyID & p & b & w & resp & _ & _ & Hq & Hc & ->) Hp. eexists _, _, _, _, _, _.
  split; [|split; [|split; [exact Hq|split; [exact Hc|exact Hp]]]]; done.
Qed.

(** What follows the 409. *)
Lemma conflict_in_step patch again s s1 s' collection errorTag e :
  honest (pi_Type patch) -> in_step (pi_Type patch) s -> posted patch s s1 collection -> refused collection = true ->
  GetOptionalChildByTag collection ["error"] = (errorTag, true) -> fst (Int "code" (AttrGetter errorTag)) = 409 ->
  apply_conflict (pi_Type patch) (recorded (pi_Type patch) s) collection e again s1 = (s', Ok tt) ->
  exists s2, caught_up patch s s2 /\ in_step (pi_Type patch) s2 /\ again s2 = (s', Ok tt).
Proof.
  intros Hh Hi Hpost Href Hc Hcode H. unfold apply_conflict in H. pose proof (posted_db _ _ _ _ Hpost) as Hdb.
  assert (recorded (pi_Type patch) s1 = recorded (pi_Type patch) s) as Er by by apply db_recorded.
  destruct (ParsePatchList _ _ _) as [pl|x| |] eqn:El; [|done..]. pose proof (posted_answers _ _ _ _ _ Hpost El) as Ha.
  destruct (applyAppStatePatches _ _ _ _ _ s1) as [s2 o] eqn:E. destruct o as [[st evts]|x| |]; [|done..].
  apply stm_bind_inv in H as (s3 & [] & Hd & H). apply quiet_dispatch_all in Hd as [Ep Ew].
  rewrite <- Er in E. apply Hh in Ha. rewrite <- Er in Ha. assert (in_step (pi_Type patch) s1) as Hi1 by by eapply db_in_step.
  pose proof (apply_in_step _ _ _ _ _ _ _ _ Hi1 Ha E) as (H1 & H2 & H3 & H4 & H5 & H6).
  assert (db (proc s3) = db (proc s2)) as D3 by by rewrite Ep. assert (in_step (pi_Type patch) s3) as Hi3 by by eapply db_in_step.
  exists s3. split; [|done]. exists s1, collection, errorTag, pl. rewrite (db_recorded _ _ _ D3), D3, H2, <- Hdb, <- Er.
  split_and!; try done. congruence.
Qed.

Lemma send_attempt_in_step fuel patch retry s s' : honest (pi_Type patch) -> in_step (pi_Type patch) s ->
  send_attempt fuel patch retry s = (s', Ok tt) ->
  taken patch s s' \/
  exists again s2, retry = Some again /\ caught_up patch s s2 /\ in_step (pi_Type patch) s2 /\ again s2 = (s', Ok tt).
Proof.
  intros Hh Hi H. unfold send_attempt in H. stm_inv H. destruct a as [version hash]. apply got_version in E as (-> & Er & ->).
  stm_inv H. rename a into latest. apply app_store_inv in E as (d & E & ->). pose proof (store_get_latest _ _ _ E) as ->.
  rewrite set_proc_same in H. destruct latest as [keyID|]; [|done]. stm_inv H. injection E0 as <- <-. rewrite Er in H.
  stm_inv H. unfold processor in E0. destruct (EncodePatch _ _ _ _ _ _) as [p o] eqn:Ee. injection E0 as <- Eo.
  destruct o as [b|x| |]; try done. injection Eo as ->. rename a into b.
  stm_inv H. unfold query in E0. cbn [world set_proc] in E0.
  destruct (sendIQ V _ _) as [w oq] eqn:Eq. injection E0 as <- Eo. destruct oq as [resp|x| |]; try done.
  injection Eo as ->. rename a into resp. destruct (GetOptionalChildByTag resp _) as [collection ok] eqn:Ec. destruct ok; [|done]. cbn [negb] in H.
  set (s1 := set_world w (set_proc p s)) in *.
  assert (posted patch s s1 collection) as Hpost by (exists keyID, p, b, w, resp; rewrite E; done).
  fold (refused collection) in H. destruct (refused collection) eqn:Href.
  - right. destruct (GetOptionalChildByTag collection ["error"]) as [errorTag eok] eqn:Eerr. cbv zeta in H. destruct retry as [again|]; [|done].
    destruct eok; [|done]. cbn [andb] in H. destruct (Z.eqb_spec (fst (Int "code" (AttrGetter errorTag))) 409) as [Hcode|]; [|done].
    eapply conflict_in_step in H as (s2 & ? & ? & ?); [|done..]. by exists again, s2.
  - left. stm_inv H. rename a into evts. apply quiet_dispatch_all in H. exists s1, collection. split_and!; [done|done|].
    apply fetchAppState_in_step in E0; [|done|right; eapply db_in_step; [|exact Hi]; by eapply posted_db].
    unfold fetch_done, skipped, updated in *. rewrite andb_false_r in E0. by eapply fetched_eq.
Qed.

(** (C4) Sending a patch successfully means that the server took it. Encoded with the
    newest key for the version recorded when it is sent, it is posted; the server takes
    it, or it refuses it with a 409, then the list of patches in that very answer is
    applied to the collection, the patch is encoded again for the version that list led
    to, and posted again, and the server takes that. Then the pages the server has from
    there are taken, and the collection is in step, with the mutations of the list in
    the answer and of the pages applied to it; the other collections are left alone. *)
Theorem SendAppState_in_step fuel patch s s' : honest (pi_Type patch) -> in_step (pi_Type patch) s ->
  SendAppState fuel patch s = (s', Ok tt) -> sent patch s s'.
Proof.
  intros Hh Hi [H|(again & s2 & [= <-] & Hc & Hi2 & H)]%send_attempt_in_step; [by left| |done|done]. right. exists s2.
  apply send_attempt_in_step in H as [H|(again & s3 & [=] & _)]; done.
Qed.
End in_step.

(** ** Fetching ends *)

Section ending.
Context {C : Crypto} {P : AppStateProto} {St : Type} {SO : AppStateStore St} {SR : AppStateStoreReturns St} {SL : AppStateStoreLaws St} {W : Type}.

#[local] Notation client := (client St W).
#[local] Notation sm A := (stm client sync_error A).
#[local] Notation PM A := (stm (Processor St) app_error A).

Lemma ends_valueMACof b : ends (valueMACof b).
Proof. unfold valueMACof. returns_tac. Qed.
#[local] Hint Resolve ends_valueMACof : returns.

Lemma ends_valueMACs muts : ends (valueMACs muts).
Proof. induction muts; cbn [valueMACs]; returns_tac. Qed.
#[local] Hint Resolve ends_valueMACs : returns.

Lemma ends_patchMAC patch name key v : ends (generatePatchMAC patch name key v).
Proof. unfold generatePatchMAC. returns_tac. Qed.

Lemma ends_expand k : ends (expandAppStateKeys k).
Proof. unfold expandAppStateKeys. returns_tac. Qed.

Lemma ends_crypt blk iv src : ends (cbcutil.CryptBlocks blk iv src).
Proof. unfold cbcutil.CryptBlocks. returns_tac. Qed.
#[local] Hint Resolve ends_crypt : returns.

Lemma ends_Decrypt dec key iv c : ends (cbcutil.Decrypt dec key iv c).
Proof. unfold cbcutil.Decrypt, cbcutil.NewCipher, cbcutil.NewCBC, cbcutil.unpad. returns_tac. Qed.

Lemma returns_store_op {A} (m : stm St store_error A) : returns m -> returns (store_op m : PM A).
Proof. intros H p. unfold store_op. specialize (H (db p)). destruct (m _). by apply ends_map_err. Qed.
#[local] Hint Resolve ends_patchMAC ends_expand ends_Decrypt returns_store_op : returns.

Lemma returns_key keyID : returns (getAppStateKey keyID : PM _).
Proof. unfold getAppStateKey. returns_tac. Qed.
#[local] Hint Resolve returns_key : returns.

Lemma returns_collect muts f : (forall b n, returns (f b n)) -> forall i, returns (collectMACs muts i f : PM _).
Proof. intros Hf. induction muts; intros i; cbn [collectMACs]; returns_tac. Qed.

Lemma returns_updateHash muts f hs : (forall b n, returns (f b n)) -> returns (updateHash muts f hs : PM _).
Proof. intros Hf. unfold updateHash. apply returns_bind; [by apply returns_collect|]. intros. returns_tac. Qed.

Lemma ends_prev muts m i : match prevInPatch muts i m with Some o => ends o | None => True end.
Proof. induction i; cbn [prevInPatch]; [done|]. destruct (muts !! i) as [mut|]; [|returns_tac]. destruct (bool_decide _); [|done]. returns_tac. Qed.

Lemma returns_getPrev name muts m i : returns (getPrevSetValueMAC name muts m i : PM _).
Proof. unfold getPrevSetValueMAC. pose proof (ends_prev muts m i). destruct (prevInPatch _ _ _); eauto with returns. Qed.
#[local] Hint Resolve returns_updateHash returns_getPrev : returns.

Lemma returns_decodeMutation m i v : returns (decodeMutation m i v : PM _).
Proof. unfold decodeMutation. returns_tac. Qed.
#[local] Hint Resolve returns_decodeMutation : returns.

Lemma returns_decodeMutations muts v pv fk : forall i out, returns (decodeMutations muts i out v pv fk : PM _).
Proof. induction muts; intros; cbn [decodeMutations]; returns_tac. Qed.
#[local] Hint Resolve returns_decodeMutations : returns.

Lemma returns_storeMACs name st out : returns (storeMACs name st out : PM _).
Proof. unfold storeMACs. returns_tac. Qed.
#[local] Hint Resolve returns_storeMACs : returns.

Lemma returns_snapshotMAC name st k mac : returns (validateSnapshotMAC name st k mac : PM _).
Proof. unfold validateSnapshotMAC. returns_tac. Qed.
#[local] Hint Resolve returns_snapshotMAC : returns.

Lemma returns_decodeSnapshot name ss st v muts : returns (decodeSnapshot name ss st v muts : PM _).
Proof. unfold decodeSnapshot. returns_tac. Qed.

Lemma returns_validatePatch name p st v : returns (validatePatch name p st v : PM _).
Proof. unfold validatePatch. returns_tac. Qed.
#[local] Hint Resolve returns_decodeSnapshot returns_validatePatch : returns.

Lemma returns_applyPatches name v patches : forall muts st, returns (applyPatches name patches v muts st : PM _).
Proof. induction patches; intros; cbn [applyPatches]; unfold applyPatch; returns_tac. Qed.
#[local] Hint Resolve returns_applyPatches : returns.

Lemma returns_DecodePatches pl st v : returns (DecodePatches pl st v : PM _).
Proof. unfold DecodePatches. returns_tac. Qed.
#[local] Hint Resolve returns_DecodePatches : returns.

(** The other stores. *)
Lemma returns_slices {A} (row : A -> gmap string contacts.contact -> gmap string contacts.contact) l : returns (contacts.insert_slices row l).
Proof. induction l; cbn [contacts.insert_slices]; returns_tac. Qed.
#[local] Hint Resolve returns_slices : returns.

Lemma returns_PutContactName j f n : returns (contacts.PutContactName j f n).
Proof. unfold contacts.PutContactName, contacts.getContact, contacts.write_contact. returns_tac. Qed.

Lemma returns_PutAll d l : returns (contacts.PutAllContactNames d l).
Proof. unfold contacts.PutAllContactNames. returns_tac. Qed.

Lemma returns_logged {A} (m : sm A) : returns m -> returns (logged m).
Proof. intros H s. unfold logged, ends. specialize (H s). by destruct (m s) as [s1 []]. Qed.

Lemma returns_contact_op {A} (m : stm contacts.contact_store sql.sql_error A) : returns m -> returns (contact_op m : sm A).
Proof. intros H s. unfold contact_op. specialize (H (contact_db s)). destruct (m _). by apply ends_map_err. Qed.
Lemma returns_settings_op {A} (m : stm (sql.db (gmap string chatsettings.settings_row) unit) sql.sql_error A) : returns m -> returns (settings_op m : sm A).
Proof. intros H s. unfold settings_op. specialize (H (settings_db s)). destruct (m _). by apply ends_map_err. Qed.
Lemma returns_salt_op {A} (m : stm (sql.db privacytokens.token_tables unit) sql.sql_error A) : returns m -> returns (salt_op m : sm A).
Proof. intros H s. unfold salt_op. specialize (H (salt_db s)). destruct (m _). by apply ends_map_err. Qed.
Lemma returns_app_store {A} (m : stm St store_error A) : returns m -> returns (app_store m : sm A).
Proof.
  intros H s. unfold app_store, processor. pose proof (returns_store_op m H (proc s)) as H1.
  destruct (store_op m (proc s)). by apply ends_map_err.
Qed.
Lemma returns_dispatch e : returns (dispatchEvent e : sm unit).
Proof. done. Qed.
Lemma returns_push n : returns (set_PushName n : sm unit).
Proof. done. Qed.
#[local] Hint Resolve returns_PutContactName returns_PutAll returns_logged returns_contact_op returns_settings_op returns_salt_op
  returns_app_store returns_dispatch returns_push : returns.

Lemma returns_index l i : returns (at_index l i : sm string).
Proof. unfold at_index. returns_tac. Qed.
#[local] Hint Resolve returns_index : returns.

Lemma returns_dispatchAppState m full : returns (dispatchAppState m full : sm _).
Proof.
  unfold dispatchAppState, dispatch_set, chatsettings.PutMutedUntil, chatsettings.PutPinned, chatsettings.PutArchived,
    chatsettings.putChatSetting, cstoken.storeNCTSalt, cstoken.clearNCTSalt, privacytokens.PutNCTSalt, privacytokens.DeleteNCTSalt.
  returns_tac. apply returns_logged, returns_salt_op. returns_tac.
Qed.
#[local] Hint Resolve returns_dispatchAppState : returns.

Lemma returns_events ms full collect : returns (mutation_events ms full collect : sm _).
Proof. induction ms; cbn [mutation_events]; returns_tac. Qed.

Lemma returns_filter ms : returns (filterContacts ms : sm _).
Proof. induction ms; cbn [filterContacts]; returns_tac. Qed.

Lemma returns_dispatch_all evts : returns (dispatch_all evts : sm unit).
Proof. induction evts; cbn [dispatch_all]; returns_tac. Qed.
#[local] Hint Resolve returns_events returns_filter returns_dispatch_all : returns.

Context (V : services W) (EmitAppStateEventsOnFullSync : bool).

Lemma ends_or_error {A} e (o : option A) : ends (or_error e o).
Proof. unfold or_error. returns_tac. Qed.
#[local] Hint Resolve ends_or_error : returns.

Lemma ends_patches d nodes : ends (parsePatches d nodes).
Proof. induction nodes; cbn [parsePatches]; unfold with_external; returns_tac. Qed.
#[local] Hint Resolve ends_patches : returns.

Lemma ends_ParsePatchList r d n : ends (ParsePatchList r d n).
Proof. unfold ParsePatchList, parseSnapshotInternal, parsePatchListInternal. returns_tac. Qed.
#[local] Hint Resolve ends_ParsePatchList : returns.

Lemma returns_collectEvents name ms full collect :
  returns (collectEventsToDispatch V EmitAppStateEventsOnFullSync name ms full collect : sm _).
Proof. unfold collectEventsToDispatch. returns_tac. Qed.

Lemma returns_apply name st pl full collect : returns (applyAppStatePatches V EmitAppStateEventsOnFullSync name st pl full collect : sm _).
Proof.
  intros s. unfold applyAppStatePatches. pose proof (returns_DecodePatches pl st true (proc s)) as H.
  destruct (DecodePatches _ _ _ _) as [p [[muts st']|e| |]]; try done.
  - apply (returns_bind (collectEventsToDispatch V EmitAppStateEventsOnFullSync name muts full collect)); [apply returns_collectEvents|done].
  - by destruct e.
Qed.

(** The server answers every query, and its pages advance up to some version. *)
Definition serves : Prop := forall q w, ends (snd (sendIQ V q w)).
Definition paged (name : WAPatchName) (limit : Z) : Prop := forall from pl,
  answers V name from pl -> HasMorePatches pl = true -> from < list_version from pl <= limit.

Lemma returns_fetch name from snap : serves -> returns (fetchAppStatePatches V name from snap : sm _).
Proof.
  intros Hs. unfold fetchAppStatePatches. apply returns_bind.
  - intros s. unfold query. specialize (Hs (sync_query "set" ([("name", AString name); ("return_snapshot", ABool snap)]
      ++ (if snap then [] else [("version", AUint64 from)])) ANil) (world s)). destruct (sendIQ V _ _). by apply ends_map_err.
  - intros resp. returns_tac.
Qed.

Lemma ends_bind_at {A B} (m : sm A) (k : A -> sm B) s : ends (snd (m s)) ->
  (forall s1 a, m s = (s1, Ok a) -> ends (snd (k a s1))) -> ends (snd ((m ≫= k) s)).
Proof. intros Hm Hk. unfold mbind, stm_bind. destruct (m s) as [s1 [a|e| |]]; try done. by apply Hk. Qed.

Lemma fetch_pages_ends name full collect limit fuel : honest V name -> serves -> paged name limit -> forall want s,
  in_step name s -> (want = true -> hs_Version (recorded name s) = 0) ->
  (Z.to_nat (limit - hs_Version (recorded name s)) < fuel)%nat ->
  ends (snd (fetch_pages V EmitAppStateEventsOnFullSync fuel name full want collect (recorded name s) s)).
Proof.
  intros Hh Hv Hp. induction fuel as [|fuel IH]; intros want s Hi Hw Hf; [lia|]. cbn [fetch_pages].
  apply ends_bind_at; [by apply returns_fetch|]. intros s1 pl E. apply fetched_answers in E as [Hsame Ha].
  destruct (_ && _); [done|]. destruct (_ && _); [done|]. apply ends_bind_at; [apply returns_apply|].
  intros s2 [st evts] E.
  assert (recorded name s1 = recorded name s) as Er by (unfold recorded; by rewrite Hsame).
  assert ((if want then 0 else hs_Version (recorded name s)) = hs_Version (recorded name s)) as Hfrom.
  { destruct want; [symmetry; by apply Hw|done]. }
  rewrite Hfrom in Ha. pose proof (Hh _ _ Ha) as Hwf. rewrite <- Er in E, Hwf.
  eapply apply_in_step in E as (Hi2 & Er2 & _ & _ & Hver & _); [|eapply db_in_step; [by rewrite Hsame|done]|done].
  destruct (HasMorePatches pl) eqn:Hm; [|done]. specialize (Hp _ _ Ha Hm). rewrite Er in Hver. rewrite <- Er2 in Hver |- *.
  apply ends_bind_at; [apply IH; [done|done|lia]|]. intros s3 [st3 evts3] _. done.
Qed.

(** (C5) Fetching returns: when the server answers every query and each page it calls
    not the last one moves the collection on, up to some version, a fetch ends after
    at most that many pages more than one, with success or with an error. *)
Theorem FetchAppState_returns name full only limit fuel (s : client) : honest V name -> serves -> paged name limit ->
  full = true \/ in_step name s -> (Z.to_nat limit < fuel)%nat ->
  snd (FetchAppState V EmitAppStateEventsOnFullSync fuel name full only s) <> NoFuel.
Proof.
  intros Hh Hs Hp Hi Hf. unfold FetchAppState. apply ends_bind_at; [|intros; apply returns_dispatch_all].
  unfold fetchAppState. apply ends_bind_at.
  { assert (returns ((if full then app_store (DeleteAppStateVersion name) else mret tt) : sm unit)) as H by returns_tac. apply H. }
  intros s1 [] E.
  assert (in_step name s1 /\ (full = true -> hs_Version (recorded name s1) = 0)) as [Hi1 Hv1].
  { destruct full; [by apply deleted_in_step in E as (? & ? & _)|]. injection E as <-. by destruct Hi. }
  apply ends_bind_at; [apply returns_app_store, get_version_returns|]. intros s2 [version hash] E2.
  apply app_store_inv in E2 as (d & E2 & ->). apply store_get_version in E2 as [-> Ev].
  assert (set_proc (mkProc (keyCache (proc s1)) (db (proc s1))) s1 = s1) as -> by (by destruct s1 as [[]]).
  assert (mkHS version hash = recorded name s1) as Er by (unfold recorded; by rewrite <- Ev).
  assert (version = hs_Version (recorded name s1)) as -> by (by rewrite <- Er). cbv zeta.
  destruct (_ && _); [done|]. rewrite Er. apply ends_bind_at; [|by intros s3 [st evts] _].
  apply fetch_pages_ends with (limit := limit); try done.
  - intros [H|H]%orb_true_iff; [by apply Hv1|]. by apply Z.eqb_eq in H.
  - pose proof (step_version _ _ Hi1). lia.
Qed.
End ending.
(** ** Asking for keys *)

Section asking.
Context {St : Type} {SO : AppStateStore St} {W : Type} (V : services W).

#[local] Notation client := (client St W).

(** The keys that a call asks for. *)
Definition asked_for (pl : PatchList) (s : client) : list bytes :=
  let '(p, ids) := GetMissingKeyIDs pl (proc s) in snd (filter_requests (now V (world s)) ids (appStateKeyRequests s)).

(** Calls at any moments of a client's life; [log]: what was asked for, and when. *)
Inductive key_run : client -> list (Z * bytes) -> client -> Prop :=
  | run_nil s : key_run s [] s
  | run_ask s log s1 pl : key_run s log s1 ->
      key_run s (log ++ map (pair (now V (world s1))) (asked_for pl s1)) (requestMissingAppStateKeys V pl s1)
  | run_other s log s1 s2 : key_run s log s1 ->
      appStateKeyRequests s2 = appStateKeyRequests s1 -> now V (world s1) <= now V (world s2) -> key_run s log s2.

(** Everything asked for is marked, at its time or later, and no mark is ahead of
    the clock. *)
Definition marked (log : list (Z * bytes)) (t : Z) (requests : gmap bytes Z) : Prop :=
  Forall (fun x => exists last, requests !! x.2 = Some last /\ x.1 <= last) log /\ forall k last, requests !! k = Some last -> last <= t.

(** Two requests for the same key are a day apart. *)
Definition daily (log : list (Z * bytes)) : Prop := forall i j x y,
  (i < j)%nat -> log !! i = Some x -> log !! j = Some y -> x.2 = y.2 -> x.1 + request_interval < y.1.

Lemma daily_snoc log t k requests : daily log -> marked log t requests -> not_asked t requests k = true -> daily (log ++ [(t, k)]).
Proof.
  intros Hd [Hm _] Hn i j x y Hij Hx Hy Hk. destruct (decide (j < length log)%nat) as [Hj|Hj].
  - rewrite lookup_app_l in Hy by done. rewrite lookup_app_l in Hx by lia. exact (Hd i j x y Hij Hx Hy Hk).
  - rewrite lookup_app_r in Hy by lia. apply list_lookup_singleton_Some in Hy as [Hj' <-].
    rewrite lookup_app_l in Hx by lia. rewrite Forall_lookup in Hm. destruct (Hm _ _ Hx) as (last & Hl & Hle).
    unfold not_asked in Hn. cbn in Hk |- *. rewrite <- Hk, Hl in Hn. lia.
Qed.

Lemma marked_later log t t' requests : t <= t' -> marked log t requests -> marked log t' requests.
Proof. intros Ht [H1 H2]. split; [done|]. intros k last Hk. specialize (H2 _ _ Hk). lia. Qed.

Lemma marked_snoc log t k requests : marked log t requests -> marked (log ++ [(t, k)]) t (<[k := t]> requests).
Proof.
  intros [H1 H2]. split.
  - apply Forall_app. split; [|repeat constructor; exists t; cbn; rewrite lookup_insert_eq; split; [done|lia]].
    eapply Forall_impl; [exact H1|]. intros x (last & Hl & Hle). destruct (decide (k = x.2)) as [->|Hk].
    + exists t. rewrite lookup_insert_eq. specialize (H2 _ _ Hl). split; [done|lia].
    + exists last. by rewrite lookup_insert_ne.
  - intros k' last [[-> ->]|[Hne Hl]]%lookup_insert_Some; [lia|by eapply H2].
Qed.

Lemma filter_daily t ids : forall requests log, daily log -> marked log t requests ->
  let '(requests', sent) := filter_requests t ids requests in
  daily (log ++ map (pair t) sent) /\ marked (log ++ map (pair t) sent) t requests'.
Proof.
  induction ids as [|k ids IH]; intros requests log Hd Hm; cbn [filter_requests].
  { by rewrite app_nil_r. }
  destruct (not_asked t requests k) eqn:Hn; [|by apply IH].
  specialize (IH (<[k := t]> requests) (log ++ [(t, k)]) (daily_snoc _ _ _ _ Hd Hm Hn) (marked_snoc _ _ _ _ Hm)).
  destruct (filter_requests t ids _) as [requests' sent]. cbn [map]. by rewrite <- app_assoc in IH.
Qed.

Lemma run_daily (s s' : client) log : (forall ids w, now V w <= now V (send_key_request V ids w)) ->
  marked [] (now V (world s)) (appStateKeyRequests s) -> key_run s log s' ->
  daily log /\ marked log (now V (world s')) (appStateKeyRequests s').
Proof.
  intros Hclock H0. induction 1 as [s|s log s1 pl H IH|s log s1 s2 H IH Er Hle].
  - split; [|done]. intros i j x y _ Hx. by rewrite lookup_nil in Hx.
  - destruct (IH H0) as [Hd Hm]. clear IH. unfold asked_for, requestMissingAppStateKeys.
    destruct (GetMissingKeyIDs pl (proc s1)) as [p ids].
    pose proof (filter_daily (now V (world s1)) ids (appStateKeyRequests s1) log Hd Hm) as Hf.
    change (world (set_proc p s1)) with (world s1). change (appStateKeyRequests (set_proc p s1)) with (appStateKeyRequests s1).
    destruct (filter_requests _ ids _) as [requests sent]. destruct Hf as [Hd' Hm']. split; [done|].
    unfold requestAppStateKeys. destruct sent as [|k sent]; [done|]. eapply marked_later; [|exact Hm']. apply Hclock.
  - destruct (IH H0) as [Hd Hm]. split; [done|]. rewrite Er. by eapply marked_later.
Qed.

(** A missing key is asked for at most once a day: over any run in which patch
    lists with missing keys turn up at any moments of a client's life, with a clock
    that does not go back, two requests for the same key are more than 24 hours
    apart, and whenever a list turns up the keys asked for are those missing whose
    last request is more than 24 hours old, or that have none. *)
Theorem keys_requested_daily (s s' : client) log pl : (forall ids w, now V w <= now V (send_key_request V ids w)) ->
  marked [] (now V (world s)) (appStateKeyRequests s) -> key_run s log s' ->
  daily log /\
  forall k, k ∈ asked_for pl s' <->
    k ∈ snd (GetMissingKeyIDs pl (proc s')) /\ forall last, appStateKeyRequests s' !! k = Some last -> last + request_interval < now V (world s').
Proof.
  intros Hclock H0 Hrun. destruct (run_daily _ _ _ Hclock H0 Hrun) as [Hd _]. split; [done|]. intros k.
  unfold asked_for. destruct (GetMissingKeyIDs pl (proc s')) as [p ids]. cbn [snd].
  generalize (appStateKeyRequests s'). induction ids as [|i ids IH]; intros requests; cbn [filter_requests].
  { cbn [snd]. rewrite elem_of_nil. naive_solver. }
  rewrite elem_of_cons. destruct (not_asked _ requests i) eqn:Hn.
  - specialize (IH (<[i := now V (world s')]> requests)). destruct (filter_requests _ ids _) as [rq sent]. cbn [snd] in *.
    rewrite elem_of_cons, IH. clear IH. unfold not_asked in Hn. destruct (decide (k = i)) as [->|Hk].
    + split; [|by auto]. intros _. split; [by left|]. intros last Hl. rewrite Hl in Hn. lia.
    + rewrite lookup_insert_ne by done. naive_solver.
  - rewrite IH. split; [naive_solver|]. intros [[->|Hk] Hl]; [|done]. unfold not_asked in Hn.
    destruct (requests !! i) as [last|]; [|done]. specialize (Hl _ eq_refl). lia.
Qed.
End asking.
End appstate_in_step.
