(* ===== verification/AppStateSyncWitness.v ===== *)
(** * Fetching and sending app state: the theorems at concrete inputs

    A server with one collection, which holds the toy patch of AppStateWitness.v
    at version 1, answers the first patch sent to it with a conflict and takes the
    next. A client that has nothing fetches the collection and sends a patch to
    it. After them what the model shows of the edges of appstate.go. *)

From S2P Require Import Prelude GoStrings StateErr Jid Node Crypto LTHash AppStateStore AppState AppStateProofs AppStateEncode AppStateWitness.
From S2P Require Import Requests Sql Contacts TCToken History AppStateSync AppStateInStep.

#[local] Open Scope string_scope.
#[local] Open Scope list_scope.
#[local] Open Scope Z_scope.

Module appstate_sync_witness.

Import lthash attrs jid requests appstate appstate_proofs appstate_encode appstate_sync appstate_in_step appstate_witness.

#[local] Existing Instance toy_crypto.
#[local] Existing Instance toy_crypto_laws.

(** The patches the server sends are at version 1. *)
#[local] Instance served_app : AppStateProto := {
  marshal_action := toy_action;
  unmarshal_action := toy_unaction;
  marshal_index l := toy_list (map str_bytes l);
  unmarshal_index b := Some (map bytes_str (toy_unlist b));
  marshal_patch := toy_patch;
  unmarshal_patch b := with_version 1 <$> toy_unpatch b;
  unmarshal_snapshot b := None;
  unmarshal_mutations b := None
}.

Definition collection_from (from : Z) (a : Attrs) (more : list Node) : Node :=
  mkNode "iq" [] (ANodes [mkNode "sync" [] (ANodes [mkNode "collection" ([("name", AString WAPatchRegularLow)] ++ a)
    (ANodes (mkNode "patches" [] (ANodes (if from =? 0 then [mkNode "patch" [] (ABytes (snd toy_encoded))] else [])) :: more))])]).

Definition conflict_node : Node := mkNode "error" [("code", AString "409")] ANil.

(** The world counts the patches sent. *)
Definition toy_send (q : infoQuery) (sent : nat) : nat * outcome iq_error Node :=
  match q_content q with
  | ANodes [mkNode _ _ (ANodes [mkNode _ a content])] =>
      let from := from_of a in
      match content, sent with
      | ANodes _, O => (1%nat, Ok (collection_from from [("type", AString "error")] [conflict_node]))
      | ANodes _, _ => (Datatypes.S sent, Ok (collection_from from [] []))
      | _, _ => (sent, Ok (collection_from from [] []))
      end
  | _ => (sent, Err ErrIQTimedOut)
  end.

Definition toy_services : services nat := {|
  sendIQ := toy_send;
  unmarshal_reference := Some;
  Download _ := Some;
  gunzip := Some;
  unmarshal_recovery _ := None;
  now w := 10 ^ 18 + Z.of_nat w;
  ivs _ := toy_ivs;
  send_key_request _ w := Datatypes.S w;
  dedup _ _ l := l;
  handler_fails _ := false
|}.

Definition no_db {T} (t : T) : sql.db T unit := sql.mkDb t tt [].

Definition toy_client : client sqlstore.tables nat :=
  mkClient toy_proc (sql.mkDb ∅ ∅ []) (no_db ∅) (no_db (privacytokens.mkTables ∅ None ∅)) "" ∅ [] [] 0%nat.

Definition low : WAPatchName := WAPatchRegularLow.

Lemma toy_answers from pl : answers toy_services low from pl ->
  pl = mkPatchList low false (if from =? 0 then [toy_received] else []) None.
Proof.
  intros (a & content & w & w' & resp & collection & _ & Hf & Hq & Hc & Hp).
  cbn [sendIQ toy_services] in Hq. unfold toy_send, sync_query in Hq. cbn [q_content] in Hq. rewrite Hf in Hq. unfold collection_from in Hq.
  destruct (from =? 0), content, w; injection Hq as _ <-; vm_compute in Hc; injection Hc as <-; vm_compute in Hp; injection Hp as <-; vm_compute; reflexivity.
Qed.

Lemma toy_honest : honest toy_services low.
Proof.
  intros from pl Ha. apply toy_answers in Ha as ->. destruct (Z.eqb_spec from 0) as [->|_].
  - split; [done|]. split; [|split; [vm_compute; reflexivity|done]]. apply (bool_decide_unpack _). vm_compute. exact I.
  - split; [done|]. split; [apply List.Forall_nil|exact I].
Qed.

Lemma toy_in_step : in_step low toy_client.
Proof.
  split; [split; [vm_compute; reflexivity|apply List.Forall_nil]|intros _; split_and!; [vm_compute; reflexivity..|intros v; apply List.Forall_nil]|vm_compute; discriminate].
Qed.

Definition outcome_of {A} (x : client sqlstore.tables nat * outcome sync_error A) : client sqlstore.tables nat := fst x.

Definition toy_fetched : client sqlstore.tables nat := outcome_of (FetchAppState toy_services false 1 low true false toy_client).

Lemma FetchAppState_in_step_witness : fetch_done toy_services low true false toy_client toy_fetched.
Proof.
  apply (FetchAppState_in_step toy_services false low true false 1 toy_client toy_fetched); [exact toy_honest|by left|].
  vm_compute. reflexivity.
Defined.

Lemma FetchAppState_returns_witness :
  snd (FetchAppState toy_services false 2 low false false toy_client) <> NoFuel.
Proof.
  apply (FetchAppState_returns toy_services false low false false 1 2 toy_client); [exact toy_honest| | |right; exact toy_in_step|].
  - intros q w. unfold ends. cbn [sendIQ toy_services]. unfold toy_send. repeat case_match; discriminate.
  - intros from pl Ha. apply toy_answers in Ha as ->. discriminate.
  - vm_compute. repeat constructor.
Defined.

Definition toy_sent : client sqlstore.tables nat := outcome_of (SendAppState toy_services true 2 toy_info toy_client).

Lemma SendAppState_in_step_witness : sent toy_services toy_info toy_client toy_sent.
Proof.
  apply (SendAppState_in_step toy_services true 2 toy_info toy_client toy_sent); [exact toy_honest|exact toy_in_step|].
  vm_compute. reflexivity.
Defined.

(** The patch was applied; the patch sent was refused, then taken. *)
Example fetched_one : hs_Version (recorded low toy_fetched) = 1 /\ size (stored (db (proc toy_fetched)) low) = 2%nat.
Proof. split; vm_compute; reflexivity. Qed.

Example sent_twice : world toy_sent = 2%nat /\ hs_Version (recorded low toy_sent) = 1 /\ (length (dispatched toy_sent) = 4)%nat.
Proof. split_and!; vm_compute; reflexivity. Qed.

(** The second of two calls within a day asks for nothing. *)
Definition unknown_key : PatchList := mkPatchList low false [mkPatch 1 [] [] [] (Some [x01]) None] None.

Definition once_asked : client sqlstore.tables nat := requestMissingAppStateKeys toy_services unknown_key toy_client.

Lemma keys_requested_daily_witness :
  daily [(10 ^ 18, [x01])] /\
  forall k, k ∈ asked_for toy_services unknown_key once_asked <->
    k ∈ snd (GetMissingKeyIDs unknown_key (proc once_asked)) /\
    forall last, appStateKeyRequests once_asked !! k = Some last -> last + request_interval < now toy_services (world once_asked).
Proof.
  apply (keys_requested_daily toy_services toy_client once_asked [(10 ^ 18, [x01])] unknown_key).
  - intros ids w. cbn. lia.
  - split; [apply List.Forall_nil|]. intros k last H. cbn in H. by rewrite (lookup_empty (M := gmap bytes)) in H.
  - change [(10 ^ 18, [x01])] with ([] ++ map (pair (now toy_services (world toy_client))) (asked_for toy_services unknown_key toy_client)).
    apply run_ask, run_nil.
Defined.

Example asked_once : asked_for toy_services unknown_key toy_client = [[x01]] /\ asked_for toy_services unknown_key once_asked = [].
Proof. split; vm_compute; reflexivity. Qed.

(** ** Edges *)

Section edges.
Context {St W : Type}.

#[local] Notation client := (client St W).

(** An index without elements, or a label edit without a label, crashes the
    goroutine. *)
Lemma empty_index_panics m full (s : client) : m_Index m = [] -> m_Operation m = SET -> dispatchAppState m full s = (s, Panic).
Proof. intros Hi Ho. unfold dispatchAppState. by rewrite Hi, Ho. Qed.

Lemma label_edit_panics m full (s : client) : m_Index m = [IndexLabelEdit] -> m_Operation m = SET -> dispatchAppState m full s = (s, Panic).
Proof. intros Hi Ho. unfold dispatchAppState. by rewrite Hi, Ho. Qed.

(** On a full sync the contacts are taken out without a look at the operation: a
    removed contact is among those inserted, where one by one it would be passed
    over. *)
Lemma removed_contact_inserted m j full (s : client) : m_Index m = [IndexContact; j] -> m_Operation m = REMOVE ->
  filterContacts [m] s = (s, Ok ([], [contacts.mkEntry (incoming.parsed_part j) (fst (contact_names (m_Action m))) (snd (contact_names (m_Action m)))])) /\
  dispatchAppState m full s = (s, Ok None).
Proof. intros Hi Ho. unfold dispatchAppState. cbn [filterContacts]. by rewrite Hi, Ho. Qed.
End edges.

End appstate_sync_witness.
