(* ===== verification/DeviceStore.v ===== *)
(** * store/store.go and store/sqlstore/container.go: devices and their table

    A [Device] holds a session's keys and names in memory; [Save] and [Delete]
    go through the container to the table of devices. UUIDs are 16 bytes; the
    random values of a new device are arguments. An empty JID is NULL in a
    column, which the primary key refuses (PostgreSQL; SQLite lets it in). *)

From S2P Require Import Prelude GoStrings StateErr Jid Crypto Sql.

#[local] Open Scope string_scope.
#[local] Open Scope list_scope.
#[local] Open Scope Z_scope.

Module devicestore.

Import jid crypto sql.

(** ** Devices *)

(** waAdv.ADVSignedDeviceIdentity; [None] is a nil slice. *)
Record ADVSignedDeviceIdentity := mkAdv {
  Details : option bytes;
  AccountSignatureKey : option bytes;
  AccountSignature : option bytes;
  DeviceSignature : option bytes
}.

(** What the fields for the stores hold: nothing yet, the SQL stores of a JID, or
    those that fail. *)
Inductive store_set := NoStores | SQLStores (j : JID) | NoopStores.

Record Device := mkDevice {
  NoiseKey : KeyPair;
  IdentityKey : KeyPair;
  SignedPreKey : PreKey;
  RegistrationID : Z;
  AdvSecretKey : bytes;
  ID : option JID;
  LID : JID;
  Account : option ADVSignedDeviceIdentity;
  Platform : string;
  BusinessName : string;
  PushName : string;
  LIDMigrationTimestamp : Z;
  CompanionMetaNonce : string;
  FacebookUUID : bytes;
  Initialized : bool;
  Deleted : bool;
  stores : store_set
}.

Definition set_AdvSecretKey (k : bytes) (d : Device) : Device :=
  mkDevice (NoiseKey d) (IdentityKey d) (SignedPreKey d) (RegistrationID d) k (ID d) (LID d) (Account d) (Platform d)
    (BusinessName d) (PushName d) (LIDMigrationTimestamp d) (CompanionMetaNonce d) (FacebookUUID d) (Initialized d) (Deleted d) (stores d).
Definition set_Account (a : ADVSignedDeviceIdentity) (d : Device) : Device :=
  mkDevice (NoiseKey d) (IdentityKey d) (SignedPreKey d) (RegistrationID d) (AdvSecretKey d) (ID d) (LID d) (Some a) (Platform d)
    (BusinessName d) (PushName d) (LIDMigrationTimestamp d) (CompanionMetaNonce d) (FacebookUUID d) (Initialized d) (Deleted d) (stores d).
(** The assignments of a pairing. *)
Definition set_pairing (j lid : JID) (business platform : string) (d : Device) : Device :=
  mkDevice (NoiseKey d) (IdentityKey d) (SignedPreKey d) (RegistrationID d) (AdvSecretKey d) (Some j) lid (Account d) platform
    business (PushName d) (LIDMigrationTimestamp d) (CompanionMetaNonce d) (FacebookUUID d) (Initialized d) (Deleted d) (stores d).
Definition set_stores (i : bool) (x : store_set) (d : Device) : Device :=
  mkDevice (NoiseKey d) (IdentityKey d) (SignedPreKey d) (RegistrationID d) (AdvSecretKey d) (ID d) (LID d) (Account d) (Platform d)
    (BusinessName d) (PushName d) (LIDMigrationTimestamp d) (CompanionMetaNonce d) (FacebookUUID d) i (Deleted d) x.
Definition set_deleted (d : Device) : Device :=
  mkDevice (NoiseKey d) (IdentityKey d) (SignedPreKey d) (RegistrationID d) (AdvSecretKey d) None EmptyJID (Account d) (Platform d)
    (BusinessName d) (PushName d) (LIDMigrationTimestamp d) (CompanionMetaNonce d) (FacebookUUID d) (Initialized d) true NoopStores.

Definition GetJID (device : option Device) : JID :=
  match device with Some d => default EmptyJID (ID d) | None => EmptyJID end.
Definition GetLID (device : option Device) : JID :=
  match device with Some d => LID d | None => EmptyJID end.

(** ** The table *)

Record device_row := mkRow {
  row_lid : option string;
  registration_id : Z;
  noise_key : bytes;
  identity_key : bytes;
  signed_pre_key : bytes;
  signed_pre_key_id : Z;
  signed_pre_key_sig : bytes;
  adv_key : bytes;
  adv_details : option bytes;
  adv_account_sig : option bytes;
  adv_account_sig_key : option bytes;
  adv_device_sig : option bytes;
  platform : string;
  business_name : string;
  push_name : string;
  facebook_uuid : option bytes;
  lid_migration_ts : Z;
  companion_meta_nonce : string
}.

Definition has_length (n : Z) (b : option bytes) : bool := match b with Some b => blen b =? n | None => false end.

(** The NOT NULL and CHECK constraints. *)
Definition row_ok (r : device_row) : bool :=
  (0 <=? registration_id r) && (registration_id r <? 4294967296) && (blen (noise_key r) =? 32) && (blen (identity_key r) =? 32)
  && (blen (signed_pre_key r) =? 32) && (0 <=? signed_pre_key_id r) && (signed_pre_key_id r <? 16777216)
  && (blen (signed_pre_key_sig r) =? 64) && bool_decide (is_Some (adv_details r)) && has_length 64 (adv_account_sig r)
  && has_length 32 (adv_account_sig_key r) && has_length 64 (adv_device_sig r).

(** Rows by jid. *)
Abbreviation devices_table := (gmap string device_row).

Notation dv A := (stm (db devices_table unit) sql_error A).

Definition column (j : JID) : option string := match Value j with SqlString s => Some s | _ => None end.

(** INSERT ... ON CONFLICT (jid) DO UPDATE: the keys of a row that is there stay. *)
Definition upsert_device (k : string) (new : device_row) (t : devices_table) : option devices_table :=
  if negb (row_ok new) then None
  else
    Some (<[k := match t !! k with
                 | None => new
                 | Some old => mkRow (row_lid new) (registration_id old) (noise_key old) (identity_key old) (signed_pre_key old)
                     (signed_pre_key_id old) (signed_pre_key_sig old) (adv_key old) (adv_details old) (adv_account_sig old)
                     (adv_account_sig_key old) (adv_device_sig old) (platform new) (business_name new) (push_name new)
                     (facebook_uuid old) (lid_migration_ts new) (companion_meta_nonce new)
                 end]> t).

(** ** The container *)

Definition uuid_nil : bytes := replicate 16 x00.

Definition row_of (d : Device) (account : ADVSignedDeviceIdentity) (signature : bytes) : device_row :=
  mkRow (column (LID d)) (RegistrationID d) (Priv (NoiseKey d)) (Priv (IdentityKey d)) (Priv (PreKeyPair (SignedPreKey d)))
    (KeyID (SignedPreKey d)) signature (AdvSecretKey d) (Details account) (AccountSignature account) (AccountSignatureKey account)
    (DeviceSignature account) (Platform d) (BusinessName d) (PushName d)
    (if bool_decide (FacebookUUID d = uuid_nil) then None else Some (FacebookUUID d)) (LIDMigrationTimestamp d) (CompanionMetaNonce d).

Definition initializeDevice (d : Device) : Device :=
  match ID d with Some j => set_stores true (SQLStores j) d | None => d end.

Inductive device_error := ErrDeviceIDMustBeSet | ErrDeviceDeleted | ErrExec (e : sql_error).

(** The device is a pointer: it comes back as the call leaves it. *)
Definition PutDevice (d : Device) (s : db devices_table unit) : db devices_table unit * Device * outcome device_error unit :=
  match ID d with
  | None => (s, d, Err ErrDeviceIDMustBeSet)
  | Some j =>
      match Account d, Signature (SignedPreKey d) with
      | Some account, Some signature =>
          let '(s, o) := exec (fun t => k ← column j; upsert_device k (row_of d account signature) t) s in
          (s, if Initialized d then d else initializeDevice d, map_err ErrExec o)
      | _, _ => (s, d, Panic)
      end
  end.

Definition DeleteDevice (d : Device) (s : db devices_table unit) : db devices_table unit * outcome device_error unit :=
  match ID d with
  | None => (s, Err ErrDeviceIDMustBeSet)
  | Some j =>
      let '(s, o) := exec (fun t => Some (match column j with Some k => delete k t | None => t end)) s in (s, map_err ErrExec o)
  end.

Definition Save (d : Device) (s : db devices_table unit) : db devices_table unit * Device * outcome device_error unit :=
  if Deleted d then (s, d, Err ErrDeviceDeleted) else PutDevice d s.

Definition Delete (d : Device) (s : db devices_table unit) : db devices_table unit * Device * outcome device_error unit :=
  if Deleted d then (s, d, Ok tt)
  else
    match DeleteDevice d s with
    | (s, Ok tt) => (s, set_deleted d, Ok tt)
    | (s, o) => (s, d, o)
    end.

Section container.
Context {C : Crypto}.

Definition scan_jid (c : option string) : outcome sql_error JID :=
  match c with
  | None => Ok EmptyJID
  | Some s => map_err (fun _ => ErrBadRow) (Scan EmptyJID (SqlString s))
  end.

Definition scanDevice (k : string) (r : device_row) : outcome sql_error Device :=
  j ← scan_jid (Some k);
  lid ← scan_jid (row_lid r);
  if negb ((blen (noise_key r) =? 32) && (blen (identity_key r) =? 32) && (blen (signed_pre_key r) =? 32) && (blen (signed_pre_key_sig r) =? 64))
  then Err ErrInvalidLength
  else
    Ok (initializeDevice
      (mkDevice (NewKeyPairFromPrivateKey (noise_key r)) (NewKeyPairFromPrivateKey (identity_key r))
         (mkPreKey (NewKeyPairFromPrivateKey (signed_pre_key r)) (signed_pre_key_id r) (Some (signed_pre_key_sig r)))
         (registration_id r) (adv_key r) (Some j) lid
         (Some (mkAdv (adv_details r) (adv_account_sig_key r) (adv_account_sig r) (adv_device_sig r)))
         (platform r) (business_name r) (push_name r) (lid_migration_ts r) (companion_meta_nonce r)
         (default uuid_nil (facebook_uuid r)) false false NoStores)).

Fixpoint scan_list (l : list (string * device_row)) : outcome sql_error (list Device) :=
  match l with
  | [] => Ok []
  | (k, r) :: l => d ← scanDevice k r; ds ← scan_list l; Ok (d :: ds)
  end.

(** In the order the database gives them. *)
Definition GetAllDevices : dv (list Device) := rs ← query (fun t => map_to_list t); lift (scan_list rs).

(** The random values of a new device. *)
Record randomness := mkRandom { rnd_noise : bytes; rnd_identity : bytes; rnd_registration : Z; rnd_adv : bytes; rnd_prekey : bytes }.

Definition NewDevice (rnd : randomness) : Device :=
  let identity := NewKeyPair (rnd_identity rnd) in
  mkDevice (NewKeyPair (rnd_noise rnd)) identity (CreateSignedPreKey (rnd_prekey rnd) identity 1) (u32 (rnd_registration rnd)) (rnd_adv rnd)
    None EmptyJID None "" "" "" 0 "" uuid_nil false false NoStores.

Definition GetFirstDevice (rnd : randomness) : dv Device :=
  ds ← GetAllDevices;
  match ds with [] => mret (NewDevice rnd) | d :: _ => mret d end.

Definition GetDevice (j : JID) : dv (option Device) :=
  r ← query (fun t => k ← column j; r ← t !! k; Some (k, r));
  match r with
  | None => mret None
  | Some (k, r) => d ← lift (scanDevice k r); mret (Some d)
  end.
End container.

(** ** Saving and loading *)

Section saving.
Context {C : Crypto}.

(** A device whose public keys belong to the private ones, and whose JIDs have a
    textual form. *)
Record sound_device (d : Device) (j : JID) (signature : bytes) (account : ADVSignedDeviceIdentity) : Prop := {
  sound_id : ID d = Some j /\ jid_ok j /\ expressible j = true;
  sound_lid : LID d = EmptyJID \/ jid_ok (LID d) /\ expressible (LID d) = true;
  sound_noise : NoiseKey d = NewKeyPairFromPrivateKey (Priv (NoiseKey d));
  sound_identity : IdentityKey d = NewKeyPairFromPrivateKey (Priv (IdentityKey d));
  sound_prekey : SignedPreKey d = mkPreKey (NewKeyPairFromPrivateKey (Priv (PreKeyPair (SignedPreKey d)))) (KeyID (SignedPreKey d)) (Some signature);
  sound_account : Account d = Some account;
  sound_row : row_ok (row_of d account signature) = true;
  sound_live : Deleted d = false
}.

Lemma Value_expressible j : expressible j = true -> Value j = SqlString (String_ j).
Proof.
  intros (_ & _ & _ & _ & Hne & _)%expressible_spec. unfold Value. destruct (Server j) as [|c s] eqn:E; [done|]. done.
Qed.

Lemma scan_expressible j : jid_ok j -> expressible j = true -> scan_jid (column j) = Ok j.
Proof. intros Hj He. unfold column. rewrite (Value_expressible j He). cbn. by rewrite (parse_expressible j Hj He). Qed.

Lemma row_ok_lengths r : row_ok r = true ->
  (blen (noise_key r) =? 32) && (blen (identity_key r) =? 32) && (blen (signed_pre_key r) =? 32) && (blen (signed_pre_key_sig r) =? 64) = true.
Proof. unfold row_ok. rewrite !andb_true_iff. tauto. Qed.

Lemma scan_row_of d j signature account : sound_device d j signature account ->
  scanDevice (String_ j) (row_of d account signature) = Ok (initializeDevice d).
Proof.
  intros [(Hid & Hj & He) Hlid Hn Hi Hp Ha Hr Hd]. unfold scanDevice. cbn [row_lid row_of].
  pose proof (scan_expressible j Hj He) as Hs. unfold column in Hs. rewrite (Value_expressible j He) in Hs. rewrite Hs. rewrite bind_Ok.
  assert (scan_jid (column (LID d)) = Ok (LID d)) as Hl.
  { destruct Hlid as [->|[H1 H2]]; [done|by apply scan_expressible]. }
  rewrite Hl, bind_Ok, (row_ok_lengths _ Hr). cbn [negb].
  unfold row_of, initializeDevice. rewrite Hid. cbn. f_equal.
  destruct d as [noise identity prekey reg adv id lid acc plat biz push mig nonce uuid init del st]. cbn in *. subst.
  rewrite <- Hn, <- Hi, <- Hp. unfold set_stores. cbn. destruct account.
  f_equal. case_bool_decide as Eu; cbn; [by rewrite Eu|done].
Qed.

(** A device that is saved is loaded again as it was: on a working database, when
    there is no row for its JID yet, [Save] succeeds, and what [GetDevice] then finds
    under the JID is the device itself with its stores set up; the other devices are
    left alone. *)
Theorem Save_GetDevice d j signature account s : sound_device d j signature account -> works s -> rows s !! String_ j = None ->
  exists s' d', Save d s = (s', d', Ok tt) /\ works s' /\
    GetDevice j s' = (s', Ok (Some (initializeDevice d))) /\
    forall k, k <> String_ j -> rows s' !! k = rows s !! k.
Proof.
  intros Hs Hw Hnone. pose proof (scan_row_of _ _ _ _ Hs) as Hscan. destruct Hs as [(Hid & Hj & He) Hlid Hn Hi Hp Ha Hr Hd].
  assert (column j = Some (String_ j)) as Hc by (unfold column; by rewrite (Value_expressible j He)).
  set (t := <[String_ j := row_of d account signature]> (rows s)).
  assert (exec (fun t => k ← column j; upsert_device k (row_of d account signature) t) s = (set_rows t s, Ok tt)) as Hx.
  { apply exec_works; [done|]. rewrite Hc. cbn [mbind option_bind]. unfold upsert_device. by rewrite Hr, Hnone. }
  eexists _, _. split.
  { unfold Save, PutDevice. rewrite Hd, Hid, Ha, Hp. cbn [Signature]. by rewrite Hx. }
  assert (works (set_rows t s)) as Hw' by done. split; [done|]. split.
  - unfold GetDevice. rewrite (stm_bind_ok _ _ _ _ _ (query_works _ _ Hw')). rewrite Hc. cbn [mbind option_bind rows set_rows].
    unfold t. rewrite lookup_insert_eq. cbn [mbind option_bind]. by rewrite (stm_bind_ok _ _ _ _ _ (lift_ok _ _ _ Hscan)).
  - intros k Hk. cbn. unfold t. by rewrite (lookup_insert_ne).
Qed.

(** A row that is there keeps its keys: a device paired anew under a JID that still
    has a row is loaded with the keys of the old one. *)
Lemma saved_over_keeps_keys d j signature account s old : sound_device d j signature account -> works s -> rows s !! String_ j = Some old ->
  exists s' d' r, Save d s = (s', d', Ok tt) /\ rows s' !! String_ j = Some r /\
    noise_key r = noise_key old /\ identity_key r = identity_key old /\ signed_pre_key r = signed_pre_key old /\
    adv_details r = adv_details old /\ registration_id r = registration_id old.
Proof.
  intros [(Hid & Hj & He) Hlid Hn Hi Hp Ha Hr Hd] Hw Hold.
  assert (column j = Some (String_ j)) as Hc by (unfold column; by rewrite (Value_expressible j He)).
  eexists _, _, _. split.
  { unfold Save, PutDevice. rewrite Hd, Hid, Ha, Hp. cbn [Signature]. erewrite exec_works; [done|done|].
    rewrite Hc. cbn [mbind option_bind]. unfold upsert_device. rewrite Hr, Hold. reflexivity. }
  split; [apply (lookup_insert_eq)|done].
Qed.
End saving.

End devicestore.
