(* ===== verification/Pairing.v ===== *)
(** * pair.go, pair-code.go, pair-passkey.go: linking the client to an account

    The answer to the server's pair-device request, the checks of pair-success and
    the state they leave, linking by an eight-letter code and linking by passkey.
    Random values are arguments of the operations that draw them; goroutines that
    a handler starts are taken to have run. Protobuf and JSON are parameters. *)

From S2P Require Import Prelude GoStrings StateErr Jid Node Cbc Crypto Sql Sessions LidMap Requests History DeviceStore.

#[local] Open Scope string_scope.
#[local] Open Scope list_scope.
#[local] Open Scope Z_scope.

Module pairing.

Import jid attrs crypto requests devicestore.

(** ** Messages and events *)

(** waAdv: the container of pair-success, and the details that are signed. *)
Record IdentityContainer := mkContainer { c_hosted : bool; c_Details : option bytes; c_HMAC : option bytes }.
Record IdentityDetails := mkDetails { d_hosted : bool; d_KeyIndex : Z }.

(** waCompanionReg. *)
Record PrimaryEphemeralIdentity := mkPrimary { p_PublicKey : option bytes; p_Nonce : option bytes }.

Inductive pair_error :=
  | ErrPairProto
  | ErrPairInvalidDeviceIdentityHMAC
  | ErrPairInvalidDeviceSignature
  | ErrPairRejectedLocally
  | ErrPairDatabase (e : device_error)
  | ErrPairIdentity
  | ErrSendFailed
  | ErrIQ (e : iq_error)
  | ErrPhoneNumberTooShort
  | ErrPhoneNumberIsNotInternational
  | ErrElementMissing (tag : string)
  | ErrUnexpectedContent
  | ErrNoPending                      (* no pairing is under way *)
  | ErrRefMismatch
  | ErrWrappedLength (n : Z)
  | ErrSharedSecret
  | ErrMarshal
  | ErrUnmarshal
  | ErrKeyLength
  | ErrNoEncryptionKey
  | ErrCipher.

Inductive pair_event :=
  | EvQR (codes : list string)
  | EvPairSuccess (j lid : JID) (business platform : string)
  | EvPairError (j lid : JID) (business platform : string) (e : pair_error)
  | EvPasskeyRequest (key : bytes)
  | EvPasskeyError (e : pair_error) (continuation : bool)
  | EvPasskeyConfirmation (code : string) (skip : bool).

(** ** The client *)

Record phoneLinkingCache := mkPhone { ph_jid : JID; ph_keyPair : KeyPair; ph_linkingCode : string; ph_pairingRef : bytes }.

Record passkeyLinkingCache := mkPasskey {
  pk_keyPair : KeyPair; pk_companionNonce : bytes; pk_pairingRef : bytes; pk_deviceType : Z; pk_encryptionKey : option bytes
}.

(** The HMAC key and the time, in nanoseconds. *)
Record passkeyHandoffKey := mkHandoff { ho_hmac : bytes; ho_ts : Z }.

Record caches := mkCaches {
  phone_cache : option phoneLinkingCache;
  passkey_cache : option passkeyLinkingCache;
  handoff_key : option passkeyHandoffKey;
  skip_handoff : bool
}.

Record client (W : Type) := mkClient {
  Store : Device;
  device_db : sql.db devices_table unit;
  identities : sessions.signal_store;
  lid_map : lidmap.CachedLIDMap;
  paired : bool;
  serverTimeOffset : Z;
  disconnects : list bool;            (* disconnects expected, and true for those made *)
  links : caches;
  dispatched : list pair_event;
  sent : list Node;
  world : W
}.

Arguments mkClient {W}.
Arguments Store {W}.
Arguments device_db {W}.
Arguments identities {W}.
Arguments lid_map {W}.
Arguments paired {W}.
Arguments serverTimeOffset {W}.
Arguments disconnects {W}.
Arguments links {W}.
Arguments dispatched {W}.
Arguments sent {W}.
Arguments world {W}.

(** The platform in the companion's properties, and in its user agent. *)
Inductive platform_type := PtChrome | PtFirefox | PtEdge | PtIE | PtOpera | PtSafari | PtUWP | PtAndroidPhone | PtOther.
Inductive agent_platform := UaWeb | UaMacOS | UaOther.

Definition PairClientUnknown := "0".
Definition PairClientChrome := "1".
Definition PairClientEdge := "2".
Definition PairClientFirefox := "3".
Definition PairClientIE := "4".
Definition PairClientOpera := "5".
Definition PairClientSafari := "6".
Definition PairClientElectron := "7".
Definition PairClientUWP := "8".
Definition PairClientOtherWebClient := "9".
Definition PairClientMacOS := "c".
Definition PairClientAndroid := "e".

Definition AdvAccountSignaturePrefix : bytes := [x06; x00].
Definition AdvDeviceSignaturePrefix : bytes := [x06; x01].
Definition AdvHostedAccountSignaturePrefix : bytes := [x06; x05].
Definition AdvHostedDeviceSignaturePrefix : bytes := [x06; x06].

(** encoding/base32 with the alphabet of pair-code.go: each group of five bytes is
    eight letters. *)
Definition linking_alphabet : string := "123456789ABCDEFGHJKLMNPQRSTVWXYZ".

Definition linking_letter (n : Z) : string := String.substring (Z.to_nat n) 1 linking_alphabet.

Definition letters (n : Z) (k : nat) : string :=
  String.concat "" (map (fun i => linking_letter (Z.land (Z.shiftr n (5 * Z.of_nat i)) 31)) (rev (seq 0 k))).

Definition group (b : bytes) : Z := foldl (fun n c => n * 256 + b2z c) 0 b.

(** A shorter last group is padded with the sign for it. *)
Fixpoint encode_groups (fuel : nat) (b : bytes) : string :=
  match fuel with
  | O => ""
  | Datatypes.S fuel =>
      match b with
      | [] => ""
      | [_] => letters (group b * 4) 2 +:+ "======"
      | [_; _] => letters (group b * 16) 4 +:+ "===="
      | [_; _; _] => letters (group b * 2) 5 +:+ "==="
      | [_; _; _; _] => letters (group b * 8) 7 +:+ "="
      | _ => letters (group (take 5 b)) 8 +:+ encode_groups fuel (drop 5 b)
      end
  end.

Definition EncodeToString (b : bytes) : string := encode_groups (length b) b.

Fixpoint letter_index (c : ascii) (s : string) (i : Z) : option Z :=
  match s with
  | EmptyString => None
  | String d s => if Ascii.eqb d c then Some i else letter_index c s (i + 1)
  end.

Fixpoint word_of (s : string) (n : Z) : option Z :=
  match s with
  | EmptyString => Some n
  | String c s => i ← letter_index c linking_alphabet 0; word_of s (n * 32 + i)
  end.

(** Decoding of one full group, which is all that is decoded. *)
Definition DecodeString (s : string) : option bytes :=
  if (String.length s =? 8)%nat then
    n ← word_of s 0;
    Some (map (fun i => z2b (Z.shiftr n (8 * Z.of_nat i))) (rev (seq 0 5)))
  else None.

Section pairing.
Context {C : Crypto} {W : Type}.

Notation sm A := (stm (client W) pair_error A).

Record services := mkServices {
  send_node : Node -> W -> W * bool;
  send_iq : infoQuery -> W -> W * outcome iq_error Node;
  now : W -> Z;
  unmarshal_container : bytes -> option IdentityContainer;
  unmarshal_identity : bytes -> option ADVSignedDeviceIdentity;
  unmarshal_details : bytes -> option IdentityDetails;
  marshal_identity : ADVSignedDeviceIdentity -> option bytes;
  unmarshal_passkey_options : bytes -> option bytes;               (* JSON *)
  unmarshal_primary : bytes -> option PrimaryEphemeralIdentity;
  marshal_ephemeral : bytes -> Z -> bytes -> option bytes;         (* public key, device type, ref *)
  marshal_prologue : bytes -> bytes -> option bytes;               (* identity, commitment *)
  marshal_request : bytes -> bytes -> bytes -> option bytes;       (* noise key, identity key, adv secret *)
  marshal_encrypted : bytes -> bytes -> option bytes;              (* payload, IV *)
  pbkdf2 : bytes -> bytes -> bytes                                 (* password and salt: 2 << 16 rounds of HMAC-SHA-256, 32 bytes *)
}.

(** [QRClientType], [store.DeviceProps], [store.BaseClientPayload] and
    [PrePairCallback]. *)
Record options := mkOptions {
  QRClientType : string;
  props_platform : platform_type;
  props_number : Z;                          (* the platform type as a number *)
  payload_platform : agent_platform;
  PrePairCallback : option (JID -> string -> string -> bool)
}.

Context (V : services) (O : options).

Definition with_store (d : Device) (s : client W) : client W :=
  mkClient d (device_db s) (identities s) (lid_map s) (paired s) (serverTimeOffset s) (disconnects s) (links s) (dispatched s) (sent s) (world s).
Definition with_device (d : Device) (t : sql.db devices_table unit) (s : client W) : client W :=
  mkClient d t (identities s) (lid_map s) (paired s) (serverTimeOffset s) (disconnects s) (links s) (dispatched s) (sent s) (world s).
Definition with_identities (t : sessions.signal_store) (s : client W) : client W :=
  mkClient (Store s) (device_db s) t (lid_map s) (paired s) (serverTimeOffset s) (disconnects s) (links s) (dispatched s) (sent s) (world s).
Definition with_lids (t : lidmap.CachedLIDMap) (s : client W) : client W :=
  mkClient (Store s) (device_db s) (identities s) t (paired s) (serverTimeOffset s) (disconnects s) (links s) (dispatched s) (sent s) (world s).
Definition with_paired (b : bool) (s : client W) : client W :=
  mkClient (Store s) (device_db s) (identities s) (lid_map s) b (serverTimeOffset s) (disconnects s) (links s) (dispatched s) (sent s) (world s).
Definition with_offset (z : Z) (s : client W) : client W :=
  mkClient (Store s) (device_db s) (identities s) (lid_map s) (paired s) z (disconnects s) (links s) (dispatched s) (sent s) (world s).
Definition with_disconnects (l : list bool) (s : client W) : client W :=
  mkClient (Store s) (device_db s) (identities s) (lid_map s) (paired s) (serverTimeOffset s) l (links s) (dispatched s) (sent s) (world s).
Definition with_links (l : caches) (s : client W) : client W :=
  mkClient (Store s) (device_db s) (identities s) (lid_map s) (paired s) (serverTimeOffset s) (disconnects s) l (dispatched s) (sent s) (world s).
Definition with_dispatched (l : list pair_event) (s : client W) : client W :=
  mkClient (Store s) (device_db s) (identities s) (lid_map s) (paired s) (serverTimeOffset s) (disconnects s) (links s) l (sent s) (world s).
Definition with_sent (l : list Node) (w : W) (s : client W) : client W :=
  mkClient (Store s) (device_db s) (identities s) (lid_map s) (paired s) (serverTimeOffset s) (disconnects s) (links s) (dispatched s) l w.

Definition change (f : client W -> client W) : sm unit := fun s => (f s, Ok tt).
Definition dispatchEvent (e : pair_event) : sm unit := change (fun s => with_dispatched (dispatched s ++ [e]) s).

(** A node: it is on its way also when an error comes back. *)
Definition sendNode (n : Node) : sm unit := fun s =>
  let '(w, ok) := send_node V n (world s) in
  (with_sent (sent s ++ [n]) w s, if ok then Ok tt else Err ErrSendFailed).

Definition query (q : infoQuery) : sm Node := fun s =>
  let '(w, o) := send_iq V q (world s) in (with_sent (sent s) w s, map_err ErrIQ o).

Definition logged {A} (m : sm A) : sm unit := fun s =>
  match m s with
  | (s, Panic) => (s, Panic)
  | (s, NoFuel) => (s, NoFuel)
  | (s, _) => (s, Ok tt)
  end.

(** ** pair.go *)

Definition getQRClientType : string :=
  if negb (String.eqb (QRClientType O) "") then QRClientType O
  else
    match props_platform O with
    | PtChrome => PairClientChrome
    | PtFirefox => PairClientFirefox
    | PtEdge => PairClientEdge
    | PtIE => PairClientIE
    | PtOpera => PairClientOpera
    | PtSafari => PairClientSafari
    | PtUWP => PairClientUWP
    | PtAndroidPhone => PairClientAndroid
    | PtOther =>
        match payload_platform O with
        | UaWeb => PairClientOtherWebClient
        | UaMacOS => PairClientMacOS
        | UaOther => PairClientUnknown
        end
    end.

Definition makeQRData (d : Device) (ref : bytes) (clientType : string) : string :=
  "https://wa.me/settings/linked_devices#" +:+ bytes_str ref +:+ "," +:+ StdEncoding (Pub (NoiseKey d)) +:+ ","
    +:+ StdEncoding (Pub (IdentityKey d)) +:+ "," +:+ StdEncoding (AdvSecretKey d) +:+ "," +:+ clientType.

Definition attr (key : string) (n : Node) : any := default ANil (attr_get key (node_attrs n)).

Definition qr_refs (children : list Node) : list bytes :=
  omap (fun child =>
    if negb (String.eqb (node_tag child) "ref") then None
    else match node_content child with ABytes content => Some content | _ => None end) children.

Definition handlePairDevice (node : Node) : sm unit :=
  change (with_paired false);;
  logged (sendNode (mkNode "iq" [("to", attr "from" node); ("id", attr "id" node); ("type", AString "result")] ANil));;
  s ← get_state;
  dispatchEvent (EvQR (map (fun ref => makeQRData (Store s) ref getQRClientType) (qr_refs (GetChildren (GetChildByTag node ["pair-device"]))))).

Definition sendPairError (id : string) (code : Z) (text : string) : sm unit :=
  logged (sendNode (mkNode "iq" [("to", AJID ServerJID); ("type", AString "error"); ("id", AString id)]
    (ANodes [mkNode "error" [("code", AInt code); ("text", AString text)] ANil]))).

(** An error that is sent to the server and returned. *)
Definition refuse {A} (id : string) (code : Z) (text : string) (e : pair_error) : sm A := sendPairError id code text;; throw e.

Definition concatBytes (data : list bytes) : bytes := concat data.

Definition signed_message (prefix : bytes) (adv : ADVSignedDeviceIdentity) (ikp : KeyPair) : bytes :=
  concatBytes [prefix; default [] (Details adv); Pub ikp].

Definition verifyAccountSignature (adv : ADVSignedDeviceIdentity) (ikp : KeyPair) (isHosted : bool) : bool :=
  let key := default [] (AccountSignatureKey adv) in
  let signature := default [] (AccountSignature adv) in
  if negb (blen key =? 32) || negb (blen signature =? 64) then false
  else
    verify_signature key (signed_message (if isHosted then AdvHostedAccountSignaturePrefix else AdvAccountSignaturePrefix) adv ikp) signature.

Definition generateDeviceSignature (adv : ADVSignedDeviceIdentity) (ikp : KeyPair) : bytes :=
  calculate_signature (Priv ikp)
    (concatBytes [AdvDeviceSignaturePrefix; default [] (Details adv); Pub ikp; default [] (AccountSignatureKey adv)]).

(** The device store's operations on the client's device. *)
Definition save_device : sm unit := fun s =>
  let '(t, d, o) := Save (Store s) (device_db s) in (with_device d t s, map_err ErrPairDatabase o).
(** The rows of a deleted device's other tables go with its own. *)
Definition delete_device : sm unit := fun s =>
  let '(t, d, o) := Delete (Store s) (device_db s) in
  let ids := if Deleted (Store s) || negb (Deleted d) then identities s else sql.set_rows (sessions.mkTables ∅ ∅ ∅) (identities s) in
  (with_identities ids (with_device d t s), map_err ErrPairDatabase o).

Definition StoreLIDPNMapping (first second : JID) : sm unit := fun s =>
  match incoming.StoreLIDPNMapping first second with
  | Some (lid, pn) => let '(t, _) := lidmap.PutLIDMapping lid pn (lid_map s) in (with_lids t s, Ok tt)
  | None => (s, Ok tt)
  end.

(** Through the field [Identities]: nil, the table, or a store that fails. *)
Definition put_identity (address : string) (key : bytes) : sm unit := fun s =>
  match stores (Store s) with
  | NoStores => (s, Panic)
  | SQLStores _ => let '(t, o) := sessions.PutIdentity address key (identities s) in (with_identities t s, map_err (fun _ => ErrPairIdentity) o)
  | NoopStores => (s, Err ErrPairIdentity)
  end.

Definition AddressText (j : JID) : string := SignalAddressUser j +:+ ":" +:+ itoa (snd (SignalAddress j)).

Definition with_DeviceSignature (sig : bytes) (a : ADVSignedDeviceIdentity) : ADVSignedDeviceIdentity :=
  mkAdv (Details a) (AccountSignatureKey a) (AccountSignature a) (Some sig).
Definition without_key (a : ADVSignedDeviceIdentity) : ADVSignedDeviceIdentity :=
  mkAdv (Details a) None (AccountSignature a) (DeviceSignature a).

(** What pair-success must carry, up to the device's own signature. *)
Definition check_identity (deviceIdentityBytes : bytes) (reqID : string) : sm (ADVSignedDeviceIdentity * IdentityDetails) :=
  match unmarshal_container V deviceIdentityBytes with
  | None => refuse reqID 500 "internal-error" ErrPairProto
  | Some container =>
      s ← get_state;
      let details := default [] (c_Details container) in
      let sum := hmac_sha256 (AdvSecretKey (Store s)) ((if c_hosted container then AdvHostedAccountSignaturePrefix else []) ++ details) in
      if negb (bool_decide (sum = default [] (c_HMAC container))) then refuse reqID 401 "hmac-mismatch" ErrPairInvalidDeviceIdentityHMAC
      else
        match unmarshal_identity V details with
        | None => refuse reqID 500 "internal-error" ErrPairProto
        | Some deviceIdentity =>
            match unmarshal_details V (default [] (Details deviceIdentity)) with
            | None => refuse reqID 500 "internal-error" ErrPairProto
            | Some d =>
                if negb (verifyAccountSignature deviceIdentity (IdentityKey (Store s)) (d_hosted d)) then
                  refuse reqID 401 "signature-mismatch" ErrPairInvalidDeviceSignature
                else mret (with_DeviceSignature (generateDeviceSignature deviceIdentity (IdentityKey (Store s))) deviceIdentity, d)
            end
        end
  end.

(** The answer that confirms the pairing. *)
Definition confirmation (reqID : string) (keyIndex : Z) (identity : bytes) : Node :=
  mkNode "iq" [("to", AJID ServerJID); ("type", AString "result"); ("id", AString reqID)]
    (ANodes [mkNode "pair-device-sign" []
      (ANodes [mkNode "device-identity" [("key-index", AUint32 keyIndex)] (ABytes identity)])]).

(** An error after which the device is deleted. *)
Definition or_delete {A} (m : sm A) (after : sm unit) : sm A := fun s =>
  match m s with
  | (s, Err e) => (logged delete_device;; after;; throw e) s
  | x => x
  end.

Definition or_refuse {A} (reqID : string) (m : sm A) : sm A := fun s =>
  match m s with
  | (s, Err e) => refuse reqID 500 "internal-error" e s
  | x => x
  end.

Definition handlePair (deviceIdentityBytes : bytes) (reqID businessName platform : string) (jid lid : JID) : sm unit :=
  '(deviceIdentity, details) ← check_identity deviceIdentityBytes reqID;
  if match PrePairCallback O with Some f => negb (f jid platform businessName) | None => false end then
    refuse reqID 500 "internal-error" ErrPairRejectedLocally
  else
    change (fun s => with_store (set_Account deviceIdentity (Store s)) s);;
    mainDeviceIdentity ← (match AccountSignatureKey deviceIdentity with Some k => if blen k <? 32 then panic else mret (ztake 32 k) | None => panic end);
    match marshal_identity V (without_key deviceIdentity) with
    | None => refuse reqID 500 "internal-error" ErrPairProto
    | Some selfSigned =>
        change (fun s => with_store (set_pairing jid lid businessName platform (Store s)) s);;
        or_refuse reqID save_device;;
        StoreLIDPNMapping lid jid;;
        or_delete (put_identity (AddressText (mkJID (User lid) (RawAgent lid) 0 (Integrator lid) (Server lid))) mainDeviceIdentity)
          (sendPairError reqID 500 "internal-error");;
        change (fun s => with_disconnects (disconnects s ++ [false]) s);;
        change (with_paired true);;
        or_delete (sendNode (confirmation reqID (d_KeyIndex details) selfSigned)) (mret tt)
    end.

(** [t.Sub(now.Round(time.Second))], within the range of a duration. *)
Definition time_offset (t : gotime) (now : Z) : Z :=
  match t with
  | ZeroTime => - 2 ^ 63
  | UnixNano ns => Z.max (- 2 ^ 63) (Z.min (2 ^ 63 - 1) (ns - (now + 5 * 10 ^ 8) / 10 ^ 9 * 10 ^ 9))
  end.

Definition string_attr (key : string) (n : Node) : string := match attr key n with AString s => s | _ => "" end.
Definition jid_attr (key : string) (n : Node) : JID := match attr key n with AJID j => j | _ => EmptyJID end.

Definition handlePairSuccess (node : Node) : sm unit :=
  change (fun s => with_offset (time_offset (fst (UnixTime "t" (AttrGetter node))) (now V (world s))) s);;
  match attr "id" node with
  | AString id =>
      let pairSuccess := GetChildByTag node ["pair-success"] in
      let deviceIdentityBytes := match node_content (GetChildByTag pairSuccess ["device-identity"]) with ABytes b => b | _ => [] end in
      let businessName := string_attr "name" (GetChildByTag pairSuccess ["biz"]) in
      let device := GetChildByTag pairSuccess ["device"] in
      let jid := jid_attr "jid" device in
      let lid := jid_attr "lid" device in
      let platform := string_attr "name" (GetChildByTag pairSuccess ["platform"]) in
      fun s =>
        match handlePair deviceIdentityBytes id businessName platform jid lid s with
        | (s, Ok _) => dispatchEvent (EvPairSuccess jid lid businessName platform) s
        | (s, Err e) =>
            (change (fun s => with_disconnects (disconnects s ++ [true]) s);;
             dispatchEvent (EvPairError jid lid businessName platform e)) s
        | x => x
        end
  | _ => panic
  end.

Definition handleIQ (node : Node) : sm unit :=
  match GetChildren node with
  | [child] =>
      if negb (match attr "from" node with AJID j => bool_decide (j = ServerJID) | _ => false end) then mret tt
      else if String.eqb (node_tag child) "pair-device" then handlePairDevice node
      else if String.eqb (node_tag child) "pair-success" then handlePairSuccess node
      else mret tt
  | _ => mret tt
  end.

(** ** Ciphers *)

(** crypto/cipher's CTR mode: the blocks of the counter that starts at the IV. *)
Definition counter (iv : bytes) (i : nat) : bytes :=
  let n := group iv + Z.of_nat i in map (fun j => z2b (Z.shiftr n (8 * Z.of_nat j))) (rev (seq 0 16)).

Definition ctr_stream (key iv : bytes) (n : nat) : bytes :=
  take n (concat (map (fun i => aes_block_enc key (counter iv i)) (seq 0 (n / 16 + 1)))).

(** [aes.NewCipher] with its error, [cipher.NewCTR] with its panic, [XORKeyStream]. *)
Definition ctr (key iv src : bytes) : outcome pair_error bytes :=
  match cbcutil.NewCipher key with
  | Ok _ => if negb (blen iv =? 16) then Panic else Ok (cbcutil.xor_bytes src (ctr_stream key iv (length src)))
  | _ => Err ErrCipher
  end.

Definition hkdf (key salt : bytes) (info : string) : outcome pair_error bytes :=
  match SHA256 key salt (str_bytes info) 32 with Ok b => Ok b | _ => Panic end.

Definition X25519 (priv pub : bytes) : sm bytes := match x25519 priv pub with Some k => mret k | None => throw ErrSharedSecret end.

Definition fit (n : nat) (b : bytes) : bytes := take n (b ++ replicate n x00).

(** ** pair-code.go *)

(** A key pair's seed, a salt, an IV and what would be the code if the fixed one did
    not decode. *)
Record code_randomness := mkCodeRandom { cr_seed : bytes; cr_salt : bytes; cr_iv : bytes; cr_code : bytes }.

Definition customString : string := "22222222".

(** The public key is encrypted in place, in the key pair. *)
Definition generateCompanionEphemeralKey (rnd : code_randomness) : outcome pair_error (KeyPair * bytes * string) :=
  let ephemeralKeyPair := NewKeyPair (cr_seed rnd) in
  let linkingCode := match DecodeString customString with Some code => code | None => cr_code rnd end in
  let encodedLinkingCode := EncodeToString linkingCode in
  let linkCodeKey := pbkdf2 V (str_bytes encodedLinkingCode) (cr_salt rnd) in
  match ctr linkCodeKey (cr_iv rnd) (Pub ephemeralKeyPair) with
  | Ok encryptedPubkey =>
      Ok (mkKP encryptedPubkey (Priv ephemeralKeyPair),
          fit 32 (cr_salt rnd) ++ fit 16 (cr_iv rnd) ++ fit 32 encryptedPubkey, encodedLinkingCode)
  | _ => Panic
  end.

Definition is_digit (c : ascii) : bool := (48 <=? Z.of_N (N_of_ascii c)) && (Z.of_N (N_of_ascii c) <=? 57).

(** [notNumbers.ReplaceAllString(phone, "")]. *)
Fixpoint only_digits (s : string) : string :=
  match s with
  | EmptyString => EmptyString
  | String c s => if is_digit c then String c (only_digits s) else only_digits s
  end.

(** Four letters, a hyphen and the rest; slicing a shorter code panics. *)
Definition shown_code (code : string) : outcome pair_error string :=
  if (String.length code <? 4)%nat then Panic
  else Ok (String.substring 0 4 code +:+ "-" +:+ String.substring 4 (String.length code - 4) code).

Definition md_query (type : string) (content : list Node) : infoQuery := mkQuery "md" type ServerJID EmptyJID "" "" (ANodes content) false.

Definition companion_hello (jid : JID) (show : bool) (ephemeralKey : bytes) (d : Device) (clientType display : string) : infoQuery :=
  md_query "set"
    [mkNode "link_code_companion_reg"
       [("jid", AJID jid); ("stage", AString "companion_hello"); ("should_show_push_notification", AString (if show then "true" else "false"))]
       (ANodes [mkNode "link_code_pairing_wrapped_companion_ephemeral_pub" [] (ABytes ephemeralKey);
                mkNode "companion_server_auth_key_pub" [] (ABytes (Pub (NoiseKey d)));
                mkNode "companion_platform_id" [] (AString clientType);
                mkNode "companion_platform_display" [] (AString display);
                mkNode "link_code_pairing_nonce" [] (ABytes [x00])])].

Definition set_phone_cache (x : phoneLinkingCache) (s : client W) : client W :=
  with_links (mkCaches (Some x) (passkey_cache (links s)) (handoff_key (links s)) (skip_handoff (links s))) s.

Definition PairPhone (phone : string) (showPushNotification : bool) (clientType clientDisplayName : string) (rnd : code_randomness) : sm string :=
  '(ephemeralKeyPair, ephemeralKey, encodedLinkingCode) ← lift (generateCompanionEphemeralKey rnd);
  let phone := only_digits phone in
  if (String.length phone <=? 6)%nat then throw ErrPhoneNumberTooShort
  else if has_prefix "0" phone then throw ErrPhoneNumberIsNotInternational
  else
    let jid := NewJID phone DefaultUserServer in
    s ← get_state;
    resp ← query (companion_hello jid showPushNotification ephemeralKey (Store s) clientType clientDisplayName);
    let '(pairingRefNode, ok) := GetOptionalChildByTag resp ["link_code_companion_reg"; "link_code_pairing_ref"] in
    if negb ok then throw (ErrElementMissing "link_code_pairing_ref")
    else
      match node_content pairingRefNode with
      | ABytes pairingRef =>
          change (set_phone_cache (mkPhone jid ephemeralKeyPair encodedLinkingCode pairingRef));;
          lift (shown_code encodedLinkingCode)
      | _ => throw ErrUnexpectedContent
      end.

(** The random part of the secret, the salt and the nonce of the bundle. *)
Record bundle_randomness := mkBundleRandom { br_secret : bytes; br_salt : bytes; br_nonce : bytes }.

Definition content_bytes (n : Node) : option bytes := match node_content n with ABytes b => Some b | _ => None end.

(** The bundle for the primary device, and the new secret. *)
Definition make_bundle (cache : phoneLinkingCache) (d : Device) (wrapped primaryIdentityPub : bytes) (rnd : bundle_randomness) : sm (bytes * bytes) :=
  let linkCodeKey := pbkdf2 V (str_bytes (ph_linkingCode cache)) (ztake 32 wrapped) in
  primaryDecryptedPubkey ← lift (ctr linkCodeKey (ztake 16 (zdrop 32 wrapped)) (ztake 32 (zdrop 48 wrapped)));
  ephemeralSharedSecret ← X25519 (Priv (ph_keyPair cache)) primaryDecryptedPubkey;
  keyBundleEncryptionKey ← lift (hkdf ephemeralSharedSecret (br_salt rnd) "link_code_pairing_key_bundle_encryption_key");
  let plaintextKeyBundle := concatBytes [Pub (IdentityKey d); primaryIdentityPub; br_secret rnd] in
  encryptedKeyBundle ← lift (map_err (fun _ => ErrCipher) (crypto.Encrypt keyBundleEncryptionKey (br_nonce rnd) plaintextKeyBundle []));
  let wrappedKeyBundle := concatBytes [br_salt rnd; br_nonce rnd; encryptedKeyBundle] in
  identitySharedKey ← X25519 (Priv (IdentityKey d)) primaryIdentityPub;
  advSecret ← lift (hkdf (ephemeralSharedSecret ++ identitySharedKey ++ br_secret rnd) [] "adv_secret");
  mret (wrappedKeyBundle, advSecret).

Definition companion_finish (jid : JID) (bundle : bytes) (d : Device) (ref : bytes) : infoQuery :=
  md_query "set"
    [mkNode "link_code_companion_reg" [("jid", AJID jid); ("stage", AString "companion_finish")]
       (ANodes [mkNode "link_code_pairing_wrapped_key_bundle" [] (ABytes bundle);
                mkNode "companion_identity_public" [] (ABytes (Pub (IdentityKey d)));
                mkNode "link_code_pairing_ref" [] (ABytes ref)])].

Definition handleCodePairNotification (parentNode : Node) (rnd : bundle_randomness) : sm unit :=
  let '(node, ok) := GetOptionalChildByTag parentNode ["link_code_companion_reg"] in
  if negb ok then throw (ErrElementMissing "link_code_companion_reg")
  else
    s ← get_state;
    match phone_cache (links s) with
    | None => throw ErrNoPending
    | Some linkCache =>
        change (with_paired false);;
        let linkCodePairingRef := default [] (content_bytes (GetChildByTag node ["link_code_pairing_ref"])) in
        if negb (bool_decide (linkCodePairingRef = ph_pairingRef linkCache)) then throw ErrRefMismatch
        else
          match content_bytes (GetChildByTag node ["link_code_pairing_wrapped_primary_ephemeral_pub"]) with
          | None => throw (ErrElementMissing "link_code_pairing_wrapped_primary_ephemeral_pub")
          | Some wrapped =>
              if blen wrapped <? 80 then throw (ErrWrappedLength (blen wrapped))
              else
                match content_bytes (GetChildByTag node ["primary_identity_pub"]) with
                | None => throw (ErrElementMissing "primary_identity_pub")
                | Some primaryIdentityPub =>
                    '(wrappedKeyBundle, advSecret) ← make_bundle linkCache (Store s) wrapped primaryIdentityPub rnd;
                    change (fun s => with_store (set_AdvSecretKey advSecret (Store s)) s);;
                    query (companion_finish (ph_jid linkCache) wrappedKeyBundle (Store s) linkCodePairingRef);;
                    mret tt
                end
          end
    end.

Definition tryHandleCodePairNotification (parentNode : Node) (rnd : bundle_randomness) : sm unit := logged (handleCodePairNotification parentNode rnd).

(** ** pair-passkey.go *)

Definition Valid (k : option passkeyHandoffKey) (now : Z) : bool :=
  match k with Some k => now - ho_ts k <? 5 * 60 * 10 ^ 9 | None => false end.

Definition set_passkey_cache (x : option passkeyLinkingCache) (s : client W) : client W :=
  with_links (mkCaches (phone_cache (links s)) x (handoff_key (links s)) (skip_handoff (links s))) s.
Definition set_handoff (x : option passkeyHandoffKey) (s : client W) : client W :=
  with_links (mkCaches (phone_cache (links s)) (passkey_cache (links s)) x (skip_handoff (links s))) s.
Definition set_skip (b : bool) (s : client W) : client W :=
  with_links (mkCaches (phone_cache (links s)) (passkey_cache (links s)) (handoff_key (links s)) b) s.

Definition parsePasskeyNotification (node : Node) : outcome pair_error bytes :=
  let '(opts, ok) := GetOptionalChildByTag node ["passkey_request_options"] in
  if negb ok then Err (ErrElementMissing "passkey_request_options")
  else
    match content_bytes opts with
    | None => Err ErrUnexpectedContent
    | Some content => match unmarshal_passkey_options V content with Some k => Ok k | None => Err ErrUnmarshal end
    end.

Definition getPasskeyRequestOptions : sm bytes :=
  resp ← query (md_query "get" [mkNode "passkey_request_options" [] ANil]);
  lift (parsePasskeyNotification resp).

Definition getCompanionRef : sm bytes :=
  resp ← query (md_query "get" [mkNode "ref" [] ANil]);
  let '(ref, ok) := GetOptionalChildByTag resp ["ref"] in
  if negb ok then throw (ErrElementMissing "ref")
  else match content_bytes ref with Some b => mret b | None => throw ErrUnexpectedContent end.

Definition from_server (node : Node) : bool := bool_decide (fst (JID_ "from" (AttrGetter node)) = ServerJID).

(** The secret so far becomes the key of the handoff proof; a new one replaces it. *)
Definition take_passkey (advSecret pubKey : bytes) : sm unit :=
  s ← get_state;
  hmac ← lift (hkdf (AdvSecretKey (Store s)) [] "shortcake-passkey-handoff-v1");
  change (set_handoff (Some (mkHandoff hmac (now V (world s)))));;
  change (fun s => with_store (set_AdvSecretKey advSecret (Store s)) s);;
  dispatchEvent (EvPasskeyRequest pubKey).

Definition handlePasskeyNotification (node : Node) (advSecret : bytes) : sm unit :=
  if negb (from_server node) then mret tt
  else
    match parsePasskeyNotification node with
    | Ok pubKey => take_passkey advSecret pubKey
    | Err _ => fun s =>
        match getPasskeyRequestOptions s with
        | (s, Ok pubKey) => take_passkey advSecret pubKey s
        | (s, Err e) => dispatchEvent (EvPasskeyError e false) s
        | (s, Panic) => (s, Panic)
        | (s, NoFuel) => (s, NoFuel)
        end
    | Panic => panic
    | NoFuel => fun s => (s, NoFuel)
    end.

(** The response of the authenticator: its id, and its JSON form. *)
Record WebAuthnResponse := mkWebAuthn { RawID : bytes; marshalled : option bytes }.

Definition or_throw {A} (e : pair_error) (o : option A) : sm A := match o with Some a => mret a | None => throw e end.

Definition prologue_query (resp : WebAuthnResponse) (assertion prologue : bytes) (proof : option bytes) : infoQuery :=
  md_query "set"
    [mkNode "passkey_prologue" []
       (ANodes ([mkNode "credential_id" [] (ABytes (RawID resp)); mkNode "webauthn_assertion" [] (ABytes assertion);
                 mkNode "prologue_payload" [] (ABytes prologue)]
                ++ match proof with Some p => [mkNode "pairing_handoff_proof" [] (ABytes p)] | None => [] end))].

Definition SendPasskeyResponse (passkeyResp : WebAuthnResponse) (seed companionNonce : bytes) : sm unit :=
  marshaledResp ← or_throw ErrMarshal (marshalled passkeyResp);
  companionRef ← getCompanionRef;
  let keyPair := NewKeyPair seed in
  let deviceType := props_number O in
  ident ← or_throw ErrMarshal (marshal_ephemeral V (Pub keyPair) deviceType companionRef);
  let commitment := sha256 (ident ++ companionNonce) in
  prologuePayload ← or_throw ErrMarshal (marshal_prologue V ident commitment);
  change (set_passkey_cache (Some (mkPasskey keyPair companionNonce companionRef deviceType None)));;
  s ← get_state;
  let handoff := if Valid (handoff_key (links s)) (now V (world s)) then handoff_key (links s) else None in
  change (set_skip (bool_decide (is_Some handoff)));;
  query (prologue_query passkeyResp marshaledResp prologuePayload ((fun k => hmac_sha256 (ho_hmac k) prologuePayload) <$> handoff));;
  change (set_handoff None).

Definition parsePasskeyContinuationNotification (node : Node) : outcome pair_error (bytes * bytes) :=
  let '(opts, ok) := GetOptionalChildByTag node ["primary_ephemeral_identity"] in
  if negb ok then Err (ErrElementMissing "primary_ephemeral_identity")
  else
    match content_bytes opts with
    | None => Err ErrUnexpectedContent
    | Some content =>
        match unmarshal_primary V content with
        | None => Err ErrUnmarshal
        | Some buf =>
            let key := default [] (p_PublicKey buf) in
            let nonce := default [] (p_Nonce buf) in
            if negb (blen key =? 32) || negb (blen nonce =? 32) then Err ErrKeyLength else Ok (key, nonce)
        end
    end.

Definition pairing_salt (cache : passkeyLinkingCache) : bytes :=
  str_bytes ("Companion Pairing " +:+ itoa (pk_deviceType cache) +:+ " with ref ") ++ pk_pairingRef cache.

(** The code both sides show: the nonce under the digest of what was exchanged. *)
Definition confirmation_code (companionNonce primaryKey nonce : bytes) : bytes :=
  cbcutil.xor_bytes (take 5 nonce) (take 5 (sha256 (companionNonce ++ primaryKey))).

Definition with_key (k : bytes) (c : passkeyLinkingCache) : passkeyLinkingCache :=
  mkPasskey (pk_keyPair c) (pk_companionNonce c) (pk_pairingRef c) (pk_deviceType c) (Some k).

Definition handlePasskeyContinuationNotification (node : Node) : sm unit :=
  s ← get_state;
  match passkey_cache (links s) with
  | None => throw ErrNoPending
  | Some cache =>
      '(primaryKey, primaryNonce) ← lift (parsePasskeyContinuationNotification node);
      sharedSecret ← X25519 (Priv (pk_keyPair cache)) primaryKey;
      query (md_query "set" [mkNode "companion_nonce" [] (ABytes (pk_companionNonce cache))]);;
      encryptionKey ← lift (match SHA256 sharedSecret (pairing_salt cache) (str_bytes "Pairing Information Encryption Key") 32 with Ok b => Ok b | _ => Panic end);
      change (set_passkey_cache (Some (with_key encryptionKey cache)));;
      code ← lift (shown_code (EncodeToString (confirmation_code (pk_companionNonce cache) primaryKey primaryNonce)));
      s ← get_state;
      dispatchEvent (EvPasskeyConfirmation code (skip_handoff (links s)))
  end.

Definition tryHandlePasskeyContinuationNotification (node : Node) : sm unit :=
  if negb (from_server node) then mret tt
  else fun s =>
    match handlePasskeyContinuationNotification node s with
    | (s, Err e) => dispatchEvent (EvPasskeyError e true) s
    | x => x
    end.

Definition SendPasskeyConfirmation (iv : bytes) : sm unit :=
  s ← get_state;
  match passkey_cache (links s) with
  | None => throw ErrNoPending
  | Some cache =>
      match pk_encryptionKey cache with
      | None => throw ErrNoEncryptionKey
      | Some encryptionKey =>
          req ← or_throw ErrMarshal (marshal_request V (Pub (NoiseKey (Store s))) (Pub (IdentityKey (Store s))) (AdvSecretKey (Store s)));
          encryptedReq ← lift (map_err (fun _ => ErrCipher) (crypto.Encrypt encryptionKey iv req []));
          wrappedReq ← or_throw ErrMarshal (marshal_encrypted V encryptedReq iv);
          query (md_query "set" [mkNode "encrypted_pairing_request" [] (ABytes wrappedReq)]);;
          change (set_passkey_cache None)
      end
  end.

End pairing.
End pairing.
