(* ===== verification/PairingProofs.v ===== *)
(** * Linking: what the checks establish

    A pairing that succeeds was certified by the account and leaves the device
    saved; one that fails leaves it unpaired but for one case; the code and
    passkey forms agree on their secrets with a primary device that knows the
    other halves of the keys. *)

From S2P Require Import Prelude GoStrings StateErr Jid Node Cbc Crypto Sql Sessions LidMap Requests History DeviceStore Pairing.

#[local] Open Scope string_scope.
#[local] Open Scope list_scope.
#[local] Open Scope Z_scope.

Module pairing_proofs.

Import jid attrs crypto requests devicestore pairing.

Section success.
Context {C : Crypto} {W : Type} (V : services (W := W)) (O : options).

#[local] Notation client := (client W).
#[local] Notation sm A := (stm client pair_error A).

Lemma refuse_err {A} id code text e (s s' : client) (o : outcome pair_error A) :
  refuse V id code text e s = (s', o) -> o = Err e /\ Store s' = Store s /\ paired s' = paired s.
Proof.
  unfold refuse, sendPairError, logged, sendNode, mbind, stm_bind. destruct (send_node V _ _) as [w []]; by intros [= <- <-].
Qed.

Lemma refuse_not_ok {A} id code text e (s s' : client) (a : A) : refuse V id code text e s <> (s', Ok a).
Proof. by intros (H & _)%refuse_err. Qed.

Lemma or_refuse_ok {A} id (m : sm A) s s' a : or_refuse V id m s = (s', Ok a) -> m s = (s', Ok a).
Proof. unfold or_refuse. destruct (m s) as [s1 [b|e| |]]; try done. by intros H%refuse_not_ok. Qed.

Lemma or_delete_ok {A} (m : sm A) after s s' a : or_delete m after s = (s', Ok a) -> m s = (s', Ok a).
Proof.
  unfold or_delete. destruct (m s) as [s1 [b|e| |]]; try done. intros H. stm_inv H. by stm_inv H.
Qed.

(** The account key has signed the details together with a device's public key. *)
Definition account_signed (raw : ADVSignedDeviceIdentity) (pub : bytes) (hosted : bool) : Prop :=
  exists key signature, AccountSignatureKey raw = Some key /\ AccountSignature raw = Some signature /\ blen key = 32 /\ blen signature = 64 /\
    verify_signature key ([x06; if hosted then x05 else x00] ++ default [] (Details raw) ++ pub) signature = true.

Lemma verifyAccountSignature_signed raw ikp hosted : verifyAccountSignature raw ikp hosted = true -> account_signed raw (Pub ikp) hosted.
Proof.
  unfold verifyAccountSignature, account_signed. destruct (_ || _) eqn:E; [done|]. apply orb_false_iff in E as [E1 E2].
  apply negb_false_iff, Z.eqb_eq in E1, E2. destruct (AccountSignatureKey raw) as [key|]; [|done].
  destruct (AccountSignature raw) as [signature|]; [|done]. intros H. exists key, signature. split_and!; try done.
  unfold signed_message, concatBytes in H. cbn [concat] in H. rewrite app_nil_r in H. by destruct hosted.
Qed.

(** The identity is the account's: the container under the secret of the QR code
    or the linking, its content signed by the account key for this device's
    identity key; the device has signed it in turn. *)
Definition certified (d : Device) (b : bytes) (identity : ADVSignedDeviceIdentity) (details : IdentityDetails) : Prop :=
  exists container raw, unmarshal_container V b = Some container /\
    hmac_sha256 (AdvSecretKey d) ((if c_hosted container then AdvHostedAccountSignaturePrefix else []) ++ default [] (c_Details container))
      = default [] (c_HMAC container) /\
    unmarshal_identity V (default [] (c_Details container)) = Some raw /\
    unmarshal_details V (default [] (Details raw)) = Some details /\
    account_signed raw (Pub (IdentityKey d)) (d_hosted details) /\
    identity = with_DeviceSignature (generateDeviceSignature raw (IdentityKey d)) raw.

(** Errors of the checks. *)
Definition checking (e : pair_error) : Prop := match e with ErrPairDatabase _ | ErrPairIdentity | ErrSendFailed => False | _ => True end.

Lemma check_identity_spec b id s s' o : check_identity V b id s = (s', o) ->
  match o with
  | Ok (identity, details) => s' = s /\ certified (Store s) b identity details
  | Err e => Store s' = Store s /\ paired s' = paired s /\ checking e
  | _ => False
  end.
Proof.
  unfold check_identity. destruct (unmarshal_container V b) as [container|] eqn:E1; [|by intros (-> & -> & ->)%refuse_err].
  unfold mbind, stm_bind, get_state. destruct (bool_decide _) eqn:E2; cbn [negb]; [|by intros (-> & -> & ->)%refuse_err].
  destruct (unmarshal_identity V _) as [raw|] eqn:E3; [|by intros (-> & -> & ->)%refuse_err].
  destruct (unmarshal_details V _) as [d|] eqn:E4; [|by intros (-> & -> & ->)%refuse_err].
  destruct (verifyAccountSignature _ _ _) eqn:E5; cbn [negb]; [|by intros (-> & -> & ->)%refuse_err].
  intros [= <- <-]. split; [done|]. exists container, raw. apply verifyAccountSignature_signed in E5. by apply bool_decide_eq_true_1 in E2.
Qed.

Lemma certified_key d b identity details : certified d b identity details -> exists k, AccountSignatureKey identity = Some k /\ blen k = 32.
Proof.
  intros (c & raw & _ & _ & _ & _ & (k & sig & Hk & _ & Hlen & _) & ->). by exists k.
Qed.

Lemma PutDevice_ok d (t t' : sql.db devices_table unit) d' : Save d t = (t', d', Ok tt) ->
  exists j k, ID d = Some j /\ column j = Some k /\ is_Some (sql.rows t' !! k) /\ Deleted d = false /\
    (d' = d /\ Initialized d = true \/ d' = set_stores true (SQLStores j) d).
Proof.
  unfold Save, PutDevice. destruct (Deleted d); [done|]. destruct (ID d) as [j|] eqn:Ej; [|done].
  destruct (Account d) as [a|]; [|done]. destruct (Signature (SignedPreKey d)) as [sig|]; [|done].
  destruct (sql.exec _ t) as [t1 o] eqn:E. intros [= <- <- Ho]. destruct o as [[]| | |]; try done.
  unfold sql.exec in E. stm_inv E. stm_inv E. injection E1 as <- <-.
  destruct (column j) as [k|] eqn:Ek; [|done]. cbn [mbind option_bind] in E.
  destruct (upsert_device k _ _) as [rows'|] eqn:Eu; [|done]. injection E as <-.
  exists j, k. split_and!; try done.
  - cbn. unfold upsert_device in Eu. destruct (negb _); [done|]. injection Eu as <-. rewrite lookup_insert_eq. eauto.
  - destruct (Initialized d) eqn:Ei; [by left|right]. unfold initializeDevice. by rewrite Ej.
Qed.

Lemma put_identity_ok addr key (s s' : client) : put_identity addr key s = (s', Ok tt) ->
  exists t, s' = with_identities t s /\ sessions.identity_keys (sql.rows t) !! addr = Some key.
Proof.
  unfold put_identity. destruct (stores (Store s)); try done. destruct (sessions.PutIdentity _ _ _) as [t o] eqn:E.
  intros [= <- Ho]. exists t. split; [done|]. destruct o as [[]| | |]; try done.
  unfold sessions.PutIdentity, sessions.update, sql.exec in E. stm_inv E. stm_inv E. injection E1 as <- <-. injection E as <-.
  cbn. apply lookup_insert_eq.
Qed.

(** (C32) A pairing succeeds only when the account vouches for it: the container of
    pair-success has the right HMAC under the device's secret, the account key has
    signed the details together with this device's identity key, and no callback
    refused. Then the device holds the identity with its own signature, its JID and
    LID, is saved in the table of devices (where a row it had keeps its keys), the account key is stored as the identity
    of the main device, and the one node sent is the confirmation, which carries the
    signed identity without the account key. *)
Theorem handlePair_certified b id business platform j lid s s' : handlePair V O b id business platform j lid s = (s', Ok tt) ->
  exists identity details k selfSigned main,
    certified (Store s) b identity details /\ AccountSignatureKey identity = Some k /\ marshal_identity V (without_key identity) = Some selfSigned /\
    match PrePairCallback O with Some f => f j platform business = true | None => True end /\
    Account (Store s') = Some identity /\ ID (Store s') = Some j /\ devicestore.LID (Store s') = lid /\
    (exists key, column j = Some key /\ is_Some (sql.rows (device_db s') !! key)) /\
    main = mkJID (User lid) (RawAgent lid) 0 (Integrator lid) (Server lid) /\
    sessions.identity_keys (sql.rows (identities s')) !! AddressText main = Some k /\
    paired s' = true /\ sent s' = sent s ++ [confirmation id (d_KeyIndex details) selfSigned].
Proof.
  intros H. unfold handlePair in H. apply stm_bind_inv in H as (s1 & [identity details] & E & H).
  apply check_identity_spec in E as [-> Hc]. destruct (certified_key _ _ _ _ Hc) as (k & Hk & Hlen).
  destruct (match PrePairCallback O with Some f => _ | None => false end) eqn:Ecb; [by apply refuse_not_ok in H|].
  stm_inv H. injection E as <- <-. rewrite Hk, (proj2 (Z.ltb_ge _ _)) in H by lia. stm_inv H. injection E as <- <-.
  assert (ztake 32 k = k) as Ek by (rewrite <- Hlen; apply ztake_all). rewrite Ek in H.
  destruct (marshal_identity V _) as [selfSigned|] eqn:Em; [|by apply refuse_not_ok in H].
  stm_inv H. injection E as <- <-. stm_inv H. apply or_refuse_ok in E. unfold save_device in E.
  cbn [Store with_store] in E. destruct (Save _ _) as [[t d] o] eqn:Es. injection E as <- Eo. destruct o as [[]| | |]; try done.
  apply PutDevice_ok in Es as (j' & key & Hid & Hcol & Hrow & Hdel & Hd). injection Hid as <-.
  assert (ID d = Some j /\ devicestore.LID d = lid /\ Account d = Some identity) as (D1 & D2 & D3) by (by destruct Hd as [[-> _]| ->]).
  stm_inv H. unfold StoreLIDPNMapping in E.
  assert (exists l, s0 = with_lids l (with_device d t (with_store (set_pairing j lid business platform (set_Account identity (Store s))) (with_store (set_Account identity (Store s)) s)))) as (l & ->).
  { destruct (incoming.StoreLIDPNMapping lid j) as [[x y]|]; [|injection E as <- _; eexists (lid_map s); by destruct s].
    destruct (lidmap.PutLIDMapping _ _ _) as [l ol]. injection E as <- _. by exists l. }
  clear E. apply stm_bind_inv in H as (s2 & [] & E & H). apply or_delete_ok in E. apply put_identity_ok in E as (ids & -> & Hids).
  stm_inv H. injection E as <- <-. stm_inv H. injection E as <- <-. apply or_delete_ok in H. unfold sendNode in H.
  destruct (send_node V _ _) as [w ok]. destruct ok; [|done]. injection H as <-.
  exists identity, details, k, selfSigned. eexists. split_and!; try done; [|by exists key].
  destruct (PrePairCallback O) as [f|]; [|done]. by apply negb_false_iff in Ecb.
Qed.
(** ** Failures *)

Lemma stm_bind_err {S E A B} (m : stm S E A) (k : A -> stm S E B) s s' e : (m ≫= k) s = (s', Err e) ->
  m s = (s', Err e) \/ exists s1 a, m s = (s1, Ok a) /\ k a s1 = (s', Err e).
Proof. unfold mbind, stm_bind. destruct (m s) as [s1 [a|x| |]]; intros H; try done; [right; eauto|left; congruence]. Qed.

(** Whether the next statement on the table fails, and the one after it. *)
Definition next_fails (t : sql.db devices_table unit) : bool := match sql.faults t with true :: _ => true | _ => false end.
Definition second_fails (t : sql.db devices_table unit) : bool := match sql.faults t with _ :: true :: _ => true | _ => false end.

(** A pairing taken back, and one left behind: the device keeps the JID and its row. *)
Definition undone (j : JID) (s : client) : Prop :=
  ID (Store s) = None /\ forall key, column j = Some key -> sql.rows (device_db s) !! key = None.
Definition left_behind (j : JID) (s : client) : Prop :=
  ID (Store s) = Some j /\ exists key, column j = Some key /\ is_Some (sql.rows (device_db s) !! key).

(** A device of the table: not deleted, with the JID of a row. *)
Definition in_table (j : JID) (s : client) : Prop := Deleted (Store s) = false /\ left_behind j s.

(** Deleting takes the JID off the device and the row out of the table, unless the
    statement fails; the error is not looked at. *)
Lemma deleted_device (s s' : client) o j : logged delete_device s = (s', o) -> in_table j s ->
  o = Ok tt /\ paired s' = paired s /\ if next_fails (device_db s) then left_behind j s' else undone j s'.
Proof.
  intros H (Hd & Hj & key & Hk & Hr). unfold logged, delete_device, Delete, DeleteDevice in H. rewrite Hd, Hj, Hk in H.
  unfold sql.exec, mbind, stm_bind in H. unfold sql.statement in H. unfold next_fails.
  destruct (sql.faults (device_db s)) as [|[] fs]; cbn in H; injection H as <- <-; (split_and!; [done..|]); cbn.
  - split; [done|]. intros key' Hk'. rewrite Hk in Hk'. injection Hk' as <-. apply lookup_delete_eq.
  - split; [done|]. by exists key.
  - split; [done|]. intros key' Hk'. rewrite Hk in Hk'. injection Hk' as <-. apply lookup_delete_eq.
Qed.

Lemma or_delete_err {A} (m : sm A) after s s' e j :
  or_delete m after s = (s', Err e) -> in_table j s ->
  (forall s1 x, m s = (s1, Err x) -> device_db s1 = device_db s /\ Store s1 = Store s) ->
  (forall s1 s2 o, after s1 = (s2, o) -> o = Ok tt /\ Store s2 = Store s1 /\ device_db s2 = device_db s1 /\ paired s2 = paired s1) ->
  exists s1, m s = (s1, Err e) /\ paired s' = paired s1 /\ if next_fails (device_db s) then left_behind j s' else undone j s'.
Proof.
  unfold or_delete. destruct (m s) as [s1 [a|x| |]] eqn:Em; try done. intros H Hi H1 H2.
  destruct (H1 _ _ eq_refl) as (Hw & Hd). unfold mbind, stm_bind in H.
  destruct (logged delete_device s1) as [s2 o] eqn:E2. apply (deleted_device _ _ _ j) in E2 as (-> & D2 & D1); [|unfold in_table, left_behind; by rewrite Hw, Hd].
  destruct (after s2) as [s3 o3] eqn:E3. apply H2 in E3 as (-> & E4 & E5 & E6). injection H as <- <-.
  exists s1. split; [done|]. split; [congruence|]. unfold left_behind, undone in *. by rewrite <- Hw, E4, E5.
Qed.

Lemma save_device_err (s s' : client) e j : save_device s = (s', Err e) -> ID (Store s) = Some j ->
  (exists x, e = ErrPairDatabase x) /\ ID (Store s') = Some j /\ paired s' = paired s.
Proof.
  unfold save_device, Save, PutDevice. intros H Hj. rewrite Hj in H. destruct (Deleted _).
  { injection H as <- <-. eauto. }
  destruct (Account _) as [a|]; [|done]. destruct (Signature _) as [sig|]; [|done].
  destruct (sql.exec _ _) as [t [[]|x| |]]; try done. cbn in H. injection H as <- <-. split; [eauto|].
  unfold initializeDevice. cbn. rewrite Hj. by destruct (Initialized _).
Qed.

(** Saving runs one statement. *)
Lemma save_device_live (s s' : client) j : save_device s = (s', Ok tt) -> ID (Store s) = Some j ->
  in_table j s' /\ paired s' = paired s /\ next_fails (device_db s') = second_fails (device_db s).
Proof.
  unfold save_device. destruct (Save _ _) as [[t d] o] eqn:E. intros [= <- Ho] Hj. destruct o as [[]| | |]; try done.
  pose proof (PutDevice_ok _ _ _ _ E) as (j' & k & Hid & Hk & Hr & Hdel & Hd). rewrite Hj in Hid. injection Hid as <-.
  assert (Deleted d = false /\ ID d = Some j) as [H1 H2] by (by destruct Hd as [[-> _]| ->]).
  split; [|split; [done|]]. { split; [done|]. split; [done|]. by exists k. }
  unfold Save, PutDevice in E. rewrite Hdel, Hj in E. destruct (Account _) as [a|]; [|done]. destruct (Signature _) as [sig|]; [|done].
  destruct (sql.exec _ _) as [t1 o1] eqn:Ex. injection E as <- _ Ho1. destruct o1 as [[]| | |]; try done.
  unfold sql.exec, mbind, stm_bind in Ex. unfold sql.statement in Ex. unfold next_fails, second_fails.
  destruct (sql.faults (device_db s)) as [|[] fs] eqn:Ef; [|done|]; cbn in Ex;
    (destruct (option_bind _ _ _ _) as [rows'|] in Ex; [|done]); injection Ex as <-; cbn; [by rewrite Ef|done].
Qed.

(** (C33) A pairing that fails is undone, as far as the code goes. When it fails
    before the device is saved, the device has no JID. When the identity of the main
    device cannot be stored, or the confirmation cannot be sent, the device is
    deleted again: it has no JID and the table no row for it, unless this very
    statement fails, after which both stay (the error is dropped). When the device
    itself could not be saved, its JID stays set. Only a confirmation that could not
    be sent leaves the client marked as paired. *)
Theorem failed_pairing_undone b id business platform j lid s s' e : ID (Store s) = None ->
  handlePair V O b id business platform j lid s = (s', Err e) ->
  match e with
  | ErrPairDatabase _ => ID (Store s') = Some j /\ paired s' = paired s
  | ErrPairIdentity => paired s' = paired s /\ if second_fails (device_db s) then left_behind j s' else undone j s'
  | ErrSendFailed => paired s' = true /\ if second_fails (device_db s) then left_behind j s' else undone j s'
  | _ => ID (Store s') = None /\ paired s' = paired s
  end.
Proof.
  intros Hid H. unfold handlePair in H. apply stm_bind_err in H as [H|(s1 & [identity details] & E & H)].
  { apply check_identity_spec in H as (-> & -> & He). rewrite Hid. by destruct e. }
  apply check_identity_spec in E as [-> Hc]. destruct (certified_key _ _ _ _ Hc) as (k & Hk & Hlen).
  destruct (match PrePairCallback O with Some f => _ | None => false end).
  { apply refuse_err in H as ([= ->] & -> & ->). by rewrite Hid. }
  apply stm_bind_err in H as [H|(s1 & [] & [= <-] & H)]; [done|].
  rewrite Hk, (proj2 (Z.ltb_ge _ _)) in H by lia. apply stm_bind_err in H as [H|(s1 & k' & [= <- <-] & H)]; [done|].
  destruct (marshal_identity V _) as [selfSigned|].
  2:{ apply refuse_err in H as ([= ->] & -> & ->). by cbn. }
  apply stm_bind_err in H as [H|(s1 & [] & [= <-] & H)]; [done|]. set (s1 := with_store _ _) in H.
  assert (device_db s1 = device_db s /\ ID (Store s1) = Some j /\ paired s1 = paired s) as (W1 & I1 & P1) by done.
  clearbody s1. apply stm_bind_err in H as [H|(s2 & [] & E & H)].
  { unfold or_refuse in H. destruct (save_device s1) as [s2 [x|x| |]] eqn:Es; try done.
    apply (save_device_err _ _ _ j) in Es as ((y & ->) & I2 & P2); [|done]. apply refuse_err in H as ([= ->] & -> & ->). by rewrite P2, P1. }
  apply or_refuse_ok in E. apply (save_device_live _ _ j) in E as (I2 & P2 & F2); [|done]. rewrite P1 in P2. rewrite W1 in F2.
  apply stm_bind_err in H as [H|(s3 & [] & E & H)].
  { unfold StoreLIDPNMapping in H. destruct (incoming.StoreLIDPNMapping lid j) as [[x y]|]; [|done]. by destruct (lidmap.PutLIDMapping _ _ _). }
  assert (device_db s3 = device_db s2 /\ Store s3 = Store s2 /\ paired s3 = paired s) as (E1 & E2 & E3).
  { unfold StoreLIDPNMapping in E. destruct (incoming.StoreLIDPNMapping lid j) as [[x y]|]; [|by injection E as <-].
    destruct (lidmap.PutLIDMapping _ _ _). by injection E as <-. }
  assert (in_table j s3) as I3 by (unfold in_table, left_behind in *; by rewrite E1, E2). rewrite <- F2, <- E1. clear E E1 E2 I2 P2 F2.
  apply stm_bind_err in H as [H|(s4 & [] & E & H)].
  { apply (or_delete_err _ _ _ _ _ j) in H as (s4 & Hp & H1 & H2); [|done|..].
    - unfold put_identity in Hp. destruct (stores (Store s3)); [done| |injection Hp as <- <-; by rewrite H1].
      destruct (sessions.PutIdentity _ _ _) as [t [x|x| |]]; injection Hp as <- Hx; try done. subst e. by rewrite H1.
    - intros s4 x Hp. unfold put_identity in Hp. destruct (stores (Store s3)); [done| |by injection Hp as <- _].
      destruct (sessions.PutIdentity _ _ _) as [t o]. by injection Hp as <- _.
    - intros s4 s5 o Ho. unfold sendPairError, logged, sendNode in Ho. destruct (send_node V _ _) as [w []]; by injection Ho as <- <-. }
  apply or_delete_ok, put_identity_ok in E as (ids & -> & _).
  apply stm_bind_err in H as [H|(s5 & [] & [= <-] & H)]; [done|]. apply stm_bind_err in H as [H|(s5 & [] & [= <-] & H)]; [done|].
  apply (or_delete_err _ _ _ _ _ j) in H as (s5 & Hs & H1 & H2); [|done|..].
  - unfold sendNode in Hs. destruct (send_node V _ _) as [w []]; [done|]. injection Hs as <- <-. by rewrite H1.
  - intros s6 x Hs'. unfold sendNode in Hs'. destruct (send_node V _ _) as [w []]; [done|]. by injection Hs' as <- _.
  - by intros s6 s7 o [= <- <-].
Qed.
End success.
(** ** The letters of a code *)

Lemma rev_seq_S k : rev (seq 0 (Datatypes.S k)) = k :: rev (seq 0 k).
Proof. by rewrite seq_S, rev_app_distr. Qed.

(** The digits of a number in base [2 ^ w]. *)
Lemma digits_value w n k : 0 <= w -> forall acc,
  foldl (fun a d => a * 2 ^ w + d) acc (map (fun i => (n / 2 ^ (w * Z.of_nat i)) mod 2 ^ w) (rev (seq 0 k)))
  = acc * 2 ^ (w * Z.of_nat k) + n mod 2 ^ (w * Z.of_nat k).
Proof.
  intros Hw. induction k as [|k IH]; intros acc.
  { rewrite Z.mul_0_r, Z.pow_0_r, Z.mod_1_r. cbn. lia. }
  rewrite rev_seq_S. cbn [map foldl]. rewrite IH.
  replace (w * Z.of_nat (Datatypes.S k)) with (w * Z.of_nat k + w) by lia. rewrite Z.pow_add_r by lia.
  assert (0 < 2 ^ (w * Z.of_nat k)) by (apply Z.pow_pos_nonneg; lia). assert (0 < 2 ^ w) by (apply Z.pow_pos_nonneg; lia).
  rewrite Z.rem_mul_r by lia. lia.
Qed.

Lemma group_from b : forall acc, foldl (fun n c => n * 256 + b2z c) acc b = acc * 2 ^ (8 * blen b) + group b /\ 0 <= group b < 2 ^ (8 * blen b).
Proof.
  unfold group. induction b as [|c b IH]; intros acc; [cbn [foldl]; unfold blen; cbn [length]; cbn; lia|]. cbn [foldl]. rewrite blen_cons.
  replace (8 * (1 + blen b)) with (8 * blen b + 8) by lia. pose proof (blen_nonneg b). rewrite Z.pow_add_r by lia.
  destruct (IH (acc * 256 + b2z c)) as [-> H1]. destruct (IH (0 * 256 + b2z c)) as [-> _]. pose proof (b2z_range c).
  change (2 ^ 8) with 256. nia.
Qed.

Lemma bytes_of_group b : forall acc,
  map (fun i => z2b (Z.shiftr (foldl (fun n c => n * 256 + b2z c) acc b) (8 * Z.of_nat i))) (rev (seq 0 (length b))) = b.
Proof.
  induction b as [|c b IH]; intros acc; [done|]. cbn [length foldl]. rewrite rev_seq_S. cbn [map]. f_equal; [|apply IH].
  rewrite Z.shiftr_div_pow2 by lia. destruct (group_from b (acc * 256 + b2z c)) as [-> H]. unfold blen in *.
  rewrite Z.div_add_l, (Z.div_small (group b)), Z.add_0_r by lia. apply b2z_inj. rewrite b2z_z2b. pose proof (b2z_range c).
  rewrite Z.add_comm, Z.mod_add by lia. by apply Z.mod_small.
Qed.

(** Each letter stands for its place in the alphabet. *)
Lemma letter_one d : 0 <= d < 32 -> exists c, linking_letter d = String c "" /\ letter_index c linking_alphabet 0 = Some d.
Proof.
  intros Hd.
  assert (forallb (fun d => match linking_letter (Z.of_nat d) with
     | String c EmptyString => bool_decide (letter_index c linking_alphabet 0 = Some (Z.of_nat d)) | _ => false end) (seq 0 32) = true) as H by (vm_compute; reflexivity).
  rewrite forallb_forall in H. specialize (H (Z.to_nat d)). rewrite Z2Nat.id in H by lia.
  specialize (H ltac:(apply in_seq; lia)). destruct (linking_letter d) as [|c [|]]; try done. apply bool_decide_eq_true_1 in H. eauto.
Qed.

Lemma letter_read d s n : 0 <= d < 32 -> word_of (linking_letter d +:+ s) n = word_of s (n * 32 + d).
Proof. intros Hd. destruct (letter_one d Hd) as (c & -> & Hc). change (String c "" +:+ s) with (String c s). cbn [word_of]. by rewrite Hc. Qed.

Lemma letters_read n k : forall acc s, word_of (letters n k +:+ s) acc
  = word_of s (foldl (fun a d => a * 2 ^ 5 + d) acc (map (fun i => (n / 2 ^ (5 * Z.of_nat i)) mod 2 ^ 5) (rev (seq 0 k)))).
Proof.
  unfold letters. induction k as [|k IH]; intros acc s; [done|]. rewrite rev_seq_S. cbn [map foldl].
  set (d := (n / _) mod _). assert (Z.land (Z.shiftr n (5 * Z.of_nat k)) 31 = d) as ->.
  { change 31 with (Z.ones 5). rewrite Z.land_ones, Z.shiftr_div_pow2 by lia. done. }
  assert (0 <= d < 32) as Hd by (apply Z.mod_pos_bound; lia). rewrite <- (IH (acc * 2 ^ 5 + d) s).
  rewrite <- (letter_read d _ acc Hd). f_equal. destruct k as [|k]; [done|]. rewrite rev_seq_S. cbn [map String.concat].
  by rewrite str_app_assoc.
Qed.

Lemma length_letters n k : String.length (letters n k) = k.
Proof.
  unfold letters. induction k as [|k IH]; [done|]. rewrite rev_seq_S. cbn [map].
  assert (0 <= Z.land (Z.shiftr n (5 * Z.of_nat k)) 31 < 32) as H.
  { change 31 with (Z.ones 5). rewrite Z.land_ones by lia. by apply Z.mod_pos_bound. }
  apply letter_one in H as (c & -> & _). destruct k as [|k]; [done|]. rewrite rev_seq_S in *.
  exact (f_equal Datatypes.S IH).
Qed.

Lemma code_letters_of b : length b = 5%nat -> DecodeString (EncodeToString b) = Some b /\ String.length (EncodeToString b) = 8%nat.
Proof.
  intros Hb.
  assert (EncodeToString b = letters (group b) 8) as ->.
  { destruct b as [|b0 [|b1 [|b2 [|b3 [|b4 [|]]]]]]; try done. unfold EncodeToString. cbn [length encode_groups take drop]. apply str_app_nil_r. }
  split; [|apply length_letters]. unfold DecodeString. rewrite length_letters. cbn [Nat.eqb].
  rewrite <- (str_app_nil_r (letters _ _)), letters_read, digits_value by lia. cbn [word_of mbind option_bind].
  destruct (group_from b 0) as [_ H]. unfold blen in H. rewrite Hb in H. rewrite Z.mul_0_l, Z.add_0_l, Z.mod_small by exact H.
  f_equal. pose proof (bytes_of_group b 0) as Hg. by rewrite Hb in Hg.
Qed.

(** The letters of a code say its bytes: five bytes become eight letters of the
    alphabet, which decode to the same five bytes. *)
Theorem code_letters b : length b = 5%nat -> DecodeString (EncodeToString b) = Some b /\ String.length (EncodeToString b) = 8%nat.
Proof. apply code_letters_of. Qed.

(** ** Linking by a code *)

Section by_code.
Context {C : Crypto} {CL : CryptoLaws C} {W : Type} (V : services (W := W)).

#[local] Notation client := (client W).

Lemma length_stream key iv n : length (ctr_stream key iv n) = n.
Proof.
  unfold ctr_stream. rewrite length_take, length_concat.
  assert (forall l, list_sum (map length (map (fun i => aes_block_enc key (counter iv i)) l)) = 16 * length l)%nat as ->.
  { induction l as [|i l IH]; [done|]. cbn [map list_sum foldr length] in *. rewrite (cbcutil.aes_enc_length aes_block_enc aes_block_dec).
    unfold list_sum in IH. rewrite IH. lia. }
  rewrite length_seq. pose proof (Nat.div_mod_eq n 16). pose proof (Nat.mod_upper_bound n 16 ltac:(lia)). lia.
Qed.

Lemma ctr_opens key iv src c : ctr key iv src = Ok c -> ctr key iv c = Ok src /\ length c = length src.
Proof.
  unfold ctr. destruct (cbcutil.NewCipher key); try done. destruct (negb _); [done|]. intros [= <-].
  assert (length (cbcutil.xor_bytes src (ctr_stream key iv (length src))) = length src) as Hl.
  { unfold cbcutil.xor_bytes. rewrite length_zip_with, length_stream. lia. }
  split; [|exact Hl]. rewrite Hl. f_equal. apply cbcutil.xor_involutive. by rewrite length_stream.
Qed.

Lemma hkdf_ok key salt info : exists k, hkdf key salt info = Ok k /\ length k = 32%nat.
Proof. unfold hkdf. rewrite SHA256_ok by lia. eexists. split; [done|]. apply length_hkdf_bytes. Qed.

Lemma X25519_ok priv pub k (s : client) : x25519 priv pub = Some k -> X25519 priv pub s = (s, Ok k).
Proof. unfold X25519. by intros ->. Qed.

Lemma fit_exact n b : length b = n -> fit n b = b.
Proof. intros <-. unfold fit. apply take_app_length. Qed.

(** The primary device's part of the exchange: it knows the code and has the keys
    [b] and [ib]; [wrapped] is its ephemeral public key under the code. *)
Record primary_part (code : string) (b ib salt iv wrapped identity_pub : bytes) : Prop := {
  part_salt : length salt = 32%nat;
  part_iv : length iv = 16%nat;
  part_wrapped : exists enc, ctr (pbkdf2 V (str_bytes code) salt) iv (x25519_base b) = Ok enc /\ wrapped = salt ++ iv ++ enc;
  part_identity : identity_pub = x25519_base ib
}.

Lemma make_bundle_agrees cache d code b ib salt iv wrapped identity_pub sh ish i rnd s :
  primary_part code b ib salt iv wrapped identity_pub -> ph_linkingCode cache = code ->
  x25519 b (x25519_base (Priv (ph_keyPair cache))) = Some sh -> x25519 ib (x25519_base i) = Some ish ->
  IdentityKey d = NewKeyPairFromPrivateKey i -> length (br_nonce rnd) = 12%nat ->
  exists key ct secret, hkdf sh (br_salt rnd) "link_code_pairing_key_bundle_encryption_key" = Ok key /\
    crypto.Decrypt key (br_nonce rnd) ct [] = Ok (Pub (IdentityKey d) ++ identity_pub ++ br_secret rnd) /\
    hkdf (sh ++ ish ++ br_secret rnd) [] "adv_secret" = Ok secret /\
    make_bundle V cache d wrapped identity_pub rnd s = (s, Ok (br_salt rnd ++ br_nonce rnd ++ ct, secret)).
Proof.
  intros [Hs Hiv (enc & He & ->) ->] Hcode Hsh Hish Hi Hn. apply ctr_opens in He as [He Hel]. rewrite length_x25519_base in Hel.
  destruct (hkdf_ok sh (br_salt rnd) "link_code_pairing_key_bundle_encryption_key") as (key & Hkey & Hkl).
  destruct (hkdf_ok (sh ++ ish ++ br_secret rnd) [] "adv_secret") as (secret & Hsecret & _).
  set (plain := concatBytes [Pub (IdentityKey d); x25519_base ib; br_secret rnd]).
  exists key, (gcm_seal key (br_nonce rnd) plain []), secret.
  assert (plain = Pub (IdentityKey d) ++ x25519_base ib ++ br_secret rnd) as Hplain by (unfold plain, concatBytes; cbn [concat]; by rewrite app_nil_r).
  assert (nonce_ok (br_nonce rnd) = true) as Hnonce by (unfold nonce_ok, blen; by rewrite Hn).
  split_and!; [done| |done|].
  { rewrite <- Hplain. unfold crypto.Decrypt. rewrite Prepare_32 by done. rewrite bind_Ok, Hnonce. cbn [negb]. by rewrite gcm_open_seal. }
  unfold make_bundle. rewrite Hcode.
  assert (blen salt = 32) as Bs by (unfold blen; by rewrite Hs). assert (blen iv = 16) as Bi by (unfold blen; by rewrite Hiv).
  assert (blen enc = 32) as Be by (unfold blen; by rewrite Hel).
  assert (ztake 32 (salt ++ iv ++ enc) = salt) as -> by (rewrite <- Bs; apply ztake_app).
  assert (zdrop 32 (salt ++ iv ++ enc) = iv ++ enc) as -> by (rewrite <- Bs; apply zdrop_app).
  assert (ztake 16 (iv ++ enc) = iv) as -> by (rewrite <- Bi; apply ztake_app).
  assert (zdrop 48 (salt ++ iv ++ enc) = enc) as ->.
  { rewrite app_assoc. replace 48 with (blen (salt ++ iv)) by (rewrite blen_app; lia). apply zdrop_app. }
  assert (ztake 32 enc = enc) as -> by (rewrite <- Be; apply ztake_all).
  rewrite (stm_bind_ok _ _ _ _ _ (lift_ok _ _ _ He)). rewrite <- x25519_comm in Hsh.
  rewrite (stm_bind_ok _ _ _ _ _ (X25519_ok _ _ _ s Hsh)). rewrite (stm_bind_ok _ _ _ _ _ (lift_ok _ _ _ Hkey)).
  fold plain. erewrite stm_bind_ok.
  2:{ apply lift_ok. unfold crypto.Encrypt. rewrite Prepare_32 by done. rewrite bind_Ok, Hnonce. reflexivity. }
  rewrite Hi. cbn [Priv NewKeyPairFromPrivateKey]. rewrite x25519_comm in Hish.
  rewrite (stm_bind_ok _ _ _ _ _ (X25519_ok _ _ _ s Hish)). rewrite (stm_bind_ok _ _ _ _ _ (lift_ok _ _ _ Hsecret)).
  unfold concatBytes. cbn [concat]. by rewrite app_nil_r.
Qed.

(** Linking by a code agrees with the primary device: what was sent first opens,
    with the code, to the public key of the ephemeral pair; and when the answer of a
    primary device that knows the code is handled successfully, the bundle sent
    opens, under the key that device can compute from its own private key, to this
    device's identity key, the primary's and the random part, from which it computes
    the very secret the client now holds. *)
Theorem code_pairing_agrees code_rnd rnd kp wire code cache parent s s' b ib salt iv wrapped identity_pub sh ish i :
  length (cr_salt code_rnd) = 32%nat -> length (cr_iv code_rnd) = 16%nat -> length (br_nonce rnd) = 12%nat ->
  generateCompanionEphemeralKey V code_rnd = Ok (kp, wire, code) ->
  phone_cache (links s) = Some cache -> ph_keyPair cache = kp -> ph_linkingCode cache = code ->
  IdentityKey (Store s) = NewKeyPairFromPrivateKey i ->
  primary_part code b ib salt iv wrapped identity_pub ->
  (let reg := GetChildByTag parent ["link_code_companion_reg"] in
   content_bytes (GetChildByTag reg ["link_code_pairing_wrapped_primary_ephemeral_pub"]) = Some wrapped /\
   content_bytes (GetChildByTag reg ["primary_identity_pub"]) = Some identity_pub) ->
  x25519 b (x25519_base (Priv kp)) = Some sh -> x25519 ib (x25519_base i) = Some ish ->
  handleCodePairNotification V parent rnd s = (s', Ok tt) ->
  ctr (pbkdf2 V (str_bytes code) (take 32 wire)) (take 16 (drop 32 wire)) (drop 48 wire) = Ok (x25519_base (Priv kp)) /\
  exists key ct secret w w' r,
    send_iq V (companion_finish (ph_jid cache) (br_salt rnd ++ br_nonce rnd ++ ct) (Store s) (ph_pairingRef cache)) w = (w', Ok r) /\
    hkdf sh (br_salt rnd) "link_code_pairing_key_bundle_encryption_key" = Ok key /\
    crypto.Decrypt key (br_nonce rnd) ct [] = Ok (x25519_base i ++ identity_pub ++ br_secret rnd) /\
    hkdf (sh ++ ish ++ br_secret rnd) [] "adv_secret" = Ok secret /\ AdvSecretKey (Store s') = secret.
Proof.
  intros Hsalt Hiv Hnonce Hgen Hcache Hkp Hcode Hi Hpart [Hw Hid] Hsh Hish H. split.
  - unfold generateCompanionEphemeralKey in Hgen. destruct (ctr _ _ _) as [enc|e| |] eqn:E; try done. injection Hgen as <- <- <-.
    apply ctr_opens in E as [E El]. cbn [Pub NewKeyPair NewKeyPairFromPrivateKey Priv] in *. rewrite length_x25519_base in El.
    rewrite !fit_exact by done. rewrite <- Hsalt at 1. rewrite take_app_length.
    rewrite <- Hsalt at 1. rewrite drop_app_length. rewrite <- Hiv at 1. rewrite take_app_length.
    replace 48%nat with (length (cr_salt code_rnd ++ cr_iv code_rnd)) by (rewrite length_app; lia).
    rewrite app_assoc, drop_app_length. exact E.
  - unfold handleCodePairNotification in H. destruct (GetOptionalChildByTag parent _) as [node ok] eqn:Eo. destruct ok; [|done]. cbn [negb] in H.
    assert (GetChildByTag parent ["link_code_companion_reg"] = node) as En by (unfold GetChildByTag; by rewrite Eo).
    rewrite En in Hw, Hid. stm_inv H. injection E as <- <-. rewrite Hcache in H. stm_inv H. injection E as <- <-.
    destruct (bool_decide _) eqn:Eref; cbn [negb] in H; [|done]. apply bool_decide_eq_true_1 in Eref. rewrite Hw in H.
    destruct (_ <? 80); [done|]. rewrite Hid in H.
    destruct (make_bundle_agrees cache (Store s) code b ib salt iv wrapped identity_pub sh ish i rnd (with_paired false s)) as (key & ct & secret & H1 & H2 & H3 & H4);
      [done|done|by rewrite Hkp|done..|].
    rewrite (stm_bind_ok _ _ _ _ _ H4) in H. stm_inv H. injection E as <- <-. stm_inv H. injection H as <-.
    unfold query in E. destruct (send_iq V _ _) as [w o] eqn:Eq. injection E as <- Eo'. destruct o as [r|e| |]; try done.
    rewrite Eref in Eq. exists key, ct, secret, (world s), w, r. split_and!; try done. rewrite Hi in H2. exact H2.
Qed.
(** Whatever the random source gives, the code is the one in the source. *)
Lemma pairing_code_fixed phone show ty name rnd s s' shown : PairPhone V phone show ty name rnd s = (s', Ok shown) ->
  shown = "2222-2222" /\ exists cache, phone_cache (links s') = Some cache /\ ph_linkingCode cache = "22222222".
Proof.
  unfold PairPhone. intros H. stm_inv H. destruct a as [[kp wire] code]. apply lift_inv in E as [-> E].
  assert (code = "22222222") as ->.
  { unfold generateCompanionEphemeralKey in E. destruct (ctr _ _ _); try done. injection E as _ _ <-. vm_compute. reflexivity. }
  destruct (_ <=? _)%nat; [done|]. destruct (has_prefix _ _); [done|]. stm_inv H. stm_inv H.
  destruct (GetOptionalChildByTag a0 _) as [n ok]. destruct (negb ok); [done|]. destruct (node_content n); try done.
  stm_inv H. injection E2 as <- _. apply lift_inv in H as [-> H]. vm_compute in H. injection H as <-. split; [done|]. eexists. split; [done|done].
Qed.

(** A notification that was handled can be handled again: the pending linking stays. *)
Lemma linking_stays_pending parent rnd s s' : handleCodePairNotification V parent rnd s = (s', Ok tt) ->
  phone_cache (links s') = phone_cache (links s).
Proof.
  unfold handleCodePairNotification. destruct (GetOptionalChildByTag parent _) as [node ok]. destruct (negb ok); [done|]. intros H.
  stm_inv H. injection E as <- <-. destruct (phone_cache (links s)) as [cache|] eqn:Ec; [|done]. stm_inv H. injection E as <- _.
  destruct (negb _); [done|]. destruct (content_bytes _) as [w|]; [|done]. destruct (_ <? 80); [done|].
  destruct (content_bytes _) as [i|]; [|done]. stm_inv H. destruct a0 as [bundle secret].
  assert (links s0 = links s) as Hl.
  { unfold make_bundle, X25519 in E. stm_inv E. apply lift_inv in E0 as [-> _]. stm_inv E.
    destruct (x25519 _ _); [|done]. injection E0 as <- _. stm_inv E. apply lift_inv in E0 as [-> _]. stm_inv E.
    apply lift_inv in E0 as [-> _]. stm_inv E. destruct (x25519 _ _); [|done]. injection E0 as <- _. stm_inv E.
    apply lift_inv in E0 as [-> _]. by injection E as <- _. }
  stm_inv H. injection E0 as <- _. stm_inv H. injection H as <-. unfold query in E0. destruct (send_iq V _ _) as [x o].
  injection E0 as <- _. cbn. by rewrite Hl.
Qed.

(** ** Linking by a passkey *)

Lemma length_confirmation n k m : length n = 32%nat -> length (confirmation_code k m n) = 5%nat.
Proof.
  intros Hn. unfold confirmation_code, cbcutil.xor_bytes. rewrite length_zip_with, !length_take, length_sha256. lia.
Qed.

(** Linking by a passkey agrees with the primary device: when its ephemeral key
    has been taken and the confirmation sent, the code shown is its nonce under the
    digest of what was exchanged, as eight letters; what was sent opens, under the
    key that device can compute from its own private key, to the request with this
    device's keys and secret; and no second confirmation can be sent. *)
Theorem passkey_agrees node iv cache a b nonce sh s s1 s2 : passkey_cache (links s) = Some cache ->
  pk_keyPair cache = NewKeyPairFromPrivateKey a -> parsePasskeyContinuationNotification V node = Ok (x25519_base b, nonce) ->
  x25519 b (x25519_base a) = Some sh -> length iv = 12%nat ->
  handlePasskeyContinuationNotification V node s = (s1, Ok tt) -> SendPasskeyConfirmation V iv s1 = (s2, Ok tt) ->
  exists key req ct wrapped code w w' r,
    SHA256 sh (pairing_salt cache) (str_bytes "Pairing Information Encryption Key") 32 = Ok key /\
    marshal_request V (Pub (NoiseKey (Store s1))) (Pub (IdentityKey (Store s1))) (AdvSecretKey (Store s1)) = Some req /\
    crypto.Decrypt key iv ct [] = Ok req /\ marshal_encrypted V ct iv = Some wrapped /\
    send_iq V (md_query "set" [mkNode "encrypted_pairing_request" [] (ABytes wrapped)]) w = (w', Ok r) /\
    DecodeString code = Some (confirmation_code (pk_companionNonce cache) (x25519_base b) nonce) /\
    dispatched s1 = dispatched s ++ [EvPasskeyConfirmation (String.substring 0 4 code +:+ "-" +:+ String.substring 4 4 code) (skip_handoff (links s))] /\
    passkey_cache (links s2) = None.
Proof.
  intros Hc Hkp Hparse Hsh Hiv H1 H2.
  assert (length nonce = 32%nat) as Hn.
  { unfold parsePasskeyContinuationNotification in Hparse. destruct (GetOptionalChildByTag node _) as [n ok]. destruct (negb ok); [done|].
    destruct (content_bytes n); [|done]. destruct (unmarshal_primary V _) as [buf|]; [|done]. destruct (_ || _) eqn:E; [done|].
    apply orb_false_iff in E as [_ E]. apply negb_false_iff, Z.eqb_eq in E. injection Hparse as _ <-. unfold blen in E. lia. }
  pose proof (length_confirmation nonce (pk_companionNonce cache) (x25519_base b) Hn) as H5. apply code_letters_of in H5 as [Hdec Hlen].
  set (code := EncodeToString _) in Hdec, Hlen.
  unfold handlePasskeyContinuationNotification in H1. stm_inv H1. injection E as <- <-. rewrite Hc in H1.
  rewrite (stm_bind_ok _ _ _ _ _ (lift_ok _ _ _ Hparse)) in H1. rewrite Hkp in H1. cbn [Priv NewKeyPairFromPrivateKey] in H1.
  rewrite x25519_comm in Hsh. rewrite (stm_bind_ok _ _ _ _ _ (X25519_ok _ _ _ s Hsh)) in H1.
  stm_inv H1. unfold query in E. destruct (send_iq V _ _) as [w1 o1]. injection E as <- _.
  pose proof (SHA256_ok sh (pairing_salt cache) (str_bytes "Pairing Information Encryption Key") 32 ltac:(lia)) as Hk.
  rewrite Hk in H1. set (key := hkdf_bytes _ _ _ _ _) in Hk, H1. assert (length key = 32%nat) as Hkl by apply length_hkdf_bytes.
  stm_inv H1. apply lift_inv in E as [-> E]. injection E as <-. stm_inv H1. injection E as <- _. fold code in H1.
  stm_inv H1. apply lift_inv in E as [-> E]. unfold shown_code in E. rewrite Hlen in E. cbn in E. injection E as <-.
  stm_inv H1. injection E as <- <-. injection H1 as <-. cbn [links Store dispatched with_dispatched with_links with_sent set_passkey_cache world] in *.
  unfold SendPasskeyConfirmation in H2. stm_inv H2. injection E as <- <-. cbn [links passkey_cache with_dispatched set_passkey_cache with_links pk_encryptionKey with_key] in H2.
  stm_inv H2. unfold or_throw in E. destruct (marshal_request V _ _ _) as [req|] eqn:Ereq; [|done]. injection E as <- <-.
  assert (nonce_ok iv = true) as Hnonce by (unfold nonce_ok, blen; by rewrite Hiv).
  unfold crypto.Encrypt in H2. rewrite (Prepare_32 key Hkl) in H2. rewrite bind_Ok, Hnonce in H2. cbn [negb map_err] in H2.
  stm_inv H2. apply lift_inv in E as [-> E]. injection E as <-. stm_inv H2. unfold or_throw in E.
  destruct (marshal_encrypted V _ _) as [wrapped|] eqn:Ew; [|done]. injection E as <- <-.
  stm_inv H2. unfold query in E. destruct (send_iq V _ _) as [w2 o2] eqn:Eq. injection E as <- Eo. destruct o2 as [r|x| |]; try done.
  injection H2 as <-. exists key, req, (gcm_seal key iv req []), wrapped, code, w1, w2, r.
  split_and!; try done. unfold crypto.Decrypt. rewrite (Prepare_32 key Hkl). rewrite bind_Ok, Hnonce. cbn [negb]. by rewrite gcm_open_seal.
Qed.
End by_code.

End pairing_proofs.
