(* ===== verification/PairingWitness.v ===== *)
(** * Linking and the device store: the theorems at concrete inputs

    Toy codecs, an account that signs, a primary device that answers; after them
    what the model shows of the edges of pairing. *)

From S2P Require Import Prelude GoStrings StateErr Jid Node Cbc Crypto Sql Sessions LidMap Requests History DeviceStore Pairing PairingProofs.

#[local] Open Scope string_scope.
#[local] Open Scope list_scope.
#[local] Open Scope Z_scope.

Module pairing_witness.

Import jid attrs crypto requests devicestore pairing pairing_proofs.

#[local] Existing Instance toy_crypto.
#[local] Existing Instance toy_crypto_laws.

Definition toy_random : randomness := mkRandom (replicate 32 x21) (replicate 32 x22) 7 (replicate 32 x23) (replicate 32 x24).
Definition toy_device : Device := NewDevice toy_random.

Definition account_priv : bytes := replicate 32 x31.

Definition toy_raw : ADVSignedDeviceIdentity :=
  mkAdv (Some [x01]) (Some (x25519_base account_priv))
    (Some (calculate_signature account_priv (AdvAccountSignaturePrefix ++ [x01] ++ Pub (IdentityKey toy_device)))) None.

Definition toy_container : IdentityContainer := mkContainer false (Some [x02]) (Some (hmac_sha256 (AdvSecretKey toy_device) [x02])).

Definition primary_ephemeral : bytes := replicate 32 x41.
Definition primary_identity : bytes := replicate 32 x42.
Definition primary_nonce : bytes := replicate 32 x43.

Definition ref_node : Node :=
  mkNode "iq" [] (ANodes [mkNode "link_code_companion_reg" [] (ANodes [mkNode "link_code_pairing_ref" [] (ABytes [x51])]); mkNode "ref" [] (ABytes [x52])]).

(** A connection that takes what is sent, or does not. *)
Definition toy_connection (up : bool) : services (W := unit) := {|
  send_node _ w := (w, up);
  send_iq _ w := (w, Ok ref_node);
  now _ := 10 ^ 18;
  unmarshal_container b := match b with [] => None | _ => Some toy_container end;
  unmarshal_identity _ := Some toy_raw;
  unmarshal_details _ := Some (mkDetails false 3);
  marshal_identity a := Some (default [] (DeviceSignature a));
  unmarshal_passkey_options b := Some b;
  unmarshal_primary _ := Some (mkPrimary (Some (x25519_base primary_ephemeral)) (Some primary_nonce));
  marshal_ephemeral k _ r := Some (k ++ r);
  marshal_prologue i c := Some (i ++ c);
  marshal_request a b c := Some (a ++ b ++ c);
  marshal_encrypted p iv := Some (p ++ iv);
  pbkdf2 p s := toy_pad 32 (p ++ s)
|}.

Definition toy_services : services (W := unit) := toy_connection true.

Definition toy_options : options := mkOptions "" PtChrome 1 UaWeb None.

Definition no_links : caches := mkCaches None None None false.

Definition toy_client : client unit :=
  mkClient toy_device (sql.mkDb ∅ tt []) (sql.mkDb (sessions.mkTables ∅ ∅ ∅) ∅ []) (lidmap.NewCachedLIDMap ∅ []) false 0 [] no_links [] [] tt.

Definition toy_jid : JID := mkJID "15551234567" 0 4 0 DefaultUserServer.
Definition toy_lid : JID := mkJID "99" 0 4 0 HiddenUserServer.

Definition toy_paired : client unit := fst (handlePair toy_services toy_options [x09] "5" "biz" "android" toy_jid toy_lid toy_client).

Lemma handlePair_certified_witness :
  exists identity details k selfSigned main,
    certified toy_services toy_device [x09] identity details /\ AccountSignatureKey identity = Some k /\
    marshal_identity toy_services (without_key identity) = Some selfSigned /\ True /\
    Account (Store toy_paired) = Some identity /\ ID (Store toy_paired) = Some toy_jid /\ devicestore.LID (Store toy_paired) = toy_lid /\
    (exists key, column toy_jid = Some key /\ is_Some (sql.rows (device_db toy_paired) !! key)) /\
    main = mkJID (User toy_lid) (RawAgent toy_lid) 0 (Integrator toy_lid) (Server toy_lid) /\
    sessions.identity_keys (sql.rows (identities toy_paired)) !! AddressText main = Some k /\
    paired toy_paired = true /\ sent toy_paired = sent toy_client ++ [confirmation "5" (d_KeyIndex details) selfSigned].
Proof.
  apply (handlePair_certified toy_services toy_options [x09] "5" "biz" "android" toy_jid toy_lid toy_client toy_paired).
  vm_compute. reflexivity.
Defined.

(** Pairings that fail: the statements of the device table and of the identity table
    that fail, and whether the connection takes the confirmation. *)
Definition toy_faulty (device_faults identity_faults : list bool) : client unit :=
  mkClient toy_device (sql.mkDb ∅ tt device_faults) (sql.mkDb (sessions.mkTables ∅ ∅ ∅) ∅ identity_faults)
    (lidmap.NewCachedLIDMap ∅ []) false 0 [] no_links [] [] tt.

Definition toy_failed (device_faults identity_faults : list bool) (up : bool) : client unit :=
  fst (handlePair (toy_connection up) toy_options [x09] "5" "biz" "android" toy_jid toy_lid (toy_faulty device_faults identity_faults)).

Lemma failed_pairing_undone_witness :
  (paired (toy_failed [] [] false) = true /\ undone toy_jid (toy_failed [] [] false)) /\
  (paired (toy_failed [] [true] true) = false /\ undone toy_jid (toy_failed [] [true] true)) /\
  (paired (toy_failed [false; true] [true] true) = false /\ left_behind toy_jid (toy_failed [false; true] [true] true)) /\
  (ID (Store (toy_failed [true] [] true)) = Some toy_jid /\ paired (toy_failed [true] [] true) = false).
Proof.
  split; [|split; [|split]].
  - apply (failed_pairing_undone (toy_connection false) toy_options [x09] "5" "biz" "android" toy_jid toy_lid (toy_faulty [] []) _ ErrSendFailed);
      [reflexivity|vm_compute; reflexivity].
  - apply (failed_pairing_undone toy_services toy_options [x09] "5" "biz" "android" toy_jid toy_lid (toy_faulty [] [true]) _ ErrPairIdentity);
      [reflexivity|vm_compute; reflexivity].
  - apply (failed_pairing_undone toy_services toy_options [x09] "5" "biz" "android" toy_jid toy_lid (toy_faulty [false; true] [true]) _ ErrPairIdentity);
      [reflexivity|vm_compute; reflexivity].
  - apply (failed_pairing_undone toy_services toy_options [x09] "5" "biz" "android" toy_jid toy_lid (toy_faulty [true] []) _ (ErrPairDatabase (ErrExec sql.ErrDatabase)));
      [reflexivity|vm_compute; reflexivity].
Defined.

(** The error of deleting is dropped: the device keeps its JID and its row, although
    the pairing has failed and was refused to the server. *)
Lemma failed_delete_kept :
  snd (handlePair toy_services toy_options [x09] "5" "biz" "android" toy_jid toy_lid (toy_faulty [false; true] [true])) = Err ErrPairIdentity /\
  ID (Store (toy_failed [false; true] [true] true)) = Some toy_jid /\
  is_Some (sql.rows (device_db (toy_failed [false; true] [true] true)) !! jid.String_ toy_jid).
Proof. split_and!; [vm_compute; reflexivity..|]. vm_compute. eauto. Qed.

Lemma code_letters_witness :
  DecodeString (EncodeToString [x01; xff; x80; x00; x7f]) = Some [x01; xff; x80; x00; x7f] /\ String.length (EncodeToString [x01; xff; x80; x00; x7f]) = 8%nat.
Proof. apply (code_letters [x01; xff; x80; x00; x7f]). reflexivity. Defined.

(** ** By a code *)

Definition toy_code_random : code_randomness := mkCodeRandom (replicate 32 x61) (replicate 32 x62) (replicate 16 x63) [].
Definition toy_bundle_random : bundle_randomness := mkBundleRandom (replicate 32 x64) (replicate 32 x65) (replicate 12 x66).

Definition toy_generated : KeyPair * bytes * string :=
  match generateCompanionEphemeralKey toy_services toy_code_random with Ok r => r | _ => (mkKP [] [], [], "") end.

Definition toy_waiting : client unit := fst (PairPhone toy_services "+1 (555) 123-4567" true PairClientChrome "Chrome (Linux)" toy_code_random toy_client).

Definition toy_wrapped : bytes :=
  match ctr (pbkdf2 toy_services (str_bytes "22222222") (replicate 32 x67)) (replicate 16 x68) (x25519_base primary_ephemeral) with
  | Ok enc => replicate 32 x67 ++ replicate 16 x68 ++ enc
  | _ => []
  end.

Definition toy_answer : Node :=
  mkNode "notification" [] (ANodes [mkNode "link_code_companion_reg" [] (ANodes
    [mkNode "link_code_pairing_ref" [] (ABytes [x51]);
     mkNode "link_code_pairing_wrapped_primary_ephemeral_pub" [] (ABytes toy_wrapped);
     mkNode "primary_identity_pub" [] (ABytes (x25519_base primary_identity))])]).

Definition toy_linked : client unit := fst (handleCodePairNotification toy_services toy_answer toy_bundle_random toy_waiting).

Definition shared (a b : bytes) : bytes := default [] (x25519 a b).

Lemma code_pairing_agrees_witness :
  let kp := fst (fst toy_generated) in
  let sh := shared primary_ephemeral (x25519_base (Priv kp)) in
  let ish := shared primary_identity (x25519_base (Priv (IdentityKey toy_device))) in
  ctr (pbkdf2 toy_services (str_bytes "22222222") (take 32 (snd (fst toy_generated)))) (take 16 (drop 32 (snd (fst toy_generated)))) (drop 48 (snd (fst toy_generated)))
    = Ok (x25519_base (Priv kp)) /\
  exists key ct secret w w' r,
    send_iq toy_services (companion_finish (NewJID "15551234567" DefaultUserServer) (br_salt toy_bundle_random ++ br_nonce toy_bundle_random ++ ct) (Store toy_waiting) [x51]) w = (w', Ok r) /\
    hkdf sh (br_salt toy_bundle_random) "link_code_pairing_key_bundle_encryption_key" = Ok key /\
    crypto.Decrypt key (br_nonce toy_bundle_random) ct [] = Ok (x25519_base (Priv (IdentityKey toy_device)) ++ x25519_base primary_identity ++ br_secret toy_bundle_random) /\
    hkdf (sh ++ ish ++ br_secret toy_bundle_random) [] "adv_secret" = Ok secret /\ AdvSecretKey (Store toy_linked) = secret.
Proof.
  apply (code_pairing_agrees toy_services toy_code_random toy_bundle_random (fst (fst toy_generated)) (snd (fst toy_generated)) "22222222"
    (mkPhone (NewJID "15551234567" DefaultUserServer) (fst (fst toy_generated)) "22222222" [x51]) toy_answer toy_waiting toy_linked
    primary_ephemeral primary_identity (replicate 32 x67) (replicate 16 x68) toy_wrapped (x25519_base primary_identity));
    try (vm_compute; reflexivity).
  - split; [reflexivity|reflexivity| |reflexivity]. eexists. split; vm_compute; reflexivity.
  - split; vm_compute; reflexivity.
Defined.

(** ** By a passkey *)

Definition passkey_waiting : client unit :=
  fst (SendPasskeyResponse toy_services toy_options (mkWebAuthn [x71] (Some [x72])) (replicate 32 x73) (replicate 32 x74) toy_client).

Definition continuation : Node :=
  mkNode "notification" [("from", AJID ServerJID)] (ANodes [mkNode "primary_ephemeral_identity" [] (ABytes [x75])]).

Definition passkey_shown : client unit := fst (handlePasskeyContinuationNotification toy_services continuation passkey_waiting).
Definition passkey_done : client unit := fst (SendPasskeyConfirmation toy_services (replicate 12 x76) passkey_shown).

Definition toy_passkey : passkeyLinkingCache := mkPasskey (NewKeyPair (replicate 32 x73)) (replicate 32 x74) [x52] 1 None.

Lemma passkey_agrees_witness :
  exists key req ct wrapped code w w' r,
    SHA256 (shared primary_ephemeral (x25519_base (Priv (pk_keyPair toy_passkey)))) (pairing_salt toy_passkey) (str_bytes "Pairing Information Encryption Key") 32 = Ok key /\
    marshal_request toy_services (Pub (NoiseKey (Store passkey_shown))) (Pub (IdentityKey (Store passkey_shown))) (AdvSecretKey (Store passkey_shown)) = Some req /\
    crypto.Decrypt key (replicate 12 x76) ct [] = Ok req /\ marshal_encrypted toy_services ct (replicate 12 x76) = Some wrapped /\
    send_iq toy_services (md_query "set" [mkNode "encrypted_pairing_request" [] (ABytes wrapped)]) w = (w', Ok r) /\
    DecodeString code = Some (confirmation_code (pk_companionNonce toy_passkey) (x25519_base primary_ephemeral) primary_nonce) /\
    dispatched passkey_shown = dispatched passkey_waiting ++ [EvPasskeyConfirmation (String.substring 0 4 code +:+ "-" +:+ String.substring 4 4 code) (skip_handoff (links passkey_waiting))] /\
    passkey_cache (links passkey_done) = None.
Proof.
  apply (passkey_agrees toy_services continuation (replicate 12 x76) toy_passkey (Priv (pk_keyPair toy_passkey)) primary_ephemeral primary_nonce
    (shared primary_ephemeral (x25519_base (Priv (pk_keyPair toy_passkey)))) passkey_waiting passkey_shown passkey_done); vm_compute; reflexivity.
Defined.

(** ** The device store *)

Lemma Save_GetDevice_witness :
  exists s' d', Save (Store toy_paired) (sql.mkDb ∅ tt []) = (s', d', Ok tt) /\ sql.works s' /\
    GetDevice toy_jid s' = (s', Ok (Some (initializeDevice (Store toy_paired)))) /\
    forall k, k <> jid.String_ toy_jid -> sql.rows s' !! k = (∅ : devices_table) !! k.
Proof.
  apply (Save_GetDevice (Store toy_paired) toy_jid (Sign (IdentityKey toy_device) (PreKeyPair (SignedPreKey toy_device)))
    (with_DeviceSignature (generateDeviceSignature toy_raw (IdentityKey toy_device)) toy_raw) (sql.mkDb ∅ tt [])).
  - split; try (vm_compute; reflexivity).
    + split; [vm_compute; reflexivity|]. split; [vm_compute; intuition congruence|reflexivity].
    + right. split; [vm_compute; intuition congruence|vm_compute; reflexivity].
  - reflexivity.
  - vm_compute. reflexivity.
Defined.

End pairing_witness.
