(* ===== verification/ReportingToken.v ===== *)
(** * reportingtoken.go: the content of reporting tokens

    The token of a message is a MAC over those of its fields that a table selects,
    cut out of its serialization by hand. A slice is its bytes and what its
    capacity has behind them; [sort.Slice] is a parameter, a sort that need not be
    stable. *)

From Stdlib Require Import Sorted.
From S2P Require Import Prelude GoStrings Jid Node Crypto MsgSecret.
From stdpp Require Import sorting.

#[local] Open Scope string_scope.
#[local] Open Scope list_scope.
#[local] Open Scope Z_scope.

Module reportingtoken.

Import jid attrs crypto.

Inductive reportingField := mkRF (FieldNumber : Z) (IsMessage : bool) (Subfields : list reportingField).

Definition FieldNumber (f : reportingField) : Z := match f with mkRF n _ _ => n end.
Definition IsMessage (f : reportingField) : bool := match f with mkRF _ m _ => m end.
Definition Subfields (f : reportingField) : list reportingField := match f with mkRF _ _ s => s end.

Fixpoint getConfigForField (fields : list reportingField) (fieldNum : Z) : option reportingField :=
  match fields with
  | [] => None
  | f :: fields => if FieldNumber f =? fieldNum then Some f else getConfigForField fields fieldNum
  end.

(** ** encoding/binary *)

Definition MaxVarintLen64 : nat := 10.

(** The value and the number of bytes read: 0 when there are too few, negative when
    the value overflows. *)
Fixpoint uvarint_from (buf : bytes) (i : nat) (x : Z) : Z * Z :=
  match buf with
  | [] => (0, 0)
  | b :: buf =>
      if (i =? MaxVarintLen64)%nat then (0, - (Z.of_nat i + 1))
      else if b2z b <? 128 then
        if (i =? 9)%nat && (1 <? b2z b) then (0, - (Z.of_nat i + 1))
        else (Z.lor x (Z.shiftl (b2z b) (7 * Z.of_nat i)), Z.of_nat i + 1)
      else uvarint_from buf (i + 1) (Z.lor x (Z.shiftl (Z.land (b2z b) 127) (7 * Z.of_nat i)))
  end.

Definition Uvarint (buf : bytes) : Z * Z := uvarint_from buf 0 0.

(** Ten bytes hold 64 bits. *)
Fixpoint put_uvarint (fuel : nat) (x : Z) : bytes :=
  match fuel with
  | O => []
  | Datatypes.S fuel => if x <? 128 then [z2b x] else z2b (Z.lor (Z.land x 127) 128) :: put_uvarint fuel (Z.shiftr x 7)
  end.

Definition PutUvarint (x : Z) : bytes := put_uvarint MaxVarintLen64 x.

(** A 64-bit number read as signed. *)
Definition s64 (z : Z) : Z := let z := z mod 2 ^ 64 in if z <? 2 ^ 63 then z else z - 2 ^ 64.

(** ** Slices *)

Record slice := mkSlice { contents : bytes; behind : bytes }.

(** [data[a:]] and [data[a:b]]; out of range is a panic. *)
Definition slice_from (s : slice) (a : Z) : outcome unit bytes :=
  if (a <? 0) || (blen (contents s) <? a) then Panic else Ok (zdrop a (contents s)).

Definition slice_between (s : slice) (a b : Z) : outcome unit slice :=
  let all := contents s ++ behind s in
  if (a <? 0) || (b <? a) || (blen all <? b) then Panic
  else Ok (mkSlice (ztake (b - a) (zdrop a all)) (zdrop b all)).

Record field := mkField { Num : Z; Bytes : bytes }.

Section extract.
Context {C : Crypto} (sort_fields : list field -> list field).

Definition wireVarint : Z := 0.
Definition wire64bit : Z := 1.
Definition wireBytes : Z := 2.
Definition wire32bit : Z := 5.

(** Sorted and concatenated. *)
Definition assemble (fields : list field) : bytes := concat (map Bytes (sort_fields fields)).

(** What follows a tag, with the index behind it: [again] goes on with the loop,
    [nested] extracts from a submessage. *)
Definition one_field (again : Z -> list field -> outcome unit bytes) (nested : slice -> list reportingField -> outcome unit bytes)
    (data : slice) (config : list reportingField) (fieldStart tag i : Z) (fields : list field) : outcome unit bytes :=
  let fieldNum := Z.shiftr tag 3 in
  let wireType := Z.land tag 7 in
  match getConfigForField config fieldNum with
  | None =>
      if wireType =? wireVarint then
        rest ← slice_from data i; again (i + snd (Uvarint rest)) fields
      else if wireType =? wire64bit then again (i + 8) fields
      else if wireType =? wireBytes then
        rest ← slice_from data i;
        let '(l, n) := Uvarint rest in
        again (s64 (i + (n + s64 l))) fields
      else if wireType =? wire32bit then again (i + 4) fields
      else Ok []
  | Some fieldCfg =>
      if wireType =? wireVarint then
        rest ← slice_from data i;
        let i := i + snd (Uvarint rest) in
        b ← slice_between data fieldStart i;
        again i (fields ++ [mkField fieldNum (contents b)])
      else if wireType =? wire64bit then
        let i := i + 8 in
        b ← slice_between data fieldStart i;
        again i (fields ++ [mkField fieldNum (contents b)])
      else if wireType =? wireBytes then
        rest ← slice_from data i;
        let '(l, n) := Uvarint rest in
        let valStart := i + n in
        let valEnd := s64 (valStart + s64 l) in
        if IsMessage fieldCfg || negb (length (Subfields fieldCfg) =? 0)%nat then
          v ← slice_between data valStart valEnd;
          sub ← nested v (Subfields fieldCfg);
          again valEnd
            (if (0 <? length sub)%nat then fields ++ [mkField fieldNum (PutUvarint tag ++ PutUvarint (blen sub) ++ sub)] else fields)
        else
          b ← slice_between data fieldStart valEnd;
          again valEnd (fields ++ [mkField fieldNum (contents b)])
      else if wireType =? wire32bit then
        let i := i + 4 in
        b ← slice_between data fieldStart i;
        again i (fields ++ [mkField fieldNum (contents b)])
      else Ok []
  end.

(** The loop, over the index [i]; what it has is assembled at its end. *)
Fixpoint extract_loop (fuel : nat) (data : slice) (config : list reportingField) (i : Z) (fields : list field) : outcome unit bytes :=
  match fuel with
  | O => NoFuel
  | Datatypes.S fuel =>
      if negb (i <? blen (contents data)) then Ok (assemble fields)
      else
        rest ← slice_from data i;
        let '(tag, tagLen) := Uvarint rest in
        if tagLen <=? 0 then Ok (assemble fields)
        else
          one_field (extract_loop fuel data config) (fun v c => extract_loop fuel v c 0 []) data config i tag (i + tagLen) fields
  end.

Definition extractReportingTokenContent (fuel : nat) (data : slice) (config : list reportingField) : outcome unit bytes :=
  extract_loop fuel data config 0 [].

(** One step for each byte is enough where the bytes are a message. *)
Definition getReportingToken (messageProtobuf : slice) (config : list reportingField) : outcome unit bytes :=
  extractReportingTokenContent (Datatypes.S (length (contents messageProtobuf))) messageProtobuf config.

Definition getMessageReportingToken (config : list reportingField) (msgProtobuf : slice) (messageSecret : bytes)
    (senderJID remoteJID : JID) (messageID : string) : outcome unit Node :=
  '(reportingSecret, _) ← msgsecret.generateMsgSecretKey msgsecret.EncSecretReportToken remoteJID messageID senderJID messageSecret;
  content ← getReportingToken msgProtobuf config;
  Ok (mkNode "reporting" []
    (ANodes [mkNode "reporting_token" [("v", AString "2")] (ABytes (take 16 (hmac_sha256 reportingSecret content)))])).

End extract.

(** ** Variable-length integers *)

Lemma low_byte x : 0 <= x -> b2z (z2b (Z.lor (Z.land x 127) 128)) = Z.land x 127 + 128.
Proof.
  intros Hx. change 127 with (Z.ones 7). rewrite Z.land_ones by lia.
  assert (0 <= x mod 2 ^ 7 < 128) as H by (apply Z.mod_pos_bound; lia).
  rewrite <- (Z.add_nocarry_lor).
  - apply b2z_z2b_small. lia.
  - apply Z.bits_inj'. intros n Hn. rewrite Z.land_spec, Z.bits_0. change 128 with (2 ^ 7).
    destruct (decide (n = 7)) as [->|]; [rewrite Z.mod_pow2_bits_high by lia; done|].
    rewrite Z.pow2_bits_false by lia. apply andb_false_r.
Qed.

Lemma high_land r : 0 <= r < 128 -> Z.land (r + 128) 127 = r.
Proof. intros H. change 127 with (Z.ones 7). rewrite Z.land_ones by lia. change (r + 128) with (r + 1 * 2 ^ 7). rewrite Z.mod_add by lia. apply Z.mod_small. lia. Qed.

Lemma lor_split acc x s : 0 <= s -> 0 <= x ->
  Z.lor (Z.lor acc (Z.shiftl (Z.land x 127) s)) (Z.shiftl (Z.shiftr x 7) (s + 7)) = Z.lor acc (Z.shiftl x s).
Proof.
  intros Hs Hx. rewrite <- Z.lor_assoc. f_equal. apply Z.bits_inj'. intros n Hn. change 127 with (Z.ones 7).
  rewrite Z.lor_spec, !Z.shiftl_spec, Z.land_spec by lia.
  destruct (decide (n < s)) as [|Hge].
  { rewrite !(Z.testbit_neg_r _ (n - s)), (Z.testbit_neg_r _ (n - (s + 7))) by lia. done. }
  destruct (decide (n < s + 7)).
  - rewrite (Z.testbit_neg_r _ (n - (s + 7))), Z.ones_spec_low, andb_true_r, orb_false_r by lia. done.
  - rewrite Z.ones_spec_high, andb_false_r, Z.shiftr_spec by lia. cbn. f_equal. lia.
Qed.

Lemma uvarint_put k : forall i x acc rest, (i + k = 10)%nat -> (0 < k)%nat -> 0 <= x < 2 ^ (64 - 7 * Z.of_nat i) ->
  uvarint_from (put_uvarint k x ++ rest) i acc
  = (Z.lor acc (Z.shiftl x (7 * Z.of_nat i)), Z.of_nat i + blen (put_uvarint k x)).
Proof.
  induction k as [|k IH]; intros i x acc rest Hik Hk Hx; [lia|]. cbn [put_uvarint].
  assert ((i =? MaxVarintLen64)%nat = false) as Hi by (apply Nat.eqb_neq; unfold MaxVarintLen64; lia).
  destruct (Z.ltb_spec x 128) as [Hlt|Hge].
  - cbn [app uvarint_from]. rewrite Hi, b2z_z2b_small by lia. rewrite (proj2 (Z.ltb_lt x 128)) by done.
    destruct ((i =? 9)%nat && (1 <? x)) eqn:E; [|done]. apply andb_true_iff in E as [E1 E2]. apply Nat.eqb_eq in E1 as ->.
    change (64 - 7 * Z.of_nat 9) with 1 in Hx. lia.
  - assert ((0 < k)%nat) as Hk0.
    { destruct k; [|lia]. replace i with 9%nat in Hx by lia. change (64 - 7 * Z.of_nat 9) with 1 in Hx. lia. }
    cbn [app uvarint_from]. rewrite Hi, low_byte by lia.
    assert (0 <= Z.land x 127 < 128) as Hr by (change 127 with (Z.ones 7); rewrite Z.land_ones by lia; apply Z.mod_pos_bound; lia).
    rewrite (proj2 (Z.ltb_ge _ 128)) by lia. rewrite high_land by done.
    assert (0 <= Z.shiftr x 7 < 2 ^ (64 - 7 * Z.of_nat (i + 1))) as Hx'.
    { rewrite Z.shiftr_div_pow2 by lia. replace (64 - 7 * Z.of_nat i) with (7 + (64 - 7 * Z.of_nat (i + 1))) in Hx by lia.
      rewrite Z.pow_add_r in Hx by lia. split; [apply Z.div_pos; lia|apply Z.div_lt_upper_bound; lia]. }
    rewrite IH by (done || lia). rewrite blen_cons. f_equal; [|lia].
    replace (7 * Z.of_nat (i + 1)) with (7 * Z.of_nat i + 7) by lia. apply lor_split; lia.
Qed.

Lemma Uvarint_PutUvarint x rest : 0 <= x < 2 ^ 64 -> Uvarint (PutUvarint x ++ rest) = (x, blen (PutUvarint x)).
Proof.
  intros H. unfold Uvarint, PutUvarint. rewrite uvarint_put; [|reflexivity|repeat constructor|exact H].
  rewrite Z.lor_0_l. change (7 * Z.of_nat 0) with 0. by rewrite Z.shiftl_0_r.
Qed.

Lemma PutUvarint_length x : 1 <= blen (PutUvarint x) <= 10.
Proof.
  unfold PutUvarint. change MaxVarintLen64 with 10%nat.
  assert (forall k x, (0 < k)%nat -> 1 <= blen (put_uvarint k x) <= Z.of_nat k) as H; [|apply (H 10%nat); lia].
  induction k as [|k IH]; intros y Hk; [lia|]. cbn [put_uvarint]. destruct (y <? 128); [unfold blen; cbn [length]; lia|]. rewrite blen_cons.
  destruct k; [unfold blen; cbn [put_uvarint length]; lia|]. specialize (IH (Z.shiftr y 7) ltac:(lia)). lia.
Qed.
(** ** Messages as trees, and what is selected *)

(** A field of a message; the bytes of a submessage are its fields. *)
Inductive pfield :=
  | PVarint (num v : Z)
  | PFix64 (num : Z) (b : bytes)
  | PBytes (num : Z) (b : bytes)
  | PMessage (num : Z) (l : list pfield)
  | PFix32 (num : Z) (b : bytes).

Definition number (f : pfield) : Z :=
  match f with PVarint n _ | PFix64 n _ | PBytes n _ | PMessage n _ | PFix32 n _ => n end.

Section pfield_ind.
Context (P : pfield -> Prop) (HV : forall n v, P (PVarint n v)) (H64 : forall n b, P (PFix64 n b)) (HB : forall n b, P (PBytes n b))
  (HM : forall n l, Forall P l -> P (PMessage n l)) (H32 : forall n b, P (PFix32 n b)).

Fixpoint pfield_nested (f : pfield) : P f :=
  match f with
  | PVarint n v => HV n v
  | PFix64 n b => H64 n b
  | PBytes n b => HB n b
  | PMessage n l => HM n l ((fix go l : Forall P l := match l with [] => List.Forall_nil P | f :: l => @List.Forall_cons _ P f l (pfield_nested f) (go l) end) l)
  | PFix32 n b => H32 n b
  end.
End pfield_ind.

(** The serialization, tag by tag. *)
Fixpoint serialize (f : pfield) : bytes :=
  match f with
  | PVarint n v => PutUvarint (n * 8) ++ PutUvarint v
  | PFix64 n b => PutUvarint (n * 8 + 1) ++ b
  | PBytes n b => PutUvarint (n * 8 + 2) ++ PutUvarint (blen b) ++ b
  | PMessage n l => let b := flat_map serialize l in PutUvarint (n * 8 + 2) ++ PutUvarint (blen b) ++ b
  | PFix32 n b => PutUvarint (n * 8 + 5) ++ b
  end.

Definition is_message (c : reportingField) : bool := IsMessage c || negb (length (Subfields c) =? 0)%nat.

(** The part of a field that the table selects: a submessage is cut down in turn,
    and dropped when nothing of it is left. *)
Fixpoint select (config : list reportingField) (f : pfield) {struct f} : option pfield :=
  match getConfigForField config (number f) with
  | None => None
  | Some c =>
      match f with
      | PMessage n l =>
          if is_message c then
            match (fix go l := match l with [] => [] | f :: l => match select (Subfields c) f with Some g => g :: go l | None => go l end end) l with
            | [] => None
            | l' => Some (PMessage n l')
            end
          else Some f
      | _ => Some f
      end
  end.

Definition select_all (config : list reportingField) (l : list pfield) : list pfield := omap (select config) l.

Lemma select_message config n l : select config (PMessage n l) =
  match getConfigForField config n with
  | None => None
  | Some c => if is_message c then match select_all (Subfields c) l with [] => None | l' => Some (PMessage n l') end else Some (PMessage n l)
  end.
Proof.
  cbn [select number]. destruct (getConfigForField config n) as [c|]; [|done]. destruct (is_message c); [|done].
  enough ((fix go l := match l with [] => [] | f :: l => match select (Subfields c) f with Some g => g :: go l | None => go l end end) l
    = select_all (Subfields c) l) as -> by done.
  unfold select_all. induction l as [|f l IH]; [done|]. cbn [omap list_omap]. rewrite IH. by destruct (select _ f).
Qed.

(** What a serializer writes: field numbers of their range, values and lengths of
    theirs, and a submessage where the table has one. Fields may repeat, and come in
    any order. *)
Fixpoint proper (config : list reportingField) (f : pfield) : Prop :=
  0 < number f < 2 ^ 29 /\
  match f with
  | PVarint _ v => 0 <= v < 2 ^ 64
  | PFix64 _ b => blen b = 8
  | PFix32 _ b => blen b = 4
  | PBytes _ b => match getConfigForField config (number f) with Some c => is_message c = false | None => True end
  | PMessage _ l =>
      let sub := match getConfigForField config (number f) with Some c => Subfields c | None => [] end in
      (fix go l := match l with [] => True | f :: l => proper sub f /\ go l end) l
  end.

Lemma proper_message config n l : proper config (PMessage n l) ->
  0 < n < 2 ^ 29 /\ Forall (proper (match getConfigForField config n with Some c => Subfields c | None => [] end)) l.
Proof.
  cbn [proper number]. intros (Hn & Hl). split; [done|]. revert Hl.
  generalize (match getConfigForField config n with Some c => Subfields c | None => [] end). intros sub.
  induction l as [|f l IH]; intros H; [constructor|]. destruct H. constructor; auto.
Qed.

(** What may be left of a field: nothing when the table does not select it, the field
    as it is, or a submessage cut down in turn. What is left of a list of fields is
    put in the order of their numbers; where a number repeats, the order is open. *)
Inductive cut : list reportingField -> pfield -> option pfield -> Prop :=
  | cut_out config f : getConfigForField config (number f) = None -> cut config f None
  | cut_whole config f c : getConfigForField config (number f) = Some c ->
      match f with PMessage _ _ => is_message c = false | _ => True end -> cut config f (Some f)
  | cut_down config n l c l' : getConfigForField config n = Some c -> is_message c = true -> cut_all (Subfields c) l l' ->
      cut config (PMessage n l) (match l' with [] => None | _ => Some (PMessage n l') end)
with cut_all : list reportingField -> list pfield -> list pfield -> Prop :=
  | cut_fields config l os l' : Forall2 (cut config) l os -> Permutation l' (omap id os) ->
      StronglySorted (fun f g => number f <= number g) l' -> cut_all config l l'.

(** Fields whose numbers go up, strictly or not, at every level. *)
Fixpoint ordered (R : Z -> Z -> Prop) (f : pfield) : Prop :=
  match f with
  | PMessage _ l => (fix go l := match l with [] => True | f :: l => (ordered R f /\ Forall (fun g => R (number f) (number g)) l) /\ go l end) l
  | _ => True
  end.

Definition ordered_all (R : Z -> Z -> Prop) (l : list pfield) : Prop :=
  Forall (ordered R) l /\ StronglySorted (fun f g => R (number f) (number g)) l.

Lemma ordered_message R n l : ordered R (PMessage n l) -> ordered_all R l.
Proof.
  cbn [ordered]. induction l as [|f l IH]; [repeat constructor|]. intros [[Hf Hall] H]. destruct (IH H) as [H1 H2].
  split; constructor; done.
Qed.

Definition serialize_all (l : list pfield) : bytes := flat_map serialize l.

Definition as_field (g : pfield) : field := mkField (number g) (serialize g).

(** What the loop collects for a field. *)
Definition collect (o : option pfield) : list field := match o with Some g => [as_field g] | None => [] end.

Lemma select_number config f g : select config f = Some g -> number g = number f.
Proof.
  destruct f as [n v|n b|n b|n l|n b]; try (cbn [select]; destruct (getConfigForField config _); [by intros [= <-]|done]).
  rewrite select_message. destruct (getConfigForField config n) as [c|]; [|done]. destruct (is_message c); [|by intros [= <-]].
  destruct (select_all _ l); [done|]. by intros [= <-].
Qed.

Lemma serialize_nonempty f : 1 <= blen (serialize f).
Proof.
  destruct f as [n v|n b|n b|n l|n b]; cbn [serialize]; rewrite !blen_app; match goal with |- context [PutUvarint ?x] => pose proof (PutUvarint_length x) end;
    repeat match goal with |- context [blen ?x] => lazymatch goal with _ : 0 <= blen x |- _ => fail | _ => pose proof (blen_nonneg x) end end; lia.
Qed.
(** ** Equivalence *)

Section equivalence.
Context (sort_fields : list field -> list field).
Context (sort_permutes : forall l, Permutation (sort_fields l) l)
        (sort_sorts : forall l, StronglySorted (fun f g => Num f <= Num g) (sort_fields l)).

#[local] Notation extract_loop := (extract_loop sort_fields).
#[local] Notation assemble := (assemble sort_fields).

Lemma slice_from_app pre rest bh : slice_from (mkSlice (pre ++ rest) bh) (blen pre) = Ok rest.
Proof.
  unfold slice_from. cbn [contents]. pose proof (blen_nonneg pre). rewrite blen_app. pose proof (blen_nonneg rest).
  rewrite (proj2 (Z.ltb_ge _ 0)), (proj2 (Z.ltb_ge _ (blen pre))) by lia. by rewrite zdrop_app.
Qed.

Lemma slice_between_app pre mid post bh :
  slice_between (mkSlice (pre ++ mid ++ post) bh) (blen pre) (blen pre + blen mid) = Ok (mkSlice mid (post ++ bh)).
Proof.
  unfold slice_between. cbn [contents behind]. pose proof (blen_nonneg pre). pose proof (blen_nonneg mid).
  pose proof (blen_nonneg post). pose proof (blen_nonneg bh). rewrite <- !app_assoc, !blen_app.
  rewrite (proj2 (Z.ltb_ge (blen pre) 0)), (proj2 (Z.ltb_ge (blen pre + blen mid) _)), (proj2 (Z.ltb_ge (_ + _) (blen pre + blen mid))) by lia.
  cbn [orb]. rewrite zdrop_app. replace (blen pre + blen mid - blen pre) with (blen mid) by lia. rewrite ztake_app. do 2 f_equal.
  rewrite app_assoc. rewrite <- blen_app. apply zdrop_app.
Qed.

(** Reading a tag. *)
Lemma loop_tag fuel n w pre body bh config acc : 0 < n < 2 ^ 29 -> 0 <= w < 8 ->
  let data := mkSlice (pre ++ PutUvarint (n * 8 + w) ++ body) bh in
  extract_loop (Datatypes.S fuel) data config (blen pre) acc
  = one_field (extract_loop fuel data config) (fun v c => extract_loop fuel v c 0 []) data config (blen pre) (n * 8 + w)
      (blen (pre ++ PutUvarint (n * 8 + w))) acc.
Proof.
  intros Hn Hw data. subst data. cbn [reportingtoken.extract_loop contents].
  pose proof (PutUvarint_length (n * 8 + w)). pose proof (blen_nonneg body). rewrite !blen_app.
  rewrite (proj2 (Z.ltb_lt _ _)) by lia. cbn [negb]. rewrite slice_from_app, bind_Ok, Uvarint_PutUvarint by lia.
  by rewrite (proj2 (Z.leb_gt _ 0)) by lia.
Qed.

Lemma tag_number n w : 0 <= n -> 0 <= w < 8 -> Z.shiftr (n * 8 + w) 3 = n /\ Z.land (n * 8 + w) 7 = w.
Proof.
  intros Hn Hw. split.
  - rewrite Z.shiftr_div_pow2 by lia. change (2 ^ 3) with 8. rewrite Z.div_add_l, Z.div_small by lia. lia.
  - change 7 with (Z.ones 3). rewrite Z.land_ones by lia. change (2 ^ 3) with 8. rewrite Z.add_comm, Z.mod_add by lia. by apply Z.mod_small.
Qed.

Lemma s64_small z : 0 <= z < 2 ^ 63 -> s64 z = z.
Proof. intros H. unfold s64. rewrite Z.mod_small by lia. by rewrite (proj2 (Z.ltb_lt _ _)) by lia. Qed.

(** One turn of the loop takes one field off what is left. *)
Definition turn (config : list reportingField) (f : pfield) (o : option pfield) : Prop := forall fuel pre post bh acc,
  blen (pre ++ serialize f ++ post) < 2 ^ 62 -> (length (serialize f) <= fuel)%nat ->
  let data := mkSlice (pre ++ serialize f ++ post) bh in
  extract_loop (Datatypes.S fuel) data config (blen pre) acc
  = extract_loop fuel data config (blen (pre ++ serialize f)) (acc ++ collect o).

(** The slices around a field that starts with its tag. *)
Lemma around pre T b post bh : let data := mkSlice (pre ++ (T ++ b) ++ post) bh in let i := blen (pre ++ T) in
  slice_from data i = Ok (b ++ post) /\ slice_between data (blen pre) (i + blen b) = Ok (mkSlice (T ++ b) (post ++ bh)) /\
  blen (pre ++ T ++ b) = i + blen b.
Proof.
  cbv zeta. split_and!.
  - rewrite <- app_assoc, (app_assoc pre). apply slice_from_app.
  - rewrite <- (slice_between_app pre (T ++ b) post bh). f_equal. rewrite !blen_app. lia.
  - rewrite !blen_app. lia.
Qed.

Lemma turn_of config n w b f o : 0 < n < 2 ^ 29 -> 0 <= w < 8 -> serialize f = PutUvarint (n * 8 + w) ++ b ->
  (forall fuel pre post bh acc, blen (pre ++ serialize f ++ post) < 2 ^ 62 -> (length b < fuel)%nat ->
     let data := mkSlice (pre ++ (PutUvarint (n * 8 + w) ++ b) ++ post) bh in
     let i := blen (pre ++ PutUvarint (n * 8 + w)) in
     one_field (extract_loop fuel data config) (fun v c => extract_loop fuel v c 0 []) data config (blen pre) (n * 8 + w) i acc
     = extract_loop fuel data config (i + blen b) (acc ++ collect o)) -> turn config f o.
Proof.
  intros Hn Hw Hser H fuel pre post bh acc Hlen Hfuel data. subst data. rewrite Hser in *.
  destruct (around pre (PutUvarint (n * 8 + w)) b post bh) as (_ & _ & ->). rewrite <- H; [|exact Hlen|].
  - rewrite <- app_assoc. by apply loop_tag.
  - rewrite length_app in Hfuel. pose proof (PutUvarint_length (n * 8 + w)) as Hl. unfold blen in Hl. lia.
Qed.

Lemma turn_varint config n v : proper config (PVarint n v) -> turn config (PVarint n v) (select config (PVarint n v)).
Proof.
  intros (Hn & Hv). cbn [number] in Hn. apply (turn_of config n 0 (PutUvarint v)); [done|lia|cbn [serialize]; by rewrite Z.add_0_r|].
  intros fuel pre post bh acc _ _ data i. destruct (around pre (PutUvarint (n * 8 + 0)) (PutUvarint v) post bh) as (F1 & F2 & _).
  fold data i in F1, F2. unfold one_field. destruct (tag_number n 0 ltac:(lia) ltac:(lia)) as [-> ->].
  cbn [select number]. change (0 =? wireVarint) with true. cbv iota.
  destruct (getConfigForField config n) as [c|]; cbn [collect]; rewrite F1, bind_Ok, Uvarint_PutUvarint by done; cbn [snd]; [|by rewrite app_nil_r].
  rewrite F2, bind_Ok. unfold as_field. cbn [contents serialize number]. by rewrite Z.add_0_r.
Qed.

Lemma turn_fix64 config n b : proper config (PFix64 n b) -> turn config (PFix64 n b) (select config (PFix64 n b)).
Proof.
  intros (Hn & Hb). cbn [number] in Hn. apply (turn_of config n 1 b); [done|lia|done|].
  intros fuel pre post bh acc _ _ data i. destruct (around pre (PutUvarint (n * 8 + 1)) b post bh) as (_ & F2 & _).
  fold data i in F2. rewrite Hb in F2 |- *. unfold one_field. destruct (tag_number n 1 ltac:(lia) ltac:(lia)) as [-> ->].
  cbn [select number]. change (1 =? wireVarint) with false. change (1 =? wire64bit) with true. cbv iota.
  destruct (getConfigForField config n) as [c|]; cbn [collect]; [|by rewrite app_nil_r]. by rewrite F2, bind_Ok.
Qed.

Lemma turn_fix32 config n b : proper config (PFix32 n b) -> turn config (PFix32 n b) (select config (PFix32 n b)).
Proof.
  intros (Hn & Hb). cbn [number] in Hn. apply (turn_of config n 5 b); [done|lia|done|].
  intros fuel pre post bh acc _ _ data i. destruct (around pre (PutUvarint (n * 8 + 5)) b post bh) as (_ & F2 & _).
  fold data i in F2. rewrite Hb in F2 |- *. unfold one_field. destruct (tag_number n 5 ltac:(lia) ltac:(lia)) as [-> ->].
  cbn [select number]. change (5 =? wireVarint) with false. change (5 =? wire64bit) with false.
  change (5 =? wireBytes) with false. change (5 =? wire32bit) with true. cbv iota.
  destruct (getConfigForField config n) as [c|]; cbn [collect]; [|by rewrite app_nil_r]. by rewrite F2, bind_Ok.
Qed.

(** A length and the bytes it announces. *)
Lemma length_read b post : blen b < 2 ^ 62 -> Uvarint ((PutUvarint (blen b) ++ b) ++ post) = (blen b, blen (PutUvarint (blen b))).
Proof. intros H. rewrite <- app_assoc. apply Uvarint_PutUvarint. pose proof (blen_nonneg b). lia. Qed.

(** The value of a field with a length, whole or cut down. *)
Lemma turn_bytes config n b f o : 0 < n < 2 ^ 29 -> serialize f = PutUvarint (n * 8 + 2) ++ PutUvarint (blen b) ++ b ->
  match getConfigForField config n with
  | None => collect o = []
  | Some c =>
      if is_message c then
        blen b < 2 ^ 62 -> forall fuel bh, (length b < fuel)%nat -> exists sub, extract_loop fuel (mkSlice b bh) (Subfields c) 0 [] = Ok sub /\
          collect o = if (0 <? length sub)%nat then [mkField n (PutUvarint (n * 8 + 2) ++ PutUvarint (blen sub) ++ sub)] else []
      else collect o = [mkField n (serialize f)]
  end -> turn config f o.
Proof.
  intros Hn Hser Hcol. apply (turn_of config n 2 (PutUvarint (blen b) ++ b)); [done|lia|done|].
  intros fuel pre post bh acc Hlen Hfuel data i. destruct (around pre (PutUvarint (n * 8 + 2)) (PutUvarint (blen b) ++ b) post bh) as (F1 & F2 & F3).
  fold data i in F1, F2. rewrite Hser, !blen_app in Hlen. fold i in F3.
  pose proof (blen_nonneg pre). pose proof (blen_nonneg b). pose proof (blen_nonneg post).
  pose proof (PutUvarint_length (n * 8 + 2)) as HT. pose proof (PutUvarint_length (blen b)) as HL.
  assert (i = blen pre + blen (PutUvarint (n * 8 + 2))) as Hi by apply blen_app.
  unfold one_field. destruct (tag_number n 2 ltac:(lia) ltac:(lia)) as [-> ->].
  change (2 =? wireVarint) with false. change (2 =? wire64bit) with false. change (2 =? wireBytes) with true. cbv iota.
  rewrite !blen_app. destruct (getConfigForField config n) as [c|]; rewrite F1, bind_Ok, length_read, (s64_small (blen b)) by lia.
  2:{ rewrite s64_small by lia. by rewrite Hcol, app_nil_r. }
  rewrite s64_small by lia. fold (is_message c). rewrite <- Z.add_assoc. destruct (is_message c).
  - assert (slice_between data (i + blen (PutUvarint (blen b))) (i + (blen (PutUvarint (blen b)) + blen b)) = Ok (mkSlice b (post ++ bh))) as F4.
    { rewrite <- (slice_between_app (pre ++ PutUvarint (n * 8 + 2) ++ PutUvarint (blen b)) b post bh). unfold data. f_equal.
      - by rewrite <- !app_assoc.
      - rewrite !blen_app. lia.
      - rewrite !blen_app. lia. }
    rewrite F4, bind_Ok. destruct (Hcol ltac:(lia) fuel (post ++ bh)) as (sub & -> & ->); [rewrite length_app in Hfuel; lia|].
    rewrite bind_Ok. f_equal. by destruct (0 <? length sub)%nat; [|rewrite app_nil_r].
  - rewrite blen_app in F2. rewrite F2, bind_Ok, Hcol. cbn [contents]. by rewrite Hser.
Qed.
Lemma loop_all config l os : Forall2 (turn config) l os -> forall fuel pre bh acc,
  blen (pre ++ serialize_all l) < 2 ^ 62 -> (length (serialize_all l) < fuel)%nat ->
  extract_loop fuel (mkSlice (pre ++ serialize_all l) bh) config (blen pre) acc = Ok (assemble (acc ++ flat_map collect os)).
Proof.
  induction 1 as [|f o l os Hf _ IH]; intros fuel pre bh acc Hlen Hfuel; (destruct fuel as [|fuel]; [lia|]).
  - cbn [reportingtoken.extract_loop contents serialize_all flat_map]. by rewrite !app_nil_r, Z.ltb_irrefl.
  - unfold serialize_all in *. cbn [flat_map] in *. rewrite length_app in Hfuel. pose proof (serialize_nonempty f) as Hne. unfold blen in Hne.
    rewrite Hf by (done || lia). rewrite (app_assoc pre), (app_assoc acc). apply IH; [by rewrite <- app_assoc|lia].
Qed.

Lemma sort_strict l : StronglySorted (fun f g => Num f < Num g) l -> sort_fields l = l.
Proof.
  intros Hs. apply (StronglySorted_unique_strong (fun f g => Num f <= Num g)); [|apply sort_sorts| |apply sort_permutes].
  - intros x y Hx Hy Hxy Hyx. rewrite sort_permutes in Hx. clear sort_permutes sort_sorts.
    induction Hs as [|z l _ IH Hz]; [by apply elem_of_nil in Hx|]. rewrite Forall_forall in Hz.
    apply elem_of_cons in Hx as [->|Hx], Hy as [->|Hy]; [done| | |by apply IH].
    + specialize (Hz _ Hy). lia.
    + specialize (Hz _ Hx). lia.
  - clear sort_permutes sort_sorts. induction Hs as [|z l _ IH Hz]; constructor; [done|]. eapply Forall_impl; [exact Hz|]. cbn. lia.
Qed.

#[local] Instance field_eq_dec : EqDecision field.
Proof. solve_decision. Defined.

Lemma collect_all os : flat_map collect os = map as_field (omap id os).
Proof. induction os as [|[g|] os IH]; [done|..]; cbn [flat_map collect omap list_omap id]; [by rewrite IH|done]. Qed.

Lemma serialize_fields l : concat (map Bytes (map as_field l)) = serialize_all l.
Proof. unfold serialize_all. induction l as [|f l IH]; [done|]. cbn [map concat flat_map]. by rewrite IH. Qed.

(** What is assembled is the fields in an order of their numbers, and the fields as
    they are when the sort leaves them alone. *)
Lemma assemble_arranged os : exists l', assemble (flat_map collect os) = serialize_all l' /\ Permutation l' (omap id os) /\
  StronglySorted (fun f g => number f <= number g) l' /\ (sort_fields (map as_field (omap id os)) = map as_field (omap id os) -> l' = omap id os).
Proof.
  rewrite collect_all. unfold reportingtoken.assemble. set (k := omap id os). clearbody k.
  assert (forall l, StronglySorted (fun f g => Num f <= Num g) (map as_field l) -> StronglySorted (fun f g => number f <= number g) l) as Hnum.
  { induction l as [|f l IH]; intros H; [constructor|]. inversion H as [|? ? H1 H2]; subst. constructor; [auto|].
    rewrite Forall_map in H2. eapply Forall_impl; [exact H2|]. done. }
  destruct (decide (sort_fields (map as_field k) = map as_field k)) as [E|E].
  - exists k. rewrite E, serialize_fields. split_and!; try done. apply Hnum. rewrite <- E. apply sort_sorts.
  - destruct (Permutation_map_inv _ _ (sort_permutes (map as_field k))) as (l' & El & Hp). exists l'. rewrite El, serialize_fields.
    split_and!; [done|by symmetry|apply Hnum; rewrite <- El; apply sort_sorts|by rewrite <- El].
Qed.

(** A sort that leaves alone what is sorted. *)
Definition stable : Prop := forall l, StronglySorted (fun f g => Num f <= Num g) l -> sort_fields l = l.

(** Orders the sort cannot change: strict ones, and for such a sort all. *)
Definition settled (P : (Z -> Z -> Prop) -> Prop) : Prop := P Z.lt \/ stable /\ P Z.le.

Lemma selected_sorted R config l : ordered_all R l -> StronglySorted (fun f g => R (Num f) (Num g)) (map as_field (select_all config l)).
Proof.
  intros [_ H]. unfold select_all. induction H as [|f l _ IH Hall]; [constructor|]. cbn [omap list_omap].
  destruct (select config f) as [g|] eqn:E; [|done]. cbn [map]. constructor; [done|]. apply Forall_forall. intros x Hx.
  apply list_elem_of_fmap in Hx as (h & -> & Hh). apply list_elem_of_omap in Hh as (f' & Hf' & Eh).
  rewrite Forall_forall in Hall. specialize (Hall _ Hf'). cbn. by rewrite (select_number _ _ _ E), (select_number _ _ _ Eh).
Qed.

Lemma settled_fixed config l : settled (fun R => ordered_all R l) ->
  sort_fields (map as_field (select_all config l)) = map as_field (select_all config l).
Proof. intros [H|[Hs H]]; [apply sort_strict|apply Hs]; by apply (selected_sorted _ config) in H. Qed.

(** What a turn cuts a field down to. *)
Definition turns (config : list reportingField) (f : pfield) (o : option pfield) : Prop :=
  turn config f o /\ cut config f o /\ (settled (fun R => ordered R f) -> o = select config f).

(** The turns of the fields of a message. *)
Lemma turns_all config l : Forall (fun f => exists o, turns config f o) l ->
  exists os l', Forall2 (turn config) l os /\ assemble (flat_map collect os) = serialize_all l' /\ cut_all config l l' /\
    (settled (fun R => ordered_all R l) -> l' = select_all config l).
Proof.
  intros H. apply Forall_exists_Forall2_l in H as [os H]. exists os. destruct (assemble_arranged os) as (l' & E1 & E2 & E3 & E4).
  exists l'. split_and!; [|done| |].
  - eapply Forall2_impl; [exact H|]. by intros f o (? & _).
  - econstructor; [|done|done]. eapply Forall2_impl; [exact H|]. by intros f o (_ & ? & _).
  - intros Hs. assert (omap id os = select_all config l) as Eo; [|rewrite <- Eo; apply E4; rewrite Eo; by apply settled_fixed].
    assert (Forall (fun f => settled (fun R => ordered R f)) l) as Hl.
    { destruct Hs as [[Hs _]|[? [Hs _]]]; (eapply Forall_impl; [exact Hs|]); intros f Hf; [by left|by right]. }
    clear E1 E2 E3 E4 Hs l'. unfold select_all. induction H as [|f o l os (_ & _ & Ho) _ IH]; [done|]. inversion Hl; subst.
    rewrite Ho by done. cbn [omap list_omap]. destruct (select config f); cbn [id]; by rewrite IH.
Qed.

Lemma serialize_all_empty l : length (serialize_all l) = 0%nat -> l = [].
Proof.
  destruct l as [|f l]; [done|]. unfold serialize_all. cbn [flat_map]. rewrite length_app. pose proof (serialize_nonempty f) as H. unfold blen in H. lia.
Qed.

Lemma proper_turns f : forall config, proper config f -> exists o, turns config f o.
Proof.
  assert (forall config g, match g with PMessage _ _ => False | _ => True end -> turn config g (select config g) -> exists o, turns config g o) as Hflat.
  { intros config g Hg Ht. exists (select config g). split; [done|]. split; [|done].
    destruct g; try done; cbn [select]; destruct (getConfigForField config _) eqn:E; by econstructor. }
  induction f as [n v|n b|n b|n l IH|n b] using pfield_nested; intros config Hp.
  - by apply Hflat, turn_varint.
  - by apply Hflat, turn_fix64.
  - apply Hflat; [done|]. destruct Hp as [Hn Hp]. cbn [number] in Hn, Hp. apply (turn_bytes config n b); [done|done|]. cbn [select number].
    destruct (getConfigForField config n) as [c|]; [|done]. by rewrite Hp.
  - pose proof Hp as Hp'. apply proper_message in Hp as [Hn Hall].
    destruct (getConfigForField config n) as [c|] eqn:E; [destruct (is_message c) eqn:Em|].
    2:{ exists (Some (PMessage n l)). split; [|split]; [|by econstructor|intros _; by rewrite select_message, E, Em].
        apply (turn_bytes config n (serialize_all l)); [done|done|]. by rewrite E, Em. }
    2:{ exists None. split; [|split]; [|by constructor|intros _; by rewrite select_message, E].
        apply (turn_bytes config n (serialize_all l)); [done|done|]. by rewrite E. }
    destruct (turns_all (Subfields c) l) as (os & l' & H1 & H2 & H3 & H4).
    { rewrite Forall_forall in IH, Hall |- *. intros f Hf. by apply IH, Hall. }
    exists (match l' with [] => None | _ => Some (PMessage n l') end). split; [|split].
    + apply (turn_bytes config n (serialize_all l)); [done|done|]. rewrite E, Em. intros Hlen fuel bh Hfuel. exists (serialize_all l'). split.
      * rewrite <- H2, <- (app_nil_l (flat_map _ os)). rewrite <- (app_nil_l (serialize_all l)) at 1. by apply loop_all.
      * destruct l' as [|g k]; [done|]. destruct (0 <? length (serialize_all (g :: k)))%nat eqn:El; [done|].
        apply Nat.ltb_ge in El. assert (length (serialize_all (g :: k)) = 0%nat) as H0 by lia. by apply serialize_all_empty in H0.
    + by apply (cut_down config n l c l').
    + intros Hs. rewrite select_message, E, Em, <- H4; [by destruct l'|]. destruct Hs as [Hs|[? Hs]]; apply ordered_message in Hs; [by left|by right].
  - by apply Hflat, turn_fix32.
Qed.

(** (C36) The content of a reporting token is the selected part of the message: for
    every message, its fields repeated and in any order, cutting the bytes up by hand
    ends within as many steps as there are bytes, and gives the serialization of the
    message from which the fields that the table does not select have been taken out
    at every level, the others put in the order of their numbers. Where no field
    repeats and they are in order already, this is exactly the selected part; with a
    sort that leaves sorted fields alone it is so with repeated fields as well.
    (sort.Slice promises no such thing: which of the orders of a repeated field is
    taken is up to it.) *)
Theorem token_selects config l bh : Forall (proper config) l -> blen (serialize_all l) < 2 ^ 62 ->
  exists l', getReportingToken sort_fields (mkSlice (serialize_all l) bh) config = Ok (serialize_all l') /\ cut_all config l l' /\
    (ordered_all Z.lt l \/ stable /\ ordered_all Z.le l -> l' = select_all config l).
Proof.
  intros Hp Hlen. destruct (turns_all config l) as (os & l' & H1 & H2 & H3 & H4).
  { eapply Forall_impl; [exact Hp|]. intros f. apply proper_turns. }
  exists l'. split; [|done]. unfold getReportingToken, extractReportingTokenContent. cbn [contents].
  rewrite <- H2, <- (app_nil_l (flat_map _ os)). rewrite <- (app_nil_l (serialize_all l)) at 2. apply loop_all; [done|done|lia].
Qed.
End equivalence.

(** ** A sort, and a message *)

Definition field_le (f g : field) : Prop := Num f <= Num g.

#[local] Instance field_le_dec f g : Decision (field_le f g).
Proof. unfold field_le. apply _. Defined.

#[local] Instance field_le_trans : Transitive field_le.
Proof. intros f g h. unfold field_le. lia. Qed.

#[local] Instance field_le_total : Total field_le.
Proof. intros f g. unfold field_le. lia. Qed.

Definition sorted_fields (l : list field) : list field := merge_sort field_le l.

Definition sample_config : list reportingField := [mkRF 1 false []; mkRF 6 false [mkRF 1 false []; mkRF 30 false []]; mkRF 35 true []].

Definition sample_message : list pfield :=
  [PMessage 6 [PBytes 1 [x68; x69]; PVarint 17 300; PFix32 30 [x01; x02; x03; x04]]; PVarint 7 1; PMessage 35 [PBytes 3 [x61]]].

(** Fields repeated at both levels, and not in order. *)
Definition repeated_message : list pfield :=
  [PMessage 35 [PBytes 3 [x61]; PBytes 3 [x62]]; PMessage 6 [PBytes 1 [x68]; PVarint 17 300; PBytes 1 [x69]]; PVarint 7 1; PMessage 6 [PBytes 30 [x6a]]].

Lemma token_selects_witness :
  getReportingToken sorted_fields (mkSlice (serialize_all sample_message) []) sample_config
  = Ok (serialize_all [PMessage 6 [PBytes 1 [x68; x69]; PFix32 30 [x01; x02; x03; x04]]]) /\
  exists l', getReportingToken sorted_fields (mkSlice (serialize_all repeated_message) []) sample_config = Ok (serialize_all l') /\
    cut_all sample_config repeated_message l'.
Proof.
  split.
  - destruct (token_selects sorted_fields) with (config := sample_config) (l := sample_message) (bh := @nil Byte.byte) as (l' & -> & _ & Hl').
    + intros l. apply merge_sort_Permutation.
    + intros l. apply (StronglySorted_merge_sort field_le).
    + repeat constructor; vm_compute; intuition congruence.
    + vm_compute. reflexivity.
    + rewrite Hl'; [reflexivity|]. left. split; repeat constructor.
  - destruct (token_selects sorted_fields) with (config := sample_config) (l := repeated_message) (bh := @nil Byte.byte) as (l' & E & Hc & _).
    + intros l. apply merge_sort_Permutation.
    + intros l. apply (StronglySorted_merge_sort field_le).
    + repeat constructor; vm_compute; intuition congruence.
    + vm_compute. reflexivity.
    + by exists l'.
Defined.

(** ** Malformed bytes *)

(** Eleven bytes with the continuation bit are more than a length can have: the
    index goes back by as many, here to a place it has been at before. *)
Definition overlong : bytes := [x0a; x08] ++ replicate 8 x00 ++ [x08] ++ replicate 11 xff.

Lemma overlong_turns sort fuel acc :
  extract_loop sort (S (S fuel)) (mkSlice overlong []) [] 0 acc = extract_loop sort fuel (mkSlice overlong []) [] 0 acc.
Proof.
  cbn [extract_loop]. set (again := extract_loop sort fuel (mkSlice overlong []) []). reflexivity.
Qed.

Lemma overlong_varint_hangs sort fuel : forall acc, extract_loop sort fuel (mkSlice overlong []) [] 0 acc = NoFuel.
Proof.
  induction fuel as [fuel IH] using lt_wf_ind. intros acc. destruct fuel as [|fuel]; [done|]. destruct fuel as [|fuel]; [reflexivity|].
  rewrite overlong_turns. apply IH. lia.
Qed.

End reportingtoken.
