(* ===== verification/Media.v ===== *)
(** * Attachments: download.go, download-to-file.go, upload.go, mediaconn.go

    An attachment is sealed under keys derived from its media key, stored on media
    servers and found again by its path; the hashes in the message say what must
    come back. The HTTP client, the clock, the random source and WhatsApp's answers
    are [services]; a file is its contents, its offset and the faults its operations
    are going to have. *)

From S2P Require Import Prelude GoStrings StateErr Jid Node Cbc Crypto Requests.

#[local] Open Scope string_scope.
#[local] Open Scope list_scope.
#[local] Open Scope Z_scope.

Module media.

Import jid attrs crypto requests.

(** ** Types of media *)

Definition MediaImage := "WhatsApp Image Keys".
Definition MediaVideo := "WhatsApp Video Keys".
Definition MediaAudio := "WhatsApp Audio Keys".
Definition MediaDocument := "WhatsApp Document Keys".
Definition MediaHistory := "WhatsApp History Keys".
Definition MediaAppState := "WhatsApp App State Keys".
Definition MediaStickerPack := "WhatsApp Sticker Pack Keys".
Definition MediaLinkThumbnail := "WhatsApp Link Thumbnail Keys".

Fixpoint table_get (l : list (string * string)) (k : string) : option string :=
  match l with
  | [] => None
  | (k', v) :: l => if String.eqb k k' then Some v else table_get l k
  end.

Definition classToMediaType : list (string * string) :=
  [("ImageMessage", MediaImage); ("AudioMessage", MediaAudio); ("VideoMessage", MediaVideo); ("DocumentMessage", MediaDocument);
   ("StickerMessage", MediaImage); ("StickerMetadata", MediaImage);
   ("StickerPackMessage", MediaStickerPack); ("HistorySyncNotification", MediaHistory); ("ExternalBlobReference", MediaAppState)].

Definition classToThumbnailMediaType : list (string * string) := [("ExtendedTextMessage", MediaLinkThumbnail)].

Definition mediaTypeToMMSType : list (string * string) :=
  [(MediaImage, "image"); (MediaAudio, "audio"); (MediaVideo, "video"); (MediaDocument, "document");
   (MediaHistory, "md-msg-hist"); (MediaAppState, "md-app-state");
   (MediaStickerPack, "sticker-pack"); (MediaLinkThumbnail, "thumbnail-link")].

(** The type of a missing key is the empty string. *)
Definition mms_type (mediaType : string) : string := default "" (table_get mediaTypeToMMSType mediaType).

(** What a message is, for [GetMediaType]: a protobuf message has a name. *)
Inductive msg_class := StickerPackItem | ProtoMessage (name : string) | MediaTypeable (t : string) | OtherMessage.

(** A downloadable message; a missing byte slice is nil. *)
Record DownloadableMessage := mkDownloadable {
  class : msg_class;
  GetDirectPath : string;
  GetMediaKey : option bytes;
  GetFileSHA256 : option bytes;
  GetFileEncSHA256 : option bytes
}.

Definition GetMediaType (msg : DownloadableMessage) : string :=
  match class msg with
  | StickerPackItem => MediaImage
  | ProtoMessage name => default "" (table_get classToMediaType name)
  | MediaTypeable t => t
  | OtherMessage => ""
  end.

(** ** Errors *)

(** An error of the HTTP client, of a context or of a file: whether it is [context.Canceled]
    and whether it is a [net.Error], and its text. *)
Record env_error := mkEnvError { is_canceled : bool; is_net : bool; error_text : string }.

Inductive media_error :=
  | ErrNothingDownloadableFound
  | ErrUnknownMediaType
  | ErrNoURLPresent
  | ErrPath (directPath : string)
  | ErrQuery (e : iq_error)                   (* "failed to query media connections" *)
  | ErrUnexpectedChild
  | ErrMediaConn (l : list attr_error)        (* "failed to parse media connections" *)
  | ErrRefresh (e : media_error)              (* "failed to refresh media connections" *)
  | ErrLastHost (e : media_error)             (* "failed to download media from last host" *)
  | DownloadHTTPError (status : Z) (retryAfter : string)
  | ErrHTTP (e : env_error)
  | ErrChecksumLength (n : Z)
  | ErrTooShortFile
  | ErrInvalidMediaHMAC
  | ErrInvalidMediaEncSHA256
  | ErrInvalidMediaSHA256
  | ErrInvalidUnencryptedMediaSHA256
  | ErrCipher (e : cbcutil.cbc_error)         (* "failed to decrypt file", "failed to encrypt file" *)
  | ErrFile (e : env_error)                   (* a file that cannot be read, written, moved in or cut *)
  | ErrPreallocate (e : env_error)
  | ErrExecute (e : env_error)
  | ErrUploadStatus (status : Z)
  | ErrDeleteStatus (status : Z)
  | ErrDecodeResponse
  | ErrNoStickerPack.

Fixpoint errors_canceled (e : media_error) : bool :=
  match e with
  | ErrHTTP e | ErrFile e | ErrPreallocate e | ErrExecute e => is_canceled e
  | ErrRefresh e | ErrLastHost e => errors_canceled e
  | _ => false
  end.

(** The errors after which no other host is asked. *)
Definition final_error (e : media_error) : bool :=
  match e with
  | ErrInvalidMediaSHA256 => true
  | DownloadHTTPError status _ => (status =? 403) || (status =? 404) || (status =? 410)
  | e => errors_canceled e
  end.

(** ** URLs *)

Definition url_char (a : ascii) : ascii := if Ascii.eqb a "+" then "-"%char else if Ascii.eqb a "/" then "_"%char else a.

Fixpoint string_map (f : ascii -> ascii) (s : string) : string :=
  match s with "" => "" | String a s => String (f a) (string_map f s) end.

(** encoding/base64, URLEncoding and RawURLEncoding. *)
Definition URLEncoding (b : bytes) : string := string_map url_char (StdEncoding b).
Definition RawURLEncoding (b : bytes) : string := string_map url_char (RawStdEncoding b).

Definition upper_hex (n : Z) : string := String.substring (Z.to_nat n) 1 "0123456789ABCDEF".

Definition unreserved (a : ascii) : bool :=
  let n := Z.of_nat (nat_of_ascii a) in
  ((48 <=? n) && (n <=? 57)) || ((65 <=? n) && (n <=? 90)) || ((97 <=? n) && (n <=? 122)) || (n =? 45) || (n =? 46) || (n =? 95) || (n =? 126).

(** net/url, QueryEscape. *)
Fixpoint QueryEscape (s : string) : string :=
  match s with
  | "" => ""
  | String a s =>
      (if unreserved a then String a "" else if Ascii.eqb a " " then "+"
       else let n := Z.of_nat (nat_of_ascii a) in "%" +:+ upper_hex (Z.shiftr n 4) +:+ upper_hex (Z.land n 15)) +:+ QueryEscape s
  end.

(** [url.Values.Encode], for keys that are given in their order. *)
Definition Encode (q : list (string * string)) : string :=
  String.concat "&" (map (fun '(k, v) => QueryEscape k +:+ "=" +:+ QueryEscape v) q).

(** [url.URL.String], for paths that need no escaping. *)
Definition url_string (host path : string) (q : list (string * string)) : string :=
  "https://" +:+ host +:+ path +:+ "?" +:+ Encode q.

(** ** The client *)

Record MediaConnHost := mkHost { Hostname : string }.

(** Times in nanoseconds. *)
Record MediaConn := mkMediaConn {
  Auth : string; AuthTTL : Z; TTL : Z; MaxBuckets : Z; FetchedAt : Z; Hosts : list MediaConnHost
}.

(** The product of two durations wraps at 64 bits. *)
Definition Expiry (mc : MediaConn) : Z :=
  FetchedAt mc + ((TTL mc * 10 ^ 9 + 2 ^ 63) mod 2 ^ 64 - 2 ^ 63).

Record request := mkRequest { Method : string; URL : string; Header : list (string * string); Body : bytes; ContentLength : Z }.

(** What a request comes back with; a body is its bytes and the error that reading
    meets behind them. *)
Inductive http_answer :=
  | Failed (e : env_error)
  | Answer (status : Z) (retryAfter : string) (contentLength : Z) (body : bytes) (broken : option env_error).

(** Where the upload ended up; fields that the answer does not have stay. *)
Record UploadResponse := mkUpload {
  r_URL : string; r_DirectPath : string; r_Handle : string; r_ObjectID : string;
  r_MediaKey : option bytes; r_FileEncSHA256 : option bytes; r_FileSHA256 : option bytes; r_FileLength : Z
}.

Record services (W : Type) := mkServices {
  sendIQ : infoQuery -> W -> W * outcome iq_error Node;
  Do : request -> W -> W * http_answer;
  wait_retry : W -> W * option env_error;       (* the context's error when it is done before the retry *)
  now : W -> Z;
  random_bytes : nat -> W -> W * bytes;
  should_retry : Z -> bool;                      (* retryafter.Should *)
  decode_upload : bytes -> UploadResponse -> option UploadResponse;
  decode_packs : bytes -> option (list bytes)
}.
Arguments mkServices {W}.
Arguments sendIQ {W}.
Arguments Do {W}.
Arguments wait_retry {W}.
Arguments now {W}.
Arguments random_bytes {W}.
Arguments should_retry {W}.
Arguments decode_upload {W}.
Arguments decode_packs {W}.

Record client (W : Type) := mkClient { mediaConnCache : option MediaConn; world : W }.
Arguments mkClient {W}.
Arguments mediaConnCache {W}.
Arguments world {W}.

Section media.
Context {C : Crypto} {W : Type} (V : services W) (messenger : option string) (UserAgent CompanionMetaNonce : string).

Notation sm A := (stm (client W) media_error A).

Definition in_world {A} (f : W -> W * A) : sm A := fun s => let '(w, a) := f (world s) in (mkClient (mediaConnCache s) w, Ok a).

(** ** mediaconn.go *)

Fixpoint parse_hosts (l : list Node) : outcome media_error (list MediaConnHost) :=
  match l with
  | [] => Ok []
  | child :: l =>
      if negb (String.eqb (node_tag child) "host") then parse_hosts l
      else
        let '(name, cag) := attrs.String_ "hostname" (AttrGetter child) in
        if negb (OK cag) then Err (ErrMediaConn [])
        else hosts ← parse_hosts l; Ok (mkHost name :: hosts)
  end.

Definition queryMediaConn : sm MediaConn := fun s =>
  let '(w, o) := sendIQ V (mkQuery "w:m" "set" ServerJID EmptyJID "" "" (ANodes [mkNode "media_conn" [] ANil]) false) (world s) in
  (mkClient (mediaConnCache s) w,
   resp ← map_err ErrQuery o;
   match GetChildren resp with
   | respMC :: _ =>
       if negb (String.eqb (node_tag respMC) "media_conn") then Err ErrUnexpectedChild
       else
         let '(auth, ag) := attrs.String_ "auth" (AttrGetter respMC) in
         let '(ttl, ag) := Int "ttl" ag in
         let '(auth_ttl, ag) := Int "auth_ttl" ag in
         let '(max_buckets, ag) := Int "max_buckets" ag in
         if negb (OK ag) then Err (ErrMediaConn (au_errors ag))
         else
           hosts ← parse_hosts (GetChildren respMC);
           Ok (mkMediaConn auth auth_ttl ttl max_buckets (now V w) hosts)
   | [] => Err ErrUnexpectedChild
   end).

(** A query that fails leaves nothing cached. *)
Definition refreshMediaConn (force : bool) : sm MediaConn := fun s =>
  let query s :=
    match queryMediaConn s with
    | (s, Ok mc) => (mkClient (Some mc) (world s), Ok mc)
    | (s, o) => (mkClient None (world s), o)
    end in
  match mediaConnCache s with
  | None => query s
  | Some mc => if force || (Expiry mc <? now V (world s)) then query s else (s, Ok mc)
  end.

(** ** Requests *)

Definition Origin := "https://web.whatsapp.com".

Definition getUserAgent : string := match messenger with Some agent => agent | None => UserAgent end.

Definition origin_headers : list (string * string) := [("Origin", Origin); ("Referer", Origin +:+ "/")].

Definition doMediaDownloadRequest (url : string) : sm (Z * bytes * option env_error) :=
  a ← in_world (Do V (mkRequest "GET" url
        (origin_headers ++ (if String.eqb getUserAgent "" then [] else [("User-Agent", getUserAgent)])) [] 0));
  match a with
  | Failed e => throw (ErrHTTP e)
  | Answer status retryAfter contentLength body broken =>
      if negb (status =? 200) then throw (DownloadHTTPError status retryAfter) else mret (contentLength, body, broken)
  end.

Definition downloadMedia (url : string) : sm bytes :=
  '(_, body, broken) ← doMediaDownloadRequest url;
  match broken with Some e => throw (ErrHTTP e) | None => mret body end.

Definition mediaHMACLength : Z := 10.

Definition downloadEncryptedMedia (url : string) (checksum : bytes) : sm (bytes * bytes) :=
  if negb (blen checksum =? 32) then throw (ErrChecksumLength (blen checksum))
  else
    data ← downloadMedia url;
    if blen data <=? mediaHMACLength then throw ErrTooShortFile
    else if negb (bool_decide (sha256 data = checksum)) then throw ErrInvalidMediaEncSHA256
    else mret (ztake (blen data - mediaHMACLength) data, zdrop (blen data - mediaHMACLength) data).

(** The error's text is looked at only where it is the HTTP client's own. *)
Definition shouldRetryMediaDownload (e : media_error) : bool :=
  if errors_canceled e then false
  else match e with
       | ErrHTTP e | ErrFile e => is_net e || String.prefix "stream error:" (error_text e)
       | ErrPreallocate e => is_net e
       | DownloadHTTPError status _ => should_retry V status
       | _ => false
       end.

(** The attempts left, and what the last one came back with when none are. *)
Fixpoint download_attempts (n : nat) (url : string) (checksum : option bytes) (last : outcome media_error (bytes * option bytes)) :
    sm (bytes * option bytes) :=
  match n with
  | O => lift last
  | S n => fun s =>
      let '(s, o) :=
        match checksum with
        | None => (data ← downloadMedia url; mret (data, None)) s
        | Some checksum => ('(file, mac) ← downloadEncryptedMedia url checksum; mret (file, Some mac)) s
        end in
      match o with
      | Err e =>
          if shouldRetryMediaDownload e then
            (done ← in_world (wait_retry V);
             match done with Some e => throw (ErrHTTP e) | None => download_attempts n url checksum (Err e) end) s
          else (s, Err e)
      | o => (s, o)
      end
  end.

Definition downloadPossiblyEncryptedMediaWithRetries (url : string) (checksum : option bytes) : sm (bytes * option bytes) :=
  download_attempts 5 url checksum (Ok ([], None)).

(** ** download.go *)

(** IV, cipher key, MAC key and reference key. *)
Definition getMediaKeys (mediaKey : option bytes) (appInfo : string) : outcome media_error (bytes * bytes * bytes * bytes) :=
  match SHA256 (default [] mediaKey) [] (str_bytes appInfo) 112 with
  | Ok k => Ok (ztake 16 k, ztake 32 (zdrop 16 k), ztake 32 (zdrop 48 k), zdrop 80 k)
  | _ => Panic
  end.

(** The first bytes of the MAC of IV and file; a missing MAC has none. *)
Definition validateMedia (iv file macKey : bytes) (mac : option bytes) : outcome media_error unit :=
  if bool_decide (ztake mediaHMACLength (hmac_sha256 macKey (iv ++ file)) = default [] mac) then Ok tt else Err ErrInvalidMediaHMAC.

(** A checksum that is there and has its length. *)
Definition has_hash (data : bytes) (hash : option bytes) : bool :=
  match hash with Some h => (blen h =? 32) && bool_decide (sha256 data = h) | None => false end.

Definition is_nil {A} (o : option A) : bool := match o with Some _ => false | None => true end.

Definition downloadAndDecrypt (url : string) (mediaKey : option bytes) (appInfo : string) (fileEncSHA256 fileSHA256 : option bytes) : sm bytes :=
  '(iv, cipherKey, macKey, _) ← lift (getMediaKeys mediaKey appInfo);
  '(ciphertext, mac) ← downloadPossiblyEncryptedMediaWithRetries url fileEncSHA256;
  if is_nil mediaKey && is_nil fileEncSHA256 && is_nil mac then
    if negb (is_nil fileSHA256) && negb (has_hash ciphertext fileSHA256) then throw ErrInvalidUnencryptedMediaSHA256 else mret ciphertext
  else
    _ ← lift (validateMedia iv ciphertext macKey mac);
    data ← lift (map_err ErrCipher (cbcutil.Decrypt aes_block_dec cipherKey iv ciphertext));
    if negb (has_hash data fileSHA256) then throw ErrInvalidMediaSHA256 else mret data.

(** One host after the other; with none there is neither data nor an error. *)
Fixpoint try_hosts {S A} (nothing : A) (download : string -> stm S media_error A) (hosts : list MediaConnHost) : stm S media_error A :=
  match hosts with
  | [] => mret nothing
  | h :: rest => fun s =>
      match download (Hostname h) s with
      | (s, Err e) =>
          if final_error e then (s, Err e)
          else match rest with [] => (s, Err (ErrLastHost e)) | _ => try_hosts nothing download rest s end
      | r => r
      end
  end.

Definition media_url (directPath : string) (encFileHash : option bytes) (mmsType host : string) : string :=
  "https://" +:+ host +:+ directPath +:+ "&hash=" +:+ URLEncoding (default [] encFileHash) +:+ "&mms-type=" +:+ mmsType +:+ "&__wa-mms=".

(** A file hash that must be there is one that nothing has. *)
Definition expected_hash (allowNoHash : bool) (fileHash : option bytes) : option bytes :=
  if negb allowNoHash && is_nil fileHash then Some (replicate 32 x00) else fileHash.

Definition type_for (mmsType mediaType : string) : string := if String.eqb mmsType "" then mms_type mediaType else mmsType.

(** The data; nil where there were no hosts. *)
Definition DownloadMediaWithPath (directPath : string) (encFileHash fileHash mediaKey : option bytes) (mediaType mmsType : string)
    (allowNoHash : bool) : sm (option bytes) :=
  let fileHash := expected_hash allowNoHash fileHash in
  if negb (String.prefix "/" directPath) then throw (ErrPath directPath)
  else
    mediaConn ← wrap ErrRefresh (refreshMediaConn false);
    try_hosts None (fun host =>
      data ← downloadAndDecrypt (media_url directPath encFileHash (type_for mmsType mediaType) host) mediaKey mediaType encFileHash fileHash;
      mret (Some data)) (Hosts mediaConn).

Definition key_of (msg : DownloadableMessage) : option bytes := if is_nil (GetFileEncSHA256 msg) then None else GetMediaKey msg.

Definition Download (msg : DownloadableMessage) : sm (option bytes) :=
  let mediaType := GetMediaType msg in
  if String.eqb mediaType "" then throw ErrUnknownMediaType
  else if String.eqb (GetDirectPath msg) "" then throw ErrNoURLPresent
  else DownloadMediaWithPath (GetDirectPath msg) (GetFileEncSHA256 msg) (GetFileSHA256 msg) (key_of msg) mediaType (mms_type mediaType) false.

(** The parts of a message that can be downloaded, in the order they are tried. *)
Record Message := mkMessage {
  ImageMessage : option DownloadableMessage; VideoMessage : option DownloadableMessage; AudioMessage : option DownloadableMessage;
  DocumentMessage : option DownloadableMessage; StickerMessage : option DownloadableMessage
}.

Definition DownloadAny (msg : option Message) : sm (option bytes) :=
  match msg with
  | None => throw ErrNothingDownloadableFound
  | Some m =>
      match ImageMessage m, VideoMessage m, AudioMessage m, DocumentMessage m, StickerMessage m with
      | Some d, _, _, _, _ | None, Some d, _, _, _ | None, None, Some d, _, _ | None, None, None, Some d, _ | None, None, None, None, Some d => Download d
      | None, None, None, None, None => throw ErrNothingDownloadableFound
      end
  end.

(** The thumbnail of a message of the given name. *)
Definition DownloadThumbnail (name path : string) (encSHA256 sha256 mediaKey : option bytes) : sm (option bytes) :=
  match table_get classToThumbnailMediaType name with
  | None => throw ErrUnknownMediaType
  | Some mediaType =>
      if negb (String.eqb path "") then DownloadMediaWithPath path encSHA256 sha256 mediaKey mediaType (mms_type mediaType) false
      else throw ErrNoURLPresent
  end.

Definition DownloadFB (directPath : string) (encSHA256 sha256 mediaKey : option bytes) (mediaType : string) : sm (option bytes) :=
  DownloadMediaWithPath directPath encSHA256 sha256 mediaKey mediaType (mms_type mediaType) false.

Definition DownloadMediaWithOnlyPath (directPath : string) : sm (option bytes) :=
  DownloadMediaWithPath directPath None None None "" "" true.

Definition FetchStickerPack (packID : string) : sm bytes :=
  '(_, body, _) ← doMediaDownloadRequest ("https://static.whatsapp.net/sticker?lottie=1&cat=sticker_pack_data&id=" +:+ packID +:+ "&lg=en");
  match decode_packs V body with
  | Some (p :: _) => mret p
  | Some [] => throw ErrNoStickerPack
  | None => throw ErrDecodeResponse
  end.

(** ** upload.go *)

Definition upload_host (mc : MediaConn) : sm string :=
  match (match messenger with Some _ => last (Hosts mc) | None => head (Hosts mc) end) with
  | Some h => mret (Hostname h)
  | None => panic
  end.

Definition upload_path (newsletter : bool) (appInfo token : string) : string :=
  let mmsType := mms_type appInfo in
  let '(uploadPrefix, mmsType) :=
    match messenger with
    | Some _ => ("wa-msgr/mms", if String.eqb mmsType "audio" then "ptt" else mmsType)
    | None => ("mms", mmsType)
    end in
  let '(uploadPrefix, mmsType) := if newsletter then ("newsletter", "newsletter-" +:+ mmsType) else (uploadPrefix, mmsType) in
  "/" +:+ uploadPrefix +:+ "/" +:+ mmsType +:+ "/" +:+ token.

Definition rawUpload (dataToUpload : bytes) (uploadSize : Z) (fileHash : bytes) (appInfo : string) (newsletter : bool) (resp : UploadResponse) :
    sm UploadResponse :=
  mediaConn ← wrap ErrRefresh (refreshMediaConn false);
  let token := URLEncoding fileHash in
  host ← upload_host mediaConn;
  a ← in_world (Do V (mkRequest "POST" (url_string host (upload_path newsletter appInfo token) [("auth", Auth mediaConn); ("token", token)])
        origin_headers dataToUpload uploadSize));
  match a with
  | Failed e => throw (ErrExecute e)
  | Answer status _ _ body _ =>
      if negb (status =? 200) then throw (ErrUploadStatus status)
      else match decode_upload V body resp with Some resp => mret resp | None => throw ErrDecodeResponse end
  end.

Definition Upload (plaintext : bytes) (appInfo : string) : sm UploadResponse :=
  MediaKey ← in_world (random_bytes V 32);
  '(iv, cipherKey, macKey, _) ← lift (getMediaKeys (Some MediaKey) appInfo);
  ciphertext ← lift (map_err ErrCipher (cbcutil.Encrypt aes_block_enc None cipherKey (Some iv) plaintext));
  let dataToUpload := ciphertext ++ ztake 10 (hmac_sha256 macKey (iv ++ ciphertext)) in
  rawUpload dataToUpload (blen dataToUpload) (sha256 dataToUpload) appInfo false
    (mkUpload "" "" "" "" (Some MediaKey) (Some (sha256 dataToUpload)) (Some (sha256 plaintext)) (blen plaintext)).

Definition UploadNewsletter (data : bytes) (appInfo : string) : sm UploadResponse :=
  rawUpload data (blen data) (sha256 data) appInfo true (mkUpload "" "" "" "" None None (Some (sha256 data)) (blen data)).

(** What the path has in front of its query. *)
Definition without_query (directPath : string) : string :=
  match String.index 0 "?" directPath with
  | Some (Datatypes.S n) => String.substring 0 (Datatypes.S n) directPath
  | _ => directPath
  end.

Definition DeleteMedia (appInfo directPath : string) (encFileHash : bytes) (encHandle : string) : sm unit :=
  if String.eqb directPath "" then mret tt
  else
    mediaConn ← wrap ErrRefresh (refreshMediaConn false);
    let token := URLEncoding encFileHash in
    let query := [("auth", Auth mediaConn); ("d_md", RawURLEncoding (str_bytes (without_query directPath)))]
                 ++ (if String.eqb encHandle "" then [] else [("e_handle", encHandle)]) ++ [("token", token)] in
    host ← (match head (Hosts mediaConn) with Some h => mret (Hostname h) | None => panic end);
    a ← in_world (Do V (mkRequest "DELETE" (url_string host ("/mms/" +:+ mms_type appInfo +:+ "/" +:+ token) query)
          (origin_headers ++ (if negb (String.eqb CompanionMetaNonce "") && negb (String.eqb encHandle "")
                              then [("Companion_User_Secret", CompanionMetaNonce)] else [])) [] 0));
    match a with
    | Failed e => throw (ErrExecute e)
    | Answer status _ _ _ _ => if (status <? 200) || (300 <=? status) then throw (ErrDeleteStatus status) else mret tt
    end.

End media.

End media.
