(* ===== verification/MediaFile.v ===== *)
(** * Attachments in files: download-to-file.go and the readers of upload.go

    The file that a download goes to has contents, an offset and a list of faults,
    one for each operation: none, or the bytes done before the error. Whether it is
    an [os.File] and whether it can be written at an offset is part of it. *)

From S2P Require Import Prelude GoStrings StateErr Jid Node Cbc Crypto Requests Media.

#[local] Open Scope string_scope.
#[local] Open Scope list_scope.
#[local] Open Scope Z_scope.

Module mediafile.

Import media.

Record File := mkFile {
  contents : bytes;
  offset : Z;
  faults : list (option (Z * env_error));
  is_os_file : bool;
  writer_at : bool
}.

Definition set_contents (b : bytes) (f : File) : File := mkFile b (offset f) (faults f) (is_os_file f) (writer_at f).
Definition set_offset (n : Z) (f : File) : File := mkFile (contents f) n (faults f) (is_os_file f) (writer_at f).
Definition set_faults (l : list (option (Z * env_error))) (f : File) : File := mkFile (contents f) (offset f) l (is_os_file f) (writer_at f).

(** Bytes written at an offset: what is between the end and it becomes zero. *)
Definition write_at (n : Z) (b l : bytes) : bytes :=
  match b with
  | [] => l
  | _ => let l := l ++ replicate (Z.to_nat (n - blen l)) x00 in ztake n l ++ b ++ zdrop (n + blen b) l
  end.

Definition truncated (n : Z) (l : bytes) : bytes := ztake n l ++ replicate (Z.to_nat (n - blen l)) x00.

Section files.
Context {C : Crypto} {W : Type} (V : services W) (messenger : option string) (UserAgent : string).
(** What fallocate.Fallocate makes of a file's contents; what os.CreateTemp fails with. *)
Context (fallocate : Z -> bytes -> bytes) (CreateTemp : option env_error).

Notation sm A := (stm (client W) media_error A).
Notation fm A := (stm (client W * File) media_error A).

Definition on_client {A} (m : sm A) : fm A := fun '(c, f) => let '(c, o) := m c in ((c, f), o).

(** An operation, or the fault it meets after so many bytes. *)
Definition file_op {A} (bad : Z -> File -> File) (ok : File -> File * outcome media_error A) : fm A := fun '(c, f) =>
  match faults f with
  | Some (k, e) :: l => ((c, bad k (set_faults l f)), Err (ErrFile e))
  | l => let '(f, o) := ok (set_faults (tail l) f) in ((c, f), o)
  end.

Definition SeekStart : fm unit := file_op (fun _ f => f) (fun f => (set_offset 0 f, Ok tt)).

Definition written (b : bytes) (f : File) : File := set_offset (offset f + blen b) (set_contents (write_at (offset f) b (contents f)) f).

Definition WriteAll (b : bytes) : fm unit := file_op (fun k => written (ztake k b)) (fun f => (written b f, Ok tt)).

(** Reading to the end. *)
Definition ReadRest : fm bytes :=
  file_op (fun k f => set_offset (offset f + k) f) (fun f => (set_offset (Z.max (offset f) (blen (contents f))) f, Ok (zdrop (offset f) (contents f)))).

Definition EOF : env_error := mkEnvError false false "EOF".

Definition ReadAt (n off : Z) : fm bytes :=
  file_op (fun _ f => f) (fun f =>
    (f, if blen (contents f) <? off + n then Err (ErrFile EOF) else Ok (ztake n (zdrop off (contents f))))).

Definition Truncate (n : Z) : fm unit := file_op (fun _ f => f) (fun f => (set_contents (truncated n (contents f)) f, Ok tt)).

Definition Fallocate (n : Z) : fm unit := wrap (fun e => match e with ErrFile e => ErrPreallocate e | e => e end)
  (file_op (fun _ f => f) (fun f => (set_contents (fallocate n (contents f)) f, Ok tt))).

(** cbcutil.DecryptFile, from the start of the file: with wrong padding everything
    has been decrypted. *)
Definition DecryptFile (key iv : bytes) : fm unit :=
  let plain l := fst (cbcutil.cbc_decrypt aes_block_dec key (cbcutil.blocks l) iv l) in
  file_op (fun k f => set_offset k (set_contents (write_at 0 (ztake k (plain (contents f))) (contents f)) f)) (fun f =>
    match cbcutil.DecryptFile aes_block_dec key iv (contents f) with
    | Ok l => (set_offset (blen (contents f)) (set_contents l f), Ok tt)
    | Err (cbcutil.ErrPadding _ _ as e) => (set_offset (blen (contents f)) (set_contents (plain (contents f)) f), Err (ErrCipher e))
    | Err e => (f, Err (ErrCipher e))
    | Panic => (f, Panic)
    | NoFuel => (f, NoFuel)
    end).

(** ** Downloading *)

Definition is_os : fm bool := fun '(c, f) => ((c, f), Ok (is_os_file f)).

(** The number of bytes and their hash. *)
Definition downloadMediaToFile (url : string) : fm (Z * bytes) :=
  '(contentLength, body, broken) ← on_client (doMediaDownloadRequest V messenger UserAgent url);
  ok ← is_os;
  _ ← (if (ok : bool) && (0 <? contentLength) then Fallocate contentLength else mret tt);
  WriteAll body;;
  match broken with Some e => throw (ErrHTTP e) | None => mret (blen body, sha256 body) end.

Definition downloadEncryptedMediaToFile (url : string) (checksum : bytes) : fm bytes :=
  if negb (blen checksum =? 32) then throw (ErrChecksumLength (blen checksum))
  else
    '(size, hash) ← downloadMediaToFile url;
    if size <=? mediaHMACLength then throw ErrTooShortFile
    else if negb (bool_decide (checksum = hash)) then throw ErrInvalidMediaEncSHA256
    else
      mac ← ReadAt mediaHMACLength (size - mediaHMACLength);
      Truncate (size - mediaHMACLength);;
      mret mac.

(** The attempts left; what the last of them came back with is overwritten by the
    result of seeking back. *)
Fixpoint download_attempts_to_file (n : nat) (url : string) (checksum : option bytes) : fm (option bytes) :=
  match n with
  | O => mret None
  | S n => fun s =>
      let '(s, o) :=
        match checksum with
        | None => (_ ← downloadMediaToFile url; mret None) s
        | Some checksum => (mac ← downloadEncryptedMediaToFile url checksum; mret (Some mac)) s
        end in
      match o with
      | Err e =>
          if shouldRetryMediaDownload V e then
            (SeekStart;;
             done ← on_client (in_world (wait_retry V));
             match done with Some e => throw (ErrHTTP e) | None => download_attempts_to_file n url checksum end) s
          else (s, Err e)
      | o => (s, o)
      end
  end.

Definition downloadPossiblyEncryptedMediaWithRetriesToFile (url : string) (checksum : option bytes) : fm (option bytes) :=
  download_attempts_to_file 5 url checksum.

Definition validateMediaFile (iv macKey : bytes) (mac : option bytes) : fm unit :=
  SeekStart;;
  file ← ReadRest;
  lift (validateMedia iv file macKey mac).

Definition is_hash (data : bytes) (hash : option bytes) : bool := bool_decide (default [] hash = sha256 data).

Definition downloadAndDecryptToFile (url : string) (mediaKey : option bytes) (appInfo : string) (fileEncSHA256 fileSHA256 : option bytes) : fm unit :=
  '(iv, cipherKey, macKey, _) ← lift (getMediaKeys mediaKey appInfo);
  mac ← downloadPossiblyEncryptedMediaWithRetriesToFile url fileEncSHA256;
  if is_nil mediaKey && is_nil fileEncSHA256 && is_nil mac then
    if is_nil fileSHA256 then mret tt
    else
      SeekStart;;
      data ← ReadRest;
      if negb (is_hash data fileSHA256) then throw ErrInvalidUnencryptedMediaSHA256 else mret tt
  else
    validateMediaFile iv macKey mac;;
    SeekStart;;
    DecryptFile cipherKey iv;;
    SeekStart;;
    data ← ReadRest;
    if negb (is_hash data fileSHA256) then throw ErrInvalidMediaSHA256 else mret tt.

Definition DownloadMediaWithPathToFile (directPath : string) (encFileHash fileHash mediaKey : option bytes) (mediaType mmsType : string)
    (allowNoHash : bool) : fm unit :=
  let fileHash := expected_hash allowNoHash fileHash in
  if negb (String.prefix "/" directPath) then throw (ErrPath directPath)
  else
    mediaConn ← on_client (wrap ErrRefresh (refreshMediaConn V false));
    try_hosts tt (fun host =>
      downloadAndDecryptToFile (media_url directPath encFileHash (type_for mmsType mediaType) host) mediaKey mediaType encFileHash fileHash)
      (Hosts mediaConn).

Definition DownloadToFile (msg : DownloadableMessage) : fm unit :=
  let mediaType := GetMediaType msg in
  if String.eqb mediaType "" then throw ErrUnknownMediaType
  else if String.eqb (GetDirectPath msg) "" then throw ErrNoURLPresent
  else DownloadMediaWithPathToFile (GetDirectPath msg) (GetFileEncSHA256 msg) (GetFileSHA256 msg) (key_of msg) mediaType (mms_type mediaType) false.

Definition DownloadFBToFile (directPath : string) (encSHA256 sha256 mediaKey : option bytes) (mediaType : string) : fm unit :=
  DownloadMediaWithPathToFile directPath encSHA256 sha256 mediaKey mediaType (mms_type mediaType) false.

Definition DownloadMediaWithOnlyPathToFile (directPath : string) : fm unit :=
  DownloadMediaWithPathToFile directPath None None None "" "" true.

(** ** Uploading *)

(** The body of a request; the HTTP client reports what reading it fails with. It
    is read here before the media connection is looked up, which does not look at
    the file. *)
Definition request_body : fm bytes := wrap (fun e => match e with ErrFile e => ErrExecute e | e => e end) ReadRest.

(** The ciphertext goes to the temporary file, at its start where that can be. *)
Definition write_stream (b : bytes) : fm unit := fun '(c, f) =>
  if writer_at f then
    file_op (fun k f => set_contents (write_at 0 (ztake k b) (contents f)) f) (fun f => (set_contents (write_at 0 b (contents f)) f, Ok tt)) (c, f)
  else WriteAll b (c, f).

Definition upload_from (plaintext : bytes) (MediaKey : bytes) (appInfo : string) : fm UploadResponse :=
  '(iv, cipherKey, macKey, _) ← lift (getMediaKeys (Some MediaKey) appInfo);
  r ← lift (map_err ErrCipher (cbcutil.EncryptStream aes_block_enc sha256 hmac_sha256 cipherKey iv macKey plaintext));
  write_stream (cbcutil.written r);;
  SeekStart;;
  body ← request_body;
  on_client (rawUpload V messenger body (cbcutil.total_size r) (cbcutil.cipher_hash r) appInfo false
    (mkUpload "" "" "" "" (Some MediaKey) (Some (cbcutil.cipher_hash r)) (Some (cbcutil.plain_hash r)) (cbcutil.plain_size r))).

(** Without a temporary file one is made, and removed again. *)
Definition UploadReader (plaintext : bytes) (tempFile : bool) (appInfo : string) : fm UploadResponse :=
  MediaKey ← on_client (in_world (random_bytes V 32));
  if tempFile then upload_from plaintext MediaKey appInfo
  else match CreateTemp with
       | Some e => throw (ErrFile e)
       | None => fun '(c, f) =>
           let '((c, _), o) := upload_from plaintext MediaKey appInfo (c, mkFile [] 0 [] true true) in ((c, f), o)
       end.

(** The file is hashed from where it is, and sent from its start. *)
Definition UploadNewsletterReader (appInfo : string) : fm UploadResponse :=
  data ← ReadRest;
  SeekStart;;
  body ← request_body;
  on_client (rawUpload V messenger body (blen data) (sha256 data) appInfo true (mkUpload "" "" "" "" None None (Some (sha256 data)) (blen data))).

End files.

End mediafile.
