(* ===== verification/MediaProofs.v ===== *)
(** * What downloads guarantee

    What is returned has the hashes the message gives, whatever the servers send;
    what is uploaded downloads again; a download to a file agrees with one to memory
    while no attempt breaks off, and does not otherwise. *)

From S2P Require Import Prelude GoStrings StateErr Jid Node Cbc Crypto Requests Media MediaFile.

#[local] Open Scope string_scope.
#[local] Open Scope list_scope.
#[local] Open Scope Z_scope.

Module media_proofs.

Import crypto requests media mediafile.

Section keys.
Context {C : Crypto} {L : CryptoLaws C}.

Lemma keys_ok mediaKey appInfo : exists iv ck mk rk, getMediaKeys mediaKey appInfo = Ok (iv, ck, mk, rk) /\
  blen iv = 16 /\ cbcutil.NewCipher ck = Ok tt.
Proof.
  unfold getMediaKeys. rewrite SHA256_ok by lia. change (Z.to_nat 112) with 112%nat.
  set (k := hkdf_bytes _ _ _ 0 112). assert (blen k = 112) as Hk by (unfold blen, k; by rewrite length_hkdf_bytes).
  do 4 eexists. split; [reflexivity|]. split; [apply length_ztake; lia|]. unfold cbcutil.NewCipher.
  rewrite length_ztake; [done|]. rewrite length_zdrop by lia. lia.
Qed.

Lemma mac_length mk m : blen (ztake mediaHMACLength (hmac_sha256 mk m)) = 10.
Proof. apply length_ztake. unfold blen. rewrite length_hmac_sha256. unfold mediaHMACLength. lia. Qed.

Lemma blen_sha256 m : blen (sha256 m) = 32.
Proof. unfold blen. by rewrite length_sha256. Qed.

Lemma has_hash_true data hash : has_hash data hash = true -> hash = Some (sha256 data).
Proof.
  unfold has_hash. destruct hash as [h|]; [|done]. intros H. apply andb_true_iff in H as [_ H]. apply bool_decide_eq_true_1 in H. by rewrite H.
Qed.

Lemma has_hash_own data : has_hash data (Some (sha256 data)) = true.
Proof. unfold has_hash. rewrite blen_sha256. by rewrite bool_decide_eq_true_2. Qed.

Lemma is_hash_has_hash data hash : is_hash data hash = has_hash data hash.
Proof.
  unfold is_hash, has_hash. destruct hash as [h|]; cbn [default].
  - change (id h) with h. destruct (bool_decide_reflect (h = sha256 data)) as [->|Hne].
    + rewrite blen_sha256. symmetry. by apply bool_decide_eq_true_2.
    + rewrite (bool_decide_eq_false_2 (sha256 data = h)) by congruence. by rewrite andb_false_r.
  - rewrite bool_decide_eq_false_2; [done|]. intros H. pose proof (blen_sha256 data) as Hl. by rewrite <- H in Hl.
Qed.

(** A sealed file: ciphertext and the first bytes of its MAC. *)
Definition sealed_file (mediaKey : option bytes) (appInfo : string) (data body : bytes) : Prop :=
  exists iv ck mk rk c, getMediaKeys mediaKey appInfo = Ok (iv, ck, mk, rk) /\
    body = c ++ ztake 10 (hmac_sha256 mk (iv ++ c)) /\ cbcutil.Decrypt aes_block_dec ck iv c = Ok data.

Lemma body_split (c m : bytes) : blen m = 10 ->
  ztake (blen (c ++ m) - mediaHMACLength) (c ++ m) = c /\ zdrop (blen (c ++ m) - mediaHMACLength) (c ++ m) = m.
Proof.
  intros Hm. rewrite blen_app, Hm. unfold mediaHMACLength. replace (blen c + 10 - 10) with (blen c) by lia.
  split; [apply ztake_app|apply zdrop_app].
Qed.

Lemma ztake_zdrop {A} n (l : list A) : ztake n l ++ zdrop n l = l.
Proof. apply take_drop. Qed.
End keys.

Section downloads.
Context {C : Crypto} {L : CryptoLaws C} {W : Type} (V : services W) (messenger : option string) (UserAgent CompanionMetaNonce : string).
Notation sm A := (stm (client W) media_error A).

Notation Download := (Download V messenger UserAgent).
Notation downloadMedia := (downloadMedia V messenger UserAgent).
Notation downloadAndDecrypt := (downloadAndDecrypt V messenger UserAgent).
Notation download_attempts := (download_attempts V messenger UserAgent).

(** A server's answer to some request. *)
Definition served (body : bytes) : Prop := exists r w w' ra cl, Do V r w = (w', Answer 200 ra cl body None).

Lemma downloadMedia_served url s s' body : downloadMedia url s = (s', Ok body) -> served body.
Proof.
  unfold media.downloadMedia, doMediaDownloadRequest, in_world. intros H. stm_inv H. stm_inv E. destruct (Do V _ _) as [w x] eqn:Ed. injection E0 as <- <-.
  destruct x as [e|st ra cl b br]; [done|]. destruct (Z.eqb_spec st 200) as [->|]; [|done]. cbn [negb] in E. injection E as <- <-.
  destruct br; [done|]. injection H as <- <-. by do 5 eexists.
Qed.

Lemma attempts_served n url checksum : forall last s s' file mac, n <> O \/ (forall x, last <> Ok x) ->
  download_attempts n url checksum last s = (s', Ok (file, mac)) ->
  match checksum with
  | None => served file /\ mac = None
  | Some h => exists m, mac = Some m /\ blen m = 10 /\ 10 < blen (file ++ m) /\ served (file ++ m) /\ sha256 (file ++ m) = h
  end.
Proof.
  induction n as [|n IH]; intros last s s' file mac Hlast H; cbn [media.download_attempts] in H.
  { injection H as _ H. destruct Hlast as [|Hlast]; [done|]. by destruct (Hlast (file, mac)). }
  destruct (match checksum with Some _ => _ | None => _ end) as [s1 o] eqn:E. destruct o as [[f m]|e| |]; [|clear E|done..].
  - injection H as <- <- <-. destruct checksum as [h|]; stm_inv E.
    + destruct a as [f' m']. injection E as <- <- <-. unfold downloadEncryptedMedia in E0. destruct (negb _); [done|].
      stm_inv E0. destruct (Z.leb_spec (blen a) mediaHMACLength) as [|Hlen]; [done|]. destruct (bool_decide_reflect (sha256 a = h)) as [Hh|]; [|done].
      injection E0 as <- <- <-. exists (zdrop (blen a - mediaHMACLength) a). rewrite ztake_zdrop. unfold mediaHMACLength in *. split_and!; [done| |done|by eapply downloadMedia_served|done].
      rewrite length_zdrop; lia.
    + injection E as <- <- <-. split; [by eapply downloadMedia_served|done].
  - destruct (shouldRetryMediaDownload V e); [|done]. stm_inv H. destruct a; [done|]. eapply (IH (Err e)); [by right|exact H].
Qed.

(** What comes out of one host. *)
Lemma downloadAndDecrypt_verified url mediaKey appInfo enc hash s s' data : (enc = None -> mediaKey = None) ->
  downloadAndDecrypt url mediaKey appInfo enc hash s = (s', Ok data) ->
  (hash = Some (sha256 data) \/ enc = None /\ hash = None) /\ exists body, served body /\
    match enc with Some h => sha256 body = h /\ sealed_file mediaKey appInfo data body | None => body = data end.
Proof.
  intros Hkey H. unfold media.downloadAndDecrypt in H. destruct (keys_ok mediaKey appInfo) as (iv & ck & mk & rk & Ek & _ & _).
  rewrite Ek in H. rewrite (stm_bind_ok _ _ _ _ _ (lift_ok _ _ _ eq_refl)) in H. cbv beta iota in H.
  apply stm_bind_inv in H as (s1 & [file mac] & E & H).
  unfold downloadPossiblyEncryptedMediaWithRetries in E.
  apply attempts_served in E; [|by left]. destruct enc as [h|].
  - destruct E as (m & -> & Hm & _ & Hserved & Hh). rewrite andb_false_r in H. cbn [is_nil andb] in H. stm_inv H. apply lift_inv in E as [-> Ev].
    unfold validateMedia in Ev. destruct (bool_decide_reflect (ztake mediaHMACLength (hmac_sha256 mk (iv ++ file)) = default [] (Some m))) as [Hmac|]; [|done].
    stm_inv H. apply lift_inv in E as [-> Ed]. destruct (cbcutil.Decrypt _ _ _ _) as [p| | |] eqn:Edec; try done. injection Ed as ->.
    destruct (has_hash a0 hash) eqn:Eh; [|done]. injection H as <- <-. apply has_hash_true in Eh. split; [by left|].
    exists (file ++ m). split; [done|]. split; [done|]. exists iv, ck, mk, rk, file. split_and!; [done| |done]. change 10 with mediaHMACLength. by rewrite Hmac.
  - destruct E as [Hserved ->]. rewrite (Hkey eq_refl) in H. cbn [is_nil andb] in H. destruct (negb (is_nil hash) && _) eqn:Eh; [done|].
    injection H as <- <-. split; [|by exists file]. destruct hash as [x|]; [|by right]. cbn [is_nil negb andb] in Eh. apply negb_false_iff, has_hash_true in Eh. by left.
Qed.

Lemma try_hosts_ok {S A} (nothing : A) (download : string -> stm S media_error A) hosts s s' a :
  try_hosts nothing download hosts s = (s', Ok a) ->
  (hosts = [] /\ a = nothing) \/ exists h s1, download h s1 = (s', Ok a).
Proof.
  revert s. induction hosts as [|h rest IH]; intros s H; cbn [try_hosts] in H; [left; by injection H as _ <-|right].
  destruct (download (Hostname h) s) as [s1 o] eqn:E. destruct o as [x|e| |]; try done.
  - injection H as <- <-. by exists (Hostname h), s.
  - destruct (final_error e); [done|]. destruct rest as [|h' rest]; [done|]. apply IH in H as [[H _]|H]; done.
Qed.

Lemma key_of_none msg : GetFileEncSHA256 msg = None -> key_of msg = None.
Proof. unfold key_of. by intros ->. Qed.

(** (C29) What a download returns is what the message names, whatever the servers
    send: its hash is the one in the message (nothing passes where the message has
    none), and it comes from a body that some server sent, which for an encrypted
    attachment has the hash of the ciphertext, ends in the MAC under the media key
    and decrypts to the data. *)
Theorem Download_verified msg s s' data : Download msg s = (s', Ok (Some data)) ->
  sha256 data = default (replicate 32 x00) (GetFileSHA256 msg) /\
  exists body, served body /\
    match GetFileEncSHA256 msg with
    | Some h => sha256 body = h /\ sealed_file (GetMediaKey msg) (GetMediaType msg) data body
    | None => body = data
    end.
Proof.
  unfold media.Download, DownloadMediaWithPath. intros H. destruct (String.eqb _ _); [done|]. destruct (String.eqb _ _); [done|]. destruct (negb _); [done|].
  stm_inv H. apply try_hosts_ok in H as [[_ [=]]|(h & s1 & H)]. stm_inv H. injection H as <- <-.
  apply downloadAndDecrypt_verified in E0 as (Hh & body & Hserved & Hbody); [|apply key_of_none].
  split.
  - destruct (GetFileSHA256 msg); destruct Hh as [Hh|[_ Hh]]; try discriminate Hh; by injection Hh.
  - exists body. split; [done|]. destruct (GetFileEncSHA256 msg) eqn:E'; [|done]. unfold key_of in Hbody. by rewrite E' in Hbody.
Qed.

(** ** Round trip *)

(** Fields that are no part of the server's answer stay as they are. *)
Definition keeps_fields : Prop := forall b r r', decode_upload V b r = Some r' ->
  r_MediaKey r' = r_MediaKey r /\ r_FileEncSHA256 r' = r_FileEncSHA256 r /\ r_FileSHA256 r' = r_FileSHA256 r /\ r_FileLength r' = r_FileLength r.

Definition posted (body : bytes) : Prop := exists r w w' ra cl b br,
  Method r = "POST" /\ Body r = body /\ ContentLength r = blen body /\ Do V r w = (w', Answer 200 ra cl b br).

Lemma rawUpload_posted data n hash appInfo newsletter r s s' resp : n = blen data ->
  rawUpload V messenger data n hash appInfo newsletter r s = (s', Ok resp) -> posted data /\ exists b, decode_upload V b r = Some resp.
Proof.
  intros -> H. unfold rawUpload in H. stm_inv H. stm_inv H. stm_inv H. unfold in_world in E1. destruct (Do V _ _) as [w x] eqn:Ed. injection E1 as <- <-.
  destruct x as [|st ra cl b br]; [done|]. destruct (Z.eqb_spec st 200) as [->|]; [|done]. cbn [negb] in H. destruct (decode_upload V b r) eqn:Edec; [|done].
  injection H as <- <-. split; [|by exists b]. do 7 eexists. by split_and!; [..|exact Ed].
Qed.

Lemma Upload_sealed p appInfo s s' resp : keeps_fields -> Upload V messenger p appInfo s = (s', Ok resp) ->
  exists key body, posted body /\ r_MediaKey resp = Some key /\ r_FileEncSHA256 resp = Some (sha256 body) /\
    r_FileSHA256 resp = Some (sha256 p) /\ r_FileLength resp = blen p /\ sealed_file (Some key) appInfo p body.
Proof.
  intros Hkeep H. unfold Upload in H. apply stm_bind_inv in H as (s1 & key & _ & H).
  destruct (keys_ok (Some key) appInfo) as (iv & ck & mk & rk & Ek & Hiv & Hck). rewrite Ek in H.
  rewrite (stm_bind_ok _ _ _ _ _ (lift_ok _ _ _ eq_refl)) in H. cbv beta iota in H.
  destruct (cbcutil.Encrypt_shape aes_block_enc None ck iv p Hck Hiv) as [Ee _].
  rewrite Ee in H. cbn [map_err] in H. rewrite (stm_bind_ok _ _ _ _ _ (lift_ok _ _ _ eq_refl)) in H. cbv beta zeta in H.
  apply rawUpload_posted in H as (Hp & b & Hd); [|done]. apply Hkeep in Hd as (-> & -> & -> & ->).
  exists key. eexists. split_and!; [exact Hp|done..|]. exists iv, ck, mk, rk. exists (cbcutil.cipher aes_block_enc ck iv p). split_and!; [done..|]. apply (cbcutil.Decrypt_cipher aes_block_enc aes_block_dec); [done|exact Hiv].
Qed.

(** A message that carries what an upload returned. *)
Definition carries (msg : DownloadableMessage) (appInfo : string) (resp : UploadResponse) : Prop :=
  GetMediaType msg = appInfo /\ appInfo <> "" /\ String.prefix "/" (GetDirectPath msg) = true /\
  GetMediaKey msg = r_MediaKey resp /\ GetFileEncSHA256 msg = r_FileEncSHA256 resp /\ GetFileSHA256 msg = r_FileSHA256 resp.

(** Every download request is answered with the body. *)
Definition serves_now (s : client W) (body : bytes) (s' : client W) : Prop :=
  forall r, Method r = "GET" -> exists ra cl, Do V r (world s) = (world s', Answer 200 ra cl body None) /\ mediaConnCache s' = mediaConnCache s /\ cl <= blen body.

Lemma downloadMedia_serves url s body s' : serves_now s body s' -> downloadMedia url s = (s', Ok body).
Proof.
  intros H. unfold media.downloadMedia, doMediaDownloadRequest, in_world, mbind, stm_bind.
  match goal with |- context [Do V ?r _] => destruct (H r eq_refl) as (ra & cl & E & Hc & _) end. rewrite E. cbn. rewrite <- Hc. by destruct s'.
Qed.

Lemma downloadEncryptedMedia_serves url s c m s' : serves_now s (c ++ m) s' -> c <> [] -> blen m = 10 ->
  downloadEncryptedMedia V messenger UserAgent url (sha256 (c ++ m)) s = (s', Ok (c, m)).
Proof.
  intros H Hc Hm. unfold downloadEncryptedMedia. rewrite blen_sha256. cbn [negb Z.eqb Pos.eqb].
  rewrite (stm_bind_ok _ _ _ _ _ (downloadMedia_serves url _ _ _ H)). rewrite (proj2 (Z.leb_gt _ _)).
  - rewrite bool_decide_eq_true_2 by done. cbn [negb]. by destruct (body_split c m Hm) as [-> ->].
  - rewrite blen_app, Hm. unfold mediaHMACLength. destruct c; [done|]. rewrite blen_cons. pose proof (blen_nonneg c). lia.
Qed.

Lemma Decrypt_nonempty ck iv c p : cbcutil.Decrypt aes_block_dec ck iv c = Ok p -> c <> [].
Proof. intros H ->. unfold cbcutil.Decrypt in H. by destruct (cbcutil.NewCipher ck). Qed.

Lemma downloadAndDecrypt_sealed url key appInfo p body s s' : sealed_file (Some key) appInfo p body -> serves_now s body s' ->
  downloadAndDecrypt url (Some key) appInfo (Some (sha256 body)) (Some (sha256 p)) s = (s', Ok p).
Proof.
  intros (iv & ck & mk & rk & c & Ek & -> & Hd) Hs. unfold media.downloadAndDecrypt. rewrite Ek.
  rewrite (stm_bind_ok _ _ _ _ _ (lift_ok _ _ _ eq_refl)). cbv beta iota. unfold downloadPossiblyEncryptedMediaWithRetries.
  assert (download_attempts 5 url (Some (sha256 (c ++ ztake 10 (hmac_sha256 mk (iv ++ c))))) (Ok ([], None)) s
    = (s', Ok (c, Some (ztake 10 (hmac_sha256 mk (iv ++ c)))))) as Ea.
  { cbn [media.download_attempts]. unfold mbind at 1, stm_bind at 1.
    rewrite (downloadEncryptedMedia_serves url s c _ s') by (done || by eapply Decrypt_nonempty || apply mac_length). done. }
  rewrite (stm_bind_ok _ _ _ _ _ Ea). cbn [is_nil andb]. unfold validateMedia. rewrite bool_decide_eq_true_2 by done.
  rewrite (stm_bind_ok _ _ _ _ _ (lift_ok _ _ _ eq_refl)). rewrite Hd. cbn [map_err].
  rewrite (stm_bind_ok _ _ _ _ _ (lift_ok _ _ _ eq_refl)). by rewrite has_hash_own.
Qed.

(** (C30) What is uploaded downloads again: after an upload that succeeded, a message
    that carries its result downloads to the same bytes from a host that sends the
    body which was posted. *)
Theorem Upload_Download p appInfo s s' resp : keeps_fields -> Upload V messenger p appInfo s = (s', Ok resp) ->
  exists body, posted body /\ r_FileLength resp = blen p /\
    forall msg s1 s2 s3 mc h rest, carries msg appInfo resp -> refreshMediaConn V false s1 = (s2, Ok mc) -> Hosts mc = h :: rest ->
      serves_now s2 body s3 -> Download msg s1 = (s3, Ok (Some p)).
Proof.
  intros Hkeep H. destruct (Upload_sealed _ _ _ _ _ Hkeep H) as (key & body & Hp & Hk & He & Hf & Hl & Hsealed).
  exists body. split; [done|]. split; [done|]. intros msg s1 s2 s3 mc h rest (Ht & Hne & Hpath & Ck & Ce & Cf) Hr Hh Hs.
  unfold media.Download, DownloadMediaWithPath. rewrite Ht, (proj2 (String.eqb_neq appInfo "") Hne).
  destruct (String.eqb_spec (GetDirectPath msg) "") as [E|_]; [by rewrite E in Hpath|]. rewrite Hpath. cbn [negb].
  rewrite (stm_bind_ok _ _ _ _ _ (wrap_ok _ _ _ _ _ Hr)). rewrite Hh. cbn [try_hosts]. unfold key_of.
  rewrite Ck, Ce, Cf, Hk, He, Hf. cbn [is_nil]. rewrite (stm_bind_ok _ _ _ _ _ (downloadAndDecrypt_sealed _ _ _ _ _ _ _ Hsealed Hs)). done.
Qed.

(** ** Uploads from a reader *)

Lemma write_at_fresh (b : bytes) : write_at 0 b [] = b.
Proof. destruct b as [|x b]; [done|]. change (write_at 0 (x :: b) []) with ([] ++ (x :: b) ++ zdrop (0 + blen (x :: b)) []). unfold zdrop. by rewrite drop_nil, app_nil_r. Qed.

Lemma upload_from_fresh p key appInfo c : exists iv ck mk rk f,
  getMediaKeys (Some key) appInfo = Ok (iv, ck, mk, rk) /\
  let body := cbcutil.cipher aes_block_enc ck iv p ++ ztake 10 (hmac_sha256 mk (iv ++ cbcutil.cipher aes_block_enc ck iv p)) in
  let resp := mkUpload "" "" "" "" (Some key) (Some (sha256 body)) (Some (sha256 p)) (blen p) in
  cbcutil.Encrypt aes_block_enc None ck (Some iv) p = Ok (cbcutil.cipher aes_block_enc ck iv p) /\
  upload_from V messenger p key appInfo (c, mkFile [] 0 [] true true)
  = let '(c', o) := rawUpload V messenger body (blen body) (sha256 body) appInfo false resp c in ((c', f), o).
Proof.
  destruct (keys_ok (Some key) appInfo) as (iv & ck & mk & rk & Ek & Hiv & Hck).
  destruct (cbcutil.Encrypt_shape aes_block_enc None ck iv p Hck Hiv) as [Ee _].
  set (body := cbcutil.cipher aes_block_enc ck iv p ++ ztake 10 (hmac_sha256 mk (iv ++ cbcutil.cipher aes_block_enc ck iv p))).
  exists iv, ck, mk, rk, (mkFile body (blen body) [] true true). split; [done|]. cbv zeta. fold body. split; [done|].
  unfold upload_from. rewrite Ek, (stm_bind_ok _ _ _ _ _ (lift_ok _ _ _ eq_refl)). cbv beta iota.
  rewrite (cbcutil.EncryptStream_Encrypt _ aes_block_dec sha256 hmac_sha256 None ck iv mk p _ Hiv Ee). cbn [map_err].
  rewrite (stm_bind_ok _ _ _ _ _ (lift_ok _ _ _ eq_refl)). cbn [cbcutil.written cbcutil.plain_hash cbcutil.cipher_hash cbcutil.plain_size cbcutil.total_size].
  change (take 10 (hmac_sha256 mk (iv ++ cbcutil.cipher aes_block_enc ck iv p))) with (ztake 10 (hmac_sha256 mk (iv ++ cbcutil.cipher aes_block_enc ck iv p))).
  fold body. rewrite (stm_bind_ok _ _ _ (c, mkFile body 0 [] true true) tt) by (unfold write_stream, file_op; cbn; by rewrite write_at_fresh).
  rewrite (stm_bind_ok _ _ _ (c, mkFile body 0 [] true true) tt) by done.
  rewrite (stm_bind_ok _ _ _ (c, mkFile body (blen body) [] true true) body).
  - unfold on_client. replace (blen (cbcutil.cipher aes_block_enc ck iv p) + 10) with (blen body); [done|].
    unfold body. rewrite blen_app. f_equal. apply mac_length.
  - unfold request_body, wrap, ReadRest, file_op. cbn -[Z.max blen]. unfold set_offset. cbn -[Z.max blen]. rewrite Z.max_r by apply blen_nonneg. done.
Qed.

(** Streaming an upload through a temporary file of its own gives what uploading
    the whole slice gives: the same request, the same result or error, and nothing
    left of the caller's file. *)
Theorem UploadReader_Upload p appInfo c f : UploadReader V messenger None p false appInfo (c, f)
  = let '(c', o) := Upload V messenger p appInfo c in ((c', f), o).
Proof.
  unfold UploadReader, Upload, on_client, in_world, mbind, stm_bind. destruct (random_bytes V 32 (world c)) as [w key].
  destruct (upload_from_fresh p key appInfo (mkClient (mediaConnCache c) w)) as (iv & ck & mk & rk & f' & Ek & Ee & Hu).
  cbv beta iota. rewrite Hu, Ek. cbn [lift]. unfold lift. rewrite Ee. cbn [map_err]. by destruct (rawUpload _ _ _ _ _ _ _ _ _).
Qed.

End downloads.
End media_proofs.
