(* ===== verification/MediaFileProofs.v ===== *)
(** * Downloads to a file against downloads to memory

    They agree while every attempt fails before its body or gets all of it, the
    attempts do not run out, and the file is fresh. Where attempts run out the file
    version reports success, and the next host's bytes go behind the last one's. *)

From S2P Require Import Prelude GoStrings StateErr Jid Node Cbc Crypto Requests Media MediaFile MediaProofs.

#[local] Open Scope string_scope.
#[local] Open Scope list_scope.
#[local] Open Scope Z_scope.

Module media_file_proofs.

Import crypto requests media mediafile media_proofs.

Section agree.
Context {C : Crypto} {L : CryptoLaws C} {W : Type} (V : services W) (messenger : option string) (UserAgent : string).
Context (fallocate : Z -> bytes -> bytes).

Notation sm A := (stm (client W) media_error A).
Notation fm A := (stm (client W * File) media_error A).
Notation downloadMedia := (downloadMedia V messenger UserAgent).
Notation downloadEncryptedMedia := (downloadEncryptedMedia V messenger UserAgent).
Notation download_attempts := (download_attempts V messenger UserAgent).
Notation downloadAndDecrypt := (downloadAndDecrypt V messenger UserAgent).
Notation downloadMediaToFile := (downloadMediaToFile V messenger UserAgent fallocate).
Notation downloadEncryptedMediaToFile := (downloadEncryptedMediaToFile V messenger UserAgent fallocate).
Notation download_attempts_to_file := (download_attempts_to_file V messenger UserAgent fallocate).
Notation downloadAndDecryptToFile := (downloadAndDecryptToFile V messenger UserAgent fallocate).

(** Bodies arrive whole and are no shorter than announced; preallocating extends an
    empty file with zeros. *)
Definition whole_bodies : Prop := forall r w w' st ra cl b br, Do V r w = (w', Answer st ra cl b br) -> br = None /\ cl <= blen b.
Definition extends_with_zeros : Prop := forall n, 0 < n -> fallocate n [] = replicate (Z.to_nat n) x00.

Context (Hwhole : whole_bodies) (Hzeros : extends_with_zeros).

Definition fresh (f : File) : Prop := contents f = [] /\ offset f = 0 /\ faults f = [].

(** A file that holds bytes and will not fail. *)
Definition holds (b : bytes) (f : File) : Prop := contents f = b /\ faults f = [].

Lemma fresh_holds f : fresh f -> holds [] f.
Proof. by intros (? & _ & ?). Qed.

Lemma write_over n (b : bytes) : n <= blen b -> write_at 0 b (replicate (Z.to_nat n) x00) = b.
Proof.
  intros H. destruct b as [|x b].
  { unfold blen in H. cbn [length] in H. by replace (Z.to_nat n) with O by lia. }
  set (B := x :: b) in *.
  change (write_at 0 B (replicate (Z.to_nat n) x00)) with
    ([] ++ B ++ zdrop (0 + blen B) (replicate (Z.to_nat n) x00 ++ replicate (Z.to_nat (0 - blen (replicate (Z.to_nat n) x00))) x00)).
  unfold zdrop. rewrite drop_ge; [by rewrite app_nil_r|]. rewrite length_app, !length_replicate.
  pose proof (blen_nonneg B). unfold blen at 1. rewrite length_replicate. lia.
Qed.

(** Operations on a file without faults. *)
Lemma file_op_ok {A} bad (ok : File -> File * outcome media_error A) (c : client W) f : faults f = [] ->
  file_op bad ok (c, f) = ((c, fst (ok f)), snd (ok f)).
Proof.
  intros H. unfold file_op. rewrite H. assert (set_faults (tail []) f = f) as -> by (destruct f; cbn in *; by subst).
  by destruct (ok f).
Qed.

Lemma downloadMediaToFile_agrees url c f : fresh f ->
  match downloadMedia url c with
  | (c', Ok data) => exists f', holds data f' /\ downloadMediaToFile url (c, f) = ((c', f'), Ok (blen data, sha256 data))
  | (c', Err e) => downloadMediaToFile url (c, f) = ((c', f), Err e)
  | _ => False
  end.
Proof.
  intros Hf. unfold media.downloadMedia, mediafile.downloadMediaToFile, doMediaDownloadRequest, on_client, in_world, mbind, stm_bind.
  destruct (Do V _ _) as [w x] eqn:Ed. destruct x as [e|st ra cl b br]; [done|]. apply Hwhole in Ed as [-> Hcl].
  destruct (negb (st =? 200)); [done|]. cbn [mret stm_ret]. destruct f as [co off fa os wa]. destruct Hf as (F1 & F2 & F3). cbn [contents offset faults] in F1, F2, F3. subst co off fa.
  cbn [is_os is_os_file]. set (f1 := if os && (0 <? cl) then mkFile (replicate (Z.to_nat cl) x00) 0 [] os wa else mkFile [] 0 [] os wa).
  assert ((if os && (0 <? cl) then Fallocate fallocate cl else mret tt) (mkClient (mediaConnCache c) w, mkFile [] 0 [] os wa)
    = ((mkClient (mediaConnCache c) w, f1), Ok tt)) as Ef.
  { unfold f1. destruct (os && (0 <? cl)) eqn:E; [|done]. apply andb_true_iff in E as [_ E]. apply Z.ltb_lt in E.
    unfold Fallocate, wrap. rewrite file_op_ok by done. cbn. by rewrite Hzeros. }
  unfold mret, stm_ret in Ef |- *. rewrite Ef. unfold WriteAll. rewrite file_op_ok by (unfold f1; by destruct (os && _)). cbn [fst snd].
  eexists. split; [|reflexivity]. unfold f1. destruct (os && (0 <? cl)) eqn:E; (split; [|done]); cbn.
  - by apply write_over.
  - apply write_at_fresh.
Qed.

(** What an error leaves behind: a fresh file, unless nothing is tried again. *)
Definition left_by (e : media_error) (f : File) : Prop := shouldRetryMediaDownload V e = true -> fresh f.

Lemma downloadEncryptedMediaToFile_agrees url h c f : fresh f ->
  match downloadEncryptedMedia url h c with
  | (c', Ok (file, mac)) => exists f', holds file f' /\ downloadEncryptedMediaToFile url h (c, f) = ((c', f'), Ok mac)
  | (c', Err e) => exists f', left_by e f' /\ downloadEncryptedMediaToFile url h (c, f) = ((c', f'), Err e)
  | _ => False
  end.
Proof.
  intros Hf. unfold media.downloadEncryptedMedia, mediafile.downloadEncryptedMediaToFile. destruct (negb _); [exists f; split; [by intros _|done]|].
  pose proof (downloadMediaToFile_agrees url c f Hf) as H. unfold mbind, stm_bind. destruct (downloadMedia url c) as [c' [data|e| |]]; try done.
  2:{ rewrite H. exists f. split; [by intros _|done]. }
  destruct H as (f' & [Hc Hfa] & ->). destruct (Z.leb_spec (blen data) mediaHMACLength) as [|Hlen]; [exists f'; split; [discriminate|done]|].
  assert (bool_decide (h = sha256 data) = bool_decide (sha256 data = h)) as -> by (apply bool_decide_ext; split; congruence).
  destruct (negb _); [exists f'; split; [discriminate|done]|]. unfold ReadAt, Truncate. unfold mediaHMACLength in *. rewrite file_op_ok by done. cbn [fst snd]. rewrite Hc.
  rewrite (proj2 (Z.ltb_ge _ _)) by lia. rewrite file_op_ok by done. cbn [fst snd mret stm_ret]. rewrite Hc.
  eexists. split.
  2:{ unfold mret, stm_ret. f_equal. f_equal. unfold ztake. rewrite take_ge; [done|]. pose proof (length_zdrop (blen data - 10) data ltac:(lia)) as Hl. unfold blen in Hl at 1. lia. }
  split; [|done]. cbn. unfold truncated. replace (Z.to_nat (blen data - 10 - blen data)) with O by lia. apply app_nil_r.
Qed.

Lemma attempts_agree url checksum n : forall last c f c' o, fresh f ->
  n <> O \/ (exists e, last = Err e /\ shouldRetryMediaDownload V e = true) ->
  download_attempts n url checksum last c = (c', o) -> (forall e, o = Err e -> shouldRetryMediaDownload V e = false) ->
  match o with
  | Ok (file, mac) => exists f', holds file f' /\ download_attempts_to_file n url checksum (c, f) = ((c', f'), Ok mac)
  | Err e => exists f', download_attempts_to_file n url checksum (c, f) = ((c', f'), Err e)
  | _ => False
  end.
Proof.
  induction n as [|n IH]; intros last c f c' o Hf Hn H Ho; cbn [media.download_attempts mediafile.download_attempts_to_file] in *.
  { destruct Hn as [|(e & -> & He)]; [done|]. injection H as <- <-. by rewrite (Ho e eq_refl) in He. }
  assert (match (match checksum with
      | None => (data ← downloadMedia url; mret (data, None)) c
      | Some checksum => ('(file, mac) ← downloadEncryptedMedia url checksum; mret (file, Some mac)) c
      end : client W * outcome media_error (bytes * option bytes)) with
    | (c1, Ok (file, mac)) => exists f', holds file f' /\ (match checksum with
        | None => (_ ← downloadMediaToFile url; mret None) (c, f)
        | Some checksum => (mac ← downloadEncryptedMediaToFile url checksum; mret (Some mac)) (c, f)
        end : (client W * File) * outcome media_error (option bytes)) = ((c1, f'), Ok mac)
    | (c1, Err e) => exists f', left_by e f' /\ (match checksum with
        | None => (_ ← downloadMediaToFile url; mret None) (c, f)
        | Some checksum => (mac ← downloadEncryptedMediaToFile url checksum; mret (Some mac)) (c, f)
        end : (client W * File) * outcome media_error (option bytes)) = ((c1, f'), Err e)
    | _ => False
    end) as Hstep.
  { unfold mbind, stm_bind. destruct checksum as [h|].
    - pose proof (downloadEncryptedMediaToFile_agrees url h c f Hf) as Hd. destruct (downloadEncryptedMedia url h c) as [c1 [[file mac]|e| |]]; try done.
      + destruct Hd as (f' & Hh & ->). by exists f'.
      + destruct Hd as (f' & Hl & ->). by exists f'.
    - pose proof (downloadMediaToFile_agrees url c f Hf) as Hd. destruct (downloadMedia url c) as [c1 [data|e| |]]; try done.
      + destruct Hd as (f' & Hh & ->). by exists f'.
      + rewrite Hd. exists f. split; [by intros _|done]. }
  destruct (match checksum with Some _ => _ | None => _ end) as [c1 o1]. destruct o1 as [[file mac]|e| |]; [|..|done|done].
  - destruct Hstep as (f' & Hh & ->). injection H as <- <-. by exists f'.
  - destruct Hstep as (f' & Hl & ->). destruct (shouldRetryMediaDownload V e) eqn:Er; [|injection H as <- <-; by exists f'].
    specialize (Hl Er). unfold SeekStart, mbind, stm_bind, on_client in H |- *. rewrite file_op_ok by apply Hl. cbn [fst snd].
    assert (set_offset 0 f' = f') as -> by (destruct f', Hl as (_ & E & _); cbn in *; by subst).
    destruct (in_world (wait_retry V) c1) as [c2 [[x|]|e'| |]] eqn:Ew; try done.
    + injection H as <- <-. by exists f'.
    + apply (IH (Err e)); eauto.
    + unfold in_world in Ew. by destruct (wait_retry V (world c1)).
    + unfold in_world in Ew. by destruct (wait_retry V (world c1)).
    + unfold in_world in Ew. by destruct (wait_retry V (world c1)).
Qed.

Lemma seek_ok (c : client W) b f : holds b f -> SeekStart (c, f) = ((c, set_offset 0 f), Ok tt) /\ holds b (set_offset 0 f).
Proof. intros [H1 H2]. unfold SeekStart. by rewrite file_op_ok. Qed.

Lemma read_ok (c : client W) b f : holds b f -> offset f = 0 -> exists f', ReadRest (c, f) = ((c, f'), Ok b) /\ holds b f'.
Proof. intros [H1 H2] H3. unfold ReadRest. rewrite file_op_ok by done. cbn [fst snd]. rewrite H3, H1. by eexists. Qed.

(** The end of a download: the hash of what the file holds. *)
Lemma hash_file_agrees (c : client W) e hash data f : holds data f -> exists f',
  (SeekStart;; data ← ReadRest; if negb (is_hash data hash) then throw e else mret tt) (c, f)
  = ((c, f'), if negb (has_hash data hash) then Err e else Ok tt) /\ contents f' = data.
Proof.
  intros H. destruct (seek_ok c data f H) as [E1 H1]. rewrite (stm_bind_ok _ _ _ _ _ E1).
  destruct (read_ok c data _ H1 eq_refl) as (f' & E2 & H2). rewrite (stm_bind_ok _ _ _ _ _ E2). rewrite is_hash_has_hash.
  exists f'. split; [by destruct (negb _)|apply H2].
Qed.

Lemma DecryptFile_agrees (c : client W) ck iv file f : holds file f -> file <> [] -> blen iv = 16 ->
  exists f', DecryptFile ck iv (c, f) = ((c, f'), match cbcutil.Decrypt aes_block_dec ck iv file with Ok _ => Ok tt | Err e => Err (ErrCipher e) | Panic => Panic | NoFuel => NoFuel end) /\
    forall data, cbcutil.Decrypt aes_block_dec ck iv file = Ok data -> holds data f'.
Proof.
  intros [Hc Hf] Hne Hiv. unfold DecryptFile. rewrite file_op_ok by done. rewrite Hc.
  rewrite (cbcutil.DecryptFile_Decrypt aes_block_enc aes_block_dec ck iv file Hiv).
  destruct file as [|x file]; [done|]. destruct (cbcutil.Decrypt _ _ _ _) as [l|e| |]; [|destruct e|..]; eexists; (split; [reflexivity|]); intros data [=]; by subst.
Qed.

(** (C31) Downloading to a fresh file agrees with downloading to memory: when bodies
    arrive whole and the attempts do not end on an error that asks for another one,
    the same request gives the same error or success, the same state of the client,
    and a file that holds exactly the bytes. *)
Theorem DownloadToFile_agrees url mediaKey appInfo enc hash c c' o f : fresh f ->
  downloadAndDecrypt url mediaKey appInfo enc hash c = (c', o) -> (forall e, o = Err e -> shouldRetryMediaDownload V e = false) ->
  exists f', downloadAndDecryptToFile url mediaKey appInfo enc hash (c, f) = ((c', f'), match o with Ok _ => Ok tt | Err e => Err e | Panic => Panic | NoFuel => NoFuel end) /\
    forall data, o = Ok data -> contents f' = data.
Proof.
  intros Hf H Ho. unfold media.downloadAndDecrypt in H. unfold mediafile.downloadAndDecryptToFile.
  destruct (keys_ok mediaKey appInfo) as (iv & ck & mk & rk & Ek & Hiv & Hck). rewrite Ek in H |- *.
  rewrite (stm_bind_ok _ _ _ _ _ (lift_ok _ _ _ eq_refl)) in H. rewrite (stm_bind_ok _ _ _ _ _ (lift_ok _ _ _ eq_refl)). cbv beta iota in H |- *.
  unfold downloadPossiblyEncryptedMediaWithRetries in H. unfold downloadPossiblyEncryptedMediaWithRetriesToFile.
  unfold mbind at 1, stm_bind at 1 in H. unfold mbind at 1, stm_bind at 1.
  destruct (download_attempts 5 url enc (Ok ([], None)) c) as [c1 oa] eqn:Ea.
  assert (forall e, oa = Err e -> shouldRetryMediaDownload V e = false) as Hoa by (intros e ->; injection H as _ <-; by apply Ho).
  pose proof (fun Hn => attempts_agree url enc 5 _ _ _ _ _ Hf (or_introl Hn) Ea Hoa) as Hat. specialize (Hat ltac:(discriminate)).
  destruct oa as [[file mac]|e| |]; [|..|done|done].
  2:{ destruct Hat as (f' & ->). injection H as <- <-. by exists f'. }
  destruct Hat as (f1 & Hh & ->). destruct (is_nil mediaKey && is_nil enc && is_nil mac).
  - destruct hash as [h|]; cbn [is_nil negb andb] in H |- *; [|injection H as <- <-; exists f1; split; [done|]; by intros ? [= <-]; destruct Hh].
    destruct (hash_file_agrees c1 ErrInvalidUnencryptedMediaSHA256 (Some h) file f1 Hh) as (f' & -> & Hc). exists f'.
    destruct (negb (has_hash file (Some h))); injection H as <- <-; split; [done|done|done|by intros ? [= <-]].
  - apply attempts_served in Ea; [|by left]. unfold validateMediaFile. destruct (seek_ok c1 file f1 Hh) as [E1 H1].
    destruct (read_ok c1 file _ H1 eq_refl) as (f2 & E2 & H2).
    assert ((SeekStart;; file0 ← ReadRest; lift (validateMedia iv file0 mk mac)) (c1, f1) = ((c1, f2), validateMedia iv file mk mac)) as Ev.
    { by rewrite (stm_bind_ok _ _ _ _ _ E1), (stm_bind_ok _ _ _ _ _ E2). }
    unfold mbind at 1, stm_bind at 1. unfold mbind at 1, stm_bind at 1 in H. rewrite Ev. unfold lift at 1 in H.
    destruct (validateMedia iv file mk mac) as [[]|e| |] eqn:Ev'; [|injection H as <- <-; by exists f2..].
    destruct (seek_ok c1 file f2 H2) as [E3 H3]. rewrite (stm_bind_ok _ _ _ _ _ E3).
    assert (file <> []) as Hne.
    { destruct enc as [h|]; [destruct Ea as (m & -> & Hm & Hl & _)|destruct Ea as [_ ->]].
      - intros ->. cbn [app] in Hl. lia.
      - unfold validateMedia in Ev'. destruct (bool_decide _) eqn:Hx; [|discriminate Ev']. apply bool_decide_eq_true_1 in Hx.
        pose proof (mac_length mk (iv ++ file)) as Hl. rewrite Hx in Hl. discriminate Hl. }
    destruct (DecryptFile_agrees c1 ck iv file _ H3 Hne Hiv) as (f3 & E4 & H4). unfold mbind at 1, stm_bind at 1. rewrite E4.
    unfold mbind, stm_bind, lift in H. destruct (cbcutil.Decrypt aes_block_dec ck iv file) as [data|e| |]; cbn [map_err] in H;
      [|injection H as <- <-; by exists f3..].
    destruct (hash_file_agrees c1 ErrInvalidMediaSHA256 hash data f3 (H4 _ eq_refl)) as (f' & -> & Hc). exists f'.
    destruct (negb (has_hash data hash)); injection H as <- <-; split; [done|done|done|by intros ? [= <-]].
Qed.
End agree.
(** ** Where they part *)

Section parting.
Context {C : Crypto} {L : CryptoLaws C} {W : Type} (V : services W) (messenger : option string) (UserAgent CompanionMetaNonce : string).
Context (fallocate : Z -> bytes -> bytes).

(** No request gets through, and every error is one of the network. *)
Definition unreachable : Prop := forall r w, exists w' e, Do V r w = (w', Failed e) /\ is_canceled e = false /\ is_net e = true.

Definition never_done : Prop := forall w, snd (wait_retry V w) = None.

Lemma exhausted_attempts n url c f : unreachable -> never_done -> faults f = [] ->
  exists c' f', download_attempts_to_file V messenger UserAgent fallocate n url None (c, f) = ((c', f'), Ok None) /\
    faults f' = [] /\ contents f' = contents f /\ mediaConnCache c' = mediaConnCache c.
Proof.
  intros Hu Hd. revert c f. induction n as [|n IH]; intros c f Hf; cbn [download_attempts_to_file]; [by exists c, f|].
  unfold downloadMediaToFile, doMediaDownloadRequest, on_client, in_world, mbind, stm_bind.
  match goal with |- context [Do V ?r ?w] => destruct (Hu r w) as (w1 & e & E & Hc & Hn) end. rewrite E. cbn [throw].
  unfold throw. unfold shouldRetryMediaDownload at 1. cbn [errors_canceled]. rewrite Hc, Hn. cbn [orb]. unfold SeekStart. rewrite file_op_ok by done. cbn [fst snd world].
  pose proof (Hd w1) as Hd1. destruct (wait_retry V w1) as [w2 d]. cbn in Hd1. subst d.  cbn [mediaConnCache].
  destruct (IH (mkClient (mediaConnCache c) w2) (set_offset 0 f) Hf) as (c' & f' & -> & H1 & H2 & H3). by exists c', f'.
Qed.

(** A download without hashes from hosts that cannot be reached succeeds, and
    leaves the file as it is. *)
Lemma unreachable_download_succeeds path c c1 f mc h rest : unreachable -> never_done -> faults f = [] ->
  String.prefix "/" path = true -> refreshMediaConn V false c = (c1, Ok mc) -> Hosts mc = h :: rest ->
  exists c' f', DownloadMediaWithOnlyPathToFile V messenger UserAgent fallocate path (c, f) = ((c', f'), Ok tt) /\ contents f' = contents f.
Proof.
  intros Hu Hd Hf Hp Hr Hh. unfold DownloadMediaWithOnlyPathToFile, DownloadMediaWithPathToFile. rewrite Hp. cbn [negb].
  rewrite (stm_bind_ok _ _ _ (c1, f) mc) by (unfold on_client; by rewrite (wrap_ok _ _ _ _ _ Hr)). rewrite Hh. cbn [try_hosts].
  unfold downloadAndDecryptToFile. destruct (keys_ok None "") as (iv & ck & mk & rk & -> & _ & _).
  rewrite (stm_bind_ok _ _ _ _ _ (lift_ok _ _ _ eq_refl)). cbv beta iota. unfold downloadPossiblyEncryptedMediaWithRetriesToFile.
  destruct (exhausted_attempts 5 (media_url path None (type_for "" "") (Hostname h)) c1 f Hu Hd Hf) as (c' & f' & E & _ & Hc & _).
  rewrite (stm_bind_ok _ _ _ _ _ E). by exists c', f'.
Qed.

(** With no hosts there is neither data nor an error, and an upload panics. *)
Lemma no_hosts_download_nothing msg s s1 mc : GetMediaType msg <> "" -> String.prefix "/" (GetDirectPath msg) = true ->
  refreshMediaConn V false s = (s1, Ok mc) -> Hosts mc = [] ->
  Download V messenger UserAgent msg s = (s1, Ok None) /\
  (forall data n hash t nl r, rawUpload V messenger data n hash t nl r s = (s1, Panic)).
Proof.
  intros Ht Hp Hr Hh. split.
  - unfold Download, DownloadMediaWithPath. rewrite (proj2 (String.eqb_neq _ _) Ht).
    destruct (String.eqb_spec (GetDirectPath msg) "") as [E|_]; [by rewrite E in Hp|]. rewrite Hp. cbn [negb].
    rewrite (stm_bind_ok _ _ _ _ _ (wrap_ok _ _ _ _ _ Hr)). by rewrite Hh.
  - intros. unfold rawUpload. rewrite (stm_bind_ok _ _ _ _ _ (wrap_ok _ _ _ _ _ Hr)). unfold upload_host. rewrite Hh. by destruct messenger.
Qed.
End parting.

(** ** A media server *)

Definition toy_conn_answer (hosts : list string) : Node :=
  mkNode "iq" [] (ANodes [mkNode "media_conn" [("auth", AString "a"); ("ttl", AString "60"); ("auth_ttl", AString "60"); ("max_buckets", AString "12")]
    (ANodes (map (fun h => mkNode "host" [("hostname", AString h)] ANil) hosts))]).

(** Where uploads go and downloads come from. *)
Definition toy_media : services (option bytes) := {|
  sendIQ _ w := (w, Ok (toy_conn_answer ["mmg.whatsapp.net"]));
  Do r w := if String.eqb (Method r) "POST" then (Some (Body r), Answer 200 "" 0 [] None)
            else (w, match w with Some b => Answer 200 "" (blen b) b None | None => Answer 404 "" 0 [] None end);
  wait_retry w := (w, None);
  now _ := 0;
  random_bytes n w := (w, replicate n x07);
  should_retry status := 500 <=? status;
  decode_upload _ r := Some (mkUpload "u" "/v/t62" "h" "" (r_MediaKey r) (r_FileEncSHA256 r) (r_FileSHA256 r) (r_FileLength r));
  decode_packs _ := None
|}.

#[local] Instance toy : Crypto := toy_crypto.

Definition toy_start : client (option bytes) := mkClient None None.
Definition toy_text : bytes := [x68; x65; x6c; x6c; x6f].
Definition toy_upload := Upload toy_media None toy_text MediaImage toy_start.

Definition message_of (r : UploadResponse) : DownloadableMessage :=
  mkDownloadable (ProtoMessage "ImageMessage") (r_DirectPath r) (r_MediaKey r) (r_FileSHA256 r) (r_FileEncSHA256 r).

Definition toy_response : UploadResponse := match snd toy_upload with Ok r => r | _ => mkUpload "" "" "" "" None None None 0 end.
Definition toy_message : DownloadableMessage := message_of toy_response.

Lemma toy_keeps : keeps_fields toy_media.
Proof. intros b r r' H. injection H as <-. done. Qed.

Lemma toy_downloads : Download toy_media None "" toy_message (fst toy_upload) = (fst toy_upload, Ok (Some toy_text)).
Proof. vm_compute. reflexivity. Qed.

Lemma Upload_Download_witness : exists body, posted toy_media body /\ r_FileLength toy_response = blen toy_text /\
  forall msg s1 s2 s3 mc h rest, carries msg MediaImage toy_response -> refreshMediaConn toy_media false s1 = (s2, Ok mc) -> Hosts mc = h :: rest ->
    serves_now toy_media s2 body s3 -> Download toy_media None "" msg s1 = (s3, Ok (Some toy_text)).
Proof.
  apply (Upload_Download (L := toy_crypto_laws) toy_media None "" toy_text MediaImage toy_start (fst toy_upload) toy_response toy_keeps).
  vm_compute. reflexivity.
Defined.

Lemma Download_verified_witness : sha256 toy_text = default (replicate 32 x00) (GetFileSHA256 toy_message) /\
  exists body, served toy_media body /\
    match GetFileEncSHA256 toy_message with
    | Some h => sha256 body = h /\ sealed_file (GetMediaKey toy_message) (GetMediaType toy_message) toy_text body
    | None => body = toy_text
    end.
Proof.
  apply (Download_verified toy_media None "" toy_message (fst toy_upload) (fst toy_upload)). vm_compute. reflexivity.
Defined.

Lemma UploadReader_Upload_witness : UploadReader toy_media None None toy_text false MediaImage (toy_start, mkFile [] 0 [] true true)
  = let '(c', o) := Upload toy_media None toy_text MediaImage toy_start in ((c', mkFile [] 0 [] true true), o).
Proof. apply (UploadReader_Upload (L := toy_crypto_laws)). Defined.

Definition toy_file : File := mkFile [] 0 [] true true.
Definition toy_zeros (n : Z) (l : bytes) : bytes := l ++ replicate (Z.to_nat (n - blen l)) x00.

Definition toy_url := media_url "/v/t62" (GetFileEncSHA256 toy_message) "image" "mmg.whatsapp.net".

Lemma DownloadToFile_agrees_witness :
  exists f', downloadAndDecryptToFile toy_media None "" toy_zeros toy_url (GetMediaKey toy_message) MediaImage
      (GetFileEncSHA256 toy_message) (GetFileSHA256 toy_message) (fst toy_upload, toy_file) = ((fst toy_upload, f'), Ok tt) /\
    forall data, Ok (E := media_error) toy_text = Ok data -> contents f' = data.
Proof.
  apply (DownloadToFile_agrees (L := toy_crypto_laws) toy_media None "" toy_zeros) with (o := Ok toy_text).
  - intros r w w' st ra cl b br. cbn. destruct (String.eqb _ _); [intros [= <- <- <- <- <- <-]; done|].
    destruct w; intros [= <- <- <- <- <- <-]; split; done || lia.
  - intros n Hn. unfold toy_zeros. cbn. by rewrite Z.sub_0_r.
  - done.
  - vm_compute. reflexivity.
  - discriminate.
Defined.

(** Two hosts, and the answers there will be. *)
Definition two_hosts : services (list http_answer) := {|
  sendIQ _ w := (w, Ok (toy_conn_answer ["mmg-1.whatsapp.net"; "mmg-2.whatsapp.net"]));
  Do r w := match w with a :: w => (w, a) | [] => ([], Answer 404 "" 0 [] None) end;
  wait_retry w := (w, None);
  now _ := 0;
  random_bytes n w := (w, replicate n x07);
  should_retry status := 500 <=? status;
  decode_upload _ r := Some r;
  decode_packs _ := None
|}.

(** The first host sends something else, the second one the file: downloaded to
    memory it is there, in a file it is refused, because it stands behind what the
    first host sent. *)
Definition other_body : http_answer := Answer 200 "" 0 (replicate 40 x2e) None.
Definition right_body : http_answer := Answer 200 "" 0 (default [] (world (fst toy_upload))) None.

Lemma next_host_appends :
  snd (Download two_hosts None "" toy_message (mkClient None [other_body; right_body])) = Ok (Some toy_text) /\
  exists e, snd (DownloadToFile two_hosts None "" toy_zeros toy_message (mkClient None [other_body; right_body], toy_file)) = Err (ErrLastHost e).
Proof. split; [vm_compute; done|]. eexists. vm_compute. reflexivity. Qed.

(** The sixth answer would have been there: five attempts to memory are an error. *)
Definition net_failure : http_answer := Failed (mkEnvError false true "timeout").

Lemma exhausted_to_memory : snd (DownloadMediaWithOnlyPath two_hosts None "" "/v/t62" (mkClient None (replicate 10 net_failure)))
  = Err (ErrLastHost (ErrHTTP (mkEnvError false true "timeout"))) /\
  snd (DownloadMediaWithOnlyPathToFile two_hosts None "" toy_zeros "/v/t62" (mkClient None (replicate 10 net_failure), toy_file)) = Ok tt.
Proof. vm_compute. done. Qed.

(** A newsletter upload hashes a reader from where it is and sends it from its start. *)
Lemma newsletter_reader_offset : let f := mkFile toy_text 2 [] true true in
  exists r, UploadNewsletterReader toy_media None MediaImage (toy_start, f) = ((mkClient (mediaConnCache (fst toy_upload)) (Some toy_text), set_offset 5 f), Ok r) /\
    r_FileSHA256 r = Some (sha256 (drop 2 toy_text)) /\ r_FileLength r = 3.
Proof. eexists. vm_compute. split; [reflexivity|done]. Qed.

End media_file_proofs.
