(* ===== verification/MediaRetry.v ===== *)
(** * mediaretry.go: asking the phone to upload an attachment again

    The request goes to the own phone, sealed under a key that is derived from the
    media key; the phone answers with a notification sealed under the same key. *)

From S2P Require Import Prelude GoStrings StateErr Jid Node Crypto MsgSecret.

#[local] Open Scope string_scope.
#[local] Open Scope list_scope.
#[local] Open Scope Z_scope.

Module mediaretry.

Import jid attrs crypto.
Import (hints) msgsecret.

(** types/events: MediaRetry; a missing byte slice is nil. *)
Record MediaRetry := mkMediaRetry {
  Ciphertext : option bytes;
  IV : bytes;
  Error : option Z;            (* MediaRetryError: its code *)
  Timestamp : gotime;
  MessageID : string;
  ChatID : JID;
  SenderID : JID;
  FromMe : bool
}.

Inductive media_retry_error :=
  | ErrMarshal
  | ErrEncrypt (e : gcm_error)
  | ErrNotLoggedIn
  | ErrSend
  | ErrMediaNotAvailableOnPhone
  | ErrUnknownMediaRetryError (code : Z)
  | ErrDecrypt (e : gcm_error)
  | ErrUnmarshal
  | ErrAttrs (l : list attr_error)
  | ErrRmrAttrs (l : list attr_error)
  | ElementMissingError (tag : string).

Section retry.
Context {C : Crypto} {N : Type} (marshal_receipt : string -> option bytes) (unmarshal_notification : bytes -> option N).

Definition getMediaRetryKey (mediaKey : bytes) : outcome media_retry_error bytes :=
  match SHA256 mediaKey [] (str_bytes "WhatsApp Media Retry Notification") 32 with Ok k => Ok k | _ => Panic end.

(** [random] is what the random source gives. *)
Definition encryptMediaRetryReceipt (random : bytes) (messageID : string) (mediaKey : bytes) : outcome media_retry_error (bytes * bytes) :=
  match marshal_receipt messageID with
  | None => Err ErrMarshal
  | Some plaintext =>
      let iv := ztake 12 random in
      key ← getMediaRetryKey mediaKey;
      ciphertext ← map_err ErrEncrypt (Encrypt key iv plaintext (str_bytes messageID));
      Ok (ciphertext, iv)
  end.

(** The client's own ID, and what a send does: [send] takes the node and says
    whether it went out. *)
Definition SendMediaRetryReceipt {W} (send : Node -> W -> W * bool) (ownJID : JID) (random : bytes) (message : msgsecret.MessageInfo) (mediaKey : bytes) :
    stm W media_retry_error unit :=
  '(ciphertext, iv) ← lift (encryptMediaRetryReceipt random (msgsecret.ID message) mediaKey);
  let ownID := ToNonAD ownJID in
  if IsEmpty ownID then throw ErrNotLoggedIn
  else
    let rmrAttrs := [("jid", AJID (msgsecret.Chat message)); ("from_me", ABool (msgsecret.IsFromMe message))]
                    ++ (if msgsecret.IsGroup message then [("participant", AJID (msgsecret.Sender message))] else []) in
    fun w =>
      let '(w, ok) := send (mkNode "receipt" [("id", AString (msgsecret.ID message)); ("to", AJID ownID); ("type", AString "server-error")]
        (ANodes [mkNode "encrypt" [] (ANodes [mkNode "enc_p" [] (ABytes ciphertext); mkNode "enc_iv" [] (ABytes iv)]);
                 mkNode "rmr" rmrAttrs ANil])) w in
      (w, if ok then Ok tt else Err ErrSend).

Definition DecryptMediaRetryNotification (evt : MediaRetry) (mediaKey : bytes) : outcome media_retry_error N :=
  match Error evt, Ciphertext evt with
  | Some code, None => if code =? 2 then Err ErrMediaNotAvailableOnPhone else Err (ErrUnknownMediaRetryError code)
  | _, _ =>
      key ← getMediaRetryKey mediaKey;
      plaintext ← map_err ErrDecrypt (Decrypt key (IV evt) (default [] (Ciphertext evt)) (str_bytes (MessageID evt)));
      match unmarshal_notification plaintext with Some n => Ok n | None => Err ErrUnmarshal end
  end.

Definition parseMediaRetryNotification (node : Node) : outcome media_retry_error MediaRetry :=
  let '(t, ag) := UnixTime "t" (AttrGetter node) in
  let '(id, ag) := attrs.String_ "id" ag in
  if negb (OK ag) then Err (ErrAttrs (au_errors ag))
  else
    let '(rmr, ok) := GetOptionalChildByTag node ["rmr"] in
    if negb ok then Err (ElementMissingError "rmr")
    else
      let '(chat, rmrAG) := JID_ "jid" (AttrGetter rmr) in
      let '(fromMe, rmrAG) := Bool "from_me" rmrAG in
      let '(sender, rmrAG) := OptionalJIDOrEmpty "participant" rmrAG in
      if negb (OK rmrAG) then Err (ErrRmrAttrs (au_errors rmrAG))
      else
        let evt c iv e := mkMediaRetry c iv e t id chat sender fromMe in
        let '(errNode, ok) := GetOptionalChildByTag node ["error"] in
        if ok then Ok (evt None [] (Some (fst (Int "code" (AttrGetter errNode)))))
        else
          match node_content (GetChildByTag node ["encrypt"; "enc_p"]) with
          | ABytes c =>
              match node_content (GetChildByTag node ["encrypt"; "enc_iv"]) with
              | ABytes iv => Ok (evt (Some c) iv None)
              | _ => Err (ElementMissingError "enc_iv")
              end
          | _ => Err (ElementMissingError "enc_p")
          end.

(** The events dispatched. *)
Definition handleMediaRetryNotification (node : Node) : outcome media_retry_error (list MediaRetry) :=
  match parseMediaRetryNotification node with
  | Ok evt => Ok [evt]
  | Err _ => Ok []
  | Panic => Panic
  | NoFuel => NoFuel
  end.

(** ** Both directions *)

Lemma retry_key mediaKey : exists k, getMediaRetryKey mediaKey = Ok k /\ length k = 32%nat.
Proof. unfold getMediaRetryKey. rewrite SHA256_ok by lia. eexists. split; [reflexivity|]. by rewrite length_hkdf_bytes. Qed.

(** What the phone sends back: the notification, sealed for the message. *)
Definition answer_node (t id : string) (chat sender : JID) (fromMe : bool) (iv c : bytes) : Node :=
  mkNode "notification" [("t", AString t); ("id", AString id)]
    (ANodes [mkNode "encrypt" [] (ANodes [mkNode "enc_p" [] (ABytes c); mkNode "enc_iv" [] (ABytes iv)]);
             mkNode "rmr" [("jid", AJID chat); ("from_me", AString (format_bool fromMe)); ("participant", AJID sender)] ANil]).

Context {L : CryptoLaws C}.

(** The phone that holds the media key understands the request, and the client
    its answer: a request that was sent carries a sealed receipt that opens, under
    the retry key and the message's ID, to that ID's receipt; and any notification
    that the phone seals under the same key and ID is dispatched as one event that
    decrypts to it. *)
Theorem media_retry_agrees {W} (send : Node -> W -> W * bool) ownJID random message mediaKey w w' :
  SendMediaRetryReceipt send ownJID random message mediaKey w = (w', Ok tt) ->
  exists k ciphertext iv p rmr,
    getMediaRetryKey mediaKey = Ok k /\
    send (mkNode "receipt" [("id", AString (msgsecret.ID message)); ("to", AJID (ToNonAD ownJID)); ("type", AString "server-error")]
      (ANodes [mkNode "encrypt" [] (ANodes [mkNode "enc_p" [] (ABytes ciphertext); mkNode "enc_iv" [] (ABytes iv)]); rmr])) w = (w', true) /\
    marshal_receipt (msgsecret.ID message) = Some p /\ Decrypt k iv ciphertext (str_bytes (msgsecret.ID message)) = Ok p /\
    forall t z chat sender fromMe iv' c' q n, parse_int t = Ok z -> Encrypt k iv' q (str_bytes (msgsecret.ID message)) = Ok c' ->
      unmarshal_notification q = Some n ->
      exists evt, handleMediaRetryNotification (answer_node t (msgsecret.ID message) chat sender fromMe iv' c') = Ok [evt] /\
        ChatID evt = chat /\ SenderID evt = sender /\ FromMe evt = fromMe /\
        DecryptMediaRetryNotification evt mediaKey = Ok n.
Proof.
  unfold SendMediaRetryReceipt. intros H. apply stm_bind_inv in H as (s1 & [ciphertext iv] & E & H). apply lift_inv in E as [-> E].
  destruct (IsEmpty _); [done|]. destruct (send _ w) as [w1 ok] eqn:Es. injection H as -> H. destruct ok; [clear H|done].
  unfold encryptMediaRetryReceipt in E. destruct (marshal_receipt _) as [p|] eqn:Ep; [|done].
  destruct (retry_key mediaKey) as (k & Ek & _). rewrite Ek, bind_Ok in E. apply bind_inv in E as (c & Ec & E). injection E as -> <-.
  destruct (Encrypt k _ p _) as [c1| | |] eqn:Ee; try done. injection Ec as ->. apply Decrypt_Encrypt_gcm in Ee as Ed.
  exists k, ciphertext, (ztake 12 random), p. eexists. split_and!; [done|exact Es|done|done|].
  intros t z chat sender fromMe iv' c' q n Ht Hc Hn. apply Decrypt_Encrypt_gcm in Hc.
  assert (parse_bool (format_bool fromMe) = Ok fromMe) as Hb by (by destruct fromMe).
  assert (parseMediaRetryNotification (answer_node t (msgsecret.ID message) chat sender fromMe iv' c')
    = Ok (mkMediaRetry (Some c') iv' None (if z =? 0 then ZeroTime else UnixNano (z * 10 ^ 9)) (msgsecret.ID message) chat sender fromMe)) as Hp.
  { unfold parseMediaRetryNotification, answer_node, UnixTime, GetUnixTime, GetInt64, Bool, GetBool, GetParsed, attrs.String_, GetString.
    cbv -[parse_int parse_bool format_bool Z.mul Z.eqb Z.pow]. rewrite Ht, Hb. cbv -[Z.mul Z.eqb Z.pow]. done. }
  unfold handleMediaRetryNotification. rewrite Hp.
  eexists. split_and!; [reflexivity|done..|]. unfold DecryptMediaRetryNotification. cbn [Error Ciphertext IV MessageID default].
  rewrite Ek, bind_Ok. change (id c') with c'. rewrite Hc. cbn [map_err]. rewrite bind_Ok. by rewrite Hn.
Qed.

(** An IV of another length than twelve bytes, which the server sends, panics. *)
Lemma retry_iv_panics c iv t id chat sender fromMe mediaKey : blen iv <> 12 ->
  DecryptMediaRetryNotification (mkMediaRetry (Some c) iv None t id chat sender fromMe) mediaKey = Panic.
Proof.
  intros H. unfold DecryptMediaRetryNotification. cbn [Error Ciphertext IV MessageID]. destruct (retry_key mediaKey) as (k & -> & Hk).
  rewrite bind_Ok. unfold Decrypt. rewrite Prepare_32 by done. rewrite bind_Ok. unfold nonce_ok. by rewrite (proj2 (Z.eqb_neq _ _) H).
Qed.

End retry.

(** ** A phone *)

#[local] Instance toy : Crypto := toy_crypto.

Definition toy_info : msgsecret.MessageInfo := msgsecret.mkInfo (mkJID "12025550123" 0 0 0 "s.whatsapp.net") (mkJID "12025550123" 0 0 0 "s.whatsapp.net") false false "3EB0".
Definition toy_own : JID := mkJID "12025550100" 0 5 0 "s.whatsapp.net".
Definition toy_send (n : Node) (w : list Node) : list Node * bool := (w ++ [n], true).
Definition toy_sent : list Node := fst (SendMediaRetryReceipt (fun id => Some (str_bytes id)) toy_send toy_own (replicate 12 x01) toy_info (replicate 32 x09) []).

Lemma media_retry_agrees_witness :
  exists k ciphertext iv p rmr,
    getMediaRetryKey (replicate 32 x09) = Ok k /\
    toy_send (mkNode "receipt" [("id", AString "3EB0"); ("to", AJID (ToNonAD toy_own)); ("type", AString "server-error")]
      (ANodes [mkNode "encrypt" [] (ANodes [mkNode "enc_p" [] (ABytes ciphertext); mkNode "enc_iv" [] (ABytes iv)]); rmr])) [] = (toy_sent, true) /\
    Some (str_bytes "3EB0") = Some p /\ Decrypt k iv ciphertext (str_bytes "3EB0") = Ok p /\
    forall t z chat sender fromMe iv' c' q n, parse_int t = Ok z -> Encrypt k iv' q (str_bytes "3EB0") = Ok c' -> Some q = Some n ->
      exists evt, handleMediaRetryNotification (answer_node t "3EB0" chat sender fromMe iv' c') = Ok [evt] /\
        ChatID evt = chat /\ SenderID evt = sender /\ FromMe evt = fromMe /\
        DecryptMediaRetryNotification (fun q => Some q) evt (replicate 32 x09) = Ok n.
Proof.
  apply (media_retry_agrees (L := toy_crypto_laws) (fun id => Some (str_bytes id)) (fun q => Some q) toy_send toy_own (replicate 12 x01) toy_info (replicate 32 x09) [] toy_sent).
  vm_compute. reflexivity.
Defined.

End mediaretry.
