(* ===== verification/Settings.v ===== *)
(** * privacysettings.go, broadcast.go and the block list

    Privacy settings are cached behind a pointer that callers and notifications
    share, so the settings live in cells; status broadcasts go to the contacts that
    the status privacy selects; the block list is read and its changes are events. *)

From S2P Require Import Prelude GoStrings StateErr Jid Node Requests Groups Sql Contacts.

#[local] Open Scope string_scope.
#[local] Open Scope list_scope.
#[local] Open Scope Z_scope.

Module settings.

Import jid attrs requests.

(** ** types/user.go *)

Definition PrivacySettingTypeGroupAdd := "groupadd".
Definition PrivacySettingTypeLastSeen := "last".
Definition PrivacySettingTypeStatus := "status".
Definition PrivacySettingTypeProfile := "profile".
Definition PrivacySettingTypeReadReceipts := "readreceipts".
Definition PrivacySettingTypeOnline := "online".
Definition PrivacySettingTypeCallAdd := "calladd".
Definition PrivacySettingTypeMessages := "messages".
Definition PrivacySettingTypeDefense := "defense".
Definition PrivacySettingTypeStickers := "stickers".

(** Ten values of one type: the settings, and which of them changed. *)
Record ten (A : Type) := mkTen {
  GroupAdd : A; LastSeen : A; Status : A; Profile : A; ReadReceipts : A; CallAdd : A; Online : A; Messages : A; Defense : A; Stickers : A
}.
Arguments mkTen {A}.
Arguments GroupAdd {A}. Arguments LastSeen {A}. Arguments Status {A}. Arguments Profile {A}. Arguments ReadReceipts {A}.
Arguments CallAdd {A}. Arguments Online {A}. Arguments Messages {A}. Arguments Defense {A}. Arguments Stickers {A}.

Definition PrivacySettings : Type := ten string.
Definition no_settings : PrivacySettings := mkTen "" "" "" "" "" "" "" "" "" "".
Definition nothing_changed : ten bool := mkTen false false false false false false false false false false.

(** types/events: PrivacySettings. *)
Record PrivacyEvent := mkEvent { NewSettings : PrivacySettings; Changed : ten bool }.

(** The assignment to the field of a setting; other names are none. *)
Definition set_field {A} (name : string) (v : A) (s : ten A) : ten A :=
  match s with
  | mkTen g l st p r c o m d k =>
      if String.eqb name PrivacySettingTypeGroupAdd then mkTen v l st p r c o m d k
      else if String.eqb name PrivacySettingTypeLastSeen then mkTen g v st p r c o m d k
      else if String.eqb name PrivacySettingTypeStatus then mkTen g l v p r c o m d k
      else if String.eqb name PrivacySettingTypeProfile then mkTen g l st v r c o m d k
      else if String.eqb name PrivacySettingTypeReadReceipts then mkTen g l st p v c o m d k
      else if String.eqb name PrivacySettingTypeOnline then mkTen g l st p r c v m d k
      else if String.eqb name PrivacySettingTypeCallAdd then mkTen g l st p r v o m d k
      else if String.eqb name PrivacySettingTypeMessages then mkTen g l st p r c o v d k
      else if String.eqb name PrivacySettingTypeDefense then mkTen g l st p r c o m v k
      else if String.eqb name PrivacySettingTypeStickers then mkTen g l st p r c o m d v
      else s
  end.

Inductive settings_error :=
  | ErrIQ (e : iq_error)
  | ElementMissingError (tag : string)
  | ErrAttrs (l : list attr_error)
  | ErrBroadcastListUnsupported
  | ErrNotLoggedIn
  | ErrContacts (e : sql.sql_error).

(** ** privacysettings.go *)

(** A category of a privacy node, with its values. *)
Definition category (child : Node) : option (string * string) :=
  if negb (String.eqb (node_tag child) "category") then None
  else
    let '(name, ag) := attrs.String_ "name" (AttrGetter child) in
    let '(value, _) := attrs.String_ "value" ag in
    Some (name, value).

Definition parse_child (child : Node) (st : PrivacySettings * ten bool) : PrivacySettings * ten bool :=
  match category child with
  | Some (name, value) => (set_field name value (fst st), set_field name true (snd st))
  | None => st
  end.

(** The settings as they are left, and the event. *)
Definition parsePrivacySettings (privacyNode : Node) (s : PrivacySettings) : PrivacySettings * PrivacyEvent :=
  let '(s, changed) := foldl (fun st child => parse_child child st) (s, nothing_changed) (GetChildren privacyNode) in
  (s, mkEvent no_settings changed).

(** The cells that hold settings, and the one the cache points at. *)
Record client {W : Type} := mkClient {
  cells : list PrivacySettings;
  privacySettingsCache : option nat;
  dispatched : list PrivacyEvent;
  world : W
}.
Arguments client : clear implicits.

Section settings.
Context {W : Type} (sendIQ : infoQuery -> W -> W * outcome iq_error Node).
Notation sm A := (stm (client W) settings_error A).

Definition ask (q : infoQuery) : sm Node := fun s =>
  let '(w, o) := sendIQ q (world s) in (mkClient W (cells s) (privacySettingsCache s) (dispatched s) w, map_err ErrIQ o).

(** A new cell that the cache points at from now on. *)
Definition store_new (v : PrivacySettings) : sm nat := fun s =>
  (mkClient W (cells s ++ [v]) (Some (length (cells s))) (dispatched s) (world s), Ok (length (cells s))).

Definition load (p : nat) : sm PrivacySettings := fun s => (s, match cells s !! p with Some v => Ok v | None => Panic end).

Definition write (p : nat) (v : PrivacySettings) : sm unit := fun s =>
  (mkClient W (<[p := v]> (cells s)) (Some p) (dispatched s) (world s), Ok tt).

Definition dispatchEvent (e : PrivacyEvent) : sm unit := fun s =>
  (mkClient W (cells s) (privacySettingsCache s) (dispatched s ++ [e]) (world s), Ok tt).

(** A pointer to the settings. *)
Definition TryFetchPrivacySettings (ignoreCache : bool) : sm nat := fun s =>
  match privacySettingsCache s, ignoreCache with
  | Some p, false => (s, Ok p)
  | _, _ =>
      (resp ← ask (mkQuery "privacy" "get" ServerJID EmptyJID "" "" (ANodes [mkNode "privacy" [] ANil]) false);
       let '(privacyNode, ok) := GetOptionalChildByTag resp ["privacy"] in
       if negb ok then throw (ElementMissingError "privacy")
       else store_new (fst (parsePrivacySettings privacyNode no_settings))) s
  end.

(** A failed fetch is logged. *)
Definition GetPrivacySettings (messenger : bool) : sm PrivacySettings := fun s =>
  if messenger then (s, Ok no_settings)
  else match (p ← TryFetchPrivacySettings false; load p) s with
       | (s, Err _) => (s, Ok no_settings)
       | r => r
       end.

(** The types whose value is taken over. *)
Definition settable : list string :=
  [PrivacySettingTypeGroupAdd; PrivacySettingTypeLastSeen; PrivacySettingTypeStatus; PrivacySettingTypeProfile;
   PrivacySettingTypeReadReceipts; PrivacySettingTypeOnline; PrivacySettingTypeCallAdd].

Definition SetPrivacySetting (name value : string) : sm PrivacySettings :=
  p ← TryFetchPrivacySettings false;
  _ ← ask (mkQuery "privacy" "set" ServerJID EmptyJID "" ""
        (ANodes [mkNode "privacy" [] (ANodes [mkNode "category" [("name", AString name); ("value", AString value)] ANil])]) false);
  settings ← load p;
  let settings := if existsb (String.eqb name) settable then set_field name value settings else settings in
  store_new settings;;
  mret settings.

(** [seconds] of the timer, rounded down. *)
Definition SetDefaultDisappearingTimer (seconds : Z) : sm unit :=
  _ ← ask (mkQuery "disappearing_mode" "set" ServerJID EmptyJID "" ""
        (ANodes [mkNode "disappearing_mode" [("duration", AString (itoa seconds))] ANil]) false);
  mret tt.

(** The settings are changed where they are. *)
Definition handlePrivacySettingsNotification (privacyNode : Node) : sm unit := fun s =>
  match TryFetchPrivacySettings false s with
  | (s, Ok p) =>
      (settings ← load p;
       let '(settings, evt) := parsePrivacySettings privacyNode settings in
       write p settings;;
       dispatchEvent evt) s
  | (s, Err _) => (s, Ok tt)
  | (s, Panic) => (s, Panic)
  | (s, NoFuel) => (s, NoFuel)
  end.

(** ** broadcast.go *)

Definition StatusPrivacyTypeContacts := "contacts".
Definition StatusPrivacyTypeBlacklist := "blacklist".
Definition StatusPrivacyTypeWhitelist := "whitelist".

Record StatusPrivacy := mkStatus { Type_ : string; List_ : list JID; IsDefault : bool }.

Definition DefaultStatusPrivacy : list StatusPrivacy := [mkStatus StatusPrivacyTypeContacts [] true].

Definition listed_user (child : Node) : option JID :=
  match attr_get "jid" (node_attrs child) with
  | Some (AJID j) => if String.eqb (node_tag child) "user" then Some j else None
  | _ => None
  end.

(** A default moves to the front, and what was there takes its place. *)
Definition add_status (outputs : list StatusPrivacy) (out : StatusPrivacy) : list StatusPrivacy :=
  let outputs := outputs ++ [out] in
  if IsDefault out then
    match outputs with
    | [] => []
    | first :: _ => <[O := out]> (<[(length outputs - 1)%nat := first]> outputs)
    end
  else outputs.

Fixpoint status_lists (l : list Node) (outputs : list StatusPrivacy) : outcome settings_error (list StatusPrivacy) :=
  match l with
  | [] => Ok (match outputs with [] => DefaultStatusPrivacy | _ => outputs end)
  | n :: l =>
      if negb (String.eqb (node_tag n) "list") then status_lists l outputs
      else
        let '(default, ag) := OptionalBool "default" (AttrGetter n) in
        let '(type, ag) := attrs.String_ "type" ag in
        let outputs := add_status outputs (mkStatus type (omap listed_user (GetChildren n)) default) in
        if negb (OK ag) then Err (ErrAttrs (au_errors ag)) else status_lists l outputs
  end.

Definition GetStatusPrivacy : sm (list StatusPrivacy) := fun s =>
  match ask (mkQuery "status" "get" ServerJID EmptyJID "" "" (ANodes [mkNode "privacy" [] ANil]) false) s with
  | (s, Ok resp) => (s, status_lists (GetChildren (GetChildByTag resp ["privacy"])) [])
  | (s, Err (ErrIQ e)) => (s, if group.IQNotFound e then Ok DefaultStatusPrivacy else Err (ErrIQ e))
  | (s, Err e) => (s, Err e)
  | (s, Panic) => (s, Panic)
  | (s, NoFuel) => (s, NoFuel)
  end.

(** The contacts a status goes to: those with a name that are not on the list. *)
Definition selected_contacts (contacts : list (JID * contacts.ContactInfo)) (blacklist : list JID) : list JID :=
  omap (fun '(j, c) => if bool_decide (j ∈ blacklist) then None
                       else if negb (String.eqb (contacts.FullName (contacts.names c)) "") then Some j else None) contacts.

(** [contacts]: what the contact store gives, in the order of the map. *)
Definition getStatusBroadcastRecipients (contacts : outcome sql.sql_error (list (JID * contacts.ContactInfo))) : sm (list JID) :=
  options ← GetStatusPrivacy;
  match options with
  | [] => panic
  | statusPrivacy :: _ =>
      if String.eqb (Type_ statusPrivacy) StatusPrivacyTypeWhitelist then mret (List_ statusPrivacy)
      else
        contacts ← lift (map_err ErrContacts contacts);
        mret (selected_contacts contacts (if String.eqb (Type_ statusPrivacy) StatusPrivacyTypeBlacklist then List_ statusPrivacy else []))
  end.

Definition getBroadcastListParticipants (contacts : outcome sql.sql_error (list (JID * contacts.ContactInfo))) (ownJID j : JID) : sm (list JID) :=
  if negb (bool_decide (j = StatusBroadcastJID)) then throw ErrBroadcastListUnsupported
  else
    list ← getStatusBroadcastRecipients contacts;
    let ownID := ToNonAD ownJID in
    if IsEmpty ownID then throw ErrNotLoggedIn
    else mret (if existsb (fun p => String.eqb (User p) (User ownID)) list then list else list ++ [ownID]).

(** ** The block list *)

Record Blocklist := mkBlocklist { DHash : string; JIDs : list JID }.

Definition blocked (child : Node) : option JID :=
  let '(j, ag) := JID_ "jid" (AttrGetter child) in if OK ag then Some j else None.

Definition parseBlocklist (n : Node) : Blocklist :=
  mkBlocklist (fst (attrs.String_ "dhash" (AttrGetter n))) (omap blocked (GetChildren n)).

Definition GetBlocklist : sm Blocklist :=
  resp ← ask (mkQuery "blocklist" "get" ServerJID EmptyJID "" "" ANil false);
  let '(list, ok) := GetOptionalChildByTag resp ["list"] in
  if negb ok then throw (ElementMissingError "list") else mret (parseBlocklist list).

(** types/events: Blocklist and its changes. *)
Record BlocklistChange := mkChange { change_JID : JID; change_Action : string }.
Record BlocklistEvent := mkBlockEvent { Action : string; event_DHash : string; PrevDHash : string; Changes : list BlocklistChange }.

Definition block_change (child : Node) : option BlocklistChange :=
  let '(j, ag) := JID_ "jid" (AttrGetter child) in
  let '(action, ag) := attrs.String_ "action" ag in
  if OK ag then Some (mkChange j action) else None.

(** The event that is dispatched. *)
Definition handleBlocklist (n : Node) : BlocklistEvent :=
  let '(action, ag) := OptionalString "action" (AttrGetter n) in
  let '(dhash, ag) := attrs.String_ "dhash" ag in
  let '(prev, _) := OptionalString "prev_dhash" ag in
  mkBlockEvent action dhash prev (omap block_change (GetChildren n)).

(** ** Parsing: the last category of a name wins *)

Definition get_field {A} (name : string) (s : ten A) : option A :=
  if String.eqb name PrivacySettingTypeGroupAdd then Some (GroupAdd s)
  else if String.eqb name PrivacySettingTypeLastSeen then Some (LastSeen s)
  else if String.eqb name PrivacySettingTypeStatus then Some (Status s)
  else if String.eqb name PrivacySettingTypeProfile then Some (Profile s)
  else if String.eqb name PrivacySettingTypeReadReceipts then Some (ReadReceipts s)
  else if String.eqb name PrivacySettingTypeOnline then Some (Online s)
  else if String.eqb name PrivacySettingTypeCallAdd then Some (CallAdd s)
  else if String.eqb name PrivacySettingTypeMessages then Some (Messages s)
  else if String.eqb name PrivacySettingTypeDefense then Some (Defense s)
  else if String.eqb name PrivacySettingTypeStickers then Some (Stickers s)
  else None.

Definition known : list string := settable ++ [PrivacySettingTypeMessages; PrivacySettingTypeDefense; PrivacySettingTypeStickers].

Lemma known_cases (P : string -> Prop) : Forall P known -> forall name, name ∈ known -> P name.
Proof. intros H name Hn. rewrite Forall_forall in H. by apply H. Qed.

Lemma get_set_same {A} name (v : A) s : name ∈ known -> get_field name (set_field name v s) = Some v.
Proof. revert name. apply known_cases. destruct s. repeat constructor. Qed.

(** Cases on what a name is compared with. *)
Ltac by_name name := repeat match goal with |- context [String.eqb name ?c] => destruct (String.eqb_spec name c) as [->|] end.

Lemma set_unknown {A} name (v : A) s : name ∉ known -> set_field name v s = s.
Proof.
  intros H. destruct s. unfold set_field. by_name name; [exfalso; apply H; apply (bool_decide_unpack _); vm_compute; exact I..|]. done.
Qed.

Lemma get_set_other {A} name name' (v : A) s : name <> name' -> get_field name (set_field name' v s) = get_field name s.
Proof.
  intros H. destruct (decide (name' ∈ known)) as [Hk|Hk]; [|by rewrite set_unknown].
  revert name' Hk H. apply (known_cases (fun n => name <> n -> get_field name (set_field n v s) = get_field name s)). destruct s.
  repeat (apply List.Forall_cons; [intros H;
    match goal with |- context [set_field ?n ?v ?s] => let x := eval cbv in (set_field n v s) in change (set_field n v s) with x end;
    unfold get_field; by_name name; done|]).
  apply List.Forall_nil.
Qed.

(** The values that a node gives a setting, in order. *)
Definition values (name : string) (l : list Node) : list string :=
  omap (fun n => match category n with Some (k, v) => if String.eqb k name then Some v else None | None => None end) l.

Lemma parse_fold name l : name ∈ known -> forall st, let st' := foldl (fun st child => parse_child child st) st l in
  get_field name (fst st') = match last (values name l) with Some v => Some v | None => get_field name (fst st) end /\
  get_field name (snd st') = match values name l with [] => get_field name (snd st) | _ => Some true end.
Proof.
  intros Hk. induction l as [|n l IH]; intros st; cbn [foldl]; [done|]. specialize (IH (parse_child n st)). cbv zeta in IH |- *. destruct IH as [-> ->].
  unfold values. cbn [omap list_omap]. fold (values name l). unfold parse_child. destruct (category n) as [[k v]|]; [|done].
  cbn [fst snd]. destruct (String.eqb_spec k name) as [->|Hne].
  - rewrite !get_set_same by done. rewrite last_cons. split; [by destruct (last _)|by destruct (values name l)].
  - by rewrite !get_set_other by congruence.
Qed.

(** Each setting becomes the value of its last category and is marked as changed; a
    setting without a category stays as it was; the event's settings are empty. *)
Theorem parse_takes_last node s name : name ∈ known ->
  let '(s', evt) := parsePrivacySettings node s in
  get_field name s' = match last (values name (GetChildren node)) with Some v => Some v | None => get_field name s end /\
  get_field name (Changed evt) = Some (match values name (GetChildren node) with [] => false | _ => true end) /\
  NewSettings evt = no_settings.
Proof.
  intros Hk. unfold parsePrivacySettings. destruct (parse_fold name (GetChildren node) Hk (s, nothing_changed)) as [H1 H2].
  destruct (foldl _ _ _) as [s' changed]. cbn [fst snd] in H1, H2. cbn [Changed NewSettings]. rewrite H1, H2. split; [done|]. split; [|done].
  destruct (values name _); [|done]. revert name Hk H1 H2. apply (known_cases (fun n => _ -> _ -> get_field n nothing_changed = Some false)). repeat constructor.
Qed.

(** ** Setting *)

(** A setting that the server accepted is in the result and in the cache with its
    value, and no other one has changed; three of the types are left at the value
    they had. *)
Theorem SetPrivacySetting_result name value s s' r : SetPrivacySetting name value s = (s', Ok r) ->
  exists s1 p w resp old, TryFetchPrivacySettings false s = (s1, Ok p) /\
    sendIQ (mkQuery "privacy" "set" ServerJID EmptyJID "" ""
      (ANodes [mkNode "privacy" [] (ANodes [mkNode "category" [("name", AString name); ("value", AString value)] ANil])]) false) (world s1) = (w, Ok resp) /\
    cells s1 !! p = Some old /\
    (forall k, get_field k r = if decide (k = name /\ name ∈ settable) then Some value else get_field k old) /\
    exists q, privacySettingsCache s' = Some q /\ cells s' !! q = Some r.
Proof.
  unfold SetPrivacySetting. intros H. apply stm_bind_inv in H as (s1 & p & E1 & H). apply stm_bind_inv in H as (s2 & resp & E2 & H).
  unfold ask in E2. destruct (sendIQ _ (world s1)) as [w o] eqn:Eq. injection E2 as <- E2. destruct o as [x| | |]; try done. injection E2 as ->.
  apply stm_bind_inv in H as (s3 & old & E3 & H). unfold load in E3. cbn [cells] in E3. destruct (cells s1 !! p) as [v|] eqn:Ep; [|done]. injection E3 as <- <-.
  exists s1, p, w, resp, v. split; [done|]. split; [done|]. split; [done|].
  assert (r = if existsb (String.eqb name) settable then set_field name value v else v) as Hr.
  { stm_inv H. injection E as <- <-. by injection H as _ <-. }
  split.
  - intros k. subst r. destruct (existsb (String.eqb name) settable) eqn:Es.
    + apply existsb_exists in Es as (x & Hx & Ex). apply String.eqb_eq in Ex as <-. apply list_elem_of_In in Hx.
      destruct (decide (k = name /\ name ∈ settable)) as [[-> _]|Hn].
      * apply get_set_same. unfold known. set_solver.
      * apply get_set_other. tauto.
    + rewrite decide_False; [done|]. intros [_ Hin]. apply not_true_iff_false in Es. apply Es, existsb_exists.
      exists name. split; [by apply list_elem_of_In|apply String.eqb_refl].
  - stm_inv H. injection E as <- <-. injection H as <- <-. eexists. split; [done|]. cbn [cells]. by rewrite lookup_app_r, Nat.sub_diag by lia.
Qed.

(** ** Status privacy *)

Definition default_first (l : list StatusPrivacy) : Prop :=
  (exists x, x ∈ l /\ IsDefault x = true) -> exists x rest, l = x :: rest /\ IsDefault x = true.

Lemma add_default outputs out : IsDefault out = true -> exists rest, add_status outputs out = out :: rest.
Proof.
  intros Hd. unfold add_status. rewrite Hd. destruct outputs as [|x l]; cbn [app]; [by exists []|].
  destruct (<[_:=x]> (x :: l ++ [out])) as [|y r] eqn:E; [|by exists r]. apply (f_equal length) in E. by rewrite length_insert in E.
Qed.

Lemma add_status_first outputs out : default_first outputs -> default_first (add_status outputs out).
Proof.
  intros H Hex. destruct (IsDefault out) eqn:Ed; [destruct (add_default outputs out Ed) as [rest ->]; by exists out, rest|].
  unfold add_status in *. rewrite Ed in Hex |- *. destruct Hex as (y & Hy & Ey). apply elem_of_app in Hy as [Hy|Hy].
  - destruct H as (z & rest & -> & Ez); [by exists y|]. by exists z, (rest ++ [out]).
  - apply list_elem_of_singleton in Hy as ->. congruence.
Qed.

Lemma status_lists_first l : forall outputs r, default_first outputs -> status_lists l outputs = Ok r -> r <> [] /\ default_first r.
Proof.
  induction l as [|n l IH]; intros outputs r Hd H; cbn [status_lists] in H.
  - injection H as <-. destruct outputs as [|x outputs]; [|done]. split; [done|]. intros _. by eexists _, [].
  - destruct (negb _); [by eapply IH|]. destruct (OptionalBool _ _) as [d ag]. destruct (attrs.String_ _ ag) as [t ag'].
    destruct (negb (OK ag')); [done|]. eapply IH; [|exact H]. by apply add_status_first.
Qed.

Lemma GetStatusPrivacy_first s s' r : GetStatusPrivacy s = (s', Ok r) -> r <> [] /\ default_first r.
Proof.
  unfold GetStatusPrivacy. destruct (ask _ s) as [s1 [resp|e| |]]; try done.
  - intros [= _ H]. apply status_lists_first in H; [done|]. intros (x & Hx & _). by apply elem_of_nil in Hx.
  - destruct e; try done. destruct (group.IQNotFound e); [|done]. intros [= _ <-]. split; [done|]. intros _. by eexists _, [].
Qed.

(** Who gets a status, as the privacy setting says it. *)
Definition selected (p : StatusPrivacy) (contacts : list (JID * contacts.ContactInfo)) (j : JID) : Prop :=
  if decide (Type_ p = StatusPrivacyTypeWhitelist) then j ∈ List_ p
  else (exists c, (j, c) ∈ contacts /\ contacts.FullName (contacts.names c) <> "") /\
       ~ (Type_ p = StatusPrivacyTypeBlacklist /\ j ∈ List_ p).

Lemma selected_contacts_spec cs bl j : j ∈ selected_contacts cs bl <->
  (exists c, (j, c) ∈ cs /\ contacts.FullName (contacts.names c) <> "") /\ j ∉ bl.
Proof.
  unfold selected_contacts. rewrite list_elem_of_omap. split.
  - intros ([j' c] & Hin & H). destruct (bool_decide_reflect (j' ∈ bl)); [done|]. destruct (String.eqb_spec (contacts.FullName (contacts.names c)) ""); [done|].
    injection H as ->. split; [by exists c|done].
  - intros [(c & Hin & Hn) Hb]. exists (j, c). split; [done|]. rewrite bool_decide_eq_false_2 by done.
    by rewrite (proj2 (String.eqb_neq _ _) Hn).
Qed.

Lemma recipients_spec contacts s s' l : getStatusBroadcastRecipients contacts s = (s', Ok l) ->
  exists options first rest, GetStatusPrivacy s = (s', Ok options) /\ options = first :: rest /\
    (Type_ first = StatusPrivacyTypeWhitelist \/ exists cs, contacts = Ok cs) /\
    forall j, j ∈ l <-> selected first (match contacts with Ok cs => cs | _ => [] end) j.
Proof.
  unfold getStatusBroadcastRecipients. intros H. stm_inv H. destruct a as [|first rest]; [done|].
  exists (first :: rest), first, rest. destruct (String.eqb_spec (Type_ first) StatusPrivacyTypeWhitelist) as [Hw|Hw].
  - injection H as <- <-. split_and!; [done|done|by left|]. intros j. unfold selected. by rewrite decide_True.
  - stm_inv H. apply lift_inv in E0 as [-> E0]. destruct contacts as [cs| | |]; try done. injection E0 as ->. injection H as <- <-.
    split_and!; [done|done|right; by eexists|]. intros j. unfold selected. rewrite decide_False by done. rewrite selected_contacts_spec.
    destruct (String.eqb_spec (Type_ first) StatusPrivacyTypeBlacklist) as [Hb|Hb]; [tauto|].
    split; [intros [H _]; split; [done|tauto]|intros [H _]; split; [done|apply not_elem_of_nil]].
Qed.

(** A status goes to exactly the users that the first status privacy setting
    selects, and to the own user: the listed ones for a whitelist, else the contacts
    with a full name that a blacklist does not name. The first setting is a default
    one if there is a default, and there always is a first. *)
Theorem status_recipients contacts ownJID s s' l : getBroadcastListParticipants contacts ownJID StatusBroadcastJID s = (s', Ok l) ->
  exists options first rest, GetStatusPrivacy s = (s', Ok options) /\ options = first :: rest /\ default_first options /\
    (exists p, p ∈ l /\ User p = User ownJID) /\
    forall j, j ∈ l <-> selected first (match contacts with Ok cs => cs | _ => [] end) j \/
      (j = ToNonAD ownJID /\ forall k, selected first (match contacts with Ok cs => cs | _ => [] end) k -> User k <> User ownJID).
Proof.
  unfold getBroadcastListParticipants. rewrite bool_decide_eq_true_2 by done. cbn [negb]. intros H.
  apply stm_bind_inv in H as (s1 & r & E & H). apply recipients_spec in E as (options & first & rest & Eo & -> & _ & Hr).
  destruct (IsEmpty (ToNonAD ownJID)); [done|]. injection H as <- <-.
  exists (first :: rest), first, rest. destruct (GetStatusPrivacy_first _ _ _ Eo) as [_ Hf]. split_and!; [done|done|done|..].
  all: change (User (ToNonAD ownJID)) with (User ownJID).
  - destruct (existsb _ r) eqn:Ex.
    + apply existsb_exists in Ex as (p & Hp & Eu). apply String.eqb_eq in Eu. exists p. by apply list_elem_of_In in Hp.
    + exists (ToNonAD ownJID). split; [set_solver|done].
  - intros j. destruct (existsb _ r) eqn:Ex.
    + apply existsb_exists in Ex as (p & Hp & Eu). apply String.eqb_eq in Eu. apply list_elem_of_In, Hr in Hp. rewrite Hr.
      split; [by left|]. intros [H|[_ H]]; [done|by destruct (H p Hp)].
    + rewrite elem_of_app, list_elem_of_singleton, Hr. split; [|tauto]. intros [H|H]; [by left|right]. split; [done|].
      intros k Hk Eu. apply Hr in Hk. apply not_true_iff_false in Ex. apply Ex, existsb_exists. exists k. split; [by apply list_elem_of_In|by apply String.eqb_eq].
Qed.

End settings.

(** ** A server *)

Definition category_node (name value : string) : Node := mkNode "category" [("name", AString name); ("value", AString value)] ANil.

Definition toy_alice : JID := mkJID "15551234567" 0 0 0 DefaultUserServer.
Definition toy_bob : JID := mkJID "15557654321" 0 0 0 DefaultUserServer.
Definition toy_carol : JID := mkJID "15550000001" 0 0 0 DefaultUserServer.
Definition toy_own : JID := mkJID "15559999999" 0 3 0 DefaultUserServer.

Definition user_node (j : JID) : Node := mkNode "user" [("jid", AJID j)] ANil.

Definition toy_lists : Node := mkNode "iq" [] (ANodes [mkNode "privacy" [] (ANodes
  [mkNode "list" [("type", AString "whitelist")] (ANodes [user_node toy_carol]);
   mkNode "list" [("type", AString "blacklist"); ("default", AString "true")] (ANodes [user_node toy_bob])])]).

Definition toy_server (q : infoQuery) (w : unit) : unit * outcome iq_error Node :=
  (tt, Ok (if String.eqb (q_namespace q) "status" then toy_lists
           else if String.eqb (q_type q) "get" then
             mkNode "iq" [] (ANodes [mkNode "privacy" [] (ANodes [category_node "last" "all"; category_node "messages" "all"])])
           else mkNode "iq" [] ANil)).

Definition toy_client : client unit := mkClient unit [] None [] tt.

Definition named (n : string) : contacts.ContactInfo := contacts.mkInfo true (contacts.mkContact n n "" "" "").

Definition toy_contacts : list (JID * contacts.ContactInfo) := [(toy_alice, named "Alice"); (toy_bob, named "Bob"); (toy_carol, named "")].

Lemma status_recipients_witness :
  exists options first rest, GetStatusPrivacy toy_server toy_client = (toy_client, Ok options) /\ options = first :: rest /\ default_first options /\
    (exists p, p ∈ [toy_alice; ToNonAD toy_own] /\ User p = User toy_own) /\
    forall j, j ∈ [toy_alice; ToNonAD toy_own] <-> selected first toy_contacts j \/
      (j = ToNonAD toy_own /\ forall k, selected first toy_contacts k -> User k <> User toy_own).
Proof.
  apply (status_recipients toy_server (Ok toy_contacts) toy_own toy_client toy_client [toy_alice; ToNonAD toy_own]). vm_compute. reflexivity.
Defined.

Lemma parse_takes_last_witness :
  let node := mkNode "privacy" [] (ANodes [category_node "last" "all"; category_node "last" "none"]) in
  let '(s', evt) := parsePrivacySettings node no_settings in
  get_field "last" s' = match last (values "last" (GetChildren node)) with Some v => Some v | None => get_field "last" no_settings end /\
  get_field "last" (Changed evt) = Some (match values "last" (GetChildren node) with [] => false | _ => true end) /\
  NewSettings evt = no_settings.
Proof. apply parse_takes_last. apply (bool_decide_unpack _). vm_compute. exact I. Defined.

(** ** What is not taken over, and what is shared *)

(** The server has taken the value; the result and the cache have the old one. *)
Lemma set_messages_stays : exists s r, SetPrivacySetting toy_server "messages" "contacts" toy_client = (s, Ok r) /\ Messages r = "all" /\
  GetPrivacySettings toy_server false s = (s, Ok r).
Proof. do 2 eexists. vm_compute. done. Qed.

(** Settings that were fetched before a notification are not the same after it. *)
Lemma fetched_settings_change : exists p s1 s2, TryFetchPrivacySettings toy_server false toy_client = (s1, Ok p) /\
  handlePrivacySettingsNotification toy_server (mkNode "privacy" [] (ANodes [category_node "last" "none"])) s1 = (s2, Ok tt) /\
  LastSeen <$> cells s1 !! p = Some "all" /\ LastSeen <$> cells s2 !! p = Some "none".
Proof. do 3 eexists. vm_compute. done. Qed.

End settings.
