(* ===== verification/Users.v ===== *)
(** * user.go: users, their names, links and block requests

    What is asked of the server about users and what the answers leave in the LID
    map and the contact store. Device lists are in Devices.v. *)

From S2P Require Import Prelude GoStrings StateErr Jid Node Requests Groups Sql LidMap Contacts Devices Settings.

#[local] Open Scope string_scope.
#[local] Open Scope list_scope.
#[local] Open Scope Z_scope.

Module users.

Import jid attrs requests.

Definition BusinessMessageLinkPrefix := "https://wa.me/message/".
Definition ContactQRLinkPrefix := "https://wa.me/qr/".
Definition BusinessMessageLinkDirectPrefix := "https://api.whatsapp.com/message/".
Definition ContactQRLinkDirectPrefix := "https://api.whatsapp.com/qr/".
Definition NewsletterLinkPrefix := "https://whatsapp.com/channel/".

(** [strings.TrimSuffix]. *)
Definition trim_suffix (suffix s : string) : string :=
  let n := (String.length s - String.length suffix)%nat in
  if (String.length suffix <=? String.length s)%nat && String.eqb (String.substring n (String.length suffix) s) suffix then String.substring 0 n s else s.

Inductive user_error :=
  | ErrIQ (e : iq_error)
  | ErrBusinessMessageLinkNotFound (e : iq_error)
  | ErrContactQRLinkNotFound (e : iq_error)
  | ErrProfilePictureUnauthorized (e : iq_error)
  | ErrProfilePictureNotSet (e : option iq_error)
  | ElementMissingError (tag : string)
  | ErrAttrs (l : list attr_error)
  | ErrUsync (e : devices.device_error)
  | ErrLIDs (e : lidmap.lid_error)            (* "failed to store LID mappings", "failed to get LID for PN", ... *)
  | ErrNoLID (j : JID)
  | ErrMissingJID.

Section users.
(** Protobuf: a certificate with its details and the name in them. *)
Context {Cert Details : Type} (unmarshal_cert : bytes -> option Cert) (cert_details : Cert -> bytes)
        (unmarshal_details : bytes -> option Details) (verified_name : Details -> string).

(** ** Verified names *)

Record VerifiedName := mkVerified {
  Certificate : Cert; v_Details : Details; VerifiedLevel : string; Version : Z; HostStorage : Z; ActualActors : Z; PrivacyModeTS : gotime
}.

Definition bytes_of (n : Node) : option bytes := match node_content n with ABytes b => Some b | _ => None end.

(** The content as a string; none where it is not bytes. *)
Definition text_of (n : Node) : string := match bytes_of n with Some b => bytes_str b | None => "" end.

(** The error of a protobuf that does not parse is [Err tt]; without bytes there is no name. *)
Definition parseVerifiedNameContent (verifiedNameNode : Node) : outcome unit (option VerifiedName) :=
  match bytes_of verifiedNameNode with
  | None => Ok None
  | Some rawCert =>
      match unmarshal_cert rawCert with
      | None => Err tt
      | Some cert =>
          match unmarshal_details (cert_details cert) with
          | None => Err tt
          | Some details =>
              let '(level, ag) := attrs.String_ "verified_level" (AttrGetter verifiedNameNode) in
              let '(v, ag) := Int "v" ag in
              let '(storage, ag) := Int "host_storage" ag in
              let '(actors, ag) := Int "actual_actors" ag in
              let '(ts, _) := UnixTime "privacy_mode_ts" ag in
              Ok (Some (mkVerified cert details level v storage actors ts))
          end
      end
  end.

Definition parseVerifiedName (businessNode : Node) : outcome unit (option VerifiedName) :=
  if negb (String.eqb (node_tag businessNode) "business") then Ok None
  else
    let '(n, ok) := GetOptionalChildByTag businessNode ["verified_name"] in
    if ok then parseVerifiedNameContent n else Ok None.

(** A failure to parse is logged. *)
Definition verified_or_none (businessNode : Node) : option VerifiedName :=
  match parseVerifiedName businessNode with Ok v => v | _ => None end.

(** ** The client *)

Inductive name_event :=
  | PushName (j jAlt : JID) (message : option string) (oldName newName : string)
  | BusinessName (j : JID) (message : option string) (oldName newName : string).

Context {W : Type}.

Record client := mkClient {
  lid_store : lidmap.CachedLIDMap;
  contact_db : contacts.contact_store;
  dispatched : list name_event;
  world : W
}.

Record services := mkServices {
  sendIQ : infoQuery -> W -> W * outcome iq_error Node;
  request_id : W -> W * string;
  ensureTCToken : JID -> W -> W * option bytes;       (* its error is logged *)
  sendMex : string -> string -> W -> W * outcome iq_error string;    (* query ID, variables, result *)
  dedup : list lidmap.LIDMapping -> list lidmap.LIDMapping;
  base64_decode : string -> bytes                     (* what StdEncoding decodes, errors ignored *)
}.

Context (V : services).

Notation sm A := (stm client user_error A).

Definition in_world {A} (f : W -> W * A) : sm A := fun s =>
  let '(w, a) := f (world s) in (mkClient (lid_store s) (contact_db s) (dispatched s) w, Ok a).

Definition ask (q : infoQuery) : sm Node := o ← in_world (sendIQ V q); lift (map_err ErrIQ o).

(** A known error is given another name. *)
Definition ask_or (known : iq_error -> option user_error) (q : infoQuery) : sm Node :=
  wrap (fun e => match e with ErrIQ i => default e (known i) | e => e end) (ask q).

Definition lids {A} (m : stm lidmap.CachedLIDMap lidmap.lid_error A) : sm A := fun s =>
  let '(l, o) := m (lid_store s) in (mkClient l (contact_db s) (dispatched s) (world s), map_err ErrLIDs o).

Definition child_of (n : Node) (tag : string) : outcome user_error Node :=
  let '(c, ok) := GetOptionalChildByTag n [tag] in if ok then Ok c else Err (ElementMissingError tag).

Definition logged {A} (m : sm A) : sm unit := fun s =>
  match m s with
  | (s, Panic) => (s, Panic)
  | (s, NoFuel) => (s, NoFuel)
  | (s, _) => (s, Ok tt)
  end.

(** ** Links *)

Record BusinessMessageLinkTarget := mkBusinessLink {
  b_JID : JID; b_PushName : string; b_VerifiedName : string; b_IsSigned : bool; b_VerifiedLevel : string; b_Message : string
}.

Definition qr_query (type : string) (attrs : Attrs) : infoQuery := mkQuery "w:qr" type EmptyJID EmptyJID "" "" (ANodes [mkNode "qr" attrs ANil]) false.

Definition ResolveBusinessMessageLink (code : string) : sm BusinessMessageLinkTarget :=
  resp ← ask_or (fun e => if group.IQNotFound e then Some (ErrBusinessMessageLinkNotFound e) else None)
    (qr_query "get" [("code", AString (group.stripURLPrefix code [BusinessMessageLinkPrefix; BusinessMessageLinkDirectPrefix]))]);
  qrChild ← lift (child_of resp "qr");
  let '(j, ag) := JID_ "jid" (AttrGetter qrChild) in
  let '(notify, ag) := attrs.String_ "notify" ag in
  let message := match GetOptionalChildByTag qrChild ["message"] with (c, true) => text_of c | _ => "" end in
  let '(signed, name, level) :=
    match GetOptionalChildByTag qrChild ["business"] with
    | (c, true) =>
        let '(signed, bag) := OptionalBool "is_signed" (AttrGetter c) in
        let '(name, bag) := OptionalString "verified_name" bag in
        let '(level, _) := OptionalString "verified_level" bag in
        (signed, name, level)
    | _ => (false, "", "")
    end in
  if OK ag then mret (mkBusinessLink j notify name signed level message) else throw (ErrAttrs (au_errors ag)).

Record ContactQRLinkTarget := mkContactLink { c_JID : JID; c_Type : string; c_PushName : string }.

Definition ResolveContactQRLink (code : string) : sm ContactQRLinkTarget :=
  resp ← ask_or (fun e => if group.IQNotFound e then Some (ErrContactQRLinkNotFound e) else None)
    (qr_query "get" [("code", AString (group.stripURLPrefix code [ContactQRLinkPrefix; ContactQRLinkDirectPrefix]))]);
  qrChild ← lift (child_of resp "qr");
  let '(j, ag) := JID_ "jid" (AttrGetter qrChild) in
  let '(notify, ag) := OptionalString "notify" ag in
  let '(type, ag) := attrs.String_ "type" ag in
  if OK ag then mret (mkContactLink j type notify) else throw (ErrAttrs (au_errors ag)).

Definition GetContactQRLink (revoke : bool) : sm string :=
  resp ← ask (qr_query "set" [("type", AString "contact"); ("action", AString (if revoke then "revoke" else "get"))]);
  qrChild ← lift (child_of resp "qr");
  let '(code, ag) := attrs.String_ "code" (AttrGetter qrChild) in
  if OK ag then mret code else throw (ErrAttrs (au_errors ag)).

Definition mutationUpdateTextStatus := "9152604461510864".

(** [input]: the JSON of the status. *)
Definition SetStatusMessage (input : string) : sm unit :=
  o ← in_world (sendMex V mutationUpdateTextStatus input);
  _ ← lift (map_err ErrIQ o);
  mret tt.

(** ** Names *)

(** An operation of the contact store whose error is logged. *)
Definition contact_op {A} (m : stm contacts.contact_store sql.sql_error A) : sm (option A) := fun s =>
  let '(d, o) := m (contact_db s) in
  (mkClient (lid_store s) d (dispatched s) (world s),
   match o with Ok a => Ok (Some a) | Err _ => Ok None | Panic => Panic | NoFuel => NoFuel end).

(** store.go: Device.GetAltJID; its error is dropped here. *)
Definition GetAltJID (j : JID) : sm JID := fun s =>
  let run m := let '(l, o) := m (lid_store s) in
    (mkClient l (contact_db s) (dispatched s) (world s), match o with Ok j => Ok j | Err _ => Ok EmptyJID | Panic => Panic | NoFuel => NoFuel end) in
  if String.eqb (Server j) DefaultUserServer then run (lidmap.GetLIDForPN j)
  else if String.eqb (Server j) HiddenUserServer then run (lidmap.GetPNForLID j)
  else (s, Ok EmptyJID).

Definition dispatchEvent (e : name_event) : sm unit := fun s =>
  (mkClient (lid_store s) (contact_db s) (dispatched s ++ [e]) (world s), Ok tt).

(** The name of a user and, when it is new, of the user's other address. *)
Definition update_name (put : JID -> string -> stm contacts.contact_store sql.sql_error (bool * string)) (event : JID -> string -> name_event)
    (user userAlt : JID) (name : string) : sm unit :=
  r ← contact_op (put user name);
  match r with
  | Some (true, previousName) =>
      let userAlt := ToNonAD userAlt in
      userAlt ← (if IsEmpty userAlt then GetAltJID user else mret userAlt);
      _ ← (if IsEmpty userAlt then mret None else contact_op (put userAlt name));
      dispatchEvent (event userAlt previousName)
  | _ => mret tt
  end.

Definition updatePushName (user userAlt : JID) (messageInfo : option string) (name : string) : sm unit :=
  let user := ToNonAD user in
  update_name contacts.PutPushName (fun alt old => PushName user alt messageInfo old name) user userAlt name.

Definition updateBusinessName (user userAlt : JID) (messageInfo : option string) (name : string) : sm unit :=
  update_name contacts.PutBusinessName (fun _ old => BusinessName user messageInfo old name) user userAlt name.

(** A user ID and a push name of a history sync. *)
Fixpoint handleHistoricalPushNames (names : list (string * string)) : sm unit :=
  match names with
  | [] => mret tt
  | (id, pushname) :: names =>
      (if String.eqb pushname "-" then mret tt
       else match ParseJID id with
            | Ok j => _ ← contact_op (contacts.PutPushName j pushname); mret tt
            | _ => mret tt
            end);;
      handleHistoricalPushNames names
  end.

(** ** Queries about users *)

(** One user of a query; a token is asked for where it will be needed. *)
Definition usync_user (personas : list (JID * string)) (IncludePrivacyToken : bool) (j : JID) : sm Node :=
  let user := ToNonAD j in
  let wanted := (String.eqb (Server user) DefaultUserServer || String.eqb (Server user) HiddenUserServer) && negb (IsBot user) && IncludePrivacyToken in
  token ← (if wanted then in_world (ensureTCToken V user) else mret None);
  lift (map_err ErrUsync (devices.usync_user (fun _ => token) personas IncludePrivacyToken j)).

Fixpoint usync_users (personas : list (JID * string)) (IncludePrivacyToken : bool) (jids : list JID) : sm (list Node) :=
  match jids with
  | [] => mret []
  | j :: jids => n ← usync_user personas IncludePrivacyToken j; l ← usync_users personas IncludePrivacyToken jids; mret (n :: l)
  end.

Definition usync (jids : list JID) (mode context : string) (query : list Node) (personas : list (JID * string)) (IncludePrivacyToken : bool) : sm Node :=
  users ← usync_users personas IncludePrivacyToken jids;
  sid ← in_world (request_id V);
  resp ← ask (mkQuery "usync" "get" ServerJID EmptyJID "" "" (ANodes [devices.usync_content sid mode context query users]) false);
  let '(list, ok) := GetOptionalChildByTag resp ["usync"; "list"] in
  if ok then mret list else throw (ElementMissingError "list").

Record IsOnWhatsAppResponse := mkOn { on_Query : string; on_JID : JID; on_IsIn : bool; on_PhoneNumber : JID; on_VerifiedName : option VerifiedName }.

Definition verified_name_query : Node := mkNode "business" [] (ANodes [mkNode "verified_name" [] ANil]).

(** One user of the answer. *)
Definition on_whatsapp (child : Node) : option IsOnWhatsAppResponse :=
  let '(j, ag) := OptionalJIDOrEmpty "jid" (AttrGetter child) in
  let '(pnJID, _) := OptionalJIDOrEmpty "pn_jid" ag in
  if negb (String.eqb (node_tag child) "user") || (IsEmpty j && IsEmpty pnJID) then None
  else
    let contactNode := GetChildByTag child ["contact"] in
    Some (mkOn (trim_suffix ("@" +:+ LegacyUserServer) (text_of contactNode)) (if IsEmpty j then pnJID else j)
      (String.eqb (fst (attrs.String_ "type" (AttrGetter contactNode))) "in") pnJID (verified_or_none (GetChildByTag child ["business"]))).

Definition on_mapping (r : IsOnWhatsAppResponse) : option lidmap.LIDMapping :=
  if String.eqb (Server (on_JID r)) HiddenUserServer && String.eqb (Server (on_PhoneNumber r)) DefaultUserServer
  then Some (lidmap.mkMapping (on_JID r) (on_PhoneNumber r)) else None.

Definition IsOnWhatsApp (phones : list string) : sm (list IsOnWhatsAppResponse) :=
  list ← usync (map (fun p => NewJID p LegacyUserServer) phones) "query" "interactive"
    [mkNode "contact" [("addressing_mode", AString "lid")] ANil; verified_name_query; mkNode "disappearing_mode" [] ANil; mkNode "username" [] ANil] [] false;
  let output := omap on_whatsapp (GetChildren list) in
  match omap on_mapping output with
  | [] => mret output
  | lidEntries => lids (lidmap.PutManyLIDMappings (dedup V) lidEntries);; mret output
  end.

Record UserInfo := mkUserInfo { u_VerifiedName : option VerifiedName; u_Status : string; u_PictureID : string; u_Devices : list JID; u_LID : JID }.

(** What is said of a user; the verified name is used for the contact and not kept. *)
Definition user_info (j : JID) (child : Node) : UserInfo :=
  mkUserInfo None (text_of (GetChildByTag child ["status"]))
    (match attr_get "id" (node_attrs (GetChildByTag child ["picture"])) with Some (AString id) => id | _ => "" end)
    (devices.parseDeviceList j (GetChildByTag child ["devices"]))
    (fst (OptionalJIDOrEmpty "val" (AttrGetter (GetChildByTag child ["lid"])))).

(** Users of the answer, one after the other; a map by JID, the last one wins. *)
Fixpoint user_infos (l : list Node) (respData : list (JID * UserInfo)) (mappings : list lidmap.LIDMapping) :
    sm (list (JID * UserInfo) * list lidmap.LIDMapping) :=
  match l with
  | [] => mret (respData, mappings)
  | child :: l =>
      match attr_get "jid" (node_attrs child) with
      | Some (AJID j) =>
          if negb (String.eqb (node_tag child) "user") then user_infos l respData mappings
          else
            let info := user_info j child in
            match verified_or_none (GetChildByTag child ["business"]) with
            | Some v => updateBusinessName j (u_LID info) None (verified_name (v_Details v))
            | None => mret tt
            end;;
            user_infos l ((j, info) :: List.filter (fun p => negb (bool_decide (fst p = j))) respData)
              (if IsEmpty (u_LID info) then mappings else mappings ++ [lidmap.mkMapping (u_LID info) j])
      | _ => user_infos l respData mappings
      end
  end.

Definition info_for (j : JID) (m : list (JID * UserInfo)) : option UserInfo := snd <$> List.find (fun p => bool_decide (fst p = j)) m.

Definition GetUserInfo (jids : list JID) : sm (list (JID * UserInfo)) :=
  list ← usync jids "full" "background"
    [verified_name_query; mkNode "status" [] ANil; mkNode "picture" [] ANil; mkNode "devices" [("version", AString "2")] ANil; mkNode "lid" [] ANil] [] true;
  '(respData, mappings) ← user_infos (GetChildren list) [] [];
  logged (lids (lidmap.PutManyLIDMappings (dedup V) mappings));;
  mret respData.

(** ** Bots *)

Record BotListInfo := mkBot { BotJID : JID; PersonaID : string }.

Definition bots_of (section : Node) : list BotListInfo :=
  if String.eqb (fst (attrs.String_ "type" (AttrGetter section))) "all" then
    map (fun bot => let '(persona, ag) := attrs.String_ "persona_id" (AttrGetter bot) in mkBot (fst (JID_ "jid" ag)) persona) (GetChildrenByTag section "bot")
  else [].

Definition GetBotListV2 : sm (list BotListInfo) :=
  resp ← ask (mkQuery "bot" "get" ServerJID EmptyJID "" "" (ANodes [mkNode "bot" [("v", AString "2")] ANil]) false);
  botNode ← lift (child_of resp "bot");
  mret (flat_map bots_of (GetChildrenByTag botNode "section")).

Record BotProfileInfo := mkProfile {
  p_JID : JID; p_Name : string; p_Attributes : string; p_Description : string; p_Category : string; p_IsDefault : bool;
  p_Prompts : list string; p_PersonaID : string; p_Commands : list (string * string); p_CommandsDescription : string
}.

(** The content of a child, which is asserted to be bytes. *)
Definition must_text (n : Node) (tag : string) : outcome user_error string :=
  match bytes_of (GetChildByTag n [tag]) with Some b => Ok (bytes_str b) | None => Panic end.

Definition bot_profile (user : Node) : outcome user_error BotProfileInfo :=
  let j := fst (JID_ "jid" (AttrGetter user)) in
  let profile := GetChildByTag (GetChildByTag user ["bot"]) ["profile"] in
  name ← must_text profile "name";
  attributes ← must_text profile "attributes";
  description ← must_text profile "description";
  category ← must_text profile "category";
  let isDefault := snd (GetOptionalChildByTag profile ["default"]) in
  let personaID := fst (attrs.String_ "persona_id" (AttrGetter profile)) in
  let commandsNode := GetChildByTag profile ["commands"] in
  commandDescription ← must_text commandsNode "description";
  commands ← devices.traverse (fun c => n ← must_text c "name"; d ← must_text c "description"; Ok (n, d)) (GetChildrenByTag commandsNode "command");
  prompts ← devices.traverse (fun p => e ← must_text p "emoji"; t ← must_text p "text"; Ok (e +:+ " " +:+ t))
    (GetChildrenByTag (GetChildByTag profile ["prompts"]) "prompt");
  Ok (mkProfile j name attributes description category isDefault prompts personaID commands commandDescription).

Definition GetBotProfiles (botInfo : list BotListInfo) : sm (list BotProfileInfo) :=
  list ← usync (map BotJID botInfo) "query" "interactive"
    [mkNode "bot" [] (ANodes [mkNode "profile" [("v", AString "1")] ANil])] (map (fun b => (BotJID b, PersonaID b)) botInfo) false;
  lift (devices.traverse bot_profile (GetChildren list)).

(** ** Business profiles *)

Record BusinessHoursConfig := mkHours { DayOfWeek : string; Mode : string; OpenTime : string; CloseTime : string }.
Record Category := mkCategory { ID : string; Name : string }.
Record BusinessProfile := mkBusiness {
  bp_JID : JID; Address : string; Email : string; Categories : list Category; ProfileOptions : list (string * string);
  BusinessHoursTimeZone : string; BusinessHours : list BusinessHoursConfig
}.

Definition string_attr (n : Node) (key : string) : string := fst (attrs.String_ key (AttrGetter n)).

Definition parseBusinessProfile (n : Node) : outcome user_error BusinessProfile :=
  let profileNode := GetChildByTag n ["profile"] in
  match GetJID "jid" true (AttrGetter profileNode) with
  | ((j, true), _) =>
      let businessHour := GetChildByTag profileNode ["business_hours"] in
      let hours := omap (fun c => if String.eqb (node_tag c) "business_hours_config"
          then Some (mkHours (string_attr c "day_of_week") (string_attr c "mode") (string_attr c "open_time") (string_attr c "close_time")) else None)
        (GetChildren businessHour) in
      let categories := omap (fun c => if String.eqb (node_tag c) "category" then Some (mkCategory (string_attr c "id") (text_of c)) else None)
        (GetChildren (GetChildByTag profileNode ["categories"])) in
      let options := foldl (fun m o => (node_tag o, text_of o) :: List.filter (fun p => negb (String.eqb (fst p) (node_tag o))) m) []
        (GetChildren (GetChildByTag profileNode ["profile_options"])) in
      Ok (mkBusiness j (text_of (GetChildByTag profileNode ["address"])) (text_of (GetChildByTag profileNode ["email"])) categories options
        (string_attr businessHour "timezone") hours)
  | _ => Err ErrMissingJID
  end.

Definition GetBusinessProfile (j : JID) : sm BusinessProfile :=
  resp ← ask (mkQuery "w:biz" "get" ServerJID EmptyJID "" "" (ANodes [mkNode "business_profile" [("v", AString "244")]
    (ANodes [mkNode "profile" [("jid", AJID j)] ANil])]) false);
  n ← lift (child_of resp "business_profile");
  lift (parseBusinessProfile n).

(** ** Profile pictures *)

Record GetProfilePictureParams := mkPictureParams {
  Preview : bool; ExistingID : string; IsCommunity : bool; CommonGID : JID; InviteCode : string; pp_PersonaID : string
}.
Record ProfilePictureInfo := mkPicture { pic_URL : string; pic_ID : string; pic_Type : string; pic_DirectPath : string; pic_Hash : bytes }.

Definition optional_attr (present : bool) (key : string) (v : any) : Attrs := if present then [(key, v)] else [].

Definition picture_attrs (params : GetProfilePictureParams) : Attrs :=
  [("query", AString "url"); ("type", AString (if Preview params then "preview" else "image"))]
  ++ optional_attr (negb (String.eqb (ExistingID params) "")) "id" (AString (ExistingID params))
  ++ optional_attr (negb (String.eqb (InviteCode params) "")) "invite" (AString (InviteCode params)).

Definition picture_query (j : JID) (params : GetProfilePictureParams) : sm infoQuery :=
  if IsCommunity params then
    mret (mkQuery "w:g2" "get" j EmptyJID "" ""
      (ANodes [mkNode "pictures" [] (ANodes [mkNode "picture" (picture_attrs params ++ [("parent_group_jid", AJID j)]) ANil])]) false)
  else
    token ← in_world (ensureTCToken V j);
    let attrs := picture_attrs params ++ optional_attr (negb (IsEmpty (CommonGID params))) "common_gid" (AJID (CommonGID params))
                 ++ optional_attr (negb (String.eqb (pp_PersonaID params) "")) "persona_id" (AString (pp_PersonaID params)) in
    mret (mkQuery "w:profile:picture" "get" ServerJID j "" ""
      (ANodes [mkNode "picture" attrs (ANodes (match token with Some t => [mkNode "tctoken" [] (ABytes t)] | None => [] end))]) false).

(** None: the picture has not changed. *)
Definition parse_picture (resp : Node) (params : GetProfilePictureParams) : outcome user_error (option ProfilePictureInfo) :=
  resp ← (if IsCommunity params then child_of resp "pictures" else Ok resp);
  let '(picture, ok) := GetOptionalChildByTag resp ["picture"] in
  if negb ok then (if String.eqb (ExistingID params) "" then Err (ElementMissingError "picture") else Ok None)
  else
    let '(status, ag) := OptionalInt "status" (AttrGetter picture) in
    if status =? 304 then Ok None
    else
      let '(status, ag) := OptionalInt "status" ag in
      if status =? 204 then Err (ErrProfilePictureNotSet None)
      else
        let '(id, ag) := attrs.String_ "id" ag in
        let '(url, ag) := attrs.String_ "url" ag in
        let '(type, ag) := attrs.String_ "type" ag in
        let '(path, ag) := attrs.String_ "direct_path" ag in
        let '(hash, ag) := OptionalString "hash" ag in
        if OK ag then Ok (Some (mkPicture url id type path (base64_decode V hash))) else Err (ErrAttrs (au_errors ag)).

Definition GetProfilePictureInfo (j : JID) (params : GetProfilePictureParams) : sm (option ProfilePictureInfo) :=
  q ← picture_query j params;
  resp ← ask_or (fun e => if group.IQNotAuthorized e then Some (ErrProfilePictureUnauthorized e)
                          else if group.IQNotFound e then Some (ErrProfilePictureNotSet (Some e)) else None) q;
  lift (parse_picture resp params).

(** ** The block list *)

Definition BlocklistChangeActionBlock := "block".
Definition BlocklistChangeActionUnblock := "unblock".

(** The LID and the phone number that a request names; empty where there is none. *)
Definition block_jids (j : JID) (action : string) : sm (JID * JID) :=
  if String.eqb (Server j) DefaultUserServer then
    lid ← lids (lidmap.GetLIDForPN j);
    lid ← (if IsEmpty lid then
             info ← GetUserInfo [j];
             let lid := match info_for j info with Some i => u_LID i | None => EmptyJID end in
             if IsEmpty lid then throw (ErrNoLID j) else mret lid
           else mret lid);
    mret (lid, j)
  else if String.eqb (Server j) HiddenUserServer then
    pn ← (if String.eqb action BlocklistChangeActionBlock then lids (lidmap.GetPNForLID j) else mret EmptyJID);
    mret (j, pn)
  else mret (EmptyJID, EmptyJID).

Definition UpdateBlocklist (j : JID) (action : string) : sm settings.Blocklist :=
  '(lidJID, pnJID) ← block_jids j action;
  let itemAttrs := [("jid", AJID lidJID); ("action", AString action)]
    ++ optional_attr (String.eqb action BlocklistChangeActionBlock && negb (IsEmpty pnJID)) "pn_jid" (AJID pnJID) in
  resp ← ask (mkQuery "blocklist" "set" ServerJID EmptyJID "" "" (ANodes [mkNode "item" itemAttrs ANil]) false);
  list ← lift (child_of resp "list");
  mret (settings.parseBlocklist list).

(** ** A name is announced once *)

(** The cache has the contact. *)
Definition knows_push (d : contacts.contact_store) (j : JID) (name : string) : Prop :=
  exists info, sql.mem d !! j = Some info /\ contacts.PushName (contacts.names info) = name.

Lemma PutPushName_known d j name : knows_push d j name -> contacts.PutPushName j name d = (d, Ok (false, "")).
Proof.
  intros (info & Hm & Hn). unfold contacts.PutPushName. assert (contacts.getContact j d = (d, Ok info)) as Hg.
  { unfold contacts.getContact. rewrite (stm_bind_ok _ _ _ d (sql.mem d)) by done. by rewrite Hm. }
  rewrite (stm_bind_ok _ _ _ _ _ Hg). by rewrite Hn, String.eqb_refl.
Qed.

Lemma PutPushName_changed d j name d' old : contacts.PutPushName j name d = (d', Ok (true, old)) -> knows_push d' j name /\ old <> name.
Proof.
  unfold contacts.PutPushName. intros H. stm_inv H. destruct (String.eqb_spec (contacts.PushName (contacts.names a)) name) as [|Hne]; [done|]. cbn [negb] in H.
  stm_inv H. injection H as <- <-. split; [|done]. unfold contacts.write_contact in E0. stm_inv E0. stm_inv E0. unfold sql.get_mem, sql.put_mem in *.
  injection E2 as <- <-. injection E0 as <-. eexists. cbn [sql.mem sql.set_mem]. by rewrite lookup_insert_eq.
Qed.

Lemma getContact_keeps j k d d' o : j <> k -> contacts.getContact j d = (d', o) -> sql.mem d' !! k = sql.mem d !! k.
Proof.
  intros Hne. unfold contacts.getContact. rewrite (stm_bind_ok _ _ _ d (sql.mem d)) by done.
  destruct (sql.mem d !! j); [by intros [= <- _]|]. unfold mbind, stm_bind. destruct (sql.query _ d) as [d1 o1] eqn:Eq.
  apply sql.keeps_mem_query in Eq. destruct o1; intros [= <- _]; cbn [sql.mem sql.set_mem]; [rewrite lookup_insert_ne by done|..]; by rewrite Eq.
Qed.

Lemma write_contact_keeps j k cached f d d' o : j <> k -> contacts.write_contact j cached f d = (d', o) -> sql.mem d' !! k = sql.mem d !! k.
Proof.
  intros Hne. unfold contacts.write_contact, mbind, stm_bind. destruct (sql.exec _ d) as [d1 o1] eqn:Eq. apply sql.keeps_mem_exec in Eq.
  destruct o1; intros [= <- _]; cbn [sql.mem sql.set_mem]; [rewrite lookup_insert_ne by done|..]; by rewrite Eq.
Qed.

Lemma PutPushName_keeps d j name d' o k : contacts.PutPushName j name d = (d', o) -> knows_push d k name -> knows_push d' k name.
Proof.
  intros H Hk. destruct (decide (j = k)) as [->|Hne]; [rewrite PutPushName_known in H by done; by injection H as <- _|].
  enough (sql.mem d' !! k = sql.mem d !! k) as E by (destruct Hk as (i & Hi & Hn); exists i; by rewrite E).
  unfold contacts.PutPushName, mbind, stm_bind in H. destruct (contacts.getContact j d) as [d1 [c|e| |]] eqn:Eg; apply (getContact_keeps _ _ _ _ _ Hne) in Eg;
    [|by injection H as <- _..].
  destruct (negb _); [|by injection H as <- _]. destruct (contacts.write_contact _ _ _ d1) as [d2 o2] eqn:Ew. apply (write_contact_keeps _ _ _ _ _ _ _ Hne) in Ew.
  destruct o2; injection H as <- _; congruence.
Qed.

Lemma GetAltJID_keeps j s s' o : GetAltJID j s = (s', o) -> contact_db s' = contact_db s /\ dispatched s' = dispatched s.
Proof.
  unfold GetAltJID. destruct (String.eqb _ _); [|destruct (String.eqb _ _)].
  - destruct (lidmap.GetLIDForPN j (lid_store s)). by intros [= <- _].
  - destruct (lidmap.GetPNForLID j (lid_store s)). by intros [= <- _].
  - by intros [= <- _].
Qed.

Lemma contact_op_keeps {A} (m : stm contacts.contact_store sql.sql_error A) s s' o : contact_op m s = (s', o) ->
  contact_db s' = fst (m (contact_db s)) /\ dispatched s' = dispatched s.
Proof. unfold contact_op. destruct (m (contact_db s)). by intros [= <- _]. Qed.

(** A push name is announced exactly when it is new, and once: an update that
    returns has either dispatched nothing, or one event with the old name, another
    one than the new; after that the contact is known by the new name, and the same
    name for the same user, on any device and with any other address, changes
    nothing at all. *)
Theorem push_name_announced_once user userAlt m name s s' : updatePushName user userAlt m name s = (s', Ok tt) ->
  dispatched s' = dispatched s \/
  (exists alt old, dispatched s' = dispatched s ++ [PushName (ToNonAD user) alt m old name] /\ old <> name) /\
  knows_push (contact_db s') (ToNonAD user) name /\
  forall user' alt' m', ToNonAD user' = ToNonAD user -> updatePushName user' alt' m' name s' = (s', Ok tt).
Proof.
  unfold updatePushName at 1, update_name. intros H. stm_inv H. pose proof (contact_op_keeps _ _ _ _ E) as [Hd He].
  unfold contact_op in E. destruct (contacts.PutPushName _ _ (contact_db s)) as [d o] eqn:Ep. injection E as Es Eo. cbn [fst] in Hd.
  destruct o as [[changed old]|e| |]; try done; [|injection Eo as <-; left; by injection H as <-].
  injection Eo as <-. destruct changed; [|left; by injection H as <-]. apply PutPushName_changed in Ep as [Hk Hold]. rewrite <- Hd in Hk. clear Es. right.
  stm_inv H.
  assert (contact_db s1 = contact_db s0 /\ dispatched s1 = dispatched s0) as [E1 E2] by (destruct (IsEmpty (ToNonAD userAlt)); [by eapply GetAltJID_keeps|by injection E as <- _]).
  stm_inv H. assert (knows_push (contact_db s2) (ToNonAD user) name /\ dispatched s2 = dispatched s1) as [Hk2 E3].
  { destruct (IsEmpty a); [injection E0 as <- _; by rewrite E1|]. apply contact_op_keeps in E0 as [Hc E3]. split; [|done]. rewrite Hc, E1.
    destruct (contacts.PutPushName a name (contact_db s0)) as [d2 o2] eqn:E4. by eapply PutPushName_keeps. }
  injection H as <-. cbn [dispatched contact_db]. split; [exists a, old; by rewrite E3, E2, He|]. split; [done|].
  intros user' alt' m' Hu. unfold updatePushName, update_name. rewrite Hu.
  match goal with |- _ ?s = _ => assert (contact_op (contacts.PutPushName (ToNonAD user) name) s = (s, Ok (Some (false, "")))) as Hc end.
  { unfold contact_op. cbn [contact_db]. by rewrite PutPushName_known. }
  by rewrite (stm_bind_ok _ _ _ _ _ Hc).
Qed.


(** ** Block requests name a LID *)

Definition block_item (lid : JID) (action : string) (extra : Attrs) : infoQuery :=
  mkQuery "blocklist" "set" ServerJID EmptyJID "" ""
    (ANodes [mkNode "item" ([("jid", AJID lid); ("action", AString action)] ++ extra) ANil]) false.

(** Whoever is blocked or unblocked by phone number or LID, the request names a LID
    that is not empty, for a LID that one itself; blocking by phone number names the
    number, too. *)
Theorem block_names_lid j action s s' b : UpdateBlocklist j action s = (s', Ok b) ->
  Server j = DefaultUserServer \/ Server j = HiddenUserServer ->
  exists lid extra s1 w resp, sendIQ V (block_item lid action extra) (world s1) = (w, Ok resp) /\ IsEmpty lid = false /\
    (Server j = HiddenUserServer -> lid = j) /\
    (Server j = DefaultUserServer -> extra = if String.eqb action BlocklistChangeActionBlock then [("pn_jid", AJID j)] else []).
Proof.
  intros H Hs. unfold UpdateBlocklist in H. apply stm_bind_inv in H as (s1 & [lid pn] & E & H). apply stm_bind_inv in H as (s2 & resp & Eq & _).
  unfold ask in Eq. apply stm_bind_inv in Eq as (s3 & o & Ew & Eo). unfold in_world in Ew. destruct (sendIQ V _ (world s1)) as [w o'] eqn:Es. injection Ew as <- <-.
  apply lift_inv in Eo as [-> Eo]. destruct o' as [r| | |]; try done. injection Eo as <-.
  exists lid. eexists. exists s1, w, r. split; [exact Es|]. unfold block_jids in E.
  destruct (String.eqb_spec (Server j) DefaultUserServer) as [Hpn|Hpn].
  - apply stm_bind_inv in E as (s4 & l & _ & E). apply stm_bind_inv in E as (s5 & l' & El & E). injection E as <- <- <-.
    assert (IsEmpty l' = false) as Hl'.
    { destruct (IsEmpty l) eqn:Ee; [|by injection El as _ <-]. stm_inv El. destruct (IsEmpty (match info_for j a with Some i => u_LID i | None => EmptyJID end)) eqn:Ei; [done|].
      by injection El as _ <-. }
    split_and!; [done|by rewrite Hpn|]. intros _. assert (IsEmpty j = false) as -> by (unfold IsEmpty; by rewrite Hpn). rewrite andb_true_r. done.
  - destruct Hs as [Hs|Hs]; [done|]. rewrite Hs in E. change (String.eqb HiddenUserServer HiddenUserServer) with true in E. cbv iota in E.
    apply stm_bind_inv in E as (s4 & p & _ & E). injection E as _ <- _. split_and!; [|done|done]. unfold IsEmpty. by rewrite Hs.
Qed.

(** For any other address the request names nobody. *)
Lemma block_other_server j action s : Server j <> DefaultUserServer -> Server j <> HiddenUserServer ->
  block_jids j action s = (s, Ok (EmptyJID, EmptyJID)).
Proof. intros H1 H2. unfold block_jids. by rewrite (proj2 (String.eqb_neq _ _) H1), (proj2 (String.eqb_neq _ _) H2). Qed.

(** ** What a query about users returns *)

(** The user elements of a JID. *)
Definition elements_of (j : JID) (l : list Node) : list Node :=
  List.filter (fun n => String.eqb (node_tag n) "user" && match attr_get "jid" (node_attrs n) with Some (AJID k) => bool_decide (k = j) | _ => false end) l.

Lemma info_for_cons j k i m : info_for j ((k, i) :: List.filter (fun p => negb (bool_decide (fst p = k))) m) = if decide (k = j) then Some i else info_for j m.
Proof.
  unfold info_for. cbn [List.find fst]. destruct (decide (k = j)) as [->|Hne].
  { by rewrite bool_decide_eq_true_2. }
  rewrite bool_decide_eq_false_2 by done. f_equal. induction m as [|[x y] m IH]; [done|]. cbn [List.filter List.find fst].
  destruct (bool_decide_reflect (x = k)) as [->|]; cbn [negb List.find fst].
  - by rewrite bool_decide_eq_false_2.
  - by rewrite IH.
Qed.

Lemma user_infos_spec l : forall acc maps s s' m maps', user_infos l acc maps s = (s', Ok (m, maps')) ->
  forall j, info_for j m = match last (elements_of j l) with Some n => Some (user_info j n) | None => info_for j acc end.
Proof.
  induction l as [|n l IH]; intros acc maps s s' m maps' H j; cbn [user_infos elements_of List.filter] in H |- *; [by injection H as _ <- _|].
  destruct (attr_get "jid" (node_attrs n)) as [v|]; [|rewrite andb_false_r; by eapply IH].
  destruct v; try (rewrite andb_false_r; by eapply IH). rename j0 into k.
  destruct (String.eqb (node_tag n) "user"); cbn [negb andb] in H |- *; [|by eapply IH].
  stm_inv H. apply IH with (j := j) in H. rewrite H, info_for_cons. fold (elements_of j l).
  destruct (bool_decide_reflect (k = j)) as [->|Hne].
  - rewrite last_cons. destruct (last (elements_of j l)); [done|]. by rewrite decide_True.
  - destruct (last (elements_of j l)); [done|]. by rewrite decide_False.
Qed.

(** A query about users gives each JID what its last element of the answer says, and
    nobody a verified name, although the answers' are parsed. *)
Theorem GetUserInfo_last jids s s' m : GetUserInfo jids s = (s', Ok m) -> exists s1 list, 
  (exists q mode, usync jids mode "background" q [] true s = (s1, Ok list)) /\
  forall j, info_for j m = user_info j <$> last (elements_of j (GetChildren list)) /\
    (forall i, info_for j m = Some i -> u_VerifiedName i = None).
Proof.
  unfold GetUserInfo. intros H. apply stm_bind_inv in H as (s1 & list & E & H). apply stm_bind_inv in H as (s2 & [m' maps] & E2 & H).
  stm_inv H. injection H as _ <-. exists s1, list. split; [by do 2 eexists|]. intros j. pose proof (user_infos_spec _ _ _ _ _ _ _ E2 j) as Hj. rewrite Hj.
  destruct (last _) as [n|]; cbn [fmap option_fmap option_map]; [|done]. split; [done|]. by intros i [= <-].
Qed.

End users.

(** ** A client *)

Definition toy_pn : JID := mkJID "15551234567" 0 0 0 DefaultUserServer.
Definition toy_lid : JID := mkJID "100" 0 0 0 HiddenUserServer.

Definition toy_sends : services (W := unit) := mkServices
  (fun q w => (w, Ok (mkNode "iq" [] (ANodes [mkNode "list" [("dhash", AString "d1")] (ANodes [mkNode "item" [("jid", AJID toy_lid)] ANil])]))))
  (fun w => (w, "1.2-3")) (fun _ w => (w, None)) (fun _ _ w => (w, Ok "")) (fun l => l) (fun _ => []).

Definition toy_client : client := mkClient (lidmap.NewCachedLIDMap {["100" := "15551234567"]} []) (sql.mkDb ∅ ∅ []) [] tt.

Definition toy_named := updatePushName (mkJID "15551234567" 0 7 0 DefaultUserServer) EmptyJID (Some "3EB0") "Alice" toy_client.

Lemma push_name_announced_once_witness :
  dispatched (fst toy_named) = dispatched toy_client \/
  (exists alt old, dispatched (fst toy_named) = dispatched toy_client ++ [PushName toy_pn alt (Some "3EB0") old "Alice"] /\ old <> "Alice") /\
  knows_push (contact_db (fst toy_named)) toy_pn "Alice" /\
  forall user' alt' m', ToNonAD user' = toy_pn -> updatePushName user' alt' m' "Alice" (fst toy_named) = (fst toy_named, Ok tt).
Proof.
  apply (push_name_announced_once (mkJID "15551234567" 0 7 0 DefaultUserServer) EmptyJID (Some "3EB0") "Alice" toy_client (fst toy_named)).
  match goal with |- _ = ?r => vm_cast_no_check (eq_refl r) end.
Defined.

(** The name is known for both addresses then. *)
Lemma both_addresses_named : dispatched (fst toy_named) = [PushName toy_pn toy_lid (Some "3EB0") "" "Alice"] /\
  (contacts.PushName ∘ contacts.names) <$> sql.mem (contact_db (fst toy_named)) !! toy_lid = Some "Alice".
Proof. vm_compute. done. Qed.

Definition toy_blocked := UpdateBlocklist (Cert := unit) (Details := unit) (fun _ => None) (fun _ => []) (fun _ => None) (fun _ => "") toy_sends toy_pn "block" toy_client.

Lemma block_names_lid_witness :
  exists lid extra s1 w resp, sendIQ toy_sends (block_item lid "block" extra) (world s1) = (w, Ok resp) /\ IsEmpty lid = false /\
    (Server toy_pn = HiddenUserServer -> lid = toy_pn) /\
    (Server toy_pn = DefaultUserServer -> extra = if String.eqb "block" BlocklistChangeActionBlock then [("pn_jid", AJID toy_pn)] else []).
Proof.
  apply (block_names_lid (Cert := unit) (Details := unit) (fun _ => None) (fun _ => []) (fun _ => None) (fun _ => "") toy_sends toy_pn "block" toy_client (fst toy_blocked)
    (settings.mkBlocklist "d1" [toy_lid])); [vm_compute; reflexivity|left; reflexivity].
Defined.

(** A bot without a name, a description or any other of its texts. *)
Lemma incomplete_bot_panics : bot_profile (mkNode "user" [("jid", AJID toy_pn)] (ANodes [mkNode "bot" [] (ANodes [mkNode "profile" [] (ANodes
  [mkNode "name" [] (ABytes [x61]); mkNode "attributes" [] (ABytes [])])])])) = Panic.
Proof. reflexivity. Qed.

End users.
