(* ===== verification/Newsletter.v ===== *)
(** * newsletter.go, limits.go, business.go and push.go

    Queries in GraphQL's clothes ("mex") for newsletters and account limits, the
    stanzas of newsletters, orders of businesses and push registrations. *)

From S2P Require Import Prelude GoStrings StateErr Jid Node Requests Groups Media Users.

#[local] Open Scope string_scope.
#[local] Open Scope list_scope.
#[local] Open Scope Z_scope.

Module newsletter.

Import jid attrs requests.

(** ** Query IDs *)

Definition queryFetchNewsletter := "6563316087068696".
Definition queryRecommendedNewsletters := "7263823273662354".
Definition querySubscribedNewsletters := "6388546374527196".
Definition queryNewsletterSubscribers := "9800646650009898".
Definition mutationMuteNewsletter := "6274038279359549".
Definition mutationUnmuteNewsletter := "6068417879924485".
Definition mutationUpdateNewsletter := "7150902998257522".
Definition mutationCreateNewsletter := "6234210096708695".
Definition mutationUnfollowNewsletter := "6392786840836363".
Definition mutationFollowNewsletter := "9926858900719341".

Definition queryFetchNewsletterDesktop := "9779843322044422".
Definition queryRecommendedNewslettersDesktop := "27256776790637714".
Definition querySubscribedNewslettersDesktop := "8621797084555037".
Definition queryNewsletterSubscribersDesktop := "25403502652570342".
Definition mutationMuteNewsletterDesktop := "5971669009605755".
Definition mutationUnmuteNewsletterDesktop := "6104029483058502".
Definition mutationUpdateNewsletterDesktop := "7839742399440946".
Definition mutationCreateNewsletterDesktop := "27527996220149684".
Definition mutationUnfollowNewsletterDesktop := "8782612271820087".
Definition mutationFollowNewsletterDesktop := "8621797084555037".

Definition queryNewChatMessageCappingInfo := "24503548349331633".
Definition queryAccountReachoutTimelock := "23983697327930364".

(** The switch: what a query is called on desktop and mobile. *)
Definition desktop_ids : list (string * string) :=
  [(queryFetchNewsletter, queryFetchNewsletterDesktop); (queryRecommendedNewsletters, queryRecommendedNewslettersDesktop);
   (querySubscribedNewsletters, querySubscribedNewslettersDesktop); (queryNewsletterSubscribers, queryNewsletterSubscribersDesktop);
   (mutationMuteNewsletter, mutationMuteNewsletterDesktop); (mutationUnmuteNewsletter, mutationUnmuteNewsletterDesktop);
   (mutationUpdateNewsletter, mutationUpdateNewsletterDesktop); (mutationCreateNewsletter, mutationCreateNewsletterDesktop);
   (mutationUnfollowNewsletter, mutationUnfollowNewsletterDesktop); (mutationFollowNewsletter, mutationFollowNewsletterDesktop)].

(** The platform is compared with a pointer that was made for the comparison, so only
    the web info counts: whether the payload has one. *)
Definition convertQueryID (web_info : bool) (queryID : string) : string :=
  if web_info then queryID
  else match List.find (fun p => String.eqb (fst p) queryID) desktop_ids with Some (_, d) => d | None => queryID end.

(** ** Values *)

(** Go's values as [json.Marshal] sees them. *)
Inductive json :=
  | JBool (b : bool)
  | JString (s : string)
  | JBytes (b : bytes)
  | JObject (l : list (string * json)).

Definition NewsletterKeyTypeJID := "JID".
Definition NewsletterKeyTypeInvite := "INVITE".

Record CreateNewsletterParams := mkParams { Name : string; Description : string; Picture : bytes }.

(** Fields marked omitempty. *)
Definition params_json (p : CreateNewsletterParams) : json :=
  JObject ([("name", JString (Name p))] ++ (if String.eqb (Description p) "" then [] else [("description", JString (Description p))])
           ++ (match Picture p with [] => [] | _ => [("picture", JBytes (Picture p))] end)).

Record NewsletterMessage (Msg : Type) := mkMessage {
  MessageServerID : Z; MessageID : string; m_Type : string; m_Timestamp : gotime; ViewsCount : Z;
  ReactionCounts : option (list (string * Z)); Message : option Msg
}.
Arguments mkMessage {Msg}.
Arguments MessageServerID {Msg}. Arguments MessageID {Msg}. Arguments m_Type {Msg}. Arguments m_Timestamp {Msg}. Arguments ViewsCount {Msg}.
Arguments ReactionCounts {Msg}. Arguments Message {Msg}.

Inductive mex_error :=
  | ErrArgoBroken
  | ErrIQ (e : iq_error)
  | ElementMissingError (tag : string)
  | ErrContentType                       (* "unexpected content type" *)
  | ErrUnmarshal
  | ErrGraphQL
  | ErrNullResponse
  | ErrAttrs (l : list attr_error)
  | ErrSend.

Section newsletter.
(** [marshal]: json.Marshal. [graphql]: the data and whether there are errors of a
    response that is JSON. [Meta]: newsletters as JSON has them. *)
Context {W Meta Msg : Type} (marshal : json -> bytes) (graphql : bytes -> option (option bytes * bool)) (unmarshal_message : bytes -> option Msg).

Record services := mkServices {
  sendIQ : infoQuery -> W -> W * outcome iq_error Node;
  sendNode : Node -> W -> W * bool;                      (* whether it was sent *)
  request_id : W -> W * string;
  message_id : W -> W * string;
  wait : string -> W -> W * Node;                        (* blocks until something comes; it need not *)
  cancel : string -> W -> W
}.

(** [macos]: store.BaseClientPayload's platform is macOS; [web_info]: the device's
    payload has a web info. *)
Context (V : services) (macos web_info : bool).

Notation sm A := (stm W mex_error A).

Definition in_world {A} (f : W -> W * A) : sm A := fun w => let '(w, a) := f w in (w, Ok a).

Definition ask (q : infoQuery) : sm Node := o ← in_world (sendIQ V q); lift (map_err ErrIQ o).

Definition mex_query (queryID : string) (payload : bytes) : infoQuery :=
  mkQuery "w:mex" "get" ServerJID EmptyJID "" "" (ANodes [mkNode "query" [("query_id", AString queryID)] (ABytes payload)]) false.

(** The data of a response, which GraphQL errors do not take away, and the error. *)
Definition mex_response (resp : Node) : option bytes * option mex_error :=
  let '(result, ok) := GetOptionalChildByTag resp ["result"] in
  if negb ok then (None, Some (ElementMissingError "result"))
  else match node_content result with
  | ABytes resultContent =>
      if String.eqb (fst (OptionalString "format" (AttrGetter result))) "argo" then (None, Some ErrArgoBroken)
      else match graphql resultContent with
           | None => (None, Some ErrUnmarshal)
           | Some (data, true) => (data, Some ErrGraphQL)
           | Some (data, false) => (data, None)
           end
  | _ => (None, Some ErrContentType)
  end.

(** [None]: a nil RawMessage. *)
Definition sendMexIQ (queryID : string) (variables : json) : W -> W * outcome mex_error (option bytes * option mex_error) := fun w =>
  if macos then (w, Ok (None, Some ErrArgoBroken))
  else
    let payload := marshal (JObject [("variables", variables)]) in
    match ask (mex_query (convertQueryID web_info queryID) payload) w with
    | (w, Ok resp) => (w, Ok (mex_response resp))
    | (w, Err e) => (w, Ok (None, Some e))
    | (w, Panic) => (w, Panic)
    | (w, NoFuel) => (w, NoFuel)
    end.

(** What is made of the data: [decode] gives the field and whether it failed. *)
Definition decoded {A} (decode : bytes -> option A * bool) (r : option bytes * option mex_error) : option A * option mex_error :=
  match r with
  | (None, e) => (None, e)
  | (Some data, e) =>
      let '(a, failed) := decode data in
      (a, match e with Some e => Some e | None => if failed then Some ErrUnmarshal else None end)
  end.

(** ** Newsletters *)

Section queries.
Context (newsletter_of created_of : bytes -> option Meta * bool) (newsletters_of : bytes -> option (list Meta) * bool).

Definition getNewsletterInfo (input : json) (fetchViewerMeta : bool) : sm (option Meta * option mex_error) :=
  r ← sendMexIQ queryFetchNewsletter (JObject
    [("fetch_creation_time", JBool true); ("fetch_full_image", JBool true); ("fetch_viewer_metadata", JBool fetchViewerMeta); ("input", input)]);
  mret (decoded newsletter_of r).

Definition GetNewsletterInfo (j : JID) :=
  getNewsletterInfo (JObject [("key", JString (jid.String_ j)); ("type", JString NewsletterKeyTypeJID)]) true.

Definition GetNewsletterInfoWithInvite (key : string) :=
  getNewsletterInfo (JObject [("key", JString (group.stripURLPrefix key [users.NewsletterLinkPrefix])); ("type", JString NewsletterKeyTypeInvite)]) false.

Definition GetSubscribedNewsletters : sm (option (list Meta) * option mex_error) :=
  r ← sendMexIQ querySubscribedNewsletters (JObject []); mret (decoded newsletters_of r).

(** Here an error is all there is. Data that is nil does not parse. *)
Definition CreateNewsletter (params : CreateNewsletterParams) : sm (option Meta) :=
  r ← sendMexIQ mutationCreateNewsletter (JObject [("newsletter_input", params_json params)]);
  match r with
  | (_, Some e) => throw e
  | (None, None) => throw ErrUnmarshal
  | (Some data, None) => let '(m, failed) := created_of data in if failed then throw ErrUnmarshal else mret m
  end.
End queries.

Definition mutation (queryID : string) (j : JID) : sm unit :=
  r ← sendMexIQ queryID (JObject [("newsletter_id", JString (jid.String_ j))]);
  match snd r with Some e => throw e | None => mret tt end.

Definition NewsletterToggleMute (j : JID) (mute : bool) : sm unit :=
  mutation (if mute then mutationMuteNewsletter else mutationUnmuteNewsletter) j.
Definition FollowNewsletter (j : JID) : sm unit := mutation mutationFollowNewsletter j.
Definition UnfollowNewsletter (j : JID) : sm unit := mutation mutationUnfollowNewsletter j.

Definition AcceptTOSNotice (noticeID stage : string) : sm unit :=
  _ ← ask (mkQuery "tos" "set" ServerJID EmptyJID "" "" (ANodes [mkNode "notice" [("id", AString noticeID); ("stage", AString stage)] ANil]) false);
  mret tt.

(** Seconds. *)
Definition NewsletterSubscribeLiveUpdates (j : JID) : sm Z :=
  resp ← ask (mkQuery "newsletter" "set" j EmptyJID "" "" (ANodes [mkNode "live_updates" [] ANil]) false);
  mret (fst (Int "duration" (AttrGetter (GetChildByTag resp ["live_updates"])))).

Definition view_receipt (j : JID) (serverIDs : list Z) (reqID : string) : Node :=
  mkNode "receipt" [("to", AJID j); ("type", AString "view"); ("id", AString reqID)]
    (ANodes [mkNode "list" [] (ANodes (map (fun id => mkNode "item" [("server_id", AInt id)] ANil) serverIDs))]).

Definition cancelled (reqID : string) : sm unit := fun w => (cancel V reqID w, Err ErrSend).

(** Whatever comes as the response is taken for success. *)
Definition NewsletterMarkViewed (j : JID) (serverIDs : list Z) : sm unit :=
  reqID ← in_world (request_id V);
  sent ← in_world (sendNode V (view_receipt j serverIDs reqID));
  if negb sent then cancelled reqID
  else (_ ← in_world (wait V reqID); mret tt).

Definition EditAttributeSenderRevoke := "7".

Definition reaction_node (j : JID) (serverID : Z) (reaction messageID : string) : Node :=
  mkNode "message"
    ([("to", AJID j); ("id", AString messageID); ("server_id", AInt serverID); ("type", AString "reaction")]
     ++ (if String.eqb reaction "" then [("edit", AString EditAttributeSenderRevoke)] else []))
    (ANodes [mkNode "reaction" (if String.eqb reaction "" then [] else [("code", AString reaction)]) ANil]).

Definition NewsletterSendReaction (j : JID) (serverID : Z) (reaction messageID : string) : sm unit :=
  messageID ← (if String.eqb messageID "" then in_world (message_id V) else mret messageID);
  sent ← in_world (sendNode V (reaction_node j serverID reaction messageID));
  if negb sent then throw ErrSend else mret tt.

(** ** Messages *)

(** A map: the last one of a code. *)
Definition reaction_counts (l : list Node) : list (string * Z) :=
  foldl (fun m (r : Node) => let '(code, ag) := attrs.String_ "code" (AttrGetter r) in let '(count, _) := Int "count" ag in
                    (code, count) :: List.filter (fun p : string * Z => negb (String.eqb (fst p) code)) m) [] l.

Definition set_views (v : Z) (m : NewsletterMessage Msg) := mkMessage (MessageServerID m) (MessageID m) (m_Type m) (m_Timestamp m) v (ReactionCounts m) (Message m).
Definition set_reactions (r : list (string * Z)) (m : NewsletterMessage Msg) :=
  mkMessage (MessageServerID m) (MessageID m) (m_Type m) (m_Timestamp m) (ViewsCount m) (Some r) (Message m).
Definition set_message (x : option Msg) (m : NewsletterMessage Msg) :=
  mkMessage (MessageServerID m) (MessageID m) (m_Type m) (m_Timestamp m) (ViewsCount m) (ReactionCounts m) x.

Definition message_part (m : NewsletterMessage Msg) (subchild : Node) : NewsletterMessage Msg :=
  if String.eqb (node_tag subchild) "plaintext" then
    match node_content subchild with ABytes b => set_message (unmarshal_message b) m | _ => m end
  else if String.eqb (node_tag subchild) "views_count" then set_views (fst (Int "count" (AttrGetter subchild))) m
  else if String.eqb (node_tag subchild) "reactions" then set_reactions (reaction_counts (GetChildren subchild)) m
  else m.

Definition newsletter_message (child : Node) : NewsletterMessage Msg :=
  let '(server_id, ag) := Int "server_id" (AttrGetter child) in
  let '(id, ag) := attrs.String_ "id" ag in
  let '(type, ag) := attrs.String_ "type" ag in
  let '(t, _) := UnixTime "t" ag in
  foldl message_part (mkMessage server_id id type t 0 None None) (GetChildren child).

Definition parseNewsletterMessages (n : Node) : list (NewsletterMessage Msg) :=
  omap (fun child => if String.eqb (node_tag child) "message" then Some (newsletter_message child) else None) (GetChildren n).

(** A number that is not zero. *)
Definition int_attr (key : string) (v : Z) : Attrs := if v =? 0 then [] else [(key, AInt v)].

Definition GetNewsletterMessages (j : JID) (params : option (Z * Z)) : sm (list (NewsletterMessage Msg)) :=
  let attrs := [("type", AString "jid"); ("jid", AJID j)]
    ++ match params with Some (count, before) => int_attr "count" count ++ int_attr "before" before | None => [] end in
  resp ← ask (mkQuery "newsletter" "get" ServerJID EmptyJID "" "" (ANodes [mkNode "messages" attrs ANil]) false);
  let '(messages, ok) := GetOptionalChildByTag resp ["messages"] in
  if ok then mret (parseNewsletterMessages messages) else throw (ElementMissingError "messages").

(** [since]: a time in seconds, if it is set. *)
Definition GetNewsletterMessageUpdates (j : JID) (params : option (Z * option Z * Z)) : sm (list (NewsletterMessage Msg)) :=
  let attrs := match params with
    | Some (count, since, after) => int_attr "count" count ++ (match since with Some t => [("since", AInt64 t)] | None => [] end) ++ int_attr "after" after
    | None => []
    end in
  resp ← ask (mkQuery "newsletter" "get" j EmptyJID "" "" (ANodes [mkNode "message_updates" attrs ANil]) false);
  let '(messages, ok) := GetOptionalChildByTag resp ["message_updates"; "messages"] in
  if ok then mret (parseNewsletterMessages messages) else throw (ElementMissingError "messages").

(** ** limits.go *)

(** A null is an error, too. *)
Definition not_null {A} (decode : bytes -> option A * bool) (r : option bytes * option mex_error) : option A * option mex_error :=
  match decoded decode r with
  | (None, None) => (None, match fst r with Some _ => Some ErrNullResponse | None => None end)
  | r => r
  end.

Definition GetNewChatMessageCappingInfo {A} (decode : bytes -> option A * bool) : sm (option A * option mex_error) :=
  r ← sendMexIQ queryNewChatMessageCappingInfo (JObject [("input", JObject [("type", JString "INDIVIDUAL_NEW_CHAT_MSG")])]);
  mret (not_null decode r).

Definition GetAccountReachoutTimelock {A} (decode : bytes -> option A * bool) : sm (option A * option mex_error) :=
  r ← sendMexIQ queryAccountReachoutTimelock (JObject []); mret (not_null decode r).

(** ** business.go *)

Record OrderPrice := mkPrice { Subtotal : Z; Total : Z; Currency : string; PriceStatus : string }.
Record OrderProduct := mkProduct {
  p_ID : string; ImageID : string; ImageURL : string; Price : Z; p_Currency : string; p_Name : string; Quantity : Z; Properties : string
}.
Record OrderDetails := mkOrder { o_ID : string; CreatedAt : gotime; CatalogID : string; o_Price : OrderPrice; Products : list OrderProduct }.

Definition no_price : OrderPrice := mkPrice 0 0 "" "".

Definition getStringChild (n : Node) (tag : string) : string :=
  let '(child, ok) := GetOptionalChildByTag n [tag] in if ok then users.text_of child else "".

(** The value of strconv.ParseInt when its error is dropped. *)
Definition ParseInt_value (s : string) : Z :=
  match parse_int s with
  | Ok z => z
  | Err ErrRange => if has_prefix "-" s then - 2 ^ 63 else 2 ^ 63 - 1
  | _ => 0
  end.

Definition order_product (n : Node) : OrderProduct :=
  let '(image_id, image_url) := match GetOptionalChildByTag n ["image"] with (i, true) => (getStringChild i "id", getStringChild i "url") | _ => ("", "") end in
  mkProduct (getStringChild n "id") image_id image_url (ParseInt_value (getStringChild n "price")) (getStringChild n "currency") (getStringChild n "name")
    (ParseInt_value (getStringChild n "quantity"))
    (match GetOptionalChildByTag n ["variant_info"] with (v, true) => getStringChild v "properties" | _ => "" end).

Definition parseOrderDetailsNode (orderNode : Node) : outcome mex_error OrderDetails :=
  let '(id, ag) := attrs.String_ "id" (AttrGetter orderNode) in
  let '(created, ag) := UnixTime "creation_ts" ag in
  if negb (OK ag) then Err (ErrAttrs (au_errors ag))
  else
    let price := match GetOptionalChildByTag orderNode ["price"] with
      | (p, true) => mkPrice (ParseInt_value (getStringChild p "subtotal")) (ParseInt_value (getStringChild p "total")) (getStringChild p "currency") (getStringChild p "price_status")
      | _ => no_price
      end in
    let catalog := match GetOptionalChildByTag orderNode ["catalog"] with (c, true) => getStringChild c "id" | _ => "" end in
    Ok (mkOrder id created catalog price (map order_product (GetChildrenByTag orderNode "product"))).

Definition order_query (orderID tokenBase64 : string) : infoQuery :=
  mkQuery "fb:thrift_iq" "get" ServerJID EmptyJID "" "5"
    (ANodes [mkNode "order" [("op", AString "get"); ("id", AString orderID)]
      (ANodes [mkNode "image_dimensions" [] (ANodes [mkNode "width" [] (ABytes (str_bytes "100")); mkNode "height" [] (ABytes (str_bytes "100"))]);
               mkNode "token" [] (ABytes (str_bytes tokenBase64))])]) false.

Definition GetOrderDetails (orderID tokenBase64 : string) : sm OrderDetails :=
  resp ← ask (order_query orderID tokenBase64);
  let '(orderNode, ok) := GetOptionalChildByTag resp ["order"] in
  if ok then lift (parseOrderDetailsNode orderNode) else throw (ElementMissingError "order").

(** ** push.go *)

Inductive PushConfig :=
  | FCMPushConfig (Token : string)
  | APNsPushConfig (Token VoIPToken : string) (MsgIDEncKey : bytes)
  | WebPushConfig (Endpoint : string) (Auth P256DH : bytes).

(** The attributes, and the config as it is left. [random]: 32 new bytes. *)
Definition GetPushConfigAttrs (random : bytes) (pc : PushConfig) : Attrs * PushConfig :=
  match pc with
  | FCMPushConfig Token => ([("id", AString Token); ("num_acc", AInt 1); ("platform", AString "gcm")], pc)
  | APNsPushConfig Token VoIPToken MsgIDEncKey =>
      let key := if blen MsgIDEncKey =? 32 then MsgIDEncKey else random in
      ([("id", AString Token); ("platform", AString "apple"); ("version", AInt 2); ("reg_push", AInt 1); ("preview", AInt 1);
        ("pkey", AString (media.RawURLEncoding key)); ("background_location", AInt 1); ("call", AString "Opening.m4r"); ("default", AString "note.m4r");
        ("groups", AString "note.m4r"); ("lg", AString "en"); ("lc", AString "US"); ("nse_call", AInt 0); ("nse_ver", AInt 2); ("nse_read", AInt 0);
        ("voip_payload_type", AInt 2)] ++ (if String.eqb VoIPToken "" then [] else [("voip", AString VoIPToken)]),
       APNsPushConfig Token VoIPToken key)
  | WebPushConfig Endpoint Auth P256DH =>
      ([("platform", AString "web"); ("endpoint", AString Endpoint); ("auth", AString (StdEncoding Auth)); ("p256dh", AString (StdEncoding P256DH))], pc)
  end.

Definition push_query (type : string) (n : Node) : infoQuery := mkQuery "urn:xmpp:whatsapp:push" type ServerJID EmptyJID "" "" (ANodes [n]) false.

Definition GetServerPushNotificationConfig : sm Node := ask (push_query "get" (mkNode "settings" [] ANil)).

(** The config is the caller's: it is left with its key. *)
Definition RegisterForPushNotifications (random : bytes) (pc : PushConfig) : PushConfig * sm unit :=
  let '(attrs, pc) := GetPushConfigAttrs random pc in
  (pc, _ ← ask (push_query "set" (mkNode "config" attrs ANil)); mret tt).

(** ** What a mex query gives *)

(** Data without an error is what the result of the response holds, in JSON without
    GraphQL errors; the query asked for the operation by the ID of the platform. *)
Theorem mex_data queryID variables w w' d : sendMexIQ queryID variables w = (w', Ok (d, None)) <->
  macos = false /\ exists resp result b,
    sendIQ V (mex_query (convertQueryID web_info queryID) (marshal (JObject [("variables", variables)]))) w = (w', Ok resp) /\
    GetOptionalChildByTag resp ["result"] = (result, true) /\ node_content result = ABytes b /\
    fst (OptionalString "format" (AttrGetter result)) <> "argo" /\ graphql b = Some (d, false).
Proof.
  unfold sendMexIQ, ask, in_world, lift, mbind, stm_bind. destruct macos; [split; [done|by intros [? _]]|].
  destruct (sendIQ V _ w) as [w1 o]. destruct o as [resp|e| |]; cbn [map_err];
    [|split; [done|intros (_ & r & res & b & H & _); done]..].
  unfold mex_response. destruct (GetOptionalChildByTag resp ["result"]) as [result ok] eqn:Er. split.
  - intros H. split; [done|]. injection H as <- H. destruct ok; [|done]. change (negb true) with false in H. cbv iota in H. destruct (node_content result) as [| | | | | | | | | |b| |] eqn:Ec; try done.
    match type of H with context [String.eqb ?f "argo"] => destruct (String.eqb_spec f "argo") as [|Ef] end; [done|]. destruct (graphql b) as [[d' []]|] eqn:Eg; injection H as <-; try done. by exists resp, result, b.
  - intros (_ & r & res & b & [= <- <-] & H & Hc & Hf & Hg). rewrite Er in H. injection H as -> ->. cbn [negb].
    by rewrite Hc, (proj2 (String.eqb_neq _ _) Hf), Hg.
Qed.

(** A newsletter's views are marked when anything comes back, even the end of the
    connection. *)
Lemma marked_viewed_anyway j ids w w1 w2 w3 reqID n : request_id V w = (w1, reqID) -> sendNode V (view_receipt j ids reqID) w1 = (w2, true) ->
  wait V reqID w2 = (w3, n) -> NewsletterMarkViewed j ids w = (w3, Ok tt).
Proof. intros H1 H2 H3. unfold NewsletterMarkViewed, in_world, mbind, stm_bind. by rewrite H1, H2; cbn [negb]; rewrite H3. Qed.

(** ** Push registrations *)

(** The key of an APNs registration has 32 bytes, the caller's if it has, and the
    config keeps it: registering again announces the same attributes. *)
Theorem push_key_kept random random' pc : blen random = 32 ->
  let '(attrs, pc') := GetPushConfigAttrs random pc in
  GetPushConfigAttrs random' pc' = (attrs, pc') /\
  match pc, pc' with
  | APNsPushConfig t v k, APNsPushConfig t' v' k' => t' = t /\ v' = v /\ blen k' = 32 /\ (blen k = 32 -> k' = k) /\
      attr_get "pkey" attrs = Some (AString (media.RawURLEncoding k'))
  | APNsPushConfig _ _ _, _ => False
  | _, _ => pc' = pc
  end.
Proof.
  intros Hr. destruct pc as [t|t v k|e a p]; cbn [GetPushConfigAttrs]; [done| |done].
  destruct (Z.eqb_spec (blen k) 32) as [E|E]; [rewrite (proj2 (Z.eqb_eq _ _) E)|rewrite (proj2 (Z.eqb_eq _ _) Hr)]; split_and!; done.
Qed.

(** ** Orders *)

Definition text_node (tag text : string) : Node := mkNode tag [] (ABytes (str_bytes text)).

Definition product_node (p : OrderProduct) : Node :=
  mkNode "product" [] (ANodes [text_node "id" (p_ID p); text_node "price" (itoa (Price p)); text_node "currency" (p_Currency p); text_node "name" (p_Name p);
    text_node "quantity" (itoa (Quantity p)); mkNode "image" [] (ANodes [text_node "id" (ImageID p); text_node "url" (ImageURL p)]);
    mkNode "variant_info" [] (ANodes [text_node "properties" (Properties p)])]).

(** The order as a server would write it. *)
Definition order_node (created : Z) (d : OrderDetails) : Node :=
  mkNode "order" [("id", AString (o_ID d)); ("creation_ts", AString (itoa created))]
    (ANodes ([mkNode "price" [] (ANodes [text_node "subtotal" (itoa (Subtotal (o_Price d))); text_node "total" (itoa (Total (o_Price d)));
                text_node "currency" (Currency (o_Price d)); text_node "price_status" (PriceStatus (o_Price d))]);
              mkNode "catalog" [] (ANodes [text_node "id" (CatalogID d)])] ++ map product_node (Products d))).

Definition int64 (z : Z) : Prop := - 2 ^ 63 <= z < 2 ^ 63.

Definition order_ok (created : Z) (d : OrderDetails) : Prop :=
  0 < created < 2 ^ 63 /\ int64 (Subtotal (o_Price d)) /\ int64 (Total (o_Price d)) /\ Forall (fun p => int64 (Price p) /\ int64 (Quantity p)) (Products d).

Lemma parse_int_itoa z : int64 z -> parse_int (itoa z) = Ok z.
Proof.
  unfold int64. intros Hz. destruct (Z.leb_spec 0 z) as [H|H]; [apply atoi_itoa; lia|]. destruct z as [|p|p]; [lia..|].
  assert (itoa (Z.neg p) = String "-" (itoa (Z.pos p))) as -> by done. cbn [parse_int]. rewrite parse_nonempty_itoa by lia.
  cbn [mbind outcome_bind]. by rewrite (proj2 (Z.leb_le _ _)) by lia.
Qed.

Lemma ParseInt_itoa z : int64 z -> ParseInt_value (bytes_str (str_bytes (itoa z))) = z.
Proof. intros Hz. rewrite bytes_str_bytes. unfold ParseInt_value. by rewrite parse_int_itoa. Qed.

Lemma order_product_node p : int64 (Price p) -> int64 (Quantity p) -> order_product (product_node p) = p.
Proof.
  destruct p as [id ii iu pr cu na qu prop]. cbn [Price Quantity]. intros H1 H2. set (t s := bytes_str (str_bytes s)).
  transitivity (mkProduct (t id) (t ii) (t iu) (ParseInt_value (t (itoa pr))) (t cu) (t na) (ParseInt_value (t (itoa qu))) (t prop)); [reflexivity|].
  unfold t. by rewrite !ParseInt_itoa, !bytes_str_bytes.
Qed.

Lemma order_products l : Forall (fun p => int64 (Price p) /\ int64 (Quantity p)) l -> map order_product (map product_node l) = l.
Proof. induction 1 as [|p l [H1 H2] _ IH]; [done|]. cbn [map]. by rewrite order_product_node, IH. Qed.

Lemma products_by_tag tag attrs a b l : node_tag a <> "product" -> node_tag b <> "product" ->
  GetChildrenByTag (mkNode tag attrs (ANodes ([a; b] ++ map product_node l))) "product" = map product_node l.
Proof.
  intros Ha Hb. unfold GetChildrenByTag. cbn [GetChildren node_content app]. rewrite !filter_cons_False by done.
  induction l as [|p l IH]; [done|]. cbn [map]. rewrite filter_cons_True by done. by f_equal.
Qed.

(** An order is read as it was written: every text, every amount that fits 64 bits,
    negative or not, and every product, in order. *)
Theorem order_read created d : order_ok created d -> CreatedAt d = UnixNano (created * 10 ^ 9) -> parseOrderDetailsNode (order_node created d) = Ok d.
Proof.
  destruct d as [id at_ cat [sub tot cur st] ps]. unfold order_ok. cbn [o_Price Subtotal Total Products CreatedAt]. intros (Hc & H1 & H2 & Hp) ->. set (t s := bytes_str (str_bytes s)).
  set (n := order_node created _). assert (attrs.String_ "id" (AttrGetter n) = (id, AttrGetter n)) as Hid by reflexivity.
  assert (UnixTime "creation_ts" (AttrGetter n) = (UnixNano (created * 10 ^ 9), AttrGetter n)) as Ht.
  { cbv -[itoa parse_int Z.mul Z.pow Z.eqb]. rewrite parse_int_itoa by (unfold int64; lia). rewrite (proj2 (Z.eqb_neq created 0)) by lia. done. }
  unfold parseOrderDetailsNode. rewrite Hid, Ht. change (OK (AttrGetter n)) with true. cbv iota beta. cbn [negb].
  assert (GetChildrenByTag n "product" = map product_node ps) as -> by (by apply products_by_tag). rewrite order_products by done.
  change (Ok (E := mex_error) (mkOrder id (UnixNano (created * 10 ^ 9)) (t cat) (mkPrice (ParseInt_value (t (itoa sub))) (ParseInt_value (t (itoa tot))) (t cur) (t st)) ps) =
    Ok (mkOrder id (UnixNano (created * 10 ^ 9)) cat (mkPrice sub tot cur st) ps)).
  unfold t. by rewrite !ParseInt_itoa, !bytes_str_bytes.
Qed.

(** What the server may leave out is empty, and an amount that is no number is zero. *)
Lemma bad_amounts : order_product (mkNode "product" [] (ANodes [text_node "price" "12,50"; text_node "quantity" "99999999999999999999"])) =
  mkProduct "" "" "" 0 "" "" (2 ^ 63 - 1) "".
Proof. reflexivity. Qed.

End newsletter.

(** Two operations have one ID on desktop. *)
Lemma desktop_ids_collide : convertQueryID false querySubscribedNewsletters = convertQueryID false mutationFollowNewsletter /\
  querySubscribedNewsletters <> mutationFollowNewsletter.
Proof. done. Qed.

(** ** An order *)

Definition toy_order : OrderDetails :=
  mkOrder "1234" (UnixNano (1700000000 * 10 ^ 9)) "c1" (mkPrice 1000 (-5) "EUR" "") [mkProduct "p1" "" "" 500 "EUR" "Tea" 2 "green"].

Lemma order_read_witness : order_ok 1700000000 toy_order /\ parseOrderDetailsNode (order_node 1700000000 toy_order) = Ok toy_order.
Proof.
  assert (order_ok 1700000000 toy_order) as H by (unfold order_ok, int64; cbn; split_and!; try lia; repeat constructor; cbn; lia).
  split; [exact H|]. apply (order_read 1700000000 toy_order); [exact H|reflexivity].
Defined.

End newsletter.
