(* ===== verification/Notifications.v ===== *)
(** * notification.go: what the server notifies of

    One handler per type of notification, over the states of the components they
    concern: device lists, groups, settings, identifiers, contacts, signal stores and
    privacy tokens. Some handlers run in goroutines of their own, so the dispatcher
    gives what it does at once and what it has started. *)

From S2P Require Import Prelude GoStrings StateErr Jid Node Crypto Requests Sql Sessions Receive LidMap Groups Contacts TCToken PreKeys Devices Settings MediaRetry Newsletter.

#[local] Open Scope string_scope.
#[local] Open Scope list_scope.
#[local] Open Scope Z_scope.

Module notifications.

Import jid attrs requests.

(** ** Events *)

Record Picture := mkPicture { pic_JID : JID; pic_Author : JID; pic_Timestamp : gotime; pic_Remove : bool; pic_PictureID : string }.

(** The time and the operation of a mex notification. *)
Record MexNotificationData := mkMex { mex_Timestamp : gotime; OpName : string }.

Section notifications.
(** What JSON and protobuf make of mex updates and of newsletter messages. *)
Context {Join Leave Mute Timelock Msg : Type}.

Record newsletterEvent := mkNewsletterEvent {
  ev_Join : option Join; ev_Leave : option Leave; ev_MuteChange : option Mute; ev_Timelock : option Timelock
}.

Inductive event :=
  | IdentityChange (j : JID) (timestamp : gotime)
  | EvPicture (p : Picture)
  | EvGroup (g : group.group_event)
  | EvSettings (e : settings.PrivacyEvent)
  | EvBlocklist (e : settings.BlocklistEvent)
  | EvMediaRetry (e : mediaretry.MediaRetry)
  | NewsletterLiveUpdate (j : JID) (time : gotime) (messages : list (newsletter.NewsletterMessage Msg))
  | NewsletterJoin (m : MexNotificationData) (x : Join)
  | NewsletterLeave (m : MexNotificationData) (x : Leave)
  | NewsletterMuteChange (m : MexNotificationData) (x : Mute)
  | NotifyAccountReachoutTimelock (m : MexNotificationData) (x : Timelock)
  | UserAbout (j : JID) (timestamp : gotime) (status : string).

(** Handlers that run in a goroutine of their own. *)
Inductive task :=
  | EncryptTask (n : Node) | AppStateTask (n : Node) | AccountSyncTask (n : Node)
  | CodePairTask (n : Node) | PasskeyContinuationTask (n : Node)
  | IssueTokenTask (storageLID : JID) (senderTS : gotime).

(** ** The client *)

Context {W : Type}.

Record client := mkClient {
  ownID : JID; ownLID : JID;
  devices_of : devices.client;
  groups : group.group_cache;
  cells : list settings.PrivacySettings; settingsCache : option nat;
  lid_store : lidmap.CachedLIDMap;
  contact_db : contacts.contact_store;
  signal_db : sessions.signal_store;
  times : tctoken.sender_times;
  token_db : sql.db privacytokens.token_tables unit;
  dispatched : list event;
  spawned : list task;
  acks : list Node;             (* acknowledged stanzas *)
  world : W
}.

Definition set_devices d (s : client) := mkClient (ownID s) (ownLID s) d (groups s) (cells s) (settingsCache s) (lid_store s) (contact_db s) (signal_db s) (times s) (token_db s) (dispatched s) (spawned s) (acks s) (world s).
Definition set_groups g (s : client) := mkClient (ownID s) (ownLID s) (devices_of s) g (cells s) (settingsCache s) (lid_store s) (contact_db s) (signal_db s) (times s) (token_db s) (dispatched s) (spawned s) (acks s) (world s).
Definition set_settings c p (s : client) := mkClient (ownID s) (ownLID s) (devices_of s) (groups s) c p (lid_store s) (contact_db s) (signal_db s) (times s) (token_db s) (dispatched s) (spawned s) (acks s) (world s).
Definition set_lids l (s : client) := mkClient (ownID s) (ownLID s) (devices_of s) (groups s) (cells s) (settingsCache s) l (contact_db s) (signal_db s) (times s) (token_db s) (dispatched s) (spawned s) (acks s) (world s).
Definition set_contacts c (s : client) := mkClient (ownID s) (ownLID s) (devices_of s) (groups s) (cells s) (settingsCache s) (lid_store s) c (signal_db s) (times s) (token_db s) (dispatched s) (spawned s) (acks s) (world s).
Definition set_signal d (s : client) := mkClient (ownID s) (ownLID s) (devices_of s) (groups s) (cells s) (settingsCache s) (lid_store s) (contact_db s) d (times s) (token_db s) (dispatched s) (spawned s) (acks s) (world s).
Definition set_tokens t d (s : client) := mkClient (ownID s) (ownLID s) (devices_of s) (groups s) (cells s) (settingsCache s) (lid_store s) (contact_db s) (signal_db s) t d (dispatched s) (spawned s) (acks s) (world s).
Definition set_world w (s : client) := mkClient (ownID s) (ownLID s) (devices_of s) (groups s) (cells s) (settingsCache s) (lid_store s) (contact_db s) (signal_db s) (times s) (token_db s) (dispatched s) (spawned s) (acks s) w.
Definition add_events e (s : client) := mkClient (ownID s) (ownLID s) (devices_of s) (groups s) (cells s) (settingsCache s) (lid_store s) (contact_db s) (signal_db s) (times s) (token_db s) (dispatched s ++ e) (spawned s) (acks s) (world s).
Definition add_task t (s : client) := mkClient (ownID s) (ownLID s) (devices_of s) (groups s) (cells s) (settingsCache s) (lid_store s) (contact_db s) (signal_db s) (times s) (token_db s) (dispatched s) (spawned s ++ [t]) (acks s) (world s).
Definition add_ack n (s : client) := mkClient (ownID s) (ownLID s) (devices_of s) (groups s) (cells s) (settingsCache s) (lid_store s) (contact_db s) (signal_db s) (times s) (token_db s) (dispatched s) (spawned s) (acks s ++ [n]) (world s).

Inductive fetch_result := Fetched | FetchDisconnected | FetchFailed.

Record services := mkServices {
  sendIQ : infoQuery -> W -> W * outcome iq_error Node;
  uploadPreKeys : bool -> W -> W;
  FetchAppState : string -> W -> W * fetch_result;
  handlePasskeyNotification : Node -> W -> W;
  unmarshal_message : bytes -> option Msg;
  unmarshal_event : bytes -> option newsletterEvent;
  (* whether an event handler fails on an event *)
  handler_failed : event -> bool;
  dedup_lids : list lidmap.LIDMapping -> list lidmap.LIDMapping;
  dedup_by : forall A, (A -> JID) -> list A -> list A;
  own_first : bool                           (* of two token rows of one time *)
}.

Context {C : Crypto} (V : services) (extra : nat -> nat) (now : gotime).

Notation sm A := (stm client Empty_set A).

Definition update (f : client -> client) : sm unit := fun s => (f s, Ok tt).
Definition read {A} (f : client -> A) : sm A := fun s => (s, Ok (f s)).

(** Handlers that fail do not keep others from being told apart: the result. *)
Definition dispatchEvent (e : event) : sm bool := fun s => (add_events [e] s, Ok (handler_failed V e)).

Definition dispatch (e : event) : sm unit := _ ← dispatchEvent e; mret tt.

(** An operation on a store whose error is logged: whether it succeeded. *)
Definition logged {S E A} (get : client -> S) (set : S -> client -> client) (m : stm S E A) : sm (option A) := fun s =>
  let '(d, o) := m (get s) in
  (set d s, match o with Ok a => Ok (Some a) | Err _ => Ok None | Panic => Panic | NoFuel => NoFuel end).

Definition iter {A} (f : A -> sm unit) : list A -> sm unit := fix go l :=
  match l with [] => mret tt | a :: l => f a;; go l end.

Definition from_of (n : Node) : JID := fst (JID_ "from" (AttrGetter n)).

(** ** Encryption *)

(** The errors of the LID map are dropped with what it returns. *)
Definition storage_lid (j : JID) : sm JID := fun s =>
  (if String.eqb (Server j) DefaultUserServer then set_lids (fst (lidmap.GetLIDForPN (ToNonAD j) (lid_store s))) s else s,
   Ok (tctoken.resolveTCTokenStorageLID (fun pn => match snd (lidmap.GetLIDForPN pn (lid_store s)) with Ok l => Some l | _ => None end) j)).

Definition reissue (from : JID) : sm unit :=
  storageLID ← storage_lid from;
  pt ← logged token_db (fun d s => set_tokens (times s) d s) (privacytokens.GetPrivacyToken (own_first V) storageLID);
  let stored := match pt with Some (Some t) => privacytokens.SenderTimestamp t | _ => ZeroTime end in
  t ← read times;
  let '(valid, t) := tctoken.validateAndSetTCTokenSenderTS now storageLID stored t in
  update (fun s => set_tokens t (token_db s) s);;
  let senderTS := tctoken.getTCTokenSenderTS t storageLID in
  if valid && negb (time_IsZero senderTS) then update (add_task (IssueTokenTask storageLID senderTS)) else mret tt.

Definition handleEncryptNotification (n : Node) : sm unit :=
  let from := from_of n in
  if bool_decide (from = ServerJID) then
    let '(otksLeft, ag) := Int "value" (AttrGetter (GetChildByTag n ["count"])) in
    if negb (OK ag) then mret tt
    else if otksLeft <? prekeys.MinPreKeyCount then update (fun s => set_world (uploadPreKeys V false (world s)) s)
    else mret tt
  else if snd (GetOptionalChildByTag n ["identity"]) then
    _ ← logged signal_db set_signal (sessions.DeleteAllIdentities (User from));
    _ ← logged signal_db set_signal (sessions.DeleteAllSessions (User from));
    reissue from;;
    dispatch (IdentityChange from (fst (UnixTime "t" (AttrGetter n))))
  else mret tt.

(** ** App state *)

Fixpoint fetch_collections (l : list Node) : sm unit :=
  match l with
  | [] => mret tt
  | collection :: l =>
      let name := fst (attrs.String_ "name" (AttrGetter collection)) in
      r ← (fun s => let '(w, r) := FetchAppState V name (world s) in (set_world w s, Ok r));
      match r with FetchDisconnected => mret tt | _ => fetch_collections l end
  end.

Definition handleAppStateNotification (n : Node) : sm unit := fetch_collections (GetChildrenByTag n "collection").

(** ** Pictures *)

(** The event for a child, if there is one. *)
Definition picture_event (ts : gotime) (child : Node) : option Picture :=
  let '(j, ag) := JID_ "jid" (AttrGetter child) in
  let '(author, ag) := OptionalJIDOrEmpty "author" ag in
  let tag := node_tag child in
  if String.eqb tag "delete" then (if OK ag then Some (mkPicture j author ts true "") else None)
  else if String.eqb tag "add" || String.eqb tag "set" then
    let '(id, ag) := attrs.String_ "id" ag in
    if OK ag then Some (mkPicture j author ts false id) else None
  else None.

Definition handlePictureNotification (n : Node) : sm unit :=
  let ts := fst (UnixTime "t" (AttrGetter n)) in
  iter (fun child => match picture_event ts child with Some p => dispatch (EvPicture p) | None => mret tt end) (GetChildren n).

(** ** Devices *)

Definition handleDeviceNotification (n : Node) : sm unit :=
  match devices.notification_lid n with
  | Some lid =>
      match (if String.eqb (Server lid) HiddenUserServer && String.eqb (Server (from_of n)) DefaultUserServer then Some (lid, from_of n)
             else if String.eqb (Server lid) DefaultUserServer && String.eqb (Server (from_of n)) HiddenUserServer then Some (from_of n, lid) else None) with
      | Some (lid, pn) => _ ← logged lid_store set_lids (lidmap.PutLIDMapping lid pn); mret tt
      | None => mret tt
      end
  | None => mret tt
  end;;
  update (fun s => set_devices (devices.handleDeviceNotification extra n (devices_of s)) s).

Definition handleFBDeviceNotification (n : Node) : sm unit :=
  update (fun s => set_devices (devices.handleFBDeviceNotification n (devices_of s)) s).

(** ** Account sync *)

(** The settings' own state is a part of the client's. *)
Definition with_settings (m : stm (settings.client W) settings.settings_error unit) : sm unit := fun s =>
  let '(c, o) := m (settings.mkClient W (cells s) (settingsCache s) [] (world s)) in
  (add_events (map EvSettings (settings.dispatched c)) (set_world (settings.world c) (set_settings (settings.cells c) (settings.privacySettingsCache c) s)),
   match o with Panic => Panic | NoFuel => NoFuel | _ => Ok tt end).

Definition account_child (n child : Node) : sm unit :=
  let tag := node_tag child in
  if String.eqb tag "privacy" then with_settings (settings.handlePrivacySettingsNotification (sendIQ V) child)
  else if String.eqb tag "devices" then
    update (fun s => set_devices (devices.handleOwnDevicesNotification child (from_of n) (ownID s) (ownLID s) (devices_of s)) s)
  else if String.eqb tag "picture" then
    own ← read ownID;
    dispatch (EvPicture (mkPicture (ToNonAD own) EmptyJID (fst (UnixTime "t" (AttrGetter n))) false ""))
  else if String.eqb tag "blocklist" then dispatch (EvBlocklist (settings.handleBlocklist child))
  else mret tt.

Definition handleAccountSyncNotification (n : Node) : sm unit := iter (account_child n) (GetChildren n).

(** ** Privacy tokens *)

(** The token of a child, if it is one; a time that is missing is the zero time. *)
Definition token_of (senderLID : JID) (child : Node) : option privacytokens.PrivacyToken :=
  let '(type, ag) := attrs.String_ "type" (AttrGetter child) in
  if negb (String.eqb (node_tag child) "token") || negb (String.eqb type "trusted_contact") then None
  else match node_content child with
       | ABytes token => Some (privacytokens.mkToken senderLID token (fst (UnixTime "t" ag)) ZeroTime)
       | _ => None
       end.

Definition put_token (t : privacytokens.PrivacyToken) : sm unit :=
  _ ← logged token_db (fun d s => set_tokens (times s) d s) (privacytokens.PutPrivacyTokens [t]); mret tt.

Definition handlePrivacyTokenNotification (n : Node) : sm unit :=
  own ← read ownID;
  if IsEmpty own then mret tt
  else
    let tokens := GetChildByTag n ["tokens"] in
    if negb (String.eqb (node_tag tokens) "tokens") then mret tt
    else
      let '(sender, ag) := JID_ "from" (AttrGetter n) in
      let '(senderLID, ag) := OptionalJIDOrEmpty "sender_lid" ag in
      senderLID ← (if IsEmpty (ToNonAD senderLID) then storage_lid (ToNonAD sender) else mret (ToNonAD senderLID));
      if negb (OK ag) then mret tt
      else iter (fun child => match token_of senderLID child with Some t => put_token t | None => mret tt end) (GetChildren tokens).

(** ** Newsletters, mex, status *)

Definition handleNewsletterNotification (n : Node) : sm unit :=
  let '(j, ag) := JID_ "from" (AttrGetter n) in
  let '(t, _) := UnixTime "t" ag in
  dispatch (NewsletterLiveUpdate j t (newsletter.parseNewsletterMessages (unmarshal_message V) (GetChildByTag n ["live_updates"]))).

(** The first of its kinds. *)
Definition mex_event (mnd : MexNotificationData) (e : newsletterEvent) : option event :=
  match e with
  | mkNewsletterEvent (Some x) _ _ _ => Some (NewsletterJoin mnd x)
  | mkNewsletterEvent None (Some x) _ _ => Some (NewsletterLeave mnd x)
  | mkNewsletterEvent None None (Some x) _ => Some (NewsletterMuteChange mnd x)
  | mkNewsletterEvent None None None (Some x) => Some (NotifyAccountReachoutTimelock mnd x)
  | _ => None
  end.

Definition mex_child (n child : Node) : option event :=
  match node_content child with
  | ABytes data =>
      if String.eqb (node_tag child) "update" then
        e ← unmarshal_event V data;
        mex_event (mkMex (fst (OptionalUnixTime "t" (AttrGetter n))) (fst (OptionalString "op_name" (AttrGetter child)))) e
      else None
  | _ => None
  end.

Definition handleMexNotification (n : Node) : sm unit :=
  iter (fun child => match mex_child n child with Some e => dispatch e | None => mret tt end) (GetChildren n).

Definition handleStatusNotification (n : Node) : sm unit :=
  match GetOptionalChildByTag n ["set"] with
  | (child, true) =>
      match node_content child with
      | ABytes status =>
          let '(j, ag) := JID_ "from" (AttrGetter n) in
          dispatch (UserAbout j (fst (UnixTime "t" ag)) (bytes_str status))
      | _ => mret tt
      end
  | _ => mret tt
  end.

(** ** Groups *)

(** Whether an event handler failed. *)
Definition handle_group (n : Node) : sm bool := fun s =>
  let '(g, o) := group.parseGroupNotification n (groups s) in
  let s := set_groups g s in
  match o with
  | Ok (evt, lidPairs, redactedPhones) =>
      (_ ← logged lid_store set_lids (lidmap.PutManyLIDMappings (dedup_lids V) lidPairs);
       _ ← logged contact_db set_contacts (contacts.PutManyRedactedPhones (dedup_by V) (map (fun '(j, p) => contacts.mkPhone j p) redactedPhones));
       dispatchEvent (EvGroup evt)) s
  | Err _ => (s, Ok false)
  | Panic => (s, Panic)
  | NoFuel => (s, NoFuel)
  end.

Definition handle_media_retry (n : Node) : sm unit :=
  match mediaretry.handleMediaRetryNotification n with
  | Ok l => update (add_events (map EvMediaRetry l))
  | Err _ => mret tt
  | Panic => panic
  | NoFuel => lift NoFuel
  end.

(** ** The dispatcher *)

(** What is done for a type; whether the acknowledgement is cancelled. *)
Definition route (notifType : string) (n : Node) : sm bool :=
  let done (m : sm unit) := (m;; mret false) in
  let go t := done (update (add_task t)) in
  if String.eqb notifType "encrypt" then go (EncryptTask n)
  else if String.eqb notifType "server_sync" then go (AppStateTask n)
  else if String.eqb notifType "account_sync" then go (AccountSyncTask n)
  else if String.eqb notifType "devices" then done (handleDeviceNotification n)
  else if String.eqb notifType "fbid:devices" then done (handleFBDeviceNotification n)
  else if String.eqb notifType "w:gp2" then handle_group n
  else if String.eqb notifType "picture" then done (handlePictureNotification n)
  else if String.eqb notifType "mediaretry" then done (handle_media_retry n)
  else if String.eqb notifType "privacy_token" then done (handlePrivacyTokenNotification n)
  else if String.eqb notifType "link_code_companion_reg" then go (CodePairTask n)
  else if String.eqb notifType "newsletter" then done (handleNewsletterNotification n)
  else if String.eqb notifType "mex" then done (handleMexNotification n)
  else if String.eqb notifType "status" then done (handleStatusNotification n)
  else if String.eqb notifType "passkey_prologue_request" then done (update (fun s => set_world (handlePasskeyNotification V n (world s)) s))
  else if String.eqb notifType "crsc_continuation" then go (PasskeyContinuationTask n)
  else mret false.

(** [SynchronousAck]: the acknowledgement waits for the handlers, and is not sent if
    one failed or [ctxDone], the context is over; else it is sent at once. *)
Definition handleNotification (SynchronousAck ctxDone : bool) (n : Node) : sm unit :=
  (if SynchronousAck then mret tt else update (add_ack n));;
  let '(notifType, ag) := attrs.String_ "type" (AttrGetter n) in
  cancelled ← (if OK ag then route notifType n else mret false);
  if SynchronousAck && negb ctxDone && negb cancelled then update (add_ack n) else mret tt.

(** ** Every notification is acknowledged *)

(** Operations that leave a part of the client alone. *)
Definition same {X} (f : client -> X) (s s' : client) : Prop := f s' = f s.

#[local] Instance same_preorder {X} (f : client -> X) : PreOrder (same f).
Proof. split; [done|]. unfold same. intros x y z H1 H2. by rewrite H2. Qed.

Section same.
Context {X : Type} (f : client -> X).

Lemma moves_update g : (forall s, f (g s) = f s) -> moves (same f) (update g).
Proof. intros H s s' o [= <- _]. apply H. Qed.

Lemma moves_read {A} (g : client -> A) : moves (same f) (read g).
Proof. by intros s s' o [= <- _]. Qed.

Lemma moves_dispatchEvent e : (forall s, f (add_events [e] s) = f s) -> moves (same f) (dispatchEvent e).
Proof. intros H s s' o [= <- _]. apply H. Qed.

Lemma notified_moves_logged {S E A} (get : client -> S) set (m : stm S E A) : (forall d s, f (set d s) = f s) -> moves (same f) (logged get set m).
Proof. intros H s s' o. unfold logged. destruct (m (get s)). intros [= <- _]. apply H. Qed.

Lemma moves_iter {A} (g : A -> sm unit) l : (forall a, moves (same f) (g a)) -> moves (same f) (iter g l).
Proof. intros H. induction l as [|a l IH]; [apply moves_ret, _|]. cbn [iter]. apply moves_bind; [apply _|apply H|done]. Qed.

Lemma moves_storage_lid j : (forall l s, f (set_lids l s) = f s) -> moves (same f) (storage_lid j).
Proof. intros H s s' o [= <- _]. destruct (String.eqb _ _); [apply H|done]. Qed.

Lemma moves_with_settings m : (forall c p w e s, f (add_events e (set_world w (set_settings c p s))) = f s) -> moves (same f) (with_settings m).
Proof. intros H s s' o. unfold with_settings. destruct (m _). intros [= <- _]. apply H. Qed.
End same.

#[local] Hint Resolve moves_read : moves.
#[local] Hint Extern 1 (moves (same _) (dispatchEvent _)) => apply moves_dispatchEvent; intros ?; reflexivity : moves.
#[local] Hint Extern 1 (moves (same _) (storage_lid _)) => apply moves_storage_lid; intros ? ?; reflexivity : moves.
#[local] Hint Extern 1 (moves (same _) (with_settings _)) => apply moves_with_settings; intros ? ? ? ? ?; reflexivity : moves.
#[local] Hint Extern 1 (moves (same _) (update _)) => apply moves_update; intros ?; reflexivity : moves.
#[local] Hint Extern 1 (moves (same _) (logged _ _ _)) => apply notified_moves_logged; intros ? ?; reflexivity : moves.

#[local] Notation same_acks := (same acks).

Lemma moves_dispatch e : moves same_acks (dispatch e).
Proof. unfold dispatch. moves_tac. Qed.
#[local] Hint Resolve moves_dispatch : moves.

Lemma moves_put_token t : moves same_acks (put_token t).
Proof. unfold put_token. moves_tac. Qed.
#[local] Hint Resolve moves_put_token : moves.

#[local] Hint Extern 1 (moves same_acks (iter _ _)) => apply moves_iter; intros ?; moves_tac : moves.

Lemma moves_devices n : moves same_acks (handleDeviceNotification n).
Proof. unfold handleDeviceNotification. moves_tac. Qed.
Lemma moves_picture n : moves same_acks (handlePictureNotification n).
Proof. unfold handlePictureNotification. moves_tac. Qed.
Lemma moves_tokens n : moves same_acks (handlePrivacyTokenNotification n).
Proof. unfold handlePrivacyTokenNotification. cbv zeta. moves_tac. Qed.
Lemma moves_newsletter n : moves same_acks (handleNewsletterNotification n).
Proof. unfold handleNewsletterNotification. moves_tac. Qed.
Lemma moves_mex n : moves same_acks (handleMexNotification n).
Proof. unfold handleMexNotification. moves_tac. Qed.
Lemma moves_status n : moves same_acks (handleStatusNotification n).
Proof. unfold handleStatusNotification. moves_tac. Qed.
Lemma moves_media n : moves same_acks (handle_media_retry n).
Proof. unfold handle_media_retry. moves_tac. Qed.
Lemma moves_fb n : moves same_acks (handleFBDeviceNotification n).
Proof. unfold handleFBDeviceNotification. moves_tac. Qed.
#[local] Hint Resolve moves_fb moves_devices moves_picture moves_tokens moves_newsletter moves_mex moves_status moves_media : moves.

(** Whether the handlers of the application refuse the event of a group notification. *)
Definition group_refused (n : Node) (c : group.group_cache) : bool :=
  match snd (group.parseGroupNotification n c) with Ok (evt, _, _) => handler_failed V (EvGroup evt) | _ => false end.

Lemma handle_group_cancels n s s' b : handle_group n s = (s', Ok b) -> acks s' = acks s /\ b = group_refused n (groups s).
Proof.
  unfold handle_group, group_refused. destruct (group.parseGroupNotification n (groups s)) as [g [[[evt pairs] phones]|e| |]]; cbn [snd]; try done; [|by intros [= <- <-]].
  intros H. stm_inv H. stm_inv H. injection H as <- <-. split; [|done]. apply (notified_moves_logged acks) in E; [|done]. apply (notified_moves_logged acks) in E0; [|done].
  unfold same in *. cbn [add_events acks]. by rewrite E0, E.
Qed.

Lemma route_cancels notifType n s s' b : route notifType n s = (s', Ok b) ->
  acks s' = acks s /\ b = (String.eqb notifType "w:gp2" && group_refused n (groups s)).
Proof.
  assert (forall m : sm unit, moves same_acks m -> (m;; mret false) s = (s', Ok b) -> acks s' = acks s /\ b = false) as Hd.
  { intros m Hm H. stm_inv H. injection H as <- <-. split; [by apply Hm in E|done]. }
  unfold route. cbv zeta. intros H.
  repeat match type of H with (if String.eqb notifType ?c then _ else _) _ = _ => destruct (String.eqb_spec notifType c) as [->|?] end;
    first [by apply handle_group_cancels in H|apply Hd in H; [destruct H as [? ->]; by split|by auto with moves]|idtac].
  by injection H as <- <-.
Qed.

Lemma read_type n : attrs.String_ "type" (AttrGetter n) = match attr_string "type" n with
  | Some t => (t, AttrGetter n) | None => ("", snd (attrs.String_ "type" (AttrGetter n))) end /\
  OK (snd (attrs.String_ "type" (AttrGetter n))) = match attr_string "type" n with Some _ => true | None => false end.
Proof.
  unfold attrs.String_, GetString, value_of, attr_string. cbn [AttrGetter au_attrs]. destruct (attr_get "type" (node_attrs n)) as [v|]; [|done]. by destruct v.
Qed.

(** (C35) Every notification is acknowledged once, whatever it is and whatever happens in its
    handler short of a panic: at once, or, when acknowledgements wait for the handlers, at the end,
    unless the context is over or the application refused a group's change. *)
Theorem notification_acked SynchronousAck ctxDone n s s' : handleNotification SynchronousAck ctxDone n s = (s', Ok tt) ->
  acks s' = acks s ++ (if SynchronousAck && (ctxDone || (bool_decide (attr_string "type" n = Some "w:gp2") && group_refused n (groups s))) then [] else [n]).
Proof.
  unfold handleNotification. intros H. apply stm_bind_inv in H as (s0 & [] & E0 & H).
  assert (groups s0 = groups s /\ acks s0 = acks s ++ (if SynchronousAck then [] else [n])) as [Hg Ha].
  { destruct SynchronousAck; injection E0 as <-; [by rewrite app_nil_r|done]. }
  destruct (read_type n) as [Er Eo]. destruct (attrs.String_ "type" (AttrGetter n)) as [notifType ag]. cbn [snd] in Eo. rewrite Eo in H.
  apply stm_bind_inv in H as (s1 & cancelled & E & H).
  assert (acks s1 = acks s0 /\ cancelled = (bool_decide (attr_string "type" n = Some "w:gp2") && group_refused n (groups s))) as [Ha1 ->].
  { destruct (attr_string "type" n) as [x|].
    - injection Er as <- _. apply route_cancels in E as [-> ->]. rewrite Hg. split; [done|]. f_equal.
      destruct (String.eqb_spec notifType "w:gp2") as [->|Hne]; [done|]. symmetry. apply bool_decide_eq_false_2. congruence.
    - by injection E as <- <-. }
  destruct SynchronousAck; cbn [andb] in H |- *; [|injection H as <-; by rewrite Ha1, Ha].
  destruct ctxDone, (bool_decide _ && _); cbn [negb orb andb] in H |- *; injection H as <-; cbn [add_ack acks]; by rewrite Ha1, Ha, ?app_nil_r.
Qed.

(** ** Identity changes *)

(** Everything that is kept for the user's signal sessions is deleted, each table
    whether or not the other one could be, and the change is announced with its time. *)
Theorem identity_change n s s' : from_of n <> ServerJID -> snd (GetOptionalChildByTag n ["identity"]) = true ->
  handleEncryptNotification n s = (s', Ok tt) ->
  signal_db s' = fst (sessions.DeleteAllSessions (User (from_of n)) (fst (sessions.DeleteAllIdentities (User (from_of n)) (signal_db s)))) /\
  dispatched s' = dispatched s ++ [IdentityChange (from_of n) (fst (UnixTime "t" (AttrGetter n)))].
Proof.
  intros Hf Hi. unfold handleEncryptNotification. rewrite bool_decide_eq_false_2, Hi by done. intros H.
  stm_inv H. stm_inv H. stm_inv H. injection H as <-. unfold logged in E, E0.
  destruct (sessions.DeleteAllIdentities _ (signal_db s)) as [d1 o1]. injection E as <- _. cbn [set_signal signal_db fst] in *.
  destruct (sessions.DeleteAllSessions _ d1) as [d2 o2]. injection E0 as <- _. cbn [fst].
  assert (signal_db s2 = d2 /\ dispatched s2 = dispatched s) as [<- <-]; [|done].
  assert (moves (same (fun s => (signal_db s, dispatched s))) (reissue (from_of n))) as Hm.
  { unfold reissue. moves_tac. }
  apply Hm in E1. injection E1 as -> ->. done.
Qed.

(** ** Privacy tokens *)

(** Tokens that a contact has sent. *)
Definition tokens_of (senderLID : JID) (n : Node) : list privacytokens.PrivacyToken :=
  omap (token_of senderLID) (GetChildren (GetChildByTag n ["tokens"])).

Lemma put_tokens l senderLID : forall s s', sql.works (token_db s) ->
  iter (fun child => match token_of senderLID child with Some t => put_token t | None => mret tt end) l s = (s', Ok tt) ->
  sql.works (token_db s') /\
  privacytokens.tokens (sql.rows (token_db s')) = foldl privacytokens.put_token (privacytokens.tokens (sql.rows (token_db s))) (omap (token_of senderLID) l).
Proof.
  induction l as [|child l IH]; intros s s' Hw H; cbn [iter] in H; [by injection H as <-|].
  apply stm_bind_inv in H as (s1 & [] & E & H). cbn [omap list_omap]. destruct (token_of senderLID child) as [t|]; [|injection E as <-; by apply IH].
  unfold put_token in E. apply stm_bind_inv in E as (s2 & o & E & E2). injection E2 as <-. unfold logged in E.
  rewrite (privacytokens.PutPrivacyTokens_ok [t] (token_db s) Hw) in E by done. injection E as <- _. apply IH in H; [|done]. exact H.
Qed.

(** A notification of privacy tokens, by a sender whose LID it names, puts each of
    them into the table for that LID, in order, and nothing else: of each user the
    newest one stays. *)
Theorem notified_tokens_put n s s' from ag lid ag' : IsEmpty (ownID s) = false -> node_tag (GetChildByTag n ["tokens"]) = "tokens" ->
  JID_ "from" (AttrGetter n) = (from, ag) -> OptionalJIDOrEmpty "sender_lid" ag = (lid, ag') -> OK ag' = true -> IsEmpty (ToNonAD lid) = false ->
  sql.works (token_db s) -> handlePrivacyTokenNotification n s = (s', Ok tt) ->
  privacytokens.tokens (sql.rows (token_db s')) =
    foldl privacytokens.put_token (privacytokens.tokens (sql.rows (token_db s))) (tokens_of (ToNonAD lid) n).
Proof.
  intros Ho Ht Hf Hl Hok He Hw. unfold handlePrivacyTokenNotification, read. intros H. stm_inv H. injection E as <- <-. rewrite Ho, Ht, Hf, Hl, Hok in H.
  change (String.eqb "tokens" "tokens") with true in H. cbn [negb] in H. apply stm_bind_inv in H as (s1 & l & E & H). rewrite He in E. injection E as <- <-.
  by apply put_tokens in H as [_ H].
Qed.

(** ** App state *)

(** The collections that are fetched, with what their fetches come to. *)
Fixpoint fetched (l : list Node) (w : W) : list (string * fetch_result) * W :=
  match l with
  | [] => ([], w)
  | collection :: l =>
      let name := fst (attrs.String_ "name" (AttrGetter collection)) in
      let '(w, r) := FetchAppState V name w in
      match r with FetchDisconnected => ([(name, r)], w) | _ => let '(rs, w) := fetched l w in ((name, r) :: rs, w) end
  end.

(** Collections are fetched in order up to the first that finds the client
    disconnected, after which nothing is asked. *)
Theorem fetched_until_disconnected n s s' : handleAppStateNotification n s = (s', Ok tt) ->
  let '(rs, w) := fetched (GetChildrenByTag n "collection") (world s) in
  world s' = w /\ (forall i name, rs !! i = Some (name, FetchDisconnected) -> S i = length rs) /\
  (length rs = length (GetChildrenByTag n "collection") \/ exists name, last rs = Some (name, FetchDisconnected)).
Proof.
  unfold handleAppStateNotification. generalize (GetChildrenByTag n "collection"). intros l. revert s. induction l as [|c l IH]; intros s H; cbn [fetch_collections fetched] in *.
  { injection H as <-. split_and!; [done| |by left]. intros [] name Hi; done. }
  apply stm_bind_inv in H as (s1 & r & E & H). destruct (FetchAppState V _ (world s)) as [w r'] eqn:Ef. injection E as <- <-.
  assert (r' <> FetchDisconnected -> let '(rs, w0) := (let '(rs, w0) := fetched l w in ((fst (attrs.String_ "name" (AttrGetter c)), r') :: rs, w0)) in
    world s' = w0 /\ (forall i name, rs !! i = Some (name, FetchDisconnected) -> S i = length rs) /\
    (length rs = length (c :: l) \/ exists name, last rs = Some (name, FetchDisconnected))) as Hrest.
  { intros Hne. assert (fetch_collections l (set_world w s) = (s', Ok tt)) as H' by (by destruct r'). apply IH in H'. cbn [set_world world] in H'.
    destruct (fetched l w) as [rs w']. destruct H' as (Hw & Hd & Hl). split_and!; [done| |].
    - intros [|i] name Hi; cbn in Hi; [congruence|]. cbn [length]. f_equal. by eapply Hd.
    - destruct Hl as [Hl|[name Hl]]; [left; cbn [length]; by f_equal|right]. exists name. rewrite last_cons. by rewrite Hl. }
  destruct r'; [by apply Hrest| |by apply Hrest]. injection H as <-. split_and!; [done| |right; by eexists].
  intros [|i] name Hi; [done|]. by destruct i.
Qed.

End notifications.

(** ** A client *)

Definition toy_services : services (Join := unit) (Leave := unit) (Mute := unit) (Timelock := unit) (Msg := unit) (W := unit) :=
  mkServices (fun _ w => (w, Ok node_zero)) (fun _ w => w) (fun _ w => (w, Fetched)) (fun _ w => w) (fun _ => None) (fun _ => None) (fun _ => false)
    (fun l => l) (fun _ _ l => l) true.

Definition toy_lid : JID := mkJID "300" 0 0 0 HiddenUserServer.
Definition toy_own : JID := mkJID "15550000001" 0 2 0 DefaultUserServer.

(** The session with the first device of the LID. *)
Definition toy_address : string := SignalAddressUser toy_lid +:+ ":0".

Definition toy_client : client (Join := unit) (Leave := unit) (Mute := unit) (Timelock := unit) (Msg := unit) (W := unit) :=
  mkClient toy_own EmptyJID (devices.mkClient [] ∅) ∅ [] None (lidmap.NewCachedLIDMap ∅ []) (sql.mkDb ∅ ∅ [])
    (sql.mkDb (sessions.mkTables {[toy_address := [x01]]} {[toy_address := [x02]]} ∅) ∅ []) tc_samples.no_times
    (sql.mkDb (privacytokens.mkTables ∅ None ∅) tt []) [] [] [] tt.

Definition token_node : Node := mkNode "token" [("type", AString "trusted_contact"); ("t", AString "1700000000")] (ABytes [x07]).

Definition token_notification : Node :=
  mkNode "notification" [("type", AString "privacy_token"); ("from", AJID toy_lid); ("sender_lid", AJID toy_lid)]
    (ANodes [mkNode "tokens" [] (ANodes [token_node])]).

Lemma notification_acked_witness :
  acks (fst (handleNotification (C := toy_crypto) toy_services (fun n => n) true false token_notification toy_client)) = [] ++ [token_notification].
Proof.
  apply (notification_acked (C := toy_crypto) toy_services (fun n => n) true false token_notification toy_client).
  vm_compute. reflexivity.
Defined.
Lemma notified_tokens_put_witness :
  privacytokens.tokens (sql.rows (token_db (fst (handlePrivacyTokenNotification token_notification toy_client)))) =
    foldl privacytokens.put_token ∅ [privacytokens.mkToken toy_lid [x07] (UnixNano (1700000000 * 10 ^ 9)) ZeroTime].
Proof.
  apply (notified_tokens_put token_notification toy_client _ toy_lid (AttrGetter token_notification) toy_lid (AttrGetter token_notification));
    [vm_compute; reflexivity..|]. vm_compute. reflexivity.
Defined.

Definition identity_notification (from : JID) : Node :=
  mkNode "notification" [("type", AString "encrypt"); ("from", AJID from); ("t", AString "1700000000")] (ANodes [mkNode "identity" [] ANil]).

(** The sessions and identities of a LID are kept under an address with its agent,
    which the deletion for the bare user does not match. *)
Lemma identity_change_keeps_lid :
  let s' := fst (handleEncryptNotification toy_services ZeroTime (identity_notification toy_lid) toy_client) in
  dispatched s' = [IdentityChange toy_lid (UnixNano (1700000000 * 10 ^ 9))] /\
  sessions.session_rows (sql.rows (signal_db s')) !! toy_address = Some [x02] /\
  sessions.identity_keys (sql.rows (signal_db s')) !! toy_address = Some [x01].
Proof. vm_compute. done. Qed.

End notifications.
