(* ===== verification/Pipeline.v ===== *)
(** * client.go: from frames to handlers

    What the noise socket has decrypted is unpacked, decoded and routed: responses to
    whoever waits for them, other stanzas through a bounded queue to their handlers,
    one after the other unless a handler takes too long. Theorems: nothing is lost or
    handled twice, the order is kept while the queue has room, a handler that hangs
    delays the ones behind it by a bounded number of ticks, and what a server sends
    through its end of the channel is queued here in order. *)

From S2P Require Import Prelude GoStrings Token Jid Node Encoder Decoder Wire Crypto Frame Noise Requests.

#[local] Open Scope string_scope.
#[local] Open Scope list_scope.
#[local] Open Scope Z_scope.

Module pipeline.

Import attrs requests.

(** ** Who handles what *)

Inductive nodeHandler :=
  | handleEncryptedMessage | handleUnencryptedMessage | handleReceipt | handleCallEvent | handleChatState | handlePresence
  | handleNotification | handleConnectSuccess | handleConnectFailure | handleStreamError | handleIQ | handleIB.

Definition nodeHandlers : list (string * nodeHandler) :=
  [("message", handleEncryptedMessage); ("status", handleUnencryptedMessage); ("appdata", handleEncryptedMessage);
   ("receipt", handleReceipt); ("call", handleCallEvent); ("chatstate", handleChatState); ("presence", handlePresence);
   ("notification", handleNotification); ("success", handleConnectSuccess); ("failure", handleConnectFailure);
   ("stream:error", handleStreamError); ("iq", handleIQ); ("ib", handleIB)].

Definition handler_of (tag : string) : option nodeHandler :=
  snd <$> List.find (fun p => String.eqb (fst p) tag) nodeHandlers.

Definition has_handler (n : Node) : bool := match handler_of (node_tag n) with Some _ => true | None => false end.

Definition handlerQueueSize : nat := 2048.

(** ** One connection *)

(** The loop waits for a node, or for the handler of one: how often its ticker has
    fired, and whether the handler has returned. *)
Inductive loop_state := Idle | Busy (n : Node) (ticks : nat) (returned : bool) | Stopped.

Record connection := mkConnection {
  responses : requests.state;
  queue : list Node;
  waiting : list Node;       (* goroutines that found the queue full *)
  loop : loop_state;
  background : list Node;    (* handlers the loop no longer waits for *)
  connDone : bool;           (* connCtx *)
  received : list Node;      (* what came for the handlers, in order *)
  started : list Node;       (* handlers started, in order *)
  dropped : list Node;       (* given up as the connection ended *)
  overflowed : bool          (* the queue has been full when a node came *)
}.

Definition new_connection (r : requests.state) : connection := mkConnection r [] [] Idle [] false [] [] [] false.

Definition with_responses (r : requests.state) (s : connection) : connection :=
  mkConnection r (queue s) (waiting s) (loop s) (background s) (connDone s) (received s) (started s) (dropped s) (overflowed s).

(** Into the queue. *)
Definition push (n : Node) (s : connection) : connection :=
  mkConnection (responses s) (queue s ++ [n]) (waiting s) (loop s) (background s) (connDone s) (received s ++ [n]) (started s) (dropped s) (overflowed s).

Definition drop_node (n : Node) (s : connection) : connection :=
  mkConnection (responses s) (queue s) (waiting s) (loop s) (background s) (connDone s) (received s ++ [n]) (started s) (dropped s ++ [n]) (overflowed s).

(** A goroutine waits for room. *)
Definition overflow (n : Node) (s : connection) : connection :=
  mkConnection (responses s) (queue s) (waiting s ++ [n]) (loop s) (background s) (connDone s) (received s ++ [n]) (started s) (dropped s) true.

Definition has_room (s : connection) : bool := (length (queue s) <? handlerQueueSize)%nat.

(** The select with a default. When the connection is over and there is room, Go
    chooses: [drops]. *)
Definition enqueue (drops : bool) (n : Node) (s : connection) : connection :=
  if connDone s && (drops || negb (has_room s)) then drop_node n s
  else if has_room s then push n s
  else overflow n s.

Section frames.
(** [zlib] of Go's standard library. *)
Context {zlib_error : Type} (inflate : bytes -> outcome zlib_error bytes).

Inductive frame_result :=
  | NotUnpacked (e : zlib_error)
  | NotDecoded (e : decoder.dec_error)
  | StreamEnd
  | Response                          (* someone waits for it *)
  | Queued
  | Unhandled.

(** Failures are logged. *)
Definition handleFrame (drops : bool) (data : bytes) (s : connection) : outcome unit (connection * frame_result) :=
  match decoder.Unpack inflate data with
  | Err e => Ok (s, NotUnpacked e)
  | Panic => Panic
  | NoFuel => NoFuel
  | Ok decompressed =>
      match decoder.Unmarshal decompressed with
      | Err e => Ok (s, NotDecoded e)
      | Panic => Panic
      | NoFuel => NoFuel
      | Ok n =>
          if String.eqb (node_tag n) "xmlstreamend" then Ok (s, StreamEnd)
          else match take_waiter n (responses s) with
               | Some (_, r) => Ok (with_responses r s, Response)
               | None => if has_handler n then Ok (enqueue drops n s, Queued) else Ok (s, Unhandled)
               end
      end
  end.

(** The frames of a connection come one after the other. *)
Fixpoint handleFrames (frames : list (bool * bytes)) (s : connection) : outcome unit connection :=
  match frames with
  | [] => Ok s
  | (drops, data) :: frames => '(s, _) ← handleFrame drops data s; handleFrames frames s
  end.

(** ** The loop *)

Definition with_loop (l : loop_state) (b : list Node) (s : connection) : connection :=
  mkConnection (responses s) (queue s) (waiting s) l b (connDone s) (received s) (started s) (dropped s) (overflowed s).

(** How often the ticker fires before the loop goes on without the handler. *)
Definition max_ticks : nat := 10.

Definition take (n : Node) (rest : list Node) (s : connection) : connection :=
  mkConnection (responses s) rest (waiting s) (Busy n 0 false) (background s) (connDone s) (received s) (started s ++ [n]) (dropped s) (overflowed s).

Definition tick (n : Node) (ticks : nat) (returned : bool) (s : connection) : connection :=
  if (S ticks =? max_ticks)%nat then with_loop Idle (if returned then background s else background s ++ [n]) s
  else with_loop (Busy n (S ticks) returned) (background s) s.

Definition with_queues (q w d : list Node) (s : connection) : connection :=
  mkConnection (responses s) q w (loop s) (background s) (connDone s) (received s) (started s) d (overflowed s).

(** What the loop does, and what happens around it. *)
Inductive label := Loop | Around.

Inductive step : label -> connection -> connection -> Prop :=
  | step_take s n rest : loop s = Idle -> queue s = n :: rest -> step Loop s (take n rest s)
  | step_next s n i : loop s = Busy n i true -> step Loop s (with_loop Idle (background s) s)
  | step_tick s n i r : loop s = Busy n i r -> step Loop s (tick n i r s)
  | step_stop s : loop s = Idle -> connDone s = true -> step Loop s (with_loop Stopped (background s) s)
  | step_return s n i : loop s = Busy n i false -> step Around s (with_loop (Busy n i true) (background s) s)
  | step_return_late s b1 n b2 : background s = b1 ++ n :: b2 -> step Around s (with_loop (loop s) (b1 ++ b2) s)
  | step_frame s drops data s' r : handleFrame drops data s = Ok (s', r) -> step Around s s'
  | step_room s w1 n w2 : waiting s = w1 ++ n :: w2 -> has_room s = true ->
      step Around s (with_queues (queue s ++ [n]) (w1 ++ w2) (dropped s) s)
  | step_give_up s w1 n w2 : waiting s = w1 ++ n :: w2 -> connDone s = true ->
      step Around s (with_queues (queue s) (w1 ++ w2) (dropped s ++ [n]) s)
  | step_done s : step Around s (mkConnection (responses s) (queue s) (waiting s) (loop s) (background s) true (received s) (started s) (dropped s) (overflowed s))
  | step_responses s r : requests.step (responses s) (Some r) -> step Around s (with_responses r s).

Inductive run : list label -> connection -> connection -> Prop :=
  | run_nil s : run [] s s
  | run_snoc ls l s s' s'' : run ls s s' -> step l s' s'' -> run (ls ++ [l]) s s''.

Definition reachable (s : connection) : Prop := exists r ls, run ls (new_connection r) s.

(** ** Sending *)

Inductive send_error :=
  | ErrNotConnected
  | ErrSocket (e : noise.noise_error).

Context {C : Crypto}.

(** The payload is returned with the socket's error, too. [sock]: the client's socket,
    if it has one. *)
Definition sendNodeAndGetData (cancelled cancelledMeanwhile : bool) (n : Node) (sock : option noise.NoiseSocket) :
    option noise.NoiseSocket * option bytes (* written *) * option bytes (* payload *) * outcome send_error unit :=
  match sock with
  | None => (None, None, None, Err ErrNotConnected)
  | Some ns =>
      match encoder.Marshal n with
      | Ok payload =>
          let '(ns, w, o) := noise.NsSendFrame cancelled cancelledMeanwhile payload ns in
          (Some ns, w, Some payload, map_err ErrSocket o)
      | Err e => match e with end
      | Panic => (Some ns, None, None, Panic)
      | NoFuel => (Some ns, None, None, NoFuel)
      end
  end.

Definition sendNode (cancelled cancelledMeanwhile : bool) (n : Node) (sock : option noise.NoiseSocket) :
    option noise.NoiseSocket * option bytes * outcome send_error unit :=
  let '(ns, w, _, o) := sendNodeAndGetData cancelled cancelledMeanwhile n sock in (ns, w, o).

(** Sends that all go through, and what was written. *)
Fixpoint sendNodes (l : list Node) (ns : noise.NoiseSocket) : option (list bytes * noise.NoiseSocket) :=
  match l with
  | [] => Some ([], ns)
  | n :: l =>
      match sendNode false false n (Some ns) with
      | (Some ns, Some w, Ok _) => '(ws, ns) ← sendNodes l ns; Some (w :: ws, ns)
      | _ => None
      end
  end.

(** ** The unified session *)

Definition week : Z := 7 * 24 * 3600 * 1000.
Definition unifiedOffset : Z := 3 * 24 * 3600 * 1000.

(** Times in milliseconds, the offset of the server's clock in nanoseconds. *)
Definition getUnifiedSessionID (now_ns serverTimeOffset : Z) : string :=
  itoa (Z.rem ((now_ns + serverTimeOffset + unifiedOffset * 1000000) / 1000000) week).

Definition unified_session (now_ns serverTimeOffset : Z) : Node :=
  mkNode "ib" [] (ANodes [mkNode "unified_session" [("id", AString (getUnifiedSessionID now_ns serverTimeOffset))] ANil]).

(** An error is logged. *)
Definition sendUnifiedSession (now_ns serverTimeOffset : Z) (sock : option noise.NoiseSocket) : option noise.NoiseSocket * option bytes :=
  fst (sendNode false false (unified_session now_ns serverTimeOffset) sock).

(** ** Nothing is lost, nothing is handled twice *)

Record accounted (s : connection) : Prop := {
  acc_all : received s ≡ₚ started s ++ queue s ++ waiting s ++ dropped s;
  acc_room : (length (queue s) <= handlerQueueSize)%nat;
  acc_order : overflowed s = false -> waiting s = [] /\ sublist (started s ++ queue s) (received s);
  acc_overflow : overflowed s = true -> (handlerQueueSize < length (received s))%nat;
  acc_dropped : connDone s = false -> dropped s = [];
  acc_ticks : forall n i r, loop s = Busy n i r -> (i < max_ticks)%nat /\ n ∈ started s;
  acc_background : forall n, n ∈ background s -> n ∈ started s
}.

Lemma has_room_spec s : has_room s = true <-> (length (queue s) < handlerQueueSize)%nat.
Proof. unfold has_room. apply Nat.ltb_lt. Qed.

Lemma accounted_new r : accounted (new_connection r).
Proof. split; cbn; try done. apply Nat.le_0_l. Qed.

Lemma accounted_push n s : has_room s = true -> accounted s -> accounted (push n s).
Proof.
  intros Hr [H1 H2 H3 H4 H5 H6 H7]. apply has_room_spec in Hr. split; cbn; try done.
  - rewrite H1, <- !app_assoc. do 2 f_equiv. rewrite app_assoc. apply Permutation_app_comm.
  - rewrite length_app. cbn. lia.
  - intros E. destruct (H3 E) as [Hw Hs]. split; [done|]. rewrite app_assoc. by apply sublist_app.
  - intros E. rewrite length_app. specialize (H4 E). lia.
Qed.

Lemma accounted_drop n s : connDone s = true -> accounted s -> accounted (drop_node n s).
Proof.
  intros Hd [H1 H2 H3 H4 H5 H6 H7]. split; cbn; try done.
  - rewrite H1, <- !app_assoc. done.
  - intros E. destruct (H3 E) as [Hw Hs]. split; [done|]. by apply sublist_inserts_r.
  - intros E. rewrite length_app. specialize (H4 E). lia.
  - congruence.
Qed.

Lemma accounted_overflow n s : has_room s = false -> accounted s -> accounted (overflow n s).
Proof.
  intros Hr [H1 H2 H3 H4 H5 H6 H7]. split; cbn; try done.
  - rewrite H1, <- !app_assoc. do 3 f_equiv. apply Permutation_app_comm.
  - intros _. unfold has_room in Hr. apply Nat.ltb_ge in Hr.
    pose proof (Permutation_length H1) as Hl. rewrite !length_app in Hl. rewrite length_app. cbn [length]. lia.
Qed.

Lemma accounted_enqueue drops n s : accounted s -> accounted (enqueue drops n s).
Proof.
  intros H. unfold enqueue. destruct (connDone s && _) eqn:E; [apply accounted_drop; [by destruct (connDone s)|done]|].
  destruct (has_room s) eqn:Er; [by apply accounted_push|by apply accounted_overflow].
Qed.

Lemma handleFrame_cases drops data s s' r : handleFrame drops data s = Ok (s', r) ->
  s' = s \/ (exists rs, s' = with_responses rs s) \/ exists n, s' = enqueue drops n s.
Proof.
  unfold handleFrame. destruct (decoder.Unpack inflate data) as [d| | |]; try done; [|intros [= <- _]; by left].
  destruct (decoder.Unmarshal d) as [n| | |]; try done; [|intros [= <- _]; by left].
  destruct (String.eqb _ _); [intros [= <- _]; by left|]. destruct (take_waiter n (responses s)) as [[c rs]|]; [intros [= <- _]; right; left; by exists rs|].
  destruct (has_handler n); intros [= <- _]; [right; right; by exists n|by left].
Qed.

(** What the loop does leaves alone what has come, and keeps the rest in order. *)
Lemma accounted_loop s l b : (forall n i r, l = Busy n i r -> (i < max_ticks)%nat /\ n ∈ started s) -> (forall n, n ∈ b -> n ∈ started s) ->
  accounted s -> accounted (with_loop l b s).
Proof. intros Hl Hb [H1 H2 H3 H4 H5 H6 H7]. by split. Qed.

Lemma accounted_take n rest s : queue s = n :: rest -> accounted s -> accounted (take n rest s).
Proof.
  intros Hq [H1 H2 H3 H4 H5 H6 H7]. rewrite Hq in *. split; cbn; try done.
  - by rewrite H1, <- app_assoc.
  - cbn [length] in H2. lia.
  - by rewrite <- app_assoc.
  - intros m i r [= <- <- <-]. split; [unfold max_ticks; lia|]. set_solver.
  - intros m Hm. apply H7 in Hm. set_solver.
Qed.

Lemma accounted_queues q w d s : started s ++ q ++ w ++ d ≡ₚ started s ++ queue s ++ waiting s ++ dropped s -> (length q <= handlerQueueSize)%nat ->
  overflowed s = true -> (connDone s = false -> d = []) -> accounted s -> accounted (with_queues q w d s).
Proof. intros Hp Hq Ho Hd [H1 H2 H3 H4 H5 H6 H7]. split; cbn; try done; [by rewrite H1, Hp|congruence]. Qed.

Lemma accounted_step l s s' : step l s s' -> accounted s -> accounted s'.
Proof.
  intros Hs A. destruct Hs as [s n rest Hl Hq|s n i Hl|s n i r Hl|s Hl Hd|s n i Hl|s b1 n b2 Hb|s drops data s' r Hf|s w1 n w2 Hw Hr|s w1 n w2 Hw Hd|s|s r Hr].
  - by apply accounted_take.
  - apply accounted_loop; [done|apply A|done].
  - destruct (acc_ticks _ A _ _ _ Hl) as [Hi Hn]. pose proof (acc_background _ A) as Hb. unfold tick. destruct (Nat.eqb_spec (S i) max_ticks).
    + apply accounted_loop; [done| |done]. destruct r; [done|]. intros m Hm. apply elem_of_app in Hm as [Hm|Hm]; [by apply Hb|]. by apply list_elem_of_singleton in Hm as ->.
    + apply accounted_loop; [|done..]. intros m j r' [= <- <- <-]. split; [lia|done].
  - apply accounted_loop; [done|apply A|done].
  - apply accounted_loop; [|apply A|done]. intros m j r' [= <- <- <-]. by apply (acc_ticks _ A _ _ _ Hl).
  - apply accounted_loop; [apply A| |done]. intros m Hm. apply (acc_background _ A). rewrite Hb. set_solver.
  - apply handleFrame_cases in Hf as [->|[[rs ->]|[n ->]]]; [done| |by apply accounted_enqueue]. destruct A. by split.
  - assert (overflowed s = true) as Ho. { destruct (overflowed s) eqn:E; [done|]. apply (acc_order _ A) in E as [E _]. rewrite Hw in E. by destruct w1. }
    apply has_room_spec in Hr. apply accounted_queues; [|rewrite length_app; cbn; lia|done|apply A|done].
    rewrite Hw. f_equiv. rewrite <- app_assoc. f_equiv. cbn [app]. rewrite <- !app_assoc. cbn [app]. apply Permutation_middle.
  - assert (overflowed s = true) as Ho. { destruct (overflowed s) eqn:E; [done|]. apply (acc_order _ A) in E as [E _]. rewrite Hw in E. by destruct w1. }
    apply accounted_queues; [|apply A|done|congruence|done]. rewrite Hw. do 2 f_equiv. rewrite <- !app_assoc. f_equiv. cbn [app].
    rewrite (Permutation_app_comm (dropped s) [n]). cbn [app]. symmetry. apply Permutation_middle.
  - destruct A. by split.
  - destruct A. by split.
Qed.

Lemma accounted_run ls s s' : run ls s s' -> accounted s -> accounted s'.
Proof. induction 1; [done|]. intros A. eapply accounted_step; [done|]. by apply IHrun. Qed.

Lemma accounted_reachable s : reachable s -> accounted s.
Proof. intros (r & ls & H). eapply accounted_run; [exact H|apply accounted_new]. Qed.

Lemma sublist_whole {A} (l k : list A) : sublist l k -> (length k <= length l)%nat -> l = k.
Proof.
  induction 1 as [|x l k H IH|x l k H IH]; cbn [length]; intros Hl; [done|f_equal; apply IH; lia|].
  apply sublist_length in H. lia.
Qed.

(** (C7) Of the stanzas that came for a handler each one has been given to its handler
    once, is queued, waits for room or was given up as the connection ended. While
    the queue, which never holds more than 2048, has not been full, they are given to
    their handlers in the order in which they came; while the connection lasts all
    that are not queued have been. Whatever runs in the background was started. *)
Theorem handled_once s : reachable s ->
  received s ≡ₚ started s ++ queue s ++ waiting s ++ dropped s /\
  (length (queue s) <= handlerQueueSize)%nat /\
  (overflowed s = false -> waiting s = [] /\ sublist (started s ++ queue s) (received s) /\
    (connDone s = false -> received s = started s ++ queue s)) /\
  (overflowed s = true -> (handlerQueueSize < length (received s))%nat) /\
  (connDone s = false -> dropped s = []) /\
  (forall n, n ∈ background s -> n ∈ started s).
Proof.
  intros [H1 H2 H3 H4 H5 H6 H7]%accounted_reachable. split_and!; try done. intros Ho. destruct (H3 Ho) as [Hw Hs]. split_and!; [done|done|].
  intros Hd. symmetry. apply sublist_whole; [done|]. by rewrite H1, Hw, (H5 Hd), app_nil_r.
Qed.

(** ** A handler that hangs *)

Definition left (l : loop_state) : nat := match l with Busy _ i _ => (max_ticks - i)%nat | _ => 0%nat end.

Definition loops (ls : list label) : nat := length (List.filter (fun l => match l with Loop => true | Around => false end) ls).

Lemma stopped_stays l s s' : step l s s' -> loop s = Stopped -> loop s' = Stopped.
Proof.
  intros H Hl. destruct H as [s n rest H|s n i H|s n i r H|s H|s n i H|s b1 n b2 H|s drops data s' r H|s w1 n w2 H|s w1 n w2 H|s|s r H]; try congruence; try done.
  apply handleFrame_cases in H as [->|[[rs ->]|[n ->]]]; [done|done|]. unfold enqueue. destruct (_ && _); [done|]. by destruct (has_room s).
Qed.

(** How far the loop has come: eleven for each handler started, less the ticks it
    still waits for the last one. *)
Definition progress (s : connection) : nat := (11 * length (started s) - left (loop s))%nat.

Lemma enqueue_keeps drops n s : let s' := enqueue drops n s in
  started s' = started s /\ loop s' = loop s /\ exists new, queue s' = queue s ++ new.
Proof.
  unfold enqueue. destruct (_ && _); [|destruct (has_room s)]; cbn; split_and!; try done; [by exists []; rewrite app_nil_r|by exists [n]|by exists []; rewrite app_nil_r].
Qed.

(** A step: the handlers it starts come from the front of the queue, and every step
    of a loop that is not stopped is progress. *)
Lemma step_progress l s s' : accounted s -> loop s' <> Stopped -> step l s s' ->
  (exists taken new, started s' = started s ++ taken /\ queue s ++ new = taken ++ queue s') /\
  (progress s + loops [l] <= progress s')%nat.
Proof.
  intros A Hs H.
  assert (forall n i r, loop s = Busy n i r -> (i < 10)%nat /\ (0 < length (started s))%nat) as Hb.
  { intros n i r E. destruct (acc_ticks _ A _ _ _ E) as [Hi Hn]. split; [exact Hi|]. apply list_elem_of_In in Hn. by destruct (started s); [|cbn; lia]. }
  assert (forall n i r, loop s = Busy n i r -> left (loop s) = (10 - i)%nat) as Hleft by (by intros n i r ->).
  unfold progress, loops.
  destruct H as [s n rest Hl Hq|s n i Hl|s n i r Hl|s Hl Hd|s n i Hl|s b1 n b2 Hbk|s drops data s' r Hf|s w1 n w2 Hw Hr|s w1 n w2 Hw Hd|s|s r Hr];
    cbn [List.filter length started queue with_loop with_queues with_responses take loop].
  - split; [exists [n], []; by rewrite Hq, app_nil_r|]. rewrite length_app, Hl. cbn [left length]. unfold max_ticks. lia.
  - split; [exists [], []; by rewrite !app_nil_r|]. destruct (Hb _ _ _ Hl). rewrite (Hleft _ _ _ Hl). cbn [left]. lia.
  - destruct (Hb _ _ _ Hl) as [Hi Hn]. rewrite (Hleft _ _ _ Hl). unfold tick in *. destruct (Nat.eqb_spec (S i) max_ticks) as [E|E]; cbn [with_loop started queue loop left];
      (split; [exists [], []; by rewrite !app_nil_r|]); unfold max_ticks in *; lia.
  - done.
  - split; [exists [], []; by rewrite !app_nil_r|]. rewrite (Hleft _ _ _ Hl). cbn [left]. unfold max_ticks. lia.
  - split; [exists [], []; by rewrite !app_nil_r|]. lia.
  - apply handleFrame_cases in Hf as [->|[[rs ->]|[n ->]]]; [split; [exists [], []; by rewrite !app_nil_r|cbn [with_responses started loop]; lia]..|].
    destruct (enqueue_keeps drops n s) as (-> & -> & new & ->). split; [exists [], new; by rewrite app_nil_r|]. lia.
  - split; [exists [], [n]; by rewrite app_nil_r|]. lia.
  - split; [exists [], []; by rewrite !app_nil_r|]. lia.
  - split; [exists [], []; by rewrite !app_nil_r|]. lia.
  - split; [exists [], []; by rewrite !app_nil_r|]. lia.
Qed.

Lemma run_progress ls s s' : accounted s -> run ls s s' -> loop s' <> Stopped ->
  (exists taken new, started s' = started s ++ taken /\ queue s ++ new = taken ++ queue s') /\
  (progress s + loops ls <= progress s')%nat.
Proof.
  intros A H. induction H as [s|ls l s s1 s2 H IH H2]; intros Hs; [split; [exists [], []; by rewrite !app_nil_r|unfold loops; cbn; lia]|].
  destruct IH as [(t1 & n1 & E1 & Q1) P1]; [done|intros E; apply Hs; by eapply stopped_stays|].
  destruct (step_progress l s1 s2) as [(t2 & n2 & E2 & Q2) P2]; [by eapply accounted_run|done|done|]. split.
  - exists (t1 ++ t2), (n1 ++ n2). split; [by rewrite E2, E1, app_assoc|]. by rewrite app_assoc, Q1, <- app_assoc, Q2, app_assoc.
  - unfold loops in *. rewrite List.filter_app, length_app. lia.
Qed.

(** (C39) A handler that does not return holds up the ones behind it for ten ticks: after
    eleven steps of the loop for each stanza that is queued up to some one, and ten
    for the one being handled, that one's handler has been started, right after those
    of the stanzas before it. Until it is stopped, a loop with something to do can do
    a step, whatever the handlers do. *)
Theorem hung_handlers_pass s : reachable s ->
  (forall ls s' k, run ls s s' -> loop s' <> Stopped -> (k < length (queue s))%nat -> (11 * (k + 1) + 10 <= loops ls)%nat ->
    exists rest, started s' = started s ++ firstn (S k) (queue s) ++ rest) /\
  (loop s <> Stopped -> queue s <> [] -> exists s', step Loop s s').
Proof.
  intros A%accounted_reachable. split.
  - intros ls s' k Hr Hs Hk Hn. destruct (run_progress _ _ _ A Hr Hs) as [(taken & new & E & Q) P].
    assert (length (started s') = (length (started s) + length taken)%nat) as Hl by (by rewrite E, length_app).
    unfold progress in P. assert (left (loop s) <= 10)%nat as Hleft by (destruct (loop s); cbn; unfold max_ticks; lia).
    assert (S k <= length taken)%nat as Ht by lia. exists (drop (S k) taken). rewrite E. f_equal.
    assert (firstn (S k) taken = firstn (S k) (queue s)) as <-.
    { rewrite <- (take_app_le taken (queue s')), <- Q by done. rewrite take_app_le by lia. done. }
    symmetry. apply firstn_skipn.
  - intros Hs Hq. destruct (loop s) as [|n i r|] eqn:E; [|by eexists; eapply step_tick|done].
    destruct (queue s) as [|n rest] eqn:Eq; [done|]. eexists. by eapply step_take.
Qed.

(** ** From a server's nodes to the queue *)

Lemma Marshal_ok n : wire.encodable_node n = true ->
  exists bs, encoder.Marshal n = Ok (z2b 0 :: bs) /\ decoder.Unmarshal bs = Ok (wire.norm_node n).
Proof.
  intros He. destruct (proj2 wire.encodable_roundtrips n He) as (bs & Hbs & Hr). exists bs. split.
  - unfold encoder.Marshal. by rewrite Hbs.
  - unfold decoder.Unmarshal, decoder.newDecoder. specialize (Hr (S (length bs)) ltac:(lia) [] []).
    cbn [app] in Hr. rewrite app_nil_r, blen_nil in Hr. rewrite Hr. cbn [mbind outcome_bind decoder.index decoder.data]. by rewrite Z.add_0_l, Z.eqb_refl.
Qed.

(** A stanza for a handler that nobody waits for as a response. *)
Definition for_handler (s : connection) (n : Node) : Prop :=
  wire.encodable_node n = true /\ has_handler n = true /\ take_waiter (wire.norm_node n) (responses s) = None.

Lemma handleFrame_node n p s drops : for_handler s n -> encoder.Marshal n = Ok p ->
  handleFrame drops p s = Ok (enqueue drops (wire.norm_node n) s, Queued).
Proof.
  intros (He & Hh & Hw) Hp. destruct (Marshal_ok n He) as (bs & E & Hd). rewrite E in Hp. injection Hp as <-.
  unfold handleFrame. change (decoder.Unpack inflate (z2b 0 :: bs)) with (@Ok zlib_error _ bs). cbv beta iota. rewrite Hd.
  assert (node_tag (wire.norm_node n) = node_tag n) as Ht by (by destruct n). rewrite Ht, Hw. unfold has_handler in *. rewrite Ht, Hh.
  destruct (String.eqb_spec (node_tag n) "xmlstreamend") as [E'|]; [|done]. by rewrite E' in Hh.
Qed.

Lemma handleFrames_nodes l : forall ps s, Forall (for_handler s) l -> Forall2 (fun n p => encoder.Marshal n = Ok p) l ps ->
  exists s', handleFrames (map (pair false) ps) s = Ok s' /\ received s' = received s ++ map wire.norm_node l /\
    (connDone s = false -> (length (queue s) + length l <= handlerQueueSize)%nat -> queue s' = queue s ++ map wire.norm_node l).
Proof.
  induction l as [|n l IH]; intros ps s Hl Hp; inversion Hp as [|? p ? ps' E Hp']; subst; [exists s; by rewrite !app_nil_r|].
  inversion Hl as [|? ? Hn Hl']; subst. set (s1 := enqueue false (wire.norm_node n) s).
  assert (responses s1 = responses s /\ connDone s1 = connDone s /\ received s1 = received s ++ [wire.norm_node n]) as (Er & Ed & Erc).
  { unfold s1, enqueue. destruct (_ && _); [done|]. by destruct (has_room s). }
  destruct (IH ps' s1) as (s' & E' & Erc' & Eq'); [|done|].
  { eapply Forall_impl; [exact Hl'|]. intros m. unfold for_handler. by rewrite Er. }
  exists s'. cbn [map handleFrames]. rewrite (handleFrame_node n p s false Hn E). split; [exact E'|]. split; [by rewrite Erc', Erc, <- app_assoc|].
  intros Hd Hlen. cbn [length] in Hlen. assert (queue s1 = queue s ++ [wire.norm_node n]) as Eq1.
  { unfold s1, enqueue. rewrite Hd. cbn [andb]. assert (has_room s = true) as -> by (apply has_room_spec; lia). done. }
  rewrite Eq', Eq1, <- app_assoc; [done|congruence|]. rewrite Eq1, length_app. cbn [length]. lia.
Qed.

Lemma sendNodes_payloads l : forall ns ws ns', sendNodes l ns = Some (ws, ns') ->
  exists ps, Forall2 (fun n p => encoder.Marshal n = Ok p) l ps /\ noise.NsSendAll ps ns = Ok (ws, ns').
Proof.
  induction l as [|n l IH]; intros ns ws ns' H; cbn [sendNodes] in H; [injection H as <- <-; by exists []|].
  unfold sendNode, sendNodeAndGetData in H. destruct (encoder.Marshal n) as [p|[]| |] eqn:Em; try done.
  destruct (noise.NsSendFrame false false p ns) as [[ns1 w] o] eqn:Es. destruct w as [w|]; [|done].
  destruct o as [[]|e| |]; try done. cbn [map_err] in H. destruct (sendNodes l ns1) as [[ws1 ns2]|] eqn:E; [|done]. injection H as <- <-.
  apply IH in E as (ps & H1 & H2). exists (p :: ps). split; [by constructor|]. cbn [noise.NsSendAll]. by rewrite Es, H2.
Qed.

(** (C6) From one end to the other, where nothing is in the way: the stanzas that a peer
    sends over its end of the encrypted channel, whose keys and counters agree with ours,
    arrive here as the stanzas they are on the wire, in the same order, behind what was
    queued for the handlers, and the two ends' counters agree again. In the way are four
    things, all excluded here: the peer's first message with the connection's header; a
    cut into websocket messages inside a payload, which the reader does not put together
    again (split_payload_corrupts of Frame.v), so that messages may be cut between frames
    and inside the three bytes before one only; a stanza without a handler or one whose
    id a call waits for, which is not queued but taken by that call; and a connection that
    is done or a queue without room for all of them. *)
Theorem sent_stanzas_queued {L : CryptoLaws C} sender sender' receiver l ws fs msgs frames s :
  socket.Header (noise.ns_fs sender) = None -> noise.writeKey sender = noise.readKey receiver ->
  u32 (noise.writeCounter sender) = u32 (noise.readCounter receiver) ->
  Forall (for_handler s) l -> connDone s = false -> (length (queue s) + length l <= handlerQueueSize)%nat ->
  sendNodes l sender = Some (ws, sender') -> ws = map socket.encode frames -> socket.cut [] msgs frames [] ->
  exists receiver' payloads s', socket.processAll (socket.idle [] fs) msgs = Ok (socket.idle [] fs, frames) /\
    noise.consumeFrames (map noise.SFrame frames) receiver = (receiver', payloads) /\
    handleFrames (map (pair false) payloads) s = Ok s' /\
    received s' = received s ++ map wire.norm_node l /\ queue s' = queue s ++ map wire.norm_node l /\
    u32 (noise.writeCounter sender') = u32 (noise.readCounter receiver').
Proof.
  intros Hh Hk Hc Hl Hd Hlen Hs Hws Hcut. apply sendNodes_payloads in Hs as (ps & Hps & Hs).
  destruct (noise.NsSendAll_frames _ _ _ _ _ Hh eq_refl Hs) as (Hws' & Hall & Hc').
  assert (frames = noise.ciphertexts (noise.writeKey sender) (noise.writeCounter sender) ps) as Hf by (apply noise.map_encode_inj; by rewrite <- Hws).
  rewrite <- Hf in Hall. rewrite Hk in Hf. destruct (noise.consume_ciphertexts ps receiver (noise.writeCounter sender)) as (r' & H1 & H2); [done|].
  destruct (handleFrames_nodes l ps s Hl Hps) as (s' & E & Er & Eq).
  exists r', ps, s'. split_and!; [by apply socket.processAll_cut|by rewrite Hf|done|done|by apply Eq|by rewrite Hc', H2].
Qed.

(** A frame that decrypts to nothing: the first byte of what is not there. *)
Lemma empty_frame_panics drops s : handleFrame drops [] s = Panic.
Proof. done. Qed.

(** The session's identifier is a time of the week. *)
Lemma unified_session_week now offset : 0 <= now + offset + unifiedOffset * 1000000 ->
  exists t, getUnifiedSessionID now offset = itoa t /\ 0 <= t < week.
Proof.
  intros H. eexists. split; [done|]. apply Z.rem_bound_pos; [|unfold week; lia]. by apply Z.div_pos.
Qed.

End frames.

(** ** A connection *)

Definition no_zlib (d : bytes) : outcome unit bytes := Err tt.

Definition message (id : string) : Node := mkNode "message" [("id", AString id)] ANil.

Definition two_messages : list Node := [message "1"; message "2"].

Definition toy_sender : noise.NoiseSocket := noise.mkNS noise.sample_fs [x01] [x02] 7 0 false false.

Definition toy_receiver : noise.NoiseSocket := noise.sample_peer.

Definition toy_sent := default ([], toy_sender) (sendNodes (C := toy_crypto) two_messages toy_sender).

Definition busy : connection := mkConnection requests.init [message "2"] [] (Busy (message "1") 0 false) [] false [message "1"; message "2"] [message "1"] [] false.

Lemma busy_reachable : reachable no_zlib busy.
Proof.
  assert (forall n s, for_handler s n -> encoder.Marshal n = encoder.Marshal n -> exists d r, handleFrame no_zlib false d s = Ok (enqueue false (wire.norm_node n) s, r)) as Hf.
  { intros n s Hn _. destruct (Marshal_ok n (proj1 Hn)) as (bs & E & _). do 2 eexists. by apply handleFrame_node. }
  exists requests.init, [Around; Around; Loop].
  assert (run no_zlib [Around; Around; Loop] (new_connection requests.init) (take (message "1") [message "2"] (push (message "2") (push (message "1") (new_connection requests.init))))) as H; [|exact H].
  change [Around; Around; Loop] with ((([] ++ [Around]) ++ [Around]) ++ [Loop]).
  econstructor; [econstructor; [econstructor; [constructor|]|]|]; [..|by apply step_take].
  - destruct (Hf (message "1") (new_connection requests.init)) as (d & r & E); [by split|done|]. eapply step_frame. exact E.
  - destruct (Hf (message "2") (push (message "1") (new_connection requests.init))) as (d & r & E); [by split|done|]. eapply step_frame. exact E.
Qed.

Lemma handled_once_witness : reachable no_zlib busy /\ received busy ≡ₚ started busy ++ queue busy ++ [] ++ [].
Proof. split; [apply busy_reachable|]. apply (handled_once no_zlib busy busy_reachable). Defined.

(** What the loop does when no handler returns. *)
Definition loop_step (s : connection) : connection :=
  match loop s, queue s with
  | Busy n i r, _ => tick n i r s
  | Idle, n :: rest => take n rest s
  | _, _ => s
  end.

Definition can_loop (s : connection) : bool :=
  match loop s, queue s with Busy _ _ _, _ | Idle, _ :: _ => true | _, _ => false end.

Lemma loop_steps s k : forallb (fun i => can_loop (Nat.iter i loop_step s)) (seq 0 k) = true ->
  run no_zlib (replicate k Loop) s (Nat.iter k loop_step s).
Proof.
  induction k as [|k IH]; [constructor|]. rewrite seq_S, forallb_app. cbn [forallb plus]. intros [H1 H2]%andb_true_iff. rewrite andb_true_r in H2.
  replace (S k) with (k + 1)%nat by lia. rewrite replicate_add. cbn [replicate]. rewrite Nat.add_1_r. econstructor; [by apply IH|].
  rewrite Nat.iter_succ. revert H2. generalize (Nat.iter k loop_step s). intros s' H2. unfold can_loop, loop_step in *.
  destruct (loop s') as [|n i r|] eqn:El; [|by apply step_tick|done]. destruct (queue s') as [|n rest] eqn:Eq; [done|]. by apply step_take.
Qed.

Lemma hung_handlers_pass_witness : exists s', run no_zlib (replicate 21 Loop) busy s' /\
  exists rest, started s' = [message "1"] ++ [message "2"] ++ rest.
Proof.
  exists (Nat.iter 21 loop_step busy). assert (run no_zlib (replicate 21 Loop) busy (Nat.iter 21 loop_step busy)) as H by (apply loop_steps; reflexivity).
  split; [exact H|]. refine (proj1 (hung_handlers_pass no_zlib busy busy_reachable) _ _ 0%nat H _ _ _); [discriminate|cbn; lia|cbn; lia].
Defined.

Lemma sent_stanzas_queued_witness :
  exists receiver' payloads s', socket.processAll (socket.idle [] socket.NewFrameSocket) (fst toy_sent) =
      Ok (socket.idle [] socket.NewFrameSocket, map (drop 3) (fst toy_sent)) /\
    noise.consumeFrames (C := toy_crypto) (map noise.SFrame (map (drop 3) (fst toy_sent))) toy_receiver = (receiver', payloads) /\
    handleFrames no_zlib (map (pair false) payloads) (new_connection requests.init) = Ok s' /\
    received s' = [] ++ map wire.norm_node two_messages /\ queue s' = [] ++ map wire.norm_node two_messages /\
    u32 (noise.writeCounter (snd toy_sent)) = u32 (noise.readCounter receiver').
Proof.
  apply (sent_stanzas_queued no_zlib (L := toy_crypto_laws) toy_sender (snd toy_sent) toy_receiver two_messages (fst toy_sent) socket.NewFrameSocket (fst toy_sent)
    (map (drop 3) (fst toy_sent)) (new_connection requests.init)).
  - reflexivity.
  - reflexivity.
  - reflexivity.
  - repeat constructor.
  - reflexivity.
  - vm_compute. lia.
  - vm_compute. reflexivity.
  - vm_compute. reflexivity.
  - change (fst toy_sent) with (map socket.encode (map (drop 3) (fst toy_sent))) at 1. apply socket.cut_whole.
Defined.

End pipeline.
