(* ===== verification/Armadillo.v ===== *)
(** * armadillomessage.go: messages of Messenger and Instagram

    The layers an armadillo message is wrapped in (proto/waMsgTransport,
    proto/waMsgApplication and their extra.go), their decoding, and what a
    decrypted one makes the client do. *)

From S2P Require Import Prelude GoStrings StateErr Jid Node Receive.

#[local] Open Scope string_scope.
#[local] Open Scope list_scope.
#[local] Open Scope Z_scope.

Module armadillo.

Import jid source.

(** ** The generated types, with the fields that the code reads or sets *)

(** waCommon.SubProtocol: an encoded message and the version of its type. *)
Record SubProtocol := mkSub { Payload : bytes; Version : Z }.

Definition GetVersion (s : option SubProtocol) : Z := match s with Some s => Version s | None => 0 end.
Definition GetPayload (s : option SubProtocol) : bytes := match s with Some s => Payload s | None => [] end.

Inductive FutureProofBehavior := PLACEHOLDER | NO_PLACEHOLDER | IGNORE.

Record DeviceSentMessage := mkDSM { DestinationJID : string; Phash : string }.
Record SenderKeyDistributionMessage := mkSkdm { GroupID : string; AxolotlSenderKeyDistributionMessage : bytes }.
Record Integral := mkIntegral { Padding : bytes; DSM : option DeviceSentMessage }.
(** The directive to back up, by the message's id, is only ever an upsert. *)
Record Ancillary := mkAncillary { Skdm : option SenderKeyDistributionMessage; BackupDirective : option string }.
Record Protocol := mkProtocol { integral : option Integral; ancillary : option Ancillary }.
Record TransportPayload := mkTransportPayload { ApplicationPayload : option SubProtocol; t_FutureProof : option FutureProofBehavior }.
Record MessageTransport := mkTransport { t_Payload : option TransportPayload; t_Protocol : option Protocol }.

(** [GetProtocol().GetAncillary().GetSkdm()]. *)
Definition GetSkdm (t : option MessageTransport) : option SenderKeyDistributionMessage :=
  t ← t; p ← t_Protocol t; a ← ancillary p; Skdm a.

Inductive SubProtocolKind :=
  | ConsumerMessage (s : option SubProtocol) | BusinessMessage (s : option SubProtocol) | PaymentMessage (s : option SubProtocol)
  | MultiDevice (s : option SubProtocol) | Voip (s : option SubProtocol) | Armadillo (s : option SubProtocol).
Record SubProtocolPayload := mkSubPayload { s_FutureProof : option FutureProofBehavior; SubProtocol_ : option SubProtocolKind }.
Inductive Content :=
  | CoreContent | Signal | ApplicationData | SubProtocolContent (p : option SubProtocolPayload).

Section armadillo.
(** The rest of a message's metadata, and the messages inside: consumer, armadillo,
    multi-device and Instagram's. *)
Context {X Consumer Arma Multi IGAdd IGSupplement IGDelete : Type}.

Record Metadata := mkMetadata { FrankingVersion : option Z; FrankingKey : option bytes; meta_rest : X }.
Record MessageApplication := mkApplication { a_Payload : option (option Content); a_Metadata : option Metadata }.
Inductive TransportPayloadIG := IG_Add (m : IGAdd) | IG_Supplement (m : IGSupplement) | IG_Delete (m : IGDelete) | IG_None.

(** The implementations of MessageApplicationSub. *)
Inductive MessageApplicationSub :=
  | ConsumerApplication (m : Consumer) | ArmadilloApplication (m : Arma) | MultiDeviceApplication (m : Multi)
  | Unsupported_BusinessApplication (s : option SubProtocol) | Unsupported_PaymentApplication (s : option SubProtocol)
  | Unsupported_Voip (s : option SubProtocol)
  | AddMessagePayload (m : IGAdd) | SupplementMessagePayload (m : IGSupplement) | DeleteMessagePayload (m : IGDelete).

(** [proto.Marshal] and [proto.Unmarshal] of each type. *)
Record codec := mkCodec {
  MarshalTransport : MessageTransport -> option bytes; UnmarshalTransport : bytes -> option MessageTransport;
  MarshalApplication : MessageApplication -> option bytes; UnmarshalApplication : bytes -> option MessageApplication;
  MarshalConsumer : Consumer -> option bytes; UnmarshalConsumer : bytes -> option Consumer;
  MarshalArmadillo : Arma -> option bytes; UnmarshalArmadillo : bytes -> option Arma;
  UnmarshalMultiDevice : bytes -> option Multi;
  UnmarshalIG : bytes -> option TransportPayloadIG
}.

Context (K : codec).

(** What is encoded decodes to itself. *)
Record codec_laws : Prop := mkLaws {
  transport_roundtrip t b : MarshalTransport K t = Some b -> UnmarshalTransport K b = Some t;
  application_roundtrip a b : MarshalApplication K a = Some b -> UnmarshalApplication K b = Some a;
  consumer_roundtrip m b : MarshalConsumer K m = Some b -> UnmarshalConsumer K b = Some m;
  armadillo_roundtrip m b : MarshalArmadillo K m = Some b -> UnmarshalArmadillo K b = Some m
}.

Inductive decode_error :=
  | BadTransport | ErrUnsupportedVersion (v : Z) | BadPayload | UnsupportedPayload | UnsupportedSubProtocol.

Abbreviation result A := (outcome decode_error A).

(** proto/armadilloutil: Unmarshal. *)
Definition Unmarshal {A} (unmarshal : bytes -> option A) (msg : option SubProtocol) (expectedVersion : Z) : result A :=
  if negb (GetVersion msg =? expectedVersion) then Err (ErrUnsupportedVersion (GetVersion msg))
  else match unmarshal (GetPayload msg) with Some a => Ok a | None => Err BadPayload end.

Definition FBMessageApplicationVersion : Z := 2.
Definition IGMessageApplicationVersion : Z := 3.
Definition ConsumerApplicationVersion : Z := 1.
Definition ArmadilloApplicationVersion : Z := 1.
Definition MultiDeviceApplicationVersion : Z := 1.

Definition DecodeFB (p : TransportPayload) : result MessageApplication :=
  Unmarshal (UnmarshalApplication K) (ApplicationPayload p) FBMessageApplicationVersion.
Definition DecodeIG (p : TransportPayload) : result TransportPayloadIG :=
  Unmarshal (UnmarshalIG K) (ApplicationPayload p) IGMessageApplicationVersion.

(** events.FBMessage, without the info and the retry count that the handler adds. *)
Record FBMessage := mkFB {
  Message : option MessageApplicationSub;
  Transport : option MessageTransport;
  FBApplication : option MessageApplication;
  IGTransport : option TransportPayloadIG
}.

Definition decode_subprotocol (s : SubProtocolKind) : result MessageApplicationSub :=
  match s with
  | ConsumerMessage s => ConsumerApplication <$> Unmarshal (UnmarshalConsumer K) s ConsumerApplicationVersion
  | BusinessMessage s => Ok (Unsupported_BusinessApplication s)
  | PaymentMessage s => Ok (Unsupported_PaymentApplication s)
  | MultiDevice s => MultiDeviceApplication <$> Unmarshal (UnmarshalMultiDevice K) s MultiDeviceApplicationVersion
  | Voip s => Ok (Unsupported_Voip s)
  | Armadillo s => ArmadilloApplication <$> Unmarshal (UnmarshalArmadillo K) s ArmadilloApplicationVersion
  end.

(** The event is a new one: it has no transport. *)
Definition decodeFBArmadillo (p : TransportPayload) : result FBMessage :=
  application ← DecodeFB p;
  match a_Payload application with
  | None => Ok (mkFB None None (Some application) None)
  | Some (Some (SubProtocolContent sub)) =>
      match p ← sub; SubProtocol_ p with
      | Some s => m ← decode_subprotocol s; Ok (mkFB (Some m) None (Some application) None)
      | None => Err UnsupportedSubProtocol
      end
  | Some _ => Err UnsupportedPayload
  end.

Definition decodeIGArmadillo (p : TransportPayload) : result FBMessage :=
  inner ← DecodeIG p;
  let m := match inner with
           | IG_Add m => Some (AddMessagePayload m)
           | IG_Supplement m => Some (SupplementMessagePayload m)
           | IG_Delete m => Some (DeleteMessagePayload m)
           | IG_None => None
           end in
  Ok (mkFB m None None (Some inner)).

Definition decodeArmadillo (data : bytes) : result FBMessage :=
  match UnmarshalTransport K data with
  | None => Err BadTransport
  | Some transport =>
      match t_Payload transport with
      | None => Ok (mkFB None (Some transport) None None)
      | Some p =>
          let v := GetVersion (ApplicationPayload p) in
          if v =? FBMessageApplicationVersion then decodeFBArmadillo p
          else if v =? IGMessageApplicationVersion then decodeIGArmadillo p
          else Err (ErrUnsupportedVersion v)
      end
  end.

Inductive effect :=
  | ProcessSenderKey (chat from : JID) (skdm : bytes)
  | DispatchFB (dec : FBMessage) (retryCount : Z).

(** [fails]: whether an event handler fails on the event. The results: whether one
    did, and whether decoding failed. *)
Definition handleDecryptedArmadillo (fails : FBMessage -> bool) (src : MessageSource) (decrypted : bytes) (retryCount : Z) :
    list effect * (bool * bool) :=
  match decodeArmadillo decrypted with
  | Ok dec =>
      let keys :=
        match GetSkdm (Transport dec) with
        | Some skdm => if IsGroup src then [ProcessSenderKey (Chat src) (Sender src) (AxolotlSenderKeyDistributionMessage skdm)] else []
        | None => []
        end in
      if bool_decide (is_Some (Message dec)) || bool_decide (is_Some (FBApplication dec))
      then (keys ++ [DispatchFB dec retryCount], (fails dec, false)) else (keys, (false, false))
  | _ => ([], (false, true))
  end.

(** ** What the handlers see *)

(** A decoded event that has a message, an application or Instagram's transport in
    it comes from a transport with a payload, and does not hold that transport. *)
Lemma decoded_payload data dec : decodeArmadillo data = Ok dec ->
  exists t, UnmarshalTransport K data = Some t /\
    match t_Payload t with
    | None => dec = mkFB None (Some t) None None
    | Some _ => Transport dec = None /\ (is_Some (FBApplication dec) \/ is_Some (IGTransport dec))
    end.
Proof.
  unfold decodeArmadillo. destruct (UnmarshalTransport K data) as [t|]; [|done]. intros H. exists t. split; [done|].
  destruct (t_Payload t) as [p|]; [|by injection H as <-]. destruct (_ =? _).
  - unfold decodeFBArmadillo in H. apply bind_inv in H as (app & _ & H). destruct (a_Payload app) as [[[| | |sub]|]|]; try done.
    + destruct (sub ≫= SubProtocol_) as [s|]; [|done]. apply bind_inv in H as (m & _ & H). injection H as <-. split; [done|left; by eexists].
    + injection H as <-. split; [done|left; by eexists].
  - destruct (_ =? _); [|done]. unfold decodeIGArmadillo in H. apply bind_inv in H as (inner & _ & H). injection H as <-.
    split; [done|right; by eexists].
Qed.

(** The event of an armadillo message never holds the transport that the
    message came in: whatever is dispatched has none. The sender key of a message
    in a group is processed exactly when its transport has no payload, so that one
    sent along with a message is dropped; with no payload nothing is dispatched. *)
Theorem transport_not_kept fails src data n l r : handleDecryptedArmadillo fails src data n = (l, r) ->
  (forall dec n', DispatchFB dec n' ∈ l -> Transport dec = None /\ n' = n /\ decodeArmadillo data = Ok dec) /\
  (forall chat from k, ProcessSenderKey chat from k ∈ l <->
     chat = Chat src /\ from = Sender src /\ IsGroup src = true /\
     exists t skdm, UnmarshalTransport K data = Some t /\ t_Payload t = None /\ GetSkdm (Some t) = Some skdm /\
       k = AxolotlSenderKeyDistributionMessage skdm).
Proof.
  unfold handleDecryptedArmadillo. intros H. destruct (decodeArmadillo data) as [dec|e| |] eqn:E.
  2-4: injection H as <- _; split; [by intros ? ? ?%elem_of_nil|]; intros chat from k; split; [by intros ?%elem_of_nil|]; intros (_ & _ & _ & t & skdm & Et & Ep & _);
    unfold decodeArmadillo in E; by rewrite Et, Ep in E.
  pose proof (decoded_payload data dec E) as (t & Et & Hp). destruct (t_Payload t) as [p|] eqn:Ep.
  - destruct Hp as [Hn _]. rewrite Hn in H. change (GetSkdm None) with (@None SenderKeyDistributionMessage) in H. cbn [app] in H.
    split.
    + intros dec' n' Hin. destruct (_ || _); injection H as <- _; [|by apply elem_of_nil in Hin]. apply list_elem_of_singleton in Hin. by injection Hin as -> ->.
    + intros chat from k. split; [destruct (_ || _); injection H as <- _; [by intros ?%list_elem_of_singleton|by intros ?%elem_of_nil]|]. intros (_ & _ & _ & t' & skdm & Et' & Ep' & _). congruence.
  - subst dec. cbn [Transport Message FBApplication] in H.
    rewrite !bool_decide_eq_false_2 in H by (by intros []). cbn [orb] in H. injection H as <- _. split.
    + intros dec' n' Hin. change (DispatchFB dec' n' ∈ match GetSkdm (Some t) with Some skdm => if IsGroup src then [ProcessSenderKey (Chat src) (Sender src) (AxolotlSenderKeyDistributionMessage skdm)] else [] | None => [] end) in Hin.
      destruct (GetSkdm (Some t)); [destruct (IsGroup src)|]; [by apply list_elem_of_singleton in Hin|by apply elem_of_nil in Hin..].
    + intros chat from k. change (t_Protocol t ≫= _) with (GetSkdm (Some t)). split.
      * destruct (GetSkdm (Some t)) as [skdm|] eqn:Es; [|by intros ?%elem_of_nil]. destruct (IsGroup src) eqn:Eg; [|by intros ?%elem_of_nil].
        intros Hin%list_elem_of_singleton. injection Hin as -> -> ->. repeat (split; [done|]). by exists t, skdm.
      * intros (-> & -> & Hg & t' & skdm & Et' & _ & Es & ->). rewrite Et in Et'. injection Et' as <-. rewrite Es, Hg. by apply list_elem_of_singleton.
Qed.

End armadillo.

Arguments MessageApplication : clear implicits.
Arguments codec : clear implicits.

End armadillo.
