(* ===== verification/SendFB.v ===== *)
(** * sendfb.go: sending messages to Messenger

    [fbkinds]: the kind of a consumer message. [fbsend]: its encryption for every
    device, the stanzas, and SendFBMessage; what the devices read of it. *)

From S2P Require Import Prelude GoStrings StateErr Jid Node Crypto Requests Sql PreKeys Sessions Messages Send Receive Armadillo.

#[local] Open Scope string_scope.
#[local] Open Scope list_scope.
#[local] Open Scope Z_scope.

Module fbkinds.

Import kinds.

(** waConsumerApplication.ConsumerApplication: its oneofs; what a wrapper holds is
    an option where the code looks at it. *)
Inductive ViewOnceContent := VO_ImageMessage | VO_VideoMessage.
Inductive ConsumerContent :=
  | MessageText | ImageMessage | ContactMessage | LocationMessage | ExtendedTextMessage | StatusTextMessage | DocumentMessage
  | AudioMessage (PTT : bool) | VideoMessage | ContactsArrayMessage | LiveLocationMessage | StickerMessage | GroupInviteMessage
  | ViewOnceMessage (c : option ViewOnceContent) | ReactionMessage | PollCreationMessage | PollUpdateMessage | EditMessage.
Inductive ApplicationContent := Revoke (FromMe : bool).
Inductive ConsumerPayload :=
  | Content (c : option ConsumerContent) | ApplicationData (c : option ApplicationContent) | Signal | SubProtocol.
Record ConsumerApplication {R : Type} := mkConsumer { payload : option ConsumerPayload; rest : R }.
Arguments ConsumerApplication : clear implicits.

Record messageAttrs := mkAttrs { Type_ : string; MediaType : string; Edit : string; DecryptFail : string; PollType : string }.

Definition DecryptFailHide : string := "hide".

Definition media_attrs (mediaType : string) : messageAttrs := mkAttrs "" mediaType "" "" "".

Definition content_attrs (c : option ConsumerContent) : messageAttrs :=
  match c with
  | Some MessageText | Some ExtendedTextMessage => mkAttrs "text" "" "" "" ""
  | Some ImageMessage => media_attrs "image"
  | Some StickerMessage => media_attrs "sticker"
  | Some (ViewOnceMessage (Some VO_ImageMessage)) => media_attrs "image"
  | Some (ViewOnceMessage (Some VO_VideoMessage)) => media_attrs "video"
  | Some DocumentMessage => media_attrs "document"
  | Some (AudioMessage ptt) => media_attrs (if ptt then "ptt" else "audio")
  | Some VideoMessage => media_attrs "video"
  | Some LocationMessage | Some LiveLocationMessage => media_attrs "location"
  | Some ContactMessage => media_attrs "vcard"
  | Some ContactsArrayMessage => media_attrs "contact_array"
  | Some PollCreationMessage => mkAttrs "poll" "" "" "" "creation"
  | Some PollUpdateMessage => mkAttrs "poll" "" "" DecryptFailHide "vote"
  | Some ReactionMessage => mkAttrs "reaction" "" "" DecryptFailHide ""
  | Some EditMessage => mkAttrs "" "" EditAttributeMessageEdit DecryptFailHide ""
  | _ => mkAttrs "" "" "" "" ""
  end.

Definition set_type (t : string) (a : messageAttrs) : messageAttrs := mkAttrs t (MediaType a) (Edit a) (DecryptFail a) (PollType a).

Definition getAttrsFromFBConsumerMessage {R} (msg : ConsumerApplication R) : messageAttrs :=
  let a :=
    match payload msg with
    | Some (Content c) =>
        let a := content_attrs c in
        if negb (String.eqb (MediaType a) "") && String.eqb (Type_ a) "" then set_type "media" a else a
    | Some (ApplicationData (Some (Revoke fromMe))) =>
        mkAttrs "" "" (if fromMe then EditAttributeSenderRevoke else EditAttributeAdminRevoke) DecryptFailHide ""
    | _ => mkAttrs "" "" "" "" ""
    end in
  if String.eqb (Type_ a) "" then set_type "text" a else a.

Definition getAttrsFromFBMessage {R Arma Multi A S D} (msg : armadillo.MessageApplicationSub (Consumer := ConsumerApplication R)
    (Arma := Arma) (Multi := Multi) (IGAdd := A) (IGSupplement := S) (IGDelete := D)) : messageAttrs :=
  match msg with
  | armadillo.ConsumerApplication m => getAttrsFromFBConsumerMessage m
  | armadillo.ArmadilloApplication _ => mkAttrs "media" "document" "" "" ""
  | _ => mkAttrs "text" "" "" "" ""
  end.

(** Every message has one of four types; exactly those of type "media" have a media
    type, exactly polls a poll type, and an edit is hidden when it does not decrypt. *)
Lemma fb_types {R Arma Multi A S D} (msg : armadillo.MessageApplicationSub (Consumer := ConsumerApplication R)
    (Arma := Arma) (Multi := Multi) (IGAdd := A) (IGSupplement := S) (IGDelete := D)) :
  let a := getAttrsFromFBMessage msg in
  Type_ a ∈ ["text"; "media"; "poll"; "reaction"] /\ (Type_ a = "media" <-> MediaType a <> "") /\
  (Type_ a = "poll" <-> PollType a <> "") /\ (Edit a <> "" -> DecryptFail a = DecryptFailHide).
Proof.
  destruct msg as [[[[c|c| |]|] r]| | | | | | | |].
  1: destruct c as [[| | | | | | |[]| | | | | |[[]|]| | | |]|].
  all: try destruct c as [[[]]|].
  all: cbn; (split; [rewrite !elem_of_cons; auto|]); intuition (first [reflexivity | congruence]).
Qed.

End fbkinds.

Module fbsend.

Import jid attrs requests kinds phash encrypting sending armadillo fbkinds.

Section fbsend.
Context {C : Crypto} {W X R Arma Multi A S D : Type}.

Abbreviation RealMessage := (armadillo.MessageApplicationSub (Consumer := fbkinds.ConsumerApplication R)
  (Arma := Arma) (Multi := Multi) (IGAdd := A) (IGSupplement := S) (IGDelete := D)).
Abbreviation Application := (armadillo.MessageApplication X).
Notation op A := (stm W signal_error A).
Notation sm A := (stm (client (W := W)) send_error A).

Record fb_services := mkFBServices {
  base : sending.services (W := W);
  formats : armadillo.codec X (fbkinds.ConsumerApplication R) Arma Multi A S D;
  no_metadata : X;                                     (* the rest of an empty Metadata *)
  create_skdm : JID -> stm W send_error bytes;         (* the serialized sender key of a group *)
  addRecentFB : JID -> string -> Application -> stm W send_error unit;
  new_uuid : W -> W * bytes
}.

Context (V : fb_services) (AutoTrustIdentity : bool) (ownID : JID).

Abbreviation K := (formats V).

Definition FBMessageVersion : Z := 3.

(** ** Encryption *)

Definition device_transport (padding : bytes) (payload : option TransportPayload) (skdm : option SenderKeyDistributionMessage)
    (dsm : option DeviceSentMessage) : MessageTransport :=
  mkTransport payload (Some (mkProtocol (Some (mkIntegral padding dsm)) (Some (mkAncillary skdm None)))).

Definition random_padding (s : W) : bytes := padding.padMessage (random_byte (signal (base V)) s) [].

Definition encryptMessageForDeviceV3 (payload : option TransportPayload) (skdm : option SenderKeyDistributionMessage)
    (dsm : option DeviceSentMessage) (to : JID) (bundle : option prekeys.Bundle) (extraAttrs : Attrs) : op Node :=
  let address := sessions.address_text to in
  (match bundle with
   | Some bundle => process_bundle (signal (base V)) AutoTrustIdentity address bundle
   | None =>
       contains ← ContainsSession (signal (base V)) address;
       if (contains : bool) then mret tt else throw ErrNoSession
   end);;
  s ← get_state;
  plaintext ← (match MarshalTransport K (device_transport (random_padding s) payload skdm dsm) with
               | Some p => mret p
               | None => throw ErrOther
               end);
  '(prekey, ciphertext) ← Encrypt (signal (base V)) address plaintext;
  mret (mkNode "enc" (copyAttrs extraAttrs [("v", AInt FBMessageVersion); ("type", AString (if (prekey : bool) then "pkmsg" else "msg"))])
          (ABytes ciphertext)).

Definition encryptMessageForDeviceAndWrapV3 (payload : option TransportPayload) (skdm : option SenderKeyDistributionMessage)
    (dsm : option DeviceSentMessage) (to : JID) (bundle : option prekeys.Bundle) (encAttrs : Attrs) : op Node :=
  node ← encryptMessageForDeviceV3 payload skdm dsm to bundle encAttrs;
  mret (mkNode "to" [("jid", AJID to)] (ANodes [node])).

Definition dsm_for (dsm : DeviceSentMessage) (j : JID) : option DeviceSentMessage :=
  if String.eqb (User j) (User ownID) then Some dsm else None.

(** The second loop, over what encrypts for a device. *)
Fixpoint encrypt_all (encrypt : JID -> op Node) (devices : list JID) : op (list Node) :=
  match devices with
  | [] => mret []
  | j :: devices =>
      if bool_decide (j = ownID) then encrypt_all encrypt devices
      else fun s =>
        match encrypt j s with
        | (s, Ok node) => (nodes ← encrypt_all encrypt devices; mret (node :: nodes)) s
        | (s, Err e) => if ctx_done (signal (base V)) s then (s, Err e) else encrypt_all encrypt devices s
        | (s, Panic) => (s, Panic)
        | (s, NoFuel) => (s, NoFuel)
        end
  end.

Definition encryptMessageForDevicesV3 (allDevices : list JID) (payload : option TransportPayload)
    (skdm : option SenderKeyDistributionMessage) (dsm : DeviceSentMessage) (encAttrs : Attrs) : op (list Node) :=
  let others := filter (fun j => j <> ownID) allDevices in
  let sessionAddressToJID : gmap string JID := foldl (fun m j => <[sessions.address_text j := j]> m) ∅ others in
  existingSessions ← WithCachedSessions (signal (base V)) (map sessions.address_text others);
  let retryDevices := omap (fun x => if snd x : bool then None else Some (default EmptyJID (sessionAddressToJID !! fst x)))
                        (map_to_list existingSessions) in
  bundles ← (fun s => let '(s, b) := fetchPreKeysNoError (signal (base V)) retryDevices s in (s, Ok b));
  nodes ← encrypt_all (fun j => encryptMessageForDeviceAndWrapV3 payload skdm (dsm_for dsm j) j (bundles !! j) encAttrs) allDevices;
  PutCachedSessions (signal (base V));;
  mret nodes.

(** ** Stanzas *)

Definition message_attrs (to : JID) (id : string) (a : messageAttrs) : Attrs :=
  [("id", AString id); ("type", AString (Type_ a)); ("to", AJID to)]
  ++ (if String.eqb (Edit a) "" then [] else [("edit", AString (Edit a))]).

Definition enc_attrs (direct : bool) (a : messageAttrs) : Attrs :=
  (if direct && negb (String.eqb (MediaType a) "") then [("mediatype", AString (MediaType a))] else [])
  ++ (if String.eqb (DecryptFail a) "" then [] else [("decrypt-fail", AString (DecryptFail a))]).

Definition meta_nodes (a : messageAttrs) : list Node :=
  let metaAttrs := (if String.eqb (PollType a) "" then [] else [("polltype", AString (PollType a))])
                   ++ (if String.eqb (DecryptFail a) "" then [] else [("decrypt-fail", AString (DecryptFail a))]) in
  match metaAttrs with [] => [] | _ => [mkNode "meta" metaAttrs ANil] end.

Definition franking_node (frankingTag : bytes) : Node :=
  mkNode "franking" [] (ANodes [mkNode "franking_tag" [] (ABytes frankingTag)]).
Definition trace_node (uuid : bytes) : Node := mkNode "trace" [] (ANodes [mkNode "request_id" [] (ABytes uuid)]).

(** The attributes and children of the stanza, and the devices. *)
Definition prepareMessageNodeV3 (to : JID) (id : string) (payload : option TransportPayload)
    (skdm : option SenderKeyDistributionMessage) (a : messageAttrs) (frankingTag : bytes) (participants : list JID) :
    sm (Attrs * list Node * list JID) :=
  allDevices ← ask (GetUserDevices (base V) participants);
  let dsm := mkDSM (jid.String_ to) "" in
  participantNodes ← ask (wrap ErrEncrypt (encryptMessageForDevicesV3 allDevices payload skdm dsm
                            (enc_attrs (bool_decide (is_Some payload)) a)));
  traceRequestID ← run_ (new_uuid V);
  mret (message_attrs to id a,
        [mkNode "participants" [] (ANodes participantNodes)] ++ meta_nodes a ++ [franking_node frankingTag; trace_node traceRequestID],
        allDevices).

Definition application_payload (messageApp : bytes) : TransportPayload :=
  mkTransportPayload (Some (mkSub messageApp FBMessageApplicationVersion)) (Some PLACEHOLDER).

Definition group_transport (padding messageApp : bytes) (id : string) : MessageTransport :=
  mkTransport (Some (application_payload messageApp))
    (Some (mkProtocol (Some (mkIntegral padding None)) (Some (mkAncillary None (Some id))))).

(** The group's data is read only for groups; without it the access to its members
    panics, after the group's text has been encrypted. *)
Definition sendGroupV3 (to : JID) (id : string) (messageApp : bytes) (a : messageAttrs) (frankingTag : bytes) : sm (string * bytes) :=
  cached ← (if String.eqb (Server to) GroupServer then ask (getCachedGroupData (base V) to) else mret None);
  skdmBytes ← ask (create_skdm V to);
  let skdm := mkSkdm (jid.String_ to) skdmBytes in
  s ← get_state;
  plaintext ← or_error ErrMarshal (MarshalTransport K (group_transport (random_padding (world s)) messageApp id));
  ciphertext ← ask (group_encrypt (base V) to plaintext);
  '(_, _, members) ← or_panic cached;
  '(attrs, content, allDevices) ← prepareMessageNodeV3 to id None (Some skdm) a frankingTag members;
  let hash := participantListHashV2 allDevices in
  let skMsg := mkNode "enc" ([("v", AString "3"); ("type", AString "skmsg")]
    ++ (if String.eqb (MediaType a) "" then [] else [("mediatype", AString (MediaType a))])) (ABytes ciphertext) in
  data ← ask (sendNode (base V) (mkNode "message" (attrs ++ [("phash", AString hash)]) (ANodes (content ++ [skMsg]))));
  mret (hash, data).

Definition sendDMV3 (to : JID) (id : string) (messageApp : bytes) (a : messageAttrs) (frankingTag : bytes) : sm (string * bytes) :=
  '(attrs, content, allDevices) ← prepareMessageNodeV3 to id (Some (application_payload messageApp)) None a frankingTag [to; ToNonAD ownID];
  data ← ask (sendNode (base V) (mkNode "message" attrs (ANodes content)));
  mret (participantListHashV2 allDevices, data).

(** ** SendFBMessage *)

Definition FBConsumerMessageVersion : Z := 1.
Definition FBArmadilloMessageVersion : Z := 1.

Definition subprotocol_of (message : RealMessage) : sm SubProtocolKind :=
  match message with
  | armadillo.ConsumerApplication m =>
      b ← or_error ErrMarshal (MarshalConsumer K m); mret (ConsumerMessage (Some (mkSub b FBConsumerMessageVersion)))
  | armadillo.ArmadilloApplication m =>
      b ← or_error ErrMarshal (MarshalArmadillo K m); mret (Armadillo (Some (mkSub b FBArmadilloMessageVersion)))
  | _ => throw ErrUnsupportedMessage
  end.

(** The metadata is the caller's, with the franking version and key set. *)
Definition application_of (sub : SubProtocolKind) (metadata : option (armadillo.Metadata (X := X))) (key : bytes) : Application :=
  mkApplication (Some (Some (SubProtocolContent (Some (mkSubPayload (Some PLACEHOLDER) (Some sub))))))
    (Some (mkMetadata (Some 0) (Some key) (match metadata with Some m => meta_rest m | None => no_metadata V end))).

Definition dispatch_fb (to : JID) (peer : bool) (id : string) (messageApp : bytes) (a : messageAttrs) (frankingTag : bytes) : sm (string * bytes) :=
  if String.eqb (Server to) GroupServer then sendGroupV3 to id messageApp a frankingTag
  else if String.eqb (Server to) DefaultUserServer || String.eqb (Server to) MessengerServer then
    if peer then throw ErrPeerUnsupported else sendDMV3 to id messageApp a frankingTag
  else throw ErrUnknownServer.

(** A hash that differs drops the group from its cache; the sender is not set. *)
Definition finish_fb (to : JID) (id : string) (hash : string) (n : Node) : sm SendResponse :=
  let '(serverID, t, errorCode, expected) := answer_fields n in
  (if negb (String.eqb expected "") && negb (String.eqb hash expected) then change (forget_group (base V) to) else mret tt);;
  if errorCode =? 0 then mret (mkResponse t id serverID EmptyJID) else throw (ErrServerReturnedError errorCode).

Definition request_timeout (req : SendRequestExtra) : Z := if Timeout req =? 0 then defaultRequestTimeout else Timeout req.

Definition send_fb_request (to : JID) (message : RealMessage) (metadata : option (armadillo.Metadata (X := X))) (req : SendRequestExtra) :
    sm SendResponse :=
  sub ← subprotocol_of message;
  key ← run_ (random_secret (base V));
  let application := application_of sub metadata key in
  messageApp ← or_error ErrMarshal (MarshalApplication K application);
  let frankingTag := hmac_sha256 key messageApp in
  if (0 <? Device to) && negb (Peer req) then throw ErrRecipientADJID
  else if IsEmpty ownID then throw ErrNotLoggedIn
  else
    id ← (if String.eqb (x_ID req) "" then run_ (GenerateMessageID (base V)) else mret (x_ID req));
    (if Peer req then mret tt else ask (addRecentFB V to id application));;
    exchange (base V) id (request_timeout req) (dispatch_fb to (Peer req) id messageApp (getAttrsFromFBMessage message) frankingTag) (finish_fb to id).

Definition SendFBMessage (to : JID) (message : RealMessage) (metadata : option (armadillo.Metadata (X := X))) (extra : list SendRequestExtra) :
    sm SendResponse :=
  match extra with
  | [] => send_fb_request to message metadata no_extra
  | [req] => send_fb_request to message metadata req
  | _ => throw ErrTooManyExtras
  end.

(** ** What the devices read *)

Context (opens : string -> bytes -> option bytes).

(** The text of a device's node. *)
Definition opened (j : JID) (node : Node) (text : bytes) : Prop :=
  exists attrs ct, node = mkNode "to" [("jid", AJID j)] (ANodes [mkNode "enc" attrs (ABytes ct)]) /\
    opens (sessions.address_text j) ct = Some text.

(** The devices that get a node: all but the sender's own whose encryption did not
    fail, in their order; [P]: what each one's text is. *)
Inductive fb_deliveries (attempt : JID -> op Node) (P : JID -> bytes -> Prop) : W -> list JID -> list Node -> W -> Prop :=
  | fb_nil s : fb_deliveries attempt P s [] [] s
  | fb_own js ns s s' : fb_deliveries attempt P s js ns s' -> fb_deliveries attempt P s (ownID :: js) ns s'
  | fb_sent j js n text ns s s1 s' : j <> ownID -> attempt j s = (s1, Ok n) -> opened j n text -> P j text ->
      fb_deliveries attempt P s1 js ns s' -> fb_deliveries attempt P s (j :: js) (n :: ns) s'
  | fb_failed j js e ns s s1 s' : j <> ownID -> attempt j s = (s1, Err e) -> ctx_done (signal (base V)) s1 = false ->
      fb_deliveries attempt P s1 js ns s' -> fb_deliveries attempt P s (j :: js) ns s'.

Lemma deliveries_impl attempt (P Q : JID -> bytes -> Prop) s js ns s' : (forall j text, P j text -> Q j text) ->
  fb_deliveries attempt P s js ns s' -> fb_deliveries attempt Q s js ns s'.
Proof. intros H. induction 1; [constructor|by constructor|eapply fb_sent; eauto|eapply fb_failed; eauto]. Qed.

Hypothesis Encrypt_opens : forall address p s s' prekey ct,
  Encrypt (signal (base V)) address p s = (s', Ok (prekey, ct)) -> opens address ct = Some p.
Hypothesis Laws : codec_laws K.

(** The text of a device: a transport with the payload, the sender key, and for the
    account's other devices where the message was sent. *)
Definition transport_text (payload : option TransportPayload) (skdm : option SenderKeyDistributionMessage) (dsm : DeviceSentMessage)
    (j : JID) (text : bytes) : Prop :=
  exists padding, UnmarshalTransport K text = Some (device_transport padding payload skdm (dsm_for dsm j)).

Lemma encrypted_for payload skdm dsm j bundle a s s' node :
  encryptMessageForDeviceAndWrapV3 payload skdm (dsm_for dsm j) j bundle a s = (s', Ok node) ->
  exists text, opened j node text /\ transport_text payload skdm dsm j text.
Proof.
  unfold encryptMessageForDeviceAndWrapV3, encryptMessageForDeviceV3. intros H.
  apply stm_bind_inv in H as (s1 & n & E & H). injection H as _ <-.
  apply stm_bind_inv in E as (s2 & [] & _ & E). apply stm_bind_inv in E as (s3 & s4 & E4 & E). injection E4 as <- <-.
  apply stm_bind_inv in E as (s5 & p & Ep & E). destruct (MarshalTransport K _) as [p'|] eqn:Em; [|done]. injection Ep as <- <-.
  apply stm_bind_inv in E as (s6 & [prekey ct] & Ec & E). injection E as _ <-.
  exists p'. split; [eexists _, ct; split; [reflexivity|by eapply Encrypt_opens]|]. eexists. by eapply transport_roundtrip.
Qed.

Lemma encrypt_all_delivers attempt P devices : (forall j s s' n, attempt j s = (s', Ok n) -> exists text, opened j n text /\ P j text) ->
  forall s s' nodes, encrypt_all attempt devices s = (s', Ok nodes) -> fb_deliveries attempt P s devices nodes s'.
Proof.
  intros Ha. induction devices as [|j devices IH]; intros s s' nodes; cbn [encrypt_all].
  - intros [= -> <-]. constructor.
  - case_bool_decide as Ej; [intros H%IH; subst j; by constructor|].
    destruct (attempt j s) as [s1 [n|e| |]] eqn:E; [| |done|done].
    + intros H. apply stm_bind_inv in H as (s2 & ns & Hn & H). injection H as <- <-. destruct (Ha _ _ _ _ E) as (text & Ho & Hp).
      eapply fb_sent; eauto.
    + destruct (ctx_done _ s1) eqn:Ec; [done|]. intros H%IH. by eapply fb_failed.
Qed.

(** What a stanza made for [participants] holds. *)
Definition prepared (participants : list JID) (a : messageAttrs) (frankingTag : bytes) (P : JID -> bytes -> Prop)
    (w : W) (content : list Node) (devices : list JID) : Prop :=
  exists w1 w2 w3 attempt nodes uuid,
    GetUserDevices (base V) participants w = (w1, Ok devices) /\ fb_deliveries attempt P w2 devices nodes w3 /\
    content = [mkNode "participants" [] (ANodes nodes)] ++ meta_nodes a ++ [franking_node frankingTag; trace_node uuid].

Lemma ask_inv {B} (m : stm W send_error B) s s' b : ask m s = (s', Ok b) -> m (world s) = (world s', Ok b).
Proof. unfold ask. destruct (m (world s)) as [w o]. intros [= <- ->]. done. Qed.

Lemma prepareMessageNodeV3_prepared to id payload skdm a tag participants s s' attrs content devices :
  prepareMessageNodeV3 to id payload skdm a tag participants s = (s', Ok (attrs, content, devices)) ->
  attrs = message_attrs to id a /\
  prepared participants a tag (transport_text payload skdm (mkDSM (jid.String_ to) "")) (world s) content devices.
Proof.
  unfold prepareMessageNodeV3. intros H. apply stm_bind_inv in H as (s1 & ds & E1%ask_inv & H).
  apply stm_bind_inv in H as (s2 & nodes & E2%ask_inv & H). apply wrap_inv in E2.
  apply stm_bind_inv in H as (s3 & uuid & _ & H). injection H as _ <- <- <-. split; [done|].
  unfold encryptMessageForDevicesV3 in E2. apply stm_bind_inv in E2 as (w1 & ex & _ & E2). apply stm_bind_inv in E2 as (w2 & bundles & _ & E2).
  apply stm_bind_inv in E2 as (w3 & ns & E & E2). apply stm_bind_inv in E2 as (w4 & [] & _ & E2). injection E2 as _ ->.
  eapply encrypt_all_delivers in E; [exists (world s1), w2, w3; eexists _, nodes, uuid; split; [done|]; split; [exact E|done]|].
  intros j w w' n. apply encrypted_for.
Qed.

(** An application decodes to the message it was made for. *)
Lemma application_decodes (message : RealMessage) s s' sub metadata key messageApp : subprotocol_of message s = (s', Ok sub) ->
  MarshalApplication K (application_of sub metadata key) = Some messageApp ->
  decodeFBArmadillo K (application_payload messageApp) = Ok (mkFB (Some message) None (Some (application_of sub metadata key)) None).
Proof.
  intros Hs Hm. unfold decodeFBArmadillo, DecodeFB, Unmarshal, application_payload. cbn.
  rewrite (application_roundtrip K Laws _ _ Hm). cbn [bind_Ok mbind outcome_bind application_of a_Payload option_bind SubProtocol_].
  destruct message as [m|m| | | | | | |]; try done; cbn [subprotocol_of] in Hs.
  - apply stm_bind_inv in Hs as (s1 & b & Hb & Hs). injection Hs as _ <-. destruct (MarshalConsumer K m) as [b'|] eqn:E; [|done].
    injection Hb as _ <-. cbn [decode_subprotocol]. unfold Unmarshal. cbn. by rewrite (consumer_roundtrip K Laws _ _ E).
  - apply stm_bind_inv in Hs as (s1 & b & Hb & Hs). injection Hs as _ <-. destruct (MarshalArmadillo K m) as [b'|] eqn:E; [|done].
    injection Hb as _ <-. cbn [decode_subprotocol]. unfold Unmarshal. cbn. by rewrite (armadillo_roundtrip K Laws _ _ E).
Qed.

(** What a device makes of a text: the message, in the application that was
    marshalled, whose franking key checks the tag; the account's own devices are told
    where it went. *)
Definition carries (message : RealMessage) (frankingTag : bytes) (dsm : option DeviceSentMessage) (text : bytes) : Prop :=
  exists transport messageApp application key,
    UnmarshalTransport K text = Some transport /\ t_Payload transport = Some (application_payload messageApp) /\
    decodeArmadillo K text = Ok (mkFB (Some message) None (Some application) None) /\
    FrankingKey <$> a_Metadata application = Some (Some key) /\ hmac_sha256 key messageApp = frankingTag /\
    (p ← t_Protocol transport; i ← integral p; DSM i) = dsm.

(** The text of a device's node in a group message: the group's sender key, to be
    processed. *)
Definition gives_key (to : JID) (skdm : bytes) (text : bytes) : Prop :=
  exists transport, decodeArmadillo K text = Ok (mkFB None (Some transport) None None) /\
    GetSkdm (Some transport) = Some (mkSkdm (jid.String_ to) skdm).

Section one_message.
Context (to : JID) (message : RealMessage) (metadata : option (armadillo.Metadata (X := X))).

Lemma text_carries s s' sub key messageApp transport text : subprotocol_of message s = (s', Ok sub) ->
  MarshalApplication K (application_of sub metadata key) = Some messageApp ->
  UnmarshalTransport K text = Some transport -> t_Payload transport = Some (application_payload messageApp) ->
  carries message (hmac_sha256 key messageApp) (p ← t_Protocol transport; i ← integral p; DSM i) text.
Proof.
  intros Hs Hm Ht Hp. exists transport, messageApp, (application_of sub metadata key), key. repeat (split; [done|]).
  split; [|done]. unfold decodeArmadillo. rewrite Ht, Hp. change (GetVersion _) with FBMessageApplicationVersion.
  rewrite Z.eqb_refl. by eapply application_decodes.
Qed.

Lemma key_given skdm dsm j text : transport_text None (Some (mkSkdm (jid.String_ to) skdm)) dsm j text -> gives_key to skdm text.
Proof. intros [padding Ht]. eexists. unfold decodeArmadillo. by rewrite Ht. Qed.

Abbreviation a := (getAttrsFromFBMessage message).

(** Only the account's other devices are told where a message went. *)
Definition destination_for (j : JID) : option DeviceSentMessage := if bool_decide (User j = User ownID) then Some (mkDSM (jid.String_ to) "") else None.

Lemma dsm_for_destination j : dsm_for (mkDSM (jid.String_ to) "") j = destination_for j.
Proof. unfold dsm_for, destination_for. by destruct (String.eqb_spec (User j) (User ownID)), (decide (User j = User ownID)); try done; rewrite ?bool_decide_true, ?bool_decide_false by done. Qed.

(** The stanza of a direct message and of a group message, as they were sent. *)
Definition sent_direct (id hash : string) (data : bytes) : Prop :=
  exists tag w w1 w2 content devices,
    prepared [to; ToNonAD ownID] a tag (fun j => carries message tag (destination_for j)) w content devices /\
    sendNode (base V) (mkNode "message" (message_attrs to id a) (ANodes content)) w1 = (w2, Ok data) /\
    hash = participantListHashV2 devices.

Definition sent_group (id hash : string) (data : bytes) : Prop :=
  exists tag skdm w w1 w2 w3 w4 w5 w6 content devices mode announcement members plaintext ciphertext attrs,
    getCachedGroupData (base V) to w = (w1, Ok (Some (mode, announcement, members))) /\
    group_encrypt (base V) to plaintext w2 = (w3, Ok ciphertext) /\ carries message tag None plaintext /\
    prepared members a tag (fun _ => gives_key to skdm) w4 content devices /\
    sendNode (base V) (mkNode "message" (message_attrs to id a ++ [("phash", AString hash)])
      (ANodes (content ++ [mkNode "enc" attrs (ABytes ciphertext)]))) w5 = (w6, Ok data) /\
    hash = participantListHashV2 devices.

Definition sent_stanza (id hash : string) (data : bytes) : Prop :=
  if String.eqb (Server to) GroupServer then sent_group id hash data else sent_direct id hash data.

Lemma prepared_impl participants tag P Q w content devices : (forall j text, P j text -> Q j text) ->
  prepared participants a tag P w content devices -> prepared participants a tag Q w content devices.
Proof.
  intros H (w1 & w2 & w3 & attempt & nodes & uuid & Hd & Hf & Hc). exists w1, w2, w3, attempt, nodes, uuid. split; [done|].
  split; [|done]. by eapply deliveries_impl.
Qed.

Lemma dispatch_fb_sends s0 s0' sub key messageApp peer id s s' hash data : subprotocol_of message s0 = (s0', Ok sub) ->
  MarshalApplication K (application_of sub metadata key) = Some messageApp ->
  dispatch_fb to peer id messageApp a (hmac_sha256 key messageApp) s = (s', Ok (hash, data)) -> sent_stanza id hash data.
Proof.
  intros Hs Hm. unfold dispatch_fb, sent_stanza. set (tag := hmac_sha256 key messageApp).
  destruct (String.eqb (Server to) GroupServer) eqn:Eg.
  - unfold sendGroupV3. rewrite Eg. intros H. apply stm_bind_inv in H as (s1 & cached & E1%ask_inv & H).
    apply stm_bind_inv in H as (s2 & skdm & _ & H). apply stm_bind_inv in H as (s3 & s3' & E3 & H). injection E3 as <- <-.
    apply stm_bind_inv in H as (s4 & plaintext & E4 & H). destruct (MarshalTransport K _) as [p|] eqn:Ep; [|done]. injection E4 as <- <-.
    apply stm_bind_inv in H as (s5 & ct & E5%ask_inv & H). apply stm_bind_inv in H as (s6 & [[mode ann] members] & E6 & H).
    destruct cached as [[[mode' ann'] members']|]; [|done]. injection E6 as <- -> -> ->.
    apply stm_bind_inv in H as (s7 & [[attrs content] devices] & E7 & H). apply stm_bind_inv in H as (s8 & d & E8%ask_inv & H).
    injection H as _ <- <-. apply prepareMessageNodeV3_prepared in E7 as [-> E7].
    exists tag, skdm, (world s), (world s1), (world s2), (world s5), (world s5), (world s7), (world s8), content, devices, mode, ann, members, p, ct.
    eexists. split; [done|]. split; [done|]. split; [|split; [eapply prepared_impl; [|exact E7]; intros j text; apply key_given|by split]].
    apply (transport_roundtrip K Laws) in Ep. by eapply (text_carries _ _ _ _ _ _ _ Hs Hm Ep).
  - destruct (_ || _); [|done]. destruct peer; [done|]. unfold sendDMV3. intros H.
    apply stm_bind_inv in H as (s1 & [[attrs content] devices] & E1 & H). apply stm_bind_inv in H as (s2 & d & E2%ask_inv & H).
    injection H as _ <- <-. apply prepareMessageNodeV3_prepared in E1 as [-> E1].
    exists tag, (world s), (world s1), (world s2), content, devices. split; [|by split]. eapply prepared_impl; [|exact E1].
    intros j text [padding Ht]. rewrite <- dsm_for_destination. by apply (text_carries _ _ _ _ _ _ _ Hs Hm Ht).
Qed.

Lemma keeps_prepare_fb id payload skdm at_ tag participants : keeps (prepareMessageNodeV3 to id payload skdm at_ tag participants).
Proof.
  unfold prepareMessageNodeV3. apply sm_keeps_bind; [apply keeps_ask|]. intros ds. apply sm_keeps_bind; [apply keeps_ask|]. intros ns.
  apply sm_keeps_bind; [apply keeps_run|]. intros u. apply sm_keeps_ret.
Qed.

Hint Resolve sm_keeps_ret sm_keeps_throw sm_keeps_bind keeps_get keeps_ask keeps_run keeps_change keeps_ask_or sm_keeps_panic keeps_error keeps_prepare_fb : keeps.

Ltac keeps_tac :=
  repeat match goal with
  | |- keeps (_ ≫= _) => apply sm_keeps_bind; [|intros ?]
  | |- keeps (match ?x with _ => _ end) => destruct x
  | |- keeps _ => progress eauto with keeps
  end.

Lemma keeps_dispatch_fb peer id messageApp at_ tag : keeps (dispatch_fb to peer id messageApp at_ tag).
Proof. unfold dispatch_fb, sendGroupV3, sendDMV3. keeps_tac. Qed.

Lemma keeps_finish_fb id hash n : keeps (finish_fb to id hash n).
Proof. unfold finish_fb. keeps_tac. Qed.

Lemma keeps_subprotocol : keeps (subprotocol_of message).
Proof. unfold subprotocol_of. keeps_tac. Qed.

(** What SendFBMessage promises of its result. *)
Definition fb_sent_and_answered (req : SendRequestExtra) (r : SendResponse) : Prop :=
  id_for (base V) req (r_ID r) /\ exists hash data n, sent_stanza (r_ID r) hash data /\
    received (base V) (request_timeout req) data n /\ isDisconnectNode n = false /\
    attr_int "error" n = 0 /\ ServerID r = attr_int "server_id" n /\ Timestamp r = fst (UnixTime "t" (AttrGetter n)).

Lemma finish_fb_answer id hash n s s' r : finish_fb to id hash n s = (s', Ok r) ->
  attr_int "error" n = 0 /\ r_ID r = id /\ ServerID r = attr_int "server_id" n /\ Timestamp r = fst (UnixTime "t" (AttrGetter n)).
Proof.
  unfold finish_fb. pose proof (answer_fields_spec n) as Hf. destruct (answer_fields n) as [[[sid t] code] expected]. destruct Hf as (-> & -> & ->).
  intros H. apply stm_bind_inv in H as (s1 & [] & _ & H). destruct (Z.eqb_spec (attr_int "error" n) 0); [|done]. by injection H as _ <-.
Qed.

Lemma send_fb_promise req s s' o : send_fb_request to message metadata req s = (s', o) -> guarded (fb_sent_and_answered req) s s' o.
Proof.
  unfold send_fb_request. intros H. eapply guarded_bind in H; [exact H|apply keeps_subprotocol|]. clear H. intros s1 sub Hsub H.
  eapply guarded_bind in H; [exact H|apply keeps_run|]. clear H. intros s2 key _ H.
  eapply guarded_bind in H; [exact H|apply keeps_error|]. clear H. intros s3 messageApp Hm H.
  destruct (MarshalApplication K _) as [b|] eqn:Em; [|done]. injection Hm as _ ->.
  destruct (_ && _); [by eapply guarded_throw|]. destruct (IsEmpty ownID); [by eapply guarded_throw|].
  eapply guarded_bind in H; [exact H|keeps_tac|]. clear H. intros s4 id Hid H. apply choose_id in Hid.
  eapply guarded_bind in H; [exact H|keeps_tac|]. clear H. intros s5 [] _ H.
  apply exchange_answered in H as [Hr Hw]; [|apply keeps_dispatch_fb|intros; apply keeps_finish_fb]. split; [|done].
  intros r (s6 & s7 & s8 & hash & data & n & Hd & Hrec & Hn & Hf)%Hr. apply finish_fb_answer in Hf as (He & <- & Hsid & Ht).
  split; [done|]. exists hash, data, n. split; [by eapply dispatch_fb_sends|done].
Qed.

(** (C19) SendFBMessage gives back a result only after a stanza with the result's id
    was sent and answered without an error. Every device that got a node of it, in
    the order of the list and never the sender's own, decodes that message from it,
    with a franking key that checks the stanza's tag over what it decoded, and the
    account's other devices read where it went; of a message to a group they get the
    sender key, and the text for the group holds the message. No request is left
    waiting, unless it panicked or its context ended while a frame was retried. *)
Theorem SendFBMessage_understood extra s s' o : SendFBMessage to message metadata extra s = (s', o) ->
  (forall r, o = Ok r -> fb_sent_and_answered (request_of extra) r) /\
  (o = Panic \/ o = NoFuel \/ o = Err (ErrRetry requests.ErrContext) \/ waiters s' ⊆ waiters s).
Proof.
  change (SendFBMessage to message metadata extra s = (s', o) -> guarded (fb_sent_and_answered (request_of extra)) s s' o).
  destruct extra as [|req [|]]; [apply send_fb_promise..|by apply guarded_throw].
Qed.

End one_message.

End fbsend.

End fbsend.

Module fb_samples.

Import jid attrs requests sessions sessioncache kinds encrypting sending armadillo fbkinds fbsend send_samples.

#[local] Existing Instance some_crypto.

(** A codec for the messages of a list, by their place in it. *)
Section table.
Context {A : Type} `{EqDecision A} (l : list A).

Definition to_place (a : A) : option bytes := '(i, _) ← list_find (fun x => x = a) l; b ← Byte.of_nat i; Some [b].
Definition at_place (b : bytes) : option A := match b with [b] => l !! Byte.to_nat b | _ => None end.

Lemma place_roundtrip a b : to_place a = Some b -> at_place b = Some a.
Proof.
  unfold to_place. destruct (list_find _ l) as [[i x]|] eqn:E; [|done]. cbn. destruct (Byte.of_nat i) as [y|] eqn:Ei; [|done].
  intros [= <-]. cbn. apply list_find_Some in E as (E & -> & _). by rewrite (Byte.to_of_nat i Ei).
Qed.

End table.

#[export] Instance SubProtocol_eq_dec : EqDecision armadillo.SubProtocol. Proof. solve_decision. Defined.
#[export] Instance FutureProof_eq_dec : EqDecision FutureProofBehavior. Proof. solve_decision. Defined.
#[export] Instance DSM_eq_dec : EqDecision DeviceSentMessage. Proof. solve_decision. Defined.
#[export] Instance Skdm_eq_dec : EqDecision SenderKeyDistributionMessage. Proof. solve_decision. Defined.
#[export] Instance Integral_eq_dec : EqDecision Integral. Proof. solve_decision. Defined.
#[export] Instance Ancillary_eq_dec : EqDecision Ancillary. Proof. solve_decision. Defined.
#[export] Instance Protocol_eq_dec : EqDecision Protocol. Proof. solve_decision. Defined.
#[export] Instance TransportPayload_eq_dec : EqDecision TransportPayload. Proof. solve_decision. Defined.
#[export] Instance Transport_eq_dec : EqDecision MessageTransport. Proof. solve_decision. Defined.
#[export] Instance SubKind_eq_dec : EqDecision SubProtocolKind. Proof. solve_decision. Defined.
#[export] Instance SubPayload_eq_dec : EqDecision SubProtocolPayload. Proof. solve_decision. Defined.
#[export] Instance Content_eq_dec : EqDecision armadillo.Content. Proof. solve_decision. Defined.
#[export] Instance Metadata_eq_dec : EqDecision (Metadata (X := unit)). Proof. solve_decision. Defined.
#[export] Instance Application_eq_dec : EqDecision (MessageApplication unit). Proof. solve_decision. Defined.
#[export] Instance ViewOnce_eq_dec : EqDecision ViewOnceContent. Proof. solve_decision. Defined.
#[export] Instance ConsumerContent_eq_dec : EqDecision ConsumerContent. Proof. solve_decision. Defined.
#[export] Instance AppContent_eq_dec : EqDecision ApplicationContent. Proof. solve_decision. Defined.
#[export] Instance ConsumerPayload_eq_dec : EqDecision ConsumerPayload. Proof. solve_decision. Defined.
#[export] Instance Consumer_eq_dec : EqDecision (ConsumerApplication unit). Proof. solve_decision. Defined.

(** A text message from [me] to [friend], whose device and the sender's other device
    are reached. *)
Definition hello : ConsumerApplication unit := mkConsumer _ (Some (Content (Some MessageText))) tt.

Definition hello_application : MessageApplication unit :=
  mkApplication (Some (Some (SubProtocolContent (Some (mkSubPayload (Some PLACEHOLDER) (Some (ConsumerMessage (Some (mkSub [x00] 1)))))))))
    (Some (mkMetadata (Some 0) (Some (repeat x09 32)) tt)).

Definition hello_payload : TransportPayload := application_payload [x00].

Definition hello_transports : list MessageTransport :=
  map (fun dsm => device_transport [x03; x03; x03] (Some hello_payload) None dsm) [None; Some (mkDSM (jid.String_ friend) "")].

Definition hello_codec : codec unit (ConsumerApplication unit) unit unit unit unit unit :=
  mkCodec (to_place hello_transports) (at_place hello_transports) (to_place [hello_application]) (at_place [hello_application])
    (to_place [hello]) (at_place [hello]) (fun _ => None) (fun _ => None) (fun _ => None) (fun _ => None).

Lemma hello_laws : codec_laws hello_codec.
Proof. constructor; intros a b; [apply (place_roundtrip hello_transports)|apply (place_roundtrip [hello_application])|apply (place_roundtrip [hello])|done]. Qed.

Definition hello_services : fb_services (W := cached_store (R := bytes)) :=
  mkFBServices (some_services (Got answer)) hello_codec tt (fun _ s => (s, Err ErrService)) (fun _ _ _ s => (s, Ok tt)) (fun s => (s, repeat x05 16)).

Definition hello_sent :=
  SendFBMessage hello_services true me friend (armadillo.ConsumerApplication hello) None [] (mkClient some_sessions ∅).

Definition hello_response : SendResponse := mkResponse (UnixNano (1700000000 * 10 ^ 9)) "M1" 7 EmptyJID.

Lemma SendFBMessage_understood_witness : snd hello_sent = Ok hello_response /\
  fb_sent_and_answered hello_services me prefix_opens friend (armadillo.ConsumerApplication hello) no_extra hello_response.
Proof.
  split; [vm_compute; reflexivity|].
  refine (proj1 (SendFBMessage_understood hello_services true me prefix_opens _ hello_laws friend (armadillo.ConsumerApplication hello) None []
    (mkClient some_sessions ∅) (fst hello_sent) (snd hello_sent) _) hello_response _).
  - intros address p s s' prekey ct. apply prefix_opens_cipher.
  - apply surjective_pairing.
  - vm_compute; reflexivity.
Defined.

End fb_samples.
