(* ===== verification/Builders.v ===== *)
(** * send.go, msgsecret.go, appstate.go: message ids and messages built for sending

    [ids]: the ids of messages, for WhatsApp and for Messenger. [builders]: the
    messages that are built for the user, and how SendMessage and SendPeerMessage
    treat them. [timers]: disappearing timers in words. *)

From S2P Require Import Prelude GoStrings StateErr Jid Node Crypto Requests Receive Sql TCToken MsgSecret Messages Send Media.

#[local] Open Scope string_scope.
#[local] Open Scope list_scope.
#[local] Open Scope Z_scope.

Module ids.

Import jid.

(** [strings.ToUpper(hex.EncodeToString(b))]. *)
Fixpoint hex_upper (b : bytes) : string :=
  match b with
  | [] => ""
  | x :: b => (media.upper_hex (Z.shiftr (b2z x) 4) +:+ media.upper_hex (Z.land (b2z x) 15)) +:+ hex_upper b
  end.

Definition WebMessageIDPrefix : string := "3EB0".

(** binary.BigEndian's PutUint64, for [n] = 8. *)
Definition big_endian (n : nat) (z : Z) : bytes := map (fun i => z2b (Z.shiftr z (8 * (Z.of_nat (n - 1 - i))))) (seq 0 n).

Definition randomMask : Z := 2 ^ 22 - 1.

(** [nowMilli]: [time.Now().UnixMilli()]; [random]: four random bytes. The shift wraps
    around at 64 bits. *)
Definition GenerateFacebookMessageID (nowMilli : Z) (random : bytes) : Z :=
  Z.lor (i64 (Z.shiftl nowMilli 22)) (Z.land (BigEndian_Uint32 random) randomMask).

Section ids.
Context {C : Crypto}.

(** [now]: Unix time in seconds, [nowMilli] in milliseconds; [random]: 16 random
    bytes, [random4] four. *)
Definition GenerateMessageID (MessengerConfig : bool) (ownID : JID) (now nowMilli : Z) (random random4 : bytes) : string :=
  if MessengerConfig then itoa (GenerateFacebookMessageID nowMilli random4)
  else
    let data := big_endian 8 (u64 now) ++ (if IsEmpty ownID then [] else str_bytes (User ownID) ++ str_bytes "@c.us") ++ random in
    WebMessageIDPrefix +:+ hex_upper (take 9 (sha256 data)).

(** The package's function. *)
Definition GenerateMessageID_random (random : bytes) : string := WebMessageIDPrefix +:+ hex_upper random.

End ids.

(** The ids of WhatsApp Web are 22 characters long, the package's 20. *)
Lemma web_id_length {C : Crypto} own now ms random r4 : (9 <= length (sha256 (big_endian 8 (u64 now) ++
    (if IsEmpty own then [] else str_bytes (User own) ++ str_bytes "@c.us") ++ random)))%nat ->
  String.length (GenerateMessageID false own now ms random r4) = 22%nat.
Proof.
  intros H. unfold GenerateMessageID. rewrite sql.string_length_app. change (String.length WebMessageIDPrefix) with 4%nat.
  enough (forall b, String.length (hex_upper b) = (2 * length b)%nat) as -> by (rewrite length_take; lia).
  intros b. induction b as [|x b IH]; [done|]. cbn [hex_upper length]. rewrite !sql.string_length_app, IH.
  assert (forall n, 0 <= n < 16 -> String.length (media.upper_hex n) = 1%nat) as Hx.
  { intros n Hn. destruct n as [|n|n]; [done| |lia]. do 15 (destruct n as [n|n|]; try done; try lia). }
  pose proof (b2z_range x). rewrite !Hx; [lia| |].
  - change 15 with (Z.ones 4). rewrite Z.land_ones by lia. apply Z.mod_pos_bound. lia.
  - rewrite Z.shiftr_div_pow2 by lia. change (2 ^ 4) with 16. split; [apply Z.div_pos; lia|]. apply Z.div_lt_upper_bound; lia.
Qed.

Lemma lor_shifted x y n : 0 <= n -> 0 <= y < 2 ^ n -> Z.lor (Z.shiftl x n) y = x * 2 ^ n + y.
Proof.
  intros Hn Hy. rewrite <- (Z.shiftl_mul_pow2 x n) by done.
  assert (Z.land (Z.shiftl x n) y = 0) as H.
  { apply Z.bits_inj'. intros i Hi. rewrite Z.land_spec, Z.bits_0, Z.shiftl_spec by done. destruct (Z.ltb_spec i n).
    - by rewrite (Z.testbit_neg_r x) by lia.
    - rewrite <- (Z.mod_small y (2 ^ n)) by done. rewrite Z.mod_pow2_bits_high by lia. apply andb_false_r. }
  by rewrite (Z.add_nocarry_lxor _ _ H), Z.lxor_lor.
Qed.

(** An id in terms of the time, below 22 bits of randomness. *)
Lemma facebook_id_value ms random : 0 <= ms < 2 ^ 42 -> exists r, 0 <= r < 2 ^ 22 /\
  GenerateFacebookMessageID ms random = (if ms <? 2 ^ 41 then ms else ms - 2 ^ 42) * 2 ^ 22 + r.
Proof.
  intros Hms. unfold GenerateFacebookMessageID. change randomMask with (Z.ones 22). rewrite Z.land_ones by lia.
  exists (BigEndian_Uint32 random mod 2 ^ 22). split; [by apply Z.mod_pos_bound|].
  set (r := BigEndian_Uint32 random mod 2 ^ 22). assert (0 <= r < 2 ^ 22) as Hr by (by apply Z.mod_pos_bound).
  enough (i64 (Z.shiftl ms 22) = Z.shiftl (if ms <? 2 ^ 41 then ms else ms - 2 ^ 42) 22) as -> by (apply lor_shifted; [lia|done]).
  rewrite !Z.shiftl_mul_pow2 by lia. unfold i64. destruct (Z.ltb_spec ms (2 ^ 41)).
  - rewrite Z.mod_small; lia.
  - replace (ms * 2 ^ 22 + 2 ^ 63) with ((ms - 2 ^ 42) * 2 ^ 22 + 2 ^ 63 + 1 * 2 ^ 64) by lia. rewrite Z.mod_add by lia.
    rewrite Z.mod_small; lia.
Qed.

(** A Messenger message id fits a positive 64-bit integer and holds the time it was
    made at, in milliseconds, above 22 random bits, so that ids of later milliseconds
    are larger; from the millisecond 2^41 on, in September 2039, and until twice that
    time, ids are negative. *)
Theorem facebook_id_bounds ms random : 0 <= ms < 2 ^ 42 ->
  (ms < 2 ^ 41 -> 0 <= GenerateFacebookMessageID ms random < 2 ^ 63 /\ GenerateFacebookMessageID ms random / 2 ^ 22 = ms /\
     forall ms' random', ms < ms' < 2 ^ 41 -> GenerateFacebookMessageID ms random < GenerateFacebookMessageID ms' random') /\
  (2 ^ 41 <= ms -> - 2 ^ 63 <= GenerateFacebookMessageID ms random < 0).
Proof.
  intros Hms. destruct (facebook_id_value ms random Hms) as (r & Hr & ->). destruct (Z.ltb_spec ms (2 ^ 41)); (split; [|lia]); [|lia].
  intros _. split; [lia|]. split; [rewrite Z.div_add_l, Z.div_small; lia|]. intros ms' random' H'.
  destruct (facebook_id_value ms' random') as (r' & Hr' & ->); [lia|]. destruct (Z.ltb_spec ms' (2 ^ 41)); lia.
Qed.

Lemma facebook_id_bounds_witness : 0 <= 1700000000000 < 2 ^ 42 /\ 0 <= GenerateFacebookMessageID 1700000000000 [x01; x02; x03; x04] < 2 ^ 63.
Proof.
  assert (0 <= 1700000000000 < 2 ^ 42) as H by lia. split; [done|].
  exact (proj1 (proj1 (facebook_id_bounds 1700000000000 [x01; x02; x03; x04] H) ltac:(lia))).
Defined.

End ids.

Module builders.

Import jid source kinds building ids.

(** What the primary device is asked for. *)
Record HistorySyncOnDemandRequest := mkOnDemand {
  ChatJID : string; OldestMsgID : string; OldestMsgFromMe : bool; OnDemandMsgCount : Z; OldestMsgTimestampMS : Z
}.
Inductive PeerDataOperationRequest :=
  | PLACEHOLDER_MESSAGE_RESEND (keys : list MessageKey)
  | HISTORY_SYNC_ON_DEMAND (r : HistorySyncOnDemandRequest)
  | COMPANION_SYNCD_SNAPSHOT_FATAL_RECOVERY (collection : string) (timestamp : Z).

(** The messages that are built here, with all that is set in them. *)
Inductive built {U : Type} :=
  | Reaction (key : MessageKey) (text : string) (SenderTimestampMS : Z)
  | PeerData (r : PeerDataOperationRequest)
  | FatalException (CollectionNames : list string) (Timestamp : Z)
  | PollCreation (Name : string) (Options : list string) (SelectableOptionsCount : Z) (secret : bytes)
  | PollUpdate (u : option U).
Arguments built : clear implicits.

(** protoc's number of APP_STATE_FATAL_EXCEPTION_NOTIFICATION. *)
Definition APP_STATE_FATAL_EXCEPTION_NOTIFICATION : ProtocolType := OtherProtocol 10.

(** A built message as the sending code sees it. *)
Definition as_message {U} (b : built U) : Message :=
  let protocol t demand := mkMessage None None None None None None None None None (Some (t, None, None, demand)) None no_content in
  let filled (reaction : option string) (creation update : bool) :=
    mkContent false None reaction false false creation update false false false None None false false None
      false false false false false false false None false in
  match b with
  | Reaction _ text _ => plain (filled (Some text) false false)
  | PeerData r => protocol PEER_DATA_OPERATION_REQUEST_MESSAGE (match r with HISTORY_SYNC_ON_DEMAND _ => true | _ => false end)
  | FatalException _ _ => protocol APP_STATE_FATAL_EXCEPTION_NOTIFICATION false
  | PollCreation _ _ _ secret => with_context (Some (mkContext (Some secret) None None)) (plain (filled None true false))
  | PollUpdate _ => plain (filled None false true)
  end.




Section builders.
Context {U : Type} (ownID ownLID : JID) (nowMilli now : Z).

Definition BuildReaction (chat sender : JID) (id reaction : string) : built U :=
  Reaction (BuildMessageKey ownID ownLID chat sender id) reaction nowMilli.

Definition BuildUnavailableMessageRequest (chat sender : JID) (id : string) : built U :=
  PeerData (PLACEHOLDER_MESSAGE_RESEND [BuildMessageKey ownID ownLID chat sender id]).

(** The count is cut to 32 bits. *)
Definition BuildHistorySyncRequest {V} (i : MessageInfo (V := V)) (count : Z) : built U :=
  PeerData (HISTORY_SYNC_ON_DEMAND
    (mkOnDemand (jid.String_ (Chat (info_source i))) (ID i) (IsFromMe (info_source i)) (i32 count) (Unix (Timestamp i)))).

Definition BuildFatalAppStateExceptionNotification (collections : list string) : built U := FatalException collections nowMilli.

Definition BuildAppStateRecoveryRequest (collection : string) : built U :=
  PeerData (COMPANION_SYNCD_SNAPSHOT_FATAL_RECOVERY collection now).

(** [msgSecret]: 32 random bytes. *)
Definition BuildPollCreation (msgSecret : bytes) (name : string) (optionNames : list string) (selectableOptionCount : Z) : built U :=
  let n := if (selectableOptionCount <? 0) || (Z.of_nat (length optionNames) <? selectableOptionCount) then 0 else selectableOptionCount in
  PollCreation name optionNames (u32 n) msgSecret.

End builders.

(** How built messages are sent: the type, the edit attribute, whether a reporting
    token goes along, and the priority of a request to the primary device. *)
Theorem built_sent {U} (b : built U) :
  getTypeFromMessage (as_message b) = Some match b with Reaction _ _ _ => "reaction" | PollCreation _ _ _ _ | PollUpdate _ => "poll" | _ => "text" end /\
  getEditAttribute (as_message b) = match b with Reaction _ "" _ => EditAttributeSenderRevoke | _ => EditAttributeEmpty end /\
  shouldIncludeReportingToken true (as_message b) = match b with Reaction _ _ _ | PollUpdate _ => false | _ => true end /\
  sending.on_demand (as_message b) = match b with PeerData (HISTORY_SYNC_ON_DEMAND _) => true | _ => false end.
Proof. destruct b as [k [|c t] ts|[]| | |]; done. Qed.

(** A poll never asks for more options than it has, and keeps the number that was
    asked for when it has that many. *)
Lemma poll_count {U} secret name options n : 0 <= Z.of_nat (length options) < 2 ^ 32 ->
  exists c, @BuildPollCreation U secret name options n = PollCreation name options c secret /\
    0 <= c <= Z.of_nat (length options) /\ (0 <= n <= Z.of_nat (length options) -> c = n).
Proof.
  intros H. unfold BuildPollCreation. eexists. split; [done|].
  destruct (Z.ltb_spec n 0); cbn [orb]; [rewrite u32_small by lia; lia|].
  destruct (Z.ltb_spec (Z.of_nat (length options)) n); rewrite u32_small by lia; lia.
Qed.

Section votes.
Context {C : Crypto} {Vote : Type}.

(** [vote_of]: the message with the selected options' hashes. An error comes with a
    message without its update. *)
Definition BuildPollVote (vote_codec : msgsecret.codec Vote) (vote_of : list bytes -> Vote) (cli : msgsecret.client) (iv : bytes)
    (pollInfo : msgsecret.MessageInfo) (optionNames : list string) :=
  msgsecret.EncryptPollVote vote_codec cli iv pollInfo (vote_of (msgsecret.HashPollOptions optionNames)).

End votes.

End builders.

Module timers.

Definition DisappearingTimerOff : Z := 0.
Definition DisappearingTimer24Hours : Z := 24 * 3600 * 10 ^ 9.
Definition DisappearingTimer7Days : Z := 7 * 24 * 3600 * 10 ^ 9.
Definition DisappearingTimer90Days : Z := 90 * 24 * 3600 * 10 ^ 9.

Fixpoint without_spaces (s : string) : string :=
  match s with "" => "" | String a s => if Ascii.eqb a " " then without_spaces s else String a (without_spaces s) end.

Definition among (s : string) (l : list string) : bool := existsb (String.eqb s) l.

Definition ParseDisappearingTimerString (val : string) : Z * bool :=
  let v := without_spaces (to_lower val) in
  if among v ["0d"; "0h"; "0s"; "0"; "off"] then (DisappearingTimerOff, true)
  else if among v ["1day"; "day"; "1d"; "1"; "24h"; "24"; "86400s"; "86400"] then (DisappearingTimer24Hours, true)
  else if among v ["1week"; "week"; "7d"; "7"; "168h"; "168"; "604800s"; "604800"] then (DisappearingTimer7Days, true)
  else if among v ["3months"; "3m"; "3mo"; "90d"; "90"; "2160h"; "2160"; "7776000s"; "7776000"] then (DisappearingTimer90Days, true)
  else (0, false).

(** Every standard timer is read back from its seconds, its hours and its days, and
    nothing else is accepted. *)
Theorem timers_parse :
  Forall (fun timer => Forall (fun text => ParseDisappearingTimerString text = (timer, true))
      [itoa (timer / 10 ^ 9) +:+ "s"; itoa (timer / 10 ^ 9 / 3600) +:+ "h"; itoa (timer / 10 ^ 9 / 86400) +:+ "d"; itoa (timer / 10 ^ 9 / 86400) +:+ " D"])
    [DisappearingTimerOff; DisappearingTimer24Hours; DisappearingTimer7Days; DisappearingTimer90Days] /\
  forall val timer ok, ParseDisappearingTimerString val = (timer, ok) ->
    if ok then timer ∈ [DisappearingTimerOff; DisappearingTimer24Hours; DisappearingTimer7Days; DisappearingTimer90Days] else timer = 0.
Proof.
  split; [by repeat constructor|]. intros val timer ok. unfold ParseDisappearingTimerString.
  repeat match goal with |- context [among ?v ?l] => destruct (among v l) end; intros [= <- <-]; rewrite ?elem_of_cons; auto.
Qed.

End timers.
