(* ===== verification/Incoming.v ===== *)
(** * events.go, message.go and client.go: messages on their way to the handlers

    [unwrap]: taking a message out of the ones it is wrapped in. [web]: messages of
    a history sync. [plaintext]: newsletters' messages. [historysync]: downloading a
    history sync, and the goroutine that does it as a step relation. *)

From S2P Require Import Prelude GoStrings StateErr Jid Node Crypto Requests Sql TCToken MsgSecret MediaRetry Receive Messages History Send.

#[local] Open Scope string_scope.
#[local] Open Scope list_scope.
#[local] Open Scope Z_scope.

Module unwrap.

Import kinds.

(** The messages another message can be wrapped in. *)
Inductive wrapper :=
  | DeviceSent | BotInvoke | Ephemeral | ViewOnce | ViewOnceV2 | ViewOnceV2Extension | LottieSticker | DocumentWithCaption | Edited.

#[export] Instance wrapper_eq_dec : EqDecision wrapper. Proof. solve_decision. Defined.

(** [m.GetX().GetMessage()]. *)
Definition get_wrapped (w : wrapper) (m : Message) : option Message :=
  match w with
  | DeviceSent => x ← DeviceSentMessage m; snd x
  | BotInvoke => mjoin (BotInvokeMessage m)
  | Ephemeral => mjoin (EphemeralMessage m)
  | ViewOnce => mjoin (ViewOnceMessage m)
  | ViewOnceV2 => mjoin (ViewOnceMessageV2 m)
  | ViewOnceV2Extension => mjoin (ViewOnceMessageV2Extension m)
  | LottieSticker => mjoin (LottieStickerMessage m)
  | DocumentWithCaption => mjoin (DocumentWithCaptionMessage m)
  | Edited => mjoin (EditedMessage m)
  end.

(** The message with another one inside the wrapper. *)
Definition put_wrapped (w : wrapper) (i m : Message) : Message :=
  let put w' old := if decide (w = w') then Some (Some i) else old in
  mkMessage (put ViewOnce (ViewOnceMessage m)) (put ViewOnceV2 (ViewOnceMessageV2 m)) (put ViewOnceV2Extension (ViewOnceMessageV2Extension m))
    (put LottieSticker (LottieStickerMessage m)) (put Ephemeral (EphemeralMessage m)) (put DocumentWithCaption (DocumentWithCaptionMessage m))
    (put Edited (EditedMessage m)) (put BotInvoke (BotInvokeMessage m))
    (if decide (w = DeviceSent) then Some (default ("", "") (fst <$> DeviceSentMessage m), Some i) else DeviceSentMessage m)
    (ProtocolMessage m) (MessageContextInfo m) (fields m).

(** The message inside, and the wrappers around it from the inside out: the fields
    that refer to a message share it, so that what is written into the message is
    written into the raw one. *)
Record place := mkPlace { here : Message; around : list (wrapper * Message) }.

Definition rebuild (m : Message) (around : list (wrapper * Message)) : Message :=
  foldl (fun m x => put_wrapped (fst x) m (snd x)) m around.

Definition enter (p : place) (w : wrapper) : place :=
  match get_wrapped w (here p) with Some m => mkPlace m ((w, here p) :: around p) | None => p end.

(** The order in which wrappers are taken off, each once. *)
Definition order : list wrapper :=
  [DeviceSent; BotInvoke; Ephemeral; ViewOnce; ViewOnceV2; ViewOnceV2Extension; LottieSticker; DocumentWithCaption; Edited].

(** The fields of events.Message that are filled in. *)
Record Event := mkEvent {
  e_Message : option Message; RawMessage : option Message; DeviceSentMeta : option (string * string);
  IsEphemeral : bool; IsViewOnce : bool; IsViewOnceV2 : bool; IsViewOnceV2Extension : bool;
  IsDocumentWithCaption : bool; IsLottieSticker : bool; IsBotInvoke : bool; IsEdit : bool
}.

Definition event_of (m raw : option Message) (sent : option (string * string)) (taken : list wrapper) : Event :=
  let has w := bool_decide (w ∈ taken) in
  mkEvent m raw sent (has Ephemeral) (has ViewOnce || has ViewOnceV2 || has ViewOnceV2Extension) (has ViewOnceV2 || has ViewOnceV2Extension)
    (has ViewOnceV2Extension) (has DocumentWithCaption) (has LottieSticker) (has BotInvoke) (has Edited).

Definition sent_meta (m : Message) : option (string * string) := x ← DeviceSentMessage m; i ← snd x; Some (fst x).

Definition UnwrapRaw (raw : option Message) : Event :=
  match raw with
  | None => event_of None None None []
  | Some m =>
      let p := foldl enter (mkPlace m []) order in
      let inner :=
        match MessageContextInfo (here p), MessageContextInfo m with
        | None, Some i => with_context (Some i) (here p)
        | _, _ => here p
        end in
      event_of (Some inner) (Some (rebuild inner (around p))) (sent_meta m) (map fst (around p))
  end.

(** ** What is taken off *)

(** A message in no wrapper. *)
Definition bare (m : Message) : Prop := forall w, get_wrapped w m = None.

(** A message in a wrapper and nothing else; the destination and hash are of a
    wrapper for the account's devices. *)
Definition wrap_in (meta : string * string) (w : wrapper) (m : Message) : Message :=
  let put w' := if decide (w = w') then Some (Some m) else None in
  mkMessage (put ViewOnce) (put ViewOnceV2) (put ViewOnceV2Extension) (put LottieSticker) (put Ephemeral) (put DocumentWithCaption)
    (put Edited) (put BotInvoke) (if decide (w = DeviceSent) then Some (meta, Some m) else None) None None no_content.

Lemma get_wrap_in meta w w' m : get_wrapped w (wrap_in meta w' m) = if decide (w' = w) then Some m else None.
Proof. by destruct w, w'. Qed.

Lemma get_with_context w i m : get_wrapped w (with_context i m) = get_wrapped w m.
Proof. by destruct w. Qed.

(** The outermost wrapper may carry the context of the message. *)
Definition wrap_all (meta : string * string) (i : option ContextInfo) (ws : list wrapper) (m : Message) : Message :=
  match ws with [] => m | _ => with_context i (foldr (wrap_in meta) m ws) end.

Lemma enter_order_bare meta ws l m : sublist ws l -> NoDup l -> bare m ->
  forall p i, here p = with_context i (foldr (wrap_in meta) m ws) ->
  exists outer, foldl enter p l = mkPlace (match ws with [] => here p | _ => m end) (outer ++ around p) /\ map fst outer = reverse ws.
Proof.
  intros Hs Hn Hb. induction Hs as [|w ws l Hs IH|w ws l Hs IH]; intros p i Hp.
  - exists []. by destruct p.
  - apply NoDup_cons in Hn as [Hw Hn]. cbn [foldl]. unfold enter at 2.
    replace (get_wrapped w (here p)) with (Some (foldr (wrap_in meta) m ws)) by (rewrite Hp, get_with_context; cbn [foldr]; by rewrite get_wrap_in, decide_True).
    destruct (IH Hn (mkPlace (foldr (wrap_in meta) m ws) ((w, here p) :: around p)) (MessageContextInfo (foldr (wrap_in meta) m ws))) as (outer & -> & Ho).
    { cbn [here]. by destruct (foldr (wrap_in meta) m ws). }
    exists (outer ++ [(w, here p)]). rewrite map_app, Ho, reverse_cons. split; [|done]. rewrite <- app_assoc. by destruct ws.
  - apply NoDup_cons in Hn as [Hw Hn]. cbn [foldl]. unfold enter at 2. replace (get_wrapped w (here p)) with (@None Message); [by eapply IH|].
    rewrite Hp, get_with_context. destruct ws as [|w' ws]; cbn [foldr]; [by rewrite (Hb w)|]. rewrite get_wrap_in, decide_False; [done|].
    intros ->. apply Hw. eapply elem_of_submseteq; [|by apply sublist_submseteq]. apply elem_of_cons. by left.
Qed.

Lemma order_nodup : NoDup order.
Proof. repeat constructor; rewrite ?elem_of_cons, ?elem_of_nil; intuition discriminate. Qed.

Lemma put_get w i m : get_wrapped w m = Some i -> put_wrapped w i m = m.
Proof.
  destruct m, w; cbn; intros H; repeat match type of H with context [?x] => is_var x; destruct x as [[? [?|]]|] || destruct x as [[?|]|] end;
    try discriminate; by injection H as ->.
Qed.

Lemma rebuild_enter l p : rebuild (here (foldl enter p l)) (around (foldl enter p l)) = rebuild (here p) (around p).
Proof.
  revert p. induction l as [|w l IH]; intros p; [done|]. cbn [foldl]. rewrite IH. unfold enter.
  destruct (get_wrapped w (here p)) as [i|] eqn:E; [|done]. cbn [here around]. unfold rebuild. cbn [foldl fst snd]. by rewrite (put_get _ _ _ E).
Qed.

Lemma with_own_context m : with_context (MessageContextInfo m) m = m.
Proof. by destruct m. Qed.

Lemma sent_meta_wrapped meta i ws m : sublist ws order -> bare m ->
  sent_meta (wrap_all meta i ws m) = if decide (DeviceSent ∈ ws) then Some meta else None.
Proof.
  intros Hs Hb. destruct ws as [|w ws].
  - rewrite decide_False by (by intros ?%elem_of_nil). pose proof (Hb DeviceSent) as H. unfold sent_meta. cbn in H |- *.
    destruct (DeviceSentMessage m) as [[x [y|]]|]; [done|done|done].
  - cbn [wrap_all foldr]. unfold sent_meta. cbn [with_context DeviceSentMessage wrap_in]. destruct (decide (w = DeviceSent)) as [->|Hw].
    + rewrite decide_True by (apply elem_of_cons; by left). done.
    + rewrite decide_False; [done|]. intros [?|Hin]%elem_of_cons; [done|].
      inversion Hs as [|? ? ? _|? ? ? Ht]; [done|].
      assert (DeviceSent ∈ w :: ws) as Hd by (apply elem_of_cons; by right).
      apply (elem_of_sublist _ _ _ Hd) in Ht. revert Ht. rewrite !elem_of_cons, elem_of_nil. intuition discriminate.
Qed.

(** What is unwrapped of a wrapped message. *)
Lemma unwraps_wrapped meta i ws m : sublist ws order -> bare m ->
  let m' := match ws, MessageContextInfo m, i with _ :: _, None, Some c => with_context (Some c) m | _, _, _ => m end in
  exists raw', UnwrapRaw (Some (wrap_all meta i ws m)) =
      event_of (Some m') (Some raw') (if decide (DeviceSent ∈ ws) then Some meta else None) (reverse ws) /\
    (m' = m -> raw' = wrap_all meta i ws m).
Proof.
  intros Hs Hb m'. unfold UnwrapRaw. rewrite (sent_meta_wrapped meta i ws m Hs Hb).
  pose proof (rebuild_enter order (mkPlace (wrap_all meta i ws m) [])) as Hr. cbn [here around rebuild foldl] in Hr.
  destruct (enter_order_bare meta ws order m Hs order_nodup Hb (mkPlace (wrap_all meta i ws m) []) (match ws with [] => MessageContextInfo m | _ => i end)) as (outer & E & Ho).
  { destruct ws; [symmetry; apply with_own_context|done]. }
  rewrite E in Hr |- *. cbn [here around] in Hr |- *. rewrite app_nil_r in Hr |- *. rewrite Ho.
  assert (match ws with [] => wrap_all meta i ws m | _ => m end = m) as Hm by (by destruct ws). rewrite Hm in Hr |- *.
  replace (match MessageContextInfo m, MessageContextInfo (wrap_all meta i ws m) with None, Some c => with_context (Some c) m | _, _ => m end) with m'.
  - eexists. split; [done|]. by intros ->.
  - unfold m'. destruct ws; [cbn [wrap_all]; by destruct (MessageContextInfo m)|done].
Qed.

(** (C34) A message wrapped in any of the wrappers that are taken off, in their order,
    comes out as it was, with the flags of exactly these wrappers and, when it is a copy
    for the account's devices, where it was sent; it gets the context of the outermost
    message if it has none of its own. The raw message is the one that came, but in that
    case it changes too. *)
Theorem UnwrapRaw_wrapped meta i ws m : sublist ws order -> bare m ->
  let m' := match ws, MessageContextInfo m, i with _ :: _, None, Some c => with_context (Some c) m | _, _, _ => m end in
  exists raw', UnwrapRaw (Some (wrap_all meta i ws m)) =
      event_of (Some m') (Some raw') (if decide (DeviceSent ∈ ws) then Some meta else None) (reverse ws) /\
    (m' = m -> raw' = wrap_all meta i ws m).
Proof. apply unwraps_wrapped. Qed.

Lemma bare_of_fields c : bare (plain c).
Proof. by intros []. Qed.

(** The copy that goes to the account's other devices is unwrapped there to the
    message, with where it was sent. *)
Lemma own_copy_unwrapped to m : bare m -> exists raw', UnwrapRaw (Some (sending.device_sent to m)) =
  event_of (Some m) (Some raw') (Some (jid.String_ to, "")) [DeviceSent].
Proof.
  intros Hb. assert (sublist [DeviceSent] order) as Hs by (apply sublist_skip, sublist_nil_l).
  destruct (unwraps_wrapped (jid.String_ to, "") (MessageContextInfo m) [DeviceSent] m Hs Hb) as (raw' & E & _). exists raw'.
  change (sending.device_sent to m) with (wrap_all (jid.String_ to, "") (MessageContextInfo m) [DeviceSent] m). rewrite E.
  destruct (MessageContextInfo m); done.
Qed.

Lemma UnwrapRaw_wrapped_witness : sublist [DeviceSent; Ephemeral; ViewOnceV2] order /\ exists raw',
  UnwrapRaw (Some (wrap_all ("15550000001@s.whatsapp.net", "2:abc") None [DeviceSent; Ephemeral; ViewOnceV2] (plain no_content))) =
    event_of (Some (plain no_content)) (Some raw') (Some ("15550000001@s.whatsapp.net", "2:abc")) [ViewOnceV2; Ephemeral; DeviceSent].
Proof.
  assert (sublist [DeviceSent; Ephemeral; ViewOnceV2] order) as Hs by (apply sublist_skip, sublist_cons, sublist_skip, sublist_cons, sublist_skip, sublist_nil_l).
  split; [exact Hs|].
  destruct (UnwrapRaw_wrapped ("15550000001@s.whatsapp.net", "2:abc") None [DeviceSent; Ephemeral; ViewOnceV2] (plain no_content) Hs (bare_of_fields no_content)) as (raw' & E & _).
  exists raw'. exact E.
Defined.

(** The raw message, said to be unmodified, is given the outer context inside. *)
Lemma raw_message_modified : exists raw, RawMessage (UnwrapRaw (Some raw)) <> Some raw.
Proof.
  exists (wrap_all ("", "") (Some (mkContext (Some [x01]) None None)) [Ephemeral] (plain no_content)). vm_compute. discriminate.
Qed.

(** A wrapper inside one that is taken off later stays on. *)
Lemma out_of_order : e_Message (UnwrapRaw (Some (wrap_all ("", "") None [ViewOnce; Ephemeral] (plain no_content)))) =
  Some (wrap_in ("", "") Ephemeral (plain no_content)).
Proof. reflexivity. Qed.

End unwrap.

Module web.

Import jid attrs source kinds unwrap.

Record WebMessageInfo := mkWeb {
  w_RemoteJID : string; w_FromMe : bool; w_KeyID : string; w_KeyParticipant : string;     (* the key, zero when it is nil *)
  w_PushName : string; w_MessageTimestamp : Z;
  w_OriginalSelfAuthor : string; w_Participant : string;
  w_CommentParent : option (string * string);                                             (* id and participant *)
  w_Message : option Message
}.

Inductive web_error := NoChat | ErrNotLoggedIn | NoSender | BadSender.

Section web.
Context {V : Type} (ownID : JID).

Definition parse (e : web_error) (s : string) : outcome web_error JID := map_err (fun _ => e) (ParseJID s).

Definition web_sender (chat : JID) (m : WebMessageInfo) : outcome web_error JID :=
  if w_FromMe m then
    if negb (String.eqb (w_OriginalSelfAuthor m) "") then parse BadSender (w_OriginalSelfAuthor m)
    else if IsEmpty (ToNonAD ownID) then Err ErrNotLoggedIn else Ok (ToNonAD ownID)
  else if bool_decide (Server chat = DefaultUserServer) || bool_decide (Server chat = HiddenUserServer) || bool_decide (Server chat = NewsletterServer)
  then Ok chat
  else if negb (String.eqb (w_Participant m) "") then parse BadSender (w_Participant m)
  else if negb (String.eqb (w_KeyParticipant m) "") then parse BadSender (w_KeyParticipant m)
  else Err NoSender.

(** The id and message of an edit are those that its protocol message names. *)
Definition resolve_edit (id : string) (e : Event) : string * option Message :=
  match m ← e_Message e; ProtocolMessage m with
  | Some (MESSAGE_EDIT, key, edited, _) => (default "" (KeyID <$> key), edited)
  | _ => (id, e_Message e)
  end.

Definition with_message (m : option Message) (e : Event) : Event :=
  mkEvent m (RawMessage e) (DeviceSentMeta e) (IsEphemeral e) (IsViewOnce e) (IsViewOnceV2 e) (IsViewOnceV2Extension e)
    (IsDocumentWithCaption e) (IsLottieSticker e) (IsBotInvoke e) (IsEdit e).

Definition ParseWebMessage (chatJID : JID) (m : WebMessageInfo) : outcome web_error (MessageInfo (V := V) * Event) :=
  chat ← (if IsEmpty chatJID then parse NoChat (w_RemoteJID m) else Ok chatJID);
  sender ← web_sender chat m;
  let src := mkSource chat sender (w_FromMe m) (bool_decide (Server chat = GroupServer)) "" EmptyJID EmptyJID EmptyJID [] in
  let meta := match w_CommentParent m with
              | Some (id, participant) => mkMetaInfo "" EmptyJID EmptyJID None id (incoming.parsed_part participant)
              | None => no_meta
              end in
  let e := UnwrapRaw (w_Message m) in
  let '(id, message) := resolve_edit (w_KeyID m) e in
  Ok (mkInfo src id 0 (time_Unix (i64 (w_MessageTimestamp m))) (w_PushName m) "" "" "" false None no_bot meta "", with_message message e).

(** An edit made by BuildEdit and found in a history sync, in any wrappers around it,
    is reported under the id of the message it edits, with the new content, as an
    edit; sender and chat are those of every other message. *)
Theorem ParseWebMessage_edit chatJID chat id new meta i ws m sender : sublist (ws ++ [Edited]) order ->
  IsEmpty chatJID = false -> web_sender chatJID m = Ok sender ->
  w_Message m = Some (wrap_all meta i (ws ++ [Edited]) (building.protocol_message MESSAGE_EDIT (mkKey true id (jid.String_ chat) None) (Some new))) ->
  exists info e, ParseWebMessage chatJID m = Ok (info, e) /\ ID info = id /\ e_Message e = Some new /\ IsEdit e = true /\
    Sender (info_source info) = sender /\ Chat (info_source info) = chatJID.
Proof.
  intros Hs He Hsender Hm. unfold ParseWebMessage. rewrite He, bind_Ok, Hsender, bind_Ok, Hm.
  set (p := building.protocol_message _ _ _). assert (bare p) as Hb by (by intros []).
  destruct (unwraps_wrapped meta i (ws ++ [Edited]) p Hs Hb) as (raw' & -> & _).
  set (m' := match ws ++ [Edited] with [] => _ | _ => _ end). assert (ProtocolMessage m' = ProtocolMessage p) as Hp.
  { unfold m'. destruct (ws ++ [Edited]), (MessageContextInfo p), i; done. }
  unfold resolve_edit. change (e_Message (event_of (Some m') _ _ _)) with (Some m'). change (Some m' ≫= _) with (ProtocolMessage m').
  rewrite Hp. cbn [p building.protocol_message ProtocolMessage]. eexists _, _. split; [reflexivity|]. split; [done|]. split; [done|].
  split; [|done]. cbn [with_message IsEdit event_of]. apply bool_decide_eq_true_2, elem_of_reverse, elem_of_app. right. by apply list_elem_of_singleton.
Qed.

End web.

End web.

Module plaintext.

Import jid attrs source receipt kinds unwrap.

Section plaintext.
Context {V : Type} (parseVerifiedNameContent : Node -> option V) (unmarshal : bytes -> option Message).

Abbreviation info := (MessageInfo (V := V)).

(** What is done with a newsletter's message. [status]: it came as one. *)
Inductive effect :=
  | StoreSecret (chat sender : JID) (id : string) (secret : bytes)
  | DispatchPlaintext (i : info) (status : bool) (e : Event) (NewsletterMeta : option (gotime * gotime))
  | SendAck (error : Z).

Definition secret_effect (i : info) (m : Message) : list effect :=
  match sending.secret_of m with
  | Some (b :: s) => [StoreSecret (Chat (info_source i)) (Sender (info_source i)) (ID i) (b :: s)]
  | _ => []
  end.

(** The times of an edit and of the original. *)
Definition newsletter_meta (node : Node) : option (gotime * gotime) :=
  match GetOptionalChildByTag node ["meta"] with
  | (meta, true) => Some (fst (UnixMilli "msg_edit_t" (AttrGetter meta)), fst (UnixTime "original_msg_t" (AttrGetter meta)))
  | _ => None
  end.

(** [fails]: whether an event handler fails on the event. *)
Definition handlePlaintextMessage (fails : Event -> bool) (status : bool) (i : info) (node : Node) : list effect * bool :=
  match GetOptionalChildByTag node ["plaintext"] with
  | (plaintext, true) =>
      match node_content plaintext with
      | ABytes body =>
          match unmarshal body with
          | Some m => let e := UnwrapRaw (Some m) in (secret_effect i m ++ [DispatchPlaintext i status e (newsletter_meta node)], fails e)
          | None => ([], false)
          end
      | _ => ([], false)
      end
  | _ => ([], false)
  end.

(** The acknowledgement of [maybeDeferredAck]. *)
Definition with_ack (SynchronousAck ctxDone : bool) (r : list effect * bool) : list effect :=
  if SynchronousAck then fst r ++ (if ctxDone || snd r then [] else [SendAck 0]) else SendAck 0 :: fst r.

Definition handleUnencryptedMessage (SynchronousAck ctxDone : bool) (fails : Event -> bool) (clientID clientLID : JID) (node : Node) : list effect :=
  match parseMessageInfo parseVerifiedNameContent clientID clientLID node with
  | Ok i =>
      if bool_decide (Server (Sender (info_source i)) = NewsletterServer)
      then with_ack SynchronousAck ctxDone (handlePlaintextMessage fails true i node) else [SendAck 0]
  | _ => [SendAck NackParsingError]
  end.

Definition is_ack (e : effect) : bool := match e with SendAck _ => true | _ => false end.
Definition is_dispatch (e : effect) : bool := match e with DispatchPlaintext _ _ _ _ => true | _ => false end.

Lemma plaintext_effects fails status i node : let '(l, failed) := handlePlaintextMessage fails status i node in
  List.filter is_ack l = [] /\ (length (List.filter is_dispatch l) <= 1)%nat /\ (failed = true -> exists e m, DispatchPlaintext i status e m ∈ l /\ fails e = true).
Proof.
  assert (forall P : Prop, @List.filter effect is_ack [] = [] /\ (0 <= 1)%nat /\ (false = true -> P)) as Hnil by (intros; split; [done|]; split; [lia|done]).
  unfold handlePlaintextMessage. destruct (GetOptionalChildByTag node ["plaintext"]) as [p [|]]; [|exact (Hnil _)].
  destruct (node_content p) as [| | | | | | | | | |body| |]; try exact (Hnil _). destruct (unmarshal body) as [m|]; [|exact (Hnil _)].
  unfold secret_effect. cbv zeta. destruct (sending.secret_of m) as [[|b s]|]; cbn [List.filter is_ack is_dispatch app length];
    (split; [done|]; split; [lia|]; intros Hf; eexists _, _; split; [|exact Hf]; rewrite ?elem_of_cons; auto).
Qed.

(** An unencrypted stanza is acknowledged once, unless acknowledgements wait for
    handlers and one failed or the context is over; it is dispatched at most once. *)
Theorem unencrypted_acked_once S ctxDone fails own lid node : let l := handleUnencryptedMessage S ctxDone fails own lid node in
  (length (List.filter is_dispatch l) <= 1)%nat /\ (length (List.filter is_ack l) <= 1)%nat /\
  (List.filter is_ack l = [] -> S = true /\ (ctxDone = true \/ exists i st e m, DispatchPlaintext i st e m ∈ l /\ fails e = true)).
Proof.
  unfold handleUnencryptedMessage. destruct (parseMessageInfo _ _ _ _) as [i| | |]; try (by cbn; split; [lia|split; [lia|done]]).
  case_bool_decide; [|by cbn; split; [lia|split; [lia|done]]]. pose proof (plaintext_effects fails true i node) as Hp.
  destruct (handlePlaintextMessage fails true i node) as [l failed]. destruct Hp as (Ha & Hd & Hf). unfold with_ack. cbn [fst snd].
  destruct S; cbn [List.filter is_ack is_dispatch length]; [|by rewrite Ha].
  rewrite !List.filter_app, Ha. destruct ctxDone; cbn [orb List.filter]; [rewrite !app_nil_r; split; [done|]; split; [cbn; lia|by auto]|].
  destruct failed; cbn [List.filter is_ack is_dispatch app length]; rewrite ?app_nil_r; (split; [done|]; split; [lia|]); [|done].
  intros _. split; [done|]. right. destruct (Hf eq_refl) as (e & m & Hin & He). by exists i, true, e, m.
Qed.

End plaintext.

End plaintext.

Module historysync.

(** ** The goroutine that downloads *)

Section notifications.
Context {N : Type}.

(** A run of handleHistorySyncNotificationLoop: waiting in its select, downloading,
    on its way out, with the flag cleared in its deferred function, and there after it
    has seen that the channel is not empty. *)
Inductive loop := Waiting | Working (n : N) | Ending | Cleared | Seen.

(** [pending]: goroutines of handleProtocolMessage that have sent a notification and
    have not looked at the flag yet. *)
Record state := mkState { queue : list N; started : bool; loops : list loop; pending : nat; sent : list N; taken : list N }.

Definition init : state := mkState [] false [] 0 [] [].

Definition capacity : nat := 32.

Definition with_loops (b : bool) (l : list loop) (s : state) : state := mkState (queue s) b l (pending s) (sent s) (taken s).

(** The compare-and-swap of the flag, and the goroutine that is started if it was not
    set. *)
Definition compare_and_start (rest : list loop) (s : state) : state :=
  if started s then with_loops true rest s else with_loops true (rest ++ [Waiting]) s.

(** [Own]: a step of the loops and senders themselves; [Around]: a new notification, a
    panic, a minute without notifications. *)
Inductive label := Own | Around.

Inductive step : label -> state -> state -> Prop :=
  | step_send s n : (length (queue s) < capacity)%nat ->
      step Around s (mkState (queue s ++ [n]) (started s) (loops s) (S (pending s)) (sent s ++ [n]) (taken s))
  | step_compare s k : pending s = S k ->
      step Own s (compare_and_start (loops s) (mkState (queue s) (started s) (loops s) k (sent s) (taken s)))
  | step_take s l1 l2 n q : loops s = l1 ++ Waiting :: l2 -> queue s = n :: q ->
      step Own s (mkState q (started s) (l1 ++ Working n :: l2) (pending s) (sent s) (taken s ++ [n]))
  | step_done s l1 l2 n : loops s = l1 ++ Working n :: l2 -> step Own s (with_loops (started s) (l1 ++ Waiting :: l2) s)
  | step_panic s l1 l2 n : loops s = l1 ++ Working n :: l2 -> step Around s (with_loops (started s) (l1 ++ Ending :: l2) s)
  | step_timeout s l1 l2 : loops s = l1 ++ Waiting :: l2 -> step Around s (with_loops (started s) (l1 ++ Ending :: l2) s)
  | step_clear s l1 l2 : loops s = l1 ++ Ending :: l2 -> step Own s (with_loops false (l1 ++ Cleared :: l2) s)
  | step_leave s l1 l2 : loops s = l1 ++ Cleared :: l2 -> queue s = [] -> step Own s (with_loops (started s) (l1 ++ l2) s)
  | step_see s l1 l2 : loops s = l1 ++ Cleared :: l2 -> queue s <> [] -> step Own s (with_loops (started s) (l1 ++ Seen :: l2) s)
  | step_restart s l1 l2 : loops s = l1 ++ Seen :: l2 -> step Own s (compare_and_start (l1 ++ l2) s).

Definition any_step (s s' : state) : Prop := exists l, step l s s'.
Definition reachable : state -> Prop := rtc any_step init.

Definition running (l : loop) : bool := match l with Waiting | Working _ | Ending => true | Cleared | Seen => false end.

(** Somebody will look at the channel. *)
Definition looked_after (s : state) : Prop :=
  started s = true \/ (0 < pending s)%nat \/ exists l, l ∈ loops s /\ running l = false.

Record ok (s : state) : Prop := mkOk {
  ok_one : length (List.filter running (loops s)) = if started s then 1%nat else 0%nat;
  ok_queue : sent s = taken s ++ queue s;
  ok_capacity : (length (queue s) <= capacity)%nat;
  ok_looked : queue s <> [] -> looked_after s
}.

Lemma running_split l1 x l2 : length (List.filter running (l1 ++ x :: l2)) =
  ((if running x then 1 else 0) + length (List.filter running (l1 ++ l2)))%nat.
Proof. rewrite !List.filter_app, !length_app. cbn [List.filter]. destruct (running x); cbn [length]; lia. Qed.

Lemma still_looked l1 x y l2 (P Q : Prop) : (P \/ Q \/ exists l, l ∈ l1 ++ x :: l2 /\ running l = false) ->
  (running x = false -> running y = false) -> P \/ Q \/ exists l, l ∈ l1 ++ y :: l2 /\ running l = false.
Proof.
  intros [?|[?|(l & Hin & Hr)]] Hxy; [by auto..|]. right. right. rewrite elem_of_app, elem_of_cons in Hin.
  destruct Hin as [Hin|[->|Hin]]; [exists l|exists y|exists l]; rewrite elem_of_app, elem_of_cons; auto.
Qed.

Lemma step_ok l s s' : ok s -> step l s s' -> ok s'.
Proof.
  intros [H1 H2 H3 H4] Hs. unfold looked_after in H4.
  destruct Hs as [s n Hc|s k Hp|s l1 l2 n q E Eq|s l1 l2 n E|s l1 l2 n E|s l1 l2 E|s l1 l2 E|s l1 l2 E Eq|s l1 l2 E Eq|s l1 l2 E];
    try (rewrite E in H1, H4; rewrite running_split in H1; cbn [running] in H1).
  - constructor; cbn [queue started loops pending sent taken]; [done|by rewrite H2, app_assoc|rewrite length_app; cbn; unfold capacity in *; lia|].
    intros _. right. left. cbn. lia.
  - unfold compare_and_start. cbn [started]. destruct (started s) eqn:Es; constructor; cbn; try done; [intros _; by left|rewrite List.filter_app, length_app, H1; done|intros _; by left].
  - rewrite Eq in *. constructor; cbn [queue started loops pending sent taken]; [by rewrite running_split|by rewrite H2, <- app_assoc|cbn in H3; lia|].
    intros _. unfold looked_after. cbn [started pending loops]. eapply still_looked; [by apply H4|done].
  - constructor; cbn; [by rewrite running_split|done..|]. intros Hq. eapply still_looked; [by apply H4|done].
  - constructor; cbn; [by rewrite running_split|done..|]. intros Hq. eapply still_looked; [by apply H4|done].
  - constructor; cbn; [by rewrite running_split|done..|]. intros Hq. eapply still_looked; [by apply H4|done].
  - constructor; cbn; [rewrite running_split; cbn; destruct (started s); lia|done..|]. intros _. right. right. exists Cleared.
    split; [cbn [with_loops loops]; rewrite elem_of_app, elem_of_cons; auto|done].
  - constructor; cbn; [done..|]. by rewrite Eq.
  - constructor; cbn; [by rewrite running_split|done..|]. intros Hq. eapply still_looked; [by apply H4|done].
  - unfold compare_and_start. destruct (started s) eqn:Es; constructor; cbn; try done; [intros _; by left|rewrite List.filter_app, length_app; cbn in *; lia|intros _; by left].
Qed.

Lemma reachable_ok s : reachable s -> ok s.
Proof.
  intros H. unfold reachable in H. apply (rtc_ind_r (R := any_step) (fun s => ok s) init); [|intros y z _ [l Hl] Hy; by eapply step_ok|done].
  constructor; cbn; [done|done|unfold capacity; lia|done].
Qed.

Definition own_steps : state -> state -> Prop := rtc (step Own).

(** The first notification of the channel is taken by steps of the client's own. *)
Definition taken_next (s : state) : Prop := exists s' n, own_steps s s' /\ head (queue s) = Some n /\ taken s' = taken s ++ [n].

Lemma taken_after s s1 : step Own s s1 -> queue s1 = queue s -> taken s1 = taken s -> taken_next s1 -> taken_next s.
Proof. intros Hs Hq Ht (s' & n & Hr & Hh & E). exists s', n. rewrite <- Hq, <- Ht. split; [by eapply rtc_l|done]. Qed.

Lemma waiting_takes s l1 l2 : loops s = l1 ++ Waiting :: l2 -> queue s <> [] -> taken_next s.
Proof.
  intros E Hq. destruct (queue s) as [|n q] eqn:Eq; [done|].
  exists (mkState q (started s) (l1 ++ Working n :: l2) (pending s) (sent s) (taken s ++ [n])), n. rewrite Eq. split; [|done].
  eapply rtc_l; [by apply step_take|apply rtc_refl].
Qed.

Lemma started_takes rest s : started s = false -> queue s <> [] -> taken_next (compare_and_start rest s).
Proof. intros Es Hq. unfold compare_and_start. rewrite Es. by apply (waiting_takes _ rest []). Qed.

Lemma seen_takes s l1 l2 : loops s = l1 ++ Seen :: l2 -> started s = false -> queue s <> [] -> taken_next s.
Proof.
  intros E Es Hq. eapply taken_after; [by apply (step_restart s l1 l2)|unfold compare_and_start; by rewrite Es..|]. by apply started_takes.
Qed.

Lemma cleared_takes s l1 l2 : loops s = l1 ++ Cleared :: l2 -> started s = false -> queue s <> [] -> taken_next s.
Proof. intros E Es Hq. eapply taken_after; [by apply (step_see s l1 l2)|done..|]. by eapply seen_takes. Qed.

Lemma ok_takes s : ok s -> queue s <> [] -> taken_next s.
Proof.
  intros [H1 _ _ H4] Hq. destruct (started s) eqn:Es.
  - destruct (List.filter running (loops s)) as [|x [|]] eqn:Ef; [done| |done].
    assert (x ∈ loops s /\ running x = true) as [Hin Hx].
    { rewrite !list_elem_of_In. apply List.filter_In. rewrite Ef. by left. }
    apply list_elem_of_split in Hin as (l1 & l2 & E). destruct x as [|n| | |]; [| | |done..].
    + by eapply waiting_takes.
    + eapply taken_after; [by apply (step_done s l1 l2 n)|done..|]. by eapply waiting_takes.
    + eapply taken_after; [by apply (step_clear s l1 l2)|done..|]. by eapply cleared_takes.
  - destruct (H4 Hq) as [?|[Hp|(l & Hin & Hl)]]; [congruence| |].
    + destruct (pending s) as [|k] eqn:Ep; [lia|]. eapply taken_after; [by apply (step_compare s k)|unfold compare_and_start; cbn; by rewrite Es..|].
      by apply started_takes.
    + apply list_elem_of_split in Hin as (l1 & l2 & E). destruct l; [done..| |]; [by eapply cleared_takes|by eapply seen_takes].
Qed.

(** (C37) In every interleaving of handlers that queue history syncs and goroutines that
    download them at most one goroutine downloads, each notification is taken at most
    once and in order, none is lost, and no notification stays in the channel with
    nobody to take it: whatever has ended, panicked or timed out, the first one in the
    channel can be taken by the client's own steps. *)
Theorem history_syncs_taken s : reachable s ->
  (length (List.filter running (loops s)) <= 1)%nat /\ sent s = taken s ++ queue s /\ (length (queue s) <= capacity)%nat /\
  (queue s <> [] -> taken_next s).
Proof.
  intros H%reachable_ok. pose proof (ok_takes s H) as Ht. destruct H as [H1 H2 H3 _]. split; [|done]. rewrite H1. destruct (started s); lia.
Qed.

End notifications.

(** A notification that arrives while the loop is on its way out: the flag is still
    set, so its sender does not start a loop, and the leaving one does. *)
Definition raced : state (N := nat) := mkState [1%nat] true [Ending] 0 [1%nat] [].

Lemma raced_seen : reachable raced.
Proof.
  unfold reachable, raced.
  eapply rtc_l; [eexists; apply (step_send _ 1%nat); cbn; unfold capacity; lia|].
  eapply rtc_l; [eexists; by apply (step_compare _ 0)|].
  eapply rtc_l; [eexists; by apply (step_timeout _ [] [])|]. apply rtc_refl.
Qed.

Lemma history_syncs_taken_witness : reachable raced /\ taken_next raced.
Proof. split; [apply raced_seen|]. apply (history_syncs_taken raced raced_seen). discriminate. Defined.

End historysync.

Module downloading.

Import jid attrs incoming mediaretry.

(** waHistorySync.HistorySync; [G]: the global settings. *)
Record HistorySync {G : Type} := mkSync {
  NctSalt : bytes;
  PhoneNumberToLidMappings : list (string * string);
  PUSH_NAME : bool;                                     (* its type is PUSH_NAME *)
  Pushnames : list (string * string);
  Conversations : list Conversation;
  GlobalSettings : option G;
  CompanionMetaNonce : option string
}.
Arguments HistorySync : clear implicits.

(** What is stored, in order. *)
Inductive storing {G : Type} :=
  | StoreNCTSalt (salt : bytes) | StoreMappings (l : list (string * string)) | StorePushNames (l : list (string * string))
  | StoreSecrets (l : list Conversation) | StoreGlobalSettings (g : G) | StoreNonce (nonce : string).
Arguments storing : clear implicits.

Definition doStorage {G} (h : HistorySync G) : list (storing G) :=
  [StoreNCTSalt (NctSalt h)]
  ++ (match PhoneNumberToLidMappings h with [] => [] | l => [StoreMappings l] end)
  ++ (if PUSH_NAME h then [StorePushNames (Pushnames h)] else match Conversations h with [] => [] | l => [StoreSecrets l] end)
  ++ (match GlobalSettings h with Some g => [StoreGlobalSettings g] | None => [] end)
  ++ (match CompanionMetaNonce h with Some n => [StoreNonce n] | None => [] end).

Record HistorySyncNotification := mkNotification { InitialHistBootstrapInlinePayload : option bytes; DirectPath : string; FileEncSHA256 : bytes; EncHandle : string }.

Inductive download_error := ErrDownload | ErrPrepare | ErrDecompress | ErrUnmarshalSync.

Section downloading.
(** The download of media, the zlib reader (its header, then its contents), and the
    decoder. *)
Context {G W : Type} (Download : HistorySyncNotification -> W -> W * option bytes)
  (zlib_header : bytes -> bool) (zlib_contents : bytes -> option bytes) (unmarshal : bytes -> option (HistorySync G)).

Definition DownloadHistorySync (notif : HistorySyncNotification) : stm W download_error (HistorySync G * list (storing G)) :=
  data ← (match InitialHistBootstrapInlinePayload notif with
          | Some b => mret b
          | None => fun w => let '(w, o) := Download notif w in (w, match o with Some b => Ok b | None => Err ErrDownload end)
          end);
  if negb (zlib_header data) then throw ErrPrepare
  else
    match zlib_contents data with
    | None => throw ErrDecompress
    | Some rawData => match unmarshal rawData with None => throw ErrUnmarshalSync | Some h => mret (h, doStorage h) end
    end.

(** The loop's work on a notification: the event, then the deletion on the server. *)
Inductive work := StartStorage (l : list (storing G)) | DispatchHistorySync (h : HistorySync G) | DeleteMedia (directPath : string) (hash : bytes) (handle : string).

Definition work_on (notif : HistorySyncNotification) (w : W) : W * outcome download_error (list work) :=
  match DownloadHistorySync notif w with
  | (w, Ok (h, l)) => (w, Ok [StartStorage l; DispatchHistorySync h; DeleteMedia (DirectPath notif) (FileEncSHA256 notif) (EncHandle notif)])
  | (w, Err e) => (w, Ok [])
  | (w, Panic) => (w, Panic)
  | (w, NoFuel) => (w, NoFuel)
  end.

(** The media is deleted only after its contents were handed over. *)
Lemma deleted_after_dispatch notif w w' l path hash handle : work_on notif w = (w', Ok l) -> DeleteMedia path hash handle ∈ l ->
  exists h, l = [StartStorage (doStorage h); DispatchHistorySync h; DeleteMedia path hash handle].
Proof.
  unfold work_on. destruct (DownloadHistorySync notif w) as [w1 [[h s]|e| |]] eqn:E; intros [= <- <-] Hin; [|by apply elem_of_nil in Hin].
  rewrite !elem_of_cons, elem_of_nil in Hin. destruct Hin as [?|[?|[[= -> -> ->]|[]]]]; [done..|]. exists h.
  apply stm_bind_inv in E as (w2 & d & _ & E). destruct (negb _); [done|]. destruct (zlib_contents d) as [r|]; [|done].
  destruct (unmarshal r); [|done]. by injection E as _ <- <-.
Qed.

End downloading.

Section receipts.
Context {C : Crypto} {W : Type} (send : Node -> W -> W * bool) (ownJID : JID).

Definition SendHistorySyncServerErrorReceipt (marshal_receipt : string -> option bytes) (random : bytes) (msgID : string) (mediaKey : bytes) :
    stm W media_retry_error unit :=
  '(ciphertext, iv) ← lift (encryptMediaRetryReceipt marshal_receipt random msgID mediaKey);
  let ownID := ToNonAD ownJID in
  if IsEmpty ownID then throw ErrNotLoggedIn
  else fun w =>
    let '(w, ok) := send (mkNode "receipt" [("id", AString msgID); ("type", AString "server-error"); ("to", AJID ownID); ("category", AString "peer")]
      (ANodes [mkNode "encrypt" [] (ANodes [mkNode "enc_p" [] (ABytes ciphertext); mkNode "enc_iv" [] (ABytes iv)])])) w in
    (w, if ok then Ok tt else Err ErrSend).

(** Nothing is sent for an empty id; the recipient is not looked at. *)
Definition SendProtocolMessageReceipt (id msgType : string) : stm W media_retry_error unit := fun w =>
  if String.eqb id "" then (w, Ok tt)
  else
    let '(w, ok) := send (mkNode "receipt" [("id", AString id); ("type", AString msgType); ("to", AJID (ToNonAD ownJID))] ANil) w in
    (w, if ok then Ok tt else Err ErrSend).

End receipts.

End downloading.
