(* ===== verification/ClientPayload.v ===== *)
(** * store/clientpayload.go and update.go: versions and the payload of the handshake

    [version]: version numbers, their texts and the latest one from the website.
    [payload]: the variables of the package and what a device sends in its
    handshake, to register or to log in. *)

From S2P Require Import Prelude GoStrings StateErr Jid Crypto DeviceStore.

#[local] Open Scope string_scope.
#[local] Open Scope list_scope.
#[local] Open Scope Z_scope.

Module version.

(** Three uint32. *)
Record WAVersionContainer := mkVersion { v0 : Z; v1 : Z; v2 : Z }.

#[export] Instance version_eq_dec : EqDecision WAVersionContainer.
Proof. solve_decision. Defined.

Inductive version_error := NotThreeParts | BadPart (i : nat) (e : num_error).

(** A number is cut to 32 bits, whatever its sign and size. *)
Definition ParseVersion (version : string) : outcome version_error WAVersionContainer :=
  match split_on "." version with
  | [a; b; c] =>
      part1 ← map_err (BadPart 1) (atoi a);
      part2 ← map_err (BadPart 2) (atoi b);
      part3 ← map_err (BadPart 3) (atoi c);
      Ok (mkVersion (u32 part1) (u32 part2) (u32 part3))
  | _ => Err NotThreeParts
  end.

Definition LessThan (vc other : WAVersionContainer) : bool :=
  (v0 vc <? v0 other)
  || ((v0 vc =? v0 other) && (v1 vc <? v1 other))
  || ((v0 vc =? v0 other) && (v1 vc =? v1 other) && (v2 vc <? v2 other)).

Definition IsZero (vc : WAVersionContainer) : bool := bool_decide (vc = mkVersion 0 0 0).

Definition String_ (vc : WAVersionContainer) : string := itoa (v0 vc) +:+ "." +:+ itoa (v1 vc) +:+ "." +:+ itoa (v2 vc).

Definition version_ok (vc : WAVersionContainer) : Prop := 0 <= v0 vc < 2 ^ 32 /\ 0 <= v1 vc < 2 ^ 32 /\ 0 <= v2 vc < 2 ^ 32.

(** The text of a version is read back as the version; whatever is read is three
    32-bit numbers; and LessThan is a strict total order, which compares the numbers
    one after the other. *)
Theorem version_roundtrip vc : version_ok vc ->
  ParseVersion (String_ vc) = Ok vc /\
  (forall text vc', ParseVersion text = Ok vc' -> version_ok vc') /\
  (forall x, LessThan x x = false) /\
  (forall x y z, LessThan x y = true -> LessThan y z = true -> LessThan x z = true) /\
  (forall x y, LessThan x y = false -> LessThan y x = false -> x = y).
Proof.
  intros (H0 & H1 & H2).
  assert (forall z, 0 <= z < 2 ^ 32 -> str_contains "." (itoa z) = false) as Hd by (intros; apply itoa_contains; [lia|done]).
  split; [|split; [|split; [|split]]].
  - unfold ParseVersion, String_. change ("." +:+ itoa (v1 vc) +:+ "." +:+ itoa (v2 vc)) with (String "." (itoa (v1 vc) +:+ String "." (itoa (v2 vc)))).
    rewrite split_on_app, split_on_app, split_on_none, !atoi_itoa by (auto || lia). cbn. rewrite !u32_small by done. by destruct vc.
  - intros text vc'. unfold ParseVersion. destruct (split_on "." text) as [|a [|b [|c [|]]]]; try done. intros H.
    apply bind_inv in H as (p1 & _ & H). apply bind_inv in H as (p2 & _ & H). apply bind_inv in H as (p3 & _ & H). injection H as <-.
    repeat split; apply u32_range.
  - intros x. unfold LessThan. rewrite !Z.ltb_irrefl. by rewrite !andb_false_r.
  - intros x y z. unfold LessThan. intros. lia.
  - intros [] []. unfold LessThan. cbn. intros. f_equal; lia.
Qed.

(** Numbers that do not fit are read as others. *)
Lemma version_wraps : ParseVersion "-1.4294967296.4294967298" = Ok (mkVersion 4294967295 0 2).
Proof. reflexivity. Qed.

(** ** The latest version *)

(** The digits at the beginning of a text, and the rest. *)
Fixpoint digits (s : string) : string * string :=
  match s with
  | String a t => match digit a with Some _ => let '(d, rest) := digits t in (String a d, rest) | None => ("", s) end
  | "" => ("", "")
  end.

Fixpoint strip_prefix (p s : string) : option string :=
  match p, s with
  | "", _ => Some s
  | String a p, String b s => if Ascii.eqb a b then strip_prefix p s else None
  | _, _ => None
  end.

(** The byte of a double quote. *)
Definition quote : ascii := Ascii.ascii_of_nat 34.
Definition revision_key : string := String quote ("client_revision" +:+ String quote ":").

(** The first match of the regular expression: the key, digits, a comma. *)
Fixpoint find_revision (s : string) : option string :=
  match (rest ← strip_prefix revision_key s;
         match digits rest with (String a d, String "," _) => Some (String a d) | _ => None end) with
  | Some d => Some d
  | None => match s with "" => None | String _ s => find_revision s end
  end.

Inductive latest_error := ErrRequest | ErrStatus (code : Z) | ErrNotFound | ErrNumber (e : num_error).

(** [response]: the status and body, if the request went well and was read. *)
Definition GetLatestVersion (response : option (Z * string)) : outcome latest_error WAVersionContainer :=
  match response with
  | None => Err ErrRequest
  | Some (code, data) =>
      if negb (code =? 200) then Err (ErrStatus code)
      else
        match find_revision data with
        | None => Err ErrNotFound
        | Some d => z ← map_err ErrNumber (parse_int d); Ok (mkVersion 2 3000 (u32 z))
        end
  end.

Lemma latest_version_sample : GetLatestVersion (Some (200, "x" +:+ revision_key +:+ "no," +:+ revision_key +:+ "1045649367,y")) = Ok (mkVersion 2 3000 1045649367).
Proof. reflexivity. Qed.

Lemma version_roundtrip_witness : version_ok (mkVersion 2 3000 1045649367) /\ ParseVersion (String_ (mkVersion 2 3000 1045649367)) = Ok (mkVersion 2 3000 1045649367).
Proof.
  assert (version_ok (mkVersion 2 3000 1045649367)) as H by (repeat split; cbn; lia). split; [exact H|].
  exact (proj1 (version_roundtrip (mkVersion 2 3000 1045649367) H)).
Defined.

End version.

Module payload.

Import jid crypto devicestore version.

(** The fields of the generated types that the code sets. *)
Record UserAgent := mkUserAgent { AppVersion : WAVersionContainer; OsVersion : string; OsBuildNumber : string }.

Record DevicePairingRegistrationData := mkRegistration {
  ERegid : bytes; EKeytype : bytes; EIdent : bytes; ESkeyID : bytes; ESkeyVal : bytes; ESkeySig : bytes; BuildHash : bytes; DeviceProps_ : bytes
}.

Record ClientPayload := mkPayload {
  UserAgent_ : UserAgent;
  Username : option Z; Device_ : option Z; Passive : option bool; Pull : option bool; LidDbMigrated : option bool; Lc : option Z;
  DevicePairingData : option DevicePairingRegistrationData
}.

Record DeviceProps := mkProps { Os : string; PropsVersion : WAVersionContainer }.

(** The package's variables. *)
Record globals := mkGlobals { waVersion : WAVersionContainer; waVersionHash : bytes; BaseClientPayload : ClientPayload; deviceProps : DeviceProps }.

Section payload.
(** MD5, and the encoding of the device's properties, of which nothing is sent when it
    fails. *)
Context {C : Crypto} (md5 : bytes -> bytes) (marshal_props : DeviceProps -> option bytes).

Definition Hash (vc : WAVersionContainer) : bytes := md5 (str_bytes (version.String_ vc)).

Definition base (v : WAVersionContainer) : ClientPayload :=
  mkPayload (mkUserAgent v "0.1" "0.1") None None None None None None None.

Definition initial : globals :=
  let v := mkVersion 2 3000 1045649367 in
  mkGlobals v (Hash v) (base v) (mkProps "whatsmeow" (mkVersion 0 1 0)).

Definition with_agent (a : UserAgent) (p : ClientPayload) : ClientPayload :=
  mkPayload a (Username p) (Device_ p) (Passive p) (Pull p) (LidDbMigrated p) (Lc p) (DevicePairingData p).

Definition SetWAVersion (v : WAVersionContainer) (g : globals) : globals :=
  if IsZero v then g
  else
    let a := UserAgent_ (BaseClientPayload g) in
    mkGlobals v (Hash v) (with_agent (mkUserAgent v (OsVersion a) (OsBuildNumber a)) (BaseClientPayload g)) (deviceProps g).

(** The version of the system is not that of WhatsApp. *)
Definition SetOSInfo (name : string) (v : WAVersionContainer) (g : globals) : globals :=
  let a := UserAgent_ (BaseClientPayload g) in
  let text := version.String_ v in
  mkGlobals (waVersion g) (waVersionHash g) (with_agent (mkUserAgent (AppVersion a) text text) (BaseClientPayload g)) (mkProps name v).

Definition DjbType : byte := x05.

(** A nil signature panics, as do nil keys. *)
Definition getRegistrationPayload (g : globals) (d : Device) : outcome unit ClientPayload :=
  match Signature (SignedPreKey d) with
  | None => Panic
  | Some signature =>
      let p := BaseClientPayload g in
      Ok (mkPayload (UserAgent_ p) (Username p) (Device_ p) (Some false) (Some false) (LidDbMigrated p) (Lc p)
        (Some (mkRegistration (PutUint32 (RegistrationID d)) [DjbType] (Pub (IdentityKey d)) (tail (PutUint32 (KeyID (SignedPreKey d))))
                 (Pub (PreKeyPair (SignedPreKey d))) signature (waVersionHash g) (default [] (marshal_props (deviceProps g))))))
  end.

Definition getLoginPayload (g : globals) (j : JID) : ClientPayload :=
  let p := BaseClientPayload g in
  mkPayload (UserAgent_ p) (Some (UserInt j)) (Some (u32 (jid.Device j))) (Some true) (Some true) (Some true)
    (Some (default 1 (Lc p))) (DevicePairingData p).

Definition GetClientPayload (g : globals) (d : Device) : outcome unit ClientPayload :=
  match ID d with
  | Some j => if bool_decide (j = EmptyJID) then Panic else Ok (getLoginPayload g j)
  | None => getRegistrationPayload g d
  end.

(** ** Versions agree *)

Inductive change := WAVersion (v : WAVersionContainer) | OSInfo (name : string) (v : WAVersionContainer).

Definition apply_change (c : change) (g : globals) : globals :=
  match c with WAVersion v => SetWAVersion v g | OSInfo name v => SetOSInfo name v g end.

Definition coherent (g : globals) : Prop :=
  waVersionHash g = Hash (waVersion g) /\ AppVersion (UserAgent_ (BaseClientPayload g)) = waVersion g /\ IsZero (waVersion g) = false /\
  Lc (BaseClientPayload g) = None /\ DevicePairingData (BaseClientPayload g) = None.

Lemma changes_coherent l : coherent (foldl (fun g c => apply_change c g) initial l).
Proof.
  assert (forall g, coherent g -> coherent (foldl (fun g c => apply_change c g) g l)) as H.
  { induction l as [|c l IH]; intros g Hg; [done|]. cbn [foldl]. apply IH. destruct Hg as (H1 & H2 & H3 & H4 & H5).
    destruct c as [v|name v]; cbn [apply_change]; [unfold SetWAVersion; destruct (IsZero v) eqn:E|]; done. }
  apply H. done.
Qed.

(** After any changes of the versions a new device registers with the hash of the
    version that its user agent names, and with its own registration id, identity key
    and signed prekey; a paired one logs in under its number and device and with no
    registration; an empty identifier panics. *)
Theorem payload_of_device l d : let g := foldl (fun g c => apply_change c g) initial l in
  match GetClientPayload g d with
  | Ok p =>
      AppVersion (UserAgent_ p) = waVersion g /\
      match ID d with
      | None => exists r, DevicePairingData p = Some r /\ BuildHash r = Hash (AppVersion (UserAgent_ p)) /\ EIdent r = Pub (IdentityKey d) /\
          (0 <= RegistrationID d < 2 ^ 32 -> BigEndian_Uint32 (ERegid r) = RegistrationID d) /\
          (0 <= KeyID (SignedPreKey d) < 2 ^ 24 -> BigEndian_Uint32 (x00 :: ESkeyID r) = KeyID (SignedPreKey d)) /\
          Some (ESkeySig r) = Signature (SignedPreKey d) /\ Passive p = Some false
      | Some j => Username p = Some (UserInt j) /\ DevicePairingData p = None /\ Passive p = Some true /\ Pull p = Some true
      end
  | Panic => ID d = Some EmptyJID \/ ID d = None /\ Signature (SignedPreKey d) = None
  | _ => False
  end.
Proof.
  intros g. assert (coherent g) as (H1 & H2 & _ & H4 & H5) by apply changes_coherent. clearbody g. unfold GetClientPayload.
  destruct (ID d) as [j|].
  - case_bool_decide as E; [left; by rewrite E|]. cbn. split; [done|]. done.
  - unfold getRegistrationPayload. destruct (Signature (SignedPreKey d)) as [s|] eqn:Es; [|by right]. split; [done|].
    eexists. split; [reflexivity|]. cbn [UserAgent_ BuildHash EIdent ERegid ESkeyID ESkeySig Passive]. rewrite H1, H2.
    split; [done|]. split; [done|]. split; [apply Uint32_Put|]. split; [|done]. intros Hk. rewrite Uint32_tail. by apply Z.mod_small.
Qed.

End payload.

End payload.
