(* ===== verification/SignalStore.v ===== *)
(** * store/signal.go: the stores as libsignal sees them

    [signalstore]: a device's keys and stores behind the methods that libsignal calls,
    and what it relies on, as laws of a class. Sessions, with their cache, are in
    Sessions.v. *)

From S2P Require Import Prelude GoStrings StateErr Jid Crypto Sql PreKeys Sessions DeviceStore.

#[local] Open Scope string_scope.
#[local] Open Scope list_scope.
#[local] Open Scope Z_scope.

(** A store of records by key: one for which nothing is stored reads as [ks_new]; reading
    what was stored gives it, and storing changes nothing else and does not fail on a
    database that works. *)
Class KeyedStore {S E K V : Type} := {
  ks_load : K -> stm S E V;
  ks_store : K -> V -> stm S E unit;
  ks_works : S -> Prop;
  ks_content : S -> K -> option V;
  ks_new : V;
  ks_storable : V -> Prop
}.
Arguments KeyedStore : clear implicits.

Class KeyedStoreLaws {S E K V} `{EqDecision K} (T : KeyedStore S E K V) : Prop := {
  load_reads s k : ks_works s -> (forall v, ks_content s k = Some v -> ks_storable v) ->
    exists s', ks_load k s = (s', Ok (default ks_new (ks_content s k))) /\ ks_works s' /\ forall k', ks_content s' k' = ks_content s k';
  store_writes s k v : ks_works s -> ks_storable v ->
    exists s', ks_store k v s = (s', Ok tt) /\ ks_works s' /\ forall k', ks_content s' k' = if decide (k' = k) then Some v else ks_content s k'
}.

(** What follows for every such store: a record that is stored, and others after it, is
    loaded again unless it is replaced. *)
Section keyed.
Context {S E K V : Type} `{EqDecision K} (T : KeyedStore S E K V) {L : KeyedStoreLaws T}.

Fixpoint store_all (l : list (K * V)) : stm S E unit :=
  match l with [] => mret tt | (k, v) :: l => ks_store k v;; store_all l end.

(** The last record stored under a key. *)
Definition last_of (k : K) (l : list (K * V)) : option V :=
  foldl (fun acc x => if decide (k = fst x) then Some (snd x) else acc) None l.

Lemma last_of_cons k x l : last_of k (x :: l) = match last_of k l with Some v => Some v | None => if decide (k = fst x) then Some (snd x) else None end.
Proof.
  unfold last_of. cbn [foldl]. generalize (if decide (k = fst x) then Some (snd x) else None) as acc. induction l as [|y l IH]; intros acc; cbn [foldl]; [by destruct acc|].
  rewrite IH. destruct (decide (k = fst y)); [|done]. rewrite (IH (Some (snd y))). by destruct (foldl _ None l).
Qed.

Lemma store_all_content l s : ks_works s -> Forall (fun x => ks_storable (snd x)) l ->
  exists s', store_all l s = (s', Ok tt) /\ ks_works s' /\ forall k, ks_content s' k = match last_of k l with Some v => Some v | None => ks_content s k end.
Proof.
  revert s. induction l as [|[k v] l IH]; intros s Hw Hl; [by exists s|]. apply Forall_cons in Hl as [Hv Hl].
  destruct (store_writes s k v Hw Hv) as (s1 & E1 & Hw1 & Hc1). destruct (IH s1 Hw1 Hl) as (s2 & E2 & Hw2 & Hc2).
  exists s2. cbn [store_all]. rewrite (stm_bind_ok _ _ _ _ _ E1). split; [done|]. split; [done|]. intros k'. rewrite Hc2, Hc1, last_of_cons. cbn [fst snd].
  destruct (last_of k' l); [done|]. by destruct (decide (k' = k)).
Qed.

Lemma stored_loads l k s : ks_works s -> Forall (fun x => ks_storable (snd x)) l -> (forall v, ks_content s k = Some v -> ks_storable v) ->
  snd ((store_all l;; ks_load k) s) = Ok (default ks_new (match last_of k l with Some v => Some v | None => ks_content s k end)).
Proof.
  intros Hw Hl Hk. destruct (store_all_content l s Hw Hl) as (s1 & E1 & Hw1 & Hc1). rewrite (stm_bind_ok _ _ _ _ _ E1).
  destruct (load_reads s1 k Hw1) as (s2 & E2 & _); [|by rewrite E2, Hc1]. intros v. rewrite Hc1. destruct (last_of k l) as [w|] eqn:Ew; [|apply Hk].
  intros [= <-]. revert Ew. clear -Hl. induction Hl as [|x l Hx Hl IH]; [done|]. rewrite last_of_cons. destruct (last_of k l); [auto|].
  destruct (decide _); [|done]. by intros [= <-].
Qed.

End keyed.

Module signalstore.

Import jid crypto sql sessions devicestore.

Inductive signal_store_error := ErrSaveIdentity (e : sql_error) | ErrCheckIdentity (e : sql_error) | ErrStoreSenderKey (e : sql_error)
  | ErrLoadSenderKey (e : sql_error) | ErrDeserializeSenderKey | ErrLoadPreKey (e : sql_error) | ErrRemovePreKey (e : sql_error) | ErrCheckSession (e : sql_error).

Notation op A := (stm signal_store signal_store_error A).

(** ** The device's own keys *)

Definition GetIdentityKeyPair (d : Device) : bytes * bytes := (Pub (IdentityKey d), Priv (IdentityKey d)).
Definition GetLocalRegistrationID (d : Device) : Z := RegistrationID d.

(** Only the current one; its public key, private key and signature. A nil signature
    panics. *)
Definition LoadSignedPreKey (d : Device) (signedPreKeyID : Z) : outcome unit (option (Z * bytes * bytes * bytes)) :=
  let k := SignedPreKey d in
  if signedPreKeyID =? KeyID k then
    match Signature k with
    | Some s => Ok (Some (signedPreKeyID, Pub (PreKeyPair k), Priv (PreKeyPair k), s))
    | None => Panic
    end
  else Ok None.

(** ** Prekeys *)

Section prekeys.
Context {C : Crypto}.

Definition LoadPreKey (id : Z) : stm prekeystore.prekey_db signal_store_error (option (Z * bytes * bytes)) :=
  k ← wrap ErrLoadPreKey (prekeystore.GetPreKey id);
  mret ((fun k => (KeyID k, Pub (PreKeyPair k), Priv (PreKeyPair k))) <$> k).

Definition RemovePreKey (id : Z) : stm prekeystore.prekey_db signal_store_error unit := wrap ErrRemovePreKey (prekeystore.RemovePreKey id).

End prekeys.

(** ** Identities and sessions *)

Definition SaveIdentity (address : string) (key : bytes) : op unit := wrap ErrSaveIdentity (PutIdentity address key).
Definition IsTrustedIdentity (address : string) (key : bytes) : op bool := wrap ErrCheckIdentity (sessions.IsTrustedIdentity address key).
Definition ContainsSession (address : string) : op bool := wrap ErrCheckSession (HasSession address).

(** ** Sender keys *)

(** libsignal's records with their encoding, and the empty record. *)
Section senderkeys.
Context {R : Type} (Serialize : R -> bytes) (NewSenderKeyFromBytes : bytes -> option R) (NewSenderKey : R).

Definition StoreSenderKey (groupID sender : string) (record : R) : op unit :=
  wrap ErrStoreSenderKey (PutSenderKey groupID sender (Serialize record)).

Definition LoadSenderKey (groupID sender : string) : op R :=
  raw ← wrap ErrLoadSenderKey (GetSenderKey groupID sender);
  match raw with
  | None => mret NewSenderKey
  | Some b => match NewSenderKeyFromBytes b with Some r => mret r | None => throw ErrDeserializeSenderKey end
  end.

(** A record is kept when its encoding is read back. *)
#[export] Instance sender_keys_store : KeyedStore signal_store signal_store_error (string * string) R := {|
  ks_load k := LoadSenderKey (fst k) (snd k);
  ks_store k r := StoreSenderKey (fst k) (snd k) r;
  ks_works s := works s /\ forall k b, sender_keys (rows s) !! k = Some b -> is_Some (NewSenderKeyFromBytes b);
  ks_content s k := b ← sender_keys (rows s) !! k; NewSenderKeyFromBytes b;
  ks_new := NewSenderKey;
  ks_storable r := NewSenderKeyFromBytes (Serialize r) = Some r
|}.

Lemma PutSenderKey_works g u b s : works s ->
  PutSenderKey g u b s = (set_rows (set_sender_keys (<[(g, u) := b]> (sender_keys (rows s))) (rows s)) s, Ok tt).
Proof. intros Hw. unfold PutSenderKey. by rewrite update_works. Qed.

Lemma GetSenderKey_works g u s : works s -> GetSenderKey g u s = (s, Ok (sender_keys (rows s) !! (g, u))).
Proof. intros Hw. unfold GetSenderKey. by rewrite query_works. Qed.

#[export] Instance sender_keys_laws : KeyedStoreLaws sender_keys_store.
Proof.
  constructor.
  - intros s [g u] [Hw Hb] _. exists s. split; [|done]. cbn [ks_load ks_content ks_new sender_keys_store fst snd]. unfold LoadSenderKey.
    rewrite (stm_bind_ok _ _ _ _ _ (wrap_ok ErrLoadSenderKey _ _ _ _ (GetSenderKey_works g u s Hw))).
    destruct (sender_keys (rows s) !! (g, u)) as [b|] eqn:E; [|done]. destruct (Hb _ _ E) as [r Hr]. cbn. by rewrite Hr.
  - intros s [g u] r [Hw Hb] Hr. eexists. split; [cbn; unfold StoreSenderKey; apply wrap_ok; by apply PutSenderKey_works|]. split.
    + split; [done|]. intros k b. cbn [rows set_rows sender_keys set_sender_keys]. destruct (decide (k = (g, u))) as [->|Hk].
      * rewrite lookup_insert_eq. intros [= <-]. rewrite Hr. by eexists.
      * rewrite lookup_insert_ne by done. apply Hb.
    + intros k. cbn [ks_content sender_keys_store rows set_rows sender_keys set_sender_keys]. destruct (decide (k = (g, u))) as [->|Hk].
      * by rewrite lookup_insert_eq.
      * by rewrite lookup_insert_ne by done.
Qed.

(** The sender keys of groups are a store of records by group and sender: after any
    sequence of records was stored, what is loaded for a member of a group is the last
    record stored for it, or what was there before, or the empty record. *)
Theorem sender_keys_loaded l k s : works s -> Forall (fun x => NewSenderKeyFromBytes (Serialize (snd x)) = Some (snd x)) l ->
  (forall k' b, sender_keys (rows s) !! k' = Some b -> exists r, NewSenderKeyFromBytes b = Some r /\ NewSenderKeyFromBytes (Serialize r) = Some r) ->
  snd ((store_all sender_keys_store l;; LoadSenderKey (fst k) (snd k)) s) =
    Ok (default NewSenderKey (match last_of k l with Some r => Some r | None => b ← sender_keys (rows s) !! k; NewSenderKeyFromBytes b end)).
Proof.
  intros Hw Hl Hs. apply (stored_loads sender_keys_store l k s); [split; [done|]|done|].
  - intros k' b Hb. destruct (Hs _ _ Hb) as (r & Hr & _). by eexists.
  - intros r. cbn. destruct (sender_keys (rows s) !! k) as [b|] eqn:E; [|done]. destruct (Hs _ _ E) as (r' & Hr & Hr'). cbn. rewrite Hr. by intros [= <-].
Qed.

End senderkeys.

(** ** Identities *)

(** What libsignal relies on for identities: a first key is trusted, a stored one and
    no other after it, and other addresses keep theirs. *)
Theorem identities_trusted address key s : works s -> blen key = 32 ->
  (identity_keys (rows s) !! address = None -> forall k, snd (IsTrustedIdentity address k s) = Ok true) /\
  exists s', SaveIdentity address key s = (s', Ok tt) /\
    (forall k, snd (IsTrustedIdentity address k s') = Ok (bool_decide (key = k))) /\
    (forall a k, a <> address -> snd (IsTrustedIdentity a k s') = snd (IsTrustedIdentity a k s)).
Proof.
  intros Hw Hk.
  assert (forall a k st, works st -> snd (IsTrustedIdentity a k st) =
    match identity_keys (rows st) !! a with
    | None => Ok true
    | Some e => if blen e =? 32 then Ok (bool_decide (e = k)) else Err (ErrCheckIdentity ErrInvalidLength)
    end) as Hread.
  { intros a k st Hst. unfold IsTrustedIdentity, sessions.IsTrustedIdentity, wrap. rewrite (stm_bind_ok _ _ _ _ _ (query_works _ st Hst)).
    destruct (identity_keys (rows st) !! a) as [e|]; [|done]. by destruct (blen e =? 32). }
  split; [intros Hn k; by rewrite Hread, Hn|]. eexists. split; [unfold SaveIdentity, PutIdentity; apply wrap_ok; by apply update_works|]. split.
  - intros k. rewrite Hread by done. cbn [rows set_rows identity_keys set_identity_keys]. by rewrite lookup_insert_eq, Hk.
  - intros a k Ha. rewrite !Hread by done. cbn [rows set_rows identity_keys set_identity_keys]. by rewrite lookup_insert_ne by done.
Qed.

(** A store with one sender key, and records that are bytes. *)
Definition one_sender : signal_store := mkDb (mkTables ∅ ∅ {[("g", "1000:1") := [x07]]}) ∅ [].

Lemma sender_keys_loaded_witness : works one_sender /\
  snd ((store_all (sender_keys_store (fun b => b) (fun b => Some b) []) [(("g", "2000:0"), [x01]); (("g", "2000:0"), [x02])];;
        LoadSenderKey (fun b => Some b) [] "g" "2000:0") one_sender) = Ok [x02].
Proof.
  assert (works one_sender) as Hw by done. split; [exact Hw|].
  refine (sender_keys_loaded (fun b => b) (fun b => Some b) [] [(("g", "2000:0"), [x01]); (("g", "2000:0"), [x02])] ("g", "2000:0") one_sender Hw _ _).
  - repeat constructor.
  - intros k b _. by exists b.
Defined.

End signalstore.
