(* ===== verification/NodeText.v ===== *)
(** * xml.go, node.go, errors.go: nodes as text and as JSON, and the errors of queries

    [xml]: the text of a node, used in logs and to compare errors. [json]: reading a
    node back from JSON. [iqerrors]: the errors of info queries and [errors.Is]. *)

From S2P Require Import Prelude GoStrings Jid Node Requests Groups.
From stdpp Require Import sorting.

#[local] Open Scope string_scope.
#[local] Open Scope list_scope.
#[local] Open Scope Z_scope.

Module utf8.

(** The code points of UTF-8 text; [None]: the text is not valid. *)
Fixpoint runes (b : bytes) : option (list Z) :=
  let continues x := (128 <=? b2z x) && (b2z x <? 192) in
  match b with
  | [] => Some []
  | x :: b =>
      if b2z x <? 128 then cons (b2z x) <$> runes b
      else
        match b with
        | y :: b =>
            if negb (continues y) then None
            else if (194 <=? b2z x) && (b2z x <? 224) then cons ((b2z x - 192) * 64 + (b2z y - 128)) <$> runes b
            else
              match b with
              | z :: b =>
                  let r := ((b2z x - 224) * 64 + (b2z y - 128)) * 64 + (b2z z - 128) in
                  if negb (continues z) then None
                  else if (224 <=? b2z x) && (b2z x <? 240) then
                    if (r <? 2048) || ((55296 <=? r) && (r <? 57344)) then None else cons r <$> runes b
                  else
                    match b with
                    | w :: b =>
                        let r := (((b2z x - 240) * 64 + (b2z y - 128)) * 64 + (b2z z - 128)) * 64 + (b2z w - 128) in
                        if continues w && (240 <=? b2z x) && (65536 <=? r) && (r <? 1114112) then cons r <$> runes b else None
                    | [] => None
                    end
              | [] => None
              end
        | [] => None
        end
  end.

End utf8.

Module xml.

Import jid.

Section xml.
(** The globals IndentXML and MaxBytesToPrintAsHex; whether a code point above 127 is
    printable; values and contents of other types. *)
Context (IndentXML : bool) (MaxBytesToPrintAsHex : Z) (IsPrint_other : Z -> bool) (other : string).

Definition newline : ascii := Ascii.ascii_of_nat 10.
Definition quote : ascii := Ascii.ascii_of_nat 34.

Definition IsPrint (r : Z) : bool := if r <? 128 then (32 <=? r) && (r <? 127) else IsPrint_other r.

Definition printable (data : bytes) : string :=
  match utf8.runes data with
  | Some l => if forallb IsPrint l then bytes_str data else ""
  | None => ""
  end.

Fixpoint escape_newlines (s : string) : string :=
  match s with
  | EmptyString => ""
  | String a s => if Ascii.eqb a newline then "\n" +:+ escape_newlines s else String a (escape_newlines s)
  end.

Definition hex_digits : string := "0123456789abcdef".
Definition hex_digit (n : Z) : string := String.substring (Z.to_nat n) 1 hex_digits.
Fixpoint EncodeToString (b : bytes) : string :=
  match b with [] => "" | x :: b => hex_digit (Z.shiftr (b2z x) 4) +:+ hex_digit (Z.land (b2z x) 15) +:+ EncodeToString b end.

(** Text in lines of 80 characters. *)
Fixpoint chunks (fuel : nat) (s : string) : list string :=
  match fuel with
  | O => []
  | S fuel =>
      if String.eqb s "" then []
      else if (String.length s <? 80)%nat then [s]
      else String.substring 0 80 s :: chunks fuel (String.substring 80 (String.length s - 80) s)
  end.

Definition text_lines (s : string) : list string := if IndentXML then split_on newline s else [escape_newlines s].

Definition bytes_text (b : bytes) : list string :=
  let text := printable b in
  if negb (String.eqb text "") then text_lines (bytes_str b)
  else if MaxBytesToPrintAsHex <? blen b then ["<!-- " +:+ itoa (blen b) +:+ " bytes -->"]
  else if negb IndentXML then [EncodeToString b]
  else chunks (String.length (EncodeToString b)) (EncodeToString b).

(** [Printf]'s [%s] of a value that is not a string. *)
Definition wrong_verb (type value : string) : string := "%!s(" +:+ type +:+ "=" +:+ value +:+ ")".

Definition indent (l : list string) : list string :=
  match l with _ :: _ :: _ => if IndentXML then map (fun line => "  " +:+ line) l else l | _ => l end.

Definition join_attributes (l : list string) : string :=
  match l with [] => "" | _ => String.concat " " (merge_sort String.le ("" :: l)) end.

Definition element (tag attributes : string) (content : list string) : string :=
  match content with
  | [] => "<" +:+ tag +:+ attributes +:+ "/>"
  | _ =>
      let nl := match content with [_] => "" | _ => if IndentXML then String newline "" else "" end in
      "<" +:+ tag +:+ attributes +:+ ">" +:+ nl +:+ String.concat nl content +:+ nl +:+ "</" +:+ tag +:+ ">"
  end.

(** An attribute value ([%v]), the content of a node, and a node. *)
Fixpoint value_text (v : any) : string :=
  match v with
  | ANil => "<nil>"
  | AString s => s
  | AJID j => String_ j
  | AInt z | AInt32 z | AUint z | AUint32 z | AInt64 z | AUint64 z => itoa z
  | ABool b => format_bool b
  | ABytes b => "[" +:+ String.concat " " (map (fun x => itoa (b2z x)) b) +:+ "]"
  | ANodes l => "[" +:+ String.concat " " ((fix texts (l : list Node) := match l with [] => [] | n :: l => node_text n :: texts l end) l) +:+ "]"
  | AOther => other
  end
with contentString (v : any) : list string :=
  match v with
  | ANil => []
  | AString s => indent (text_lines s)
  | AJID j => indent (text_lines (String_ j))
  | AInt z => indent (text_lines (wrong_verb "int" (itoa z)))
  | AInt32 z => indent (text_lines (wrong_verb "int32" (itoa z)))
  | AUint z => indent (text_lines (wrong_verb "uint" (itoa z)))
  | AUint32 z => indent (text_lines (wrong_verb "uint32" (itoa z)))
  | AInt64 z => indent (text_lines (wrong_verb "int64" (itoa z)))
  | AUint64 z => indent (text_lines (wrong_verb "uint64" (itoa z)))
  | ABool b => indent (text_lines (wrong_verb "bool" (format_bool b)))
  | ABytes b => indent (bytes_text b)
  | ANodes l => indent ((fix lines (l : list Node) := match l with [] => [] | n :: l => split_on newline (node_text n) ++ lines l end) l)
  | AOther => indent (text_lines other)
  end
with node_text (n : Node) : string :=
  match n with
  | mkNode tag attributes content =>
      element tag
        (join_attributes ((fix texts (l : Attrs) :=
           match l with [] => [] | (key, v) :: l => (key +:+ "=" +:+ String quote (value_text v +:+ String quote "")) :: texts l end) attributes))
        (contentString content)
  end.

Definition attribute_texts (l : Attrs) : list string :=
  map (fun kv => fst kv +:+ "=" +:+ String quote (value_text (snd kv) +:+ String quote "")) l.

Lemma node_text_eq tag attributes content :
  node_text (mkNode tag attributes content) = element tag (join_attributes (attribute_texts attributes)) (contentString content).
Proof.
  cbn [node_text]. do 2 f_equal. induction attributes as [|[k v] l IH]; [done|]. unfold attribute_texts. cbn [map fst snd]. by rewrite IH.
Qed.

(** ** The order of attributes *)

(** Nodes that differ in the order in which their attribute maps are visited. *)
Inductive reordered : Node -> Node -> Prop :=
  | reordered_node tag a a' c c' : Permutation a a' -> reordered_content c c' -> reordered (mkNode tag a c) (mkNode tag a' c')
with reordered_content : any -> any -> Prop :=
  | reordered_same v : reordered_content v v
  | reordered_nodes l l' : reordered_list l l' -> reordered_content (ANodes l) (ANodes l')
with reordered_list : list Node -> list Node -> Prop :=
  | reordered_nil : reordered_list [] []
  | reordered_cons n n' l l' : reordered n n' -> reordered_list l l' -> reordered_list (n :: l) (n' :: l').

Scheme reordered_mut := Minimality for reordered Sort Prop
  with reordered_content_mut := Minimality for reordered_content Sort Prop
  with reordered_list_mut := Minimality for reordered_list Sort Prop.

Lemma sorted_texts (l k : list string) : Permutation l k -> merge_sort String.le l = merge_sort String.le k.
Proof. intros H. apply (Sorted_unique String.le); [apply Sorted_merge_sort; apply _..|]. by rewrite !merge_sort_Permutation. Qed.

Lemma join_attributes_order l k : Permutation l k -> join_attributes l = join_attributes k.
Proof.
  intros H. unfold join_attributes. destruct l as [|x l], k as [|y k]; [done|by apply Permutation_nil_l in H|by apply symmetry, Permutation_nil_l in H|].
  f_equal. by apply sorted_texts, Permutation_skip.
Qed.

(** The text of a node does not depend on the order in which the maps of its and its
    descendants' attributes are visited. *)
Theorem node_text_order n n' : reordered n n' -> node_text n = node_text n'.
Proof.
  revert n n'. apply (reordered_mut (fun n n' => node_text n = node_text n') (fun v v' => contentString v = contentString v')
    (fun l l' => contentString (ANodes l) = contentString (ANodes l') /\
       flat_map (fun n => split_on newline (node_text n)) l = flat_map (fun n => split_on newline (node_text n)) l')); [|done| |done|].
  - intros tag a a' c c' Hp _ Hc. rewrite !node_text_eq, Hc. f_equal. apply join_attributes_order. by apply Permutation_map.
  - by intros l l' _ [H _].
  - intros n n' l l' _ Hn _ [_ Hl]. assert (flat_map (fun n => split_on newline (node_text n)) (n :: l) = flat_map (fun n => split_on newline (node_text n)) (n' :: l')) as E by (cbn [flat_map]; by rewrite Hn, Hl).
    split; [|done]. cbn [contentString]. f_equal.
    assert (forall l, (fix lines (l : list Node) : list string := match l with [] => [] | n :: l => split_on newline (node_text n) ++ lines l end) l
      = flat_map (fun n => split_on newline (node_text n)) l) as R by (intros k; induction k as [|m k IH]; [done|cbn [flat_map]; by rewrite IH]).
    by rewrite (R (n :: l)), (R (n' :: l')).
Qed.

End xml.

(** Values are not escaped: different nodes can have the same text. *)
Lemma text_not_escaped : exists n n', n <> n' /\
  forall pr o, node_text false 128 pr o n = node_text false 128 pr o n' /\ node_text true 128 pr o n = node_text true 128 pr o n'.
Proof.
  exists (mkNode "a" [("k", AString ("1" +:+ String quote (" l=" +:+ String quote "2")))] ANil), (mkNode "a" [("k", AString "1"); ("l", AString "2")] ANil).
  split; [discriminate|]. intros pr o. rewrite !node_text_eq. cbn -[merge_sort String.append].
  split; vm_compute; reflexivity.
Qed.

End xml.

Module json.

Import jid.

(** What encoding/json makes of a text. A number is the integer Go's conversion of
    the parsed float gives. *)
Inductive json :=
  | JNull | JBool (b : bool) | JNumber (z : Z) | JString (s : string) | JArray (l : list json) | JObject (l : list (string * json)).

Inductive json_error := ErrType | ErrContent | ErrBase64.

Section json.
(** Strings and integers after encoding and decoding (invalid UTF-8 is replaced, large
    integers are rounded), and base64's decoder. *)
Context (through_text : string -> string) (through_float : Z -> Z) (decode_base64 : string -> option bytes).

Fixpoint field (k : string) (l : list (string * json)) : option json :=
  match l with [] => None | (k', v) :: l => if String.eqb k' k then Some v else field k l end.

(** An attribute. Go's [&&] binds tighter than [||]: only users' addresses have to
    parse without an error. *)
Definition attr_of_json (v : json) : any :=
  match v with
  | JString s =>
      let '(ok, parsed) := match ParseJID s with Ok j => (true, j) | Err (_, j) => (false, j) | _ => (false, EmptyJID) end in
      if (ok && bool_decide (Server parsed = DefaultUserServer)) || bool_decide (Server parsed = NewsletterServer)
         || bool_decide (Server parsed = GroupServer) || bool_decide (Server parsed = BroadcastServer)
      then AJID parsed else AString s
  | JNumber z => AInt64 z
  | JNull => ANil
  | JBool b => ABool b
  | JArray _ | JObject _ => AOther
  end.

Definition tag_of_json (v : option json) : outcome json_error string :=
  match v with Some (JString s) => Ok s | None | Some JNull => Ok "" | _ => Err ErrType end.

Definition attrs_of_json (v : option json) : outcome json_error Attrs :=
  match v with
  | Some (JObject l) => Ok (map (fun kv => (fst kv, attr_of_json (snd kv))) l)
  | None | Some JNull => Ok []
  | _ => Err ErrType
  end.

Definition as_object (v : json) : outcome json_error (list (string * json)) :=
  match v with JObject l => Ok l | JNull => Ok [] | _ => Err ErrType end.

(** The content is the raw text of the field: [null], too, is there. *)
Fixpoint UnmarshalJSON (v : json) : outcome json_error Node :=
  fields ← as_object v;
  tag ← tag_of_json (field "Tag" fields);
  attributes ← attrs_of_json (field "Attrs" fields);
  content ← (match v with
             | JObject l =>
                 (fix find (l : list (string * json)) : outcome json_error any :=
                    match l with
                    | [] => Ok ANil
                    | (k, c) :: l =>
                        if String.eqb k "Content" then
                          match c with
                          | JArray nodes =>
                              children ← (fix all (l : list json) : outcome json_error (list Node) :=
                                            match l with [] => Ok [] | c :: l => n ← UnmarshalJSON c; ns ← all l; Ok (n :: ns) end) nodes;
                              Ok (ANodes children)
                          | JString s => match decode_base64 s with Some b => Ok (ABytes b) | None => Err ErrBase64 end
                          | _ => Err ErrContent
                          end
                        else find l
                    end) l
             | _ => Ok ANil
             end);
  Ok (mkNode tag attributes content).

(** Go's encoding of a node. *)
Fixpoint to_json (v : any) : json :=
  match v with
  | ANil => JNull
  | AString s => JString (through_text s)
  | AJID j => JString (through_text (String_ j))
  | AInt z | AInt32 z | AUint z | AUint32 z | AInt64 z | AUint64 z => JNumber (through_float z)
  | ABool b => JBool b
  | ABytes b => JString (StdEncoding b)
  | ANodes l => JArray ((fix all (l : list Node) := match l with [] => [] | n :: l => node_to_json n :: all l end) l)
  | AOther => JNull
  end
with node_to_json (n : Node) : json :=
  match n with
  | mkNode tag attributes content =>
      JObject [("Tag", JString (through_text tag));
               ("Attrs", JObject ((fix all (l : Attrs) := match l with [] => [] | (k, v) :: l => (through_text k, to_json v) :: all l end) attributes));
               ("Content", to_json content)]
  end.

(** ** Nodes that survive *)

Definition text_ok (s : string) : Prop := through_text s = s.

(** An attribute that is read back: a string that is not taken for an address, an
    address of the servers that are recognised, a 64-bit integer floats hold, a truth
    value, nothing. *)
Definition attr_ok (v : any) : Prop := attr_of_json (to_json v) = v.

Inductive survives : Node -> Prop :=
  | survives_bytes tag a b : text_ok tag -> Forall (fun kv => text_ok (fst kv) /\ attr_ok (snd kv)) a -> survives (mkNode tag a (ABytes b))
  | survives_nodes tag a l : text_ok tag -> Forall (fun kv => text_ok (fst kv) /\ attr_ok (snd kv)) a -> all_survive l -> survives (mkNode tag a (ANodes l))
with all_survive : list Node -> Prop :=
  | survive_nil : all_survive []
  | survive_cons n l : survives n -> all_survive l -> all_survive (n :: l).

Scheme survives_mut := Minimality for survives Sort Prop with all_survive_mut := Minimality for all_survive Sort Prop.

Fixpoint nodes_of_json (l : list json) : outcome json_error (list Node) :=
  match l with [] => Ok [] | c :: l => n ← UnmarshalJSON c; ns ← nodes_of_json l; Ok (n :: ns) end.

Definition content_of_json (c : json) : outcome json_error any :=
  match c with
  | JArray nodes => children ← nodes_of_json nodes; Ok (ANodes children)
  | JString s => match decode_base64 s with Some b => Ok (ABytes b) | None => Err ErrBase64 end
  | _ => Err ErrContent
  end.

Lemma UnmarshalJSON_eq tag a c : UnmarshalJSON (JObject [("Tag", JString tag); ("Attrs", a); ("Content", c)]) =
  (attributes ← attrs_of_json (Some a); content ← content_of_json c; Ok (mkNode tag attributes content)).
Proof. reflexivity. Qed.

Lemma node_to_json_eq tag a c : node_to_json (mkNode tag a c) =
  JObject [("Tag", JString (through_text tag)); ("Attrs", JObject (map (fun kv => (through_text (fst kv), to_json (snd kv))) a)); ("Content", to_json c)].
Proof. cbn [node_to_json]. do 4 f_equal. do 3 f_equal. induction a as [|[k v] a IH]; [done|]. cbn [map fst snd]. by rewrite IH. Qed.

Lemma to_json_nodes l : to_json (ANodes l) = JArray (map node_to_json l).
Proof. reflexivity. Qed.

Lemma attrs_back a : Forall (fun kv => text_ok (fst kv) /\ attr_ok (snd kv)) a ->
  attrs_of_json (Some (JObject (map (fun kv => (through_text (fst kv), to_json (snd kv))) a))) = Ok a.
Proof.
  intros H. cbn [attrs_of_json]. f_equal. rewrite map_map. induction H as [|[k v] a [Hk Hv] _ IH]; [done|].
  cbn [map fst snd] in *. rewrite IH. unfold text_ok in Hk. unfold attr_ok in Hv. by rewrite Hk, Hv.
Qed.

(** A node whose contents are bytes or nodes all the way down, with attributes of the
    kinds above, is read back from its JSON. *)
Theorem json_roundtrip n : (forall b, decode_base64 (StdEncoding b) = Some b) -> survives n -> UnmarshalJSON (node_to_json n) = Ok n.
Proof.
  intros Hb. revert n. apply (survives_mut (fun n => UnmarshalJSON (node_to_json n) = Ok n) (fun l => nodes_of_json (map node_to_json l) = Ok l)).
  - intros tag a b Ht Ha. rewrite node_to_json_eq, UnmarshalJSON_eq, (attrs_back a Ha), bind_Ok, Ht. cbn [to_json content_of_json]. by rewrite Hb.
  - intros tag a l Ht Ha _ IH. rewrite node_to_json_eq, UnmarshalJSON_eq, (attrs_back a Ha), bind_Ok, Ht, to_json_nodes. cbn [content_of_json]. by rewrite IH.
  - done.
  - intros n l _ Hn _ Hl. cbn [map nodes_of_json]. by rewrite Hn, bind_Ok, Hl.
Qed.

(** A node without content is not: its content is [null]. *)
Lemma empty_node_rejected tag a : Forall (fun kv => text_ok (fst kv) /\ attr_ok (snd kv)) a ->
  UnmarshalJSON (node_to_json (mkNode tag a ANil)) = Err ErrContent.
Proof. intros Ha. by rewrite node_to_json_eq, UnmarshalJSON_eq, (attrs_back a Ha), bind_Ok. Qed.

End json.

(** Hidden users' addresses come back as strings, and strings that are no address but
    have a group's server as addresses. *)
Lemma lid_not_read : attr_of_json (JString "1@lid") = AString "1@lid".
Proof. reflexivity. Qed.

Lemma bad_group_read : is_ok (ParseJID "a.b.c@g.us") = false /\ attr_of_json (JString "a.b.c@g.us") = AJID (mkJID "a.b.c" 0 0 0 "g.us").
Proof. by split. Qed.

End json.

Module iqerrors.

Import jid attrs requests.

(** Error values: what [errors.New] makes, by name; IQError and DisconnectedError, with
    the allocation they point to; DownloadHTTPError; wrapIQError's pairs; and errors
    with another one inside. *)
Inductive go_error :=
  | EPlain (name : string)
  | EIQ (at_ : N) (code : Z) (text : string) (errorNode rawNode : option Node)
  | EDisconnected (at_ : N) (action : string)
  | EDownloadHTTP (response : N) (status : Z)
  | EWrapped (human iq : go_error)
  | EWith (message : string) (inner : go_error).

Fixpoint size (e : go_error) : nat := match e with EWrapped h i => S (size h + size i) | EWith _ i => S (size i) | _ => 1%nat end.

Section errors.
Context (node_text : Node -> string).

(** [IQError.Is]. *)
Definition IQ_Is (c : Z) (t : string) (n : option Node) (other : go_error) : bool :=
  match other with
  | EIQ _ c' t' n' _ =>
      if negb (c =? 0) && negb (c' =? 0) then (c' =? c) && String.eqb t' t
      else match n, n' with Some n, Some n' => String.eqb (node_text n) (node_text n') | _, _ => false end
  | _ => false
  end.

(** [err == target]; errors that wrap another are new values each time. *)
Definition same_value (e target : go_error) : bool :=
  match e, target with
  | EPlain a, EPlain b => String.eqb a b
  | EIQ a _ _ _ _, EIQ b _ _ _ _ => (a =? b)%N
  | EDisconnected a _, EDisconnected b _ => (a =? b)%N
  | EDownloadHTTP a _, EDownloadHTTP b _ => (a =? b)%N
  | _, _ => false
  end.

(** [errors.As] for a DownloadHTTPError. *)
Fixpoint as_http (e : go_error) : option Z :=
  match e with EDownloadHTTP _ s => Some s | EWrapped _ i => as_http i | EWith _ i => as_http i | _ => None end.

(** [errors.Is]; the method of a wrapped error asks the other way round. *)
Fixpoint Is_fuel (fuel : nat) (e target : go_error) : bool :=
  match fuel with
  | O => false
  | S fuel =>
      same_value e target
      || match e with
         | EPlain _ => false
         | EIQ _ c t n _ => IQ_Is c t n target
         | EDisconnected _ a => match target with EDisconnected _ b => String.eqb b a | _ => false end
         | EDownloadHTTP _ s => match as_http target with Some s' => s =? s' | None => false end
         | EWrapped h i => Is_fuel fuel target h || Is_fuel fuel i target
         | EWith _ i => Is_fuel fuel i target
         end
  end.

Definition Is (e target : go_error) : bool := Is_fuel (size e + size target) e target.

Lemma size_pos e : (0 < size e)%nat. Proof. destruct e; cbn; lia. Qed.

Lemma fuel_enough n m e t : (size e + size t <= n)%nat -> (size e + size t <= m)%nat -> Is_fuel n e t = Is_fuel m e t.
Proof.
  revert m e t. induction n as [|n IH]; intros [|m] e t Hn Hm; try (pose proof (size_pos e); lia).
  cbn [Is_fuel]. f_equal. pose proof (size_pos t). destruct e as [| | | |h i|msg i]; try done; cbn [size] in Hn, Hm.
  - pose proof (size_pos h). pose proof (size_pos i). f_equal; apply IH; lia.
  - pose proof (size_pos i). apply IH; lia.
Qed.

Definition wrapIQError (human iq : go_error) : go_error := EWrapped human iq.

(** What [errors.Is] finds in a wrapped error: whatever the error the user sees is found
    in, and what it finds in the server's error. *)
Theorem wrapped_is human iq target : Is (wrapIQError human iq) target = Is target human || Is iq target.
Proof.
  unfold Is, wrapIQError. cbn [size]. replace (S (size human + size iq) + size target)%nat with (S (size human + size iq + size target)) by lia.
  cbn [Is_fuel same_value orb]. f_equal; apply fuel_enough; lia.
Qed.

(** The errors the package knows. *)
Definition known (n : N) (code : Z) (text : string) : go_error := EIQ n code text None None.

Definition known_errors : list (Z * string) :=
  [(400, "bad-request"); (401, "not-authorized"); (403, "forbidden"); (404, "item-not-found"); (405, "not-allowed"); (406, "not-acceptable");
   (410, "gone"); (419, "resource-limit"); (423, "locked"); (429, "rate-overlimit"); (500, "internal-server-error"); (503, "service-unavailable");
   (530, "partial-server-error")].

(** The error of an answer, at a fresh allocation. *)
Definition of_iq (at_ : N) (raw : Node) (code : Z) (text : string) : go_error :=
  EIQ at_ code text (match GetOptionalChildByTag raw ["error"] with (n, true) => Some n | _ => None end) (Some raw).

(** An answer's error is a known one just when code and text agree, wherever it is
    wrapped on its way to the caller: this is how the groups' functions tell them apart. *)
Theorem known_is at_ n raw code text c t message human : at_ <> n -> c <> 0 ->
  Is (EWith message (of_iq at_ raw code text)) (known n c t) = group.is_iq c t (IQError raw code text) /\
  (Is (known n c t) human = false -> Is (EWith message (wrapIQError human (of_iq at_ raw code text))) (known n c t) = group.is_iq c t (IQError raw code text)).
Proof.
  intros Ha Hc. assert (Is (of_iq at_ raw code text) (known n c t) = group.is_iq c t (IQError raw code text)) as E.
  { unfold Is, of_iq, known. cbn [size Nat.add Is_fuel same_value IQ_Is group.is_iq]. destruct (N.eqb_spec at_ n); [done|]. cbn [orb].
    destruct (Z.eqb_spec code 0) as [->|]; cbn [negb andb].
    - destruct (GetOptionalChildByTag raw ["error"]) as [? []]; reflexivity.
    - destruct (Z.eqb_spec c 0); [done|]. cbn [negb]. by rewrite Z.eqb_sym, String.eqb_sym. }
  assert (forall e, Is (EWith message e) (known n c t) = Is e (known n c t)) as Hw.
  { intros e. unfold Is. cbn [size known]. replace (S (size e) + 1)%nat with (S (size e + 1)) by lia. reflexivity. }
  split; [by rewrite Hw|]. intros Hh. by rewrite Hw, wrapped_is, Hh, E.
Qed.

(** [Error] of an IQError. *)
Definition Error_IQ (code : Z) (text : string) (errorNode rawNode : option Node) : string :=
  if code =? 0 then
    match errorNode, rawNode with
    | Some n, _ => "info query returned unknown error: " +:+ node_text n
    | None, Some n => "info query returned unexpected response: " +:+ node_text n
    | None, None => "unknown info query error"
    end
  else "info query returned status " +:+ itoa code +:+ ": " +:+ text.

Fixpoint Error (e : go_error) : string :=
  match e with
  | EPlain name => name
  | EIQ _ c t n r => Error_IQ c t n r
  | EDisconnected _ a => "websocket disconnected before " +:+ a +:+ " returned response"
  | EDownloadHTTP _ s => "download failed with status code " +:+ itoa s
  | EWrapped h _ => Error h
  | EWith m i => m +:+ ": " +:+ Error i
  end.

End errors.

(** No known error is another one. *)
Lemma known_distinct nt : forallb (fun a => forallb (fun b =>
  Bool.eqb (Is nt (known (fst a) (fst (snd a)) (snd (snd a))) (known (fst b) (fst (snd b)) (snd (snd b)))) (fst a =? fst b)%N)
  (combine (map N.of_nat (seq 0 13)) known_errors)) (combine (map N.of_nat (seq 0 13)) known_errors) = true.
Proof. vm_compute. reflexivity. Qed.

End iqerrors.
