(* ===== verification/ClientSetup.v ===== *)
(** * client.go, prekeys.go, retry.go: a client's transports, waits and log-out

    [transports]: the HTTP clients of a client and the proxies they use. [waiting]:
    WaitForConnection and the goroutine that wakes it, as interleaving steps.
    [logout]: logging out. [fetching]: the key bundles of other devices. [reasons]:
    what is said about a connection that failed. *)

From S2P Require Import Prelude GoStrings StateErr Jid Node Crypto Requests PreKeys Lifecycle.

#[local] Open Scope string_scope.
#[local] Open Scope list_scope.
#[local] Open Scope Z_scope.

Module transports.

Section transports.
(** Proxy functions, dialers, and parsed addresses with their scheme. *)
Context {Proxy Dialer URL : Type} (Parse : string -> option URL) (Scheme : URL -> string) (ProxyURL : URL -> Proxy)
  (FromURL : URL -> option Dialer) (is_context_dialer : Dialer -> bool).

(** A transport made from the default one. *)
Inductive transport := DefaultTransport | WithProxy (p : option Proxy) | WithDialer (d : Dialer).

(** The HTTP clients are referred to by pointer; a caller may hand in one of its own,
    and the same one twice. *)
Record client := mkClient { http : gmap N transport; mediaHTTP : N; websocketHTTP : N; preLoginHTTP : N }.

Record SetProxyOptions := mkOptions { NoWebsocket : bool; OnlyLogin : bool; NoMedia : bool }.

Definition no_options : SetProxyOptions := mkOptions false false false.

(** NewClient: three copies of one client. *)
Definition NewClient : client := mkClient {[0%N := DefaultTransport; 1%N := DefaultTransport; 2%N := DefaultTransport]} 0 1 2.

Definition set_transport_at (p : N) (t : transport) (c : client) : client :=
  mkClient (<[p := t]> (http c)) (mediaHTTP c) (websocketHTTP c) (preLoginHTTP c).

Definition setTransport (t : transport) (o : SetProxyOptions) (c : client) : client :=
  let c :=
    if negb (NoWebsocket o) then
      let c := set_transport_at (preLoginHTTP c) t c in
      if negb (OnlyLogin o) then set_transport_at (websocketHTTP c) t c else c
    else c in
  if negb (NoMedia o) then set_transport_at (mediaHTTP c) t c else c.

(** The first of the optional arguments. *)
Definition first_option (opts : list SetProxyOptions) : SetProxyOptions := match opts with o :: _ => o | [] => no_options end.

Definition SetProxy (p : option Proxy) (opts : list SetProxyOptions) (c : client) : client := setTransport (WithProxy p) (first_option opts) c.

(** The dialer's type is asserted. *)
Definition SetSOCKSProxy {E} (d : Dialer) (opts : list SetProxyOptions) (c : client) : client * outcome E unit :=
  if is_context_dialer d then (setTransport (WithDialer d) (first_option opts) c, Ok tt) else (c, Panic).

Inductive proxy_error := ErrParse | ErrFromURL | ErrScheme (scheme : string).

Definition SetProxyAddress (addr : string) (opts : list SetProxyOptions) (c : client) : client * outcome proxy_error unit :=
  if String.eqb addr "" then (SetProxy None opts c, Ok tt)
  else
    match Parse addr with
    | None => (c, Err ErrParse)
    | Some parsed =>
        if String.eqb (Scheme parsed) "http" || String.eqb (Scheme parsed) "https" then (SetProxy (Some (ProxyURL parsed)) opts c, Ok tt)
        else if String.eqb (Scheme parsed) "socks5" then
          match FromURL parsed with None => (c, Err ErrFromURL) | Some px => SetSOCKSProxy px opts c end
        else (c, Err (ErrScheme (Scheme parsed)))
    end.

Definition SetMediaHTTPClient (h : N) (c : client) : client := mkClient (http c) h (websocketHTTP c) (preLoginHTTP c).
Definition SetWebsocketHTTPClient (h : N) (c : client) : client := mkClient (http c) (mediaHTTP c) h (preLoginHTTP c).
Definition SetPreLoginHTTPClient (h : N) (c : client) : client := mkClient (http c) (mediaHTTP c) (websocketHTTP c) h.

(** The HTTP client of a connection. *)
Definition connects_with (has_id : bool) (c : client) : N := if has_id then websocketHTTP c else preLoginHTTP c.

Definition uses (p : N) (c : client) : option transport := http c !! p.

Definition apart (c : client) : Prop := mediaHTTP c <> websocketHTTP c /\ mediaHTTP c <> preLoginHTTP c /\ websocketHTTP c <> preLoginHTTP c.

(** A proxy reaches just what the options leave it, while the client's three HTTP
    clients are three: the connection before the log-in unless websockets are left
    out, the one after it unless it is for the log-in only, and the media. *)
Theorem setTransport_reaches t o c : apart c ->
  let c' := setTransport t o c in
  uses (connects_with false c') c' = (if NoWebsocket o then uses (connects_with false c) c else Some t) /\
  uses (connects_with true c') c' = (if NoWebsocket o || OnlyLogin o then uses (connects_with true c) c else Some t) /\
  uses (mediaHTTP c') c' = (if NoMedia o then uses (mediaHTTP c) c else Some t).
Proof.
  intros (H1 & H2 & H3). destruct o as [[] [] []]; unfold setTransport, set_transport_at, uses, connects_with;
    cbn [NoWebsocket OnlyLogin NoMedia negb orb http mediaHTTP websocketHTTP preLoginHTTP];
    rewrite ?lookup_insert_eq, ?lookup_insert_ne by congruence; rewrite ?lookup_insert_eq, ?lookup_insert_ne by congruence;
    rewrite ?lookup_insert_eq; done.
Qed.

(** An address that cannot be used changes nothing. *)
Lemma SetProxyAddress_error addr opts c e : snd (SetProxyAddress addr opts c) = Err e -> fst (SetProxyAddress addr opts c) = c.
Proof.
  unfold SetProxyAddress, SetSOCKSProxy. destruct (String.eqb addr ""); [done|]. destruct (Parse addr) as [u|]; [|done].
  destruct (_ || _); [done|]. destruct (String.eqb _ _); [|done]. destruct (FromURL u) as [d|]; [|done]. by destruct (is_context_dialer d).
Qed.

(** A caller that gives its own HTTP client for websockets and media loses the
    distinction: a proxy that leaves websockets out is used for them all the same. *)
Lemma shared_client_proxied t h c : let c := SetWebsocketHTTPClient h (SetMediaHTTPClient h c) in
  let c' := setTransport t (mkOptions true false false) c in uses (connects_with true c') c' = Some t.
Proof. cbn. unfold uses. cbn. by rewrite lookup_insert_eq. Qed.

End transports.

End transports.

Module waiting.

(** A call of WaitForConnection: about to look at the client, refused and about to
    read the channel (it still holds the read lock), waiting on a channel, back. *)
Inductive waiter := Checking | Refused | Blocked (ch : nat) | Back (connected : bool).

(** [open]: whether each channel made so far is open; the last is [socketWait].
    [closers]: goroutines of handleConnectSuccess that have not closed it yet. *)
Record state := mkState { connected : bool; logged_in : bool; open : list bool; waiters : list waiter; closers : nat }.

Definition init : state := mkState false false [true] [] 0.

Definition socketWait (s : state) : nat := length (open s) - 1.

Definition ready (s : state) : bool := connected s && logged_in s.

Definition set_waiter (i : nat) (w : waiter) (s : state) : state := mkState (connected s) (logged_in s) (open s) (<[i := w]> (waiters s)) (closers s).

(** [getSocketWaitChan] and what WaitForConnection does: the last channel is read. *)
Definition read_channel (i : nat) (s : state) : state := set_waiter i (Blocked (socketWait s)) s.

(** [closeSocketWaitChan]: the last channel is closed and a new one made. *)
Definition closeSocketWaitChan (s : state) : state :=
  mkState (connected s) (logged_in s) (<[socketWait s := false]> (open s) ++ [true]) (waiters s) (pred (closers s)).

(** [Call i]: steps of the [i]th call of WaitForConnection; [Close]: a goroutine of a
    log-in closes the channel, which it can only do when no call holds the lock between
    its look at the client and its reading of the channel; [Around]: the rest. *)
Inductive label := Call (i : nat) | Close | Around.

Inductive step : label -> state -> state -> Prop :=
  | step_call s : step Around s (mkState (connected s) (logged_in s) (open s) (waiters s ++ [Checking]) (closers s))
  | step_ready s i : waiters s !! i = Some Checking -> ready s = true -> step (Call i) s (set_waiter i (Back true) s)
  | step_refuse s i : waiters s !! i = Some Checking -> ready s = false -> step (Call i) s (set_waiter i Refused s)
  | step_block s i : waiters s !! i = Some Refused -> step (Call i) s (read_channel i s)
  | step_wake s i c : waiters s !! i = Some (Blocked c) -> open s !! c = Some false -> step (Call i) s (set_waiter i Checking s)
  | step_give_up s i c : waiters s !! i = Some (Blocked c) -> step Around s (set_waiter i (Back false) s)
  | step_socket s b : step Around s (mkState b (logged_in s) (open s) (waiters s) (closers s))
  | step_login s : step Around s (mkState (connected s) true (open s) (waiters s) (S (closers s)))
  | step_logout s : step Around s (mkState (connected s) false (open s) (waiters s) (closers s))
  | step_close s : (0 < closers s)%nat -> Refused ∉ waiters s -> step Close s (closeSocketWaitChan s).

Definition any_step (s s' : state) : Prop := exists l, step l s s'.
Definition reachable : state -> Prop := rtc any_step init.

(** Steps of the calls and of the goroutines that wake them, and of one call alone. *)
Definition own_step (s s' : state) : Prop := exists l, l <> Around /\ step l s s'.
Definition own_steps : state -> state -> Prop := rtc own_step.
Definition call_steps (i : nat) : state -> state -> Prop := rtc (step (Call i)).

(** Since the last time a log-in closed the channel the client has been connected and
    logged in. *)
Inductive since_close : state -> Prop :=
  | just_closed s s' : reachable s -> step Close s s' -> ready s' = true -> since_close s'
  | still_ready s s' : since_close s -> any_step s s' -> ready s' = true -> since_close s'.

(** Only the last channel is open. *)
Definition ok (s : state) : Prop :=
  exists n, open s = replicate n false ++ [true] /\ Forall (fun w => match w with Blocked c => (c <= n)%nat | _ => True end) (waiters s).

Lemma socketWait_of s n : open s = replicate n false ++ [true] -> socketWait s = n.
Proof. unfold socketWait. intros ->. rewrite length_app, length_replicate. cbn. lia. Qed.

Lemma Forall_set {A} (P : A -> Prop) i x l : Forall P l -> P x -> Forall P (<[i := x]> l).
Proof. intros H Hx. apply Forall_lookup. intros j y Hy. destruct (decide (i = j)) as [<-|]; [|rewrite list_lookup_insert_ne in Hy by done; by eapply Forall_lookup_1].
  apply list_lookup_insert_Some in Hy as [(_ & <- & _)|[? _]]; done. Qed.

Lemma wait_step_ok l s s' : ok s -> step l s s' -> ok s'.
Proof.
  intros (n & Ho & Hw) H. destruct H; try (exists n; split; [done|]; cbn [waiters set_waiter read_channel]); try done;
    try (apply Forall_set; done).
  - apply Forall_app. split; [done|]. by constructor.
  - apply Forall_set; [done|]. by rewrite (socketWait_of _ _ Ho).
  - exists (S n). unfold closeSocketWaitChan. cbn [open waiters]. rewrite (socketWait_of _ _ Ho), Ho. split.
    + rewrite insert_app_r_alt by (rewrite length_replicate; lia). rewrite length_replicate, Nat.sub_diag. cbn [insert list_insert].
      by rewrite replicate_S_end, <- app_assoc.
    + eapply Forall_impl; [exact Hw|]. intros []; try done. intros. lia.
Qed.

Lemma reachable_waiting s : reachable s -> ok s.
Proof.
  intros H. apply (rtc_ind_r (R := any_step) (fun s => ok s)) with init; [|by intros ? ? _ [? ?] ?; eapply wait_step_ok|exact H].
  exists 0%nat. split; [done|constructor].
Qed.

Lemma own_r s s1 s2 l : own_steps s s1 -> l <> Around -> step l s1 s2 -> own_steps s s2.
Proof. intros H Hl Hs. eapply rtc_r; [exact H|]. by exists l. Qed.

(** All refused calls go on to their channel. *)
Lemma let_block (is_ : list nat) s : exists s', own_steps s s' /\ connected s' = connected s /\ logged_in s' = logged_in s /\ open s' = open s /\
  closers s' = closers s /\ waiters s' = foldr (fun i l => match l !! i with Some Refused => <[i := Blocked (socketWait s)]> l | _ => l end) (waiters s) is_.
Proof.
  induction is_ as [|i is_ (s1 & Hs & E1 & E2 & E3 & E4 & E5)]; [exists s; by repeat split; try apply rtc_refl|]. cbn [foldr].
  rewrite <- E5. destruct (waiters s1 !! i) as [w|] eqn:Ew; [|by exists s1]. destruct w; try by exists s1.
  exists (read_channel i s1). split; [eapply (own_r _ _ _ (Call i)); [exact Hs|done|]; by constructor|]. unfold read_channel, socketWait, set_waiter. cbn. by rewrite E1, E2, E3, E4.
Qed.

Definition blocked (n : nat) (l : list waiter) (is_ : list nat) : list waiter :=
  foldr (fun i l => match l !! i with Some Refused => <[i := Blocked n]> l | _ => l end) l is_.

Lemma blocked_length n l is_ : length (blocked n l is_) = length l.
Proof. induction is_ as [|i is_ IH]; [done|]. cbn. fold (blocked n l is_). destruct (blocked n l is_ !! i) as [[]|]; rewrite ?length_insert; done. Qed.

Lemma blocked_at n l is_ i : blocked n l is_ !! i = (if decide (i ∈ is_) then (fun w => match w with Refused => Blocked n | w => w end) <$> l !! i else l !! i).
Proof.
  induction is_ as [|j is_ IH]; [cbn; by rewrite decide_False by apply not_elem_of_nil|]. cbn [blocked foldr]. fold (blocked n l is_).
  destruct (decide (i = j)) as [->|Hij].
  - rewrite (decide_True (P := j ∈ j :: is_)) by apply list_elem_of_here. destruct (decide (j ∈ is_)); rewrite IH.
    + destruct (l !! j) as [[]|] eqn:E; cbn; rewrite ?IH, ?E; done.
    + destruct (l !! j) as [[]|] eqn:E; cbn; rewrite ?IH, ?E; try done. apply list_lookup_insert_eq. rewrite blocked_length. by eapply lookup_lt_Some.
  - replace (if decide (i ∈ j :: is_) then _ else _) with (blocked n l is_ !! i)
      by (rewrite IH; destruct (decide (i ∈ is_)) as [H|H], (decide (i ∈ j :: is_)) as [H'|H']; rewrite elem_of_cons in H'; try done; naive_solver).
    destruct (blocked n l is_ !! j) as [[]|]; rewrite ?list_lookup_insert_ne by done; done.
Qed.

(** The goroutine of a log-in that is still to close the channel wakes every call. *)
Lemma login_wakes s i w : reachable s -> ready s = true -> (0 < closers s)%nat -> waiters s !! i = Some w -> (forall b, w <> Back b) ->
  exists s', own_steps s s' /\ waiters s' !! i = Some (Back true).
Proof.
  intros Hr Hready Hc Hi Hw. destruct (reachable_waiting s Hr) as (n & Ho & Hb).
  assert (forall s', connected s' = connected s -> logged_in s' = logged_in s -> ready s' = true) as Hkeep by (intros s' E1 E2; unfold ready; by rewrite E1, E2).
  assert (forall s1, own_steps s s1 -> ready s1 = true -> waiters s1 !! i = Some Checking -> exists s', own_steps s s' /\ waiters s' !! i = Some (Back true)) as Hlast.
  { intros s1 H1 R1 W1. exists (set_waiter i (Back true) s1). split; [eapply (own_r _ _ _ (Call i)); [exact H1|done|]; by constructor|]. cbn. apply list_lookup_insert_eq. by eapply lookup_lt_Some. }
  destruct (let_block (seq 0 (length (waiters s))) s) as (s1 & H1 & E1 & E2 & E3 & E4 & E5).
  rewrite (socketWait_of s n Ho) in E5. fold (blocked n (waiters s) (seq 0 (length (waiters s)))) in E5.
  assert (forall j, waiters s1 !! j = (fun w => match w with Refused => Blocked n | w => w end) <$> waiters s !! j) as Hall.
  { intros j. rewrite E5, blocked_at. destruct (decide (j ∈ seq 0 (length (waiters s)))) as [|Hj]; [done|].
    rewrite elem_of_seq in Hj. by rewrite lookup_ge_None_2 by lia. }
  assert (Refused ∉ waiters s1) as Hno.
  { intros (j & Hj)%list_elem_of_lookup. rewrite Hall in Hj. by destruct (waiters s !! j) as [[]|]. }
  assert (own_steps s (closeSocketWaitChan s1)) as H2 by (eapply (own_r _ _ _ Close); [exact H1|done|]; constructor; [by rewrite E4|done]).
  assert (open (closeSocketWaitChan s1) = replicate (S n) false ++ [true]) as Ho2.
  { unfold closeSocketWaitChan. cbn [open]. rewrite E3, Ho. rewrite (socketWait_of s1 n) by (by rewrite E3).
    rewrite insert_app_r_alt by (rewrite length_replicate; lia). rewrite length_replicate, Nat.sub_diag. cbn [insert list_insert]. by rewrite replicate_S_end, <- app_assoc. }
  assert (exists c, waiters s1 !! i = Some Checking \/ waiters s1 !! i = Some (Blocked c) /\ (c <= n)%nat) as (c & [W1|[W1 Hcn]]).
  { rewrite Hall, Hi. destruct w as [| |c|b]; [exists 0%nat; by left|exists n; by right|exists c; right; split; [done|]|by destruct (Hw b)].
    by apply (Forall_lookup_1 _ _ _ _ Hb) in Hi. }
  - apply (Hlast s1 H1); [by apply Hkeep|done].
  - apply (Hlast (set_waiter i Checking (closeSocketWaitChan s1))).
    + eapply (own_r _ _ _ (Call i)); [exact H2|done|]. apply (step_wake _ i c); [done|]. rewrite Ho2, lookup_app_l by (rewrite length_replicate; lia). apply lookup_replicate; split; [done|lia].
    + by apply Hkeep.
    + cbn. apply list_lookup_insert_eq. by eapply lookup_lt_Some.
Qed.

(** A call that waits on an open channel, or is about to. *)
Definition behind (s : state) (w : waiter) : Prop :=
  match w with Refused => True | Blocked c => open s !! c <> Some false | _ => False end.

(** The channel closes for every call that waits. *)
Lemma close_wakes s s' : reachable s -> step Close s s' -> Forall (fun w => ~ behind s' w) (waiters s').
Proof.
  intros (n & Ho & Hb)%reachable_waiting H. inversion H as [| | | | | | | | |? Hc Hr]; subst. cbn [waiters closeSocketWaitChan].
  apply Forall_lookup. intros i w Hi. destruct w as [| |c|]; cbn [behind]; try by intros [].
  - intros _. by apply Hr, (list_elem_of_lookup_2 _ i).
  - unfold closeSocketWaitChan. cbn [open]. rewrite (socketWait_of s n Ho), Ho. intros []. apply (Forall_lookup_1 _ _ _ _ Hb) in Hi.
    rewrite insert_app_r_alt by (rewrite length_replicate; lia). rewrite length_replicate, Nat.sub_diag. cbn [insert list_insert].
    cbn in Hi. rewrite lookup_app_l by (rewrite length_app, length_replicate; cbn; lia). destruct (decide (c = n)) as [->|Hne].
    + by rewrite lookup_app_r, length_replicate, Nat.sub_diag by (rewrite length_replicate; lia).
    + rewrite lookup_app_l by (rewrite length_replicate; lia). apply lookup_replicate. split; [done|lia].
Qed.

(** A closed channel stays closed. *)
Lemma closed_stays l s s' c : step l s s' -> open s !! c = Some false -> open s' !! c = Some false.
Proof.
  intros H Hc. destruct H; try exact Hc. unfold closeSocketWaitChan. cbn [open].
  destruct (decide (socketWait s = c)) as [<-|Hne]; [|by apply lookup_app_l_Some; rewrite list_lookup_insert_ne].
  apply lookup_app_l_Some, list_lookup_insert_eq. by eapply lookup_lt_Some.
Qed.

(** While the client stays ready no call gets behind again. *)
Lemma since_close_wakes s : since_close s -> reachable s /\ ready s = true /\ Forall (fun w => ~ behind s w) (waiters s).
Proof.
  induction 1 as [s s' Hr H Hready|s s' H (Hr & Hready0 & Hw) [l Hs] Hready].
  - split; [eapply rtc_r; [exact Hr|by eexists]|]. split; [done|]. by eapply close_wakes.
  - split; [eapply rtc_r; [exact Hr|by exists l]|]. split; [done|].
    assert (Forall (fun w => ~ behind s' w) (waiters s)) as Hw'.
    { eapply Forall_impl; [exact Hw|]. intros [| |c|] Hn; cbn [behind] in *; try done. intros Hc. apply Hn. intros Ho. by apply Hc, (closed_stays _ _ _ _ Hs). }
    destruct Hs; try exact Hw'; try congruence; try (by apply Forall_set; [exact Hw'|intros []]).
    + apply Forall_app. split; [exact Hw'|]. constructor; [by intros []|constructor].
    + by destruct (Forall_lookup_1 _ _ _ _ Hw H0).
Qed.

(** (C25) No wake-up is lost, however calls, log-ins, losses of the socket and time-outs
    have interleaved. Take a call that waits while the client is connected and logged
    in. As long as the goroutine of a log-in has yet to close the channel, the call
    gets back with success by steps of the waiting calls and of such goroutines; and
    once one has closed it and the client has been ready since, by its own steps
    alone. (A client that is ready without either, with a new websocket before the
    server's answer to its log-in, wakes nobody until that log-in.) *)
Theorem waiting_wakes s i w : reachable s -> ready s = true -> waiters s !! i = Some w -> (forall b, w <> Back b) ->
  ((0 < closers s)%nat -> exists s', own_steps s s' /\ waiters s' !! i = Some (Back true)) /\
  (since_close s -> exists s', call_steps i s s' /\ waiters s' !! i = Some (Back true)).
Proof.
  intros Hr Hready Hi Hw. split; [intros Hc; by eapply login_wakes|]. intros (_ & _ & Hn)%since_close_wakes.
  apply (Forall_lookup_1 _ _ _ _ Hn) in Hi as Hb.
  assert (forall s1, call_steps i s s1 -> ready s1 = true -> waiters s1 !! i = Some Checking -> exists s', call_steps i s s' /\ waiters s' !! i = Some (Back true)) as Hlast.
  { intros s1 H1 R1 W1. exists (set_waiter i (Back true) s1). split; [eapply rtc_r; [exact H1|]; by constructor|]. cbn. apply list_lookup_insert_eq. by eapply lookup_lt_Some. }
  destruct w as [| |c|b]; cbn [behind] in Hb; [|done| |by destruct (Hw b)].
  - by apply (Hlast s); [apply rtc_refl|..].
  - destruct (decide (open s !! c = Some false)) as [Ho|Ho]; [|done]. apply (Hlast (set_waiter i Checking s)).
    + apply rtc_once. by eapply step_wake.
    + done.
    + cbn. apply list_lookup_insert_eq. by eapply lookup_lt_Some.
Qed.

(** A call that found no connection waits when the client gets its socket and logs in. *)
Definition sample_waiting : state := mkState true true [true] [Blocked 0] 1.

Lemma sample_reachable : reachable sample_waiting.
Proof.
  eapply rtc_l; [exists Around; apply step_call|].
  eapply rtc_l; [exists (Call 0); apply (step_refuse _ 0); reflexivity|].
  eapply rtc_l; [exists (Call 0); apply (step_block _ 0); reflexivity|].
  eapply rtc_l; [exists Around; apply (step_socket _ true)|].
  eapply rtc_l; [exists Around; apply step_login|]. apply rtc_refl.
Qed.

(** And is on a closed channel when the log-in has closed it. *)
Definition sample_closed : state := mkState true true [false; true] [Blocked 0] 0.

Lemma sample_close : step Close sample_waiting sample_closed.
Proof. apply (step_close sample_waiting); [apply le_n|]. by intros [[=]|[]%elem_of_nil]%elem_of_cons. Qed.

Lemma waiting_wakes_witness :
  (exists s', own_steps sample_waiting s' /\ waiters s' !! 0%nat = Some (Back true)) /\
  exists s', call_steps 0 sample_closed s' /\ waiters s' !! 0%nat = Some (Back true).
Proof.
  split.
  - apply (waiting_wakes sample_waiting 0 (Blocked 0) sample_reachable); [reflexivity|reflexivity|discriminate|apply le_n].
  - apply (waiting_wakes sample_closed 0 (Blocked 0)); [|reflexivity|reflexivity|discriminate|].
    + eapply rtc_r; [exact sample_reachable|]. exists Close. exact sample_close.
    + eapply just_closed; [exact sample_reachable|exact sample_close|reflexivity].
Defined.

End waiting.

Module logout.

Import jid connectionevents requests.

Inductive logout_error := ErrMessenger | ErrNotLoggedIn | ErrLogoutRequest (e : iq_error) | ErrDelete.

Section logout.
(** The world: the requests sent and what the server answers, the connection, and
    whether the device's row can be deleted. *)
Context {W : Type} (sendIQ : infoQuery -> W -> W * outcome iq_error Node) (Disconnect : W -> W) (deletes : W -> bool) (messenger : bool).

Record state := mkState { world : W; device : client }.

Definition logout_query (ownID : JID) : infoQuery :=
  mkQuery "md" "set" ServerJID EmptyJID "" ""
    (ANodes [mkNode "remove-companion-device" [("jid", AJID ownID); ("reason", AString "user_initiated")] ANil]) false.

Definition Logout : stm state logout_error unit := fun s =>
  let ownID := GetJID (device s) in
  if messenger then (s, Err ErrMessenger)
  else if IsEmpty ownID then (s, Err ErrNotLoggedIn)
  else
    match sendIQ (logout_query ownID) (world s) with
    | (w, Ok _) =>
        let w := Disconnect w in
        let d := connectionevents.Delete (deletes w) (device s) in
        (mkState w d, if deletes w || Deleted (device s) then Ok tt else Err ErrDelete)
    | (w, Err e) => (mkState w (device s), Err (ErrLogoutRequest e))
    | (w, Panic) => (mkState w (device s), Panic)
    | (w, NoFuel) => (mkState w (device s), NoFuel)
    end.

(** A log-out that succeeds was answered by the server, before anything was
    disconnected, and leaves no identity; one the server did not answer leaves the
    device as it is. *)
Lemma Logout_result s s' o : Logout s = (s', o) ->
  (o = Ok tt -> exists w n, sendIQ (logout_query (GetJID (device s))) (world s) = (w, Ok n) /\ world s' = Disconnect w /\ Deleted (device s') = true) /\
  (forall e, o = Err (ErrLogoutRequest e) -> device s' = device s).
Proof.
  unfold Logout. destruct messenger; [by intros [= <- <-]|]. destruct (IsEmpty _); [by intros [= <- <-]|].
  destruct (sendIQ _ _) as [w [n|e| |]] eqn:E; intros [= <- <-]; cbn; try by split.
  destruct (deletes (Disconnect w)) eqn:Ed, (Deleted (device s)) eqn:Edd; cbn; split; try done.
  all: intros _; exists w, n; split; [done|]; split; [done|]; unfold connectionevents.Delete; by rewrite Edd.
Qed.

End logout.

End logout.

Module fetching.

Import jid attrs requests prekeys.

Inductive fetch_error := ErrSendRequest (e : iq_error) | ErrEmptyResponse.

Section fetching.
Context {W : Type} (sendIQ : infoQuery -> W -> W * outcome iq_error Node).

Definition fetch_query (users : list JID) : infoQuery :=
  mkQuery "encrypt" "get" ServerJID EmptyJID "" ""
    (ANodes [mkNode "key" [] (ANodes (map (fun u => mkNode "user" [("jid", AJID u); ("reason", AString "identity")] ANil) users))]) false.

(** The answers by device: of two for one device the later one. A key without a
    signature ends the reading with a panic. *)
Fixpoint responses (l : list (JID * outcome prekey_error Bundle)) : outcome fetch_error (gmap JID (prekey_error + Bundle)) :=
  match l with
  | [] => Ok ∅
  | (j, o) :: l =>
      match o with
      | Ok b => m ← responses l; Ok (match m !! j with Some _ => m | None => <[j := inr b]> m end)
      | Err e => m ← responses l; Ok (match m !! j with Some _ => m | None => <[j := inl e]> m end)
      | Panic => Panic
      | NoFuel => NoFuel
      end
  end.

Definition fetchPreKeys (users : list JID) : stm W fetch_error (gmap JID (prekey_error + Bundle)) := fun w =>
  match sendIQ (fetch_query users) w with
  | (w, Ok resp) => (w, match fetch_responses resp with None => Err ErrEmptyResponse | Some l => responses l end)
  | (w, Err e) => (w, Err (ErrSendRequest e))
  | (w, Panic) => (w, Panic)
  | (w, NoFuel) => (w, NoFuel)
  end.

(** A device without an answer has neither error nor bundle, like one left out. *)
Definition bundle_for (m : gmap JID (prekey_error + Bundle)) (j : JID) : option (JID * Bundle) :=
  match m !! j with Some (inr b) => Some (j, b) | _ => None end.

Definition fetchPreKeysNoError (retryDevices : list JID) (w : W) : W * outcome fetch_error (gmap JID Bundle) :=
  match retryDevices with
  | [] => (w, Ok ∅)
  | _ =>
      match fetchPreKeys retryDevices w with
      | (w, Ok m) => (w, Ok (list_to_map (omap (bundle_for m) retryDevices)))
      | (w, Err _) => (w, Ok ∅)
      | (w, Panic) => (w, Panic)
      | (w, NoFuel) => (w, NoFuel)
      end
  end.

Lemma responses_in l m j b : responses l = Ok m -> m !! j = Some (inr b) -> (j, Ok b) ∈ l.
Proof.
  revert m. induction l as [|[j' o] l IH]; intros m; cbn [responses]; [by intros [= <-]|].
  assert (forall x m0, responses l = Ok m0 -> (if m0 !! j' is Some _ then m0 else <[j' := x]> m0) !! j = Some (inr b) ->
    (j, Ok b) ∈ l \/ j = j' /\ x = inr b) as Hcase.
  { intros x m0 Em Hl. destruct (m0 !! j') as [y|] eqn:E'; [left; by apply (IH m0)|]. destruct (decide (j' = j)) as [->|]; [|left; apply (IH m0); [done|]; by rewrite lookup_insert_ne in Hl].
    rewrite lookup_insert_eq in Hl. right. split; [done|congruence]. }
  assert (forall x, (m0 ← responses l; Ok (match m0 !! j' with Some _ => m0 | None => <[j' := x]> m0 end)) = Ok m -> m !! j = Some (inr b) ->
    (j, Ok b) ∈ l \/ j = j' /\ x = inr b) as Hx.
  { intros x. destruct (responses l) as [m0| | |] eqn:Em; [|done..]. rewrite bind_Ok. intros [= <-]. by apply Hcase. }
  destruct o as [b'|e| |]; [|idtac|done..]; intros H Hl; destruct (Hx _ H Hl) as [|[-> Hb]]; try (by apply list_elem_of_further); try done.
  injection Hb as ->. apply list_elem_of_here.
Qed.

(** A bundle that is used for a device is the one the server named that device with. *)
Lemma fetched_bundle devices w w' m j b : fetchPreKeysNoError devices w = (w', Ok m) -> m !! j = Some b ->
  j ∈ devices /\ exists resp l, sendIQ (fetch_query devices) w = (w', Ok resp) /\ fetch_responses resp = Some l /\ (j, Ok b) ∈ l.
Proof.
  unfold fetchPreKeysNoError, fetchPreKeys. destruct devices as [|d ds] eqn:Ed; [by intros [= <- <-]|]. rewrite <- Ed. clear Ed.
  destruct (sendIQ _ w) as [w1 [resp|e| |]] eqn:E; try done; [|by intros [= <- <-]].
  destruct (fetch_responses resp) as [l|] eqn:El; [|by intros [= <- <-]].
  destruct (responses l) as [m0|e| |] eqn:Em; try done; [|by intros [= <- <-]]. intros [= <- <-] Hj.
  apply elem_of_list_to_map_2, list_elem_of_omap in Hj as (x & Hx & Hb). unfold bundle_for in Hb.
  destruct (m0 !! x) as [[]|] eqn:Ex; try done. injection Hb as -> ->. split; [done|]. exists resp, l. split; [done|]. split; [done|]. by eapply responses_in.
Qed.

End fetching.

End fetching.

Module reasons.

Import connectionevents.

Definition ConnectFailureBadUserAgent := 409.

Definition connectFailureReasonMessage (r : Z) : option string :=
  if r =? ConnectFailureLoggedOut then Some "logged out from another device"
  else if r =? ConnectFailureTempBanned then Some "account temporarily banned"
  else if r =? ConnectFailureMainDeviceGone then Some "primary device was logged out"
  else if r =? ConnectFailureUnknownLogout then Some "logged out for unknown reason"
  else if r =? ConnectFailureClientOutdated then Some "client is out of date"
  else if r =? ConnectFailureBadUserAgent then Some "client user agent was rejected"
  else if r =? ConnectFailureCATExpired then Some "messenger crypto auth token has expired"
  else if r =? ConnectFailureCATInvalid then Some "messenger crypto auth token is invalid"
  else None.

Definition NumberString (r : Z) : string := itoa r.
Definition ConnectFailureReason_String (r : Z) : string := itoa r +:+ ": " +:+ default "unknown error" (connectFailureReasonMessage r).

Definition tempBanReasonMessage (r : Z) : option string :=
  if r =? 101 then Some "you sent too many messages to people who don't have you in their address books"
  else if r =? 102 then Some "too many people blocked you"
  else if r =? 103 then Some "you created too many groups with people who don't have you in their address books"
  else if r =? 104 then Some "you sent the same message to too many people"
  else if r =? 106 then Some "you sent too many messages to a broadcast list"
  else None.

Definition TempBanReason_String (r : Z) : string :=
  itoa r +:+ ": " +:+ default "you may have violated the terms of service (unknown error)" (tempBanReasonMessage r).

Section descriptions.
(** The text of a duration. *)
Context (Duration_String : Z -> string).

Definition TemporaryBan_String (code expire : Z) : string :=
  let text := "You've been temporarily banned: " +:+ TempBanReason_String code in
  if expire =? 0 then text else text +:+ ". The ban expires in " +:+ Duration_String expire.

(** What is said of the events after which the client does not reconnect. *)
Definition PermanentDisconnectDescription (e : event) : option string :=
  match e with
  | LoggedOut _ reason => Some (ConnectFailureReason_String reason)
  | StreamReplaced => Some "stream replaced"
  | ClientOutdated => Some "client outdated"
  | CATRefreshError => Some "CAT refresh failed"
  | TemporaryBan code expire => Some ("temporarily banned: " +:+ TemporaryBan_String code expire)
  | ConnectFailure reason _ _ => Some ("connect failure: " +:+ ConnectFailureReason_String reason)
  | _ => None
  end.

(** A reason for which the session's data is deleted is described by its own text,
    never as unknown. *)
Lemma logged_out_described r : IsLoggedOut r = true -> exists m, connectFailureReasonMessage r = Some m.
Proof.
  unfold IsLoggedOut. rewrite !orb_true_iff, !Z.eqb_eq. intros [[-> | ->]| ->]; by eexists.
Qed.

(** A log-out reported by a stream error has no reason, and is described as unknown. *)
Lemma stream_logout_unknown : PermanentDisconnectDescription (LoggedOut false 0) = Some "0: unknown error".
Proof. reflexivity. Qed.

End descriptions.

End reasons.
