(* ===== verification/PanelSessions.v ===== *)
(** * The control panel: sessions, pairing and sending

    main.go, admin_routes.go, admin_logout.go, admin_pair_links_status.go and
    user_whatsapp_pairing.go. [http]: requests and replies. [manager]: the two maps of
    sessions. [panel]: the tables of sessions, pairing links and accounts, and the
    handlers over them, each an atomic step except that looking at a pairing link and
    marking it are two. *)

From S2P Require Import Prelude GoStrings StateErr Jid Sql Safety.
From stdpp Require Import sorting.

#[local] Open Scope string_scope.
#[local] Open Scope list_scope.
#[local] Open Scope Z_scope.

Module http.

(** What the handlers read of a request; the values are "" when absent. *)
Record Request := mkRequest { Method : string; Query : string -> string; Header : string -> string }.

Inductive reply :=
  | Empty
  | Failure (message : string)
  | Success (fields : list (string * string)).

Record response := mkResponse { code : Z; body : reply }.

Definition fail (code : Z) (message : string) : response := mkResponse code (Failure message).
Definition success (fields : list (string * string)) : response := mkResponse 200 (Success fields).

Definition getUserID (r : Request) : string :=
  let id := trim_space (Query r "user_id") in
  if String.eqb id "" then trim_space (Header r "X-User-ID") else id.

(** A handler in the style of early returns: [Err] is a reply, too. *)
Definition serve {W} (m : stm W response response) (w : W) : W * option response :=
  match m w with
  | (w, Ok r) | (w, Err r) => (w, Some r)
  | (w, _) => (w, None)
  end.

Definition options_only {W} (r : Request) : stm W response unit := if String.eqb (Method r) "OPTIONS" then throw (mkResponse 204 Empty) else mret tt.

Definition method {W} (ms : list string) (r : Request) : stm W response unit :=
  if existsb (String.eqb (Method r)) ms then mret tt else throw (mkResponse 405 Empty).

Definition requireUserID {W} (r : Request) : stm W response string :=
  let id := getUserID r in if String.eqb id "" then throw (fail 400 "user_id is required") else mret id.

End http.

Module manager.

(** Sessions are pointers. *)
Record SessionManager := mkManager { sessions : gmap string N; pending : gmap string N }.

Definition getSession (uid : string) (m : SessionManager) : option N :=
  match sessions m !! uid with Some s => Some s | None => pending m !! uid end.

Definition createPendingSession (uid : string) (s : N) (m : SessionManager) : bool * SessionManager :=
  match sessions m !! uid, pending m !! uid with
  | None, None => (true, mkManager (sessions m) (<[uid := s]> (pending m)))
  | _, _ => (false, m)
  end.

Definition setActive (uid : string) (s : N) (m : SessionManager) : SessionManager := mkManager (<[uid := s]> (sessions m)) (delete uid (pending m)).

(** Only an active session is given back. *)
Definition removeSession (uid : string) (m : SessionManager) : option N * SessionManager :=
  (sessions m !! uid, mkManager (delete uid (sessions m)) (delete uid (pending m))).

(** A user has one session: active or pending. *)
Definition single (m : SessionManager) : Prop := forall uid, sessions m !! uid = None \/ pending m !! uid = None.

Lemma single_create uid s m : single m -> single (snd (createPendingSession uid s m)).
Proof.
  intros H u. unfold createPendingSession. destruct (sessions m !! uid) eqn:E1; [apply H|]. destruct (pending m !! uid) eqn:E2; [apply H|].
  cbn. destruct (decide (uid = u)) as [->|]; [by left|]. rewrite lookup_insert_ne by done. apply H.
Qed.

Lemma single_setActive uid s m : single m -> single (setActive uid s m).
Proof.
  intros H u. cbn. destruct (decide (uid = u)) as [->|]; [right; by rewrite lookup_delete_eq|]. rewrite lookup_insert_ne, lookup_delete_ne by done. apply H.
Qed.

Lemma single_remove uid m : single m -> single (snd (removeSession uid m)).
Proof.
  intros H u. cbn. destruct (decide (uid = u)) as [->|]; [left; by rewrite lookup_delete_eq|]. rewrite !lookup_delete_ne by done. apply H.
Qed.

Lemma created uid s m : fst (createPendingSession uid s m) = true -> getSession uid (snd (createPendingSession uid s m)) = Some s.
Proof.
  unfold createPendingSession, getSession. destruct (sessions m !! uid) eqn:E1; [done|]. destruct (pending m !! uid); [done|]. intros _. cbn. by rewrite E1, lookup_insert_eq.
Qed.

End manager.

Module panel.

Import jid http manager sql.

(** ** State *)

Record link := mkLink { l_user : string; l_created : Z; l_expires : Z; l_used : bool }.
Record pairing := mkPairing { p_user : string; p_phone : string; p_expires : Z }.
Record account := mkAccount { a_id : string; a_user : string; a_whatsapp : string; a_phone : string; a_status : string }.
Record whatsapp_session := mkWS { ws_jid : string; ws_phone : string; ws_seen : Z }.

Record tables := mkTables {
  user_sessions : gmap string (string * Z);          (* jid and time; a jid occurs once *)
  whatsapp_sessions : gmap string whatsapp_session;
  pairing_links : gmap string link;
  whatsapp_pairing_sessions : gmap string pairing;
  user_whatsapp_accounts : list account
}.

(** What the panel sees of a client. *)
Record client := mkClient { IsLoggedIn : bool; IsConnected : bool; StoreID : option JID }.

Inductive effect :=
  | PairPhone (s : N) (phone : string)
  | Disconnect (s : N)
  | Logout (s : N)
  | AutoPairMessage (token uid : string).             (* the goroutine started for a link *)

Record memory := mkMemory { mgr : SessionManager; clients : gmap N client; made : N; effects : list effect }.

Abbreviation world := (db tables memory).
Notation handler A := (stm (db tables memory) response A).

Definition with_sessions (f : gmap string (string * Z) -> gmap string (string * Z)) (t : tables) : tables :=
  mkTables (f (user_sessions t)) (whatsapp_sessions t) (pairing_links t) (whatsapp_pairing_sessions t) (user_whatsapp_accounts t).
Definition with_whatsapp f (t : tables) : tables :=
  mkTables (user_sessions t) (f (whatsapp_sessions t)) (pairing_links t) (whatsapp_pairing_sessions t) (user_whatsapp_accounts t).
Definition with_links f (t : tables) : tables :=
  mkTables (user_sessions t) (whatsapp_sessions t) (f (pairing_links t)) (whatsapp_pairing_sessions t) (user_whatsapp_accounts t).
Definition with_pairings f (t : tables) : tables :=
  mkTables (user_sessions t) (whatsapp_sessions t) (pairing_links t) (f (whatsapp_pairing_sessions t)) (user_whatsapp_accounts t).
Definition with_accounts f (t : tables) : tables :=
  mkTables (user_sessions t) (whatsapp_sessions t) (pairing_links t) (whatsapp_pairing_sessions t) (f (user_whatsapp_accounts t)).

(** ** The store of sessions *)

Definition saveUserSession (uid : string) (j : JID) (now : Z) : dbm tables memory unit :=
  exec (fun t =>
    if existsb (fun x => negb (String.eqb (fst x) uid) && String.eqb (fst (snd x)) (String_ j)) (map_to_list (user_sessions t)) then None
    else Some (with_sessions <[uid := (String_ j, now)]> t));;
  exec (fun t => Some (with_whatsapp <[uid := mkWS (String_ j) (User j) now]> t)).

Definition deleteUserSession (uid : string) : dbm tables memory unit :=
  exec (fun t => Some (with_sessions (delete uid) t));;
  exec (fun t => Some (with_whatsapp (delete uid) t)).

Definition ask {A} (m : dbm tables memory A) (r : response) : handler A := wrap (fun _ => r) m.
Definition ignoring {A} (m : dbm tables memory A) : handler (sql_error + A) := wrap (fun _ => mkResponse 500 Empty) (try m).

Definition memory_of : handler memory := fun w => (w, Ok (mem w)).
Definition set_memory (m : memory) : handler unit := fun w => (set_mem m w, Ok tt).
Definition change_memory (f : memory -> memory) : handler unit := fun w => (set_mem (f (mem w)) w, Ok tt).

Definition with_mgr (m : SessionManager) (s : memory) : memory := mkMemory m (clients s) (made s) (effects s).
Definition did (e : effect) (s : memory) : memory := mkMemory (mgr s) (clients s) (made s) (effects s ++ [e]).
Definition set_client (n : N) (c : client) (s : memory) : memory := mkMemory (mgr s) (<[n := c]> (clients s)) (made s) (effects s).

Definition find_session (uid : string) : handler (option (N * client)) := m ← memory_of; mret (s ← getSession uid (mgr m); c ← clients m !! s; Some (s, c)).
Definition activate (uid : string) (s : N) : handler unit := change_memory (fun m => with_mgr (setActive uid s (mgr m)) m).
Definition drop_session (uid : string) : handler (option N) :=
  m ← memory_of; let '(s, g) := removeSession uid (mgr m) in change_memory (with_mgr g);; mret s.

Definition disconnect (s : N) : handler unit :=
  change_memory (fun m => did (Disconnect s) (match clients m !! s with Some c => set_client s (mkClient (IsLoggedIn c) false (StoreID c)) m | None => m end)).

(** [client.Logout]; [answered]: whether the server answers. Its error is dropped. *)
Definition log_out (answered : bool) (s : N) : handler unit :=
  change_memory (fun m => did (Logout s) (match clients m !! s with Some c => if answered then set_client s (mkClient (IsLoggedIn c) false None) m else m | None => m end)).

(** NewDevice, NewClient and Connect: [false] when the connection fails. *)
Definition new_client (connects : bool) : handler (option N) :=
  if connects then m ← memory_of; set_memory (mkMemory (mgr m) (<[made m := mkClient false true None]> (clients m)) (made m + 1) (effects m));; mret (Some (made m))
  else mret None.

Definition create_pending (uid : string) (s : N) : handler bool :=
  m ← memory_of; let '(b, g) := createPendingSession uid s (mgr m) in change_memory (with_mgr g);; mret b.

Definition state_text (loggedIn connected : bool) : string :=
  if loggedIn && connected then "ready" else if connected then "connected" else if loggedIn then "logged_in" else "disconnected".

(** ** Handlers of main.go *)

Definition status_fields (uid state : string) (loggedIn connected : bool) : list (string * string) :=
  [("user_id", uid); ("state", state); ("logged_in", format_bool loggedIn); ("connected", format_bool connected)].

Definition statusHandler (now : Z) (r : Request) : handler response :=
  options_only r;; method ["GET"] r;; uid ← requireUserID r;
  s ← find_session uid;
  match s with
  | None => mret (mkResponse 503 (Success (status_fields uid "not_found" false false)))
  | Some (n, c) =>
      (match IsLoggedIn c, StoreID c with
       | true, Some j => saved ← ignoring (saveUserSession uid j now); match saved with inr _ => activate uid n | inl _ => mret tt end
       | _, _ => mret tt
       end);;
      mret (mkResponse (if IsConnected c then 200 else 503) (Success (status_fields uid (state_text (IsLoggedIn c) (IsConnected c)) (IsLoggedIn c) (IsConnected c))))
  end.

Definition rootHandler (r : Request) : handler response :=
  options_only r;; uid ← requireUserID r;
  s ← find_session uid;
  let c := snd <$> s in
  let connected := default false (IsConnected <$> c) in let loggedIn := default false (IsLoggedIn <$> c) in
  let status := if loggedIn && connected then "Logged In & Ready" else if loggedIn then "Logged In but Disconnected" else "Not Logged In" in
  mret (success [("message", "API is running. State: " +:+ status); ("connected", format_bool connected)]).

(** The code a pairing is given, or the error. *)
Definition pair_phone (s : N) (phone : string) (answer : string + string) : handler (string + string) := change_memory (did (PairPhone s phone));; mret answer.

(** What [pairHandler] and [publicPairStartHandler] do when there is no session. *)
Definition start_pairing (uid phone : string) (answer : string + string) (n : N) : handler (string + string) :=
  created ← create_pending uid n;
  if negb created then mret (inl "Pairing already in progress")
  else
    code ← pair_phone n phone answer;
    match code with
    | inl e => _ ← drop_session uid; mret (inl e)
    | inr c => mret (inr c)
    end.

Definition pairHandler (connects : string + unit) (answer : string + string) (r : Request) : handler response :=
  options_only r;; method ["GET"] r;; uid ← requireUserID r;
  let phone := trim_space (Query r "phone") in
  if String.eqb phone "" then throw (fail 200 "Invalid phone")
  else
    existing ← find_session uid;
    match existing with
    | Some (_, c) => throw (fail 200 (if IsLoggedIn c then "Already paired! Use the admin/user logout flow to reset." else "Pairing already in progress"))
    | None =>
        n ← new_client (match connects with inr _ => true | inl _ => false end);
        match n with
        | None => throw (fail 200 (match connects with inl e => e | inr _ => "" end))
        | Some n =>
            code ← start_pairing uid phone answer n;
            match code with
            | inl e => throw (fail 200 e)
            | inr c => mret (success [("code", c); ("message", "Pairing started. Poll /status with the same user_id.")])
            end
        end
    end.

(** Sessions started again with the panel; [device]: whether the stored address has a
    device, [connects]: whether its client connects. *)
Fixpoint load_rows (device connects : JID -> bool) (l : list (string * (string * Z))) : handler unit :=
  match l with
  | [] => mret tt
  | (uid, (text, _)) :: l =>
      match ParseJID text with
      | Ok j =>
          if device j && connects j then
            m ← memory_of;
            set_memory (mkMemory (mkManager (<[uid := made m]> (sessions (mgr m))) (pending (mgr m)))
              (<[made m := mkClient false true (Some j)]> (clients m)) (made m + 1) (effects m));;
            load_rows device connects l
          else load_rows device connects l
      | _ => load_rows device connects l
      end
  end.

Definition loadSessions (device connects : JID -> bool) : handler unit :=
  l ← ask (query (fun t => map_to_list (user_sessions t))) (mkResponse 500 Empty); load_rows device connects l.

(** ** admin_logout.go, admin_routes.go *)

Definition logoutHandler (answered : bool) (r : Request) : handler response :=
  method ["POST"; "GET"] r;;
  let uid := getUserID r in
  if String.eqb uid "" then throw (fail 400 "user_id is required")
  else
    s ← drop_session uid;
    m ← memory_of;
    match s with
    | None => _ ← ignoring (deleteUserSession uid); mret (success [("message", "WhatsApp session removed")])
    | Some n =>
        (match clients m !! n with Some c => if IsLoggedIn c then log_out answered n else mret tt | None => mret tt end);;
        _ ← ignoring (deleteUserSession uid); mret (success [("message", "WhatsApp logged out")])
    end.

Definition adminReconnectHandler (connects : bool) (r : Request) : handler response :=
  method ["POST"; "GET"] r;;
  let uid := getUserID r in
  if String.eqb uid "" then throw (mkResponse 400 Empty)
  else
    s ← find_session uid;
    match s with
    | Some (n, c) =>
        if negb (IsLoggedIn c) then throw (mkResponse 404 Empty)
        else if IsConnected c then mret (success [("message", "Reconnect requested"); ("connected", "true")])
        else if negb connects then throw (mkResponse 503 Empty)
        else change_memory (set_client n (mkClient true true (StoreID c)));; mret (success [("message", "Reconnect requested"); ("connected", "true")])
    | None => throw (mkResponse 404 Empty)
    end.

Definition hour : Z := 3600 * 10 ^ 9.

(** Creating the tables when they are missing: a statement that changes no row. *)
Definition ensure : dbm tables memory unit := exec Some.

Definition base_url (PUBLIC_BASE_URL : string) : string := if String.eqb PUBLIC_BASE_URL "" then "https://whatsapp-custom-1.onrender.com" else PUBLIC_BASE_URL.

(** [token]: the random one; PUBLIC_BASE_URL without its final slashes. *)
Definition adminCreatePairLinkHandler (PUBLIC_BASE_URL token : string) (now : Z) (r : Request) : handler response :=
  method ["POST"] r;;
  let uid := trim_space (Query r "user_id") in
  if String.eqb uid "" then throw (fail 400 "user_id is required")
  else
    ask ensure (mkResponse 500 Empty);;
    ask (exec (fun t => match pairing_links t !! token with
                        | Some _ => None
                        | None => Some (with_links <[token := mkLink uid now (now + 24 * hour) false]> t)
                        end)) (mkResponse 500 Empty);;
    mret (success [("user_id", uid); ("link", base_url PUBLIC_BASE_URL +:+ "/connect/" +:+ token)]).

Definition getPairLink (now : Z) (token : string) : handler (option string) :=
  if String.eqb (trim_space token) "" then mret None
  else
    e ← ignoring ensure;
    match e with
    | inl _ => mret None
    | inr _ =>
        l ← ignoring (query (fun t => pairing_links t !! token));
        mret (match l with
              | inr (Some l) => if l_used l || (l_expires l <? now) then None else Some (l_user l)
              | _ => None
              end)
    end.

Definition bad_link : response := fail 404 "Pairing link is invalid or expired".

Definition publicPairStartHandler (now : Z) (connects : bool) (answer : string + string) (r : Request) : handler response :=
  method ["POST"] r;;
  let token := trim_space (Query r "token") in
  link ← getPairLink now token;
  match link with
  | None => throw bad_link
  | Some uid =>
      let phone := trim_space (Query r "phone") in
      if String.eqb phone "" then throw (fail 400 "Phone number is required")
      else
        existing ← find_session uid;
        match existing with
        | Some (_, c) => throw (fail 200 (if IsLoggedIn c then "This WhatsApp account is already connected" else "Pairing is already in progress"))
        | None =>
            n ← new_client connects;
            match n with
            | None => throw (mkResponse 503 Empty)
            | Some n =>
                code ← start_pairing uid phone answer n;
                match code with inl e => throw (fail 200 e) | inr c => mret (success [("code", c)]) end
            end
        end
  end.

(** The first half of [publicPairStatusHandler]: which user the link is for. *)
Definition status_check (now : Z) (r : Request) : handler (string * string) :=
  method ["GET"] r;;
  let token := trim_space (Query r "token") in
  link ← getPairLink now token;
  match link with None => throw bad_link | Some uid => mret (token, uid) end.

(** One statement, which tells how many rows it changed. *)
Definition mark_used (token : string) : dbm tables memory bool :=
  w ← get_state;
  let fresh := match pairing_links (rows w) !! token with Some l => negb (l_used l) | None => false end in
  exec (fun t => Some (match pairing_links t !! token with
                       | Some l => with_links <[token := mkLink (l_user l) (l_created l) (l_expires l) true]> t
                       | None => t
                       end));;
  mret fresh.

(** The second half: the session's state, the link's use and the message that is sent
    once. *)
Definition status_answer (now : Z) (token uid : string) : handler response :=
  s ← find_session uid;
  match s with
  | None => mret (success [("state", "waiting"); ("connected", "false"); ("logged_in", "false")])
  | Some (n, c) =>
      (match IsLoggedIn c, StoreID c with
       | true, Some j =>
           _ ← ignoring (saveUserSession uid j now);
           marked ← ignoring (mark_used token);
           (match marked with inr true => change_memory (did (AutoPairMessage token uid)) | _ => mret tt end);;
           activate uid n
       | _, _ => mret tt
       end);;
      mret (success [("state", state_text (IsLoggedIn c) (IsConnected c)); ("connected", format_bool (IsConnected c)); ("logged_in", format_bool (IsLoggedIn c))])
  end.

Definition publicPairStatusHandler (now : Z) (r : Request) : handler response := '(token, uid) ← status_check now r; status_answer now token uid.

(** admin_pair_links_status.go: the links of a user, or all, newest first, at most
    fifty, with what became of them. *)
Definition link_status (now : Z) (l : link) : string := if l_used l then "linked" else if l_expires l <? now then "expired" else "pending".

Definition newer (a b : string * link) : Prop := l_created (snd b) <= l_created (snd a).
#[export] Instance newer_dec a b : Decision (newer a b) := Z_le_dec _ _.

Definition adminPairLinksStatusHandler (now : Z) (uid : string) (t : tables) : list (string * string * string) :=
  let uid := trim_space uid in
  let l := List.filter (fun x => String.eqb uid "" || String.eqb (l_user (snd x)) uid) (map_to_list (pairing_links t)) in
  map (fun x => (l_user (snd x), "/connect/" +:+ fst x, link_status now (snd x))) (take 50 (merge_sort newer l)).

(** ** message_safety.go: sending for the administrator, the public and a new pairing *)

Section send.
(** The administrator's settings, and what the send meets. *)
Context (st : safety.settings) (env : safety.send_env).

Abbreviation sent := (safety.panel * list safety.effect)%type.

Definition sending (uid phone text : string) (p : safety.panel) : sent * outcome safety.send_error unit :=
  let '(p, es, r) := safety.safeSendMessage st env uid (mkJID phone 0 0 0 DefaultUserServer) text p in ((p, es), r).

(** [adminSafeSendHandler] and [sendHandler], which differ in the codes of their
    refusals. *)
Definition send_with (unavailable bad : Z) (r : Request) (p : safety.panel) : handler (sent * response) :=
  uid ← requireUserID r;
  s ← find_session uid;
  match s with
  | Some (_, c) =>
      if negb (IsLoggedIn c && IsConnected c) then throw (fail unavailable "WhatsApp is not connected")
      else
        let phone := trim_space (Query r "phone") in
        if String.eqb phone "" || String.eqb (Query r "text") "" then throw (fail bad "Phone and text are required")
        else
          let '(q, o) := sending uid phone (Query r "text") p in
          mret (q, match o with Ok _ => success [("connected", "true")] | _ => fail 200 "send failed" end)
  | None => throw (fail unavailable "WhatsApp is not connected")
  end.

Definition adminSafeSendHandler (r : Request) (p : safety.panel) : handler (sent * response) := method ["GET"] r;; send_with 503 400 r p.
Definition sendHandler (r : Request) (p : safety.panel) : handler (sent * response) := options_only r;; method ["GET"] r;; send_with 200 200 r p.

Definition maybeSendAutoPairMessage (uid : string) (p : safety.panel) (w : world) : sent :=
  if negb (String.eqb (safety.getAdminSetting st "auto_message_after_pairing" "false") "true") then (p, [])
  else
    let target := trim_space (safety.getAdminSetting st "auto_message_target" "") in
    let text := trim_space (safety.getAdminSetting st "auto_message_text" "") in
    if String.eqb target "" || String.eqb text "" then (p, [])
    else
      match getSession uid (mgr (mem w)) ≫= (fun n => clients (mem w) !! n) with
      | Some c => if IsLoggedIn c && IsConnected c then fst (sending uid target text p) else (p, [])
      | None => (p, [])
      end.

End send.

End panel.

(** ** user_whatsapp_pairing.go and the accounts of user_features.go *)

Module accounts.

Import jid http manager sql panel.

Section accounts.
(** Whether the table of accounts takes a row: it is not made by this program. *)
Context (admits : list account -> account -> bool).

Definition replace_signs (s : string) : string := replace (replace (replace s "+" "") " " "") "-" "".

Fixpoint digits_only (s : string) : bool := match s with EmptyString => true | String a s => (match digit a with Some _ => true | None => false end) && digits_only s end.

Definition linked (id : string) (t : tables) : list account :=
  List.filter (fun a => String.eqb (a_user a) id && negb (String.eqb (a_status a) "removed")) (user_whatsapp_accounts t).

Definition login_required : response := fail 401 "Login required".
Definition the_user (auth : option string) : handler string := match auth with Some id => mret id | None => throw login_required end.

(** 160 seconds. *)
Definition pairing_time : Z := 160 * 10 ^ 9.

(** [auth]: the database's id of the user who is logged in; [key]: the random key. *)
Definition userWhatsAppPairStartHandler (auth : option string) (key : string) (now : Z) (connects : bool) (answer : string + string) (r : Request) : handler response :=
  method ["POST"] r;;
  id ← the_user auth;
  ask ensure (fail 500 "Could not initialize WhatsApp pairing");;
  count ← ask (query (fun t => length (linked id t))) (mkResponse 500 Empty);
  if (3 <=? count)%nat then throw (fail 409 "Maximum 3 WhatsApp accounts reached")
  else
    let phone := replace_signs (trim_space (Query r "phone")) in
    if (String.length phone <? 7)%nat || (15 <? String.length phone)%nat then throw (fail 400 "Phone number must contain 7-15 digits")
    else if negb (digits_only phone) then throw (fail 400 "Phone number must contain digits only")
    else
      n ← new_client connects;
      match n with
      | None => throw (fail 503 "Could not connect WhatsApp")
      | Some n =>
          created ← create_pending key n;
          if negb created then disconnect n;; throw (fail 409 "Pairing session collision; try again")
          else
            e ← ignoring (exec (fun t => match whatsapp_pairing_sessions t !! key with
                                         | Some _ => None
                                         | None => Some (with_pairings <[key := mkPairing id phone (now + pairing_time)]> t)
                                         end));
            match e with
            | inl _ => _ ← drop_session key; disconnect n;; throw (mkResponse 500 Empty)
            | inr _ =>
                code ← pair_phone n phone answer;
                match code with
                | inl e =>
                    _ ← drop_session key; disconnect n;;
                    _ ← ignoring (exec (fun t => Some (with_pairings (delete key) t)));
                    throw (fail 502 e)
                | inr c => mret (success [("session_key", key); ("code", c)])
                end
            end
      end.

Definition waiting (connected : bool) : response := success [("state", "waiting"); ("connected", format_bool connected); ("logged_in", "false")].
Definition expired : response := fail 410 "Pairing session expired".
Definition forget_pairing (key : string) : handler unit := _ ← ignoring (exec (fun t => Some (with_pairings (delete key) t))); mret tt.

Definition add_account (uuid id key phone : string) : dbm tables memory unit :=
  exec (fun t => let a := mkAccount uuid id key phone "active" in
    if admits (user_whatsapp_accounts t) a then Some (with_accounts (fun l => l ++ [a]) t) else None).

Definition userWhatsAppPairStatusHandler (auth : option string) (uuid : string) (now : Z) (r : Request) : handler response :=
  method ["GET"] r;;
  id ← the_user auth;
  let key := trim_space (Query r "session_key") in
  if String.eqb key "" then throw (fail 400 "session_key is required")
  else
    ask ensure (mkResponse 500 Empty);;
    p ← ignoring (query (fun t => whatsapp_pairing_sessions t !! key));
    match p with
    | inr (Some p) =>
        if negb (String.eqb (p_user p) id) then throw (fail 404 "Pairing session not found")
        else
          s ← find_session key;
          match s with
          | None => if p_expires p <? now then forget_pairing key;; throw expired else mret (waiting false)
          | Some (n, c) =>
              if negb (IsLoggedIn c) then
                if p_expires p <? now then _ ← drop_session key; forget_pairing key;; throw expired
                else mret (waiting (IsConnected c))
              else
                match StoreID c with
                | None => throw (fail 500 "WhatsApp device ID unavailable")
                | Some j =>
                    e ← ignoring (add_account uuid id key (User j));
                    match e with
                    | inl ErrDatabase => throw (fail 500 "Could not save WhatsApp account")
                    | _ =>
                        _ ← ignoring (saveUserSession key j now);
                        forget_pairing key;;
                        activate key n;;
                        mret (success [("state", "ready"); ("connected", format_bool (IsConnected c)); ("phone", User j); ("account_key", key)])
                    end
                end
          end
    | _ => throw (fail 404 "Pairing session not found")
    end.

(** [accountID]: what the body names, if it can be read. *)
Definition userWhatsAppRemoveHandler (auth : option string) (answered : bool) (accountID : option string) : handler response :=
  id ← the_user auth;
  match accountID with
  | None => throw (fail 400 "account_id is required")
  | Some a =>
      if String.eqb (trim_space a) "" then throw (fail 400 "account_id is required")
      else
        row ← ignoring (query (fun t => List.find (fun x => String.eqb (a_id x) a) (linked id t)));
        match row with
        | inr (Some x) =>
            s ← find_session (a_whatsapp x);
            (match s with
             | Some (n, c) => (if IsLoggedIn c then log_out answered n else mret tt);; _ ← drop_session (a_whatsapp x); mret tt
             | None => mret tt
             end);;
            _ ← ignoring (exec (fun t => Some (with_accounts (map (fun x => if String.eqb (a_id x) a && String.eqb (a_user x) id
                                  then mkAccount (a_id x) (a_user x) (a_whatsapp x) (a_phone x) "removed" else x)) t)));
            mret (success [("message", "WhatsApp account removed")])
        | _ => throw (fail 404 "WhatsApp account not found")
        end
  end.

End accounts.

End accounts.
