(* ===== verification/PanelProofs.v ===== *)
(** * The control panel's sessions and links: what holds whatever is asked

    Invariants of every sequence of requests, of the two halves of the public status
    request, and of changes of the clients from outside; and what the handlers leave
    behind when a pairing fails. *)

From S2P Require Import Prelude GoStrings StateErr Jid Sql Safety PanelSessions.

#[local] Open Scope string_scope.
#[local] Open Scope list_scope.
#[local] Open Scope Z_scope.

Module panel_proofs.

Import jid http manager sql panel accounts.

(** ** Requests *)

(** The requests with what they meet. [CheckLink] and [Answer] are the halves of the
    public status request; [Answer] may come at any time after. [Outside]: a client
    connects, logs in or loses its connection by itself. *)
Inductive request :=
  | Status (now : Z) (r : Request) | Root (r : Request)
  | Pair (connects : string + unit) (answer : string + string) (r : Request)
  | AdminLogout (answered : bool) (r : Request) | Reconnect (connects : bool) (r : Request)
  | CreateLink (base token : string) (now : Z) (r : Request)
  | LinkStart (now : Z) (connects : bool) (answer : string + string) (r : Request)
  | CheckLink (now : Z) (r : Request) | Answer (now : Z) (token uid : string)
  | UserStart (auth : option string) (key : string) (now : Z) (connects : bool) (answer : string + string) (r : Request)
  | UserStatus (auth : option string) (uuid : string) (now : Z) (r : Request)
  | UserRemove (auth : option string) (answered : bool) (accountID : option string)
  | Outside (n : N) (c : client).

Section requests.
Context (admits : list account -> account -> bool).

Definition no_reply {A} (m : handler A) : handler response := _ ← m; mret (mkResponse 200 Empty).

Definition handle (q : request) : handler response :=
  match q with
  | Status now r => statusHandler now r
  | Root r => rootHandler r
  | Pair c a r => pairHandler c a r
  | AdminLogout a r => logoutHandler a r
  | Reconnect c r => adminReconnectHandler c r
  | CreateLink b t now r => adminCreatePairLinkHandler b t now r
  | LinkStart now c a r => publicPairStartHandler now c a r
  | CheckLink now r => no_reply (status_check now r)
  | Answer now t u => status_answer now t u
  | UserStart auth k now c a r => userWhatsAppPairStartHandler auth k now c a r
  | UserStatus auth u now r => userWhatsAppPairStatusHandler admits auth u now r
  | UserRemove auth a i => userWhatsAppRemoveHandler auth a i
  | Outside n c => no_reply (change_memory (set_client n c))
  end.

Definition perform (w : world) (q : request) : world := fst (handle q w).

(** ** The invariant *)

Definition is_auto (token : string) (e : effect) : bool := match e with AutoPairMessage t _ => String.eqb t token | _ => false end.
Definition autos (token : string) (w : world) : list effect := List.filter (is_auto token) (effects (mem w)).

Definition used_link (token : string) (w : world) : Prop := exists l, pairing_links (rows w) !! token = Some l /\ l_used l = true.

(** A link's message has been started at most once, and only when the link is used. *)
Definition links_once (w : world) : Prop := forall token, (length (autos token w) <= 1)%nat /\ (autos token w <> [] -> used_link token w).

Definition keeps (w w' : world) : Prop := (single (mgr (mem w)) -> single (mgr (mem w'))) /\ (links_once w -> links_once w').

#[local] Instance keeps_preorder : PreOrder keeps.
Proof. split; [by split|]. intros a b c [H1 H2] [H3 H4]. split; auto. Qed.

(** Links are not taken away, and used ones stay used. *)
Definition links_kept (t t' : tables) : Prop := forall token l, pairing_links t !! token = Some l -> l_used l = true ->
  exists l', pairing_links t' !! token = Some l' /\ l_used l' = true.

Lemma links_same t t' : pairing_links t' = pairing_links t -> links_kept t t'.
Proof. intros E token l H U. exists l. by rewrite E. Qed.

Lemma keeps_of w w' : (single (mgr (mem w)) -> single (mgr (mem w'))) -> (forall token, autos token w' = autos token w) -> links_kept (rows w) (rows w') -> keeps w w'.
Proof.
  intros Hs Ha Hl. split; [done|]. intros H token. rewrite Ha. destruct (H token) as [H1 H2]. split; [done|].
  intros H3. destruct (H2 H3) as (l & E & U). by eapply Hl.
Qed.

Lemma exec_result f (w w' : world) o : exec f w = (w', o) -> mem w' = mem w /\ (rows w' = rows w \/ f (rows w) = Some (rows w')).
Proof.
  unfold exec, mbind, stm_bind. destruct (statement w) as [w1 o1] eqn:E. apply statement_same in E as (R & M & [->| ->]).
  - cbn [get_state]. rewrite R. destruct (f (rows w)) as [t|]; intros [= <- <-]; cbn; auto.
  - intros [= <- <-]. auto.
Qed.

Lemma exec_ok_rows f (w w' : world) : exec f w = (w', Ok tt) -> f (rows w) = Some (rows w').
Proof.
  unfold exec, mbind, stm_bind. destruct (statement w) as [w1 o1] eqn:E. apply statement_same in E as (R & M & [->| ->]); [|done].
  cbn [get_state]. rewrite R. destruct (f (rows w)) as [t|]; [|done]. by intros [= <-].
Qed.

Lemma moves_keeps_exec f : (forall t t', f t = Some t' -> links_kept t t') -> moves keeps (exec f : dbm tables memory unit).
Proof.
  intros Hf w w' o H. apply exec_result in H as (M & R). apply keeps_of; [by rewrite M|by unfold autos; rewrite M|].
  destruct R as [->|R]; [by apply links_same|by apply Hf].
Qed.

Lemma moves_keeps_query {A} (q : tables -> A) : moves keeps (query q : dbm tables memory A).
Proof.
  intros w w' o. unfold query, mbind, stm_bind. destruct (statement w) as [w1 o1] eqn:E. apply statement_same in E as (R & M & [->| ->]); intros [= <- <-];
    (apply keeps_of; [by rewrite M|by unfold autos; rewrite M|by apply links_same; rewrite R]).
Qed.

Lemma moves_keeps_ask {A} (m : dbm tables memory A) r : moves keeps m -> moves keeps (ask m r).
Proof. intros H w w' o. unfold ask, wrap. destruct (m w) as [w1 o1] eqn:E. intros [= <- <-]. by eapply H. Qed.

Lemma moves_keeps_ignoring {A} (m : dbm tables memory A) : moves keeps m -> moves keeps (ignoring m).
Proof. intros H w w' o. unfold ignoring, wrap, try. destruct (m w) as [w1 [a|e| |]] eqn:E; intros [= <- <-]; by eapply H. Qed.

Lemma moves_keeps_memory f : (forall m, single (mgr m) -> single (mgr (f m))) -> (forall m token, List.filter (is_auto token) (effects (f m)) = List.filter (is_auto token) (effects m)) ->
  moves keeps (change_memory f).
Proof. intros Hs Ha w w' o [= <- <-]. apply keeps_of; [apply Hs|intros token; apply Ha|by apply links_same]. Qed.

Lemma filter_did token e m : (forall t u, e <> AutoPairMessage t u) -> List.filter (is_auto token) (effects (did e m)) = List.filter (is_auto token) (effects m).
Proof. intros He. cbn. rewrite List.filter_app. cbn. destruct e; cbn; rewrite ?app_nil_r; try done. by destruct (He token0 uid). Qed.

Lemma moves_keeps_memory_of : moves keeps memory_of.
Proof. apply moves_still; [apply _|done]. Qed.

#[local] Hint Resolve moves_keeps_query moves_keeps_ask moves_keeps_ignoring moves_keeps_memory_of : moves.

Ltac keeps_tac := unfold find_session, drop_session, create_pending, new_client, pair_phone, log_out, disconnect, activate, no_reply, options_only, method, requireUserID in *; moves_tac.

Lemma keeps_save uid j now : moves keeps (saveUserSession uid j now).
Proof. unfold saveUserSession. apply moves_bind; [apply _|apply moves_keeps_exec|intros _; apply moves_keeps_exec]; intros t t'; [destruct (existsb _ _); [done|]|]; intros [= <-]; by apply links_same. Qed.

Lemma keeps_delete uid : moves keeps (deleteUserSession uid).
Proof. unfold deleteUserSession. apply moves_bind; [apply _|apply moves_keeps_exec|intros _; apply moves_keeps_exec]; intros t t' [= <-]; by apply links_same. Qed.

Lemma keeps_ensure : moves keeps ensure.
Proof. apply moves_keeps_exec. intros t t' [= <-]. by apply links_same. Qed.

Lemma keeps_activate uid n : moves keeps (activate uid n).
Proof. apply moves_keeps_memory; [intros m; apply single_setActive|done]. Qed.

Lemma keeps_drop uid : moves keeps (drop_session uid).
Proof.
  unfold drop_session. intros w w' o [= <- <-]. apply keeps_of; [apply single_remove|done|by apply links_same].
Qed.

Lemma keeps_create uid n : moves keeps (create_pending uid n).
Proof.
  intros w w' o. unfold create_pending, mbind, stm_bind, memory_of. destruct (createPendingSession uid n (mgr (mem w))) as [b g] eqn:E. intros [= <- <-].
  apply keeps_of; [cbn; intros H; by rewrite <- (f_equal snd E : _ = g); apply single_create|done|by apply links_same].
Qed.

Lemma keeps_did e : (forall t u, e <> AutoPairMessage t u) -> moves keeps (change_memory (did e)).
Proof. intros He. apply moves_keeps_memory; [done|intros; by apply filter_did]. Qed.

Lemma keeps_disconnect n : moves keeps (disconnect n).
Proof. apply moves_keeps_memory; intros m; [by destruct (clients m !! n)|]. intros token. rewrite filter_did by done. by destruct (clients m !! n). Qed.

Lemma keeps_log_out a n : moves keeps (log_out a n).
Proof. apply moves_keeps_memory; intros m; [by destruct (clients m !! n), a|]. intros token. rewrite filter_did by done. by destruct (clients m !! n), a. Qed.

Lemma keeps_new b : moves keeps (new_client b).
Proof. intros w w' o. unfold new_client. destruct b; intros [= <- <-]; (apply keeps_of; [done|done|by apply links_same]). Qed.

Lemma keeps_pair_phone n phone a : moves keeps (pair_phone n phone a).
Proof. pose proof (keeps_did (PairPhone n phone) ltac:(done)). unfold pair_phone. moves_tac. Qed.

#[local] Hint Resolve keeps_save keeps_delete keeps_ensure keeps_activate keeps_drop keeps_create keeps_disconnect keeps_log_out keeps_new keeps_pair_phone : moves.

Lemma keeps_find uid : moves keeps (find_session uid).
Proof. apply moves_still; [apply _|done]. Qed.
#[local] Hint Resolve keeps_find : moves.

Lemma keeps_start uid phone a n : moves keeps (start_pairing uid phone a n).
Proof. unfold start_pairing. moves_tac. Qed.

Lemma keeps_link now token : moves keeps (getPairLink now token).
Proof. unfold getPairLink. moves_tac. Qed.

Lemma keeps_method ms r : moves keeps (http.method ms r : handler unit).
Proof. unfold http.method. moves_tac. Qed.
Lemma keeps_options r : moves keeps (options_only r : handler unit).
Proof. unfold options_only. moves_tac. Qed.
Lemma keeps_uid r : moves keeps (requireUserID r : handler string).
Proof. unfold requireUserID. moves_tac. Qed.
Lemma keeps_user auth : moves keeps (the_user auth).
Proof. unfold the_user. moves_tac. Qed.
Lemma keeps_forget key : moves keeps (forget_pairing key).
Proof.
  unfold forget_pairing. assert (moves keeps (exec (fun t => Some (with_pairings (delete key) t)) : dbm tables memory unit)) by (apply moves_keeps_exec; intros t t' [= <-]; by apply links_same).
  moves_tac.
Qed.
#[local] Hint Resolve keeps_start keeps_link keeps_method keeps_options keeps_uid keeps_user keeps_forget : moves.

(** The one place where a link's message starts: the link was unused before. *)
Lemma keeps_mark token uid : moves keeps (marked ← ignoring (mark_used token); match marked with inr true => change_memory (did (AutoPairMessage token uid)) | _ => mret tt end : handler unit).
Proof.
  intros w w' o. unfold ignoring, wrap, try, mark_used, mbind, stm_bind, get_state.
  destruct (exec _ w) as [w1 o1] eqn:E. pose proof (exec_result _ _ _ _ E) as (M & R).
  assert (links_kept (rows w) (rows w1)) as Hk.
  { destruct R as [->|R]; [by apply links_same|]. injection R as R. rewrite <- R. intros tok l Hl Hu. destruct (pairing_links (rows w) !! token) as [l0|] eqn:E0; [|by exists l].
    cbn. destruct (decide (token = tok)) as [->|]; [rewrite lookup_insert_eq; by eexists|rewrite lookup_insert_ne by done; by exists l]. }
  assert (keeps w w1) as Hw by (apply keeps_of; [by rewrite M|by unfold autos; rewrite M|done]).
  destruct o1 as [u|e| |]; cbn; try (intros [= <- <-]; exact Hw).
  destruct (pairing_links (rows w) !! token) as [l|] eqn:El; cbn; [|intros [= <- <-]; exact Hw].
  destruct (l_used l) eqn:Eu; cbn; intros [= <- <-]; [exact Hw|]. split; [apply Hw|]. intros Hinv tok. destruct (Hinv tok) as [H1 H2].
  unfold autos. cbn [mem set_mem effects did]. rewrite List.filter_app, M. fold (autos tok w). cbn. destruct (String.eqb_spec token tok) as [->|Hne].
  - assert (autos tok w = []) as E0.
    { destruct (autos tok w); [done|]. destruct (H2 ltac:(done)) as (l' & El' & Eu'). rewrite El in El'. injection El' as <-. congruence. }
    rewrite E0. cbn. split; [lia|]. intros _. unfold used_link. cbn [rows set_mem].
    destruct u. apply exec_ok_rows in E. cbn in E. rewrite El in E. injection E as E. rewrite <- E. cbn. rewrite lookup_insert_eq. by eexists.
  - rewrite app_nil_r. split; [done|]. intros H3. destruct (H2 H3) as (l' & El' & Eu'). by eapply Hk.
Qed.

#[local] Hint Extern 4 (moves keeps (exec _)) =>
  apply moves_keeps_exec; let t := fresh in let t' := fresh in intros t t'; repeat case_match; try discriminate; intros [= <-]; by apply links_same : moves.

Lemma keeps_status now r : moves keeps (statusHandler now r).
Proof. unfold statusHandler. moves_tac. Qed.

Lemma keeps_root r : moves keeps (rootHandler r).
Proof. unfold rootHandler. moves_tac. Qed.

Lemma keeps_pair c a r : moves keeps (pairHandler c a r).
Proof. unfold pairHandler. moves_tac. Qed.

Lemma keeps_logout a r : moves keeps (logoutHandler a r).
Proof. unfold logoutHandler. moves_tac. Qed.

Lemma keeps_client n c : moves keeps (change_memory (set_client n c)).
Proof. by apply moves_keeps_memory. Qed.
#[local] Hint Resolve keeps_client : moves.

Lemma keeps_reconnect c r : moves keeps (adminReconnectHandler c r).
Proof. unfold adminReconnectHandler. moves_tac. Qed.

Lemma keeps_create_link b token now r : moves keeps (adminCreatePairLinkHandler b token now r).
Proof.
  unfold adminCreatePairLinkHandler.
  assert (forall uid, moves keeps (exec (fun t => match pairing_links t !! token with Some _ => None | None => Some (with_links <[token := mkLink uid now (now + 24 * hour) false]> t) end) : dbm tables memory unit)).
  { intros uid. apply moves_keeps_exec. intros t t'. destruct (pairing_links t !! token) eqn:E; [done|]. intros [= <-] tok l Hl Hu. exists l. cbn.
    rewrite lookup_insert_ne; [done|]. intros ->. congruence. }
  moves_tac.
Qed.

Lemma keeps_link_start now c a r : moves keeps (publicPairStartHandler now c a r).
Proof. unfold publicPairStartHandler. moves_tac. Qed.

Lemma keeps_check now r : moves keeps (status_check now r).
Proof. unfold status_check. moves_tac. Qed.

Lemma keeps_answer now token uid : moves keeps (status_answer now token uid).
Proof.
  unfold status_answer. pose proof (keeps_mark token uid) as Hm. apply moves_bind; [apply _|apply keeps_find|]. intros [[n c]|]; [|moves_tac].
  apply moves_bind; [apply _| |intros _; moves_tac]. destruct (IsLoggedIn c), (StoreID c) as [j|]; try by moves_tac.
  apply moves_bind; [apply _|moves_tac|intros _].
  intros w w' o H. assert ((m ← (marked ← ignoring (mark_used token); match marked with inr true => change_memory (did (AutoPairMessage token uid)) | _ => mret tt end); activate uid n) w = (w', o)) as H'.
  { rewrite <- H. unfold mbind, stm_bind. by destruct (ignoring (mark_used token) w) as [w1 [[e|[]]|e| |]]. }
  revert H'. apply moves_bind; [apply _|exact Hm|intros _; moves_tac].
Qed.

Lemma keeps_user_start auth k now c a r : moves keeps (userWhatsAppPairStartHandler auth k now c a r).
Proof. unfold userWhatsAppPairStartHandler. moves_tac. Qed.

Lemma keeps_user_status auth u now r : moves keeps (userWhatsAppPairStatusHandler admits auth u now r).
Proof. unfold userWhatsAppPairStatusHandler, add_account. moves_tac. Qed.

Lemma keeps_user_remove auth a i : moves keeps (userWhatsAppRemoveHandler auth a i).
Proof. unfold userWhatsAppRemoveHandler. moves_tac. Qed.
#[local] Hint Resolve keeps_status keeps_root keeps_pair keeps_logout keeps_reconnect keeps_create_link keeps_link_start keeps_check keeps_answer keeps_user_start keeps_user_status keeps_user_remove : moves.

Lemma handle_keeps q : moves keeps (handle q).
Proof. destruct q; unfold handle, no_reply; moves_tac. Qed.

Lemma perform_keeps w q : keeps w (perform w q).
Proof. unfold perform. destruct (handle q w) as [w' o] eqn:E. by eapply handle_keeps. Qed.

(** The panel when it is started with an empty database, some of whose statements may
    fail. *)
Definition started (faults : list bool) : world := mkDb (mkTables ∅ ∅ ∅ ∅ []) (mkMemory (mkManager ∅ ∅) ∅ 0 []) faults.

(** (C23) Whatever is asked of the panel, in any order, with the two halves of the public
    status request apart and statements of the database failing: a user has at most one
    session, active or pending, and the message of a pairing link is started at most
    once, and only when the link is marked as used. *)
Theorem link_message_once faults qs token : let w := foldl perform (started faults) qs in
  single (mgr (mem w)) /\ (length (autos token w) <= 1)%nat /\ (autos token w <> [] -> used_link token w).
Proof.
  intros w. assert (keeps (started faults) w) as [H1 H2].
  { unfold w. generalize (started faults). induction qs as [|q qs IH]; intros w0; [done|]. cbn [foldl]. etransitivity; [apply perform_keeps|apply IH]. }
  split; [apply H1; intros uid; by left|]. apply H2. intros tok. by split; [cbn; lia|].
Qed.

(** A link that is used, or whose time is over, opens nothing: the request is refused
    and no table or session changes. *)
Lemma dead_link_refused now connects answer r l : forall w, works w -> trim_space (Query r "token") <> "" -> trim_space (trim_space (Query r "token")) <> "" ->
  pairing_links (rows w) !! trim_space (Query r "token") = Some l -> l_used l = true \/ l_expires l < now -> Method r = "POST" ->
  publicPairStartHandler now connects answer r w = (w, Err bad_link).
Proof.
  intros w Hw Ht Ht2 Hl Hd Hm. unfold publicPairStartHandler, http.method. rewrite Hm. cbn [existsb String.eqb Ascii.eqb Bool.eqb orb].
  change (mret tt;; ?k) with k. unfold mbind at 1, stm_bind at 1. unfold getPairLink. destruct (String.eqb_spec (trim_space (trim_space (Query r "token"))) ""); [done|].
  assert (ensure w = (w, Ok tt)) as He by (unfold ensure; rewrite (exec_works _ w (rows w)); [by destruct w|done|done]).
  unfold mbind, stm_bind, ignoring, wrap, try. rewrite He. cbn [map_err]. rewrite (query_works _ w Hw). cbn [map_err]. rewrite Hl.
  replace (l_used l || (l_expires l <? now)) with true; [done|]. symmetry. destruct Hd as [->|Hd]; [done|]. rewrite orb_true_iff, Z.ltb_lt. by right.
Qed.

End requests.

(** ** What is left behind *)

Definition get (path : string) (l : list (string * string)) : Request :=
  mkRequest path (fun k => default "" (snd <$> List.find (fun x => String.eqb (fst x) k) l)) (fun _ => "").

Definition any_account (_ : list account) (_ : account) : bool := true.

(** A pairing that WhatsApp refuses is answered with the error, the session is
    forgotten, and the connection of its client stays open with nobody to close it. *)
Lemma failed_pairing_leaks : let w := perform any_account (started []) (Pair (inr tt) (inl "refused") (get "GET" [("user_id", "u"); ("phone", "15551234567")])) in
  getSession "u" (mgr (mem w)) = None /\ clients (mem w) !! 0%N = Some (mkClient false true None) /\ effects (mem w) = [PairPhone 0 "15551234567"].
Proof. vm_compute. done. Qed.

Definition start_for (key : string) : request := UserStart (Some "id") key 0 true (inr "22222222") (get "POST" [("phone", "15551234567")]).
Definition ask_for (key uuid : string) : request := UserStatus (Some "id") uuid 1 (get "GET" [("session_key", key)]).
Definition scanned (n : N) (user : string) : request := Outside n (mkClient true true (Some (mkJID user 0 1 0 "s.whatsapp.net"))).

(** The limit of three accounts is looked at when a pairing starts, not when it
    succeeds: pairings that are started together exceed it. *)
Lemma four_accounts : length (linked "id" (rows (foldl (perform any_account) (started [])
  [start_for "a"; start_for "b"; start_for "c"; start_for "d"; scanned 0 "1"; scanned 1 "2"; scanned 2 "3"; scanned 3 "4";
   ask_for "a" "1"; ask_for "b" "2"; ask_for "c" "3"; ask_for "d" "4"]))) = 4%nat.
Proof. vm_compute. reflexivity. Qed.

(** A pairing that expires is forgotten with its client connected: the code can still
    be used, and the account is then linked to a device the panel does not know. *)
Lemma expired_still_connected : let w := foldl (perform any_account) (started []) [start_for "a"; UserStatus (Some "id") "1" (200 * 10 ^ 9) (get "GET" [("session_key", "a")])] in
  getSession "a" (mgr (mem w)) = None /\ clients (mem w) !! 0%N = Some (mkClient false true None) /\ Disconnect 0 ∉ effects (mem w).
Proof.
  split; [vm_compute; reflexivity|]. split; [vm_compute; reflexivity|]. intros H. apply list_elem_of_In in H. vm_compute in H. by destruct H as [?|[]].
Qed.

(** A message for a link, and a second status request that comes in between. *)
Definition link_visit : list request :=
  [CreateLink "" "tok" 0 (get "POST" [("user_id", "u")]);
   LinkStart 1 true (inr "22222222") (get "POST" [("token", "tok"); ("phone", "15551234567")]);
   scanned 0 "1"; CheckLink 2 (get "GET" [("token", "tok")]); CheckLink 2 (get "GET" [("token", "tok")]); Answer 3 "tok" "u"; Answer 3 "tok" "u"].

Lemma link_visited : let w := foldl (perform any_account) (started []) link_visit in
  length (autos "tok" w) = 1%nat /\ getSession "u" (mgr (mem w)) = Some 0%N.
Proof. vm_compute. done. Qed.

End panel_proofs.
