(* ===== verification/PanelPortal.v ===== *)
(** * The control panel: users, tasks and earnings

    user_portal.go and user_features.go. [portal]: registering, logging in and the
    sessions of the portal. [rewards]: the tasks a user sends and what is paid for
    them, to the user and to those who brought the user in. Amounts are a type with
    the additions of the database and the multiplication of the program. *)

From S2P Require Import Prelude GoStrings StateErr Jid Crypto Sql Safety PanelSessions History.

#[local] Open Scope string_scope.
#[local] Open Scope list_scope.
#[local] Open Scope Z_scope.

Module portal.

Import http sql.

Section tables.
Context {M : Type}.

Record user := mkUser {
  u_id : string; u_user_id : string; u_referral_code : string; u_password_hash : string; u_name : string; u_status : string;
  u_referred_by : option string; u_balance : M; u_today : M; u_total : M
}.
Record auth := mkAuth { s_user : string; s_token_hash : string; s_expires : Z }.
Record task := mkTask { t_id : string; t_title : string; t_message : string; t_target : string; t_reward : M; t_active : bool }.
Record claim := mkClaim { c_id : N; c_task : string; c_user : string; c_account : string; c_target : string; c_message : string; c_status : string; c_reward : M }.
Record entry := mkEntry { e_user : string; e_claim : N; e_amount : M; e_type : string; e_description : string }.
Record commission := mkCommission { m_referrer : string; m_referred : string; m_claim : N; m_amount : M; m_level : Z }.
Record account := mkAccount { a_id : string; a_user : string; a_whatsapp : string; a_status : string; a_current : Z; a_today : Z }.
Record ticket := mkTicket { k_user : string; k_subject : string; k_message : string }.

Record tables := mkTables {
  app_users : list user; user_sessions_auth : list auth; task_definitions : list task; task_claims : list claim;
  earning_ledger : list entry; referral_commissions : list commission; mlm_settings : gmap Z (M * bool);
  user_whatsapp_accounts : list account; customer_care_tickets : list ticket
}.
End tables.
Arguments user : clear implicits.
Arguments task : clear implicits.
Arguments claim : clear implicits.
Arguments entry : clear implicits.
Arguments commission : clear implicits.
Arguments tables : clear implicits.

(** A send: account, target and text. *)
Record memory := mkMemory { sends : list (string * string * string) }.

Section portal.
Context {M : Type} {C : Crypto}.
(** bcrypt; the status and amount a new row of users has by default; whether the table
    of users takes a row. *)
Context (GenerateFromPassword : string -> option string) (CompareHashAndPassword : string -> string -> bool)
  (default_status : string) (zero : M) (admits_user : list (user M) -> user M -> bool).

Abbreviation world := (db (tables M) memory).
Notation handler A := (stm (db (tables M) memory) response A).

Definition with_users f (t : tables M) : tables M :=
  mkTables (f (app_users t)) (user_sessions_auth t) (task_definitions t) (task_claims t) (earning_ledger t) (referral_commissions t)
    (mlm_settings t) (user_whatsapp_accounts t) (customer_care_tickets t).
Definition with_auth f (t : tables M) : tables M :=
  mkTables (app_users t) (f (user_sessions_auth t)) (task_definitions t) (task_claims t) (earning_ledger t) (referral_commissions t)
    (mlm_settings t) (user_whatsapp_accounts t) (customer_care_tickets t).
Definition with_tickets f (t : tables M) : tables M :=
  mkTables (app_users t) (user_sessions_auth t) (task_definitions t) (task_claims t) (earning_ledger t) (referral_commissions t)
    (mlm_settings t) (user_whatsapp_accounts t) (f (customer_care_tickets t)).

Definition ask {A} (m : dbm (tables M) memory A) (r : response) : handler A := wrap (fun _ => r) m.
Definition ignoring {A} (m : dbm (tables M) memory A) : handler (sql_error + A) := wrap (fun _ => mkResponse 500 Empty) (try m).

(** A query for one row: none is an error, too. *)
Definition ask_row {A} (q : tables M -> option A) (r : response) : handler A :=
  x ← ask (query q) r; match x with Some a => mret a | None => throw r end.

(** [cookie]: the one named lumo_session. *)
Definition userPortalToken (cookie : option string) (r : Request) : string :=
  match cookie with Some c => trim_space c | None => trim_space (trim_prefix "Bearer " (Header r "Authorization")) end.

Definition hex_digit (n : Z) : string := String.substring (Z.to_nat n) 1 "0123456789abcdef".
Fixpoint hex (b : bytes) : string :=
  match b with [] => "" | x :: b => hex_digit (Z.shiftr (b2z x) 4) +:+ hex_digit (Z.land (b2z x) 15) +:+ hex b end.
Definition upper_hex_digit (n : Z) : string := String.substring (Z.to_nat n) 1 "0123456789ABCDEF".
Fixpoint upper_hex (b : bytes) : string :=
  match b with [] => "" | x :: b => upper_hex_digit (Z.shiftr (b2z x) 4) +:+ upper_hex_digit (Z.land (b2z x) 15) +:+ upper_hex b end.

Definition hashPortalToken (v : string) : string := hex (sha256 (str_bytes v)).

Definition code_taken (code : string) (t : tables M) : bool :=
  existsb (fun u => String.eqb (u_user_id u) code || String.eqb (u_referral_code u) code) (app_users t).

(** At most twenty draws; [None]: the source of randomness fails. *)
Fixpoint newPublicCode (prefix : string) (draws : list (option bytes)) : handler string :=
  match draws with
  | [] => throw (mkResponse 500 Empty)
  | None :: _ => throw (mkResponse 500 Empty)
  | Some b :: draws =>
      let code := prefix +:+ upper_hex b in
      taken ← ask (query (code_taken code)) (mkResponse 500 Empty);
      if (taken : bool) then newPublicCode prefix draws else mret code
  end.

Definition active (u : user M) : bool := String.eqb (u_status u) "active".
Definition user_by_id (id : string) (t : tables M) : option (user M) := List.find (fun u => String.eqb (u_id u) id) (app_users t).
Definition user_by_user_id (uid : string) (t : tables M) : option (user M) := List.find (fun u => String.eqb (u_user_id u) uid) (app_users t).

(** The first session with the token that has not expired and whose user is active. *)
Definition session_user (now : Z) (token : string) (t : tables M) : option string :=
  head (omap (fun s => if String.eqb (s_token_hash s) (hashPortalToken token) && (now <? s_expires s)
                       then u ← user_by_id (s_user s) t; (if active u then Some (u_user_id u) else None) else None) (user_sessions_auth t)).

Definition portalUser (now : Z) (token : string) : handler (option string) :=
  if String.eqb token "" then mret None
  else x ← ignoring (query (session_user now token)); mret (match x with inr (Some id) => Some id | _ => None end).

Definition userDBID (now : Z) (token : string) : handler (option string) :=
  uid ← portalUser now token;
  match uid with
  | None => mret None
  | Some uid =>
      x ← ignoring (query (fun t => List.find (fun u => String.eqb (u_user_id u) uid && active u) (app_users t)));
      mret (match x with inr (Some u) => Some (u_id u) | _ => None end)
  end.

Definition month : Z := 30 * 24 * 3600 * 10 ^ 9.

Definition open_session (id token : string) (now : Z) : handler unit :=
  ask (exec (fun t => Some (with_auth (fun l => l ++ [mkAuth id (hashPortalToken token) (now + month)]) t))) (mkResponse 500 Empty).

(** [body]: name, password and referral code; [id]: what the database numbers the row. *)
Definition userRegisterHandler (body : option (string * string * string)) (draws1 draws2 : list (option bytes)) (id : string) (token : option string) (now : Z) (r : Request) :
    handler response :=
  method ["POST"] r;;
  let refused := fail 400 "Name and password (minimum 6 characters) are required" in
  match body with
  | None => throw refused
  | Some (name, password, code) =>
      if (String.length (trim_space name) <? 2)%nat || (String.length password <? 6)%nat then throw refused
      else
        match GenerateFromPassword password with
        | None => throw (mkResponse 500 Empty)
        | Some hash =>
            let ref := trim_space code in
            refID ← (if String.eqb ref "" then mret None
                     else u ← ask_row (fun t => List.find (fun u => String.eqb (u_referral_code u) ref && active u) (app_users t)) (fail 400 "Invalid referral code");
                          mret (Some (u_id u)));
            uid ← newPublicCode "LU" (take 20 draws1);
            rcode ← newPublicCode "LU" (take 20 draws2);
            ask (exec (fun t => let u := mkUser id uid rcode hash (trim_space name) default_status refID zero zero zero in
                   if admits_user (app_users t) u then Some (with_users (fun l => l ++ [u]) t) else None))
              (fail 409 "Registration failed or user already exists");;
            match token with
            | None => throw (mkResponse 500 Empty)
            | Some token => open_session id token now;; mret (success [("lumo_session", token); ("user_id", uid); ("referral_code", rcode)])
            end
        end
  end.

Definition userLoginHandler (body : option (string * string)) (token : option string) (now : Z) (r : Request) : handler response :=
  method ["POST"] r;;
  match body with
  | None => throw (mkResponse 400 Empty)
  | Some (uid, password) =>
      let refused := fail 401 "Invalid User ID or password" in
      u ← ask_row (fun t => List.find (fun u => String.eqb (u_user_id u) (trim_space uid) && active u) (app_users t)) refused;
      if negb (CompareHashAndPassword (u_password_hash u) password) then throw refused
      else
        match token with
        | None => throw (mkResponse 500 Empty)
        | Some token => open_session (u_id u) token now;; mret (success [("lumo_session", token); ("user_id", uid); ("name", u_name u)])
        end
  end.

Definition userLogoutHandler (token : string) : handler response :=
  (if String.eqb token "" then mret tt
   else _ ← ignoring (exec (fun t => Some (with_auth (List.filter (fun s => negb (String.eqb (s_token_hash s) (hashPortalToken token)))) t))); mret tt);;
  mret (success [("lumo_session", "")]).

(** ** Sessions *)

Lemma find_by_id (l : list (user M)) u : NoDup (map u_id l) -> u ∈ l -> List.find (fun x => String.eqb (u_id x) (u_id u)) l = Some u.
Proof.
  induction l as [|x l IH]; intros Hn Hu; [by apply elem_of_nil in Hu|]. apply NoDup_cons in Hn as [Hx Hn]. cbn [List.find].
  apply elem_of_cons in Hu as [->|Hu]; [by rewrite String.eqb_refl|]. destruct (String.eqb_spec (u_id x) (u_id u)) as [E|]; [|by apply IH].
  destruct Hx. rewrite E. by apply list_elem_of_fmap_2.
Qed.

(** A log-in with the right password opens a session for its user, for 30 days and
    until it is logged out; logging out ends every session with the token. *)
Theorem login_lifecycle uid password token now r w w' reply u : works w -> NoDup (map u_id (app_users (rows w))) -> token <> "" ->
  (forall s, s ∈ user_sessions_auth (rows w) -> s_token_hash s <> hashPortalToken token) ->
  userLoginHandler (Some (uid, password)) (Some token) now r w = (w', Ok reply) ->
  List.find (fun u => String.eqb (u_user_id u) (trim_space uid) && active u) (app_users (rows w)) = Some u ->
  CompareHashAndPassword (u_password_hash u) password = true /\
  (forall t, t < now + month -> portalUser t token w' = (w', Ok (Some (u_user_id u)))) /\
  (forall t, portalUser t token (fst (userLogoutHandler token w')) = (fst (userLogoutHandler token w'), Ok None)).
Proof.
  intros Hw Hn Ht Hfresh H Hu. unfold userLoginHandler, http.method in H. destruct (existsb _ _); [|done].
  apply stm_bind_inv in H as (w0 & [] & E0 & H). injection E0 as <-. unfold ask_row, ask in H.
  apply stm_bind_inv in H as (w1 & u' & E & H). apply stm_bind_inv in E as (w2 & x & E & E').
  apply wrap_inv in E. rewrite (query_works _ w Hw) in E. injection E as <- <-. rewrite Hu in E'. injection E' as <- <-.
  destruct (CompareHashAndPassword _ _) eqn:Ec; [|done]. cbn [negb] in H. split; [done|].
  apply stm_bind_inv in H as (w3 & [] & E & H). injection H as <- <-. unfold open_session, ask in E. apply wrap_inv in E.
  erewrite exec_works in E; [|exact Hw|reflexivity]. injection E as <-. set (w3 := set_rows _ w).
  assert (works w3) as Hw3 by done.
  apply find_some in Hu as [Hin Hact]. apply andb_true_iff in Hact as [_ Hact].
  assert (forall tab, app_users tab = app_users (rows w) -> user_by_id (u_id u) tab = Some u) as Hid.
  { intros tab E. unfold user_by_id. rewrite E. apply (find_by_id (app_users (rows w)) u Hn). by apply list_elem_of_In. }
  assert (forall tab t k, (forall s, s ∈ k -> s_token_hash s <> hashPortalToken token) ->
    omap (fun s => if String.eqb (s_token_hash s) (hashPortalToken token) && (t <? s_expires s)
       then u ← user_by_id (s_user s) tab; (if active u then Some (u_user_id u) else None) else None) k = []) as Hnone.
  { intros tab t k Hk. induction k as [|s k IH]; [done|]. cbn. destruct (String.eqb_spec (s_token_hash s) (hashPortalToken token)) as [E|]; [by destruct (Hk s (list_elem_of_here _ _))|].
    cbn. apply IH. intros s' Hs'. apply Hk. by apply list_elem_of_further. }
  split.
  - intros t Hlt. unfold portalUser. destruct (String.eqb_spec token ""); [done|]. unfold ignoring, mbind, stm_bind, wrap, try. rewrite (query_works _ w3 Hw3). cbn [map_err].
    unfold session_user. cbn [user_sessions_auth rows w3 set_rows with_auth]. rewrite omap_app, (Hnone _ t) by done. cbn [app omap list_omap s_token_hash s_expires s_user].
    rewrite String.eqb_refl. replace (t <? now + month) with true by (symmetry; by apply Z.ltb_lt). cbn [andb]. rewrite Hid by done. cbn. by rewrite Hact.
  - intros t. unfold userLogoutHandler. destruct (String.eqb_spec token "") as [|Hne]; [done|]. unfold ignoring, mbind, stm_bind, wrap, try.
    erewrite exec_works; [|exact Hw3|reflexivity]. cbn [map_err mret stm_ret fst]. set (w4 := set_rows _ w3). assert (works w4) as Hw4 by done.
    unfold portalUser. destruct (String.eqb_spec token ""); [done|]. unfold ignoring, mbind, stm_bind, wrap, try. rewrite (query_works _ w4 Hw4). cbn [map_err].
    unfold session_user. replace (omap _ _) with (@nil string); [done|]. symmetry. apply Hnone. intros s Hs.
    cbn [user_sessions_auth rows w4 set_rows with_auth] in Hs. apply list_elem_of_In, filter_In in Hs as [_ Hs]. by destruct (String.eqb_spec (s_token_hash s) (hashPortalToken token)).
Qed.

End portal.

End portal.

Module rewards.

Import jid http sql portal.

Section rewards.
Context {M : Type}.
(** The database's addition; [reward*pct/100] and its sign; what a new row has; whether
    the tables of claims and of users take a row; what connected accounts are known. *)
Context (add : M -> M -> M) (commission_of : M -> M -> M) (positive : M -> bool) (zero : M)
  (admits_claim : list (claim M) -> claim M -> bool).

Abbreviation world := (db (tables M) memory).
Notation handler A := (stm (db (tables M) memory) response A).

Definition with_claims f (t : tables M) : tables M :=
  mkTables (app_users t) (user_sessions_auth t) (task_definitions t) (f (task_claims t)) (earning_ledger t) (referral_commissions t)
    (mlm_settings t) (user_whatsapp_accounts t) (customer_care_tickets t).
Definition with_ledger f (t : tables M) : tables M :=
  mkTables (app_users t) (user_sessions_auth t) (task_definitions t) (task_claims t) (f (earning_ledger t)) (referral_commissions t)
    (mlm_settings t) (user_whatsapp_accounts t) (customer_care_tickets t).
Definition with_commissions f (t : tables M) : tables M :=
  mkTables (app_users t) (user_sessions_auth t) (task_definitions t) (task_claims t) (earning_ledger t) (f (referral_commissions t))
    (mlm_settings t) (user_whatsapp_accounts t) (customer_care_tickets t).
Definition with_accounts f (t : tables M) : tables M :=
  mkTables (app_users t) (user_sessions_auth t) (task_definitions t) (task_claims t) (earning_ledger t) (referral_commissions t)
    (mlm_settings t) (f (user_whatsapp_accounts t)) (customer_care_tickets t).

(** A transaction of the handler: begun, committed when its body comes to its end, and
    rolled back otherwise. A statement of it that fails dooms it, as in PostgreSQL:
    the handlers that go on after one fail when they commit. *)
Definition in_txn {A} (failed : response) (body : handler A) : handler A := fun w =>
  match statement w with
  | (w1, Ok _) =>
      match body w1 with
      | (w2, Ok a) => match statement w2 with (w3, Ok _) => (w3, Ok a) | (w3, _) => (set_rows (rows w) w3, Err failed) end
      | (w2, o) => (set_rows (rows w) w2, o)
      end
  | (w1, _) => (w1, Err failed)
  end.

Definition error_500 : response := mkResponse 500 Empty.
Definition change (f : tables M -> tables M) : handler unit := ask (exec (fun t => Some (f t))) error_500.

Definition set_claim (id : N) (status : string) (t : tables M) : tables M :=
  with_claims (map (fun c => if (c_id c =? id)%N then mkClaim (c_id c) (c_task c) (c_user c) (c_account c) (c_target c) (c_message c) status (c_reward c) else c)) t.

(** [UPDATE app_users SET balance=balance+$1, ...]; [today]: today_earning, too. *)
Definition pay (today : bool) (amount : M) (id : string) (t : tables M) : tables M :=
  with_users (map (fun u => if String.eqb (u_id u) id
    then mkUser (u_id u) (u_user_id u) (u_referral_code u) (u_password_hash u) (u_name u) (u_status u) (u_referred_by u)
           (add (u_balance u) amount) (if today then add (u_today u) amount else u_today u) (add (u_total u) amount)
    else u)) t.

Definition enter (e : entry M) : tables M -> tables M := with_ledger (fun l => l ++ [e]).

Definition task_reward : string := "task_reward".
Definition referral_commission : string := "referral_commission".

(** From the user up to those who brought them in, ten levels at most. *)
Fixpoint pay_referrers (levels : nat) (level : Z) (parent : string) (claimID : N) (reward : M) : handler unit :=
  match levels with
  | O => mret tt
  | S levels =>
      u ← ask (query (user_by_id parent)) error_500;
      match u ≫= u_referred_by with
      | None => mret tt
      | Some refID =>
          if String.eqb refID "" then mret tt
          else
            setting ← ask (query (fun t => mlm_settings t !! level)) error_500;
            match setting with
            | Some (pct, active) =>
                if negb active || negb (positive pct) then pay_referrers levels (level + 1) refID claimID reward
                else
                  let amount := commission_of reward pct in
                  (if positive amount then
                     change (with_commissions (fun l => l ++ [mkCommission refID parent claimID amount level]));;
                     change (enter (mkEntry refID claimID amount referral_commission ("Level " +:+ itoa level +:+ " referral commission")));;
                     change (pay false amount refID)
                   else mret tt);;
                  pay_referrers levels (level + 1) refID claimID reward
            | None => pay_referrers levels (level + 1) refID claimID reward
            end
      end
  end.

Definition unavailable : response := fail 404 "Task unavailable or has no target".

(** The first transaction: the task, the account, its connection and the claim. *)
Definition claim_task (connected : string -> bool) (id taskID accountID : string) : handler (task M * string * N) :=
  in_txn error_500 (
    t ← ask_row (fun t => List.find (fun x => String.eqb (t_id x) taskID && t_active x) (task_definitions t)) unavailable;
    if String.eqb (trim_space (t_target t)) "" then throw unavailable
    else
      a ← ask_row (fun t => List.find (fun x => String.eqb (a_id x) accountID && String.eqb (a_user x) id && String.eqb (a_status x) "active") (user_whatsapp_accounts t))
            (fail 404 "WhatsApp account unavailable");
      if negb (connected (a_whatsapp a)) then throw (fail 409 "Selected WhatsApp is not connected")
      else
        w ← get_state;
        let c := mkClaim (N.of_nat (length (task_claims (rows w)))) taskID id accountID (t_target t) (t_message t) "sending" (t_reward t) in
        ask (exec (fun t => if admits_claim (task_claims t) c then Some (with_claims (fun l => l ++ [c]) t) else None)) (fail 409 "Task already claimed or unavailable");;
        mret (t, a_whatsapp a, c_id c)).

Definition credited (claimID : N) (t : tables M) : bool := existsb (fun e => (e_claim e =? claimID)%N) (earning_ledger t).

(** The second: the claim, the ledger, the balances and those who brought the user
    in. *)
Definition reward_claim (id accountID : string) (claimID : N) (reward : M) : handler response :=
  in_txn (fail 500 "Send succeeded but reward processing failed") (
    paid ← ask (query (credited claimID)) error_500;
    if (paid : bool) then throw (success [("message", "Task already credited")])
    else
      change (set_claim claimID "sent");;
      change (enter (mkEntry id claimID reward task_reward "WhatsApp task reward"));;
      change (pay true reward id);;
      change (with_accounts (map (fun a => if String.eqb (a_id a) accountID
        then mkAccount (a_id a) (a_user a) (a_whatsapp a) (a_status a) (a_current a + 1) (a_today a + 1) else a)));;
      pay_referrers 10 1 id claimID reward;;
      mret (success [("message", "Task completed")])).

(** [send]: safeSendMessage's error for the account, the target and the text. *)
Definition userTaskClaimHandler (auth : option string) (connected : string -> bool) (send : string -> string -> string -> option string)
    (body : option (string * string)) : handler response :=
  match auth with
  | None => throw (fail 401 "Login required")
  | Some id =>
      let refused := fail 400 "task_id and whatsapp_account_id are required" in
      match body with
      | None => throw refused
      | Some (taskID, accountID) =>
          if String.eqb taskID "" || String.eqb accountID "" then throw refused
          else
            '(t, waid, claimID) ← claim_task connected id taskID accountID;
            (fun w => (set_mem (mkMemory (sends (mem w) ++ [(waid, t_target t, t_message t)])) w, Ok tt));;
            match send waid (t_target t) (t_message t) with
            | Some e => _ ← ignoring (exec (fun tb => Some (set_claim claimID "failed" tb))); throw (fail 502 e)
            | None => reward_claim id accountID claimID (t_reward t)
            end
      end
  end.

(** What the pages show: the tasks left, what the referrals brought, the tickets. *)
Definition userTasksHandler (id : string) (t : tables M) : list (task M) :=
  List.filter (fun k => t_active k && negb (existsb (fun c => String.eqb (c_task c) (t_id k) && String.eqb (c_user c) id
    && existsb (String.eqb (c_status c)) ["claimed"; "sending"; "sent"]) (task_claims t))) (task_definitions t).

Definition userReferralsHandler (id : string) (t : tables M) : M * list (string * string * M) :=
  let mine := List.filter (fun c => String.eqb (m_referrer c) id) (referral_commissions t) in
  (foldl add zero (map m_amount mine),
   map (fun u => (u_user_id u, u_name u, foldl add zero (map m_amount (List.filter (fun c => String.eqb (m_referred c) (u_id u)) mine))))
     (List.filter (fun u => bool_decide (u_referred_by u = Some id)) (app_users t))).

Definition userEarningsHandler (id : string) (t : tables M) : list (entry M) := take 100 (reverse (List.filter (fun e => String.eqb (e_user e) id) (earning_ledger t))).

Definition userSupportHandler (auth : option string) (body : option (string * string)) (r : Request) : handler response :=
  match auth with
  | None => throw (mkResponse 401 Empty)
  | Some id =>
      if String.eqb (Method r) "GET" then
        l ← ask (query (fun t => List.filter (fun k => String.eqb (k_user k) id) (customer_care_tickets t))) error_500;
        mret (success (map (fun k => (k_subject k, k_message k)) l))
      else
        method ["POST"] r;;
        match body with
        | Some (subject, message) =>
            if String.eqb (trim_space subject) "" || String.eqb (trim_space message) "" then throw (fail 400 "Subject and message are required")
            else
              change (with_tickets (fun l => l ++ [mkTicket id (trim_space subject) (trim_space message)]));;
              mret (success [("message", "Support ticket created")])
        | None => throw (fail 400 "Subject and message are required")
        end
  end.

(** ** The books *)

Definition earned (id : string) (l : list (entry M)) : list (entry M) := List.filter (fun e => String.eqb (e_user e) id) l.
Definition amounts (l : list (entry M)) : M := foldl add zero (map e_amount l).
Definition is_reward (e : entry M) : bool := String.eqb (e_type e) task_reward.

(** Balance and total of every user are what the ledger adds up to, today's earnings
    what its rewards do; a claim is rewarded at most once. *)
Definition books (t : tables M) : Prop :=
  (forall u, u ∈ app_users t -> u_balance u = amounts (earned (u_id u) (earning_ledger t)) /\ u_total u = amounts (earned (u_id u) (earning_ledger t)) /\
     u_today u = amounts (List.filter is_reward (earned (u_id u) (earning_ledger t)))) /\
  (forall c, (length (List.filter (fun e => is_reward e && (e_claim e =? c)%N) (earning_ledger t)) <= 1)%nat).

(** Commissions and the ledger's entries of that type go together, in order. *)
Definition commission_entry (m : commission M) : string * N * M := (m_referrer m, m_claim m, m_amount m).
Definition commissions_entered (t : tables M) : Prop :=
  map commission_entry (referral_commissions t) = map (fun e => (e_user e, e_claim e, e_amount e)) (List.filter (fun e => negb (is_reward e)) (earning_ledger t)).

Definition ids (t : tables M) : list string := map u_id (app_users t).

(** What is paid is paid to users there are, and those who brought users in are
    users. *)
Definition known (t : tables M) : Prop :=
  (forall e, e ∈ earning_ledger t -> e_user e ∈ ids t) /\ (forall u r, u ∈ app_users t -> u_referred_by u = Some r -> r ∈ ids t).

Definition sound (t : tables M) : Prop := books t /\ commissions_entered t /\ known t.

Lemma earned_app id l k : earned id (l ++ k) = earned id l ++ earned id k. Proof. apply List.filter_app. Qed.

Lemma amounts_app l e : amounts (l ++ [e]) = add (amounts l) (e_amount e).
Proof. unfold amounts. by rewrite map_app, foldl_app. Qed.

Lemma filter_none {A} (q p : A -> bool) l : existsb p l = false -> List.filter (fun x => q x && p x) l = [].
Proof. induction l as [|x l IH]; [done|]. cbn [existsb List.filter]. intros [-> Hl]%orb_false_iff. rewrite andb_false_r. by apply IH. Qed.

(** An entry and the payment that goes with it. *)
Lemma entered_paid e t : books t -> (is_reward e = true -> credited (e_claim e) t = false) ->
  books (pay (is_reward e) (e_amount e) (e_user e) (enter e t)).
Proof.
  intros [Hu Hc] Hnew. split.
  - intros u Hin. cbn [app_users pay with_users enter with_ledger] in Hin. apply list_elem_of_fmap in Hin as (u0 & -> & Hin). destruct (Hu u0 Hin) as (H1 & H2 & H3).
    cbn [earning_ledger pay with_users enter with_ledger]. rewrite !earned_app. unfold earned at 2 4 6. cbn [List.filter].
    destruct (String.eqb_spec (u_id u0) (e_user e)) as [E|E]; cbn [u_id u_balance u_total u_today].
    + rewrite <- E, String.eqb_refl, !amounts_app, List.filter_app, H1, H2, H3. cbn [List.filter]. split; [done|]. split; [done|].
      destruct (is_reward e); [by rewrite amounts_app|by rewrite app_nil_r].
    + destruct (String.eqb_spec (e_user e) (u_id u0)); [congruence|]. by rewrite !app_nil_r.
  - intros c. cbn [earning_ledger pay with_users enter with_ledger]. rewrite List.filter_app, length_app. specialize (Hc c). cbn [List.filter].
    destruct (is_reward e) eqn:Er; cbn [andb length]; [|lia]. destruct (N.eqb_spec (e_claim e) c) as [<-|]; cbn [length]; [|lia].
    assert (List.filter (fun e0 => is_reward e0 && (e_claim e0 =? e_claim e)%N) (earning_ledger t) = []) as ->; [|done].
    by apply filter_none, Hnew.
Qed.

Lemma ids_pay b a id t : ids (pay b a id t) = ids t.
Proof. unfold ids. cbn. rewrite map_map. apply map_ext. intros u. by destruct (String.eqb (u_id u) id). Qed.

Lemma known_paid b a e t t0 : known t -> e_user e ∈ ids t -> app_users t0 = app_users t -> earning_ledger t0 = earning_ledger t -> known (pay b a (e_user e) (enter e t0)).
Proof.
  intros [H1 H2] He Eu El. assert (ids (pay b a (e_user e) (enter e t0)) = ids t) as Eids by (rewrite ids_pay; unfold ids; cbn; by rewrite Eu). split.
  - intros x Hx. rewrite Eids. cbn in Hx. rewrite El in Hx. apply elem_of_app in Hx as [Hx|Hx%list_elem_of_singleton]; [auto|by subst].
  - intros u r Hu Hr. rewrite Eids. cbn in Hu. rewrite Eu in Hu. apply list_elem_of_fmap in Hu as (u0 & -> & Hu). apply (H2 u0); [done|]. by destruct (String.eqb (u_id u0) (e_user e)).
Qed.

Lemma sound_entry e t : sound t -> is_reward e = true -> credited (e_claim e) t = false -> e_user e ∈ ids t -> sound (pay true (e_amount e) (e_user e) (enter e t)).
Proof.
  intros (Hb & Hc & Hk) Hr Hn He. split; [rewrite <- Hr; by apply entered_paid|]. split; [|by eapply known_paid].
  unfold commissions_entered in *. cbn [referral_commissions earning_ledger pay with_users enter with_ledger]. rewrite List.filter_app, map_app, Hc. cbn [List.filter]. by rewrite Hr, app_nil_r.
Qed.

Lemma sound_commission m d t : sound t -> m_referrer m ∈ ids t ->
  sound (pay false (m_amount m) (m_referrer m) (enter (mkEntry (m_referrer m) (m_claim m) (m_amount m) referral_commission d) (with_commissions (fun l => l ++ [m]) t))).
Proof.
  intros (Hb & Hc & Hk) Hm. set (e := mkEntry _ _ _ _ _). split; [by apply (entered_paid e (with_commissions (fun l => l ++ [m]) t))|]. split; [|by apply (known_paid _ _ e t)].
  unfold commissions_entered in *. cbn [referral_commissions earning_ledger pay with_users enter with_ledger with_commissions].
  rewrite map_app, List.filter_app, map_app, Hc. done.
Qed.

(** Changes that are not about money. *)
Lemma sound_frame t t' : sound t -> app_users t' = app_users t -> earning_ledger t' = earning_ledger t -> referral_commissions t' = referral_commissions t -> sound t'.
Proof. unfold sound, books, commissions_entered, known, ids. by intros H -> -> ->. Qed.

(** A new user starts with nothing. *)
Lemma sound_user u t : sound t -> u_id u ∉ ids t -> u_balance u = zero -> u_total u = zero -> u_today u = zero ->
  (forall r, u_referred_by u = Some r -> r ∈ ids t) -> sound (with_users (fun l => l ++ [u]) t).
Proof.
  intros ([Hu Hc] & Hcm & Hk1 & Hk2) Hn H1 H2 H3 Hr. assert (ids (with_users (fun l => l ++ [u]) t) = ids t ++ [u_id u]) as Ei by (unfold ids; cbn; by rewrite map_app).
  split; [split; [|done]|split; [done|split]].
  - intros x Hx. cbn [app_users with_users earning_ledger] in *. apply elem_of_app in Hx as [Hx|Hx%list_elem_of_singleton]; [by apply Hu|subst x].
    assert (earned (u_id u) (earning_ledger t) = []) as ->; [|by rewrite H1, H2, H3].
    unfold earned. destruct (List.filter _ _) as [|e l] eqn:E; [done|]. destruct Hn. assert (e ∈ List.filter (fun e => String.eqb (e_user e) (u_id u)) (earning_ledger t)) as He by (rewrite E; apply list_elem_of_here).
    apply list_elem_of_In, filter_In in He as [He Ee%String.eqb_eq]. rewrite <- Ee. by apply Hk1, list_elem_of_In.
  - intros e He. rewrite Ei, elem_of_app. left. by apply Hk1.
  - intros x r Hx Hxr. rewrite Ei, elem_of_app. left. cbn [app_users with_users] in Hx. apply elem_of_app in Hx as [Hx|Hx%list_elem_of_singleton]; [by apply (Hk2 x)|subst x; by apply Hr].
Qed.

(** ** Transactions and handlers *)

Lemma exec_ok f (w w' : world) u : exec f w = (w', Ok u) -> f (rows w) = Some (rows w').
Proof.
  unfold exec, mbind, stm_bind. destruct (statement w) as [w1 o1] eqn:E. apply statement_same in E as (R & _ & [->| ->]); [|done].
  cbn [get_state]. rewrite R. destruct (f (rows w)) as [t|]; [|done]. by intros [= <- <-].
Qed.

Lemma exec_rows f (w w' : world) o : exec f w = (w', o) -> rows w' = rows w \/ f (rows w) = Some (rows w').
Proof.
  unfold exec, mbind, stm_bind. destruct (statement w) as [w1 o1] eqn:E. apply statement_same in E as (R & _ & [->| ->]); [|intros [= <- <-]; auto].
  cbn [get_state]. rewrite R. destruct (f (rows w)) as [t|]; intros [= <- <-]; cbn; auto.
Qed.

Lemma change_ok f (w w' : world) u : change f w = (w', Ok u) -> rows w' = f (rows w).
Proof. intros H%wrap_inv%exec_ok. by injection H. Qed.

Lemma ask_query_ok {A} (q : tables M -> A) r (w w' : world) a : ask (query q) r w = (w', Ok a) -> rows w' = rows w /\ a = q (rows w).
Proof.
  intros H%wrap_inv. unfold query, mbind, stm_bind in H. destruct (statement w) as [w1 o1] eqn:E. apply statement_same in E as (R & _ & [->| ->]); [|done].
  cbn [get_state] in H. injection H as <- <-. by rewrite R.
Qed.

Lemma in_txn_rows {A} failed (body : handler A) w w' o : in_txn failed body w = (w', o) ->
  rows w' = rows w \/ exists w1 w2 a, rows w1 = rows w /\ body w1 = (w2, Ok a) /\ rows w' = rows w2 /\ o = Ok a.
Proof.
  unfold in_txn. destruct (statement w) as [w1 o1] eqn:E. apply statement_same in E as (R & _ & [->| ->]); [|intros [= <- <-]; auto].
  destruct (body w1) as [w2 [a|e| |]] eqn:Eb; try by (intros [= <- <-]; auto).
  destruct (statement w2) as [w3 o3] eqn:E3. apply statement_same in E3 as (R3 & _ & [->| ->]); intros [= <- <-]; [|by left]. right. by exists w1, w2, a.
Qed.

Lemma pay_referrers_sound n level parent c reward w w' : pay_referrers n level parent c reward w = (w', Ok tt) -> sound (rows w) -> sound (rows w').
Proof.
  revert level parent w. induction n as [|n IH]; intros level parent w; cbn [pay_referrers]; [by intros [= <-]|]. intros H Hs.
  stm_inv H. apply ask_query_ok in E as [R ->]. rewrite <- R in Hs.
  destruct (user_by_id parent (rows w) ≫= u_referred_by) as [ref|] eqn:Eref; [|by injection H as <-].
  destruct (String.eqb ref ""); [by injection H as <-|].
  assert (ref ∈ ids (rows s)) as Href.
  { rewrite R. destruct (user_by_id parent (rows w)) as [u|] eqn:Eu; [|done]. apply find_some in Eu as [Hin%list_elem_of_In _]. rewrite R in Hs. by apply Hs in Eref. }
  stm_inv H. apply ask_query_ok in E as [R' ->]. rewrite <- R' in Hs, Href.
  destruct (mlm_settings (rows s) !! level) as [[pct act]|]; [|by eapply IH].
  destruct (negb act || negb (positive pct)); [by eapply IH|].
  stm_inv H. apply IH in H; [done|]. destruct (positive (commission_of reward pct)); [|by injection E as <-].
  stm_inv E. apply change_ok in E0. stm_inv E. apply change_ok in E1. apply change_ok in E. rewrite E, E1, E0.
  by apply (sound_commission (mkCommission ref parent c (commission_of reward pct) level)).
Qed.

Lemma reward_claim_sound id acc c reward w w' o : reward_claim id acc c reward w = (w', o) -> id ∈ ids (rows w) -> sound (rows w) -> sound (rows w').
Proof.
  intros H Hid Hs. apply in_txn_rows in H as [->|(w1 & w2 & r & R & H & -> & _)]; [done|]. rewrite <- R in Hs, Hid.
  stm_inv H. apply ask_query_ok in E as [R1 ->]. destruct (credited c (rows w1)) eqn:Ec; [done|].
  stm_inv H. apply change_ok in E. stm_inv H. apply change_ok in E0. stm_inv H. apply change_ok in E1. stm_inv H. apply change_ok in E2. stm_inv H. injection H as <- _.
  destruct a3. apply pay_referrers_sound in E3; [done|]. rewrite E2, E1, E0, E, R1.
  eapply sound_frame; [apply (sound_entry (mkEntry id c reward task_reward "WhatsApp task reward") (set_claim c "sent" (rows w1)))|done..].
  - by eapply sound_frame.
  - done.
  - exact Ec.
  - exact Hid.
Qed.

Lemma claim_task_sound connected id task acc w w' o : claim_task connected id task acc w = (w', o) -> sound (rows w) -> sound (rows w') /\ ids (rows w') = ids (rows w).
Proof.
  intros H Hs. apply in_txn_rows in H as [->|(w1 & w2 & r & R & H & -> & _)]; [done|]. rewrite <- R in *. unfold ask_row in H.
  stm_inv H. stm_inv E. apply ask_query_ok in E0 as [R1 ->]. destruct (List.find _ _); [|done]. injection E as <- <-.
  destruct (String.eqb _ ""); [done|]. stm_inv H. stm_inv E. apply ask_query_ok in E0 as [R2 ->]. destruct (List.find _ _) as [acct|]; [|done]. injection E as <- <-.
  destruct (negb _); [done|]. stm_inv H. injection E as <- <-. stm_inv H. apply wrap_inv, exec_ok in E. injection H as <- _.
  destruct (admits_claim _ _); [|done]. injection E as E. rewrite <- E, R2, R1. split; [|done]. by eapply sound_frame.
Qed.

Lemma userTaskClaim_sound auth connected send body w w' o : userTaskClaimHandler auth connected send body w = (w', o) ->
  (forall id, auth = Some id -> id ∈ ids (rows w)) -> sound (rows w) -> sound (rows w').
Proof.
  unfold userTaskClaimHandler. destruct auth as [id|]; [|by intros [= <- <-]]. destruct body as [[task acc]|]; [|by intros [= <- <-]].
  destruct (_ || _); [by intros [= <- <-]|]. intros H Hid Hs. specialize (Hid id eq_refl). unfold mbind, stm_bind in H.
  destruct (claim_task connected id task acc w) as [w1 o1] eqn:E. apply claim_task_sound in E as [Hs1 E]; [|done]. rewrite <- E in Hid.
  destruct o1 as [[[t waid] c]|e| |]; try by injection H as <- <-. set (w2 := set_mem _ w1) in H.
  destruct (send waid (t_target t) (t_message t)) as [err|].
  - unfold ignoring, wrap, try in H. destruct (exec _ w2) as [w3 o3] eqn:E3. apply exec_rows in E3 as R. assert (sound (rows w3)) as Hs3.
    { destruct R as [->|R]; [done|]. injection R as R. rewrite <- R. by apply (sound_frame (rows w1)). }
    destruct o3; injection H as <- <-; done.
  - by apply reward_claim_sound in H.
Qed.

End rewards.

(** ** Everything users do *)

Section requests.
Context {M : Type} {C : Crypto} (add : M -> M -> M) (commission_of : M -> M -> M) (positive : M -> bool) (zero : M)
  (admits_claim : list (claim M) -> claim M -> bool) (admits_user : list (user M) -> user M -> bool)
  (GenerateFromPassword : string -> option string) (CompareHashAndPassword : string -> string -> bool) (default_status : string).

Abbreviation world := (db (tables M) memory).
Notation handler A := (stm (db (tables M) memory) response A).

(** Requests with what they meet: random draws, the database's ids, the clock, the
    connections and the answers to sends. [Manage]: the administrator changes tasks,
    levels and accounts. *)
Inductive request :=
  | Register (body : option (string * string * string)) (draws1 draws2 : list (option bytes)) (id : string) (token : option string) (now : Z) (r : Request)
  | Login (body : option (string * string)) (token : option string) (now : Z) (r : Request)
  | LogOut (token : string)
  | Claim (now : Z) (token : string) (connected : string -> bool) (send : string -> string -> string -> option string) (body : option (string * string))
  | Support (now : Z) (token : string) (body : option (string * string)) (r : Request)
  | Manage (tasks : list (task M)) (levels : gmap Z (M * bool)) (accounts : list account).

Definition manage (tasks : list (task M)) (levels : gmap Z (M * bool)) (accounts : list account) (t : tables M) : tables M :=
  mkTables (app_users t) (user_sessions_auth t) tasks (task_claims t) (earning_ledger t) (referral_commissions t) levels accounts (customer_care_tickets t).

Definition handle (q : request) : handler response :=
  match q with
  | Register body d1 d2 id token now r => userRegisterHandler GenerateFromPassword default_status zero admits_user body d1 d2 id token now r
  | Login body token now r => userLoginHandler CompareHashAndPassword body token now r
  | LogOut token => userLogoutHandler token
  | Claim now token connected send body => auth ← userDBID now token; userTaskClaimHandler add commission_of positive admits_claim auth connected send body
  | Support now token body r => auth ← userDBID now token; userSupportHandler auth body r
  | Manage tasks levels accounts => change (manage tasks levels accounts);; mret (success [])
  end.

Definition perform (w : world) (q : request) : world := fst (handle q w).

Definition opened (faults : list bool) : world := mkDb (mkTables [] [] [] [] [] [] ∅ [] []) (mkMemory []) faults.

Abbreviation fine t := (sound add zero t).

Lemma stm_bind_cases {S E A B} (m : stm S E A) (k : A -> stm S E B) s s' o : (m ≫= k) s = (s', o) ->
  exists s1 o1, m s = (s1, o1) /\ match o1 with Ok a => k a s1 = (s', o) | Err e => s' = s1 /\ o = Err e | Panic => s' = s1 /\ o = Panic | NoFuel => s' = s1 /\ o = NoFuel end.
Proof. unfold mbind, stm_bind. destruct (m s) as [s1 [a|e| |]]; intros H; exists s1; eexists; (split; [done|]); by inversion H. Qed.

(** What does not change the tables of money. *)
Definition quiet (t t' : tables M) : Prop := app_users t' = app_users t /\ earning_ledger t' = earning_ledger t /\ referral_commissions t' = referral_commissions t.

#[local] Instance quiet_preorder : PreOrder quiet.
Proof. split; [done|]. intros a b c (H1 & H2 & H3) (H4 & H5 & H6). unfold quiet. by rewrite H4, H5, H6. Qed.

Definition quietly (w w' : world) : Prop := quiet (rows w) (rows w').
#[local] Instance quietly_preorder : PreOrder quietly.
Proof. split; [intros w; by split|]. intros a b c H1 H2. unfold quietly in *. by etransitivity. Qed.

Lemma quiet_sound t t' : quiet t t' -> fine t -> fine t'.
Proof. intros (H1 & H2 & H3) H. by apply (sound_frame add zero t). Qed.

Lemma quietly_query {A} (q : tables M -> A) : moves quietly (query q : dbm (tables M) memory A).
Proof.
  intros w w' o. unfold query, mbind, stm_bind. destruct (statement w) as [w1 o1] eqn:E. apply statement_same in E as (R & _ & [->| ->]); intros [= <- <-]; unfold quietly; by rewrite R.
Qed.

Lemma quietly_exec f : (forall t, quiet t (f t)) -> moves quietly (exec (fun t => Some (f t)) : dbm (tables M) memory unit).
Proof. intros Hf w w' o [R|R]%exec_rows; unfold quietly; [by rewrite R|]. injection R as <-. apply Hf. Qed.

Lemma quietly_ask {A} (m : dbm (tables M) memory A) r : moves quietly m -> moves quietly (ask m r).
Proof. intros H w w' o. unfold ask, wrap. destruct (m w) as [w1 o1] eqn:E. intros [= <- <-]. by eapply H. Qed.

Lemma quietly_ignoring {A} (m : dbm (tables M) memory A) : moves quietly m -> moves quietly (ignoring m).
Proof. intros H w w' o. unfold ignoring, wrap, try. destruct (m w) as [w1 [a|e| |]] eqn:E; intros [= <- <-]; by eapply H. Qed.

#[local] Hint Resolve quietly_query quietly_ask quietly_ignoring : moves.
#[local] Hint Extern 4 (moves quietly (exec _)) => apply quietly_exec; intros ?; by split : moves.

Lemma quietly_session id token now : moves quietly (open_session id token now : handler unit).
Proof. unfold open_session. moves_tac. Qed.
Lemma quietly_method ms r : moves quietly (http.method ms r : handler unit).
Proof. unfold http.method. moves_tac. Qed.
Lemma quietly_row {A} (q : tables M -> option A) r : moves quietly (ask_row q r).
Proof. unfold ask_row. moves_tac. Qed.
Lemma quietly_portalUser now token : moves quietly (portalUser now token : handler (option string)).
Proof. unfold portalUser. moves_tac. Qed.
#[local] Hint Resolve quietly_session quietly_method quietly_row quietly_portalUser : moves.
Lemma quietly_userDBID now token : moves quietly (userDBID now token : handler (option string)).
Proof. unfold userDBID. moves_tac. Qed.
Lemma quietly_code prefix draws : moves quietly (newPublicCode prefix draws : handler string).
Proof. induction draws as [|[b|] draws IH]; cbn [newPublicCode]; moves_tac. Qed.
Lemma quietly_login body token now r : moves quietly (userLoginHandler CompareHashAndPassword body token now r : handler response).
Proof. unfold userLoginHandler. moves_tac. Qed.
Lemma quietly_logout token : moves quietly (userLogoutHandler token : handler response).
Proof. unfold userLogoutHandler. moves_tac. Qed.
Lemma quietly_support auth body r : moves quietly (userSupportHandler auth body r : handler response).
Proof. unfold userSupportHandler, change. moves_tac. Qed.
#[local] Hint Resolve quietly_userDBID quietly_code quietly_login quietly_logout quietly_support : moves.

Lemma userDBID_known now token (w w' : world) id : userDBID now token w = (w', Ok (Some id)) -> id ∈ ids (rows w).
Proof.
  intros H. unfold userDBID in H. stm_inv H. apply quietly_portalUser in E as (E & _). destruct a as [uid|]; [|done]. stm_inv H.
  unfold ignoring, wrap, try, query, mbind, stm_bind in E0. destruct (statement s) as [s1 o1] eqn:E1. apply statement_same in E1 as (R & _ & [->| ->]); [|by injection E0 as <- <-].
  cbn [get_state mret stm_ret map_err] in E0. injection E0 as <- <-. destruct (List.find _ _) as [u|] eqn:Eu; [|done]. injection H as _ <-.
  apply find_some in Eu as [Hu%list_elem_of_In _]. unfold ids. rewrite R, E in Hu. by apply list_elem_of_fmap_2.
Qed.

Hypothesis users_distinct : forall l u, admits_user l u = true -> u_id u ∉ map u_id l.

Lemma register_sound body d1 d2 id token now r w w' o :
  userRegisterHandler GenerateFromPassword default_status zero admits_user body d1 d2 id token now r w = (w', o) -> fine (rows w) -> fine (rows w').
Proof.
  set (R := fun w w' : world => fine (rows w) -> fine (rows w')). assert (PreOrder R) by (split; [by intros ? ?|intros ? ? ? H1 H2 H; by apply H2, H1]).
  assert (forall A (m : handler A), moves quietly m -> moves R m) as Hq by (intros A m Hm v v' o' Hv; apply Hm in Hv; intros Hf; by eapply quiet_sound).
  intros H0. revert H0. change (R w w') with (R w w'). revert w w' o. change (moves R (userRegisterHandler GenerateFromPassword default_status zero admits_user body d1 d2 id token now r)).
  unfold userRegisterHandler. apply moves_bind; [apply _|apply Hq, quietly_method|intros _]. destruct body as [[[name password] code]|]; [|by apply moves_throw].
  destruct (_ || _); [by apply moves_throw|]. destruct (GenerateFromPassword password) as [hash|]; [|by apply moves_throw].
  intros w w' o H0. apply stm_bind_cases in H0 as (w1 & o1 & E1 & H0). intros Hf.
  assert (fine (rows w1) /\ match o1 with Ok ref => forall r, ref = Some r -> r ∈ ids (rows w1) | _ => True end) as [Hf1 Hr].
  { revert E1. destruct (String.eqb _ ""); [by intros [= <- <-]|].
    match goal with |- ?m w = _ -> _ => assert (moves quietly m) as Hm by moves_tac end. intros E. split; [eapply quiet_sound; [by eapply Hm|done]|].
    destruct o1 as [ref| | |]; try done. stm_inv E. injection E as <- <-. unfold ask_row in E0. stm_inv E0. apply ask_query_ok in E as [Es ->].
    destruct (List.find _ _) as [u|] eqn:Eu; [|done]. injection E0 as <- <-. intros ? [= <-]. apply find_some in Eu as [Hu%list_elem_of_In _]. unfold ids. rewrite Es. by apply list_elem_of_fmap_2. }
  destruct o1 as [ref|e| |]; try (destruct H0 as [-> _]; exact Hf1).
  (* the codes *)
  apply stm_bind_cases in H0 as (w2 & o2 & E2 & H0). apply quietly_code in E2.
  assert (fine (rows w2)) as Hf2 by (by eapply quiet_sound). destruct o2 as [uid|e| |]; try (destruct H0 as [-> _]; exact Hf2).
  apply stm_bind_cases in H0 as (w3 & o3 & E3 & H0). apply quietly_code in E3.
  assert (fine (rows w3)) as Hf3 by (by eapply quiet_sound). assert (ids (rows w3) = ids (rows w1)) as I3 by (unfold ids; by rewrite (proj1 E3), (proj1 E2)).
  destruct o3 as [rcode|e| |]; try (destruct H0 as [-> _]; exact Hf3).
  (* the row *)
  apply stm_bind_cases in H0 as (w4 & o4 & E4 & H0).
  assert (fine (rows w4)) as Hf4.
  { unfold ask, wrap in E4. destruct (exec _ w3) as [w4' o4'] eqn:E4'. injection E4 as <- <-. apply exec_rows in E4' as [->|E4]; [done|].
    destruct (admits_user _ _) eqn:Ea; [|done]. injection E4 as <-. apply sound_user; [done|by apply users_distinct|done..|]. cbn. intros r0 Hr0. rewrite I3. by apply Hr. }
  destruct o4 as [u|e| |]; try (destruct H0 as [-> _]; exact Hf4).
  destruct token as [token|]; [|by injection H0 as <- <-].
  assert (moves quietly (open_session id token now;; mret (success [("lumo_session", token); ("user_id", uid); ("referral_code", rcode)]) : handler response)) as Hlast by moves_tac.
  apply Hlast in H0. by eapply quiet_sound.
Qed.

Lemma perform_sound w q : fine (rows w) -> fine (rows (perform w q)).
Proof.
  intros Hf. unfold perform. destruct (handle q w) as [w' o] eqn:E. cbn [fst].
  destruct q as [body d1 d2 id token now r|body token now r|token|now token connected send body|now token body r|tasks levels accounts]; cbn [handle] in E.
  - by eapply register_sound.
  - apply quietly_login in E. by eapply quiet_sound.
  - apply quietly_logout in E. by eapply quiet_sound.
  - apply stm_bind_cases in E as (w1 & o1 & E1 & E). pose proof (quietly_userDBID _ _ _ _ _ E1) as Eq.
    assert (fine (rows w1)) as Hf1 by (by eapply quiet_sound). destruct o1 as [auth|e| |]; try (destruct E as [-> _]; exact Hf1).
    eapply userTaskClaim_sound; [exact E| |exact Hf1]. intros id ->. apply userDBID_known in E1. unfold ids in *. by rewrite (proj1 Eq).
  - assert (moves quietly (auth ← userDBID now token; userSupportHandler auth body r : handler response)) as Hm by moves_tac. apply Hm in E. by eapply quiet_sound.
  - assert (moves quietly (change (manage tasks levels accounts);; mret (success []) : handler response)) as Hm by (unfold change; moves_tac). apply Hm in E. by eapply quiet_sound.
Qed.

(** (C11) Whatever users and the administrator do, in any order, with statements of the
    database failing wherever they may: every user's balance and total are what the
    ledger's entries for the user add up to, today's earnings are what the rewards among
    them do, a claim is rewarded at most once, and the commissions and the ledger's
    entries for them are the same, in order. *)
Theorem books_balance faults qs : let t := rows (foldl perform (opened faults) qs) in
  (forall u, u ∈ app_users t -> u_balance u = amounts add zero (earned (u_id u) (earning_ledger t)) /\ u_total u = amounts add zero (earned (u_id u) (earning_ledger t)) /\
     u_today u = amounts add zero (List.filter is_reward (earned (u_id u) (earning_ledger t)))) /\
  (forall c, (length (List.filter (fun e => is_reward e && (e_claim e =? c)%N) (earning_ledger t)) <= 1)%nat) /\
  commissions_entered t.
Proof.
  intros t. assert (fine t) as ([H1 H2] & H3 & _); [|done]. unfold t.
  assert (fine (rows (opened faults))) as Hf.
  { split; [split|split; [done|split]].
    - intros u Hu. by apply elem_of_nil in Hu.
    - intros c. cbn. lia.
    - intros e He. by apply elem_of_nil in He.
    - intros u r Hu. by apply elem_of_nil in Hu. }
  revert Hf. generalize (opened faults). induction qs as [|q qs IH]; intros w Hf; [done|]. cbn [foldl]. by apply IH, perform_sound.
Qed.

End requests.

End rewards.

Module portal_samples.

Import jid http sql portal rewards.

#[local] Existing Instance history_samples.some_crypto.

Definition distinct (l : list (user Z)) (u : user Z) : bool := bool_decide (u_id u ∉ map u_id l).

Definition post : Request := mkRequest "POST" (fun _ => "") (fun _ => "").

Definition joins (code token id : string) (n : byte) : request (M := Z) :=
  Register (Some ("Name", "secret", code)) [Some [n; x01; x02; x03; x04]] [Some [n; x05; x06; x07]] id (Some token) 0 post.

Definition one_task : request (M := Z) :=
  Manage [mkTask "t" "Title" "Text" "15551234567" 1000 true] {[1 := (10, true)]} [mkAccount "acc" "ann" "wa-1" "active" 0 0].

Definition claims : request (M := Z) := Claim 1 "token-a" (fun _ => true) (fun _ _ _ => None) (Some ("t", "acc")).

Abbreviation at_work qs :=
  (foldl (perform Z.add (fun reward pct => reward * pct / 100) (Z.ltb 0) 0 (fun _ _ => true) distinct (fun p => Some p) String.eqb "active") (opened []) qs).

(** Ann, whom Bob brought in, sends the task's message; the table of claims has no
    constraint, so that she may send it again. *)
Definition two_sends : list (request (M := Z)) := [joins "" "token-b" "bob" x0b; joins "LU0B050607" "token-a" "ann" x0a; one_task; claims; claims].

(** Nothing in the program keeps a task from being sent and paid twice: only a
    constraint of a table it does not make could. *)
Lemma claimed_again : map (fun u => (u_id u, u_balance u)) (app_users (rows (at_work two_sends))) = [("bob", 200); ("ann", 2000)] /\
  length (sends (mem (at_work two_sends))) = 2%nat.
Proof. vm_compute. done. Qed.

Lemma books_balance_witness : (forall l u, distinct l u = true -> u_id u ∉ map u_id l) /\
  let t := rows (at_work two_sends) in
  (forall u, u ∈ app_users t -> u_balance u = amounts Z.add 0 (earned (u_id u) (earning_ledger t)) /\ u_total u = amounts Z.add 0 (earned (u_id u) (earning_ledger t)) /\
     u_today u = amounts Z.add 0 (List.filter is_reward (earned (u_id u) (earning_ledger t)))) /\
  (forall c, (length (List.filter (fun e => is_reward e && (e_claim e =? c)%N) (earning_ledger t)) <= 1)%nat) /\ commissions_entered t.
Proof.
  assert (forall l u, distinct l u = true -> u_id u ∉ map u_id l) as Hd by (intros l u; apply bool_decide_eq_true_1). split; [exact Hd|].
  exact (books_balance Z.add (fun reward pct => reward * pct / 100) (Z.ltb 0) 0 (fun _ _ => true) distinct (fun p => Some p) String.eqb "active" Hd [] two_sends).
Defined.

End portal_samples.
