(* ===== verification/PanelAdmin.v ===== *)
(** * The control panel: the administrator's pages

    The rest of admin_routes.go, admin_schema.go and admin_telemetry.go. [admin]: the
    token and the routes. [schema]: changing and deleting rows of any table.
    [settings_api]: the settings. [telemetry]: what became of sends. *)

From S2P Require Import Prelude GoStrings StateErr Jid Crypto Safety Bulk PanelSessions PanelPortal.
From stdpp Require Import sorting.

#[local] Open Scope string_scope.
#[local] Open Scope list_scope.
#[local] Open Scope Z_scope.

Module admin.

Import http.

Section admin.
(** The environment's ADMIN_TOKEN. *)
Context (ADMIN_TOKEN : string).

Definition adminToken : string := trim_space ADMIN_TOKEN.

Definition checkAdminToken (r : Request) : bool :=
  let t := adminToken in
  let p := trim_space (Header r "X-Admin-Token") in
  negb (String.eqb t "") && negb (String.eqb p "") && String.eqb t p.

Definition unauthorized : response := fail 401 "Unauthorized".

Definition requireAdmin {W} (r : Request) : stm W response unit := if checkAdminToken r then mret tt else throw unauthorized.

Definition adminHandler {W} (next : Request -> stm W response response) (r : Request) : stm W response response :=
  options_only r;; requireAdmin r;; next r.

Definition adminAuthStatusHandler {W} (r : Request) : stm W response response :=
  method ["GET"] r;; requireAdmin r;; mret (success [("message", "Admin authenticated")]).

(** Without a token in the environment nobody is an administrator, and a handler behind
    [adminHandler] does nothing for a request without it. *)
Theorem adminHandler_guards {W} (next : Request -> stm W response response) r w : Method r <> "OPTIONS" ->
  (adminToken = "" \/ trim_space (Header r "X-Admin-Token") <> adminToken) -> adminHandler next r w = (w, Err unauthorized).
Proof.
  intros Hm Ht. unfold adminHandler, options_only, requireAdmin, checkAdminToken. destruct (String.eqb_spec (Method r) "OPTIONS"); [done|].
  unfold mbind, stm_bind. cbn [mret stm_ret]. destruct (String.eqb_spec adminToken ""); [done|]. destruct Ht as [?|Ht]; [done|].
  destruct (String.eqb_spec (trim_space (Header r "X-Admin-Token")) ""); [done|]. cbn [negb andb].
  destruct (String.eqb_spec adminToken (trim_space (Header r "X-Admin-Token"))); [congruence|done].
Qed.

End admin.

(** The routes with a handler that does or shows something, and whether it is behind
    the token: main.go's are not, admin_routes.go's are. *)
Definition routes : list (string * string * bool) :=
  [("/", "rootHandler", false); ("/pair", "pairHandler", false); ("/send", "sendHandler", false); ("/status", "statusHandler", false);
   ("/devices", "devicesHandler", false); ("/connect/pair", "publicPairStartHandler", false); ("/connect/status", "publicPairStatusHandler", false);
   ("/admin/devices/data", "devicesHandler", true); ("/admin/pair/data", "pairHandler", true); ("/admin/pair-link", "adminCreatePairLinkHandler", true);
   ("/admin/pair-links/status", "adminPairLinksStatusHandler", true); ("/admin/settings/data", "adminSettingsAPIHandler", true);
   ("/admin/status", "statusHandler", true); ("/admin/logout", "logoutHandler", true); ("/admin/reconnect", "adminReconnectHandler", true);
   ("/admin/test-send", "adminSafeSendHandler", true); ("/admin/bulk/import", "bulkMessageImportHandler", true);
   ("/admin/bulk/status", "bulkMessageStatusHandler", true); ("/admin/schema/data", "adminSchemaDataHandler", true);
   ("/admin/schema/write", "adminSchemaWriteHandler", true); ("/admin/schema/delete", "adminSchemaDeleteHandler", true);
   ("/admin/telemetry/data", "adminTelemetryDataHandler", true); ("/admin/send-logs/data", "adminSendLogsDataHandler", true)].

(** The handlers behind the token that are also served without it. *)
Definition also_open : list string :=
  omap (fun x => match x with (_, h, true) => if existsb (fun y => match y with (_, h', false) => String.eqb h' h | _ => false end) routes then Some h else None | _ => None end) routes.

Lemma open_twins : also_open = ["devicesHandler"; "pairHandler"; "statusHandler"].
Proof. reflexivity. Qed.

End admin.

Module schema.

Definition quote : ascii := Ascii.ascii_of_nat 34.

Fixpoint double_quotes (s : string) : string :=
  match s with EmptyString => "" | String a s => if Ascii.eqb a quote then String quote (String quote (double_quotes s)) else String a (double_quotes s) end.

Definition sqlIdent (s : string) : string := String quote (double_quotes s +:+ String quote "").

(** How PostgreSQL reads a quoted identifier: the name and what follows. *)
Fixpoint read_rest (s : string) : option (string * string) :=
  match s with
  | EmptyString => None
  | String a s =>
      if Ascii.eqb a quote then
        match s with
        | String b s' => if Ascii.eqb b quote then '(n, r) ← read_rest s'; Some (String quote n, r) else Some ("", String b s')
        | EmptyString => Some ("", "")
        end
      else '(n, r) ← read_rest s; Some (String a n, r)
  end.

Definition read_ident (s : string) : option (string * string) := match s with String a s => if Ascii.eqb a quote then read_rest s else None | _ => None end.

Lemma read_end rest : match rest with String a _ => a <> quote | _ => True end -> read_rest (String quote rest) = Some ("", rest).
Proof. destruct rest as [|a rest]; [done|]. intros Ha. cbn [read_rest]. rewrite (Ascii.eqb_refl quote). by destruct (Ascii.eqb_spec a quote). Qed.

Lemma read_char a s : a <> quote -> read_rest (String a s) = ('(n, r) ← read_rest s; Some (String a n, r)).
Proof. intros Ha. cbn [read_rest]. by destruct (Ascii.eqb_spec a quote). Qed.

(** A quoted name is read as just that name, whatever it is: it cannot end the
    identifier early. *)
Theorem sqlIdent_read s rest : match rest with String a _ => a <> quote | _ => True end -> read_ident (sqlIdent s +:+ rest) = Some (s, rest).
Proof.
  intros Hr. unfold sqlIdent. change (read_rest ((double_quotes s +:+ String quote "") +:+ rest) = Some (s, rest)). induction s as [|a s IH].
  - exact (read_end _ Hr).
  - cbn [double_quotes]. destruct (Ascii.eqb_spec a quote) as [->|Ha].
    + transitivity ('(n, r) ← read_rest ((double_quotes s +:+ String quote "") +:+ rest); Some (String quote n, r)); [reflexivity|by rewrite IH].
    + transitivity (read_rest (String a ((double_quotes s +:+ String quote "") +:+ rest))); [reflexivity|]. rewrite read_char by done. by rewrite IH.
Qed.

Definition name_char (a : ascii) : bool :=
  let n := Z.of_nat (Ascii.nat_of_ascii a) in
  Ascii.eqb a "_" || ((97 <=? n) && (n <=? 122)) || ((65 <=? n) && (n <=? 90)) || ((48 <=? n) && (n <=? 57)).

Definition validSchemaName (s : string) : bool :=
  (0 <? String.length s)%nat && (String.length s <=? 63)%nat && forallb name_char (String.list_ascii_of_string s).

(** The insertion sort of admin_schema.go. *)
Fixpoint insert (x : string) (l : list string) : list string :=
  match l with [] => [x] | y :: l => if (x <? y)%string then x :: y :: l else y :: insert x l end.

Definition sortStrings (l : list string) : list string := foldl (fun l x => insert x l) [] l.

Lemma insert_permutation x l : Permutation (insert x l) (x :: l).
Proof. induction l as [|y l IH]; [done|]. cbn. destruct (x <? y)%string; [done|]. rewrite IH. apply perm_swap. Qed.

Lemma sortStrings_permutation l : Permutation (sortStrings l) l.
Proof.
  unfold sortStrings. change l with ([] ++ l) at 2. generalize (@nil string). induction l as [|x l IH]; intros k; cbn [foldl]; [by rewrite app_nil_r|].
  rewrite IH, insert_permutation. exact (Permutation_middle _ _ _).
Qed.

(** ** Statements *)

Section statements.
Context {V : Type}.

(** A condition, or the values to set: columns with values, in the order in which the
    map is visited. *)
Abbreviation cells := (list (string * V)).

Definition joinIdents (a : list string) : string := String.concat "," (map sqlIdent a).

Fixpoint pairs_from (a : list string) (start : Z) : list string :=
  match a with [] => [] | v :: a => (sqlIdent v +:+ "=$" +:+ itoa start) :: pairs_from a (start + 1) end.

Definition setPairs (a : list string) (start : Z) : string := String.concat "," (pairs_from a start).
Definition buildWhereSQL (m : cells) (start : Z) : string := String.concat " AND " (pairs_from (sortStrings (map fst m)) start).

Definition value_of (k : string) (m : cells) : option V := snd <$> List.find (fun x => String.eqb (fst x) k) m.

Definition valid_columns (columns : list string) (m : cells) : bool := forallb (fun x => existsb (String.eqb (fst x)) columns) m.

(** [buildWhere]: the keys in order, the condition and its arguments. *)
Definition buildWhere (columns : list string) (m : cells) (start : Z) : option (list string * string * list V) :=
  if valid_columns columns m then
    let keys := sortStrings (map fst m) in Some (keys, buildWhereSQL m start, omap (fun k => value_of k m) keys)
  else None.

(** A statement: its text, the columns its placeholders stand at in their order, and the
    arguments. *)
Record statement := mkStatement { text : string; placeholders : list string; arguments : list V }.

Inductive write_error := NoValues | NoWhere | InvalidColumn.

Definition placeholders_text (n : nat) : string := String.concat "," (map (fun i => "$" +:+ itoa (Z.of_nat i)) (seq 1 n)).

(** [where']: the condition's map as the second loop over it visits it, when the
    arguments are put together. *)
Definition adminSchemaWriteHandler (table : string) (columns : list string) (values where_ where' : cells) : outcome write_error statement :=
  match values with
  | [] => Err NoValues
  | _ =>
      if negb (valid_columns columns values) then Err InvalidColumn
      else
        let keys := map fst values in
        match where_ with
        | [] =>
            Ok (mkStatement ("INSERT INTO " +:+ sqlIdent table +:+ " (" +:+ joinIdents keys +:+ ") VALUES (" +:+ placeholders_text (length keys) +:+ ") RETURNING *")
                  keys (map snd values))
        | _ =>
            match buildWhere columns where_ (Z.of_nat (length keys)) with
            | None => Err InvalidColumn
            | Some _ =>
                Ok (mkStatement ("UPDATE " +:+ sqlIdent table +:+ " SET " +:+ setPairs keys 1 +:+ " WHERE " +:+ buildWhereSQL where_ (Z.of_nat (length keys) + 1) +:+ " RETURNING *")
                      (keys ++ sortStrings (map fst where_)) (map snd values ++ map snd where'))
            end
        end
  end.

Definition adminSchemaDeleteHandler (table : string) (columns : list string) (where_ : cells) : outcome write_error statement :=
  match where_ with
  | [] => Err NoWhere
  | _ =>
      if negb (valid_columns columns where_) then Err InvalidColumn
      else
        let keys := sortStrings (map fst where_) in
        Ok (mkStatement ("DELETE FROM " +:+ sqlIdent table +:+ " WHERE " +:+ buildWhereSQL where_ 1 +:+ " RETURNING *") keys (omap (fun k => value_of k where_) keys))
  end.

Lemma value_of_in (m : cells) x : NoDup (map fst m) -> x ∈ m -> value_of (fst x) m = Some (snd x).
Proof.
  induction m as [|y m IH]; intros Hn Hx; [by apply elem_of_nil in Hx|]. apply NoDup_cons in Hn as [Hy Hn]. unfold value_of in *. cbn [List.find].
  apply elem_of_cons in Hx as [->|Hx]; [by rewrite String.eqb_refl|]. destruct (String.eqb_spec (fst y) (fst x)) as [E|]; [|by apply IH].
  destruct Hy. rewrite E. by apply list_elem_of_fmap_2.
Qed.

Lemma bound_values (m : cells) (keys : list string) : NoDup (map fst m) -> keys ⊆ map fst m ->
  Forall2 (fun k v => (k, v) ∈ m) keys (omap (fun k => value_of k m) keys).
Proof.
  intros Hn. induction keys as [|k keys IH]; intros Hk; [constructor|]. assert (k ∈ map fst m) as Hin by (apply Hk, list_elem_of_here).
  apply list_elem_of_fmap in Hin as ([k' v] & -> & Hin). cbn [fst]. cbn [omap list_omap]. pose proof (value_of_in m (k', v) Hn Hin) as E. cbn [fst snd] in E. rewrite E.
  constructor; [done|]. apply IH. intros j Hj. apply Hk. by apply list_elem_of_further.
Qed.

(** A deletion compares every column with the value it was given. *)
Theorem delete_binds table columns where_ st : NoDup (map fst where_) -> adminSchemaDeleteHandler table columns where_ = Ok st ->
  Forall2 (fun k v => (k, v) ∈ where_) (placeholders st) (arguments st) /\ Permutation (placeholders st) (map fst where_).
Proof.
  intros Hn. unfold adminSchemaDeleteHandler. destruct where_ as [|x m] eqn:E; [done|]. rewrite <- E in *. clear E. destruct (negb _); [done|]. intros [= <-]. cbn [placeholders arguments].
  split; [|apply sortStrings_permutation]. apply bound_values; [done|]. intros k Hk. by rewrite sortStrings_permutation in Hk.
Qed.

(** So does a change with one column in its condition. *)
Lemma update_binds_one table columns values k v st : adminSchemaWriteHandler table columns values [(k, v)] [(k, v)] = Ok st ->
  placeholders st = map fst values ++ [k] /\ arguments st = map snd values ++ [v].
Proof. unfold adminSchemaWriteHandler. destruct values as [|x values]; [done|]. destruct (negb _); [done|]. destruct (buildWhere _ _ _); [|done]. by intros [= <-]. Qed.

End statements.

(** With two columns the arguments follow the order in which the map is visited, the
    placeholders the order of the names: a change can compare each column with the
    other's value. *)
Lemma update_misbinds : exists st, adminSchemaWriteHandler "t" ["a"; "b"; "c"] [("c", 0)] [("a", 1); ("b", 2)] [("b", 2); ("a", 1)] = Ok st /\
  combine (placeholders st) (arguments st) = [("c", 0); ("a", 2); ("b", 1)].
Proof. eexists. split; reflexivity. Qed.

(** The rows shown of a table. *)
Definition row_limit (limit : string) : Z := match atoi limit with Ok n => if (0 <? n) && (n <=? 500) then n else 200 | _ => 200 end.

End schema.

Module settings_api.

(** The table of settings. *)
Abbreviation settings := (gmap string string).

Definition setAdminSetting (key value : string) (t : settings) : settings := <[key := value]> t.
Definition boolString (v : bool) : string := if v then "true" else "false".

(** The body of a change: flags and numbers that may be left out, and two texts. *)
Record changes := mkChanges {
  DeleteChatAfterSend : option bool; SendTyping : option bool; TypingMinMS : string; TypingMaxMS : string; PostSendDelayMS : string;
  BanSafetyEnabled : option bool; SafetyMinIntervalMS : string; SafetyMaxMessagesHour : string; SafetyMaxMessagesDay : string;
  AutoMessageAfterPairing : option bool; AutoMessageTarget : string; AutoMessageText : string; BulkAutoSendEnabled : option bool
}.

Definition set_flag (key : string) (v : option bool) (t : settings) : settings := match v with Some b => setAdminSetting key (boolString b) t | None => t end.
Definition set_text (key v : string) (t : settings) : settings := if String.eqb v "" then t else setAdminSetting key v t.

Definition apply_changes (c : changes) (t : settings) : settings :=
  let t := set_flag "delete_chat_after_send" (DeleteChatAfterSend c) t in
  let t := set_flag "send_typing" (SendTyping c) t in
  let t := set_text "typing_min_ms" (TypingMinMS c) t in
  let t := set_text "typing_max_ms" (TypingMaxMS c) t in
  let t := set_text "post_send_delay_ms" (PostSendDelayMS c) t in
  let t := set_flag "ban_safety_enabled" (BanSafetyEnabled c) t in
  let t := set_text "safety_min_interval_ms" (SafetyMinIntervalMS c) t in
  let t := set_text "safety_max_messages_hour" (SafetyMaxMessagesHour c) t in
  let t := set_text "safety_max_messages_day" (SafetyMaxMessagesDay c) t in
  let t := set_flag "auto_message_after_pairing" (AutoMessageAfterPairing c) t in
  let t := set_flag "bulk_auto_send_enabled" (BulkAutoSendEnabled c) t in
  let t := setAdminSetting "auto_message_target" (trim_space (AutoMessageTarget c)) t in
  setAdminSetting "auto_message_text" (trim_space (AutoMessageText c)) t.

(** What the other parts read of the table. *)
Definition as_settings (t : settings) : safety.settings := fun key => t !! key.

(** What is shown, with the defaults. *)
Definition shown (t : settings) : list (string * string) :=
  let flag key def := (key, boolString (String.eqb (safety.getAdminSetting (as_settings t) key def) "true")) in
  let value key def := (key, safety.getAdminSetting (as_settings t) key def) in
  [flag "delete_chat_after_send" "true"; flag "send_typing" "true"; value "typing_min_ms" "2000"; value "typing_max_ms" "4000"; value "post_send_delay_ms" "2000";
   flag "ban_safety_enabled" "true"; value "safety_min_interval_ms" "15000"; value "safety_max_messages_hour" "20"; value "safety_max_messages_day" "100";
   flag "auto_message_after_pairing" "false"; value "auto_message_target" ""; value "auto_message_text" ""; flag "bulk_auto_send_enabled" "false"].

Definition no_changes : changes := mkChanges None None "" "" "" None "" "" "" None "" "" None.

(** A change that names everything is shown as it was made. *)
Theorem changes_shown d s tmin tmax delay b i h dy a target txt k t : tmin <> "" -> tmax <> "" -> delay <> "" -> i <> "" -> h <> "" -> dy <> "" ->
  shown (apply_changes (mkChanges (Some d) (Some s) tmin tmax delay (Some b) i h dy (Some a) target txt (Some k)) t) =
  [("delete_chat_after_send", boolString d); ("send_typing", boolString s); ("typing_min_ms", tmin); ("typing_max_ms", tmax); ("post_send_delay_ms", delay);
   ("ban_safety_enabled", boolString b); ("safety_min_interval_ms", i); ("safety_max_messages_hour", h); ("safety_max_messages_day", dy);
   ("auto_message_after_pairing", boolString a); ("auto_message_target", trim_space target); ("auto_message_text", trim_space txt); ("bulk_auto_send_enabled", boolString k)].
Proof.
  intros H1 H2 H3 H4 H5 H6. unfold shown, safety.getAdminSetting, as_settings, apply_changes, set_text, set_flag, setAdminSetting. cbn [DeleteChatAfterSend SendTyping TypingMinMS TypingMaxMS PostSendDelayMS BanSafetyEnabled SafetyMinIntervalMS SafetyMaxMessagesHour SafetyMaxMessagesDay AutoMessageAfterPairing AutoMessageTarget AutoMessageText BulkAutoSendEnabled].
  repeat match goal with H : ?x <> "" |- _ => rewrite (proj2 (String.eqb_neq x "") H); clear H end.
  assert (forall v, String.eqb (boolString v) "true" = v) as Hb by (by intros []).
  repeat (rewrite lookup_insert_eq || rewrite lookup_insert_ne by discriminate). unfold id; cbn [default]; unfold id. by rewrite !Hb.
Qed.

(** A change that leaves the two texts out empties them. *)
Lemma texts_emptied t : (apply_changes no_changes t) !! "auto_message_text" = Some "" /\ (apply_changes no_changes t) !! "auto_message_target" = Some "".
Proof. unfold apply_changes, setAdminSetting. cbn. split; by rewrite ?lookup_insert_ne, lookup_insert_eq by done. Qed.

End settings_api.

Module telemetry.

Import safety.

(** The kinds of row that are counted, in the order of the answer's columns. *)
Definition shown_stages : list string :=
  ["attempt"; "lid_resolved"; "lid_not_resolved"; "lid_lookup_failed"; "lid_lookup_rate_limited"; "send_success"; "send_no_lid"; "send_rate_limited";
   "send_timeout"; "send_failed"; "safety_blocked"; "precheck_failed"; "timelock_detected"; "send_paused_by_account_health"].

Definition count (stage country : string) (l : list telemetry_row) : nat :=
  length (List.filter (fun r => String.eqb (t_stage r) stage && String.eqb (t_country r) country) l).

(** India and Brazil first, then the other names in order. *)
Definition countries (l : list telemetry_row) : list string :=
  let present := remove_dups (map t_country l) in
  List.filter (fun c => bool_decide (c ∈ present)) ["IN"; "BR"] ++ schema.sortStrings (List.filter (fun c => negb (String.eqb c "IN" || String.eqb c "BR")) present).

Definition telemetryRow (l : list telemetry_row) (country : string) : string * list nat := (country, map (fun s => count s country l) shown_stages).

(** The rows carry the time they were written at; those of the last seven days count. *)
Definition adminTelemetryDataHandler (now : Z) (l : list (Z * telemetry_row)) : list (string * list nat) :=
  let recent := map snd (List.filter (fun x => now - 7 * day <=? fst x) l) in map (telemetryRow recent) (countries recent).

(** The ways in which an attempt ends. *)
Definition ends : list string :=
  ["lid_lookup_failed"; "lid_lookup_rate_limited"; "send_success"; "send_no_lid"; "send_rate_limited"; "send_timeout"; "send_failed"; "safety_blocked";
   "timelock_detected"; "send_paused_by_account_health"; "rate_limited"].

Definition ended (country : string) (l : list telemetry_row) : nat := foldr (fun s n => (count s country l + n)%nat) 0%nat ends.

Definition balanced (l : list telemetry_row) : Prop := forall country, count "attempt" country l = ended country l.

Lemma stage_count_cons s c r l : count s c (r :: l) = ((if String.eqb (t_stage r) s && String.eqb (t_country r) c then 1 else 0) + count s c l)%nat.
Proof. unfold count. cbn [List.filter]. by destruct (_ && _). Qed.

(** A row that neither begins nor ends an attempt, and the two that do. *)
Lemma balanced_aside r l : t_stage r ∈ ["lid_resolved"; "lid_not_resolved"; "precheck_failed"] -> balanced l -> balanced (r :: l).
Proof.
  intros Hs H c. specialize (H c). unfold ended in *. cbn [foldr ends] in *. rewrite !stage_count_cons.
  repeat (apply elem_of_cons in Hs as [->|Hs]; [cbn [String.eqb Ascii.eqb Bool.eqb andb Nat.add]; exact H|]). by apply elem_of_nil in Hs.
Qed.

Definition open_attempt (country : string) (l : list telemetry_row) : Prop :=
  forall c, count "attempt" c l = ((if String.eqb country c then 1 else 0) + ended c l)%nat.

Lemma balanced_begin r l : t_stage r = "attempt" -> balanced l -> open_attempt (t_country r) (r :: l).
Proof. intros Hs H c. specialize (H c). unfold ended in *. cbn [foldr ends] in *. rewrite !stage_count_cons, Hs. cbn [String.eqb Ascii.eqb Bool.eqb andb Nat.add]. by rewrite H. Qed.

Lemma open_aside country r l : t_stage r ∈ ["lid_resolved"; "lid_not_resolved"] -> open_attempt country l -> open_attempt country (r :: l).
Proof.
  intros Hs H c. specialize (H c). unfold ended in *. cbn [foldr ends] in *. rewrite !stage_count_cons.
  repeat (apply elem_of_cons in Hs as [->|Hs]; [cbn [String.eqb Ascii.eqb Bool.eqb andb Nat.add]; exact H|]). by apply elem_of_nil in Hs.
Qed.

Lemma open_end r l : t_stage r ∈ ends -> open_attempt (t_country r) l -> balanced (r :: l).
Proof.
  intros Hs H c. specialize (H c). unfold ended in *. cbn [foldr ends] in *. rewrite !stage_count_cons. unfold ends in Hs.
  repeat (apply elem_of_cons in Hs as [->|Hs]; [cbn [String.eqb Ascii.eqb Bool.eqb andb Nat.add]; rewrite H; destruct (String.eqb _ c); lia|]). by apply elem_of_nil in Hs.
Qed.

Lemma recorded uid target stage p : trim_space target <> "" -> safety.telemetry (recordSendTelemetry uid target stage p) = mkTelemetry uid target (telemetryCountry target) stage :: safety.telemetry p.
Proof. intros H. unfold recordSendTelemetry. by rewrite (proj2 (String.eqb_neq _ _) H). Qed.

Lemma record_end uid target stage p : trim_space target <> "" -> stage ∈ ends -> open_attempt (telemetryCountry target) (safety.telemetry p) ->
  balanced (safety.telemetry (recordSendTelemetry uid target stage p)).
Proof. intros Ht Hs Hp. rewrite recorded by done. by apply open_end. Qed.

#[local] Ltac end_tac := apply record_end; [done|unfold ends; rewrite list_elem_of_In; cbn; tauto|try done].

(** Every row of telemetry is written. *)
Definition all_noted (env : send_env) : Prop := forall stage, e_fails env (TelemetryWrite stage) = false.

Lemma note_recorded env uid target stage p : all_noted env -> note env uid target stage p = recordSendTelemetry uid target stage p.
Proof. intros H. unfold note. by rewrite H. Qed.

Lemma failure_balanced env uid target err p : all_noted env -> trim_space target <> "" -> open_attempt (telemetryCountry target) (safety.telemetry p) ->
  balanced (safety.telemetry (fst (send_failure env uid target err p))).
Proof. intros Hn Ht Hp. unfold send_failure. rewrite !note_recorded by done. destruct (isRateLimitedError err), (isNoLIDError err), (is463Error err), (errorsIsContextDeadline err); cbn [fst]; end_tac. Qed.

Lemma resolved_or_not target stored stored' answer : exists e, resolveRecipientWithLIDFallback target stored stored' answer = Ok e \/ exists e', resolveRecipientWithLIDFallback target stored stored' answer = Err e'.
Proof. unfold resolveRecipientWithLIDFallback. destruct (resolveCachedRecipient stored); [eauto|]. destruct answer; [exists None; eauto|eauto]. Qed.

Lemma deliver_balanced st env uid target text p : all_noted env -> trim_space (jid.User target) <> "" -> open_attempt (telemetryCountry (jid.User target)) (safety.telemetry p) ->
  balanced (safety.telemetry (fst (fst (deliver st env uid target text p)))).
Proof.
  intros Hn Ht Hp. unfold deliver. cbv zeta. destruct (resolved_or_not target (e_lid env) (e_lid_after env) (e_on_whatsapp env)) as [res [->|[e ->]]]; [|destruct (isRateLimitedError e); cbn [fst]; rewrite note_recorded by done; end_tac].
  set (p2 := note env _ _ _ p).
  assert (open_attempt (telemetryCountry (jid.User target)) (safety.telemetry p2)) as H2.
  { unfold p2. rewrite note_recorded, recorded by done. apply open_aside; [destruct res; cbn [t_stage]; set_solver|done]. }
  clearbody p2. destruct (e_send env) as [err|].
  - pose proof (failure_balanced env uid (jid.User target) err p2 Hn Ht H2). by destruct (send_failure _ _ _ _ _).
  - cbn [fst set_rows safety.telemetry]. rewrite note_recorded by done. end_tac.
Qed.

(** Every attempt to send that was written down is also written down as ended, in one of
    eleven ways, if every row can be written. *)
Theorem safeSendMessage_balanced st env uid target text p : all_noted env -> balanced (safety.telemetry p) -> balanced (safety.telemetry (fst (fst (safeSendMessage st env uid target text p)))).
Proof.
  intros Hn H.
  assert (balanced (safety.telemetry (recordSendTelemetry uid (jid.User target) "precheck_failed" p))) as Hpre.
  { unfold recordSendTelemetry. destruct (String.eqb _ ""); [done|]. apply balanced_aside; [set_solver|done]. }
  unfold safeSendMessage. cbv zeta. destruct (negb (e_connected env)); [by rewrite note_recorded|]. destruct (String.eqb (trim_space text) ""); [by rewrite note_recorded|].
  destruct (negb _); cbn [orb]; [by rewrite note_recorded|]. destruct (String.eqb_spec (trim_space (jid.User target)) "") as [|Hu]; [by rewrite note_recorded|].
  set (p1 := note env _ _ "attempt" p).
  assert (open_attempt (telemetryCountry (jid.User target)) (safety.telemetry p1)) as H1 by (unfold p1; rewrite note_recorded, recorded by done; by apply balanced_begin). clearbody p1. clear H Hpre.
  destruct (recipientRateLimited _ _ _) as [[] lim]; [cbn [fst]; rewrite !note_recorded by done; end_tac|].
  destruct (checkMessageSafety _ _ _ _); [|cbn [fst]; rewrite !note_recorded by done; end_tac| |]; destruct (accountHealthSnapshot _ _ _ _ _ _ _ _) as [s hs];
    (destruct (checkAccountHealthForSend _ _); [|cbn [fst]; rewrite !note_recorded by done; end_tac| |]); by apply deliver_balanced.
Qed.

(** What a page shows: the ends that have a column never exceed the attempts; what is
    missing are the attempts refused by the pause after a rate limit, which no column
    counts. *)
Lemma shown_shortfall l country : balanced l ->
  (count "attempt" country l =
   count "rate_limited" country l + foldr (fun s n => count s country l + n) 0 (List.filter (fun s => existsb (String.eqb s) shown_stages) ends))%nat.
Proof. intros H. rewrite (H country). unfold ended. cbn [List.filter existsb shown_stages ends String.eqb Ascii.eqb Bool.eqb orb foldr]. lia. Qed.

Lemma pause_not_shown : existsb (String.eqb "rate_limited") shown_stages = false.
Proof. reflexivity. Qed.

End telemetry.
