(* ===== verification/PanelImport.v ===== *)
(** * The control panel: filling the queue and the old database

    The rest of bulk_messaging.go and sqlite_migration.go. [imports]: the upload of a
    list of messages, the actions on the queue and its status. [repair]: the queue's
    table at start. [migration]: the copy of an old SQLite database at start. *)

From S2P Require Import Prelude GoStrings Jid Crypto Safety Bulk PanelPortal.

#[local] Open Scope string_scope.
#[local] Open Scope list_scope.
#[local] Open Scope Z_scope.

Module imports.

Import safety bulk.

(** ** Columns *)

Fixpoint without (p : ascii -> bool) (s : string) : string :=
  match s with EmptyString => "" | String a s => if p a then without p s else String a (without p s) end.

Definition normalizeCSVHeader (v : string) : string :=
  without (fun a => Ascii.eqb a "_" || Ascii.eqb a "-" || Ascii.eqb a " ") (to_lower (trim_space (trim_prefix bom v))).

Record columns := mkColumns { phoneIdx : nat; msgIdx : nat; consIdx : nat }.

Definition one_of (l : list string) (s : string) : bool := existsb (String.eqb s) l.

Definition column (i : nat) (raw : string) (c : columns) : columns :=
  let h := normalizeCSVHeader raw in
  if one_of ["phone"; "phonenumber"; "number"; "mobilenumber"; "mobile"] h then mkColumns i (msgIdx c) (consIdx c)
  else if one_of ["message"; "text"; "body"; "content"] h then mkColumns (phoneIdx c) i (consIdx c)
  else if one_of ["consent"; "optin"; "optedin"; "permission"] h then mkColumns (phoneIdx c) (msgIdx c) i
  else c.

Fixpoint columns_from (i : nat) (rec : list string) (c : columns) : columns :=
  match rec with [] => c | raw :: rec => columns_from (S i) rec (column i raw c) end.

Definition is_header (rec : list string) : bool :=
  let lower := to_lower (String.concat "," rec) in str_has "phone" lower && (str_has "message" lower || str_has "text" lower).

Definition clean (rec : list string) : list string := map (fun f => trim_space (trim_prefix bom f)) rec.

(** ** The import *)

(** What the CSV reader gives: a record, the end, or an error. *)
Inductive read := Rec (fields : list string) | Eof | ReadError.

Inductive reason := Malformed | Refused (r : skip_reason) | InsertFailed | Duplicate.

(** The rows with their unique keys, in the order they were added. *)
Record state := mkState { kept : list (string * import_row); imported : nat; skipped : list reason }.

Definition skip (r : reason) (s : state) : state := mkState (kept s) (imported s) (skipped s ++ [r]).

Section import.
Context {C : Crypto}.

(** The campaign is the time of the upload. *)
Definition bulkKey (campaign phone message : string) : string :=
  let zero := String "000" "" in portal.hex (sha256 (str_bytes (campaign +:+ zero +:+ phone +:+ zero +:+ message))).

(** [works]: the database takes the row. *)
Definition take_record (campaign : string) (works : bool) (c : columns) (rec : list string) (s : state) : state :=
  match import_record (phoneIdx c) (msgIdx c) (consIdx c) rec with
  | Ok row =>
      let key := bulkKey campaign (i_phone row) (i_message row) in
      if negb works then skip InsertFailed s
      else if one_of (map fst (kept s)) key then skip Duplicate s
      else mkState (kept s ++ [(key, row)]) (S (imported s)) (skipped s)
  | Err r => skip (Refused r) s
  | _ => s
  end.

(** [reader]: what the i-th read gives; [None]: more than [fuel] reads. *)
Fixpoint import_loop (fuel : nat) (campaign : string) (works : nat -> bool) (reader : nat -> read) (i : nat) (first : bool) (c : columns) (s : state) : option state :=
  match fuel with
  | O => None
  | S fuel =>
      match reader i with
      | Eof => Some s
      | ReadError => import_loop fuel campaign works reader (S i) first c (skip Malformed s)
      | Rec rec =>
          let c := if first then columns_from 0 (clean rec) c else c in
          if first && is_header (clean rec) then import_loop fuel campaign works reader (S i) false c s
          else import_loop fuel campaign works reader (S i) false c (take_record campaign (works i) c rec s)
      end
  end.

(** [rows]: the table with the rows of earlier imports. *)
Definition bulkMessageImportHandler_csv (fuel : nat) (campaign : string) (works : nat -> bool) (reader : nat -> read) (rows : list (string * import_row)) : option state :=
  import_loop fuel campaign works reader 0 true (mkColumns 0 1 2) (mkState rows 0 []).

(** *** What it keeps *)

Definition well_formed (row : import_row) : Prop :=
  all_digit (i_phone row) = true /\ 7 <= Z.of_nat (String.length (i_phone row)) <= 15 /\ 1 <= Z.of_nat (String.length (i_message row)) <= 10000 /\ i_consent row ∈ ["yes"; "true"; "1"].

(** The rows there were, new rows that are well formed, and different keys. *)
Definition grown (rows : list (string * import_row)) (s : state) : Prop :=
  NoDup (map fst (kept s)) /\ exists new, kept s = rows ++ new /\ length new = imported s /\ Forall (fun x => well_formed (snd x)) new.

Lemma one_of_spec l x : one_of l x = true <-> x ∈ l.
Proof.
  unfold one_of. rewrite existsb_exists, list_elem_of_In. split; [intros (y & Hy & E)|intros H; exists x; by rewrite String.eqb_refl].
  apply String.eqb_eq in E. by subst.
Qed.

Lemma grown_skip rows r s : grown rows s -> grown rows (skip r s).
Proof. done. Qed.

Lemma grown_take rows campaign works c rec s : grown rows s -> grown rows (take_record campaign works c rec s).
Proof.
  intros (Hn & new & Hk & Hi & Hw). unfold take_record. destruct (import_record _ _ _ rec) as [row|r| |] eqn:E; [|by split; [|exists new]..].
  apply import_record_consented in E as (H1 & H2 & _ & H4 & H5). destruct works; [|by split; [|exists new]]. cbn [negb].
  destruct (one_of _ _) eqn:Ho; [by split; [|exists new]|]. split; cbn [kept imported].
  - rewrite map_app. apply NoDup_app. split; [done|]. split; [|apply NoDup_singleton]. intros k Hin Hk'. apply list_elem_of_singleton in Hk' as ->.
    apply one_of_spec in Hin. exact (eq_true_false_abs _ Hin Ho).
  - exists (new ++ [(bulkKey campaign (i_phone row) (i_message row), row)]). rewrite Hk, app_assoc, length_app. cbn [length]. split; [done|]. split; [lia|]. apply Forall_app. split; [done|].
    constructor; [|constructor]. exact (conj H1 (conj H2 (conj H4 H5))).
Qed.

Lemma loop_grown fuel campaign works reader rows : forall i first c s s', grown rows s -> import_loop fuel campaign works reader i first c s = Some s' -> grown rows s'.
Proof.
  induction fuel as [|fuel IH]; intros i first c s s' Hg H; [done|]. cbn [import_loop] in H. destruct (reader i) as [rec| |].
  - cbv zeta in H. destruct (first && _); eapply IH in H; try done. by apply grown_take.
  - by injection H as <-.
  - eapply IH in H; [done|]. by apply grown_skip.
Qed.

(** An import adds well-formed rows only, as many as it says, and never a second row with
    the key of another. *)
Theorem import_grown fuel campaign works reader rows s : NoDup (map fst rows) ->
  bulkMessageImportHandler_csv fuel campaign works reader rows = Some s -> grown rows s.
Proof. intros Hn. apply loop_grown. split; [done|]. exists []. by rewrite app_nil_r. Qed.

(** *** Its end *)

Definition seen (s : state) : nat := (imported s + length (skipped s))%nat.

Lemma seen_skip r s : seen (skip r s) = S (seen s).
Proof. unfold seen, skip. cbn [imported skipped]. rewrite length_app. cbn [length]. lia. Qed.

Lemma import_record_answers p m c rec : import_record p m c rec <> Panic /\ import_record p m c rec <> NoFuel.
Proof. unfold import_record. by repeat case_match. Qed.

Lemma seen_take campaign works c rec s : seen (take_record campaign works c rec s) = S (seen s).
Proof.
  unfold take_record. destruct (import_record_answers (phoneIdx c) (msgIdx c) (consIdx c) rec). destruct (import_record _ _ _ rec); try done; [|apply seen_skip].
  destruct works; [|apply seen_skip]. cbn [negb]. destruct (one_of _ _); [apply seen_skip|]. done.
Qed.

Lemma loop_ends n campaign works reader : forall i first c s, (forall j, (j < n)%nat -> reader (i + j)%nat <> Eof) -> reader (i + n)%nat = Eof ->
  exists s', import_loop (S n) campaign works reader i first c s = Some s' /\
    (seen s' = seen s + n \/ first = true /\ S (seen s') = seen s + n)%nat.
Proof.
  induction n as [|n IH]; intros i first c s Hn He.
  - rewrite Nat.add_0_r in He. exists s. cbn [import_loop]. rewrite He. split; [done|]. left. lia.
  - pose proof (Hn 0%nat ltac:(lia)) as H0. rewrite Nat.add_0_r in H0.
    assert (forall j, (j < n)%nat -> reader (S i + j)%nat <> Eof) as Hn' by (intros j Hj; pose proof (Hn (S j) ltac:(lia)); by replace (S i + j)%nat with (i + S j)%nat by lia).
    replace (i + S n)%nat with (S i + n)%nat in He by lia.
    remember (S n) as m eqn:Em. cbn [import_loop]. destruct (reader i) as [rec| |]; [|done|]; subst m.
    + cbv zeta. destruct first; cbn [andb].
      * destruct (is_header (clean rec)).
        -- destruct (IH (S i) false (columns_from 0 (clean rec) c) s Hn' He) as (s' & -> & [Hs|[? ?]]); [|done]. exists s'. split; [done|]. right. split; [done|lia].
        -- destruct (IH (S i) false (columns_from 0 (clean rec) c) (take_record campaign (works i) (columns_from 0 (clean rec) c) rec s) Hn' He) as (s' & -> & [Hs|[? ?]]); [|done].
           exists s'. split; [done|]. rewrite seen_take in Hs. left. lia.
      * destruct (IH (S i) false c (take_record campaign (works i) c rec s) Hn' He) as (s' & -> & [Hs|[? ?]]); [|done]. exists s'. split; [done|]. rewrite seen_take in Hs. left. lia.
    + destruct (IH (S i) first c (skip Malformed s) Hn' He) as (s' & -> & Hs). exists s'. split; [done|]. rewrite seen_skip in Hs. destruct Hs as [Hs|[-> Hs]]; [left|right; split; [done|]]; lia.
Qed.

(** A list that ends is read to its end, and every record but a header is counted once. *)
Theorem import_ends n campaign works reader rows : (forall j, (j < n)%nat -> reader j <> Eof) -> reader n = Eof ->
  exists s, bulkMessageImportHandler_csv (S n) campaign works reader rows = Some s /\ (seen s = n \/ S (seen s) = n).
Proof.
  intros Hn He. destruct (loop_ends n campaign works reader 0 true (mkColumns 0 1 2) (mkState rows 0 []) Hn He) as (s' & H & Hs).
  exists s'. split; [exact H|]. cbn in Hs. lia.
Qed.

(** An upload that breaks off is not: the reader keeps answering with the error, and the
    loop counts it again and again. *)
Lemma import_stuck fuel campaign works reader n : (forall j, (j < n)%nat -> reader j <> Eof) -> (forall j, (n <= j)%nat -> reader j = ReadError) ->
  forall i first c s, import_loop fuel campaign works reader i first c s = None.
Proof.
  intros Hn Hr. induction fuel as [|fuel IH]; intros i first c s; [done|]. cbn [import_loop].
  destruct (reader i) as [rec| |] eqn:E; [cbv zeta; by destruct (first && _)| |apply IH].
  destruct (decide (i < n)%nat) as [Hi|Hi]; [by destruct (Hn i Hi)|]. rewrite Hr in E by lia. done.
Qed.

End import.

(** The columns may come in any order. *)
Lemma header_read : columns_from 0 (clean ["Opt-in"; " Mobile Number "; "TEXT"]) (mkColumns 0 1 2) = mkColumns 1 2 0.
Proof. reflexivity. Qed.

(** ** Actions *)

(** The loop of the "send" action: what was attempted and sent. *)
Fixpoint send_selected (st : settings) (selected : list string) (sessions : string -> bool) (envs : nat -> send_env) (times : nat -> Z)
    (limit attempted : nat) (sent : nat) (q : list bulk_row) (p : panel) (es : list effect) : nat * nat * list bulk_row * panel * list effect :=
  match limit with
  | O => (attempted, sent, q, p, es)
  | S limit =>
      let uid := bulkSenderForIndex selected attempted in
      match claimBulkRow (times attempted) uid q with
      | (None, q) => (attempted, sent, q, p, es)
      | (Some (id, target, text), q) =>
          if negb (sessions uid) then send_selected st selected sessions envs times limit (attempted + 1) sent (markBulkFailed (times attempted) id q) p es
          else
            let '(p, es', r) := safeSendMessage st (envs attempted) uid (jid.mkJID target 0 0 0 jid.DefaultUserServer) text p in
            match r with
            | Ok _ => send_selected st selected sessions envs times limit (attempted + 1) (sent + 1) (markBulkSent (times attempted) id q) p (es ++ es')
            | _ => send_selected st selected sessions envs times limit (attempted + 1) sent (markBulkFailed (times attempted) id q) p (es ++ es')
            end
      end
  end.

Definition send_limit (limit : Z) : Z := let limit := if limit <? 1 then 20 else limit in if 200 <? limit then 200 else limit.

Definition send_ids (ids connected : list string) : list string :=
  let ids := match ids with [] => connected | _ => ids end in List.filter (fun id => one_of connected id) ids.

Definition bulkQueuedCount (q : list bulk_row) : nat := length (List.filter (fun r => bool_decide (b_status r = Queued)) q).

Inductive answer :=
  | UnknownAction
  | NoAccounts
  | Affected (n : nat)
  | SentRows (attempted sent remaining : nat).

(** Rows an action concerns. *)
Definition concerns (a : bulk_action) (r : bulk_row) : bool :=
  match a with
  | Pause => bool_decide (b_status r = Queued)
  | Resume => bool_decide (b_status r = Paused)
  | Cancel => bool_decide (b_status r = Queued \/ b_status r = Paused \/ b_status r = Failed)
  | RetryFailed => bool_decide (b_status r = Failed)
  | ClearQueue => bool_decide (b_status r <> Sending /\ b_status r <> Sent)
  end.

(** [connected]: [bulkConnectedDevices]. *)
Definition bulkMessageImportHandler_action (st : settings) (action : string) (user_ids : list string) (limit : Z) (connected : list string) (sessions : string -> bool)
    (envs : nat -> send_env) (times : nat -> Z) (now : Z) (q : list bulk_row) (p : panel) : answer * list bulk_row * panel * list effect :=
  if negb (String.eqb (to_lower (trim_space action)) "send") then
    match parse_action action with
    | None => (UnknownAction, q, p, [])
    | Some a => (Affected (length (List.filter (concerns a) q)), run_action a now q, p, [])
    end
  else
    match send_ids user_ids connected with
    | [] => (NoAccounts, q, p, [])
    | selected =>
        let '(attempted, sent, q, p, es) := send_selected st selected sessions envs times (Z.to_nat (send_limit limit)) 0 0 q p [] in
        (SentRows attempted sent (bulkQueuedCount q), q, p, es)
    end.

(** The action does what as many turns of the background worker do, for the accounts
    chosen. *)
Theorem send_selected_batch st selected sessions envs times n : forall attempted sent q p es,
  let '(a, s, q', p', es') := send_selected st selected sessions envs times n attempted sent q p es in
  process_batch st selected sessions envs times n attempted q p es = (q', p', es') /\ (attempted <= a <= attempted + n)%nat /\ (sent <= s <= sent + (a - attempted))%nat.
Proof.
  induction n as [|n IH]; intros attempted sent q p es; [cbn; split_and!; (done || lia)|]. cbn [send_selected process_batch].
  destruct (claimBulkRow _ _ q) as [[[[id target] text]|] q1]; [|split_and!; (done || lia)].
  destruct (sessions _); cbn [negb].
  - destruct (safeSendMessage _ _ _ _ _ _) as [[p1 es1] r].
    destruct r as [u|e| |]; match goal with |- context [send_selected ?x1 ?x2 ?x3 ?x4 ?x5 ?x6 ?x7 ?x8 ?x9 ?x10 ?x11] => specialize (IH x7 x8 x9 x10 x11); destruct (send_selected x1 x2 x3 x4 x5 x6 x7 x8 x9 x10 x11) as [[[[a' s'] q'] p'] es'] end;
      destruct IH as (-> & H1 & H2); split_and!; (done || lia).
  - match goal with |- context [send_selected ?x1 ?x2 ?x3 ?x4 ?x5 ?x6 ?x7 ?x8 ?x9 ?x10 ?x11] => specialize (IH x7 x8 x9 x10 x11); destruct (send_selected x1 x2 x3 x4 x5 x6 x7 x8 x9 x10 x11) as [[[[a' s'] q'] p'] es'] end.
    destruct IH as (-> & H1 & H2). split_and!; (done || lia).
Qed.

(** ** Status *)

Definition statuses : list bulk_status := [Queued; Sending; Sent; Failed; Paused; Cancelled].

Definition bulkMessageStatusHandler (now : Z) (q : list bulk_row) : list (bulk_status * nat) * list bulk_row :=
  let q := recoverStuck now q in (map (fun s => (s, length (List.filter (fun r => bool_decide (b_status r = s)) q))) statuses, q).

(** Every row is counted once. *)
Lemma counts_all now q : let '(counts, q') := bulkMessageStatusHandler now q in foldr (fun x n => (snd x + n)%nat) 0%nat counts = length q /\ length q' = length q.
Proof.
  cbn [bulkMessageStatusHandler]. split; [|apply length_map].
  replace (length q) with (length (recoverStuck now q)) by apply length_map. generalize (recoverStuck now q) as l. induction l as [|r l IH]; [done|].
  cbn [map foldr snd statuses List.filter length] in *. rewrite <- IH. destruct (b_status r); repeat (case_bool_decide; try done); cbn [length]; lia.
Qed.

End imports.

Module repair.

(** ** The table at start *)

(** A row as an older program may have left it. *)
Record raw_row := mkRaw { w_id : Z; w_phone : option string; w_target : option string; w_status : option string; w_attempts : option Z; w_key : option string; w_created : option Z; w_updated : option Z }.

Definition blank (o : option string) : bool := match o with None => true | Some s => String.eqb s "" end.

Definition repair_row (now : Z) (r : raw_row) : raw_row :=
  mkRaw (w_id r) (w_phone r) (if blank (w_target r) && negb (blank (w_phone r)) then w_phone r else w_target r)
    (if blank (w_status r) then Some "queued" else w_status r) (Some (default 0 (w_attempts r))) (w_key r) (Some (default now (w_created r))) (Some (default now (w_updated r))).

Definition same_key (a b : raw_row) : bool := match w_key a, w_key b with Some x, Some y => String.eqb x y | _, _ => false end.

(** Of the rows with one key the one with the smallest id stays. *)
Definition drop_duplicates (l : list raw_row) : list raw_row := List.filter (fun a => negb (existsb (fun b => same_key a b && (w_id b <? w_id a)) l)) l.

Definition ensureBulkMessageTable (now : Z) (l : list raw_row) : list raw_row := drop_duplicates (map (repair_row now) l).

Lemma kept_rows l a : a ∈ drop_duplicates l -> a ∈ l /\ forall b, b ∈ l -> same_key a b = true -> w_id a <= w_id b.
Proof.
  unfold drop_duplicates. rewrite !list_elem_of_In, filter_In. intros [Ha Hn]. split; [done|]. intros b Hb Hs. apply list_elem_of_In in Hb.
  destruct (Z.leb_spec (w_id a) (w_id b)) as [|Hlt]; [done|]. rewrite negb_true_iff in Hn. refine (match eq_true_false_abs _ (proj2 (existsb_exists _ _) _) Hn with end). exists b. by rewrite Hs, (proj2 (Z.ltb_lt _ _) Hlt).
Qed.

(** The table can be given its unique index: different rows have different keys. *)
Theorem repaired_unique now l a b k : (forall x y, x ∈ l -> y ∈ l -> w_id x = w_id y -> x = y) ->
  a ∈ ensureBulkMessageTable now l -> b ∈ ensureBulkMessageTable now l -> w_key a = Some k -> w_key b = Some k -> a = b.
Proof.
  intros Hid Ha Hb Ka Kb. apply kept_rows in Ha as [Ha Ha'], Hb as [Hb Hb'].
  assert (same_key a b = true /\ same_key b a = true) as [E1 E2] by (unfold same_key; rewrite Ka, Kb; by rewrite String.eqb_refl).
  specialize (Ha' b Hb E1). specialize (Hb' a Ha E2). apply list_elem_of_fmap in Ha as (x & -> & Hx), Hb as (y & -> & Hy). f_equal. apply Hid; [done..|]. cbn in *. lia.
Qed.

(** No key is lost. *)
Lemma repaired_keys now l a k : a ∈ l -> w_key a = Some k -> exists b, b ∈ ensureBulkMessageTable now l /\ w_key b = Some k.
Proof.
  intros Ha Ka. unfold ensureBulkMessageTable. set (m := map (repair_row now) l).
  assert (exists b, b ∈ m /\ w_key b = Some k) as Hb by (exists (repair_row now a); split; [by apply list_elem_of_fmap_2|done]). clearbody m. clear Ha Ka.
  assert (forall n : nat, forall b, b ∈ m -> w_key b = Some k -> (length (List.filter (fun c => (w_id c <? w_id b)%Z) m) <= n)%nat -> exists b', b' ∈ drop_duplicates m /\ w_key b' = Some k) as H.
  2: { destruct Hb as (b & Hb & Kb). by apply (H _ b Hb Kb (le_n _)). }
  clear Hb. induction n as [|n IH]; intros b Hb Kb Hn.
  all: destruct (existsb (fun c => same_key b c && (w_id c <? w_id b)) m) eqn:E; [|exists b; split; [unfold drop_duplicates; apply list_elem_of_In, filter_In; split; [by apply list_elem_of_In|by rewrite E]|done]].
  all: apply existsb_exists in E as (c & Hc & Ec); apply andb_true_iff in Ec as [Ek Elt].
  - assert (In c (List.filter (fun c => w_id c <? w_id b) m)) as Hin by (by apply filter_In). destruct (List.filter _ m); [done|cbn in Hn; lia].
  - apply (IH c); [by apply list_elem_of_In| |].
    + unfold same_key in Ek. rewrite Kb in Ek. destruct (w_key c) as [y|]; [|done]. apply String.eqb_eq in Ek. by subst.
    + enough (length (List.filter (fun c' => (w_id c' <? w_id c)%Z) m) < length (List.filter (fun c' => (w_id c' <? w_id b)%Z) m))%nat by lia.
      clear IH Hn Hb. apply Z.ltb_lt in Elt. induction m as [|x m IHm]; [done|]. cbn [List.filter].
      assert (length (List.filter (fun c' => (w_id c' <? w_id c)%Z) m) <= length (List.filter (fun c' => (w_id c' <? w_id b)%Z) m))%nat as Hle.
      { clear -Elt. induction m as [|y m IHm]; [done|]. cbn [List.filter]. destruct (Z.ltb_spec (w_id y) (w_id c)), (Z.ltb_spec (w_id y) (w_id b)); cbn [length]; lia. }
      destruct Hc as [->|Hc].
      * rewrite Z.ltb_irrefl, (proj2 (Z.ltb_lt _ _) Elt). cbn [length]. lia.
      * specialize (IHm Hc). destruct (Z.ltb_spec (w_id x) (w_id c)), (Z.ltb_spec (w_id x) (w_id b)); cbn [length]; lia.
Qed.

End repair.

Module migration.

(** A value as the SQLite driver gives it. *)
Inductive value := Null | Int64 (n : Z) | Bool (b : bool) | Text (s : string) | Blob (b : bytes) | Other (n : Z).

Definition bytes_string (b : bytes) : string := String.string_of_list_byte b.

Section migration.
(** [uuid.UUID(x).String()] of sixteen bytes, and when PostgreSQL's constraints refuse a
    row because of another. *)
Context (uuid_string : bytes -> string).

Definition normalizeSQLiteValue (v : value) (pgType : string) : value :=
  match v with
  | Null => Null
  | _ =>
      if String.eqb pgType "boolean" then
        match v with
        | Int64 x => Bool (negb (x =? 0))
        | Blob x => Bool (String.eqb (to_lower (bytes_string x)) "true" || String.eqb (bytes_string x) "1")
        | _ => v
        end
      else if String.eqb pgType "uuid" then
        match v with Blob x => if (length x =? 16)%nat then Text (uuid_string x) else Text (bytes_string x) | _ => v end
      else v
  end.

Abbreviation row := (gmap string value).

(** A table of the old database: its columns in order and its rows. *)
Record source := mkSource { s_columns : list string; s_rows : list (list value) }.
(** A table of the new one: the types of its columns, its rows and when two rows exclude
    each other. *)
Record target := mkTarget { t_types : gmap string string; t_rows : list row; t_conflict : row -> row -> bool }.

Definition commonColumns (src : source) (t : target) : list string := List.filter (fun c => bool_decide (is_Some (t_types t !! c))) (s_columns src).

(** One row, cut down to the columns both tables have. *)
Definition converted (src : source) (t : target) (values : list value) : row :=
  list_to_map (omap (fun x => (fun ty => (fst x, normalizeSQLiteValue (snd x) ty)) <$> t_types t !! fst x) (combine (s_columns src) values)).

(** INSERT ... ON CONFLICT DO NOTHING. *)
Definition insert (r : row) (t : target) : target :=
  if existsb (t_conflict t r) (t_rows t) then t else mkTarget (t_types t) (t_rows t ++ [r]) (t_conflict t).

Definition copySQLiteTable (src : source) (t : target) : target :=
  match commonColumns src t with
  | [] => t
  | _ => foldl (fun t values => insert (converted src t values) t) t (s_rows src)
  end.

(** The databases: tables by name. *)
Definition copySQLiteTables (src : gmap string source) (tables : list string) (db : gmap string target) : gmap string target :=
  foldl (fun db table => match src !! table, db !! table with Some s, Some t => <[table := copySQLiteTable s t]> db | _, _ => db end) db tables.

Definition whatsmeowTables : list string :=
  ["whatsmeow_device"; "whatsmeow_identity_keys"; "whatsmeow_pre_keys"; "whatsmeow_sessions"; "whatsmeow_sender_keys"; "whatsmeow_app_state_sync_keys";
   "whatsmeow_app_state_version"; "whatsmeow_app_state_mutation_macs"; "whatsmeow_contacts"; "whatsmeow_chat_settings"; "whatsmeow_message_secrets";
   "whatsmeow_privacy_tokens"; "whatsmeow_nct_salt"; "whatsmeow_lid_map"; "whatsmeow_event_buffer"; "whatsmeow_retry_buffer"].

(** The sessions of the old users.db: user, jid and time. *)
Definition copyLegacyUserSessions (now : Z) (src : list (string * string * option Z)) (sessions : gmap string (string * Z)) : gmap string (string * Z) :=
  foldl (fun m x => let '(uid, j, updated) := x in <[uid := (j, default now updated)]> m) sessions src.

(** [store_db], [users_db]: the files, when they are there. *)
Definition migrateLegacySQLite (now : Z) (SUPABASE_MIGRATE_SQLITE : string) (store_db : option (gmap string source)) (users_db : option (list (string * string * option Z)))
    (db : gmap string target) (sessions : gmap string (string * Z)) : gmap string target * gmap string (string * Z) :=
  if String.eqb (to_lower (trim_space SUPABASE_MIGRATE_SQLITE)) "false" then (db, sessions)
  else
    let empty := match db !! "whatsmeow_device" with Some t => (length (t_rows t) =? 0)%nat | None => true end in
    let db := match empty, store_db with true, Some src => copySQLiteTables src whatsmeowTables db | _, _ => db end in
    (db, match users_db with Some src => copyLegacyUserSessions now src sessions | None => sessions end).

(** *** Copying again changes nothing *)

Definition present (r : row) (t : target) : bool := existsb (t_conflict t r) (t_rows t).

Lemma insert_types r t : t_types (insert r t) = t_types t /\ t_conflict (insert r t) = t_conflict t.
Proof. unfold insert. by destruct (existsb _ _). Qed.

Lemma insert_grows r r' t : present r' t = true -> present r' (insert r t) = true.
Proof. unfold present, insert. destruct (existsb (t_conflict t r) _); [done|]. cbn [t_conflict t_rows]. intros H. by rewrite existsb_app, H. Qed.

Lemma insert_present r t : (forall x, t_conflict t x x = true) -> present r (insert r t) = true.
Proof. intros Hr. unfold present, insert. destruct (existsb (t_conflict t r) _) eqn:E; [done|]. cbn [t_conflict t_rows]. rewrite existsb_app. cbn [existsb]. by rewrite Hr, orb_true_r. Qed.

Lemma converted_types src t t' values : t_types t' = t_types t -> converted src t' values = converted src t values.
Proof. intros E. unfold converted. by rewrite E. Qed.

Definition copy_rows (src : source) (l : list (list value)) (t : target) : target := foldl (fun t values => insert (converted src t values) t) t l.

Lemma copy_rows_types src l : forall t, t_types (copy_rows src l t) = t_types t /\ t_conflict (copy_rows src l t) = t_conflict t.
Proof.
  induction l as [|v l IH]; intros t; [done|]. unfold copy_rows in *. cbn [foldl]. destruct (IH (insert (converted src t v) t)) as [-> ->]. apply insert_types.
Qed.

Lemma copy_rows_grows src l r : forall t, present r t = true -> present r (copy_rows src l t) = true.
Proof. induction l as [|v l IH]; intros t H; [done|]. apply (IH (insert (converted src t v) t)). by apply insert_grows. Qed.

Lemma copied_present src l : forall t, (forall x, t_conflict t x x = true) -> forall v, v ∈ l -> present (converted src t v) (copy_rows src l t) = true.
Proof.
  induction l as [|w l IH]; intros t Hr v Hv; [by apply elem_of_nil in Hv|]. unfold copy_rows. cbn [foldl]. fold (copy_rows src l (insert (converted src t w) t)).
  destruct (insert_types (converted src t w) t) as [E1 E2]. apply elem_of_cons in Hv as [->|Hv].
  - apply copy_rows_grows. by apply insert_present.
  - rewrite <- (converted_types src t (insert (converted src t w) t) v E1). apply IH; [by rewrite E2|done].
Qed.

Lemma copy_rows_idle src l : forall t, (forall v, v ∈ l -> present (converted src t v) t = true) -> copy_rows src l t = t.
Proof.
  induction l as [|v l IH]; intros t H; [done|]. unfold copy_rows. cbn [foldl]. assert (insert (converted src t v) t = t) as E.
  { unfold insert. pose proof (H v (list_elem_of_here _ _)) as Hp. unfold present in Hp. by rewrite Hp. }
  rewrite E. apply IH. intros w Hw. apply H. by apply list_elem_of_further.
Qed.

(** A table copied again is as it was after the first time. *)
Theorem copy_twice src t : (forall x, t_conflict t x x = true) -> copySQLiteTable src (copySQLiteTable src t) = copySQLiteTable src t.
Proof.
  intros Hr. unfold copySQLiteTable at 2 3. destruct (commonColumns src t) as [|c cols] eqn:Ec; [unfold copySQLiteTable; by rewrite Ec|].
  fold (copy_rows src (s_rows src) t). destruct (copy_rows_types src (s_rows src) t) as [E1 E2].
  unfold copySQLiteTable. replace (commonColumns src (copy_rows src (s_rows src) t)) with (c :: cols) by (rewrite <- Ec; unfold commonColumns; by rewrite E1).
  apply copy_rows_idle. intros v Hv. rewrite (converted_types src t _ v E1). by apply copied_present.
Qed.

(** The old rows that were there stay. *)
Lemma copy_keeps src t : t_rows t `prefix_of` t_rows (copySQLiteTable src t).
Proof.
  unfold copySQLiteTable. destruct (commonColumns src t); [done|]. clear. revert t. induction (s_rows src) as [|v l IH]; intros t; [done|]. cbn [foldl].
  etransitivity; [|apply IH]. unfold insert. destruct (existsb _ _); [done|]. by apply prefix_app_r.
Qed.

(** The sessions are copied at every start while users.db is there: a user who has been
    paired with another number since gets the old one back. *)
Lemma sessions_overwritten now db uid old new t : snd (migrateLegacySQLite now "" None (Some [(uid, old, None)]) db {[uid := (new, t)]}) !! uid = Some (old, now).
Proof. cbn. by rewrite lookup_insert_eq. Qed.

End migration.

End migration.
